(* ===== verification/_CoqProject ===== *)
-Q . S2P
Prelude.v
Kernel.v
Optimistic.v
Orders.v
Payments.v
Inventory.v
RefundProtocol.v
Promotions.v
Discounts.v
Expression.v
Rules.v
Consumer.v
Relay.v
Saga.v
Ledger.v
Finance.v
Loyalty.v
Tax.v
Checkout.v
CheckoutFlow.v
CheckoutPorts.v
Access.v
Policies.v
Relations.v
AuditTrail.v
Sessions.v
AccessFlow.v
Store.v
Plans.v
Invoices.v
BillingFlow.v
BillingSafety.v
BillingCharges.v
BillingCalendar.v
BillingDunning.v
Paging.v
Cart.v
CartCache.v
ShippingZones.v
Uuids.v
Lifecycle.v
Fulfillment.v
Shipments.v
Returns.v
OrderFlow.v
OrderHistory.v
CapabilityGraph.v
FeatureSpec.v
Features.v
Coupons.v
