(* ===== verification/Prelude.v ===== *)
(** * The lumo commerce platform: a verification development

    The platform is a monorepo of TypeScript services, each a bounded context with a pure domain layer
    ([services/<name>/src/domain]), use cases ([application]) and adapters ([infrastructure]), over shared
    packages ([packages/<name>/src]). This library models the domain code, the use cases that compose it
    and the protocols (locking, outbox, consumers, saga) by which the contexts interact, and proves what
    makes them correct. This file is its prelude: domain errors and results, strings, lists, maps as
    insertion-ordered lists, sums and rounding, and the tactics the other files share.

    ** How the parts interact

    A use case loads an aggregate from its row, calls the aggregate and saves it under its version, with
    the events it raised written to the outbox in the same transaction (Kernel.v, Optimistic.v). A relay
    hands outbox rows to the consumers of their topic (Relay.v), which record what they handled in an
    inbox and retry or dead-letter what fails (Consumer.v). Checkout (Checkout.v, CheckoutFlow.v) prices a
    session through ports that Promotions (Promotions.v, Discounts.v) and Finance (Tax.v) implement
    (CheckoutPorts.v), and a purchase saga (Saga.v) takes it through Inventory (Inventory.v), Payments
    (Payments.v, RefundProtocol.v) and Orders (Orders.v). Conditions of rules are expressions evaluated
    in a context (Expression.v, Rules.v). The events Orders and Payments raise reach Finance, which books
    them in its ledger (Ledger.v, Finance.v), and Loyalty, which earns points for them (Loyalty.v), through
    handlers whose contract with the inbox is the class [IdempotentHandler] of Consumer.v. Who may do what
    is decided by Security: a use case of AccessFlow.v loads the principal, the session, the roles (Access.v)
    and the policy (Policies.v), decides, and records the decision in the audit chain (AuditTrail.v) in the
    transaction that publishes it. Licensing bills the merchants of the platform itself: a subscription
    pinned to a version of a plan (Plans.v) is renewed by a job that drafts an invoice, spends a coupon on
    it (Invoices.v) and collects it from a payment provider, and a failed collection is retried by a second
    job until the dunning policy gives up (BillingFlow.v). What was bought is shipped and may come back:
    Fulfillment (Fulfillment.v) reserves stock and books shipments, Shipping quotes rates by zone
    (ShippingZones.v) and buys labels (Shipments.v), and Returns (Returns.v) inspects what is sent back and
    requests refunds from Payments. The three keep an aggregate with a status, a log of attempts and an
    outbox in the same way, which is the class [Lifecycle] of Lifecycle.v. A purchase starts in a cart
    (Cart.v), which is read through a cache (CartCache.v) and listed by cursors (Paging.v). What the platform
    can do is itself a registry of versioned features with a dependency graph (Features.v).

    ** Files

    - Kernel.v: [packages/domain/src/shared]. [Money], guards, identities, aggregate roots, events.
    - Optimistic.v: the repositories' versioned load and save ([prisma-*-repository.ts]) and
      [withConcurrencyRetry]. A step relation of concurrent transactions on one row; it refines running
      the committed operations one after the other.
    - Orders.v: [services/orders/src/domain]. Order, its append-only history and the transition table.
    - Payments.v: [services/payments/src/domain]. Payment intent, charges, refunds, capacity.
    - RefundProtocol.v: [payment-lifecycle.use-cases.ts], [RefundPaymentLifecycle]: workers, crashes,
      retries and the log of the calls to a provider of which nothing is assumed, as a step relation.
    - Inventory.v: [services/inventory/src]. Stock levels, reservations, transfers, the use cases and the
      rule by which they find a row.
    - Promotions.v, Discounts.v: [services/promotions/src/domain]. Rules, schedules, the lifecycle, and
      [calculateDiscounts] with its allocation, combination search and buy X get Y loop.
    - Tax.v: [services/finance/src/domain/tax-settings.ts], [tax-calculation.ts].
    - Ledger.v, Finance.v: [services/finance/src]. Double-entry journals, their reversal, balances, the
      trial balance and the statements (Ledger.v); the ledger's rows, the consumers that book paid orders,
      captures, refunds, returns, adjustments and spend, and the period reports (Finance.v).
    - Loyalty.v: [services/loyalty/src]. Points accounts with their ledger and tiers, the use cases on the
      stored account and the consumer that earns points for paid orders.
    - Checkout.v, CheckoutFlow.v, CheckoutPorts.v: [services/checkout/src] and the adapters of
      [apps/admin/src/infrastructure/cross-context]. The session and its row, the use cases on a stored
      session, the ports as classes with the laws Checkout relies on and the instances that keep them.
    - Expression.v, Rules.v: [packages/expression/src], [packages/rules/src].
    - Consumer.v, Relay.v: [packages/kafka/src/consumer-runtime.ts],
      [packages/messaging/src/outbox/outbox-delivery-relay.ts] and their Prisma stores.
    - Saga.v: [packages/temporal/src/saga/purchase-saga.ts] and its workflow's policies.
    - Access.v, Policies.v, Relations.v, Sessions.v, AuditTrail.v: [services/security/src/domain]. Roles,
      assignments and effective permissions; resources, conditions, versioned policies and the zero-trust
      decision; relation tuples and their check; principals, sessions and delegations; the hash-chained
      audit ledger and its concurrent appends.
    - AccessFlow.v: [services/security/src/application]. The use cases that decide access, establish,
      refresh and revoke sessions and act for others, over the rows, the ledger and the outbox.

    - Store.v: tables of versioned rows (a class a service's stores are instances of), their loads and
      saves, the unit of work, and transactions that interleave between their reads and their commit.
    - Plans.v, Invoices.v: [services/licensing/src/domain]. Plan specifications, versions, plans and
      subscriptions; invoices, coupons, stored payment methods, and the rows they are written to.
    - BillingFlow.v: [services/licensing/src/application], the stores, both payment adapters and the two
      jobs of [apps/runtime/src/scheduler.ts].
    - BillingSafety.v, BillingCharges.v, BillingCalendar.v, BillingDunning.v: what billing guarantees when
      its transactions interleave, when the provider's answers are lost, over a subscription's periods and
      over the retries of dunning.
    - Paging.v: [packages/repository/src] and the queries of the repositories that list with it.
    - Cart.v: [services/cart/src]. The cart, its rows and every use case; CartCache.v: the repository that
      caches it ([cached-cart-repository.ts]).
    - ShippingZones.v: [services/shipping/src], zones: the aggregate, its stored rates, the use cases and
      the quoting rules.
    - Uuids.v, Lifecycle.v: ids and the columns that take them; the row, attempt log and outbox of an
      aggregate with a status, its save and load, and transactions beside a world outside the store.
    - Fulfillment.v, Shipments.v, Returns.v: [services/fulfillment/src], [services/shipping/src] and
      [services/returns/src]: each aggregate with its methods, its rows and every use case, against the
      ports of the other contexts, which are records of functions.

    - OrderFlow.v, OrderHistory.v: the rest of [services/orders/src]. The rows of an order, the counter of its
      number, every use case with the calls it makes to other contexts, the consumer of captures
      (OrderFlow.v), and what every schedule of them keeps (OrderHistory.v).
    - CapabilityGraph.v, FeatureSpec.v, Features.v: [services/feature-registry/src]. The dependency graph and
      its searches; the parts of a feature's specification, their normalisation and their JSON; features,
      bundles, their rows, every use case and the validator of a registry.
    - Coupons.v: [services/coupons/src]. The coupon a shopper redeems with its ledger, its row and every use
      case, the writing ones as interleaved transactions.

    ** What the theorems show

    - Lifecycles: every reachable order, payment intent, promotion and checkout session follows its
      transition table, failing calls change nothing, and an order can always be finished.
    - Money: the refunds of an intent never exceed what it captured, and over every interleaving of
      workers and crashes no more money moves than that and the calls in doubt (keys that threw or were
      called again), whatever the provider does; a discount never exceeds what it is taken from and is
      split exactly; the chosen discounts are the best compatible set; taxes are exact after discounts,
      which are shared in proportion; the totals of a checkout add up end to end; one completion of a
      checkout places at most one order (a retried one may place another); the saga never keeps money for
      nothing ordered.
    - Stock: reserved levels equal the live reservations, never exceed on-hand, and every use case
      conserves what it does not add or remove.
    - Protocols: interleaved optimistic transactions serialize; a handler takes effect exactly once; the
      relay drops nothing, and run by itself over rows that fit its batch it settles everything.
    - Books: every journal balances, the ledger is exactly the lines of the journals posted, statements
      agree with it, a reversal cancels what it reverses, and a paid order is booked once and earns its
      points once however often it is delivered, nothing being recorded as handled that was not.
    - Billing: however the transactions interleave, a coupon is spent on one invoice; the renewals of a
      subscription that returned billed consecutive periods once each and never early, and one that lost its
      race leaves an invoice for one of these; an invoice is charged under at most one key more than it
      failed (more often only by a provider that charges a key again); dunning ends within the attempts of
      its policy; published versions and issued totals do not change; a coupon never exceeds its invoice.
    - Orders as stored: however the calls interleave, an order loaded in the order its entries were written
      is one its aggregate reaches and its published events are the ones that order raised; numbers are
      consecutive; a capture that was handled is an order that is paid, whatever else is, unless a row order
      of equal times loses the payment, which is shown to happen; a cancellation is cleaned up after it is
      committed.
    - Carts: the total a call answers with is the total stored, whatever order the lines come back in; a
      cart is never handed over and a closed one is final; a cached read returns what was committed; a
      client that follows cursors gets every row that stays, once, and comes to the end of finitely many keys.
    - After the purchase: the events published for a fulfillment order, a shipment or a return lead along
      the transition table to the status stored, however the workers interleave; a return's refund is
      requested at most once; a quote is the best zone's.
    - Features: a published version never changes, however the transactions interleave, and what is saved is
      read back as it was; a registry validates exactly when it is sound; cycles are found when there are any,
      traversals are reachability, upgrade paths are shortest, and the order of listing does not matter.
    - Coupons: a coupon is redeemed no more often than its limit allows and once by each customer of a
      single-use coupon, however the redemptions interleave; an idempotency key counts once.
    - Access: a request is allowed exactly when the active roles grant it and the governing policy weighs
      nothing but allowances; conditions are boolean logic; the relation check follows the tuples; every
      decision joins an audit chain that verifies and that cannot be altered unnoticed; a logout everywhere
      leaves no valid session.
    - Conditions: typed expressions evaluate without error, validated ones within their limits, and the
      rule engine equals a stateless reference.
    - What the code does against its own documentation is proved as well (a shared reservation refunded
      twice, a zero refund, stale shipping at completion, stranded stock, inherited names, captures booked
      as fees, a forked audit chain, sessions nobody checks the owner of, impersonation past its grant, a
      lost answer charged twice, a thrown refund made twice, a completion retried into a second order, a renewal
      stranded or half committed, a replayed callback that revokes
      the card, attempt ids the database refuses, a refund that is never requested again, a voided label
      bought again, dispositions that are not stored, zone edits that undo each other, guest carts that cannot
      be merged, a cache entry that outlives the cart it shows, an order whose history
      reloads out of order, a failed payment that is never requested again, a feature registered as its own
      dependency, a cycle that goes unreported and the bundle on it, a lowered coupon limit that is exceeded).

    ** How the code is modelled

    Methods that throw return a [result] with the error; methods that mutate return the new state.
    Amounts are integers: TypeScript numbers are doubles, exact on the integers below 2^53 that minor
    units stay within, so an exact [Z] is the same number (Expression.v, where fractions and NaN matter,
    uses IEEE doubles). Strings are ASCII; [localeCompare] is the order of code
    units (an argument in Features.v). Dates are
    milliseconds. The clock and identities are arguments; other services are classes or records of
    functions with their laws. Maps that the code iterates keep their insertion order.

    Recursion is structural. Where the code loops, the loop is a fold over its list, or takes fuel that
    a theorem shows sufficient: the buy X get Y loop takes as many rounds as there are units to pair
    (Discounts.v), an expression its own size (Expression.v), the walk up a role's parents one more than
    the roles loaded and the loading of roles one more round than there are rows (Access.v). The depth
    limits of the code are fuel where it has them: 64 for conditions (Policies.v), 32 for relations
    (Relations.v). The searches of a graph have one more than its vertices (CapabilityGraph.v).

    ** Not modelled

    User interfaces, HTTP routes, composition and process start-up; SQL, Kafka, Temporal, Redis and the
    payment providers themselves, whose calls are logged with any outcome (RefundProtocol.v,
    BillingCharges.v) or are arguments; the isolation of transactions beyond what is said of each file: an
    atomic handler's transaction is one step (Consumer.v), the stores of Store.v read and commit apart; rounding
    of doubles beyond 2^53; text beyond ASCII. Contexts not listed above are left to later extensions:
    the catalogue and the pricing engine first, then the entitlements and usage counters of Licensing, the
    rest of Security (credentials, second factors, devices, incidents) and the content services. *)
From stdpp Require Export base tactics numbers list gmap strings option pretty.
From Stdlib Require Export ZArith Lia.
From Stdlib Require Import Ascii.
From Stdlib Require Export Sorted.

#[global] Open Scope Z_scope.
#[export] Set Default Goal Selector "!".

(** ** Domain errors: [packages/utils/src/domain-errors.ts] *)

Record FieldIssue := mkFieldIssue { fi_field : string; fi_message : string }.

Inductive DomainError :=
| ValidationError (message : string) (fields : list FieldIssue)
| NotFoundError (message : string)
| ConflictError (message : string)
| ConcurrencyError (message : string)
| BusinessRuleError (message : string)
| UnexpectedError (message : string)
| AuthenticationError (message : string)
| AuthorizationError (message : string).

Definition retryable (e : DomainError) : bool :=
  match e with
  | ConcurrencyError _ | UnexpectedError _ => true
  | _ => false
  end.

Definition error_message (e : DomainError) : string :=
  match e with
  | ValidationError m _ | NotFoundError m | ConflictError m | ConcurrencyError m
  | BusinessRuleError m | UnexpectedError m | AuthenticationError m | AuthorizationError m => m
  end.

#[export] Instance FieldIssue_eq_dec : EqDecision FieldIssue.
Proof. solve_decision. Defined.
#[export] Instance DomainError_eq_dec : EqDecision DomainError.
Proof. solve_decision. Defined.

(** ** Results and methods

    [result A] is the outcome of code that either returns a value or fails with a domain error: the
    [Result] type of [packages/types/src/result.ts] and, for code that throws, the value returned or
    the error thrown. [M S A] is a method of an object whose fields are the state [S]: a throw keeps
    the mutations made before it, as in JavaScript. *)

Inductive result (A : Type) :=
| Ok (a : A)
| Err (e : DomainError).
Arguments Ok {A} _.
Arguments Err {A} _.

#[export] Instance result_ret : MRet result := fun A a => Ok a.
#[export] Instance result_bind : MBind result := fun A B f r =>
  match r with Ok a => f a | Err e => Err e end.
#[export] Instance result_eq_dec `{EqDecision A} : EqDecision (result A).
Proof. solve_decision. Defined.

Definition isOk {A} (r : result A) : bool := match r with Ok _ => true | Err _ => false end.
Definition unwrapOr {A} (r : result A) (fallback : A) : A :=
  match r with Ok a => a | Err _ => fallback end.

Definition M (S A : Type) : Type := S -> result A * S.

#[export] Instance M_ret S : MRet (M S) := fun A a s => (Ok a, s).
#[export] Instance M_bind S : MBind (M S) := fun A B f m s =>
  match m s with
  | (Ok a, s') => f a s'
  | (Err e, s') => (Err e, s')
  end.

Definition throw {S A} (e : DomainError) : M S A := fun s => (Err e, s).
Definition throw_if {S} (b : bool) (e : DomainError) : M S unit :=
  fun s => if b then (Err e, s) else (Ok tt, s).
Definition gets {S A} (f : S -> A) : M S A := fun s => (Ok (f s), s).
Definition modify {S} (f : S -> S) : M S unit := fun s => (Ok tt, f s).
Definition lift {S A} (r : result A) : M S A := fun s => (r, s).

(** [reduce] with a step that may throw. *)
Fixpoint foldM {A B} (f : A -> B -> result A) (acc : A) (l : list B) : result A :=
  match l with
  | [] => Ok acc
  | x :: l' => acc' ← f acc x; foldM f acc' l'
  end.

(** ** Numbers

    A JavaScript number that the code tests with [Number.isInteger]: an integer, or anything else (a
    fraction, [NaN], an infinity). Integer arithmetic is exact on [Z]; the code's quantities are
    integer minor units and counts, which JavaScript computes exactly up to [MAX_SAFE_INTEGER]. *)

Inductive jsnum := NInt (z : Z) | NOther.
#[export] Instance jsnum_eq_dec : EqDecision jsnum.
Proof. solve_decision. Defined.

(** [!Number.isInteger(n) || n < lo], with the integer when the test passes. *)
Definition integer_from (lo : Z) (n : jsnum) : option Z :=
  match n with
  | NInt z => if bool_decide (z < lo) then None else Some z
  | NOther => None
  end.

(** [Number.isSafeInteger] *)
Definition MAX_SAFE_INTEGER : Z := 2 ^ 53 - 1.
Definition isSafeInteger (n : jsnum) : bool :=
  match n with NInt z => bool_decide (- MAX_SAFE_INTEGER <= z <= MAX_SAFE_INTEGER) | NOther => false end.

(** ** Strings

    Strings are ASCII; [trim] and [toUpperCase] act on the ASCII characters. *)

Definition dquote : string := String (ascii_of_nat 34) EmptyString.
Definition quoted (s : string) : string := dquote +:+ s +:+ dquote.

Definition is_space (c : ascii) : bool :=
  let n := nat_of_ascii c in
  (Nat.leb 9 n && Nat.leb n 13)%nat || (n =? 32)%nat.
Definition is_upper (c : ascii) : bool :=
  let n := nat_of_ascii c in (Nat.leb 65 n && Nat.leb n 90)%nat.
Definition is_lower (c : ascii) : bool :=
  let n := nat_of_ascii c in (Nat.leb 97 n && Nat.leb n 122)%nat.
Definition is_digit (c : ascii) : bool :=
  let n := nat_of_ascii c in (Nat.leb 48 n && Nat.leb n 57)%nat.
Fixpoint all_chars (f : ascii -> bool) (s : string) : bool :=
  match s with EmptyString => true | String c s' => f c && all_chars f s' end.

(** [s.trim().length === 0] *)
Fixpoint blank (s : string) : bool :=
  match s with
  | EmptyString => true
  | String c s' => is_space c && blank s'
  end.

Fixpoint trim_start (s : string) : string :=
  match s with
  | EmptyString => EmptyString
  | String c s' => if is_space c then trim_start s' else s
  end.
Fixpoint trim_end (s : string) : string :=
  match s with
  | EmptyString => EmptyString
  | String c s' => if is_space c && blank s' then EmptyString else String c (trim_end s')
  end.
Definition trim (s : string) : string := trim_end (trim_start s).

Definition ascii_map (f : nat -> nat) (c : ascii) : ascii := ascii_of_nat (f (nat_of_ascii c)).
Fixpoint string_map (f : ascii -> ascii) (s : string) : string :=
  match s with
  | EmptyString => EmptyString
  | String c s' => String (f c) (string_map f s')
  end.
Definition toUpperCase : string -> string :=
  string_map (ascii_map (fun n => if (Nat.leb 97 n && Nat.leb n 122)%nat then (n - 32)%nat else n)).
Definition toLowerCase : string -> string :=
  string_map (ascii_map (fun n => if (Nat.leb 65 n && Nat.leb n 90)%nat then (n + 32)%nat else n)).

(** [left.includes(right)] *)
Fixpoint contains (left right : string) : bool :=
  String.prefix right left || match left with EmptyString => false | String _ left' => contains left' right end.

(** [s.split(sep)] on one character. *)
Fixpoint split_on (sep : ascii) (s : string) : list string :=
  match s with
  | EmptyString => [EmptyString]
  | String c s' =>
      if bool_decide (c = sep) then EmptyString :: split_on sep s'
      else match split_on sep s' with
           | w :: ws => String c w :: ws
           | [] => [String c EmptyString]
           end
  end.

(** [l.join(sep)] *)
Fixpoint join (sep : string) (l : list string) : string :=
  match l with
  | [] => EmptyString
  | [s] => s
  | s :: l' => s +:+ sep +:+ join sep l'
  end.

(** [a <= b] on strings, by code units. *)
Definition string_le (a b : string) : bool := String.leb a b.

Definition show_nat (n : nat) : string := pretty (N.of_nat n).

(** ** Sums *)

Section sum.
Context {A : Type} (f : A -> Z).

Definition sumZ (l : list A) : Z := foldr (fun x acc => f x + acc) 0 l.

End sum.
#[global] Arguments sumZ {A} f l : simpl never.

(** ** Arrays and maps

    [sort] with a comparison that says when the first argument may come first is stable. A JavaScript
    [Map] keeps its entries in insertion order; setting a present key keeps its place. *)

Fixpoint sort_insert {A} (le : A -> A -> bool) (x : A) (l : list A) : list A :=
  match l with
  | [] => [x]
  | y :: l' => if le x y then x :: l else y :: sort_insert le x l'
  end.
Definition sort_by {A} (le : A -> A -> bool) (l : list A) : list A := foldr (sort_insert le) [] l.

(** [[...new Set(l)]]: the first occurrence of each value. *)
Fixpoint unique {A} `{EqDecision A} (l : list A) : list A :=
  match l with
  | [] => []
  | x :: l' => x :: filter (fun y => y <> x) (unique l')
  end.

Abbreviation jsmap := (list (string * Z)).

Fixpoint map_get (k : string) (m : jsmap) : option Z :=
  match m with
  | [] => None
  | (k', v) :: m' => if bool_decide (k' = k) then Some v else map_get k m'
  end.
(** [m.get(k) ?? 0] *)
Definition map_get0 (k : string) (m : jsmap) : Z := default 0 (map_get k m).
Fixpoint map_set (k : string) (v : Z) (m : jsmap) : jsmap :=
  match m with
  | [] => [(k, v)]
  | (k', v') :: m' => if bool_decide (k' = k) then (k, v) :: m' else (k', v') :: map_set k v m'
  end.
(** [new Map(entries)] *)
Definition map_of (l : list (string * Z)) : jsmap := foldl (fun m kv => map_set kv.1 kv.2 m) [] l.

(** ** Reachability

    An object reached from a constructor by calls of its methods that return: a use case saves the
    object only when every call it made returned. *)

Section reach.
Context {S Op R : Type} (init : S -> Prop) (exec : Op -> M S R).

Inductive reachable : S -> Prop :=
| reach_init s : init s -> reachable s
| reach_step s op r s' : reachable s -> exec op s = (Ok r, s') -> reachable s'.

End reach.

(** A sequence of calls, stopped by the first that throws. *)
Fixpoint run_ops {S Op} (exec : Op -> M S unit) (ops : list Op) : M S unit :=
  match ops with
  | [] => mret tt
  | op :: ops' => exec op;; run_ops exec ops'
  end.

(** ** Lemmas on methods *)

Section methods.
Context {S : Type}.

Lemma bind_Ok {A B} (m : M S A) (f : A -> M S B) s b s'' :
  (m ≫= f) s = (Ok b, s'') <-> exists a s', m s = (Ok a, s') /\ f a s' = (Ok b, s'').
Proof.
  unfold mbind, M_bind. destruct (m s) as [[a|e] s'] eqn:E; split.
  - intros H. by exists a, s'.
  - intros (a' & s1 & [= -> ->] & H). done.
  - done.
  - intros (a' & s1 & [=] & _).
Qed.

Lemma bind_Err {A B} (m : M S A) (f : A -> M S B) s e s'' :
  (m ≫= f) s = (Err e, s'') <->
  m s = (Err e, s'') \/ exists a s', m s = (Ok a, s') /\ f a s' = (Err e, s'').
Proof.
  unfold mbind, M_bind. destruct (m s) as [[a|e'] s'] eqn:E; split.
  - intros H. right. by exists a, s'.
  - intros [[=]|(a' & s1 & [= -> ->] & H)]. done.
  - intros [= -> ->]. by left.
  - intros [[= -> ->]|(a' & s1 & [=] & _)]. done.
Qed.

Lemma ret_Ok {A} (a b : A) (s s' : S) : (mret a : M S A) s = (Ok b, s') <-> b = a /\ s' = s.
Proof. unfold mret, M_ret. naive_solver. Qed.

Lemma gets_Ok {A} (f : S -> A) s b s' : gets f s = (Ok b, s') <-> b = f s /\ s' = s.
Proof. unfold gets. naive_solver. Qed.

Lemma modify_Ok (f : S -> S) s u s' : modify f s = (Ok u, s') <-> s' = f s.
Proof. unfold modify. destruct u. naive_solver. Qed.

Lemma lift_Ok {A} (r : result A) (s : S) b s' : lift r s = (Ok b, s') <-> r = Ok b /\ s' = s.
Proof. unfold lift. naive_solver. Qed.

Lemma throw_Ok {A} e (s : S) (b : A) s' : throw e s = (Ok b, s') <-> False.
Proof. unfold throw. naive_solver. Qed.

Lemma throw_if_Ok c e (s : S) u s' : throw_if c e s = (Ok u, s') <-> c = false /\ s' = s.
Proof. unfold throw_if. destruct c, u; naive_solver. Qed.

End methods.

Lemma result_bind_Ok {A B} (r : result A) (f : A -> result B) b :
  (r ≫= f) = Ok b <-> exists a, r = Ok a /\ f a = Ok b.
Proof. unfold mbind, result_bind. destruct r; naive_solver. Qed.

(** Breaks hypotheses that say a method or a result returned into its successive calls. *)
Ltac minv :=
  repeat match goal with
  | H : mbind _ _ _ = (Ok _, _) |- _ =>
      let v := fresh "v" in let s := fresh "s" in let H1 := fresh "Hcall" in
      apply bind_Ok in H as (v & s & H1 & H)
  | H : mbind _ _ = Ok _ |- _ =>
      let v := fresh "v" in let H1 := fresh "Hres" in
      apply result_bind_Ok in H as (v & H1 & H)
  | H : mret _ _ = (Ok _, _) |- _ => first [apply ret_Ok in H as [-> ->] | apply ret_Ok in H as [? ->]]
  | H : gets _ _ = (Ok _, _) |- _ => first [apply gets_Ok in H as [-> ->] | apply gets_Ok in H as [? ->]]
  | H : modify _ _ = (Ok _, _) |- _ => first [apply modify_Ok in H as -> | apply modify_Ok in H]
  | H : lift _ _ = (Ok _, _) |- _ => first [apply lift_Ok in H as [H ->] | apply lift_Ok in H as [? ?]]
  | H : throw _ _ = (Ok _, _) |- _ => exfalso; exact (proj1 (throw_Ok _ _ _ _) H)
  | H : throw_if _ _ _ = (Ok _, _) |- _ =>
      first [apply throw_if_Ok in H as [H ->] | apply throw_if_Ok in H as [? ?]]
  | _ => progress simplify_eq/=
  end.

(** ** Lemmas on reachability *)

Lemma reachable_invariant {S Op R} (init : S -> Prop) (exec : Op -> M S R) (I : S -> Prop) :
  (forall s, init s -> I s) ->
  (forall op s r s', I s -> exec op s = (Ok r, s') -> I s') ->
  forall s, reachable init exec s -> I s.
Proof. intros Hi Hs s H. induction H; eauto. Qed.

Lemma run_ops_reachable {S Op} (init : S -> Prop) (exec : Op -> M S unit) ops s u s' :
  reachable init exec s -> run_ops exec ops s = (Ok u, s') -> reachable init exec s'.
Proof.
  revert s. induction ops as [|op ops IH]; intros s Hs H; cbn in H; minv; [done|].
  eapply IH; [|done]. by eapply reach_step.
Qed.

Lemma run_ops_app {S Op} (exec : Op -> M S unit) l1 l2 s u s1 u' s2 :
  run_ops exec l1 s = (Ok u, s1) -> run_ops exec l2 s1 = (Ok u', s2) -> run_ops exec (l1 ++ l2) s = (Ok u', s2).
Proof.
  revert s. induction l1 as [|op l1 IH]; intros s H1 H2; cbn in *; [by apply ret_Ok in H1 as [_ ->]|].
  unfold mbind, M_bind in *. destruct (exec op s) as [[?|?] s']; [|done]. by apply IH.
Qed.

Lemma run_ops_invariant {S Op} (I : S -> Prop) (exec : Op -> M S unit) ops s u s' :
  (forall op s u s', op ∈ ops -> I s -> exec op s = (Ok u, s') -> I s') ->
  I s -> run_ops exec ops s = (Ok u, s') -> I s'.
Proof.
  revert s. induction ops as [|op ops IH]; intros s Hop Hs H; cbn in H; minv; [done|].
  eapply IH; [|by eapply (Hop op); [left| |]|done]. intros o ? ? ? Ho. apply Hop. by right.
Qed.

(** ** Lemmas on sums *)

Section sum_lemmas.
Context {A : Type}.
Implicit Types (f g : A -> Z) (l : list A).

Lemma sumZ_nil f : sumZ f [] = 0.
Proof. done. Qed.
Lemma sumZ_cons f x l : sumZ f (x :: l) = f x + sumZ f l.
Proof. done. Qed.
Lemma sumZ_app f l1 l2 : sumZ f (l1 ++ l2) = sumZ f l1 + sumZ f l2.
Proof. induction l1 as [|x l1 IH]; [done|]. rewrite <- app_comm_cons, !sumZ_cons. lia. Qed.
Lemma sumZ_perm f l1 l2 : l1 ≡ₚ l2 -> sumZ f l1 = sumZ f l2.
Proof. induction 1; rewrite ?sumZ_cons; lia. Qed.
Lemma sumZ_nonneg f l : (forall x, x ∈ l -> 0 <= f x) -> 0 <= sumZ f l.
Proof.
  induction l as [|x l IH]; intros H; [done|]. rewrite sumZ_cons.
  assert (0 <= f x) by (apply H; left). assert (0 <= sumZ f l); [|lia].
  apply IH. intros y Hy. apply H. by right.
Qed.
Lemma sumZ_mono f g l : (forall x, x ∈ l -> f x <= g x) -> sumZ f l <= sumZ g l.
Proof.
  induction l as [|x l IH]; intros H; [done|]. rewrite !sumZ_cons.
  assert (f x <= g x) by (apply H; left). assert (sumZ f l <= sumZ g l); [|lia].
  apply IH. intros y Hy. apply H. by right.
Qed.
Lemma sumZ_ext f g l : (forall x, x ∈ l -> f x = g x) -> sumZ f l = sumZ g l.
Proof.
  intros H. apply Z.le_antisymm; apply sumZ_mono; intros x Hx; rewrite (H x Hx); done.
Qed.
Lemma sumZ_add f g l : sumZ (fun x => f x + g x) l = sumZ f l + sumZ g l.
Proof. induction l as [|x l IH]; [done|]. rewrite !sumZ_cons. lia. Qed.
Lemma sumZ_map {B} (h : B -> A) f (l : list B) : sumZ f (h <$> l) = sumZ (fun x => f (h x)) l.
Proof. induction l as [|x l IH]; [done|]. by rewrite fmap_cons, !sumZ_cons, IH. Qed.

Lemma sumZ_insert f l i x y :
  l !! i = Some x -> sumZ f (<[i := y]> l) = sumZ f l - f x + f y.
Proof.
  revert i. induction l as [|z l IH]; intros [|i] H; simplify_eq/=; rewrite ?sumZ_cons; [lia|].
  rewrite (IH i H). lia.
Qed.

End sum_lemmas.

Create Rewrite HintDb sums.
#[export] Hint Rewrite @sumZ_nil @sumZ_cons @sumZ_app @sumZ_map : sums.

Lemma sumZ_filter_split {A} (f : A -> Z) (P : A -> Prop) `{forall x, Decision (P x)} l :
  sumZ f l = sumZ f (filter P l) + sumZ f (filter (fun x => ~ P x) l).
Proof.
  induction l as [|x l IH]; [done|]. rewrite !filter_cons, sumZ_cons.
  do 2 case_decide; rewrite ?sumZ_cons; try tauto; lia.
Qed.

Lemma list_elem_of_insert_inv {A} (l : list A) i x y : x ∈ <[i := y]> l -> x = y \/ x ∈ l.
Proof.
  revert i. induction l as [|z l IH]; intros [|i] H; cbn in *; [by right..| |].
  - apply elem_of_cons in H as [->|?]; [by left|]. right. by right.
  - apply elem_of_cons in H as [->|H]; [right; left|]. destruct (IH i H); [by left|right; by right].
Qed.

Lemma existsb_elem {A} `{EqDecision A} (l ts : list A) :
  existsb (fun t => bool_decide (t ∈ l)) ts = true <-> exists x, x ∈ l /\ x ∈ ts.
Proof.
  rewrite existsb_exists. setoid_rewrite bool_decide_eq_true.
  setoid_rewrite <- list_elem_of_In. naive_solver.
Qed.

Lemma foldM_app {A B} (f : A -> B -> result A) acc l1 l2 :
  foldM f acc (l1 ++ l2) = (a ← foldM f acc l1; foldM f a l2).
Proof.
  revert acc. induction l1 as [|x l1 IH]; intros acc; [done|].
  cbn. unfold mbind, result_bind. destruct (f acc x); [|done]. apply IH.
Qed.

Lemma blank_app s1 s2 : blank (s1 +:+ s2) = blank s1 && blank s2.
Proof.
  induction s1 as [|c s1 IH]; [done|].
  change (is_space c && blank (s1 +:+ s2) = is_space c && blank s1 && blank s2).
  by rewrite IH, andb_assoc.
Qed.

Lemma integer_from_Some lo n z : integer_from lo n = Some z <-> n = NInt z /\ lo <= z.
Proof.
  destruct n as [z'|]; cbn; [|naive_solver]. case_bool_decide; naive_solver lia.
Qed.

(** ** Lemmas on strings *)

(** What [split_on] cuts joins to the string again. *)
Lemma split_on_cons sep s : exists w ws, split_on sep s = w :: ws /\ s = w +:+ foldr (fun x acc => String sep (x +:+ acc)) EmptyString ws.
Proof.
  induction s as [|c s (w & ws & E & H)]; cbn; [by eexists _, []|]. case_bool_decide as Hc; [subst c|].
  - exists EmptyString, (split_on sep s). split; [done|]. rewrite E. exact (f_equal (String sep) H).
  - rewrite E. exists (String c w), ws. split; [done|]. exact (f_equal (String c) H).
Qed.

Lemma append_nil_r (s : string) : s +:+ EmptyString = s.
Proof. induction s as [|c s IH]; [done|]. exact (f_equal (String c) IH). Qed.

Lemma append_assoc (a b c : string) : (a +:+ b) +:+ c = a +:+ (b +:+ c).
Proof. induction a as [|x a IH]; [done|]. exact (f_equal (String x) IH). Qed.
Lemma append_inj_l (a b c : string) : a +:+ b = a +:+ c -> b = c.
Proof. induction a as [|x a IH]; [done|]. intros H. injection H as H. by apply IH. Qed.

Lemma split_on_two sep s a b : split_on sep s = [a; b] -> s = a +:+ String sep b.
Proof. destruct (split_on_cons sep s) as (w & ws & -> & H). intros [= -> ->]. rewrite H. cbn. by rewrite append_nil_r. Qed.

Lemma split_on_app sep a b : all_chars (fun c => negb (bool_decide (c = sep))) a = true -> split_on sep (a +:+ String sep b) = a :: split_on sep b.
Proof.
  induction a as [|c a IH]; [intros _; change (EmptyString +:+ String sep b) with (String sep b); cbn; by rewrite bool_decide_true|]. intros [Hc Ha]%andb_true_iff.
  change (String c a +:+ String sep b) with (String c (a +:+ String sep b)). cbn.
  destruct (bool_decide (c = sep)); [done|]. by rewrite IH.
Qed.

Lemma split_on_single sep a : all_chars (fun c => negb (bool_decide (c = sep))) a = true -> split_on sep a = [a].
Proof.
  induction a as [|c a IH]; cbn; [done|]. intros [Hc Ha]%andb_true_iff. destruct (bool_decide (c = sep)); [done|]. by rewrite IH.
Qed.

Lemma all_chars_impl (f g : ascii -> bool) s : (forall c, f c = true -> g c = true) -> all_chars f s = true -> all_chars g s = true.
Proof. intros Hfg. induction s as [|c s IH]; cbn; [done|]. rewrite !andb_true_iff. intros []. eauto. Qed.

Lemma trim_start_idemp s : trim_start (trim_start s) = trim_start s.
Proof. induction s as [|c s IH]; cbn; [done|]. destruct (is_space c) eqn:Hc; [done|]. cbn. by rewrite Hc. Qed.

Lemma blank_trim_end s : blank (trim_end s) = blank s.
Proof.
  induction s as [|c s IH]; cbn; [done|]. destruct (is_space c && blank s) eqn:Hc; [done|]. cbn. by rewrite IH.
Qed.

Lemma trim_end_idemp s : trim_end (trim_end s) = trim_end s.
Proof.
  induction s as [|c s IH]; cbn; [done|]. destruct (is_space c && blank s) eqn:Hc; [done|]. cbn.
  by rewrite blank_trim_end, Hc, IH.
Qed.

Lemma trim_idemp s : trim (trim s) = trim s.
Proof.
  unfold trim. assert (H : trim_start (trim_end (trim_start s)) = trim_end (trim_start s)).
  - induction s as [|c s IH]; cbn; [done|]. destruct (is_space c) eqn:Hc; [done|]. cbn. rewrite Hc. cbn. by rewrite Hc.
  - by rewrite H, trim_end_idemp.
Qed.

Lemma string_map_trim (f : ascii -> ascii) :
  (forall c, is_space (f c) = is_space c) -> forall s, trim (string_map f s) = string_map f (trim s).
Proof.
  intros Hf. assert (Hb : forall s, blank (string_map f s) = blank s).
  { intros s. induction s as [|c s IH]; cbn; [done|]. by rewrite Hf, IH. }
  assert (He : forall s, trim_end (string_map f s) = string_map f (trim_end s)).
  { intros s. induction s as [|c s IH]; cbn; [done|]. rewrite Hf, Hb. destruct (_ && _); cbn; by rewrite ?IH. }
  intros s. unfold trim. rewrite <- He. f_equal.
  induction s as [|c s IH]; cbn; [done|]. rewrite Hf. by destruct (is_space c).
Qed.

Lemma toLowerCase_idemp s : toLowerCase (toLowerCase s) = toLowerCase s.
Proof.
  induction s as [|c s IH]; cbn; [done|]. f_equal; [|exact IH]. by destruct c as [[] [] [] [] [] [] [] []].
Qed.

Lemma toLowerCase_trim s : trim (toLowerCase s) = toLowerCase (trim s).
Proof. apply string_map_trim. intros c. by destruct c as [[] [] [] [] [] [] [] []]. Qed.

(** ** Lemmas on arrays and maps *)

Lemma sort_insert_perm {A} (le : A -> A -> bool) x l : sort_insert le x l ≡ₚ x :: l.
Proof.
  induction l as [|y l IH]; cbn; [done|]. destruct (le x y); [done|].
  rewrite IH. apply Permutation_swap.
Qed.

Lemma sort_by_perm {A} (le : A -> A -> bool) l : sort_by le l ≡ₚ l.
Proof.
  induction l as [|x l IH]; cbn; [done|].
  rewrite sort_insert_perm. by apply Permutation_skip.
Qed.

(** A key preorder that [le] respects orders the sorted list. *)
Lemma sort_by_sorted {A} (le : A -> A -> bool) (R : A -> A -> Prop) l :
  (forall x y, le x y = true -> R x y) -> (forall x y, le x y = false -> R y x) -> Transitive R ->
  StronglySorted R (sort_by le l).
Proof.
  intros Ht Hf HR. induction l as [|x l IH]; cbn; [constructor|].
  change (StronglySorted R (sort_insert le x (sort_by le l))).
  induction IH as [|y l' Hs IH' Hy]; cbn; [by repeat constructor|].
  destruct (le x y) eqn:E.
  - constructor; [by constructor|]. constructor; [by apply Ht|].
    eapply Forall_impl; [exact Hy|]. intros z Hz. etrans; [by apply Ht|done].
  - constructor; [done|]. rewrite sort_insert_perm. constructor; [by apply Hf|done].
Qed.

(** Inserting before what is no smaller leaves the list alone. *)
Lemma sort_insert_first {A} (le : A -> A -> bool) x l : (forall y, y ∈ l -> le x y = true) -> sort_insert le x l = x :: l.
Proof. destruct l as [|y l]; [done|]. intros H. cbn. rewrite (H y); [done|left]. Qed.

Lemma take_elem {A} n (l : list A) x : x ∈ take n l -> x ∈ l.
Proof. by intros (? & ?%list_elem_of_lookup_2 & _)%elem_of_take. Qed.

Lemma NoDup_fmap_elem {A B} (f : A -> B) (l : list A) x y : NoDup (f <$> l) -> x ∈ l -> y ∈ l -> f x = f y -> x = y.
Proof.
  induction l as [|z l IH]; [by intros _ ?%elem_of_nil|]. rewrite fmap_cons, !elem_of_cons.
  intros [Hz Hn]%NoDup_cons [-> |Hx] [-> |Hy] E; [done| | |by apply IH].
  - exfalso. apply Hz. rewrite E. by apply list_elem_of_fmap_2.
  - exfalso. apply Hz. rewrite <- E. by apply list_elem_of_fmap_2.
Qed.

Lemma filter_iff_elem {A} (P Q : A -> Prop) `{forall x, Decision (P x)} `{forall x, Decision (Q x)} (l : list A) :
  (forall x, x ∈ l -> P x <-> Q x) -> filter P l = filter Q l.
Proof.
  induction l as [|x l IH]; intros Hx; [done|]. rewrite !filter_cons.
  rewrite IH by (intros y Hy; apply Hx; by right).
  assert (H' := Hx x (list_elem_of_here _ _)). repeat case_decide; tauto.
Qed.

Lemma filter_none {A} (P : A -> Prop) `{forall x, Decision (P x)} (l : list A) : (forall x, x ∈ l -> ~ P x) -> filter P l = [].
Proof.
  induction l as [|x l IH]; intros H'; [done|]. rewrite filter_cons, decide_False by (apply H'; left).
  apply IH. intros y Hy. apply H'. by right.
Qed.

Lemma filter_all {A} (P : A -> Prop) `{forall x, Decision (P x)} (l : list A) : (forall x, x ∈ l -> P x) -> filter P l = l.
Proof.
  induction l as [|x l IH]; intros H'; [done|]. rewrite filter_cons, decide_True by (apply H'; left).
  f_equal. apply IH. intros y Hy. apply H'. by right.
Qed.

Lemma fmap_ext_elem {A B} (f g : A -> B) (l : list A) : (forall x, x ∈ l -> f x = g x) -> f <$> l = g <$> l.
Proof. intros H. apply Forall_fmap_ext_1, Forall_forall. intros x Hx. by apply H. Qed.

Lemma filter_of_fmap {A B} (P : B -> Prop) `{forall y, Decision (P y)} (f : A -> B) (l : list A) :
  filter P (f <$> l) = f <$> filter (fun x => P (f x)) l.
Proof.
  induction l as [|x l IH]; [done|]. rewrite fmap_cons, !filter_cons. case_decide; rewrite ?fmap_cons; by rewrite IH.
Qed.

Lemma StronglySorted_of_filter {A} (R : A -> A -> Prop) (P : A -> Prop) `{forall x, Decision (P x)} (l : list A) :
  StronglySorted R l -> StronglySorted R (filter P l).
Proof.
  induction 1 as [|x l _ IH Hx]; [constructor|]. rewrite filter_cons. case_decide; [|done].
  constructor; [done|]. rewrite Forall_forall in *. intros y [_ Hy]%list_elem_of_filter. auto.
Qed.

(** The positions of a list come in order. *)
Lemma StronglySorted_positions {A} (l : list A) :
  StronglySorted (fun a b : nat * A => (a.1 <= b.1)%nat) (imap pair l).
Proof.
  assert (H : forall k, StronglySorted (fun a b : nat * A => (a.1 <= b.1)%nat) (imap (fun i x => (k + i, x)%nat) l));
    [|exact (H 0%nat)].
  induction l as [|x l IH]; intros k; [constructor|]. rewrite imap_cons. constructor.
  - rewrite (imap_ext _ (fun i x => (S k + i, x)%nat)); [apply IH|]. intros i y _. cbn. f_equal. lia.
  - apply Forall_forall. intros y (i & z & -> & _)%elem_of_lookup_imap. cbn. lia.
Qed.

Lemma elem_of_unique {A} `{EqDecision A} (x : A) l : x ∈ unique l <-> x ∈ l.
Proof.
  induction l as [|y l IH]; cbn; [done|]. rewrite !elem_of_cons, list_elem_of_filter, IH.
  destruct (decide (x = y)); naive_solver.
Qed.

Lemma NoDup_unique {A} `{EqDecision A} (l : list A) : NoDup (unique l).
Proof.
  induction l as [|y l IH]; cbn; constructor.
  - rewrite list_elem_of_filter. naive_solver.
  - by apply NoDup_filter.
Qed.

Lemma map_get_set_eq k v m : map_get k (map_set k v m) = Some v.
Proof.
  induction m as [|[k' v'] m IH]; cbn; [by rewrite bool_decide_true|].
  case_bool_decide; cbn; [by rewrite bool_decide_true|]. by rewrite bool_decide_false.
Qed.

Lemma map_get_set_ne k k' v m : k' <> k -> map_get k' (map_set k v m) = map_get k' m.
Proof.
  intros Hk. induction m as [|[k1 v1] m IH]; cbn; [by rewrite bool_decide_false|].
  case_bool_decide; cbn.
  - subst. by rewrite !bool_decide_false.
  - by rewrite IH.
Qed.

Lemma map_get0_set k k' v m :
  map_get0 k' (map_set k v m) = if bool_decide (k' = k) then v else map_get0 k' m.
Proof.
  unfold map_get0. case_bool_decide; [subst; by rewrite map_get_set_eq|by rewrite map_get_set_ne].
Qed.

Lemma map_set_keys k v m : k ∉ m.*1 -> map_set k v m = m ++ [(k, v)].
Proof.
  induction m as [|[k' v'] m IH]; cbn; intros Hk; [done|].
  rewrite bool_decide_false by (intros ->; apply Hk; left). rewrite IH; [done|].
  intros ?. apply Hk. by right.
Qed.

Lemma map_set_old_keys k v m : k ∈ m.*1 -> (map_set k v m).*1 = m.*1.
Proof.
  induction m as [|[k' v'] m IH]; cbn; intros Hk; [by apply elem_of_nil in Hk|].
  case_bool_decide; cbn; [by subst|]. rewrite IH; [done|]. apply elem_of_cons in Hk. naive_solver.
Qed.

Lemma map_set_NoDup k v m : NoDup m.*1 -> NoDup (map_set k v m).*1.
Proof.
  intros Hm. destruct (decide (k ∈ m.*1)) as [Hk|Hk].
  - by rewrite map_set_old_keys.
  - rewrite map_set_keys by done. rewrite fmap_app. apply NoDup_app. split; [done|].
    split; [|apply NoDup_singleton]. by intros x Hx ->%list_elem_of_singleton.
Qed.

Lemma map_of_NoDup_gen l m : NoDup m.*1 -> NoDup (foldl (fun m kv => map_set kv.1 kv.2 m) m l).*1.
Proof. revert m. induction l as [|[k v] l IH]; intros m Hm; [done|]. by apply IH, map_set_NoDup. Qed.

Lemma map_of_id l : NoDup l.*1 -> map_of l = l.
Proof.
  unfold map_of. change l with ([] ++ l) at 1 3. generalize (@nil (string * Z)) as m. intros m.
  revert m. induction l as [|[k v] l IH]; intros m Hm; cbn; [by rewrite app_nil_r|].
  rewrite map_set_keys.
  - rewrite IH; [by rewrite <- app_assoc|]. by rewrite <- app_assoc.
  - rewrite fmap_app in Hm. apply NoDup_app in Hm as (_ & Hm & _). intros Hk. apply (Hm k Hk). left.
Qed.

Lemma NoDup_fmap_filter {A} (f : A -> string) (Q : A -> Prop) `{forall a, Decision (Q a)} (l : list A) : NoDup (f <$> l) -> NoDup (f <$> filter Q l).
Proof.
  induction l as [|a l IH]; [done|]. rewrite fmap_cons, filter_cons. intros [Ha Hn]%NoDup_cons. case_decide; [|by apply IH]. rewrite fmap_cons.
  apply NoDup_cons. split; [|by apply IH]. intros (b & E & [_ Hb]%list_elem_of_filter)%list_elem_of_fmap. apply Ha. rewrite E. by apply list_elem_of_fmap_2.
Qed.

Lemma filter_strict {A} (P Q : A -> Prop) `{forall a, Decision (P a)} `{forall a, Decision (Q a)} l b :
  (forall a, Q a -> P a) -> b ∈ l -> P b -> ~ Q b ->
  (length (filter Q l) < length (filter P l))%nat.
Proof.
  intros HQ. assert (Hle : forall l, (length (filter Q l) <= length (filter P l))%nat).
  { clear l. induction l as [|a l IH]; [done|]. rewrite !filter_cons.
    destruct (decide (Q a)) as [HQa|], (decide (P a)); cbn; try lia. by specialize (HQ a HQa). }
  induction l as [|a l IH]; [by intros ?%elem_of_nil|]. intros [-> | Hb]%elem_of_cons Hp Hn; rewrite !filter_cons.
  - rewrite decide_False, decide_True by done. specialize (Hle l). cbn. lia.
  - specialize (IH Hb Hp Hn). destruct (decide (Q a)) as [HQa|], (decide (P a)); cbn; try lia.
    by specialize (HQ a HQa).
Qed.

Lemma map_get_elem k v m : NoDup m.*1 -> (k, v) ∈ m -> map_get k m = Some v.
Proof.
  induction m as [|[k' v'] m IH]; cbn; intros Hn Hin; [by apply elem_of_nil in Hin|].
  apply NoDup_cons in Hn as [Hk Hn]. apply elem_of_cons in Hin as [[= -> ->]|Hin].
  - by rewrite bool_decide_true.
  - rewrite bool_decide_false; [by apply IH|]. intros ->. apply Hk. by apply (list_elem_of_fmap_2 fst) in Hin.
Qed.

Lemma map_get_None k m : k ∉ m.*1 -> map_get k m = None.
Proof.
  induction m as [|[k' v'] m IH]; cbn; intros Hk; [done|].
  rewrite bool_decide_false by (intros ->; apply Hk; left). apply IH. intros ?. apply Hk. by right.
Qed.

Lemma map_get_Some_elem k v m : map_get k m = Some v -> (k, v) ∈ m.
Proof.
  induction m as [|[k' v'] m IH]; cbn; [done|]. case_bool_decide; [intros [= ->]; subst; left|].
  intros Hm. right. by apply IH.
Qed.
