(* ===== verification/Kernel.v ===== *)
(** The shared kernel: [packages/domain/src/shared]. Money, guards, identities, aggregate roots and
    the domain events they collect. Every bounded context builds on these definitions. *)
From S2P Require Import Prelude.

(** ** Guards ([guards/guard.ts]) *)

Module Guard.

Definition fail {A} (field message : string) : result A :=
  Err (ValidationError (field +:+ " " +:+ message) [mkFieldIssue field message]).

Definition againstNullOrUndefined {A} (value : option A) (field : string) : result A :=
  match value with None => fail field "is required" | Some v => Ok v end.

Definition againstEmpty (value field : string) : result string :=
  if blank value then fail field "must not be empty" else Ok value.

Definition againstEmptyArray {A} (value : list A) (field : string) : result (list A) :=
  if bool_decide (length value = 0%nat) then fail field "must not be empty" else Ok value.

Definition againstNegative (value : Z) (field : string) : result Z :=
  if bool_decide (value < 0) then fail field "must not be negative" else Ok value.

Definition againstOutOfRange (value min max : Z) (field : string) : result Z :=
  if bool_decide (value < min) || bool_decide (max < value)
  then fail field ("must be between " +:+ pretty min +:+ " and " +:+ pretty max)
  else Ok value.

(** The issues a failed result contributes. [Result<unknown, ValidationError>] only fails with a
    [ValidationError], the one error that carries fields. *)
Definition issues_of {A} (r : result A) : list FieldIssue :=
  match r with
  | Err (ValidationError _ fields) => fields
  | _ => []
  end.

Definition combine {A} (results : list (result A)) (message : string) : result unit :=
  let issues := flat_map issues_of results in
  if bool_decide (length issues = 0%nat) then Ok tt else Err (ValidationError message issues).

End Guard.

(** ** Identities ([value-object/unique-entity-id.ts], [value-objects/product-ref.ts]) *)

Definition UniqueEntityId_from (value : string) : result string :=
  v ← Guard.againstEmpty value "UniqueEntityId.value"; Ok value.

Definition ProductRef_create (value : string) : result string :=
  v ← Guard.againstEmpty value "productId"; Ok value.

(** ** Money ([value-objects/money.ts]) *)

Module Money.

Record Money := mkMoney { amountMinor : Z; currency : string }.

#[export] Instance Money_eq_dec : EqDecision Money.
Proof. solve_decision. Defined.

(** [/^[A-Z]{3}$/.test(value)] *)
Definition isValidCurrencyCode (value : string) : bool :=
  match value with
  | String a (String b (String c EmptyString)) => is_upper a && is_upper b && is_upper c
  | _ => false
  end.

Definition create (amountMinor : jsnum) (currency : string) : result Money :=
  let amount := integer_from 0 amountMinor in
  let issues :=
    match amount with
    | None => [mkFieldIssue "amountMinor" "must be a non-negative integer (minor units)"]
    | Some _ => []
    end ++
    if isValidCurrencyCode currency then []
    else [mkFieldIssue "currency" "must be a 3-letter ISO-4217 code"] in
  match amount, issues with
  | Some a, [] => Ok (mkMoney a currency)
  | _, _ => Err (ValidationError "Invalid money" issues)
  end.

Definition zero (currency : string) : result Money :=
  if isValidCurrencyCode currency then Ok (mkMoney 0 currency)
  else Err (BusinessRuleError
    ("Invalid currency code " +:+ quoted currency +:+ " for Money.zero")).

Definition assertSameCurrency (m other : Money) : result unit :=
  if bool_decide (currency other = currency m) then Ok tt
  else Err (BusinessRuleError "Cannot operate on money of different currencies").

Definition plus (m other : Money) : result Money :=
  _ ← assertSameCurrency m other;
  Ok (mkMoney (amountMinor m + amountMinor other) (currency m)).

Definition minus (m other : Money) : result Money :=
  _ ← assertSameCurrency m other;
  let r := amountMinor m - amountMinor other in
  if bool_decide (r < 0) then Err (BusinessRuleError "Money cannot be negative")
  else Ok (mkMoney r (currency m)).

Definition times (m : Money) (factor : jsnum) : result Money :=
  match integer_from 0 factor with
  | None => Err (BusinessRuleError "Money can only be multiplied by a non-negative integer")
  | Some k => Ok (mkMoney (amountMinor m * k) (currency m))
  end.

Definition isGreaterThan (m other : Money) : result bool :=
  _ ← assertSameCurrency m other;
  Ok (bool_decide (amountMinor other < amountMinor m)).

Definition isZero (m : Money) : bool := bool_decide (amountMinor m = 0).

(** Value-object equality ([value-object/value-object.ts]) is structural. *)
Definition equals (m other : Money) : bool := bool_decide (m = other).

(** The class invariant: what [create] accepts. *)
Definition valid (m : Money) : Prop :=
  0 <= amountMinor m /\ isValidCurrencyCode (currency m) = true.

End Money.

(** ** Aggregate roots ([aggregate/aggregate-root.ts], [events/domain-event-collection.ts]) *)

Record EventMeta := mkMeta { eventId : string; aggregateId : string; occurredAt : Z }.

#[export] Instance EventMeta_eq_dec : EqDecision EventMeta.
Proof. solve_decision. Defined.

(** [P] is the aggregate's props, [E] the payloads of the events it raises. *)
Record Aggregate (P E : Type) := mkAgg {
  agg_id : string;
  agg_version : Z;
  agg_events : list (EventMeta * E);
  agg_props : P
}.
Arguments mkAgg {P E} _ _ _ _.
Arguments agg_id {P E} _.
Arguments agg_version {P E} _.
Arguments agg_events {P E} _.
Arguments agg_props {P E} _.

Section aggregate.
Context {P E : Type}.

(** [new X(props, id)]: version 0, no collected events. *)
Definition new_agg (props : P) (id : string) : Aggregate P E := mkAgg id 0 [] props.
(** [new X(props, id, version)], the rehydrating constructor. *)
Definition new_agg_at (props : P) (id : string) (version : Z) : Aggregate P E :=
  mkAgg id version [] props.

Definition addDomainEvent (eid : string) (at_ : Z) (payload : E) : M (Aggregate P E) unit :=
  modify (fun a =>
    mkAgg (agg_id a) (agg_version a) (agg_events a ++ [(mkMeta eid (agg_id a) at_, payload)])
      (agg_props a)).

Definition pullDomainEvents : M (Aggregate P E) (list (EventMeta * E)) :=
  events ← gets agg_events;
  modify (fun a => mkAgg (agg_id a) (agg_version a) [] (agg_props a));;
  mret events.

Definition set_props (f : P -> P) : M (Aggregate P E) unit :=
  modify (fun a => mkAgg (agg_id a) (agg_version a) (agg_events a) (f (agg_props a))).

End aggregate.

(** ** Laws of money *)

Module MoneyLaws.
Import Money.

Lemma create_Ok n c m :
  create n c = Ok m <->
  n = NInt (amountMinor m) /\ c = currency m /\ valid m.
Proof.
  unfold create, valid. destruct (integer_from 0 n) as [z|] eqn:Hi.
  - apply integer_from_Some in Hi as [-> Hz]. destruct m as [a c']. cbn.
    destruct (isValidCurrencyCode c) eqn:Hc; cbn; split.
    + intros [= <- <-]. done.
    + intros ([= ->] & -> & _). done.
    + done.
    + intros (_ & -> & _ & ?). congruence.
  - split; [by destruct (isValidCurrencyCode c)|]. intros (-> & -> & Hz & _).
    assert (integer_from 0 (NInt (amountMinor m)) = Some (amountMinor m)); [|congruence].
    by apply integer_from_Some.
Qed.

Lemma zero_Ok c m : zero c = Ok m <-> isValidCurrencyCode c = true /\ m = mkMoney 0 c.
Proof. unfold zero. destruct (isValidCurrencyCode c); naive_solver. Qed.

Lemma assertSameCurrency_Ok m o u :
  assertSameCurrency m o = Ok u <-> currency o = currency m.
Proof. unfold assertSameCurrency. destruct u. case_bool_decide; naive_solver. Qed.

Lemma plus_Ok m o r :
  plus m o = Ok r <->
  currency o = currency m /\ r = mkMoney (amountMinor m + amountMinor o) (currency m).
Proof.
  unfold plus. rewrite result_bind_Ok. setoid_rewrite assertSameCurrency_Ok.
  split; [naive_solver|]. intros [? ->]. by exists tt.
Qed.

Lemma minus_Ok m o r :
  minus m o = Ok r <->
  currency o = currency m /\ amountMinor o <= amountMinor m /\
  r = mkMoney (amountMinor m - amountMinor o) (currency m).
Proof.
  unfold minus. rewrite result_bind_Ok. setoid_rewrite assertSameCurrency_Ok.
  case_bool_decide; split.
  - naive_solver.
  - intros (? & ? & ?). lia.
  - intros (_ & ? & [= <-]). repeat split; [done|lia].
  - intros (? & ? & ->). by exists tt.
Qed.

Lemma times_Ok m n r :
  times m n = Ok r <->
  exists k, n = NInt k /\ 0 <= k /\ r = mkMoney (amountMinor m * k) (currency m).
Proof.
  unfold times. destruct (integer_from 0 n) as [z|] eqn:Hi.
  - apply integer_from_Some in Hi as [-> Hz]. naive_solver.
  - split; [done|]. intros (k & -> & Hk & _).
    assert (integer_from 0 (NInt k) = Some k); [|congruence]. by apply integer_from_Some.
Qed.

Lemma isGreaterThan_Ok m o b :
  isGreaterThan m o = Ok b <->
  currency o = currency m /\ b = bool_decide (amountMinor o < amountMinor m).
Proof.
  unfold isGreaterThan. rewrite result_bind_Ok. setoid_rewrite assertSameCurrency_Ok.
  split; [naive_solver|]. intros [? ->]. by exists tt.
Qed.

Lemma isZero_true m : isZero m = true <-> amountMinor m = 0.
Proof. unfold isZero. by rewrite bool_decide_eq_true. Qed.

Lemma equals_true m o : equals m o = true <-> m = o.
Proof. unfold equals. by rewrite bool_decide_eq_true. Qed.

(** Summing same-currency amounts is total and exact: the loop of every [totalAmount]. *)
Lemma foldM_plus_Ok {A} (f : A -> result Money) (g : A -> Z) c l acc :
  (forall x, x ∈ l -> f x = Ok (mkMoney (g x) c)) ->
  currency acc = c ->
  foldM (fun a x => m ← f x; plus a m) acc l = Ok (mkMoney (amountMinor acc + sumZ g l) c).
Proof.
  revert acc. induction l as [|x l IH]; intros acc Hf Hc; cbn.
  - destruct acc; cbn in *; subst. by rewrite sumZ_nil, Z.add_0_r.
  - rewrite (Hf x) by left. cbn.
    replace (plus acc (mkMoney (g x) c)) with (Ok (mkMoney (amountMinor acc + g x) c)).
    2:{ symmetry. apply plus_Ok. by subst. }
    cbn. rewrite IH; [cbn; rewrite sumZ_cons; do 2 f_equal; lia| |done]. intros y Hy. apply Hf. by right.
Qed.

Lemma foldM_minus_Ok {A} (f : A -> Money) l acc :
  (forall x, x ∈ l -> currency (f x) = currency acc) ->
  (forall x, x ∈ l -> 0 <= amountMinor (f x)) ->
  sumZ (fun x => amountMinor (f x)) l <= amountMinor acc ->
  foldM (fun a x => minus a (f x)) acc l =
    Ok (mkMoney (amountMinor acc - sumZ (fun x => amountMinor (f x)) l) (currency acc)).
Proof.
  revert acc. induction l as [|x l IH]; intros acc Hc Hp Hle; cbn.
  - destruct acc; cbn. by rewrite sumZ_nil, Z.sub_0_r.
  - rewrite sumZ_cons in Hle.
    assert (0 <= sumZ (fun x => amountMinor (f x)) l).
    { apply sumZ_nonneg. intros y Hy. apply Hp. by right. }
    replace (minus acc (f x)) with
      (Ok (mkMoney (amountMinor acc - amountMinor (f x)) (currency acc))).
    2:{ symmetry. apply minus_Ok. split; [apply Hc; left|]. split; [lia|done]. }
    cbn. rewrite IH; cbn; [rewrite sumZ_cons; do 2 f_equal; lia| | |lia].
    + intros y Hy. apply Hc. by right.
    + intros y Hy. apply Hp. by right.
Qed.

End MoneyLaws.

Lemma UniqueEntityId_from_Ok v w :
  UniqueEntityId_from v = Ok w <-> blank v = false /\ w = v.
Proof. unfold UniqueEntityId_from, Guard.againstEmpty. destruct (blank v); naive_solver. Qed.

Lemma set_props_Ok {P E} (f : P -> P) (a : Aggregate P E) u a' :
  set_props f a = (Ok u, a') <->
  a' = mkAgg (agg_id a) (agg_version a) (agg_events a) (f (agg_props a)).
Proof. unfold set_props. by rewrite modify_Ok. Qed.

Lemma addDomainEvent_Ok {P E} eid t (e : E) (a : Aggregate P E) u a' :
  addDomainEvent eid t e a = (Ok u, a') <->
  a' = mkAgg (agg_id a) (agg_version a) (agg_events a ++ [(mkMeta eid (agg_id a) t, e)])
         (agg_props a).
Proof. unfold addDomainEvent. by rewrite modify_Ok. Qed.

(** ** Methods never change the identity or the version of their aggregate *)

Definition keeps {P E A} (m : M (Aggregate P E) A) : Prop :=
  forall a r a', m a = (r, a') -> agg_id a' = agg_id a /\ agg_version a' = agg_version a.

Section keeps.
Context {P E : Type}.
Implicit Types a : Aggregate P E.

Lemma keeps_ret {A} (x : A) : keeps (mret x : M (Aggregate P E) A).
Proof. by intros a r a' [= <- <-]. Qed.
Lemma keeps_throw {A} e : keeps (throw e : M (Aggregate P E) A).
Proof. by intros a r a' [= <- <-]. Qed.
Lemma keeps_throw_if b e : keeps (throw_if b e : M (Aggregate P E) unit).
Proof. intros a r a' H. unfold throw_if in H. destruct b; by injection H as <- <-. Qed.
Lemma keeps_gets {A} (f : Aggregate P E -> A) : keeps (gets f).
Proof. by intros a r a' [= <- <-]. Qed.
Lemma keeps_lift {A} (r : result A) : keeps (lift r : M (Aggregate P E) A).
Proof. by intros a r' a' [= <- <-]. Qed.
Lemma keeps_set_props f : keeps (set_props f : M (Aggregate P E) unit).
Proof. by intros a r a' [= <- <-]. Qed.
Lemma keeps_addDomainEvent eid t e : keeps (addDomainEvent eid t e : M (Aggregate P E) unit).
Proof. by intros a r a' [= <- <-]. Qed.
Lemma keeps_bind {A B} (m : M (Aggregate P E) A) (f : A -> M (Aggregate P E) B) :
  keeps m -> (forall x, keeps (f x)) -> keeps (m ≫= f).
Proof.
  intros Hm Hf a r a' H. unfold mbind, M_bind in H. destruct (m a) as [[x|e] s] eqn:Hs.
  - destruct (Hm _ _ _ Hs) as [E1 E2].
    destruct (Hf _ _ _ _ H) as [E3 E4]. split; congruence.
  - injection H as <- <-. by eapply Hm.
Qed.
End keeps.

Create HintDb keeps.
#[export] Hint Resolve keeps_ret keeps_throw keeps_throw_if keeps_gets keeps_lift keeps_set_props
  keeps_addDomainEvent : keeps.

(** Inverts the calls of a method that did not throw: the aggregate's own primitives and the guards. *)
Ltac agg_inv :=
  repeat (minv; match goal with
  | H : set_props _ _ = (Ok _, _) |- _ => apply set_props_Ok in H as ->
  | H : addDomainEvent _ _ _ _ = (Ok _, _) |- _ => apply addDomainEvent_Ok in H as ->
  | H : negb _ = false |- _ => apply negb_false_iff in H
  | H : negb _ = true |- _ => apply negb_true_iff in H
  | H : (_ || _) = false |- _ => apply orb_false_iff in H as [? ?]
  | H : (_ && _) = true |- _ => apply andb_true_iff in H as [? ?]
  | H : bool_decide _ = true |- _ => apply bool_decide_eq_true in H
  | H : bool_decide _ = false |- _ => apply bool_decide_eq_false in H
  end); minv.

(** Proves [keeps] of a method made of binds, conditionals and known calls. *)
Ltac solve_keeps :=
  repeat (first
    [ solve [eauto 2 with keeps]
    | apply keeps_bind; [|intros ?]
    | match goal with
      | |- keeps (match ?x with _ => _ end) => destruct x
      | |- keeps (let _ := _ in _) => cbv zeta
      | |- forall _, _ => intros ?
      end ]).
