(* ===== verification/Optimistic.v ===== *)
(** Optimistic locking: how the Prisma repositories load and save an aggregate
    ([services/*/src/infrastructure/prisma-*-repository.ts]) and how the use cases retry a conflict
    ([withConcurrencyRetry]). The row, its version and the outbox are one aggregate's part of the
    database; transactions of concurrent workers interleave between their load and their save. *)
From S2P Require Import Prelude Kernel.

(** ** The repository ([prisma-payment-intent-repository.ts], [prisma-order-repository.ts]) *)

Section repository.
Context {P E : Type}.

Record Db := mkDb { db_row : option (P * Z); db_outbox : list (EventMeta * E) }.

(** [save]: version 0 creates the row at version 1; any other version updates the row that still has
    it, incrementing the version, or throws. The events are pulled and written to the outbox in the
    same transaction. *)
Definition save (a : Aggregate P E) (d : Db) : result Db :=
  if bool_decide (agg_version a = 0) then
    match db_row d with
    | Some _ => Err (UnexpectedError "unique constraint violation")
    | None => Ok (mkDb (Some (agg_props a, 1)) (db_outbox d ++ agg_events a))
    end
  else
    match db_row d with
    | Some (_, v) =>
        if bool_decide (v = agg_version a)
        then Ok (mkDb (Some (agg_props a, v + 1)) (db_outbox d ++ agg_events a))
        else Err (ConcurrencyError (agg_id a +:+ " was modified concurrently (expected version " +:+
               pretty (agg_version a) +:+ ")"))
    | None => Err (ConcurrencyError (agg_id a +:+ " was modified concurrently (expected version " +:+
               pretty (agg_version a) +:+ ")"))
    end.

(** [findById]: the aggregate rebuilt from the row, with the row's version and no pending events. *)
Definition findById (id : string) (d : Db) : option (Aggregate P E) :=
  match db_row d with
  | Some (p, v) => Some (new_agg_at p id v)
  | None => None
  end.

End repository.
Arguments Db : clear implicits.

(** ** Retrying a conflict ([payment-lifecycle.use-cases.ts], [withConcurrencyRetry]) *)

Definition isConcurrencyError (e : DomainError) : bool :=
  match e with ConcurrencyError _ => true | _ => false end.

(** [fuel] is the number of attempts left; with none left the source throws "unreachable". *)
Fixpoint retry_loop {St A} (fuel : nat) (attempt : M St A) : M St A :=
  match fuel with
  | O => throw (UnexpectedError "unreachable")
  | S fuel' => fun s =>
      match attempt s with
      | (Err e, s') =>
          if negb (isConcurrencyError e) || bool_decide (fuel' = 0%nat) then (Err e, s')
          else retry_loop fuel' attempt s'
      | r => r
      end
  end.
Definition withConcurrencyRetry {St A} (maxAttempts : nat) (attempt : M St A) : M St A :=
  retry_loop maxAttempts attempt.

(** ** Concurrent transactions on one aggregate

    A transaction loads the aggregate, runs one operation on it and saves it if the operation
    returned. Other workers' transactions may commit between the load and the save. *)

Section transactions.
Context {P E Op R : Type} (id : string) (exec : Op -> M (Aggregate P E) R).

Record System := mkSystem { sys_db : Db P E; sys_loaded : gmap nat (Aggregate P E) }.

Inductive sys_step : System -> option Op -> System -> Prop :=
| step_load w d l a :
    findById id d = Some a ->
    sys_step (mkSystem d l) None (mkSystem d (<[w := a]> l))
| step_commit w op d l a r a' d' :
    l !! w = Some a -> exec op a = (Ok r, a') -> save a' d = Ok d' ->
    sys_step (mkSystem d l) (Some op) (mkSystem d' (delete w l))
| step_abort w d l :
    sys_step (mkSystem d l) None (mkSystem d (delete w l)).

(** Runs of the interleaved system, with the operations committed, in commit order. *)
Inductive sys_run (s0 : System) : System -> list Op -> Prop :=
| run_start : sys_run s0 s0 []
| run_step s ops o s' :
    sys_run s0 s ops -> sys_step s o s' -> sys_run s0 s' (ops ++ option_list o).

(** The sequential specification: each operation runs alone on what the previous one stored. *)
Inductive seq_run : P * Z -> list (EventMeta * E) -> list Op -> P * Z -> list (EventMeta * E) -> Prop :=
| seq_nil row out : seq_run row out [] row out
| seq_snoc row out ops p v out1 op r a' :
    seq_run row out ops (p, v) out1 ->
    exec op (new_agg_at p id v) = (Ok r, a') ->
    seq_run row out (ops ++ [op]) (agg_props a', v + 1) (out1 ++ agg_events a').

(** What an operation may not do: change the version it was loaded with. *)
Definition keeps_version : Prop :=
  forall op a r a', exec op a = (Ok r, a') -> agg_version a' = agg_version a.

Lemma seq_run_version row out ops row' out' :
  seq_run row out ops row' out' -> row'.2 = row.2 + Z.of_nat (length ops).
Proof.
  induction 1 as [|row out ops p v out1 op r a' _ IH H]; cbn in *; [lia|].
  rewrite length_app. cbn. lia.
Qed.

(** Every loaded aggregate is the stored state of its version. *)
Definition loaded_ok (row0 : P * Z) (out0 : list (EventMeta * E)) (s : System) (ops : list Op) : Prop :=
  exists p v, db_row (sys_db s) = Some (p, v) /\ seq_run row0 out0 ops (p, v) (db_outbox (sys_db s)) /\
  (forall w a, sys_loaded s !! w = Some a ->
     agg_version a <= v /\ (agg_version a = v -> a = new_agg_at p id v) /\ 1 <= agg_version a).

Lemma loaded_ok_run p0 out0 s ops :
  keeps_version ->
  sys_run (mkSystem (mkDb (Some (p0, 1)) out0) ∅) s ops -> loaded_ok (p0, 1) out0 s ops.
Proof.
  intros Hk H. induction H as [|s ops o s' Hr IH Hs].
  - exists p0, 1. split; [done|]. split; [constructor|]. intros w a Hw. cbn in Hw. by rewrite lookup_empty in Hw.
  - destruct IH as (p & v & Hrow & Hseq & Hl).
    assert (Hv : 1 <= v) by (apply seq_run_version in Hseq; cbn in Hseq; lia).
    destruct Hs as [w d l a Hf|w op d l a r a' d' Hw He Hsv|w d l]; cbn in *.
    + rewrite app_nil_r. exists p, v. do 2 (split; [done|]). unfold findById in Hf. rewrite Hrow in Hf.
      injection Hf as <-. cbn. intros w' a [[<- <-]|[? ?]]%lookup_insert_Some; [|by eauto].
      cbn. split; [lia|done].
    + destruct (Hl w a Hw) as (Hle & Heq & H1).
      assert (Ev := Hk _ _ _ _ He). unfold save in Hsv.
      rewrite bool_decide_false in Hsv by lia. rewrite Hrow in Hsv.
      case_bool_decide as Hv'; [|done]. injection Hsv as <-.
      rewrite (Heq ltac:(lia)) in He. exists (agg_props a'), (v + 1). split; [done|].
      split; [by econstructor|]. cbn. intros w' a1 [_ Hw']%lookup_delete_Some. destruct (Hl w' a1 Hw') as (? & ? & ?).
      naive_solver lia.
    + rewrite app_nil_r. exists p, v. do 2 (split; [done|]). cbn. intros w' a [_ Hw]%lookup_delete_Some. eauto.
Qed.

End transactions.
Arguments mkSystem {P E} _ _.
Arguments sys_db {P E} _.
Arguments sys_loaded {P E} _.

(** ** The retry loop under conflicts *)

(** The states an attempt sequence goes through: [k] conflicts in a row. *)
Inductive conflicts {St A} (attempt : M St A) : nat -> St -> St -> Prop :=
| conflicts_0 s : conflicts attempt 0 s s
| conflicts_S k s s1 s2 m :
    attempt s = (Err (ConcurrencyError m), s1) -> conflicts attempt k s1 s2 ->
    conflicts attempt (S k) s s2.

(** ** Properties *)

(** C16: optimistic locking serialises. Whatever the interleaving of loads, commits and aborts of
    concurrent transactions on a stored aggregate, the stored props, the version and the outbox are
    those of running the committed operations one after the other, alone, in commit order: no update
    is lost, none is applied twice, and each committed one is one version step. *)
Theorem optimistic_transactions_serialize {P E Op R : Type} (id : string)
    (exec : Op -> M (Aggregate P E) R) p0 out0 s ops :
  keeps_version exec ->
  sys_run id exec (mkSystem (mkDb (Some (p0, 1)) out0) ∅) s ops ->
  exists p v, db_row (sys_db s) = Some (p, v) /\ v = 1 + Z.of_nat (length ops) /\
    seq_run id exec (p0, 1) out0 ops (p, v) (db_outbox (sys_db s)).
Proof.
  intros Hk Hr. destruct (loaded_ok_run id exec p0 out0 s ops Hk Hr) as (p & v & Hrow & Hseq & _).
  exists p, v. split; [done|]. split; [|done]. by apply seq_run_version in Hseq.
Qed.

(** The conflict retry. After [k] conflicts, fewer than the attempts allowed, the loop returns
    exactly what the next attempt returns, when that is not again a conflict; it reports a conflict
    only when all the attempts allowed conflicted. *)
Theorem concurrency_retry_outcome {St A} (attempt : M St A) (maxAttempts k : nat) s s1 :
  conflicts attempt k s s1 -> (k < maxAttempts)%nat ->
  match attempt s1 with
  | (Err (ConcurrencyError m), s2) =>
      k = (maxAttempts - 1)%nat -> withConcurrencyRetry maxAttempts attempt s = (Err (ConcurrencyError m), s2)
  | r => withConcurrencyRetry maxAttempts attempt s = r
  end.
Proof.
  unfold withConcurrencyRetry. intros H. revert maxAttempts.
  induction H as [s|k s s1 s2 m H _ IH]; intros n Hn; destruct n as [|n]; try lia.
  - cbn. destruct (attempt s) as [[a|e] s'] eqn:Ha; [done|].
    destruct e; try done. intros Hk. by rewrite bool_decide_true by lia.
  - cbn [retry_loop]. rewrite H. cbn [isConcurrencyError negb orb].
    rewrite bool_decide_false by lia. specialize (IH n ltac:(lia)).
    destruct (attempt s2) as [[a|e] s']; [done|]. destruct e; try done. intros Hk. apply IH. lia.
Qed.

(** ** Witnesses *)

(** Two workers load the same counter; the first commits, the second conflicts and loads again. *)
Definition sample_exec (n : Z) : M (Aggregate Z Z) unit :=
  set_props (Z.add n);; addDomainEvent "e" 0 n.
Definition sample_db (p v : Z) (events : list Z) : Db Z Z :=
  mkDb (Some (p, v)) ((fun n => (mkMeta "e" "a" 0, n)) <$> events).

Lemma sample_exec_keeps : keeps_version sample_exec.
Proof.
  intros op a r a' H. unfold sample_exec in H. minv.
  apply set_props_Ok in Hcall as ->. by apply addDomainEvent_Ok in H as ->.
Qed.

Definition loaded (n : nat) : gmap nat (Aggregate Z Z) :=
  let both := <[1%nat := new_agg_at 10 "a" 1]> (<[2%nat := new_agg_at 10 "a" 1]> ∅) in
  let reload := <[2%nat := new_agg_at 13 "a" 2]> (delete 2%nat (delete 1%nat both)) in
  match n with
  | O => ∅
  | 1%nat => <[2%nat := new_agg_at 10 "a" 1]> ∅
  | 2%nat => both
  | 3%nat => delete 1%nat both
  | 4%nat => delete 2%nat (delete 1%nat both)
  | 5%nat => reload
  | _ => delete 2%nat reload
  end.

Lemma optimistic_transactions_serialize_witness :
  exists p v, db_row (sample_db 15 3 [3; 2]) = Some (p, v) /\ v = 1 + Z.of_nat (length [3; 2]) /\
    seq_run "a" sample_exec (10, 1) [] [3; 2] (p, v) (db_outbox (sample_db 15 3 [3; 2])).
Proof.
  apply (optimistic_transactions_serialize "a" sample_exec 10 []
    (mkSystem (sample_db 15 3 [3; 2]) (loaded 6)) [3; 2] sample_exec_keeps).
  apply (run_step _ _ _ (mkSystem (sample_db 13 2 [3]) (loaded 5)) [3] (Some 2)).
  2:{ eapply step_commit with (w := 2%nat); [apply lookup_insert_eq|done|done]. }
  apply (run_step _ _ _ (mkSystem (sample_db 13 2 [3]) (loaded 4)) [3] None); [|by apply step_load].
  apply (run_step _ _ _ (mkSystem (sample_db 13 2 [3]) (loaded 3)) [3] None); [|by apply step_abort].
  apply (run_step _ _ _ (mkSystem (sample_db 10 1 []) (loaded 2)) [] (Some 3)).
  2:{ eapply step_commit with (w := 1%nat); [apply lookup_insert_eq|done|done]. }
  apply (run_step _ _ _ (mkSystem (sample_db 10 1 []) (loaded 1)) [] None); [|by apply step_load].
  apply (run_step _ _ _ (mkSystem (sample_db 10 1 []) (loaded 0)) [] None); [|by apply step_load].
  constructor.
Defined.

(** An attempt that conflicts while the counter is positive. *)
Definition sample_attempt : M Z Z := fun n =>
  if bool_decide (0 < n) then (Err (ConcurrencyError "conflict"), n - 1) else (Ok 7, n).

Lemma concurrency_retry_outcome_witness : withConcurrencyRetry 5 sample_attempt 4 = (Ok 7, 0).
Proof.
  apply (concurrency_retry_outcome sample_attempt 5 4 4 0); [|lia].
  do 4 (eapply conflicts_S; [vm_compute; reflexivity|]). constructor.
Defined.
