(* ===== verification/Orders.v ===== *)
(** The Orders context: [services/orders/src/domain]. An order's status is derived from an
    append-only history; every method appends to it under the transition table. *)
From S2P Require Import Prelude Kernel.
Import Money.

(** ** Lifecycle ([order-event.ts], [refund-policy.ts], [order-statuses.ts]) *)

Inductive OrderEventType :=
| placed | paid | refunded
| created | confirmed | cancelled | held | resumed | awaiting_payment | payment_requested
| payment_received | payment_failed | ready_for_fulfillment | fulfillment_requested | fulfilled
| partially_fulfilled | delivered | return_requested | returned | refund_requested | closed.

#[export] Instance OrderEventType_eq_dec : EqDecision OrderEventType.
Proof. solve_decision. Defined.

Definition event_type_name (t : OrderEventType) : string :=
  match t with
  | placed => "placed" | paid => "paid" | refunded => "refunded" | created => "created"
  | confirmed => "confirmed" | cancelled => "cancelled" | held => "held" | resumed => "resumed"
  | awaiting_payment => "awaiting_payment" | payment_requested => "payment_requested"
  | payment_received => "payment_received" | payment_failed => "payment_failed"
  | ready_for_fulfillment => "ready_for_fulfillment"
  | fulfillment_requested => "fulfillment_requested" | fulfilled => "fulfilled"
  | partially_fulfilled => "partially_fulfilled" | delivered => "delivered"
  | return_requested => "return_requested" | returned => "returned"
  | refund_requested => "refund_requested" | closed => "closed"
  end.

Definition TRANSITIONS (from : OrderEventType) : list OrderEventType :=
  match from with
  | placed => [paid; cancelled]
  | paid => [refunded]
  | refunded => []
  | created => [confirmed; cancelled]
  | confirmed => [awaiting_payment; held; cancelled]
  | held => [resumed; cancelled]
  | resumed => [awaiting_payment]
  | awaiting_payment => [payment_requested; cancelled]
  | payment_requested => [payment_received; payment_failed; cancelled]
  | payment_failed => [payment_requested; cancelled]
  | payment_received => [ready_for_fulfillment]
  | ready_for_fulfillment => [fulfillment_requested]
  | fulfillment_requested => [fulfilled; partially_fulfilled]
  | partially_fulfilled => [fulfilled]
  | fulfilled => [delivered]
  | delivered => [return_requested; closed]
  | return_requested => [returned]
  | returned => [refund_requested; closed]
  | refund_requested => [closed]
  | cancelled => [closed]
  | closed => []
  end.

Definition canTransition (from to : OrderEventType) : bool :=
  bool_decide (to ∈ TRANSITIONS from).

Record OrderEvent := mkOrderEvent { oe_id : string; oe_type : OrderEventType; oe_at : Z }.

Definition OrderEvent_create (id : string) (type : OrderEventType) (at_ : Z) : OrderEvent :=
  mkOrderEvent id type at_.

Definition REFUNDABLE : list OrderEventType :=
  [paid; payment_received; ready_for_fulfillment; fulfillment_requested; partially_fulfilled;
   fulfilled; delivered; returned].

Definition RefundPolicy_canRefund (status : OrderEventType) : bool :=
  bool_decide (status ∈ REFUNDABLE).

Inductive OrderPaymentStatus := ps_pending | ps_paid | ps_refunded | ps_voided.

Definition PAID : list OrderEventType := [paid; payment_received].
Definition REFUNDED_EVENT_TYPES : list OrderEventType := [refunded; refund_requested].

Definition isOpenOrder (history : list OrderEvent) : bool :=
  negb (existsb (fun e => bool_decide (oe_type e = cancelled) || bool_decide (oe_type e = closed))
    history).

Definition derivePaymentStatus (history : list OrderEvent) : OrderPaymentStatus :=
  let types := oe_type <$> history in
  if existsb (fun t => bool_decide (t ∈ REFUNDED_EVENT_TYPES)) types then ps_refunded
  else if existsb (fun t => bool_decide (t ∈ PAID)) types then ps_paid
  else if bool_decide (cancelled ∈ types) then ps_voided
  else ps_pending.

(** ** Order data ([value-objects], [order-item.ts]) *)

Record ProductSnapshotVariant := mkVariantSnapshot {
  psv_variantRef : string; psv_sku : string; psv_variantTitle : option string }.
Record ProductSnapshot := mkProductSnapshot {
  ps_productId : string; ps_name : string; ps_unitPrice : Money;
  ps_variant : option ProductSnapshotVariant }.

Definition ProductSnapshot_create (productId name : string) (unitPrice : Money)
    (variant : option ProductSnapshotVariant) : result ProductSnapshot :=
  let issues :=
    (if blank productId then [mkFieldIssue "productId" "must not be empty"] else []) ++
    (if blank name then [mkFieldIssue "name" "must not be empty"] else []) in
  match issues with
  | [] => Ok (mkProductSnapshot productId name unitPrice variant)
  | _ => Err (ValidationError "Invalid product snapshot" issues)
  end.

(** The quantity of a line is whatever number the caller passes. *)
Record OrderItem := mkOrderItem { oi_id : string; oi_snapshot : ProductSnapshot; oi_quantity : jsnum }.

Definition lineTotal (i : OrderItem) : result Money :=
  times (ps_unitPrice (oi_snapshot i)) (oi_quantity i).

Record AddressSnapshot := mkAddress {
  ad_line1 : string; ad_line2 : option string; ad_city : string; ad_postalCode : string;
  ad_country : string; ad_recipientName : option string; ad_phone : option string;
  ad_province : option string }.

Definition AddressSnapshot_create (line1 city postalCode country : string)
    (line2 recipientName phone province : option string) : result AddressSnapshot :=
  let fields := [("line1", line1); ("city", city); ("country", country)] in
  let issues :=
    (fun f => mkFieldIssue f.1 "must not be empty") <$> filter (fun f => blank f.2 = true) fields in
  match issues with
  | [] => Ok (mkAddress line1 line2 city postalCode country recipientName phone province)
  | _ => Err (ValidationError "Invalid address" issues)
  end.

Record OrderDiscountLine := mkOrderDiscountLine {
  odl_title : string; odl_code : option string; odl_class : string; odl_amountMinor : Z }.

Record OrderTotalsSnapshot := mkOrderTotals {
  ots_subtotalMinor : Z; ots_taxMinor : Z; ots_shippingMinor : Z; ots_discountMinor : Z;
  ots_totalMinor : jsnum; ots_currency : string; ots_shippingMethod : option string;
  ots_shippingName : option string; ots_taxIncluded : option bool;
  ots_shippingDiscountMinor : option Z; ots_discounts : option (list OrderDiscountLine) }.

(** ** The aggregate ([order.ts]) *)

Record OrderProps := mkOrderProps {
  op_orderNumber : string;
  op_customerRef : string;
  op_currency : string;
  op_items : list OrderItem;
  op_shippingAddress : AddressSnapshot;
  op_history : list OrderEvent;
  op_billingAddress : option AddressSnapshot;
  op_totals : option OrderTotalsSnapshot;
  op_checkoutRef : option string;
  op_paymentRef : option string;
  op_fulfillmentRef : option string
}.

Inductive OrderDomainEvent :=
| OrderPlaced (orderNumber customerRef currency : string) (totalAmountMinor : Z) (lineCount : nat)
| OrderPaid (orderNumber customerRef paymentRef currency : string) (totalAmountMinor : Z)
| OrderRefunded (orderNumber customerRef currency : string) (totalAmountMinor : Z)
| OrderTransitioned (orderNumber customerRef : string) (fromStatus toStatus : OrderEventType).

Abbreviation Order := (Aggregate OrderProps OrderDomainEvent).
Abbreviation OrderM := (M Order).

Definition with_history (h : list OrderEvent) (p : OrderProps) : OrderProps :=
  mkOrderProps (op_orderNumber p) (op_customerRef p) (op_currency p) (op_items p)
    (op_shippingAddress p) h (op_billingAddress p) (op_totals p) (op_checkoutRef p)
    (op_paymentRef p) (op_fulfillmentRef p).
Definition with_paymentRef (r : option string) (p : OrderProps) : OrderProps :=
  mkOrderProps (op_orderNumber p) (op_customerRef p) (op_currency p) (op_items p)
    (op_shippingAddress p) (op_history p) (op_billingAddress p) (op_totals p) (op_checkoutRef p)
    r (op_fulfillmentRef p).
Definition with_fulfillmentRef (r : option string) (p : OrderProps) : OrderProps :=
  mkOrderProps (op_orderNumber p) (op_customerRef p) (op_currency p) (op_items p)
    (op_shippingAddress p) (op_history p) (op_billingAddress p) (op_totals p) (op_checkoutRef p)
    (op_paymentRef p) r.

Definition history (o : Order) : list OrderEvent := op_history (agg_props o).

(** [get status()] *)
Definition status_of (h : list OrderEvent) : result OrderEventType :=
  match last h with
  | None => Err (BusinessRuleError "Order has no history")
  | Some e => Ok (oe_type e)
  end.
Definition status : OrderM OrderEventType :=
  h ← gets history; lift (status_of h).

Definition must (r : result Money) : result Money :=
  match r with
  | Ok m => Ok m
  | Err _ => Err (BusinessRuleError "Corrupt order totals snapshot")
  end.

Definition totalAmount_of (p : OrderProps) : result Money :=
  match op_totals p with
  | Some t => must (create (ots_totalMinor t) (ots_currency t))
  | None =>
      z ← zero (op_currency p);
      foldM (fun acc i => l ← lineTotal i; plus acc l) z (op_items p)
  end.
Definition totalAmount : OrderM Money := p ← gets agg_props; lift (totalAmount_of p).

Definition record (type : OrderEventType) (eid : string) (at_ : Z) : OrderM unit :=
  id ← lift (UniqueEntityId_from eid);
  set_props (fun p => with_history (op_history p ++ [OrderEvent_create id type at_]) p).

Definition transition (toStatus : OrderEventType) (eid : string) (at_ : Z) : OrderM unit :=
  fromStatus ← status;
  throw_if (negb (canTransition fromStatus toStatus))
    (BusinessRuleError ("Cannot transition order from " +:+ quoted (event_type_name fromStatus) +:+
      " to " +:+ quoted (event_type_name toStatus)));;
  record toStatus eid at_;;
  p ← gets agg_props;
  addDomainEvent eid at_
    (OrderTransitioned (op_orderNumber p) (op_customerRef p) fromStatus toStatus).

Definition check_new_order (items : list OrderItem) (currency : string) : result unit :=
  if bool_decide (length items = 0%nat)
  then Err (BusinessRuleError "An order needs at least one item")
  else if negb (isValidCurrencyCode currency)
  then Err (BusinessRuleError ("Invalid order currency " +:+ quoted currency))
  else Ok tt.

Definition place (id orderNumber customerRef currency : string) (items : list OrderItem)
    (shippingAddress : AddressSnapshot) (eid : string) (at_ : Z) : result Order :=
  _ ← check_new_order items currency;
  let order := new_agg
    (mkOrderProps orderNumber customerRef currency items shippingAddress [] None None None None
       None) id in
  fst ((record placed eid at_;;
   total ← totalAmount;
   addDomainEvent eid at_
     (OrderPlaced orderNumber customerRef currency (amountMinor total) (length items));;
   gets (fun o => o)) order).

Definition createFromCheckout (id orderNumber customerRef currency : string)
    (items : list OrderItem) (shippingAddress billingAddress : AddressSnapshot)
    (totals : OrderTotalsSnapshot) (checkoutRef eid : string) (at_ : Z) : result Order :=
  _ ← check_new_order items currency;
  let order := new_agg
    (mkOrderProps orderNumber customerRef currency items shippingAddress [] (Some billingAddress)
       (Some totals) (Some checkoutRef) None None) id in
  fst ((record created eid at_;;
        addDomainEvent eid at_ (OrderTransitioned orderNumber customerRef created created);;
        gets (fun o => o)) order).

(** [reconstitute]: what the repository mapper calls; no events, the persisted version. *)
Definition reconstitute (id : string) (p : OrderProps) (version : Z) : result Order :=
  if bool_decide (length (op_history p) = 0%nat)
  then Err (BusinessRuleError "A persisted order must have at least one history entry")
  else Ok (new_agg_at p id version).

Definition cannot_be_paid (st : OrderEventType) : DomainError :=
  BusinessRuleError ("Order cannot be paid from status " +:+ quoted (event_type_name st)).

Definition markPaid (paymentRef eid : string) (at_ : Z) : OrderM unit :=
  st ← status;
  throw_if (negb (bool_decide (st = placed))) (cannot_be_paid st);;
  record paid eid at_;;
  p ← gets agg_props;
  total ← totalAmount;
  addDomainEvent eid at_
    (OrderPaid (op_orderNumber p) (op_customerRef p) paymentRef (op_currency p)
       (amountMinor total)).

Definition completePayment (paymentRef eid : string) (at_ : Z) : OrderM unit :=
  st ← status;
  if bool_decide (st = placed) then markPaid paymentRef eid at_
  else if canTransition st payment_received then
    transition payment_received eid at_;;
    set_props (with_paymentRef (Some paymentRef))
  else throw (cannot_be_paid st).

Definition refund (eid : string) (at_ : Z) : OrderM unit :=
  st ← status;
  throw_if (negb (RefundPolicy_canRefund st))
    (BusinessRuleError ("Order is not refundable from status " +:+ quoted (event_type_name st)));;
  record refunded eid at_;;
  p ← gets agg_props;
  total ← totalAmount;
  addDomainEvent eid at_
    (OrderRefunded (op_orderNumber p) (op_customerRef p) (op_currency p) (amountMinor total)).

Definition requestPayment (paymentRef eid : string) (at_ : Z) : OrderM unit :=
  transition payment_requested eid at_;; set_props (with_paymentRef (Some paymentRef)).

Definition requestFulfillment (fulfillmentRef eid : string) (at_ : Z) : OrderM unit :=
  transition fulfillment_requested eid at_;; set_props (with_fulfillmentRef (Some fulfillmentRef)).

(** The public methods that change an order. *)
Inductive OrderOp :=
| MarkPaid (paymentRef : string) | CompletePayment (paymentRef : string) | Refund
| Transition (to : OrderEventType) | Confirm | Cancel | Hold | Resume | MarkAwaitingPayment
| RequestPayment (paymentRef : string) | MarkPaymentReceived | MarkPaymentFailed
| MarkReadyForFulfillment | RequestFulfillment (fulfillmentRef : string) | MarkFulfilled
| MarkPartiallyFulfilled | MarkDelivered | RequestReturn | MarkReturned | RequestRefund | Close.

Definition order_exec (op : OrderOp * (string * Z)) : OrderM unit :=
  let '(o, (eid, at_)) := op in
  match o with
  | MarkPaid r => markPaid r eid at_
  | CompletePayment r => completePayment r eid at_
  | Refund => refund eid at_
  | Transition to => transition to eid at_
  | Confirm => transition confirmed eid at_
  | Cancel => transition cancelled eid at_
  | Hold => transition held eid at_
  | Resume => transition resumed eid at_
  | MarkAwaitingPayment => transition awaiting_payment eid at_
  | RequestPayment r => requestPayment r eid at_
  | MarkPaymentReceived => transition payment_received eid at_
  | MarkPaymentFailed => transition payment_failed eid at_
  | MarkReadyForFulfillment => transition ready_for_fulfillment eid at_
  | RequestFulfillment r => requestFulfillment r eid at_
  | MarkFulfilled => transition fulfilled eid at_
  | MarkPartiallyFulfilled => transition partially_fulfilled eid at_
  | MarkDelivered => transition delivered eid at_
  | RequestReturn => transition return_requested eid at_
  | MarkReturned => transition returned eid at_
  | RequestRefund => transition refund_requested eid at_
  | Close => transition closed eid at_
  end.

(** An order as the constructors make it. *)
Definition new_order (o : Order) : Prop :=
  (exists id n c cur its a eid t, place id n c cur its a eid t = Ok o) \/
  (exists id n c cur its a b tot ck eid t,
     createFromCheckout id n c cur its a b tot ck eid t = Ok o).

Definition order_reachable : Order -> Prop := reachable new_order order_exec.

(** ** The lifecycle as a path of event types *)

Definition types (h : list OrderEvent) : list OrderEventType := oe_type <$> h.

Definition edge (a b : OrderEventType) : bool :=
  canTransition a b || (RefundPolicy_canRefund a && bool_decide (b = refunded)).

Inductive lifecycle_path : list OrderEventType -> Prop :=
| path_start t : t = placed \/ t = created -> lifecycle_path [t]
| path_step l a b : lifecycle_path (l ++ [a]) -> edge a b = true ->
    lifecycle_path ((l ++ [a]) ++ [b]).

Definition count (ts l : list OrderEventType) : nat := length (filter (fun t => t ∈ ts) l).

(** What the last status says about how many payment, cancellation and refund entries came before. *)
Definition counts_ok (t : OrderEventType) (paid_n cancelled_n refunded_n : nat) : bool :=
  match t with
  | placed | created | confirmed | held | resumed | awaiting_payment | payment_requested
  | payment_failed => bool_decide (paid_n = 0 /\ cancelled_n = 0 /\ refunded_n = 0)%nat
  | paid | payment_received | ready_for_fulfillment | fulfillment_requested | fulfilled
  | partially_fulfilled | delivered | return_requested | returned =>
      bool_decide (paid_n = 1 /\ cancelled_n = 0 /\ refunded_n = 0)%nat
  | refunded | refund_requested =>
      bool_decide (paid_n = 1 /\ cancelled_n = 0 /\ refunded_n = 1)%nat
  | cancelled => bool_decide (paid_n = 0 /\ cancelled_n = 1 /\ refunded_n = 0)%nat
  | closed => bool_decide (paid_n + cancelled_n = 1 /\ refunded_n <= paid_n)%nat
  end.

Lemma count_app ts l1 l2 : count ts (l1 ++ l2) = (count ts l1 + count ts l2)%nat.
Proof. unfold count. by rewrite filter_app, length_app. Qed.

Lemma count_pos ts l : (1 <= count ts l)%nat <-> exists t, t ∈ ts /\ t ∈ l.
Proof.
  unfold count. split.
  - destruct (filter _ l) as [|t l'] eqn:E; [cbn; lia|]. intros _. exists t.
    apply (list_elem_of_filter (fun t => t ∈ ts)). rewrite E. left.
  - intros (t & Hts & Hl). assert (H : t ∈ filter (fun t => t ∈ ts) l).
    { by apply list_elem_of_filter. }
    destruct (filter _ l); [by apply not_elem_of_nil in H|cbn; lia].
Qed.

Lemma path_counts l t :
  lifecycle_path (l ++ [t]) ->
  counts_ok t (count PAID (l ++ [t])) (count [cancelled] (l ++ [t]))
    (count REFUNDED_EVENT_TYPES (l ++ [t])) = true.
Proof.
  intros H. remember (l ++ [t]) as h eqn:Eh. revert l t Eh.
  induction H as [u Hu|h a b H IH He]; intros l t Eh.
  - destruct l as [|x l]; cbn in Eh; [|by destruct l].
    simplify_eq. by destruct Hu as [->| ->].
  - apply app_inj_tail in Eh as [_ <-].
    specialize (IH h a eq_refl). rewrite !(count_app _ (h ++ [a]) [b]).
    revert IH. generalize (count PAID (h ++ [a])) (count [cancelled] (h ++ [a]))
      (count REFUNDED_EVENT_TYPES (h ++ [a])). intros x y z IH.
    set (p := count PAID [b]). set (c := count [cancelled] [b]).
    set (r := count REFUNDED_EVENT_TYPES [b]).
    destruct a, b; try discriminate He; vm_compute in p, c, r; subst p c r;
      cbn in IH |- *; apply bool_decide_eq_true in IH; apply bool_decide_eq_true; lia.
Qed.

Lemma path_prefix l1 l2 : lifecycle_path (l1 ++ l2) -> l1 <> [] -> lifecycle_path l1.
Proof.
  induction l2 as [|x l2 IH] using rev_ind; intros H Hn; [by rewrite app_nil_r in H|].
  rewrite app_assoc in H. remember (l1 ++ l2) as h eqn:Eh.
  assert (Hlen : length (h ++ [x]) = S (length h)) by (rewrite length_app; cbn; lia).
  inversion H as [u Hu Hu'|h' a b H' He Eq]; subst.
  - rewrite <- Hu' in Hlen. destruct l1; [done|]. cbn in Hlen. lia.
  - apply app_inj_tail in Eq as [Eq _]. rewrite Eq in H'. by apply IH.
Qed.

Lemma path_nonempty l : lifecycle_path l -> l <> [].
Proof. destruct 1; [done|]. by destruct l. Qed.

(** ** What each method does *)

Lemma status_Ok (o : Order) st o' :
  status o = (Ok st, o') <-> o' = o /\ exists h e, history o = h ++ [e] /\ st = oe_type e.
Proof.
  unfold status. rewrite bind_Ok. setoid_rewrite gets_Ok. setoid_rewrite lift_Ok.
  unfold status_of. split.
  - intros (h & s & [-> ->] & H & ->). split; [done|].
    destruct (last (history o)) as [e|] eqn:E; [|done]. simplify_eq.
    apply last_Some in E as [h E]. by exists h, e.
  - intros [-> (h & e & E & ->)]. exists (history o), o. split; [done|].
    by rewrite E, last_snoc.
Qed.

Lemma record_Ok t eid at_ (o : Order) u o' :
  record t eid at_ o = (Ok u, o') <->
  blank eid = false /\
  o' = mkAgg (agg_id o) (agg_version o) (agg_events o)
         (with_history (history o ++ [mkOrderEvent eid t at_]) (agg_props o)).
Proof.
  unfold record. rewrite bind_Ok. split.
  - intros (id & s & [[? ->]%UniqueEntityId_from_Ok ->]%lift_Ok & ->%set_props_Ok). done.
  - intros [? ->]. exists eid, o. split; [|by apply set_props_Ok].
    apply lift_Ok. by rewrite UniqueEntityId_from_Ok.
Qed.

(** Every successful call appends exactly one history entry, along an edge of the lifecycle, and
    raises exactly one event. *)
Definition one_step (o o' : Order) : Prop :=
  exists h e e' ev,
    history o = h ++ [e] /\ history o' = history o ++ [e'] /\
    edge (oe_type e) (oe_type e') = true /\
    agg_events o' = agg_events o ++ [ev] /\
    agg_id o' = agg_id o /\ agg_version o' = agg_version o /\
    op_items (agg_props o') = op_items (agg_props o) /\
    op_totals (agg_props o') = op_totals (agg_props o) /\
    op_currency (agg_props o') = op_currency (agg_props o).

Lemma one_step_intro (o : Order) h e eid t at_ ev :
  history o = h ++ [e] -> edge (oe_type e) t = true ->
  one_step o (mkAgg (agg_id o) (agg_version o) (agg_events o ++ [ev])
    (with_history (history o ++ [mkOrderEvent eid t at_]) (agg_props o))).
Proof. intros H He. by exists h, e, (mkOrderEvent eid t at_), ev. Qed.

Lemma edge_can a b : canTransition a b = true -> edge a b = true.
Proof. intros H. unfold edge. by rewrite H. Qed.
Lemma edge_refund a : RefundPolicy_canRefund a = true -> edge a refunded = true.
Proof. intros H. unfold edge. rewrite H. by rewrite orb_true_r. Qed.
#[local] Hint Resolve edge_can edge_refund : core.

(** Inverts the calls an order method makes. *)
Ltac order_inv :=
  repeat (minv; match goal with
  | H : status _ = (Ok _, _) |- _ => apply status_Ok in H as [-> (? & ? & ? & ->)]
  | H : record _ _ _ _ = (Ok _, _) |- _ => apply record_Ok in H as [? ->]
  | H : set_props _ _ = (Ok _, _) |- _ => apply set_props_Ok in H as ->
  | H : addDomainEvent _ _ _ _ = (Ok _, _) |- _ => apply addDomainEvent_Ok in H as ->
  | H : negb _ = false |- _ => apply negb_false_iff in H
  | H : bool_decide _ = true |- _ => apply bool_decide_eq_true in H
  | H : bool_decide _ = false |- _ => apply bool_decide_eq_false in H
  end); minv.

Lemma transition_one_step t eid at_ (o : Order) u o' :
  transition t eid at_ o = (Ok u, o') -> one_step o o'.
Proof.
  intros H. unfold transition in H. order_inv. eapply one_step_intro; eauto.
Qed.

Lemma one_step_props f (o o1 o' : Order) :
  (forall p, op_history (f p) = op_history p /\ op_items (f p) = op_items p /\
             op_totals (f p) = op_totals p /\ op_currency (f p) = op_currency p) ->
  one_step o o1 ->
  o' = mkAgg (agg_id o1) (agg_version o1) (agg_events o1) (f (agg_props o1)) ->
  one_step o o'.
Proof.
  intros Hf (h & e & e' & ev & H1 & H2 & H3 & H4 & H5 & H6 & H7 & H8 & H9) ->.
  destruct (Hf (agg_props o1)) as (F1 & F2 & F3 & F4).
  exists h, e, e', ev. unfold history in *; cbn. rewrite F1, F2, F3, F4. done.
Qed.

Lemma order_exec_one_step op (o : Order) u o' :
  order_exec op o = (Ok u, o') -> one_step o o'.
Proof.
  destruct op as [op [eid at_]]. intros H.
  assert (Hpay : forall r, markPaid r eid at_ o = (Ok u, o') -> one_step o o').
  { intros r Hm. unfold markPaid, totalAmount in Hm. order_inv.
    eapply one_step_intro; [eassumption|]. match goal with H : oe_type _ = placed |- _ => by rewrite H end. }
  destruct op; cbn in H; eauto using transition_one_step.
  - unfold completePayment in H. order_inv. case_bool_decide as Hp; [eauto|].
    destruct (canTransition _ _); [|minv]. minv. apply set_props_Ok in H.
    eapply one_step_props; [..|exact H]; [done|]. eauto using transition_one_step.
  - unfold refund, totalAmount in H. order_inv. eapply one_step_intro; eauto.
  - unfold requestPayment in H. minv. apply set_props_Ok in H.
    eapply one_step_props; [..|exact H]; [done|]. eauto using transition_one_step.
  - unfold requestFulfillment in H. minv. apply set_props_Ok in H.
    eapply one_step_props; [..|exact H]; [done|]. eauto using transition_one_step.
Qed.

Lemma new_order_start o :
  new_order o -> exists e, history o = [e] /\ (oe_type e = placed \/ oe_type e = created).
Proof.
  intros [(id & n & c & cur & its & a & eid & t & H)|
          (id & n & c & cur & its & a & b & tot & ck & eid & t & H)].
  - unfold place in H. minv. match goal with H : fst ?x = _ |- _ => destruct x as [r s] eqn:E end.
    cbn in H; subst. unfold totalAmount in *. order_inv. eexists. split; [done|]. by left.
  - unfold createFromCheckout in H. minv. match goal with H : fst ?x = _ |- _ => destruct x as [r s] eqn:E end.
    cbn in H; subst. unfold totalAmount in *. order_inv. eexists. split; [done|]. by right.
Qed.

Lemma reachable_path o : order_reachable o -> lifecycle_path (types (history o)).
Proof.
  revert o. apply (reachable_invariant _ _ (fun o => lifecycle_path (types (history o)))).
  - intros o (e & -> & Ht)%new_order_start. by constructor.
  - intros op o u o' IH (h & e & e' & ev & H1 & H2 & H3 & _)%order_exec_one_step.
    rewrite H2. rewrite H1 in IH |- *. unfold types in *. rewrite !fmap_app in *. cbn in *.
    by apply path_step.
Qed.

Lemma record_Err t eid at_ (o : Order) e o' : record t eid at_ o = (Err e, o') -> o' = o.
Proof.
  unfold record, mbind, M_bind, lift. destruct (UniqueEntityId_from eid); [done|]. by intros [= _ <-].
Qed.

Lemma transition_Err t eid at_ (o : Order) e o' : transition t eid at_ o = (Err e, o') -> o' = o.
Proof.
  unfold transition, status, mbind, M_bind, gets, lift, throw_if.
  destruct (status_of _) as [st|]; [|by intros [= _ <-]].
  destruct (negb _); [by intros [= _ <-]|].
  destruct (record t eid at_ o) as [[[]|e'] o1] eqn:Hr; [done|]. intros [= _ <-].
  by eapply record_Err.
Qed.

Lemma totalAmount_of_history (p : OrderProps) h : totalAmount_of (with_history h p) = totalAmount_of p.
Proof. done. Qed.

(** A method that fails after recording does so only because the total cannot be computed. *)
Lemma order_exec_Err op (o : Order) e o' :
  isOk (totalAmount_of (agg_props o)) = true -> order_exec op o = (Err e, o') -> o' = o.
Proof.
  destruct op as [op [eid at_]]. intros Ht.
  destruct (totalAmount_of (agg_props o)) as [m|] eqn:Hm; [|done]. clear Ht.
  assert (Htr : forall t f, (transition t eid at_;; set_props f) o = (Err e, o') -> o' = o).
  { intros t f. unfold mbind, M_bind, set_props, modify.
    destruct (transition t eid at_ o) as [[[]|e'] o1] eqn:Hr; [done|]. intros [= _ <-].
    by eapply transition_Err. }
  assert (Hrec : forall g t b (k : OrderProps -> Money -> OrderDomainEvent),
    (st ← status; throw_if (g st) (b st);; record t eid at_;;
     p ← gets agg_props; total ← totalAmount; addDomainEvent eid at_ (k p total)) o = (Err e, o') ->
    o' = o).
  { intros g t b k. unfold status, totalAmount, mbind, M_bind, gets, lift, throw_if.
    destruct (status_of _) as [st|]; [|by intros [= _ <-]].
    destruct (g st); [by intros [= _ <-]|].
    destruct (record t eid at_ o) as [[[]|e'] o1] eqn:Hr.
    - apply record_Ok in Hr as [_ ->]. cbn. rewrite totalAmount_of_history, Hm. done.
    - intros [= _ <-]. by eapply record_Err. }
  destruct op; cbn; eauto using transition_Err; intros H.
  - exact (Hrec (fun st => negb (bool_decide (st = placed))) paid cannot_be_paid
      (fun p total => OrderPaid (op_orderNumber p) (op_customerRef p) paymentRef (op_currency p)
         (amountMinor total)) H).
  - apply bind_Err in H as [H|(st & o1 & [-> _]%status_Ok & H)].
    { unfold status, mbind, M_bind, gets, lift in H. by simplify_eq. }
    case_bool_decide.
    + exact (Hrec (fun st => negb (bool_decide (st = placed))) paid cannot_be_paid
      (fun p total => OrderPaid (op_orderNumber p) (op_customerRef p) paymentRef (op_currency p)
         (amountMinor total)) H).
    + destruct (canTransition _ _); [by eauto|]. unfold throw in H. by simplify_eq.
  - exact (Hrec (fun st => negb (RefundPolicy_canRefund st)) refunded
      (fun st => BusinessRuleError
        ("Order is not refundable from status " +:+ quoted (event_type_name st)))
      (fun p total => OrderRefunded (op_orderNumber p) (op_customerRef p) (op_currency p)
         (amountMinor total)) H).
Qed.

(** ** Reaching the end of the lifecycle *)

Definition terminal (t : OrderEventType) : bool := bool_decide (t = closed \/ t = refunded).

Definition way_out (t : OrderEventType) : list OrderEventType :=
  match t with
  | closed | refunded => []
  | paid => [refunded]
  | placed | created | confirmed | held | awaiting_payment | payment_requested
  | payment_failed => [cancelled; closed]
  | resumed => [awaiting_payment; cancelled; closed]
  | cancelled | delivered | returned | refund_requested => [closed]
  | return_requested => [returned; closed]
  | fulfilled => [delivered; closed]
  | partially_fulfilled | fulfillment_requested => [fulfilled; delivered; closed]
  | ready_for_fulfillment => [fulfillment_requested; fulfilled; delivered; closed]
  | payment_received => [ready_for_fulfillment; fulfillment_requested; fulfilled; delivered; closed]
  end.

Fixpoint transitions (ts : list OrderEventType) (eid : string) (at_ : Z) : OrderM unit :=
  match ts with
  | [] => mret tt
  | t :: ts' => transition t eid at_;; transitions ts' eid at_
  end.

Fixpoint legal (t : OrderEventType) (ts : list OrderEventType) : bool :=
  match ts with [] => true | t' :: ts' => canTransition t t' && legal t' ts' end.

Lemma transition_succeeds t eid at_ (o : Order) h e :
  history o = h ++ [e] -> canTransition (oe_type e) t = true -> blank eid = false ->
  exists o', transition t eid at_ o = (Ok tt, o') /\
    history o' = history o ++ [mkOrderEvent eid t at_].
Proof.
  intros Hh Hc Hb. unfold transition, status, mbind, M_bind, gets, lift, throw_if.
  replace (status_of (history o)) with (Ok (oe_type e)); [|by rewrite Hh; unfold status_of; rewrite last_snoc].
  rewrite Hc. cbn.
  destruct (record t eid at_ o) as [[[]|e'] o1] eqn:Hr.
  - apply record_Ok in Hr as [_ ->]. eexists. done.
  - exfalso. unfold record, mbind, M_bind, lift, UniqueEntityId_from, Guard.againstEmpty in Hr.
    by rewrite Hb in Hr.
Qed.

Lemma transitions_succeed ts eid at_ (o : Order) h e :
  blank eid = false -> history o = h ++ [e] -> legal (oe_type e) ts = true ->
  exists o', transitions ts eid at_ o = (Ok tt, o') /\
    types (history o') = types (history o) ++ ts.
Proof.
  intros Hb. revert o h e. induction ts as [|t ts IH]; intros o h e Hh Hl.
  - exists o. split; [done|]. by rewrite app_nil_r.
  - cbn in Hl. apply andb_true_iff in Hl as [Hc Hl].
    destruct (transition_succeeds t eid at_ o h e) as (o1 & H1 & Hh1); [done..|].
    destruct (IH o1 (history o) (mkOrderEvent eid t at_) Hh1 Hl) as (o2 & H2 & Hh2).
    exists o2. split.
    + cbn. unfold mbind, M_bind. by rewrite H1.
    + rewrite Hh2, Hh1. unfold types. rewrite fmap_app. cbn. by rewrite <- app_assoc.
Qed.

Lemma reachable_history o :
  order_reachable o -> exists h e, history o = h ++ [e].
Proof.
  intros H%reachable_path%path_nonempty. destruct (history o) as [|e h _] using rev_ind; [done|].
  by exists h, e.
Qed.

(** ** Payments and refunds in a path *)

Lemma path_payment_counts ts :
  lifecycle_path ts ->
  (count PAID ts + count [cancelled] ts <= 1)%nat /\
  (count REFUNDED_EVENT_TYPES ts <= count PAID ts)%nat.
Proof.
  intros Hp. destruct ts as [|t l _] using rev_ind; [by apply path_nonempty in Hp|].
  apply path_counts in Hp. revert Hp.
  generalize (count PAID (l ++ [t])) (count [cancelled] (l ++ [t]))
    (count REFUNDED_EVENT_TYPES (l ++ [t])). intros n1 n2 n3 Hp.
  destruct t; cbn in Hp; apply bool_decide_eq_true in Hp; lia.
Qed.

Lemma path_refund_after_payment before x after :
  lifecycle_path (before ++ x :: after) -> x ∈ REFUNDED_EVENT_TYPES ->
  exists p, p ∈ PAID /\ p ∈ before.
Proof.
  intros Hp Hx. apply count_pos. assert (Hq : lifecycle_path (before ++ [x])).
  { apply (path_prefix _ after); [by rewrite <- app_assoc|by destruct before]. }
  apply path_counts in Hq. rewrite !count_app in Hq.
  assert (Hx0 : count PAID [x] = 0%nat /\ (1 <= count REFUNDED_EVENT_TYPES [x])%nat).
  { unfold REFUNDED_EVENT_TYPES in Hx |- *. split.
    - apply elem_of_cons in Hx as [->|Hx]; [done|]. apply list_elem_of_singleton in Hx as ->. done.
    - apply count_pos. exists x. split; [done|left]. }
  revert Hq Hx0. generalize (count PAID before) (count PAID [x]) (count [cancelled] before)
    (count [cancelled] [x]) (count REFUNDED_EVENT_TYPES before) (count REFUNDED_EVENT_TYPES [x]).
  intros n1 n2 n3 n4 n5 n6 Hq Hx0.
  destruct x; cbn in Hq; apply bool_decide_eq_true in Hq; lia.
Qed.

Lemma elem_count x ts : x ∈ ts <-> (1 <= count [x] ts)%nat.
Proof.
  rewrite count_pos. split; [exists x; split; [left|done]|].
  intros (y & ->%list_elem_of_singleton & ?). done.
Qed.

(** ** Properties *)

(** Status integrity. In every order reached from [place] or [createFromCheckout] by successful
    calls of its methods, the history starts at [placed] or [created] and every later entry follows
    an allowed transition of the lifecycle table, or is a [refunded] entry the refund policy allows;
    the status read back is the last entry, so [get status] never throws. *)
Theorem order_history_follows_lifecycle (o : Order) :
  order_reachable o ->
  lifecycle_path (types (history o)) /\
  exists t, status o = (Ok t, o) /\ last (types (history o)) = Some t.
Proof.
  intros H. split; [by apply reachable_path|].
  destruct (reachable_history o H) as (h & e & E). exists (oe_type e).
  split; [apply status_Ok; eauto|]. unfold types. rewrite E, fmap_app. apply last_snoc.
Qed.

(** C1: payment truth. A reachable order was paid at most once; paying and cancelling exclude each
    other; it is refunded at most once and only after it was paid; and so the payment status derived
    from the history is "voided" exactly for cancelled orders, "refunded" exactly when a refund
    entry exists, and "paid" exactly when it was paid and not refunded. *)
Theorem order_payment_truth (o : Order) :
  order_reachable o ->
  let ts := types (history o) in
  (count PAID ts + count [cancelled] ts <= 1)%nat /\
  (count REFUNDED_EVENT_TYPES ts <= count PAID ts)%nat /\
  (forall before x after, ts = before ++ x :: after -> x ∈ REFUNDED_EVENT_TYPES ->
     exists p, p ∈ PAID /\ p ∈ before) /\
  (derivePaymentStatus (history o) = ps_voided <-> cancelled ∈ ts) /\
  (derivePaymentStatus (history o) = ps_refunded <-> exists x, x ∈ REFUNDED_EVENT_TYPES /\ x ∈ ts) /\
  (derivePaymentStatus (history o) = ps_paid <->
     (exists x, x ∈ PAID /\ x ∈ ts) /\ ~ exists x, x ∈ REFUNDED_EVENT_TYPES /\ x ∈ ts).
Proof.
  intros H ts. pose proof (reachable_path o H) as Hp. fold ts in Hp.
  pose proof (path_payment_counts ts Hp) as [Hc1 Hc2]. do 2 (split; [done|]). split.
  { intros before x after E. rewrite E in Hp. by eapply path_refund_after_payment. }
  pose proof (count_pos PAID ts) as P1. pose proof (count_pos REFUNDED_EVENT_TYPES ts) as P3.
  pose proof (elem_count cancelled ts) as P2.
  pose proof (existsb_elem PAID ts) as E1. pose proof (existsb_elem REFUNDED_EVENT_TYPES ts) as E3.
  unfold derivePaymentStatus. fold (types (history o)). fold ts.
  destruct (existsb (fun t => bool_decide (t ∈ REFUNDED_EVENT_TYPES)) ts);
    [|destruct (existsb (fun t => bool_decide (t ∈ PAID)) ts); [|case_bool_decide]];
    repeat split; intros; try done; intuition (try congruence; try lia).
Qed.

(** Every call is all-or-nothing. On an order whose total can be computed (always so for an
    order made by [place]), a method either fails and leaves the order untouched, or appends exactly
    one history entry along an allowed edge and raises exactly one event, changing no line, total,
    currency, id or version. *)
Theorem order_call_is_atomic (op : OrderOp * (string * Z)) (o : Order) :
  isOk (totalAmount_of (agg_props o)) = true ->
  match order_exec op o with
  | (Ok _, o') => one_step o o'
  | (Err _, o') => o' = o
  end.
Proof.
  intros Ht. destruct (order_exec op o) as [[u|e] o'] eqn:E.
  - by eapply order_exec_one_step.
  - by eapply order_exec_Err.
Qed.

(** No dead ends. From every reachable order some sequence of transition calls, all of which
    succeed, takes the order to a terminal status ([closed] or [refunded]). *)
Theorem order_can_always_finish (o : Order) (eid : string) (at_ : Z) :
  order_reachable o -> blank eid = false ->
  exists ts o' t, transitions ts eid at_ o = (Ok tt, o') /\ (length ts <= 5)%nat /\
    last (types (history o')) = Some t /\ terminal t = true.
Proof.
  intros H Hb. destruct (reachable_history o H) as (h & e & Hh).
  assert (Hl : legal (oe_type e) (way_out (oe_type e)) = true) by by destruct (oe_type e).
  destruct (transitions_succeed (way_out (oe_type e)) eid at_ o h e Hb Hh Hl) as (o' & Ho & Ht).
  exists (way_out (oe_type e)), o'.
  assert (Hlast : exists t, last (oe_type e :: way_out (oe_type e)) = Some t /\ terminal t = true /\
    (length (way_out (oe_type e)) <= 5)%nat).
  { destruct (oe_type e); eexists; (split; [reflexivity|]); (split; [reflexivity|]); cbn; lia. }
  destruct Hlast as (t & Hl1 & Hl2 & Hl3). exists t. do 2 (split; [done|]). split; [|done].
  rewrite Ht, Hh. unfold types. rewrite fmap_app, <- app_assoc. cbn [fmap list_fmap app].
  by rewrite last_app, Hl1.
Qed.

(** ** Witnesses *)

Definition sample_item : OrderItem :=
  mkOrderItem "item-1" (mkProductSnapshot "prod-1" "Puzzle" (mkMoney 500 "EUR") None) (NInt 2).
Definition sample_address : AddressSnapshot :=
  mkAddress "1 Main St" None "Cairo" "11511" "EG" None None None.
Definition sample_placed : Order :=
  mkAgg "order-1" 0
    [(mkMeta "e1" "order-1" 10, OrderPlaced "1001" "cust-1" "EUR" 1000 1)]
    (mkOrderProps "1001" "cust-1" "EUR" [sample_item] sample_address
       [mkOrderEvent "e1" placed 10] None None None None None).
Definition sample_refunded : Order :=
  snd ((order_exec (CompletePayment "pay-1", ("e2", 11));; order_exec (Refund, ("e3", 12)))
         sample_placed).

Lemma sample_refunded_reachable : order_reachable sample_refunded.
Proof.
  eapply reach_step with (s := snd (order_exec (CompletePayment "pay-1", ("e2", 11)) sample_placed))
    (op := (Refund, ("e3", 12))); [|vm_compute; reflexivity].
  eapply reach_step with (s := sample_placed) (op := (CompletePayment "pay-1", ("e2", 11)));
    [|vm_compute; reflexivity].
  apply reach_init. left. exists "order-1", "1001", "cust-1", "EUR", [sample_item], sample_address,
    "e1", 10. vm_compute. reflexivity.
Defined.

Lemma order_history_follows_lifecycle_witness :
  order_reachable sample_refunded /\
  lifecycle_path (types (history sample_refunded)) /\
  exists t, status sample_refunded = (Ok t, sample_refunded) /\
    last (types (history sample_refunded)) = Some t.
Proof.
  split; [exact sample_refunded_reachable|].
  apply (order_history_follows_lifecycle sample_refunded), sample_refunded_reachable.
Defined.

Lemma order_payment_truth_witness :
  types (history sample_refunded) = [placed; paid; refunded] /\
  (count REFUNDED_EVENT_TYPES (types (history sample_refunded)) <=
    count PAID (types (history sample_refunded)))%nat.
Proof.
  split; [vm_compute; reflexivity|].
  apply (order_payment_truth sample_refunded), sample_refunded_reachable.
Defined.

Lemma order_call_is_atomic_witness :
  one_step sample_placed (snd (order_exec (MarkPaid "pay-1", ("e2", 11)) sample_placed)).
Proof.
  apply (order_call_is_atomic (MarkPaid "pay-1", ("e2", 11)) sample_placed). vm_compute. reflexivity.
Defined.

Lemma order_can_always_finish_witness :
  exists ts o' t, transitions ts "e9" 20 sample_refunded = (Ok tt, o') /\ (length ts <= 5)%nat /\
    last (types (history o')) = Some t /\ terminal t = true.
Proof.
  apply (order_can_always_finish sample_refunded "e9" 20);
    [exact sample_refunded_reachable|vm_compute; reflexivity].
Defined.
