(* ===== verification/Payments.v ===== *)
(** The Payments context: [services/payments/src/domain]. A payment intent moves through its
    lifecycle, records charges, and reserves, completes or fails refunds against what was captured. *)
From S2P Require Import Prelude Kernel.
Import Money.

(** ** Lifecycle ([value-objects/payment-status.ts]) *)

Inductive PaymentStatusValue :=
| requires_payment | captured | failed | refunded
| created | processing | authorized | capture_requested | cancelled | expired
| partially_refunded | closed.

#[export] Instance PaymentStatusValue_eq_dec : EqDecision PaymentStatusValue.
Proof. solve_decision. Defined.

Definition status_name (s : PaymentStatusValue) : string :=
  match s with
  | requires_payment => "requires_payment" | captured => "captured" | failed => "failed"
  | refunded => "refunded" | created => "created" | processing => "processing"
  | authorized => "authorized" | capture_requested => "capture_requested"
  | cancelled => "cancelled" | expired => "expired"
  | partially_refunded => "partially_refunded" | closed => "closed"
  end.

Definition TRANSITIONS (from : PaymentStatusValue) : list PaymentStatusValue :=
  match from with
  | requires_payment => [captured; failed]
  | captured => [refunded; partially_refunded; closed]
  | failed => [processing]
  | refunded => [closed]
  | created => [processing; cancelled]
  | processing => [authorized; failed]
  | authorized => [capture_requested; cancelled; expired]
  | capture_requested => [captured; failed]
  | cancelled => [closed]
  | expired => [closed]
  | partially_refunded => [refunded; closed]
  | closed => []
  end.

Definition canTransitionPayment (from to : PaymentStatusValue) : bool :=
  bool_decide (to ∈ TRANSITIONS from).

(** ** Value objects and entities *)

Definition PspReference_create (value : string) : result string :=
  Guard.againstEmpty value "pspReference".
Definition PspToken_create (value : string) : result string :=
  Guard.againstEmpty value "pspToken".

Record PaymentMethod := mkPaymentMethod { pm_token : string; pm_brand : option string }.
Definition PaymentMethod_create (token : string) (brand : option string) : result PaymentMethod :=
  t ← Guard.againstEmpty token "paymentMethodToken"; Ok (mkPaymentMethod t brand).

Record Charge := mkCharge {
  ch_id : string; ch_amount : Money; ch_pspToken : string; ch_occurredAt : Z }.

Inductive RefundStatus := rs_pending | rs_completed | rs_failed.
#[export] Instance RefundStatus_eq_dec : EqDecision RefundStatus.
Proof. solve_decision. Defined.

Record Refund := mkRefund {
  rf_id : string; rf_amount : Money; rf_occurredAt : Z; rf_status : RefundStatus;
  rf_idempotencyKey : option string }.

Definition Refund_set_status (st : RefundStatus) (r : Refund) : Refund :=
  mkRefund (rf_id r) (rf_amount r) (rf_occurredAt r) st (rf_idempotencyKey r).
Definition markCompleted : Refund -> Refund := Refund_set_status rs_completed.
Definition markRefundFailed : Refund -> Refund := Refund_set_status rs_failed.

Inductive PaymentAttemptKind := ak_authorize | ak_capture | ak_refund | ak_webhook.
Inductive PaymentAttemptOutcome := ao_succeeded | ao_failed.
Record PaymentAttempt := mkAttempt {
  at_id : string; at_kind : PaymentAttemptKind; at_outcome : PaymentAttemptOutcome;
  at_reference : option string; at_occurredAt : Z }.

(** ** The aggregate ([payment-intent.ts]) *)

Record PaymentIntentProps := mkIntent {
  pi_orderRef : string;
  pi_amount : Money;
  pi_provider : string;
  pi_providerTransactionRef : option string;
  pi_status : PaymentStatusValue;
  pi_charges : list Charge;
  pi_refunds : list Refund;
  pi_attempts : list PaymentAttempt;
  pi_pspReference : option string;
  pi_paymentMethod : option PaymentMethod;
  pi_authorizedAmount : option Money
}.

Inductive RefundState := st_requested | st_completed | st_failed.

Inductive PaymentEvent :=
| PaymentCaptured (orderRef : string) (amountMinor : Z) (currency : string)
| PaymentFailed (orderRef reason : string)
| PaymentRefunded (orderRef : string) (amountMinor : Z) (currency : string)
| PaymentTransitioned (orderRef : string) (fromStatus toStatus : PaymentStatusValue)
| RefundTransitioned (orderRef : string) (amountMinor : Z) (currency : string) (state : RefundState)
| PaymentWebhookReceived (orderRef provider kind : string).

Abbreviation PaymentIntent := (Aggregate PaymentIntentProps PaymentEvent).
Abbreviation PayM := (M PaymentIntent).

Definition with_status (s : PaymentStatusValue) (p : PaymentIntentProps) : PaymentIntentProps :=
  mkIntent (pi_orderRef p) (pi_amount p) (pi_provider p) (pi_providerTransactionRef p) s
    (pi_charges p) (pi_refunds p) (pi_attempts p) (pi_pspReference p) (pi_paymentMethod p)
    (pi_authorizedAmount p).
Definition with_charges (c : list Charge) (p : PaymentIntentProps) : PaymentIntentProps :=
  mkIntent (pi_orderRef p) (pi_amount p) (pi_provider p) (pi_providerTransactionRef p)
    (pi_status p) c (pi_refunds p) (pi_attempts p) (pi_pspReference p) (pi_paymentMethod p)
    (pi_authorizedAmount p).
Definition with_refunds (r : list Refund) (p : PaymentIntentProps) : PaymentIntentProps :=
  mkIntent (pi_orderRef p) (pi_amount p) (pi_provider p) (pi_providerTransactionRef p)
    (pi_status p) (pi_charges p) r (pi_attempts p) (pi_pspReference p) (pi_paymentMethod p)
    (pi_authorizedAmount p).
Definition with_attempts (a : list PaymentAttempt) (p : PaymentIntentProps) : PaymentIntentProps :=
  mkIntent (pi_orderRef p) (pi_amount p) (pi_provider p) (pi_providerTransactionRef p)
    (pi_status p) (pi_charges p) (pi_refunds p) a (pi_pspReference p) (pi_paymentMethod p)
    (pi_authorizedAmount p).
Definition with_psp (ref : option string) (pm : option PaymentMethod) (p : PaymentIntentProps) :
    PaymentIntentProps :=
  mkIntent (pi_orderRef p) (pi_amount p) (pi_provider p) (pi_providerTransactionRef p)
    (pi_status p) (pi_charges p) (pi_refunds p) (pi_attempts p) ref pm (pi_authorizedAmount p).
Definition with_authorizedAmount (m : option Money) (p : PaymentIntentProps) : PaymentIntentProps :=
  mkIntent (pi_orderRef p) (pi_amount p) (pi_provider p) (pi_providerTransactionRef p)
    (pi_status p) (pi_charges p) (pi_refunds p) (pi_attempts p) (pi_pspReference p)
    (pi_paymentMethod p) m.
Definition with_providerTransactionRef (r : option string) (p : PaymentIntentProps) :
    PaymentIntentProps :=
  mkIntent (pi_orderRef p) (pi_amount p) (pi_provider p) r (pi_status p) (pi_charges p)
    (pi_refunds p) (pi_attempts p) (pi_pspReference p) (pi_paymentMethod p)
    (pi_authorizedAmount p).

Definition create_with (st : PaymentStatusValue) (id orderRef : string) (amount : Money)
    (provider : string) : PaymentIntent :=
  new_agg (mkIntent orderRef amount provider None st [] [] [] None None None) id.
Definition create := create_with requires_payment.
Definition createIntent := create_with created.

Definition intent_status : PayM PaymentStatusValue := gets (fun a => pi_status (agg_props a)).
Definition set_status (s : PaymentStatusValue) : PayM unit := set_props (with_status s).

(** [remaining()]: captured minus refunded or reserved; failed refunds do not count. *)
Definition active_refunds (l : list Refund) : list Refund :=
  filter (fun r => rf_status r <> rs_failed) l.
Definition remaining (p : PaymentIntentProps) : result Money :=
  z ← Money.zero (currency (pi_amount p));
  captured ← foldM (fun acc c => plus acc (ch_amount c)) z (pi_charges p);
  foldM (fun acc r => minus acc (rf_amount r)) captured (active_refunds (pi_refunds p)).

Definition recordAttempt (kind : PaymentAttemptKind) (outcome : PaymentAttemptOutcome) (at_ : Z)
    (reference : option string) : PayM unit :=
  a ← gets id;
  id ← lift (UniqueEntityId_from (agg_id a +:+ show_nat (length (pi_attempts (agg_props a)))));
  set_props (fun p =>
    with_attempts (pi_attempts p ++ [mkAttempt id kind outcome reference at_]) p).

Definition push_charge (c : Charge) : PayM unit :=
  set_props (fun p => with_charges (pi_charges p ++ [c]) p).
Definition push_refund (r : Refund) : PayM unit :=
  set_props (fun p => with_refunds (pi_refunds p ++ [r]) p).

Definition capture (pspToken eid : string) (at_ : Z) : PayM unit :=
  st ← intent_status;
  throw_if (negb (bool_decide (st = requires_payment)))
    (BusinessRuleError ("Cannot capture a payment that is " +:+ status_name st));;
  id ← lift (UniqueEntityId_from eid);
  p ← gets agg_props;
  push_charge (mkCharge id (pi_amount p) pspToken at_);;
  set_status captured;;
  addDomainEvent eid at_
    (PaymentCaptured (pi_orderRef p) (amountMinor (pi_amount p)) (currency (pi_amount p))).

Definition fail (reason eid : string) (at_ : Z) : PayM unit :=
  st ← intent_status;
  throw_if (negb (bool_decide (st = requires_payment)))
    (BusinessRuleError ("Cannot fail a payment that is " +:+ status_name st));;
  set_status failed;;
  p ← gets agg_props;
  addDomainEvent eid at_ (PaymentFailed (pi_orderRef p) reason).

Definition refund (amount : Money) (eid : string) (at_ : Z) : PayM unit :=
  st ← intent_status;
  throw_if (negb (bool_decide (st = captured)))
    (BusinessRuleError ("Cannot refund a payment that is " +:+ status_name st));;
  p ← gets agg_props;
  rem ← lift (remaining p);
  exceeds ← lift (isGreaterThan amount rem);
  throw_if exceeds (BusinessRuleError "Refund exceeds the captured amount");;
  id ← lift (UniqueEntityId_from eid);
  push_refund (mkRefund id amount at_ rs_completed None);;
  p' ← gets agg_props;
  rem' ← lift (remaining p');
  (if isZero rem' then set_status refunded else mret tt);;
  addDomainEvent eid at_ (PaymentRefunded (pi_orderRef p) (amountMinor amount) (currency amount)).

Definition transition (toStatus : PaymentStatusValue) (eid : string) (at_ : Z) : PayM unit :=
  fromStatus ← intent_status;
  throw_if (negb (canTransitionPayment fromStatus toStatus))
    (BusinessRuleError ("Cannot transition payment from " +:+ quoted (status_name fromStatus) +:+
      " to " +:+ quoted (status_name toStatus)));;
  set_status toStatus;;
  p ← gets agg_props;
  addDomainEvent eid at_ (PaymentTransitioned (pi_orderRef p) fromStatus toStatus).

Definition markProcessing := transition processing.

Definition authorize (pspReference : string) (paymentMethod : PaymentMethod)
    (authorizedAmountMinor : jsnum) (eid : string) (at_ : Z) : PayM unit :=
  transition authorized eid at_;;
  set_props (with_psp (Some pspReference) (Some paymentMethod));;
  p ← gets agg_props;
  match Money.create authorizedAmountMinor (currency (pi_amount p)) with
  | Err _ => throw (BusinessRuleError "Invalid authorized amount")
  | Ok m =>
      set_props (with_authorizedAmount (Some m));;
      recordAttempt ak_authorize ao_succeeded at_ None
  end.

Definition requestCapture := transition capture_requested.

Definition must (r : result string) : result string :=
  match r with
  | Ok v => Ok v
  | Err _ => Err (BusinessRuleError "Invalid PSP token derived at capture time")
  end.

Definition captured_amount (p : PaymentIntentProps) : Money :=
  default (pi_amount p) (pi_authorizedAmount p).

Definition markCaptured (eid : string) (at_ : Z) (integrationEventId : option string) : PayM unit :=
  p ← gets agg_props;
  let capturedAmount := captured_amount p in
  let tokenValue :=
    match pi_paymentMethod p with
    | Some pm => pm_token pm
    | None => default eid (pi_pspReference p)
    end in
  token ← lift (must (PspToken_create tokenValue));
  id ← lift (UniqueEntityId_from eid);
  push_charge (mkCharge id capturedAmount token at_);;
  transition captured eid at_;;
  recordAttempt ak_capture ao_succeeded at_ None;;
  match integrationEventId with
  | None => mret tt
  | Some ieid =>
      addDomainEvent ieid at_
        (PaymentCaptured (pi_orderRef p) (amountMinor capturedAmount) (currency capturedAmount))
  end.

Definition recordProviderIntent (providerIntentId : string) : PayM unit :=
  match PspReference_create providerIntentId with
  | Err _ => throw (BusinessRuleError "Provider returned an empty intent reference")
  | Ok reference =>
      p ← gets agg_props;
      match pi_pspReference p with
      | Some r =>
          if bool_decide (r = providerIntentId) then mret tt
          else throw (BusinessRuleError "Payment intent already has a different provider reference")
      | None => set_props (with_psp (Some reference) (pi_paymentMethod p))
      end
  end.

(** [nextEventId()] is called once per transition made; [ids] are the values it returns, in order. *)
Definition prepareDirectCapture (id1 id2 id3 : string) (at_ : Z)
    (providerTransactionRef : option string) : PayM unit :=
  p ← gets agg_props;
  (match providerTransactionRef, pi_providerTransactionRef p with
   | Some r, None => set_props (with_providerTransactionRef (Some r))
   | _, _ => mret tt
   end);;
  st ← intent_status;
  if bool_decide (st = capture_requested) || bool_decide (st = captured) then mret tt
  else if bool_decide (st = created) then
    transition processing id1 at_;;
    transition authorized id2 at_;;
    transition capture_requested id3 at_
  else if bool_decide (st = processing) then
    transition authorized id1 at_;;
    transition capture_requested id2 at_
  else transition capture_requested id1 at_.

Definition markFailed (reason eid : string) (at_ : Z) : PayM unit :=
  transition failed eid at_;;
  recordAttempt ak_capture ao_failed at_ (Some reason).

Definition cancelAuthorization := transition cancelled.
Definition markExpired := transition expired.
Definition retry := transition processing.
Definition close := transition closed.

Definition key_is (key : string) (r : Refund) : bool :=
  bool_decide (rf_idempotencyKey r = Some key).

Definition newRefund (amount : Money) (eid : string) (at_ : Z) (key : option string) :
    PayM (Refund * bool) :=
  p ← gets agg_props;
  rem ← lift (remaining p);
  exceeds ← lift (isGreaterThan amount rem);
  throw_if exceeds (BusinessRuleError "Refund exceeds the captured amount");;
  id ← lift (UniqueEntityId_from eid);
  let r := mkRefund id amount at_ rs_pending key in
  push_refund r;;
  addDomainEvent eid at_
    (RefundTransitioned (pi_orderRef p) (amountMinor amount) (currency amount) st_requested);;
  mret (r, true).

Definition requestRefund (amount : Money) (eid : string) (at_ : Z) (idempotencyKey : option string) :
    PayM (Refund * bool) :=
  p ← gets agg_props;
  match idempotencyKey with
  | None => newRefund amount eid at_ None
  | Some key =>
      match list_find (fun r => key_is key r = true) (pi_refunds p) with
      | None => newRefund amount eid at_ (Some key)
      | Some (_, existing) =>
          if negb (equals (rf_amount existing) amount) then
            throw (BusinessRuleError ("Refund idempotency key " +:+ quoted key +:+
              " was already used for a different amount"))
          else if bool_decide (rf_status existing = rs_failed) then
            throw (BusinessRuleError ("Refund idempotency key " +:+ quoted key +:+
              " already failed — a new attempt requires a new key"))
          else mret (existing, false)
      end
  end.

Definition findReservedRefund (refundId : string) : PayM (nat * Refund) :=
  p ← gets agg_props;
  match list_find (fun r => rf_id r = refundId) (pi_refunds p) with
  | None => throw (BusinessRuleError ("No reserved refund " +:+ refundId +:+ " on this payment intent"))
  | Some ir => mret ir
  end.

(** The found refund is the object in the array: changing it changes that entry. *)
Definition set_refund (i : nat) (r : Refund) : PayM unit :=
  set_props (fun p => with_refunds (<[i := r]> (pi_refunds p)) p).

Definition refund_event (r : Refund) (eid : string) (at_ : Z) (st : RefundState) : PayM unit :=
  p ← gets agg_props;
  addDomainEvent eid at_ (RefundTransitioned (pi_orderRef p) (amountMinor (rf_amount r))
    (currency (rf_amount r)) st).

Definition completeRefund (refundId eid : string) (at_ : Z) : PayM unit :=
  ir ← findReservedRefund refundId;
  set_refund ir.1 (markCompleted ir.2);;
  p ← gets agg_props;
  rem ← lift (remaining p);
  set_status (if isZero rem then refunded else partially_refunded);;
  recordAttempt ak_refund ao_succeeded at_ None;;
  refund_event ir.2 eid at_ st_completed.

Definition failRefund (refundId eid : string) (at_ : Z) (reason : string) : PayM unit :=
  ir ← findReservedRefund refundId;
  set_refund ir.1 (markRefundFailed ir.2);;
  recordAttempt ak_refund ao_failed at_ (Some reason);;
  refund_event ir.2 eid at_ st_failed.

Definition recordWebhook (provider kind eid : string) (at_ : Z) : PayM unit :=
  recordAttempt ak_webhook ao_succeeded at_ (Some kind);;
  p ← gets agg_props;
  addDomainEvent eid at_ (PaymentWebhookReceived (pi_orderRef p) provider kind).

(** ** Transactions ([application/payment-lifecycle.use-cases.ts])

    The bodies of the use cases' transactions, on the intent they loaded: the guard the use case
    checks before it calls the aggregate, and the call. *)

(** [CapturePaymentLifecycle.settle]: capturing an already captured intent is a no-op. *)
Definition settleCapture (eid : string) (at_ : Z) (integrationEventId : option string) : PayM unit :=
  st ← intent_status;
  if bool_decide (st = captured) then mret tt else markCaptured eid at_ integrationEventId.

(** [AuthorizePayment.execute]: a repeated identical authorization is a no-op. *)
Definition authorizeTx (pspReference token : string) (brand : option string)
    (authorizedAmountMinor : jsnum) (eid : string) (at_ : Z) : PayM unit :=
  ref ← lift (PspReference_create pspReference);
  pm ← lift (PaymentMethod_create token brand);
  p ← gets agg_props;
  if bool_decide (pi_status p = authorized) then
    let samePsp := bool_decide (pi_pspReference p = Some ref) in
    let sameAmount :=
      bool_decide (NInt <$> (amountMinor <$> pi_authorizedAmount p) = Some authorizedAmountMinor) in
    if samePsp && sameAmount then mret tt
    else throw (BusinessRuleError "Payment intent is already authorized with different details")
  else authorize ref pm authorizedAmountMinor eid at_.

(** [RefundPaymentLifecycle.reserve], after [execute] built the amount. *)
Definition reserveRefund (amountMinor_ : jsnum) (currency_ eid : string) (at_ : Z)
    (key : option string) : PayM (Refund * bool) :=
  amount ← lift (Money.create amountMinor_ currency_);
  requestRefund amount eid at_ key.

(** [RefundPaymentLifecycle.settle]: only a pending reservation is settled. *)
Definition settleRefund (refundId : string) (outcome : option string) (eid : string) (at_ : Z) :
    PayM unit :=
  p ← gets agg_props;
  let alreadySettled :=
    match list_find (fun r => rf_id r = refundId) (pi_refunds p) with
    | Some (_, r) => negb (bool_decide (rf_status r = rs_pending))
    | None => false
    end in
  if alreadySettled then mret tt
  else match outcome with
       | None => completeRefund refundId eid at_
       | Some reason => failRefund refundId eid at_ reason
       end.

(** [RefundPayment.execute] (the legacy synchronous refund). *)
Definition refundTx (amountMinor_ : jsnum) (currency_ eid : string) (at_ : Z) : PayM unit :=
  amount ← lift (Money.create amountMinor_ currency_);
  refund amount eid at_.

Inductive PayOp :=
| OpCapture (pspToken : string) | OpFail (reason : string)
| OpRefund (amountMinor : jsnum) (currency : string)
| OpTransition (to : PaymentStatusValue)
| OpAuthorize (pspReference token : string) (brand : option string) (amountMinor : jsnum)
| OpSettleCapture (integrationEventId : option string)
| OpRecordProviderIntent (providerIntentId : string)
| OpPrepareDirectCapture (id2 id3 : string) (providerTransactionRef : option string)
| OpMarkFailed (reason : string)
| OpReserveRefund (amountMinor : jsnum) (currency : string) (key : option string)
| OpSettleRefund (refundId : string) (outcome : option string)
| OpRecordWebhook (provider kind : string).

Definition ignore {S A} (m : M S A) : M S unit := _ ← m; mret tt.

Definition pay_exec (op : PayOp * (string * Z)) : PayM unit :=
  let '(o, (eid, at_)) := op in
  match o with
  | OpCapture tok => capture tok eid at_
  | OpFail reason => fail reason eid at_
  | OpRefund a c => refundTx a c eid at_
  | OpTransition to => transition to eid at_
  | OpAuthorize ref tok brand a => authorizeTx ref tok brand a eid at_
  | OpSettleCapture ieid => settleCapture eid at_ ieid
  | OpRecordProviderIntent r => recordProviderIntent r
  | OpPrepareDirectCapture id2 id3 tx => prepareDirectCapture eid id2 id3 at_ tx
  | OpMarkFailed reason => markFailed reason eid at_
  | OpReserveRefund a c k => ignore (reserveRefund a c eid at_ k)
  | OpSettleRefund r o => settleRefund r o eid at_
  | OpRecordWebhook pr k => recordWebhook pr k eid at_
  end.

(** An intent as [CreatePaymentIntentLifecycle] or the legacy [CreatePaymentIntent] opens it. *)
Definition new_intent (a : PaymentIntent) : Prop :=
  exists id orderRef amount provider, valid amount /\
    (a = create id orderRef amount provider \/ a = createIntent id orderRef amount provider).

Definition pay_reachable : PaymentIntent -> Prop := reachable new_intent pay_exec.

(** ** Money captured and refunded *)

Definition captured_total (l : list Charge) : Z := sumZ (fun c => amountMinor (ch_amount c)) l.
Definition active_amount (r : Refund) : Z :=
  if bool_decide (rf_status r = rs_failed) then 0 else amountMinor (rf_amount r).
Definition refunded_total (l : list Refund) : Z := sumZ active_amount l.

Definition post_capture (s : PaymentStatusValue) : bool :=
  bool_decide (s ∈ [captured; refunded; partially_refunded; closed]).

Definition money_in (c : string) (m : Money) : Prop := currency m = c /\ 0 <= amountMinor m.

Record intent_inv (p : PaymentIntentProps) : Prop := {
  inv_amount : valid (pi_amount p);
  inv_auth : forall m, pi_authorizedAmount p = Some m -> money_in (currency (pi_amount p)) m;
  inv_charges : forall c, c ∈ pi_charges p -> money_in (currency (pi_amount p)) (ch_amount c);
  inv_refunds : forall r, r ∈ pi_refunds p -> money_in (currency (pi_amount p)) (rf_amount r);
  inv_once : pi_charges p = [] \/
    (length (pi_charges p) = 1%nat /\ post_capture (pi_status p) = true);
  inv_cover : refunded_total (pi_refunds p) <= captured_total (pi_charges p)
}.

Lemma active_refunds_total l :
  sumZ (fun r => amountMinor (rf_amount r)) (active_refunds l) = refunded_total l.
Proof.
  unfold active_refunds, refunded_total. induction l as [|r l IH]; [done|].
  rewrite filter_cons, sumZ_cons. unfold active_amount at 1.
  case_decide; case_bool_decide; try done; rewrite ?sumZ_cons, IH; lia.
Qed.

Lemma remaining_Ok p :
  intent_inv p ->
  remaining p =
    Ok (mkMoney (captured_total (pi_charges p) - refunded_total (pi_refunds p))
          (currency (pi_amount p))).
Proof.
  intros [[Ha Hc] _ Hch Hrf _ Hcov]. unfold remaining.
  replace (Money.zero (currency (pi_amount p))) with (Ok (mkMoney 0 (currency (pi_amount p)))).
  2:{ symmetry. by apply MoneyLaws.zero_Ok. }
  cbn [mbind result_bind].
  pose proof (MoneyLaws.foldM_plus_Ok (fun c => Ok (ch_amount c)) (fun c => amountMinor (ch_amount c))
    (currency (pi_amount p)) (pi_charges p) (mkMoney 0 (currency (pi_amount p)))) as Hp.
  cbn in Hp. rewrite Hp; [|intros x Hx; destruct (Hch x Hx) as [E _]; rewrite <- E; by destruct (ch_amount x)|done].
  unfold mbind, result_bind. rewrite MoneyLaws.foldM_minus_Ok; cbn.
  - by rewrite active_refunds_total.
  - intros x Hx. apply list_elem_of_filter in Hx as [_ Hx]. by apply Hrf.
  - intros x Hx. apply list_elem_of_filter in Hx as [_ Hx]. by apply Hrf.
  - rewrite active_refunds_total. exact Hcov.
Qed.

(** ** What the calls do to the props *)

Lemma intent_status_Ok (a : PaymentIntent) st a' :
  intent_status a = (Ok st, a') <-> st = pi_status (agg_props a) /\ a' = a.
Proof. unfold intent_status. rewrite gets_Ok. naive_solver. Qed.

Lemma recordAttempt_Ok k o at_ ref (a : PaymentIntent) u a' :
  recordAttempt k o at_ ref a = (Ok u, a') ->
  exists att, a' = mkAgg (agg_id a) (agg_version a) (agg_events a)
    (with_attempts (pi_attempts (agg_props a) ++ [att]) (agg_props a)).
Proof. intros H. unfold recordAttempt in H. minv. apply set_props_Ok in H. by eexists. Qed.

Lemma findReservedRefund_Ok id (a : PaymentIntent) ir a' :
  findReservedRefund id a = (Ok ir, a') ->
  a' = a /\ list_find (fun r => rf_id r = id) (pi_refunds (agg_props a)) = Some ir.
Proof.
  intros H. unfold findReservedRefund in H. minv.
  destruct (list_find _ _) as [ir'|]; minv. done.
Qed.

(** Inverts the calls a payment method makes. *)
Ltac pay_inv :=
  repeat (minv; match goal with
  | H : intent_status _ = (Ok _, _) |- _ => apply intent_status_Ok in H as [-> ->]
  | H : set_status _ _ = (Ok _, _) |- _ => apply set_props_Ok in H as ->
  | H : push_charge _ _ = (Ok _, _) |- _ => apply set_props_Ok in H as ->
  | H : push_refund _ _ = (Ok _, _) |- _ => apply set_props_Ok in H as ->
  | H : set_refund _ _ _ = (Ok _, _) |- _ => apply set_props_Ok in H as ->
  | H : set_props _ _ = (Ok _, _) |- _ => apply set_props_Ok in H as ->
  | H : addDomainEvent _ _ _ _ = (Ok _, _) |- _ => apply addDomainEvent_Ok in H as ->
  | H : refund_event _ _ _ _ _ = (Ok _, _) |- _ => unfold refund_event in H
  | H : recordAttempt _ _ _ _ _ = (Ok _, _) |- _ => apply recordAttempt_Ok in H as [? ->]
  | H : findReservedRefund _ _ = (Ok _, _) |- _ => apply findReservedRefund_Ok in H as [-> H]
  | H : UniqueEntityId_from _ = Ok _ |- _ => apply UniqueEntityId_from_Ok in H as [? ->]
  | H : negb _ = false |- _ => apply negb_false_iff in H
  | H : bool_decide _ = true |- _ => apply bool_decide_eq_true in H
  | H : bool_decide _ = false |- _ => apply bool_decide_eq_false in H
  end); minv.

Lemma transition_Ok t eid at_ (a : PaymentIntent) u a' :
  transition t eid at_ a = (Ok u, a') ->
  canTransitionPayment (pi_status (agg_props a)) t = true /\
  agg_props a' = with_status t (agg_props a).
Proof. intros H. unfold transition in H. pay_inv. done. Qed.

Create HintDb payments.

(** *** Preservation by the pieces *)

Lemma inv_transition t p :
  intent_inv p -> canTransitionPayment (pi_status p) t = true -> intent_inv (with_status t p).
Proof.
  intros [] Ht. split; try done. destruct inv_once0 as [?|[? Hp]]; [by left|right].
  split; [done|]. cbn. unfold post_capture in *.
  destruct (pi_status p), t; try discriminate Ht; try discriminate Hp; done.
Qed.

Lemma inv_post_status t p :
  intent_inv p -> post_capture t = true -> intent_inv (with_status t p).
Proof.
  intros [] Ht. split; try done. destruct inv_once0 as [?|[? Hp]]; [by left|by right].
Qed.

Lemma inv_no_charges t p : intent_inv p -> pi_charges p = [] -> intent_inv (with_status t p).
Proof. intros [] Hc. split; try done. by left. Qed.

Lemma inv_attempts l p : intent_inv p -> intent_inv (with_attempts l p).
Proof. by intros []. Qed.
Lemma inv_psp r m p : intent_inv p -> intent_inv (with_psp r m p).
Proof. by intros []. Qed.
Lemma inv_txref r p : intent_inv p -> intent_inv (with_providerTransactionRef r p).
Proof. by intros []. Qed.
Lemma inv_authorized m p :
  intent_inv p -> money_in (currency (pi_amount p)) m -> intent_inv (with_authorizedAmount (Some m) p).
Proof. intros [] Hm. split; try done. intros m' [= <-]. done. Qed.

Lemma inv_captured_amount p : intent_inv p -> money_in (currency (pi_amount p)) (captured_amount p).
Proof.
  intros [[? ?] Ha _ _ _ _]. unfold captured_amount. destruct (pi_authorizedAmount p); cbn; [by apply Ha|done].
Qed.

(** Capturing: the first charge, with a post-capture status. *)
Lemma inv_charge c t p :
  intent_inv p -> pi_charges p = [] -> money_in (currency (pi_amount p)) (ch_amount c) ->
  post_capture t = true -> intent_inv (with_status t (with_charges (pi_charges p ++ [c]) p)).
Proof.
  intros [] Hc Hm Ht. rewrite Hc in *. split; cbn; try done.
  - intros c' ->%list_elem_of_singleton. done.
  - by right.
  - unfold captured_total in *. rewrite sumZ_cons, sumZ_nil in *. destruct Hm. lia.
Qed.

Lemma inv_refund r p :
  intent_inv p -> money_in (currency (pi_amount p)) (rf_amount r) ->
  amountMinor (rf_amount r) <= captured_total (pi_charges p) - refunded_total (pi_refunds p) ->
  intent_inv (with_refunds (pi_refunds p ++ [r]) p).
Proof.
  intros [] Hm Hr. split; cbn; try done.
  - intros r' [?| ->%list_elem_of_singleton]%elem_of_app; [by apply inv_refunds0|done].
  - unfold refunded_total in *. rewrite sumZ_app, sumZ_cons, sumZ_nil. unfold active_amount at 2.
    destruct Hm. case_bool_decide; lia.
Qed.

(** Settling a pending reservation never makes more of it count as refunded. *)
Lemma inv_settle i r st p :
  intent_inv p -> pi_refunds p !! i = Some r -> rf_status r = rs_pending ->
  intent_inv (with_refunds (<[i := Refund_set_status st r]> (pi_refunds p)) p).
Proof.
  intros [] Hi Hr.
  assert (Hm : money_in (currency (pi_amount p)) (rf_amount r)).
  { apply inv_refunds0. by apply list_elem_of_lookup_2 in Hi. }
  split; cbn; try done.
  - intros r' [-> | ?]%list_elem_of_insert_inv; [done|by apply inv_refunds0].
  - unfold refunded_total in *. rewrite (sumZ_insert _ _ _ r) by done.
    unfold active_amount at 2 3. rewrite Hr. destruct Hm. cbn.
    repeat case_bool_decide; try congruence; lia.
Qed.

#[export] Hint Resolve inv_attempts inv_psp inv_txref inv_authorized inv_transition : payments.

(** *** Preservation by the calls *)

Lemma requires_payment_uncharged p :
  intent_inv p -> post_capture (pi_status p) = false -> pi_charges p = [].
Proof. intros [] Hs. destruct inv_once0 as [?|[_ ?]]; [done|congruence]. Qed.

Lemma inv_transition_call t eid at_ (a : PaymentIntent) u a' :
  intent_inv (agg_props a) -> transition t eid at_ a = (Ok u, a') -> intent_inv (agg_props a').
Proof. intros Hi [Ht ->]%transition_Ok. by apply inv_transition. Qed.
#[export] Hint Resolve inv_transition_call : payments.

Lemma inv_capture tok eid at_ (a : PaymentIntent) u a' :
  intent_inv (agg_props a) -> capture tok eid at_ a = (Ok u, a') -> intent_inv (agg_props a').
Proof.
  intros Hi H. unfold capture in H. pay_inv.
  apply (inv_charge (mkCharge _ _ _ _) captured); [done| |by destruct Hi as [[]]|done].
  apply requires_payment_uncharged; [done|]. by match goal with H : pi_status _ = _ |- _ => rewrite H end.
Qed.

Lemma inv_fail reason eid at_ (a : PaymentIntent) u a' :
  intent_inv (agg_props a) -> fail reason eid at_ a = (Ok u, a') -> intent_inv (agg_props a').
Proof.
  intros Hi H. unfold fail in H. pay_inv. apply inv_no_charges; [done|].
  apply requires_payment_uncharged; [done|]. by match goal with H : pi_status _ = _ |- _ => rewrite H end.
Qed.

Lemma exceeds_false p amount b :
  intent_inv p -> isGreaterThan amount
    (mkMoney (captured_total (pi_charges p) - refunded_total (pi_refunds p)) (currency (pi_amount p))) = Ok b ->
  b = false -> 0 <= amountMinor amount ->
  money_in (currency (pi_amount p)) amount /\
  amountMinor amount <= captured_total (pi_charges p) - refunded_total (pi_refunds p).
Proof.
  intros Hi [Hc ->]%MoneyLaws.isGreaterThan_Ok Hb%bool_decide_eq_false Hp. cbn in *.
  split; [done|lia].
Qed.

Lemma inv_refund_call amount eid at_ (a : PaymentIntent) u a' :
  0 <= amountMinor amount -> intent_inv (agg_props a) ->
  refund amount eid at_ a = (Ok u, a') -> intent_inv (agg_props a').
Proof.
  intros Hp Hi H. unfold refund in H. pay_inv.
  match goal with H : remaining _ = Ok _ |- _ => rewrite (remaining_Ok _ Hi) in H; injection H as <- end.
  match goal with H : isGreaterThan _ _ = Ok _ |- _ =>
    destruct (exceeds_false _ _ _ Hi H) as [Hm Hle]; [done..|] end.
  assert (Hi' : intent_inv (with_refunds (pi_refunds (agg_props a) ++
    [mkRefund eid amount at_ rs_completed None]) (agg_props a))) by by apply inv_refund.
  destruct (isZero _); pay_inv; [by apply inv_post_status|done].
Qed.

Lemma inv_newRefund amount eid at_ key (a : PaymentIntent) u a' :
  0 <= amountMinor amount -> intent_inv (agg_props a) ->
  newRefund amount eid at_ key a = (Ok u, a') -> intent_inv (agg_props a').
Proof.
  intros Hp Hi H. unfold newRefund in H. pay_inv.
  match goal with H : remaining _ = Ok _ |- _ => rewrite (remaining_Ok _ Hi) in H; injection H as <- end.
  match goal with H : isGreaterThan _ _ = Ok _ |- _ =>
    destruct (exceeds_false _ _ _ Hi H) as [Hm Hle]; [done..|] end.
  by apply inv_refund.
Qed.

Lemma inv_requestRefund amount eid at_ key (a : PaymentIntent) u a' :
  0 <= amountMinor amount -> intent_inv (agg_props a) ->
  requestRefund amount eid at_ key a = (Ok u, a') -> intent_inv (agg_props a').
Proof.
  intros Hp Hi H. unfold requestRefund in H. pay_inv. destruct key as [key|].
  - destruct (list_find _ _) as [[i r]|]; [|by eapply inv_newRefund].
    destruct (negb _); [by pay_inv|]. case_bool_decide; by pay_inv.
  - by eapply inv_newRefund.
Qed.

Lemma inv_markCaptured eid at_ ieid (a : PaymentIntent) u a' :
  intent_inv (agg_props a) -> pi_status (agg_props a) <> captured ->
  markCaptured eid at_ ieid a = (Ok u, a') -> intent_inv (agg_props a').
Proof.
  intros Hi Hs H. unfold markCaptured in H. pay_inv.
  match goal with H : transition _ _ _ _ = (Ok _, ?s) |- _ =>
    apply transition_Ok in H as [Ht E]; cbn in Ht, E end.
  assert (Hcur : forall tok, intent_inv (with_status captured (with_charges
    (pi_charges (agg_props a) ++ [mkCharge eid (captured_amount (agg_props a)) tok at_]) (agg_props a)))).
  { intros tok. apply (inv_charge (mkCharge _ _ _ _) captured); [done| |by apply inv_captured_amount|done].
    apply requires_payment_uncharged; [done|].
    by destruct (pi_status (agg_props a)). }
  destruct ieid; pay_inv; rewrite E; apply inv_attempts, Hcur.
Qed.

Lemma inv_settleRefund rid o eid at_ (a : PaymentIntent) u a' :
  intent_inv (agg_props a) -> settleRefund rid o eid at_ a = (Ok u, a') -> intent_inv (agg_props a').
Proof.
  intros Hi H. unfold settleRefund in H. pay_inv.
  destruct (list_find (fun r => rf_id r = rid) (pi_refunds (agg_props a))) as [[i r]|] eqn:Hf.
  2:{ destruct o; unfold failRefund, completeRefund in H; pay_inv; congruence. }
  destruct (negb _) eqn:Hn; [by pay_inv|]. pay_inv.
  apply list_find_Some in Hf as Hf'. destruct Hf' as (Hi' & _ & _).
  destruct o; unfold failRefund, completeRefund in H; pay_inv.
  - apply inv_attempts, inv_settle; done.
  - apply inv_attempts, inv_post_status; [by apply inv_settle|]. by destruct (isZero _).
Qed.

Lemma inv_authorizeTx ref tok brand n eid at_ (a : PaymentIntent) u a' :
  intent_inv (agg_props a) -> authorizeTx ref tok brand n eid at_ a = (Ok u, a') ->
  intent_inv (agg_props a').
Proof.
  intros Hi H. unfold authorizeTx in H. pay_inv. case_bool_decide.
  { destruct (_ && _); by pay_inv. }
  unfold authorize in H. pay_inv.
  match goal with H : transition _ _ _ _ = (Ok _, _) |- _ => apply transition_Ok in H as [Ht E] end.
  destruct (Money.create _ _) as [m|] eqn:Hm; pay_inv. rewrite E in Hm |- *.
  apply MoneyLaws.create_Ok in Hm as (-> & Hc & Hv & _).
  apply inv_attempts, inv_authorized; [by apply inv_psp, inv_transition|]. split; [done|]. by cbn.
Qed.

Lemma inv_recordProviderIntent r (a : PaymentIntent) u a' :
  intent_inv (agg_props a) -> recordProviderIntent r a = (Ok u, a') -> intent_inv (agg_props a').
Proof.
  intros Hi H. unfold recordProviderIntent in H. destruct (PspReference_create r); pay_inv.
  destruct (pi_pspReference (agg_props a)); [case_bool_decide; by pay_inv|]. pay_inv. by apply inv_psp.
Qed.

Lemma inv_prepareDirectCapture e1 e2 e3 at_ tx (a : PaymentIntent) u a' :
  intent_inv (agg_props a) -> prepareDirectCapture e1 e2 e3 at_ tx a = (Ok u, a') ->
  intent_inv (agg_props a').
Proof.
  intros Hi H. unfold prepareDirectCapture in H. pay_inv.
  match goal with H : _ a = (Ok _, ?s) |- _ => assert (intent_inv (agg_props s)) end.
  { destruct tx, (pi_providerTransactionRef (agg_props a)); pay_inv; eauto with payments. }
  destruct (bool_decide _ || bool_decide _); [by pay_inv|].
  case_bool_decide; [|case_bool_decide]; pay_inv; eauto with payments.
Qed.

Lemma inv_pay_exec op (a : PaymentIntent) u a' :
  intent_inv (agg_props a) -> pay_exec op a = (Ok u, a') -> intent_inv (agg_props a').
Proof.
  destruct op as [op [eid at_]]. intros Hi H. destruct op; cbn in H.
  - by eapply inv_capture.
  - by eapply inv_fail.
  - unfold refundTx in H. pay_inv.
    match goal with H : Money.create _ _ = Ok _ |- _ => apply MoneyLaws.create_Ok in H as (_ & _ & ? & _) end.
    by eapply inv_refund_call.
  - eauto with payments.
  - by eapply inv_authorizeTx.
  - unfold settleCapture in H. pay_inv. case_bool_decide; [by pay_inv|]. by eapply inv_markCaptured.
  - by eapply inv_recordProviderIntent.
  - by eapply inv_prepareDirectCapture.
  - unfold markFailed in H. pay_inv. apply inv_attempts. by eapply inv_transition_call.
  - unfold ignore, reserveRefund in H. pay_inv.
    match goal with H : Money.create _ _ = Ok _ |- _ => apply MoneyLaws.create_Ok in H as (_ & _ & ? & _) end.
    by eapply inv_requestRefund.
  - by eapply inv_settleRefund.
  - unfold recordWebhook in H. pay_inv. by apply inv_attempts.
Qed.

Lemma inv_new_intent a : new_intent a -> intent_inv (agg_props a).
Proof.
  intros (id & o & m & p & Hm & [->| ->]); split; cbn; try done; try by left.
  all: intros ? ?%elem_of_nil; done.
Qed.

Lemma pay_reachable_inv a : pay_reachable a -> intent_inv (agg_props a).
Proof.
  revert a. apply (reachable_invariant _ _ (fun a => intent_inv (agg_props a))); eauto using inv_new_intent.
  intros op s r s' Hi. by apply inv_pay_exec.
Qed.

(** ** Refund entries are only appended, and only their status changes *)

Definition same_refund (r r' : Refund) : Prop := exists st, r' = Refund_set_status st r.

Definition refunds_grow (l l' : list Refund) : Prop :=
  exists l1 l2, l' = l1 ++ l2 /\ Forall2 same_refund l l1.

Lemma same_refund_refl r : same_refund r r.
Proof. exists (rf_status r). by destruct r. Qed.
#[export] Hint Resolve same_refund_refl : payments.

Lemma same_refund_trans r1 r2 r3 : same_refund r1 r2 -> same_refund r2 r3 -> same_refund r1 r3.
Proof. intros [s1 ->] [s2 ->]. by exists s2. Qed.

Lemma Forall2_same_refl l : Forall2 same_refund l l.
Proof. induction l; constructor; auto with payments. Qed.

Lemma refunds_grow_refl l : refunds_grow l l.
Proof. exists l, []. rewrite app_nil_r. split; [done|apply Forall2_same_refl]. Qed.

Lemma refunds_grow_trans l1 l2 l3 : refunds_grow l1 l2 -> refunds_grow l2 l3 -> refunds_grow l1 l3.
Proof.
  intros (m1 & t1 & -> & F1) (m2 & t2 & -> & F2). apply Forall2_app_inv_l in F2 as (n1 & n2 & F2 & F3 & ->).
  exists n1, (n2 ++ t2). split; [by rewrite <- app_assoc|].
  revert F2. clear F3. revert n1. induction F1 as [|r r' l l' Hr F1 IH]; intros n1 F2.
  - by inversion F2.
  - inversion F2; subst. constructor; [by eapply same_refund_trans|]. by apply IH.
Qed.

Lemma refunds_grow_app l r : refunds_grow l (l ++ [r]).
Proof. exists l, [r]. split; [done|apply Forall2_same_refl]. Qed.

Lemma refunds_grow_insert l i r st :
  l !! i = Some r -> refunds_grow l (<[i := Refund_set_status st r]> l).
Proof.
  intros Hi. exists (<[i := Refund_set_status st r]> l), []. rewrite app_nil_r. split; [done|].
  revert i Hi. induction l as [|x l IH]; intros [|i] Hi; simplify_eq/=; constructor;
    auto with payments; [by exists st|apply Forall2_same_refl].
Qed.
#[export] Hint Resolve refunds_grow_refl refunds_grow_app : payments.

Lemma transition_refunds t eid at_ (a : PaymentIntent) u a' :
  transition t eid at_ a = (Ok u, a') -> pi_refunds (agg_props a') = pi_refunds (agg_props a).
Proof. by intros [_ ->]%transition_Ok. Qed.

Ltac grow_inv :=
  pay_inv; repeat match goal with
  | H : transition _ _ _ _ = (Ok _, _) |- _ => apply transition_refunds in H; cbn in H
  | H : pi_refunds _ = _ |- _ => rewrite H
  end; cbn; auto with payments.

Lemma pay_exec_refunds op (a : PaymentIntent) u a' :
  pay_exec op a = (Ok u, a') -> refunds_grow (pi_refunds (agg_props a)) (pi_refunds (agg_props a')).
Proof.
  destruct op as [op [eid at_]]. intros H. destruct op; cbn in H.
  - unfold capture in H. grow_inv.
  - unfold fail in H. grow_inv.
  - unfold refundTx, refund in H. pay_inv. destruct (isZero _); grow_inv.
  - grow_inv.
  - unfold authorizeTx in H. pay_inv. case_bool_decide; [destruct (_ && _); grow_inv|].
    unfold authorize in H. pay_inv. destruct (Money.create _ _); grow_inv.
  - unfold settleCapture, markCaptured in H. pay_inv. case_bool_decide; [grow_inv|].
    pay_inv. destruct integrationEventId; grow_inv.
  - unfold recordProviderIntent in H. destruct (PspReference_create _); pay_inv.
    destruct (pi_pspReference (agg_props a)); [case_bool_decide|]; grow_inv.
  - unfold prepareDirectCapture in H. pay_inv.
    match goal with H : _ a = (Ok _, ?s) |- _ =>
      assert (E : pi_refunds (agg_props s) = pi_refunds (agg_props a)) end.
    { destruct providerTransactionRef, (pi_providerTransactionRef (agg_props a)); grow_inv. }
    destruct (bool_decide _ || bool_decide _); [grow_inv|]. case_bool_decide; [|case_bool_decide]; grow_inv.
  - unfold markFailed in H. grow_inv.
  - unfold ignore, reserveRefund, requestRefund in H. pay_inv. destruct key as [key|].
    2:{ unfold newRefund in *. grow_inv. }
    destruct (list_find _ _) as [[i r]|]; [|unfold newRefund in *; grow_inv].
    destruct (negb _); [grow_inv|]. case_bool_decide; grow_inv.
  - unfold settleRefund in H. pay_inv. 
    match type of H with (if ?b then _ else _) _ = _ => destruct b end; [grow_inv|].
    destruct outcome; unfold failRefund, completeRefund in H; pay_inv; destruct v as [i r];
      match goal with H : list_find _ _ = Some _ |- _ => apply list_find_Some in H as (Hl & _) end;
      by apply refunds_grow_insert.
  - unfold recordWebhook in H. grow_inv.
Qed.

Lemma refunds_grow_find (P : Refund -> Prop) `{forall r, Decision (P r)} l l' i r :
  (forall x y, same_refund x y -> P x <-> P y) ->
  refunds_grow l l' -> list_find P l = Some (i, r) ->
  exists r', list_find P l' = Some (i, r') /\ same_refund r r'.
Proof.
  intros HP (l1 & l2 & -> & F) (Hi & Hr & Hb)%list_find_Some.
  destruct (Forall2_lookup_l _ _ _ _ _ F Hi) as (r' & Hi' & Hs). exists r'. split; [|done].
  apply list_find_Some. split; [by apply lookup_app_l_Some|]. split; [by apply (HP r)|].
  intros j y Hj Hlt.
  assert (Hj' : l1 !! j = Some y).
  { rewrite lookup_app_l in Hj; [done|]. apply lookup_lt_Some in Hi'. lia. }
  destruct (Forall2_lookup_r _ _ _ _ _ F Hj') as (x & Hx & Hxy).
  rewrite <- (HP x y Hxy). by eapply Hb.
Qed.

Lemma same_refund_key k x y : same_refund x y -> key_is k x = true <-> key_is k y = true.
Proof. by intros [st ->]. Qed.

Lemma steps_refunds a a' :
  reachable (eq a) pay_exec a' -> refunds_grow (pi_refunds (agg_props a)) (pi_refunds (agg_props a')).
Proof.
  induction 1 as [s <-|s op r s' _ IH H]; [apply refunds_grow_refl|].
  eapply refunds_grow_trans; [exact IH|by eapply pay_exec_refunds].
Qed.

(** ** Calls keep the identity and the version *)

Lemma keeps_transition t eid at_ : keeps (transition t eid at_).
Proof. unfold transition, intent_status, set_status. solve_keeps. Qed.
Lemma keeps_recordAttempt k o at_ ref : keeps (recordAttempt k o at_ ref).
Proof. unfold recordAttempt. solve_keeps. Qed.
Lemma keeps_newRefund amount eid at_ key : keeps (newRefund amount eid at_ key).
Proof. unfold newRefund, push_refund. solve_keeps. Qed.
#[export] Hint Resolve keeps_transition keeps_recordAttempt keeps_newRefund : keeps.

Lemma keeps_pay_exec op : keeps (pay_exec op).
Proof.
  destruct op as [op [eid at_]]. destruct op; cbn;
    unfold capture, fail, refundTx, refund, authorizeTx, authorize, settleCapture, markCaptured,
      recordProviderIntent, prepareDirectCapture, markFailed, ignore, reserveRefund, requestRefund,
      settleRefund, completeRefund, failRefund, findReservedRefund, refund_event, set_refund,
      recordWebhook, intent_status, set_status, push_charge, push_refund; solve_keeps.
Qed.

(** ** Status moves *)

Definition status_edge (x y : PaymentStatusValue) : Prop := canTransitionPayment x y = true.

Lemma transition_edge t eid at_ (a : PaymentIntent) u a' :
  transition t eid at_ a = (Ok u, a') ->
  rtc status_edge (pi_status (agg_props a)) (pi_status (agg_props a')).
Proof. intros [Ht ->]%transition_Ok. by apply rtc_once. Qed.

Ltac edge_inv :=
  pay_inv; repeat match goal with
  | H : transition _ _ _ _ = (Ok _, _) |- _ => apply transition_edge in H; cbn in H
  | H : pi_status ?p = _ |- context [pi_status ?p] => rewrite H
  end; cbn in *; eauto using rtc_refl, rtc_trans; try (by apply rtc_once).

Lemma pay_exec_status op (a : PaymentIntent) u a' :
  pay_exec op a = (Ok u, a') ->
  rtc status_edge (pi_status (agg_props a)) (pi_status (agg_props a')) \/
  (exists rid, op.1 = OpSettleRefund rid None) /\
  (pi_status (agg_props a') = refunded \/ pi_status (agg_props a') = partially_refunded).
Proof.
  destruct op as [op [eid at_]]. intros H.
  destruct op; cbn in H;
    lazymatch type of H with settleRefund _ _ _ _ _ = _ => idtac | _ => left end.
  - unfold capture in H. edge_inv.
  - unfold fail in H. edge_inv.
  - unfold refundTx, refund in H. pay_inv. destruct (isZero _); edge_inv.
  - edge_inv.
  - unfold authorizeTx in H. pay_inv. case_bool_decide; [destruct (_ && _); edge_inv|].
    unfold authorize in H. pay_inv. destruct (Money.create _ _); edge_inv.
  - unfold settleCapture, markCaptured in H. pay_inv. case_bool_decide; [edge_inv|].
    pay_inv. destruct integrationEventId; edge_inv.
  - unfold recordProviderIntent in H. destruct (PspReference_create _); pay_inv.
    destruct (pi_pspReference (agg_props a)); [case_bool_decide|]; edge_inv.
  - unfold prepareDirectCapture in H. pay_inv.
    match goal with H : _ a = (Ok _, ?s) |- _ =>
      assert (E : pi_status (agg_props s) = pi_status (agg_props a)) end.
    { destruct providerTransactionRef, (pi_providerTransactionRef (agg_props a)); pay_inv; done. }
    rewrite <- E. clear E.
    destruct (bool_decide _ || bool_decide _); [edge_inv|].
    case_bool_decide as Hc; clear Hc; [|case_bool_decide as Hc; clear Hc]; edge_inv.
  - unfold markFailed in H. edge_inv.
  - unfold ignore, reserveRefund, requestRefund in H. pay_inv. destruct key as [key|].
    2:{ unfold newRefund in *. edge_inv. }
    destruct (list_find _ _) as [[i r]|]; [|unfold newRefund in *; edge_inv].
    destruct (negb _); [edge_inv|]. case_bool_decide; edge_inv.
  - unfold settleRefund in H. pay_inv.
    match type of H with (if ?b then _ else _) _ = _ => destruct b end; [left; edge_inv|].
    destruct outcome.
    + left. unfold failRefund in H. edge_inv.
    + right. unfold completeRefund in H. split; [by eexists|]. pay_inv.
      destruct (isZero _); [by left|by right].
  - unfold recordWebhook in H. edge_inv.
Qed.

(** ** Properties *)

(** C2: money safety of payments. In every intent reached by the use cases' transactions at most one
    charge is ever recorded, the refunds that were completed or are reserved never exceed what was
    captured, and so [remaining()] never throws and is exactly the captured minus the refunded or
    reserved amount. *)
Theorem payment_refunds_never_exceed_captured (a : PaymentIntent) :
  pay_reachable a ->
  let p := agg_props a in
  (length (pi_charges p) <= 1)%nat /\
  0 <= refunded_total (pi_refunds p) <= captured_total (pi_charges p) /\
  remaining p =
    Ok (mkMoney (captured_total (pi_charges p) - refunded_total (pi_refunds p))
          (currency (pi_amount p))).
Proof.
  intros H%pay_reachable_inv p. split.
  { destruct H as [_ _ _ _ [E|[E _]] _]; fold p in E; rewrite E; cbn; lia. }
  split; [|by apply remaining_Ok]. split; [|by destruct H].
  apply sumZ_nonneg. intros r Hr. unfold active_amount. case_bool_decide; [done|].
  by apply (inv_refunds _ H).
Qed.

(** Refund idempotency. Once a refund was reserved under an idempotency key, then after any
    further transactions a retry with the same key and amount finds that same reservation (same id
    and amount): it reports it as not new, or refuses it when it failed, and in both cases changes
    nothing, whatever fresh event id the retry brings. *)
Theorem refund_retry_finds_the_reservation
    (a a1 a2 : PaymentIntent) amount eid at_ key r eid' at_' :
  requestRefund amount eid at_ (Some key) a = (Ok (r, true), a1) ->
  reachable (eq a1) pay_exec a2 ->
  exists r', rf_id r' = eid /\ rf_amount r' = amount /\ r' ∈ pi_refunds (agg_props a2) /\
    (rf_status r' <> rs_failed ->
       requestRefund amount eid' at_' (Some key) a2 = (Ok (r', false), a2)) /\
    (rf_status r' = rs_failed ->
       exists e, requestRefund amount eid' at_' (Some key) a2 = (Err e, a2)).
Proof.
  intros H Hst. unfold requestRefund in H. pay_inv.
  destruct (list_find (fun r => key_is key r = true) (pi_refunds (agg_props a))) as [[i x]|] eqn:Hf.
  { destruct (negb _); [by pay_inv|]. case_bool_decide; by pay_inv. }
  unfold newRefund in H. pay_inv.
  apply list_find_None in Hf.
  apply steps_refunds in Hst. cbn in Hst.
  set (r0 := mkRefund eid amount at_ rs_pending (Some key)) in *.
  assert (Hf1 : list_find (fun r => key_is key r = true) (pi_refunds (agg_props a) ++ [r0]) =
    Some (length (pi_refunds (agg_props a)), r0)).
  { apply list_find_Some. split; [by apply list_lookup_middle|].
    split; [by apply bool_decide_eq_true|]. intros j y Hj Hlt.
    rewrite lookup_app_l in Hj by done. eapply Forall_lookup_1 in Hf; done. }
  destruct (refunds_grow_find (fun r => key_is key r = true) _ _ _ _ (same_refund_key key) Hst Hf1) as (r' & Hf2 & [st ->]).
  exists (Refund_set_status st r0). do 2 (split; [done|]).
  split; [by apply list_find_Some in Hf2 as (?%list_elem_of_lookup_2 & _)|].
  unfold requestRefund, mbind, M_bind, gets. cbv beta. rewrite Hf2.
  assert (He : equals (rf_amount (Refund_set_status st r0)) amount = true) by by apply MoneyLaws.equals_true.
  rewrite He. cbn [negb]. split; intros Hs.
  - rewrite bool_decide_false by done. done.
  - rewrite bool_decide_true by done. by eexists.
Qed.

(** Payment status moves. Every successful transaction moves the status along edges of the
    transition table (several for a direct capture, none for a no-op); the one exception is the
    settlement of a refund, which sets [refunded] or [partially_refunded] directly. *)
Theorem payment_status_follows_table op (a a' : PaymentIntent) u :
  pay_exec op a = (Ok u, a') ->
  rtc status_edge (pi_status (agg_props a)) (pi_status (agg_props a')) \/
  ((exists rid, op.1 = OpSettleRefund rid None) /\
   pi_status (agg_props a') ∈ [refunded; partially_refunded]).
Proof.
  intros H%pay_exec_status. destruct H as [?|[? [->| ->]]]; [by left|right|right];
    (split; [done|set_solver]).
Qed.

(** A refund of zero is accepted on an intent that never captured anything, and settling it
    marks the intent [refunded], a status its transition table does not allow from [created]. *)
Theorem zero_refund_marks_uncaptured_intent_refunded id orderRef amount provider eid1 eid2 at_ key :
  valid amount -> blank eid1 = false ->
  exists a1 a2,
    pay_exec (OpReserveRefund (NInt 0) (currency amount) key, (eid1, at_))
      (createIntent id orderRef amount provider) = (Ok tt, a1) /\
    pay_exec (OpSettleRefund eid1 None, (eid2, at_)) a1 = (Ok tt, a2) /\
    pi_charges (agg_props a2) = [] /\ pi_status (agg_props a2) = refunded /\
    canTransitionPayment created refunded = false.
Proof.
  intros [Ha Hc] Hb.
  assert (Hz : Money.zero (currency amount) = Ok (mkMoney 0 (currency amount))) by by apply MoneyLaws.zero_Ok.
  assert (Hm : Money.create (NInt 0) (currency amount) = Ok (mkMoney 0 (currency amount))) by by apply MoneyLaws.create_Ok.
  assert (Hid : UniqueEntityId_from eid1 = Ok eid1) by by apply UniqueEntityId_from_Ok.
  assert (Hg : isGreaterThan (mkMoney 0 (currency amount)) (mkMoney 0 (currency amount)) = Ok false).
  { by apply MoneyLaws.isGreaterThan_Ok. }
  assert (Hmin : minus (mkMoney 0 (currency amount)) (mkMoney 0 (currency amount)) = Ok (mkMoney 0 (currency amount))).
  { by apply MoneyLaws.minus_Ok. }
  assert (Hat : forall s, UniqueEntityId_from (s +:+ show_nat 0) = Ok (s +:+ show_nat 0)).
  { intros s. apply UniqueEntityId_from_Ok. split; [|done]. rewrite blank_app, andb_comm. done. }
  destruct key as [key|]; eexists _, _.
  all: split; [cbn -[Money.create]; unfold ignore, reserveRefund, lift, mbind, M_bind; rewrite Hm;
    unfold requestRefund, newRefund, gets, mbind, M_bind, lift, remaining;
    cbn -[Money.zero isGreaterThan]; rewrite Hz; cbn -[isGreaterThan]; rewrite Hg; cbn; rewrite Hid;
    reflexivity|].
  all: split; [cbn; unfold settleRefund, gets, mbind, M_bind; cbn;
    destruct (decide (eid1 = eid1)); [|done]; cbn;
    rewrite (bool_decide_true (rs_pending = rs_pending)) by done;
    unfold completeRefund, findReservedRefund, mbind, M_bind, gets, lift, mret, M_ret; cbn;
    destruct (decide (eid1 = eid1)); [|done]; cbn -[Money.zero minus];
    unfold remaining; cbn -[Money.zero minus]; rewrite Hz; cbn -[minus];
    (destruct (decide (rs_completed <> rs_failed)) as [_|Hn]; [|by destruct Hn]); cbn -[minus]; rewrite Hmin; cbn;
    unfold recordAttempt, gets, mbind, M_bind, lift; cbn -[show_nat UniqueEntityId_from];
    rewrite Hat; reflexivity|].
  all: done.
Qed.

(** ** Witnesses *)

Definition sample_ops : list (PayOp * (string * Z)) :=
  [ (OpPrepareDirectCapture "e2" "e3" (Some "tx-1"), ("e1", 10));
    (OpSettleCapture (Some "pi-1:captured"), ("e4", 11));
    (OpReserveRefund (NInt 400) "USD" (Some "key-1"), ("e5", 12));
    (OpSettleRefund "e5" None, ("e6", 13)) ].

Definition sample_intent : PaymentIntent := createIntent "pi-1" "order-1" (mkMoney 1000 "USD") "stripe".
Definition sample_captured : PaymentIntent := snd (run_ops pay_exec (take 2 sample_ops) sample_intent).
Definition sample_refunded : PaymentIntent := snd (run_ops pay_exec sample_ops sample_intent).

Lemma sample_refunded_pay_reachable : pay_reachable sample_refunded.
Proof.
  apply (run_ops_reachable _ _ sample_ops sample_intent tt).
  - apply reach_init. exists "pi-1", "order-1", (mkMoney 1000 "USD"), "stripe". split; [done|by right].
  - vm_compute. reflexivity.
Qed.

Lemma payment_refunds_never_exceed_captured_witness :
  pi_status (agg_props sample_refunded) = partially_refunded /\
  remaining (agg_props sample_refunded) = Ok (mkMoney 600 "USD") /\
  (length (pi_charges (agg_props sample_refunded)) <= 1)%nat.
Proof.
  split; [vm_compute; reflexivity|].
  destruct (payment_refunds_never_exceed_captured sample_refunded sample_refunded_pay_reachable)
    as (H1 & _ & H2).
  split; [rewrite H2; vm_compute; reflexivity|exact H1].
Defined.

Lemma refund_retry_finds_the_reservation_witness :
  exists r', rf_id r' = "e5" /\ rf_amount r' = mkMoney 400 "USD" /\
    r' ∈ pi_refunds (agg_props sample_refunded) /\
    (rf_status r' <> rs_failed ->
       requestRefund (mkMoney 400 "USD") "e9" 99 (Some "key-1") sample_refunded =
         (Ok (r', false), sample_refunded)) /\
    (rf_status r' = rs_failed ->
       exists e, requestRefund (mkMoney 400 "USD") "e9" 99 (Some "key-1") sample_refunded =
         (Err e, sample_refunded)).
Proof.
  apply (refund_retry_finds_the_reservation sample_captured
    (snd (requestRefund (mkMoney 400 "USD") "e5" 12 (Some "key-1") sample_captured)) sample_refunded
    (mkMoney 400 "USD") "e5" 12 "key-1"
    (mkRefund "e5" (mkMoney 400 "USD") 12 rs_pending (Some "key-1")) "e9" 99).
  - vm_compute. reflexivity.
  - eapply (reach_step _ _ _ (OpSettleRefund "e5" None, ("e6", 13))); [by apply reach_init|].
    vm_compute. reflexivity.
Defined.

Lemma payment_status_follows_table_witness :
  rtc status_edge created capture_requested \/
  ((exists rid, OpPrepareDirectCapture "e2" "e3" (Some "tx-1") = OpSettleRefund rid None) /\
   capture_requested ∈ [refunded; partially_refunded]).
Proof.
  apply (payment_status_follows_table (OpPrepareDirectCapture "e2" "e3" (Some "tx-1"), ("e1", 10))
    sample_intent (snd (run_ops pay_exec (take 1 sample_ops) sample_intent)) tt).
  vm_compute. reflexivity.
Defined.

Lemma zero_refund_marks_uncaptured_intent_refunded_witness :
  exists a1 a2,
    pay_exec (OpReserveRefund (NInt 0) "USD" None, ("e1", 10)) sample_intent = (Ok tt, a1) /\
    pay_exec (OpSettleRefund "e1" None, ("e2", 10)) a1 = (Ok tt, a2) /\
    pi_charges (agg_props a2) = [] /\ pi_status (agg_props a2) = refunded /\
    canTransitionPayment created refunded = false.
Proof.
  apply (zero_refund_marks_uncaptured_intent_refunded "pi-1" "order-1" (mkMoney 1000 "USD") "stripe"
    "e1" "e2" 10 None); by vm_compute.
Defined.
