(* ===== verification/Inventory.v ===== *)
(** The Inventory context: [services/inventory/src]. Stock of a product at a warehouse: on-hand and
    reserved levels, the live reservations, the use cases that move stock and the rule by which they
    find the row they act on. *)
From S2P Require Import Prelude Kernel.

(** ** Value objects ([value-objects/quantity.ts], [warehouse-id.ts], [stock-level.ts]) *)

Definition Quantity_create (value : jsnum) : result Z :=
  match integer_from 1 value with
  | Some v => Ok v
  | None => Err (ValidationError "Invalid quantity" [mkFieldIssue "quantity" "must be a positive integer"])
  end.

Definition WarehouseId_create (value : string) : result string :=
  v ← Guard.againstEmpty value "warehouseId"; Ok (trim v).

Record StockLevel := mkStock { onHand : Z; reserved : Z }.
#[export] Instance StockLevel_eq_dec : EqDecision StockLevel.
Proof. solve_decision. Defined.

Module Stock.
Definition create (onHand_ reserved_ : jsnum) : result StockLevel :=
  let issues1 := match integer_from 0 onHand_ with
    | None => [mkFieldIssue "onHand" "must be a non-negative integer"] | Some _ => [] end in
  let issues2 := match integer_from 0 reserved_ with
    | None => [mkFieldIssue "reserved" "must be a non-negative integer"] | Some _ => [] end in
  match integer_from 0 onHand_, integer_from 0 reserved_ with
  | Some o, Some r =>
      if bool_decide (o < r)
      then Err (ValidationError "Invalid stock level" [mkFieldIssue "reserved" "cannot exceed on-hand"])
      else Ok (mkStock o r)
  | _, _ => Err (ValidationError "Invalid stock level" (issues1 ++ issues2))
  end.
Definition zero : StockLevel := mkStock 0 0.
Definition available (s : StockLevel) : Z := onHand s - reserved s.
Definition receive (q : Z) (s : StockLevel) : result StockLevel := Ok (mkStock (onHand s + q) (reserved s)).
Definition reserve (q : Z) (s : StockLevel) : result StockLevel :=
  if bool_decide (available s < q) then Err (BusinessRuleError "Insufficient available stock")
  else Ok (mkStock (onHand s) (reserved s + q)).
Definition release (q : Z) (s : StockLevel) : result StockLevel :=
  Ok (mkStock (onHand s) (Z.max 0 (reserved s - q))).
Definition adjustTo (n : Z) (s : StockLevel) : result StockLevel :=
  if bool_decide (n < reserved s) then Err (BusinessRuleError "Cannot adjust on-hand below reserved")
  else Ok (mkStock n (reserved s)).
Definition commit (q : Z) (s : StockLevel) : result StockLevel :=
  if bool_decide (reserved s < q) then Err (BusinessRuleError "Cannot commit more than reserved")
  else Ok (mkStock (onHand s - q) (reserved s - q)).
Definition remove (q : Z) (s : StockLevel) : result StockLevel :=
  if bool_decide (available s < q) then Err (BusinessRuleError "Insufficient available stock")
  else Ok (mkStock (onHand s - q) (reserved s)).
End Stock.

(** ** The aggregate ([inventory-item.ts]) *)

Record Reservation := mkReservation { rv_id : string; rv_quantity : Z; rv_reference : string }.

Record InventoryItemProps := mkItem {
  ii_product : string; ii_warehouseId : string; ii_variantRef : option string;
  ii_stockLevel : StockLevel; ii_reservations : list Reservation }.

Inductive InventoryAdjustmentReason :=
| received | adjusted | reserved_ | released | committed | transferred_out | transferred_in.

Record InventoryAdjusted := mkAdjusted {
  ia_productId : string; ia_warehouseId : string;
  ia_onHand : Z; ia_reserved : Z; ia_available : Z; ia_reason : InventoryAdjustmentReason }.

Abbreviation InventoryItem := (Aggregate InventoryItemProps InventoryAdjusted).
Abbreviation InvM := (M InventoryItem).

Module Item.
Definition create (id product warehouseId : string) (variantRef : option string) : InventoryItem :=
  new_agg (mkItem product warehouseId variantRef Stock.zero []) id.
Definition reconstitute (id product warehouseId : string) (stockLevel : StockLevel)
    (reservations : list Reservation) (version : Z) (variantRef : option string) : InventoryItem :=
  new_agg_at (mkItem product warehouseId variantRef stockLevel reservations) id version.

Definition with_stock (s : StockLevel) (p : InventoryItemProps) : InventoryItemProps :=
  mkItem (ii_product p) (ii_warehouseId p) (ii_variantRef p) s (ii_reservations p).
Definition with_reservations (l : list Reservation) (p : InventoryItemProps) : InventoryItemProps :=
  mkItem (ii_product p) (ii_warehouseId p) (ii_variantRef p) (ii_stockLevel p) l.

(** [this.props.stockLevel = this.props.stockLevel.f(...)] *)
Definition update_stock (f : StockLevel -> result StockLevel) : InvM unit :=
  p ← gets agg_props;
  s ← lift (f (ii_stockLevel p));
  set_props (with_stock s).

Definition recordAdjustment (reason : InventoryAdjustmentReason) (eid : string) (at_ : Z) : InvM unit :=
  p ← gets agg_props;
  let s := ii_stockLevel p in
  addDomainEvent eid at_
    (mkAdjusted (ii_product p) (ii_warehouseId p) (onHand s) (reserved s) (Stock.available s) reason).

Definition receive (q : Z) (eid : string) (at_ : Z) : InvM unit :=
  update_stock (Stock.receive q);; recordAdjustment received eid at_.
Definition adjust (n : Z) (eid : string) (at_ : Z) : InvM unit :=
  update_stock (Stock.adjustTo n);; recordAdjustment adjusted eid at_.

Definition reserve (reservationId : string) (q : Z) (reference eid : string) (at_ : Z) : InvM unit :=
  update_stock (Stock.reserve q);;
  set_props (fun p => with_reservations (ii_reservations p ++ [mkReservation reservationId q reference]) p);;
  recordAdjustment reserved_ eid at_.

(** [find] by id, then [splice(indexOf(...), 1)]: the first entry with that id is removed. *)
Definition take_reservation (reservationId : string) : InvM Reservation :=
  p ← gets agg_props;
  match list_find (fun r => rv_id r = reservationId) (ii_reservations p) with
  | None => throw (BusinessRuleError "Reservation not found")
  | Some (i, r) =>
      set_props (fun p => with_reservations (delete i (ii_reservations p)) p);; mret r
  end.

Definition releaseReservation (reservationId eid : string) (at_ : Z) : InvM unit :=
  r ← take_reservation reservationId;
  update_stock (Stock.release (rv_quantity r));;
  recordAdjustment released eid at_.
Definition commitReservation (reservationId eid : string) (at_ : Z) : InvM unit :=
  r ← take_reservation reservationId;
  update_stock (Stock.commit (rv_quantity r));;
  recordAdjustment committed eid at_.
Definition transferOut (q : Z) (eid : string) (at_ : Z) : InvM unit :=
  update_stock (Stock.remove q);; recordAdjustment transferred_out eid at_.
Definition transferIn (q : Z) (eid : string) (at_ : Z) : InvM unit :=
  update_stock (Stock.receive q);; recordAdjustment transferred_in eid at_.
End Item.

(** ** The rows of a tenant ([inventory-item-repository.ts], [resolve-stock-row.ts]) *)

Definition resolveStockRow (rows : list InventoryItem) (variantId : option string) : option InventoryItem :=
  match variantId with
  | Some v =>
      match list_find (fun row => ii_variantRef (agg_props row) = Some v) rows with
      | Some (_, exact) => Some exact
      | None =>
          match rows with
          | [only] => if bool_decide (ii_variantRef (agg_props only) = None) then Some only else None
          | _ => None
          end
      end
  | None => match rows with [only] => Some only | _ => None end
  end.

Abbreviation Rows := (list InventoryItem).

Definition at_location (product warehouse : string) (i : InventoryItem) : Prop :=
  ii_product (agg_props i) = product /\ ii_warehouseId (agg_props i) = warehouse.
#[export] Instance at_location_dec product warehouse i : Decision (at_location product warehouse i).
Proof. unfold at_location. apply _. Defined.

Definition findByProductAndWarehouse (product warehouse : string) (variantId : option string)
    (rows : Rows) : option InventoryItem :=
  resolveStockRow (filter (at_location product warehouse) rows) variantId.

Definition same_key (i j : InventoryItem) : Prop :=
  ii_product (agg_props i) = ii_product (agg_props j) /\
  ii_warehouseId (agg_props i) = ii_warehouseId (agg_props j) /\
  ii_variantRef (agg_props i) = ii_variantRef (agg_props j).
#[export] Instance same_key_dec i j : Decision (same_key i j).
Proof. unfold same_key. apply _. Defined.

Definition stored (i : InventoryItem) (version : Z) : InventoryItem := mkAgg (agg_id i) version [] (agg_props i).

(** [save] of a row loaded in the same transaction: a new row is created at version 1, unless its id or
    its (product, warehouse, variant) key is taken (the key is unique, nulls not distinct); a loaded row
    replaces the stored one at the next version. *)
Definition save_row (i : InventoryItem) (rows : Rows) : result Rows :=
  if bool_decide (agg_version i = 0) then
    match list_find (fun j => agg_id j = agg_id i \/ same_key i j) rows with
    | Some _ => Err (UnexpectedError "unique constraint violation")
    | None => Ok (rows ++ [stored i 1])
    end
  else
    match list_find (fun j => agg_id j = agg_id i) rows with
    | Some (n, j) =>
        if bool_decide (agg_version j = agg_version i)
        then Ok (<[n := stored i (agg_version i + 1)]> rows)
        else Err (ConcurrencyError (agg_id i +:+ " was modified concurrently"))
    | None => Err (ConcurrencyError (agg_id i +:+ " was modified concurrently"))
    end.

(** ** Use cases: the state is the tenant's rows; an error rolls the transaction back. *)

Definition locate (productId warehouseId : string) : result (string * string) :=
  p ← ProductRef_create productId; w ← WarehouseId_create warehouseId; Ok (p, w).

Definition find_row (pw : string * string) (variantId : option string) (msg : string) (rows : Rows) :
    result InventoryItem :=
  match findByProductAndWarehouse pw.1 pw.2 variantId rows with
  | Some i => Ok i
  | None => Err (NotFoundError msg)
  end.

(** Runs a method on a loaded item and saves it. *)
Definition run_and_save (m : InvM unit) (i : InventoryItem) (rows : Rows) : result (InventoryItem * Rows) :=
  match m i with
  | (Ok _, i') => rows' ← save_row i' rows; Ok (i', rows')
  | (Err e, _) => Err e
  end.

Inductive InvOp :=
| ReceiveStock (quantity : jsnum) | AdjustInventory (onHand : jsnum)
| ReserveStock (quantity : jsnum) (reference : string)
| ReleaseReservation (reservationId : string) | CommitReservation (reservationId : string)
| TransferStock (destinationWarehouseId : string) (quantity : jsnum).

Record InvInput := mkInput {
  in_productId : string; in_warehouseId : string; in_variantId : option string;
  in_newId : string; in_eventId : string; in_eventId2 : string; in_now : Z }.

Definition existing_or_new (pw : string * string) (x : InvInput) (rows : Rows) : result InventoryItem :=
  match findByProductAndWarehouse pw.1 pw.2 (in_variantId x) rows with
  | Some i => Ok i
  | None => id ← UniqueEntityId_from (in_newId x); Ok (Item.create id pw.1 pw.2 (in_variantId x))
  end.

Definition receiveStock (x : InvInput) (quantity : jsnum) (rows : Rows) : result Rows :=
  pw ← locate (in_productId x) (in_warehouseId x);
  q ← Quantity_create quantity;
  i ← existing_or_new pw x rows;
  r ← run_and_save (Item.receive q (in_eventId x) (in_now x)) i rows; Ok r.2.

Definition adjustInventory (x : InvInput) (n : jsnum) (rows : Rows) : result Rows :=
  pw ← locate (in_productId x) (in_warehouseId x);
  match integer_from 0 n with
  | None => Err (ValidationError "Invalid on-hand quantity"
      [mkFieldIssue "onHand" "must be a non-negative integer"])
  | Some n =>
      i ← find_row pw (in_variantId x) "Inventory item not found" rows;
      r ← run_and_save (Item.adjust n (in_eventId x) (in_now x)) i rows; Ok r.2
  end.

Definition reserveStock (x : InvInput) (quantity : jsnum) (reference : string) (rows : Rows) : result Rows :=
  pw ← locate (in_productId x) (in_warehouseId x);
  q ← Quantity_create quantity;
  _ ← Guard.againstEmpty reference "reference";
  i ← find_row pw (in_variantId x) "Inventory item not found" rows;
  rid ← UniqueEntityId_from (in_newId x);
  r ← run_and_save (Item.reserve rid q reference (in_eventId x) (in_now x)) i rows; Ok r.2.

Definition releaseUseCase (x : InvInput) (reservationId : string) (rows : Rows) : result Rows :=
  pw ← locate (in_productId x) (in_warehouseId x);
  i ← find_row pw (in_variantId x) "Inventory item not found" rows;
  r ← run_and_save (Item.releaseReservation reservationId (in_eventId x) (in_now x)) i rows; Ok r.2.

Definition commitUseCase (x : InvInput) (reservationId : string) (rows : Rows) : result Rows :=
  pw ← locate (in_productId x) (in_warehouseId x);
  i ← find_row pw (in_variantId x) "Inventory item not found" rows;
  r ← run_and_save (Item.commitReservation reservationId (in_eventId x) (in_now x)) i rows; Ok r.2.

Definition transferStock (x : InvInput) (destinationId : string) (quantity : jsnum) (rows : Rows) : result Rows :=
  pw ← locate (in_productId x) (in_warehouseId x);
  d ← WarehouseId_create destinationId;
  if bool_decide (pw.2 = d) then
    Err (ValidationError "Cannot transfer stock to the same warehouse"
      [mkFieldIssue "destinationWarehouseId" "must differ from sourceWarehouseId"])
  else
    q ← Quantity_create quantity;
    src ← find_row pw (in_variantId x) "Source inventory item not found" rows;
    dst ← existing_or_new (pw.1, d) x rows;
    match Item.transferOut q (in_eventId x) (in_now x) src with
    | (Err e, _) => Err e
    | (Ok _, src') =>
        match Item.transferIn q (in_eventId2 x) (in_now x) dst with
        | (Err e, _) => Err e
        | (Ok _, dst') => rows' ← save_row src' rows; save_row dst' rows'
        end
    end.

Definition inv_exec (op : InvOp * InvInput) : M Rows unit := fun rows =>
  let x := op.2 in
  match match op.1 with
        | ReceiveStock q => receiveStock x q rows
        | AdjustInventory n => adjustInventory x n rows
        | ReserveStock q ref => reserveStock x q ref rows
        | ReleaseReservation r => releaseUseCase x r rows
        | CommitReservation r => commitUseCase x r rows
        | TransferStock d q => transferStock x d q rows
        end
  with
  | Ok rows' => (Ok tt, rows')
  | Err e => (Err e, rows)
  end.

Definition inv_reachable : Rows -> Prop := reachable (eq []) inv_exec.

(** ** The item's invariant and what its methods do *)

Definition quantity_total (l : list Reservation) : Z := sumZ rv_quantity l.

Record item_ok (p : InventoryItemProps) : Prop := {
  ok_reserved : reserved (ii_stockLevel p) = quantity_total (ii_reservations p);
  ok_available : reserved (ii_stockLevel p) <= onHand (ii_stockLevel p);
  ok_positive : forall r, r ∈ ii_reservations p -> 1 <= rv_quantity r
}.

Lemma item_ok_nonneg p : item_ok p -> 0 <= reserved (ii_stockLevel p).
Proof. intros [-> _ Hp]. apply sumZ_nonneg. intros r ?%Hp. lia. Qed.

(** The same row after a change of its levels by [dOn] and [dRes]. *)
Record moved (i i' : InventoryItem) (dOn dRes : Z) : Prop := {
  mv_ok : item_ok (agg_props i');
  mv_key : same_key i' i;
  mv_id : agg_id i' = agg_id i;
  mv_version : agg_version i' = agg_version i;
  mv_on : onHand (ii_stockLevel (agg_props i')) = onHand (ii_stockLevel (agg_props i)) + dOn;
  mv_res : reserved (ii_stockLevel (agg_props i')) = reserved (ii_stockLevel (agg_props i)) + dRes
}.

Lemma update_stock_Ok f (i : InventoryItem) u i' :
  Item.update_stock f i = (Ok u, i') ->
  exists s, f (ii_stockLevel (agg_props i)) = Ok s /\
    i' = mkAgg (agg_id i) (agg_version i) (agg_events i) (Item.with_stock s (agg_props i)).
Proof. intros H. unfold Item.update_stock in H. minv. apply set_props_Ok in H. by eexists. Qed.

Lemma recordAdjustment_Ok reason eid at_ (i : InventoryItem) u i' :
  Item.recordAdjustment reason eid at_ i = (Ok u, i') ->
  agg_props i' = agg_props i /\ agg_id i' = agg_id i /\ agg_version i' = agg_version i.
Proof. intros H. unfold Item.recordAdjustment in H. minv. by apply addDomainEvent_Ok in H as ->. Qed.

Lemma take_reservation_Ok rid (i : InventoryItem) r i' :
  Item.take_reservation rid i = (Ok r, i') ->
  exists n, ii_reservations (agg_props i) !! n = Some r /\ rv_id r = rid /\
    i' = mkAgg (agg_id i) (agg_version i) (agg_events i)
      (Item.with_reservations (delete n (ii_reservations (agg_props i))) (agg_props i)).
Proof.
  intros H. unfold Item.take_reservation in H. minv. destruct (list_find _ _) as [[n x]|] eqn:Hf; minv.
  apply set_props_Ok in Hcall as ->. apply list_find_Some in Hf as (? & ? & _). by exists n.
Qed.

(** Inverts the calls an item's method makes. *)
Ltac item_inv :=
  repeat (minv; match goal with
  | H : Item.update_stock _ _ = (Ok _, _) |- _ =>
      let s := fresh "s" in let E := fresh "E" in
      apply update_stock_Ok in H as (s & E & ->); unfold Stock.receive, Stock.reserve, Stock.release,
        Stock.adjustTo, Stock.commit, Stock.remove, Stock.available in E; cbn in E
  | H : Item.recordAdjustment _ _ _ _ = (Ok _, _) |- _ =>
      let E1 := fresh "E" in let E2 := fresh "E" in let E3 := fresh "E" in
      apply recordAdjustment_Ok in H as (E1 & E2 & E3)
  | H : Item.take_reservation _ _ = (Ok _, _) |- _ => let n := fresh "n" in let Hn := fresh "Hn" in let Hr := fresh "Hr" in
      apply take_reservation_Ok in H as (n & Hn & Hr & ->)
  | H : set_props _ _ = (Ok _, _) |- _ => apply set_props_Ok in H as ->
  | H : (if bool_decide _ then _ else _) = Ok _ |- _ => case_bool_decide; [discriminate H|]
  end); minv.

Ltac solve_moved :=
  match goal with E : agg_props ?i' = _ |- moved _ ?i' _ _ =>
    split; rewrite ?E; unfold same_key; rewrite ?E; cbn in *; try done; try lia; try congruence end.

Section methods.
Context (i i' : InventoryItem) (u : unit) (eid : string) (at_ : Z).
Hypothesis Hok : item_ok (agg_props i).

Lemma receive_moved q : 0 <= q -> Item.receive q eid at_ i = (Ok u, i') -> moved i i' q 0.
Proof.
  intros Hq H. unfold Item.receive in H. item_inv. destruct Hok as [H1 H2 H3].
  solve_moved. split; cbn; try done; lia.
Qed.

Lemma transferIn_moved q : 0 <= q -> Item.transferIn q eid at_ i = (Ok u, i') -> moved i i' q 0.
Proof.
  intros Hq H. unfold Item.transferIn in H. item_inv. destruct Hok as [H1 H2 H3].
  solve_moved. split; cbn; try done; lia.
Qed.

Lemma transferOut_moved q : Item.transferOut q eid at_ i = (Ok u, i') -> moved i i' (- q) 0.
Proof.
  intros H. unfold Item.transferOut in H. item_inv. destruct Hok as [H1 H2 H3].
  solve_moved. split; cbn; try done; lia.
Qed.

Lemma adjust_moved n :
  Item.adjust n eid at_ i = (Ok u, i') -> moved i i' (n - onHand (ii_stockLevel (agg_props i))) 0.
Proof.
  intros H. unfold Item.adjust in H. item_inv. destruct Hok as [H1 H2 H3].
  solve_moved. split; cbn; try done; lia.
Qed.

Lemma reserve_moved rid q reference :
  1 <= q -> Item.reserve rid q reference eid at_ i = (Ok u, i') -> moved i i' 0 q.
Proof.
  intros Hq H. unfold Item.reserve in H. item_inv. destruct Hok as [H1 H2 H3].
  solve_moved. split; cbn.
  - rewrite H1. unfold quantity_total. by autorewrite with sums; cbn; lia.
  - lia.
  - intros r [?| ->%list_elem_of_singleton]%elem_of_app; [by apply H3|done].
Qed.

Lemma quantity_total_delete l n r :
  l !! n = Some r -> quantity_total (delete n l) = quantity_total l - rv_quantity r.
Proof.
  intros Hn. unfold quantity_total. rewrite (sumZ_perm _ l (r :: delete n l)).
  - rewrite sumZ_cons. lia.
  - by apply delete_Permutation.
Qed.

Lemma release_moved rid :
  Item.releaseReservation rid eid at_ i = (Ok u, i') ->
  exists r, r ∈ ii_reservations (agg_props i) /\ rv_id r = rid /\ moved i i' 0 (- rv_quantity r).
Proof.
  intros H. unfold Item.releaseReservation in H. item_inv. destruct Hok as [H1 H2 H3].
  exists v. assert (Hin := list_elem_of_lookup_2 _ _ _ Hn).
  assert (Hd := quantity_total_delete _ _ _ Hn).
  do 2 (split; [done|]). 
  assert (0 <= quantity_total (delete n (ii_reservations (agg_props i)))).
  { apply sumZ_nonneg. intros r' ?%list_elem_of_delete_inv%H3. lia. }
  assert (0 < rv_quantity v) by (specialize (H3 v Hin); lia).
  solve_moved. split; cbn; [lia|lia|]. intros r' ?%list_elem_of_delete_inv. by apply H3.
Qed.

Lemma commit_moved rid :
  Item.commitReservation rid eid at_ i = (Ok u, i') ->
  exists r, r ∈ ii_reservations (agg_props i) /\ rv_id r = rid /\
    moved i i' (- rv_quantity r) (- rv_quantity r).
Proof.
  intros H. unfold Item.commitReservation in H. item_inv. destruct Hok as [H1 H2 H3].
  exists v. assert (Hin := list_elem_of_lookup_2 _ _ _ Hn).
  assert (Hd := quantity_total_delete _ _ _ Hn).
  do 2 (split; [done|]).
  solve_moved. split; cbn; [lia|lia|]. intros r' ?%list_elem_of_delete_inv. by apply H3.
Qed.
End methods.

(** ** The rows *)

Definition row_key (i : InventoryItem) : string * (string * string * option string) :=
  (agg_id i, (ii_product (agg_props i), ii_warehouseId (agg_props i), ii_variantRef (agg_props i))).

Record rows_ok (rows : Rows) : Prop := {
  ro_items : forall i, i ∈ rows -> item_ok (agg_props i) /\ 1 <= agg_version i;
  ro_ids : NoDup (agg_id <$> rows);
  ro_keys : NoDup ((fun i => (row_key i).2) <$> rows)
}.

Definition total_on (rows : Rows) : Z := sumZ (fun i => onHand (ii_stockLevel (agg_props i))) rows.
Definition total_reserved (rows : Rows) : Z := sumZ (fun i => reserved (ii_stockLevel (agg_props i))) rows.

(** One transaction's change of the rows: invariant, totals, and keys, which only grow. *)
Record rows_moved (rows rows' : Rows) (dOn dRes : Z) : Prop := {
  rm_ok : rows_ok rows';
  rm_on : total_on rows' = total_on rows + dOn;
  rm_res : total_reserved rows' = total_reserved rows + dRes;
  rm_keys : exists l, row_key <$> rows' = (row_key <$> rows) ++ l
}.

Lemma rows_moved_trans r1 r2 r3 a b c d :
  rows_moved r1 r2 a b -> rows_moved r2 r3 c d -> rows_moved r1 r3 (a + c) (b + d).
Proof.
  intros [_ H1 H2 [l1 Hl1]] [H3 H4 H5 [l2 Hl2]]. split; [done|lia|lia|].
  exists (l1 ++ l2). by rewrite Hl2, Hl1, app_assoc.
Qed.

Lemma row_key_moved i i' dOn dRes v : moved i i' dOn dRes -> row_key (stored i' v) = row_key i.
Proof. intros [_ (E1 & E2 & E3) E4 _ _ _]. unfold row_key, stored. cbn. by rewrite E1, E2, E3, E4. Qed.

Lemma keys_ids (rows rows' : Rows) :
  row_key <$> rows' = row_key <$> rows ->
  agg_id <$> rows' = agg_id <$> rows /\ (fun i => (row_key i).2) <$> rows' = (fun i => (row_key i).2) <$> rows.
Proof.
  intros H. split.
  - change (agg_id (P:=InventoryItemProps) (E:=InventoryAdjusted)) with (fst ∘ row_key).
    by rewrite !list_fmap_compose, H.
  - change (fun i => (row_key i).2) with (snd ∘ row_key). by rewrite !list_fmap_compose, H.
Qed.

Lemma sumZ_replace (f : InventoryItem -> Z) rows n i i' :
  rows !! n = Some i -> sumZ f (<[n := i']> rows) = sumZ f rows + (f i' - f i).
Proof. intros H. rewrite (sumZ_insert f _ _ i) by done. lia. Qed.

(** Saving a loaded row. *)
Lemma save_loaded i i' rows rows' dOn dRes :
  rows_ok rows -> i ∈ rows -> moved i i' dOn dRes -> save_row i' rows = Ok rows' ->
  rows_moved rows rows' dOn dRes.
Proof.
  intros [Hi Hids Hkeys] Hin Hm Hs. pose proof Hm as [Hok _ Hid Hv Hon Hres].
  destruct (Hi i Hin) as [_ Hver]. unfold save_row in Hs. rewrite bool_decide_false in Hs by lia.
  destruct (list_find _ _) as [[n j]|] eqn:Hf; [|done]. case_bool_decide; [|done]. injection Hs as <-.
  apply list_find_Some in Hf as (Hn & Hj & _).
  assert (j = i) as ->.
  { apply list_elem_of_lookup in Hin as [m Hm']. assert (n = m); [|congruence].
    eapply (NoDup_lookup _ n m (agg_id i) Hids); rewrite list_lookup_fmap, ?Hn, ?Hm'; cbn; congruence. }
  assert (Hk : row_key <$> <[n := stored i' (agg_version i' + 1)]> rows = row_key <$> rows).
  { rewrite list_fmap_insert, (row_key_moved _ _ _ _ _ Hm). apply list_insert_id. by rewrite list_lookup_fmap, Hn. }
  destruct (keys_ids _ _ Hk) as [Hk1 Hk2]. split.
  - split; rewrite ?Hk1, ?Hk2; try done.
    intros x [-> | ?]%list_elem_of_insert_inv; [cbn; split; [done|lia]|by apply Hi].
  - unfold total_on. rewrite (sumZ_replace _ _ _ i) by done. cbn. lia.
  - unfold total_reserved. rewrite (sumZ_replace _ _ _ i) by done. cbn. lia.
  - exists []. by rewrite app_nil_r.
Qed.

(** Saving a row created in the transaction. *)
Lemma save_new id product warehouse variant i' rows rows' dOn dRes :
  rows_ok rows -> moved (Item.create id product warehouse variant) i' dOn dRes ->
  save_row i' rows = Ok rows' -> rows_moved rows rows' dOn dRes /\ rows' = rows ++ [stored i' 1].
Proof.
  intros [Hi Hids Hkeys] [Hok Hkey Hid Hv Hon Hres] Hs. cbn in *.
  unfold save_row in Hs. rewrite bool_decide_true in Hs by done.
  destruct (list_find _ _) eqn:Hf; [done|]. injection Hs as <-. split; [|done].
  apply list_find_None in Hf. rewrite Forall_forall in Hf. split.
  - split.
    + intros x [?| ->%list_elem_of_singleton]%elem_of_app; [by apply Hi|]. cbn. split; [done|lia].
    + rewrite fmap_app. apply NoDup_app. split; [done|]. split; [|apply NoDup_singleton].
      intros x (j & -> & Hj)%list_elem_of_fmap Hx%list_elem_of_singleton. apply (Hf j Hj). by left.
    + rewrite fmap_app. apply NoDup_app. split; [done|]. split; [|apply NoDup_singleton].
      intros x (j & -> & Hj)%list_elem_of_fmap Hx%list_elem_of_singleton. apply (Hf j Hj). right.
      unfold row_key in Hx. cbn in Hx. by injection Hx as ? ? ?.
  - unfold total_on. autorewrite with sums. cbn. lia.
  - unfold total_reserved. autorewrite with sums. cbn. lia.
  - eexists. by rewrite fmap_app.
Qed.

Lemma item_ok_create product warehouse variant : item_ok (mkItem product warehouse variant Stock.zero []).
Proof. split; cbn; [done|done|]. by intros r ?%elem_of_nil. Qed.

Lemma resolve_elem rows v i : resolveStockRow rows v = Some i -> i ∈ rows.
Proof.
  unfold resolveStockRow. destruct v as [v|].
  - destruct (list_find _ _) as [[n x]|] eqn:Hf.
    + intros [= <-]. apply list_find_Some in Hf as (? & _). by eapply list_elem_of_lookup_2.
    + destruct rows as [|x [|]]; try done. case_bool_decide; [|done]. intros [= ->]. by left.
  - destruct rows as [|x [|]]; try done. intros [= ->]. by left.
Qed.

Lemma find_elem p w v rows i : findByProductAndWarehouse p w v rows = Some i -> i ∈ rows /\ at_location p w i.
Proof. unfold findByProductAndWarehouse. intros [? ?]%resolve_elem%list_elem_of_filter. done. Qed.

(** Saving the result of a method on an item found, or newly created, in the rows. *)
Lemma save_existing_or_new pw x i i' rows rows' dOn dRes :
  rows_ok rows -> existing_or_new pw x rows = Ok i -> moved i i' dOn dRes -> save_row i' rows = Ok rows' ->
  rows_moved rows rows' dOn dRes.
Proof.
  intros Hr He Hm Hs. unfold existing_or_new in He. destruct (findByProductAndWarehouse _ _ _ _) eqn:Hf; minv.
  - apply find_elem in Hf as [? _]. by eapply save_loaded.
  - by destruct (save_new _ _ _ _ _ _ _ _ _ Hr Hm Hs).
Qed.

Lemma existing_or_new_ok pw x i rows :
  rows_ok rows -> existing_or_new pw x rows = Ok i -> item_ok (agg_props i).
Proof.
  intros Hr He. unfold existing_or_new in He. destruct (findByProductAndWarehouse _ _ _ _) eqn:Hf; minv.
  - apply find_elem in Hf as [? _]. by apply Hr.
  - apply item_ok_create.
Qed.

Lemma find_row_Ok pw v msg rows i : find_row pw v msg rows = Ok i -> i ∈ rows.
Proof.
  unfold find_row. destruct (findByProductAndWarehouse _ _ _ _) eqn:Hf; [|done].
  intros [= <-]. by apply find_elem in Hf as [? _].
Qed.

Lemma run_and_save_Ok m i rows i' rows' :
  run_and_save m i rows = Ok (i', rows') -> exists u, m i = (Ok u, i') /\ save_row i' rows = Ok rows'.
Proof. unfold run_and_save. destruct (m i) as [[u|] ?]; [|done]. intros H. minv. by exists u. Qed.

Lemma Quantity_create_Ok n q : Quantity_create n = Ok q <-> n = NInt q /\ 1 <= q.
Proof.
  unfold Quantity_create. rewrite <- integer_from_Some. destruct (integer_from 1 n); naive_solver.
Qed.

(** ** What the use cases do *)

#[local] Opaque Item.transferOut Item.transferIn.

(** The change of the totals an operation makes, by how much was received, corrected, reserved,
    released or committed. *)
Definition op_delta (rows : Rows) (op : InvOp) (dOn dRes : Z) : Prop :=
  match op with
  | ReceiveStock n => exists q, n = NInt q /\ 1 <= q /\ dOn = q /\ dRes = 0
  | AdjustInventory n => exists q i, n = NInt q /\ 0 <= q /\ i ∈ rows /\
      dOn = q - onHand (ii_stockLevel (agg_props i)) /\ dRes = 0
  | ReserveStock n _ => exists q, n = NInt q /\ 1 <= q /\ dOn = 0 /\ dRes = q
  | ReleaseReservation rid => exists i r, i ∈ rows /\ r ∈ ii_reservations (agg_props i) /\
      rv_id r = rid /\ dOn = 0 /\ dRes = - rv_quantity r
  | CommitReservation rid => exists i r, i ∈ rows /\ r ∈ ii_reservations (agg_props i) /\
      rv_id r = rid /\ dOn = - rv_quantity r /\ dRes = - rv_quantity r
  | TransferStock _ _ => dOn = 0 /\ dRes = 0
  end.

Lemma transfer_rows rows rows' x d q :
  rows_ok rows -> transferStock x d q rows = Ok rows' -> rows_moved rows rows' 0 0.
Proof.
  intros Hr H. unfold transferStock in H. minv. case_bool_decide; [done|]. minv.
  match goal with H : find_row _ _ _ _ = Ok ?i |- _ =>
    apply find_row_Ok in H as Hsrc; rename i into src end.
  match goal with H : existing_or_new _ _ _ = Ok ?i |- _ => rename H into He; rename i into dst end.
  match goal with H : Quantity_create _ = Ok ?i |- _ => apply Quantity_create_Ok in H as [-> Hq]; rename i into n end.
  destruct (Item.transferOut _ _ _ _) as [[u|e] src'] eqn:Hout; [|done].
  destruct (Item.transferIn _ _ _ _) as [[u'|e] dst'] eqn:Hin; [|done].
  assert (Hs1 : item_ok (agg_props src)) by by apply Hr.
  apply transferOut_moved in Hout; [|done].
  apply transferIn_moved in Hin; [|by eapply existing_or_new_ok|lia]. minv.
  match goal with H : save_row src' _ = Ok ?r |- _ => rename r into rows1; rename H into Hsave end.
  assert (H1 : rows_moved rows rows1 (- n) 0) by by eapply save_loaded.
  replace 0 with (- n + n) at 1 by lia. replace 0 with (0 + 0) by lia.
  eapply rows_moved_trans; [exact H1|].
  unfold existing_or_new in He. destruct (findByProductAndWarehouse _ _ _ _) as [i|] eqn:Hf; minv.
  - eapply save_loaded; [by destruct H1| |done|done].
    apply find_elem in Hf as [Hdst [_ Hw]]. cbn in Hw.
    unfold save_row in Hsave. destruct (bool_decide (agg_version src' = 0)).
    { destruct (list_find _ _); [done|]. injection Hsave as <-. set_solver. }
    destruct (list_find _ _) as [[k j]|] eqn:Hk; [|done]. case_bool_decide; [|done]. injection Hsave as <-.
    apply list_find_Some in Hk as (Hk & Hj & _). apply list_elem_of_lookup in Hdst as [m Hm].
    apply list_elem_of_lookup. exists m. rewrite list_lookup_insert_ne; [done|]. intros ->.
    assert (j = dst) as -> by congruence.
    match goal with H : find_row _ _ _ _ = Ok _ |- _ => unfold find_row in H;
      destruct (findByProductAndWarehouse _ _ _ _) as [s|] eqn:Hfs; [injection H as ->|done] end.
    apply find_elem in Hfs as [Hs [_ Hw']]. destruct Hout as [_ _ Hid _ _ _].
    assert (src = dst) as ->; [|congruence].
    apply list_elem_of_lookup in Hs as [m' Hm']. assert (m = m'); [|congruence].
    eapply (NoDup_lookup _ m m' (agg_id dst) (ro_ids _ Hr)); rewrite list_lookup_fmap, ?Hm, ?Hm'; cbn; congruence.
  - by destruct (save_new _ _ _ _ _ _ _ _ _ (rm_ok _ _ _ _ H1) Hin H).
Qed.

Lemma inv_exec_moved op rows u rows' :
  rows_ok rows -> inv_exec op rows = (Ok u, rows') ->
  exists dOn dRes, op_delta rows op.1 dOn dRes /\ rows_moved rows rows' dOn dRes.
Proof.
  destruct op as [op x]. intros Hr H. unfold inv_exec in H. cbn [fst snd] in H.
  destruct (match op with ReceiveStock _ => _ | _ => _ end) as [r|e] eqn:He; [|done]. injection H as _ ->.
  destruct op as [n|n|n ref|rid|rid|d n]; cbn.
  - unfold receiveStock in He. minv. destruct v2 as [i' r']. apply run_and_save_Ok in Hres2 as (? & Hm & Hs).
    apply Quantity_create_Ok in Hres0 as [-> Hq]. exists v0, 0. split; [by exists v0|].
    apply receive_moved in Hm; [|by eapply existing_or_new_ok|lia]. by eapply save_existing_or_new.
  - unfold adjustInventory in He. minv. destruct (integer_from 0 n) as [q|] eqn:Hn; [|done].
    apply integer_from_Some in Hn as [-> Hn]. minv. destruct v1 as [i' r'].
    apply run_and_save_Ok in Hres1 as (? & Hm & Hs). apply find_row_Ok in Hres0.
    apply adjust_moved in Hm; [|by apply Hr]. eexists _, 0. split; [exists q, v0; split_and!; done|].
    by eapply save_loaded.
  - unfold reserveStock in He. minv. destruct v4 as [i' r']. apply run_and_save_Ok in Hres4 as (? & Hm & Hs).
    apply Quantity_create_Ok in Hres0 as [-> Hq]. apply find_row_Ok in Hres2.
    apply reserve_moved in Hm; [|by apply Hr|done]. exists 0, v0. split; [by exists v0|]. by eapply save_loaded.
  - unfold releaseUseCase in He. minv. destruct v1 as [i' r']. apply run_and_save_Ok in Hres1 as (? & Hm & Hs).
    apply find_row_Ok in Hres0. apply release_moved in Hm as (r & ? & ? & Hm); [|by apply Hr].
    eexists _, _. split; [|by eapply save_loaded]. by exists v0, r.
  - unfold commitUseCase in He. minv. destruct v1 as [i' r']. apply run_and_save_Ok in Hres1 as (? & Hm & Hs).
    apply find_row_Ok in Hres0. apply commit_moved in Hm as (r & ? & ? & Hm); [|by apply Hr].
    eexists _, _. split; [|by eapply save_loaded]. by exists v0, r.
  - apply transfer_rows in He; [|done]. by exists 0, 0.
Qed.

Lemma rows_ok_nil : rows_ok [].
Proof. split; cbn; [by intros i ?%elem_of_nil|constructor|constructor]. Qed.

Lemma inv_reachable_ok rows : inv_reachable rows -> rows_ok rows.
Proof.
  revert rows. apply reachable_invariant; [by intros ? <-; apply rows_ok_nil|].
  intros op rows u rows' Hr H. destruct (inv_exec_moved _ _ _ _ Hr H) as (? & ? & _ & []). done.
Qed.

(** ** Reservations *)

Lemma list_find_fresh rid (l : list Reservation) (r : Reservation) :
  rid ∉ (rv_id <$> l) -> rv_id r = rid ->
  list_find (fun x => rv_id x = rid) (l ++ [r]) = Some (length l, r).
Proof.
  intros Hf Hr. apply list_find_Some. split; [by apply list_lookup_middle|]. split; [done|].
  intros j y Hj Hlt Hy. rewrite lookup_app_l in Hj by done. apply Hf. rewrite <- Hy.
  apply list_elem_of_fmap_2. by eapply list_elem_of_lookup_2.
Qed.

Lemma delete_last {A} (l : list A) x : delete (length l) (l ++ [x]) = l.
Proof.
  rewrite delete_take_drop, take_app_length, drop_ge; [by rewrite app_nil_r|].
  rewrite length_app. cbn. lia.
Qed.

Lemma take_reservation_live rid (i : InventoryItem) :
  rid ∈ (rv_id <$> ii_reservations (agg_props i)) ->
  exists n r, ii_reservations (agg_props i) !! n = Some r /\ rv_id r = rid /\
    Item.take_reservation rid i =
      (Ok r, mkAgg (agg_id i) (agg_version i) (agg_events i)
        (Item.with_reservations (delete n (ii_reservations (agg_props i))) (agg_props i))).
Proof.
  intros (r0 & -> & Hin)%list_elem_of_fmap.
  unfold Item.take_reservation, mbind, M_bind, gets.
  destruct (list_find _ _) as [[n r]|] eqn:Hf.
  - apply list_find_Some in Hf as (Hn & Hr & _). exists n, r. done.
  - apply list_find_None in Hf. rewrite Forall_forall in Hf. by destruct (Hf r0 Hin).
Qed.

(** ** Rows that no lookup reaches *)

Definition location (p w : string) (k : string * (string * string * option string)) : bool :=
  bool_decide (k.2.1 = (p, w)).

Lemma location_rows p w rows :
  length (filter (at_location p w) rows) = length (filter (fun k => location p w k = true) (row_key <$> rows)).
Proof.
  induction rows as [|i rows IH]; [done|].
  assert (Hl : location p w (row_key i) = true <-> at_location p w i).
  { unfold location, at_location. rewrite bool_decide_eq_true. cbn. naive_solver. }
  rewrite fmap_cons, !filter_cons. do 2 case_decide; cbn; naive_solver.
Qed.

Lemma later_rows rows rows' :
  rows_ok rows -> reachable (eq rows) inv_exec rows' ->
  rows_ok rows' /\ exists l, row_key <$> rows' = (row_key <$> rows) ++ l.
Proof.
  intros Hr H. induction H as [s <-|s op r s' Hs IH He].
  - split; [done|]. exists []. by rewrite app_nil_r.
  - destruct IH as [Hok [l1 Hl1]]. destruct (inv_exec_moved _ _ _ _ Hok He) as (? & ? & _ & [? _ _ [l2 Hl2]]).
    split; [done|]. exists (l1 ++ l2). by rewrite Hl2, Hl1, app_assoc.
Qed.

Lemma resolve_several rows v i :
  (2 <= length rows)%nat -> resolveStockRow rows v = Some i ->
  exists w, v = Some w /\ ii_variantRef (agg_props i) = Some w.
Proof.
  intros Hl. unfold resolveStockRow. destruct v as [v|].
  - destruct (list_find _ _) as [[n x]|] eqn:Hf.
    + intros [= <-]. apply list_find_Some in Hf as (_ & ? & _). by exists v.
    + destruct rows as [|x [|]]; cbn in Hl; try done; lia.
  - destruct rows as [|x [|]]; cbn in Hl; try done; lia.
Qed.

(** ** Properties *)

(** C4: stock is never oversold. In every set of rows reached by the use cases, each row's reserved
    level is the sum of its live reservations, each of at least one unit, and lies between zero and
    the on-hand level; row ids and (product, warehouse, variant) keys are unique. *)
Theorem inventory_never_oversold rows :
  inv_reachable rows ->
  (forall i, i ∈ rows ->
     reserved (ii_stockLevel (agg_props i)) = sumZ rv_quantity (ii_reservations (agg_props i)) /\
     0 <= reserved (ii_stockLevel (agg_props i)) <= onHand (ii_stockLevel (agg_props i)) /\
     0 <= Stock.available (ii_stockLevel (agg_props i)) /\
     (forall r, r ∈ ii_reservations (agg_props i) -> 1 <= rv_quantity r)) /\
  NoDup (agg_id <$> rows) /\ NoDup ((fun i => (row_key i).2) <$> rows).
Proof.
  intros Hr%inv_reachable_ok. split; [|by destruct Hr].
  intros i Hi. destruct (ro_items _ Hr i Hi) as [Hok _]. pose proof (item_ok_nonneg _ Hok).
  destruct Hok. unfold Stock.available. split_and!; try done; lia.
Qed.

(** Stock is conserved. Every successful use case changes the total on-hand and reserved stock of
    the tenant exactly by what it received, corrected, reserved, released or committed; a transfer
    between warehouses changes neither. A failed one changes nothing. *)
Theorem inventory_stock_conserved op rows out rows' :
  inv_reachable rows -> inv_exec op rows = (out, rows') ->
  match out with
  | Ok _ => exists dOn dRes, op_delta rows op.1 dOn dRes /\
      total_on rows' = total_on rows + dOn /\ total_reserved rows' = total_reserved rows + dRes
  | Err _ => rows' = rows
  end.
Proof.
  intros Hr%inv_reachable_ok H. destruct out as [u|e].
  - destruct (inv_exec_moved _ _ _ _ Hr H) as (dOn & dRes & Hd & []). by exists dOn, dRes.
  - unfold inv_exec in H. destruct (match op.1 with ReceiveStock _ => _ | _ => _ end); by simplify_eq.
Qed.

(** A live reservation can always be settled. On a row of a reachable set, releasing or committing
    a live reservation never throws; a release returns exactly its quantity to availability, a commit
    takes it from both levels. *)
Theorem live_reservation_can_be_settled rows (i : InventoryItem) rid eid at_ :
  inv_reachable rows -> i ∈ rows -> rid ∈ (rv_id <$> ii_reservations (agg_props i)) ->
  exists r, r ∈ ii_reservations (agg_props i) /\ rv_id r = rid /\
    (exists i1, Item.releaseReservation rid eid at_ i = (Ok tt, i1) /\
       ii_stockLevel (agg_props i1) = mkStock (onHand (ii_stockLevel (agg_props i)))
         (reserved (ii_stockLevel (agg_props i)) - rv_quantity r)) /\
    (exists i2, Item.commitReservation rid eid at_ i = (Ok tt, i2) /\
       ii_stockLevel (agg_props i2) = mkStock (onHand (ii_stockLevel (agg_props i)) - rv_quantity r)
         (reserved (ii_stockLevel (agg_props i)) - rv_quantity r)).
Proof.
  intros Hr%inv_reachable_ok Hi Hlive. destruct (ro_items _ Hr i Hi) as [[Hsum Hle Hpos] _].
  destruct (take_reservation_live _ _ Hlive) as (n & r & Hn & Hid & Ht).
  assert (Hin := list_elem_of_lookup_2 _ _ _ Hn). assert (Hd := quantity_total_delete _ _ _ Hn).
  assert (0 <= quantity_total (delete n (ii_reservations (agg_props i)))).
  { apply sumZ_nonneg. intros r' ?%list_elem_of_delete_inv%Hpos. lia. }
  exists r. do 2 (split; [done|]). split; eexists.
  - split; [unfold Item.releaseReservation, mbind, M_bind; rewrite Ht;
      unfold Item.update_stock, Stock.release, Item.recordAdjustment, addDomainEvent, gets, lift, mbind, M_bind;
      cbn; reflexivity|].
    cbn. f_equal. lia.
  - split; [unfold Item.commitReservation, mbind, M_bind; rewrite Ht;
      unfold Item.update_stock, Stock.commit, Item.recordAdjustment, addDomainEvent, gets, lift, mbind, M_bind; cbn;
      rewrite bool_decide_false by lia; reflexivity|]. done.
Qed.

(** Reserving and releasing is the identity on stock: a reservation under a fresh id that
    succeeded can be released, which restores the level and the live reservations exactly. *)
Theorem reserve_release_roundtrip (i i1 : InventoryItem) rid q reference eid at_ eid' at_' :
  item_ok (agg_props i) -> 1 <= q -> rid ∉ (rv_id <$> ii_reservations (agg_props i)) ->
  Item.reserve rid q reference eid at_ i = (Ok tt, i1) ->
  exists i2, Item.releaseReservation rid eid' at_' i1 = (Ok tt, i2) /\ agg_props i2 = agg_props i.
Proof.
  intros Hok Hq Hf H. unfold Item.reserve in H. item_inv. destruct i1 as [id1 v1 e1 p1]. cbn in *. subst p1.
  eexists. split.
  - unfold Item.releaseReservation, Item.take_reservation, mbind, M_bind, gets. cbn.
    rewrite list_find_fresh by done.
    unfold Item.update_stock, Stock.release, Item.recordAdjustment, addDomainEvent, gets, lift, mbind, M_bind.
    cbn. reflexivity.
  - cbn. rewrite delete_last. pose proof (item_ok_nonneg _ Hok).
    destruct i as [? ? ? [? ? ? [on res] l]]. cbn in *. unfold Item.with_stock. cbn. do 2 f_equal. lia.
Qed.

(** Stock received without a variant can become unreachable. Once a product has two rows at a
    warehouse, receiving stock for it without naming a variant creates a row without one, and no
    lookup by product, warehouse and variant ever finds that row again: its stock can be neither
    reserved, adjusted nor transferred. *)
Theorem receive_without_variant_strands_stock x n rows rows1 p w :
  inv_reachable rows -> locate (in_productId x) (in_warehouseId x) = Ok (p, w) ->
  in_variantId x = None -> (2 <= length (filter (at_location p w) rows))%nat ->
  inv_exec (ReceiveStock n, x) rows = (Ok tt, rows1) ->
  exists i, i ∈ rows1 /\ at_location p w i /\ 1 <= onHand (ii_stockLevel (agg_props i)) /\
    forall rows2 v, reachable (eq rows1) inv_exec rows2 ->
      forall j, findByProductAndWarehouse p w v rows2 = Some j -> agg_id j <> agg_id i.
Proof.
  intros Hr%inv_reachable_ok Hloc Hv Hlen H.
  assert (Hr1 : rows_ok rows1) by (destruct (inv_exec_moved _ _ _ _ Hr H) as (? & ? & _ & []); done).
  unfold inv_exec in H. cbn [fst snd] in H. destruct (receiveStock x n rows) as [r|] eqn:He; [|done].
  injection H as ->. unfold receiveStock in He. rewrite Hloc in He. minv.
  destruct v2 as [i' r']. apply run_and_save_Ok in Hres2 as (u & Hm & Hs).
  apply Quantity_create_Ok in Hres0 as [-> Hq].
  unfold existing_or_new in Hres1. rewrite Hv in Hres1. unfold findByProductAndWarehouse in Hres1.
  destruct (resolveStockRow _ _) as [i|] eqn:Hf.
  { destruct (resolve_several _ _ _ Hlen Hf) as (? & [=] & _). }
  minv. apply receive_moved in Hm; [|apply item_ok_create|lia].
  destruct (save_new _ _ _ _ _ _ _ _ _ Hr Hm Hs) as [[_ _ _ Hk] ->].
  destruct Hm as [Hok (E1 & E2 & E3) E4 _ Hon _]. cbn in *.
  exists (stored i' 1). split; [set_solver|]. split; [by split|]. split; [cbn; lia|].
  intros rows2 vr Hlater j Hj Hid. destruct (later_rows _ _ Hr1 Hlater) as [Hr2 [l2 Hl2]].
  unfold findByProductAndWarehouse in Hj.
  assert (Hlen2 : (2 <= length (filter (at_location p w) rows2))%nat).
  { rewrite location_rows, Hl2, fmap_app, !filter_app, !length_app, <- location_rows. lia. }
  destruct (resolve_several _ _ _ Hlen2 Hj) as (vw & _ & Hvw).
  apply resolve_elem, list_elem_of_filter in Hj as [_ Hj].
  assert (Hkey : row_key (stored i' 1) ∈ row_key <$> rows2) by (rewrite Hl2, fmap_app; set_solver).
  apply list_elem_of_fmap in Hkey as (k & Hk2 & Hkin).
  assert (k = j) as ->.
  { apply list_elem_of_lookup in Hkin as [a Ha], Hj as [b Hb]. assert (a = b); [|congruence].
    unfold row_key in Hk2. injection Hk2 as Hk2 _.
    eapply (NoDup_lookup _ a b (agg_id j) (ro_ids _ Hr2)); rewrite list_lookup_fmap, ?Ha, ?Hb; cbn in *; congruence. }
  unfold row_key in Hk2. cbn in Hk2. congruence.
Qed.

(** ** Witnesses *)

Definition sample_input (variant : option string) (n : string) : InvInput :=
  mkInput "p1" "wh-1" variant ("id" +:+ n) ("ev" +:+ n) ("ew" +:+ n) 10.

Definition sample_ops : list (InvOp * InvInput) :=
  [ (ReceiveStock (NInt 10), sample_input (Some "red") "1");
    (ReceiveStock (NInt 5), sample_input (Some "blue") "2");
    (ReserveStock (NInt 4) "order-1", sample_input (Some "red") "3");
    (TransferStock "wh-2" (NInt 3), sample_input (Some "red") "4") ].

Definition sample_rows : Rows := snd (run_ops inv_exec sample_ops []).
Definition sample_row : InventoryItem :=
  default (Item.create "none" "none" "none" None) (findByProductAndWarehouse "p1" "wh-1" (Some "red") sample_rows).

Lemma sample_rows_reachable : inv_reachable sample_rows.
Proof.
  apply (run_ops_reachable _ _ sample_ops [] tt); [by apply reach_init|vm_compute; reflexivity].
Qed.

Lemma inventory_never_oversold_witness :
  length sample_rows = 3%nat /\ total_on sample_rows = 15 /\ total_reserved sample_rows = 4 /\
  NoDup (agg_id <$> sample_rows).
Proof.
  split; [vm_compute; reflexivity|]. split; [vm_compute; reflexivity|]. split; [vm_compute; reflexivity|].
  apply (inventory_never_oversold sample_rows sample_rows_reachable).
Defined.

Lemma inventory_stock_conserved_witness :
  exists dOn dRes, op_delta sample_rows (TransferStock "wh-2" (NInt 2)) dOn dRes /\
    total_on (snd (inv_exec (TransferStock "wh-2" (NInt 2), sample_input (Some "red") "5") sample_rows)) =
      total_on sample_rows + dOn /\
    total_reserved (snd (inv_exec (TransferStock "wh-2" (NInt 2), sample_input (Some "red") "5") sample_rows)) =
      total_reserved sample_rows + dRes.
Proof.
  apply (inventory_stock_conserved (TransferStock "wh-2" (NInt 2), sample_input (Some "red") "5")
    sample_rows (Ok tt)); [exact sample_rows_reachable|vm_compute; reflexivity].
Defined.

Lemma live_reservation_can_be_settled_witness :
  exists r, r ∈ ii_reservations (agg_props sample_row) /\ rv_id r = "id3" /\
    (exists i1, Item.releaseReservation "id3" "e" 11 sample_row = (Ok tt, i1) /\
       ii_stockLevel (agg_props i1) = mkStock (onHand (ii_stockLevel (agg_props sample_row)))
         (reserved (ii_stockLevel (agg_props sample_row)) - rv_quantity r)) /\
    (exists i2, Item.commitReservation "id3" "e" 11 sample_row = (Ok tt, i2) /\
       ii_stockLevel (agg_props i2) = mkStock (onHand (ii_stockLevel (agg_props sample_row)) - rv_quantity r)
         (reserved (ii_stockLevel (agg_props sample_row)) - rv_quantity r)).
Proof.
  apply (live_reservation_can_be_settled sample_rows sample_row "id3" "e" 11);
    [exact sample_rows_reachable|vm_compute; left|vm_compute; left].
Defined.

Lemma reserve_release_roundtrip_witness :
  exists i2, Item.releaseReservation "rv9" "e2" 12
      (snd (Item.reserve "rv9" 2 "order-2" "e1" 11 sample_row)) = (Ok tt, i2) /\
    agg_props i2 = agg_props sample_row.
Proof.
  apply (reserve_release_roundtrip sample_row _ "rv9" 2 "order-2" "e1" 11 "e2" 12).
  - split; [vm_compute; reflexivity|vm_compute; discriminate|].
    intros r ->%list_elem_of_singleton. vm_compute. discriminate.
  - lia.
  - by intros ?%list_elem_of_singleton.
  - vm_compute. reflexivity.
Defined.

Lemma receive_without_variant_strands_stock_witness :
  exists i, i ∈ snd (inv_exec (ReceiveStock (NInt 7), sample_input None "9") sample_rows) /\
    at_location "p1" "wh-1" i /\ 1 <= onHand (ii_stockLevel (agg_props i)) /\
    forall rows2 v,
      reachable (eq (snd (inv_exec (ReceiveStock (NInt 7), sample_input None "9") sample_rows))) inv_exec rows2 ->
      forall j, findByProductAndWarehouse "p1" "wh-1" v rows2 = Some j -> agg_id j <> agg_id i.
Proof.
  apply (receive_without_variant_strands_stock (sample_input None "9") (NInt 7) sample_rows _ "p1" "wh-1").
  - exact sample_rows_reachable.
  - vm_compute. reflexivity.
  - reflexivity.
  - vm_compute. lia.
  - vm_compute. reflexivity.
Defined.
