(* ===== verification/RefundProtocol.v ===== *)
(** The refund protocol of [RefundPaymentLifecycle]: workers reserve a refund on the intent, ask the
    provider to move the money outside any transaction, and settle the reservation, while other
    transactions, crashes and retries interleave. Each transaction is one step on the stored intent:
    Optimistic.v shows that interleaved transactions amount to that. *)
From S2P Require Import Prelude Kernel Optimistic Payments.
Import Money.

(** ** Provider capabilities ([value-objects/provider-capabilities.ts]) *)

Record ProviderCapabilities := mkCapabilities {
  settlesAtPayTime : bool; deliversWebhooks : bool;
  requiresMerchantCredentials : bool; chargesOffSession : bool }.

Definition isSettledByOperatorConfirmation (c : ProviderCapabilities) : bool :=
  settlesAtPayTime c && negb (deliversWebhooks c).

(** ** The payment provider

    Nothing is assumed of it. An attempt asks it to move an amount under an idempotency key; the money
    moves or it does not, and the attempt answers or throws, in any of the four combinations: a call that
    timed out may have moved the money, and a key may move it as often as it is sent. *)

Record Call := mkCall { cl_key : string; cl_amount : Z; cl_moved : bool; cl_threw : bool }.

(** The keys under which an attempt threw. *)
Definition thrown (cs : list Call) : list string :=
  cl_key <$> filter (fun c => cl_threw c = true) cs.

(** The money that moved. *)
Definition moved_total (cs : list Call) : Z :=
  sumZ cl_amount (filter (fun c => cl_moved c = true) cs).

(** The calls in doubt: they moved the money under a key for which some attempt threw, so that the
    refund may be recorded as failed, or under a key that had moved it already. *)
Fixpoint doubtful (thrown seen : list string) (cs : list Call) : list Call :=
  match cs with
  | [] => []
  | c :: cs =>
      if cl_moved c then
        (if bool_decide (cl_key c ∈ thrown \/ cl_key c ∈ seen) then [c] else []) ++
        doubtful thrown (cl_key c :: seen) cs
      else doubtful thrown seen cs
  end.

Definition in_doubt (cs : list Call) : list Call := doubtful (thrown cs) [] cs.

(** ** The protocol *)

Section protocol.
Context (capabilitiesOf : string -> option ProviderCapabilities).

(** A worker inside [execute]: it holds a reservation, with the provider reference read with it and the
    amount of its request, or it has the outcome to settle ([None]: succeeded). *)
Inductive Worker :=
| WReserved (refundId : string) (pspReference : option string) (amountMinor : Z)
| WSettling (refundId : string) (outcome : option string).

Record State := mkState {
  st_intent : PaymentIntent; st_calls : list Call; st_workers : gmap nat Worker }.

Definition psp_key (a : PaymentIntent) (refundId : string) : string :=
  agg_id a +:+ (":refund:" +:+ refundId).

(** [intent.providerTransactionRef ?? intent.pspReference?.value] *)
Definition provider_ref (p : PaymentIntentProps) : option string :=
  match pi_providerTransactionRef p with Some r => Some r | None => pi_pspReference p end.

Definition recordedOutsidePlatform (p : PaymentIntentProps) : bool :=
  match capabilitiesOf (pi_provider p) with
  | Some c => isSettledByOperatorConfirmation c
  | None => false
  end.

Definition message_of (e : DomainError) : string :=
  match e with
  | ValidationError m _ | NotFoundError m | ConflictError m | ConcurrencyError m
  | BusinessRuleError m | UnexpectedError m | AuthenticationError m | AuthorizationError m => m
  end.

Definition ids (a : PaymentIntent) : list string := rf_id <$> pi_refunds (agg_props a).

(** The transactions other use cases run on the intent. *)
Definition other_op (op : PayOp) : bool :=
  match op with OpReserveRefund _ _ _ | OpSettleRefund _ _ => false | _ => true end.

(** New refund entries take ids from the id generator: fresh ones. *)
Inductive step : State -> State -> Prop :=
| step_reserve w a l ws amount c eid at_ key r isNew a' :
    ws !! w = None -> eid ∉ ids a ->
    reserveRefund (NInt amount) c eid at_ key a = (Ok (r, isNew), a') ->
    step (mkState a l ws)
      (mkState (if isNew then a' else a) l
        (if bool_decide (rf_status r = rs_completed) then ws
         else <[w := WReserved (rf_id r) (provider_ref (agg_props a)) amount]> ws))
| step_skip w a l ws rid ref amt :
    ws !! w = Some (WReserved rid ref amt) ->
    ref = None \/ recordedOutsidePlatform (agg_props a) = true ->
    step (mkState a l ws) (mkState a l (<[w := WSettling rid None]> ws))
| step_call w a l ws rid ref amt moved (r : result unit) :
    ws !! w = Some (WReserved rid (Some ref) amt) ->
    recordedOutsidePlatform (agg_props a) = false ->
    step (mkState a l ws)
      (mkState a (l ++ [mkCall (psp_key a rid) amt moved (negb (isOk r))])
        (<[w := WSettling rid match r with Ok _ => None | Err e => Some (message_of e) end]> ws))
| step_unresolved w a l ws rid ref amt e :
    ws !! w = Some (WReserved rid (Some ref) amt) ->
    recordedOutsidePlatform (agg_props a) = false ->
    step (mkState a l ws)
      (mkState a (l ++ [mkCall (psp_key a rid) amt false true])
        (<[w := WSettling rid (Some (message_of e))]> ws))
| step_settle w a l ws rid o eid at_ r a' :
    ws !! w = Some (WSettling rid o) -> settleRefund rid o eid at_ a = (r, a') ->
    step (mkState a l ws) (mkState (if isOk r then a' else a) l (delete w ws))
| step_crash w a l ws :
    step (mkState a l ws) (mkState a l (delete w ws))
| step_other a l ws op eid at_ r a' :
    other_op op = true -> eid ∉ ids a -> pay_exec (op, (eid, at_)) a = (Ok r, a') ->
    step (mkState a l ws) (mkState a' l ws).

Definition start (s : State) : Prop :=
  new_intent (st_intent s) /\ st_calls s = [] /\ st_workers s = ∅.

Inductive run : State -> Prop :=
| run_0 s : start s -> run s
| run_S s s' : run s -> step s s' -> run s'.

End protocol.

(** ** What the transactions do to the refund entries *)

(** The entry has the amount the request asks for: a new one takes it, a resumed one is compared with
    it. *)
Lemma reserveRefund_cases n c eid at_ key (a : PaymentIntent) r isNew a' :
  reserveRefund (NInt n) c eid at_ key a = (Ok (r, isNew), a') ->
  amountMinor (rf_amount r) = n /\
  ((isNew = true /\ pi_refunds (agg_props a') = pi_refunds (agg_props a) ++ [r] /\
      rf_id r = eid /\ rf_status r = rs_pending) \/
   (isNew = false /\ a' = a /\ r ∈ pi_refunds (agg_props a))).
Proof.
  intros H. unfold reserveRefund in H. pay_inv.
  match goal with E : Money.create _ _ = Ok ?x |- _ =>
    rename x into m; apply MoneyLaws.create_Ok in E as ([= ->] & _) end.
  unfold requestRefund in H. pay_inv.
  destruct key as [key|]; [|unfold newRefund in H; pay_inv; auto 10].
  destruct (list_find _ _) as [[i x]|] eqn:Hf; [|unfold newRefund in H; pay_inv; auto 10].
  destruct (equals (rf_amount x) m) eqn:He; [|by pay_inv]. cbn [negb] in H.
  case_bool_decide; [by pay_inv|]. pay_inv. split; [by apply MoneyLaws.equals_true in He as ->|right].
  apply list_find_Some in Hf as (Hi & _). by apply list_elem_of_lookup_2 in Hi.
Qed.

Definition settled_status (o : option string) : RefundStatus :=
  match o with None => rs_completed | Some _ => rs_failed end.

Lemma settleRefund_cases rid o eid at_ (a : PaymentIntent) u a' :
  settleRefund rid o eid at_ a = (Ok u, a') ->
  a' = a \/ exists i r, list_find (fun x => rf_id x = rid) (pi_refunds (agg_props a)) = Some (i, r) /\
    rf_status r = rs_pending /\
    pi_refunds (agg_props a') = <[i := Refund_set_status (settled_status o) r]> (pi_refunds (agg_props a)).
Proof.
  intros H. unfold settleRefund in H. pay_inv.
  destruct (list_find _ _) as [[i r]|] eqn:Hf.
  2:{ destruct o; unfold failRefund, completeRefund in H; pay_inv; congruence. }
  destruct (negb _) eqn:Hn; [left; by pay_inv|]. right. exists i, r. pay_inv. split; [done|]. split; [done|].
  destruct o; unfold failRefund, completeRefund in H; pay_inv; done.
Qed.

Lemma other_op_cases op eid at_ (a : PaymentIntent) u a' :
  other_op op = true -> pay_exec (op, (eid, at_)) a = (Ok u, a') ->
  pi_refunds (agg_props a') = pi_refunds (agg_props a) \/
  exists amount, pi_refunds (agg_props a') =
    pi_refunds (agg_props a) ++ [mkRefund eid amount at_ rs_completed None].
Proof.
  intros Ho H. destruct op; try discriminate Ho; cbn in H.
  3:{ right. unfold refundTx, refund in H. pay_inv. destruct (isZero _); pay_inv; by eexists. }
  all: left.
  - unfold capture in H. grow_inv.
  - unfold fail in H. grow_inv.
  - grow_inv.
  - unfold authorizeTx in H. pay_inv. case_bool_decide; [destruct (_ && _); grow_inv|].
    unfold authorize in H. pay_inv. destruct (Money.create _ _); grow_inv.
  - unfold settleCapture, markCaptured in H. pay_inv. case_bool_decide; [grow_inv|].
    pay_inv. destruct integrationEventId; grow_inv.
  - unfold recordProviderIntent in H. destruct (PspReference_create _); pay_inv.
    destruct (pi_pspReference (agg_props a)); [case_bool_decide|]; grow_inv.
  - unfold prepareDirectCapture in H. pay_inv.
    match goal with H : _ a = (Ok _, ?s) |- _ =>
      assert (E : pi_refunds (agg_props s) = pi_refunds (agg_props a)) end.
    { destruct providerTransactionRef, (pi_providerTransactionRef (agg_props a)); grow_inv. }
    rewrite <- E. destruct (bool_decide _ || bool_decide _); [grow_inv|].
    case_bool_decide; [|case_bool_decide]; grow_inv.
  - unfold markFailed in H. grow_inv.
  - unfold recordWebhook in H. grow_inv.
Qed.

(** ** The invariant *)

Section invariant.
Context (capabilitiesOf : string -> option ProviderCapabilities).
Implicit Types s : State.

Abbreviation refunds s := (pi_refunds (agg_props (st_intent s))).

(** The entry of an id, with its amount. *)
Definition has_entry s (rid : string) (amt : Z) : Prop :=
  exists r, r ∈ refunds s /\ rf_id r = rid /\ amountMinor (rf_amount r) = amt.

Definition worker_ok s (w : Worker) : Prop :=
  match w with
  | WReserved rid _ amt => has_entry s rid amt
  | WSettling rid (Some _) => psp_key (st_intent s) rid ∈ thrown (st_calls s)
  | WSettling _ None => True
  end.

Definition call_ok s (c : Call) : Prop :=
  exists rid, cl_key c = psp_key (st_intent s) rid /\ has_entry s rid (cl_amount c).

Record protocol_inv s : Prop := {
  pi_intent : intent_inv (agg_props (st_intent s));
  pi_nodup : NoDup (ids (st_intent s));
  pi_failed : forall r, r ∈ refunds s -> rf_status r = rs_failed ->
    psp_key (st_intent s) (rf_id r) ∈ thrown (st_calls s);
  pi_calls : forall c, c ∈ st_calls s -> call_ok s c;
  pi_workers : forall w x, st_workers s !! w = Some x -> worker_ok s x
}.

Lemma psp_key_inj a rid rid' : psp_key a rid = psp_key a rid' -> rid = rid'.
Proof. unfold psp_key. by intros ?%(inj _)%(inj _). Qed.

Lemma elem_thrown cs k : k ∈ thrown cs <-> exists c, c ∈ cs /\ cl_key c = k /\ cl_threw c = true.
Proof. unfold thrown. rewrite list_elem_of_fmap. setoid_rewrite list_elem_of_filter. naive_solver. Qed.

Lemma thrown_app cs cs' k : k ∈ thrown cs -> k ∈ thrown (cs ++ cs').
Proof. rewrite !elem_thrown. set_solver. Qed.

(** Steps that keep the intent's id and the calls, and lose no entry's id and amount. *)
Lemma inv_intent a a' (l : list Call) ws :
  protocol_inv (mkState a l ws) -> intent_inv (agg_props a') -> agg_id a' = agg_id a -> NoDup (ids a') ->
  (forall rid amt, has_entry (mkState a l ws) rid amt -> has_entry (mkState a' l ws) rid amt) ->
  (forall r, r ∈ pi_refunds (agg_props a') -> rf_status r = rs_failed -> psp_key a (rf_id r) ∈ thrown l) ->
  protocol_inv (mkState a' l ws).
Proof.
  intros [Hi Hn Hf Hc Hw] Hi' Hid Hn' Hr Hf'.
  assert (Hk : forall rid, psp_key a' rid = psp_key a rid) by (intros; unfold psp_key; by rewrite Hid).
  split; cbn in *; try done.
  - intros r. rewrite Hk. auto.
  - intros c (rid & ? & ?)%Hc. exists rid. cbn in *. rewrite Hk. auto.
  - intros w x Hx. specialize (Hw _ _ Hx). destruct x as [|? [?|]]; cbn in *; rewrite ?Hk; auto.
Qed.

Lemma inv_append a a' (l : list Call) ws r :
  protocol_inv (mkState a l ws) -> intent_inv (agg_props a') -> agg_id a' = agg_id a ->
  pi_refunds (agg_props a') = pi_refunds (agg_props a) ++ [r] -> rf_id r ∉ ids a ->
  rf_status r <> rs_failed -> protocol_inv (mkState a' l ws).
Proof.
  intros Hinv Hi' Hid Hr Hfresh Hst. apply (inv_intent a); [done..| | |].
  - unfold ids. rewrite Hr, fmap_app. apply NoDup_app. split; [by apply (pi_nodup _ Hinv)|].
    split; [|apply NoDup_singleton]. by intros x Hx ->%list_elem_of_singleton.
  - intros rid amt (x & Hx & ?). exists x. cbn in *. rewrite Hr. set_solver.
  - rewrite Hr. intros x [?| ->%list_elem_of_singleton]%elem_of_app ?; [|done]. by apply (pi_failed _ Hinv).
Qed.

Lemma inv_same_refunds a a' (l : list Call) ws :
  protocol_inv (mkState a l ws) -> intent_inv (agg_props a') -> agg_id a' = agg_id a ->
  pi_refunds (agg_props a') = pi_refunds (agg_props a) -> protocol_inv (mkState a' l ws).
Proof.
  intros Hinv Hi' Hid Hr. apply (inv_intent a); try done; unfold ids, has_entry; cbn; rewrite Hr; try done.
  - apply (pi_nodup _ Hinv).
  - apply (pi_failed _ Hinv).
Qed.

Lemma inv_drop_worker a (l : list Call) ws w :
  protocol_inv (mkState a l ws) -> protocol_inv (mkState a l (delete w ws)).
Proof. intros [Hi Hn He Hz Hw]. split; try done; cbn in *. intros w' x [_ ?]%lookup_delete_Some. by eapply Hw. Qed.

Lemma inv_set_worker a (l : list Call) ws w x :
  protocol_inv (mkState a l ws) -> worker_ok (mkState a l ws) x ->
  protocol_inv (mkState a l (<[w := x]> ws)).
Proof.
  intros [Hi Hn He Hz Hw] Hx. split; try done; cbn in *.
  intros w' x' [[<- <-]|[_ ?]]%lookup_insert_Some; [done|by eapply Hw].
Qed.

(** An attempt of a worker that holds a reservation. *)
Lemma inv_attempt a l ws w rid ref amt moved threw (o : option string) :
  protocol_inv (mkState a l ws) -> ws !! w = Some (WReserved rid ref amt) ->
  (is_Some o -> threw = true) ->
  protocol_inv (mkState a (l ++ [mkCall (psp_key a rid) amt moved threw]) (<[w := WSettling rid o]> ws)).
Proof.
  intros Hinv Hw Ho. apply inv_set_worker.
  - destruct Hinv as [Hi Hn Hf Hc Hwk]. split; cbn in *; try done.
    + eauto using thrown_app.
    + intros c [?%Hc| ->%list_elem_of_singleton]%elem_of_app; [done|]. exists rid.
      split; [done|]. apply (Hwk _ _ Hw).
    + intros w' x Hx. specialize (Hwk _ _ Hx). destruct x as [|? [?|]]; cbn in *; auto;
        by apply thrown_app.
  - destruct o; cbn; [|done]. apply elem_thrown. eexists. split; [apply elem_of_app; right; by left|].
    split; [done|]. by apply Ho.
Qed.

Lemma inv_settle_step a a' (l : list Call) ws w rid o i r :
  protocol_inv (mkState a l ws) -> ws !! w = Some (WSettling rid o) ->
  intent_inv (agg_props a') -> agg_id a' = agg_id a ->
  list_find (fun x => rf_id x = rid) (pi_refunds (agg_props a)) = Some (i, r) ->
  pi_refunds (agg_props a') = <[i := Refund_set_status (settled_status o) r]> (pi_refunds (agg_props a)) ->
  protocol_inv (mkState a' l ws).
Proof.
  intros Hinv Hw Hi' Hid (Hl & Hrid & _)%list_find_Some Hr. apply (inv_intent a); [done..| | |].
  - assert (ids a' = ids a) as ->; [|apply (pi_nodup _ Hinv)].
    unfold ids. rewrite Hr, list_fmap_insert. apply list_insert_id. by rewrite list_lookup_fmap, Hl.
  - intros k amt (x & [j Hj]%list_elem_of_lookup & Hx). cbn in *. unfold has_entry. cbn. rewrite Hr.
    destruct (decide (j = i)) as [->|Hne].
    + exists (Refund_set_status (settled_status o) r). assert (x = r) as -> by congruence.
      split; [|done]. apply list_elem_of_lookup. exists i.
      apply list_lookup_insert_eq. by apply lookup_lt_Some in Hl.
    + exists x. split; [|done]. apply list_elem_of_lookup. exists j. by rewrite list_lookup_insert_ne.
  - rewrite Hr. intros x [-> | ?]%list_elem_of_insert_inv; [|by apply (pi_failed _ Hinv)].
    pose proof (pi_workers _ Hinv _ _ Hw) as Hk. cbn in *. subst rid. by destruct o.
Qed.

Lemma protocol_inv_start s : start s -> protocol_inv s.
Proof.
  intros (Hn & Hm & Hw).
  assert (Hr : refunds s = []) by (by destruct Hn as (? & ? & ? & ? & _ & [-> | ->])).
  split.
  - by apply inv_new_intent.
  - unfold ids. rewrite Hr. constructor.
  - rewrite Hr. by intros r ?%elem_of_nil.
  - rewrite Hm. by intros c ?%elem_of_nil.
  - rewrite Hw. by intros ? ? ?%lookup_empty_Some.
Qed.

Lemma protocol_inv_step s s' : protocol_inv s -> step capabilitiesOf s s' -> protocol_inv s'.
Proof.
  intros Hinv Hs. destruct Hs as [w a l ws n c eid at_ key r isNew a' Hw Hf Hr
    |w a l ws rid ref amt Hw _|w a l ws rid ref amt moved r Hw _|w a l ws rid ref amt e Hw _
    |w a l ws rid o eid at_ r a' Hw Hs|w a l ws|a l ws op eid at_ r a' Ho Hf He].
  - assert (Hex : pay_exec (OpReserveRefund (NInt n) c key, (eid, at_)) a = (Ok tt, a')).
    { cbn. unfold ignore, mbind, M_bind. by rewrite Hr. }
    destruct (keeps_pay_exec _ _ _ _ Hex) as [Hid _].
    apply inv_pay_exec in Hex; [|by destruct Hinv].
    apply reserveRefund_cases in Hr as [Hn Hr].
    assert (Hinv' : protocol_inv (mkState (if isNew then a' else a) l ws) /\
      r ∈ pi_refunds (agg_props (if isNew then a' else a))).
    { destruct Hr as [(-> & Happ & Hrid & Hst)|(-> & -> & Hin)]; [|done].
      split; [|rewrite Happ; set_solver].
      eapply inv_append; try done; [by rewrite Hrid|by rewrite Hst]. }
    destruct Hinv' as (Hinv' & Hin). case_bool_decide as Hc; [done|].
    apply inv_set_worker; [done|]. by exists r.
  - by apply inv_set_worker.
  - eapply inv_attempt; [done..|]. destruct r; [by intros [? ?]|done].
  - by eapply inv_attempt.
  - destruct r as [u|e]; cbn [isOk]; [|by apply inv_drop_worker].
    assert (Hex : pay_exec (OpSettleRefund rid o, (eid, at_)) a = (Ok u, a')) by done.
    destruct (keeps_pay_exec _ _ _ _ Hex) as [Hid _].
    apply inv_pay_exec in Hex; [|by destruct Hinv]. apply inv_drop_worker.
    apply settleRefund_cases in Hs as [-> | (i & r & Hl & Hst & Hr)]; [done|].
    by eapply inv_settle_step.
  - by apply inv_drop_worker.
  - destruct (keeps_pay_exec _ _ _ _ He) as [Hid _].
    assert (Hi' := inv_pay_exec _ _ _ _ (pi_intent _ Hinv) He).
    apply other_op_cases in He as [He|[amount He]]; [by eapply inv_same_refunds|by eapply inv_append|done].
Qed.

Lemma protocol_inv_run s : run capabilitiesOf s -> protocol_inv s.
Proof. induction 1; eauto using protocol_inv_start, protocol_inv_step. Qed.

End invariant.

(** ** The calls beyond doubt *)

(** Their keys differ and no attempt threw under them; with the doubtful ones they are all that moved. *)
Lemma beyond_doubt th seen cs :
  exists sure, moved_total cs = sumZ cl_amount sure + sumZ cl_amount (doubtful th seen cs) /\
    NoDup (cl_key <$> sure) /\ (forall c, c ∈ sure -> c ∈ cs /\ (cl_key c ∉ th) /\ cl_key c ∉ seen).
Proof.
  unfold moved_total. revert seen. induction cs as [|c cs IH]; intros seen.
  { exists []. split; [done|]. split; [constructor|]. by intros c ?%elem_of_nil. }
  cbn [doubtful]. rewrite filter_cons. destruct (cl_moved c); [|destruct (IH seen) as (sure & ? & ? & Hs)].
  2:{ exists sure. split; [done|]. split; [done|]. intros x Hx. destruct (Hs x Hx). split; [by right|done]. }
  rewrite decide_True, sumZ_cons, sumZ_app by done. destruct (IH (cl_key c :: seen)) as (sure & Hm & Hn & Hs).
  case_bool_decide as Hd.
  - exists sure. rewrite sumZ_cons, sumZ_nil. split; [lia|]. split; [done|].
    intros x Hx. destruct (Hs x Hx) as (? & ? & Hk). split; [by right|]. split; [done|]. set_solver.
  - exists (c :: sure). rewrite sumZ_cons, sumZ_nil. split; [lia|]. rewrite fmap_cons. split.
    + constructor; [|done]. intros (x & Hk & Hx)%list_elem_of_fmap. destruct (Hs x Hx) as (_ & _ & Hk').
      apply Hk'. rewrite Hk. by left.
    + intros x [-> | Hx]%elem_of_cons; [split; [by left|]; tauto|].
      destruct (Hs x Hx) as (? & ? & Hk). split; [by right|]. split; [done|]. set_solver.
Qed.

(** Calls with keys of their own, each of the amount of a counted entry, ask for no more than the
    entries. *)
Lemma sure_le_refunded (key : Refund -> string) sure l :
  NoDup (cl_key <$> sure) -> (forall r, r ∈ l -> 0 <= active_amount r) ->
  (forall c, c ∈ sure -> exists r, r ∈ l /\ key r = cl_key c /\ active_amount r = cl_amount c) ->
  sumZ cl_amount sure <= refunded_total l.
Proof.
  unfold refunded_total. revert l. induction sure as [|c sure IH]; intros l Hn Hp Hs.
  { rewrite sumZ_nil. by apply sumZ_nonneg. }
  apply NoDup_cons in Hn as [Hc Hn]. destruct (Hs c) as (r & Hr & Hk & Ha); [by left|].
  apply elem_of_Permutation in Hr as [l' Hl]. rewrite (sumZ_perm _ _ _ Hl), !sumZ_cons.
  enough (sumZ cl_amount sure <= sumZ active_amount l') by lia. apply IH; [done| |].
  - intros x Hx. apply Hp. rewrite Hl. by right.
  - intros x Hx. destruct (Hs x) as (y & Hy & Hky & Hay); [by right|]. exists y. split; [|done].
    rewrite Hl in Hy. apply elem_of_cons in Hy as [-> |]; [|done].
    destruct Hc. apply list_elem_of_fmap. exists x. split; [congruence|done].
Qed.

(** ** Properties *)

(** C3: refunds move no more money than was captured, but for the calls in doubt. Over every
    interleaving of reservations, provider calls, settlements, crashes, retries and other transactions
    on the intent, and whatever the provider does with the calls (nothing is assumed of it), the money
    that moved is at most what the intent captured and the money of the calls in doubt: those that moved
    it under a key for which some attempt threw, or under a key that had moved it already. Every attempt
    is for a refund entry of the intent, under the entry's own key and for its amount, and an entry is
    recorded as failed only when an attempt under its key threw. *)
Theorem refund_protocol_money_safe
    (capabilitiesOf : string -> option ProviderCapabilities) (s : State) :
  run capabilitiesOf s ->
  moved_total (st_calls s) <=
    captured_total (pi_charges (agg_props (st_intent s))) + sumZ cl_amount (in_doubt (st_calls s)) /\
  (forall c, c ∈ st_calls s ->
     exists r, r ∈ pi_refunds (agg_props (st_intent s)) /\
       cl_key c = psp_key (st_intent s) (rf_id r) /\ cl_amount c = amountMinor (rf_amount r)) /\
  (forall r, r ∈ pi_refunds (agg_props (st_intent s)) -> rf_status r = rs_failed ->
     exists c, c ∈ st_calls s /\ cl_key c = psp_key (st_intent s) (rf_id r) /\ cl_threw c = true).
Proof.
  intros Hr%protocol_inv_run.
  assert (Hcalls : forall c, c ∈ st_calls s -> exists r, r ∈ pi_refunds (agg_props (st_intent s)) /\
    cl_key c = psp_key (st_intent s) (rf_id r) /\ cl_amount c = amountMinor (rf_amount r)).
  { intros c (? & ? & r & ? & <- & ?)%(pi_calls _ Hr). by exists r. }
  split; [|split; [done|]].
  - destruct (beyond_doubt (thrown (st_calls s)) [] (st_calls s)) as (sure & -> & Hn & Hs).
    enough (sumZ cl_amount sure <= refunded_total (pi_refunds (agg_props (st_intent s)))).
    { pose proof (inv_cover _ (pi_intent _ Hr)). unfold in_doubt. lia. }
    apply (sure_le_refunded (fun r => psp_key (st_intent s) (rf_id r))); [done| |].
    + intros r Hin. destruct (inv_refunds _ (pi_intent _ Hr) r Hin) as [_ Hp]. unfold active_amount.
      by case_bool_decide.
    + intros c Hc. destruct (Hs c Hc) as (Hin & Ht & _). destruct (Hcalls c Hin) as (r & Hrin & Hk & Ha).
      exists r. split; [done|]. split; [done|]. unfold active_amount. rewrite bool_decide_false; [done|].
      intros Hf. apply Ht. rewrite Hk. by apply (pi_failed _ Hr).
  - intros r Hin Hf. by apply elem_thrown, (pi_failed _ Hr).
Qed.

(** ** Runs *)

Definition no_capabilities (provider : string) : option ProviderCapabilities := None.
Definition refund_call (rid : string) (moved threw : bool) : Call :=
  mkCall ("pi-1:refund:" +:+ rid) 1000 moved threw.
Definition holds (rid : string) : Worker := WReserved rid (Some "tx-1") 1000.

Definition after (op : PayOp * (string * Z)) (a : PaymentIntent) : PaymentIntent := snd (pay_exec op a).
Definition intent0 : PaymentIntent := createIntent "pi-1" "order-1" (mkMoney 1000 "USD") "stripe".
Definition intent1 : PaymentIntent := after (OpPrepareDirectCapture "e2" "e3" (Some "tx-1"), ("e1", 10)) intent0.
Definition intent2 : PaymentIntent := after (OpSettleCapture None, ("e4", 11)) intent1.
Definition intent3 : PaymentIntent := after (OpReserveRefund (NInt 1000) "USD" (Some "k1"), ("r1", 12)) intent2.
Definition intent4 : PaymentIntent := after (OpSettleRefund "r1" (Some "network"), ("e5", 13)) intent3.
Definition intent5 : PaymentIntent := after (OpReserveRefund (NInt 1000) "USD" (Some "k2"), ("r2", 14)) intent4.
Definition entry (rid key : string) (at_ : Z) : Refund :=
  mkRefund rid (mkMoney 1000 "USD") at_ rs_pending (Some key).

Lemma run_captured : run no_capabilities (mkState intent2 [] ∅).
Proof.
  apply (run_S _ (mkState intent1 [] ∅)).
  - apply (run_S _ (mkState intent0 [] ∅)).
    + apply run_0. split; [|done]. exists "pi-1", "order-1", (mkMoney 1000 "USD"), "stripe".
      split; [done|by right].
    + apply (step_other _ _ _ _ (OpPrepareDirectCapture "e2" "e3" (Some "tx-1")) "e1" 10 tt);
        [done|by apply not_elem_of_nil|vm_compute; reflexivity].
  - apply (step_other _ _ _ _ (OpSettleCapture None) "e4" 11 tt);
      [done|by apply not_elem_of_nil|vm_compute; reflexivity].
Qed.

(** The first reservation, by worker 1. *)
Definition ws1 : gmap nat Worker := <[1%nat := holds "r1"]> ∅.

Lemma run_reserved : run no_capabilities (mkState intent3 [] ws1).
Proof.
  apply (run_S _ (mkState intent2 [] ∅)); [by apply run_captured|].
  apply (step_reserve _ 1 intent2 [] ∅ 1000 "USD" "r1" 12 (Some "k1") (entry "r1" "k1" 12) true intent3);
    [done|by apply not_elem_of_nil|vm_compute; reflexivity].
Qed.

(** One step with a call of worker [w] for the entry [rid] of [intent]. *)
Lemma run_call intent cs ws w rid (moved : bool) (r : result unit) :
  agg_id intent = "pi-1" -> ws !! w = Some (holds rid) ->
  run no_capabilities (mkState intent cs ws) ->
  run no_capabilities (mkState intent (cs ++ [refund_call rid moved (negb (isOk r))])
    (<[w := WSettling rid match r with Ok _ => None | Err e => Some (message_of e) end]> ws)).
Proof.
  intros Hid Hw Hr. apply (run_S _ _ _ Hr). unfold refund_call.
  replace ("pi-1:refund:" +:+ rid) with (psp_key intent rid) by (unfold psp_key; by rewrite Hid).
  by apply (step_call _ w intent cs ws rid "tx-1" 1000).
Qed.

Definition network : result unit := Err (UnexpectedError "network").

Lemma refund_protocol_money_safe_witness :
  moved_total [refund_call "r1" true false] <= captured_total (pi_charges (agg_props intent3)) + 0.
Proof.
  eapply (refund_protocol_money_safe no_capabilities (mkState intent3 ([] ++ [refund_call "r1" true false]) _)).
  apply (run_call intent3 [] ws1 1 "r1" true (Ok tt)); [done|done|apply run_reserved].
Defined.

(** *** The calls in doubt can move the captured amount a second time *)

(** The failed reservation "r1" is settled, and a second refund reserves the released capacity. *)
Lemma run_again cs ws w w' :
  ws !! w = Some (WSettling "r1" (Some "network")) -> delete w ws !! w' = None ->
  run no_capabilities (mkState intent3 cs ws) ->
  run no_capabilities (mkState intent5 cs (<[w' := holds "r2"]> (delete w ws))).
Proof.
  intros Hw Hw' Hr. apply (run_S _ (mkState intent4 cs (delete w ws))).
  - apply (run_S _ _ _ Hr).
    apply (step_settle _ w intent3 cs ws "r1" (Some "network") "e5" 13 (Ok tt) intent4);
      [done|vm_compute; reflexivity].
  - apply (step_reserve _ w' intent4 cs _ 1000 "USD" "r2" 14 (Some "k2") (entry "r2" "k2" 14) true intent5);
      [done|set_solver|vm_compute; reflexivity].
Qed.

(** A call that threw although the money moved (a time-out): the refund is recorded as failed, its
    capacity is released and refunded again. The provider moved the money once per key. *)
Theorem thrown_call_can_refund_twice :
  exists s : State, run no_capabilities s /\ captured_total (pi_charges (agg_props (st_intent s))) = 1000 /\
    moved_total (st_calls s) = 2000 /\ NoDup (cl_key <$> st_calls s).
Proof.
  exists (mkState intent5 [refund_call "r1" true true; refund_call "r2" true false]
    (<[2%nat := WSettling "r2" None]> (<[2%nat := holds "r2"]>
      (delete 1%nat (<[1%nat := WSettling "r1" (Some "network")]> ws1))))).
  split; [|split; [by vm_compute|split; [by vm_compute|vm_compute; repeat constructor; set_solver]]].
  apply (run_call intent5 [refund_call "r1" true true] _ 2 "r2" true (Ok tt)); [done|done|].
  apply run_again; [done|done|].
  apply (run_call intent3 [] ws1 1 "r1" true network); [done|done|apply run_reserved].
Qed.

(** Two workers drive the same reservation (worker 2's retry resumes it before worker 1's failed call is
    settled): the captured amount is moved twice even though an attempt throws only when it moved
    nothing, and a key moves its amount once. *)
Theorem shared_reservation_can_refund_twice :
  exists s : State, run no_capabilities s /\ captured_total (pi_charges (agg_props (st_intent s))) = 1000 /\
    moved_total (st_calls s) = 2000 /\
    NoDup (cl_key <$> filter (fun c => cl_moved c = true) (st_calls s)) /\
    (forall c, c ∈ st_calls s -> cl_moved c = negb (cl_threw c)).
Proof.
  pose (cs := [refund_call "r1" false true; refund_call "r1" true false]).
  exists (mkState intent5 (cs ++ [refund_call "r2" true false]) (<[3%nat := WSettling "r2" None]>
    (<[3%nat := holds "r2"]> (delete 1%nat (<[2%nat := WSettling "r1" None]>
      (<[1%nat := WSettling "r1" (Some "network")]> (<[2%nat := holds "r1"]> ws1))))))).
  split; [|split; [by vm_compute|split; [by vm_compute|split]]].
  - apply (run_call intent5 cs _ 3 "r2" true (Ok tt)); [done|done|]. apply run_again; [done|done|].
    apply (run_call intent3 [refund_call "r1" false true] _ 2 "r1" true (Ok tt)); [done|done|].
    apply (run_call intent3 [] _ 1 "r1" false network); [done|done|].
    apply (run_S _ _ _ run_reserved).
    apply (step_reserve _ 2 intent3 [] ws1 1000 "USD" "e9" 12 (Some "k1") (entry "r1" "k1" 12) false intent3);
      [done|set_solver|vm_compute; reflexivity].
  - vm_compute. repeat constructor; set_solver.
  - intros c Hc. cbn in Hc. set_solver.
Qed.
