(* ===== verification/Promotions.v ===== *)
(** The Promotions context: [services/promotions/src/domain]. A promotion's rule, schedule, eligibility
    and settings, and its lifecycle. The calculation of a cart's discounts is in Discounts.v. *)
From Stdlib Require Import QArith Qround.
From S2P Require Import Prelude Kernel.

#[global] Open Scope Z_scope.

(** ** Status ([value-objects/promotion-status.ts]) *)

Inductive PromotionStatusValue :=
| draft | scheduled | active | paused | expired | depleted | cancelled | archived.
#[export] Instance PromotionStatusValue_eq_dec : EqDecision PromotionStatusValue.
Proof. solve_decision. Defined.

Definition status_name (s : PromotionStatusValue) : string :=
  match s with
  | draft => "draft" | scheduled => "scheduled" | active => "active" | paused => "paused"
  | expired => "expired" | depleted => "depleted" | cancelled => "cancelled" | archived => "archived"
  end.

Definition TRANSITIONS (from : PromotionStatusValue) : list PromotionStatusValue :=
  match from with
  | draft => [scheduled; active; cancelled; archived]
  | scheduled => [active; cancelled; archived]
  | active => [paused; expired; depleted; cancelled; archived]
  | paused => [active; expired; cancelled; archived]
  | expired => [archived]
  | depleted => [archived]
  | cancelled => [archived]
  | archived => []
  end.

Definition canTransitionPromotion (from to : PromotionStatusValue) : bool :=
  bool_decide (to ∈ TRANSITIONS from).

(** ** Rules ([value-objects/promotion-rule.ts])

    Numbers that may have decimals (percentages) are rationals; [Number.isInteger] is [is_int]. *)

Inductive PromotionRuleType := rt_automatic | rt_buy_x_get_y.
Inductive PromotionRewardType := rw_percentage | rw_fixed_amount | rw_free_shipping | rw_buy_x_get_y.
Inductive PromotionScope := sc_cart | sc_product | sc_category.
#[export] Instance PromotionRuleType_eq_dec : EqDecision PromotionRuleType.
Proof. solve_decision. Defined.
#[export] Instance PromotionRewardType_eq_dec : EqDecision PromotionRewardType.
Proof. solve_decision. Defined.
#[export] Instance PromotionScope_eq_dec : EqDecision PromotionScope.
Proof. solve_decision. Defined.

Record PromotionCondition := mkCondition {
  cd_scope : PromotionScope; cd_targetRefs : list string;
  cd_minimumQuantity : option Z; cd_minimumSubtotalAmountMinor : option Z }.

Inductive BuysKind := by_quantity | by_amount.
Record BuyXGetYBuys := mkBuys { by_kind : BuysKind; by_value : Z }.
Inductive GetsEffect := eff_percentage (value : Q) | eff_free.
Record BuyXGetYGets := mkGets {
  gt_quantity : Z; gt_scope : PromotionScope; gt_targetRefs : list string; gt_effect : GetsEffect }.

Record PromotionReward := mkReward {
  rw_type : PromotionRewardType; rw_value : option Q;
  rw_buyQuantity : option Z; rw_getQuantity : option Z;
  rw_appliesOncePerOrder : option bool;
  rw_countries : option (list string); rw_maxShippingRateMinor : option Z;
  rw_buys : option BuyXGetYBuys; rw_gets : option BuyXGetYGets; rw_maxUsesPerOrder : option Z }.

Definition is_int (q : Q) : bool := (Qden (Qred q) =? 1)%positive.
Definition qlt (a b : Q) : bool := negb (Qle_bool b a).

Definition two_letter (c : string) : bool :=
  match c with
  | String a (String b EmptyString) => is_upper a && is_upper b
  | _ => false
  end.

Definition percentage_issues (value : option Q) : list FieldIssue :=
  match value with
  | Some v => if qlt v 0 || qlt 100 v then [mkFieldIssue "value" "percentage reward must be 0-100"] else []
  | None => [mkFieldIssue "value" "percentage reward must be 0-100"]
  end.

Definition fixed_issues (value : option Q) : list FieldIssue :=
  match value with
  | Some v => if negb (is_int v) || qlt v 0
              then [mkFieldIssue "value" "fixed amount must be a whole number of minor units"] else []
  | None => []
  end.

Definition buy_x_get_y_issues (r : PromotionReward) : list FieldIssue :=
  match rw_buys r with
  | Some b => if bool_decide (0 < by_value b) then []
              else [mkFieldIssue "buys" "must say how much the customer buys"]
  | None => [mkFieldIssue "buys" "must say how much the customer buys"]
  end ++
  match rw_gets r with
  | Some g =>
      if bool_decide (0 < gt_quantity g) && negb (bool_decide (length (gt_targetRefs g) = 0%nat)) then
        match gt_effect g with
        | eff_percentage v =>
            if Qle_bool v 0 || qlt 100 v then [mkFieldIssue "gets.effect" "percentage must be 0-100"] else []
        | eff_free => []
        end
      else [mkFieldIssue "gets" "must say which items and how many the customer gets"]
  | None => [mkFieldIssue "gets" "must say which items and how many the customer gets"]
  end ++
  match rw_maxUsesPerOrder r with
  | Some n => if bool_decide (0 < n) then [] else [mkFieldIssue "maxUsesPerOrder" "must be a positive whole number"]
  | None => []
  end.

Definition free_shipping_issues (r : PromotionReward) : list FieldIssue :=
  match rw_countries r with
  | Some cs => if forallb two_letter cs then [] else [mkFieldIssue "countries" "must be ISO 3166-1 alpha-2 codes"]
  | None => []
  end ++
  match rw_maxShippingRateMinor r with
  | Some n => if bool_decide (n < 0)
              then [mkFieldIssue "maxShippingRateMinor" "must be a whole number of minor units"] else []
  | None => []
  end.

Definition rewardIssues (r : PromotionReward) : list FieldIssue :=
  match rw_type r with
  | rw_percentage => percentage_issues (rw_value r)
  | rw_fixed_amount => fixed_issues (rw_value r)
  | rw_buy_x_get_y => buy_x_get_y_issues r
  | rw_free_shipping => free_shipping_issues r
  end.

Definition PromotionReward_create (r : PromotionReward) : result PromotionReward :=
  match rewardIssues r with
  | [] => Ok r
  | issues => Err (ValidationError "Invalid promotion reward" issues)
  end.

Record PromotionRule := mkRule {
  rl_type : PromotionRuleType; rl_condition : PromotionCondition; rl_reward : PromotionReward;
  rl_stackable : bool; rl_priority : Z }.

Definition PromotionRule_create (type : PromotionRuleType) (condition : PromotionCondition)
    (reward : PromotionReward) (stackable : bool) (priority : Z) : result PromotionRule :=
  if bool_decide (type = rt_buy_x_get_y) && negb (bool_decide (rw_type reward = rw_buy_x_get_y)) &&
     (bool_decide (rw_buyQuantity reward = None) || bool_decide (rw_getQuantity reward = None)) then
    Err (ValidationError "Invalid promotion rule"
      [mkFieldIssue "reward" "buy_x_get_y requires buyQuantity and getQuantity"])
  else if bool_decide (rw_type reward = rw_buy_x_get_y) && negb (bool_decide (type = rt_buy_x_get_y)) then
    Err (ValidationError "Invalid promotion rule"
      [mkFieldIssue "ruleType" "a buy X get Y reward needs the buy_x_get_y rule type"])
  else
    p ← Guard.againstNegative priority "priority";
    Ok (mkRule type condition reward stackable p).

(** ** Settings, schedule, eligibility ([discount-settings.ts], [promotion-schedule.ts]) *)

Inductive DiscountMethod := m_code | m_automatic.
Inductive DiscountClass := c_product | c_order | c_shipping.
#[export] Instance DiscountMethod_eq_dec : EqDecision DiscountMethod.
Proof. solve_decision. Defined.
#[export] Instance DiscountClass_eq_dec : EqDecision DiscountClass.
Proof. solve_decision. Defined.

Record CombinesWith := mkCombines { cw_product : bool; cw_order : bool; cw_shipping : bool }.
Definition COMBINES_WITH_NOTHING := mkCombines false false false.
Definition COMBINES_WITH_EVERYTHING := mkCombines true true true.

Definition combines_class (c : CombinesWith) (d : DiscountClass) : bool :=
  match d with c_product => cw_product c | c_order => cw_order c | c_shipping => cw_shipping c end.

Definition discountClassOf (r : PromotionRule) : DiscountClass :=
  if bool_decide (rw_type (rl_reward r) = rw_free_shipping) then c_shipping
  else if bool_decide (rl_type r = rt_buy_x_get_y) then c_product
  else if bool_decide (cd_scope (rl_condition r) = sc_cart) then c_order else c_product.

Definition canCombine (a b : DiscountClass * CombinesWith) : bool :=
  combines_class a.2 b.1 && combines_class b.2 a.1.

Record PromotionSchedule := mkSchedule { sd_startsAt : Z; sd_endsAt : option Z }.

Definition isActiveAt (s : PromotionSchedule) (now : Z) : bool :=
  if bool_decide (now < sd_startsAt s) then false
  else match sd_endsAt s with None => true | Some e => bool_decide (now < e) end.
Definition isExpiredAt (s : PromotionSchedule) (now : Z) : bool :=
  match sd_endsAt s with None => false | Some e => bool_decide (e <= now) end.

Record CustomerEligibility := mkEligibility {
  el_customerRefs : option (list string); el_segmentRefs : option (list string) }.
Definition everyone := mkEligibility None None.

(** ** The aggregate ([promotion.ts]) *)

Record PromotionProps := mkPromotion {
  pr_name : string; pr_rule : PromotionRule; pr_schedule : PromotionSchedule;
  pr_eligibility : CustomerEligibility; pr_campaignRef : option string;
  pr_usageLimit : option Z; pr_usageCount : Z; pr_status : PromotionStatusValue;
  pr_method : option DiscountMethod; pr_combinesWith : CombinesWith }.

Record PromotionTransitioned := mkPromotionTransitioned {
  pt_name : string; pt_from : PromotionStatusValue; pt_to : PromotionStatusValue }.

Abbreviation Promotion := (Aggregate PromotionProps PromotionTransitioned).
Abbreviation PromoM := (M Promotion).

Definition combines_default (c : option CombinesWith) (r : PromotionRule) : CombinesWith :=
  default (if rl_stackable r then COMBINES_WITH_EVERYTHING else COMBINES_WITH_NOTHING) c.

Definition Promotion_create (id name : string) (rule : PromotionRule) (schedule : PromotionSchedule)
    (eligibility : CustomerEligibility) (campaignRef : option string) (usageLimit : option Z)
    (method : option DiscountMethod) (combines : option CombinesWith) : Promotion :=
  new_agg (mkPromotion name rule schedule eligibility campaignRef usageLimit 0 draft method
    (combines_default combines rule)) id.

(** Rebuilds a stored promotion, no event raised. *)
Definition Promotion_reconstitute (id name : string) (rule : PromotionRule) (schedule : PromotionSchedule)
    (eligibility : CustomerEligibility) (campaignRef : option string) (usageLimit : option Z)
    (usageCount : Z) (status : PromotionStatusValue) (version : Z) (method : option DiscountMethod)
    (combines : option CombinesWith) : Promotion :=
  new_agg_at (mkPromotion name rule schedule eligibility campaignRef usageLimit usageCount status
    method (combines_default combines rule)) id version.

Definition with_status (s : PromotionStatusValue) (p : PromotionProps) : PromotionProps :=
  mkPromotion (pr_name p) (pr_rule p) (pr_schedule p) (pr_eligibility p) (pr_campaignRef p)
    (pr_usageLimit p) (pr_usageCount p) s (pr_method p) (pr_combinesWith p).
Definition with_usageCount (n : Z) (p : PromotionProps) : PromotionProps :=
  mkPromotion (pr_name p) (pr_rule p) (pr_schedule p) (pr_eligibility p) (pr_campaignRef p)
    (pr_usageLimit p) n (pr_status p) (pr_method p) (pr_combinesWith p).

Definition discountClass (p : PromotionProps) : DiscountClass := discountClassOf (pr_rule p).

Definition transition (toStatus : PromotionStatusValue) (eid : string) (at_ : Z) : PromoM unit :=
  p ← gets agg_props;
  throw_if (negb (canTransitionPromotion (pr_status p) toStatus))
    (BusinessRuleError ("Cannot transition promotion from " +:+ quoted (status_name (pr_status p)) +:+
      " to " +:+ quoted (status_name toStatus)));;
  set_props (with_status toStatus);;
  addDomainEvent eid at_ (mkPromotionTransitioned (pr_name p) (pr_status p) toStatus).

Definition scheduleActivation (eid : string) (at_ : Z) : PromoM unit := transition scheduled eid at_.
Definition activate (eid : string) (at_ : Z) : PromoM unit := transition active eid at_.
Definition pause (eid : string) (at_ : Z) : PromoM unit := transition paused eid at_.
Definition resume (eid : string) (at_ : Z) : PromoM unit := transition active eid at_.
Definition expire (eid : string) (at_ : Z) : PromoM unit := transition expired eid at_.
Definition cancel (eid : string) (at_ : Z) : PromoM unit := transition cancelled eid at_.
Definition archive (eid : string) (at_ : Z) : PromoM unit := transition archived eid at_.

(** [usageLimit !== undefined && usageCount >= usageLimit] *)
Definition limit_spent (p : PromotionProps) : bool :=
  match pr_usageLimit p with Some limit => bool_decide (limit <= pr_usageCount p) | None => false end.

Definition recordUsage (eid : string) (at_ : Z) : PromoM unit :=
  set_props (fun p => with_usageCount (pr_usageCount p + 1) p);;
  p ← gets agg_props;
  if limit_spent p then transition depleted eid at_ else mret tt.

Record PromotionChanges := mkChanges {
  ch_name : string; ch_rule : PromotionRule; ch_schedule : PromotionSchedule;
  ch_eligibility : CustomerEligibility; ch_usageLimit : option Z; ch_combinesWith : CombinesWith }.

Definition update (c : PromotionChanges) : PromoM unit :=
  p ← gets agg_props;
  throw_if (bool_decide (pr_status p = archived)) (BusinessRuleError "An archived discount cannot be edited");;
  throw_if (negb (bool_decide (rl_type (ch_rule c) = rl_type (pr_rule p))) ||
            negb (bool_decide (discountClassOf (ch_rule c) = discountClass p)))
    (BusinessRuleError "A discount's type cannot be changed");;
  set_props (fun p => mkPromotion (ch_name c) (ch_rule c) (ch_schedule c) (ch_eligibility c)
    (pr_campaignRef p) (ch_usageLimit c) (pr_usageCount p) (pr_status p) (pr_method p) (ch_combinesWith c)).

Inductive PromotionView := v_active | v_scheduled | v_expired | v_archived.

Definition viewAt (p : PromotionProps) (now : Z) : PromotionView :=
  match pr_status p with
  | archived => v_archived
  | active | scheduled =>
      if isExpiredAt (pr_schedule p) now then v_expired
      else if bool_decide (now < sd_startsAt (pr_schedule p)) then v_scheduled
      else match pr_status p with active => v_active | _ => v_scheduled end
  | _ => v_expired
  end.

(** One operation of a use case, and the sequences of them that do not throw. *)
Inductive PromoOp :=
| op_transition (to : PromotionStatusValue) (eid : string) (at_ : Z)
| op_recordUsage (eid : string) (at_ : Z)
| op_update (changes : PromotionChanges).

Definition promo_exec (op : PromoOp) : PromoM unit :=
  match op with
  | op_transition to eid at_ => transition to eid at_
  | op_recordUsage eid at_ => recordUsage eid at_
  | op_update changes => update changes
  end.

Definition status_step (from to : PromotionStatusValue) : Prop := canTransitionPromotion from to = true.
Definition is_usage (op : PromoOp) : bool := match op with op_recordUsage _ _ => true | _ => false end.
Definition is_update (op : PromoOp) : bool := match op with op_update _ => true | _ => false end.
Definition usages (ops : list PromoOp) : Z := sumZ (fun op => if is_usage op then 1 else 0) ops.

(** ** What each operation changes *)

Lemma transition_inv to eid at_ (a a' : Promotion) u :
  transition to eid at_ a = (Ok u, a') ->
  agg_props a' = with_status to (agg_props a) /\ status_step (pr_status (agg_props a)) to.
Proof.
  unfold transition, status_step. intros H. agg_inv. done.
Qed.

Lemma recordUsage_inv eid at_ (a a' : Promotion) u :
  recordUsage eid at_ a = (Ok u, a') ->
  let p := agg_props a in
  let q := with_usageCount (pr_usageCount p + 1) p in
  agg_props a' = q /\ limit_spent q = false \/
  agg_props a' = with_status depleted q /\ limit_spent q = true /\ pr_status p = active.
Proof.
  unfold recordUsage. intros H. agg_inv. destruct (limit_spent _) eqn:E; agg_inv; [right|by left].
  apply transition_inv in H as [-> Hs]. split_and!; [done|done|]. cbn in Hs.
  by destruct (pr_status (agg_props a)).
Qed.

Lemma update_inv c (a a' : Promotion) u :
  update c a = (Ok u, a') ->
  let p := agg_props a in
  pr_status p <> archived /\ rl_type (ch_rule c) = rl_type (pr_rule p) /\
  discountClassOf (ch_rule c) = discountClass p /\
  agg_props a' = mkPromotion (ch_name c) (ch_rule c) (ch_schedule c) (ch_eligibility c) (pr_campaignRef p)
    (ch_usageLimit c) (pr_usageCount p) (pr_status p) (pr_method p) (ch_combinesWith c).
Proof.
  unfold update. intros H. agg_inv. done.
Qed.

(** Below its limit, or exactly at it and no longer in use. *)
Definition capped (limit : Z) (p : PromotionProps) : Prop :=
  pr_usageLimit p = Some limit /\
  (pr_usageCount p < limit \/ pr_usageCount p = limit /\ (pr_status p = depleted \/ pr_status p = archived)).

(** What holds between a promotion before and after one operation. *)
Record promo_step (op : PromoOp) (p q : PromotionProps) : Prop := {
  ps_type : rl_type (pr_rule q) = rl_type (pr_rule p);
  ps_class : discountClass q = discountClass p;
  ps_method : pr_method q = pr_method p;
  ps_count : pr_usageCount q = pr_usageCount p + if is_usage op then 1 else 0;
  ps_status : rtc status_step (pr_status p) (pr_status q);
  ps_rule : is_update op = false -> pr_rule q = pr_rule p;
  ps_archived : pr_status p = archived -> is_update op = false;
  ps_capped : is_update op = false -> forall limit, capped limit p -> capped limit q
}.

Lemma promo_exec_step op (a a' : Promotion) u :
  promo_exec op a = (Ok u, a') -> promo_step op (agg_props a) (agg_props a').
Proof.
  destruct op as [to eid at_|eid at_|c]; cbn; intros H.
  - apply transition_inv in H as [-> Hs]. split; cbn; try done; [lia|by apply rtc_once|].
    intros _ limit [Hl [Hc|(Hc & Hd)]]; (split; [done|]); cbn; [by left|right]. split; [done|right].
    destruct Hd as [Hd|Hd]; rewrite Hd in Hs; by destruct to.
  - apply recordUsage_inv in H as [[-> Hl]|(-> & Hl & Hs)]; split; cbn; try done.
    + intros _ limit [HL _]. split; [done|left]. unfold limit_spent in Hl. cbn in *. rewrite HL in Hl.
      apply bool_decide_eq_false in Hl. lia.
    + apply rtc_once. by rewrite Hs.
    + intros _ limit [HL Hc]. split; [done|right]. unfold limit_spent in Hl. cbn in *. rewrite HL in Hl.
      apply bool_decide_eq_true in Hl. split; [|by left]. rewrite Hs in Hc. destruct Hc as [?|(? & [?|?])]; [lia|done|done].
  - apply update_inv in H as (Hs & Ht & Hc & ->). split; cbn; try done; lia.
Qed.

Definition unedited (ops : list PromoOp) : Prop := forall op, op ∈ ops -> is_update op = false.

Lemma rtc_archived s t : s = archived -> rtc status_step s t -> t = archived.
Proof. intros Hs H. induction H as [|s t w Hst _ IH]; [done|]. apply IH. subst. by destruct t. Qed.

Lemma run_promo ops (a a' : Promotion) u :
  run_ops promo_exec ops a = (Ok u, a') ->
  let p := agg_props a in
  let q := agg_props a' in
  rl_type (pr_rule q) = rl_type (pr_rule p) /\ discountClass q = discountClass p /\
  pr_method q = pr_method p /\ rtc status_step (pr_status p) (pr_status q) /\
  pr_usageCount q = pr_usageCount p + usages ops /\
  (unedited ops -> forall limit, capped limit p -> capped limit q) /\
  (pr_status p = archived -> unedited ops /\ pr_rule q = pr_rule p).
Proof.
  revert a. induction ops as [|op ops IH]; intros a H; cbn in H; minv.
  { assert (unedited []) by (intros op ?%elem_of_nil; done). cbv zeta. unfold usages. rewrite sumZ_nil.
    split_and!; (done || lia). }
  apply promo_exec_step in Hcall as [S1 S2 S3 S4 S5 S6 S7 S8].
  destruct (IH _ H) as (H1 & H2 & H3 & H4 & H5 & H6 & H7). cbv zeta. unfold usages in *.
  rewrite H1, H2, H3, H5, sumZ_cons, S4. split_and!; try done; [by etrans|lia| |].
  - intros Ho limit Hc. apply H6; [intros op' ?; apply Ho; by right|]. apply S8; [apply Ho; left|done].
  - intros Hs. destruct (H7 (rtc_archived _ _ Hs S5)) as [Hu Hr]. split; [|rewrite Hr; auto].
    intros op' [->|Hin]%elem_of_cons; auto.
Qed.

(** ** Properties *)

(** A promotion's life. Over any operations that succeed, its type and class and its method never
    change, its status follows the table, its usage count is what it was plus the usages recorded, and,
    starting below its usage limit, while nobody edits it the count never passes the limit. An archived
    promotion is never edited, nor brought back. *)
Theorem promotion_lifecycle ops (a a' : Promotion) u :
  run_ops promo_exec ops a = (Ok u, a') ->
  let p := agg_props a in
  let q := agg_props a' in
  rl_type (pr_rule q) = rl_type (pr_rule p) /\ discountClass q = discountClass p /\
  pr_method q = pr_method p /\ rtc status_step (pr_status p) (pr_status q) /\
  pr_usageCount q = pr_usageCount p + usages ops /\
  (unedited ops -> forall limit, pr_usageLimit p = Some limit -> pr_usageCount p < limit ->
     pr_usageLimit q = Some limit /\ pr_usageCount q <= limit) /\
  (pr_status p = archived -> pr_status q = archived /\ unedited ops /\ pr_rule q = pr_rule p).
Proof.
  intros H p q. destruct (run_promo ops a a' u H) as (H1 & H2 & H3 & H4 & H5 & H6 & H7).
  split_and!; try done.
  - intros Ho limit Hl Hc. destruct (H6 Ho limit) as [Hq Hd]; [by split; [|left]|]. fold q in Hq, Hd. split; [done|lia].
  - intros Hs. split; [|by apply H7]. apply (rtc_archived (pr_status p)); [by rewrite Hs|done].
Qed.

(** A promotion in use that is not [active] cannot spend its last use. At one use below the limit,
    recording a usage throws from every status but [active], so the use case reports an error and
    saves nothing: the count stays where it was, below the limit. *)
Theorem last_usage_needs_active_status (a : Promotion) limit eid at_ :
  pr_usageLimit (agg_props a) = Some limit -> pr_usageCount (agg_props a) + 1 = limit ->
  (exists a', recordUsage eid at_ a = (Ok tt, a') /\ pr_status (agg_props a') = depleted /\
     pr_usageCount (agg_props a') = limit) <-> pr_status (agg_props a) = active.
Proof.
  intros Hl Hc. unfold recordUsage, limit_spent, transition, throw_if, gets, mbind, M_bind. cbn.
  rewrite Hl, bool_decide_true by lia. cbn. split.
  - intros (a' & H & _). destruct (pr_status (agg_props a)) eqn:E; try done; by vm_compute in H.
  - intros E. rewrite E. eexists. split; [reflexivity|]. done.
Qed.

Definition spring_rule : PromotionRule :=
  mkRule rt_automatic (mkCondition sc_cart [] None None)
    (mkReward rw_percentage (Some 10%Q) None None None None None None None None) true 0.
Definition spring_sale (s : PromotionStatusValue) (limit : option Z) (count : Z) : Promotion :=
  new_agg (mkPromotion "Spring" spring_rule (mkSchedule 0 None) everyone None limit count s
    (Some m_automatic) COMBINES_WITH_EVERYTHING) "p1".

Lemma last_usage_needs_active_status_witness :
  ~ exists a', recordUsage "e1" 5 (spring_sale scheduled (Some 1) 0) = (Ok tt, a') /\
      pr_status (agg_props a') = depleted /\ pr_usageCount (agg_props a') = 1.
Proof.
  intros H. apply (last_usage_needs_active_status (spring_sale scheduled (Some 1) 0) 1 "e1" 5 eq_refl eq_refl) in H.
  discriminate H.
Defined.

Lemma promotion_lifecycle_witness :
  let ops := [op_transition active "e1" 1; op_recordUsage "e2" 2; op_recordUsage "e3" 3] in
  let q := agg_props (snd (run_ops promo_exec ops (spring_sale draft (Some 2) 0))) in
  pr_status q = depleted /\ pr_usageCount q = 2 /\ pr_usageCount q <= 2.
Proof.
  split; [by vm_compute|]. split; [by vm_compute|].
  apply (promotion_lifecycle [op_transition active "e1" 1; op_recordUsage "e2" 2; op_recordUsage "e3" 3]
    (spring_sale draft (Some 2) 0) _ tt); [by vm_compute| |done|by vm_compute].
  intros op Hop. repeat (apply elem_of_cons in Hop as [->|Hop]; [done|]). by apply elem_of_nil in Hop.
Defined.
