(* ===== verification/Discounts.v ===== *)
(** The discount calculation of the Promotions context:
    [services/promotions/src/domain/discount-calculator.ts]. Which of the candidate discounts a cart
    gets, and how much each takes off which line. Amounts are integer minor units; the fraction by
    which leftover units are allotted is compared exactly, as a remainder. *)
From Stdlib Require Import QArith Qround.
From S2P Require Import Prelude Kernel Promotions.

#[global] Open Scope Z_scope.

(** ** Inputs and outputs *)

Inductive DiscountRejection :=
| rj_not_found | rj_expired | rj_not_started | rj_minimum_not_met | rj_no_matching_items
| rj_not_eligible | rj_usage_limit_reached | rj_already_used | rj_cannot_combine | rj_too_many_codes.
#[export] Instance DiscountRejection_eq_dec : EqDecision DiscountRejection.
Proof. solve_decision. Defined.

Definition MAX_DISCOUNT_CODES : nat := 5.

Definition normalizeDiscountCode (code : string) : string := toUpperCase (trim code).

Record DiscountLine := mkLine {
  ln_lineRef : string; ln_productRef : string; ln_categoryRefs : list string;
  ln_quantity : Z; ln_unitPriceMinor : Z }.
Record DiscountShipping := mkShipping { sp_countryCode : string; sp_rateMinor : Z }.
Record DiscountCustomer := mkCustomer { cu_customerRef : option string; cu_email : option string }.

Inductive CouponStatus := cs_active | cs_disabled | cs_expired | cs_depleted.
Record Redemption := mkRedemption { rd_customerRef : string; rd_email : option string }.
Record CouponState := mkCoupon {
  cp_couponId : string; cp_code : string; cp_status : CouponStatus; cp_usageLimit : option Z;
  cp_usageCount : Z; cp_oncePerCustomer : bool; cp_assignedCustomerRef : option string;
  cp_expiresAt : option Z; cp_redemptions : list Redemption }.

Record DiscountCandidate := mkCandidate { cn_promotion : Promotion; cn_coupon : option CouponState }.

Record CalculateDiscountsInput := mkDiscountsInput {
  di_lines : list DiscountLine; di_shipping : option DiscountShipping; di_customer : DiscountCustomer;
  di_enteredCodes : list string; di_candidates : list DiscountCandidate; di_now : Z }.

Record AppliedDiscount := mkApplied {
  ap_promotionId : string; ap_couponId : option string; ap_code : option string; ap_title : string;
  ap_discountClass : DiscountClass; ap_amountMinor : Z }.
Record DiscountCodeStatus := mkCodeStatus {
  st_code : string; st_applicable : bool; st_reason : option DiscountRejection }.
Record DiscountResult := mkDiscountResult {
  dr_applied : list AppliedDiscount; dr_orderDiscountMinor : Z; dr_shippingDiscountMinor : Z;
  dr_codeStatuses : list DiscountCodeStatus; dr_lineAllocations : list (string * Z) }.

Record Eligible := mkEligible {
  eg_candidate : DiscountCandidate; eg_promotionId : string; eg_code : option string;
  eg_discountClass : DiscountClass; eg_combinesWith : CombinesWith }.

Definition promo_props (c : DiscountCandidate) : PromotionProps := agg_props (cn_promotion c).

Definition CLASS_ORDER (c : DiscountClass) : Z :=
  match c with c_product => 0 | c_order => 1 | c_shipping => 2 end.
Definition EXHAUSTIVE_LIMIT : nat := 10.

(** ** Amounts *)

(** [Math.round(q)] *)
Definition math_round (q : Q) : Z := Qfloor (q + (1 # 2))%Q.

Definition percentOf (amountMinor : Z) (percentage : Q) : Z :=
  (amountMinor * math_round (percentage * 100)%Q) / 10000.

Definition lineTotal (l : DiscountLine) : Z := ln_unitPriceMinor l * ln_quantity l.

Definition matchingLines (lines : list DiscountLine) (scope : PromotionScope) (targetRefs : list string) :
    list DiscountLine :=
  if bool_decide (scope = sc_cart) || bool_decide (length targetRefs = 0%nat) then lines
  else if bool_decide (scope = sc_product) then filter (fun l => ln_productRef l ∈ targetRefs) lines
  else filter (fun l => existsb (fun ref => bool_decide (ref ∈ targetRefs)) (ln_categoryRefs l) = true) lines.

(** ** Why a candidate gives nothing *)

Definition usedBy (coupon : CouponState) (customer : DiscountCustomer) : bool :=
  let email := toLowerCase <$> cu_email customer in
  existsb (fun r =>
    match cu_customerRef customer with Some c => bool_decide (rd_customerRef r = c) | None => false end ||
    match email, rd_email r with
    | Some e, Some e' => bool_decide (toLowerCase e' = e)
    | _, _ => false
    end) (cp_redemptions coupon).

Definition free_shipping_refused (reward : PromotionReward) (shipping : option DiscountShipping) : bool :=
  match shipping with
  | Some s =>
      bool_decide (rw_type reward = rw_free_shipping) &&
      (match rw_countries reward with
       | Some cs => negb (existsb (fun c => bool_decide (toUpperCase c = toUpperCase (sp_countryCode s))) cs)
       | None => false
       end ||
       match rw_maxShippingRateMinor reward with
       | Some n => bool_decide (n < sp_rateMinor s)
       | None => false
       end)
  | None => false
  end.

Definition below (minimum : option Z) (value : Z) : bool :=
  match minimum with Some m => bool_decide (value < m) | None => false end.

Definition buy_x_get_y_rejection (p : PromotionProps) (matched lines : list DiscountLine) :
    option DiscountRejection :=
  match rw_buys (rl_reward (pr_rule p)), rw_gets (rl_reward (pr_rule p)) with
  | Some buys, Some gets =>
      if bool_decide (length matched = 0%nat) ||
         bool_decide (length (matchingLines lines (gt_scope gets) (gt_targetRefs gets)) = 0%nat)
      then Some rj_no_matching_items
      else
        let bought := match by_kind buys with
          | by_quantity => sumZ ln_quantity matched
          | by_amount => sumZ lineTotal matched
          end in
        if bool_decide (bought < by_value buys) then Some rj_minimum_not_met else None
  | _, _ => Some rj_no_matching_items
  end.

Definition requirementRejection (p : PromotionProps) (x : CalculateDiscountsInput) :
    option DiscountRejection :=
  let rule := pr_rule p in
  let condition := rl_condition rule in
  let matched := matchingLines (di_lines x) (cd_scope condition) (cd_targetRefs condition) in
  if free_shipping_refused (rl_reward rule) (di_shipping x) then Some rj_not_eligible
  else if bool_decide (rl_type rule = rt_buy_x_get_y) then buy_x_get_y_rejection p matched (di_lines x)
  else if bool_decide (discountClass p = c_product) && bool_decide (length matched = 0%nat)
  then Some rj_no_matching_items
  else
    let base := if bool_decide (discountClass p = c_product) then matched else di_lines x in
    if below (cd_minimumSubtotalAmountMinor condition) (sumZ lineTotal base) ||
       below (cd_minimumQuantity condition) (sumZ ln_quantity base)
    then Some rj_minimum_not_met else None.

Definition coupon_rejection (c : CouponState) (now : Z) : option DiscountRejection :=
  match cp_status c with
  | cs_disabled => Some rj_not_found
  | cs_expired => Some rj_expired
  | cs_depleted => Some rj_usage_limit_reached
  | cs_active =>
      match cp_expiresAt c with
      | Some e => if bool_decide (e <= now) then Some rj_expired else None
      | None => None
      end
  end.

Definition status_rejection (s : PromotionStatusValue) : option DiscountRejection :=
  match s with
  | draft | cancelled | archived => Some rj_not_found
  | paused | expired => Some rj_expired
  | depleted => Some rj_usage_limit_reached
  | active | scheduled => None
  end.

Definition schedule_rejection (s : PromotionSchedule) (now : Z) : option DiscountRejection :=
  if bool_decide (now < sd_startsAt s) then Some rj_not_started
  else if isExpiredAt s now then Some rj_expired else None.

Definition eligibility_rejection (e : CustomerEligibility) (coupon : option CouponState)
    (customer : DiscountCustomer) : option DiscountRejection :=
  let restricted := negb (bool_decide (el_customerRefs e = None) && bool_decide (el_segmentRefs e = None)) in
  let listed := match cu_customerRef customer, el_customerRefs e with
    | Some ref, Some refs => bool_decide (ref ∈ refs)
    | _, _ => false
    end in
  if restricted && negb listed then Some rj_not_eligible
  else match cp_assignedCustomerRef <$> coupon with
       | Some (Some assigned) =>
           if bool_decide (cu_customerRef customer = Some assigned) then None else Some rj_not_eligible
       | _ => None
       end.

Definition limit_reached (limit : option Z) (count : Z) : bool :=
  match limit with Some l => bool_decide (l <= count) | None => false end.

Definition usage_rejection (p : PromotionProps) (coupon : option CouponState) (customer : DiscountCustomer) :
    option DiscountRejection :=
  if limit_reached (pr_usageLimit p) (pr_usageCount p) then Some rj_usage_limit_reached
  else match coupon with
       | Some c =>
           if limit_reached (cp_usageLimit c) (cp_usageCount c) then Some rj_usage_limit_reached
           else if cp_oncePerCustomer c && usedBy c customer then Some rj_already_used else None
       | None => None
       end.

(** The first of a sequence of checks that rejects. *)
Fixpoint first_some {A} (l : list (option A)) : option A :=
  match l with
  | [] => None
  | Some a :: _ => Some a
  | None :: l' => first_some l'
  end.

Definition rejectionFor (c : DiscountCandidate) (x : CalculateDiscountsInput) : option DiscountRejection :=
  let p := promo_props c in
  first_some
    [ cn_coupon c ≫= fun coupon => coupon_rejection coupon (di_now x);
      status_rejection (pr_status p);
      schedule_rejection (pr_schedule p) (di_now x);
      eligibility_rejection (pr_eligibility p) (cn_coupon c) (di_customer x);
      usage_rejection p (cn_coupon c) (di_customer x);
      requirementRejection p x ].

(** ** Splitting an amount over lines *)

Record Share := mkShare { sh_ref : string; sh_index : nat; sh_value : Z; sh_fraction : Z }.

Definition shares_of (total sum : Z) (base : list (string * Z)) : list Share :=
  imap (fun i b => mkShare b.1 i (total * b.2 / sum) ((total * b.2) mod sum)) base.

(** The largest fractions first; [sort] is stable, so ties keep the line order. *)
Definition by_fraction (shares : list Share) : list Share :=
  sort_by (fun a b => sh_fraction b <=? sh_fraction a) shares.

Definition allocate (total : Z) (base : list (string * Z)) : jsmap :=
  let sum := sumZ snd base in
  if bool_decide (total <= 0) || bool_decide (sum <= 0) then map_of ((fun b => (b.1, 0)) <$> base)
  else
    let shares := shares_of total sum base in
    let left := total - sumZ sh_value shares in
    let bumped := sh_index <$> take (Z.to_nat left) (by_fraction shares) in
    map_of ((fun s => (sh_ref s, sh_value s + if bool_decide (sh_index s ∈ bumped) then 1 else 0)) <$> shares).

(** ** Buy X get Y *)

Abbreviation Unit_ := (string * Z)%type.
Definition units_of (lines : list DiscountLine) (remaining : jsmap) : list Unit_ :=
  lines ≫= fun l =>
    replicate (Z.to_nat (ln_quantity l)) (ln_lineRef l, map_get0 (ln_lineRef l) remaining / ln_quantity l).

Definition unit_ref (units : list Unit_) (i : nat) : string :=
  match units !! i with Some u => u.1 | None => EmptyString end.
Definition unit_price (units : list Unit_) (i : nat) : Z :=
  match units !! i with Some u => u.2 | None => 0 end.

Definition gets_order (units : list Unit_) (getsRefs : list string) : list nat :=
  sort_by (fun a b => unit_price units a <=? unit_price units b)
    (filter (fun i => unit_ref units i ∈ getsRefs) (seq 0 (length units))).
Definition buys_order (units : list Unit_) (buysRefs : list string) : list nat :=
  sort_by (fun a b => unit_price units b <=? unit_price units a)
    (filter (fun i => unit_ref units i ∈ buysRefs) (seq 0 (length units))).

(** [while (uses < maxUses)]. Each turn uses at least one buying unit when [buysValue] is positive, so
    [length units + 1] turns are enough. *)
Fixpoint bxgy_loop (fuel : nat) (buysOrder getsOrder : list nat) (buysValue getsQuantity : nat)
    (maxUses : option Z) (uses : Z) (used got : list nat) : list nat :=
  match fuel with
  | O => got
  | S fuel' =>
      if match maxUses with Some m => bool_decide (m <= uses) | None => false end then got
      else
        let bought := take buysValue (filter (fun i => i ∉ used) buysOrder) in
        if bool_decide (length bought < buysValue)%nat then got
        else
          let used1 := used ++ bought in
          let free := take getsQuantity (filter (fun i => i ∉ used1) getsOrder) in
          if bool_decide (length free < getsQuantity)%nat then got
          else bxgy_loop fuel' buysOrder getsOrder buysValue getsQuantity maxUses (uses + 1)
                 (used1 ++ free) (got ++ free)
  end.

Definition got_units (units : list Unit_) (lines : list DiscountLine) (remaining : jsmap)
    (buysRefs getsRefs : list string) (buys : BuyXGetYBuys) (gets : BuyXGetYGets) (maxUses : option Z) :
    list nat :=
  let getsOrder := gets_order units getsRefs in
  let quantity := Z.to_nat (gt_quantity gets) in
  match by_kind buys with
  | by_amount =>
      let free := take quantity getsOrder in
      let freeAmountFromBuys :=
        sumZ (unit_price units) (filter (fun i => unit_ref units i ∈ buysRefs) free) in
      let bought :=
        sumZ (fun l => map_get0 (ln_lineRef l) remaining) (filter (fun l => ln_lineRef l ∈ buysRefs) lines)
        - freeAmountFromBuys in
      if bool_decide (by_value buys <= bought) &&
         match maxUses with Some m => bool_decide (1 <= m) | None => true end &&
         bool_decide (length free = quantity)
      then free else []
  | by_quantity =>
      bxgy_loop (S (length units)) (buys_order units buysRefs) getsOrder (Z.to_nat (by_value buys))
        quantity maxUses 0 [] []
  end.

Definition unit_off (units : list Unit_) (gets : BuyXGetYGets) (i : nat) : Z :=
  match gt_effect gets with
  | eff_free => unit_price units i
  | eff_percentage v => percentOf (unit_price units i) v
  end.

Definition buyXGetYDiscounts (p : PromotionProps) (lines : list DiscountLine) (remaining : jsmap) : jsmap :=
  let rule := pr_rule p in
  match rw_buys (rl_reward rule), rw_gets (rl_reward rule) with
  | Some buys, Some gets =>
      let condition := rl_condition rule in
      let buysRefs := ln_lineRef <$> matchingLines lines (cd_scope condition) (cd_targetRefs condition) in
      let getsRefs := ln_lineRef <$> matchingLines lines (gt_scope gets) (gt_targetRefs gets) in
      let units := units_of lines remaining in
      let got := got_units units lines remaining buysRefs getsRefs buys gets
        (rw_maxUsesPerOrder (rl_reward rule)) in
      let result := foldl (fun m i =>
        map_set (unit_ref units i) (map_get0 (unit_ref units i) m + unit_off units gets i) m) [] got in
      (fun kv => (kv.1, Z.min kv.2 (map_get0 kv.1 remaining))) <$> result
  | _, _ => []
  end.

(** ** What one product or order discount takes off each line *)

Definition lineDiscounts (p : PromotionProps) (lines : list DiscountLine) (remaining : jsmap) : jsmap :=
  let rule := pr_rule p in
  if bool_decide (rl_type rule = rt_buy_x_get_y) then buyXGetYDiscounts p lines remaining
  else
    let isProduct := bool_decide (discountClass p = c_product) in
    let condition := rl_condition rule in
    let targets :=
      if isProduct then matchingLines lines (cd_scope condition) (cd_targetRefs condition) else lines in
    let base := (fun l => (ln_lineRef l, map_get0 (ln_lineRef l) remaining)) <$> targets in
    let total := sumZ snd base in
    let value := default 0%Q (rw_value (rl_reward rule)) in
    if bool_decide (rw_type (rl_reward rule) = rw_percentage) then
      if isProduct then map_of ((fun b => (b.1, percentOf b.2 value)) <$> base)
      else allocate (percentOf total value) base
    else if isProduct && negb (bool_decide (rw_appliesOncePerOrder (rl_reward rule) = Some true)) then
      map_of ((fun l => (ln_lineRef l,
        Z.min (map_get0 (ln_lineRef l) remaining) (Qfloor value * ln_quantity l))) <$> targets)
    else allocate (Z.min (Qfloor value) total) base.

(** ** Applying a set of discounts: product, then order, then shipping *)

Definition before (a b : Eligible) : bool :=
  (CLASS_ORDER (eg_discountClass a) <? CLASS_ORDER (eg_discountClass b)) ||
  ((CLASS_ORDER (eg_discountClass a) =? CLASS_ORDER (eg_discountClass b)) &&
   string_le (eg_promotionId a) (eg_promotionId b)).

Record Cart := mkCartState {
  ct_remaining : jsmap; ct_allocations : jsmap; ct_shippingLeft : Z; ct_applied : list AppliedDiscount }.

(** [remaining.set(...); allocations.set(...); amount += off], skipping what takes nothing off. *)
Definition take_off (acc : jsmap * jsmap * Z) (kv : string * Z) : jsmap * jsmap * Z :=
  let '(remaining, allocations, amount) := acc in
  if bool_decide (kv.2 <= 0) then acc
  else (map_set kv.1 (map_get0 kv.1 remaining - kv.2) remaining,
        map_set kv.1 (map_get0 kv.1 allocations + kv.2) allocations, amount + kv.2).

Definition applied_of (e : Eligible) (amount : Z) : AppliedDiscount :=
  mkApplied (eg_promotionId e) (cp_couponId <$> cn_coupon (eg_candidate e)) (eg_code e)
    (pr_name (promo_props (eg_candidate e))) (eg_discountClass e) amount.

Definition apply_entry (lines : list DiscountLine) (c : Cart) (e : Eligible) : Cart :=
  if bool_decide (eg_discountClass e = c_shipping) then
    mkCartState (ct_remaining c) (ct_allocations c) 0 (ct_applied c ++ [applied_of e (ct_shippingLeft c)])
  else
    let '(remaining, allocations, amount) :=
      foldl take_off (ct_remaining c, ct_allocations c, 0)
        (lineDiscounts (promo_props (eg_candidate e)) lines (ct_remaining c)) in
    mkCartState remaining allocations (ct_shippingLeft c) (ct_applied c ++ [applied_of e amount]).

Definition start_cart (x : CalculateDiscountsInput) : Cart :=
  mkCartState (map_of ((fun l => (ln_lineRef l, lineTotal l)) <$> di_lines x)) []
    match di_shipping x with Some s => sp_rateMinor s | None => 0 end [].

Definition applySet (set : list Eligible) (x : CalculateDiscountsInput) : Cart :=
  foldl (apply_entry (di_lines x)) (start_cart x) (sort_by before set).

Definition saving (c : Cart) : Z := sumZ ap_amountMinor (ct_applied c).

(** ** Choosing the set *)

Fixpoint isCompatible (set : list Eligible) : bool :=
  match set with
  | [] => true
  | e :: set' =>
      forallb (fun f => canCombine (eg_discountClass e, eg_combinesWith e) (eg_discountClass f, eg_combinesWith f)) set'
      && isCompatible set'
  end.

Definition codes_in (set : list Eligible) : nat := length (filter (fun e => eg_code e <> None) set).
Definition set_key (set : list Eligible) : string := join "|" (sort_by string_le (eg_promotionId <$> set)).

Definition isBetter (x : CalculateDiscountsInput) (a b : list Eligible) : bool :=
  let ta := saving (applySet a x) in
  let tb := saving (applySet b x) in
  if bool_decide (ta = tb) then
    if bool_decide (codes_in a = codes_in b) then String.ltb (set_key a) (set_key b)
    else bool_decide (codes_in b < codes_in a)%nat
  else bool_decide (tb < ta).

(** [eligible.filter((_, i) => (mask & (1 << i)) !== 0)] *)
Fixpoint subset_from (i : nat) (eligible : list Eligible) (mask : nat) : list Eligible :=
  match eligible with
  | [] => []
  | e :: l => if Nat.testbit mask i then e :: subset_from (S i) l mask else subset_from (S i) l mask
  end.
Definition subset : list Eligible -> nat -> list Eligible := subset_from 0.

Definition try_mask (eligible : list Eligible) (x : CalculateDiscountsInput) (best : list Eligible) (mask : nat) :
    list Eligible :=
  if isCompatible (subset eligible mask) && isBetter x (subset eligible mask) best
  then subset eligible mask else best.

Definition bestSet (eligible : list Eligible) (x : CalculateDiscountsInput) : list Eligible :=
  if bool_decide (length eligible <= EXHAUSTIVE_LIMIT)%nat then
    foldl (try_mask eligible x) [] (seq 1 (2 ^ length eligible - 1))
  else
    foldl (fun set e => if isCompatible (set ++ [e]) then set ++ [e] else set) []
      (sort_by (fun a b => saving (applySet [b] x) <=? saving (applySet [a] x)) eligible).

(** ** The calculation *)

Definition entered (x : CalculateDiscountsInput) : list string :=
  filter (fun c => c <> EmptyString) (unique (normalizeDiscountCode <$> di_enteredCodes x)).
Definition active_codes (x : CalculateDiscountsInput) : list string := take MAX_DISCOUNT_CODES (entered x).

Definition code_of (c : DiscountCandidate) : option string :=
  (fun coupon => normalizeDiscountCode (cp_code coupon)) <$> cn_coupon c.

(** Whether the loop over the candidates looks at this one at all. *)
Definition considered (x : CalculateDiscountsInput) (c : DiscountCandidate) : bool :=
  match code_of c with
  | Some code => bool_decide (code ∈ active_codes x)
  | None => bool_decide (pr_method (promo_props c) = Some m_automatic)
  end.

Definition eligible_of (c : DiscountCandidate) : Eligible :=
  mkEligible c (agg_id (cn_promotion c)) (code_of c) (discountClass (promo_props c))
    (pr_combinesWith (promo_props c)).

Definition eligible_list (x : CalculateDiscountsInput) : list Eligible :=
  eligible_of <$> filter (fun c => rejectionFor c x = None)
    (filter (fun c => considered x c = true) (di_candidates x)).

(** The rejection recorded last for a code. *)
Definition rejection_of (x : CalculateDiscountsInput) (code : string) : option DiscountRejection :=
  foldl (fun acc c =>
    if considered x c && bool_decide (code_of c = Some code) then
      match rejectionFor c x with Some r => Some r | None => acc end
    else acc) None (di_candidates x).

Definition empty_codes (x : CalculateDiscountsInput) (applied : list AppliedDiscount) : list string :=
  applied ≫= fun a =>
    match ap_code a with
    | Some code =>
        if bool_decide (ap_amountMinor a = 0) &&
           (negb (bool_decide (ap_discountClass a = c_shipping)) || bool_decide (is_Some (di_shipping x)))
        then [code] else []
    | None => []
    end.

Definition code_status (x : CalculateDiscountsInput) (eligible : list Eligible)
    (emptyCodes chosenCodes : list string) (index : nat) (code : string) : DiscountCodeStatus :=
  if bool_decide (MAX_DISCOUNT_CODES <= index)%nat then mkCodeStatus code false (Some rj_too_many_codes)
  else if bool_decide (code ∈ emptyCodes) then mkCodeStatus code false (Some rj_no_matching_items)
  else if bool_decide (code ∈ chosenCodes) then mkCodeStatus code true None
  else match rejection_of x code with
       | Some r => mkCodeStatus code false (Some r)
       | None =>
           mkCodeStatus code false (Some
             (if existsb (fun e => bool_decide (eg_code e = Some code)) eligible then rj_cannot_combine
              else rj_not_found))
       end.

Definition kept (emptyCodes : list string) (a : AppliedDiscount) : bool :=
  match ap_code a with
  | None => bool_decide (0 < ap_amountMinor a)
  | Some code => negb (bool_decide (code ∈ emptyCodes))
  end.

Definition calculateDiscounts (x : CalculateDiscountsInput) : DiscountResult :=
  let eligible := eligible_list x in
  let set := bestSet eligible x in
  let best := applySet set x in
  let emptyCodes := empty_codes x (ct_applied best) in
  let chosenCodes := filter (fun c => c ∉ emptyCodes) (omap eg_code set) in
  let applied := filter (fun a => kept emptyCodes a = true) (ct_applied best) in
  mkDiscountResult applied
    (sumZ ap_amountMinor (filter (fun a => ap_discountClass a <> c_shipping) applied))
    (sumZ ap_amountMinor (filter (fun a => ap_discountClass a = c_shipping) applied))
    (imap (code_status x eligible emptyCodes chosenCodes) (entered x))
    (filter (fun a => 0 < a.2)
      ((fun l => (ln_lineRef l, map_get0 (ln_lineRef l) (ct_allocations best))) <$> di_lines x)).

(** ** The split of an amount *)

Lemma sumZ_const {A} (f : A -> Z) c l : (forall x, x ∈ l -> f x = c) -> sumZ f l = c * Z.of_nat (length l).
Proof.
  induction l as [|x l IH]; intros H; [by rewrite sumZ_nil; cbn; lia|].
  rewrite sumZ_cons, IH, (H x) by set_solver. cbn [length]. lia.
Qed.

Lemma sorted_take_pos {A} (f : A -> Z) l k :
  StronglySorted (fun a b => f b <= f a) l -> (k <= length (filter (fun x => (0 < f x)%Z) l))%nat ->
  forall x, x ∈ take k l -> 0 < f x.
Proof.
  intros Hs. revert k. induction Hs as [|y l Hs IH Hy]; intros [|k] Hk x Hx; try (by apply elem_of_nil in Hx).
  rewrite filter_cons in Hk. cbn in Hx. case_decide as Hp.
  - apply elem_of_cons in Hx as [->|Hx]; [done|]. apply (IH k); [cbn in Hk; lia|done].
  - assert (E : filter (fun x => (0 < f x)%Z) l = []).
    { destruct (filter _ l) as [|z l'] eqn:E; [done|].
      assert (Hz : z ∈ filter (fun x => (0 < f x)%Z) l) by (rewrite E; left).
      apply list_elem_of_filter in Hz as [? Hz]. rewrite Forall_forall in Hy. specialize (Hy z Hz). lia. }
    rewrite E in Hk. cbn in Hk. lia.
Qed.

Lemma sumZ_imap {A B} (g : B -> Z) (F : nat -> A -> B) (h : A -> Z) l :
  (forall i x, g (F i x) = h x) -> sumZ g (imap F l) = sumZ h l.
Proof.
  revert F. induction l as [|x l IH]; intros F H; [done|].
  rewrite imap_cons, !sumZ_cons, H, IH; [done|]. intros i y. apply H.
Qed.

Lemma sumZ_scale {A} (c : Z) (f : A -> Z) l : c * sumZ f l = sumZ (fun x => c * f x) l.
Proof. induction l as [|x l IH]; rewrite ?sumZ_nil, ?sumZ_cons; lia. Qed.

Section split.
Context (total : Z) (base : list (string * Z)).
Hypothesis Hamounts : forall b, b ∈ base -> 0 <= b.2.
Abbreviation sum := (sumZ snd base).
Hypothesis Htotal : 0 < total <= sum.
Abbreviation shares := (shares_of total sum base).

Lemma share_inv s :
  s ∈ shares -> exists a, base !! sh_index s = Some (sh_ref s, a) /\ 0 <= a /\
    total * a = sum * sh_value s + sh_fraction s /\ 0 <= sh_fraction s < sum.
Proof.
  intros Hs. unfold shares_of in Hs. apply list_elem_of_lookup in Hs as [i Hi].
  rewrite list_lookup_imap in Hi. destruct (base !! i) as [[r a]|] eqn:Hb; cbn in Hi; [|done].
  injection Hi as <-. cbn. exists a. split; [done|].
  split; [by apply (Hamounts (r, a)), (list_elem_of_lookup_2 _ i)|].
  split; [by apply Z.div_mod; lia|]. apply Z.mod_pos_bound. lia.
Qed.

Lemma shares_refs : sh_ref <$> shares = base.*1.
Proof.
  apply list_eq. intros i. unfold shares_of. rewrite !list_lookup_fmap, list_lookup_imap.
  by destruct (base !! i).
Qed.

Lemma shares_indices : sh_index <$> shares = seq 0 (length base).
Proof.
  apply list_eq. intros i. unfold shares_of. rewrite list_lookup_fmap, list_lookup_imap.
  destruct (base !! i) eqn:Hb; cbn.
  - symmetry. apply lookup_seq. apply lookup_lt_Some in Hb. lia.
  - symmetry. apply lookup_seq_ge. by apply lookup_ge_None in Hb.
Qed.

Abbreviation left_ := (total - sumZ sh_value shares).

Lemma shares_total : total * sum = sum * sumZ sh_value shares + sumZ sh_fraction shares.
Proof.
  unfold shares_of. rewrite (sumZ_imap sh_value _ (fun b => total * b.2 / sum)) by done.
  rewrite (sumZ_imap sh_fraction _ (fun b => (total * b.2) mod sum)) by done.
  rewrite !sumZ_scale, <- sumZ_add. apply sumZ_ext. intros b _. apply Z.div_mod. lia.
Qed.

Lemma left_bound :
  0 <= left_ /\ (Z.to_nat left_ <= length (filter (fun s => (0 < sh_fraction s)%Z) shares))%nat.
Proof.
  assert (Ht := shares_total).
  assert (Hf : forall s, s ∈ shares -> 0 <= sh_fraction s < sum) by (intros s (? & _ & _ & _ & ?)%share_inv; done).
  set (pos := filter (fun s => (0 < sh_fraction s)%Z) shares).
  assert (Hz : sumZ sh_fraction (filter (fun s => ~ (0 < sh_fraction s)%Z) shares) = 0).
  { rewrite (sumZ_const _ 0); [lia|]. intros s [? ?%Hf]%list_elem_of_filter. lia. }
  rewrite (sumZ_filter_split sh_fraction (fun s => (0 < sh_fraction s)%Z)), Hz in Ht. fold pos in Ht.
  assert (Hle : sumZ sh_fraction pos <= (sum - 1) * Z.of_nat (length pos)).
  { rewrite <- (sumZ_const (fun _ => sum - 1) (sum - 1) pos) by done.
    apply sumZ_mono. intros s [_ ?%Hf]%list_elem_of_filter. lia. }
  assert (Hge : 0 <= sumZ sh_fraction pos) by (apply sumZ_nonneg; intros s [? _]%list_elem_of_filter; lia).
  split; [nia|]. assert (left_ <= Z.of_nat (length pos)) by nia. lia.
Qed.

Lemma by_fraction_sorted l : StronglySorted (fun a b => sh_fraction b <= sh_fraction a) (by_fraction l).
Proof.
  apply sort_by_sorted.
  - intros x y H. by apply Z.leb_le.
  - intros x y H. apply Z.leb_gt in H. lia.
  - intros x y z. lia.
Qed.

Lemma by_fraction_perm l : by_fraction l ≡ₚ l.
Proof. apply sort_by_perm. Qed.

Abbreviation chosen := (take (Z.to_nat left_) (by_fraction shares)).
Abbreviation value s := (sh_value s + if bool_decide (sh_index s ∈ sh_index <$> chosen) then 1 else 0).

Lemma chosen_positive s : s ∈ chosen -> s ∈ shares /\ 0 < sh_fraction s.
Proof.
  intros Hs. split.
  - rewrite <- (by_fraction_perm shares). by eapply elem_of_take in Hs as (? & ?%list_elem_of_lookup_2 & _).
  - eapply sorted_take_pos; [apply by_fraction_sorted| |exact Hs].
    rewrite (by_fraction_perm shares). apply left_bound.
Qed.

Lemma same_index s s' : s ∈ shares -> s' ∈ shares -> sh_index s = sh_index s' -> s = s'.
Proof.
  intros [i Hi]%list_elem_of_lookup [j Hj]%list_elem_of_lookup He. assert (i = j); [|congruence].
  assert (Hn : NoDup (sh_index <$> shares)) by (rewrite shares_indices; apply NoDup_seq).
  eapply (NoDup_lookup _ i j (sh_index s) Hn); rewrite list_lookup_fmap, ?Hi, ?Hj; cbn; congruence.
Qed.

Lemma value_bounds_at s : s ∈ shares -> exists a, base !! sh_index s = Some (sh_ref s, a) /\ 0 <= value s <= a /\
  total * a - sum < sum * value s < total * a + sum.
Proof.
  intros Hs. destruct (share_inv s Hs) as (a & Hb & Ha & He & Hr). exists a. split; [done|].
  assert (0 <= sh_value s) by nia. assert (sh_value s <= a) by nia.
  case_bool_decide as Hc; [|split; lia].
  apply list_elem_of_fmap in Hc as (s' & Hi & Hs'). apply chosen_positive in Hs' as [Hs' Hp].
  rewrite (same_index s s' Hs Hs' Hi) in *. nia.
Qed.

Lemma value_bounds s : s ∈ shares -> exists a, (sh_ref s, a) ∈ base /\ 0 <= value s <= a /\
  total * a - sum < sum * value s < total * a + sum.
Proof.
  intros Hs. destruct (value_bounds_at s Hs) as (a & Hb & ?). exists a.
  split; [by eapply list_elem_of_lookup_2|done].
Qed.

Lemma value_total : sumZ (fun s => value s) shares = total.
Proof.
  rewrite (sumZ_add sh_value), <- (sumZ_perm (fun s => if bool_decide _ then 1 else 0) _ _ (by_fraction_perm shares)).
  assert (Hn : NoDup (sh_index <$> by_fraction shares)).
  { rewrite (by_fraction_perm shares), shares_indices. apply NoDup_seq. }
  set (bump s := if bool_decide (sh_index s ∈ sh_index <$> chosen) then 1 else 0).
  assert (Hs : sumZ bump (by_fraction shares) =
    sumZ bump chosen + sumZ bump (drop (Z.to_nat left_) (by_fraction shares))).
  { by rewrite <- sumZ_app, take_drop. }
  rewrite Hs. rewrite <- (take_drop (Z.to_nat left_) (by_fraction shares)), fmap_app in Hn.
  apply NoDup_app in Hn as (_ & Hn & _).
  rewrite (sumZ_const bump 1 chosen), (sumZ_const bump 0 (drop _ _)).
  - destruct left_bound as [H1 H2]. rewrite length_take.
    assert (Hl : length (by_fraction shares) = length shares) by by rewrite by_fraction_perm.
    assert (length (filter (fun s => (0 < sh_fraction s)%Z) shares) <= length shares)%nat by apply length_filter.
    rewrite Hl. lia.
  - intros s Hin'. unfold bump. rewrite bool_decide_false; [done|]. intros Hin. apply (Hn _ Hin). by apply list_elem_of_fmap_2.
  - intros s Hin'. unfold bump. rewrite bool_decide_true; [done|]. by apply list_elem_of_fmap_2.
Qed.
End split.

Lemma allocate_spec total base :
  NoDup base.*1 -> (forall b, b ∈ base -> 0 <= b.2) -> total <= sumZ snd base ->
  (allocate total base).*1 = base.*1 /\
  (forall k v, (k, v) ∈ allocate total base -> exists a, (k, a) ∈ base /\ 0 <= v <= a) /\
  sumZ snd (allocate total base) = Z.max 0 total.
Proof.
  intros Hn Ha Ht. unfold allocate.
  assert (Hz : ((fun b : string * Z => (b.1, 0)) <$> base).*1 = base.*1) by by rewrite <- list_fmap_compose.
  destruct (bool_decide (total <= 0) || bool_decide (sumZ snd base <= 0)) eqn:Hb.
  - assert (total <= 0).
    { apply orb_true_iff in Hb. rewrite !bool_decide_eq_true in Hb. lia. }
    rewrite map_of_id by by rewrite Hz. split; [done|]. split.
    + intros k v ([k' a] & [= -> ->] & Hin)%list_elem_of_fmap. exists a. split; [done|].
      by specialize (Ha _ Hin).
    + rewrite sumZ_map. cbn. rewrite (sumZ_const _ 0) by done. lia.
  - apply orb_false_iff in Hb as [Hb1%bool_decide_eq_false Hb2%bool_decide_eq_false].
    assert (Htotal : 0 < total <= sumZ snd base) by lia.
    set (f s := (sh_ref s, sh_value s + if bool_decide (sh_index s ∈ _) then 1 else 0)).
    assert (Hk : (f <$> shares_of total (sumZ snd base) base).*1 = base.*1).
    { rewrite <- list_fmap_compose. rewrite <- (shares_refs total base). by apply list_fmap_ext. }
    rewrite map_of_id by by rewrite Hk. split; [done|]. split.
    + intros k v (s & [= -> ->] & Hs)%list_elem_of_fmap.
      destruct (value_bounds total base Ha Htotal s Hs) as (a & ? & ? & _). by exists a.
    + rewrite sumZ_map. cbn. rewrite (value_total total base Ha Htotal). lia.
Qed.

(** ** Percentages *)

Lemma math_round_bounds q : (0 <= q <= 100)%Q -> 0 <= math_round (q * 100)%Q <= 10000.
Proof.
  intros [H0 H1]. unfold math_round. split.
  - change 0 with (Qfloor (0 + (1 # 2))%Q). apply Qfloor_resp_le.
    apply Qplus_le_compat; [|apply Qle_refl]. by apply Qmult_le_0_compat.
  - change 10000 with (Qfloor (10000 + (1 # 2))%Q). apply Qfloor_resp_le.
    apply Qplus_le_compat; [|apply Qle_refl]. change 10000%Q with (100 * 100)%Q. by apply Qmult_le_compat_r.
Qed.

Lemma percentOf_bounds a q : 0 <= a -> (0 <= q <= 100)%Q -> 0 <= percentOf a q <= a.
Proof.
  intros Ha Hq. apply math_round_bounds in Hq. unfold percentOf. split.
  - apply Z.div_pos; nia.
  - apply Z.div_le_upper_bound; nia.
Qed.

Lemma qlt_spec a b : qlt a b = false <-> (b <= a)%Q.
Proof. unfold qlt. rewrite negb_false_iff. apply Qle_bool_iff. Qed.

Lemma percentage_valid r : rewardIssues r = [] -> rw_type r = rw_percentage ->
  exists v, rw_value r = Some v /\ (0 <= v <= 100)%Q.
Proof.
  unfold rewardIssues, percentage_issues. intros H Ht. rewrite Ht in H.
  destruct (rw_value r) as [v|]; [|done]. exists v. split; [done|].
  destruct (qlt v 0) eqn:E1, (qlt 100 v) eqn:E2; try done. by apply qlt_spec in E1, E2.
Qed.

(** ** What a discount takes off each line *)

Lemma fmap_sublist {A B} (f : A -> B) l1 l2 : sublist l1 l2 -> sublist (f <$> l1) (f <$> l2).
Proof. induction 1; rewrite ?fmap_cons; by constructor. Qed.

Section lines.
Context (lines : list DiscountLine).
Hypothesis Hrefs : NoDup (ln_lineRef <$> lines).
Abbreviation refs := (ln_lineRef <$> lines).

(** A map of amounts that can be taken off: at most one entry a line, none above what is left. *)
Definition takeable (remaining m : jsmap) : Prop :=
  NoDup m.*1 /\ forall k v, (k, v) ∈ m -> k ∈ refs /\ v <= map_get0 k remaining.

Lemma matchingLines_sub scope targets : sublist (matchingLines lines scope targets) lines.
Proof.
  unfold matchingLines. destruct (_ || _); [done|].
  destruct (bool_decide _); apply sublist_filter.
Qed.

Lemma sublist_refs ls : sublist ls lines -> sublist (ln_lineRef <$> ls) refs.
Proof. apply fmap_sublist. Qed.

Lemma units_refs remaining u : u ∈ units_of lines remaining -> u.1 ∈ refs.
Proof.
  unfold units_of. intros (l & Hu & Hl)%list_elem_of_bind. apply elem_of_replicate in Hu as [-> _].
  cbn. by apply (list_elem_of_fmap_2 ln_lineRef).
Qed.

Lemma gets_order_sub units rs i : i ∈ gets_order units rs -> (i < length units)%nat.
Proof.
  unfold gets_order. rewrite sort_by_perm, list_elem_of_filter. intros [_ ?%elem_of_seq]. lia.
Qed.

Lemma bxgy_loop_sub fuel bo go bv gq mu uses used got i :
  i ∈ bxgy_loop fuel bo go bv gq mu uses used got -> i ∈ got \/ i ∈ go.
Proof.
  revert uses used got. induction fuel as [|fuel IH]; intros uses used got; cbn; [by left|].
  destruct (match mu with Some m => _ | None => _ end); [by left|].
  case_bool_decide; [by left|]. case_bool_decide; [by left|].
  intros [[?|Hf]%elem_of_app|?]%IH; [by left| |by right].
  right. by apply take_elem, list_elem_of_filter in Hf as [_ ?].
Qed.

Lemma got_units_lt units remaining brefs grefs buys gets mu i :
  i ∈ got_units units lines remaining brefs grefs buys gets mu -> (i < length units)%nat.
Proof.
  unfold got_units. destruct (by_kind buys).
  - intros [?%elem_of_nil|?%gets_order_sub]%bxgy_loop_sub; done.
  - destruct (_ && _); [|by intros ?%elem_of_nil]. by intros ?%take_elem%gets_order_sub.
Qed.

Lemma buyXGetY_takeable p remaining : takeable remaining (buyXGetYDiscounts p lines remaining).
Proof.
  unfold buyXGetYDiscounts. destruct (rw_buys _) as [buys|]; [|split; [constructor|by intros ? ? ?%elem_of_nil]].
  destruct (rw_gets _) as [gets|]; [|split; [constructor|by intros ? ? ?%elem_of_nil]].
  set (units := units_of lines remaining). set (got := got_units _ _ _ _ _ _ _ _).
  set (step m i := map_set (unit_ref units i) _ m).
  assert (Hg : forall i, i ∈ got -> unit_ref units i ∈ refs).
  { intros i Hi%got_units_lt. unfold unit_ref. destruct (_ !! i) as [u|] eqn:Hu.
    - by eapply units_refs, list_elem_of_lookup_2.
    - apply lookup_ge_None in Hu. lia. }
  assert (Hm : forall l m, (forall i, i ∈ l -> unit_ref units i ∈ refs) -> NoDup m.*1 ->
    (forall k, k ∈ m.*1 -> k ∈ refs) ->
    NoDup (foldl step m l).*1 /\ forall k, k ∈ (foldl step m l).*1 -> k ∈ refs).
  { induction l as [|i l IH]; intros m Hl Hn Hk; [done|]. apply IH; [set_solver|by apply map_set_NoDup|].
    intros k Hk'. unfold step in Hk'. destruct (decide (unit_ref units i ∈ m.*1)) as [Hin|Hin].
    - rewrite map_set_old_keys in Hk' by done. by apply Hk.
    - rewrite map_set_keys in Hk' by done. rewrite fmap_app in Hk'.
      apply elem_of_app in Hk' as [?| ->%list_elem_of_singleton]; [by apply Hk|apply Hl; left]. }
  destruct (Hm got [] Hg) as [Hn Hk]; [constructor|by intros ? ?%elem_of_nil|].
  split; [by rewrite <- list_fmap_compose|].
  intros k v ([k' v'] & [= -> ->] & Hin)%list_elem_of_fmap. cbn. split; [|lia].
  apply Hk. by apply (list_elem_of_fmap_2 fst) in Hin.
Qed.

Lemma base_keys (remaining : jsmap) ls :
  ((fun l => (ln_lineRef l, map_get0 (ln_lineRef l) remaining)) <$> ls).*1 = ln_lineRef <$> ls.
Proof. by rewrite <- list_fmap_compose. Qed.

Lemma allocate_takeable remaining total ls :
  sublist ls lines -> (forall k, 0 <= map_get0 k remaining) ->
  total <= sumZ snd ((fun l => (ln_lineRef l, map_get0 (ln_lineRef l) remaining)) <$> ls) ->
  takeable remaining (allocate total ((fun l => (ln_lineRef l, map_get0 (ln_lineRef l) remaining)) <$> ls)).
Proof.
  intros Hs Hr Ht. set (base := _ <$> ls) in *.
  assert (Hn : NoDup base.*1) by (unfold base; rewrite base_keys; by apply (sublist_NoDup _ _ Hrefs), sublist_refs).
  destruct (allocate_spec total base) as (Hk & Hv & _); [done| |done|].
  - intros b (l & -> & _)%list_elem_of_fmap. apply Hr.
  - split; [by rewrite Hk|]. intros k v (a & (l & [= -> ->] & Hl)%list_elem_of_fmap & Ha)%Hv.
    split; [|lia]. apply list_elem_of_fmap_2. by eapply elem_of_sublist.
Qed.

Lemma map_of_takeable remaining (f : DiscountLine -> Z) ls :
  sublist ls lines -> (forall l, l ∈ ls -> f l <= map_get0 (ln_lineRef l) remaining) ->
  takeable remaining (map_of ((fun l => (ln_lineRef l, f l)) <$> ls)).
Proof.
  intros Hs Hf.
  assert (Hk : ((fun l => (ln_lineRef l, f l)) <$> ls).*1 = ln_lineRef <$> ls) by by rewrite <- list_fmap_compose.
  rewrite map_of_id by (rewrite Hk; by apply (sublist_NoDup _ _ Hrefs), sublist_refs).
  split; [rewrite Hk; by apply (sublist_NoDup _ _ Hrefs), sublist_refs|].
  intros k v (l & [= -> ->] & Hl)%list_elem_of_fmap. split; [|by apply Hf].
  apply list_elem_of_fmap_2. by eapply elem_of_sublist.
Qed.

Lemma lineDiscounts_takeable p remaining :
  rewardIssues (rl_reward (pr_rule p)) = [] -> (forall k, 0 <= map_get0 k remaining) ->
  takeable remaining (lineDiscounts p lines remaining).
Proof.
  intros Hv Hr. unfold lineDiscounts. case_bool_decide; [apply buyXGetY_takeable|].
  set (targets := if bool_decide (discountClass p = c_product) then _ else lines).
  assert (Hs : sublist targets lines) by (unfold targets; destruct (bool_decide _); [apply matchingLines_sub|done]).
  assert (Hsum : 0 <= sumZ snd ((fun l => (ln_lineRef l, map_get0 (ln_lineRef l) remaining)) <$> targets)).
  { apply sumZ_nonneg. intros b (l & -> & _)%list_elem_of_fmap. apply Hr. }
  case_bool_decide as Ht.
  - destruct (percentage_valid _ Hv Ht) as (v & -> & Hq). cbn [default].
    destruct (bool_decide _).
    + rewrite <- list_fmap_compose. apply map_of_takeable; [done|]. intros l _. by apply percentOf_bounds.
    + apply allocate_takeable; [done|done|]. by apply percentOf_bounds.
  - destruct (_ && _); [apply map_of_takeable; [done|]; intros l _; lia|].
    apply allocate_takeable; [done|done|]. lia.
Qed.
End lines.

(** ** Applying a set *)

Lemma sumZ_indicator {A} (f : A -> string) (k : string) (c : Z) l :
  NoDup (f <$> l) -> k ∈ f <$> l -> sumZ (fun x => if bool_decide (f x = k) then c else 0) l = c.
Proof.
  induction l as [|x l IH]; [by intros _ ?%elem_of_nil|]. rewrite fmap_cons, sumZ_cons.
  intros [Hx Hn]%NoDup_cons [-> | Hk]%elem_of_cons.
  - rewrite bool_decide_true by done. rewrite (sumZ_const _ 0); [lia|].
    intros y Hy. rewrite bool_decide_false; [done|]. intros E. apply Hx, list_elem_of_fmap. by exists y.
  - rewrite bool_decide_false by (intros E; subst k; done). rewrite IH by done. lia.
Qed.

Section apply.
Context (x : CalculateDiscountsInput).
Abbreviation lines := (di_lines x).
Abbreviation refs := (ln_lineRef <$> lines).
Abbreviation orig := (ct_remaining (start_cart x)).
Abbreviation rate := (ct_shippingLeft (start_cart x)).
Abbreviation allocated m := (sumZ (fun l => map_get0 (ln_lineRef l) m) lines).
Hypothesis Hrefs : NoDup refs.
Hypothesis Hlines : forall l, l ∈ lines -> 1 <= ln_quantity l /\ 0 <= ln_unitPriceMinor l.
Hypothesis Hrate : 0 <= rate.

Lemma allocated_set k v m :
  k ∈ refs -> allocated (map_set k (map_get0 k m + v) m) = allocated m + v.
Proof.
  intros Hk. rewrite (sumZ_ext _ (fun l => map_get0 (ln_lineRef l) m +
    (if bool_decide (ln_lineRef l = k) then v else 0))).
  - rewrite sumZ_add, sumZ_indicator; done.
  - intros l _. rewrite map_get0_set. case_bool_decide; [subst|]; lia.
Qed.

Record split_ok (remaining allocations : jsmap) : Prop := {
  so_left : forall k, 0 <= map_get0 k remaining;
  so_off : forall k, 0 <= map_get0 k allocations;
  so_sum : forall k, map_get0 k remaining + map_get0 k allocations = map_get0 k orig
}.

Lemma take_off_fold m remaining allocations amount :
  split_ok remaining allocations -> takeable lines remaining m -> 0 <= amount ->
  forall remaining' allocations' amount',
  foldl take_off (remaining, allocations, amount) m = (remaining', allocations', amount') ->
  split_ok remaining' allocations' /\ 0 <= amount' /\
  allocated allocations' - allocated allocations = amount' - amount.
Proof.
  revert remaining allocations amount. induction m as [|[k v] m IH]; intros rem alloc amt Hok [Hn Hm] Ha r' a' t'.
  { cbn. intros [= <- <- <-]. split; [done|]. lia. }
  cbn in Hn. apply NoDup_cons in Hn as [Hk Hn]. destruct (Hm k v) as [Hin Hv]; [left|].
  cbn [foldl]. unfold take_off at 2. cbn [fst snd]. case_bool_decide as Hpos.
  { intros H. apply (IH rem alloc amt); try done. split; [done|]. intros k' v' ?. apply Hm. by right. }
  intros H. destruct Hok as [H1 H2 H3].
  destruct (IH (map_set k (map_get0 k rem - v) rem) (map_set k (map_get0 k alloc + v) alloc) (amt + v))
    with (remaining' := r') (allocations' := a') (amount' := t') as (Hok' & Ha' & Hall); try done; [| |lia|].
  - split; intros k'; rewrite ?map_get0_set; case_bool_decide; subst; try done; specialize (H2 k); specialize (H3 k); lia.
  - split; [done|]. intros k' v' Hin'. destruct (Hm k' v') as [Hr Hv']; [by right|]. split; [done|].
    rewrite map_get0_set, bool_decide_false; [done|]. intros ->. apply Hk. by apply (list_elem_of_fmap_2 fst) in Hin'.
  - rewrite allocated_set in Hall by done. split; [done|]. lia.
Qed.

Abbreviation is_shipping a := (ap_discountClass a = c_shipping).

Record cart_ok (c : Cart) : Prop := {
  co_split : split_ok (ct_remaining c) (ct_allocations c);
  co_left : 0 <= ct_shippingLeft c;
  co_order : sumZ ap_amountMinor (filter (fun a => ~ is_shipping a) (ct_applied c)) = allocated (ct_allocations c);
  co_shipping : sumZ ap_amountMinor (filter (fun a => is_shipping a) (ct_applied c)) + ct_shippingLeft c = rate;
  co_amounts : forall a, a ∈ ct_applied c -> 0 <= ap_amountMinor a
}.

Lemma orig_line l : l ∈ lines -> map_get0 (ln_lineRef l) orig = lineTotal l.
Proof.
  intros Hl. unfold start_cart. cbn. unfold map_get0. rewrite map_of_id.
  - rewrite (map_get_elem _ (lineTotal l)); [done| |].
    + by rewrite <- list_fmap_compose.
    + by apply (list_elem_of_fmap_2 (fun l => (ln_lineRef l, lineTotal l))).
  - by rewrite <- list_fmap_compose.
Qed.

Lemma orig_nonneg k : 0 <= map_get0 k orig.
Proof.
  unfold start_cart. cbn. unfold map_get0.
  rewrite map_of_id by by rewrite <- list_fmap_compose.
  destruct (map_get k _) as [v|] eqn:Hg; [|done]. apply map_get_Some_elem in Hg.
  apply list_elem_of_fmap in Hg as (l & [= -> ->] & Hl). unfold lineTotal. cbn.
  destruct (Hlines l Hl). nia.
Qed.

Lemma cart_ok_start : cart_ok (start_cart x).
Proof.
  split; cbn [start_cart ct_remaining ct_allocations ct_shippingLeft ct_applied]; try done.
  - split; [apply orig_nonneg|done|]. intros k. change (map_get0 k []) with 0. apply Z.add_0_r.
  - rewrite filter_nil, sumZ_nil. symmetry. rewrite (sumZ_const _ 0); [lia|done].
  - by intros a ?%elem_of_nil.
Qed.

Definition valid_entry (e : Eligible) : Prop :=
  rewardIssues (rl_reward (pr_rule (promo_props (eg_candidate e)))) = [].

Lemma cart_ok_entry c e : cart_ok c -> valid_entry e -> cart_ok (apply_entry lines c e).
Proof.
  intros [Hs Hl Ho Hsh Ha] Hv. unfold apply_entry. case_bool_decide as Hc.
  - split; cbn [ct_remaining ct_allocations ct_shippingLeft ct_applied]; try done.
    + rewrite filter_app, sumZ_app, filter_cons_False by (cbn; by intros []).
      rewrite filter_nil, sumZ_nil. lia.
    + rewrite filter_app, sumZ_app, filter_cons_True by done.
      rewrite filter_nil, sumZ_cons, sumZ_nil. cbn [applied_of ap_amountMinor]. lia.
    + intros a [?| ->%list_elem_of_singleton]%elem_of_app; [by apply Ha|done].
  - destruct (foldl take_off _ _) as [[r' a'] t'] eqn:Hf.
    assert (Ht : takeable lines (ct_remaining c) (lineDiscounts (promo_props (eg_candidate e)) lines (ct_remaining c))).
    { apply lineDiscounts_takeable; [done|done|]. apply Hs. }
    destruct (take_off_fold _ _ _ 0 Hs Ht ltac:(lia) _ _ _ Hf) as (Hs' & Hp & Hall).
    split; cbn [ct_remaining ct_allocations ct_shippingLeft ct_applied]; try done.
    + rewrite filter_app, sumZ_app, filter_cons_True by done.
      rewrite filter_nil, sumZ_cons, sumZ_nil. cbn [applied_of ap_amountMinor]. lia.
    + rewrite filter_app, sumZ_app, filter_cons_False by done.
      rewrite filter_nil, sumZ_nil. lia.
    + intros a [?| ->%list_elem_of_singleton]%elem_of_app; [by apply Ha|done].
Qed.

Lemma cart_ok_fold l c :
  cart_ok c -> (forall e, e ∈ l -> valid_entry e) -> cart_ok (foldl (apply_entry lines) c l).
Proof.
  revert c. induction l as [|e l IH]; intros c Hc Hl; [done|]. cbn. apply IH.
  - apply cart_ok_entry; [done|]. apply Hl. left.
  - intros e' He'. apply Hl. by right.
Qed.

Lemma cart_ok_applySet set : (forall e, e ∈ set -> valid_entry e) -> cart_ok (applySet set x).
Proof.
  intros Hv. unfold applySet. apply cart_ok_fold; [apply cart_ok_start|].
  intros e. rewrite sort_by_perm. apply Hv.
Qed.
End apply.

(** ** The sets tried *)

Lemma subset_shift (l : list Eligible) mask k :
  subset_from (S k) l mask = subset_from k l (Nat.div2 mask).
Proof.
  revert k. induction l as [|e l IH]; intros k; [done|]. cbn [subset_from].
  rewrite Nat.div2_spec, Nat.shiftr_spec, Nat.add_1_r, IH, Nat.div2_spec by lia. done.
Qed.

Lemma subset_cons e l mask :
  subset (e :: l) mask = (if Nat.testbit mask 0 then [e] else []) ++ subset l (Nat.div2 mask).
Proof. unfold subset. cbn [subset_from]. rewrite subset_shift. by destruct (Nat.testbit mask 0). Qed.

Lemma subset_sublist l mask : sublist (subset l mask) l.
Proof.
  revert mask. induction l as [|e l IH]; intros mask; [constructor|]. rewrite subset_cons.
  destruct (Nat.testbit mask 0); cbn; constructor; apply IH.
Qed.

Lemma sublist_subset sub l : sublist sub l -> exists mask, (mask < 2 ^ length l)%nat /\ subset l mask = sub.
Proof.
  induction 1 as [|e l1 l2 _ (m & Hm & IH)|e l1 l2 _ (m & Hm & IH)].
  - exists 0%nat. split; [cbn; lia|done].
  - exists (2 * m + 1)%nat. split; [cbn [length Nat.pow]; lia|]. rewrite subset_cons, Nat.div2_odd', Nat.testbit_odd_0.
    by rewrite IH.
  - exists (2 * m)%nat. split; [cbn [length Nat.pow]; lia|]. rewrite subset_cons, Nat.div2_double, Nat.testbit_even_0.
    by rewrite IH.
Qed.

Section best.
Context (x : CalculateDiscountsInput).
Abbreviation total set := (saving (applySet set x)).

Lemma isBetter_total a b : if isBetter x a b then total b <= total a else total a <= total b.
Proof.
  unfold isBetter. case_bool_decide as E; [rewrite E; by destruct (if bool_decide _ then _ else _)|].
  case_bool_decide; lia.
Qed.

Lemma best_fold eligible masks best :
  let result := foldl (try_mask eligible x) best masks in
  (isCompatible best = true -> isCompatible result = true) /\
  (sublist best eligible -> sublist result eligible) /\ total best <= total result /\
  forall mask, mask ∈ masks -> isCompatible (subset eligible mask) = true ->
    total (subset eligible mask) <= total result.
Proof.
  revert best. induction masks as [|m masks IH]; intros best; cbv zeta; cbn [foldl].
  { repeat split; try done. by intros ? ?%elem_of_nil. }
  assert (Hb := isBetter_total (subset eligible m) best). 
  replace (try_mask eligible x best m) with (if isCompatible (subset eligible m) &&
    isBetter x (subset eligible m) best then subset eligible m else best) by done.
  destruct (isCompatible (subset eligible m)) eqn:Hc, (isBetter x (subset eligible m) best) eqn:E; cbn [andb];
    match goal with |- context [foldl _ ?b masks] => destruct (IH b) as (H1 & H2 & H3 & H4) end;
    (split; [auto|]); (split; [eauto using subset_sublist|]); (split; [lia|]);
    intros mask [->|?]%elem_of_cons ?; auto; try lia; congruence.
Qed.

Lemma greedy_fold l best :
  let result := foldl (fun set e => if isCompatible (set ++ [e]) then set ++ [e] else set) best l in
  (isCompatible best = true -> isCompatible result = true) /\ exists l', sublist l' l /\ result = best ++ l'.
Proof.
  revert best. induction l as [|e l IH]; intros best; cbn.
  { split; [done|]. exists []. by rewrite app_nil_r. }
  destruct (isCompatible (best ++ [e])) eqn:E.
  - destruct (IH (best ++ [e])) as (H1 & l' & H2 & Hr). split; [intros _; by apply H1|].
    rewrite Hr. exists (e :: l'). split; [by constructor|]. by rewrite <- app_assoc.
  - destruct (IH best) as (H1 & l' & H2 & Hr). split; [by apply H1|]. rewrite Hr. exists l'. split; [by constructor|done].
Qed.

Lemma bestSet_spec eligible :
  isCompatible (bestSet eligible x) = true /\ exists l, l ≡ₚ eligible /\ sublist (bestSet eligible x) l.
Proof.
  unfold bestSet. case_bool_decide.
  - destruct (best_fold eligible (seq 1 (2 ^ length eligible - 1)) []) as (H1 & H2 & _).
    split; [by apply H1|]. exists eligible. split; [done|]. apply H2. apply sublist_nil_l.
  - set (sorted := sort_by _ eligible). destruct (greedy_fold sorted []) as (H1 & l' & H2 & Hr).
    split; [by apply H1|]. exists sorted. split; [apply sort_by_perm|]. by rewrite Hr.
Qed.

Lemma bestSet_elem eligible e : e ∈ bestSet eligible x -> e ∈ eligible.
Proof.
  destruct (bestSet_spec eligible) as (_ & l & Hl & Hs). intros He. rewrite <- Hl. by eapply elem_of_sublist.
Qed.
End best.

(** ** The discounts applied *)

Lemma apply_entry_applied lines c e :
  exists amount, ct_applied (apply_entry lines c e) = ct_applied c ++ [applied_of e amount].
Proof.
  unfold apply_entry. case_bool_decide; [by eexists|].
  destruct (foldl take_off _ _) as [[r a] t]. by eexists.
Qed.

Lemma applied_entries x set :
  Forall2 (fun e a => exists amount, a = applied_of e amount) (sort_by before set) (ct_applied (applySet set x)).
Proof.
  unfold applySet. generalize (sort_by before set) as l. intros l.
  assert (H : forall l c, exists as_, ct_applied (foldl (apply_entry (di_lines x)) c l) = ct_applied c ++ as_ /\
    Forall2 (fun e a => exists amount, a = applied_of e amount) l as_).
  { clear l. induction l as [|e l IH]; intros c; cbn; [exists []; by rewrite app_nil_r|].
    destruct (apply_entry_applied (di_lines x) c e) as [amount Ha].
    destruct (IH (apply_entry (di_lines x) c e)) as (as_ & -> & Hf). rewrite Ha.
    eexists. split; [by rewrite <- app_assoc|]. cbn. constructor; [by eexists|done]. }
  destruct (H l (start_cart x)) as (as_ & -> & Hf). done.
Qed.

Lemma applied_codes x set : omap ap_code (ct_applied (applySet set x)) = omap eg_code (sort_by before set).
Proof.
  induction (applied_entries x set) as [|e a l as_ [amount ->] _ IH]; [done|]. cbn. by rewrite IH.
Qed.

Lemma omap_sublist {A B} (f : A -> option B) l1 l2 : sublist l1 l2 -> sublist (omap f l1) (omap f l2).
Proof.
  induction 1 as [|x l1 l2 _ IH|x l1 l2 _ IH]; cbn; [constructor| |];
    (destruct (f x); [by constructor|done]).
Qed.

Lemma omap_fmap {A B C} (g : A -> B) (f : B -> option C) (l : list A) : omap f (g <$> l) = omap (fun a => f (g a)) l.
Proof. induction l as [|a l IH]; [done|]. cbn. by rewrite IH. Qed.

Lemma eligible_codes x : sublist (omap eg_code (eligible_list x)) (omap code_of (di_candidates x)).
Proof.
  unfold eligible_list. rewrite omap_fmap. apply omap_sublist.
  etrans; apply sublist_filter.
Qed.

(** Each code is carried by one applied discount at most. *)
Lemma omap_NoDup_inj {A B} (f : A -> option B) l a a' c :
  NoDup (omap f l) -> a ∈ l -> a' ∈ l -> f a = Some c -> f a' = Some c -> a = a'.
Proof.
  induction l as [|b l IH]; [by intros _ ?%elem_of_nil|]. cbn. intros Hn Ha Ha' Hfa Hfa'.
  assert (Hin : forall y, y ∈ l -> f y = Some c -> c ∈ omap f l) by (intros y ? ?; apply list_elem_of_omap; by exists y).
  apply elem_of_cons in Ha as [->|Ha], Ha' as [->|Ha']; [done| | |].
  - rewrite Hfa in Hn. apply NoDup_cons in Hn as [Hc _]. destruct Hc. by eapply Hin.
  - rewrite Hfa' in Hn. apply NoDup_cons in Hn as [Hc _]. destruct Hc. by eapply Hin.
  - apply IH; try done. destruct (f b); [by apply NoDup_cons in Hn as [_ ?]|done].
Qed.

Lemma best_codes_NoDup x :
  NoDup (omap code_of (di_candidates x)) ->
  NoDup (omap ap_code (ct_applied (applySet (bestSet (eligible_list x) x) x))).
Proof.
  intros Hn. rewrite applied_codes. rewrite (omap_Permutation eg_code _ _ (sort_by_perm before _)).
  destruct (bestSet_spec x (eligible_list x)) as (_ & l & Hl & Hs).
  eapply sublist_NoDup; [|by apply omap_sublist].
  rewrite Hl. eapply sublist_NoDup; [exact Hn|apply eligible_codes].
Qed.

(** ** The result *)

(** Carts as checkout builds them, and candidates whose rewards passed [PromotionReward.create]. *)
Record wf_input (x : CalculateDiscountsInput) : Prop := {
  wf_refs : NoDup (ln_lineRef <$> di_lines x);
  wf_lines : forall l, l ∈ di_lines x -> 1 <= ln_quantity l /\ 0 <= ln_unitPriceMinor l;
  wf_rate : forall s, di_shipping x = Some s -> 0 <= sp_rateMinor s;
  wf_rewards : forall c, c ∈ di_candidates x -> rewardIssues (rl_reward (pr_rule (promo_props c))) = [];
  wf_codes : NoDup (omap code_of (di_candidates x))
}.

Abbreviation best_cart x := (applySet (bestSet (eligible_list x) x) x).

Lemma eligible_elem x e :
  e ∈ eligible_list x -> exists c, c ∈ di_candidates x /\ e = eligible_of c /\
    considered x c = true /\ rejectionFor c x = None.
Proof.
  unfold eligible_list. intros (c & -> & Hc)%list_elem_of_fmap.
  apply list_elem_of_filter in Hc as [Hr Hc]. apply list_elem_of_filter in Hc as [Hs Hc]. by exists c.
Qed.

Lemma start_rate x :
  ct_shippingLeft (start_cart x) = match di_shipping x with Some s => sp_rateMinor s | None => 0 end.
Proof. done. Qed.

Lemma best_cart_ok x : wf_input x -> cart_ok x (best_cart x).
Proof.
  intros [Hr Hl Hs Hw _]. apply cart_ok_applySet; [done|done| |].
  - rewrite start_rate. destruct (di_shipping x) as [s|] eqn:E; [by apply Hs|lia].
  - intros e (c & Hc & -> & _)%bestSet_elem%eligible_elem. by apply (Hw c).
Qed.

(** The discounts dropped from the result took nothing off. *)
Lemma dropped_zero x a :
  wf_input x -> a ∈ ct_applied (best_cart x) ->
  kept (empty_codes x (ct_applied (best_cart x))) a = false -> ap_amountMinor a = 0.
Proof.
  intros Hw Ha Hk. assert (Hp := co_amounts _ _ (best_cart_ok x Hw) a Ha).
  unfold kept in Hk. destruct (ap_code a) as [code|] eqn:Hc.
  - apply negb_false_iff, bool_decide_eq_true in Hk. unfold empty_codes in Hk.
    apply list_elem_of_bind in Hk as (a' & Hin & Ha').
    destruct (ap_code a') as [code'|] eqn:Hc'; [|by apply elem_of_nil in Hin].
    destruct (bool_decide (ap_amountMinor a' = 0) && _) eqn:Hz; [|by apply elem_of_nil in Hin].
    apply list_elem_of_singleton in Hin as ->. apply andb_true_iff in Hz as [Hz%bool_decide_eq_true _].
    by rewrite (omap_NoDup_inj ap_code _ a a' code' (best_codes_NoDup x (wf_codes x Hw)) Ha Ha' Hc Hc').
  - apply bool_decide_eq_false in Hk. lia.
Qed.

Lemma kept_total x (P : AppliedDiscount -> Prop) `{forall a, Decision (P a)} :
  wf_input x ->
  sumZ ap_amountMinor (filter P (filter (fun a => kept (empty_codes x (ct_applied (best_cart x))) a = true)
    (ct_applied (best_cart x)))) = sumZ ap_amountMinor (filter P (ct_applied (best_cart x))).
Proof.
  intros Hw. assert (Hz := dropped_zero x). revert Hz. generalize (empty_codes x (ct_applied (best_cart x))) as codes.
  intros codes Hz. specialize (fun a => Hz a Hw). revert Hz. generalize (ct_applied (best_cart x)) as l.
  induction l as [|a l IH]; intros Hz; [done|].
  assert (Hl : forall b, b ∈ l -> kept codes b = false -> ap_amountMinor b = 0) by (intros b ?; apply Hz; by right).
  specialize (IH Hl). rewrite filter_cons, (filter_cons P). destruct (decide (kept codes a = true)) as [Hk|Hk].
  - rewrite filter_cons. destruct (decide (P a)); rewrite ?sumZ_cons; lia.
  - apply not_true_iff_false in Hk. destruct (decide (P a)); rewrite ?sumZ_cons; [|done].
    rewrite (Hz a) by (done || left). lia.
Qed.

Lemma filter_positive_sum (l : list (string * Z)) :
  (forall b, b ∈ l -> 0 <= b.2) -> sumZ snd (filter (fun b => 0 < b.2) l) = sumZ snd l.
Proof.
  induction l as [|b l IH]; intros H; [done|]. rewrite filter_cons, sumZ_cons.
  specialize (IH ltac:(set_solver)). specialize (H b ltac:(left)). case_decide; rewrite ?sumZ_cons; lia.
Qed.

Lemma isCompatible_pairs set i j e f :
  isCompatible set = true -> (i < j)%nat -> set !! i = Some e -> set !! j = Some f ->
  canCombine (eg_discountClass e, eg_combinesWith e) (eg_discountClass f, eg_combinesWith f) = true.
Proof.
  revert i j. induction set as [|g set IH]; intros i j Hc Hij Hi Hj; [done|].
  cbn in Hc. apply andb_true_iff in Hc as [Hg Hc]. destruct j as [|j]; [lia|]. destruct i as [|i]; cbn in *.
  - injection Hi as ->. rewrite forallb_forall in Hg. apply Hg, list_elem_of_In. by eapply list_elem_of_lookup_2.
  - apply (IH i j); try done. lia.
Qed.

(** ** Code statuses *)

Lemma status_code x eligible empty chosen i code :
  st_code (code_status x eligible empty chosen i code) = code.
Proof.
  unfold code_status. repeat case_bool_decide; try done. by destruct (rejection_of x code).
Qed.

Lemma status_applicable x eligible empty chosen i code :
  st_applicable (code_status x eligible empty chosen i code) = true <->
  (i < MAX_DISCOUNT_CODES)%nat /\ (code ∉ empty) /\ code ∈ chosen.
Proof.
  unfold code_status. repeat case_bool_decide; cbn; try (split; [done|intros (? & ? & ?); (lia || done)]).
  - split; [|done]. intros _. split; [lia|done].
  - destruct (rejection_of x code); cbn; split; (done || tauto).
Qed.

Lemma applied_with_code x e code :
  e ∈ bestSet (eligible_list x) x -> eg_code e = Some code ->
  exists a, a ∈ ct_applied (best_cart x) /\ ap_code a = Some code.
Proof.
  intros He Hc. rewrite <- (sort_by_perm before) in He. apply list_elem_of_lookup in He as [i Hi].
  destruct (Forall2_lookup_l _ _ _ _ _ (applied_entries x _) Hi) as (a & Ha & amount & ->).
  eexists. split; [by eapply list_elem_of_lookup_2|done].
Qed.

Lemma imap_filter_bound {A} (f : nat -> A -> DiscountCodeStatus) n (l : list A) :
  (forall i a, (n <= i)%nat -> st_applicable (f i a) = false) ->
  (length (filter (fun s => st_applicable s = true) (imap f l)) <= n)%nat.
Proof.
  revert f n. induction l as [|a l IH]; intros f n H; [cbn; lia|]. rewrite imap_cons, filter_cons.
  destruct n as [|n].
  - rewrite decide_False by (rewrite H; [done|lia]). apply IH. intros i b _. apply H. lia.
  - specialize (IH (f ∘ S) n ltac:(intros i b Hi; apply H; lia)).
    case_decide; cbn [length]; lia.
Qed.

(** ** The buy X get Y loop *)

Section loop.
Context (bo go : list nat) (bv gq : nat) (mu : option Z).
Abbreviation unused used l := (filter (fun i => i ∉ used) l).

(** A turn that goes on leaves fewer unused buying units. *)
Lemma turn_decreases (used free : list nat) :
  (1 <= bv)%nat -> ~ (length (take bv (unused used bo)) < bv)%nat ->
  (length (unused ((used ++ take bv (unused used bo)) ++ free) bo) < length (unused used bo))%nat.
Proof.
  intros Hbv Hlen. assert (Hb : exists b, b ∈ take bv (unused used bo)).
  { destruct (take bv (unused used bo)) as [|b l]; [cbn in Hlen; lia|]. exists b. left. }
  destruct Hb as [b Ht]. assert (Hb := Ht). apply take_elem, list_elem_of_filter in Hb as [Hb Hin].
  apply (filter_strict _ _ _ b); [|done|done|].
  - intros a Ha Hused. apply Ha. set_solver.
  - intros Ha. apply Ha. set_solver.
Qed.

Lemma loop_fuel f1 f2 uses used got :
  (1 <= bv)%nat -> (length (unused used bo) < f1)%nat -> (length (unused used bo) < f2)%nat ->
  bxgy_loop f1 bo go bv gq mu uses used got = bxgy_loop f2 bo go bv gq mu uses used got.
Proof.
  intros Hbv. revert f2 uses used got. induction f1 as [|f1 IH]; intros f2 uses used got H1 H2; [lia|].
  destruct f2 as [|f2]; [lia|]. cbn [bxgy_loop]. destruct (match mu with Some m => _ | None => _ end); [done|].
  case_bool_decide as Hl; [done|]. case_bool_decide; [done|].
  assert (Hd := turn_decreases used (take gq (unused (used ++ take bv (unused used bo)) go)) Hbv Hl).
  apply IH; lia.
Qed.

(** What the loop has done after [n] turns. *)
Record turns (n : nat) (bought got : list nat) : Prop := {
  tu_got : length got = (n * gq)%nat;
  tu_bought : length bought = (n * bv)%nat;
  tu_nodup : NoDup (bought ++ got);
  tu_bo : forall i, i ∈ bought -> i ∈ bo;
  tu_go : forall i, i ∈ got -> i ∈ go;
  tu_max : forall m, mu = Some m -> Z.of_nat n <= Z.max 0 m
}.

Lemma take_filter_elem (used : list nat) n (l : list nat) i : i ∈ take n (unused used l) -> i ∈ l /\ i ∉ used.
Proof. by intros [? ?]%take_elem%list_elem_of_filter. Qed.

Lemma take_full n (l : list nat) : ~ (length (take n l) < n)%nat -> length (take n l) = n.
Proof. rewrite length_take. lia. Qed.

Lemma loop_turns f n used bought got :
  NoDup bo -> NoDup go -> used ≡ₚ bought ++ got -> turns n bought got ->
  exists n' bought', turns n' bought' (bxgy_loop f bo go bv gq mu (Z.of_nat n) used got).
Proof.
  intros Hbo Hgo. revert n used bought got. induction f as [|f IH]; intros n used bought got Hu Ht; cbn [bxgy_loop].
  { by exists n, bought. }
  destruct (match mu with Some m => bool_decide (m <= Z.of_nat n) | None => false end) eqn:Hmu; [by exists n, bought|].
  case_bool_decide as Hb; [by exists n, bought|]. case_bool_decide as Hg; [by exists n, bought|].
  set (b1 := take bv _) in *. set (g1 := take gq _) in *.
  assert (Hb1 : forall i, i ∈ b1 -> i ∈ bo /\ i ∉ used) by (intros i; apply take_filter_elem).
  assert (Hg1 : forall i, i ∈ g1 -> i ∈ go /\ i ∉ used ++ b1) by (intros i; apply take_filter_elem).
  replace (Z.of_nat n + 1) with (Z.of_nat (S n)) by lia.
  apply (IH (S n) _ (bought ++ b1)).
  - rewrite Hu. solve_Permutation.
  - destruct Ht as [H1 H2 H3 H4 H5 H6]. split.
    + assert (E := take_full _ _ Hg : length g1 = gq). rewrite length_app, H1, E. lia.
    + assert (E := take_full _ _ Hb : length b1 = bv). rewrite length_app, H2, E. lia.
    + assert (Hp : (bought ++ b1) ++ got ++ g1 ≡ₚ (bought ++ got) ++ b1 ++ g1) by solve_Permutation.
      rewrite Hp. apply NoDup_app. split; [done|]. split.
      * intros i Hi [Hin|Hin]%elem_of_app.
        -- by destruct (Hb1 i Hin) as [_ []]; rewrite Hu.
        -- destruct (Hg1 i Hin) as [_ Hn]. apply Hn, elem_of_app. left. by rewrite Hu.
      * apply NoDup_app. split; [|split].
        -- eapply sublist_NoDup; [|apply sublist_take]. by apply NoDup_filter.
        -- intros i Hi Hin. destruct (Hg1 i Hin) as [_ Hn]. apply Hn, elem_of_app. by right.
        -- eapply sublist_NoDup; [|apply sublist_take]. by apply NoDup_filter.
    + intros i [?|?%Hb1]%elem_of_app; [by apply H4|tauto].
    + intros i [?|?%Hg1]%elem_of_app; [by apply H5|tauto].
    + intros m Hm. rewrite Hm in Hmu. apply bool_decide_eq_false in Hmu. lia.
Qed.
End loop.

Lemma buys_order_NoDup units rs : NoDup (buys_order units rs).
Proof. unfold buys_order. rewrite sort_by_perm. apply NoDup_filter, NoDup_seq. Qed.
Lemma gets_order_NoDup units rs : NoDup (gets_order units rs).
Proof. unfold gets_order. rewrite sort_by_perm. apply NoDup_filter, NoDup_seq. Qed.
Lemma buys_order_length units rs : (length (buys_order units rs) <= length units)%nat.
Proof.
  unfold buys_order. rewrite sort_by_perm. etransitivity; [apply length_filter|]. by rewrite length_seq.
Qed.

Lemma allocation_within_line x l : wf_input x -> l ∈ di_lines x ->
  map_get0 (ln_lineRef l) (ct_allocations (best_cart x)) <= lineTotal l.
Proof.
  intros Hw Hl. pose proof (best_cart_ok x Hw) as [[H1 H2 H3] _ _ _ _]. rewrite <- (orig_line x (wf_refs x Hw) l Hl).
  specialize (H1 (ln_lineRef l)). specialize (H3 (ln_lineRef l)). lia.
Qed.

(** The two discount figures: the order's is the sum of the line allocations, and each fits what it is taken from. *)
Lemma discounts_within x : wf_input x -> let r := calculateDiscounts x in
  dr_orderDiscountMinor r = sumZ snd (dr_lineAllocations r) /\
  0 <= dr_orderDiscountMinor r <= sumZ lineTotal (di_lines x) /\
  0 <= dr_shippingDiscountMinor r <= match di_shipping x with Some s => sp_rateMinor s | None => 0 end.
Proof.
  intros Hw r. pose proof (best_cart_ok x Hw) as [[H1 H2 H3] Hleft Horder Hship Ham].
  assert (Ho : dr_orderDiscountMinor r = sumZ snd (dr_lineAllocations r)).
  { unfold r, calculateDiscounts. cbn [dr_orderDiscountMinor dr_lineAllocations].
    rewrite kept_total by done. rewrite Horder, filter_positive_sum, sumZ_map; [done|].
    intros b (l & -> & _)%list_elem_of_fmap. apply H2. }
  assert (Hs : dr_shippingDiscountMinor r =
    sumZ ap_amountMinor (filter (fun a => ap_discountClass a = c_shipping) (ct_applied (best_cart x)))).
  { unfold r, calculateDiscounts. cbn [dr_shippingDiscountMinor]. by apply kept_total. }
  split; [done|split].
  - rewrite Ho. unfold r, calculateDiscounts. cbn [dr_lineAllocations].
    rewrite filter_positive_sum by (intros b (l & -> & _)%list_elem_of_fmap; apply H2).
    rewrite sumZ_map. cbn. split; [by apply sumZ_nonneg|apply sumZ_mono; intros l Hl; by apply allocation_within_line].
  - rewrite Hs, <- start_rate. split; [|lia]. apply sumZ_nonneg. intros a [_ Ha]%list_elem_of_filter. by apply Ham.
Qed.

(** ** Properties *)

(** C26: a discount never takes off more than there is. For a well-formed cart, every line allocation is
    positive and at most the line's total, the order discount is exactly the sum of the allocations and
    so at most the cart's subtotal, and the shipping discount is at most the shipping rate. *)
Theorem discounts_never_exceed_totals x :
  wf_input x ->
  let r := calculateDiscounts x in
  (forall k v, (k, v) ∈ dr_lineAllocations r ->
     exists l, l ∈ di_lines x /\ ln_lineRef l = k /\ 0 < v <= lineTotal l) /\
  dr_orderDiscountMinor r = sumZ snd (dr_lineAllocations r) /\
  0 <= dr_orderDiscountMinor r <= sumZ lineTotal (di_lines x) /\
  0 <= dr_shippingDiscountMinor r <= match di_shipping x with Some s => sp_rateMinor s | None => 0 end.
Proof.
  intros Hw r. destruct (discounts_within x Hw) as (Ho & Hb & Hs).
  split; [|done]. unfold r, calculateDiscounts. cbn [dr_lineAllocations]. intros k v [Hv Hin]%list_elem_of_filter.
  apply list_elem_of_fmap in Hin as (l & [= -> ->] & Hl). exists l. cbn in Hv.
  repeat (split; [done|]). by apply allocation_within_line.
Qed.

(** C27: the discount set chosen is compatible and optimal. Any two chosen discounts allow each other's
    class; and with at most ten eligible discounts no compatible set of them saves more. *)
Theorem discount_set_is_optimal x :
  let eligible := eligible_list x in
  let chosen := bestSet eligible x in
  (forall i j e f, (i < j)%nat -> chosen !! i = Some e -> chosen !! j = Some f ->
     canCombine (eg_discountClass e, eg_combinesWith e) (eg_discountClass f, eg_combinesWith f) = true) /\
  (forall e, e ∈ chosen -> e ∈ eligible) /\
  ((length eligible <= EXHAUSTIVE_LIMIT)%nat ->
   forall set, sublist set eligible -> isCompatible set = true ->
     saving (applySet set x) <= saving (applySet chosen x)).
Proof.
  intros eligible chosen. destruct (bestSet_spec x eligible) as (Hc & _). split.
  { intros i j e f. by apply isCompatible_pairs. }
  split; [by intros e ?%bestSet_elem|].
  intros Hl set Hs Hset. unfold chosen, bestSet. rewrite bool_decide_true by done.
  destruct (best_fold x eligible (seq 1 (2 ^ length eligible - 1)) []) as (_ & _ & H0 & Hm).
  destruct (sublist_subset _ _ Hs) as (mask & Hlt & <-). destruct (decide (mask = 0%nat)) as [->|Hz].
  - assert (E : subset eligible 0 = []); [|by rewrite E].
    clear. induction eligible as [|e l IH]; [done|]. by rewrite subset_cons.
  - apply Hm; [|done]. apply elem_of_seq. lia.
Qed.

(** Only entitled discounts apply. Every discount in the result belongs to a candidate that no check
    rejects: its promotion is running within its schedule and below its usage limit; a coded one was
    entered, among the first five codes, and its coupon is active; an uncoded one is automatic. *)
Theorem applied_discounts_are_entitled x a :
  a ∈ dr_applied (calculateDiscounts x) ->
  exists c, c ∈ di_candidates x /\ ap_promotionId a = agg_id (cn_promotion c) /\ ap_code a = code_of c /\
    rejectionFor c x = None /\
    let p := promo_props c in
    (pr_status p = active \/ pr_status p = scheduled) /\
    isActiveAt (pr_schedule p) (di_now x) = true /\
    (forall limit, pr_usageLimit p = Some limit -> pr_usageCount p < limit) /\
    match cn_coupon c with
    | Some coupon => cp_status coupon = cs_active /\
        (exists typed, typed ∈ di_enteredCodes x /\
           normalizeDiscountCode typed = normalizeDiscountCode (cp_code coupon))
    | None => pr_method p = Some m_automatic
    end.
Proof.
  unfold calculateDiscounts. cbn [dr_applied]. intros [_ Ha]%list_elem_of_filter.
  apply list_elem_of_lookup in Ha as [i Hi].
  destruct (Forall2_lookup_r _ _ _ _ _ (applied_entries x _) Hi) as (e & He & amount & ->).
  apply list_elem_of_lookup_2 in He. rewrite sort_by_perm in He.
  apply bestSet_elem, eligible_elem in He as (c & Hc & -> & Hcons & Hrej).
  exists c. do 4 (split; [done|]). revert Hrej Hcons. unfold rejectionFor, considered, code_of.
  intros Hrej Hcons. cbv zeta. cbn [first_some] in Hrej. set (p := promo_props c) in *.
  destruct (cn_coupon c ≫= _) eqn:E1; [done|]. destruct (status_rejection _) eqn:E2; [done|].
  destruct (schedule_rejection _ _) eqn:E3; [done|]. destruct (eligibility_rejection _ _ _) eqn:E4; [done|].
  destruct (usage_rejection _ _ _) eqn:E5; [done|]. split_and!.
  - destruct (pr_status p); try done; auto.
  - unfold schedule_rejection in E3. unfold isActiveAt.
    destruct (bool_decide (di_now x < sd_startsAt (pr_schedule p))); [done|].
    unfold isExpiredAt in E3. destruct (sd_endsAt (pr_schedule p)) as [e|]; [|done].
    destruct (bool_decide (e <= di_now x)) eqn:E; [done|]. apply bool_decide_eq_false in E.
    by rewrite bool_decide_true by lia.
  - intros limit Hl. unfold usage_rejection, limit_reached in E5. rewrite Hl in E5.
    destruct (bool_decide (limit <= pr_usageCount p)) eqn:E; [done|]. apply bool_decide_eq_false in E. lia.
  - destruct (cn_coupon c) as [coupon|]; cbn in *; [|by apply bool_decide_eq_true in Hcons].
    split; [unfold coupon_rejection in E1; by destruct (cp_status coupon)|].
    apply bool_decide_eq_true in Hcons. apply take_elem, list_elem_of_filter in Hcons as [_ Hin].
    apply elem_of_unique, list_elem_of_fmap in Hin as (typed & -> & ?). by exists typed.
Qed.

(** What is said of a code is what happens with it. Every code entered (trimmed, upper case, once)
    gets one status, in order; it is applicable exactly when a discount carrying it is in the result;
    at most five are. *)
Theorem code_applicable_iff_applied x :
  let r := calculateDiscounts x in
  (st_code <$> dr_codeStatuses r) = entered x /\ NoDup (entered x) /\
  (forall s, s ∈ dr_codeStatuses r ->
     st_applicable s = true <-> exists a, a ∈ dr_applied r /\ ap_code a = Some (st_code s)) /\
  (length (filter (fun s => st_applicable s = true) (dr_codeStatuses r)) <= MAX_DISCOUNT_CODES)%nat.
Proof.
  intros r. assert (Hn : NoDup (entered x)) by (unfold entered; apply NoDup_filter, NoDup_unique).
  unfold r, calculateDiscounts. cbn [dr_codeStatuses dr_applied].
  set (empty := empty_codes x _). set (chosen := filter (fun c => c ∉ empty) _).
  set (status := code_status x (eligible_list x) empty chosen). split_and!; [| done | |].
  - apply list_eq. intros i. rewrite list_lookup_fmap, list_lookup_imap.
    destruct (entered x !! i); cbn; [|done]. unfold status. by rewrite status_code.
  - intros s Hs. apply list_elem_of_lookup in Hs as [i Hi]. rewrite list_lookup_imap in Hi.
    destruct (entered x !! i) as [code|] eqn:Hcode; [|done]. cbn in Hi. injection Hi as <-.
    unfold status. rewrite status_code, status_applicable. split.
    + intros (Hlt & He & (_ & (e & Hin & He')%list_elem_of_omap)%list_elem_of_filter).
      destruct (applied_with_code x e code Hin He') as (a & Ha & Hac). exists a. split; [|done].
      apply list_elem_of_filter. split; [|done]. unfold kept. rewrite Hac. by rewrite bool_decide_false.
    + intros (a & [Hk Ha]%list_elem_of_filter & Hac). unfold kept in Hk. rewrite Hac in Hk.
      apply negb_true_iff, bool_decide_eq_false in Hk. fold empty in Hk.
      assert (Hin : code ∈ omap eg_code (bestSet (eligible_list x) x)).
      { rewrite <- (omap_Permutation eg_code _ _ (sort_by_perm before (bestSet (eligible_list x) x))).
        rewrite <- (applied_codes x). apply list_elem_of_omap. by exists a. }
      split; [|split; [done|by apply list_elem_of_filter]].
      apply list_elem_of_omap in Hin as (e & (c & _ & -> & Hcons & _)%bestSet_elem%eligible_elem & He).
      unfold considered in Hcons. cbn in He. rewrite He in Hcons. apply bool_decide_eq_true in Hcons.
      apply elem_of_take in Hcons as (j & Hj & Hlt). by rewrite (NoDup_lookup _ _ _ _ Hn Hcode Hj).
  - apply imap_filter_bound. intros i code Hi. apply not_true_iff_false. intros Hs.
    apply status_applicable in Hs as [? _]. lia.
Qed.

(** Splitting an amount over lines is exact and fair. When the amount is at most the lines' total,
    the shares add up to it exactly, each is between zero and its line's amount, and none is a whole
    unit away from the exact proportion. *)
Theorem allocate_exact_and_fair total base :
  NoDup base.*1 -> (forall b, b ∈ base -> 0 <= b.2) -> 0 < total <= sumZ snd base ->
  (allocate total base).*1 = base.*1 /\ sumZ snd (allocate total base) = total /\
  forall k v, (k, v) ∈ allocate total base -> exists a, (k, a) ∈ base /\ 0 <= v <= a /\
    total * a - sumZ snd base < sumZ snd base * v < total * a + sumZ snd base.
Proof.
  intros Hn Ha Ht. destruct (allocate_spec total base Hn Ha) as (H1 & _ & H3); [lia|].
  split; [done|]. split; [lia|]. intros k v. unfold allocate.
  rewrite (bool_decide_false (total <= 0)), (bool_decide_false (sumZ snd base <= 0)) by lia. cbn [orb].
  rewrite map_of_id.
  - intros (s & [= -> ->] & Hs)%list_elem_of_fmap. apply (value_bounds total base Ha Ht s Hs).
  - rewrite <- list_fmap_compose. rewrite <- (shares_refs total base) in Hn. exact Hn.
Qed.

(** Buy X get Y ends and counts fairly. When the number to buy is positive, as a valid reward's is,
    the loop ends by itself: giving it more turns changes nothing. What it then gives is some number of
    times the quantity to get, against that number of times the quantity to buy, all different units,
    the bought ones among those that qualify for buying and the free ones among those to get, and no
    more often than the uses allowed. *)
Theorem buy_x_get_y_loop_is_fair units buysRefs getsRefs buysValue getsQuantity maxUses fuel :
  (1 <= buysValue)%nat -> (length units < fuel)%nat ->
  let bo := buys_order units buysRefs in
  let go := gets_order units getsRefs in
  let got := bxgy_loop (S (length units)) bo go buysValue getsQuantity maxUses 0 [] [] in
  bxgy_loop fuel bo go buysValue getsQuantity maxUses 0 [] [] = got /\
  exists n bought, turns bo go buysValue getsQuantity maxUses n bought got.
Proof.
  intros Hbv Hf bo go got. assert (Hl := buys_order_length units buysRefs). fold bo in Hl.
  assert (Hu : (length (filter (fun i => i ∉ []) bo) <= length bo)%nat) by apply length_filter.
  split; [apply loop_fuel; [done|lia|lia]|].
  apply (loop_turns bo go buysValue getsQuantity maxUses _ 0 [] [] []); [apply buys_order_NoDup|apply gets_order_NoDup|done|].
  split; try done; [constructor|by intros i ?%elem_of_nil|by intros i ?%elem_of_nil|]. intros m _. lia.
Qed.

(** ** Witnesses *)

(** Two shirts and a mug; ten percent off everything, and a code that takes 300 off each shirt. *)
Definition shirt := mkLine "l1" "shirt" ["clothes"] 2 1999.
Definition mug := mkLine "l2" "mug" [] 1 1001.
Definition sample_promo (id name : string) (scope : PromotionScope) (targets : list string)
    (reward : PromotionReward) (method : DiscountMethod) : Promotion :=
  new_agg (mkPromotion name (mkRule rt_automatic (mkCondition scope targets None None) reward true 0)
    (mkSchedule 0 (Some 100)) everyone None (Some 5) 2 active (Some method) COMBINES_WITH_EVERYTHING) id.
Definition ten_percent := sample_promo "p1" "Ten percent" sc_cart []
  (mkReward rw_percentage (Some 10%Q) None None None None None None None None) m_automatic.
Definition shirts_off := sample_promo "p2" "Shirts" sc_product ["shirt"]
  (mkReward rw_fixed_amount (Some 300%Q) None None None None None None None None) m_code.
Definition shirt_coupon := mkCoupon "c1" "Shirt300" cs_active None 0 true None None [].
Definition sample_input : CalculateDiscountsInput :=
  mkDiscountsInput [shirt; mug] (Some (mkShipping "AE" 500)) (mkCustomer (Some "u1") None)
    [" shirt300 "; "NOPE"] [mkCandidate ten_percent None; mkCandidate shirts_off (Some shirt_coupon)] 50.

Lemma sample_wf : wf_input sample_input.
Proof.
  split.
  - repeat (apply NoDup_cons; split; [set_solver|]). constructor.
  - intros l Hl. repeat (apply elem_of_cons in Hl as [->|Hl]; [cbn; lia|]). by apply elem_of_nil in Hl.
  - intros s [= <-]. cbn. lia.
  - intros c Hc. repeat (apply elem_of_cons in Hc as [->|Hc]; [reflexivity|]). by apply elem_of_nil in Hc.
  - repeat constructor; set_solver.
Qed.

Lemma discounts_never_exceed_totals_witness :
  dr_lineAllocations (calculateDiscounts sample_input) = [("l1", 939); ("l2", 100)] /\
  0 <= dr_orderDiscountMinor (calculateDiscounts sample_input) <= sumZ lineTotal (di_lines sample_input).
Proof. split; [by vm_compute|]. apply (discounts_never_exceed_totals sample_input sample_wf). Defined.

Lemma discount_set_is_optimal_witness :
  saving (applySet [] sample_input) <= saving (applySet (bestSet (eligible_list sample_input) sample_input) sample_input).
Proof.
  apply (discount_set_is_optimal sample_input).
  - vm_compute. lia.
  - apply sublist_nil_l.
  - reflexivity.
Defined.

Lemma applied_discounts_are_entitled_witness :
  exists c, c ∈ di_candidates sample_input /\ code_of c = Some "SHIRT300" /\ rejectionFor c sample_input = None.
Proof.
  assert (H : mkApplied "p2" (Some "c1") (Some "SHIRT300") "Shirts" c_product 600 ∈
    dr_applied (calculateDiscounts sample_input)) by (vm_compute; left).
  apply (applied_discounts_are_entitled sample_input) in H as (c & Hc & _ & Hcode & Hr & _). by exists c.
Defined.

Lemma code_applicable_iff_applied_witness :
  exists a, a ∈ dr_applied (calculateDiscounts sample_input) /\ ap_code a = Some "SHIRT300".
Proof.
  apply (proj1 (proj2 (proj2 (code_applicable_iff_applied sample_input))) (mkCodeStatus "SHIRT300" true None)).
  - vm_compute. left.
  - reflexivity.
Defined.

Lemma allocate_exact_and_fair_witness :
  allocate 100 [("l1", 3998); ("l2", 1001); ("l3", 1)] = [("l1", 80); ("l2", 20); ("l3", 0)] /\
  sumZ snd (allocate 100 [("l1", 3998); ("l2", 1001); ("l3", 1)]) = 100.
Proof.
  split; [by vm_compute|]. apply allocate_exact_and_fair.
  - repeat (apply NoDup_cons; split; [set_solver|]). constructor.
  - intros b Hb. repeat (apply elem_of_cons in Hb as [->|Hb]; [cbn; lia|]). by apply elem_of_nil in Hb.
  - vm_compute. split; done.
Defined.

Lemma buy_x_get_y_loop_is_fair_witness :
  let units := units_of [shirt; mug] [("l1", 3998); ("l2", 1001)] in
  let loop fuel := bxgy_loop fuel (buys_order units ["l1"]) (gets_order units ["l2"]) 2 1 None 0 [] [] in
  loop 4%nat = [2%nat] /\ loop 99%nat = loop 4%nat.
Proof. split; [by vm_compute|]. apply (buy_x_get_y_loop_is_fair (units_of [shirt; mug] _)); vm_compute; lia. Defined.
