(* ===== verification/Expression.v ===== *)
(** The expression kernel: [packages/expression/src]. Conditions are data: their structural limits,
    their validation when a rule is stored, and their evaluation in a context of plain objects. *)
From Stdlib Require Import Ascii SpecFloat.
From S2P Require Import Prelude.

#[global] Open Scope Z_scope.
Set Warnings "-register-all".

(** ** Values

    A number is a double, as [SpecFloat] has it; a string is compared by code units. *)

Inductive Scalar := SStr (s : string) | SNum (x : spec_float) | SBool (b : bool) | SNull.

Definition is_nan (x : spec_float) : bool := match x with S754_nan => true | _ => false end.

(** [a === b] *)
Definition strict_eq (a b : Scalar) : bool :=
  match a, b with
  | SStr s, SStr t => bool_decide (s = t)
  | SNum x, SNum y => SFeqb x y
  | SBool x, SBool y => Bool.eqb x y
  | SNull, SNull => true
  | _, _ => false
  end.

(** [array.includes] compares like [===], except that [NaN] is found. *)
Definition same_value_zero (a b : Scalar) : bool :=
  strict_eq a b || match a, b with SNum x, SNum y => is_nan x && is_nan y | _, _ => false end.
Definition includes (set : list Scalar) (v : Scalar) : bool := existsb (same_value_zero v) set.

Definition typeof (v : Scalar) : string :=
  match v with SStr _ => "string" | SNum _ => "number" | SBool _ => "boolean" | SNull => "object" end.

(** What a dot path can reach: the context's own plain data, and what a plain object inherits from
    [Object.prototype] (its methods, and the prototype itself under [__proto__]). *)
Inductive ContextValue :=
| VScalar (v : Scalar)
| VUndefined
| VObject (own : list (string * ContextValue))
| VArray (items : list ContextValue)
| VFunction
| VObjectPrototype.

Definition EvaluationContext := list (string * ContextValue).

Fixpoint own_property (k : string) (own : list (string * ContextValue)) : option ContextValue :=
  match own with
  | [] => None
  | (k', v) :: own' => if bool_decide (k' = k) then Some v else own_property k own'
  end.

Definition prototype_methods : list string :=
  ["constructor"; "__defineGetter__"; "__defineSetter__"; "hasOwnProperty"; "__lookupGetter__";
   "__lookupSetter__"; "isPrototypeOf"; "propertyIsEnumerable"; "toString"; "valueOf"; "toLocaleString"].

Definition inherited (k : string) (otherwise : ContextValue) : ContextValue :=
  if bool_decide (k ∈ prototype_methods) then VFunction else otherwise.

(** [current[segment]] of an object that is not an array, [undefined] for everything else. *)
Definition member (current : ContextValue) (segment : string) : ContextValue :=
  match current with
  | VObject own =>
      match own_property segment own with
      | Some v => v
      | None => inherited segment (if bool_decide (segment = "__proto__") then VObjectPrototype else VUndefined)
      end
  | VObjectPrototype => inherited segment (if bool_decide (segment = "__proto__") then VScalar SNull else VUndefined)
  | _ => VUndefined
  end.

(** [path.split(".")] *)
Definition split_dot (s : string) : list string := split_on "."%char s.

Definition resolvePath (context : EvaluationContext) (path : string) : ContextValue :=
  foldl member (VObject context) (split_dot path).

Definition asScalar (v : ContextValue) : option Scalar :=
  match v with VScalar s => Some s | _ => None end.

(** ** Expressions *)

Inductive ComparisonOperator := op_eq | op_neq | op_gt | op_gte | op_lt | op_lte | op_contains | op_starts_with | op_ends_with.

Inductive Expression :=
| Literal (value : Scalar)
| Ref (path : string)
| Exists (path : string)
| Not (operand : Expression)
| And (operands : list Expression)
| Or (operands : list Expression)
| Compare (op : ComparisonOperator) (left right : Expression)
| In (value : Expression) (set : list Scalar).

(** [not_boolean]'s detail is a literal's value or a reference's path. *)
Inductive NotBooleanDetail := nb_literal (value : Scalar) | nb_path (path : string).

Inductive EvaluationError :=
| unknown_reference (path : string)
| type_mismatch (operator : ComparisonOperator) (detail : string)
| not_boolean (detail : NotBooleanDetail)
| e_depth_exceeded (limit : nat)
| e_nodes_exceeded (limit : nat).

Definition evaluation (A : Type) := (A + EvaluationError)%type.

Definition op_name (op : ComparisonOperator) : string :=
  match op with
  | op_eq => "eq" | op_neq => "neq" | op_gt => "gt" | op_gte => "gte" | op_lt => "lt" | op_lte => "lte"
  | op_contains => "contains" | op_starts_with => "starts_with" | op_ends_with => "ends_with"
  end.

(** ** Structural limits *)

Definition MAX_EXPRESSION_DEPTH : nat := 32.
Definition MAX_EXPRESSION_NODES : nat := 512.

(** [walk]: the deepest level under a node at [depth]; the node counter is threaded through. *)
Fixpoint walk (node : Expression) (depth nodes : nat) : nat * nat :=
  let nodes := S nodes in
  match node with
  | Literal _ | Ref _ | Exists _ => (depth, nodes)
  | Not e => walk e (S depth) nodes
  | In e _ => walk e (S depth) nodes
  | Compare _ l r =>
      let '(dl, nodes) := walk l (S depth) nodes in
      let '(dr, nodes) := walk r (S depth) nodes in
      (Nat.max dl dr, nodes)
  | And es | Or es =>
      foldl (fun '(deepest, nodes) e =>
        let '(d, nodes) := walk e (S depth) nodes in (Nat.max deepest d, nodes)) (depth, nodes) es
  end.

Definition measureExpression (e : Expression) : nat * nat := walk e 1 0.

Inductive AndOr := k_and | k_or.
Inductive ExpressionStructureError :=
| depth_exceeded (depth limit : nat)
| nodes_exceeded (nodes limit : nat)
| empty_operands (kind : AndOr)
| empty_path
| empty_set.

Fixpoint structure_errors (node : Expression) : list ExpressionStructureError :=
  match node with
  | Literal _ => []
  | Ref path | Exists path => if bool_decide (trim path = EmptyString) then [empty_path] else []
  | Not e => structure_errors e
  | Compare _ l r => structure_errors l ++ structure_errors r
  | In e set => (if bool_decide (length set = 0%nat) then [empty_set] else []) ++ structure_errors e
  | And es => (if bool_decide (length es = 0%nat) then [empty_operands k_and] else []) ++ (es ≫= structure_errors)
  | Or es => (if bool_decide (length es = 0%nat) then [empty_operands k_or] else []) ++ (es ≫= structure_errors)
  end.

Definition validateExpressionStructure (e : Expression) : list ExpressionStructureError :=
  let '(depth, nodes) := measureExpression e in
  (if bool_decide (MAX_EXPRESSION_DEPTH < depth)%nat then [depth_exceeded depth MAX_EXPRESSION_DEPTH] else []) ++
  (if bool_decide (MAX_EXPRESSION_NODES < nodes)%nat then [nodes_exceeded nodes MAX_EXPRESSION_NODES] else []) ++
  structure_errors e.

(** ** Evaluation *)

Inductive StringTest := t_contains | t_starts_with | t_ends_with.

(** [left.startsWith(right)], [left.endsWith(right)]; [left.includes(right)] is [contains]. *)
Definition starts_with (left right : string) : bool := String.prefix right left.
Fixpoint ends_with (left right : string) : bool :=
  bool_decide (left = right) || match left with EmptyString => false | String _ left' => ends_with left' right end.

Definition orderNumbers (op : ComparisonOperator) (x y : spec_float) : bool :=
  match op with op_gt => SFltb y x | op_gte => SFleb y x | op_lt => SFltb x y | _ => SFleb x y end.
Definition orderStrings (op : ComparisonOperator) (s t : string) : bool :=
  match op with
  | op_gt => negb (string_le s t) | op_gte => string_le t s
  | op_lt => negb (string_le t s) | _ => string_le s t
  end.

Definition compare (op : ComparisonOperator) (left right : Scalar) : evaluation bool :=
  match op with
  | op_eq => inl (strict_eq left right)
  | op_neq => inl (negb (strict_eq left right))
  | op_gt | op_gte | op_lt | op_lte =>
      match left, right with
      | SNum x, SNum y => inl (orderNumbers op x y)
      | SStr s, SStr t => inl (orderStrings op s t)
      | _, _ => inr (type_mismatch op ("cannot order " +:+ typeof left +:+ " against " +:+ typeof right))
      end
  | op_contains | op_starts_with | op_ends_with =>
      match left, right with
      | SStr s, SStr t =>
          inl (match op with
               | op_contains => contains s t | op_starts_with => starts_with s t | _ => ends_with s t
               end)
      | _, _ => inr (type_mismatch op (op_name op +:+ " requires two strings"))
      end
  end.

Definition evaluateRef (path : string) (context : EvaluationContext) : evaluation Scalar :=
  match resolvePath context path with
  | VUndefined => inr (unknown_reference path)
  | raw =>
      match asScalar raw with
      | Some s => inl s
      | None => inr (type_mismatch op_eq (path +:+ " is not a scalar"))
      end
  end.

Definition exists_at (path : string) (context : EvaluationContext) : bool :=
  match resolvePath context path with VUndefined | VScalar SNull => false | _ => true end.

(** [evaluateValue], given [evaluateNode]. *)
Definition value_with (node : Expression -> evaluation bool) (context : EvaluationContext) (e : Expression) :
    evaluation Scalar :=
  match e with
  | Literal v => inl v
  | Ref path => evaluateRef path context
  | _ => match node e with inl b => inl (SBool b) | inr x => inr x end
  end.

(** The loops of [and] and [or]: the first operand that is [stop] decides. *)
Fixpoint decide_on (stop : bool) (node : Expression -> evaluation bool) (operands : list Expression) :
    evaluation bool :=
  match operands with
  | [] => inl (negb stop)
  | e :: l =>
      match node e with
      | inl b => if Bool.eqb b stop then inl stop else decide_on stop node l
      | inr x => inr x
      end
  end.

Fixpoint evaluateNode (context : EvaluationContext) (e : Expression) {struct e} : evaluation bool :=
  match e with
  | Literal (SBool b) => inl b
  | Literal v => inr (not_boolean (nb_literal v))
  | Ref path =>
      match evaluateRef path context with
      | inl (SBool b) => inl b
      | inl _ => inr (not_boolean (nb_path path))
      | inr x => inr x
      end
  | Exists path => inl (exists_at path context)
  | Not operand => match evaluateNode context operand with inl b => inl (negb b) | inr x => inr x end
  | And operands => decide_on false (evaluateNode context) operands
  | Or operands => decide_on true (evaluateNode context) operands
  | Compare op lhs rhs =>
      match value_with (evaluateNode context) context lhs with
      | inr x => inr x
      | inl l =>
          match value_with (evaluateNode context) context rhs with
          | inr x => inr x
          | inl r => compare op l r
          end
      end
  | In value set =>
      match value_with (evaluateNode context) context value with
      | inr x => inr x
      | inl v => inl (includes set v)
      end
  end.

Definition evaluateValue (context : EvaluationContext) : Expression -> evaluation Scalar :=
  value_with (evaluateNode context) context.

Definition evaluate (e : Expression) (context : EvaluationContext) : evaluation bool :=
  let '(depth, nodes) := measureExpression e in
  if bool_decide (MAX_EXPRESSION_DEPTH < depth)%nat then inr (e_depth_exceeded MAX_EXPRESSION_DEPTH)
  else if bool_decide (MAX_EXPRESSION_NODES < nodes)%nat then inr (e_nodes_exceeded MAX_EXPRESSION_NODES)
  else evaluateNode context e.

Definition evaluateOrFalse (e : Expression) (context : EvaluationContext) : bool :=
  match evaluate e context with inl b => b | inr _ => false end.

(** ** Nodes, and induction over them *)

Definition operands_of (e : Expression) : list Expression :=
  match e with
  | Literal _ | Ref _ | Exists _ => []
  | Not e | In e _ => [e]
  | And es | Or es => es
  | Compare _ l r => [l; r]
  end.

Lemma expression_ind (P : Expression -> Prop) :
  (forall e, Forall P (operands_of e) -> P e) -> forall e, P e.
Proof.
  intros H. fix IH 1. intros e. apply H. destruct e as [| | |e|es|es|op l r|e s]; cbn; repeat constructor; try apply IH.
  - induction es as [|e es IHes]; constructor; [apply IH|exact IHes].
  - induction es as [|e es IHes]; constructor; [apply IH|exact IHes].
Qed.

Ltac forall_inv H := apply (proj1 (Forall_singleton _ _)) in H; cbn beta in H.

(** Every node of an expression, and how deep it nests. *)
Fixpoint subexpressions (e : Expression) : list Expression :=
  e :: match e with
       | Literal _ | Ref _ | Exists _ => []
       | Not e | In e _ => subexpressions e
       | And es | Or es => es ≫= subexpressions
       | Compare _ l r => subexpressions l ++ subexpressions r
       end.

Definition max_list : list nat -> nat := foldr Nat.max 0%nat.
Fixpoint nesting (e : Expression) : nat :=
  S match e with
    | Literal _ | Ref _ | Exists _ => 0
    | Not e | In e _ => nesting e
    | And es | Or es => max_list (map nesting es)
    | Compare _ l r => Nat.max (nesting l) (nesting r)
    end.

(** What a stored node must be. *)
Definition node_ok (e : Expression) : Prop :=
  match e with
  | Ref path | Exists path => trim path <> EmptyString
  | And es | Or es => es <> []
  | In _ set => set <> []
  | _ => True
  end.

Lemma walk_operands es depth nodes deepest :
  Forall (fun e => forall d n, walk e (S d) n = (d + nesting e, n + length (subexpressions e))%nat) es ->
  (depth <= deepest)%nat ->
  foldl (fun '(deepest, nodes) e =>
    let '(d, nodes) := walk e (S depth) nodes in (Nat.max deepest d, nodes)) (deepest, nodes) es =
  (Nat.max deepest (depth + max_list (map nesting es)), nodes + length (es ≫= subexpressions))%nat.
Proof.
  intros H. revert deepest nodes. induction H as [|e es He _ IH]; intros deepest nodes Hd; cbn.
  { f_equal; lia. }
  rewrite He. unfold mbind in *. rewrite IH by lia. f_equal; [lia|]. rewrite length_app. lia.
Qed.

Lemma walk_spec e depth nodes :
  walk e (S depth) nodes = (depth + nesting e, nodes + length (subexpressions e))%nat.
Proof.
  revert depth nodes. induction e as [e IH] using expression_ind. intros depth nodes.
  destruct e as [v|p|p|e|es|es|op l r|e s]; cbn [walk operands_of nesting subexpressions length] in *;
    try (f_equal; lia).
  - forall_inv IH. rewrite IH. f_equal; lia.
  - rewrite (walk_operands es (S depth)) by (done || lia). f_equal; lia.
  - rewrite (walk_operands es (S depth)) by (done || lia). f_equal; lia.
  - apply (proj1 (Forall_cons _ _ _)) in IH as [Hl Hr]. cbn beta in Hl. forall_inv Hr. rewrite Hl, Hr, length_app. f_equal; lia.
  - forall_inv IH. rewrite IH. f_equal; lia.
Qed.

Lemma measure_spec e : measureExpression e = (nesting e, length (subexpressions e)).
Proof. unfold measureExpression. by rewrite walk_spec. Qed.

Lemma bind_nil {A B} (f : A -> list B) l : l ≫= f = [] <-> Forall (fun x => f x = []) l.
Proof.
  induction l as [|x l IH]; cbn; [by split|]. rewrite Forall_cons, <- IH. split.
  - by intros [? ?]%app_nil.
  - by intros [-> ->].
Qed.

Lemma structure_errors_nil e : structure_errors e = [] <-> Forall node_ok (subexpressions e).
Proof.
  induction e as [e IH] using expression_ind.
  assert (Hops : forall es, Forall (fun e => structure_errors e = [] <-> Forall node_ok (subexpressions e)) es ->
    es ≫= structure_errors = [] <-> Forall node_ok (es ≫= subexpressions)).
  { intros es Hes. rewrite bind_nil, Forall_bind, !Forall_forall. rewrite Forall_forall in Hes. naive_solver. }
  destruct e as [v|p|p|e|es|es|op l r|e s]; cbn [structure_errors subexpressions operands_of node_ok] in *;
    rewrite Forall_cons; cbn [node_ok].
  - split; [by repeat constructor|done].
  - case_bool_decide; (split; [naive_solver|]); [tauto|done].
  - case_bool_decide; (split; [naive_solver|]); [tauto|done].
  - forall_inv IH. rewrite IH. tauto.
  - specialize (Hops es IH). destruct es; cbn; [split; [done|by intros []]|]. rewrite bool_decide_false by done.
    cbn [app]. rewrite Hops. naive_solver.
  - specialize (Hops es IH). destruct es; cbn; [split; [done|by intros []]|]. rewrite bool_decide_false by done.
    cbn [app]. rewrite Hops. naive_solver.
  - apply (proj1 (Forall_cons _ _ _)) in IH as [Hl Hr]. cbn beta in Hl. forall_inv Hr. rewrite app_nil, Hl, Hr, Forall_app. tauto.
  - forall_inv IH. destruct s; cbn; [split; [done|by intros []]|]. rewrite bool_decide_false by done.
    cbn [app]. rewrite IH. naive_solver.
Qed.

(** ** Typing conditions

    An environment says which paths hold a scalar of which sort. A condition that is typed in it cannot
    fail: the check an author would want when a rule is stored. *)

Inductive Sort := TStr | TNum | TBool | TNull.
#[export] Instance Sort_eq_dec : EqDecision Sort.
Proof. solve_decision. Defined.

Definition sort_of (v : Scalar) : Sort :=
  match v with SStr _ => TStr | SNum _ => TNum | SBool _ => TBool | SNull => TNull end.

Definition Env := string -> option Sort.

Definition conforms (env : Env) (context : EvaluationContext) : Prop :=
  forall path s, env path = Some s -> exists v, resolvePath context path = VScalar v /\ sort_of v = s.

Definition comparable (op : ComparisonOperator) (s t : Sort) : bool :=
  match op with
  | op_eq | op_neq => true
  | op_gt | op_gte | op_lt | op_lte =>
      match s, t with TNum, TNum | TStr, TStr => true | _, _ => false end
  | op_contains | op_starts_with | op_ends_with => match s, t with TStr, TStr => true | _, _ => false end
  end.

Definition value_sort (env : Env) (typed : Expression -> bool) (e : Expression) : option Sort :=
  match e with
  | Literal v => Some (sort_of v)
  | Ref path => env path
  | _ => if typed e then Some TBool else None
  end.

Fixpoint typed (env : Env) (e : Expression) {struct e} : bool :=
  match e with
  | Literal v => bool_decide (sort_of v = TBool)
  | Ref path => bool_decide (env path = Some TBool)
  | Exists _ => true
  | Not e => typed env e
  | And es | Or es => forallb (typed env) es
  | Compare op l r =>
      match value_sort env (typed env) l, value_sort env (typed env) r with
      | Some s, Some t => comparable op s t
      | _, _ => false
      end
  | In e _ => bool_decide (is_Some (value_sort env (typed env) e))
  end.

Lemma compare_ok op l r : comparable op (sort_of l) (sort_of r) = true -> exists b, compare op l r = inl b.
Proof. destruct op, l, r; cbn; try done; eauto. Qed.

Lemma ref_ok env context path s :
  conforms env context -> env path = Some s -> exists v, evaluateRef path context = inl v /\ sort_of v = s.
Proof. intros Hc Hp. destruct (Hc path s Hp) as (v & Hr & Hs). exists v. unfold evaluateRef. by rewrite Hr. Qed.

Definition evaluates env context (e : Expression) : Prop :=
  typed env e = true -> exists b, evaluateNode context e = inl b.

Lemma value_ok env context e s :
  conforms env context -> evaluates env context e ->
  value_sort env (typed env) e = Some s ->
  exists v, value_with (evaluateNode context) context e = inl v /\ sort_of v = s.
Proof.
  intros Hc He Hs. unfold value_with, value_sort, evaluates in *.
  destruct e; try (destruct (typed env _) eqn:Ht; [|done]; injection Hs as <-; destruct (He eq_refl) as [b ->]; by eexists).
  - injection Hs as <-. by eexists.
  - by eapply ref_ok.
Qed.

Lemma decide_on_ok env context stop es :
  Forall (evaluates env context) es -> forallb (typed env) es = true ->
  exists b, decide_on stop (evaluateNode context) es = inl b.
Proof.
  induction 1 as [|e es He _ IH]; cbn; [by eexists|]. intros [Ht Hes]%andb_true_iff.
  destruct (He Ht) as [b ->]. destruct (Bool.eqb b stop); eauto.
Qed.

Lemma node_ok_typed env context e : conforms env context -> evaluates env context e.
Proof.
  intros Hc. induction e as [e IH] using expression_ind. intros Ht.
  destruct e as [v|p|p|e|es|es|op l r|e s]; cbn in Ht, IH |- *.
  - apply bool_decide_eq_true in Ht. destruct v; try done; eauto.
  - apply bool_decide_eq_true in Ht. destruct (ref_ok env context p TBool Hc Ht) as (v & -> & Hs).
    destruct v; try done; eauto.
  - eauto.
  - forall_inv IH. destruct (IH Ht) as [b ->]. eauto.
  - by eapply decide_on_ok.
  - by eapply decide_on_ok.
  - apply (proj1 (Forall_cons _ _ _)) in IH as [Hl Hr]. cbn beta in Hl. forall_inv Hr.
    destruct (value_sort env (typed env) l) as [sl|] eqn:El; [|done].
    destruct (value_sort env (typed env) r) as [sr|] eqn:Er; [|done].
    destruct (value_ok env context l sl Hc Hl El) as (vl & -> & <-).
    destruct (value_ok env context r sr Hc Hr Er) as (vr & -> & <-). by apply compare_ok.
  - forall_inv IH. apply bool_decide_eq_true in Ht as [se Es].
    destruct (value_ok env context e se Hc IH Es) as (v & -> & _). eauto.
Qed.

(** ** Short-circuit evaluation *)

Lemma decide_on_inl stop node es b :
  decide_on stop node es = inl b <->
  (b = negb stop /\ Forall (fun e => node e = inl (negb stop)) es) \/
  (b = stop /\ exists before e after, es = before ++ e :: after /\
     Forall (fun e => node e = inl (negb stop)) before /\ node e = inl stop).
Proof.
  induction es as [|e es IH]; cbn.
  - split; [intros [= <-]; by left|]. intros [[-> _]|(_ & [|? ?] & ? & ? & [=] & _)]. done.
  - destruct (node e) as [c|x] eqn:He.
    + destruct (Bool.eqb c stop) eqn:Hc.
      * apply eqb_prop in Hc as ->. split; [intros [= <-]; right; split; [done|]; by exists [], e, es|].
        intros [[_ Hf]|[-> _]]; [|done]. apply Forall_cons in Hf as [Hf _]. rewrite He in Hf. by destruct stop.
      * assert (c = negb stop) as -> by (by destruct c, stop). rewrite IH. split.
        -- intros [[-> Hf]|(-> & before & e' & after & -> & Hb & He')]; [left; split; [done|by constructor]|right].
           split; [done|]. exists (e :: before), e', after. split_and!; [done|by constructor|done].
        -- intros [[-> Hf]|(-> & before & e' & after & Heq & Hb & He')].
           ++ left. split; [done|]. by apply Forall_cons in Hf as [_ ?].
           ++ right. split; [done|]. destruct before as [|e0 before]; injection Heq as -> ->.
              { rewrite He in He'. by destruct stop. }
              apply Forall_cons in Hb as [_ ?]. by eexists _, _, _.
    + split; [done|]. intros [[_ Hf]|(_ & before & e' & after & Heq & Hb & He')].
      * apply Forall_cons in Hf as [Hf _]. by rewrite He in Hf.
      * destruct before as [|e0 before]; injection Heq as -> ->; [by rewrite He in He'|].
        apply Forall_cons in Hb as [Hb _]. by rewrite He in Hb.
Qed.

Lemma decide_on_inr stop node es x :
  decide_on stop node es = inr x <->
  exists before e after, es = before ++ e :: after /\
    Forall (fun e => node e = inl (negb stop)) before /\ node e = inr x.
Proof.
  induction es as [|e es IH]; cbn.
  - split; [done|]. by intros ([|? ?] & ? & ? & ? & _).
  - destruct (node e) as [c|y] eqn:He.
    + destruct (Bool.eqb c stop) eqn:Hc.
      * split; [done|]. intros ([|e0 before] & e' & after & Heq & Hb & He'); injection Heq as -> ->; [by rewrite He in He'|].
        apply Forall_cons in Hb as [Hb _]. rewrite He in Hb. destruct c, stop; done.
      * assert (c = negb stop) as -> by (by destruct c, stop). rewrite IH. split.
        -- intros (before & e' & after & -> & Hb & He'). exists (e :: before), e', after.
           split_and!; [done|by constructor|done].
        -- intros ([|e0 before] & e' & after & Heq & Hb & He'); injection Heq as -> ->; [by rewrite He in He'|].
           apply Forall_cons in Hb as [_ ?]. by eexists _, _, _.
    + split; [intros [= ->]; by exists [], e, es|].
      intros ([|e0 before] & e' & after & Heq & Hb & He'); injection Heq as -> ->; [congruence|].
      apply Forall_cons in Hb as [Hb _]. by rewrite He in Hb.
Qed.

Lemma decide_on_dual stop context es :
  match decide_on stop (evaluateNode context) es with inl b => inl (negb b) | inr x => inr x end =
  decide_on (negb stop) (evaluateNode context) (map Not es).
Proof.
  induction es as [|e es IH]; cbn; [done|].
  destruct (evaluateNode context e) as [b|x]; [|done]. rewrite <- IH. by destruct b, stop.
Qed.

(** ** Properties *)

(** A stored condition is within its limits and well formed. Validation reports nothing exactly when
    every node is well formed (no blank path, no empty operand list or set), the nesting is at most 32
    and there are at most 512 nodes; such a condition is then evaluated in every context, never refused
    for its size. *)
Theorem validated_expression_is_evaluated e :
  (validateExpressionStructure e = [] <->
     Forall node_ok (subexpressions e) /\ (nesting e <= MAX_EXPRESSION_DEPTH)%nat /\
     (length (subexpressions e) <= MAX_EXPRESSION_NODES)%nat) /\
  (validateExpressionStructure e = [] -> forall context, evaluate e context = evaluateNode context e).
Proof.
  assert (H : validateExpressionStructure e = [] <->
     Forall node_ok (subexpressions e) /\ (nesting e <= MAX_EXPRESSION_DEPTH)%nat /\
     (length (subexpressions e) <= MAX_EXPRESSION_NODES)%nat).
  { unfold validateExpressionStructure. rewrite measure_spec, !app_nil, structure_errors_nil.
    repeat case_bool_decide; (split; [intros (? & ? & ?); done || (split_and!; [done|lia|lia])|intros (? & ? & ?); done || lia]). }
  split; [exact H|]. intros (_ & Hd & Hn)%H context. unfold evaluate. rewrite measure_spec.
  by rewrite !bool_decide_false by lia.
Qed.

(** C38: a typed condition never fails. If every path a condition mentions holds a scalar of the sort its
    environment says, a condition typed in that environment and stored after validation evaluates to
    true or false in that context, never to an error. *)
Theorem typed_expression_never_errors env context e :
  conforms env context -> typed env e = true -> validateExpressionStructure e = [] ->
  exists b, evaluate e context = inl b.
Proof.
  intros Hc Ht Hv. unfold evaluate. unfold validateExpressionStructure in Hv. rewrite measure_spec in *.
  rewrite !app_nil in Hv. destruct Hv as (H1 & H2 & _).
  repeat case_bool_decide; try done. by apply (node_ok_typed env).
Qed.

(** Connectives decide at the first operand that can. [and] is false exactly when an operand is false
    and all before it are true, true when all are, and fails with the first operand that fails before one
    decides; [or] is its dual, so [not and] and [or not] agree, errors included. *)
Theorem connectives_short_circuit context es :
  (evaluateNode context (And es) = inl true <-> Forall (fun e => evaluateNode context e = inl true) es) /\
  (evaluateNode context (And es) = inl false <->
     exists before e after, es = before ++ e :: after /\
       Forall (fun e => evaluateNode context e = inl true) before /\ evaluateNode context e = inl false) /\
  (forall x, evaluateNode context (And es) = inr x <->
     exists before e after, es = before ++ e :: after /\
       Forall (fun e => evaluateNode context e = inl true) before /\ evaluateNode context e = inr x) /\
  evaluateNode context (Not (And es)) = evaluateNode context (Or (map Not es)) /\
  evaluateNode context (Not (Or es)) = evaluateNode context (And (map Not es)).
Proof.
  cbn [evaluateNode]. split_and!.
  - rewrite decide_on_inl. cbn. naive_solver.
  - rewrite decide_on_inl. cbn. naive_solver.
  - intros x. by rewrite decide_on_inr.
  - apply (decide_on_dual false).
  - apply (decide_on_dual true).
Qed.

(** [exists] holds for names nobody put in the context. Whatever the context, unless it owns the name
    itself, a condition [exists "constructor"] (or any other method of [Object.prototype]) is true, and a
    reference to that name is a type mismatch instead of an unknown reference. *)
Theorem exists_holds_for_inherited_names context name :
  name ∈ prototype_methods -> own_property name context = None ->
  evaluate (Exists name) context = inl true /\
  evaluate (Ref name) context = inr (type_mismatch op_eq (name +:+ " is not a scalar")).
Proof.
  intros Hn Ho. assert (Hr : resolvePath context name = VFunction).
  { unfold resolvePath. assert (split_dot name = [name]) as ->.
    { repeat (apply elem_of_cons in Hn as [->|Hn]; [reflexivity|]). by apply elem_of_nil in Hn. }
    cbn. rewrite Ho. unfold inherited. by rewrite bool_decide_true. }
  unfold evaluate. cbn [evaluateNode measureExpression walk]. unfold exists_at, evaluateRef. by rewrite Hr.
Qed.

(** ** Witnesses *)

(** "the value is at least a thousand and the country is one of two, or a flag is set", on an order event *)
Definition thousand : spec_float := S754_finite false 1000 0.
Definition sample_condition : Expression :=
  Or [And [Compare op_gte (Ref "payload.valueMinor") (Literal (SNum thousand));
           In (Ref "payload.country") [SStr "AE"; SStr "SA"]];
      Ref "payload.vip"].
Definition sample_env : Env := fun path =>
  if bool_decide (path = "payload.valueMinor") then Some TNum
  else if bool_decide (path = "payload.country") then Some TStr
  else if bool_decide (path = "payload.vip") then Some TBool else None.
Definition sample_context : EvaluationContext :=
  [("payload", VObject [("valueMinor", VScalar (SNum (S754_finite false 1250 0)));
                        ("country", VScalar (SStr "EG")); ("vip", VScalar (SBool true))])].

Lemma typed_expression_never_errors_witness :
  evaluate sample_condition sample_context = inl true /\
  exists b, evaluate sample_condition sample_context = inl b.
Proof.
  split; [by vm_compute|]. apply (typed_expression_never_errors sample_env).
  - intros path s. unfold sample_env. repeat case_bool_decide; intros [= <-]; subst; by eexists.
  - by vm_compute.
  - by vm_compute.
Defined.

Lemma validated_expression_is_evaluated_witness :
  evaluate sample_condition sample_context = evaluateNode sample_context sample_condition.
Proof. apply (validated_expression_is_evaluated sample_condition). by vm_compute. Defined.

Lemma exists_holds_for_inherited_names_witness :
  evaluate (Exists "constructor") sample_context = inl true.
Proof. apply (exists_holds_for_inherited_names sample_context "constructor"); [left|done]. Defined.
