(* ===== verification/Rules.v ===== *)
(** The rule engine: [packages/rules/src]. Rules in order of priority, their conditions evaluated by the
    expression kernel, and what a rule that cannot be evaluated does to the whole. *)
From stdpp Require Import sorting.
From S2P Require Import Prelude Expression.

#[global] Open Scope Z_scope.

(** ** Data *)

Inductive RuleSetMode := first_match | all_matches.
Inductive RuleErrorPolicy := skip | fail_closed | fail.
Inductive RuleOutcomeStatus := matched | not_matched | skipped_disabled | errored.

#[export] Instance RuleErrorPolicy_eq_dec : EqDecision RuleErrorPolicy.
Proof. solve_decision. Defined.
#[export] Instance RuleSetMode_eq_dec : EqDecision RuleSetMode.
Proof. solve_decision. Defined.
#[export] Instance RuleOutcomeStatus_eq_dec : EqDecision RuleOutcomeStatus.
Proof. solve_decision. Defined.

Record RuleTraceEntry := mkTrace { tr_ruleId : string; tr_status : RuleOutcomeStatus; tr_error : option EvaluationError }.

(** Thrown only under the policy [fail]. *)
Record RuleEvaluationError := mkRuleError { re_ruleSetId : string; re_ruleId : string; re_error : EvaluationError }.

Section rules.
Context {TOutcome : Type}.

Record Rule := mkRule {
  rule_id : string; priority : Z; when_ : Expression; then_ : TOutcome; enabled : option bool }.

Record RuleSet := mkRuleSet {
  rs_id : string; rs_version : Z; rs_mode : RuleSetMode; rs_rules : list Rule;
  rs_onError : option RuleErrorPolicy; rs_fallback : option TOutcome }.

(** The sort compares priorities, then positions; the positions grow along the list, so it is the stable
    sort by priority. *)
Definition orderRules (rules : list Rule) : list Rule :=
  snd <$> sort_by (fun a b => (priority a.2 <? priority b.2) || ((priority a.2 =? priority b.2) && (a.1 <=? b.1)%nat))
    (imap pair rules).

Definition isRuleEnabled (r : Rule) : bool := negb (bool_decide (enabled r = Some false)).

Record RuleSetEvaluation := mkEvaluation {
  ev_ruleSetId : string; ev_version : Z; ev_outcomes : list TOutcome; ev_usedFallback : bool;
  ev_degraded : bool; ev_trace : list RuleTraceEntry }.

(** ** Evaluation *)

Record RunState := mkRun { run_outcomes : list TOutcome; run_trace : list RuleTraceEntry; run_degraded : bool }.

(** The loop over the rules: [break] returns, [continue] goes on. *)
Fixpoint run_rules (rs : RuleSet) (policy : RuleErrorPolicy) (context : EvaluationContext) (rules : list Rule)
    (s : RunState) : RunState + RuleEvaluationError :=
  match rules with
  | [] => inl s
  | r :: rules' =>
      let push status error := run_trace s ++ [mkTrace (rule_id r) status error] in
      if negb (isRuleEnabled r) then
        run_rules rs policy context rules' (mkRun (run_outcomes s) (push skipped_disabled None) (run_degraded s))
      else
        match evaluate (when_ r) context with
        | inr e =>
            match policy with
            | fail => inr (mkRuleError (rs_id rs) (rule_id r) e)
            | fail_closed => run_rules rs policy context rules' (mkRun (run_outcomes s) (push errored (Some e)) true)
            | skip => run_rules rs policy context rules' (mkRun (run_outcomes s) (push errored (Some e)) (run_degraded s))
            end
        | inl false =>
            run_rules rs policy context rules' (mkRun (run_outcomes s) (push not_matched None) (run_degraded s))
        | inl true =>
            let s' := mkRun (run_outcomes s ++ [then_ r]) (push matched None) (run_degraded s) in
            match rs_mode rs with
            | first_match => inl s'
            | all_matches => run_rules rs policy context rules' s'
            end
        end
  end.

Definition evaluateRuleSet (rs : RuleSet) (context : EvaluationContext) : RuleSetEvaluation + RuleEvaluationError :=
  let policy := default fail_closed (rs_onError rs) in
  match run_rules rs policy context (orderRules (rs_rules rs)) (mkRun [] [] false) with
  | inr e => inr e
  | inl s =>
      let usedFallback := bool_decide (length (run_outcomes s) = 0%nat) && bool_decide (is_Some (rs_fallback rs)) in
      inl (mkEvaluation (rs_id rs) (rs_version rs)
        match rs_fallback rs with
        | Some f => if usedFallback then [f] else run_outcomes s
        | None => run_outcomes s
        end usedFallback (run_degraded s) (run_trace s))
  end.

Definition firstOutcome (ev : RuleSetEvaluation) : option TOutcome := head (ev_outcomes ev).
Definition matchedRuleIds (ev : RuleSetEvaluation) : list string :=
  tr_ruleId <$> filter (fun e => tr_status e = matched) (ev_trace ev).
Definition findUnevaluableRules (rs : RuleSet) (context : EvaluationContext) : list Rule :=
  filter (fun r => isRuleEnabled r && match evaluate (when_ r) context with inl _ => false | inr _ => true end = true)
    (rs_rules rs).

(** ** The reference: what the loop computes, without its state *)

Definition error_of (context : EvaluationContext) (r : Rule) : option EvaluationError :=
  if isRuleEnabled r then match evaluate (when_ r) context with inl _ => None | inr e => Some e end else None.
Definition matches (context : EvaluationContext) (r : Rule) : bool :=
  isRuleEnabled r && match evaluate (when_ r) context with inl b => b | inr _ => false end.

Definition status_of (context : EvaluationContext) (r : Rule) : RuleOutcomeStatus :=
  if negb (isRuleEnabled r) then skipped_disabled
  else match evaluate (when_ r) context with inl true => matched | inl false => not_matched | inr _ => errored end.
Definition entry_of (context : EvaluationContext) (r : Rule) : RuleTraceEntry :=
  mkTrace (rule_id r) (status_of context r) (error_of context r).

(** Up to the first rule that satisfies [p], that rule included. *)
Fixpoint through {A} (p : A -> bool) (l : list A) : list A :=
  match l with
  | [] => []
  | x :: l' => if p x then [x] else x :: through p l'
  end.

Definition considered (rs : RuleSet) (context : EvaluationContext) : list Rule :=
  match rs_mode rs with
  | first_match => through (matches context) (orderRules (rs_rules rs))
  | all_matches => orderRules (rs_rules rs)
  end.

Definition seen (mode : RuleSetMode) (context : EvaluationContext) (rules : list Rule) : list Rule :=
  match mode with first_match => through (matches context) rules | all_matches => rules end.

Definition outcomes_of (context : EvaluationContext) (rules : list Rule) : list TOutcome :=
  then_ <$> filter (fun r => matches context r = true) rules.
Definition rule_error (rs : RuleSet) (context : EvaluationContext) (r : Rule) : option RuleEvaluationError :=
  mkRuleError (rs_id rs) (rule_id r) <$> error_of context r.

Definition reference_run (rs : RuleSet) (policy : RuleErrorPolicy) context (rules : list Rule) (s : RunState) :
    RunState + RuleEvaluationError :=
  let l := seen (rs_mode rs) context rules in
  match head (omap (rule_error rs context) l), policy with
  | Some e, fail => inr e
  | _, _ =>
      inl (mkRun (run_outcomes s ++ outcomes_of context l) (run_trace s ++ (entry_of context <$> l))
        (run_degraded s || (bool_decide (policy = fail_closed) && existsb (fun r => bool_decide (is_Some (error_of context r))) l)))
  end.

Lemma seen_cons mode context r rules :
  seen mode context (r :: rules) =
  r :: if bool_decide (mode = first_match) && matches context r then [] else seen mode context rules.
Proof. destruct mode; cbn; [|done]. by destruct (matches context r). Qed.

(** What one rule adds to a run. *)
Definition after_rule context (policy : RuleErrorPolicy) (r : Rule) (s : RunState) : RunState :=
  mkRun (run_outcomes s ++ outcomes_of context [r]) (run_trace s ++ [entry_of context r])
    (run_degraded s || (bool_decide (policy = fail_closed) && bool_decide (is_Some (error_of context r)))).

Ltac run_eq :=
  cbn; try match goal with |- context [head ?l] => destruct (head l) end;
  try done; f_equal; f_equal;
  rewrite ?app_nil_r, <- ?app_assoc, ?andb_orb_distrib_r, ?orb_assoc, ?andb_false_r, ?orb_false_r; done.

Lemma reference_cons rs policy context r rules s :
  reference_run rs policy context (r :: rules) s =
  match rule_error rs context r, policy with
  | Some e, fail => inr e
  | _, _ =>
      if bool_decide (rs_mode rs = first_match) && matches context r then inl (after_rule context policy r s)
      else reference_run rs policy context rules (after_rule context policy r s)
  end.
Proof.
  unfold reference_run, after_rule, outcomes_of. rewrite seen_cons. cbn [omap list_omap].
  set (rest := (if bool_decide (rs_mode rs = first_match) && _ then [] else _) : list Rule). cbn [existsb fmap list_fmap].
  assert (Ho : then_ <$> filter (fun r => matches context r = true) (r :: rest) =
    (then_ <$> filter (fun r => matches context r = true) [r]) ++
    (then_ <$> filter (fun r => matches context r = true) rest)).
  { rewrite (filter_app _ [r] rest), <- fmap_app. done. }
  rewrite Ho. subst rest. destruct (rule_error rs context r) as [e|] eqn:He.
  - destruct policy; cbn [head]; [| |done]; destruct (_ && matches context r); run_eq.
  - assert (E : error_of context r = None) by (unfold rule_error in He; by destruct (error_of context r)).
    rewrite E. destruct policy; cbn [head]; destruct (_ && matches context r); run_eq.
Qed.

Lemma run_rules_reference rs policy context rules s :
  run_rules rs policy context rules s = reference_run rs policy context rules s.
Proof.
  revert s. induction rules as [|r rules IH]; intros [o t d].
  { unfold reference_run. assert (seen (rs_mode rs) context [] = []) as -> by (by destruct (rs_mode rs)).
    cbn. unfold outcomes_of. cbn. by rewrite !app_nil_r, andb_false_r, orb_false_r. }
  rewrite reference_cons. cbn [run_rules]. unfold rule_error, after_rule, outcomes_of, entry_of, status_of, error_of.
  rewrite filter_cons. unfold matches.
  destruct (isRuleEnabled r); cbn; [|by rewrite !IH, ?app_nil_r, ?andb_false_r, ?orb_false_r].
  destruct (evaluate (when_ r) context) as [[]|e]; cbn.
  - rewrite andb_true_r, andb_false_r, orb_false_r. destruct (rs_mode rs); cbn; [done|]. by rewrite IH.
  - by rewrite IH, ?app_nil_r, ?andb_false_r, ?orb_false_r.
  - destruct policy; cbn; rewrite ?andb_false_r, ?IH, ?app_nil_r, ?orb_false_r, ?orb_true_r; done.
Qed.
(** ** The order *)

Definition position_le (a b : nat * Rule) : Prop :=
  priority a.2 < priority b.2 \/ (priority a.2 = priority b.2 /\ (a.1 <= b.1)%nat).

Lemma orderRules_spec rules :
  orderRules rules ≡ₚ rules /\
  StronglySorted (fun a b => priority a <= priority b) (orderRules rules) /\
  forall p, filter (fun r => priority r = p) (orderRules rules) = filter (fun r => priority r = p) rules.
Proof.
  unfold orderRules. set (ps := imap _ rules). set (le := fun _ _ => _).
  assert (Hps : snd <$> ps = rules) by (unfold ps; rewrite fmap_imap; apply list_eq; intros i; rewrite list_lookup_imap; by destruct (rules !! i)).
  assert (Hs : StronglySorted position_le (sort_by le ps)).
  { apply sort_by_sorted; unfold position_le, le.
    - intros a b. rewrite orb_true_iff, andb_true_iff, Z.ltb_lt, Z.eqb_eq, Nat.leb_le. tauto.
    - intros a b. rewrite orb_false_iff, andb_false_iff, Z.ltb_ge, Z.eqb_neq, Nat.leb_gt. lia.
    - intros a b c. lia. }
  split_and!.
  - by rewrite sort_by_perm, Hps.
  - clear -Hs. induction Hs as [|a l _ IH Ha]; cbn; constructor; [exact IH|].
    apply Forall_fmap. eapply Forall_impl; [exact Ha|]. unfold position_le. cbn. lia.
  - intros p. transitivity (filter (fun r => priority r = p) (snd <$> ps)); [|by rewrite Hps].
    rewrite !filter_of_fmap. f_equal. apply (StronglySorted_unique_strong (fun a b => (a.1 <= b.1)%nat)).
    + intros [i a] [j b] [_ Ha]%list_elem_of_filter [_ Hb]%list_elem_of_filter. cbn. rewrite sort_by_perm in Ha.
      unfold ps in Ha, Hb. apply elem_of_lookup_imap in Ha as (? & ? & [= <- <-] & Ha), Hb as (? & ? & [= <- <-] & Hb).
      intros. assert (i = j) as -> by lia. congruence.
    + assert (Hf : Forall (fun a => priority a.2 = p) (filter (fun a => priority a.2 = p) (sort_by le ps)))
        by (apply Forall_forall; by intros a [? _]%list_elem_of_filter).
      apply (StronglySorted_of_filter _ (fun a => priority a.2 = p)) in Hs. revert Hf.
      induction Hs as [|a l _ IH Ha]; [constructor|]. intros [Hpa Hf]%Forall_cons. constructor; [by apply IH|].
      rewrite Forall_forall in *. intros b Hb. specialize (Ha b Hb). specialize (Hf b Hb). unfold position_le in Ha. lia.
    + apply StronglySorted_of_filter, StronglySorted_positions.
    + by rewrite sort_by_perm.
Qed.

(** ** Properties *)

(** C39: the rule engine computes what a reference without state says. The rules are taken by priority, ties
    in the order declared; up to the first that matches in mode [first_match], all of them otherwise.
    Those are the rules in the trace, each with what its own condition gives; the outcomes are those of
    the rules that match, or the fallback when none does; the result is degraded exactly when one of them
    failed under [fail_closed]; and only under [fail] does the first failure throw. *)
Theorem rule_set_refines_reference (rs : RuleSet) context :
  let policy := default fail_closed (rs_onError rs) in
  let l := considered rs context in
  evaluateRuleSet rs context =
  match head (omap (rule_error rs context) l), policy with
  | Some e, fail => inr e
  | _, _ =>
      let outcomes := outcomes_of context l in
      let fallback := match outcomes, rs_fallback rs with [], Some f => [f] | _, _ => [] end in
      inl (mkEvaluation (rs_id rs) (rs_version rs) (outcomes ++ fallback) (bool_decide (length fallback <> 0%nat))
        (bool_decide (policy = fail_closed) && existsb (fun r => bool_decide (is_Some (error_of context r))) l)
        (entry_of context <$> l))
  end /\
  orderRules (rs_rules rs) ≡ₚ rs_rules rs /\
  StronglySorted (fun a b => priority a <= priority b) (orderRules (rs_rules rs)) /\
  forall p, filter (fun r => priority r = p) (orderRules (rs_rules rs)) =
            filter (fun r => priority r = p) (rs_rules rs).
Proof.
  intros policy l. split; [|apply orderRules_spec]. unfold evaluateRuleSet. fold policy.
  rewrite run_rules_reference. unfold reference_run. change (seen _ _ _) with l.
  destruct (head _); [destruct policy; [| |done]|]; cbn;
    destruct (outcomes_of context l), (rs_fallback rs); cbn; rewrite ?app_nil_r; done.
Qed.
End rules.
