(* ===== verification/Consumer.v ===== *)
(** Event consumption: [packages/kafka/src/consumer-runtime.ts], its retry schedule, and the inbox
    [packages/db/src/messaging/prisma-processed-event-store.ts]. One consumer group: a message is handled
    and its id recorded, a failure goes to the retry topic with a due time, and in the end to the
    dead-letter queue. Several workers may receive the same message at once. *)
From S2P Require Import Prelude.

#[global] Open Scope Z_scope.

(** ** Messages and schedules *)

Record RetryHeaders := mkRetry {
  rh_attempt : nat; rh_dueAtMs : Z; rh_originalTopic : string; rh_consumerGroup : string }.

(** A broker record; its retry headers decoded, the others as they are. *)
Record Message := mkMessage {
  mg_key : string; mg_value : list Ascii.ascii; mg_headers : list (string * string);
  mg_retry : option RetryHeaders }.

Record DeadLetter := mkDeadLetter {
  dl_originalTopic : string; dl_consumerGroup : string; dl_messageId : string; dl_key : string;
  dl_value : list Ascii.ascii; dl_headers : list (string * string); dl_attempts : nat; dl_error : DomainError }.

Record RetrySchedule := mkRetrySchedule { delaysMs : list Z }.
Definition DEFAULT_RETRY_SCHEDULE : RetrySchedule := mkRetrySchedule [5000; 30000; 120000; 600000; 3600000].
Definition maxAttempts (s : RetrySchedule) : nat := length (delaysMs s).
Definition delayForAttempt (s : RetrySchedule) (attempt : nat) : result Z :=
  match attempt with
  | O => Err (UnexpectedError "RetrySchedule: attempt exceeds max")
  | S i => match delaysMs s !! i with
           | Some d => Ok d
           | None => Err (UnexpectedError "RetrySchedule: attempt exceeds max")
           end
  end.

Record IntegrationEvent (P : Type) := mkEvent { ev_messageId : string; ev_tenantId : string; ev_payload : P }.
Arguments mkEvent {P} _ _ _.
Arguments ev_messageId {P} _.
Arguments ev_payload {P} _.

(** The handler of a topic: its effect on the domain store, which it may leave half done when it throws,
    and, opted in, the same inside a transaction. *)
Record EventHandler (P D : Type) := mkHandler {
  eh_topic : string; eh_handle : IntegrationEvent P -> M D unit; eh_handleAtomic : option (IntegrationEvent P -> M D unit) }.
Arguments eh_topic {P D} _.
Arguments eh_handle {P D} _.
Arguments eh_handleAtomic {P D} _.

Section consumer.
Context {P D : Type}.
Context (deserialize : list Ascii.ascii -> result (IntegrationEvent P)).
Context (handler : EventHandler P D) (consumerGroup : string) (schedule : RetrySchedule) (hasUnitOfWork : bool).

(** What one consumer group writes: the domain store, its inbox rows, the retry topic and the dead letters. *)
Record GroupState := mkGroup {
  gs_domain : D; gs_processed : gset string; gs_retries : list Message; gs_dead : list DeadLetter }.
Abbreviation ConsumerM := (M GroupState).

Definition on_domain (f : M D unit) : ConsumerM unit := fun s =>
  let '(r, d) := f (gs_domain s) in (r, mkGroup d (gs_processed s) (gs_retries s) (gs_dead s)).
Definition add_processed (id : string) (s : GroupState) : GroupState :=
  mkGroup (gs_domain s) ({[id]} ∪ gs_processed s) (gs_retries s) (gs_dead s).
Definition add_retry (m : Message) (s : GroupState) : GroupState :=
  mkGroup (gs_domain s) (gs_processed s) (gs_retries s ++ [m]) (gs_dead s).
Definition add_dead (l : DeadLetter) (s : GroupState) : GroupState :=
  mkGroup (gs_domain s) (gs_processed s) (gs_retries s) (gs_dead s ++ [l]).

(** ** The inbox *)

Definition has (id : string) : ConsumerM bool := gets (fun s => bool_decide (id ∈ gs_processed s)).

(** An insert that loses to the primary key answers [false]. *)
Definition recordIfNew (id : string) : ConsumerM bool :=
  known ← has id;
  if (known : bool) then mret false else modify (add_processed id);; mret true.

(** ** One delivery *)

(** The atomic path, in one transaction: a throw rolls back, and so does a lost race, which throws
    [DuplicateProcessedEventError] inside the transaction and comes out as [false]. *)
Definition handleAtomic (h : IntegrationEvent P -> M D unit) (ev : IntegrationEvent P) : ConsumerM bool := fun s =>
  match (on_domain (h ev);; recordIfNew (ev_messageId ev)) s with
  | (Ok true, s') => (Ok true, s')
  | (Ok false, _) => (Ok false, s)
  | (Err e, _) => (Err e, s)
  end.

Definition effect (ev : IntegrationEvent P) : ConsumerM unit :=
  match eh_handleAtomic handler, hasUnitOfWork with
  | Some h, true => handleAtomic h ev;; mret tt
  | _, _ => on_domain (eh_handle handler ev);; recordIfNew (ev_messageId ev);; mret tt
  end.

Definition decode (m : Message) : ConsumerM (IntegrationEvent P) := lift (deserialize (mg_value m)).

(** Delivery without a broker: effects the message or throws. *)
Definition deliver (m : Message) : ConsumerM unit :=
  ev ← decode m;
  known ← has (ev_messageId ev);
  if (known : bool) then mret tt else effect ev.

Definition deadLetter (m : Message) (id : string) (attempts : nat) (e : DomainError) : ConsumerM unit :=
  modify (add_dead (mkDeadLetter (eh_topic handler) consumerGroup id (mg_key m) (mg_value m) (mg_headers m) attempts e)).

Definition scheduleRetryOrDeadLetter (now : Z) (m : Message) (attempt : nat) (id : string) (e : DomainError) :
    ConsumerM unit :=
  let nextAttempt := S attempt in
  if bool_decide (maxAttempts schedule < nextAttempt)%nat then deadLetter m id attempt e
  else
    delay ← lift (delayForAttempt schedule nextAttempt);
    modify (add_retry (mkMessage (mg_key m) (mg_value m) (mg_headers m)
      (Some (mkRetry nextAttempt (now + delay) (eh_topic handler) consumerGroup)))).

(** Delivery by the broker. A retry is handled once its due time has passed; waiting changes nothing. *)
Definition handleMessage (now : Z) (m : Message) : ConsumerM unit :=
  let attempt := match mg_retry m with Some r => rh_attempt r | None => 0%nat end in
  ev ← decode m;
  known ← has (ev_messageId ev);
  if (known : bool) then mret tt
  else fun s =>
    match effect ev s with
    | (Ok _, s') => (Ok tt, s')
    | (Err e, s') => scheduleRetryOrDeadLetter now m attempt (ev_messageId ev) e s'
    end.

(** ** Concurrent deliveries

    Each worker first reads the inbox; then an atomic handler runs in one transaction, and a plain one
    handles and records the message in two steps. A worker may crash between steps; a crash or an error
    leaves the message to be delivered again. The retry topic and the dead letters change freely. *)

Inductive Delivery := d_checked (ev : IntegrationEvent P) | d_marking (ev : IntegrationEvent P).
Record World := mkWorld { w_group : GroupState; w_workers : gmap nat Delivery }.

Definition atomically : option (IntegrationEvent P -> M D unit) :=
  if hasUnitOfWork then eh_handleAtomic handler else None.

Inductive wstep : World -> World -> Prop :=
| ws_receive n ev value g ws :
    ws !! n = None -> deserialize value = Ok ev -> has (ev_messageId ev) g = (Ok false, g) ->
    wstep (mkWorld g ws) (mkWorld g (<[n := d_checked ev]> ws))
| ws_atomic n ev h r g g' ws :
    ws !! n = Some (d_checked ev) -> atomically = Some h -> handleAtomic h ev g = (r, g') ->
    wstep (mkWorld g ws) (mkWorld g' (delete n ws))
| ws_handle n ev r g g' ws :
    ws !! n = Some (d_checked ev) -> atomically = None -> on_domain (eh_handle handler ev) g = (r, g') ->
    wstep (mkWorld g ws) (mkWorld g' (if isOk r then <[n := d_marking ev]> ws else delete n ws))
| ws_mark n ev r g g' ws :
    ws !! n = Some (d_marking ev) -> recordIfNew (ev_messageId ev) g = (r, g') ->
    wstep (mkWorld g ws) (mkWorld g' (delete n ws))
| ws_crash n g ws : wstep (mkWorld g ws) (mkWorld g (delete n ws))
| ws_topics g ws retries dead :
    wstep (mkWorld g ws) (mkWorld (mkGroup (gs_domain g) (gs_processed g) retries dead) ws).

Definition fresh_world (d : D) : World := mkWorld (mkGroup d ∅ [] []) ∅.

(** A delivery without a broker is a run of these steps by one worker. *)
Lemma deliver_is_a_run m g r g' n ws :
  ws !! n = None -> deliver m g = (r, g') -> rtc wstep (mkWorld g ws) (mkWorld g' ws).
Proof.
  intros Hn. unfold deliver, decode, lift, mbind, M_bind.
  destruct (deserialize (mg_value m)) as [ev|e] eqn:Hd; [|by intros [= <- <-]].
  unfold has, gets. destruct (bool_decide _) eqn:Hk; [by intros [= <- <-]|].
  assert (Hs : wstep (mkWorld g ws) (mkWorld g (<[n := d_checked ev]> ws))).
  { eapply ws_receive; [done|exact Hd|]. unfold has, gets. by rewrite Hk. }
  assert (Hdel : forall x : Delivery, delete n (<[n := x]> ws) = ws) by (intros; by rewrite delete_insert_id).
  assert (Hl : forall x : Delivery, <[n := x]> ws !! n = Some x) by (intros; apply lookup_insert_eq).
  unfold effect. intros He.
  assert (Ha : forall h, atomically = Some h -> (handleAtomic h ev;; mret tt) g = (r, g') ->
    rtc wstep (mkWorld g ws) (mkWorld g' ws)).
  { intros h Hh Hr. eapply rtc_l; [exact Hs|]. apply rtc_once. rewrite <- (Hdel (d_checked ev)) at 2.
    unfold mbind, M_bind in Hr. destruct (handleAtomic h ev g) as [[b|e] g1] eqn:Hb; injection Hr as <- <-;
      eapply ws_atomic; eauto. }
  assert (Hp : atomically = None ->
    (on_domain (eh_handle handler ev);; recordIfNew (ev_messageId ev);; mret tt) g = (r, g') ->
    rtc wstep (mkWorld g ws) (mkWorld g' ws)).
  { intros Hh Hr. eapply rtc_l; [exact Hs|]. unfold mbind, M_bind in Hr.
    destruct (on_domain (eh_handle handler ev) g) as [[u|e] g1] eqn:H1.
    - eapply rtc_l; [eapply (ws_handle n ev (Ok u)); eauto|]. cbn [isOk]. rewrite insert_insert_eq.
      destruct (recordIfNew (ev_messageId ev) g1) as [[b|e] g2] eqn:H2; injection Hr as <- <-;
        apply rtc_once; rewrite <- (Hdel (d_marking ev)) at 2; eapply ws_mark; eauto.
    - injection Hr as <- <-. apply rtc_once. rewrite <- (Hdel (d_checked ev)) at 2. eapply (ws_handle n ev (Err e)); eauto. }
  unfold atomically in *. destruct (eh_handleAtomic handler) as [h|], hasUnitOfWork; eauto.
Qed.

Lemma handleAtomic_inv h ev g r g' :
  handleAtomic h ev g = (r, g') ->
  (g' = g /\ (r = Ok true -> False)) \/
  exists d, r = Ok true /\ h ev (gs_domain g) = (Ok tt, d) /\ (ev_messageId ev ∉ gs_processed g) /\
    g' = mkGroup d ({[ev_messageId ev]} ∪ gs_processed g) (gs_retries g) (gs_dead g).
Proof.
  unfold handleAtomic, on_domain, recordIfNew, has, gets, modify, mbind, M_bind.
  destruct (h ev (gs_domain g)) as [[[]|e] d]; cbn; [|intros [= <- <-]; by left].
  destruct (bool_decide _) eqn:Hk; intros [= <- <-]; [by left|right].
  exists d. apply bool_decide_eq_false in Hk. done.
Qed.

Lemma run_ops_snoc {S Op} (exec : Op -> M S unit) ops op s s1 s2 u :
  run_ops exec ops s = (Ok tt, s1) -> exec op s1 = (Ok u, s2) -> run_ops exec (ops ++ [op]) s = (Ok tt, s2).
Proof.
  destruct u. revert s. induction ops as [|o ops IH]; intros s H1 H2; cbn in *.
  - apply ret_Ok in H1 as [_ ->]. unfold mbind, M_bind. by rewrite H2.
  - unfold mbind, M_bind in *. destruct (exec o s) as [[?|?] s']; [|done]. by apply IH.
Qed.

(** The domain store is what handling the recorded messages one after the other gives. *)
Definition handled_once (h : IntegrationEvent P -> M D unit) (d0 : D) (g : GroupState) : Prop :=
  exists log, NoDup (ev_messageId <$> log) /\ run_ops h log d0 = (Ok tt, gs_domain g) /\
    forall id, (id ∈ gs_processed g) <-> (id ∈ ev_messageId <$> log).

Lemma wstep_handled_once h d0 w w' :
  atomically = Some h -> (forall n ev, w_workers w !! n <> Some (d_marking ev)) ->
  wstep w w' -> handled_once h d0 (w_group w) ->
  handled_once h d0 (w_group w') /\ (forall n ev, w_workers w' !! n <> Some (d_marking ev)).
Proof.
  intros Ha Hm Hs (log & Hn & Hr & Hp). inversion Hs; subst; cbn in *; try congruence.
  - split; [by exists log|]. intros k e. rewrite lookup_insert_Some. naive_solver.
  - assert (h0 = h) as -> by congruence. split; [|intros k e; rewrite lookup_delete_Some; naive_solver].
    apply handleAtomic_inv in H1 as [[-> _]|(d & _ & Hd & Hid & ->)]; [by exists log|].
    exists (log ++ [ev]). cbn. rewrite fmap_app. split_and!.
    + apply NoDup_app. split; [done|]. split; [|apply NoDup_singleton].
      intros x Hx ->%list_elem_of_singleton. by apply Hid, Hp.
    + by eapply run_ops_snoc.
    + intros x. rewrite elem_of_app, <- Hp. cbn. set_solver.
  - exfalso. by eapply Hm.
  - split; [by exists log|]. intros k e. rewrite lookup_delete_Some. naive_solver.
  - split; [by exists log|done].
Qed.

Lemma atomic_runs_handled_once h d0 w :
  atomically = Some h -> rtc wstep (fresh_world d0) w -> handled_once h d0 (w_group w).
Proof.
  intros Ha Hr. assert (H : forall w0, rtc wstep w0 w -> handled_once h d0 (w_group w0) ->
    (forall n ev, w_workers w0 !! n <> Some (d_marking ev)) -> handled_once h d0 (w_group w)).
  { clear Hr. intros w0 Hr. induction Hr as [|w0 w1 w2 Hs _ IH]; [done|]. intros Hh Hm.
    destruct (wstep_handled_once h d0 w0 w1 Ha Hm Hs Hh) as [? ?]. by apply IH. }
  apply (H (fresh_world d0) Hr); [|by intros n ev].
  exists []. cbn. split_and!; [constructor|done|set_solver].
Qed.

(** ** Plain handlers that are idempotent by themselves

    Without a unit of work the handler commits before its message is recorded, so a crash in between
    delivers the message again. What a plain handler must promise: a message it has handled changes
    nothing that counts when it comes again, now or after others, and an error leaves the store alone.
    The equivalence says what counts (a saved row's version does not). *)

Section idempotent.
Context `{Equiv D, !Equivalence (≡@{D})} (h : IntegrationEvent P -> M D unit) (I : D -> Prop).

(** Handling the message again succeeds and changes nothing that counts. [I] is what every store that is
    reached satisfies (its unique keys). *)
Definition settled (ev : IntegrationEvent P) (d : D) : Prop := exists d', h ev d = (Ok tt, d') /\ d' ≡ d.

Class IdempotentHandler : Prop := {
  idem_keeps ev d r d' : I d -> h ev d = (r, d') -> I d';
  idem_proper ev d1 d2 d1' : I d1 -> I d2 -> d1 ≡ d2 -> h ev d1 = (Ok tt, d1') -> exists d2', h ev d2 = (Ok tt, d2') /\ d1' ≡ d2';
  idem_settles ev d d' : I d -> h ev d = (Ok tt, d') -> settled ev d';
  idem_stable ev ev' d d' : I d -> settled ev d -> h ev' d = (Ok tt, d') -> settled ev d';
  idem_rolls_back ev d e d' : I d -> h ev d = (Err e, d') -> d' ≡ d }.

(** A message that was delivered. *)
Definition received (ev : IntegrationEvent P) : Prop := exists value, deserialize value = Ok ev.

(** The store is what handling some distinct messages that were delivered, one after the other, gives; the
    inbox holds ids of messages among them, and none of them has any further effect. *)
Definition effectively_once (d0 : D) (w : World) : Prop :=
  exists log d, NoDup log /\ run_ops h log d0 = (Ok tt, d) /\ d ≡ gs_domain (w_group w) /\
    I d /\ I (gs_domain (w_group w)) /\
    (forall ev, ev ∈ log -> settled ev (gs_domain (w_group w))) /\
    (forall n ev, w_workers w !! n = Some (d_marking ev) -> ev ∈ log) /\
    (forall id, id ∈ gs_processed (w_group w) -> exists ev, ev ∈ log /\ ev_messageId ev = id) /\
    Forall received log /\ (forall n ev, w_workers w !! n = Some (d_checked ev) -> received ev).

Lemma settled_proper `{!IdempotentHandler} ev d1 d2 : I d1 -> I d2 -> d1 ≡ d2 -> settled ev d1 -> settled ev d2.
Proof.
  intros I1 I2 Hd (d1' & H1 & E1). destruct (idem_proper ev d1 d2 d1' I1 I2 Hd H1) as (d2' & H2 & E2).
  exists d2'. split; [done|]. by rewrite <- E2, E1.
Qed.

Lemma recordIfNew_inv id g r g' :
  recordIfNew id g = (r, g') -> gs_domain g' = gs_domain g /\ (g' = g \/ gs_processed g' = {[id]} ∪ gs_processed g).
Proof.
  unfold recordIfNew, has, gets, modify, mbind, M_bind. destruct (bool_decide _); intros [= <- <-]; cbn; auto.
Qed.

(** A handled message joins the log unless it is there already. *)
Lemma handled_joins `{!IdempotentHandler} `{!EqDecision (IntegrationEvent P)} ev log d g d1 :
  NoDup log -> I d -> I g -> d ≡ g -> (forall e, e ∈ log -> settled e g) -> h ev g = (Ok tt, d1) ->
  (ev ∈ log /\ d1 ≡ g) \/
  (NoDup (log ++ [ev]) /\ exists d2, h ev d = (Ok tt, d2) /\ d2 ≡ d1 /\ I d2 /\ forall e, e ∈ log ++ [ev] -> settled e d1).
Proof.
  intros Hn Id Ig Hd Hset HE. destruct (decide (ev ∈ log)) as [Hin|Hin].
  - left. destruct (Hset ev Hin) as (d2 & H2 & E2). rewrite HE in H2. by injection H2 as <-.
  - right. split.
    + apply NoDup_app. split; [done|]. split; [|apply NoDup_singleton]. by intros e He ->%list_elem_of_singleton.
    + destruct (idem_proper ev g d d1 Ig Id (symmetry Hd) HE) as (d2 & H2 & E2). exists d2.
      split_and!; [done|done|by apply (idem_keeps ev d _ d2 Id H2)|].
      intros e [He| ->%list_elem_of_singleton]%elem_of_app; [|exact (idem_settles ev g d1 Ig HE)].
      exact (idem_stable e ev g d1 Ig (Hset e He) HE).
Qed.

Lemma wstep_effectively_once `{!IdempotentHandler} `{!EqDecision (IntegrationEvent P)} d0 w w' :
  atomically = None -> eh_handle handler = h -> wstep w w' -> effectively_once d0 w -> effectively_once d0 w'.
Proof.
  intros Hna Hh Hs (log & d & Hn & Hr & Hd & Id & Ig & Hset & Hmark & Hp & Hrec & Hchk).
  inversion Hs; subst; cbn in *; try congruence.
  - exists log, d. cbn. split_and!; try done; intros k e; rewrite lookup_insert_Some; [naive_solver|].
    intros [[_ [= ->]]|[_ He]]; [by eexists|by eapply Hchk].
  - match goal with Ho : on_domain _ _ = _ |- _ => rename Ho into Hon end. unfold on_domain in Hon.
    destruct (eh_handle handler ev (gs_domain g)) as [r1 d1] eqn:HE. rewrite ?Hh in HE. injection Hon as <- <-. cbn.
    assert (Hw : forall k e, (if isOk r1 then <[n:=d_marking ev]> ws else delete n ws) !! k = Some (d_marking e) ->
      (isOk r1 = true /\ e = ev) \/ ws !! k = Some (d_marking e)).
    { intros k e. destruct (isOk r1); [rewrite lookup_insert_Some|rewrite lookup_delete_Some]; naive_solver. }
    assert (Hc : forall k e, (if isOk r1 then <[n:=d_marking ev]> ws else delete n ws) !! k = Some (d_checked e) -> received e).
    { intros k e. destruct (isOk r1); [rewrite lookup_insert_Some|rewrite lookup_delete_Some]; naive_solver. }
    assert (Ig1 : I d1) by exact (idem_keeps ev _ _ d1 Ig HE). destruct r1 as [[]|e1].
    + destruct (handled_joins ev log d (gs_domain g) d1) as [[Hin E2]|(Hn' & d2 & H2' & E2 & I2 & Hset')]; try done.
      * exists log, d. cbn. split_and!; try done; [by rewrite E2| |].
        -- intros e He. eapply (settled_proper e (gs_domain g)); [done..|by symmetry|by apply Hset].
        -- intros k e [[_ ->]|He]%Hw; [done|by eapply Hmark].
      * exists (log ++ [ev]), d2. cbn. split_and!; try done; [by eapply run_ops_snoc| | |].
        -- intros k e He. apply elem_of_app. apply Hw in He as [[_ ->]|He]; [right; left|left; by eapply Hmark].
        -- intros i Hi. destruct (Hp i Hi) as (e & He & <-). exists e. split; [|done]. apply elem_of_app. by left.
        -- apply Forall_app. split; [done|]. apply list.Forall_singleton. by eapply Hchk.
    + assert (E1 := HE). apply idem_rolls_back in E1; [|done]. exists log, d. cbn. split_and!; try done; [by rewrite E1| |].
      * intros e He. eapply (settled_proper e (gs_domain g)); [done..|by symmetry|by apply Hset].
      * intros k e [[? _]|He]%Hw; [done|by eapply Hmark].
  - match goal with Ho : recordIfNew _ _ = _ |- _ => destruct (recordIfNew_inv _ _ _ _ Ho) as [Ed Ep] end.
    exists log, d. cbn. rewrite Ed. split_and!; try done.
    + intros k e. rewrite lookup_delete_Some. naive_solver.
    + intros i. destruct Ep as [-> |Ep]; [apply Hp|]. rewrite Ep, elem_of_union, elem_of_singleton.
      intros [-> |Hi]; [|by apply Hp]. exists ev. split; [by eapply Hmark|done].
    + intros k e. rewrite lookup_delete_Some. naive_solver.
  - exists log, d. cbn. split_and!; try done; intros k e; rewrite lookup_delete_Some; naive_solver.
  - exists log, d. done.
Qed.

Lemma plain_runs_effectively_once `{!IdempotentHandler} `{!EqDecision (IntegrationEvent P)} d0 w :
  I d0 -> atomically = None -> eh_handle handler = h -> rtc wstep (fresh_world d0) w -> effectively_once d0 w.
Proof.
  intros I0 Hna Hh Hr. assert (Hw : forall w0, rtc wstep w0 w -> effectively_once d0 w0 -> effectively_once d0 w).
  { clear Hr. intros w0 Hr. induction Hr as [|w0 w1 w2 Hs _ IH]; [done|]. intros Hw0. apply IH. by eapply wstep_effectively_once. }
  apply (Hw (fresh_world d0) Hr). exists [], d0. cbn.
  split_and!; [apply NoDup_nil_2|done|done|done|done|by intros ev ?%elem_of_nil|done|set_solver|constructor|done].
Qed.

End idempotent.

(** ** Redelivery

    The broker delivers a message, then the retry it published, and so on, at the given times. *)

Definition attempt_of (m : Message) : nat := match mg_retry m with Some r => rh_attempt r | None => 0%nat end.

Fixpoint redeliver (times : list Z) (m : Message) (g : GroupState) : option GroupState :=
  match times with
  | [] => None
  | now :: times' =>
      let g' := (handleMessage now m g).2 in
      match drop (length (gs_retries g)) (gs_retries g') with
      | [m'] => redeliver times' m' g'
      | _ => Some g'
      end
  end.

Lemma effect_frame ev g r g' :
  effect ev g = (r, g') ->
  gs_retries g' = gs_retries g /\ gs_dead g' = gs_dead g /\ (r = Ok tt -> ev_messageId ev ∈ gs_processed g').
Proof.
  intros He. assert (Hp : (on_domain (eh_handle handler ev);; recordIfNew (ev_messageId ev);; mret tt) g = (r, g') ->
    gs_retries g' = gs_retries g /\ gs_dead g' = gs_dead g /\ (r = Ok tt -> ev_messageId ev ∈ gs_processed g')).
  { unfold on_domain, recordIfNew, has, gets, modify, mbind, M_bind.
    destruct (eh_handle handler ev (gs_domain g)) as [[u|e] d]; cbn; [|by intros [= <- <-]].
    destruct (bool_decide _) eqn:Hk; intros [= <- <-]; cbn; split_and!; try done.
    - by apply bool_decide_eq_true in Hk.
    - set_solver. }
  unfold effect in He. destruct (eh_handleAtomic handler) as [h|], hasUnitOfWork; try (by apply Hp). clear Hp.
  unfold handleAtomic, on_domain, recordIfNew, has, gets, modify, mbind, M_bind in He.
  destruct (h ev (gs_domain g)) as [[u|e] d]; cbn in He; [|by injection He as <- <-].
  destruct (bool_decide _) eqn:Hk; injection He as <- <-; cbn; split_and!; try done.
  - by apply bool_decide_eq_true in Hk.
  - set_solver.
Qed.

Lemma effect_processed ev g r g' id :
  effect ev g = (r, g') -> id ∈ gs_processed g -> id ∈ gs_processed g'.
Proof.
  intros He Hid. assert (Hp : (on_domain (eh_handle handler ev);; recordIfNew (ev_messageId ev);; mret tt) g = (r, g') ->
    id ∈ gs_processed g').
  { unfold on_domain, recordIfNew, has, gets, modify, mbind, M_bind.
    destruct (eh_handle handler ev (gs_domain g)) as [[u|e] d]; cbn; [|by intros [= <- <-]].
    destruct (bool_decide _); intros [= <- <-]; cbn; set_solver. }
  unfold effect in He. destruct (eh_handleAtomic handler) as [h|], hasUnitOfWork; try (by apply Hp). clear Hp.
  unfold mbind, M_bind in He. destruct (handleAtomic h ev g) as [[b|e] g1] eqn:Ha; injection He as <- <-;
    apply handleAtomic_inv in Ha as [[-> _]|(d & _ & _ & _ & ->)]; cbn; set_solver.
Qed.

Definition retry_of (m m' : Message) : Prop :=
  mg_key m' = mg_key m /\ mg_value m' = mg_value m /\ mg_headers m' = mg_headers m.

Definition dead_letter_of (m : Message) (id : string) (l : DeadLetter) : Prop :=
  dl_messageId l = id /\ dl_key l = mg_key m /\ dl_value l = mg_value m /\ dl_headers l = mg_headers m /\
  dl_attempts l = maxAttempts schedule.

(** One delivery of a message that can be decoded: handled, or scheduled again, or dead-lettered. *)
Lemma handleMessage_spec now m ev g r g' :
  deserialize (mg_value m) = Ok ev -> (attempt_of m <= maxAttempts schedule)%nat -> handleMessage now m g = (r, g') ->
  r = Ok tt /\
  ((ev_messageId ev ∈ gs_processed g' /\ gs_retries g' = gs_retries g /\ gs_dead g' = gs_dead g) \/
   (exists m', gs_retries g' = gs_retries g ++ [m'] /\ gs_dead g' = gs_dead g /\ retry_of m m' /\
      attempt_of m' = S (attempt_of m) /\ (attempt_of m < maxAttempts schedule)%nat) \/
   (exists l, gs_retries g' = gs_retries g /\ gs_dead g' = gs_dead g ++ [l] /\ dead_letter_of m (ev_messageId ev) l)).
Proof.
  intros Hd Ha. unfold handleMessage, decode, lift, mbind, M_bind. rewrite Hd. unfold has, gets.
  destruct (bool_decide _) eqn:Hk.
  { intros [= <- <-]. apply bool_decide_eq_true in Hk. split; [done|by left]. }
  destruct (effect ev g) as [[[]|e] g1] eqn:He; apply effect_frame in He as (H1 & H2 & H3).
  { intros [= <- <-]. split; [done|left]. auto. }
  unfold scheduleRetryOrDeadLetter, deadLetter, modify. change (match mg_retry m with Some r => rh_attempt r | None => 0%nat end) with (attempt_of m).
  clear Hk. case_bool_decide as Hm.
  - cbv beta. intros [= <- <-]. split; [done|right; right].
    assert (attempt_of m = maxAttempts schedule) by lia. eexists. cbn. rewrite H1, H2. split_and!; done.
  - unfold lift, mbind, M_bind, delayForAttempt. destruct (delaysMs schedule !! attempt_of m) as [d|] eqn:Hl.
    + intros [= <- <-]. split; [done|right; left]. eexists. cbn. rewrite H1, H2. split_and!; try done.
      apply lookup_lt_Some in Hl. done.
    + apply lookup_ge_None in Hl. unfold maxAttempts in *. lia.
Qed.

Lemma redeliver_spec times m ev g :
  deserialize (mg_value m) = Ok ev -> (attempt_of m <= maxAttempts schedule)%nat ->
  (maxAttempts schedule - attempt_of m < length times)%nat ->
  exists g' retries, redeliver times m g = Some g' /\ gs_retries g' = gs_retries g ++ retries /\
    Forall (retry_of m) retries /\ (length retries <= maxAttempts schedule - attempt_of m)%nat /\
    ((ev_messageId ev ∈ gs_processed g' /\ gs_dead g' = gs_dead g) \/
     exists l, gs_dead g' = gs_dead g ++ [l] /\ dead_letter_of m (ev_messageId ev) l).
Proof.
  revert m g. induction times as [|now times IH]; intros m g Hd Ha Ht; cbn [length] in Ht; [lia|]. cbn [redeliver].
  destruct (handleMessage now m g) as [r g1] eqn:Hm. cbn.
  destruct (handleMessage_spec now m ev g r g1 Hd Ha Hm)
    as [_ [(Hp & Hr & Hx)|[(m' & Hr & Hx & Hof & Hat & Hlt)|(l & Hr & Hx & Hl)]]]; rewrite Hr.
  - rewrite drop_all. exists g1, []. rewrite app_nil_r. split_and!; [done|done|done|cbn; lia|by left].
  - rewrite drop_app_length. destruct Hof as (Hkey & Hval & Hhead).
    destruct (IH m' g1) as (g' & retries & Hg & Hr' & Hall & Hlen & Hend); [congruence|lia|lia|].
    exists g', (m' :: retries). rewrite Hr', Hr, <- app_assoc. split_and!; [done|done| |cbn; lia|].
    + constructor; [done|]. eapply Forall_impl; [exact Hall|]. unfold retry_of. intros y (? & ? & ?). split_and!; congruence.
    + rewrite Hx in Hend. destruct Hend as [?|(l & ? & H1 & H2 & H3 & H4 & H5)]; [by left|right].
      exists l. split; [done|]. unfold dead_letter_of. split_and!; congruence.
  - rewrite drop_all. exists g1, []. rewrite app_nil_r. split_and!; [done|done|done|cbn; lia|right; by exists l].
Qed.

(** ** Properties *)

(** C24: effects happen exactly once. When the handler is atomic, whatever the deliveries of whatever
    messages to however many workers, their interleaving and their crashes, the domain store is what
    handling some messages once each, one after the other, gives from the start, and the inbox holds
    exactly the ids of those messages. *)
Theorem atomic_handler_exactly_once h d0 w :
  atomically = Some h -> rtc wstep (fresh_world d0) w ->
  exists log, NoDup (ev_messageId <$> log) /\ run_ops h log d0 = (Ok tt, gs_domain (w_group w)) /\
    forall id, (id ∈ gs_processed (w_group w)) <-> (id ∈ ev_messageId <$> log).
Proof. apply atomic_runs_handled_once. Qed.

(** A failing message comes to rest. However its handler behaves, a message that can be decoded is
    redelivered at most as often as the schedule says; then it is either recorded as processed or
    dead-lettered once, with its original key, bytes and headers and the full count of attempts. *)
Theorem failing_message_is_dead_lettered times m ev g :
  deserialize (mg_value m) = Ok ev -> mg_retry m = None -> (maxAttempts schedule < length times)%nat ->
  exists g' retries, redeliver times m g = Some g' /\ gs_retries g' = gs_retries g ++ retries /\
    (length retries <= maxAttempts schedule)%nat /\
    Forall (fun m' => mg_key m' = mg_key m /\ mg_value m' = mg_value m /\ mg_headers m' = mg_headers m) retries /\
    ((ev_messageId ev ∈ gs_processed g' /\ gs_dead g' = gs_dead g) \/
     exists l, gs_dead g' = gs_dead g ++ [l] /\ dead_letter_of m (ev_messageId ev) l).
Proof.
  intros Hd Hr Ht. assert (Ha : attempt_of m = 0%nat) by (unfold attempt_of; by rewrite Hr).
  destruct (redeliver_spec times m ev g Hd) as (g' & retries & H1 & H2 & H3 & H4 & H5); [lia|lia|].
  exists g', retries. split_and!; try done. lia.
Qed.

(** A message that cannot be decoded never comes to rest by the broker. Each delivery throws and
    leaves the inbox, the retry topic and the dead letters as they were, so however often it is
    delivered again it is neither retried nor dead-lettered. *)
Lemma undecodable_message_blocks times m e g :
  deserialize (mg_value m) = Err e ->
  Forall (fun now => handleMessage now m g = (Err e, g)) times.
Proof.
  intros Hd. apply Forall_forall. intros now _. unfold handleMessage, decode, lift, mbind, M_bind. by rewrite Hd.
Qed.
End consumer.

(** ** Witnesses

    A handler that adds the payload to a counter and refuses negative ones; the first byte of a message
    is its id, the second its payload, and an empty message cannot be decoded. *)
Definition sample_handle (ev : IntegrationEvent Z) : M Z unit :=
  throw_if (bool_decide (ev_payload ev < 0)) (BusinessRuleError "negative");; modify (fun d => d + ev_payload ev).
Definition sample_handler : EventHandler Z Z := mkHandler _ _ "orders.order.paid.v1" sample_handle (Some sample_handle).
Definition sample_deserialize (bytes : list Ascii.ascii) : result (IntegrationEvent Z) :=
  match bytes with
  | id :: c :: _ => Ok (mkEvent (String id EmptyString) "t1" (Z.of_nat (Ascii.nat_of_ascii c) - 53))
  | _ => Err (UnexpectedError "Unexpected end of JSON input")
  end.
Definition sample_message (bytes : string) : Message := mkMessage "o1" (String.list_ascii_of_string bytes) [] None.

(** Two workers receive message "a8" before either has handled it. *)
Definition sample_event : IntegrationEvent Z := mkEvent "a" "t1" 3.
Definition after_race : GroupState := mkGroup (D := Z) 3 {["a"]} [] [].

Lemma atomic_handler_exactly_once_witness :
  exists log, NoDup (ev_messageId <$> log) /\ run_ops sample_handle log 0 = (Ok tt, gs_domain after_race) /\
    forall id, (id ∈ gs_processed after_race) <-> (id ∈ ev_messageId <$> log).
Proof.
  apply (atomic_handler_exactly_once sample_deserialize sample_handler true sample_handle 0 (mkWorld after_race ∅)); [done|].
  set (g0 := mkGroup (D := Z) 0 ∅ [] []).
  eapply rtc_l; [by apply (ws_receive sample_deserialize sample_handler true 0 sample_event (String.list_ascii_of_string "a8") g0 ∅)|].
  eapply rtc_l; [by apply (ws_receive sample_deserialize sample_handler true 1 sample_event (String.list_ascii_of_string "a8") g0 _)|].
  eapply rtc_l; [by apply (ws_atomic sample_deserialize sample_handler true 0 sample_event sample_handle (Ok true) g0 after_race _)|].
  eapply rtc_l; [by apply (ws_atomic sample_deserialize sample_handler true 1 sample_event sample_handle (Ok false) after_race after_race _)|].
  apply rtc_refl.
Defined.

Lemma failing_message_is_dead_lettered_witness :
  let run := redeliver sample_deserialize sample_handler "g1" (mkRetrySchedule [5; 30]) true [0; 5; 35] in
  let g0 := mkGroup (D := Z) 0 ∅ [] [] in
  (exists g' retries, run (sample_message "b1") g0 = Some g' /\ gs_retries g' = [] ++ retries) /\
  (exists g', run (sample_message "b1") g0 = Some g' /\ length (gs_dead g') = 1%nat /\ length (gs_retries g') = 2%nat).
Proof.
  split.
  - destruct (failing_message_is_dead_lettered sample_deserialize sample_handler "g1" (mkRetrySchedule [5; 30]) true
      [0; 5; 35] (sample_message "b1") (mkEvent "b" "t1" (-4)) (mkGroup (D := Z) 0 ∅ [] []))
      as (g' & retries & H1 & H2 & _); [reflexivity|reflexivity|cbn; lia|]. by exists g', retries.
  - eexists. split; [vm_compute; reflexivity|]. by vm_compute.
Defined.
