(* ===== verification/Relay.v ===== *)
(** The outbox delivery relay: [packages/messaging/src/outbox/outbox-delivery-relay.ts] and its queue
    [packages/db/src/messaging/prisma-outbox-delivery-queue.ts]. Pending rows are handed to the consumers
    of their topic; a row is published once all have effected it, deferred while one fails, and
    dead-lettered when the schedule is exhausted. The consumers are an interface; Consumer.v provides it. *)
From S2P Require Import Prelude Consumer.

#[global] Open Scope Z_scope.

(** ** The outbox as a queue *)

Inductive OutboxStatus := st_pending | st_published.
#[export] Instance OutboxStatus_eq_dec : EqDecision OutboxStatus.
Proof. solve_decision. Defined.

Record OutboxEntry := mkEntry {
  oe_id : string; oe_topic : string; oe_key : string; oe_payload : list Ascii.ascii;
  oe_headers : list (string * string) }.

(** A row of the outbox table. *)
Record Row := mkRow {
  rw_entry : OutboxEntry; rw_status : OutboxStatus; rw_attempts : nat; rw_availableAt : option Z;
  rw_publishedAt : option Z }.

Record DueOutboxEntry := mkDue { du_entry : OutboxEntry; du_attempts : nat }.

Definition is_pending (r : Row) : bool := bool_decide (rw_status r = st_pending).
Definition is_due (now : Z) (r : Row) : bool :=
  is_pending r && match rw_availableAt r with None => true | Some t => bool_decide (t <= now) end.

Definition fetchDue (limit : nat) (now : Z) (rows : list Row) : list DueOutboxEntry :=
  (fun r => mkDue (rw_entry r) (rw_attempts r)) <$> take limit (filter (fun r => is_due now r = true) rows).

Definition markDelivered (ids : list string) (deliveredAt : Z) (rows : list Row) : list Row :=
  (fun r => if bool_decide (oe_id (rw_entry r) ∈ ids) && is_pending r
            then mkRow (rw_entry r) st_published (rw_attempts r) (rw_availableAt r) (Some deliveredAt) else r) <$> rows.

Definition defer (id : string) (attempts : nat) (availableAt : Z) (rows : list Row) : list Row :=
  (fun r => if bool_decide (oe_id (rw_entry r) = id) && is_pending r
            then mkRow (rw_entry r) (rw_status r) attempts (Some availableAt) (rw_publishedAt r) else r) <$> rows.

(** ** The consumers, as the relay sees them

    [deliver] effects a message or throws; [deadLetter] records one that exhausted its retries, or throws.
    What was effected or recorded stays so. The promise holds for the entries the outbox writer makes. *)
Class DirectConsumer (C W : Type) := {
  topic : C -> string;
  dc_deliver : C -> OutboxEntry -> M W unit;
  dc_deadLetter : C -> OutboxEntry -> nat -> DomainError -> M W unit;
  entry_ok : OutboxEntry -> Prop;
  effected : C -> string -> W -> Prop;
  recorded : C -> string -> W -> Prop;
  deliver_effects c e w w' : entry_ok e -> dc_deliver c e w = (Ok tt, w') -> effected c (oe_id e) w';
  deadLetter_records c e n x w w' : dc_deadLetter c e n x w = (Ok tt, w') -> recorded c (oe_id e) w';
  deliver_keeps c e w r w' c' id : dc_deliver c e w = (r, w') ->
    (effected c' id w -> effected c' id w') /\ (recorded c' id w -> recorded c' id w');
  deadLetter_keeps c e n x w r w' c' id : dc_deadLetter c e n x w = (r, w') ->
    (effected c' id w -> effected c' id w') /\ (recorded c' id w -> recorded c' id w')
}.

(** ** One pass *)

Section relay.
Context {C W : Type} `{DirectConsumer C W}.
Context (consumers : list C) (retryDelaysMs : list Z) (batchSize : nat).

Record RelayState := mkRelay { rl_rows : list Row; rl_world : W }.
Abbreviation RelayM := (M RelayState).

Definition consumersByTopic (t : string) : list C := filter (fun c => topic c = t) consumers.

Definition queue (f : list Row -> list Row) : RelayM unit :=
  modify (fun s => mkRelay (f (rl_rows s)) (rl_world s)).
Definition in_world {A} (m : M W A) : RelayM A := fun s =>
  let '(r, w) := m (rl_world s) in (r, mkRelay (rl_rows s) w).

Inductive RowOutcome := o_delivered | o_deferred | o_dead_lettered.
Record OutboxDeliveryReport := mkReport {
  rp_delivered : nat; rp_unrouted : nat; rp_deferred : nat; rp_deadLettered : nat }.

Abbreviation Failure := (C * DomainError)%type.

(** Every consumer is tried, the failures collected. *)
Fixpoint try_all (e : OutboxEntry) (cs : list C) (s : RelayState) : list Failure * RelayState :=
  match cs with
  | [] => ([], s)
  | c :: cs' =>
      let '(r, s1) := in_world (dc_deliver c e) s in
      let '(failures, s2) := try_all e cs' s1 in
      (match r with Ok _ => failures | Err x => (c, x) :: failures end, s2)
  end.

Fixpoint dead_letter_all (e : OutboxEntry) (rounds : nat) (failures : list Failure) : RelayM unit :=
  match failures with
  | [] => mret tt
  | (c, x) :: fs => in_world (dc_deadLetter c e rounds x);; dead_letter_all e rounds fs
  end.

Definition deliverRow (now : Z) (due : DueOutboxEntry) (cs : list C) : RelayM RowOutcome :=
  let entry := du_entry due in
  failures ← (fun s => let '(failures, s') := try_all entry cs s in (Ok failures, s'));
  match failures with
  | [] => queue (markDelivered [oe_id entry] now);; mret o_delivered
  | _ =>
      let rounds := S (du_attempts due) in
      match retryDelaysMs !! (rounds - 1)%nat with
      | None =>
          dead_letter_all entry rounds failures;;
          queue (markDelivered [oe_id entry] now);;
          mret o_dead_lettered
      | Some delayMs => queue (defer (oe_id entry) rounds (now + delayMs));; mret o_deferred
      end
  end.

Definition is_routed (due : DueOutboxEntry) : bool :=
  negb (bool_decide (length (consumersByTopic (oe_topic (du_entry due))) = 0%nat)).

Definition count_outcome (o : RowOutcome) (r : OutboxDeliveryReport) : OutboxDeliveryReport :=
  match o with
  | o_delivered => mkReport (S (rp_delivered r)) (rp_unrouted r) (rp_deferred r) (rp_deadLettered r)
  | o_deferred => mkReport (rp_delivered r) (rp_unrouted r) (S (rp_deferred r)) (rp_deadLettered r)
  | o_dead_lettered => mkReport (rp_delivered r) (rp_unrouted r) (rp_deferred r) (S (rp_deadLettered r))
  end.

Fixpoint deliver_batch (now : Z) (batch : list DueOutboxEntry) (report : OutboxDeliveryReport) :
    RelayM OutboxDeliveryReport :=
  match batch with
  | [] => mret report
  | due :: batch' =>
      if is_routed due then
        o ← deliverRow now due (consumersByTopic (oe_topic (du_entry due)));
        deliver_batch now batch' (count_outcome o report)
      else deliver_batch now batch' report
  end.

Definition unrouted_ids (batch : list DueOutboxEntry) : list string :=
  (fun due => oe_id (du_entry due)) <$> filter (fun due => is_routed due = false) batch.

Definition drainOnce (now : Z) : RelayM OutboxDeliveryReport :=
  batch ← gets (fun s => fetchDue batchSize now (rl_rows s));
  (if bool_decide (unrouted_ids batch = []) then mret tt else queue (markDelivered (unrouted_ids batch) now));;
  deliver_batch now batch (mkReport 0 (length (unrouted_ids batch)) 0 0).

(** ** Several relays, and crashes

    A worker is between two calls to the queue or to a consumer; other workers and producers act in
    between, and a worker may crash. *)

Inductive Phase :=
| p_unrouted (batch : list DueOutboxEntry)
| p_row (due : DueOutboxEntry) (rest : list DueOutboxEntry) (todo : list C) (failures : list Failure)
| p_dead (due : DueOutboxEntry) (rest : list DueOutboxEntry) (todo : list Failure).

Definition subscribers (due : DueOutboxEntry) : list C := consumersByTopic (oe_topic (du_entry due)).

Definition next_row (batch : list DueOutboxEntry) : option Phase :=
  match filter (fun due => is_routed due = true) batch with
  | [] => None
  | due :: rest => Some (p_row due rest (subscribers due) [])
  end.

Definition on_queue (f : list Row -> list Row) (s : RelayState) : RelayState := mkRelay (f (rl_rows s)) (rl_world s).

Definition phase_step (now : Z) (p : Phase) (s : RelayState) : option Phase * RelayState :=
  match p with
  | p_unrouted batch => (next_row batch, on_queue (markDelivered (unrouted_ids batch) now) s)
  | p_row due rest (c :: todo) failures =>
      let '(r, s') := in_world (dc_deliver c (du_entry due)) s in
      (Some (p_row due rest todo (match r with Ok _ => failures | Err x => failures ++ [(c, x)] end)), s')
  | p_row due rest [] [] => (next_row rest, on_queue (markDelivered [oe_id (du_entry due)] now) s)
  | p_row due rest [] failures =>
      match retryDelaysMs !! du_attempts due with
      | None => (Some (p_dead due rest failures), s)
      | Some delayMs =>
          (next_row rest, on_queue (defer (oe_id (du_entry due)) (S (du_attempts due)) (now + delayMs)) s)
      end
  | p_dead due rest ((c, x) :: todo) =>
      let '(r, s') := in_world (dc_deadLetter c (du_entry due) (S (du_attempts due)) x) s in
      (match r with Ok _ => Some (p_dead due rest todo) | Err _ => None end, s')
  | p_dead due rest [] => (next_row rest, on_queue (markDelivered [oe_id (du_entry due)] now) s)
  end.

Record Relays := mkRelays { rs_state : RelayState; rs_workers : gmap nat Phase }.

Definition put (n : nat) (p : option Phase) (ws : gmap nat Phase) : gmap nat Phase :=
  match p with Some p => <[n := p]> ws | None => delete n ws end.

Definition row_ids (rows : list Row) : list string := (fun r => oe_id (rw_entry r)) <$> rows.

Inductive rstep : Relays -> Relays -> Prop :=
| rs_fetch n now s ws :
    ws !! n = None ->
    rstep (mkRelays s ws) (mkRelays s (<[n := p_unrouted (fetchDue batchSize now (rl_rows s))]> ws))
| rs_advance n now p s ws p' s' :
    ws !! n = Some p -> phase_step now p s = (p', s') -> rstep (mkRelays s ws) (mkRelays s' (put n p' ws))
| rs_crash n s ws : rstep (mkRelays s ws) (mkRelays s (delete n ws))
| rs_append s ws rows :
    Forall (fun r => rw_status r = st_pending /\ entry_ok (rw_entry r)) rows ->
    NoDup (row_ids (rl_rows s ++ rows)) ->
    rstep (mkRelays s ws) (mkRelays (mkRelay (rl_rows s ++ rows) (rl_world s)) ws).

Definition empty_relays (w : W) : Relays := mkRelays (mkRelay [] w) ∅.

(** ** What a pass keeps *)

Definition settled (c : C) (id : string) (w : W) : Prop := effected c id w \/ recorded c id w.

Definition entries (s : RelayState) : list OutboxEntry := rw_entry <$> rl_rows s.

(** Entries stay, and what was settled stays settled. *)
Definition grows (s s' : RelayState) : Prop :=
  (forall e, e ∈ entries s -> e ∈ entries s') /\
  (forall c id, settled c id (rl_world s) -> settled c id (rl_world s')).

#[local] Instance grows_preorder : PreOrder grows.
Proof. split; [by split|]. intros a b c [H1 H2] [H3 H4]. split; auto. Qed.

Lemma mark_entries ids now rows : rw_entry <$> markDelivered ids now rows = rw_entry <$> rows.
Proof. unfold markDelivered. rewrite <- list_fmap_compose. apply list_fmap_ext. intros i r _. cbn. by destruct (_ && _). Qed.
Lemma defer_entries id n t rows : rw_entry <$> defer id n t rows = rw_entry <$> rows.
Proof. unfold defer. rewrite <- list_fmap_compose. apply list_fmap_ext. intros i r _. cbn. by destruct (_ && _). Qed.

Lemma grows_queue f s : rw_entry <$> f (rl_rows s) = rw_entry <$> rl_rows s -> grows s (on_queue f s).
Proof. intros Hf. split; [unfold entries; cbn; by rewrite Hf|done]. Qed.

Lemma grows_deliver c e s r s' : in_world (dc_deliver c e) s = (r, s') -> grows s s' /\ rl_rows s' = rl_rows s.
Proof.
  unfold in_world. destruct (dc_deliver c e (rl_world s)) as [x w] eqn:Hd. intros [= <- <-]. split; [|done].
  split; [done|]. cbn. intros c' id Hs. destruct (deliver_keeps _ _ _ _ _ c' id Hd). unfold settled in *. tauto.
Qed.

Lemma grows_deadLetter c e n x s r s' : in_world (dc_deadLetter c e n x) s = (r, s') -> grows s s' /\ rl_rows s' = rl_rows s.
Proof.
  unfold in_world. destruct (dc_deadLetter c e n x (rl_world s)) as [y w] eqn:Hd. intros [= <- <-]. split; [|done].
  split; [done|]. cbn. intros c' id Hs. destruct (deadLetter_keeps _ _ _ _ _ _ _ c' id Hd). unfold settled in *. tauto.
Qed.

(** What a worker between two calls knows. *)
Definition due_ok (s : RelayState) (d : DueOutboxEntry) : Prop := du_entry d ∈ entries s.

Definition phase_ok (s : RelayState) (p : Phase) : Prop :=
  match p with
  | p_unrouted batch => Forall (due_ok s) batch
  | p_row d rest todo failures =>
      due_ok s d /\ Forall (due_ok s) rest /\
      forall c, c ∈ subscribers d -> c ∈ todo \/ c ∈ failures.*1 \/ settled c (oe_id (du_entry d)) (rl_world s)
  | p_dead d rest todo =>
      due_ok s d /\ Forall (due_ok s) rest /\
      forall c, c ∈ subscribers d -> c ∈ todo.*1 \/ settled c (oe_id (du_entry d)) (rl_world s)
  end.

Lemma due_ok_grows s s' d : grows s s' -> due_ok s d -> due_ok s' d.
Proof. intros [H1 _] Hd. by apply H1. Qed.

Lemma phase_ok_grows s s' p : grows s s' -> phase_ok s p -> phase_ok s' p.
Proof.
  intros Hg. assert (Hf : forall l, Forall (due_ok s) l -> Forall (due_ok s') l).
  { intros l Hl. eapply Forall_impl; [exact Hl|]. intros d. by apply due_ok_grows. }
  destruct p as [batch|d rest todo fs|d rest todo]; cbn; [auto| |];
    intros (H1 & H2 & H3); (split; [by eapply due_ok_grows|split; [by apply Hf|]]); intros c Hc;
    destruct Hg as [_ Hg]; specialize (H3 c Hc); naive_solver.
Qed.

Lemma next_row_ok s batch p : Forall (due_ok s) batch -> next_row batch = Some p -> phase_ok s p.
Proof.
  intros Hb. unfold next_row. destruct (filter _ batch) as [|d rest] eqn:Hf; [done|]. intros [= <-].
  assert (Hin : Forall (due_ok s) (d :: rest)).
  { rewrite <- Hf. apply Forall_forall. intros x [_ Hx]%list_elem_of_filter. rewrite Forall_forall in Hb. auto. }
  apply Forall_cons in Hin as [H1 H2]. split; [done|split; [done|]]. intros c Hc. by left.
Qed.

(** Published rows are settled at every subscriber. *)
Definition published_ok (s : RelayState) : Prop :=
  forall r, r ∈ rl_rows s -> rw_status r = st_published ->
  forall c, c ∈ consumersByTopic (oe_topic (rw_entry r)) -> settled c (oe_id (rw_entry r)) (rl_world s).

Definition rows_ok (s : RelayState) : Prop :=
  NoDup (row_ids (rl_rows s)) /\ Forall (fun r => entry_ok (rw_entry r)) (rl_rows s).

Lemma row_ids_entries s : row_ids (rl_rows s) = oe_id <$> entries s.
Proof. unfold row_ids, entries. by rewrite <- list_fmap_compose. Qed.

Lemma same_entry s e e' : rows_ok s -> e ∈ entries s -> e' ∈ entries s -> oe_id e = oe_id e' -> e = e'.
Proof.
  intros [Hn _]. rewrite row_ids_entries in Hn. revert Hn. generalize (entries s) as l.
  induction l as [|x l IH]; cbn; [by intros _ ?%elem_of_nil|]. intros [Hx Hn]%NoDup_cons He He' Hid.
  apply elem_of_cons in He as [->|He], He' as [->|He']; [done| | |by apply IH].
  - destruct Hx. rewrite Hid. by apply list_elem_of_fmap_2.
  - destruct Hx. rewrite <- Hid. by apply list_elem_of_fmap_2.
Qed.

Lemma entries_entry_ok s e : rows_ok s -> e ∈ entries s -> entry_ok e.
Proof. intros [_ Hf] (r & -> & Hr)%list_elem_of_fmap. rewrite Forall_forall in Hf. by apply Hf. Qed.

Lemma mark_published s ids now :
  published_ok s ->
  (forall e, e ∈ entries s -> oe_id e ∈ ids ->
     forall c, c ∈ consumersByTopic (oe_topic e) -> settled c (oe_id e) (rl_world s)) ->
  published_ok (on_queue (markDelivered ids now) s).
Proof.
  intros Hp Hm r Hr Hs c Hc. cbn in *. unfold markDelivered in Hr. apply list_elem_of_fmap in Hr as (r0 & -> & Hr).
  destruct (bool_decide _ && is_pending r0) eqn:Hb; [|by apply Hp].
  apply andb_true_iff in Hb as [Hid%bool_decide_eq_true _]. cbn in *. apply Hm; [|done|done].
  by apply list_elem_of_fmap_2.
Qed.

Lemma defer_published s id n t : published_ok s -> published_ok (on_queue (defer id n t) s).
Proof.
  intros Hp r Hr Hs c Hc. cbn in *. unfold defer in Hr. apply list_elem_of_fmap in Hr as (r0 & -> & Hr).
  destruct (bool_decide _ && is_pending r0) eqn:Hb; [|by apply Hp]. cbn in *.
  apply andb_true_iff in Hb as [_ Hb]. unfold is_pending in Hb. apply bool_decide_eq_true in Hb. congruence.
Qed.

Lemma published_grows s s' : grows s s' -> rl_rows s' = rl_rows s -> published_ok s -> published_ok s'.
Proof. intros [_ Hg] Hr Hp r Hin Hs c Hc. rewrite Hr in Hin. apply Hg. by apply Hp. Qed.

Lemma unrouted_has_no_consumer batch id :
  id ∈ unrouted_ids batch -> exists d, d ∈ batch /\ oe_id (du_entry d) = id /\ subscribers d = [].
Proof.
  unfold unrouted_ids. intros (d & -> & [Hr Hd]%list_elem_of_filter)%list_elem_of_fmap.
  exists d. split_and!; [done|done|]. unfold is_routed in Hr. apply negb_false_iff, bool_decide_eq_true in Hr.
  by apply nil_length_inv.
Qed.

Record relays_ok (r : Relays) : Prop := {
  ro_rows : rows_ok (rs_state r);
  ro_published : published_ok (rs_state r);
  ro_phases : forall n p, rs_workers r !! n = Some p -> phase_ok (rs_state r) p
}.

Lemma rows_ok_entries s s' : entries s' = entries s -> rows_ok s -> rows_ok s'.
Proof.
  unfold rows_ok. rewrite !row_ids_entries. intros He [H1 H2]. rewrite He. split; [done|].
  assert (H3 : Forall entry_ok (entries s')) by (rewrite He; unfold entries; by apply Forall_fmap).
  unfold entries in H3. rewrite Forall_fmap in H3. exact H3.
Qed.

Lemma mark_row_published s d now :
  rows_ok s -> published_ok s -> due_ok s d ->
  (forall c, c ∈ subscribers d -> settled c (oe_id (du_entry d)) (rl_world s)) ->
  published_ok (on_queue (markDelivered [oe_id (du_entry d)] now) s).
Proof.
  intros Hr Hp Hd Hs. apply mark_published; [done|]. intros e He Hid%list_elem_of_singleton c Hc.
  assert (e = du_entry d) as -> by (by apply (same_entry s)). by apply Hs.
Qed.

(** One step of a worker keeps the rows, publishes only what is settled, and leaves it knowing enough. *)
Lemma phase_step_ok now p s p' s' :
  phase_step now p s = (p', s') -> rows_ok s -> published_ok s -> phase_ok s p ->
  grows s s' /\ entries s' = entries s /\ published_ok s' /\ (forall q, p' = Some q -> phase_ok s' q).
Proof.
  intros Hs Hr Hp Hok. destruct p as [batch|d rest [|c todo] fs|d rest [|[c x] todo]]; cbn in Hs, Hok.
  - injection Hs as <- <-. assert (Hg : grows s (on_queue (markDelivered (unrouted_ids batch) now) s)).
    { apply grows_queue, mark_entries. }
    split_and!; [done|apply mark_entries| |].
    + apply mark_published; [done|]. intros e He (d & Hd & Hid & Hsub)%unrouted_has_no_consumer c Hc.
      rewrite Forall_forall in Hok. assert (e = du_entry d) as -> by (apply (same_entry s); [done|done|by apply Hok|done]).
      unfold subscribers in Hsub. rewrite Hsub in Hc. by apply elem_of_nil in Hc.
    + intros q Hq. apply (next_row_ok _ batch); [|done]. eapply Forall_impl; [exact Hok|]. intros d'. by apply due_ok_grows.
  - destruct Hok as (Hd & Hrest & Hsub). destruct fs as [|f fs].
    + injection Hs as <- <-. assert (Hg : grows s (on_queue (markDelivered [oe_id (du_entry d)] now) s)) by apply grows_queue, mark_entries.
      split_and!; [done|apply mark_entries| |].
      * apply mark_row_published; [done|done|done|]. intros c Hc. destruct (Hsub c Hc) as [?|[?|?]]; [set_solver|set_solver|done].
      * intros q Hq. apply (next_row_ok _ rest); [|done]. eapply Forall_impl; [exact Hrest|]. intros d'. by apply due_ok_grows.
    + destruct (retryDelaysMs !! du_attempts d) as [dl|]; injection Hs as <- <-.
      * assert (Hg : grows s (on_queue (defer (oe_id (du_entry d)) (S (du_attempts d)) (now + dl)) s)) by apply grows_queue, defer_entries.
        split_and!; [done|apply defer_entries|by apply defer_published|].
        intros q Hq. apply (next_row_ok _ rest); [|done]. eapply Forall_impl; [exact Hrest|]. intros d'. by apply due_ok_grows.
      * split_and!; [reflexivity|done|done|]. intros q [= <-]. cbn. split_and!; [done|done|].
        intros c Hc. destruct (Hsub c Hc) as [?|[?|?]]; [set_solver|by left|by right].
  - destruct Hok as (Hd & Hrest & Hsub). destruct (in_world (dc_deliver c (du_entry d)) s) as [r s1] eqn:Hin.
    injection Hs as <- <-. destruct (grows_deliver _ _ _ _ _ Hin) as [Hg Hrows].
    split_and!; [done|unfold entries; by rewrite Hrows|by eapply published_grows|].
    intros q [= <-]. cbn. split_and!; [by eapply due_ok_grows| |].
    { eapply Forall_impl; [exact Hrest|]. intros d'. by apply due_ok_grows. }
    intros c' Hc'. destruct (Hsub c' Hc') as [[->|?]%elem_of_cons|[?|?]]; [|by left| |].
    + right. destruct r as [[]|x]; [right; left|left; rewrite fmap_app; set_solver].
      unfold in_world in Hin. destruct (dc_deliver c (du_entry d) (rl_world s)) as [y w] eqn:Hdel. injection Hin as -> <-.
      eapply deliver_effects; [|exact Hdel]. by apply (entries_entry_ok s).
    + right; left. destruct r; [done|]. rewrite fmap_app. set_solver.
    + right; right. destruct Hg as [_ Hg]. by apply Hg.
  - destruct Hok as (Hd & Hrest & Hsub). injection Hs as <- <-.
    assert (Hg : grows s (on_queue (markDelivered [oe_id (du_entry d)] now) s)) by apply grows_queue, mark_entries.
    split_and!; [done|apply mark_entries| |].
    + apply mark_row_published; [done|done|done|]. intros c Hc. destruct (Hsub c Hc) as [?|?]; [set_solver|done].
    + intros q Hq. apply (next_row_ok _ rest); [|done]. eapply Forall_impl; [exact Hrest|]. intros d'. by apply due_ok_grows.
  - destruct Hok as (Hd & Hrest & Hsub). destruct (in_world (dc_deadLetter c (du_entry d) _ x) s) as [r s1] eqn:Hin.
    injection Hs as <- <-. destruct (grows_deadLetter _ _ _ _ _ _ _ Hin) as [Hg Hrows].
    split_and!; [done|unfold entries; by rewrite Hrows|by eapply published_grows|].
    intros q Hq. destruct r as [[]|y]; [|done]. injection Hq as <-. cbn. split_and!; [by eapply due_ok_grows| |].
    { eapply Forall_impl; [exact Hrest|]. intros d'. by apply due_ok_grows. }
    intros c' Hc'. destruct (Hsub c' Hc') as [Hin'|?]; [|right; destruct Hg as [_ Hg]; by apply Hg].
    cbn in Hin'. apply elem_of_cons in Hin' as [->|?]; [right; right|by left].
    unfold in_world in Hin. destruct (dc_deadLetter c (du_entry d) _ x (rl_world s)) as [y w] eqn:Hdel. injection Hin as -> <-.
    by eapply deadLetter_records.
Qed.

Lemma fetchDue_ok s now : Forall (due_ok s) (fetchDue batchSize now (rl_rows s)).
Proof.
  apply Forall_forall. intros d (r & -> & Hr)%list_elem_of_fmap.
  apply take_elem, list_elem_of_filter in Hr as [_ Hr]. unfold due_ok, entries. cbn. by apply list_elem_of_fmap_2.
Qed.

Lemma rstep_ok r r' : rstep r r' -> relays_ok r -> relays_ok r'.
Proof.
  intros Hs [Hr Hp Hph]. destruct Hs as [n now s ws Hn|n now p s ws p' s' Hn Hs|n s ws|s ws rows Hf Hn]; cbn in *.
  - split; [done|done|]. intros k p. cbn. rewrite lookup_insert_Some.
    intros [[<- <-]|[_ Hk]]; [apply fetchDue_ok|by eapply Hph].
  - destruct (phase_step_ok now p s p' s' Hs Hr Hp (Hph n p Hn)) as (Hg & He & Hp' & Hq).
    split; [by apply (rows_ok_entries s)|done|]. intros k q Hk. cbn in *.
    assert (Hkq : p' = Some q /\ k = n \/ ws !! k = Some q).
    { destruct p' as [x|]; cbn in Hk; [rewrite lookup_insert_Some in Hk|rewrite lookup_delete_Some in Hk]; naive_solver. }
    destruct Hkq as [[Hx _]|Hk']; [by apply Hq|]. eapply phase_ok_grows; [exact Hg|by eapply Hph].
  - split; [done|done|]. intros k p. cbn. rewrite lookup_delete_Some. intros [_ Hk]. by eapply Hph.
  - assert (Hg : grows s (mkRelay (rl_rows s ++ rows) (rl_world s))).
    { split; [|done]. unfold entries. cbn. intros e He. rewrite fmap_app. apply elem_of_app. by left. }
    split; cbn.
    + destruct Hr as [_ Hr]. split; [done|]. cbn. apply Forall_app. split; [done|].
      eapply Forall_impl; [exact Hf|]. by intros x [_ ?].
    + intros x [Hx|Hx]%elem_of_app Hst c Hc; cbn in *; [by apply Hp|].
      rewrite Forall_forall in Hf. destruct (Hf x Hx) as [Hpend _]. congruence.
    + intros k p Hk. eapply phase_ok_grows; [exact Hg|by eapply Hph].
Qed.

Lemma empty_relays_ok w : relays_ok (empty_relays w).
Proof.
  split; cbn; [split; [constructor|constructor]| |by intros n p ?].
  intros r Hr. by apply elem_of_nil in Hr.
Qed.

(** ** [drainOnce] is one worker's run *)

Section run.
Context (n : nat) (now : Z) (ws : gmap nat Phase) (Hn : ws !! n = None).
Abbreviation at_phase s p := (mkRelays s (put n p ws)).

Lemma advance s p s' p' :
  phase_step now p s = (p', s') -> rstep (at_phase s (Some p)) (at_phase s' p').
Proof.
  intros Hp. assert (E : put n p' (put n (Some p) ws) = put n p' ws).
  { destruct p'; cbn; [by rewrite insert_insert_eq|by rewrite delete_insert_eq]. }
  rewrite <- E. apply (rs_advance n now p); [apply lookup_insert_eq|done].
Qed.

Lemma try_all_run d rest todo fs s failures s' :
  try_all (du_entry d) todo s = (failures, s') ->
  rtc rstep (at_phase s (Some (p_row d rest todo fs))) (at_phase s' (Some (p_row d rest [] (fs ++ failures)))).
Proof.
  revert fs s failures s'. induction todo as [|c todo IH]; intros fs s failures s' Ht; cbn in Ht.
  { injection Ht as <- <-. by rewrite app_nil_r. }
  destruct (in_world (dc_deliver c (du_entry d)) s) as [r s1] eqn:Hd.
  destruct (try_all (du_entry d) todo s1) as [fs' s2] eqn:Hrest. injection Ht as <- <-.
  eapply rtc_l; [apply advance; cbn; rewrite Hd; reflexivity|].
  destruct r as [u|x].
  - by apply IH.
  - replace (fs ++ (c, x) :: fs') with ((fs ++ [(c, x)]) ++ fs') by (by rewrite <- app_assoc). by apply IH.
Qed.

Lemma dead_letter_run d rest todo s r s' :
  dead_letter_all (du_entry d) (S (du_attempts d)) todo s = (r, s') ->
  rtc rstep (at_phase s (Some (p_dead d rest todo)))
    (at_phase s' (match r with Ok _ => Some (p_dead d rest []) | Err _ => None end)).
Proof.
  revert s. induction todo as [|[c x] todo IH]; intros s; cbn; [by intros [= <- <-]|].
  unfold mbind, M_bind. destruct (in_world _ s) as [[u|y] s1] eqn:Hd; [intros H1|intros [= <- <-]].
  - eapply rtc_l; [apply advance; cbn; rewrite Hd; reflexivity|]. by apply IH.
  - apply rtc_once, advance. cbn. by rewrite Hd.
Qed.

Lemma deliverRow_run d rest s r s' :
  deliverRow now d (subscribers d) s = (r, s') ->
  rtc rstep (at_phase s (Some (p_row d rest (subscribers d) [])))
    (at_phase s' (match r with Ok _ => next_row rest | Err _ => None end)).
Proof.
  unfold deliverRow, mbind, M_bind. destruct (try_all (du_entry d) (subscribers d) s) as [fs s1] eqn:Ht.
  apply (try_all_run d rest _ []) in Ht. cbn [app] in Ht. rewrite Nat.sub_succ, Nat.sub_0_r.
  destruct fs as [|f fs].
  - intros [= <- <-]. eapply rtc_r; [exact Ht|]. by apply advance.
  - destruct (retryDelaysMs !! du_attempts d) as [dl|] eqn:Hl.
    + intros [= <- <-]. eapply rtc_r; [exact Ht|]. apply advance. cbn. by rewrite Hl.
    + destruct (dead_letter_all _ _ (f :: fs) s1) as [x s2] eqn:Hdead. apply (dead_letter_run d rest) in Hdead.
      intros Heq. etrans; [exact Ht|]. eapply rtc_l; [apply advance; cbn; rewrite Hl; reflexivity|].
      destruct x as [u|y]; injection Heq as <- <-; [|exact Hdead]. eapply rtc_r; [exact Hdead|]. by apply advance.
Qed.

Lemma deliver_batch_run batch report s r s' :
  deliver_batch now batch report s = (r, s') ->
  rtc rstep (at_phase s (next_row batch)) (mkRelays s' ws).
Proof.
  assert (Hdel : put n None ws = ws) by (cbn; by rewrite delete_id).
  revert report s. induction batch as [|d batch IH]; intros report s Hb; cbn in Hb.
  { injection Hb as _ <-. cbn. by rewrite delete_id. }
  unfold next_row. rewrite filter_cons. destruct (is_routed d) eqn:Hd.
  - rewrite decide_True by done. unfold mbind, M_bind in Hb.
    destruct (deliverRow now d (subscribers d) s) as [o s1] eqn:Hrow. unfold subscribers in Hrow.
    rewrite Hrow in Hb. apply (deliverRow_run d (filter (fun due => is_routed due = true) batch)) in Hrow.
    etrans; [exact Hrow|]. destruct o as [o|x].
    + assert (E : next_row (filter (fun due => is_routed due = true) batch) = next_row batch).
      { unfold next_row. by rewrite list.list_filter_filter_l by done. }
      rewrite E. by eapply IH.
    + injection Hb as _ <-. by rewrite Hdel.
  - rewrite decide_False by done. by eapply IH.
Qed.

Lemma drainOnce_run s r s' : drainOnce now s = (r, s') -> rtc rstep (mkRelays s ws) (mkRelays s' ws).
Proof.
  unfold drainOnce, gets, mbind, M_bind. intros Hd. eapply rtc_l; [by apply (rs_fetch n now)|].
  set (batch := fetchDue batchSize now (rl_rows s)) in *.
  eapply rtc_l; [by apply (advance s (p_unrouted batch))|].
  assert (E : (if bool_decide (unrouted_ids batch = []) then mret tt else queue (markDelivered (unrouted_ids batch) now)) s
    = (Ok tt, on_queue (markDelivered (unrouted_ids batch) now) s)).
  { case_bool_decide as Hb; [|done]. rewrite Hb. unfold mret, M_ret, on_queue, markDelivered. f_equal.
    destruct s as [rows w]. cbn. f_equal. symmetry. rewrite <- (list_fmap_id rows) at 2. apply list_fmap_ext.
    intros i x _. by rewrite bool_decide_false by apply not_elem_of_nil. }
  rewrite E in Hd. by eapply deliver_batch_run.
Qed.
End run.

(** ** What a pass does to the rows *)

(** A pending row of the batch is published, or deferred by the schedule; other rows stay. *)
Definition progress (now : Z) (ids : list string) (r r' : Row) : Prop :=
  rw_entry r' = rw_entry r /\
  if bool_decide (oe_id (rw_entry r) ∈ ids) && is_pending r then
    rw_status r' = st_published \/
    exists d, retryDelaysMs !! rw_attempts r = Some d /\ rw_attempts r' = S (rw_attempts r) /\
      rw_availableAt r' = Some (now + d)
  else r' = r.

Definition fits (batch : list DueOutboxEntry) (rows : list Row) : Prop :=
  forall d r, d ∈ batch -> r ∈ rows -> oe_id (rw_entry r) = oe_id (du_entry d) -> is_pending r = true ->
  rw_attempts r = du_attempts d.

Definition due_ids (batch : list DueOutboxEntry) : list string := (fun d => oe_id (du_entry d)) <$> batch.

Lemma progress_mark now ids rows : Forall2 (progress now ids) rows (markDelivered ids now rows).
Proof.
  unfold markDelivered. apply Forall2_fmap_r, Forall_Forall2_diag, Forall_forall. intros r _. unfold progress. cbn.
  destruct (_ && _); [|done]. split; [done|by left].
Qed.

Lemma progress_defer now id dl rows n :
  retryDelaysMs !! n = Some dl ->
  (forall r, r ∈ rows -> oe_id (rw_entry r) = id -> is_pending r = true -> rw_attempts r = n) ->
  Forall2 (progress now [id]) rows (defer id (S n) (now + dl) rows).
Proof.
  intros Hl Hf. unfold defer. apply Forall2_fmap_r, Forall_Forall2_diag, Forall_forall. intros r Hr. unfold progress. cbn.
  destruct (decide (oe_id (rw_entry r) = id)) as [Hid|Hid].
  - rewrite !bool_decide_true by set_solver. destruct (is_pending r) eqn:Hp; cbn; [|done]. split; [done|right].
    rewrite (Hf r Hr Hid Hp). by exists dl.
  - rewrite !bool_decide_false by set_solver. done.
Qed.

Lemma progress_refl now rows : Forall2 (progress now []) rows rows.
Proof.
  apply Forall_Forall2_diag, Forall_forall. intros r _. unfold progress.
  by rewrite bool_decide_false by apply not_elem_of_nil.
Qed.

(** Two lots with no id in common, one after the other. *)
Lemma progress_trans now ids1 ids2 rows rows1 rows2 :
  (forall id, id ∈ ids1 -> id ∉ ids2) ->
  Forall2 (progress now ids1) rows rows1 -> Forall2 (progress now ids2) rows1 rows2 ->
  Forall2 (progress now (ids1 ++ ids2)) rows rows2.
Proof.
  intros Hd H1. revert rows2. induction H1 as [|r r1 rows rows1 [He Hr] _ IH]; intros rows2 H2; inversion_clear H2 as [|? r2 ? rows2' Hp H2']; constructor; [|by apply IH].
  destruct Hp as [He2 Hr2]. split; [congruence|]. rewrite He in Hr2.
  destruct (decide (oe_id (rw_entry r) ∈ ids1)) as [Hin|Hout].
  - rewrite (bool_decide_false (_ ∈ ids2)) in Hr2 by (by apply Hd). cbn in Hr2. subst r2.
    rewrite (bool_decide_true (_ ∈ ids1)) in Hr by done. rewrite bool_decide_true by (apply elem_of_app; by left). done.
  - rewrite (bool_decide_false (_ ∈ ids1)) in Hr by done. cbn in Hr. subst r1.
    destruct (decide (oe_id (rw_entry r) ∈ ids2)) as [Hin2|Hout2].
    + rewrite bool_decide_true in Hr2 by done. rewrite bool_decide_true by (apply elem_of_app; by right). done.
    + rewrite bool_decide_false in Hr2 by done. rewrite bool_decide_false by (rewrite elem_of_app; tauto). done.
Qed.

Lemma try_all_rows e cs s : rl_rows (try_all e cs s).2 = rl_rows s.
Proof.
  revert s. induction cs as [|c cs IH]; intros s; cbn; [done|].
  destruct (in_world (dc_deliver c e) s) as [r s1] eqn:Hd. specialize (IH s1).
  destruct (try_all e cs s1) as [fs s2]. cbn in *. by destruct (grows_deliver _ _ _ _ _ Hd) as [_ <-].
Qed.

Context (deadLetter_total : forall c e n x w, exists w', dc_deadLetter c e n x w = (Ok tt, w')).

Lemma dead_letter_all_ok e n fs s : exists s', dead_letter_all e n fs s = (Ok tt, s') /\ rl_rows s' = rl_rows s.
Proof.
  revert s. induction fs as [|[c x] fs IH]; intros s; cbn; [by exists s|].
  destruct (deadLetter_total c e n x (rl_world s)) as [w Hw]. unfold mbind, M_bind, in_world. rewrite Hw.
  destruct (IH (mkRelay (rl_rows s) w)) as (s' & Hs & Hr). by exists s'.
Qed.

Lemma deliverRow_rows now d cs s :
  fits [d] (rl_rows s) ->
  exists o s', deliverRow now d cs s = (Ok o, s') /\ Forall2 (progress now [oe_id (du_entry d)]) (rl_rows s) (rl_rows s').
Proof.
  intros Hf. unfold deliverRow, mbind, M_bind. pose proof (try_all_rows (du_entry d) cs s) as Hr.
  destruct (try_all (du_entry d) cs s) as [fs s1]. cbn in Hr. rewrite Nat.sub_succ, Nat.sub_0_r. destruct fs as [|f fs].
  - eexists _, _. split; [reflexivity|]. cbn. rewrite Hr. apply progress_mark.
  - destruct (retryDelaysMs !! du_attempts d) as [dl|] eqn:Hl.
    + eexists _, _. split; [reflexivity|]. cbn. rewrite Hr. apply progress_defer; [done|].
      intros r Hin Hid Hp. apply (Hf d r); [left|done|done|done].
    + destruct (dead_letter_all_ok (du_entry d) (S (du_attempts d)) (f :: fs) s1) as (s2 & Hd & Hr2).
      rewrite Hd. eexists _, _. split; [reflexivity|]. cbn. rewrite Hr2, Hr. apply progress_mark.
Qed.

(** A row no longer touched keeps fitting its batch entry. *)
Lemma fits_progress now ids batch rows rows' :
  (forall d, d ∈ batch -> oe_id (du_entry d) ∉ ids) -> Forall2 (progress now ids) rows rows' ->
  fits batch rows -> fits batch rows'.
Proof.
  intros Hd Hp Hf d r' Hin Hr' Hid Hpend. apply list_elem_of_lookup in Hr' as [i Hi].
  destruct (Forall2_lookup_r _ _ _ _ _ Hp Hi) as (r & Hr & He & Hx).
  rewrite <- He, Hid, bool_decide_false in Hx by (by apply Hd). cbn in Hx. subst r'.
  by apply (Hf d r Hin); [eapply list_elem_of_lookup_2|..].
Qed.

Lemma deliver_batch_rows now batch report s :
  NoDup (due_ids batch) -> fits batch (rl_rows s) ->
  exists report' s', deliver_batch now batch report s = (Ok report', s') /\
    Forall2 (progress now (due_ids (filter (fun d => is_routed d = true) batch))) (rl_rows s) (rl_rows s').
Proof.
  revert report s. induction batch as [|d batch IH]; intros report s Hn Hf; cbn [deliver_batch].
  { exists report, s. split; [done|]. apply progress_refl. }
  apply NoDup_cons in Hn as [Hnot Hn].
  assert (Hfb : fits batch (rl_rows s)) by (intros d' r Hd'; apply Hf; by right).
  rewrite filter_cons. destruct (is_routed d) eqn:Hd.
  - rewrite decide_True by done. unfold mbind, M_bind.
    destruct (deliverRow_rows now d (consumersByTopic (oe_topic (du_entry d))) s) as (o & s1 & -> & H1).
    { intros d' r ->%list_elem_of_singleton. apply Hf. left. }
    assert (Hnotin : forall d', d' ∈ batch -> oe_id (du_entry d') ∉ [oe_id (du_entry d)]).
    { intros d' Hd' Hx%list_elem_of_singleton. apply Hnot. unfold due_ids. rewrite <- Hx.
      by apply (list_elem_of_fmap_2 (fun d => oe_id (du_entry d))). }
    destruct (IH (count_outcome o report) s1 Hn) as (report' & s' & Hb & H2); [by eapply fits_progress|].
    exists report', s'. split; [done|].
    apply (progress_trans now [oe_id (du_entry d)] _ _ (rl_rows s1)); [|done|done].
    intros id ->%list_elem_of_singleton (d' & Hx & [_ Hd']%list_elem_of_filter)%list_elem_of_fmap.
    apply Hnot. unfold due_ids. rewrite Hx. by apply (list_elem_of_fmap_2 (fun d => oe_id (du_entry d))).
  - rewrite decide_False by done. by apply IH.
Qed.

Lemma progress_ids now ids1 ids2 rows rows' :
  (forall id, id ∈ ids1 <-> id ∈ ids2) -> Forall2 (progress now ids1) rows rows' -> Forall2 (progress now ids2) rows rows'.
Proof.
  intros Hi H1. eapply Forall2_impl; [exact H1|]. intros r r' [He Hr]. split; [done|].
  by rewrite <- (bool_decide_ext _ _ (Hi _)).
Qed.

Lemma fits_mark batch ids now rows : fits batch rows -> fits batch (markDelivered ids now rows).
Proof.
  intros Hf d r Hd (r0 & -> & Hr)%list_elem_of_fmap. destruct (_ && is_pending r0); [done|]. by apply Hf.
Qed.

Lemma row_by_id rows r r' : NoDup (row_ids rows) -> r ∈ rows -> r' ∈ rows ->
  oe_id (rw_entry r) = oe_id (rw_entry r') -> r = r'.
Proof.
  induction rows as [|x rows IH]; cbn; [by intros _ ?%elem_of_nil|]. intros [Hx Hn]%NoDup_cons Hr Hr' Hid.
  apply elem_of_cons in Hr as [->|Hr], Hr' as [->|Hr']; [done| | |by apply IH].
  - destruct Hx. rewrite Hid. by apply (list_elem_of_fmap_2 (fun r => oe_id (rw_entry r))).
  - destruct Hx. rewrite <- Hid. by apply (list_elem_of_fmap_2 (fun r => oe_id (rw_entry r))).
Qed.

Lemma fetchDue_elem now rows d :
  d ∈ fetchDue batchSize now rows ->
  exists r, r ∈ rows /\ is_due now r = true /\ d = mkDue (rw_entry r) (rw_attempts r).
Proof.
  intros (r & -> & Hr)%list_elem_of_fmap. apply take_elem, list_elem_of_filter in Hr as [? ?]. by exists r.
Qed.

Lemma fetchDue_fits now rows : NoDup (row_ids rows) -> fits (fetchDue batchSize now rows) rows.
Proof.
  intros Hn d r (r0 & Hr0 & _ & ->)%fetchDue_elem Hr Hid _. cbn in *.
  by rewrite (row_by_id rows r r0 Hn Hr Hr0 Hid).
Qed.

Lemma fetchDue_ids now rows : NoDup (row_ids rows) -> NoDup (due_ids (fetchDue batchSize now rows)).
Proof.
  intros Hn. unfold due_ids, fetchDue. rewrite <- list_fmap_compose.
  eapply sublist_NoDup; [exact Hn|]. unfold row_ids.
  change ((fun d => oe_id (du_entry d)) ∘ (fun r => mkDue (rw_entry r) (rw_attempts r))) with (fun r => oe_id (rw_entry r)).
  apply fmap_sublist. etrans; [apply sublist_take|apply sublist_filter].
Qed.

Lemma drainOnce_rows now s :
  NoDup (row_ids (rl_rows s)) ->
  exists report s', drainOnce now s = (Ok report, s') /\
    Forall2 (progress now (due_ids (fetchDue batchSize now (rl_rows s)))) (rl_rows s) (rl_rows s').
Proof.
  intros Hn. unfold drainOnce, gets, mbind, M_bind.
  pose proof (fetchDue_ids now (rl_rows s) Hn) as Hids. pose proof (fetchDue_fits now (rl_rows s) Hn) as Hfits.
  set (batch := fetchDue batchSize now (rl_rows s)) in *.
  assert (H1 : exists s1, (if bool_decide (unrouted_ids batch = []) then mret tt else queue (markDelivered (unrouted_ids batch) now)) s
    = (Ok tt, s1) /\ Forall2 (progress now (unrouted_ids batch)) (rl_rows s) (rl_rows s1) /\ fits batch (rl_rows s1)).
  { case_bool_decide as Hb.
    - rewrite Hb. exists s. split_and!; [done|apply progress_refl|done].
    - eexists. split_and!; [reflexivity|apply progress_mark|by apply fits_mark]. }
  destruct H1 as (s1 & -> & Hp1 & Hf1).
  destruct (deliver_batch_rows now batch (mkReport 0 (length (unrouted_ids batch)) 0 0) s1 Hids Hf1) as (report & s' & Hb & Hp2).
  exists report, s'. split; [done|].
  assert (Hsplit : forall id, id ∈ unrouted_ids batch -> id ∉ due_ids (filter (fun d => is_routed d = true) batch)).
  { intros id (d & -> & [Hd Hin]%list_elem_of_filter)%list_elem_of_fmap (d' & Hx & [Hd' Hin']%list_elem_of_filter)%list_elem_of_fmap.
    assert (d = d') as ->; [|congruence]. apply list_elem_of_lookup in Hin as [i Hi], Hin' as [j Hj].
    assert (i = j) as ->; [|congruence]. apply (NoDup_lookup (due_ids batch) i j (oe_id (du_entry d))); [done| |].
    - unfold due_ids. by rewrite list_lookup_fmap, Hi.
    - unfold due_ids. rewrite list_lookup_fmap, Hj. cbn. by rewrite Hx. }
  eapply progress_ids; [|exact (progress_trans _ _ _ _ _ _ Hsplit Hp1 Hp2)].
  intros id. unfold unrouted_ids, due_ids. rewrite elem_of_app, !list_elem_of_fmap. split.
  - intros [(d & -> & [_ Hd]%list_elem_of_filter)|(d & -> & [_ Hd]%list_elem_of_filter)]; by exists d.
  - intros (d & -> & Hd). destruct (is_routed d) eqn:Hr; [right|left]; exists d; by rewrite list_elem_of_filter.
Qed.

(** ** Passes until everything is settled *)

Definition pass (now : Z) : RelayM unit := drainOnce now;; mret tt.

(** After [k] rounds: what is still pending failed at least [k] times, is within the schedule (unless
    nothing was tried yet) and is due at [t]. *)
Definition waiting (k : nat) (t : Z) (rows : list Row) : Prop :=
  Forall (fun r => is_pending r = true ->
    (k <= rw_attempts r)%nat /\ (k = 0%nat \/ (rw_attempts r <= length retryDelaysMs)%nat) /\
    match rw_availableAt r with Some a => a <= t | None => True end) rows.

Lemma progress_entries now ids rows rows' : Forall2 (progress now ids) rows rows' -> rw_entry <$> rows' = rw_entry <$> rows.
Proof. induction 1 as [|r r' rows rows' [He _] _ IH]; cbn; [done|]. by rewrite He, IH. Qed.

Lemma pass_waiting k t maxDelay s :
  rows_ok s -> (length (rl_rows s) <= batchSize)%nat -> (forall d, d ∈ retryDelaysMs -> d <= maxDelay) ->
  waiting k t (rl_rows s) ->
  exists s', pass t s = (Ok tt, s') /\ entries s' = entries s /\ waiting (S k) (t + maxDelay) (rl_rows s').
Proof.
  intros [Hn _] Hlen Hmax Hw. destruct (drainOnce_rows t s Hn) as (report & s' & Hd & Hp).
  exists s'. unfold pass, mbind, M_bind. rewrite Hd. split_and!; [done|by eapply progress_entries|].
  apply Forall_lookup. intros i r' Hi' Hpend. destruct (Forall2_lookup_r _ _ _ _ _ Hp Hi') as (r & Hi & He & Hr).
  unfold waiting in Hw. rewrite Forall_forall in Hw. apply list_elem_of_lookup_2 in Hi. specialize (Hw r Hi).
  destruct (is_pending r) eqn:Hpr.
  - destruct (Hw eq_refl) as (Hk & _ & Ha).
    assert (Hin : oe_id (rw_entry r) ∈ due_ids (fetchDue batchSize t (rl_rows s))).
    { unfold due_ids, fetchDue. rewrite <- list_fmap_compose.
      apply (list_elem_of_fmap_2 (fun r => oe_id (rw_entry r))).
      rewrite take_ge by (etrans; [apply length_filter|done]). apply list_elem_of_filter. split; [|done].
      unfold is_due. rewrite Hpr. destruct (rw_availableAt r) as [a|]; [|done]. by rewrite bool_decide_true. }
    rewrite bool_decide_true in Hr by done. destruct Hr as [Hpub|(d & Hl & Hatt & Hav)].
    + unfold is_pending in Hpend. by rewrite Hpub in Hpend.
    + rewrite Hatt, Hav. split_and!; [lia| |].
      * right. by apply lookup_lt_Some in Hl.
      * apply list_elem_of_lookup_2, Hmax in Hl. lia.
  - rewrite andb_false_r in Hr. subst r'. congruence.
Qed.

Lemma passes_waiting n k t maxDelay s :
  rows_ok s -> (length (rl_rows s) <= batchSize)%nat -> (forall d, d ∈ retryDelaysMs -> d <= maxDelay) ->
  waiting k t (rl_rows s) ->
  exists s', run_ops pass ((fun i => t + Z.of_nat i * maxDelay) <$> seq 0 n) s = (Ok tt, s') /\
    entries s' = entries s /\ waiting (n + k) (t + Z.of_nat n * maxDelay) (rl_rows s').
Proof.
  intros Hok Hlen Hmax. revert k t s Hok Hlen. induction n as [|n IH]; intros k t s Hok Hlen Hw.
  { exists s. split_and!; [done|done|]. replace (t + Z.of_nat 0 * maxDelay) with t by lia. done. }
  destruct (pass_waiting k t maxDelay s Hok Hlen Hmax Hw) as (s1 & Hp & He & Hw1).
  destruct (IH (S k) (t + maxDelay) s1) as (s' & Hr & He' & Hw'); [by apply (rows_ok_entries s)| |done|].
  { apply (f_equal length) in He. unfold entries in He. rewrite !length_fmap in He. lia. }
  exists s'. split_and!; [|congruence|].
  - cbn [seq fmap list_fmap run_ops]. unfold mbind, M_bind. replace (t + Z.of_nat 0 * maxDelay) with t by lia.
    rewrite Hp. rewrite <- Hr. f_equal. rewrite <- fmap_S_seq, <- list_fmap_compose. apply list_fmap_ext. intros i x _. cbn. lia.
  - replace (S n + k)%nat with (n + S k)%nat by lia.
    replace (t + Z.of_nat (S n) * maxDelay) with (t + maxDelay + Z.of_nat n * maxDelay) by lia. done.
Qed.

Lemma passes_run times s s' ws n :
  ws !! n = None -> run_ops pass times s = (Ok tt, s') -> rtc rstep (mkRelays s ws) (mkRelays s' ws).
Proof.
  intros Hn. revert s. induction times as [|t times IH]; intros s; cbn; [by intros [= <-]|].
  unfold mbind, M_bind. destruct (pass t s) as [[u|x] s1] eqn:Hp; [|by intros [=]]. intros Hr.
  assert (exists r, drainOnce t s = (r, s1)) as [r Hd].
  { unfold pass, mbind, M_bind in Hp. destruct (drainOnce t s) as [[?|?] s2]; injection Hp as _ <-; by eexists. }
  etrans; [by eapply drainOnce_run|]. by apply IH.
Qed.

Lemma rtc_ok r r' : rtc rstep r r' -> relays_ok r -> relays_ok r'.
Proof. induction 1; eauto using rstep_ok. Qed.

(** ** Properties *)

(** C35: the relay drops nothing. Whatever relays run, interleave and crash, and whatever producers append,
    a row marked published has been settled by every consumer subscribed to its topic: each has
    effected the message, or has a dead-letter record of it. *)
Theorem relay_drops_nothing w r row c :
  rtc rstep (empty_relays w) r -> row ∈ rl_rows (rs_state r) -> rw_status row = st_published ->
  c ∈ consumers -> topic c = oe_topic (rw_entry row) ->
  effected c (oe_id (rw_entry row)) (rl_world (rs_state r)) \/
  recorded c (oe_id (rw_entry row)) (rl_world (rs_state r)).
Proof.
  intros Hr Hrow Hs Hc Ht. destruct (rtc_ok _ _ Hr (empty_relays_ok w)) as [_ Hp _].
  apply (Hp row Hrow Hs c). by apply list_elem_of_filter.
Qed.

(** C36: the relay settles everything it has room for. From any state the relays reach: when dead letters
    can be written, every row there is fits into one batch, no row is due later than the first pass, and one
    relay runs by itself, with no producer appending and no other relay claiming meanwhile, passes that are
    a longest delay apart, then one pass more than the schedule has delays leaves every row published, hence
    settled by every subscriber, however its consumers fail. *)
Theorem relay_settles_everything w r t maxDelay :
  rtc rstep (empty_relays w) r -> (length (rl_rows (rs_state r)) <= batchSize)%nat ->
  (forall d, d ∈ retryDelaysMs -> d <= maxDelay) ->
  (forall row a, row ∈ rl_rows (rs_state r) -> rw_availableAt row = Some a -> a <= t) ->
  exists s', run_ops pass ((fun i => t + Z.of_nat i * maxDelay) <$> seq 0 (S (length retryDelaysMs))) (rs_state r) = (Ok tt, s') /\
    entries s' = entries (rs_state r) /\
    forall row, row ∈ rl_rows s' -> rw_status row = st_published /\
      forall c, c ∈ consumers -> topic c = oe_topic (rw_entry row) ->
        effected c (oe_id (rw_entry row)) (rl_world s') \/ recorded c (oe_id (rw_entry row)) (rl_world s').
Proof.
  intros Hr Hlen Hmax Hav. destruct (rtc_ok _ _ Hr (empty_relays_ok w)) as [Hok Hp _].
  destruct (passes_waiting (S (length retryDelaysMs)) 0 t maxDelay (rs_state r) Hok Hlen Hmax) as (s' & Hs & He & Hw).
  { apply Forall_forall. intros row Hrow _. split_and!; [lia|by left|].
    destruct (rw_availableAt row) eqn:Ha; [by eapply Hav|done]. }
  exists s'. split_and!; [done|done|]. intros row Hrow.
  assert (Hpub : rw_status row = st_published).
  { unfold waiting in Hw. rewrite Forall_forall in Hw. specialize (Hw row Hrow). unfold is_pending in Hw.
    destruct (rw_status row); [|done]. destruct (Hw eq_refl) as (H1 & [H2|H2] & _); lia. }
  split; [done|]. intros c Hc Ht.
  assert (Hok0 : relays_ok (mkRelays (rs_state r) ∅)) by (split; [done|done|by intros n p ?]).
  destruct (rtc_ok _ _ (passes_run _ _ _ ∅ 0%nat (lookup_empty _) Hs) Hok0) as [_ Hp' _].
  apply (Hp' row Hrow Hpub c). by apply list_elem_of_filter.
Qed.
End relay.

(** ** The consumer runtime is such a consumer *)

Section runtime.
Context {P D : Type} (deserialize : list Ascii.ascii -> result (IntegrationEvent P)).

Record RuntimeConsumer := mkRuntime { rc_handler : EventHandler P D; rc_group : string; rc_unitOfWork : bool }.

(** The groups' states, by consumer group. *)
Abbreviation Group := (GroupState (D := D)).
Definition Groups := string -> Group.

Definition message_of_entry (e : OutboxEntry) : Message := mkMessage (oe_key e) (oe_payload e) (oe_headers e) None.

Definition in_group {A} (g : string) (m : M Group A) : M Groups A := fun w =>
  let '(r, s) := m (w g) in (r, fun g' => if bool_decide (g' = g) then s else w g').

Lemma in_group_keeps {A} (Q : Group -> Prop) g (m : M Group A) w r w' g' :
  (forall s r s', m s = (r, s') -> Q s -> Q s') -> in_group g m w = (r, w') -> Q (w g') -> Q (w' g').
Proof.
  intros Hm. unfold in_group. destruct (m (w g)) as [x s] eqn:Hs. intros [= <- <-] Hq.
  case_bool_decide as Hg; [|done]. subst. by eapply Hm.
Qed.

Lemma in_group_Ok {A} g (m : M Group A) w a w' : in_group g m w = (Ok a, w') -> m (w g) = (Ok a, w' g).
Proof.
  unfold in_group. destruct (m (w g)) as [x s]. intros [= -> <-]. by rewrite bool_decide_true.
Qed.

Lemma deliver_keeps_processed (h : EventHandler P D) uow m (s : Group) r s' id :
  deliver deserialize h uow m s = (r, s') ->
  (id ∈ gs_processed s -> id ∈ gs_processed s') /\ gs_dead s' = gs_dead s.
Proof.
  unfold deliver, decode, lift, mbind, M_bind. destruct (deserialize (mg_value m)) as [ev|e]; [|by intros [= <- <-]].
  unfold has, gets. destruct (bool_decide _); [by intros [= <- <-]|]. intros He. split.
  - by eapply effect_processed.
  - by apply effect_frame in He as (_ & -> & _).
Qed.

(** An entry as the outbox writer makes it: its id is the id of the event its payload encodes. *)
Definition written_by_outbox (e : OutboxEntry) : Prop :=
  forall ev, deserialize (oe_payload e) = Ok ev -> ev_messageId ev = oe_id e.

#[export, refine] Instance KafkaConsumerRuntime : DirectConsumer RuntimeConsumer Groups := {
  topic c := eh_topic (rc_handler c);
  dc_deliver c e := in_group (rc_group c) (deliver deserialize (rc_handler c) (rc_unitOfWork c) (message_of_entry e));
  dc_deadLetter c e n x := in_group (rc_group c) (deadLetter (rc_handler c) (rc_group c) (message_of_entry e) (oe_id e) n x);
  entry_ok := written_by_outbox;
  effected c id w := id ∈ gs_processed (w (rc_group c));
  recorded c id w := exists l, l ∈ gs_dead (w (rc_group c)) /\ dl_messageId l = id
}.
Proof.
  - intros c e w w' Hok Hd%in_group_Ok. revert Hd. unfold deliver, decode, lift, mbind, M_bind. cbn.
    destruct (deserialize (oe_payload e)) as [ev|x] eqn:Hev; [|done]. unfold has, gets.
    rewrite <- (Hok ev Hev). destruct (bool_decide _) eqn:Hk.
    + intros [= <-]. by apply bool_decide_eq_true in Hk.
    + intros (_ & _ & Hp)%effect_frame. by apply Hp.
  - intros c e n x w w' Hd%in_group_Ok. injection Hd as <-. cbn.
    eexists. rewrite elem_of_app, list_elem_of_singleton. split; [by right|done].
  - intros c e w r w' c' id Hd. split.
    + eapply (in_group_keeps (fun s => id ∈ gs_processed s)); [|exact Hd].
      intros s0 r0 s1 Hs. by apply (deliver_keeps_processed _ _ _ _ _ _ id Hs).
    + eapply (in_group_keeps (fun s => exists l, l ∈ gs_dead s /\ dl_messageId l = id)); [|exact Hd].
      intros s0 r0 s1 Hs. by rewrite (proj2 (deliver_keeps_processed _ _ _ _ _ _ id Hs)).
  - intros c e n x w r w' c' id Hd. split.
    + eapply (in_group_keeps (fun s => id ∈ gs_processed s)); [|exact Hd]. intros s0 r0 s1 Hs. by injection Hs as _ <-.
    + eapply (in_group_keeps (fun s => exists l, l ∈ gs_dead s /\ dl_messageId l = id)); [|exact Hd].
      intros s0 r0 s1 Hs. injection Hs as _ <-. intros (l & Hl & Hid). exists l. split; [|done].
      cbn. apply elem_of_app. by left.
Defined.
End runtime.

(** ** Witnesses

    Two groups subscribe to paid orders: one adds up the payloads and refuses negative ones, the other
    accepts everything. Message "a8" is accepted by both, "b1" fails at the first group every time. *)
Definition lenient : EventHandler Z Z :=
  mkHandler _ _ "orders.order.paid.v1" (fun ev => modify (fun d => d + 1)) None.
Definition sample_consumers : list (RuntimeConsumer (P := Z) (D := Z)) :=
  [mkRuntime sample_handler "g1" true; mkRuntime lenient "g2" false].
Definition sample_row (bytes : string) : Row :=
  mkRow (mkEntry (String.substring 0 1 bytes) "orders.order.paid.v1" "o1" (String.list_ascii_of_string bytes) [])
    st_pending 0 None None.
Definition start_groups : Groups (D := Z) := fun _ => mkGroup 0 ∅ [] [].
Definition sample_state : RelayState := mkRelay [sample_row "a8"; sample_row "b1"] start_groups.

Abbreviation sample_dc := (KafkaConsumerRuntime (P := Z) (D := Z) sample_deserialize).
Definition sample_relays : Relays (C := RuntimeConsumer (P := Z) (D := Z)) := mkRelays sample_state ∅.
Definition sample_pass (now : Z) : M RelayState unit := pass (H := sample_dc) sample_consumers [5; 30] 100 now.

Lemma sample_reached : rtc (rstep (H := sample_dc) sample_consumers [5; 30] 100) (empty_relays start_groups) sample_relays.
Proof.
  apply rtc_once, (rs_append (H := sample_dc) _ _ _ (mkRelay [] start_groups)).
  - repeat constructor; intros ev [= <-]; reflexivity.
  - repeat (apply NoDup_cons; split; [set_solver|]). constructor.
Qed.

Lemma sample_passes times ws s s' :
  ws !! 0%nat = None -> run_ops sample_pass times s = (Ok tt, s') ->
  rtc (rstep (H := sample_dc) sample_consumers [5; 30] 100) (mkRelays s ws) (mkRelays s' ws).
Proof. intros Hw Hr. by eapply passes_run. Qed.

Definition after_one_pass : RelayState := (run_ops sample_pass [0] sample_state).2.

Lemma relay_drops_nothing_witness :
  (rw_status <$> rl_rows after_one_pass) = [st_published; st_pending] /\
  forall row, row ∈ take 1 (rl_rows after_one_pass) ->
    (oe_id (rw_entry row) ∈ gs_processed (rl_world after_one_pass "g2")) \/
    exists l, l ∈ gs_dead (rl_world after_one_pass "g2") /\ dl_messageId l = oe_id (rw_entry row).
Proof.
  split; [by vm_compute|]. intros row Hrow.
  apply (relay_drops_nothing (H := sample_dc) sample_consumers [5; 30] 100 start_groups (mkRelays after_one_pass ∅) row
    (mkRuntime lenient "g2" false)).
  - etrans; [apply sample_reached|]. apply (sample_passes [0]); [done|]. by vm_compute.
  - by apply take_elem in Hrow.
  - vm_compute in Hrow. by apply list_elem_of_singleton in Hrow as ->.
  - right. left.
  - vm_compute in Hrow. by apply list_elem_of_singleton in Hrow as ->.
Defined.

Lemma relay_settles_everything_witness :
  (rw_status <$> rl_rows (run_ops sample_pass [0; 30; 60] sample_state).2) = [st_published; st_published] /\
  exists s', run_ops sample_pass [0; 30; 60] sample_state = (Ok tt, s') /\
    forall row, row ∈ rl_rows s' -> rw_status row = st_published.
Proof.
  split; [by vm_compute|].
  destruct (relay_settles_everything (H := sample_dc) sample_consumers [5; 30] 100) with (w := start_groups)
    (r := sample_relays) (t := 0) (maxDelay := 30) as (s' & Hs & _ & Hall).
  - intros c e n x w. by eexists.
  - apply sample_reached.
  - vm_compute. lia.
  - intros d Hd. set_solver by lia.
  - intros row a Hrow Ha. cbn in Hrow. set_solver.
  - exists s'. split; [exact Hs|]. intros row Hrow. by apply Hall.
Defined.
