(* ===== verification/Saga.v ===== *)
(** The purchase saga: [packages/temporal/src/saga/purchase-saga.ts] and the signals and retry policies of
    its workflow ([workflows/purchase.workflow.ts]). The activities are an interface: each call, with
    whether it succeeded, goes to a history, and what an activity answers may depend on all of it. *)
From S2P Require Import Prelude.

#[global] Open Scope Z_scope.

(** ** Data *)

Record PurchaseSagaInput := mkInput { tenantId : string; checkoutSessionId : string; cartRef : string; customerRef : string }.
Record QuoteLine := mkQuoteLine { ql_productRef : string; ql_name : string; ql_unitPriceAmountMinor : Z; ql_quantity : Z }.
Record QuoteResult := mkQuote { q_currency : string; q_totalAmountMinor : Z; q_lines : list QuoteLine }.

Inductive PurchaseOutcome := completed (orderRef : string) | failed (reason : string).

(** One activity call. *)
Inductive Call :=
| c_priceQuote
| c_reserveStock (quote : QuoteResult)
| c_createPaymentIntent (quote : QuoteResult)
| c_placeOrder (quote : QuoteResult) (paymentIntentRef : string)
| c_commitReservation (reservationRef orderRef : string)
| c_releaseReservation (reservationRef : string)
| c_cancelPaymentIntent (paymentIntentRef : string)
| c_refundPayment (paymentIntentRef : string)
| c_completeCheckout (orderRef : string)
| c_failCheckout (reason : string)
| c_sendConfirmation (orderRef : string)
| c_alertOperator (detail : string).

Definition History := list (Call * bool).

(** [CaptureWait]'s answers, and the signals it is decided by. *)
Inductive Capture := captured | capture_failed | timeout.
Inductive Signal := paymentCaptured | paymentFailed | manualResolve (resolution : bool).

(** [captureOutcome ??= ...]: the first signal received before the timeout. *)
Definition capture_of_signal (s : Signal) : Capture :=
  match s with
  | paymentCaptured | manualResolve true => captured
  | paymentFailed | manualResolve false => capture_failed
  end.
Definition captureOutcome (signals : list Signal) : option Capture :=
  foldl (fun acc s => match acc with Some c => Some c | None => Some (capture_of_signal s) end) None signals.
Definition awaitCapture (signals : list Signal) : Capture := default timeout (captureOutcome signals).

(** What each activity answers, its retries exhausted when it fails. *)
Class PurchaseSagaActivities := {
  priceQuote : History -> result QuoteResult;
  reserveStock : History -> QuoteResult -> result string;
  createPaymentIntent : History -> QuoteResult -> result string;
  placeOrder : History -> QuoteResult -> string -> result string;
  (** the activities without a result, by their call *)
  perform : History -> Call -> result unit
}.

(** ** The saga *)

Section saga.
Context `{PurchaseSagaActivities} (signals : list Signal).
Abbreviation SagaM := (M History).

Definition call {A} (c : Call) (answer : History -> result A) : SagaM A := fun h =>
  let r := answer h in (r, h ++ [(c, isOk r)]).
Definition do_ (c : Call) : SagaM unit := call c (fun h => perform h c).

(** [let x; try { x = await m } catch { ...; return } ...] *)
Definition or_return {A B} (m : SagaM A) (handler : SagaM B) (k : A -> SagaM B) : SagaM B := fun h =>
  match m h with
  | (Ok a, h') => k a h'
  | (Err _, h') => handler h'
  end.

Definition runPurchaseSaga : SagaM PurchaseOutcome :=
  or_return (call c_priceQuote priceQuote)
    (do_ (c_failCheckout "pricing_unavailable");; mret (failed "pricing_unavailable")) (fun quote =>
  or_return (call (c_reserveStock quote) (fun h => reserveStock h quote))
    (do_ (c_failCheckout "inventory_unavailable");; mret (failed "inventory_unavailable")) (fun reservationRef =>
  or_return (call (c_createPaymentIntent quote) (fun h => createPaymentIntent h quote))
    (do_ (c_releaseReservation reservationRef);;
     do_ (c_failCheckout "payment_provider_unavailable");;
     mret (failed "payment_provider_unavailable")) (fun paymentIntentRef =>
  match awaitCapture signals with
  | captured =>
      or_return (call (c_placeOrder quote paymentIntentRef) (fun h => placeOrder h quote paymentIntentRef))
        (do_ (c_refundPayment paymentIntentRef);;
         do_ (c_releaseReservation reservationRef);;
         do_ (c_failCheckout "order_placement_failed");;
         do_ (c_alertOperator "captured payment refunded: order placement failed");;
         mret (failed "order_placement_failed")) (fun orderRef =>
      do_ (c_commitReservation reservationRef orderRef);;
      do_ (c_completeCheckout orderRef);;
      do_ (c_sendConfirmation orderRef);;
      mret (completed orderRef))
  | not_captured =>
      let reason := match not_captured with capture_failed => "payment_failed" | _ => "payment_timeout" end in
      do_ (c_cancelPaymentIntent paymentIntentRef);;
      do_ (c_releaseReservation reservationRef);;
      do_ (c_failCheckout reason);;
      mret (failed reason)
  end))).

(** ** What a run leaves behind *)

Definition succeeded (p : Call -> bool) (h : History) : nat := length (List.filter (fun e => p e.1 && e.2) h).

Definition is_reserve c := match c with c_reserveStock _ => true | _ => false end.
Definition is_release c := match c with c_releaseReservation _ => true | _ => false end.
Definition is_commit c := match c with c_commitReservation _ _ => true | _ => false end.
Definition is_intent c := match c with c_createPaymentIntent _ => true | _ => false end.
Definition is_cancel c := match c with c_cancelPaymentIntent _ => true | _ => false end.
Definition is_refund c := match c with c_refundPayment _ => true | _ => false end.
Definition is_order c := match c with c_placeOrder _ _ => true | _ => false end.
Definition is_complete c := match c with c_completeCheckout _ => true | _ => false end.
Definition is_fail c := match c with c_failCheckout _ => true | _ => false end.
Definition is_alert c := match c with c_alertOperator _ => true | _ => false end.
Definition is_forward c := match c with
  | c_priceQuote | c_reserveStock _ | c_createPaymentIntent _ | c_placeOrder _ _ => true | _ => false end.

(** The history balances: the reservation is committed or released, the captured payment bought the order
    or was refunded, the uncaptured intent was cancelled, and the checkout completed or failed. *)
Definition balanced (h : History) : Prop :=
  (succeeded is_reserve h = succeeded is_release h + succeeded is_commit h)%nat /\
  (succeeded is_intent h = succeeded is_cancel h + succeeded is_refund h + succeeded is_order h)%nat /\
  (succeeded is_refund h = succeeded is_alert h)%nat /\
  (succeeded is_complete h + succeeded is_fail h = 1)%nat /\
  (succeeded is_commit h = succeeded is_order h)%nat /\ (succeeded is_complete h = succeeded is_order h)%nat.

(** What holds of any run, however it ends. *)
Definition sound (h : History) : Prop :=
  (succeeded is_order h <= 1)%nat /\
  (succeeded is_order h + succeeded is_refund h + succeeded is_cancel h <= succeeded is_intent h)%nat /\
  (succeeded is_release h + succeeded is_commit h <= succeeded is_reserve h <= 1)%nat /\
  (succeeded is_complete h + succeeded is_fail h <= 1)%nat /\
  ((0 < succeeded is_order h + succeeded is_refund h)%nat -> awaitCapture signals = captured) /\
  ((0 < succeeded is_cancel h)%nat -> awaitCapture signals <> captured).

(** The call at which a run stopped. *)
Definition stopped_at (c : Call) (h : History) : Prop := last h = Some (c, false) /\ is_forward c = false.

Definition run_ok (r : result PurchaseOutcome) (h : History) : Prop :=
  sound h /\
  match r with
  | Ok (completed o) => balanced h /\ succeeded is_order h = 1%nat
  | Ok (failed reason) => balanced h /\ succeeded is_order h = 0%nat /\ last (List.filter (fun e => is_fail e.1) h) = Some (c_failCheckout reason, true)
  | Err _ => exists c, stopped_at c h
  end.

Lemma or_return_inv {A B} c (f : History -> result A) hd (k : A -> SagaM B) h r h' :
  or_return (call c f) hd k h = (r, h') ->
  (exists a, k a (h ++ [(c, true)]) = (r, h')) \/ hd (h ++ [(c, false)]) = (r, h').
Proof. unfold or_return, call. destruct (f h) as [a|e]; cbn; [left; by exists a|by right]. Qed.

Lemma do_inv {B} c (k : SagaM B) h r h' :
  (do_ c;; k) h = (r, h') -> k (h ++ [(c, true)]) = (r, h') \/ exists e, r = Err e /\ h' = h ++ [(c, false)].
Proof.
  unfold do_, call, mbind, M_bind. destruct (perform h c) as [[]|e]; cbn; [by left|]. intros [= <- <-]. right. by exists e.
Qed.

Ltac saga_inv H :=
  repeat match type of H with
  | or_return _ _ _ _ = _ => apply or_return_inv in H as [[? H]|H]
  | (do_ _ ;; _) _ = _ => apply do_inv in H as [H|(? & -> & ->)]
  | mret _ _ = _ => injection H as <- <-
  end.

Lemma runPurchaseSaga_ok r h : runPurchaseSaga [] = (r, h) -> run_ok r h.
Proof.
  unfold runPurchaseSaga. intros Hr. destruct (awaitCapture signals) eqn:Hc; saga_inv Hr;
    unfold run_ok, sound, balanced, succeeded, stopped_at; cbn; rewrite ?Hc;
    split_and?; try (eexists; split; done); (lia || done || (intros; done) || (intros; lia)).
Qed.

(** ** Properties *)

(** C33: the purchase saga is money safe and balanced. However its activities answer, it places at most one
    order and only after capture, refunds only a captured payment that bought nothing, and never both
    releases and commits a reservation. When it returns, the books balance: the stock is committed or
    released, the payment bought the order, was refunded with an alert, or its intent was cancelled, and
    the checkout is completed or failed, with the reason returned. It throws only when a compensation
    or the tail after the order failed for good, and stops at that call. *)
Theorem saga_is_money_safe r h :
  runPurchaseSaga [] = (r, h) ->
  sound h /\
  match r with
  | Ok (completed _) => balanced h /\ succeeded is_order h = 1%nat
  | Ok (failed reason) =>
      balanced h /\ succeeded is_order h = 0%nat /\
      last (List.filter (fun e => is_fail e.1) h) = Some (c_failCheckout reason, true)
  | Err _ => exists c, last h = Some (c, false) /\ is_forward c = false
  end.
Proof. apply runPurchaseSaga_ok. Qed.

(** A cancellation that fails strands the stock. If the payment was not captured and cancelling its
    intent keeps failing, the saga throws with the reservation held, not released, and the checkout
    neither completed nor failed. *)
Theorem failed_cancel_strands_reservation r h :
  runPurchaseSaga [] = (r, h) -> awaitCapture signals <> captured ->
  (forall h p, isOk (perform h (c_cancelPaymentIntent p)) = false) -> succeeded is_intent h = 1%nat ->
  (exists e, r = Err e) /\ succeeded is_reserve h = 1%nat /\ succeeded is_release h = 0%nat /\
  succeeded is_fail h = 0%nat /\ succeeded is_complete h = 0%nat.
Proof.
  unfold runPurchaseSaga. intros Hr Hc Hcancel.
  assert (Hno : forall (k : SagaM PurchaseOutcome) p g, (do_ (c_cancelPaymentIntent p);; k) g = (r, h) ->
    exists e, r = Err e /\ h = g ++ [(c_cancelPaymentIntent p, false)]).
  { intros k p g. specialize (Hcancel g p). unfold do_, call, mbind, M_bind.
    destruct (perform g _) as [[]|e]; [done|]. intros [= <- <-]. by exists e. }
  destruct (awaitCapture signals); [done| |];
    repeat (apply or_return_inv in Hr as [[? Hr]|Hr]); first [apply Hno in Hr as (e & -> & ->)|saga_inv Hr];
    unfold succeeded; cbn; try discriminate; intros _; split_and!; eauto.
Qed.
End saga.

(** ** Witnesses *)

Definition sample_quote : QuoteResult := mkQuote "AED" 4999 [mkQuoteLine "p1" "Shirt" 4999 1].
(** Everything succeeds but the calls [broken] names. *)
Definition sample_activities (broken : Call -> bool) : PurchaseSagaActivities := {|
  priceQuote h := Ok sample_quote;
  reserveStock h q := Ok "r1";
  createPaymentIntent h q := Ok "pi1";
  placeOrder h q p := if broken (c_placeOrder q p) then Err (UnexpectedError "orders down") else Ok "o1";
  perform h c := if broken c then Err (UnexpectedError "provider down") else Ok tt |}.

Lemma saga_is_money_safe_witness :
  let run := runPurchaseSaga (H := sample_activities is_order) [paymentCaptured] [] in
  run.1 = Ok (failed "order_placement_failed") /\ balanced run.2 /\ succeeded is_refund run.2 = 1%nat.
Proof.
  split; [by vm_compute|]. split; [|by vm_compute].
  apply (saga_is_money_safe (H := sample_activities is_order) [paymentCaptured] (Ok (failed "order_placement_failed"))).
  by vm_compute.
Defined.

Lemma failed_cancel_strands_reservation_witness :
  let run := runPurchaseSaga (H := sample_activities is_cancel) [] [] in
  run.1 = Err (UnexpectedError "provider down") /\ succeeded is_release run.2 = 0%nat.
Proof.
  split; [by vm_compute|].
  apply (failed_cancel_strands_reservation (H := sample_activities is_cancel) [] (Err (UnexpectedError "provider down")));
    done || by vm_compute.
Defined.
