(* ===== verification/Ledger.v ===== *)
(** The ledger of the Finance context: [services/finance/src/domain]. Double-entry journals and what
    posting and reversing them does, the posting templates, account balances and the trial balance, the
    financial statements, and the journal that opens a period from the closing balances of the last. *)
From S2P Require Import Prelude Kernel.
Import Money.

(** ** Values ([value-objects]) *)

Inductive LedgerDirection := debit | credit.
#[export] Instance LedgerDirection_eq_dec : EqDecision LedgerDirection.
Proof. solve_decision. Defined.

Definition isDebit (d : LedgerDirection) : bool := match d with debit => true | credit => false end.
Definition opposite (d : LedgerDirection) : LedgerDirection := match d with debit => credit | credit => debit end.

Inductive AccountTypeValue := asset | liability | equity | revenue | expense.
#[export] Instance AccountTypeValue_eq_dec : EqDecision AccountTypeValue.
Proof. solve_decision. Defined.

Definition normalSide (t : AccountTypeValue) : LedgerDirection :=
  match t with asset | expense => debit | _ => credit end.

(** Signed money. *)
Record Balance := mkBalance { bl_amountMinor : Z; bl_currency : string }.
#[export] Instance Balance_eq_dec : EqDecision Balance.
Proof. solve_decision. Defined.

Definition Balance_zero (currency : string) : Balance := mkBalance 0 currency.
Definition Balance_of (amountMinor : jsnum) (currency : string) : result Balance :=
  match amountMinor with
  | NInt z => Ok (mkBalance z currency)
  | NOther => Err (BusinessRuleError "Balance amountMinor must be an integer (minor units)")
  end.
Definition Balance_sameCurrency (b other : Balance) : result unit :=
  if bool_decide (bl_currency other = bl_currency b) then Ok tt
  else Err (BusinessRuleError "Cannot operate on balances of different currencies").
Definition Balance_plus (b other : Balance) : result Balance :=
  _ ← Balance_sameCurrency b other;
  Ok (mkBalance (bl_amountMinor b + bl_amountMinor other) (bl_currency b)).
Definition Balance_minus (b other : Balance) : result Balance :=
  _ ← Balance_sameCurrency b other;
  Ok (mkBalance (bl_amountMinor b - bl_amountMinor other) (bl_currency b)).

Record JournalLine := mkLine {
  ln_accountRef : string; ln_direction : LedgerDirection; ln_amount : Money; ln_memo : option string }.
#[export] Instance JournalLine_eq_dec : EqDecision JournalLine.
Proof. solve_decision. Defined.

Record LedgerEntry := mkEntry {
  le_journalId : string; le_sourceRef : string; le_accountRef : string; le_direction : LedgerDirection;
  le_amount : Money; le_memo : option string; le_postedAt : Z }.
#[export] Instance LedgerEntry_eq_dec : EqDecision LedgerEntry.
Proof. solve_decision. Defined.

(** ** Journals ([journal.ts]) *)

Record JournalProps := mkJournal {
  jr_sourceRef : string; jr_currency : string; jr_lines : list JournalLine;
  jr_reversalOf : option string; jr_postedAt : option Z }.
Record LedgerPosted := mkPosted {
  lp_journalId : string; lp_sourceRef : string; lp_currency : string; lp_reversalOf : option string }.
Abbreviation Journal := (Aggregate JournalProps LedgerPosted).
Abbreviation JournalM := (M Journal).

Definition isPosted (j : Journal) : bool := bool_decide (is_Some (jr_postedAt (agg_props j))).

Definition minor_of (l : JournalLine) : Z := amountMinor (ln_amount l).
Definition sumByDirection (lines : list JournalLine) (d : LedgerDirection) : Z :=
  sumZ minor_of (filter (fun l => ln_direction l = d) lines).

Definition journal_create (id sourceRef cur : string) (lines : list JournalLine) : result Journal :=
  if bool_decide (length lines < 2)%nat
  then Err (ValidationError "Invalid journal" [mkFieldIssue "lines" "a journal must have at least 2 lines"])
  else if existsb (fun l => negb (bool_decide (currency (ln_amount l) = cur))) lines
  then Err (BusinessRuleError "All journal lines must share the journal's currency")
  else
    let debits := sumByDirection lines debit in
    let credits := sumByDirection lines credit in
    if bool_decide (debits <> credits)
    then Err (BusinessRuleError ("Journal is not balanced: debits (" +:+ pretty debits +:+ ") != credits (" +:+ pretty credits +:+ ")"))
    else Ok (new_agg (mkJournal sourceRef cur lines None None) id).

Definition with_postedAt (at_ : Z) (p : JournalProps) : JournalProps :=
  mkJournal (jr_sourceRef p) (jr_currency p) (jr_lines p) (jr_reversalOf p) (Some at_).

Definition post (eid : string) (at_ : Z) : JournalM unit :=
  posted ← gets isPosted;
  throw_if posted (BusinessRuleError "Journal is already posted");;
  set_props (with_postedAt at_);;
  j ← gets (fun j => j);
  addDomainEvent eid at_ (mkPosted (agg_id j) (jr_sourceRef (agg_props j)) (jr_currency (agg_props j)) (jr_reversalOf (agg_props j))).

Definition flipped (l : JournalLine) : JournalLine :=
  mkLine (ln_accountRef l) (opposite (ln_direction l)) (ln_amount l) (ln_memo l).

Definition reverse (newId : string) (original : Journal) (eid : string) (at_ : Z) : result Journal :=
  if negb (isPosted original) then Err (BusinessRuleError "Cannot reverse a journal that was never posted")
  else
    let p := agg_props original in
    let reversal := new_agg (mkJournal (jr_sourceRef p) (jr_currency p) (flipped <$> jr_lines p) (Some (agg_id original)) None) newId in
    match post eid at_ reversal with
    | (Ok _, reversal') => Ok reversal'
    | (Err e, _) => Err e
    end.

Definition entry_of (j : Journal) (postedAt : Z) (l : JournalLine) : LedgerEntry :=
  mkEntry (agg_id j) (jr_sourceRef (agg_props j)) (ln_accountRef l) (ln_direction l) (ln_amount l) (ln_memo l) postedAt.
Definition toLedgerEntries (j : Journal) : result (list LedgerEntry) :=
  match jr_postedAt (agg_props j) with
  | None => Err (BusinessRuleError "Cannot derive ledger entries from an unposted journal")
  | Some postedAt => Ok (entry_of j postedAt <$> jr_lines (agg_props j))
  end.

(** ** Posting templates ([services/ledger-poster.ts]) *)

Record PostingAccounts := mkAccounts {
  pa_revenue : string; pa_receivable : string; pa_cogs : string; pa_inventory : string;
  pa_refundContra : string; pa_expense : string; pa_cash : string; pa_fees : string }.

Definition two_lines (id sourceRef debited credited : string) (amount : Money) (memo : string) : result Journal :=
  journal_create id sourceRef (currency amount)
    [mkLine debited debit amount (Some memo); mkLine credited credit amount (Some memo)].

Definition forSale (id sourceRef : string) (accounts : PostingAccounts) (amount : Money) : result Journal :=
  two_lines id sourceRef (pa_receivable accounts) (pa_revenue accounts) amount "sale".
Definition forCogs (id sourceRef : string) (accounts : PostingAccounts) (cost : Money) : result Journal :=
  two_lines id sourceRef (pa_cogs accounts) (pa_inventory accounts) cost "cogs".
Definition forRefund (id sourceRef : string) (accounts : PostingAccounts) (amount : Money) : result Journal :=
  two_lines id sourceRef (pa_refundContra accounts) (pa_receivable accounts) amount "refund".
Definition forExpense (id sourceRef : string) (accounts : PostingAccounts) (amount : Money) : result Journal :=
  two_lines id sourceRef (pa_expense accounts) (pa_cash accounts) amount "expense".
Definition forFee (id sourceRef : string) (accounts : PostingAccounts) (amount : Money) : result Journal :=
  two_lines id sourceRef (pa_fees accounts) (pa_cash accounts) amount "fee".

(** ** Balances ([services/ledger-service.ts]) *)

Definition signed_entry (side : LedgerDirection) (e : LedgerEntry) : result Balance :=
  Balance_of (NInt (if bool_decide (le_direction e = side) then amountMinor (le_amount e) else - amountMinor (le_amount e)))
    (currency (le_amount e)).

Definition accountBalance (entries : list LedgerEntry) (accountRef : string) (t : AccountTypeValue) (cur : string) : result Balance :=
  foldM (fun b e => s ← signed_entry (normalSide t) e; Balance_plus b s) (Balance_zero cur)
    (filter (fun e => le_accountRef e = accountRef) entries).

Record TrialBalanceRow := mkRow { tb_accountRef : string; tb_debitMinor : Z; tb_creditMinor : Z }.
#[export] Instance TrialBalanceRow_eq_dec : EqDecision TrialBalanceRow.
Proof. solve_decision. Defined.

(** One entry on the map of totals: a key present keeps its place, a new one goes last. *)
Definition on_row (d : LedgerDirection) (amount : Z) (r : TrialBalanceRow) : TrialBalanceRow :=
  if isDebit d then mkRow (tb_accountRef r) (tb_debitMinor r + amount) (tb_creditMinor r)
  else mkRow (tb_accountRef r) (tb_debitMinor r) (tb_creditMinor r + amount).
Fixpoint add_to_rows (e : LedgerEntry) (rows : list TrialBalanceRow) : list TrialBalanceRow :=
  match rows with
  | [] => [on_row (le_direction e) (amountMinor (le_amount e)) (mkRow (le_accountRef e) 0 0)]
  | r :: rows' =>
      if bool_decide (tb_accountRef r = le_accountRef e) then on_row (le_direction e) (amountMinor (le_amount e)) r :: rows'
      else r :: add_to_rows e rows'
  end.
Definition trialBalance (entries : list LedgerEntry) : list TrialBalanceRow :=
  foldl (fun rows e => add_to_rows e rows) [] entries.

(** ** The opening journal of a period ([services/opening-balance-service.ts]) *)

Definition opening_line (cur : string) (r : TrialBalanceRow) : result JournalLine :=
  let net := tb_debitMinor r - tb_creditMinor r in
  value ← match Money.create (NInt (Z.abs net)) cur with Ok m => Ok m | Err _ => Money.zero cur end;
  Ok (mkLine (tb_accountRef r) (if bool_decide (0 < net) then debit else credit) value (Some "opening balance")).

Fixpoint map_results {A B} (f : A -> result B) (l : list A) : result (list B) :=
  match l with
  | [] => Ok []
  | x :: l' => y ← f x; ys ← map_results f l'; Ok (y :: ys)
  end.

Definition plug_of (lines : list JournalLine) : Z :=
  sumZ (fun l => if isDebit (ln_direction l) then - minor_of l else minor_of l) lines.

Definition openingJournal (id sourceRef : string) (closing : list TrialBalanceRow) (openingEquity cur : string) : result Journal :=
  lines ← map_results (opening_line cur) (filter (fun r => tb_debitMinor r <> tb_creditMinor r) closing);
  let plugMinor := plug_of lines in
  journal_create id sourceRef cur
    (lines ++
      match Money.create (NInt (Z.abs plugMinor)) cur with
      | Ok plug => if bool_decide (0 < amountMinor plug)
          then [mkLine openingEquity (if bool_decide (0 < plugMinor) then debit else credit) plug (Some "opening balance equity plug")]
          else []
      | Err _ => []
      end).

(** ** Statements ([services/statement-builder.ts]) *)

Record Account := mkAccount { ac_id : string; ac_code : string; ac_name : string; ac_type : AccountTypeValue; ac_active : bool }.

Definition account_create (id code name : string) (t : AccountTypeValue) : result Account :=
  if blank code then Err (ValidationError "Invalid account" [mkFieldIssue "code" "must not be empty"])
  else if blank name then Err (ValidationError "Invalid account" [mkFieldIssue "name" "must not be empty"])
  else Ok (mkAccount id code name t true).

Record IncomeStatement := mkIncome { is_revenue : Balance; is_cogs : Balance; is_expenses : Balance; is_netIncome : Balance }.
Record BalanceSheet := mkSheet { bs_assets : Balance; bs_liabilities : Balance; bs_equity : Balance }.

Definition sumByType (entries : list LedgerEntry) (cur : string) (t : AccountTypeValue) (accounts : list Account) : result Balance :=
  foldM (fun sum a => b ← accountBalance entries (ac_code a) (ac_type a) cur; Balance_plus sum b) (Balance_zero cur)
    (filter (fun a => ac_type a = t) accounts).

Definition is_cogs_account (a : Account) : bool :=
  bool_decide (ac_type a = expense) && contains (toUpperCase (ac_code a)) "COGS".

Definition incomeStatement (entries : list LedgerEntry) (accounts : list Account) (cur : string) : result IncomeStatement :=
  revenue ← sumByType entries cur revenue accounts;
  let cogsAccounts := filter (fun a => is_cogs_account a = true) accounts in
  let cogsRefs := ac_code <$> cogsAccounts in
  let nonCogsExpenseAccounts := filter (fun a => ac_type a = expense /\ ac_code a ∉ cogsRefs) accounts in
  cogs ← sumByType entries cur expense cogsAccounts;
  expenses ← sumByType entries cur expense nonCogsExpenseAccounts;
  gross ← Balance_minus revenue cogs;
  netIncome ← Balance_minus gross expenses;
  Ok (mkIncome revenue cogs expenses netIncome).

Definition balanceSheet (entries : list LedgerEntry) (accounts : list Account) (netIncome : Balance) (cur : string) : result BalanceSheet :=
  assets ← sumByType entries cur asset accounts;
  liabilities ← sumByType entries cur liability accounts;
  equity ← sumByType entries cur equity accounts;
  claims ← Balance_plus liabilities equity;
  total ← Balance_plus claims netIncome;
  if bool_decide (bl_amountMinor assets <> bl_amountMinor total)
  then Err (BusinessRuleError "Balance sheet does not satisfy assets = liabilities + equity + net income")
  else Ok (mkSheet assets liabilities equity).

(** ** Specification: the signed amount an entry moves *)

Definition signed (e : LedgerEntry) : Z :=
  if isDebit (le_direction e) then amountMinor (le_amount e) else - amountMinor (le_amount e).
Definition net_of (account : string) (entries : list LedgerEntry) : Z :=
  sumZ signed (filter (fun e => le_accountRef e = account) entries).
Definition net (entries : list LedgerEntry) : Z := sumZ signed entries.
Definition in_currency (cur : string) (entries : list LedgerEntry) : Prop :=
  forall e, e ∈ entries -> currency (le_amount e) = cur.

(** What an account of a type counts as its own: debits for assets and expenses, credits otherwise. *)
Definition side (t : AccountTypeValue) (z : Z) : Z := if isDebit (normalSide t) then z else - z.

(** The totals of one account, by summing its entries. *)
Definition debits_of (account : string) (entries : list LedgerEntry) : Z :=
  sumZ (fun e => amountMinor (le_amount e)) (filter (fun e => le_accountRef e = account /\ le_direction e = debit) entries).
Definition credits_of (account : string) (entries : list LedgerEntry) : Z :=
  sumZ (fun e => amountMinor (le_amount e)) (filter (fun e => le_accountRef e = account /\ le_direction e = credit) entries).
Definition reference_rows (entries : list LedgerEntry) : list TrialBalanceRow :=
  (fun a => mkRow a (debits_of a entries) (credits_of a entries)) <$> unique (le_accountRef <$> entries).

(** A journal whose debits equal its credits, line by line signed. *)
Definition line_signed (l : JournalLine) : Z := if isDebit (ln_direction l) then minor_of l else - minor_of l.

(** ** Lemmas on balances *)

Lemma Balance_plus_same z w c : Balance_plus (mkBalance z c) (mkBalance w c) = Ok (mkBalance (z + w) c).
Proof. unfold Balance_plus, Balance_sameCurrency. cbn. by rewrite bool_decide_true. Qed.

Lemma Balance_minus_same z w c : Balance_minus (mkBalance z c) (mkBalance w c) = Ok (mkBalance (z - w) c).
Proof. unfold Balance_minus, Balance_sameCurrency. cbn. by rewrite bool_decide_true. Qed.

(** The loops of the ledger add balances of one currency. *)
Lemma foldM_balance {A} (f : A -> result Balance) (g : A -> Z) c l z :
  (forall x, x ∈ l -> f x = Ok (mkBalance (g x) c)) ->
  foldM (fun b x => s ← f x; Balance_plus b s) (mkBalance z c) l = Ok (mkBalance (z + sumZ g l) c).
Proof.
  revert z. induction l as [|x l IH]; intros z Hf; cbn; [by rewrite sumZ_nil, Z.add_0_r|].
  rewrite (Hf x) by left. cbn. rewrite Balance_plus_same. cbn. rewrite IH; [rewrite sumZ_cons; do 2 f_equal; lia|].
  intros y Hy. apply Hf. by right.
Qed.

Lemma side_linear t f (l : list LedgerEntry) : side t (sumZ f l) = sumZ (fun e => side t (f e)) l.
Proof.
  induction l as [|e l IH]; rewrite ?sumZ_nil, ?sumZ_cons; [by destruct t|].
  rewrite <- IH. unfold side. destruct (isDebit _); lia.
Qed.

Lemma accountBalance_spec entries a t cur :
  in_currency cur entries -> accountBalance entries a t cur = Ok (mkBalance (side t (net_of a entries)) cur).
Proof.
  intros Hc. unfold accountBalance, Balance_zero, net_of.
  rewrite (foldM_balance _ (fun e => side t (signed e)) cur), Z.add_0_l; [by rewrite side_linear|].
  intros e [_ He]%list_elem_of_filter. unfold signed_entry, signed, side. rewrite (Hc e He). cbn.
  destruct t, (le_direction e); cbn; rewrite ?Z.opp_involutive; done.
Qed.

Lemma sumByType_spec entries cur t accounts :
  in_currency cur entries ->
  sumByType entries cur t accounts =
    Ok (mkBalance (side t (sumZ (fun a => net_of (ac_code a) entries) (filter (fun a => ac_type a = t) accounts))) cur).
Proof.
  intros Hc. unfold sumByType, Balance_zero.
  rewrite (foldM_balance _ (fun a => side t (net_of (ac_code a) entries)) cur), Z.add_0_l.
  - do 2 f_equal. induction (filter _ accounts) as [|x l IH]; rewrite ?sumZ_nil, ?sumZ_cons; [by destruct t|].
    rewrite IH. unfold side. destruct (isDebit _); lia.
  - intros a [<- _]%list_elem_of_filter. by apply accountBalance_spec.
Qed.

(** Splitting a sum by a test. *)
Lemma filter_filter {A} (P Q R : A -> Prop) `{forall x, Decision (P x)} `{forall x, Decision (Q x)} `{forall x, Decision (R x)} (l : list A) :
  (forall x, x ∈ l -> R x <-> P x /\ Q x) -> filter P (filter Q l) = filter R l.
Proof.
  induction l as [|x l IH]; intros Hx; [done|]. rewrite !filter_cons.
  assert (IH' : filter P (filter Q l) = filter R l) by (apply IH; intros y Hy; apply Hx; by right).
  assert (HR := Hx x (list_elem_of_here _ _)).
  destruct (decide (Q x)), (decide (R x)); rewrite ?filter_cons; try destruct (decide (P x)); try tauto; by rewrite ?IH'.
Qed.

(** Nets of distinct accounts add up to the entries on them. *)
Lemma net_of_accounts codes entries :
  NoDup codes -> sumZ (fun a => net_of a entries) codes = sumZ signed (filter (fun e => le_accountRef e ∈ codes) entries).
Proof.
  intros Hn. induction Hn as [|a codes Ha Hn IH].
  - rewrite sumZ_nil. induction entries as [|e l IH]; [done|]. rewrite filter_cons, decide_False; [done|].
    by intros ?%elem_of_nil.
  - rewrite sumZ_cons, IH.
    rewrite (sumZ_filter_split signed (fun e => le_accountRef e = a) (filter (fun e => le_accountRef e ∈ a :: codes) entries)).
    f_equal; unfold net_of; f_equal; symmetry; apply filter_filter; intros e _; rewrite elem_of_cons; naive_solver.
Qed.

(** ** The trial balance *)

Lemma unique_snoc {A} `{EqDecision A} (l : list A) x :
  unique (l ++ [x]) = if bool_decide (x ∈ l) then unique l else unique l ++ [x].
Proof.
  induction l as [|y l IH]; [done|]. cbn [app unique]. rewrite IH. clear IH.
  destruct (decide (x = y)) as [->|Hxy].
  - rewrite (bool_decide_true (y ∈ y :: l)) by left. case_bool_decide; [done|].
    rewrite filter_app, filter_cons, decide_False by naive_solver. by rewrite app_nil_r.
  - rewrite (bool_decide_ext (x ∈ y :: l) (x ∈ l)) by (rewrite elem_of_cons; naive_solver).
    case_bool_decide; [done|]. rewrite filter_app, filter_cons, decide_True by done. done.
Qed.

Definition row_for (entries : list LedgerEntry) (a : string) : TrialBalanceRow :=
  mkRow a (debits_of a entries) (credits_of a entries).

Lemma row_for_snoc entries e a :
  row_for (entries ++ [e]) a =
    if bool_decide (a = le_accountRef e) then on_row (le_direction e) (amountMinor (le_amount e)) (row_for entries a)
    else row_for entries a.
Proof.
  unfold row_for, debits_of, credits_of, on_row. rewrite !filter_app, !sumZ_app, !filter_cons.
  case_bool_decide as Ha; destruct (le_direction e) eqn:Hd; cbn;
    repeat case_decide; try naive_solver; autorewrite with sums; rewrite ?Z.add_0_r; done.
Qed.

Lemma row_for_fresh entries a : a ∉ (le_accountRef <$> entries) -> row_for entries a = mkRow a 0 0.
Proof.
  intros Ha. unfold row_for, debits_of, credits_of.
  rewrite !filter_none; [done| |]; intros e Hin [<- _]; by apply Ha, list_elem_of_fmap_2.
Qed.

Lemma add_to_rows_spec entries e codes :
  NoDup codes -> codes ≡ₚ unique (le_accountRef <$> entries) ->
  add_to_rows e (row_for entries <$> codes) =
    row_for (entries ++ [e]) <$> (if bool_decide (le_accountRef e ∈ codes) then codes else codes ++ [le_accountRef e]).
Proof.
  intros Hn Hp. assert (Hin : forall a, a ∈ codes -> a ∈ (le_accountRef <$> entries)).
  { intros a Ha. by apply elem_of_unique; rewrite <- Hp. }
  assert (Hall : forall a, a ∉ codes -> row_for entries a = mkRow a 0 0).
  { intros a Ha. apply row_for_fresh. by rewrite <- elem_of_unique, <- Hp. }
  clear Hp Hin. generalize dependent codes. intros codes Hn Hall.
  assert (Hmain : forall pre, (le_accountRef e ∉ pre) -> (forall a, a ∉ pre ++ codes -> row_for entries a = mkRow a 0 0) ->
    add_to_rows e (row_for entries <$> codes) =
      row_for (entries ++ [e]) <$> (if bool_decide (le_accountRef e ∈ codes) then codes else codes ++ [le_accountRef e])).
  { clear Hall. induction Hn as [|a codes Ha Hn IH]; intros pre Hpre Hall; cbn [fmap list_fmap add_to_rows].
    - rewrite bool_decide_false by (by intros ?%elem_of_nil). cbn. rewrite row_for_snoc, bool_decide_true by done.
      by rewrite Hall by (by rewrite app_nil_r).
    - cbn [tb_accountRef row_for]. destruct (decide (a = le_accountRef e)) as [->|Hne].
      + rewrite !bool_decide_true by (done || left). cbn. rewrite row_for_snoc, bool_decide_true by done.
        f_equal. apply fmap_ext_elem. intros x Hx.
        rewrite row_for_snoc, bool_decide_false; [done|]. intros ->. done.
      + rewrite bool_decide_false by done. rewrite (IH (pre ++ [a])).
        * rewrite (bool_decide_ext (le_accountRef e ∈ a :: codes) (le_accountRef e ∈ codes)) by (rewrite elem_of_cons; naive_solver).
          case_bool_decide; cbn; rewrite row_for_snoc, bool_decide_false by done; done.
        * rewrite elem_of_app, list_elem_of_singleton. naive_solver.
        * intros b Hb. apply Hall. by rewrite <- app_assoc in Hb. }
  by apply (Hmain []); [intros ?%elem_of_nil|].
Qed.

Lemma trialBalance_reference entries : trialBalance entries = reference_rows entries.
Proof.
  unfold trialBalance, reference_rows. change (fun a => mkRow a (debits_of a entries) (credits_of a entries)) with (row_for entries).
  induction entries as [|e entries IH] using rev_ind; [done|].
  rewrite foldl_app. cbn [foldl]. rewrite IH, fmap_app. cbn [fmap list_fmap]. rewrite unique_snoc.
  rewrite add_to_rows_spec; [|apply NoDup_unique|done].
  by rewrite (bool_decide_ext (le_accountRef e ∈ unique _) _ (elem_of_unique _ _)).
Qed.

(** ** Journals *)

Lemma sum_lines_signed lines : sumZ line_signed lines = sumByDirection lines debit - sumByDirection lines credit.
Proof.
  unfold sumByDirection. induction lines as [|l lines IH]; [done|]. rewrite sumZ_cons, IH, !filter_cons.
  unfold line_signed. destruct (ln_direction l) eqn:Hd; cbn; repeat case_decide; try congruence; rewrite ?sumZ_cons; lia.
Qed.

(** What a journal that was created has: lines of its currency, which balance. *)
Definition balanced_lines (cur : string) (lines : list JournalLine) : Prop :=
  (2 <= length lines)%nat /\ (forall l, l ∈ lines -> currency (ln_amount l) = cur) /\ sumZ line_signed lines = 0.

Lemma journal_create_Ok id src cur lines j :
  journal_create id src cur lines = Ok j <->
  balanced_lines cur lines /\ j = new_agg (mkJournal src cur lines None None) id.
Proof.
  unfold journal_create, balanced_lines. rewrite sum_lines_signed. case_bool_decide as Hl; [split; [done|lia]|].
  destruct (existsb _ lines) eqn:Hc.
  - split; [done|]. intros [(_ & Hall & _) _]. apply existsb_exists in Hc as (l & Hin & Hl').
    rewrite (bool_decide_true _ (Hall l (proj2 (list_elem_of_In _ _) Hin))) in Hl'. done.
  - assert (Hall : forall l, l ∈ lines -> currency (ln_amount l) = cur).
    { intros l Hin. destruct (decide (currency (ln_amount l) = cur)) as [|Hn]; [done|]. exfalso.
      assert (existsb (fun l => negb (bool_decide (currency (ln_amount l) = cur))) lines = true); [|congruence].
      apply existsb_exists. exists l. rewrite <- list_elem_of_In. by rewrite bool_decide_false. }
    case_bool_decide as Hb; split.
    + done.
    + intros [(_ & _ & Hz) _]. lia.
    + intros [= <-]. split_and!; [lia|done|lia|done].
    + by intros [_ ->].
Qed.

Definition posted_journal (j : Journal) (eid : string) (at_ : Z) : Journal :=
  mkAgg (agg_id j) (agg_version j)
    (agg_events j ++ [(mkMeta eid (agg_id j) at_, mkPosted (agg_id j) (jr_sourceRef (agg_props j)) (jr_currency (agg_props j)) (jr_reversalOf (agg_props j)))])
    (with_postedAt at_ (agg_props j)).

Lemma post_unposted eid at_ j : jr_postedAt (agg_props j) = None -> post eid at_ j = (Ok tt, posted_journal j eid at_).
Proof.
  intros Hn. unfold post, gets, throw_if, set_props, addDomainEvent, modify, mbind, M_bind, isPosted. rewrite Hn.
  by rewrite bool_decide_false by (by intros [? ?]).
Qed.

Lemma post_posted eid at_ j : jr_postedAt (agg_props j) <> None -> post eid at_ j = (Err (BusinessRuleError "Journal is already posted"), j).
Proof.
  intros Hn. unfold post, gets, throw_if, mbind, M_bind, isPosted.
  rewrite bool_decide_true; [done|]. by destruct (jr_postedAt _).
Qed.

Lemma net_of_lines j t a (lines : list JournalLine) :
  net_of a (entry_of j t <$> lines) = sumZ line_signed (filter (fun l => ln_accountRef l = a) lines).
Proof. unfold net_of. rewrite filter_of_fmap, sumZ_map. apply sumZ_ext. intros l _. done. Qed.

Lemma net_of_app a es es' : net_of a (es ++ es') = net_of a es + net_of a es'.
Proof. unfold net_of. by rewrite filter_app, sumZ_app. Qed.

Lemma line_signed_flipped l : line_signed (flipped l) = - line_signed l.
Proof. unfold line_signed, flipped, minor_of. destruct l as [? [] ? ?]; cbn; lia. Qed.

Lemma sum_flipped (lines : list JournalLine) : sumZ line_signed (flipped <$> lines) = - sumZ line_signed lines.
Proof.
  induction lines as [|l lines IH]; [done|]. rewrite fmap_cons, !sumZ_cons, IH, line_signed_flipped. lia.
Qed.

Lemma balanced_flipped cur lines : balanced_lines cur lines -> balanced_lines cur (flipped <$> lines).
Proof.
  intros (Hl & Hc & Hz). split_and!.
  - by rewrite length_fmap.
  - intros l (l' & -> & Hin)%list_elem_of_fmap. by apply (Hc l').
  - rewrite sum_flipped. lia.
Qed.

(** ** The opening journal *)

Lemma reference_rows_net entries a : tb_debitMinor (row_for entries a) - tb_creditMinor (row_for entries a) = net_of a entries.
Proof.
  cbn. unfold debits_of, credits_of, net_of, signed. induction entries as [|e entries IH]; [done|].
  rewrite !filter_cons. destruct (le_direction e) eqn:Hd; repeat case_decide; try naive_solver;
    rewrite ?sumZ_cons, ?Hd; cbn [isDebit]; lia.
Qed.

Definition opening_of (cur : string) (a : string) (n : Z) : JournalLine :=
  mkLine a (if bool_decide (0 < n) then debit else credit) (mkMoney (Z.abs n) cur) (Some "opening balance").

Lemma opening_line_spec cur r :
  isValidCurrencyCode cur = true ->
  opening_line cur r = Ok (opening_of cur (tb_accountRef r) (tb_debitMinor r - tb_creditMinor r)).
Proof.
  intros Hc. unfold opening_line.
  replace (Money.create (NInt (Z.abs (tb_debitMinor r - tb_creditMinor r))) cur)
    with (Ok (mkMoney (Z.abs (tb_debitMinor r - tb_creditMinor r)) cur)); [done|].
  symmetry. apply MoneyLaws.create_Ok. repeat split; [cbn; lia|done].
Qed.

Lemma map_results_fmap {A B} (f : A -> result B) (g : A -> B) l :
  (forall x, x ∈ l -> f x = Ok (g x)) -> map_results f l = Ok (g <$> l).
Proof.
  induction l as [|x l IH]; intros Hf; [done|]. cbn. rewrite (Hf x) by left. cbn.
  rewrite IH; [done|]. intros y Hy. apply Hf. by right.
Qed.

Lemma map_results_app {A B} (f : A -> result B) l1 l2 ys1 ys2 :
  map_results f l1 = Ok ys1 -> map_results f l2 = Ok ys2 -> map_results f (l1 ++ l2) = Ok (ys1 ++ ys2).
Proof.
  intros H1 H2. revert ys1 H1. induction l1 as [|x l1 IH]; intros ys1; cbn; [by intros [= <-]|].
  destruct (f x) as [y|]; cbn; [|done]. destruct (map_results f l1) as [ys|]; cbn; [|done].
  intros [= <-]. by rewrite (IH ys eq_refl).
Qed.

Lemma opening_signed cur a n : line_signed (opening_of cur a n) = n.
Proof. unfold line_signed, opening_of, minor_of. cbn. case_bool_decide; cbn; lia. Qed.

Definition open_accounts (entries : list LedgerEntry) : list string :=
  filter (fun a => net_of a entries <> 0) (unique (le_accountRef <$> entries)).
Definition opening_lines (cur : string) (entries : list LedgerEntry) : list JournalLine :=
  (fun a => opening_of cur a (net_of a entries)) <$> open_accounts entries.

Lemma opening_rows cur entries :
  isValidCurrencyCode cur = true ->
  map_results (opening_line cur) (filter (fun r => tb_debitMinor r <> tb_creditMinor r) (trialBalance entries)) =
    Ok (opening_lines cur entries).
Proof.
  intros Hc. rewrite trialBalance_reference. unfold reference_rows, opening_lines, open_accounts.
  change (fun a => mkRow a (debits_of a entries) (credits_of a entries)) with (row_for entries).
  rewrite filter_of_fmap.
  rewrite (list_filter_iff _ (fun a => net_of a entries <> 0)) by (intros a; rewrite <- reference_rows_net; lia).
  rewrite (map_results_fmap _ (fun r => opening_of cur (tb_accountRef r) (tb_debitMinor r - tb_creditMinor r)))
    by (intros r _; by apply opening_line_spec).
  rewrite <- list_fmap_compose. f_equal. apply fmap_ext_elem. intros a _. cbn [compose].
  by rewrite <- reference_rows_net.
Qed.

(** Accounts without entries have no balance. *)
Lemma net_of_absent a entries : a ∉ (le_accountRef <$> entries) -> net_of a entries = 0.
Proof.
  intros Ha. unfold net_of. rewrite filter_none; [done|]. intros e He <-. by apply Ha, list_elem_of_fmap_2.
Qed.

Lemma open_accounts_elem a entries : a ∈ open_accounts entries <-> net_of a entries <> 0.
Proof.
  unfold open_accounts. rewrite list_elem_of_filter, elem_of_unique. split; [naive_solver|]. intros Hn. split; [done|].
  destruct (decide (a ∈ le_accountRef <$> entries)); [done|]. by apply net_of_absent in n.
Qed.

Lemma sum_of_nets entries : sumZ (fun a => net_of a entries) (open_accounts entries) = net entries.
Proof.
  transitivity (sumZ (fun a => net_of a entries) (unique (le_accountRef <$> entries))).
  - rewrite (sumZ_filter_split _ (fun a => net_of a entries <> 0) (unique _)). fold (open_accounts entries).
    assert (H0 : sumZ (fun a => net_of a entries) (filter (fun a => ~ net_of a entries <> 0) (unique (le_accountRef <$> entries))) = 0); [|lia].
    rewrite (sumZ_ext _ (fun _ => 0)); [by induction (filter _ _)|]. intros a [Ha _]%list_elem_of_filter. lia.
  - rewrite net_of_accounts by apply NoDup_unique. unfold net. f_equal. apply filter_all.
    intros e He. apply elem_of_unique. by apply list_elem_of_fmap_2.
Qed.

Lemma plug_of_signed lines : plug_of lines = - sumZ line_signed lines.
Proof.
  unfold plug_of. induction lines as [|l lines IH]; [done|]. rewrite !sumZ_cons, IH. unfold line_signed.
  destruct (isDebit _); lia.
Qed.

Lemma sum_opening_lines cur entries : sumZ line_signed (opening_lines cur entries) = net entries.
Proof.
  unfold opening_lines. rewrite sumZ_map, <- sum_of_nets. apply sumZ_ext. intros a _. apply opening_signed.
Qed.

(** The balances carried forward sum to zero, so the plug is never needed. *)
Lemma openingJournal_spec id src entries eq cur :
  isValidCurrencyCode cur = true -> net entries = 0 ->
  openingJournal id src (trialBalance entries) eq cur = journal_create id src cur (opening_lines cur entries).
Proof.
  intros Hc Hn. unfold openingJournal. rewrite opening_rows by done. unfold mbind at 1, result_bind at 1.
  rewrite plug_of_signed, sum_opening_lines, Hn. change (Z.abs (- 0)) with 0.
  rewrite (proj2 (MoneyLaws.create_Ok (NInt 0) cur (mkMoney 0 cur))) by (by repeat split).
  rewrite bool_decide_false by (cbn; lia). by rewrite app_nil_r.
Qed.

Lemma net_of_opening cur a entries :
  sumZ line_signed (filter (fun l => ln_accountRef l = a) (opening_lines cur entries)) = net_of a entries.
Proof.
  unfold opening_lines. rewrite filter_of_fmap, sumZ_map.
  rewrite (sumZ_ext _ (fun b => net_of b entries)) by (intros b _; apply opening_signed).
  rewrite (list_filter_iff _ (fun b => b = a)) by (intros b; cbn; naive_solver).
  destruct (decide (net_of a entries = 0)) as [H0|H0].
  - rewrite H0, filter_none; [done|]. intros b Hb ->. by apply open_accounts_elem in Hb.
  - assert (Ha : a ∈ open_accounts entries) by by apply open_accounts_elem.
    assert (Hn : NoDup (open_accounts entries)) by apply NoDup_filter, NoDup_unique.
    induction Hn as [|b l Hb Hn IH]; [by apply elem_of_nil in Ha|]. rewrite filter_cons. case_decide as E.
    + subst b. rewrite sumZ_cons, filter_none; [rewrite sumZ_nil; lia|]. intros c Hc ->. done.
    + apply IH. apply elem_of_cons in Ha. naive_solver.
Qed.

(** ** Statements *)

Section statements.
Context (entries : list LedgerEntry) (accounts : list Account) (cur : string).
Hypothesis (Hcur : in_currency cur entries).

Definition net_by (P : Account -> Prop) `{forall a, Decision (P a)} : Z :=
  sumZ (fun a => net_of (ac_code a) entries) (filter P accounts).

(** What each statement line is, and the entries no account of the chart covers. *)
Definition income_of : IncomeStatement :=
  let revenue := - net_by (fun a => ac_type a = revenue) in
  let cogs := net_by (fun a => is_cogs_account a = true) in
  let expenses := net_by (fun a => ac_type a = expense /\ is_cogs_account a = false) in
  mkIncome (mkBalance revenue cur) (mkBalance cogs cur) (mkBalance expenses cur) (mkBalance (revenue - cogs - expenses) cur).
Definition sheet_of : BalanceSheet :=
  mkSheet (mkBalance (net_by (fun a => ac_type a = asset)) cur)
    (mkBalance (- net_by (fun a => ac_type a = liability)) cur) (mkBalance (- net_by (fun a => ac_type a = equity)) cur).
Definition uncovered : list LedgerEntry := filter (fun e => le_accountRef e ∉ (ac_code <$> accounts)) entries.

(** The cost of goods is an expense account whose code says so, which its code alone decides. *)
Lemma cogs_refs a :
  a ∈ accounts -> (ac_type a = expense /\ ac_code a ∉ (ac_code <$> filter (fun a => is_cogs_account a = true) accounts)) <->
  (ac_type a = expense /\ is_cogs_account a = false).
Proof.
  intros Ha. unfold is_cogs_account. split; intros [Ht Hc]; (split; [done|]).
  - destruct (contains (toUpperCase (ac_code a)) "COGS") eqn:E; [|by rewrite andb_false_r]. exfalso.
    apply Hc, list_elem_of_fmap. exists a. split; [done|]. apply list_elem_of_filter. by rewrite bool_decide_true.
  - rewrite bool_decide_true in Hc by done. intros (b & Hb & [Hb' _]%list_elem_of_filter)%list_elem_of_fmap.
    apply andb_true_iff in Hb' as [_ Hb']. rewrite <- Hb in Hb'. cbn in Hc. congruence.
Qed.

Lemma filter_of_type (P : Account -> Prop) `{forall a, Decision (P a)} t :
  (forall a, P a -> ac_type a = t) -> filter (fun a => ac_type a = t) (filter P accounts) = filter P accounts.
Proof. intros HP. apply filter_all. intros a [Ha _]%list_elem_of_filter. by apply HP. Qed.

Lemma incomeStatement_spec : incomeStatement entries accounts cur = Ok income_of.
Proof.
  unfold incomeStatement. rewrite !sumByType_spec by done. cbn [mbind result_bind].
  rewrite (filter_of_type (fun a => is_cogs_account a = true)) by
    (intros a; unfold is_cogs_account; rewrite andb_true_iff, bool_decide_eq_true; naive_solver).
  rewrite (filter_of_type (fun a => ac_type a = expense /\ _)) by naive_solver.
  rewrite Balance_minus_same. cbn [mbind result_bind]. rewrite Balance_minus_same. cbn [mbind result_bind].
  unfold income_of, net_by. cbn [side isDebit normalSide].
  rewrite (filter_iff_elem (fun a => ac_type a = expense /\ ac_code a ∉ _) (fun a => ac_type a = expense /\ is_cogs_account a = false)); [done|].
  intros a Ha. by apply cogs_refs.
Qed.

Lemma net_by_type :
  net_by (fun a => ac_type a = asset) + net_by (fun a => ac_type a = liability) + net_by (fun a => ac_type a = equity) +
  net_by (fun a => ac_type a = revenue) + net_by (fun a => is_cogs_account a = true) +
  net_by (fun a => ac_type a = expense /\ is_cogs_account a = false) = sumZ (fun a => net_of (ac_code a) entries) accounts.
Proof.
  unfold net_by. induction accounts as [|a l IH]; [done|]. rewrite sumZ_cons, <- IH, !filter_cons.
  assert (Hc : is_cogs_account a = true -> ac_type a = expense)
    by (unfold is_cogs_account; rewrite andb_true_iff, bool_decide_eq_true; naive_solver).
  destruct (ac_type a) eqn:Ht, (is_cogs_account a) eqn:Hca; try (by discriminate Hc); clear Hc;
    repeat case_decide; destruct_and?; try discriminate;
    try (exfalso; match goal with H : ~ _ |- _ => by apply H end); rewrite ?sumZ_cons; lia.
Qed.

Lemma covered_and_uncovered :
  NoDup (ac_code <$> accounts) ->
  sumZ (fun a => net_of (ac_code a) entries) accounts + net uncovered = net entries.
Proof.
  intros Hn. rewrite <- (sumZ_map ac_code (fun c => net_of c entries)), net_of_accounts by done.
  unfold net, uncovered. by rewrite (sumZ_filter_split signed (fun e => le_accountRef e ∈ (ac_code <$> accounts)) entries).
Qed.

(** The identity holds exactly when the entries on accounts outside the chart cancel out. *)
Lemma balanceSheet_spec :
  NoDup (ac_code <$> accounts) -> net entries = 0 ->
  balanceSheet entries accounts (is_netIncome income_of) cur =
    if bool_decide (net uncovered = 0) then Ok sheet_of
    else Err (BusinessRuleError "Balance sheet does not satisfy assets = liabilities + equity + net income").
Proof.
  intros Hn H0. unfold balanceSheet. rewrite !sumByType_spec by done. cbn [mbind result_bind side isDebit normalSide].
  rewrite Balance_plus_same. cbn [mbind result_bind]. unfold income_of. cbn [is_netIncome].
  rewrite Balance_plus_same. cbn [mbind result_bind bl_amountMinor].
  assert (Hs := net_by_type). assert (Hc := covered_and_uncovered Hn).
  fold (net_by (fun a => ac_type a = asset)) (net_by (fun a => ac_type a = liability)) (net_by (fun a => ac_type a = equity)).
  unfold sheet_of. repeat case_bool_decide; try done; lia.
Qed.

End statements.

Lemma posted_entries j eid t : toLedgerEntries (posted_journal j eid t) = Ok (entry_of j t <$> jr_lines (agg_props j)).
Proof. done. Qed.

(** A created journal can be posted once; reversing it before that throws. Reversing the posted
    journal gives a posted journal that names it, keeps its currency, and whose entries bring the balance
    of every account back, so the two together change nothing; it can be reversed in turn. *)
Theorem reversal_cancels_journal id src cur lines j eid t u posted newId eid' t' :
  journal_create id src cur lines = Ok j -> post eid t j = (Ok u, posted) ->
  isOk (reverse newId j eid' t') = false /\ isOk (fst (post eid' t' posted)) = false /\
  exists reversal es es',
    reverse newId posted eid' t' = Ok reversal /\
    jr_reversalOf (agg_props reversal) = Some id /\ jr_currency (agg_props reversal) = cur /\
    toLedgerEntries posted = Ok es /\ toLedgerEntries reversal = Ok es' /\
    length es' = length es /\ (forall a, net_of a (es ++ es') = 0) /\
    balanced_lines cur (jr_lines (agg_props reversal)) /\
    isOk (reverse newId reversal eid' t') = true.
Proof.
  intros (Hb & ->)%journal_create_Ok Hp. rewrite post_unposted in Hp by done. injection Hp as <- <-.
  split; [done|]. split; [by rewrite post_posted|].
  eexists _, _, _. split_and!; try done.
  - cbn. by rewrite !length_fmap.
  - intros a. rewrite net_of_app, !net_of_lines. cbn [jr_lines agg_props new_agg posted_journal with_postedAt].
    rewrite filter_of_fmap, sum_flipped. apply Z.add_opp_diag_r.
  - by apply balanced_flipped.
Qed.

(** Opening a period from the trial balance of a balanced ledger succeeds exactly when some account
    has a balance; the journal then has one line for each such account and no other line (the equity plug
    is never needed), and once posted every account of the ledger has the balance it closed with. *)
Theorem opening_journal_carries_balances id src entries openingEquity cur :
  isValidCurrencyCode cur = true -> net entries = 0 ->
  match openingJournal id src (trialBalance entries) openingEquity cur with
  | Ok j =>
      ln_accountRef <$> jr_lines (agg_props j) = open_accounts entries /\
      forall eid t es, toLedgerEntries (posted_journal j eid t) = Ok es ->
        in_currency cur es /\ (forall a, net_of a es = net_of a entries)
  | Err e =>
      e = ValidationError "Invalid journal" [mkFieldIssue "lines" "a journal must have at least 2 lines"] /\
      forall a, net_of a entries = 0
  end.
Proof.
  intros Hc Hn. rewrite openingJournal_spec by done.
  destruct (journal_create id src cur (opening_lines cur entries)) as [j|e] eqn:Hj.
  - apply journal_create_Ok in Hj as [Hb ->]. split.
    + unfold opening_lines. cbn. rewrite <- list_fmap_compose. by rewrite list_fmap_id.
    + intros eid t es. rewrite posted_entries. intros [= <-]. split.
      * intros e (l & -> & Hl)%list_elem_of_fmap. by apply Hb.
      * intros a. rewrite net_of_lines. apply net_of_opening.
  - assert (Hlen : (length (opening_lines cur entries) < 2)%nat).
    { destruct (decide (length (opening_lines cur entries) < 2)%nat) as [|Hl]; [done|]. exfalso.
      enough (H : journal_create id src cur (opening_lines cur entries) = Ok (new_agg (mkJournal src cur (opening_lines cur entries) None None) id)) by congruence.
      apply journal_create_Ok. split; [|done]. split_and!; [lia| |by rewrite sum_opening_lines].
      by intros l (a & -> & _)%list_elem_of_fmap. }
    unfold journal_create in Hj. rewrite bool_decide_true in Hj by done. injection Hj as <-. split; [done|]. intros a.
    destruct (decide (net_of a entries = 0)) as [|Ha]; [done|]. exfalso. apply open_accounts_elem in Ha.
    assert (Hs := sum_of_nets entries). unfold opening_lines in Hlen. rewrite length_fmap in Hlen.
    destruct (open_accounts entries) as [|b [|]] eqn:Ho; cbn in Hlen; [by apply elem_of_nil in Ha| |lia].
    assert (Hb : b ∈ open_accounts entries) by (rewrite Ho; left). apply open_accounts_elem in Hb.
    rewrite sumZ_cons, sumZ_nil in Hs. lia.
Qed.

(** ** Witnesses *)

Definition usd (n : Z) : Money := mkMoney n "USD".
Definition sample_lines : list JournalLine :=
  [mkLine "1200" debit (usd 700) (Some "sale"); mkLine "1000" debit (usd 300) None; mkLine "4000" credit (usd 1000) None].

Lemma reversal_cancels_journal_witness :
  exists posted, post "e1" 10 (new_agg (mkJournal "order-1" "USD" sample_lines None None) "j1") = (Ok tt, posted) /\
  exists reversal es es',
    reverse "j2" posted "e2" 20 = Ok reversal /\
    jr_reversalOf (agg_props reversal) = Some "j1" /\ jr_currency (agg_props reversal) = "USD" /\
    toLedgerEntries posted = Ok es /\ toLedgerEntries reversal = Ok es' /\
    length es' = length es /\ (forall a, net_of a (es ++ es') = 0) /\
    balanced_lines "USD" (jr_lines (agg_props reversal)) /\ isOk (reverse "j2" reversal "e2" 20) = true.
Proof.
  assert (Hj : journal_create "j1" "order-1" "USD" sample_lines = Ok (new_agg (mkJournal "order-1" "USD" sample_lines None None) "j1"))
    by reflexivity.
  eexists. split; [reflexivity|].
  exact (proj2 (proj2 (reversal_cancels_journal "j1" "order-1" "USD" sample_lines _ "e1" 10 tt _ "j2" "e2" 20 Hj eq_refl))).
Defined.

Definition sample_ledger : list LedgerEntry :=
  [mkEntry "j1" "o1" "1200" debit (usd 700) None 1; mkEntry "j1" "o1" "4000" credit (usd 700) None 1;
   mkEntry "j2" "o1" "1000" debit (usd 700) None 2; mkEntry "j2" "o1" "1200" credit (usd 700) None 2].

Lemma opening_journal_carries_balances_witness :
  net sample_ledger = 0 /\ exists j, openingJournal "j9" "open" (trialBalance sample_ledger) "3000" "USD" = Ok j /\
    ln_accountRef <$> jr_lines (agg_props j) = ["4000"; "1000"] /\
    forall es, toLedgerEntries (posted_journal j "e" 5) = Ok es -> net_of "1000" es = 700.
Proof.
  assert (H := opening_journal_carries_balances "j9" "open" sample_ledger "3000" "USD" eq_refl eq_refl).
  split; [reflexivity|]. destruct (openingJournal _ _ _ _ _) as [j|e] eqn:Hj.
  - exists j. destruct H as [Hl He]. split; [done|]. split; [by rewrite Hl|]. intros es Hes.
    by rewrite (proj2 (He _ _ _ Hes)).
  - exfalso. vm_compute in Hj. discriminate Hj.
Defined.
