(* ===== verification/Finance.v ===== *)
(** The books of a shop: how the Finance context keeps its ledger ([services/finance/src]). The rows the
    journals are stored as, the consumers that post commerce events ([interfaces/finance-consumers.ts],
    run atomically by [apps/runtime/src/consumers]), manual adjustments, and the queries and projections
    that read statements of a period back. *)
From S2P Require Import Prelude Kernel Consumer Ledger.
Import Money.

#[global] Open Scope Z_scope.

(** ** Rows ([infrastructure/finance.mappers.ts]) *)

Record JournalRow := mkJournalRow {
  jw_id : string; jw_tenantId : string; jw_sourceRef : string; jw_currency : string;
  jw_reversalOf : option string; jw_postedAt : option Z }.
Record LedgerEntryRow := mkEntryRow {
  er_id : string; er_tenantId : string; er_journalId : string; er_sourceRef : string; er_accountRef : string;
  er_direction : LedgerDirection; er_amountMinor : Z; er_currency : string; er_memo : option string; er_postedAt : Z }.
#[export] Instance JournalRow_eq_dec : EqDecision JournalRow.
Proof. solve_decision. Defined.
#[export] Instance LedgerEntryRow_eq_dec : EqDecision LedgerEntryRow.
Proof. solve_decision. Defined.

Definition direction_name (d : LedgerDirection) : string := match d with debit => "debit" | credit => "credit" end.

(** [parseInt(c, 16)], zero for what is not a digit, and [toString(16)] of one digit. *)
Definition hex_value (c : Ascii.ascii) : Z :=
  let n := Z.of_nat (Ascii.nat_of_ascii c) in
  if (48 <=? n) && (n <=? 57) then n - 48 else if (97 <=? n) && (n <=? 102) then n - 87
  else if (65 <=? n) && (n <=? 70) then n - 55 else 0.
Definition hex_digit (n : Z) : string :=
  String (Ascii.ascii_of_nat (Z.to_nat (if n <? 10 then 48 + n else 87 + n))) EmptyString.
(** [s.slice(a, b)] *)
Definition slice (a b : nat) (s : string) : string := String.substring a (b - a) s.

Section finance.
(** [createHash("sha1").update(input).digest("hex")], of node's crypto library. *)
Context (sha1_hex : string -> string).

Definition deterministicUuid (input : string) : string :=
  let hex := slice 0 32 (sha1_hex input) in
  let timeLow := slice 0 8 hex in
  let timeMid := slice 8 12 hex in
  let timeHiAndVersion := "5" +:+ slice 13 16 hex in
  let nibble := match String.get 16 hex with Some c => hex_value c | None => 0 end in
  let variantNibble := hex_digit (Z.lor (Z.land nibble 3) 8) in
  let clockSeq := variantNibble +:+ slice 17 20 hex in
  let node := slice 20 32 hex in
  timeLow +:+ "-" +:+ timeMid +:+ "-" +:+ timeHiAndVersion +:+ "-" +:+ clockSeq +:+ "-" +:+ node.

Definition journalToRow (tenantId : string) (j : Journal) : JournalRow :=
  mkJournalRow (agg_id j) tenantId (jr_sourceRef (agg_props j)) (jr_currency (agg_props j)) (jr_reversalOf (agg_props j)) (jr_postedAt (agg_props j)).

Definition entry_id (journalId accountRef : string) (d : LedgerDirection) : string :=
  deterministicUuid (journalId +:+ ":" +:+ accountRef +:+ ":" +:+ direction_name d).
Definition row_of_entry (tenantId journalId : string) (e : LedgerEntry) : LedgerEntryRow :=
  mkEntryRow (entry_id journalId (le_accountRef e) (le_direction e)) tenantId journalId (le_sourceRef e) (le_accountRef e)
    (le_direction e) (amountMinor (le_amount e)) (currency (le_amount e)) (le_memo e) (le_postedAt e).
Definition ledgerEntryRows (tenantId : string) (j : Journal) : list LedgerEntryRow :=
  match toLedgerEntries j with
  | Ok entries => row_of_entry tenantId (agg_id j) <$> entries
  | Err _ => []
  end.

(** [must] *)
Definition must {A} (r : result A) (what : string) : result A :=
  match r with
  | Ok a => Ok a
  | Err _ => Err (UnexpectedError ("Corrupt finance row: invalid " +:+ what))
  end.
Definition ledgerEntryToDomain (row : LedgerEntryRow) : result LedgerEntry :=
  amount ← must (Money.create (NInt (er_amountMinor row)) (er_currency row)) "ledger entry amount";
  Ok (mkEntry (er_journalId row) (er_sourceRef row) (er_accountRef row) (er_direction row) amount (er_memo row) (er_postedAt row)).

(** ** The store ([infrastructure/prisma-finance-repositories.ts]) *)

Record AuditEntry := mkAudit { au_principal : string; au_permission : string; au_allow : bool; au_occurredAt : Z; au_action : string }.

(** What [FinanceProjectionService] writes ([read-models]). *)
Inductive ReadModel :=
| rm_profit (revenueMinor cogsMinor expensesMinor grossProfitMinor netProfitMinor : Z)
| rm_margin (revenueMinor cogsMinor : Z)
| rm_health (assetsMinor liabilitiesMinor equityMinor netIncomeMinor : Z) (solvent : bool).

Record LedgerStore := mkStore {
  ls_journals : list JournalRow; ls_entries : list LedgerEntryRow; ls_outbox : list (string * (EventMeta * LedgerPosted));
  ls_audit : list AuditEntry; ls_models : gmap (string * string * string) ReadModel }.
Abbreviation LedgerM := (M LedgerStore).
Definition empty_store : LedgerStore := mkStore [] [] [] [] ∅.

(** [createMany] with [skipDuplicates]: a row whose primary key is present is skipped. *)
Definition insert_entry (rows : list LedgerEntryRow) (r : LedgerEntryRow) : list LedgerEntryRow :=
  if bool_decide (er_id r ∈ er_id <$> rows) then rows else rows ++ [r].
Definition appended (tenantId : string) (j : Journal) (s : LedgerStore) : LedgerStore :=
  mkStore (ls_journals s ++ [journalToRow tenantId j]) (foldl insert_entry (ls_entries s) (ledgerEntryRows tenantId j))
    (ls_outbox s ++ (pair tenantId <$> agg_events j)) (ls_audit s) (ls_models s).

Definition append (tenantId : string) (j : Journal) : LedgerM unit :=
  s ← gets (fun s => s);
  throw_if (bool_decide (agg_id j ∈ jw_id <$> ls_journals s)) (UnexpectedError "Unique constraint failed on the fields: (`id`)");;
  modify (appended tenantId j).

Definition findByPeriod (startDate endDate : Z) (tenantId : string) : LedgerM (list LedgerEntry) :=
  rows ← gets ls_entries;
  lift (map_results ledgerEntryToDomain
    (filter (fun r => er_tenantId r = tenantId /\ startDate <= er_postedAt r <= endDate) rows)).

(** ** Consumers ([interfaces/finance-consumers.ts]) *)

(** The ids and times a consumer is given while it handles a message: the journal's id and the event's. *)
Record FinanceConsumerDeps := mkDeps {
  fd_postingAccounts : PostingAccounts; fd_journalId : string -> string; fd_eventId : string -> string; fd_now : string -> Z }.
Context (deps : FinanceConsumerDeps).
Abbreviation accounts := (fd_postingAccounts deps).

Definition requireEnvelopeTenant {P} (ev : IntegrationEvent P) (consumer : string) : result string :=
  if blank (ev_tenantId P ev)
  then Err (UnexpectedError (consumer +:+ ": message " +:+ ev_messageId ev +:+ " carries no tenantId on its envelope"))
  else Ok (ev_tenantId P ev).

Definition postAndAppend {P} (build : string -> result Journal) (ev : IntegrationEvent P) : LedgerM unit :=
  tenantId ← lift (requireEnvelopeTenant ev "Finance consumer");
  j ← lift (build (fd_journalId deps (ev_messageId ev)));
  let '(r, posted) := post (fd_eventId deps (ev_messageId ev)) (fd_now deps (ev_messageId ev)) j in
  _ ← lift r;
  append tenantId posted.

(** [{ orderRef | returnRef | spendRef, amountMinor, currency }] *)
Record MoneyPayload := mkMoneyPayload { mp_ref : string; mp_amountMinor : jsnum; mp_currency : string }.

Definition post_template (template : string -> string -> PostingAccounts -> Money -> result Journal)
    (ev : IntegrationEvent MoneyPayload) : LedgerM unit :=
  amount ← lift (Money.create (mp_amountMinor (ev_payload ev)) (mp_currency (ev_payload ev)));
  postAndAppend (fun id => template id (mp_ref (ev_payload ev)) accounts amount) ev.

Definition OrdersPaidConsumer : IntegrationEvent MoneyPayload -> LedgerM unit := post_template forSale.
Definition PaymentsCapturedConsumer : IntegrationEvent MoneyPayload -> LedgerM unit := post_template forFee.
Definition RefundsIssuedConsumer : IntegrationEvent MoneyPayload -> LedgerM unit := post_template forRefund.
Definition ReturnsAcceptedConsumer : IntegrationEvent MoneyPayload -> LedgerM unit := post_template forRefund.
Definition MarketingSpendRecordedConsumer : IntegrationEvent MoneyPayload -> LedgerM unit := post_template forExpense.

Record InventoryPayload := mkInventoryPayload { ip_itemRef : string; ip_deltaMinor : Z; ip_currency : string }.
Definition InventoryAdjustedConsumer (ev : IntegrationEvent InventoryPayload) : LedgerM unit :=
  if bool_decide (ip_deltaMinor (ev_payload ev) <= 0) then mret tt
  else
    amount ← lift (Money.create (NInt (ip_deltaMinor (ev_payload ev))) (ip_currency (ev_payload ev)));
    postAndAppend (fun id => forCogs id (ip_itemRef (ev_payload ev)) accounts amount) ev.

(** ** What the runtime registers ([apps/runtime/src/consumers]) *)

Record OrderPaidPayload := mkOrderPaid {
  op_orderNumber : string; op_customerRef : string; op_paymentRef : string; op_currency : string; op_totalAmountMinor : jsnum }.

Definition with_payload {P Q} (ev : IntegrationEvent P) (tenantId : string) (q : Q) : IntegrationEvent Q :=
  mkEvent (ev_messageId ev) tenantId q.

Definition paid_handleAtomic (ev : IntegrationEvent OrderPaidPayload) : LedgerM unit :=
  tenantId ← lift (requireEnvelopeTenant ev "FinanceOrdersPaidConsumer");
  let p := ev_payload ev in
  OrdersPaidConsumer (with_payload ev tenantId (mkMoneyPayload (op_orderNumber p) (op_totalAmountMinor p) (op_currency p))).
Definition FinanceOrdersPaidConsumer : EventHandler OrderPaidPayload LedgerStore :=
  mkHandler _ _ "orders.order.paid.v1"
    (fun _ => throw (UnexpectedError "FinanceOrdersPaidConsumer requires the atomic path"))
    (Some paid_handleAtomic).

Definition settlement_consumer (topic : string) (inner : IntegrationEvent MoneyPayload -> LedgerM unit) : EventHandler MoneyPayload LedgerStore :=
  mkHandler _ _ topic
    (fun _ => throw (UnexpectedError "requires the atomic path"))
    (Some (fun ev =>
      tenantId ← lift (requireEnvelopeTenant ev topic);
      inner (with_payload ev tenantId (ev_payload ev)))).
Definition FinancePaymentsCapturedConsumer := settlement_consumer "payments.payment_intent.captured.v1" PaymentsCapturedConsumer.
Definition FinanceRefundsIssuedConsumer := settlement_consumer "payments.payment_intent.refunded.v1" RefundsIssuedConsumer.

(** ** Commands and queries ([application]) *)

(** The Security port: what it answers for a principal. *)
Record SecurityPort := mkSecurity { sp_authorize : string -> string -> bool; sp_hasSteppedUp : string -> bool }.
Context (security : SecurityPort).

Definition add_audit (e : AuditEntry) (s : LedgerStore) : LedgerStore :=
  mkStore (ls_journals s) (ls_entries s) (ls_outbox s) (ls_audit s ++ [e]) (ls_models s).

Definition authorize (principal permission : string) (now : Z) (action : string) (requireStepUp : bool) : LedgerM unit :=
  let allowed := sp_authorize security principal permission in
  let steppedUp := negb requireStepUp || sp_hasSteppedUp security principal in
  modify (add_audit (mkAudit principal permission (allowed && steppedUp) now action));;
  throw_if (negb (allowed && steppedUp))
    (AuthorizationError (if negb allowed then "Principal lacks permission " +:+ quoted permission else "Step-up authentication required")).

Record AdjustmentInput := mkAdjustment {
  ai_principal : string; ai_tenantId : string; ai_sourceRef : string; ai_debitAccountRef : string; ai_creditAccountRef : string;
  ai_amountMinor : jsnum; ai_currency : string; ai_memo : option string }.

Definition RecordManualAdjustment (x : AdjustmentInput) (id eid : string) (now : Z) : LedgerM unit :=
  authorize (ai_principal x) "finance:manage" now "RecordManualAdjustment" true;;
  amount ← lift (Money.create (ai_amountMinor x) (ai_currency x));
  j ← lift (journal_create id (ai_sourceRef x) (ai_currency x)
    [mkLine (ai_debitAccountRef x) debit amount (ai_memo x); mkLine (ai_creditAccountRef x) credit amount (ai_memo x)]);
  let '(r, posted) := post eid now j in
  _ ← lift r;
  append (ai_tenantId x) posted.

Record PeriodQueryInput := mkPeriodQuery {
  pq_principal : string; pq_tenantId : string; pq_startDate : Z; pq_endDate : Z; pq_currency : string }.

Definition TrialBalanceQuery (x : PeriodQueryInput) (now : Z) : LedgerM (list TrialBalanceRow) :=
  authorize (pq_principal x) "finance:read" now "TrialBalanceQuery" false;;
  entries ← findByPeriod (pq_startDate x) (pq_endDate x) (pq_tenantId x);
  mret (trialBalance entries).

(** The accounts of the chart that have entries; the chart of the tenant is given. *)
Definition accounts_of (chart : list Account) (entries : list LedgerEntry) : list Account :=
  filter (fun a => ac_code a ∈ (le_accountRef <$> entries)) chart.

Definition IncomeStatementQuery (chart : list Account) (x : PeriodQueryInput) (now : Z) : LedgerM IncomeStatement :=
  authorize (pq_principal x) "finance:read" now "IncomeStatementQuery" false;;
  entries ← findByPeriod (pq_startDate x) (pq_endDate x) (pq_tenantId x);
  lift (incomeStatement entries (accounts_of chart entries) (pq_currency x)).

Definition BalanceSheetQuery (chart : list Account) (x : PeriodQueryInput) (now : Z) : LedgerM BalanceSheet :=
  authorize (pq_principal x) "finance:read" now "BalanceSheetQuery" false;;
  entries ← findByPeriod (pq_startDate x) (pq_endDate x) (pq_tenantId x);
  income ← lift (incomeStatement entries (accounts_of chart entries) (pq_currency x));
  lift (balanceSheet entries (accounts_of chart entries) (is_netIncome income) (pq_currency x)).

(** ** Projections ([read-models], [application/finance-projection.service.ts]) *)

Definition projectProfit (st : IncomeStatement) : ReadModel :=
  rm_profit (bl_amountMinor (is_revenue st)) (bl_amountMinor (is_cogs st)) (bl_amountMinor (is_expenses st))
    (bl_amountMinor (is_revenue st) - bl_amountMinor (is_cogs st)) (bl_amountMinor (is_netIncome st)).
Definition projectMargin (revenueMinor cogsMinor : Z) : ReadModel := rm_margin revenueMinor cogsMinor.
Definition projectFinancialHealth (sheet : BalanceSheet) (netIncomeMinor : Z) : result ReadModel :=
  if bool_decide (bl_amountMinor (bs_assets sheet) < 0) then Err (BusinessRuleError "Assets balance must not be negative")
  else Ok (rm_health (bl_amountMinor (bs_assets sheet)) (bl_amountMinor (bs_liabilities sheet)) (bl_amountMinor (bs_equity sheet))
    netIncomeMinor (bool_decide (bl_amountMinor (bs_liabilities sheet) <= bl_amountMinor (bs_assets sheet)))).

Definition put (model key tenantId : string) (v : ReadModel) : LedgerM unit :=
  modify (fun s => mkStore (ls_journals s) (ls_entries s) (ls_outbox s) (ls_audit s) (<[(tenantId, model, key) := v]> (ls_models s))).

Definition rebuild (chart : list Account) (tenantId period : string) (startDate endDate : Z) (cur : string) : LedgerM unit :=
  entries ← findByPeriod startDate endDate tenantId;
  let own := accounts_of chart entries in
  income ← lift (incomeStatement entries own cur);
  sheet ← lift (balanceSheet entries own (is_netIncome income) cur);
  let profit := projectProfit income in
  let margin := projectMargin (bl_amountMinor (is_revenue income)) (bl_amountMinor (is_cogs income)) in
  health ← lift (projectFinancialHealth sheet (bl_amountMinor (is_netIncome income)));
  put "profit" period tenantId profit;;
  put "margin" period tenantId margin;;
  put "financial_health" period tenantId health.

(** ** Everything that writes the books, each consumer in the transaction its runtime opens *)

Inductive FinanceOp :=
| fo_paid (ev : IntegrationEvent OrderPaidPayload)
| fo_captured (ev : IntegrationEvent MoneyPayload)
| fo_refunded (ev : IntegrationEvent MoneyPayload)
| fo_returned (ev : IntegrationEvent MoneyPayload)
| fo_spent (ev : IntegrationEvent MoneyPayload)
| fo_stocked (ev : IntegrationEvent InventoryPayload)
| fo_adjust (x : AdjustmentInput) (id eid : string) (now : Z)
| fo_rebuild (chart : list Account) (tenantId period : string) (startDate endDate : Z) (cur : string).

Definition in_tx (m : LedgerM unit) : LedgerM unit := fun s =>
  match m s with (Ok u, s') => (Ok u, s') | (Err e, _) => (Err e, s) end.
Definition run_handler {P} (h : EventHandler P LedgerStore) (ev : IntegrationEvent P) : LedgerM unit :=
  match eh_handleAtomic h with Some f => in_tx (f ev) | None => eh_handle h ev end.

Definition finance_exec (op : FinanceOp) : LedgerM unit :=
  match op with
  | fo_paid ev => run_handler FinanceOrdersPaidConsumer ev
  | fo_captured ev => run_handler FinancePaymentsCapturedConsumer ev
  | fo_refunded ev => run_handler FinanceRefundsIssuedConsumer ev
  | fo_returned ev => in_tx (ReturnsAcceptedConsumer ev)
  | fo_spent ev => in_tx (MarketingSpendRecordedConsumer ev)
  | fo_stocked ev => in_tx (InventoryAdjustedConsumer ev)
  | fo_adjust x id eid now => RecordManualAdjustment x id eid now
  | fo_rebuild chart t p a b cur => rebuild chart t p a b cur
  end.
(** A failing call leaves what it wrote, and the next one comes. *)
Definition serve (ops : list FinanceOp) (s : LedgerStore) : LedgerStore := foldl (fun s op => snd (finance_exec op s)) s ops.

(** ** The invariant: the rows are those of posted, balanced journals *)

(** The journal ids and the accounts in use, and that the ids derived from them do not collide. *)
Context (J : string -> Prop) (A : list string).
Definition no_collision : Prop :=
  forall j j' a a' d d', J j -> J j' -> a ∈ A -> a' ∈ A -> entry_id j a d = entry_id j' a' d' -> j = j' /\ a = a' /\ d = d'.
Hypothesis Hids : no_collision.

Definition key_of (l : JournalLine) : string * LedgerDirection := (ln_accountRef l, ln_direction l).
Definition posted_ok (j : Journal) : Prop :=
  J (agg_id j) /\ is_Some (jr_postedAt (agg_props j)) /\ balanced_lines (jr_currency (agg_props j)) (jr_lines (agg_props j)) /\
  NoDup (key_of <$> jr_lines (agg_props j)) /\
  forall l, l ∈ jr_lines (agg_props j) -> ln_accountRef l ∈ A /\ valid (ln_amount l).

Definition rows_of (js : list (string * Journal)) : list LedgerEntryRow := js ≫= (fun tj => ledgerEntryRows tj.1 tj.2).
Definition books (js : list (string * Journal)) (s : LedgerStore) : Prop :=
  ls_journals s = (fun tj => journalToRow tj.1 tj.2) <$> js /\ ls_entries s = rows_of js /\
  Forall (fun tj => posted_ok tj.2) js /\ NoDup (agg_id <$> js.*2).

Definition postedAt (j : Journal) : Z := default 0 (jr_postedAt (agg_props j)).
Definition row_of_line (tenantId : string) (j : Journal) (l : JournalLine) : LedgerEntryRow :=
  row_of_entry tenantId (agg_id j) (entry_of j (postedAt j) l).

Lemma ledgerEntryRows_posted t j : posted_ok j -> ledgerEntryRows t j = row_of_line t j <$> jr_lines (agg_props j).
Proof.
  intros (_ & [at_ Ht] & _). unfold ledgerEntryRows, toLedgerEntries, row_of_line, postedAt. rewrite Ht.
  by rewrite <- list_fmap_compose.
Qed.

Lemma row_ids_elem t j i :
  posted_ok j -> i ∈ er_id <$> ledgerEntryRows t j -> exists a d, a ∈ A /\ i = entry_id (agg_id j) a d.
Proof.
  intros Hj. rewrite ledgerEntryRows_posted by done. rewrite <- list_fmap_compose.
  intros (l & -> & Hl)%list_elem_of_fmap. exists (ln_accountRef l), (ln_direction l). split; [|done]. by apply Hj.
Qed.

Lemma row_ids_NoDup t j : posted_ok j -> NoDup (er_id <$> ledgerEntryRows t j).
Proof.
  intros Hj. rewrite ledgerEntryRows_posted by done. rewrite <- list_fmap_compose.
  destruct Hj as (HJ & _ & _ & Hn & Hl). induction (jr_lines (agg_props j)) as [|l ls IH]; [constructor|].
  cbn in *. apply NoDup_cons in Hn as [Hk Hn]. constructor.
  - intros (l' & Hi & Hin)%list_elem_of_fmap. cbn in Hi.
    destruct (Hids (agg_id j) (agg_id j) (ln_accountRef l) (ln_accountRef l') (ln_direction l) (ln_direction l')) as (_ & Ha & Hd);
      [done..|apply Hl; left|apply Hl; by right|done|].
    apply Hk, list_elem_of_fmap. exists l'. split; [|done]. unfold key_of. by rewrite Ha, Hd.
  - apply IH; [done|]. intros l' Hl'. apply Hl. by right.
Qed.

Lemma insert_fresh rows new :
  NoDup (er_id <$> new) -> (forall i, i ∈ er_id <$> new -> i ∉ er_id <$> rows) -> foldl insert_entry rows new = rows ++ new.
Proof.
  revert rows. induction new as [|r new IH]; intros rows Hn Hf; cbn; [by rewrite app_nil_r|].
  apply NoDup_cons in Hn as [Hr Hn]. unfold insert_entry at 2. rewrite bool_decide_false by (apply Hf; left).
  rewrite IH; [by rewrite <- app_assoc|done|]. intros i Hi. rewrite fmap_app. cbn. rewrite elem_of_app, list_elem_of_singleton.
  intros [Hi'| ->]; [by apply (Hf i); [right|]|done].
Qed.

Lemma append_Ok t j s u s' :
  append t j s = (Ok u, s') <-> (agg_id j ∉ jw_id <$> ls_journals s) /\ s' = appended t j s.
Proof.
  unfold append, gets, throw_if, modify, mbind, M_bind. destruct u. case_bool_decide; naive_solver.
Qed.

Lemma append_books js s t j u s' :
  books js s -> posted_ok j -> append t j s = (Ok u, s') -> books (js ++ [(t, j)]) s'.
Proof.
  intros (HJ & He & Hf & Hn) Hj [Hid ->]%append_Ok.
  assert (Hid' : agg_id j ∉ agg_id <$> js.*2).
  { rewrite HJ, <- list_fmap_compose in Hid. by rewrite <- list_fmap_compose. }
  unfold books, rows_of. cbn. rewrite HJ, fmap_app, bind_app, He. split_and!.
  - done.
  - rewrite insert_fresh; [cbn; by rewrite app_nil_r|by apply row_ids_NoDup|].
    intros i (a & d & Ha & ->)%row_ids_elem Hi; [|done].
    unfold rows_of in Hi. apply list_elem_of_fmap in Hi as (r & Hr & ([t' j'] & Hr' & Hin)%list_elem_of_bind). cbn in Hr'.
    assert (Hj' := proj1 (Forall_forall _ _) Hf _ Hin). cbn in Hj'.
    destruct (row_ids_elem t' j' (er_id r) Hj') as (a' & d' & Ha' & Hr2); [by apply list_elem_of_fmap_2|].
    rewrite Hr2 in Hr. destruct (Hids _ _ _ _ _ _ (proj1 Hj) (proj1 Hj') Ha Ha' Hr) as [Heq _].
    apply Hid'. rewrite Heq. apply list_elem_of_fmap. exists j'. split; [done|]. by apply (list_elem_of_fmap_2 snd) in Hin.
  - apply Forall_app. split; [done|]. by constructor.
  - rewrite !fmap_app. apply NoDup_app. split; [done|]. split; [|apply NoDup_singleton].
    by intros i Hi ->%list_elem_of_singleton.
Qed.

(** ** Each operation posts at most one journal *)

Definition posting_refs : list string :=
  [pa_revenue accounts; pa_receivable accounts; pa_cogs accounts; pa_inventory accounts;
   pa_refundContra accounts; pa_expense accounts; pa_cash accounts; pa_fees accounts].
Hypothesis Hposting : posting_refs ⊆ A.

Definition op_in (op : FinanceOp) : Prop :=
  match op with
  | fo_paid ev => J (fd_journalId deps (ev_messageId ev))
  | fo_captured ev | fo_refunded ev | fo_returned ev | fo_spent ev => J (fd_journalId deps (ev_messageId ev))
  | fo_stocked ev => J (fd_journalId deps (ev_messageId ev))
  | fo_adjust x id _ _ => J id /\ ai_debitAccountRef x ∈ A /\ ai_creditAccountRef x ∈ A
  | fo_rebuild _ _ _ _ _ _ => True
  end.

Definition same_books (s s' : LedgerStore) : Prop := ls_journals s' = ls_journals s /\ ls_entries s' = ls_entries s.
Definition posts (K : Journal -> Prop) (s s' : LedgerStore) : Prop :=
  exists t j s0, same_books s s0 /\ append t j s0 = (Ok tt, s') /\ posted_ok j /\ K j.
Definition any_journal (_ : Journal) : Prop := True.

Lemma posts_mono (K K' : Journal -> Prop) s s' : (forall j, K j -> K' j) -> posts K s s' -> posts K' s s'.
Proof. intros HK (t & j & s0 & H1 & H2 & H3 & H4). exists t, j, s0. auto. Qed.
Lemma posts_any K s s' : posts K s s' -> posts any_journal s s'.
Proof. by apply posts_mono. Qed.

Lemma posted_two_lines id eid t src a b cur amount memo :
  J id -> a ∈ A -> b ∈ A -> valid amount -> currency amount = cur ->
  posted_ok (posted_journal (new_agg (mkJournal src cur [mkLine a debit amount memo; mkLine b credit amount memo] None None) id) eid t).
Proof.
  intros HJ Ha Hb Hv <-. unfold posted_ok, balanced_lines. cbn. split_and!; try done; try lia.
  - by intros l [->|[->|[]%elem_of_nil]%elem_of_cons]%elem_of_cons.
  - unfold line_signed, minor_of. autorewrite with sums. cbn. lia.
  - unfold key_of. cbn. apply NoDup_cons. split; [by intros [= ?]%list_elem_of_singleton|]. apply NoDup_singleton.
  - by intros l [->|[->|[]%elem_of_nil]%elem_of_cons]%elem_of_cons.
Qed.

Lemma two_lines_create id src cur a b amount memo :
  currency amount = cur ->
  journal_create id src cur [mkLine a debit amount memo; mkLine b credit amount memo] =
    Ok (new_agg (mkJournal src cur [mkLine a debit amount memo; mkLine b credit amount memo] None None) id).
Proof.
  intros <-. apply journal_create_Ok. split; [|done]. unfold balanced_lines. cbn. split_and!; [lia| |].
  - by intros l [->|[->|[]%elem_of_nil]%elem_of_cons]%elem_of_cons.
  - unfold line_signed, minor_of. autorewrite with sums. cbn. lia.
Qed.

(** A template debits one of the posting accounts and credits another. *)
Definition is_template (f : string -> string -> PostingAccounts -> Money -> result Journal) : Prop :=
  exists a b memo, a ∈ posting_refs /\ b ∈ posting_refs /\ forall id src m, f id src accounts m = two_lines id src a b m memo.

(** The journal a template posts. *)
Definition made_by (f : string -> string -> PostingAccounts -> Money -> result Journal) (j : Journal) : Prop :=
  exists id src m j0 eid t, f id src accounts m = Ok j0 /\ j = posted_journal j0 eid t /\ valid m.

Lemma postAndAppend_Ok {P} f src (ev : IntegrationEvent P) amount s s' :
  is_template f -> J (fd_journalId deps (ev_messageId ev)) -> valid amount ->
  postAndAppend (fun id => f id src accounts amount) ev s = (Ok tt, s') -> posts (made_by f) s s'.
Proof.
  intros (a & b & memo & Ha & Hb & Hf) HJ Hv H. unfold postAndAppend in H. minv.
  assert (Hmade := Hcall0). rewrite Hf in Hcall0. unfold two_lines in Hcall0. rewrite two_lines_create in Hcall0 by done.
  injection Hcall0 as <-. rewrite post_unposted in H by done. minv.
  eexists _, _, _. split; [by split|]. split; [exact H|]. split; [apply posted_two_lines; auto|].
  eexists _, _, _, _, _, _. split; [exact Hmade|]. done.
Qed.

Lemma post_template_Ok f ev s s' :
  is_template f -> J (fd_journalId deps (ev_messageId ev)) -> post_template f ev s = (Ok tt, s') -> posts (made_by f) s s'.
Proof.
  intros Hf HJ H. unfold post_template in H. minv. apply MoneyLaws.create_Ok in Hcall as (_ & _ & Hv).
  by eapply postAndAppend_Ok.
Qed.

Lemma templates :
  is_template forSale /\ is_template forFee /\ is_template forRefund /\ is_template forExpense /\ is_template forCogs.
Proof.
  unfold is_template, posting_refs.
  split_and!; eexists _, _, _; (split; [|split; [|intros id src m; reflexivity]]); repeat (by left) || right; set_solver.
Qed.

Lemma in_tx_cases (m : LedgerM unit) s s' :
  snd (in_tx m s) = s' -> s' = s \/ m s = (Ok tt, s').
Proof. unfold in_tx. destruct (m s) as [[[]|e] s1]; cbn; intros <-; [by right|by left]. Qed.

Lemma rebuild_keeps chart t p a b cur s : same_books s (snd (rebuild chart t p a b cur s)).
Proof.
  unfold rebuild, findByPeriod, gets, lift, put, modify, mbind, M_bind.
  repeat (cbn; match goal with |- context [match ?x with Ok _ => _ | Err _ => _ end] => destruct x end); done.
Qed.

Lemma authorize_spec principal permission now action step s :
  exists r au, authorize principal permission now action step s = (r, add_audit au s) /\
    (isOk r = sp_authorize security principal permission && (negb step || sp_hasSteppedUp security principal)).
Proof.
  unfold authorize, modify, throw_if, mbind, M_bind.
  destruct (sp_authorize _ _ _), (negb step || _); cbn; by eexists _, _.
Qed.

Lemma adjust_effect x id eid now s s' :
  J id /\ ai_debitAccountRef x ∈ A /\ ai_creditAccountRef x ∈ A ->
  snd (RecordManualAdjustment x id eid now s) = s' -> same_books s s' \/ posts any_journal s s'.
Proof.
  intros (HJ & Ha & Hb) <-. unfold RecordManualAdjustment.
  destruct (authorize_spec (ai_principal x) "finance:manage" now "RecordManualAdjustment" true s) as (r & au & Hau & _).
  unfold lift, mbind, M_bind. rewrite Hau. destruct r as [u|e]; [|by left].
  destruct (Money.create (ai_amountMinor x) (ai_currency x)) as [m|e] eqn:Hm; [|by left].
  apply MoneyLaws.create_Ok in Hm as (_ & Hc & Hv). rewrite two_lines_create by done. rewrite post_unposted by done.
  destruct (append _ _ (add_audit au s)) as [[[]|e] s'] eqn:Happ; cbn.
  - right. eexists _, _, (add_audit au s). split; [done|]. split; [exact Happ|]. split; [by apply posted_two_lines|done].
  - left. unfold append, gets, throw_if, modify, mbind, M_bind in Happ. case_bool_decide; by simplify_eq.
Qed.

(** The consumers the runtime registers, and what they post. *)
Definition wired (op : FinanceOp) : Prop :=
  match op with fo_paid _ | fo_captured _ | fo_refunded _ => True | _ => False end.
Definition settled (j : Journal) : Prop := made_by forSale j \/ made_by forFee j \/ made_by forRefund j.

Lemma wired_effect op s s' :
  op_in op -> wired op -> snd (finance_exec op s) = s' -> same_books s s' \/ posts settled s s'.
Proof.
  destruct templates as (H1 & H2 & H3 & _). intros Hop Hw Hs.
  destruct op as [ev|ev|ev|ev|ev|ev| |]; try done; cbn in Hop, Hs; apply in_tx_cases in Hs as [-> |H]; try (by left);
    right; [unfold paid_handleAtomic in H| |]; minv; apply post_template_Ok in H; try done;
    (eapply posts_mono; [|exact H]); unfold settled; auto.
Qed.

Lemma op_effect op s s' : op_in op -> snd (finance_exec op s) = s' -> same_books s s' \/ posts any_journal s s'.
Proof.
  destruct templates as (H1 & H2 & H3 & H4 & H5). intros Hop Hs.
  destruct op as [ev|ev|ev|ev|ev|ev|x id eid now|]; cbn in Hop.
  1,2,3: apply wired_effect in Hs as [Hs|Hs]; [by left|right; by eapply posts_any|done|done].
  1,2,3: cbn in Hs; apply in_tx_cases in Hs as [-> |H]; [by left|]; try (right; apply post_template_Ok in H; [by eapply posts_any|done|done]).
  - unfold InventoryAdjustedConsumer in H. case_bool_decide; minv; [by left|].
    right. apply MoneyLaws.create_Ok in Hcall as (_ & _ & Hv). apply postAndAppend_Ok in H; [by eapply posts_any|done..].
  - by apply (adjust_effect x id eid now).
  - left. subst. apply rebuild_keeps.
Qed.

Lemma books_same js s s' : books js s -> same_books s s' -> books js s'.
Proof. intros (H1 & H2 & H3) [E1 E2]. unfold books. by rewrite E1, E2. Qed.

(** Whatever the operations post, the books grow by journals of that kind. *)
Lemma serve_books (K : Journal -> Prop) ops js s :
  (forall op s s', op ∈ ops -> snd (finance_exec op s) = s' -> same_books s s' \/ posts K s s') ->
  books js s -> exists js', books (js ++ js') (serve ops s) /\ Forall (fun tj => K tj.2) js'.
Proof.
  intros Hops. revert js s. induction ops as [|op ops IH]; intros js s Hb; [by exists []; rewrite app_nil_r|].
  assert (H1 : exists js1, books (js ++ js1) (snd (finance_exec op s)) /\ Forall (fun tj => K tj.2) js1).
  { destruct (Hops op s _ (list_elem_of_here _ _) eq_refl) as [Hs|(t & j & s0 & Hs & Happ & Hj & HK)].
    - exists []. rewrite app_nil_r. split; [by eapply books_same|constructor].
    - exists [(t, j)]. split; [|by repeat constructor].
      eapply (append_books js s0); [by eapply books_same|exact Hj|exact Happ]. }
  destruct H1 as (js1 & Hb1 & HK1).
  destruct (IH (fun o s1 s2 Ho => Hops o s1 s2 (list_elem_of_further _ _ _ Ho)) _ _ Hb1) as (js2 & Hb2 & HK2).
  exists (js1 ++ js2). rewrite app_assoc. split; [exact Hb2|]. by apply Forall_app.
Qed.

Lemma empty_books : books [] empty_store.
Proof. split_and!; constructor. Qed.

Lemma served_books ops : Forall op_in ops -> exists js, books js (serve ops empty_store).
Proof.
  intros Hops. destruct (serve_books any_journal ops [] empty_store) as (js & Hb & _); [|apply empty_books|by exists js].
  intros op s s' Hop. apply op_effect. by eapply Forall_forall in Hops.
Qed.

(** ** Reading a period back *)

Definition journal_entries (j : Journal) : list LedgerEntry := entry_of j (postedAt j) <$> jr_lines (agg_props j).
Definition in_period (startDate endDate : Z) (t : string) (tj : string * Journal) : Prop :=
  tj.1 = t /\ startDate <= postedAt tj.2 <= endDate.
#[local] Instance in_period_dec a b t tj : Decision (in_period a b t tj).
Proof. unfold in_period. apply _. Defined.
Definition period_of (js : list (string * Journal)) (startDate endDate : Z) (t : string) : list LedgerEntry :=
  filter (in_period startDate endDate t) js ≫= (fun tj => journal_entries tj.2).

Lemma rows_to_entries t j :
  posted_ok j -> map_results ledgerEntryToDomain (ledgerEntryRows t j) = Ok (journal_entries j).
Proof.
  intros Hj. rewrite ledgerEntryRows_posted by done. unfold journal_entries.
  assert (Hv : forall l, l ∈ jr_lines (agg_props j) -> valid (ln_amount l)) by (intros l Hl; by apply Hj).
  clear Hj. induction (jr_lines (agg_props j)) as [|l ls IH]; [done|].
  rewrite !fmap_cons. cbn [map_results].
  assert (Hl : ledgerEntryToDomain (row_of_line t j l) = Ok (entry_of j (postedAt j) l)).
  { unfold ledgerEntryToDomain. cbn. rewrite (proj2 (MoneyLaws.create_Ok (NInt (amountMinor (ln_amount l))) (currency (ln_amount l)) (ln_amount l))).
    - done.
    - split; [done|]. split; [done|]. apply Hv. left. }
  rewrite Hl. cbn [mbind result_bind]. rewrite IH; [done|]. intros l' Hl'. apply Hv. by right.
Qed.

Lemma period_rows js startDate endDate t :
  Forall (fun tj => posted_ok tj.2) js ->
  map_results ledgerEntryToDomain (filter (fun r => er_tenantId r = t /\ startDate <= er_postedAt r <= endDate) (rows_of js)) =
    Ok (period_of js startDate endDate t).
Proof.
  intros Hf. induction Hf as [|[t' j] js Hj Hf IH]; [done|]. unfold rows_of, period_of. rewrite bind_cons, filter_app, filter_cons.
  assert (Hrows : forall r, r ∈ ledgerEntryRows t' j -> er_tenantId r = t' /\ er_postedAt r = postedAt j).
  { intros r. rewrite ledgerEntryRows_posted by done. by intros (l & -> & _)%list_elem_of_fmap. }
  case_decide as Hp; unfold in_period in Hp; cbn [fst snd] in *.
  - rewrite bind_cons. apply map_results_app; [|done]. rewrite filter_all; [by apply rows_to_entries|].
    intros r Hr. destruct (Hrows r Hr) as [-> ->]. done.
  - rewrite filter_none; [done|]. intros r Hr. destruct (Hrows r Hr) as [-> ->]. done.
Qed.

Lemma findByPeriod_books js s startDate endDate t :
  books js s -> findByPeriod startDate endDate t s = (Ok (period_of js startDate endDate t), s).
Proof.
  intros (_ & He & Hf & _). unfold findByPeriod, gets, lift, mbind, M_bind. rewrite He. by rewrite period_rows.
Qed.

Lemma journal_entries_net j : posted_ok j -> net (journal_entries j) = 0.
Proof. intros (_ & _ & (_ & _ & Hz) & _). unfold net, journal_entries. by rewrite sumZ_map. Qed.

Lemma period_net js startDate endDate t : Forall (fun tj => posted_ok tj.2) js -> net (period_of js startDate endDate t) = 0.
Proof.
  intros Hf. unfold period_of. induction Hf as [|tj js Hj Hf IH]; [done|]. rewrite filter_cons. case_decide; [|done].
  rewrite bind_cons. unfold net in *. rewrite sumZ_app, IH. fold (net (journal_entries tj.2)). rewrite journal_entries_net by done. lia.
Qed.

(** ** The trial balance balances *)

Lemma rows_total entries :
  sumZ (fun r => tb_debitMinor r - tb_creditMinor r) (trialBalance entries) = net entries.
Proof.
  rewrite trialBalance_reference. unfold reference_rows. rewrite sumZ_map.
  rewrite (sumZ_ext _ (fun a => net_of a entries)) by (intros a _; apply reference_rows_net).
  rewrite net_of_accounts by apply NoDup_unique. unfold net. f_equal. apply filter_all.
  intros e He. by apply elem_of_unique, list_elem_of_fmap_2.
Qed.

Lemma rows_balance entries : net entries = 0 ->
  sumZ tb_debitMinor (trialBalance entries) = sumZ tb_creditMinor (trialBalance entries).
Proof.
  intros Hn. assert (H := rows_total entries).
  assert (forall l, sumZ (fun r => tb_debitMinor r - tb_creditMinor r) l = sumZ tb_debitMinor l - sumZ tb_creditMinor l).
  { intros l. induction l as [|r l IH]; [done|]. rewrite !sumZ_cons, IH. lia. }
  rewrite H0 in H. lia.
Qed.

(** C25: the ledger always balances. Whatever events the consumers receive and whatever adjustments are
    made, in any order and failing or not, the ledger rows are exactly the lines of the journals recorded,
    each posted and balanced, none lost or doubled; reading any period of any tenant succeeds, its entries
    are those of the journals posted in it, and its trial balance, one row per account with that account's
    totals, has equal debits and credits. *)
Theorem ledger_always_balances ops startDate endDate t :
  Forall op_in ops ->
  exists js entries, let s := serve ops empty_store in
    ls_journals s = (fun tj => journalToRow tj.1 tj.2) <$> js /\ ls_entries s = rows_of js /\
    Forall (fun tj => posted_ok tj.2) js /\ NoDup (agg_id <$> js.*2) /\
    findByPeriod startDate endDate t s = (Ok entries, s) /\
    entries = filter (in_period startDate endDate t) js ≫= (fun tj => journal_entries tj.2) /\
    trialBalance entries = reference_rows entries /\
    sumZ tb_debitMinor (trialBalance entries) = sumZ tb_creditMinor (trialBalance entries).
Proof.
  intros Hops. destruct (served_books ops Hops) as [js Hb].
  exists js, (period_of js startDate endDate t). assert (Hf := proj1 (proj2 (proj2 Hb))).
  split; [apply Hb|]. split; [apply Hb|]. split; [done|]. split; [apply Hb|]. split_and!.
  - by apply findByPeriod_books.
  - done.
  - apply trialBalance_reference.
  - apply rows_balance. by apply period_net.
Qed.

(** ** Statements of a period *)

Lemma accounts_of_codes chart entries e :
  e ∈ entries -> le_accountRef e ∈ (ac_code <$> accounts_of chart entries) <-> le_accountRef e ∈ (ac_code <$> chart).
Proof.
  intros He. rewrite !list_elem_of_fmap. setoid_rewrite list_elem_of_filter. split; [naive_solver|].
  intros (a & Ha & Hin). exists a. split; [done|]. split; [|done]. rewrite <- Ha. by apply list_elem_of_fmap_2.
Qed.

Lemma accounts_of_NoDup chart entries : NoDup (ac_code <$> chart) -> NoDup (ac_code <$> accounts_of chart entries).
Proof.
  unfold accounts_of. induction chart as [|a chart IH]; [done|]. rewrite fmap_cons, filter_cons. intros [Ha Hn]%NoDup_cons.
  case_decide; [|by apply IH]. rewrite fmap_cons. constructor; [|by apply IH].
  intros (b & Hb & [_ Hin]%list_elem_of_filter)%list_elem_of_fmap. apply Ha. rewrite Hb. by apply list_elem_of_fmap_2.
Qed.

Lemma uncovered_of chart entries : uncovered entries (accounts_of chart entries) = uncovered entries chart.
Proof. unfold uncovered. apply filter_iff_elem. intros e He. by rewrite accounts_of_codes. Qed.

(** The statements of a period agree with the ledger. For a reader who is allowed to, a period whose
    entries are in the currency asked for and a chart with distinct codes: the income statement is
    produced, with the net income its lines imply and costs of goods counted once; the balance sheet is
    produced exactly when the entries on accounts the chart does not have cancel out, and then assets are
    liabilities plus equity plus net income, each the sum of its accounts' entries. Reading changes nothing
    but the audit trail, which records it. *)
Theorem statements_agree_with_ledger ops chart x now entries :
  Forall op_in ops -> let s := serve ops empty_store in
  sp_authorize security (pq_principal x) "finance:read" = true ->
  NoDup (ac_code <$> chart) ->
  findByPeriod (pq_startDate x) (pq_endDate x) (pq_tenantId x) s = (Ok entries, s) ->
  in_currency (pq_currency x) entries ->
  exists income rI sI rB sB, let own := accounts_of chart entries in
    IncomeStatementQuery chart x now s = (rI, sI) /\ rI = Ok income /\
    income = income_of entries own (pq_currency x) /\
    bl_amountMinor (is_netIncome income) =
      bl_amountMinor (is_revenue income) - bl_amountMinor (is_cogs income) - bl_amountMinor (is_expenses income) /\
    BalanceSheetQuery chart x now s = (rB, sB) /\
    (isOk rB = true <-> net (uncovered entries chart) = 0) /\
    (forall sheet, rB = Ok sheet ->
      sheet = sheet_of entries own (pq_currency x) /\
      bl_amountMinor (bs_assets sheet) =
        bl_amountMinor (bs_liabilities sheet) + bl_amountMinor (bs_equity sheet) + bl_amountMinor (is_netIncome income)) /\
    same_books s sI /\ same_books s sB /\ length (ls_audit sB) = S (length (ls_audit s)).
Proof.
  intros Hops s Hsec Hn Hp Hc.
  destruct (served_books ops Hops) as [js Hb]. fold s in Hb.
  assert (H0 : net entries = 0).
  { rewrite (findByPeriod_books js) in Hp by done. injection Hp as <-. apply period_net. by apply Hb. }
  set (own := accounts_of chart entries). exists (income_of entries own (pq_currency x)).
  assert (Hq : forall action, exists au, authorize (pq_principal x) "finance:read" now action false s = (Ok tt, add_audit au s)).
  { intros action. destruct (authorize_spec (pq_principal x) "finance:read" now action false s) as (r & au & Hau & Hr).
    rewrite Hsec in Hr. destruct r as [[]|e]; [|done]. by exists au. }
  assert (Hp' : forall au, findByPeriod (pq_startDate x) (pq_endDate x) (pq_tenantId x) (add_audit au s) = (Ok entries, add_audit au s)).
  { intros au. rewrite (findByPeriod_books js) in Hp by done. injection Hp as <-. apply findByPeriod_books. exact Hb. }
  destruct (Hq "IncomeStatementQuery") as [au1 Hau1], (Hq "BalanceSheetQuery") as [au2 Hau2].
  assert (HI : IncomeStatementQuery chart x now s = (Ok (income_of entries own (pq_currency x)), add_audit au1 s)).
  { unfold IncomeStatementQuery, lift, mbind, M_bind. rewrite Hau1, Hp'. by rewrite incomeStatement_spec. }
  assert (HB : BalanceSheetQuery chart x now s =
    (balanceSheet entries own (is_netIncome (income_of entries own (pq_currency x))) (pq_currency x), add_audit au2 s)).
  { unfold BalanceSheetQuery, lift, mbind, M_bind. rewrite Hau2, Hp'. by rewrite incomeStatement_spec. }
  rewrite balanceSheet_spec in HB by (done || by apply accounts_of_NoDup). assert (Hu : uncovered entries own = uncovered entries chart) by apply uncovered_of. rewrite Hu in HB.
  eexists _, _, _, _. split; [exact HI|]. split; [done|]. split; [done|]. split; [done|]. split; [exact HB|].
  assert (Hs := net_by_type entries own). assert (Hcov := covered_and_uncovered entries own (accounts_of_NoDup _ _ Hn)). rewrite Hu in Hcov.
  split_and!; try done.
  - case_bool_decide; cbn; naive_solver.
  - intros sheet Hsh. case_bool_decide; simplify_eq. split; [done|]. cbn. lia.
  - cbn. rewrite length_app. cbn. lia.
Qed.

(** ** Paid orders *)

Definition paid_rows (ev : IntegrationEvent OrderPaidPayload) : list LedgerEntryRow :=
  let p := ev_payload ev in
  match op_totalAmountMinor p with
  | NInt total =>
      let row account d := mkEntryRow (entry_id (fd_journalId deps (ev_messageId ev)) account d) (ev_tenantId _ ev)
        (fd_journalId deps (ev_messageId ev)) (op_orderNumber p) account d total (op_currency p) (Some "sale")
        (fd_now deps (ev_messageId ev)) in
      [row (pa_receivable accounts) debit; row (pa_revenue accounts) credit]
  | NOther => []
  end.

Lemma paid_handled ev js s s' :
  books js s -> J (fd_journalId deps (ev_messageId ev)) -> paid_handleAtomic ev s = (Ok tt, s') ->
  exists j, books (js ++ [(ev_tenantId _ ev, j)]) s' /\ ledgerEntryRows (ev_tenantId _ ev) j = paid_rows ev.
Proof.
  intros Hb HJ H. unfold paid_handleAtomic, requireEnvelopeTenant, OrdersPaidConsumer, post_template, postAndAppend in H.
  minv. destruct (blank (ev_tenantId _ ev)) eqn:Ht; [done|]. minv.
  apply MoneyLaws.create_Ok in Hcall0 as (Hamt & Hcur & Hv). cbn in *.
  unfold requireEnvelopeTenant in Hcall1. cbn in Hcall1. rewrite Ht in Hcall1. injection Hcall1 as <-.
  unfold forSale, two_lines in Hcall2. rewrite two_lines_create in Hcall2 by done. injection Hcall2 as <-.
  rewrite post_unposted in H by done. minv.
  eexists. split.
  - eapply (append_books js s); [exact Hb| |exact H]. apply posted_two_lines; try done; apply Hposting; unfold posting_refs; set_solver.
  - unfold paid_rows. rewrite Hamt. cbn. unfold row_of_entry. cbn. by rewrite Hcur.
Qed.

Lemma paid_run log js s s' :
  (forall id, J (fd_journalId deps id)) -> books js s -> run_ops paid_handleAtomic log s = (Ok tt, s') ->
  exists js', books js' s' /\ ls_entries s' = ls_entries s ++ (log ≫= paid_rows).
Proof.
  intros HJ. revert js s. induction log as [|ev log IH]; intros js s Hb H; cbn in H.
  - apply ret_Ok in H as [_ ->]. exists js. by rewrite app_nil_r.
  - unfold mbind at 1, M_bind at 1 in H. destruct (paid_handleAtomic ev s) as [[[]|e] s1] eqn:H1; [|done].
    destruct (paid_handled ev js s s1 Hb (HJ _) H1) as (j & Hb1 & Hrows).
    destruct (IH _ _ Hb1 H) as (js' & Hb' & He). exists js'. split; [done|].
    rewrite He, bind_cons. destruct Hb as (_ & -> & _), Hb1 as (_ & -> & _).
    unfold rows_of at 1. rewrite bind_app, bind_cons. cbn [mbind list_bind fst snd]. rewrite app_nil_r, Hrows. by rewrite app_assoc.
Qed.

(** Every paid order reaches the ledger exactly once. Whatever deliveries of paid-order messages reach
    whatever workers, however they interleave, crash and are redelivered, the ledger rows are the
    receivable debit and the revenue credit of the order's total for each message recorded in the inbox,
    once each and in the order they were recorded, and nothing else. *)
Theorem paid_orders_are_booked_once deserialize w :
  (forall id, J (fd_journalId deps id)) ->
  rtc (wstep deserialize FinanceOrdersPaidConsumer true) (fresh_world empty_store) w ->
  exists log, NoDup (ev_messageId <$> log) /\ (forall id, id ∈ gs_processed (w_group w) <-> id ∈ ev_messageId <$> log) /\
    ls_entries (gs_domain (w_group w)) = log ≫= paid_rows /\
    forall startDate endDate t entries s', findByPeriod startDate endDate t (gs_domain (w_group w)) = (Ok entries, s') -> net entries = 0.
Proof.
  intros HJ Hw. destruct (atomic_runs_handled_once deserialize FinanceOrdersPaidConsumer true paid_handleAtomic empty_store w eq_refl Hw)
    as (log & Hn & Hr & Hp).
  destruct (paid_run log [] empty_store _ HJ empty_books Hr) as (js & Hb & He).
  exists log. split; [done|]. split; [done|]. split; [by rewrite He|].
  intros startDate endDate t entries s' H. rewrite (findByPeriod_books js) in H by done. injection H as <- _.
  apply period_net. by apply Hb.
Qed.

(** ** What a captured payment does to the books *)

Lemma net_of_two x a b m memo j :
  jr_lines (agg_props j) = [mkLine a debit m memo; mkLine b credit m memo] ->
  net_of x (journal_entries j) = (if bool_decide (a = x) then amountMinor m else 0) - (if bool_decide (b = x) then amountMinor m else 0).
Proof.
  intros Hl. unfold journal_entries. rewrite net_of_lines, Hl, !filter_cons. cbn [ln_accountRef].
  rewrite filter_nil. unfold line_signed, minor_of. do 2 (case_decide; [rewrite bool_decide_true by done|rewrite bool_decide_false by done]);
    autorewrite with sums; cbn; lia.
Qed.

Definition nets_settle (entries : list LedgerEntry) : Prop :=
  net_of (pa_cash accounts) entries = - net_of (pa_fees accounts) entries /\ 0 <= net_of (pa_fees accounts) entries /\
  net_of (pa_receivable accounts) entries + net_of (pa_revenue accounts) entries + net_of (pa_refundContra accounts) entries = 0.

Lemma settled_nets j : NoDup posting_refs -> settled j -> nets_settle (journal_entries j).
Proof.
  intros Hn Hj. assert (Hl : exists a b m memo, jr_lines (agg_props j) = [mkLine a debit m memo; mkLine b credit m memo] /\ valid m /\
    ((a, b) = (pa_receivable accounts, pa_revenue accounts) \/ (a, b) = (pa_fees accounts, pa_cash accounts) \/
     (a, b) = (pa_refundContra accounts, pa_receivable accounts))).
  { destruct Hj as [Hj|[Hj|Hj]]; destruct Hj as (id & src & m & j0 & eid & t & H & -> & Hv);
      unfold forSale, forFee, forRefund, two_lines in H; rewrite two_lines_create in H by done; injection H as <-;
      eexists _, _, m, _; (split; [reflexivity|]); auto. }
  destruct Hl as (a & b & m & memo & Hl & [Hv _] & Hab). unfold nets_settle. rewrite !(net_of_two _ a b m memo j Hl).
  unfold posting_refs in Hn. rewrite !NoDup_cons, !not_elem_of_cons in Hn. destruct_and! Hn.
  destruct Hab as [[= -> ->]|[[= -> ->]|[= -> ->]]]; repeat (case_bool_decide; try congruence); lia.
Qed.

(** A captured payment is never booked as money received. As the runtime wires Finance, capturing a
    payment books its whole amount as a fee paid out in cash: over any paid, captured and refunded events,
    in every period, the cash account goes down by exactly what the fees account goes up, never the other
    way, and the receivable of paid orders is settled by refunds alone. *)
Theorem captures_are_booked_as_fees ops startDate endDate t entries s' :
  Forall op_in ops -> Forall wired ops -> NoDup posting_refs ->
  findByPeriod startDate endDate t (serve ops empty_store) = (Ok entries, s') ->
  net_of (pa_cash accounts) entries = - net_of (pa_fees accounts) entries /\ 0 <= net_of (pa_fees accounts) entries /\
  net_of (pa_receivable accounts) entries + net_of (pa_revenue accounts) entries + net_of (pa_refundContra accounts) entries = 0.
Proof.
  intros Hops Hw Hn H. destruct (serve_books settled ops [] empty_store) as (js & Hb & HK); [|apply empty_books|].
  { intros op s s1 Hop. rewrite Forall_forall in Hops, Hw. apply wired_effect; auto. }
  rewrite (findByPeriod_books _ _ _ _ _ Hb) in H. injection H as <- _. cbn in Hb |- *. clear Hb Hops Hw.
  change (nets_settle (period_of js startDate endDate t)). unfold period_of.
  induction HK as [|tj js Hj HK IH]; [done|]. rewrite filter_cons. case_decide; [|done].
  rewrite bind_cons. unfold nets_settle in *. rewrite !net_of_app.
  assert (Hs := settled_nets tj.2 Hn Hj). unfold nets_settle in Hs. lia.
Qed.

End finance.

(** ** Witnesses *)

(** A shop's accounts, and a digest that tells the samples' keys apart. *)
Definition DEFAULT_FINANCE_POSTING_ACCOUNTS : PostingAccounts :=
  mkAccounts "4000-REVENUE" "1200-ACCOUNTS-RECEIVABLE" "5000-COGS" "1300-INVENTORY" "4900-REFUNDS" "6000-EXPENSES" "1000-CASH" "6100-FEES".
Fixpoint sample_digest (h : Z) (s : string) : Z :=
  match s with
  | EmptyString => h
  | String c s' => sample_digest ((h * 131 + Z.of_nat (Ascii.nat_of_ascii c)) mod 99999989) s'
  end.
Definition sample_sha1 (s : string) : string := pretty (sample_digest 7 s).
Definition sample_deps : FinanceConsumerDeps :=
  mkDeps DEFAULT_FINANCE_POSTING_ACCOUNTS (fun m => if bool_decide (m = "m1") then "j1" else if bool_decide (m = "m2") then "j2" else "j3")
    (fun m => "event-of-" +:+ m) (fun m => if bool_decide (m = "m1") then 10 else 20).
Definition sample_ids : list string := ["j1"; "j2"; "j3"].
Definition sample_refs : list string := posting_refs sample_deps.
Definition sample_J (j : string) : Prop := j ∈ sample_ids.
Definition sample_security : SecurityPort := mkSecurity (fun _ _ => true) (fun _ => true).

Definition triple_id (t : string * string * LedgerDirection) : string := entry_id sample_sha1 t.1.1 t.1.2 t.2.
Definition sample_triples : list (string * string * LedgerDirection) :=
  j ← sample_ids; a ← sample_refs; d ← [debit; credit]; [(j, a, d)].

Lemma sample_no_collision : no_collision sample_sha1 sample_J sample_refs.
Proof.
  assert (Hn : NoDup (triple_id <$> sample_triples)) by (apply (bool_decide_eq_true_1 _); vm_compute; reflexivity).
  assert (Hin : forall j a d, sample_J j -> a ∈ sample_refs -> (j, a, d) ∈ sample_triples).
  { intros j a d Hj Ha. unfold sample_triples. apply list_elem_of_bind. exists j. split; [|done].
    apply list_elem_of_bind. exists a. split; [|done]. apply list_elem_of_bind. exists d. split; [left|]. destruct d; set_solver. }
  intros j j' a a' d d' Hj Hj' Ha Ha' E.
  assert (H := NoDup_fmap_elem triple_id sample_triples _ _ Hn (Hin j a d Hj Ha) (Hin j' a' d' Hj' Ha') E). by simplify_eq.
Qed.

Definition sample_paid : IntegrationEvent OrderPaidPayload :=
  mkEvent "m1" "shop" (mkOrderPaid "order-1" "customer-1" "payment-1" "USD" (NInt 1000)).
Definition sample_captured : IntegrationEvent MoneyPayload := mkEvent "m2" "shop" (mkMoneyPayload "order-1" (NInt 1000) "USD").
Definition sample_refunded : IntegrationEvent MoneyPayload := mkEvent "m3" "shop" (mkMoneyPayload "order-1" (NInt 400) "USD").
Definition sample_ops : list FinanceOp := [fo_paid sample_paid; fo_captured sample_captured; fo_refunded sample_refunded].
Definition sample_store (ops : list FinanceOp) : LedgerStore := serve sample_sha1 sample_deps sample_security ops empty_store.

Lemma sample_ops_in : Forall (op_in sample_deps sample_J sample_refs) sample_ops.
Proof. unfold sample_ops. repeat constructor; unfold op_in, sample_J, sample_ids; vm_compute; set_solver. Qed.

Definition sample_chart : list Account :=
  [mkAccount "a1" "1000-CASH" "Cash" asset true; mkAccount "a2" "1200-ACCOUNTS-RECEIVABLE" "Receivable" asset true;
   mkAccount "a3" "4000-REVENUE" "Revenue" revenue true; mkAccount "a4" "4900-REFUNDS" "Refunds" revenue true;
   mkAccount "a5" "6100-FEES" "Fees" expense true].
Definition sample_entries : list LedgerEntry := unwrapOr (fst (findByPeriod 0 100 "shop" (sample_store sample_ops))) [].
Definition sample_query : PeriodQueryInput := mkPeriodQuery "u1" "shop" 0 100 "USD".

Lemma sample_read : findByPeriod 0 100 "shop" (sample_store sample_ops) = (Ok sample_entries, sample_store sample_ops).
Proof. vm_compute. reflexivity. Qed.

Lemma ledger_always_balances_witness :
  exists js entries, let s := sample_store sample_ops in
    ls_journals s = (fun tj => journalToRow tj.1 tj.2) <$> js /\ length js = 3%nat /\
    findByPeriod 0 100 "shop" s = (Ok entries, s) /\
    sumZ tb_debitMinor (trialBalance entries) = sumZ tb_creditMinor (trialBalance entries).
Proof.
  destruct (ledger_always_balances sample_sha1 sample_deps sample_security sample_J sample_refs sample_no_collision ltac:(done)
    sample_ops 0 100 "shop" sample_ops_in) as (js & entries & H1 & _ & _ & _ & H5 & _ & _ & H8).
  exists js, entries. split; [exact H1|]. split; [|by split].
  rewrite <- (length_fmap (fun tj => journalToRow tj.1 tj.2)), <- H1. vm_compute. reflexivity.
Defined.

Lemma statements_agree_with_ledger_witness :
  exists sheet s', BalanceSheetQuery sample_security sample_chart sample_query 5 (sample_store sample_ops) = (Ok sheet, s') /\
    bl_amountMinor (bs_assets sheet) = -400.
Proof.
  assert (Hn : NoDup (ac_code <$> sample_chart)) by (apply (bool_decide_eq_true_1 _); vm_compute; reflexivity).
  assert (Hc : in_currency "USD" sample_entries).
  { intros e He. assert (Hall : Forall (fun e => currency (le_amount e) = "USD") sample_entries)
      by (apply (bool_decide_eq_true_1 _); vm_compute; reflexivity). by eapply Forall_forall in Hall. }
  destruct (statements_agree_with_ledger sample_sha1 sample_deps sample_security sample_J sample_refs sample_no_collision ltac:(done)
    sample_ops sample_chart sample_query 5 sample_entries sample_ops_in eq_refl Hn sample_read Hc)
    as (income & rI & sI & rB & sB & _ & _ & _ & _ & HB & Hok & Hsh & _).
  destruct rB as [sheet|e].
  - exists sheet, sB. split; [exact HB|]. destruct (Hsh sheet eq_refl) as [-> _]. vm_compute. reflexivity.
  - exfalso. assert (Hu : net (uncovered sample_entries sample_chart) = 0) by (vm_compute; reflexivity). by apply Hok in Hu.
Defined.

Definition sample_deserialize_paid (_ : list Ascii.ascii) : result (IntegrationEvent OrderPaidPayload) := Ok sample_paid.

Lemma sample_world :
  rtc (wstep sample_deserialize_paid (FinanceOrdersPaidConsumer sample_sha1 sample_deps) true) (fresh_world empty_store)
    (mkWorld (mkGroup (sample_store [fo_paid sample_paid]) {["m1"]} [] []) ∅).
Proof.
  eapply rtc_l; [apply (ws_receive _ _ _ 0%nat sample_paid [] _ ∅); [done..|vm_compute; reflexivity]|].
  apply rtc_once. rewrite <- (delete_insert_id (M := gmap nat) ∅ 0%nat (d_checked sample_paid)) at 2 by done.
  eapply ws_atomic; [apply lookup_insert_eq|reflexivity|vm_compute; reflexivity].
Qed.

Lemma paid_orders_are_booked_once_witness :
  exists log, NoDup (ev_messageId <$> log) /\ ("m1" ∈ ev_messageId <$> log) /\
    ls_entries (sample_store [fo_paid sample_paid]) = log ≫= paid_rows sample_sha1 sample_deps.
Proof.
  assert (HJ : forall id, sample_J (fd_journalId sample_deps id)).
  { intros id. unfold sample_J, sample_ids. cbn. repeat case_bool_decide; set_solver. }
  destruct (paid_orders_are_booked_once sample_sha1 sample_deps sample_J sample_refs sample_no_collision ltac:(done)
    sample_deserialize_paid _ HJ sample_world) as (log & Hn & Hp & He & _).
  exists log. split; [done|]. split; [apply Hp; cbn; set_solver|exact He].
Defined.

(** A sale of 1000 captured in full and refunded by 400 leaves a loss of 400 and no assets. *)
Lemma captures_are_booked_as_fees_witness :
  net_of "1000-CASH" sample_entries = - net_of "6100-FEES" sample_entries /\ net_of "6100-FEES" sample_entries = 1000 /\
  fst (rebuild sample_chart "shop" "2026-07" 0 100 "USD" (sample_store sample_ops)) =
    Err (BusinessRuleError "Assets balance must not be negative").
Proof.
  assert (Hn : NoDup (posting_refs sample_deps)) by (apply (bool_decide_eq_true_1 _); vm_compute; reflexivity).
  destruct (captures_are_booked_as_fees sample_sha1 sample_deps sample_security sample_J sample_refs sample_no_collision ltac:(done)
    sample_ops 0 100 "shop" sample_entries _ sample_ops_in ltac:(by repeat constructor) Hn sample_read) as [H _].
  split; [exact H|]. split; vm_compute; reflexivity.
Defined.
