(* ===== verification/Loyalty.v ===== *)
(** The Loyalty context: [services/loyalty/src]. A customer's points account with its append-only ledger,
    tiers and rewards, the use cases on the stored account, and the consumer that earns points for paid
    orders ([apps/runtime/src/consumers/orders-paid.consumers.ts]), which is not atomic with the inbox. *)
From S2P Require Import Prelude Kernel Consumer.

#[global] Open Scope Z_scope.

(** ** Values ([domain/value-objects]) *)

Inductive AccountStatusValue := active | suspended | closed.
#[export] Instance AccountStatusValue_eq_dec : EqDecision AccountStatusValue.
Proof. solve_decision. Defined.

Definition status_name (s : AccountStatusValue) : string :=
  match s with active => "active" | suspended => "suspended" | closed => "closed" end.
Definition TRANSITIONS (s : AccountStatusValue) : list AccountStatusValue :=
  match s with
  | active => [suspended; closed]
  | suspended => [active; closed]
  | closed => []
  end.
Definition canTransitionAccount (from to_ : AccountStatusValue) : bool := bool_decide (to_ ∈ TRANSITIONS from).

Record RewardTier := mkTier { rt_name : string; rt_minimumPoints : Z }.
#[export] Instance RewardTier_eq_dec : EqDecision RewardTier.
Proof. solve_decision. Defined.

(** The loop starts from the first tier of the sorted ladder, so a balance below every tier gets it. *)
Definition resolveTier (balance : Z) (tiers : list RewardTier) : result RewardTier :=
  let sorted := sort_by (fun a b => rt_minimumPoints a <=? rt_minimumPoints b) tiers in
  let current := foldl (fun current tier => if rt_minimumPoints tier <=? balance then Some tier else current) (head sorted) sorted in
  match current with
  | Some tier => Ok tier
  | None => Err (UnexpectedError "resolveTier requires at least one tier")
  end.

Record Reward := mkReward { rw_rewardRef : string; rw_name : string; rw_costPoints : Z }.
Definition Reward_create (rewardRef name : string) (costPoints : Z) : result Reward :=
  _ ← Guard.againstEmpty rewardRef "rewardRef";
  _ ← Guard.againstNegative costPoints "costPoints";
  Ok (mkReward rewardRef name costPoints).

Inductive LoyaltyTransactionKind := k_earn | k_spend | k_cashback | k_referral.
Record LoyaltyTransaction := mkTransaction {
  tx_id : string; tx_idempotencyKey : string; tx_kind : LoyaltyTransactionKind; tx_pointsDelta : Z; tx_ref : string; tx_occurredAt : Z }.

(** ** The account ([domain/loyalty-account.ts]) *)

Inductive LoyaltyEventFamily := f_account | f_points | f_tier | f_reward | f_referral.
Record LoyaltyTransitioned := mkTransitioned {
  lt_customerRef : string; lt_family : LoyaltyEventFamily; lt_action : string; lt_balance : Z; lt_ref : option string }.

Record LoyaltyAccountProps := mkAccount {
  la_customerRef : string; la_status : AccountStatusValue; la_points : Z; la_tiers : list RewardTier; la_tierName : string;
  la_transactions : list LoyaltyTransaction }.
Abbreviation LoyaltyAccount := (Aggregate LoyaltyAccountProps LoyaltyTransitioned).
Abbreviation AccountM := (M LoyaltyAccount).

Definition account_create (id customerRef : string) (tiers : list RewardTier) : result LoyaltyAccount :=
  startingTier ← resolveTier 0 tiers;
  Ok (new_agg (mkAccount customerRef active 0 tiers (rt_name startingTier) []) id).

Definition with_status (s : AccountStatusValue) (p : LoyaltyAccountProps) : LoyaltyAccountProps :=
  mkAccount (la_customerRef p) s (la_points p) (la_tiers p) (la_tierName p) (la_transactions p).
Definition with_points (f : Z -> Z) (p : LoyaltyAccountProps) : LoyaltyAccountProps :=
  mkAccount (la_customerRef p) (la_status p) (f (la_points p)) (la_tiers p) (la_tierName p) (la_transactions p).
Definition with_tier (n : string) (p : LoyaltyAccountProps) : LoyaltyAccountProps :=
  mkAccount (la_customerRef p) (la_status p) (la_points p) (la_tiers p) n (la_transactions p).
Definition with_transaction (t : LoyaltyTransaction) (p : LoyaltyAccountProps) : LoyaltyAccountProps :=
  mkAccount (la_customerRef p) (la_status p) (la_points p) (la_tiers p) (la_tierName p) (la_transactions p ++ [t]).

Definition raise (family : LoyaltyEventFamily) (action eid : string) (at_ : Z) (ref : option string) : AccountM unit :=
  p ← gets agg_props;
  addDomainEvent eid at_ (mkTransitioned (la_customerRef p) family action (la_points p) ref).

Definition transition (toStatus : AccountStatusValue) (eid : string) (at_ : Z) : AccountM unit :=
  fromStatus ← gets (fun a => la_status (agg_props a));
  throw_if (negb (canTransitionAccount fromStatus toStatus))
    (BusinessRuleError ("Cannot transition loyalty account from " +:+ quoted (status_name fromStatus) +:+ " to " +:+ quoted (status_name toStatus)));;
  set_props (with_status toStatus);;
  raise f_account (if bool_decide (toStatus = active) then "opened" else status_name toStatus) eid at_ None.

Definition hasTransaction (key : string) (p : LoyaltyAccountProps) : bool :=
  existsb (fun t => bool_decide (tx_idempotencyKey t = key)) (la_transactions p).

Definition requireActive : AccountM unit :=
  s ← gets (fun a => la_status (agg_props a));
  throw_if (negb (bool_decide (s = active))) (BusinessRuleError ("Loyalty account is not active (status: " +:+ status_name s +:+ ")")).

Definition recordTransaction (key : string) (kind : LoyaltyTransactionKind) (delta : Z) (ref : string) (at_ : Z) : AccountM unit :=
  a ← gets (fun a => a);
  set_props (with_transaction (mkTransaction (agg_id a +:+ show_nat (length (la_transactions (agg_props a)))) key kind delta ref at_)).

Definition checkTierUpgrade (eid : string) (at_ : Z) : AccountM unit :=
  p ← gets agg_props;
  newTier ← lift (resolveTier (la_points p) (la_tiers p));
  if bool_decide (rt_name newTier = la_tierName p) then mret tt
  else set_props (with_tier (rt_name newTier));; raise f_tier "upgraded" eid at_ (Some (rt_name newTier)).

(** A replay of an idempotency key is a silent no-op. *)
Definition unless_recorded (key : string) (m : AccountM unit) : AccountM unit :=
  p ← gets agg_props;
  if hasTransaction key p then mret tt else m.

Definition credit (kind : LoyaltyTransactionKind) (family : LoyaltyEventFamily) (action key : string) (points : Z) (ref eid : string) (at_ : Z) : AccountM unit :=
  unless_recorded key (
    requireActive;;
    recordTransaction key kind points ref at_;;
    set_props (with_points (fun b => b + points));;
    raise family action eid at_ (Some ref);;
    checkTierUpgrade eid at_).
Definition earn := credit k_earn f_points "earned".
Definition recordCashback := credit k_cashback f_points "earned".
Definition completeReferral := credit k_referral f_referral "completed".

Definition debit (message : string) (family : LoyaltyEventFamily) (action key : string) (points : Z) (ref eid : string) (at_ : Z) : AccountM unit :=
  unless_recorded key (
    requireActive;;
    p ← gets agg_props;
    throw_if (negb (bool_decide (points <= la_points p))) (BusinessRuleError message);;
    recordTransaction key k_spend (- points) ref at_;;
    set_props (with_points (fun b => b - points));;
    raise family action eid at_ (Some ref)).
Definition spend := debit "Insufficient loyalty points balance" f_points "spent".
Definition redeemReward (key : string) (reward : Reward) (eid : string) (at_ : Z) : AccountM unit :=
  debit "Insufficient loyalty points balance to redeem this reward" f_reward "redeemed" key (rw_costPoints reward) (rw_rewardRef reward) eid at_.

Inductive AccountOp :=
| ao_transition (toStatus : AccountStatusValue)
| ao_earn (key : string) (points : Z) (ref : string)
| ao_cashback (key : string) (points : Z) (ref : string)
| ao_spend (key : string) (points : Z) (ref : string)
| ao_redeem (key : string) (reward : Reward)
| ao_referral (key : string) (bonusPoints : Z) (referred : string).

Definition account_exec (c : AccountOp * string * Z) : AccountM unit :=
  let '(op, eid, at_) := c in
  match op with
  | ao_transition s => transition s eid at_
  | ao_earn key points ref => earn key points ref eid at_
  | ao_cashback key points ref => recordCashback key points ref eid at_
  | ao_spend key points ref => spend key points ref eid at_
  | ao_redeem key reward => redeemReward key reward eid at_
  | ao_referral key bonus referred => completeReferral key bonus referred eid at_
  end.

(** ** The stored account ([infrastructure]) *)

Record LoyaltyAccountRow := mkRow {
  lr_id : string; lr_tenantId : string; lr_customerRef : string; lr_tierName : string; lr_balance : Z;
  lr_status : AccountStatusValue; lr_transactions : list LoyaltyTransaction; lr_version : Z }.
Record LoyaltyStore := mkStore { st_rows : list LoyaltyAccountRow; st_outbox : list (string * (EventMeta * LoyaltyTransitioned)) }.
Abbreviation StoreM := (M LoyaltyStore).

(** ** Lemmas on the account *)

Definition entry_for (key : string) (kind : LoyaltyTransactionKind) (delta : Z) (ref : string) (at_ : Z) (a : LoyaltyAccount) : LoyaltyTransaction :=
  mkTransaction (agg_id a +:+ show_nat (length (la_transactions (agg_props a)))) key kind delta ref at_.
(** The account after a recorded movement. *)
Definition moved (t : LoyaltyTransaction) (p : LoyaltyAccountProps) : LoyaltyAccountProps :=
  with_points (fun b => b + tx_pointsDelta t) (with_transaction t p).

Definition keys (p : LoyaltyAccountProps) : list string := tx_idempotencyKey <$> la_transactions p.

Lemma hasTransaction_spec key p : hasTransaction key p = true <-> key ∈ keys p.
Proof.
  unfold hasTransaction, keys. rewrite existsb_exists, list_elem_of_fmap. setoid_rewrite bool_decide_eq_true.
  setoid_rewrite <- list_elem_of_In. naive_solver.
Qed.

Lemma with_tier_same p : with_tier (la_tierName p) p = p.
Proof. by destruct p. Qed.

Lemma credit_Ok kind family action key points ref eid at_ a u a' :
  credit kind family action key points ref eid at_ a = (Ok u, a') ->
  (key ∈ keys (agg_props a) /\ a' = a) \/
  ((key ∉ keys (agg_props a)) /\ la_status (agg_props a) = active /\
   exists tier, resolveTier (la_points (agg_props a) + points) (la_tiers (agg_props a)) = Ok tier /\
     agg_id a' = agg_id a /\ agg_version a' = agg_version a /\
     agg_props a' = with_tier (rt_name tier) (moved (entry_for key kind points ref at_ a) (agg_props a)) /\
     agg_events a' = agg_events a ++
       ((mkMeta eid (agg_id a) at_, mkTransitioned (la_customerRef (agg_props a)) family action (la_points (agg_props a) + points) (Some ref)) ::
       (if bool_decide (rt_name tier = la_tierName (agg_props a)) then []
        else [(mkMeta eid (agg_id a) at_, mkTransitioned (la_customerRef (agg_props a)) f_tier "upgraded" (la_points (agg_props a) + points) (Some (rt_name tier)))]))).
Proof.
  unfold credit, unless_recorded. intros H. agg_inv. destruct (hasTransaction key (agg_props a)) eqn:Hk.
  - agg_inv. left. by apply hasTransaction_spec in Hk.
  - right. assert (Hk' : key ∉ keys (agg_props a)) by (rewrite <- hasTransaction_spec; congruence).
    unfold requireActive, recordTransaction, raise, checkTierUpgrade in H. agg_inv. split; [done|]. split; [done|].
    eexists. split; [eassumption|]. case_bool_decide as Ht; agg_inv.
    + split_and!; try done. rewrite <- (with_tier_same (agg_props a)) at 1. unfold moved. cbn. by rewrite Ht.
    + unfold raise in H. agg_inv. split_and!; try done. cbn. by rewrite <- app_assoc.
Qed.

Lemma debit_Ok message family action key points ref eid at_ a u a' :
  debit message family action key points ref eid at_ a = (Ok u, a') ->
  (key ∈ keys (agg_props a) /\ a' = a) \/
  ((key ∉ keys (agg_props a)) /\ la_status (agg_props a) = active /\
   points <= la_points (agg_props a) /\ agg_id a' = agg_id a /\ agg_version a' = agg_version a /\
   agg_props a' = moved (entry_for key k_spend (- points) ref at_ a) (agg_props a)).
Proof.
  unfold debit, unless_recorded. intros H. agg_inv. destruct (hasTransaction key (agg_props a)) eqn:Hk.
  - agg_inv. left. by apply hasTransaction_spec in Hk.
  - right. assert (Hk' : key ∉ keys (agg_props a)) by (rewrite <- hasTransaction_spec; congruence).
    unfold requireActive, recordTransaction, raise in H. agg_inv. split_and!; try done.
Qed.

(** The points, key and reference an operation moves; a transition moves none. *)
Definition op_key (op : AccountOp) : option string :=
  match op with
  | ao_transition _ => None
  | ao_earn k _ _ | ao_cashback k _ _ | ao_spend k _ _ | ao_redeem k _ | ao_referral k _ _ => Some k
  end.
Definition op_points (op : AccountOp) : Z :=
  match op with
  | ao_transition _ => 0
  | ao_earn _ n _ | ao_cashback _ n _ | ao_spend _ n _ | ao_referral _ n _ => n
  | ao_redeem _ r => rw_costPoints r
  end.
Definition is_credit (op : AccountOp) : bool :=
  match op with ao_earn _ _ _ | ao_cashback _ _ _ | ao_referral _ _ _ => true | _ => false end.

(** What a successful operation does: a replay nothing, a movement one entry, a transition the status. *)
Lemma account_exec_Ok op eid at_ a u a' :
  account_exec (op, eid, at_) a = (Ok u, a') ->
  match op_key op with
  | None => exists s, op = ao_transition s /\ canTransitionAccount (la_status (agg_props a)) s = true /\ agg_props a' = with_status s (agg_props a)
  | Some key =>
      (key ∈ keys (agg_props a) /\ a' = a) \/
      ((key ∉ keys (agg_props a)) /\ la_status (agg_props a) = active /\
       exists kind ref n, let delta := if is_credit op then op_points op else - op_points op in
         (is_credit op = false -> op_points op <= la_points (agg_props a)) /\
         agg_props a' = with_tier n (moved (entry_for key kind delta ref at_ a) (agg_props a)))
  end.
Proof.
  assert (Hc : forall kind family action key points ref, credit kind family action key points ref eid at_ a = (Ok u, a') ->
    (key ∈ keys (agg_props a) /\ a' = a) \/
    ((key ∉ keys (agg_props a)) /\ la_status (agg_props a) = active /\
     exists kind ref n, (true = false -> points <= la_points (agg_props a)) /\
       agg_props a' = with_tier n (moved (entry_for key kind points ref at_ a) (agg_props a)))).
  { intros kind family action key points ref [H|(H1 & H2 & tier & _ & _ & _ & H3 & _)]%credit_Ok; [by left|right].
    split; [done|]. split; [done|]. by eexists kind, ref, _. }
  assert (Hd : forall message family action key points ref, debit message family action key points ref eid at_ a = (Ok u, a') ->
    (key ∈ keys (agg_props a) /\ a' = a) \/
    ((key ∉ keys (agg_props a)) /\ la_status (agg_props a) = active /\
     exists kind ref n, (false = false -> points <= la_points (agg_props a)) /\
       agg_props a' = with_tier n (moved (entry_for key kind (- points) ref at_ a) (agg_props a)))).
  { intros message family action key points ref [H|(H1 & H2 & H3 & _ & _ & H4)]%debit_Ok; [by left|right].
    split; [done|]. split; [done|]. exists k_spend, ref, (la_tierName (agg_props a)). by rewrite H4. }
  destruct op; cbn [account_exec op_key is_credit op_points]; intros H; try (by eapply Hc); try (by eapply Hd).
  unfold transition, raise in H. agg_inv. by eexists.
Qed.

(** ** The ledger *)

Definition account_inv (a : LoyaltyAccount) : Prop :=
  let p := agg_props a in
  la_points p = sumZ tx_pointsDelta (la_transactions p) /\ NoDup (keys p) /\
  tx_id <$> la_transactions p = (fun i => agg_id a +:+ show_nat i) <$> seq 0 (length (la_transactions p)).

Lemma keys_moved t n p : keys (with_tier n (moved t p)) = keys p ++ [tx_idempotencyKey t].
Proof. unfold keys, moved. cbn. by rewrite fmap_app. Qed.

Lemma keeps_unless_recorded key m : keeps m -> keeps (unless_recorded key m).
Proof. intros Hm. unfold unless_recorded. solve_keeps. Qed.

Lemma account_exec_keeps c : keeps (account_exec c).
Proof.
  destruct c as [[op eid] at_]. destruct op; cbn [account_exec];
    unfold transition, redeemReward, earn, recordCashback, completeReferral, spend, credit, debit; try apply keeps_unless_recorded;
    unfold requireActive, recordTransaction, checkTierUpgrade, raise; solve_keeps.
Qed.

Lemma account_exec_inv c a u a' : account_inv a -> account_exec c a = (Ok u, a') -> account_inv a'.
Proof.
  intros (Hs & Hn & Hi) H. destruct (account_exec_keeps c a _ a' H) as [Hid _]. destruct c as [[op eid] at_].
  apply account_exec_Ok in H. unfold account_inv. rewrite Hid. destruct (op_key op) as [key|].
  - destruct H as [(_ & ->)|(Hk & _ & kind & ref & n & _ & ->)]; [done|]. rewrite keys_moved. cbn. split_and!.
    + by rewrite sumZ_app, sumZ_cons, sumZ_nil, Hs, Z.add_0_r.
    + apply NoDup_app. split; [done|]. split; [|apply NoDup_singleton]. by intros k Hin ->%list_elem_of_singleton.
    + rewrite fmap_app, Hi, length_app, seq_app, fmap_app. done.
  - by destruct H as (s & _ & _ & ->).
Qed.

(** Calls that move no negative number of points. *)
Definition nonneg_call (c : AccountOp * string * Z) : Prop := 0 <= op_points c.1.1.

Lemma account_exec_nonneg c a u a' :
  nonneg_call c -> 0 <= la_points (agg_props a) -> account_exec c a = (Ok u, a') -> 0 <= la_points (agg_props a').
Proof.
  unfold nonneg_call. destruct c as [[op eid] at_]. cbn. intros Hc Hp H. apply account_exec_Ok in H.
  destruct (op_key op) as [key|].
  - destruct H as [(_ & ->)|(_ & _ & kind & ref & n & Hle & ->)]; [done|]. cbn. destruct (is_credit op); [lia|].
    assert (op_points op <= la_points (agg_props a)) by auto. lia.
  - by destruct H as (s & _ & _ & ->).
Qed.

(** The ledger only grows, and a closed account stays as it is. *)
Definition grows (a a' : LoyaltyAccount) : Prop :=
  la_transactions (agg_props a) `prefix_of` la_transactions (agg_props a') /\
  (la_status (agg_props a) = closed -> agg_props a' = agg_props a).

Lemma account_exec_grows c a u a' : account_exec c a = (Ok u, a') -> grows a a'.
Proof.
  destruct c as [[op eid] at_]. intros H. apply account_exec_Ok in H. unfold grows. destruct (op_key op) as [key|].
  - destruct H as [(_ & ->)|(_ & Hact & kind & ref & n & _ & ->)]; [done|]. cbn. split; [by eexists|congruence].
  - destruct H as (s & _ & Ht & ->). split; [done|]. intros Hcl. rewrite Hcl in Ht. by destruct s.
Qed.

Lemma run_grows cs a u a' : run_ops account_exec cs a = (Ok u, a') -> grows a a'.
Proof.
  revert a. induction cs as [|c cs IH]; intros a H; cbn in H; minv; [done|].
  apply account_exec_grows in Hcall as [H1 H2]. apply IH in H as [H3 H4]. split; [by etrans|].
  intros Hcl. rewrite <- (H2 Hcl). apply H4. by rewrite H2.
Qed.

(** ** Properties *)

(** The points ledger is exact. After any successful calls on an opened account the balance is the sum
    of the ledger's entries, no idempotency key and no entry id occurs twice, every earlier ledger is a
    prefix of the later one, and a closed account never changes; if no call moves a negative number of
    points, the balance never falls below zero. *)
Theorem loyalty_ledger_is_exact id customerRef tiers a0 before after u u' a a' :
  account_create id customerRef tiers = Ok a0 ->
  run_ops account_exec before a0 = (Ok u, a) -> run_ops account_exec after a = (Ok u', a') ->
  la_points (agg_props a') = sumZ tx_pointsDelta (la_transactions (agg_props a')) /\
  NoDup (tx_idempotencyKey <$> la_transactions (agg_props a')) /\ NoDup (tx_id <$> la_transactions (agg_props a')) /\
  la_transactions (agg_props a) `prefix_of` la_transactions (agg_props a') /\
  (la_status (agg_props a) = closed -> agg_props a' = agg_props a) /\
  (Forall nonneg_call (before ++ after) -> 0 <= la_points (agg_props a')).
Proof.
  intros H0 H1 H2. assert (Hrun := run_ops_app _ _ _ _ _ _ _ _ H1 H2).
  assert (H00 : account_inv a0 /\ la_points (agg_props a0) = 0).
  { unfold account_create in H0. destruct (resolveTier 0 tiers); [|done]. injection H0 as <-. split; [|done]. unfold account_inv. split_and!; [done|apply NoDup_nil_2|done]. }
  destruct H00 as [Hi0 Hp0].
  assert (Hinv : account_inv a') by (eapply (run_ops_invariant account_inv); [|exact Hi0|exact Hrun]; intros; by eapply account_exec_inv).
  destruct Hinv as (Hs & Hn & Hi). destruct (run_grows after a u' a' H2) as [Hp Hc].
  split_and!; try done.
  - rewrite Hi. apply NoDup_fmap_2; [|apply NoDup_seq]. intros i j E%(inj _). unfold show_nat in E.
    apply (inj pretty) in E. lia.
  - rewrite Forall_forall. intros Hf. eapply (run_ops_invariant (fun a => 0 <= la_points (agg_props a))); [|by rewrite Hp0|exact Hrun].
    intros c s v s' Hin Hs' He. eapply account_exec_nonneg; [by apply Hf|done|done].
Qed.

(** A replay changes nothing. Once a movement was recorded under a key, any later call under that key,
    of whatever kind and points, after whatever other calls and even when the account has been suspended
    or closed, returns and leaves the account exactly as it is, with no event. *)
Theorem loyalty_replay_changes_nothing c cs c' key a u a1 u' a2 :
  op_key c.1.1 = Some key -> op_key c'.1.1 = Some key ->
  account_exec c a = (Ok u, a1) -> run_ops account_exec cs a1 = (Ok u', a2) -> account_exec c' a2 = (Ok tt, a2).
Proof.
  destruct c as [[op eid] at_]. cbn. intros Hk Hk' H1 H2.
  assert (Hin : key ∈ keys (agg_props a1)).
  { apply account_exec_Ok in H1. rewrite Hk in H1.
    destruct H1 as [(Hin & ->)|(_ & _ & kind & ref & n & _ & ->)]; [done|]. rewrite keys_moved. apply elem_of_app. right. left. }
  apply run_grows in H2 as [[new Hp] _]. assert (Hin2 : key ∈ keys (agg_props a2)).
  { unfold keys in *. rewrite Hp, fmap_app. apply elem_of_app. by left. }
  apply hasTransaction_spec in Hin2. destruct c' as [[op' eid'] at']. cbn in Hk'.
  destruct op'; simplify_eq/=; unfold earn, recordCashback, completeReferral, spend, redeemReward, credit, debit, unless_recorded, gets, mbind, M_bind; by rewrite Hin2.
Qed.

(** ** Tiers *)

(** The highest tier a balance reaches, or the lowest of the ladder when it reaches none. *)
Definition tier_for (balance : Z) (tiers : list RewardTier) (t : RewardTier) : Prop :=
  t ∈ tiers /\
  ((exists t', t' ∈ tiers /\ rt_minimumPoints t' <= balance) ->
    rt_minimumPoints t <= balance /\ forall t', t' ∈ tiers -> rt_minimumPoints t' <= balance -> rt_minimumPoints t' <= rt_minimumPoints t) /\
  ((forall t', t' ∈ tiers -> balance < rt_minimumPoints t') -> forall t', t' ∈ tiers -> rt_minimumPoints t <= rt_minimumPoints t').

Definition pick (balance : Z) (current : option RewardTier) (tier : RewardTier) : option RewardTier :=
  if rt_minimumPoints tier <=? balance then Some tier else current.

(** On a sorted ladder the loop keeps what it has until a tier is reached, and then the last one reached. *)
Lemma pick_loop balance c l :
  StronglySorted (fun a b => rt_minimumPoints a <= rt_minimumPoints b) l ->
  (foldl (pick balance) c l = c /\ forall t, t ∈ l -> balance < rt_minimumPoints t) \/
  exists t, foldl (pick balance) c l = Some t /\ t ∈ l /\ rt_minimumPoints t <= balance /\
    forall t', t' ∈ l -> rt_minimumPoints t' <= balance -> rt_minimumPoints t' <= rt_minimumPoints t.
Proof.
  intros Hs. revert c. induction Hs as [|x l Hs IH Hx]; intros c; cbn; [left; split; [done|by intros t ?%elem_of_nil]|].
  rewrite Forall_forall in Hx. unfold pick at 2 4. destruct (Z.leb_spec (rt_minimumPoints x) balance) as [Hle|Hlt].
  - right. destruct (IH (Some x)) as [[-> Hl]|(t & -> & Ht & Hb & Hm)].
    + exists x. split_and!; [done|left|done|]. intros t' [-> |Ht']%elem_of_cons Hb'; [done|]. specialize (Hl t' Ht'). lia.
    + exists t. split_and!; [done|by right|done|]. intros t' [-> |Ht']%elem_of_cons Hb'; [by apply Hx|by apply Hm].
  - destruct (IH c) as [[-> Hl]|(t & -> & Ht & Hb & Hm)].
    + left. split; [done|]. intros t [-> |Ht]%elem_of_cons; [done|by apply Hl].
    + right. exists t. split_and!; [done|by right|done|]. intros t' [-> |Ht']%elem_of_cons Hb'; [lia|by apply Hm].
Qed.

Lemma resolveTier_spec balance tiers t : resolveTier balance tiers = Ok t -> tier_for balance tiers t.
Proof.
  unfold resolveTier. set (sorted := sort_by _ tiers). change (fun current tier => _) with (pick balance).
  assert (Hp : sorted ≡ₚ tiers) by apply sort_by_perm.
  assert (Hs : StronglySorted (fun a b => rt_minimumPoints a <= rt_minimumPoints b) sorted).
  { apply sort_by_sorted; [intros x y; lia|intros x y; lia|]. intros x y z. lia. }
  assert (Hin : forall t, t ∈ sorted <-> t ∈ tiers) by (intros t'; by rewrite Hp). unfold tier_for. setoid_rewrite <- Hin. clear Hin Hp.
  destruct (pick_loop balance (head sorted) sorted Hs) as [[-> Hl]|(t' & -> & Ht & Hb & Hm)].
  - destruct Hs as [|x l Hs Hx]; [done|]. cbn. intros [= <-]. rewrite Forall_forall in Hx. split; [left|]. split.
    + intros (t' & Ht' & Hb'). specialize (Hl t' Ht'). lia.
    + intros _ t' [-> |Ht']%elem_of_cons; [done|by apply Hx].
  - intros [= <-]. split; [done|]. split; [done|]. intros Hall. specialize (Hall t' Ht). lia.
Qed.

(** Whenever points are earned, the account's tier becomes the highest its new balance reaches (the
    lowest of the ladder if it reaches none), and a tier event is raised exactly when that is another tier
    than before. Spending leaves the tier alone, so the next points earned may lower it; the event raised
    says "upgraded" all the same. *)
Theorem earning_resolves_tier op eid at_ key a u a' :
  is_credit op = true -> op_key op = Some key -> key ∉ keys (agg_props a) -> account_exec (op, eid, at_) a = (Ok u, a') ->
  exists t first, tier_for (la_points (agg_props a')) (la_tiers (agg_props a)) t /\ la_tierName (agg_props a') = rt_name t /\
    la_points (agg_props a') = la_points (agg_props a) + op_points op /\ lt_family first.2 <> f_tier /\
    agg_events a' = agg_events a ++ (first ::
      (if bool_decide (la_tierName (agg_props a') = la_tierName (agg_props a)) then []
       else [(mkMeta eid (agg_id a) at_, mkTransitioned (la_customerRef (agg_props a)) f_tier "upgraded" (la_points (agg_props a')) (Some (rt_name t)))])).
Proof.
  intros Hc Hk Hn H. assert (H' : exists kind family action ref, credit kind family action key (op_points op) ref eid at_ a = (Ok u, a') /\ family <> f_tier).
  { destruct op; simplify_eq/=; eexists _, _, _, _; (split; [exact H|done]). }
  destruct H' as (kind & family & action & ref & [[? _]|(_ & _ & t & Ht & _ & _ & Hp & He)]%credit_Ok & Hf); [done|].
  exists t. eexists. rewrite Hp. cbn. split_and!; [by apply resolveTier_spec|done|done| |exact He]. done.
Qed.

Section loyalty.
(** The tier ladder is configuration of the composition root. *)
Context (tiers : list RewardTier).

Definition toDomain (row : LoyaltyAccountRow) : LoyaltyAccount :=
  new_agg_at (mkAccount (lr_customerRef row) (lr_status row) (lr_balance row) tiers (lr_tierName row) (lr_transactions row))
    (lr_id row) (lr_version row).
Definition toRow (tenantId : string) (a : LoyaltyAccount) : LoyaltyAccountRow :=
  let p := agg_props a in
  mkRow (agg_id a) tenantId (la_customerRef p) (la_tierName p) (la_points p) (la_status p) (la_transactions p) 1.

Definition findById (id tenantId : string) : StoreM (option LoyaltyAccount) :=
  gets (fun s => toDomain <$> head (filter (fun r => lr_id r = id /\ lr_tenantId r = tenantId) (st_rows s))).
Definition findByCustomerRef (customerRef tenantId : string) : StoreM (option LoyaltyAccount) :=
  gets (fun s => toDomain <$> head (filter (fun r => lr_tenantId r = tenantId /\ lr_customerRef r = customerRef) (st_rows s))).

(** The columns an update writes. *)
Definition updated (new r : LoyaltyAccountRow) : LoyaltyAccountRow :=
  mkRow (lr_id r) (lr_tenantId r) (lr_customerRef r) (lr_tierName new) (lr_balance new) (lr_status new) (lr_transactions new) (lr_version r + 1).
Definition matches (a : LoyaltyAccount) (tenantId : string) (r : LoyaltyAccountRow) : bool :=
  bool_decide (lr_id r = agg_id a) && bool_decide (lr_tenantId r = tenantId) && bool_decide (lr_version r = agg_version a).
Definition write_outbox (tenantId : string) (a : LoyaltyAccount) (rows : list LoyaltyAccountRow) (s : LoyaltyStore) : LoyaltyStore :=
  mkStore rows (st_outbox s ++ (pair tenantId <$> agg_events a)).

Definition save (a : LoyaltyAccount) (tenantId : string) : StoreM unit :=
  let row := toRow tenantId a in
  rows ← gets st_rows;
  if bool_decide (agg_version a = 0) then
    throw_if (existsb (fun r => bool_decide (lr_id r = lr_id row) ||
        (bool_decide (lr_tenantId r = tenantId) && bool_decide (lr_customerRef r = lr_customerRef row))) rows)
      (UnexpectedError "Unique constraint failed");;
    modify (write_outbox tenantId a (rows ++ [row]))
  else
    throw_if (negb (existsb (matches a tenantId) rows))
      (ConcurrencyError ("Loyalty account " +:+ agg_id a +:+ " was modified concurrently (expected version " +:+ pretty (agg_version a) +:+ ")"));;
    modify (write_outbox tenantId a ((fun r => if matches a tenantId r then updated row r else r) <$> rows)).

(** ** Use cases ([application/loyalty.use-cases.ts]), each in one transaction *)

Definition OpenAccount (customerRef tenantId id : string) : StoreM unit :=
  _ ← lift (Guard.againstEmpty customerRef "customerRef");
  existing ← findByCustomerRef customerRef tenantId;
  match existing with
  | Some _ => throw (ConflictError ("Customer " +:+ quoted customerRef +:+ " already has a loyalty account"))
  | None =>
      account ← lift (account_create id customerRef tiers);
      save account tenantId
  end.

Definition runLedgerAction (accountId tenantId : string) (action : AccountM unit) : StoreM unit :=
  account ← findById accountId tenantId;
  match account with
  | None => throw (NotFoundError "Loyalty account not found")
  | Some a =>
      let '(r, a') := action a in
      _ ← lift r;
      save a' tenantId
  end.

Definition AdvanceAccount (accountId tenantId : string) (toStatus : AccountStatusValue) (eid : string) (now : Z) : StoreM unit :=
  runLedgerAction accountId tenantId (transition toStatus eid now).
Definition EarnPoints (accountId tenantId key : string) (points : Z) (ref eid : string) (now : Z) : StoreM unit :=
  runLedgerAction accountId tenantId (earn key points ref eid now).
Definition SpendPoints (accountId tenantId key : string) (points : Z) (ref eid : string) (now : Z) : StoreM unit :=
  runLedgerAction accountId tenantId (spend key points ref eid now).
Definition RecordCashback (accountId tenantId key : string) (points : Z) (ref eid : string) (now : Z) : StoreM unit :=
  runLedgerAction accountId tenantId (recordCashback key points ref eid now).
Definition RedeemReward (accountId tenantId key rewardRef rewardName : string) (costPoints : Z) (eid : string) (now : Z) : StoreM unit :=
  reward ← lift (Reward_create rewardRef rewardName costPoints);
  runLedgerAction accountId tenantId (redeemReward key reward eid now).
Definition CompleteReferral (accountId tenantId key : string) (bonusPoints : Z) (referred eid : string) (now : Z) : StoreM unit :=
  runLedgerAction accountId tenantId (completeReferral key bonusPoints referred eid now).

(** ** Points for paid orders *)

Record OrderPaidPayload := mkOrderPaid {
  op_orderNumber : string; op_customerRef : string; op_paymentRef : string; op_currency : string; op_totalAmountMinor : Z }.
Definition pointsForPaidOrder (totalAmountMinor : Z) : Z := totalAmountMinor / 100.
Definition ORDERS_ORDER_PAID : string := "orders.order.paid".
Definition earn_key (orderNumber : string) : string := ORDERS_ORDER_PAID +:+ ":earn:" +:+ orderNumber.

(** The event ids and the clock of a message's handling. *)
Context (event_id : string -> string) (now : string -> Z).

Definition paid_handle (ev : IntegrationEvent OrderPaidPayload) : StoreM unit :=
  let p := ev_payload ev in
  let tenantId := ev_tenantId _ ev in
  if blank tenantId then mret tt
  else
    account ← findByCustomerRef (op_customerRef p) tenantId;
    match account with
    | None => mret tt
    | Some a =>
        if negb (bool_decide (la_status (agg_props a) = active)) then mret tt
        else
          let points := pointsForPaidOrder (op_totalAmountMinor p) in
          if bool_decide (points = 0) then mret tt
          else EarnPoints (agg_id a) tenantId (earn_key (op_orderNumber p)) points (op_orderNumber p) (event_id (ev_messageId ev)) (now (ev_messageId ev))
    end.
Definition LoyaltyOrdersPaidConsumer : EventHandler OrderPaidPayload LoyaltyStore :=
  mkHandler _ _ "orders.order.paid.v1" paid_handle None.

(** ** The consumer keeps the promise a plain handler makes *)

(** Rows up to their version. *)
Definition erase (r : LoyaltyAccountRow) : LoyaltyAccountRow :=
  mkRow (lr_id r) (lr_tenantId r) (lr_customerRef r) (lr_tierName r) (lr_balance r) (lr_status r) (lr_transactions r) 0.
#[export] Instance store_equiv : Equiv LoyaltyStore := fun s1 s2 => erase <$> st_rows s1 = erase <$> st_rows s2 /\ st_outbox s1 = st_outbox s2.
#[export] Instance store_equivalence : Equivalence (≡@{LoyaltyStore}).
Proof. split; [by intros s|by intros s1 s2 [E1 E2]|]. intros s1 s2 s3 [] []. split; congruence. Qed.

(** The keys the schema makes unique, saved versions, and rows whose ledger is exact. *)
Definition row_ok (r : LoyaltyAccountRow) : Prop :=
  1 <= lr_version r /\ lr_balance r = sumZ tx_pointsDelta (lr_transactions r) /\ NoDup (tx_idempotencyKey <$> lr_transactions r).
Definition store_ok (s : LoyaltyStore) : Prop :=
  NoDup (lr_id <$> st_rows s) /\ NoDup ((fun r => (lr_tenantId r, lr_customerRef r)) <$> st_rows s) /\ Forall row_ok (st_rows s).

Definition owner (t c : string) (rows : list LoyaltyAccountRow) : option LoyaltyAccountRow :=
  head (filter (fun r => lr_tenantId r = t /\ lr_customerRef r = c) rows).

Lemma owner_elem t c rows r : owner t c rows = Some r -> r ∈ rows /\ lr_tenantId r = t /\ lr_customerRef r = c.
Proof.
  unfold owner. intros H. assert (Hin : r ∈ filter (fun r => lr_tenantId r = t /\ lr_customerRef r = c) rows).
  { destruct (filter _ rows); [done|]. injection H as <-. left. }
  apply list_elem_of_filter in Hin. naive_solver.
Qed.

(** Changing rows without touching their tenant or customer changes the owner alike. *)
Lemma owner_map t c (f : LoyaltyAccountRow -> LoyaltyAccountRow) rows :
  (forall r, lr_tenantId (f r) = lr_tenantId r /\ lr_customerRef (f r) = lr_customerRef r) ->
  owner t c (f <$> rows) = f <$> owner t c rows.
Proof.
  intros Hf. unfold owner. rewrite filter_of_fmap.
  rewrite (list_filter_iff _ (fun r => lr_tenantId r = t /\ lr_customerRef r = c)) by (intros r; destruct (Hf r) as [-> ->]; done).
  by destruct (filter _ rows).
Qed.

Lemma filter_by_id s r : store_ok s -> r ∈ st_rows s ->
  head (filter (fun x => lr_id x = lr_id r /\ lr_tenantId x = lr_tenantId r) (st_rows s)) = Some r.
Proof.
  intros (Hn & _ & _) Hin. assert (Hall : forall x, x ∈ filter (fun x => lr_id x = lr_id r /\ lr_tenantId x = lr_tenantId r) (st_rows s) -> x = r).
  { intros x [[Hx _] Hx']%list_elem_of_filter. by apply (NoDup_fmap_elem lr_id (st_rows s)). }
  assert (Hr : r ∈ filter (fun x => lr_id x = lr_id r /\ lr_tenantId x = lr_tenantId r) (st_rows s)) by by apply list_elem_of_filter.
  destruct (filter _ _) as [|x l]; [by apply elem_of_nil in Hr|]. cbn. f_equal. apply Hall. left.
Qed.

(** One row replaced, under the row's identity. *)
Definition on_row (id : string) (f : LoyaltyAccountRow -> LoyaltyAccountRow) (r : LoyaltyAccountRow) : LoyaltyAccountRow :=
  if bool_decide (lr_id r = id) then f r else r.

Lemma save_existing s r a : store_ok s -> r ∈ st_rows s -> agg_id a = lr_id r -> agg_version a = lr_version r ->
  save a (lr_tenantId r) s =
    (Ok tt, write_outbox (lr_tenantId r) a (on_row (lr_id r) (updated (toRow (lr_tenantId r) a)) <$> st_rows s) s).
Proof.
  intros Hs Hin Hid Hv. unfold save, gets, throw_if, modify, mbind, M_bind.
  assert (Hrow : row_ok r) by (destruct Hs as (_ & _ & Hf); by eapply Forall_forall in Hf).
  rewrite (bool_decide_false (agg_version a = 0)) by (destruct Hrow; lia).
  assert (Hm : forall x, x ∈ st_rows s -> matches a (lr_tenantId r) x = bool_decide (lr_id x = lr_id r)).
  { intros x Hx. unfold matches. rewrite Hid, Hv. destruct (bool_decide (lr_id x = lr_id r)) eqn:E; [|done].
    apply bool_decide_eq_true in E. rewrite (NoDup_fmap_elem lr_id (st_rows s) x r); try done; [|by apply Hs]. by rewrite !bool_decide_true. }
  assert (Hex : existsb (matches a (lr_tenantId r)) (st_rows s) = true).
  { apply existsb_exists. exists r. rewrite <- list_elem_of_In, Hm by done. by rewrite bool_decide_true. }
  rewrite Hex. cbn. do 2 f_equal. apply fmap_ext_elem. intros x Hx. unfold on_row. by rewrite Hm.
Qed.

Lemma EarnPoints_existing s r key points ref eid at_ :
  store_ok s -> r ∈ st_rows s ->
  EarnPoints (lr_id r) (lr_tenantId r) key points ref eid at_ s =
    match earn key points ref eid at_ (toDomain r) with
    | (Ok _, a') => (Ok tt, write_outbox (lr_tenantId r) a' (on_row (lr_id r) (updated (toRow (lr_tenantId r) a')) <$> st_rows s) s)
    | (Err e, _) => (Err e, s)
    end.
Proof.
  intros Hs Hin. unfold EarnPoints, runLedgerAction, findById, gets, lift, mbind, M_bind. rewrite filter_by_id by done. cbn [fmap option_fmap option_map].
  destruct (earn key points ref eid at_ (toDomain r)) as [[u|e] a'] eqn:He; [|done].
  assert (Hk : keeps (account_exec (ao_earn key points ref, eid, at_))) by apply account_exec_keeps.
  destruct (Hk (toDomain r) (Ok u) a' He) as [Hid Hv]. by apply save_existing.
Qed.

(** ** When a message has no effect *)

Definition order_of (ev : IntegrationEvent OrderPaidPayload) : OrderPaidPayload := ev_payload ev.
Definition points_of (ev : IntegrationEvent OrderPaidPayload) : Z := pointsForPaidOrder (op_totalAmountMinor (order_of ev)).
Definition key_of (ev : IntegrationEvent OrderPaidPayload) : string := earn_key (op_orderNumber (order_of ev)).

Definition inert_for (ev : IntegrationEvent OrderPaidPayload) (r : LoyaltyAccountRow) : Prop :=
  lr_status r <> active \/ key_of ev ∈ tx_idempotencyKey <$> lr_transactions r.
Definition inert (ev : IntegrationEvent OrderPaidPayload) (s : LoyaltyStore) : Prop :=
  blank (ev_tenantId _ ev) = true \/ points_of ev = 0 \/
  forall r, owner (ev_tenantId _ ev) (op_customerRef (order_of ev)) (st_rows s) = Some r -> inert_for ev r.

(** The row an earning leaves, and its events. *)
Definition earned_entry (ev : IntegrationEvent OrderPaidPayload) (r : LoyaltyAccountRow) : LoyaltyTransaction :=
  entry_for (key_of ev) k_earn (points_of ev) (op_orderNumber (order_of ev)) (now (ev_messageId ev)) (toDomain r).
Definition earned_row (ev : IntegrationEvent OrderPaidPayload) (tier : RewardTier) (r : LoyaltyAccountRow) : LoyaltyAccountRow :=
  mkRow (lr_id r) (lr_tenantId r) (lr_customerRef r) (rt_name tier) (lr_balance r + points_of ev) (lr_status r)
    (lr_transactions r ++ [earned_entry ev r]) (lr_version r + 1).
Definition bump (r : LoyaltyAccountRow) : LoyaltyAccountRow :=
  mkRow (lr_id r) (lr_tenantId r) (lr_customerRef r) (lr_tierName r) (lr_balance r) (lr_status r) (lr_transactions r) (lr_version r + 1).
Definition earned_events (ev : IntegrationEvent OrderPaidPayload) (tier : RewardTier) (r : LoyaltyAccountRow) : list (EventMeta * LoyaltyTransitioned) :=
  let mt := mkMeta (event_id (ev_messageId ev)) (lr_id r) (now (ev_messageId ev)) in
  (mt, mkTransitioned (lr_customerRef r) f_points "earned" (lr_balance r + points_of ev) (Some (op_orderNumber (order_of ev)))) ::
  (if bool_decide (rt_name tier = lr_tierName r) then []
   else [(mt, mkTransitioned (lr_customerRef r) f_tier "upgraded" (lr_balance r + points_of ev) (Some (rt_name tier)))]).

(** The account's earning, as a function of the row. *)
Definition earn_paid (ev : IntegrationEvent OrderPaidPayload) : AccountM unit :=
  earn (key_of ev) (points_of ev) (op_orderNumber (order_of ev)) (event_id (ev_messageId ev)) (now (ev_messageId ev)).

Lemma earn_row ev r :
  match decide (key_of ev ∈ tx_idempotencyKey <$> lr_transactions r), decide (lr_status r = active) with
  | left _, _ => earn_paid ev (toDomain r) = (Ok tt, toDomain r)
  | right _, left _ =>
      match resolveTier (lr_balance r + points_of ev) tiers with
      | Ok tier => earn_paid ev (toDomain r) = (Ok tt, mkAgg (lr_id r) (lr_version r) (earned_events ev tier r)
          (mkAccount (lr_customerRef r) (lr_status r) (lr_balance r + points_of ev) tiers (rt_name tier) (lr_transactions r ++ [earned_entry ev r])))
      | Err e => fst (earn_paid ev (toDomain r)) = Err e
      end
  | right _, right _ => isOk (fst (earn_paid ev (toDomain r))) = false
  end.
Proof.
  assert (Hh : hasTransaction (key_of ev) (agg_props (toDomain r)) = bool_decide (key_of ev ∈ tx_idempotencyKey <$> lr_transactions r)).
  { apply eq_bool_prop_intro. rewrite !Is_true_true, hasTransaction_spec, bool_decide_eq_true. done. }
  unfold earn_paid, earn, credit, unless_recorded, gets, mbind, M_bind. rewrite Hh.
  destruct (decide (key_of ev ∈ _)) as [Hk|Hk]; [by rewrite bool_decide_true|]. rewrite bool_decide_false by done.
  unfold requireActive, throw_if, gets, mbind, M_bind. cbn [agg_props toDomain new_agg_at la_status].
  destruct (decide (lr_status r = active)) as [Ha|Ha]; [|by rewrite bool_decide_false]. rewrite bool_decide_true by done.
  unfold recordTransaction, raise, checkTierUpgrade, set_props, addDomainEvent, gets, modify, lift, mbind, M_bind. cbn.
  destruct (resolveTier _ tiers) as [tier|e]; [|done].
  clear Hh. unfold earned_events. case_bool_decide as Ht; [unfold with_points, with_transaction; cbn; by rewrite Ht|done].
Qed.

(** Replacing one row by one of the same identity keeps the store well formed. *)
Definition same_identity (f : LoyaltyAccountRow -> LoyaltyAccountRow) : Prop :=
  forall r, lr_id (f r) = lr_id r /\ lr_tenantId (f r) = lr_tenantId r /\ lr_customerRef (f r) = lr_customerRef r.

Lemma on_row_identity id f : same_identity f -> same_identity (on_row id f).
Proof. intros Hf r. unfold on_row. case_bool_decide; [apply Hf|done]. Qed.

Lemma store_ok_on_row s r f outbox :
  store_ok s -> r ∈ st_rows s -> same_identity f -> row_ok (f r) -> store_ok (mkStore (on_row (lr_id r) f <$> st_rows s) outbox).
Proof.
  intros (H1 & H2 & H3) Hr Hf Hok. assert (Hi := on_row_identity (lr_id r) f Hf). unfold store_ok. cbn. rewrite <- !list_fmap_compose. split_and!.
  - erewrite list_fmap_ext; [exact H1|]. intros i x _. apply Hi.
  - erewrite list_fmap_ext; [exact H2|]. intros i x _. cbn. by destruct (Hi x) as (_ & -> & ->).
  - rewrite Forall_forall in *. intros x (y & -> & Hy)%list_elem_of_fmap. unfold on_row. case_bool_decide as E; [|by apply H3].
    by rewrite (NoDup_fmap_elem lr_id (st_rows s) y r).
Qed.

Lemma owner_on_row t c id f rows : same_identity f -> owner t c (on_row id f <$> rows) = on_row id f <$> owner t c rows.
Proof. intros Hf. apply owner_map. intros r. apply (on_row_identity id f Hf). Qed.

Lemma owner_equiv t c s1 s2 : s1 ≡ s2 -> erase <$> owner t c (st_rows s1) = erase <$> owner t c (st_rows s2).
Proof. intros [E _]. rewrite <- !owner_map by done. by rewrite E. Qed.

(** A row whose ledger grows stays inert. *)
Lemma inert_on_row ev s id f outbox : same_identity f ->
  (forall r, lr_status (f r) = lr_status r /\ lr_transactions r `prefix_of` lr_transactions (f r)) ->
  inert ev s -> inert ev (mkStore (on_row id f <$> st_rows s) outbox).
Proof.
  intros Hf Hg [H|[H|H]]; [by left|by right; left|right; right]. cbn. rewrite owner_on_row by done.
  destruct (owner _ _ (st_rows s)) as [r|]; [|done]. intros r' [= <-]. specialize (H r eq_refl).
  unfold on_row. case_bool_decide; [|done]. unfold inert_for in *. destruct (Hg r) as [-> [l ->]].
  rewrite fmap_app, elem_of_app. tauto.
Qed.

Lemma inert_equiv ev s1 s2 : s1 ≡ s2 -> inert ev s1 -> inert ev s2.
Proof.
  intros E [H|[H|H]]; [by left|by right; left|right; right]. intros r Hr.
  assert (Ho := owner_equiv (ev_tenantId _ ev) (op_customerRef (order_of ev)) s1 s2 E). rewrite Hr in Ho.
  destruct (owner _ _ (st_rows s1)) as [r1|]; [|done]. specialize (H r1 eq_refl). injection Ho as _ _ _ _ _ Es Et.
  unfold inert_for. by rewrite <- Es, <- Et.
Qed.

Lemma bump_equiv s id : mkStore (on_row id bump <$> st_rows s) (st_outbox s) ≡ s.
Proof.
  split; [|done]. cbn. rewrite <- list_fmap_compose. apply list_fmap_ext. intros i r _. unfold on_row. cbn. by case_bool_decide.
Qed.

(** What the store is after the consumer earned points for a message. *)
Definition earned_store (ev : IntegrationEvent OrderPaidPayload) (tier : RewardTier) (r : LoyaltyAccountRow) (s : LoyaltyStore) : LoyaltyStore :=
  mkStore (on_row (lr_id r) (earned_row ev tier) <$> st_rows s) (st_outbox s ++ (pair (lr_tenantId r) <$> earned_events ev tier r)).

Inductive paid_case (ev : IntegrationEvent OrderPaidPayload) (s : LoyaltyStore) : Prop :=
| pc_inert : inert ev s -> paid_handle ev s = (Ok tt, s) -> paid_case ev s
| pc_replay r : inert ev s -> r ∈ st_rows s ->
    paid_handle ev s = (Ok tt, mkStore (on_row (lr_id r) bump <$> st_rows s) (st_outbox s)) -> paid_case ev s
| pc_active r res : blank (ev_tenantId _ ev) = false -> points_of ev <> 0 ->
    owner (ev_tenantId _ ev) (op_customerRef (order_of ev)) (st_rows s) = Some r -> ~ inert_for ev r ->
    resolveTier (lr_balance r + points_of ev) tiers = res ->
    paid_handle ev s = match res with Ok tier => (Ok tt, earned_store ev tier r s) | Err e => (Err e, s) end -> paid_case ev s.

Lemma paid_handle_owner ev s :
  paid_handle ev s =
    if blank (ev_tenantId _ ev) then (Ok tt, s)
    else match owner (ev_tenantId _ ev) (op_customerRef (order_of ev)) (st_rows s) with
    | None => (Ok tt, s)
    | Some r =>
        if negb (bool_decide (lr_status r = active)) then (Ok tt, s)
        else if bool_decide (points_of ev = 0) then (Ok tt, s)
        else EarnPoints (lr_id r) (ev_tenantId _ ev) (key_of ev) (points_of ev) (op_orderNumber (order_of ev))
          (event_id (ev_messageId ev)) (now (ev_messageId ev)) s
    end.
Proof.
  unfold paid_handle, findByCustomerRef, owner, gets, mbind, M_bind, mret, M_ret. destruct (blank _); [done|].

  destruct (head (filter _ (st_rows s))) as [r|]; [|done]. cbn. destruct (negb _); [done|]. by destruct (bool_decide _).
Qed.

Lemma on_row_ext s r f g : store_ok s -> r ∈ st_rows s -> f r = g r -> on_row (lr_id r) f <$> st_rows s = on_row (lr_id r) g <$> st_rows s.
Proof.
  intros Hs Hr E. apply fmap_ext_elem. intros x Hx. unfold on_row. case_bool_decide; [|done].
  by rewrite (NoDup_fmap_elem lr_id (st_rows s) x r) by (try apply Hs; done).
Qed.

Lemma paid_cases ev s : store_ok s -> paid_case ev s.
Proof.
  intros Hs. assert (H := paid_handle_owner ev s). destruct (blank (ev_tenantId _ ev)) eqn:Hb; [by apply pc_inert; [left|]|].
  destruct (owner _ _ _) as [r|] eqn:Ho; [|apply pc_inert; [|done]; right; right; by rewrite Ho].
  destruct (owner_elem _ _ _ _ Ho) as (Hr & Ht & _).
  destruct (decide (lr_status r = active)) as [Ha|Ha].
  2: { apply pc_inert; [right; right; rewrite Ho; intros r' [= <-]; by left|]. by rewrite bool_decide_false in H. }
  rewrite (bool_decide_true (lr_status r = active)) in H by done.
  destruct (decide (points_of ev = 0)) as [Hp|Hp].
  1: { apply pc_inert; [by right; left|]. by rewrite bool_decide_true in H. }
  rewrite (bool_decide_false (points_of ev = 0)), <- Ht, EarnPoints_existing in H by done. cbn [negb] in H.
  assert (He := earn_row ev r). fold (earn_paid ev) in H. destruct (decide (key_of ev ∈ _)) as [Hk|Hk].
  - rewrite He in H. apply (pc_replay ev s r); [right; right; rewrite Ho; intros r' [= <-]; by right|done|].
    rewrite H. unfold write_outbox. cbn. rewrite app_nil_r. by rewrite (on_row_ext s r _ bump).
  - destruct (decide (lr_status r = active)) as [_|?]; [|done].
    eapply pc_active; [done|done|exact Ho|by intros [?|?]|reflexivity|].
    destruct (resolveTier (lr_balance r + points_of ev) tiers) as [tier|e].
    + rewrite He in H. rewrite H. unfold write_outbox, earned_store. cbn. by rewrite (on_row_ext s r _ (earned_row ev tier)).
    + destruct (earn_paid ev (toDomain r)) as [[?|e'] a']; [done|]. injection He as ->. exact H.
Qed.

Lemma store_row_ok s r : store_ok s -> r ∈ st_rows s -> row_ok r.
Proof. intros (_ & _ & H) Hr. by eapply Forall_forall in H. Qed.

Lemma earned_row_ok ev tier r : row_ok r -> ~ inert_for ev r -> row_ok (earned_row ev tier r).
Proof.
  intros (Hv & Hs & Hn) Hk. unfold row_ok. cbn. split_and!; [lia|by rewrite sumZ_app, sumZ_cons, sumZ_nil, Hs, Z.add_0_r|].
  rewrite fmap_app. apply NoDup_app. split; [done|]. split; [|apply NoDup_singleton].
  intros k Hin ->%list_elem_of_singleton. apply Hk. by right.
Qed.

Lemma bump_ok r : row_ok r -> row_ok (bump r).
Proof. intros (Hv & ? & ?). split; [cbn; lia|done]. Qed.

Lemma earned_store_ok ev tier r s t c : store_ok s -> owner t c (st_rows s) = Some r -> ~ inert_for ev r -> store_ok (earned_store ev tier r s).
Proof. intros Hs [Hr _]%owner_elem Hk. apply store_ok_on_row; try done. apply earned_row_ok; [by eapply store_row_ok|done]. Qed.

(** Handling a message makes it inert, and leaves inert what was. *)
Lemma paid_handle_inert ev ev' s s' : store_ok s -> paid_handle ev s = (Ok tt, s') ->
  inert ev s' /\ (inert ev' s -> inert ev' s').
Proof.
  intros Hs H. destruct (paid_cases ev s Hs) as [Hi He|r Hi Hr He|r res Hb Hp Ho Hk Ht He]; rewrite H in He.
  - by injection He as ->.
  - injection He as ->. split; [|intros Hi']; apply inert_on_row; try done.
  - destruct res as [tier|e]; [|done]. injection He as ->. split.
    + right; right. cbn. rewrite owner_on_row, Ho by done. intros r' [= <-]. unfold on_row. rewrite bool_decide_true by done.
      right. cbn. rewrite fmap_app, elem_of_app. right. left.
    + intros Hi'. apply inert_on_row; try done. intros x. split; [done|]. by eexists.
Qed.

Lemma settled_inert ev s : store_ok s -> settled paid_handle ev s <-> inert ev s.
Proof.
  intros Hs. destruct (paid_cases ev s Hs) as [Hi He|r Hi Hr He|r res Hb Hp Ho Hk Ht He].
  - split; [done|]. intros _. by exists s.
  - split; [done|]. intros _. eexists. split; [exact He|apply bump_equiv].
  - split; [|intros [H|[H|H]]; [congruence|done|by destruct (Hk (H r Ho))]].
    intros (s' & H & E). rewrite H in He. destruct res as [tier|e]; [|done]. injection He as ->.
    apply (owner_equiv (ev_tenantId _ ev) (op_customerRef (order_of ev))) in E. cbn in E.
    rewrite owner_on_row, Ho in E by done. cbn in E. unfold on_row in E. rewrite bool_decide_true in E by done.
    injection E as _ _ E. apply (f_equal length) in E. rewrite length_app in E. cbn in E. lia.
Qed.

Lemma erase_earned id ev tier r : erase (on_row id (earned_row ev tier) (erase r)) = erase (on_row id (earned_row ev tier) r).
Proof. unfold on_row. cbn. by case_bool_decide. Qed.

Lemma earned_store_equiv ev tier r1 r2 s1 s2 : erase r1 = erase r2 -> s1 ≡ s2 -> earned_store ev tier r1 s1 ≡ earned_store ev tier r2 s2.
Proof.
  intros Er [E1 E2]. injection Er as Ei Et Ec En Eb Es Etx. split; cbn.
  - rewrite <- Ei, <- !list_fmap_compose, <- !(list_fmap_ext _ _ _ (fun _ r _ => erase_earned (lr_id r1) ev tier r)).
    rewrite !(list_fmap_compose erase (fun r => erase (on_row (lr_id r1) (earned_row ev tier) r))). by rewrite E1.
  - unfold earned_events. by rewrite E2, Ei, Et, Ec, En, Eb.
Qed.

Lemma paid_handle_store_ok ev s r s' : store_ok s -> paid_handle ev s = (r, s') -> store_ok s'.
Proof.
  intros Hs H. destruct (paid_cases ev s Hs) as [Hi He|r0 Hi Hr He|r0 res Hb Hp Ho Hk Ht He]; rewrite H in He.
  - by injection He as -> ->.
  - injection He as -> ->. apply store_ok_on_row; try done. apply bump_ok. by eapply store_row_ok.
  - destruct res; injection He as -> ->; [|done]. by eapply earned_store_ok.
Qed.

#[export] Instance paid_handle_idempotent : IdempotentHandler paid_handle store_ok.
Proof.
  split.
  - exact paid_handle_store_ok.
  - intros ev s1 s2 s1' H1 H2 E H. destruct (paid_cases ev s1 H1) as [Hi He|r Hi Hr He|r res Hb Hp Ho Hk Ht He]; rewrite H in He.
    + injection He as ->. destruct (proj2 (settled_inert ev s2 H2) (inert_equiv _ _ _ E Hi)) as (s2' & Hs & Es).
      exists s2'. split; [done|]. by rewrite E, Es.
    + injection He as ->. destruct (proj2 (settled_inert ev s2 H2) (inert_equiv _ _ _ E Hi)) as (s2' & Hs & Es).
      exists s2'. split; [done|]. by rewrite bump_equiv, E, Es.
    + destruct res as [tier|e]; [|done]. injection He as ->.
      assert (Hn : ~ inert ev s2) by (intros [?|[?|Hin]]%(inert_equiv ev s2 s1 (symmetry E)); [congruence|done|by apply Hk, Hin]).
      destruct (paid_cases ev s2 H2) as [?|? ?|r2 res2 _ _ Ho2 Hk2 Ht2 He2]; [done..|].
      assert (Ho' := owner_equiv (ev_tenantId _ ev) (op_customerRef (order_of ev)) s1 s2 E). rewrite Ho, Ho2 in Ho'. cbn in Ho'.
      injection Ho' as Ei Et Ec En Eb Es Etx. rewrite <- Eb, Ht in Ht2. subst res2. eexists. split; [exact He2|].
      apply earned_store_equiv; [|done]. unfold erase. congruence.
  - intros ev s s' Hs H. assert (Hs' : store_ok s') by by by eapply paid_handle_store_ok. apply settled_inert; [done|]. exact (proj1 (paid_handle_inert ev ev s s' Hs H)).
  - intros ev ev' s s' Hs Hi H. assert (Hs' : store_ok s') by by by eapply paid_handle_store_ok. apply settled_inert; [done|].
    apply (proj2 (paid_handle_inert ev' ev s s' Hs H)). by apply settled_inert.
  - intros ev s e s' Hs H. destruct (paid_cases ev s Hs) as [Hi He|r0 Hi Hr He|r0 res Hb Hp Ho Hk Ht He]; rewrite H in He; try done.
    destruct res; [done|]. by injection He as _ ->.
Qed.

#[export] Instance OrderPaidPayload_eq_dec : EqDecision OrderPaidPayload.
Proof. solve_decision. Defined.
#[export] Instance paid_event_eq_dec : EqDecision (IntegrationEvent OrderPaidPayload).
Proof. solve_decision. Defined.

(** C37: paid orders earn points once, although handling and recording a message are separate steps. After
    any run of the workers, with duplicate deliveries, races and crashes between the two, the accounts are
    what handling some distinct messages, all of them delivered, one after the other gives (the saved
    versions and nothing else may differ, and the events are the same). Every message id in the inbox is that
    of one of these messages, and so is every message a worker is about to record: none is recorded that was
    not handled. Every account's balance is still the sum of its ledger with one entry per key, and each of
    these messages succeeds and earns nothing when it is handled again. *)
Theorem paid_orders_earn_points_once deserialize hasUnitOfWork s0 w :
  store_ok s0 -> rtc (wstep deserialize LoyaltyOrdersPaidConsumer hasUnitOfWork) (fresh_world s0) w ->
  exists log s, NoDup log /\ Forall (received deserialize) log /\ run_ops paid_handle log s0 = (Ok tt, s) /\
    erase <$> st_rows s = erase <$> st_rows (gs_domain (w_group w)) /\ st_outbox s = st_outbox (gs_domain (w_group w)) /\
    (forall id, id ∈ gs_processed (w_group w) -> exists ev, ev ∈ log /\ ev_messageId ev = id) /\
    (forall n ev, w_workers w !! n = Some (d_marking ev) -> ev ∈ log) /\
    Forall row_ok (st_rows (gs_domain (w_group w))) /\
    forall ev, ev ∈ log ->
      exists s', paid_handle ev (gs_domain (w_group w)) = (Ok tt, s') /\
        erase <$> st_rows s' = erase <$> st_rows (gs_domain (w_group w)) /\ st_outbox s' = st_outbox (gs_domain (w_group w)).
Proof.
  intros Hs Hr. assert (Ha : atomically LoyaltyOrdersPaidConsumer hasUnitOfWork = None) by (destruct hasUnitOfWork; reflexivity).
  destruct (plain_runs_effectively_once _ _ _ paid_handle store_ok s0 w Hs Ha eq_refl Hr)
    as (log & s & Hn & Hrun & [E1 E2] & _ & (_ & _ & Hok) & Hset & Hmark & Hinbox & Hrec & _).
  exists log, s. do 8 (split; [done|]). intros ev Hev. destruct (Hset ev Hev) as (s' & H & [E3 E4]). by exists s'.
Qed.
End loyalty.

(** ** Witnesses *)

Definition sample_tiers : list RewardTier := [mkTier "gold" 1000; mkTier "bronze" 0; mkTier "silver" 500].
Definition sample_account (id : string) : LoyaltyAccount := new_agg (mkAccount "cust" active 0 sample_tiers "bronze" []) id.
Definition first_calls : list (AccountOp * string * Z) := [(ao_earn "k1" 2000 "o1", "e1", 1); (ao_spend "k2" 1600 "o2", "e2", 2)].
Definition later_calls : list (AccountOp * string * Z) := [(ao_earn "k1" 9 "o9", "e3", 3); (ao_cashback "k3" 1 "o3", "e4", 4); (ao_transition closed, "e5", 5)].
Definition after_first : LoyaltyAccount := (run_ops account_exec first_calls (sample_account "a")).2.
Definition after_later : LoyaltyAccount := (run_ops account_exec later_calls after_first).2.

(** 2000 points earned and 1600 spent; then a replay, one point of cashback, and the account is closed. *)
Lemma loyalty_ledger_is_exact_witness :
  la_points (agg_props after_later) = 401 /\ length (la_transactions (agg_props after_later)) = 3%nat /\
  la_points (agg_props after_later) = sumZ tx_pointsDelta (la_transactions (agg_props after_later)) /\
  0 <= la_points (agg_props after_later).
Proof.
  destruct (loyalty_ledger_is_exact "a" "cust" sample_tiers (sample_account "a") first_calls later_calls tt tt after_first after_later)
    as (H & _ & _ & _ & _ & Hp); [by vm_compute..|].
  split_and!; [by vm_compute|by vm_compute|exact H|]. apply Hp. apply (bool_decide_eq_true_1 _). by vm_compute.
Defined.

(** The key of the first earning comes again with other points, as a spending, on a closed account. *)
Lemma loyalty_replay_changes_nothing_witness :
  account_exec (ao_spend "k1" 5 "o7", "e6", 6) after_later = (Ok tt, after_later).
Proof.
  by apply (loyalty_replay_changes_nothing (ao_earn "k1" 2000 "o1", "e1", 1)
    ((ao_spend "k2" 1600 "o2", "e2", 2) :: later_calls) (ao_spend "k1" 5 "o7", "e6", 6) "k1" (sample_account "a") tt
    (account_exec (ao_earn "k1" 2000 "o1", "e1", 1) (sample_account "a")).2 tt after_later); vm_compute.
Defined.

(** Gold with 400 points left, one more point makes the account bronze, and the event says "upgraded". *)
Lemma earning_resolves_tier_witness :
  la_tierName (agg_props after_first) = "gold" /\
  let a' := (account_exec (ao_earn "k3" 1 "o3", "e3", 3) after_first).2 in
  la_tierName (agg_props a') = "bronze" /\ exists t, tier_for 401 sample_tiers t /\ rt_name t = "bronze".
Proof.
  split; [by vm_compute|]. split; [by vm_compute|].
  destruct (earning_resolves_tier (ao_earn "k3" 1 "o3") "e3" 3 "k3" after_first tt (account_exec (ao_earn "k3" 1 "o3", "e3", 3) after_first).2)
    as (t & first & Ht & Hn & _); [done|done|by apply (bool_decide_eq_true_1 _); vm_compute|by vm_compute|].
  exists t. split; [exact Ht|]. rewrite <- Hn. by vm_compute.
Defined.

(** A worker handles a message and crashes before recording it; the message is delivered, handled and
    recorded again. *)
Definition sample_order : OrderPaidPayload := mkOrderPaid "o1" "cust" "pay1" "SAR" 250075.
Definition sample_paid : IntegrationEvent OrderPaidPayload := mkEvent "m1" "t1" sample_order.
Definition sample_row : LoyaltyAccountRow := mkRow "a" "t1" "cust" "bronze" 0 active [] 1.
Definition sample_store : LoyaltyStore := mkStore [sample_row] [].
Definition sample_clock (_ : string) : Z := 7.
Definition sample_paid_handle := paid_handle sample_tiers id sample_clock.
Definition store_after (n : nat) : LoyaltyStore := Nat.iter n (fun s => (sample_paid_handle sample_paid s).2) sample_store.

Lemma paid_orders_earn_points_once_witness :
  lr_balance <$> st_rows (store_after 2) = [2500] /\ lr_version <$> st_rows (store_after 2) = [3] /\
  exists log s, NoDup log /\ run_ops sample_paid_handle log sample_store = (Ok tt, s) /\
    erase <$> st_rows s = erase <$> st_rows (store_after 2) /\ exists ev, ev ∈ log /\ ev_messageId ev = "m1".
Proof.
  split; [by vm_compute|]. split; [by vm_compute|].
  set (consumer := LoyaltyOrdersPaidConsumer sample_tiers id sample_clock). set (des := fun _ : list Ascii.ascii => Ok sample_paid : result (IntegrationEvent OrderPaidPayload)).
  set (g n := mkGroup (store_after n) ∅ [] []).
  set (g' := mkGroup (store_after 2) {["m1"]} [] []).
  destruct (paid_orders_earn_points_once sample_tiers id sample_clock des true sample_store (mkWorld g' ∅)) as (log & s & H1 & _ & H2 & H3 & _ & H4 & _).
  - split_and!; try (apply (bool_decide_eq_true_1 _); by vm_compute).
  - eapply rtc_l; [by apply (ws_receive des consumer true 0 sample_paid [] (g 0%nat) ∅)|].
    eapply rtc_l; [by apply (ws_handle des consumer true 0 sample_paid (Ok tt) (g 0%nat) (g 1%nat) _)|].
    eapply rtc_l; [by apply (ws_crash des consumer true 0 (g 1%nat))|].
    eapply rtc_l; [by apply (ws_receive des consumer true 0 sample_paid [] (g 1%nat) _)|].
    eapply rtc_l; [by apply (ws_handle des consumer true 0 sample_paid (Ok tt) (g 1%nat) (g 2%nat) _)|].
    eapply rtc_l; [by apply (ws_mark des consumer true 0 sample_paid (Ok true) (g 2%nat) g' _)|].
    apply rtc_refl.
  - exists log, s. do 3 (split; [done|]). apply H4. cbn. set_solver.
Defined.
