(* ===== verification/Tax.v ===== *)
(** Taxes of the Finance context: [services/finance/src/domain/tax-settings.ts] and
    [tax-calculation.ts]. Where a shop collects tax, how the order discount is shared over the lines in proportion, and
    the tax of what is left, rounded half up line by line. *)
From S2P Require Import Prelude Kernel Promotions Discounts.

#[global] Open Scope Z_scope.

(** ** Settings *)

Definition MAX_RATE_BASIS_POINTS : Z := 10000.

Record ProvinceRate := mkProvince { pv_code : string; pv_rateBasisPoints : Z }.
Record TaxRegionInput := mkRegionInput {
  ri_countryCode : string; ri_rateBasisPoints : jsnum; ri_provinces : list (string * jsnum) }.
Record TaxRegion := mkRegion {
  rg_id : string; rg_countryCode : string; rg_rateBasisPoints : Z; rg_provinces : list ProvinceRate }.

Definition validRate (value : jsnum) : option Z :=
  match integer_from 0 value with
  | Some n => if bool_decide (n <= MAX_RATE_BASIS_POINTS) then Some n else None
  | None => None
  end.

Definition issue_if (b : bool) (field message : string) : list FieldIssue :=
  if b then [mkFieldIssue field message] else [].

(** The loop over the provinces, with the codes seen so far. *)
Fixpoint province_issues (country : string) (seen : list string) (ps : list (string * jsnum)) : list FieldIssue :=
  match ps with
  | [] => []
  | (code, rate) :: ps' =>
      issue_if (negb (String.prefix (country +:+ "-") code)) "provinces" (code +:+ " is not a province of " +:+ country) ++
      issue_if (bool_decide (code ∈ seen)) "provinces" (code +:+ " is listed twice") ++
      issue_if (bool_decide (validRate rate = None)) "provinces"
        (code +:+ ": the rate must be a whole number from 0 to 10000") ++
      province_issues country (code :: seen) ps'
  end.

Definition cleanRegion_issues (x : TaxRegionInput) : list FieldIssue :=
  issue_if (negb (two_letter (ri_countryCode x))) "countryCode" "must be an ISO 3166-1 alpha-2 code" ++
  issue_if (bool_decide (validRate (ri_rateBasisPoints x) = None)) "rateBasisPoints" "must be a whole number from 0 to 10000" ++
  province_issues (ri_countryCode x) [] (ri_provinces x).

Definition clean_province (p : string * jsnum) : ProvinceRate := mkProvince p.1 (default 0 (validRate p.2)).

(** [TaxRegion.create]. The rates kept are the ones checked, so they are whole numbers. *)
Definition TaxRegion_create (id : string) (x : TaxRegionInput) : result TaxRegion :=
  match cleanRegion_issues x with
  | [] => Ok (mkRegion id (ri_countryCode x) (default 0 (validRate (ri_rateBasisPoints x)))
            (sort_by (fun a b => string_le (pv_code a) (pv_code b)) (clean_province <$> ri_provinces x)))
  | issues => Err (ValidationError "Invalid tax region" issues)
  end.

Definition rateFor (r : TaxRegion) (province : option string) : Z :=
  match province ≫= (fun code => list_find (fun p => pv_code p = code) (rg_provinces r)) with
  | Some (_, p) => pv_rateBasisPoints p
  | None => rg_rateBasisPoints r
  end.

Record TaxSettings := mkSettings { includesTax : bool; taxesShipping : bool; taxRegions : list TaxRegion }.
Definition defaults : TaxSettings := mkSettings true false [].

Definition regionFor (s : TaxSettings) (country : string) : option TaxRegion :=
  snd <$> list_find (fun r => rg_countryCode r = country) (taxRegions s).

Definition setFlags (pricesIncludeTax chargeTaxOnShipping : bool) : M TaxSettings unit :=
  modify (fun s => mkSettings pricesIncludeTax chargeTaxOnShipping (taxRegions s)).

Definition with_regions (f : list TaxRegion -> list TaxRegion) (s : TaxSettings) : TaxSettings :=
  mkSettings (includesTax s) (taxesShipping s) (f (taxRegions s)).

Definition upsertRegion (id : string) (x : TaxRegionInput) : M TaxSettings unit :=
  s ← gets (fun s => s);
  match list_find (fun r => rg_countryCode r = ri_countryCode x) (taxRegions s) with
  | Some (i, current) =>
      region ← lift (TaxRegion_create (rg_id current) x);
      modify (with_regions (fun rs => <[i := region]> rs))
  | None =>
      region ← lift (TaxRegion_create id x);
      modify (with_regions (fun rs => rs ++ [region]))
  end.

Definition removeRegion (country : string) : M TaxSettings unit :=
  s ← gets (fun s => s);
  match list_find (fun r => rg_countryCode r = country) (taxRegions s) with
  | Some (i, _) => modify (with_regions (fun rs => delete i rs))
  | None => throw (NotFoundError "Tax region not found")
  end.

Inductive SettingsOp :=
| op_setFlags (pricesIncludeTax chargeTaxOnShipping : bool)
| op_upsertRegion (id : string) (x : TaxRegionInput)
| op_removeRegion (country : string).

Definition settings_exec (op : SettingsOp) : M TaxSettings unit :=
  match op with
  | op_setFlags a b => setFlags a b
  | op_upsertRegion id x => upsertRegion id x
  | op_removeRegion c => removeRegion c
  end.

(** ** The calculation *)

Record TaxableLine := mkTaxable { tl_unitPriceMinor : Z; tl_quantity : Z; tl_taxable : bool }.
Record TaxDestination := mkDestination { td_country : string; td_province : option string }.
Record TaxResult := mkTaxResult { tx_taxMinor : Z; tx_included : bool }.
Record TaxDiscounts := mkTaxDiscounts { tdi_orderMinor : option Z; tdi_shippingMinor : option Z }.

Definition total_of (amounts : list Z) : Z := sumZ (fun a => a) amounts.

Definition remainders_of (discount total : Z) (amounts : list Z) : list (nat * Z) :=
  imap (fun i a => (i, (discount * a) mod total)) amounts.

Definition allocateDiscount (amounts : list Z) (discountMinor : Z) : list Z :=
  let total := total_of amounts in
  let discount := Z.min (Z.max 0 discountMinor) total in
  if bool_decide (total = 0) || bool_decide (discount = 0) then (fun _ => 0) <$> amounts
  else
    let shares := (fun a => discount * a / total) <$> amounts in
    let left := discount - total_of shares in
    let bumped := fst <$> take (Z.to_nat left) (sort_by (fun a b => b.2 <=? a.2) (remainders_of discount total amounts)) in
    imap (fun i s => if bool_decide (i ∈ bumped) then s + 1 else s) shares.

Definition roundedShare (amountMinor basisPoints divisor : Z) : Z :=
  (2 * (amountMinor * basisPoints) + divisor) / (2 * divisor).

(** [taxOf] *)
Definition tax_of (included : bool) (rate amountMinor : Z) : Z :=
  if included then roundedShare amountMinor rate (10000 + rate) else roundedShare amountMinor rate 10000.

Definition line_amount (l : TaxableLine) : Z := tl_unitPriceMinor l * tl_quantity l.

Definition calculateTax (settings : TaxSettings) (lines : list TaxableLine) (destination : TaxDestination)
    (shippingMinor : Z) (discounts : TaxDiscounts) : TaxResult :=
  let included := includesTax settings in
  match regionFor settings (td_country destination) with
  | None => mkTaxResult 0 included
  | Some region =>
      let rate := rateFor region (td_province destination) in
      let amounts := line_amount <$> lines in
      let shares := allocateDiscount amounts (default 0 (tdi_orderMinor discounts)) in
      let lines_tax := sumZ (fun i =>
        match lines !! i with
        | Some l => if tl_taxable l then tax_of included rate (default 0 (amounts !! i) - default 0 (shares !! i)) else 0
        | None => 0
        end) (seq 0 (length lines)) in
      let shippingAfterDiscount := Z.max 0 (shippingMinor - Z.max 0 (default 0 (tdi_shippingMinor discounts))) in
      mkTaxResult (lines_tax + if taxesShipping settings && bool_decide (0 < shippingAfterDiscount)
                               then tax_of included rate shippingAfterDiscount else 0) included
  end.

(** ** Lemmas: the discount's shares *)

Lemma sort_insert_map {A B} (f : A -> B) (le : B -> B -> bool) x l :
  sort_insert le (f x) (f <$> l) = f <$> sort_insert (fun a b => le (f a) (f b)) x l.
Proof. induction l as [|y l IH]; cbn; [done|]. destruct (le (f x) (f y)); cbn; [done|]. by rewrite <- IH. Qed.

Lemma sort_by_map {A B} (f : A -> B) (le : B -> B -> bool) l :
  sort_by le (f <$> l) = f <$> sort_by (fun a b => le (f a) (f b)) l.
Proof.
  unfold sort_by. induction l as [|x l IH]; [done|]. rewrite fmap_cons. cbn [foldr].
  by rewrite IH, sort_insert_map.
Qed.

(** The lines' amounts as the entries of an allocation: the discount is shared the way [allocate] shares one. *)
Definition as_entries (amounts : list Z) : list (string * Z) := pair EmptyString <$> amounts.

Lemma entries_total amounts : sumZ snd (as_entries amounts) = total_of amounts.
Proof. unfold as_entries. by rewrite sumZ_map. Qed.

Lemma remainders_shares d amounts :
  remainders_of d (total_of amounts) amounts =
    (fun s => (sh_index s, sh_fraction s)) <$> shares_of d (total_of amounts) (as_entries amounts).
Proof.
  apply list_eq. intros i. unfold remainders_of, shares_of, as_entries.
  rewrite list_lookup_fmap, !list_lookup_imap, list_lookup_fmap. by destruct (amounts !! i).
Qed.

Lemma floors_shares d amounts :
  (fun a => d * a / total_of amounts) <$> amounts =
    sh_value <$> shares_of d (total_of amounts) (as_entries amounts).
Proof.
  apply list_eq. intros i. unfold shares_of, as_entries.
  rewrite !list_lookup_fmap, list_lookup_imap, list_lookup_fmap. by destruct (amounts !! i).
Qed.

Lemma shares_position d total amounts (i : nat) s : shares_of d total (as_entries amounts) !! i = Some s -> sh_index s = i.
Proof.
  unfold shares_of. rewrite list_lookup_imap. by intros (b & _ & ->)%fmap_Some.
Qed.

Lemma allocateDiscount_spec amounts discountMinor :
  (forall a, a ∈ amounts -> 0 <= a) ->
  Forall2 (fun a s => 0 <= s <= a) amounts (allocateDiscount amounts discountMinor) /\
  total_of (allocateDiscount amounts discountMinor) = Z.min (Z.max 0 discountMinor) (total_of amounts).
Proof.
  intros Ha. assert (0 <= total_of amounts) by by apply sumZ_nonneg.
  unfold allocateDiscount. cbn zeta.
  set (d := Z.min _ _). assert (Hdef : d = Z.min (Z.max 0 discountMinor) (total_of amounts)) by done. clearbody d.
  destruct (bool_decide (total_of amounts = 0) || bool_decide (d = 0)) eqn:Hz.
  - assert (d = 0) by (apply orb_true_iff in Hz; rewrite !bool_decide_eq_true in Hz; lia).
    split; [apply Forall2_fmap_r, Forall_Forall2_diag, Forall_forall; intros a ?%Ha; cbn; lia|].
    unfold total_of. rewrite sumZ_map. rewrite (sumZ_const _ 0) by done. lia.
  - apply orb_false_iff in Hz as [H1%bool_decide_eq_false H2%bool_decide_eq_false].
    assert (Hb : forall b, b ∈ as_entries amounts -> 0 <= b.2) by (by intros b (a & -> & ?%Ha)%list_elem_of_fmap).
    assert (Hd : 0 < d <= sumZ snd (as_entries amounts)) by (rewrite entries_total; lia).
    assert (Hat := value_bounds_at d _ Hb Hd). assert (Htot := value_total d _ Hb Hd).
    rewrite entries_total in Hat, Htot.
    rewrite remainders_shares, floors_shares, sort_by_map, <- fmap_take, <- list_fmap_compose.
    set (ss := shares_of d (total_of amounts) (as_entries amounts)) in *.
    cbn zeta.
    assert (Hv : total_of (sh_value <$> ss) = sumZ sh_value ss) by (unfold total_of; by rewrite sumZ_map).
    rewrite Hv. change (fst ∘ (fun s => (sh_index s, sh_fraction s))) with sh_index.
    change (sort_by _ ss) with (by_fraction ss).
    set (value s := sh_value s + if bool_decide (sh_index s ∈ sh_index <$> take (Z.to_nat (d - sumZ sh_value ss)) (by_fraction ss)) then 1 else 0).
    assert (Hi : imap (fun i s => if bool_decide (i ∈ sh_index <$> take (Z.to_nat (d - sumZ sh_value ss)) (by_fraction ss)) then s + 1 else s)
      (sh_value <$> ss) = value <$> ss).
    { apply list_eq. intros i. rewrite list_lookup_imap, !list_lookup_fmap.
      destruct (ss !! i) as [s|] eqn:Hs; cbn; [|done]. rewrite <- (shares_position _ _ _ _ _ Hs).
      unfold value. case_bool_decide; f_equal; lia. }
    rewrite Hi. split; [|unfold total_of at 1; rewrite sumZ_map; etransitivity; [exact Htot|done]].
    apply Forall2_fmap_r, Forall2_lookup. intros i. destruct (ss !! i) as [s|] eqn:Hs.
    + destruct (Hat s (list_elem_of_lookup_2 _ _ _ Hs)) as (a & Hb' & Hbound & _).
      rewrite (shares_position _ _ _ _ _ Hs) in Hb' at 1. unfold as_entries in Hb'.
      rewrite list_lookup_fmap in Hb'. apply fmap_Some in Hb' as (a' & -> & [= _ <-]). by constructor.
    + assert (amounts !! i = None) as ->; [|constructor]. revert Hs. unfold ss, shares_of, as_entries.
      rewrite list_lookup_imap, list_lookup_fmap. by destruct (amounts !! i).
Qed.

(** The order discount in proportion to the amounts: every line takes its exact share of it rounded down
    or, where a unit is left over, one unit more; the units left over go to the lines with the largest
    remainders, the earlier line first when remainders are equal. *)
Definition in_proportion (discount : Z) (amounts shares : list Z) : Prop :=
  let total := total_of amounts in
  Forall2 (fun a s => s = discount * a / total \/ s = discount * a / total + 1) amounts shares /\
  forall i j a b s u, amounts !! i = Some a -> shares !! i = Some s -> amounts !! j = Some b -> shares !! j = Some u ->
    s = discount * a / total + 1 -> u = discount * b / total ->
    (discount * b) mod total < (discount * a) mod total \/ ((discount * b) mod total = (discount * a) mod total /\ (i < j)%nat).

(** The sort by decreasing keys keeps the order of elements of one key. *)
Section stable.
Context {A : Type} (key : A -> Z) (earlier : A -> A -> Prop).
Definition comes_first (a b : A) : Prop := key b < key a \/ (key b = key a /\ earlier a b).

Lemma sort_insert_stable x l : Forall (earlier x) l -> StronglySorted comes_first l ->
  StronglySorted comes_first (sort_insert (fun a b => key b <=? key a) x l).
Proof.
  intros Hx Hl. induction Hl as [|y l Hl IH Hy]; cbn; [by repeat constructor|]. inversion Hx as [|? ? Hxy Hxl]; subst.
  destruct (Z.leb_spec (key y) (key x)).
  - constructor; [by constructor|]. constructor; [unfold comes_first; destruct (decide (key y = key x)); [by right|left; lia]|].
    apply Forall_forall. intros z Hz. rewrite Forall_forall in Hy, Hxl. unfold comes_first. destruct (Hy z Hz) as [?|[? _]]; [left; lia|].
    destruct (decide (key z = key x)); [right; split; [done|by apply Hxl]|left; lia].
  - constructor; [by apply IH|]. rewrite sort_insert_perm. constructor; [left; lia|done].
Qed.

Lemma sort_by_stable l : StronglySorted earlier l -> StronglySorted comes_first (sort_by (fun a b => key b <=? key a) l).
Proof.
  induction 1 as [|x l Hl IH Hx]; [constructor|]. apply (sort_insert_stable x (sort_by _ l)); [|done]. by rewrite sort_by_perm.
Qed.
End stable.

Lemma sorted_take_drop {A} (R : A -> A -> Prop) n l x y : StronglySorted R l -> x ∈ take n l -> y ∈ drop n l -> R x y.
Proof.
  intros Hl. revert n. induction Hl as [|z l Hl IH Hz]; intros n; [rewrite take_nil; by intros ?%elem_of_nil|].
  destruct n as [|n]; cbn; [by intros ?%elem_of_nil|]. intros [-> |Hx]%elem_of_cons Hy; [|by eapply IH].
  rewrite Forall_forall in Hz. apply Hz. rewrite <- (take_drop n l). apply elem_of_app. by right.
Qed.

Lemma remainders_in_order d total amounts : StronglySorted (fun a b : nat * Z => (a.1 < b.1)%nat) (remainders_of d total amounts).
Proof.
  unfold remainders_of. assert (H : forall n, StronglySorted (fun a b : nat * Z => (a.1 < b.1)%nat) (imap (fun i a => ((n + i)%nat, (d * a) mod total)) amounts)); [|exact (H 0%nat)].
  induction amounts as [|a l IH]; intros n; [constructor|]. cbn. constructor.
  - erewrite imap_ext; [exact (IH (S n))|]. intros i x _. cbn. f_equal. lia.
  - apply Forall_forall. intros x [i Hi]%list_elem_of_lookup. rewrite list_lookup_imap in Hi. apply fmap_Some in Hi as (y & _ & ->). cbn. lia.
Qed.

Lemma allocateDiscount_in_proportion amounts discountMinor :
  (forall a, a ∈ amounts -> 0 <= a) ->
  in_proportion (Z.min (Z.max 0 discountMinor) (total_of amounts)) amounts (allocateDiscount amounts discountMinor).
Proof.
  intros Ha. unfold allocateDiscount. cbn zeta. unfold in_proportion. cbn zeta. set (d := Z.min _ _). set (total := total_of amounts).
  destruct (bool_decide (total = 0) || bool_decide (d = 0)) eqn:Hz.
  - assert (Hf : forall a, a ∈ amounts -> d * a / total = 0).
    { intros a Hin. apply orb_true_iff in Hz. rewrite !bool_decide_eq_true in Hz. destruct Hz as [-> | ->]; [apply Z.div_0_r|done]. }
    split; [apply Forall2_fmap_r, Forall_Forall2_diag, Forall_forall; intros a Hin; left; by rewrite Hf|].
    intros i j a b s u Hi Hs _ _ E _. rewrite list_lookup_fmap, Hi in Hs. injection Hs as <-.
    rewrite Hf in E by by eapply list_elem_of_lookup_2. done.
  - clear Hz. set (rems := remainders_of d total amounts). set (k := Z.to_nat _). set (sorted := sort_by _ rems).
    assert (Hst : StronglySorted (comes_first snd (fun a b : nat * Z => (a.1 < b.1)%nat)) sorted) by apply sort_by_stable, remainders_in_order.
    assert (Hrem : forall i a, amounts !! i = Some a -> (i, (d * a) mod total) ∈ sorted).
    { intros i a Hi. unfold sorted. rewrite sort_by_perm. apply list_elem_of_lookup. exists i. unfold rems, remainders_of. by rewrite list_lookup_imap, Hi. }
    assert (Hone : forall i r, (i, r) ∈ sorted -> exists a, amounts !! i = Some a /\ r = (d * a) mod total).
    { intros i r Hi. unfold sorted in Hi. rewrite sort_by_perm in Hi. apply list_elem_of_lookup in Hi as [n Hn]. unfold rems, remainders_of in Hn.
      rewrite list_lookup_imap in Hn. apply fmap_Some in Hn as (a & Hn & [= -> ->]). by exists a. }
    split.
    + apply Forall2_lookup. intros i. rewrite list_lookup_imap, list_lookup_fmap. destruct (amounts !! i); constructor. case_bool_decide; [by right|by left].
    + intros i j a b s u Hi Hs Hj Hu Es Eu. rewrite list_lookup_imap, list_lookup_fmap, Hi in Hs. rewrite list_lookup_imap, list_lookup_fmap, Hj in Hu.
      cbn in Hs, Hu. injection Hs as Hs. injection Hu as Hu. destruct (decide (i ∈ fst <$> take k sorted)) as [Hbi|Hbi]; [|rewrite bool_decide_false in Hs by done; lia].
      destruct (decide (j ∈ fst <$> take k sorted)) as [Hbj|Hbj]; [rewrite bool_decide_true in Hu by done; lia|]. clear Hs Hu.
      apply list_elem_of_fmap in Hbi as ([i' r] & -> & Hbi). cbn in *.
      assert (r = (d * a) mod total) as ->.
      { destruct (Hone i' r) as (a' & Ha' & ->); [|congruence]. rewrite <- (take_drop k sorted). apply elem_of_app. by left. }
      assert (Hdrop : (j, (d * b) mod total) ∈ drop k sorted).
      { assert (Hin := Hrem j b Hj). rewrite <- (take_drop k sorted) in Hin. apply elem_of_app in Hin as [Hin|]; [|done].
        destruct Hbj. apply list_elem_of_fmap. by exists (j, (d * b) mod total). }
      exact (sorted_take_drop _ _ _ _ _ Hst Hbi Hdrop).
Qed.

(** ** Lemmas: the rounding *)

(** [t] is [num / den] rounded half up. *)
Definition half_up (num den t : Z) : Prop := den * (2 * t - 1) <= 2 * num < den * (2 * t + 1).

Lemma roundedShare_half_up a bp den : 0 < den -> half_up (a * bp) den (roundedShare a bp den).
Proof.
  intros H. unfold half_up, roundedShare. set (n := a * bp).
  assert (Hd := Z.div_mod (2 * n + den) (2 * den)). assert (Hm := Z.mod_pos_bound (2 * n + den) (2 * den)). nia.
Qed.

Definition tax_divisor (included : bool) (rate : Z) : Z := if included then 10000 + rate else 10000.

Lemma tax_of_spec included rate a :
  0 <= rate <= MAX_RATE_BASIS_POINTS -> 0 <= a ->
  half_up (a * rate) (tax_divisor included rate) (tax_of included rate a) /\ 0 <= tax_of included rate a <= a.
Proof.
  unfold MAX_RATE_BASIS_POINTS. intros Hr Ha.
  assert (H : half_up (a * rate) (tax_divisor included rate) (tax_of included rate a))
    by (unfold tax_of, tax_divisor; destruct included; apply roundedShare_half_up; lia).
  split; [done|]. revert H. unfold half_up, tax_divisor. generalize (tax_of included rate a). intros t H.
  destruct included; nia.
Qed.

(** ** Lemmas: the settings *)

Record region_ok (r : TaxRegion) : Prop := {
  rok_country : two_letter (rg_countryCode r) = true;
  rok_rate : 0 <= rg_rateBasisPoints r <= MAX_RATE_BASIS_POINTS;
  rok_provinces : forall p, p ∈ rg_provinces r ->
    String.prefix (rg_countryCode r +:+ "-") (pv_code p) = true /\ 0 <= pv_rateBasisPoints p <= MAX_RATE_BASIS_POINTS;
  rok_codes : NoDup (pv_code <$> rg_provinces r) }.

Record settings_ok (s : TaxSettings) : Prop := {
  sok_countries : NoDup (rg_countryCode <$> taxRegions s);
  sok_regions : forall r, r ∈ taxRegions s -> region_ok r }.

Lemma issue_if_nil b f m : issue_if b f m = [] <-> b = false.
Proof. by destruct b. Qed.

Lemma validRate_default v : bool_decide (validRate v = None) = false -> 0 <= default 0 (validRate v) <= MAX_RATE_BASIS_POINTS.
Proof.
  intros H%bool_decide_eq_false. unfold validRate in *. destruct (integer_from 0 v) as [n|] eqn:Hn; [|done].
  apply integer_from_Some in Hn as [-> ?]. case_bool_decide; [cbn; lia|done].
Qed.

Lemma province_issues_nil country seen ps :
  province_issues country seen ps = [] ->
  NoDup ps.*1 /\ (forall p, p ∈ ps -> (p.1 ∉ seen) /\ String.prefix (country +:+ "-") (p.1) = true /\
    bool_decide (validRate p.2 = None) = false).
Proof.
  revert seen. induction ps as [|[code rate] ps IH]; intros seen H; cbn in H; cbn [fmap list_fmap fst].
  { split; [apply NoDup_nil_2|]. by intros p ?%not_elem_of_nil. }
  apply app_eq_nil in H as [H1%issue_if_nil%negb_false_iff H].
  apply app_eq_nil in H as [H2%issue_if_nil%bool_decide_eq_false H].
  apply app_eq_nil in H as [H3%issue_if_nil [Hn Hp]%IH]. split.
  - apply NoDup_cons. split; [|done]. intros (p & He & Hin)%list_elem_of_fmap.
    destruct (Hp p Hin) as [Hs _]. apply Hs. rewrite <- He. by apply elem_of_cons; left.
  - intros p [->|Hin]%elem_of_cons; [done|]. destruct (Hp p Hin) as (Hs & ? & ?). split; [|done].
    intros ?. apply Hs. by apply elem_of_cons; right.
Qed.

Lemma TaxRegion_create_ok id x r : TaxRegion_create id x = Ok r -> rg_countryCode r = ri_countryCode x /\ region_ok r.
Proof.
  unfold TaxRegion_create. destruct (cleanRegion_issues x) eqn:Hi; [|done]. intros [= <-]. split; [done|].
  apply app_eq_nil in Hi as [H1%issue_if_nil%negb_false_iff Hi].
  apply app_eq_nil in Hi as [H2%issue_if_nil%validRate_default [Hn Hp]%province_issues_nil].
  split; cbn; [done|done| |].
  - intros p. rewrite sort_by_perm. intros (q & -> & (_ & Hx & Hv)%Hp)%list_elem_of_fmap. split; [done|].
    by apply validRate_default.
  - rewrite sort_by_perm, <- list_fmap_compose. exact Hn.
Qed.

Lemma list_find_insert_NoDup (f : TaxRegion -> string) rs i r0 r c :
  list_find (fun x => f x = c) rs = Some (i, r0) -> f r = c -> f <$> <[i := r]> rs = f <$> rs.
Proof.
  intros (Hi & Hc & _)%list_find_Some Hr. apply list_eq. intros j. rewrite !list_lookup_fmap.
  destruct (decide (i = j)) as [<-|]; [|by rewrite list_lookup_insert_ne].
  rewrite Hi, list_lookup_insert_eq by by eapply lookup_lt_Some. cbn. congruence.
Qed.

Lemma settings_exec_ok op s r s' : settings_ok s -> settings_exec op s = (r, s') -> settings_ok s'.
Proof.
  intros [Hn Hr] H. destruct op as [a b|id x|c]; cbn in H.
  - by injection H as _ <-.
  - unfold upsertRegion, gets, lift, modify, mbind, M_bind in H. cbn beta iota in H. destruct (list_find _ _) as [[i r0]|] eqn:Hf; cbn in H.
    + destruct (TaxRegion_create _ x) as [rg|e] eqn:Hc; cbn in H; injection H as _ <-; [|done].
      apply TaxRegion_create_ok in Hc as [Hcode Hok].
      split; cbn; [by erewrite list_find_insert_NoDup|]. intros y [->|]%list_elem_of_insert_inv; auto.
    + destruct (TaxRegion_create _ x) as [rg|e] eqn:Hc; cbn in H; injection H as _ <-; [|done].
      apply TaxRegion_create_ok in Hc as [Hcode Hok]. apply list_find_None in Hf.
      split; cbn; [|intros y [|Hy]%elem_of_app; [auto|]; apply list_elem_of_singleton in Hy as ->; done].
      rewrite fmap_app. apply NoDup_app. split; [done|]. split; [|apply NoDup_singleton].
      intros k (y & -> & Hy)%list_elem_of_fmap Hk%list_elem_of_singleton.
      rewrite Forall_forall in Hf. apply (Hf y Hy). congruence.
  - unfold removeRegion, gets, modify, throw, mbind, M_bind in H. cbn beta iota in H. destruct (list_find _ _) as [[i r0]|] eqn:Hf; cbn in H; injection H as _ <-; [|done].
    assert (Hsub : sublist (delete i (taxRegions s)) (taxRegions s)) by apply sublist_delete.
    split; cbn.
    + eapply sublist_NoDup; [exact Hn|]. by apply fmap_sublist.
    + intros y Hy. apply Hr. by eapply elem_of_sublist.
Qed.

Lemma defaults_ok : settings_ok defaults.
Proof. split; [apply NoDup_nil_2|by intros ? ?%not_elem_of_nil]. Qed.

Lemma reachable_settings_ok ops r s : run_ops settings_exec ops defaults = (r, s) -> settings_ok s.
Proof.
  pose proof defaults_ok as H0. revert H0. generalize defaults. induction ops as [|op ops IH]; intros s0 H0 H; cbn in H; [by injection H as _ <-|].
  unfold mbind, M_bind in H. destruct (settings_exec op s0) as [[u|e] s1] eqn:Hop.
  - eapply IH; [|exact H]. by eapply settings_exec_ok.
  - injection H as _ <-. by eapply settings_exec_ok.
Qed.

Lemma regionFor_ok s c rg : settings_ok s -> regionFor s c = Some rg -> region_ok rg /\ rg_countryCode rg = c.
Proof.
  intros [_ Hr] H. unfold regionFor in H. apply fmap_Some in H as ([i r0] & Hf & ->).
  apply list_find_Some in Hf as (Hi & Hc & _). split; [|done]. apply Hr. by eapply list_elem_of_lookup_2.
Qed.

Lemma rateFor_range rg p : region_ok rg -> 0 <= rateFor rg p <= MAX_RATE_BASIS_POINTS.
Proof.
  intros [_ Hr Hp _]. unfold rateFor. destruct (p ≫= _) as [[i q]|] eqn:Hq; [|done].
  destruct p as [code|]; [|done]. cbn in Hq. apply list_find_Some in Hq as (Hi & _ & _).
  apply Hp. by eapply list_elem_of_lookup_2.
Qed.

(** The rate of a destination: none where the shop has no region. *)
Definition effectiveRate (s : TaxSettings) (d : TaxDestination) : Z :=
  match regionFor s (td_country d) with Some rg => rateFor rg (td_province d) | None => 0 end.

(** What is left of a line or of the shipping price is taxed as it should be. *)
Definition taxed (included : bool) (rate : Z) (taxable : bool) (net t : Z) : Prop :=
  if taxable then half_up (net * rate) (tax_divisor included rate) t /\ 0 <= t <= net else t = 0.

Lemma sum_by_index {A} (f : nat -> A -> Z) (l : list A) :
  sumZ (fun i => match l !! i with Some x => f i x | None => 0 end) (seq 0 (length l)) = sumZ (fun t => t) (imap f l).
Proof.
  revert f. induction l as [|x l IH]; intros f; [done|]. cbn [length seq]. rewrite sumZ_cons, imap_cons, sumZ_cons.
  cbn [lookup list_lookup]. f_equal. rewrite <- IH, <- fmap_S_seq, sumZ_map. done.
Qed.

Definition line_tax (included : bool) (rate : Z) (ln : TaxableLine * Z) : Z :=
  if tl_taxable ln.1 then tax_of included rate ln.2 else 0.

Definition net_amounts (lines : list TaxableLine) (discounts : TaxDiscounts) : list Z :=
  let amounts := line_amount <$> lines in
  zip_with Z.sub amounts (allocateDiscount amounts (default 0 (tdi_orderMinor discounts))).

Lemma tax_of_zero included a : tax_of included 0 a = 0.
Proof. unfold tax_of, roundedShare. rewrite Z.mul_0_r. by destruct included. Qed.

Lemma line_tax_zero included ln : line_tax included 0 ln = 0.
Proof. unfold line_tax. destruct (tl_taxable _); [apply tax_of_zero|done]. Qed.

Lemma calculateTax_sum s lines dest shippingMinor discounts :
  length (allocateDiscount (line_amount <$> lines) (default 0 (tdi_orderMinor discounts))) = length lines ->
  let rate := effectiveRate s dest in
  let shipping := Z.max 0 (shippingMinor - Z.max 0 (default 0 (tdi_shippingMinor discounts))) in
  tx_taxMinor (calculateTax s lines dest shippingMinor discounts) =
    total_of (line_tax (includesTax s) rate <$> zip lines (net_amounts lines discounts)) +
    if taxesShipping s && bool_decide (0 < shipping) then tax_of (includesTax s) rate shipping else 0.
Proof.
  intros Hl. cbn zeta. unfold calculateTax, effectiveRate.
  destruct (regionFor s (td_country dest)) as [rg|]; cbn [tx_taxMinor].
  - f_equal. rewrite (sum_by_index (fun i l => if tl_taxable l then tax_of _ _ (default 0 _ - default 0 _) else 0)).
    unfold total_of. f_equal. apply list_eq. intros i. unfold net_amounts.
    rewrite list_lookup_imap, !list_lookup_fmap, !lookup_zip_with, !list_lookup_fmap.
    destruct (lines !! i) as [l|] eqn:Hi; cbn; [|done].
    destruct (lookup_lt_is_Some_2 (allocateDiscount (line_amount <$> lines) (default 0 (tdi_orderMinor discounts))) i) as [x Hx].
    { rewrite Hl. by eapply lookup_lt_Some. }
    rewrite Hx. done.
  - rewrite tax_of_zero. unfold total_of. rewrite sumZ_map, (sumZ_const _ 0) by (intros; apply line_tax_zero).
    by destruct (_ && _).
Qed.

Lemma net_amounts_spec lines discounts :
  (forall l, l ∈ lines -> 0 <= tl_unitPriceMinor l /\ 0 <= tl_quantity l) ->
  length (allocateDiscount (line_amount <$> lines) (default 0 (tdi_orderMinor discounts))) = length lines /\
  Forall2 (fun l n => 0 <= n <= line_amount l) lines (net_amounts lines discounts) /\
  total_of (net_amounts lines discounts) = total_of (line_amount <$> lines) -
    Z.min (Z.max 0 (default 0 (tdi_orderMinor discounts))) (total_of (line_amount <$> lines)).
Proof.
  intros Hp. assert (Ha : forall a, a ∈ line_amount <$> lines -> 0 <= a).
  { intros a (l & -> & Hl%Hp)%list_elem_of_fmap. unfold line_amount. nia. }
  destruct (allocateDiscount_spec _ (default 0 (tdi_orderMinor discounts)) Ha) as [H1 <-].
  unfold net_amounts. revert H1. generalize (allocateDiscount (line_amount <$> lines) (default 0 (tdi_orderMinor discounts))).
  clear. induction lines as [|l lines IH]; intros shares H; inversion H as [|a x ? xs Hx Hxs]; subst; [done|].
  destruct (IH _ Hxs) as (IH1 & IH2 & IH3). cbn in *. split; [congruence|]. split.
  - constructor; [lia|done].
  - unfold total_of in *. rewrite !sumZ_cons, IH3. lia.
Qed.

Lemma effectiveRate_range s d : settings_ok s -> 0 <= effectiveRate s d <= MAX_RATE_BASIS_POINTS.
Proof.
  intros Hs. unfold effectiveRate. destruct (regionFor s _) as [rg|] eqn:Hrg; [|unfold MAX_RATE_BASIS_POINTS; lia].
  apply rateFor_range. by eapply regionFor_ok in Hrg as [? _].
Qed.

Lemma net_elem lines nets l n : Forall2 (fun l n => 0 <= n <= line_amount l) lines nets -> (l, n) ∈ zip lines nets ->
  0 <= n <= line_amount l.
Proof.
  intros Hn Hin. apply list_elem_of_lookup in Hin as [i Hi]. rewrite lookup_zip_with in Hi.
  destruct (lines !! i) eqn:E1, (nets !! i) eqn:E2; simplify_eq/=.
  by eapply Forall2_lookup_lr in Hn; [|exact E1|exact E2].
Qed.

Lemma calculateTax_nonneg s lines dest shippingMinor discounts : settings_ok s ->
  (forall l, l ∈ lines -> 0 <= tl_unitPriceMinor l /\ 0 <= tl_quantity l) ->
  0 <= tx_taxMinor (calculateTax s lines dest shippingMinor discounts).
Proof.
  intros Hs Hp. pose proof (effectiveRate_range s dest Hs) as Hr.
  destruct (net_amounts_spec lines discounts Hp) as (Hlen & Hn & _). rewrite calculateTax_sum by done.
  apply Z.add_nonneg_nonneg.
  - unfold total_of. apply sumZ_nonneg. intros t ([l n] & -> & Hin)%list_elem_of_fmap. unfold line_tax. cbn.
    destruct (tl_taxable l); [|done]. destruct (tax_of_spec (includesTax s) _ n Hr) as [_ ?]; [|lia].
    by eapply net_elem in Hin as [? _].
  - destruct (_ && _) eqn:Hb; [|done]. apply andb_true_iff in Hb as [_ Hb%bool_decide_eq_true].
    destruct (tax_of_spec (includesTax s) _ _ Hr (Z.lt_le_incl _ _ Hb)) as [_ ?]. lia.
Qed.

(** C31: tax is charged after discounts, exactly. Whatever configuration calls were made, and whether or
    not the last one threw, at most one region serves a country and every rate is from 0 to 100 percent.
    Then, for lines of non-negative amounts, the order discount, capped to the lines' total, is split over
    all the lines in proportion to their amounts: shares that add up to it, each the exact share rounded
    down or one unit more, the extra units on the largest remainders and on the earlier of equal ones. A
    line's net amount, from zero to its amount, is what its share leaves, and the tax is the sum, over
    taxable lines, of the net amount's tax at the destination's rate rounded half up, plus the same for the
    shipping price left after its discount when shipping is taxed. No tax exceeds what it is charged on, a
    line that is not taxable carries none, and a country without a region has rate zero. *)
Theorem tax_is_exact_after_discounts ops r s lines dest shippingMinor discounts :
  run_ops settings_exec ops defaults = (r, s) ->
  (forall l, l ∈ lines -> 0 <= tl_unitPriceMinor l /\ 0 <= tl_quantity l) ->
  let rate := effectiveRate s dest in
  let included := includesTax s in
  let shipping := Z.max 0 (shippingMinor - Z.max 0 (default 0 (tdi_shippingMinor discounts))) in
  NoDup (rg_countryCode <$> taxRegions s) /\ 0 <= rate <= MAX_RATE_BASIS_POINTS /\
  tx_included (calculateTax s lines dest shippingMinor discounts) = included /\
  exists shares nets taxes shipping_tax,
    let discount := Z.min (Z.max 0 (default 0 (tdi_orderMinor discounts))) (total_of (line_amount <$> lines)) in
    in_proportion discount (line_amount <$> lines) shares /\ total_of shares = discount /\
    nets = zip_with Z.sub (line_amount <$> lines) shares /\
    Forall2 (fun l n => 0 <= n <= line_amount l) lines nets /\
    total_of nets = total_of (line_amount <$> lines) -
      Z.min (Z.max 0 (default 0 (tdi_orderMinor discounts))) (total_of (line_amount <$> lines)) /\
    Forall2 (fun ln t => taxed included rate (tl_taxable ln.1) ln.2 t) (zip lines nets) taxes /\
    taxed included rate (taxesShipping s) shipping shipping_tax /\
    tx_taxMinor (calculateTax s lines dest shippingMinor discounts) = total_of taxes + shipping_tax.
Proof.
  intros Hs%reachable_settings_ok Hp. cbn zeta.
  pose proof (effectiveRate_range s dest Hs) as Hrate.
  destruct (net_amounts_spec lines discounts Hp) as (Hlen & Hn & Ht).
  split; [apply Hs|]. split; [done|]. split; [by unfold calculateTax; destruct (regionFor s _)|].
  assert (Ha : forall a, a ∈ line_amount <$> lines -> 0 <= a) by (intros a (l & -> & Hl%Hp)%list_elem_of_fmap; unfold line_amount; nia).
  exists (allocateDiscount (line_amount <$> lines) (default 0 (tdi_orderMinor discounts))), (net_amounts lines discounts), (line_tax (includesTax s) (effectiveRate s dest) <$> zip lines (net_amounts lines discounts)).
  rewrite (calculateTax_sum s lines dest shippingMinor discounts Hlen). eexists. split; [by apply allocateDiscount_in_proportion|].
  split; [by apply allocateDiscount_spec|]. repeat (split; [done|]). split; [|split; [|reflexivity]].
  - apply Forall2_fmap_r, Forall_Forall2_diag, Forall_forall. intros [l n] Hin. unfold taxed, line_tax. cbn.
    destruct (tl_taxable l); [|done]. apply tax_of_spec; [done|]. by eapply net_elem in Hin as [? _].
  - unfold taxed. destruct (taxesShipping s); cbn [andb]; [|done].
    set (ship := Z.max 0 _). assert (Hship := tax_of_spec (includesTax s) (effectiveRate s dest) ship Hrate).
    case_bool_decide as Hpos; [apply Hship; lia|].
    assert (0 <= ship) by (unfold ship; lia). assert (ship = 0) as He by lia. rewrite He in *.
    destruct Hship as [Hh Hb]; [lia|]. assert (tax_of (includesTax s) (effectiveRate s dest) 0 = 0) as Hz by lia.
    rewrite Hz in Hh. split; [done|lia].
Qed.

Definition egypt : SettingsOp := op_upsertRegion "r1" (mkRegionInput "EG" (NInt 1400) [("EG-C", NInt 1000)]).
Definition sample_tax_lines : list TaxableLine := [mkTaxable 1999 1 true; mkTaxable 350 2 false; mkTaxable 101 1 true].

Lemma tax_is_exact_after_discounts_witness :
  exists s, run_ops settings_exec [egypt; op_setFlags false true] defaults = (Ok tt, s) /\
    0 <= effectiveRate s (mkDestination "EG" (Some "EG-C")) <= MAX_RATE_BASIS_POINTS /\
    tx_taxMinor (calculateTax s sample_tax_lines (mkDestination "EG" (Some "EG-C")) 500 (mkTaxDiscounts (Some 301) (Some 100))) = 227.
Proof.
  eexists. split; [reflexivity|]. split; [|vm_compute; reflexivity].
  apply (tax_is_exact_after_discounts [egypt; op_setFlags false true] (Ok tt) _ sample_tax_lines
    (mkDestination "EG" (Some "EG-C")) 500 (mkTaxDiscounts (Some 301) (Some 100))); [reflexivity|].
  apply Forall_forall. repeat constructor; cbn; lia.
Defined.
