(* ===== verification/Checkout.v ===== *)
(** The Checkout context: [services/checkout/src/domain/checkout-session.ts] with its value objects, the
    row it is stored as ([infrastructure/checkout-session.mapper.ts]) and the use cases that assemble a
    session and turn it into an order ([application/*.use-cases.ts]). Promotions and Finance are reached
    through ports, modelled as interfaces with the laws Checkout relies on; the discount calculation
    of [Discounts.v] implements the first. *)
From Stdlib Require Import Ascii.
From S2P Require Import Prelude Kernel Promotions Discounts Tax.

#[global] Open Scope Z_scope.

(** ** Value objects ([domain/value-objects]) *)

Inductive CheckoutStateValue := cs_started | cs_locked | cs_completed | cs_failed | cs_expired_.
#[export] Instance CheckoutStateValue_eq_dec : EqDecision CheckoutStateValue.
Proof. solve_decision. Defined.

Definition state_name (s : CheckoutStateValue) : string :=
  match s with
  | cs_started => "started" | cs_locked => "locked" | cs_completed => "completed"
  | cs_failed => "failed" | cs_expired_ => "expired"
  end.
Definition isStarted (s : CheckoutStateValue) : bool := bool_decide (s = cs_started).
Definition isOpen (s : CheckoutStateValue) : bool := bool_decide (s = cs_started) || bool_decide (s = cs_locked).

Record CheckoutItemMerchandise := mkMerchandise {
  me_variantRef : string; me_sku : string; me_title : string; me_variantTitle : option string }.
Record CheckoutItem := mkCheckoutItem {
  it_productRef : string; it_quantity : Z; it_unitPriceAmountMinor : Z; it_currency : string;
  it_merchandise : option CheckoutItemMerchandise }.

Definition CheckoutItem_create (productRef : string) (quantity unitPriceAmountMinor : jsnum) (currency : string)
    (merchandise : option CheckoutItemMerchandise) : result CheckoutItem :=
  let issues :=
    issue_if (blank productRef) "productRef" "must not be empty" ++
    issue_if (bool_decide (integer_from 1 quantity = None)) "quantity" "must be a positive integer" ++
    issue_if (bool_decide (integer_from 0 unitPriceAmountMinor = None)) "unitPriceAmountMinor"
      "must be a non-negative integer" in
  match issues, integer_from 1 quantity, integer_from 0 unitPriceAmountMinor with
  | [], Some q, Some p => Ok (mkCheckoutItem productRef q p currency merchandise)
  | _, _, _ => Err (ValidationError "Invalid checkout item" issues)
  end.

Definition lineTotalMinor (i : CheckoutItem) : Z := it_unitPriceAmountMinor i * it_quantity i.

Record CheckoutAddress := mkAddress {
  ad_name : option string; ad_phone : option string; ad_line1 : string; ad_line2 : option string;
  ad_city : string; ad_postalCode : string; ad_country : string; ad_province : option string }.

Definition NAME_MAX_LENGTH : nat := 120.
Definition PROVINCE_MAX_LENGTH : nat := 10.

Fixpoint string_filter (keep : ascii -> bool) (s : string) : string :=
  match s with
  | EmptyString => EmptyString
  | String c s' => if keep c then String c (string_filter keep s') else string_filter keep s'
  end.
Fixpoint string_forall (ok : ascii -> bool) (s : string) : bool :=
  match s with EmptyString => true | String c s' => ok c && string_forall ok s' end.

Definition phone_noise (c : ascii) : bool :=
  is_space c || bool_decide (c = "-"%char) || bool_decide (c = "("%char) || bool_decide (c = ")"%char).
(** [normalizePhone]; the digits of other scripts are outside the ASCII strings of the model. *)
Definition normalizePhone (raw : string) : string := string_filter (fun c => negb (phone_noise c)) raw.

Definition is_digit (c : ascii) : bool :=
  let n := nat_of_ascii c in (Nat.leb 48 n && Nat.leb n 57)%nat.
(** [PHONE_PATTERN]: an optional plus sign and 7 to 15 digits. *)
Definition phone_matches (s : string) : bool :=
  let digits := match s with String "+" s' => s' | _ => s end in
  string_forall is_digit digits && Nat.leb 7 (String.length digits) && Nat.leb (String.length digits) 15.

(** Whether an optional field is given and fails a test. *)
Definition given_and (bad : string -> bool) (v : option string) : bool :=
  match v with Some s => bad s | None => false end.

(** [CheckoutAddress.create], on an address as typed in; the fields of the input and the value are the same. *)
Definition CheckoutAddress_create (x : CheckoutAddress) : result CheckoutAddress :=
  let name := trim <$> ad_name x in
  let phone := normalizePhone <$> ad_phone x in
  let province := trim <$> ad_province x in
  let issues :=
    issue_if (blank (ad_line1 x)) "line1" "required" ++
    issue_if (blank (ad_city x)) "city" "required" ++
    issue_if (blank (ad_country x)) "country" "required" ++
    issue_if (given_and (fun s => bool_decide (String.length s = 0%nat) ||
                bool_decide (NAME_MAX_LENGTH < String.length s)%nat) name) "name" "must be 1-120 characters" ++
    issue_if (given_and (fun s => negb (phone_matches s)) phone) "phone"
      "must be 7-15 digits, optionally starting with +" ++
    issue_if (given_and (fun s => bool_decide (PROVINCE_MAX_LENGTH < String.length s)%nat) province) "province"
      "must be at most 10 characters" in
  match issues with
  | [] => Ok (mkAddress name phone (ad_line1 x) (ad_line2 x) (ad_city x) (trim (ad_postalCode x)) (ad_country x)
            (province ≫= fun p => if bool_decide (p = EmptyString) then None else Some p))
  | _ => Err (ValidationError "Invalid address" issues)
  end.

(** [EMAIL_PATTERN]: one at sign, no white space, and a dot inside the part after it. *)
Fixpoint split_at (s : string) : option (string * string) :=
  match s with
  | EmptyString => None
  | String "@" s' => Some (EmptyString, s')
  | String c s' => (fun p => (String c p.1, p.2)) <$> split_at s'
  end.
(** Some dot of the string is followed by a character. *)
Fixpoint dot_then (s : string) : bool :=
  match s with
  | String c (String _ _ as s') => bool_decide (c = "."%char) || dot_then s'
  | _ => false
  end.
Definition email_char (c : ascii) : bool := negb (is_space c) && negb (bool_decide (c = "@"%char)).
Definition email_matches (s : string) : bool :=
  match split_at s with
  | Some (String c local, String d domain) =>
      string_forall email_char (String c local) && string_forall email_char (String d domain) && dot_then domain
  | _ => false
  end.

Definition ContactEmail_create (value : string) : result string :=
  let normalized := toLowerCase (trim value) in
  if email_matches normalized then Ok normalized
  else Err (ValidationError "Invalid email" [mkFieldIssue "email" "must be a valid email"]).

Record ShippingSelection := mkShippingSelection {
  ss_method : string; ss_rateAmountMinor : Z; ss_currency : string; ss_name : option string; ss_description : option string }.

Definition ShippingSelection_create (method : string) (rateAmountMinor : jsnum) (currency : string)
    (name description : option string) : result ShippingSelection :=
  if blank method then Err (ValidationError "Invalid shipping selection" [mkFieldIssue "method" "must not be empty"])
  else match integer_from 0 rateAmountMinor with
       | Some rate => Ok (mkShippingSelection method rate currency name description)
       | None => Err (ValidationError "Invalid shipping selection"
                   [mkFieldIssue "rateAmountMinor" "must be a non-negative integer"])
       end.

Record PaymentSelection := mkPaymentSelection { ps_paymentMethodRef : string; ps_provider : string }.

Definition PaymentSelection_create (paymentMethodRef provider : string) : result PaymentSelection :=
  if blank paymentMethodRef then
    Err (ValidationError "Invalid payment selection" [mkFieldIssue "paymentMethodRef" "must not be empty"])
  else if blank provider then
    Err (ValidationError "Invalid payment selection" [mkFieldIssue "provider" "must not be empty"])
  else Ok (mkPaymentSelection paymentMethodRef provider).

(** What Promotions decided, stored verbatim: structurally the result of the discount calculation. *)
Definition DiscountSnapshot : Type := DiscountResult.

Definition DISCOUNT_ATTEMPT_LIMIT : Z := 10.
Definition DISCOUNT_ATTEMPT_WINDOW_MS : Z := 15 * 60 * 1000.

Record CheckoutTotals := mkTotals {
  to_subtotalMinor : Z; to_taxMinor : Z; to_shippingMinor : Z; to_discountMinor : Z; to_totalMinor : Z;
  to_currency : string; to_taxIncluded : bool; to_shippingName : option string; to_shippingDiscountMinor : Z }.

(** [CheckoutTotals.assemble]; the options of its last argument have their defaults written out by the callers. *)
Definition assemble (items : list CheckoutItem) (taxMinor shippingMinor discountMinor : Z) (currency : string)
    (taxIncluded : bool) (shippingName : option string) (shippingDiscountMinor : Z) : CheckoutTotals :=
  let subtotalMinor := sumZ lineTotalMinor items in
  let shippingDiscountMinor := Z.min (Z.max 0 shippingDiscountMinor) shippingMinor in
  let totalMinor := Z.max 0 (subtotalMinor + shippingMinor - shippingDiscountMinor - discountMinor +
    (if taxIncluded then 0 else taxMinor)) in
  mkTotals subtotalMinor taxMinor shippingMinor discountMinor totalMinor currency taxIncluded shippingName
    shippingDiscountMinor.

(** ** The session ([domain/checkout-session.ts]) *)

Record SessionProps := mkSession {
  se_cartRef : string; se_customerRef : option string; se_sessionRef : string; se_currency : string;
  se_state : CheckoutStateValue; se_orderRef : option string; se_items : list CheckoutItem;
  se_billingAddress : option CheckoutAddress; se_shippingAddress : option CheckoutAddress;
  se_contactEmail : option string; se_shippingSelection : option ShippingSelection;
  se_paymentSelection : option PaymentSelection; se_paymentIntentRef : option string;
  se_taxMinor : option Z; se_taxIncluded : option bool; se_discountMinor : option Z;
  se_totals : option CheckoutTotals; se_discountCodes : list string;
  se_discountSnapshot : option DiscountSnapshot; se_rejectedCodeAttempts : Z;
  se_codeAttemptsWindowStartedAt : option Z }.

Definition with_state (v : CheckoutStateValue) (s : SessionProps) : SessionProps :=
  let '(mkSession a b c d _ f g h i j k l m n o p q r s t u) := s in mkSession a b c d v f g h i j k l m n o p q r s t u.
Definition with_orderRef (v : option string) (s : SessionProps) : SessionProps :=
  let '(mkSession a b c d e _ g h i j k l m n o p q r s t u) := s in mkSession a b c d e v g h i j k l m n o p q r s t u.
Definition with_items (v : list CheckoutItem) (s : SessionProps) : SessionProps :=
  let '(mkSession a b c d e f _ h i j k l m n o p q r s t u) := s in mkSession a b c d e f v h i j k l m n o p q r s t u.
Definition with_billingAddress (v : option CheckoutAddress) (s : SessionProps) : SessionProps :=
  let '(mkSession a b c d e f g _ i j k l m n o p q r s t u) := s in mkSession a b c d e f g v i j k l m n o p q r s t u.
Definition with_shippingAddress (v : option CheckoutAddress) (s : SessionProps) : SessionProps :=
  let '(mkSession a b c d e f g h _ j k l m n o p q r s t u) := s in mkSession a b c d e f g h v j k l m n o p q r s t u.
Definition with_contactEmail (v : option string) (s : SessionProps) : SessionProps :=
  let '(mkSession a b c d e f g h i _ k l m n o p q r s t u) := s in mkSession a b c d e f g h i v k l m n o p q r s t u.
Definition with_shippingSelection (v : option ShippingSelection) (s : SessionProps) : SessionProps :=
  let '(mkSession a b c d e f g h i j _ l m n o p q r s t u) := s in mkSession a b c d e f g h i j v l m n o p q r s t u.
Definition with_paymentSelection (v : option PaymentSelection) (s : SessionProps) : SessionProps :=
  let '(mkSession a b c d e f g h i j k _ m n o p q r s t u) := s in mkSession a b c d e f g h i j k v m n o p q r s t u.
Definition with_paymentIntentRef (v : option string) (s : SessionProps) : SessionProps :=
  let '(mkSession a b c d e f g h i j k l _ n o p q r s t u) := s in mkSession a b c d e f g h i j k l v n o p q r s t u.
Definition with_discountMinor (v : option Z) (s : SessionProps) : SessionProps :=
  let '(mkSession a b c d e f g h i j k l m n o _ q r s t u) := s in mkSession a b c d e f g h i j k l m n o v q r s t u.
Definition with_totals (v : option CheckoutTotals) (s : SessionProps) : SessionProps :=
  let '(mkSession a b c d e f g h i j k l m n o p _ r s t u) := s in mkSession a b c d e f g h i j k l m n o p v r s t u.
Definition with_discountCodes (v : list string) (s : SessionProps) : SessionProps :=
  let '(mkSession a b c d e f g h i j k l m n o p q _ s t u) := s in mkSession a b c d e f g h i j k l m n o p q v s t u.
Definition with_discountSnapshot (v : option DiscountSnapshot) (s : SessionProps) : SessionProps :=
  let '(mkSession a b c d e f g h i j k l m n o p q r _ t u) := s in mkSession a b c d e f g h i j k l m n o p q r v t u.
Definition with_tax (v1 : option Z) (v2 : option bool) (s : SessionProps) : SessionProps :=
  let '(mkSession a b c d e f g h i j k l m _ _ p q r s t u) := s in mkSession a b c d e f g h i j k l m v1 v2 p q r s t u.
Definition with_attempts (v1 : Z) (v2 : option Z) (s : SessionProps) : SessionProps :=
  let '(mkSession a b c d e f g h i j k l m n o p q r s _ _) := s in mkSession a b c d e f g h i j k l m n o p q r s v1 v2.

Inductive CheckoutEvent :=
| CheckoutRecalculated (cartRef : string) (subtotalMinor taxMinor shippingMinor discountMinor totalMinor : Z) (currency : string)
| CheckoutLocked (cartRef : string) (customerRef : option string)
| CheckoutExpired (cartRef : string) (customerRef : option string)
| CheckoutCompleted (cartRef customerRef orderRef : string)
| CheckoutFailed (cartRef customerRef reason : string).

Definition CheckoutSession : Type := Aggregate SessionProps CheckoutEvent.
Definition SessionM : Type -> Type := M CheckoutSession.

Definition start (id cartRef : string) (customerRef : option string) (sessionRef currency : string) : CheckoutSession :=
  new_agg (mkSession cartRef customerRef sessionRef currency cs_started None [] None None None None None None
    None None None None [] None 0 None) id.
(** [reconstitute] *)
Definition reconstitute (id : string) (p : SessionProps) (version : Z) : CheckoutSession := new_agg_at p id version.

Definition ensureOpen : SessionM unit :=
  st ← gets (fun s => se_state (agg_props s));
  throw_if (negb (isOpen st))
    (BusinessRuleError ("Checkout session is " +:+ state_name st +:+ " and can no longer be modified")).

(** A setter: the open check, then the write. *)
Definition when_open (f : SessionProps -> SessionProps) : SessionM unit := ensureOpen;; set_props f.

Definition loadItems (items : list CheckoutItem) : SessionM unit := when_open (with_items items).
Definition setBillingAddress (a : CheckoutAddress) : SessionM unit := when_open (with_billingAddress (Some a)).
Definition setShippingAddress (a : CheckoutAddress) : SessionM unit := when_open (with_shippingAddress (Some a)).
Definition setContactEmail (email : string) : SessionM unit := when_open (with_contactEmail (Some email)).
Definition selectShipping (x : ShippingSelection) : SessionM unit := when_open (with_shippingSelection (Some x)).
Definition selectPayment (x : PaymentSelection) : SessionM unit := when_open (with_paymentSelection (Some x)).

Definition attachPaymentIntent (paymentIntentRef : string) : SessionM unit :=
  p ← gets agg_props;
  throw_if (bool_decide (se_orderRef p = None))
    (BusinessRuleError "Payment can only be initiated for a completed checkout");;
  match se_paymentSelection p with
  | None => throw (BusinessRuleError "Payment cannot be initiated before a payment method is selected")
  | Some _ =>
      throw_if (bool_decide (se_paymentIntentRef p <> None) && negb (bool_decide (se_paymentIntentRef p = Some paymentIntentRef)))
        (BusinessRuleError "This checkout already has a payment intent");;
      set_props (with_paymentIntentRef (Some paymentIntentRef))
  end.

Definition applyTaxSnapshot (taxMinor : Z) (included : bool) : SessionM unit := when_open (with_tax (Some taxMinor) (Some included)).
Definition applyPromotionSnapshot (discountMinor : Z) : SessionM unit := when_open (with_discountMinor (Some discountMinor)).

Definition enterDiscountCode (code : string) : SessionM unit :=
  ensureOpen;;
  codes ← gets (fun s => se_discountCodes (agg_props s));
  let normalized := normalizeDiscountCode code in
  if bool_decide (normalized ∈ codes) then mret tt
  else
    throw_if (bool_decide (MAX_DISCOUNT_CODES <= length codes)%nat)
      (BusinessRuleError "TOO_MANY_CODES: at most 5 discount codes");;
    set_props (with_discountCodes (codes ++ [normalized])).

Definition removeDiscountCode (code : string) : SessionM unit :=
  when_open (fun p => with_discountCodes (filter (fun c => c <> normalizeDiscountCode code) (se_discountCodes p)) p).

Definition applyDiscountSnapshot (snapshot : DiscountSnapshot) : SessionM unit :=
  when_open (fun p => with_discountMinor (Some (dr_orderDiscountMinor snapshot)) (with_discountSnapshot (Some snapshot) p)).

(** Whether a window that started at [start], if one did, is over at [now]. *)
Definition window_over (start : option Z) (now : Z) : bool :=
  match start with Some t => bool_decide (DISCOUNT_ATTEMPT_WINDOW_MS <= now - t) | None => true end.

Definition recordRejectedDiscountCode (now : Z) : SessionM unit :=
  when_open (fun p =>
    if window_over (se_codeAttemptsWindowStartedAt p) now then with_attempts 1 (Some now) p
    else with_attempts (se_rejectedCodeAttempts p + 1) (se_codeAttemptsWindowStartedAt p) p).

Definition isDiscountCodeEntryLocked (p : SessionProps) (now : Z) : bool :=
  negb (window_over (se_codeAttemptsWindowStartedAt p) now) &&
  bool_decide (DISCOUNT_ATTEMPT_LIMIT <= se_rejectedCodeAttempts p).

(** The totals [recalculateTotals] assembles. *)
Definition totals_of (p : SessionProps) : CheckoutTotals :=
  assemble (se_items p) (default 0 (se_taxMinor p))
    (match se_shippingSelection p with Some s => ss_rateAmountMinor s | None => 0 end)
    (default 0 (se_discountMinor p)) (se_currency p) (default false (se_taxIncluded p))
    (se_shippingSelection p ≫= ss_name)
    (match se_discountSnapshot p with Some d => dr_shippingDiscountMinor d | None => 0 end).

Definition recalculateTotals (eid : string) (at_ : Z) : SessionM unit :=
  ensureOpen;;
  p ← gets agg_props;
  throw_if (bool_decide (length (se_items p) = 0%nat)) (BusinessRuleError "Cannot recalculate totals for an empty checkout");;
  let t := totals_of p in
  set_props (with_totals (Some t));;
  addDomainEvent eid at_ (CheckoutRecalculated (se_cartRef p) (to_subtotalMinor t) (to_taxMinor t) (to_shippingMinor t)
    (to_discountMinor t) (to_totalMinor t) (to_currency t)).

Definition lock (eid : string) (at_ : Z) : SessionM unit :=
  p ← gets agg_props;
  throw_if (negb (isStarted (se_state p)))
    (BusinessRuleError ("Checkout session is " +:+ state_name (se_state p) +:+ " and cannot be locked"));;
  set_props (with_state cs_locked);;
  addDomainEvent eid at_ (CheckoutLocked (se_cartRef p) (se_customerRef p)).

Definition expire (eid : string) (at_ : Z) : SessionM unit :=
  ensureOpen;;
  p ← gets agg_props;
  set_props (with_state cs_expired_);;
  addDomainEvent eid at_ (CheckoutExpired (se_cartRef p) (se_customerRef p)).

Definition complete (orderRef eid : string) (at_ : Z) : SessionM unit :=
  ensureOpen;;
  p ← gets agg_props;
  set_props (fun p => with_orderRef (Some orderRef) (with_state cs_completed p));;
  addDomainEvent eid at_ (CheckoutCompleted (se_cartRef p) (default EmptyString (se_customerRef p)) orderRef).

Definition fail (reason eid : string) (at_ : Z) : SessionM unit :=
  ensureOpen;;
  p ← gets agg_props;
  set_props (with_state cs_failed);;
  addDomainEvent eid at_ (CheckoutFailed (se_cartRef p) (default EmptyString (se_customerRef p)) reason).

Definition hasDiscountState (p : SessionProps) : bool :=
  bool_decide (0 < length (se_discountCodes p))%nat || bool_decide (is_Some (se_discountSnapshot p)).

Record OrderDraft := mkDraft {
  dt_cartRef : string; dt_customerRef : option string; dt_contactEmail : option string;
  dt_items : list CheckoutItem; dt_billingAddress : CheckoutAddress; dt_shippingAddress : CheckoutAddress;
  dt_totals : CheckoutTotals; dt_shippingMethod : option string; dt_discounts : list AppliedDiscount }.

Definition generateOrderDraft (p : SessionProps) : result OrderDraft :=
  if bool_decide (length (se_items p) = 0%nat)
  then Err (BusinessRuleError "Cannot generate an order draft with no items")
  else match se_billingAddress p, se_shippingAddress p with
  | Some billing, Some shipping =>
      match se_totals p with
      | Some totals => Ok (mkDraft (se_cartRef p) (se_customerRef p) (se_contactEmail p) (se_items p) billing shipping
          totals (ss_method <$> se_shippingSelection p)
          (match se_discountSnapshot p with Some d => dr_applied d | None => [] end))
      | None => Err (BusinessRuleError "Cannot generate an order draft before totals are calculated")
      end
  | _, _ => Err (BusinessRuleError "Cannot generate an order draft without both addresses")
  end.

Record PaymentIntentRequest := mkIntentRequest {
  ir_customerRef : option string; ir_paymentMethodRef : string; ir_provider : string; ir_amountMinor : Z; ir_currency : string }.

Definition generatePaymentIntentRequest (p : SessionProps) : result PaymentIntentRequest :=
  match se_paymentSelection p, se_totals p with
  | None, _ => Err (BusinessRuleError "Cannot generate a payment intent request without a payment selection")
  | Some _, None => Err (BusinessRuleError "Cannot generate a payment intent request before totals are calculated")
  | Some sel, Some t => Ok (mkIntentRequest (se_customerRef p) (ps_paymentMethodRef sel) (ps_provider sel) (to_totalMinor t)
      (to_currency t))
  end.

(** ** The row ([infrastructure/checkout-session.mapper.ts])

    A JSON column holding the empty object means unset and is [None]; an optional key is an [option]. *)

Record CheckoutItemJson := mkItemJson {
  ij_productRef : string; ij_quantity : jsnum; ij_unitPriceAmountMinor : jsnum; ij_currency : string;
  ij_variantRef : option string; ij_sku : option string; ij_title : option string; ij_variantTitle : option string }.
Record ShippingSelectionJson := mkShippingJson {
  sj_method : string; sj_rateAmountMinor : jsnum; sj_currency : string; sj_name : option string; sj_description : option string }.
Record PaymentSelectionJson := mkPaymentJson {
  pj_paymentMethodRef : string; pj_provider : string; pj_paymentIntentRef : option string }.
Record DiscountsJson := mkDiscountsJson {
  dj_codes : option (list string); dj_snapshot : option DiscountSnapshot; dj_rejectedAttempts : option Z;
  dj_attemptsWindowStartedAt : option Z }.
Record CheckoutTotalsJson := mkTotalsJson {
  tj_subtotalMinor : Z; tj_taxMinor : Z; tj_shippingMinor : Z; tj_discountMinor : Z; tj_totalMinor : Z;
  tj_currency : string; tj_taxIncluded : option bool; tj_shippingName : option string;
  tj_shippingDiscountMinor : option Z }.

Record CheckoutSessionRow := mkRow {
  rw_id : string; rw_cartRef : string; rw_customerRef : option string; rw_sessionRef : string;
  rw_contactEmail : option string; rw_currency : string; rw_state : CheckoutStateValue; rw_orderRef : option string;
  rw_items : list CheckoutItemJson; rw_billingAddress : option CheckoutAddress; rw_shippingAddress : option CheckoutAddress;
  rw_shippingSelection : option ShippingSelectionJson; rw_paymentSelection : option PaymentSelectionJson;
  rw_taxMinor : option Z; rw_discountMinor : option Z; rw_totals : option CheckoutTotalsJson;
  rw_discounts : option DiscountsJson; rw_version : Z }.

Definition error_message (e : DomainError) : string :=
  match e with
  | ValidationError m _ | NotFoundError m | ConflictError m | ConcurrencyError m | BusinessRuleError m
  | UnexpectedError m | AuthenticationError m | AuthorizationError m => m
  end.

Definition must {A} (r : result A) (what : string) : result A :=
  match r with
  | Ok a => Ok a
  | Err e => Err (UnexpectedError ("Corrupt checkout session row: invalid " +:+ what +:+ " (" +:+ error_message e +:+ ")"))
  end.

(** [map] with a callback that may throw. *)
Fixpoint map_result {A B} (f : A -> result B) (l : list A) : result (list B) :=
  match l with
  | [] => Ok []
  | x :: l' => y ← f x; ys ← map_result f l'; Ok (y :: ys)
  end.
(** A callback on an optional column. *)
Definition if_set {A B} (f : A -> result B) (v : option A) : result (option B) :=
  match v with Some a => b ← f a; Ok (Some b) | None => Ok None end.

Definition item_of_json (j : CheckoutItemJson) : result CheckoutItem :=
  must (CheckoutItem_create (ij_productRef j) (ij_quantity j) (ij_unitPriceAmountMinor j) (ij_currency j)
    ((fun v => mkMerchandise v (default EmptyString (ij_sku j)) (default EmptyString (ij_title j)) (ij_variantTitle j))
       <$> ij_variantRef j)) "checkout item".

Definition totals_of_json (items : list CheckoutItem) (j : CheckoutTotalsJson) : CheckoutTotals :=
  assemble items (tj_taxMinor j) (tj_shippingMinor j) (tj_discountMinor j) (tj_currency j)
    (default false (tj_taxIncluded j)) (tj_shippingName j) (default 0 (tj_shippingDiscountMinor j)).

Definition toDomain (row : CheckoutSessionRow) : result CheckoutSession :=
  items ← map_result item_of_json (rw_items row);
  id ← UniqueEntityId_from (rw_id row);
  billing ← if_set (fun a => must (CheckoutAddress_create a) "billing address") (rw_billingAddress row);
  email ← if_set (fun e => must (ContactEmail_create e) "contact email") (rw_contactEmail row);
  shipping ← if_set (fun a => must (CheckoutAddress_create a) "shipping address") (rw_shippingAddress row);
  selection ← if_set (fun s => must (ShippingSelection_create (sj_method s) (sj_rateAmountMinor s) (sj_currency s) (sj_name s)
    (sj_description s)) "shipping selection") (rw_shippingSelection row);
  payment ← if_set (fun p => must (PaymentSelection_create (pj_paymentMethodRef p) (pj_provider p)) "payment selection")
    (rw_paymentSelection row);
  Ok (reconstitute id
    (mkSession (rw_cartRef row) (rw_customerRef row) (rw_sessionRef row) (rw_currency row) (rw_state row) (rw_orderRef row)
      items billing shipping email selection payment (rw_paymentSelection row ≫= pj_paymentIntentRef) (rw_taxMinor row)
      ((fun t => default false (tj_taxIncluded t)) <$> rw_totals row) (rw_discountMinor row)
      (totals_of_json items <$> rw_totals row) (default [] (rw_discounts row ≫= dj_codes))
      (rw_discounts row ≫= dj_snapshot) (default 0 (rw_discounts row ≫= dj_rejectedAttempts))
      (rw_discounts row ≫= dj_attemptsWindowStartedAt))
    (rw_version row)).

Definition item_to_json (i : CheckoutItem) : result CheckoutItemJson :=
  ref ← must (ProductRef_create (it_productRef i)) "product ref";
  Ok (mkItemJson ref (NInt (it_quantity i)) (NInt (it_unitPriceAmountMinor i)) (it_currency i)
    (me_variantRef <$> it_merchandise i) (me_sku <$> it_merchandise i) (me_title <$> it_merchandise i)
    (it_merchandise i ≫= me_variantTitle)).

Definition totals_to_json (t : CheckoutTotals) : CheckoutTotalsJson :=
  mkTotalsJson (to_subtotalMinor t) (to_taxMinor t) (to_shippingMinor t) (to_discountMinor t) (to_totalMinor t)
    (to_currency t) (Some (to_taxIncluded t)) (to_shippingName t) (Some (to_shippingDiscountMinor t)).

Definition toRow (session : CheckoutSession) : result CheckoutSessionRow :=
  let p := agg_props session in
  items ← map_result item_to_json (se_items p);
  Ok (mkRow (agg_id session) (se_cartRef p) (se_customerRef p) (se_sessionRef p) (se_contactEmail p) (se_currency p)
    (se_state p) (se_orderRef p) items (se_billingAddress p) (se_shippingAddress p)
    ((fun s => mkShippingJson (ss_method s) (NInt (ss_rateAmountMinor s)) (ss_currency s) (ss_name s) (ss_description s))
       <$> se_shippingSelection p)
    ((fun s => mkPaymentJson (ps_paymentMethodRef s) (ps_provider s) (se_paymentIntentRef p)) <$> se_paymentSelection p)
    (se_taxMinor p) (se_discountMinor p) (totals_to_json <$> se_totals p)
    (if hasDiscountState p || bool_decide (0 < se_rejectedCodeAttempts p)
     then Some (mkDiscountsJson (Some (se_discountCodes p)) (se_discountSnapshot p) (Some (se_rejectedCodeAttempts p))
            (se_codeAttemptsWindowStartedAt p))
     else None) 1).

(** ** What the use cases call on a session ([application/checkout-details.use-cases.ts] and others)

    The values are created from what the caller sends, then handed to the session. *)

Record RawItem := mkRawItem {
  ra_productId : string; ra_quantity : jsnum; ra_unitPriceAmountMinor : jsnum; ra_currency : string;
  ra_variantId : option string; ra_sku : option string; ra_title : option string; ra_variantTitle : option string }.

Definition item_of_raw (raw : RawItem) : result CheckoutItem :=
  product ← ProductRef_create (ra_productId raw);
  CheckoutItem_create product (ra_quantity raw) (ra_unitPriceAmountMinor raw) (ra_currency raw)
    ((fun v => mkMerchandise v (default EmptyString (ra_sku raw)) (default EmptyString (ra_title raw)) (ra_variantTitle raw))
       <$> ra_variantId raw).

Inductive SessionOp :=
| op_loadItems (raw : list RawItem)
| op_setBillingAddress (x : CheckoutAddress)
| op_setShippingAddress (x : CheckoutAddress)
| op_setContactEmail (email : string)
| op_selectShipping (method : string) (rate : jsnum) (name description : option string)
| op_selectPayment (paymentMethodRef provider : string)
| op_attachPaymentIntent (paymentIntentRef : string)
| op_applyTaxSnapshot (taxMinor : Z) (included : bool)
| op_applyPromotionSnapshot (discountMinor : Z)
| op_enterDiscountCode (code : string)
| op_removeDiscountCode (code : string)
| op_applyDiscountSnapshot (snapshot : DiscountSnapshot)
| op_recordRejectedDiscountCode (now : Z)
| op_recalculateTotals (eid : string) (at_ : Z)
| op_lock (eid : string) (at_ : Z)
| op_expire (eid : string) (at_ : Z)
| op_complete (orderRef eid : string) (at_ : Z)
| op_fail (reason eid : string) (at_ : Z).

Definition session_exec (op : SessionOp) : SessionM unit :=
  match op with
  | op_loadItems raw => items ← lift (map_result item_of_raw raw); loadItems items
  | op_setBillingAddress x => a ← lift (CheckoutAddress_create x); setBillingAddress a
  | op_setShippingAddress x => a ← lift (CheckoutAddress_create x); setShippingAddress a
  | op_setContactEmail e => e ← lift (ContactEmail_create e); setContactEmail e
  | op_selectShipping m r n d =>
      c ← gets (fun s => se_currency (agg_props s));
      x ← lift (ShippingSelection_create m r c n d); selectShipping x
  | op_selectPayment m p => x ← lift (PaymentSelection_create m p); selectPayment x
  | op_attachPaymentIntent r => attachPaymentIntent r
  | op_applyTaxSnapshot t i => applyTaxSnapshot t i
  | op_applyPromotionSnapshot d => applyPromotionSnapshot d
  | op_enterDiscountCode c => enterDiscountCode c
  | op_removeDiscountCode c => removeDiscountCode c
  | op_applyDiscountSnapshot s => applyDiscountSnapshot s
  | op_recordRejectedDiscountCode now => recordRejectedDiscountCode now
  | op_recalculateTotals e t => recalculateTotals e t
  | op_lock e t => lock e t
  | op_expire e t => expire e t
  | op_complete o e t => complete o e t
  | op_fail r e t => _ ← lift (Guard.againstEmpty r "reason"); fail r e t
  end.

Definition fresh_session (s : CheckoutSession) : Prop :=
  exists id cartRef customerRef sessionRef currency, blank id = false /\ s = start id cartRef customerRef sessionRef currency.
Definition session_reachable : CheckoutSession -> Prop := reachable fresh_session session_exec.

(** ** Lemmas: what the values and the session keep *)

Definition item_ok (i : CheckoutItem) : Prop :=
  blank (it_productRef i) = false /\ 1 <= it_quantity i /\ 0 <= it_unitPriceAmountMinor i.

Record session_ok (s : CheckoutSession) : Prop := {
  so_id : blank (agg_id s) = false;
  so_items : Forall item_ok (se_items (agg_props s));
  so_billing : forall a, se_billingAddress (agg_props s) = Some a -> CheckoutAddress_create a = Ok a;
  so_shipping : forall a, se_shippingAddress (agg_props s) = Some a -> CheckoutAddress_create a = Ok a;
  so_email : forall e, se_contactEmail (agg_props s) = Some e -> ContactEmail_create e = Ok e;
  so_selection : forall x, se_shippingSelection (agg_props s) = Some x ->
    blank (ss_method x) = false /\ 0 <= ss_rateAmountMinor x;
  so_payment : forall x, se_paymentSelection (agg_props s) = Some x ->
    blank (ps_paymentMethodRef x) = false /\ blank (ps_provider x) = false;
  so_order : is_Some (se_orderRef (agg_props s)) <-> se_state (agg_props s) = cs_completed;
  so_intent : is_Some (se_paymentIntentRef (agg_props s)) ->
    is_Some (se_orderRef (agg_props s)) /\ is_Some (se_paymentSelection (agg_props s));
  so_codes : NoDup (se_discountCodes (agg_props s)) /\ (length (se_discountCodes (agg_props s)) <= MAX_DISCOUNT_CODES)%nat;
  so_attempts : 0 <= se_rejectedCodeAttempts (agg_props s) /\
    (is_Some (se_codeAttemptsWindowStartedAt (agg_props s)) -> 0 < se_rejectedCodeAttempts (agg_props s)) }.

Lemma CheckoutItem_create_Ok r q p c m i :
  CheckoutItem_create r q p c m = Ok i ->
  item_ok i /\ i = mkCheckoutItem r (it_quantity i) (it_unitPriceAmountMinor i) c m.
Proof.
  unfold CheckoutItem_create. destruct (blank r) eqn:Hb; cbn; [done|].
  destruct (integer_from 1 q) as [n|] eqn:Hq; [|done]. destruct (integer_from 0 p) as [u|] eqn:Hp; [|done].
  apply integer_from_Some in Hq as [-> ?]. apply integer_from_Some in Hp as [-> ?]. cbn. by intros [= <-].
Qed.

Lemma checkout_item_create i : item_ok i ->
  CheckoutItem_create (it_productRef i) (NInt (it_quantity i)) (NInt (it_unitPriceAmountMinor i)) (it_currency i)
    (it_merchandise i) = Ok i.
Proof.
  intros (Hr & Hq & Hp). unfold CheckoutItem_create. rewrite Hr.
  assert (integer_from 1 (NInt (it_quantity i)) = Some (it_quantity i)) as -> by by apply integer_from_Some.
  assert (integer_from 0 (NInt (it_unitPriceAmountMinor i)) = Some (it_unitPriceAmountMinor i)) as -> by by apply integer_from_Some.
  by destruct i.
Qed.

Lemma map_result_Forall {A B} (f : A -> result B) (P : B -> Prop) l ys :
  (forall x y, f x = Ok y -> P y) -> map_result f l = Ok ys -> Forall P ys.
Proof.
  intros Hf. revert ys. induction l as [|x l IH]; intros ys H; cbn in H; minv; [by constructor|].
  constructor; eauto.
Qed.

Lemma map_result_id {A B} (f : A -> result B) (h : B -> result A) l :
  (forall x, x ∈ l -> exists y, f x = Ok y /\ h y = Ok x) -> exists ys, map_result f l = Ok ys /\ map_result h ys = Ok l.
Proof.
  induction l as [|x l IH]; intros Hf; cbn; [by exists []|].
  destruct (Hf x) as (y & Hy & Hx); [left|]. destruct IH as (ys & Hys & Hl); [by intros z Hz; apply Hf; right|].
  exists (y :: ys). rewrite Hy. cbn. rewrite Hys. cbn. by rewrite Hx; cbn; rewrite Hl.
Qed.

Lemma string_filter_idemp f s : string_filter f (string_filter f s) = string_filter f s.
Proof. induction s as [|c s IH]; cbn; [done|]. destruct (f c) eqn:Hc; cbn; [|done]. by rewrite Hc, IH. Qed.

#[local] Arguments trim : simpl never.
#[local] Arguments normalizePhone : simpl never.
#[local] Arguments phone_matches : simpl never.
#[local] Arguments String.length : simpl never.

Lemma normalizePhone_idemp s : normalizePhone (normalizePhone s) = normalizePhone s.
Proof. apply string_filter_idemp. Qed.

Lemma fmap_idemp (f : string -> string) (Hf : forall s, f (f s) = f s) (v : option string) : f <$> (f <$> v) = f <$> v.
Proof. destruct v; cbn; by rewrite ?Hf. Qed.

Lemma CheckoutAddress_create_idemp x a : CheckoutAddress_create x = Ok a -> CheckoutAddress_create a = Ok a.
Proof.
  unfold CheckoutAddress_create. cbn zeta. set (issues := _ ++ _). destruct issues eqn:Hi; [|done].
  subst issues. repeat (apply app_eq_nil in Hi as [?%issue_if_nil Hi]). apply issue_if_nil in Hi.
  intros [= <-]. destruct x as [name phone l1 l2 city pc country prov]; cbn in *.
  rewrite (fmap_idemp trim trim_idemp), (fmap_idemp normalizePhone normalizePhone_idemp), trim_idemp.
  set (q := (trim <$> prov) ≫= _).
  assert (Hq : trim <$> q = q /\ (q ≫= fun p => if bool_decide (p = EmptyString) then None else Some p) = q /\
    given_and (fun s => bool_decide (PROVINCE_MAX_LENGTH < String.length s)%nat) q = false).
  { subst q. destruct prov as [pv|]; cbn in *; [|done]. destruct (bool_decide (trim pv = EmptyString)) eqn:Hpv; cbn; [done|].
    by rewrite trim_idemp, Hpv. }
  destruct Hq as (-> & -> & ->). clearbody q.
  by repeat match goal with H : ?b = false |- context [issue_if ?b] => rewrite H end.
Qed.

Lemma ContactEmail_create_idemp x e : ContactEmail_create x = Ok e -> ContactEmail_create e = Ok e.
Proof.
  unfold ContactEmail_create. destruct (email_matches (toLowerCase (trim x))) eqn:Hm; [|done]. intros [= <-].
  by rewrite toLowerCase_trim, trim_idemp, toLowerCase_idemp, Hm.
Qed.

Lemma ensureOpen_Ok s u s' : ensureOpen s = (Ok u, s') <-> isOpen (se_state (agg_props s)) = true /\ s' = s.
Proof.
  unfold ensureOpen. split.
  - intros H. by agg_inv.
  - intros [H ->]. unfold mbind, M_bind, gets, throw_if. rewrite H. by destruct u.
Qed.

Lemma when_open_Ok f s u s' :
  when_open f s = (Ok u, s') <->
  isOpen (se_state (agg_props s)) = true /\ s' = mkAgg (agg_id s) (agg_version s) (agg_events s) (f (agg_props s)).
Proof.
  unfold when_open. rewrite bind_Ok. setoid_rewrite ensureOpen_Ok. setoid_rewrite set_props_Ok.
  split; [naive_solver|]. intros [? ->]. by exists tt, s.
Qed.

Ltac session_inv :=
  repeat (agg_inv; match goal with
  | H : ensureOpen _ = (Ok _, _) |- _ => apply ensureOpen_Ok in H as [H ->]
  | H : when_open _ _ = (Ok _, _) |- _ => apply when_open_Ok in H as [H ->]
  end); agg_inv.

Lemma isOpen_order s : session_ok s -> isOpen (se_state (agg_props s)) = true -> se_orderRef (agg_props s) = None.
Proof.
  intros Hs H. destruct (se_orderRef (agg_props s)) eqn:Ho; [|done].
  assert (se_state (agg_props s) = cs_completed) as E by (apply (so_order s Hs); by rewrite Ho). by rewrite E in H.
Qed.

Lemma item_of_raw_ok raw i : item_of_raw raw = Ok i -> item_ok i.
Proof. unfold item_of_raw. intros H. minv. by apply CheckoutItem_create_Ok in H as [? _]. Qed.

Lemma ShippingSelection_create_ok m r c n d x :
  ShippingSelection_create m r c n d = Ok x -> blank (ss_method x) = false /\ 0 <= ss_rateAmountMinor x.
Proof.
  unfold ShippingSelection_create. destruct (blank m) eqn:Hb; [done|]. destruct (integer_from 0 r) eqn:Hr; [|done].
  apply integer_from_Some in Hr as [_ ?]. by intros [= <-].
Qed.

Lemma PaymentSelection_create_ok m p x :
  PaymentSelection_create m p = Ok x -> blank (ps_paymentMethodRef x) = false /\ blank (ps_provider x) = false.
Proof. unfold PaymentSelection_create. destruct (blank m) eqn:?, (blank p) eqn:?; try done. by intros [= <-]. Qed.

(** Runs a successful call: one goal per operation, branch and way it can have returned. *)
Ltac session_cases H :=
  cbn in H;
  unfold loadItems, setBillingAddress, setShippingAddress, setContactEmail, selectShipping, selectPayment,
    attachPaymentIntent, applyTaxSnapshot, applyPromotionSnapshot, enterDiscountCode, removeDiscountCode,
    applyDiscountSnapshot, recordRejectedDiscountCode, recalculateTotals, lock, expire, complete, fail in H;
  session_inv; repeat match goal with
  | H : (if bool_decide ?P then _ else _) _ = _ |- _ => destruct (bool_decide P) eqn:?; session_inv
  | H : match ?x with Some _ => _ | None => _ end _ = _ |- _ => destruct x eqn:?; session_inv
  | |- context [if window_over ?a ?b then _ else _] => destruct (window_over a b) eqn:?
  end.

Lemma session_exec_ok op s u s' : session_ok s -> session_exec op s = (Ok u, s') -> session_ok s'.
Proof.
  intros Hs H. pose proof (isOpen_order s Hs) as Hopen. destruct Hs as [Hid Hi Hb Hsh He Hsel Hp Ho Hint Hc Ha].
  destruct s as [id v ev p]. destruct op; session_cases H; destruct p; cbn in *;
    split; cbn; try assumption; try (by intros ? [= <-]; eauto using map_result_Forall, CheckoutAddress_create_idemp,
      ContactEmail_create_idemp, ShippingSelection_create_ok, PaymentSelection_create_ok);
    repeat match goal with Hopen : ?P -> _ = None, H : ?P |- _ => rewrite (Hopen H) in *; clear Hopen end.
  - by eapply map_result_Forall; [apply item_of_raw_ok|].
  - intros [[] _]%Hint. done.
  - intros x Hx. apply Hp. congruence.
  - intros _. split; [destruct se_orderRef0; [done|congruence]|by eexists].
  - destruct Hc as [Hn Hl]. rewrite length_app. cbn.
    split; [|lia]. apply NoDup_app. split; [done|]. split; [|apply NoDup_singleton].
    by intros c Hc' ->%list_elem_of_singleton.
  - destruct Hc as [Hn Hl]. split; [by apply NoDup_filter|]. etransitivity; [apply length_filter|done].
  - lia.
  - destruct Ha. lia.
  - split; [|done]. intros Hx. apply Ho in Hx. subst. done.
  - split; [by intros []|done].
  - done.
  - intros [[] _]%Hint. done.
  - split; [by intros []|done].
Qed.

Lemma session_reachable_ok s : session_reachable s -> session_ok s.
Proof.
  apply reachable_invariant; [|intros op s0 u s' Hs H; by eapply session_exec_ok].
  intros s0 (id & c & cu & sr & cur & Hid & ->). split; cbn; try done; try (by split; intros []).
  split; [apply NoDup_nil_2|unfold MAX_DISCOUNT_CODES; lia].
Qed.

(** The references a session is opened with. *)
Definition identity (p : SessionProps) : string * option string * string * string :=
  (se_cartRef p, se_customerRef p, se_sessionRef p, se_currency p).

Definition closing (e : EventMeta * CheckoutEvent) : bool :=
  match e.2 with CheckoutCompleted _ _ _ | CheckoutFailed _ _ _ | CheckoutExpired _ _ => true | _ => false end.
Definition closings (s : CheckoutSession) : nat := length (filter (fun e => closing e = true) (agg_events s)).

(** How the state may move. *)
Definition state_step (a b : CheckoutStateValue) : Prop :=
  a = b \/ (a = cs_started /\ b = cs_locked) \/ (isOpen a = true /\ isOpen b = false).

Record later (s s' : CheckoutSession) : Prop := {
  lt_identity : identity (agg_props s') = identity (agg_props s) /\ agg_id s' = agg_id s;
  lt_state : state_step (se_state (agg_props s)) (se_state (agg_props s'));
  lt_closed : isOpen (se_state (agg_props s)) = false -> agg_events s' = agg_events s /\
    agg_props s' = with_paymentIntentRef (se_paymentIntentRef (agg_props s')) (agg_props s);
  lt_intent : forall r, se_paymentIntentRef (agg_props s) = Some r -> se_paymentIntentRef (agg_props s') = Some r }.

Lemma later_refl s : later s s.
Proof. split; try done; [by left|]. by destruct s as [? ? ? []]. Qed.

Lemma state_step_trans a b c : state_step a b -> state_step b c -> state_step a c.
Proof. unfold state_step. destruct a, b, c; cbn; intuition congruence. Qed.

Lemma later_trans s1 s2 s3 : later s1 s2 -> later s2 s3 -> later s1 s3.
Proof.
  intros [[I1 J1] S1 C1 R1] [[I2 J2] S2 C2 R2]. split.
  - split; congruence.
  - by eapply state_step_trans.
  - intros Hc. destruct (C1 Hc) as [E1 P1]. destruct C2 as [E2 P2]; [by rewrite P1; destruct (agg_props s1)|].
    split; [congruence|]. rewrite P2, P1. by destruct (agg_props s1).
  - auto.
Qed.

Lemma exec_later op s u s' : session_ok s -> session_exec op s = (Ok u, s') ->
  later s s' /\ closings s' = (closings s + if isOpen (se_state (agg_props s)) && negb (isOpen (se_state (agg_props s')))
    then 1 else 0)%nat.
Proof.
  intros Hs H. pose proof (so_order s Hs) as Ho. destruct s as [id v ev p].
  unfold closings. destruct op; session_cases H; destruct p; cbn in *;
    match goal with st : CheckoutStateValue |- _ => destruct st; cbn in *; try discriminate end;
    (split; [split; cbn;
      [done|unfold state_step; tauto|try first [discriminate | by intros _]|
       try first [by intros | intros r Hr; congruence]]
     |rewrite ?filter_app, ?length_app; first [symmetry; apply Nat.add_0_r | reflexivity]]).
  all: intros r ->; match goal with H : _ && _ = false |- _ => rename H into Hd end.
  all: apply andb_false_iff in Hd as [[]%bool_decide_eq_false|Hd%negb_false_iff%bool_decide_eq_true]; done.
Qed.

Lemma exec_err_unchanged op s e s' : session_exec op s = (Err e, s') -> s' = s.
Proof.
  destruct op; cbn; unfold loadItems, setBillingAddress, setShippingAddress, setContactEmail, selectShipping, selectPayment,
    attachPaymentIntent, applyTaxSnapshot, applyPromotionSnapshot, enterDiscountCode, removeDiscountCode,
    applyDiscountSnapshot, recordRejectedDiscountCode, recalculateTotals, lock, expire, complete, fail, when_open, ensureOpen,
    set_props, addDomainEvent, mbind, M_bind, lift, gets, modify, throw, throw_if, mret, M_ret;
    intros H; repeat case_match; by simplify_eq.
Qed.

Lemma later_reachable s s' : session_ok s -> reachable (eq s) session_exec s' -> later s s' /\ session_ok s'.
Proof.
  intros Hs. revert s'. apply reachable_invariant; [intros ? <-; split; [apply later_refl|done]|].
  intros op s1 u s2 [Hl H1] H. split; [|by eapply session_exec_ok].
  eapply later_trans; [done|]. by eapply exec_later.
Qed.

Lemma closings_reachable s : session_reachable s ->
  closings s = if isOpen (se_state (agg_props s)) then 0%nat else 1%nat.
Proof.
  intros H. assert (session_ok s /\ closings s = if isOpen (se_state (agg_props s)) then 0%nat else 1%nat) as [_ ?]; [|done].
  revert s H. apply reachable_invariant.
  - intros s0 Hf. split; [apply session_reachable_ok; by apply reach_init|]. by destruct Hf as (id & c & cu & sr & cur & _ & ->).
  - intros op s u s' [Hs Hc] H. split; [by eapply session_exec_ok|].
    destruct (exec_later _ _ _ _ Hs H) as [[_ Hst Hcl _] ->]. rewrite Hc.
    destruct (isOpen (se_state (agg_props s))) eqn:Ho.
    + by destruct (isOpen (se_state (agg_props s'))).
    + destruct (Hcl eq_refl) as [_ Hp]. rewrite Hp. destruct (agg_props s). cbn in *. by rewrite Ho.
Qed.

(** ** Properties *)

(** The lifecycle of a checkout session. In every reachable session an order reference is recorded
    exactly when it is completed, a payment intent only with an order and a chosen payment method, at
    most five different codes are entered, and a closing event has been raised exactly when it is
    closed, once. From then on nothing of it changes but the payment intent, which is set at most
    once; the state only moves from started to locked and from either to closed, the references it
    was opened with stay, and a call that throws changes nothing. *)
Theorem checkout_lifecycle s :
  session_reachable s ->
  (is_Some (se_orderRef (agg_props s)) <-> se_state (agg_props s) = cs_completed) /\
  (is_Some (se_paymentIntentRef (agg_props s)) ->
     is_Some (se_orderRef (agg_props s)) /\ is_Some (se_paymentSelection (agg_props s))) /\
  NoDup (se_discountCodes (agg_props s)) /\ (length (se_discountCodes (agg_props s)) <= MAX_DISCOUNT_CODES)%nat /\
  closings s = (if isOpen (se_state (agg_props s)) then 0 else 1)%nat /\
  (forall s', reachable (eq s) session_exec s' -> later s s') /\
  (forall op e s', session_exec op s = (Err e, s') -> s' = s).
Proof.
  intros Hr. pose proof (session_reachable_ok s Hr) as Hs. split; [apply Hs|]. split; [apply Hs|].
  split; [apply Hs|]. split; [apply Hs|]. split; [by apply closings_reachable|].
  split; [intros s' H; by eapply later_reachable|]. intros op e s'. apply exec_err_unchanged.
Qed.

(** ** What storing a session keeps *)

(** The props a reload gives: the totals assembled again from the items, and the tax flag they carry. *)
Definition reloaded (p : SessionProps) : SessionProps :=
  with_tax (se_taxMinor p) (to_taxIncluded <$> se_totals p)
    (with_totals (totals_of_json (se_items p) ∘ totals_to_json <$> se_totals p) p).

Lemma item_json_roundtrip i : item_ok i -> exists j, item_to_json i = Ok j /\ item_of_json j = Ok i.
Proof.
  intros Hi. unfold item_to_json, ProductRef_create, Guard.againstEmpty, must. destruct Hi as (Hr & Hq & Hp). rewrite Hr.
  eexists. split; [reflexivity|]. unfold item_of_json. cbn.
  assert ((fun v => mkMerchandise v (default EmptyString (me_sku <$> it_merchandise i))
    (default EmptyString (me_title <$> it_merchandise i)) (it_merchandise i ≫= me_variantTitle))
       <$> (me_variantRef <$> it_merchandise i) = it_merchandise i) as -> by by destruct (it_merchandise i) as [[]|].
  by rewrite checkout_item_create.
Qed.

Lemma if_set_id {A} (f : A -> result A) v : (forall a, v = Some a -> f a = Ok a) -> if_set f v = Ok v.
Proof. intros H. destruct v as [a|]; cbn; [|done]. by rewrite (H a eq_refl). Qed.

Lemma must_id {A} (r : result A) what a : r = Ok a -> must r what = Ok a.
Proof. by intros ->. Qed.

(** The discounts column keeps the four fields it is written from. *)
Lemma discounts_column s : session_ok s -> let p := agg_props s in
  hasDiscountState p || bool_decide (0 < se_rejectedCodeAttempts p) = false ->
  se_discountCodes p = [] /\ se_discountSnapshot p = None /\ se_rejectedCodeAttempts p = 0 /\
  se_codeAttemptsWindowStartedAt p = None.
Proof.
  intros Hs p Hd. unfold hasDiscountState in Hd.
  apply orb_false_iff in Hd as [[H1%bool_decide_eq_false H2%bool_decide_eq_false]%orb_false_iff H3%bool_decide_eq_false].
  destruct (so_attempts s Hs) as [Ha Hw]. fold p in Ha, Hw.
  split; [by destruct (se_discountCodes p); [|cbn in H1; lia]|].
  split; [by apply eq_None_not_Some|]. split; [lia|]. apply eq_None_not_Some. intros ?%Hw. lia.
Qed.

Lemma toDomain_toRow s : session_ok s ->
  exists row, toRow s = Ok row /\ toDomain row = Ok (reconstitute (agg_id s) (reloaded (agg_props s)) 1).
Proof.
  intros Hs. pose proof (discounts_column s Hs) as Hd. cbn zeta in Hd. destruct Hs as [Hid Hi Hb Hsh He Hsel Hp _ Hint _ _].
  destruct s as [id v ev p]. unfold toRow. cbn [agg_props agg_id] in *.
  destruct (map_result_id item_to_json item_of_json (se_items p)) as (js & Hjs & Hitems).
  { intros i Hin. apply item_json_roundtrip. rewrite Forall_forall in Hi. auto. }
  rewrite Hjs. eexists. split; [reflexivity|].
  unfold toDomain. cbn -[must]. rewrite Hitems. cbn -[must].
  assert (UniqueEntityId_from id = Ok id) as -> by by apply UniqueEntityId_from_Ok.
  cbn -[must]. rewrite !if_set_id by (intros; apply must_id; auto). cbn -[must].
  assert (if_set (fun s => must (ShippingSelection_create (sj_method s) (sj_rateAmountMinor s) (sj_currency s) (sj_name s)
    (sj_description s)) "shipping selection")
    ((fun s => mkShippingJson (ss_method s) (NInt (ss_rateAmountMinor s)) (ss_currency s) (ss_name s) (ss_description s))
       <$> se_shippingSelection p) = Ok (se_shippingSelection p)) as ->.
  { destruct (se_shippingSelection p) as [x|]; [|done]. destruct (Hsel x eq_refl) as [Hm Hr]. cbn -[must].
    unfold ShippingSelection_create. cbn [sj_method sj_rateAmountMinor]. rewrite Hm.
    assert (integer_from 0 (NInt (ss_rateAmountMinor x)) = Some (ss_rateAmountMinor x)) as -> by by apply integer_from_Some.
    by destruct x. }
  cbn -[must].
  assert (if_set (fun p0 => must (PaymentSelection_create (pj_paymentMethodRef p0) (pj_provider p0)) "payment selection")
    ((fun s => mkPaymentJson (ps_paymentMethodRef s) (ps_provider s) (se_paymentIntentRef p)) <$> se_paymentSelection p) =
    Ok (se_paymentSelection p)) as ->.
  { destruct (se_paymentSelection p) as [x|]; [|done]. destruct (Hp x eq_refl) as [Hm Hr]. cbn -[must].
    unfold PaymentSelection_create. cbn [pj_paymentMethodRef pj_provider]. rewrite Hm, Hr. by destruct x. }
  cbn. do 2 f_equal.
  assert (((fun s => mkPaymentJson (ps_paymentMethodRef s) (ps_provider s) (se_paymentIntentRef p)) <$> se_paymentSelection p)
    ≫= pj_paymentIntentRef = se_paymentIntentRef p) as ->.
  { destruct (se_paymentSelection p); cbn; [done|]. destruct (se_paymentIntentRef p); [|done].
    by destruct Hint as [_ []]. }
  destruct p. cbn in *. unfold reloaded. cbn. rewrite <- !option_fmap_compose.
  destruct (_ || _); cbn; [done|]. by destruct Hd as (-> & -> & -> & ->).
Qed.

Lemma assemble_reload items t sh d c inc nm sd :
  totals_of_json items (totals_to_json (assemble items t sh d c inc nm sd)) = assemble items t sh d c inc nm sd.
Proof.
  unfold totals_of_json, totals_to_json, assemble. cbn.
  assert (Z.min (Z.max 0 (Z.min (Z.max 0 sd) sh)) sh = Z.min (Z.max 0 sd) sh) as -> by lia. done.
Qed.

Lemma reload_totals_idemp items t :
  totals_of_json items (totals_to_json (totals_of_json items (totals_to_json t))) = totals_of_json items (totals_to_json t).
Proof. apply assemble_reload. Qed.

(** Storing a session and loading it back. Every reachable session can be written and its row can
    be read; what is read is the session with nothing changed but the totals, assembled again from the
    stored items with the tax, the shipping price and the discounts the totals were last assembled with,
    and the flag that says whether tax is included, which only those totals keep. Storing what was
    loaded changes nothing more, and a session whose totals are up to date comes back as it was. *)
Theorem checkout_row_roundtrip s :
  session_reachable s ->
  let p := agg_props s in
  (exists row, toRow s = Ok row /\ toDomain row = Ok (reconstitute (agg_id s) (reloaded p) 1)) /\
  reloaded (reloaded p) = reloaded p /\
  reloaded p = with_tax (se_taxMinor p) (se_taxIncluded (reloaded p)) (with_totals (se_totals (reloaded p)) p) /\
  (se_totals p = Some (totals_of p) -> reloaded p = with_tax (se_taxMinor p) (Some (default false (se_taxIncluded p))) p).
Proof.
  intros Hr p. split; [by apply toDomain_toRow, session_reachable_ok|]. split; [|split].
  - unfold reloaded. destruct p as [? ? ? ? ? ? items ? ? ? ? ? ? ? ? ? [t|]]; cbn; [|done].
    by rewrite reload_totals_idemp.
  - unfold reloaded. by destruct p.
  - intros Ht. unfold reloaded. rewrite Ht. cbn. unfold totals_of. rewrite assemble_reload.
    unfold totals_of in Ht. by destruct p as [? ? ? ? ? ? items ? ? ? ? ? ? ? ? ? [t|]]; cbn in *; [rewrite Ht|].
Qed.

(** ** Witnesses *)

Definition home : CheckoutAddress :=
  mkAddress (Some " Mona ") (Some "+20 10-1234-5678") "1 Main St" None "Cairo" "" "EG" (Some "EG-C").
Definition sample_session_ops : list SessionOp :=
  [ op_loadItems [mkRawItem "p1" (NInt 2) (NInt 1999) "EGP" (Some "v1") (Some "SKU") None None];
    op_setBillingAddress home; op_setShippingAddress home; op_setContactEmail " Guest@Example.COM ";
    op_selectShipping "standard" (NInt 500) (Some "Standard") None; op_selectPayment "pm" "stripe";
    op_enterDiscountCode " ten "; op_applyTaxSnapshot 491 true; op_recalculateTotals "e1" 10; op_lock "e2" 20;
    op_complete "order-1" "e3" 30; op_attachPaymentIntent "pi-1" ].
Definition sample_start : CheckoutSession := start "s1" "cart-1" None "guest-1" "EGP".
Definition sample_session : CheckoutSession := snd (run_ops session_exec sample_session_ops sample_start).

Lemma sample_session_reachable : session_reachable sample_session.
Proof.
  apply (run_ops_reachable _ _ sample_session_ops sample_start tt); [|vm_compute; reflexivity].
  apply reach_init. exists "s1", "cart-1", None, "guest-1", "EGP". by vm_compute.
Qed.

Lemma checkout_lifecycle_witness :
  se_orderRef (agg_props sample_session) = Some "order-1" /\ closings sample_session = 1%nat /\
  fst (session_exec (op_attachPaymentIntent "pi-2") sample_session) =
    Err (BusinessRuleError "This checkout already has a payment intent").
Proof.
  split; [vm_compute; reflexivity|]. split; [|vm_compute; reflexivity].
  apply (checkout_lifecycle sample_session sample_session_reachable).
Defined.

Lemma checkout_row_roundtrip_witness :
  reloaded (agg_props sample_session) = with_tax (Some 491) (Some true) (agg_props sample_session) /\
  (to_totalMinor <$> se_totals (agg_props sample_session)) = Some 4498.
Proof.
  split; [|vm_compute; reflexivity].
  apply (checkout_row_roundtrip sample_session sample_session_reachable). vm_compute. reflexivity.
Defined.
