(* ===== verification/CheckoutFlow.v ===== *)
(** The use cases of the Checkout context ([services/checkout/src/application]): each loads the stored
    session, asks other contexts through ports, calls the session and stores it again. A world is the row
    of one session, the outbox and the calls made to the ports that act (placing, reserving, cancelling);
    the ports that only answer are interfaces. A use case that returns an error commits what it saved
    before; the errors other contexts throw happen before anything is saved. Completing, which acts on other
    contexts inside its transaction, also takes what becomes of that transaction: what others commit on the
    session meanwhile, a failing save, a failing commit. *)
From S2P Require Import Prelude Kernel Promotions Discounts Tax Checkout.

#[global] Open Scope Z_scope.

(** ** Ports ([application/ports.ts]) *)

Record DiscountEvaluationInput := mkEvaluationInput {
  ev_items : list CheckoutItem; ev_shipping : option DiscountShipping; ev_customerRef : option string;
  ev_email : option string; ev_codes : list string }.
Record PromotionValidationResult := mkPromotionResult { pv_valid : bool; pv_discountMinor : Z }.

Class PromotionValidationPort := {
  evaluate : DiscountEvaluationInput -> result DiscountSnapshot;
  validate : list CheckoutItem -> option string -> option string -> string -> PromotionValidationResult }.
Class TaxCalculationPort := {
  calculate : list CheckoutItem -> CheckoutAddress -> Z -> string -> TaxDiscounts -> result TaxResult }.

Record ShippingQuote := mkQuote {
  qt_method : string; qt_name : string; qt_rateAmountMinor : jsnum; qt_description : option string }.
(** [ShippingCalculationPort.quote] *)
Definition QuotePort : Type := CheckoutAddress -> list CheckoutItem -> string -> list ShippingQuote.

(** What the ports that act are asked to do, in order. *)
Inductive PortCall :=
| CreateOrder (checkoutSessionId currency idempotencyKey : string) (draft : OrderDraft)
| ReserveStock (orderRef : string) (items : list CheckoutItem)
| ReleaseStock (orderRef : string)
| CancelOrder (orderRef : string)
| RecordUsage (orderRef : string) (customerRef email : option string) (applied : list AppliedDiscount)
| OpenPayment (orderRef provider : string) (amountMinor : Z) (currency : string).

(** ** The stored session ([infrastructure/prisma-checkout-session-repository.ts]) *)

Record CheckoutWorld := mkWorld {
  cw_row : option CheckoutSessionRow; cw_outbox : list (EventMeta * CheckoutEvent); cw_calls : list PortCall }.
Definition FlowM : Type -> Type := M CheckoutWorld.

Definition findById : FlowM (option CheckoutSession) :=
  w ← gets (fun w => w);
  match cw_row w with
  | Some row => s ← lift (toDomain row); mret (Some s)
  | None => mret None
  end.

(** [findById], and the answer of every use case when there is none. *)
Definition load : FlowM CheckoutSession :=
  found ← findById;
  match found with
  | Some s => mret s
  | None => throw (NotFoundError "Checkout session not found")
  end.

(** The columns an update writes; the others stay. *)
Definition update_row (old new : CheckoutSessionRow) : CheckoutSessionRow :=
  mkRow (rw_id old) (rw_cartRef old) (rw_customerRef new) (rw_sessionRef old) (rw_contactEmail new) (rw_currency old)
    (rw_state new) (rw_orderRef new) (rw_items new) (rw_billingAddress new) (rw_shippingAddress new)
    (rw_shippingSelection new) (rw_paymentSelection new) (rw_taxMinor new) (rw_discountMinor new) (rw_totals new)
    (rw_discounts new) (rw_version old + 1).

Definition conflict (s : CheckoutSession) : DomainError :=
  ConcurrencyError ("CheckoutSession " +:+ agg_id s +:+ " was modified concurrently (expected version " +:+
    pretty (agg_version s) +:+ ")").

Definition save (s : CheckoutSession) : FlowM unit :=
  row ← lift (toRow s);
  w ← gets (fun w => w);
  row' ← lift (if bool_decide (agg_version s = 0) then
      match cw_row w with Some _ => Err (UnexpectedError "unique constraint violation") | None => Ok row end
    else match cw_row w with
      | Some old => if bool_decide (rw_version old = agg_version s) then Ok (update_row old row) else Err (conflict s)
      | None => Err (conflict s)
      end);
  modify (fun w => mkWorld (Some row') (cw_outbox w ++ agg_events s) (cw_calls w)).

(** A call on the loaded session; what it throws is the use case's error. *)
Definition on {A} (s : CheckoutSession) (m : SessionM A) : FlowM (A * CheckoutSession) :=
  match m s with
  | (Ok a, s') => mret (a, s')
  | (Err e, _) => throw e
  end.
Definition call (c : PortCall) : FlowM unit := modify (fun w => mkWorld (cw_row w) (cw_outbox w) (cw_calls w ++ [c])).

(** ** Opening a session ([start-checkout.use-case.ts]) *)

Definition StartCheckout (id cartRef : string) (customerRef : option string) (sessionRef currency : string) : FlowM string :=
  _ ← lift (Guard.againstEmpty cartRef "cartRef");
  _ ← lift (Guard.againstEmpty sessionRef "sessionRef");
  _ ← lift (match customerRef with Some c => Guard.againstEmpty c "customerRef" | None => Ok EmptyString end);
  _ ← lift (Money.create (NInt 0) currency);
  id ← lift (UniqueEntityId_from id);
  save (start id cartRef customerRef sessionRef currency);;
  mret id.

(** ** Details ([checkout-details.use-cases.ts]) *)

(** [withSession]: load, change, save. *)
Definition withSession (mutate : SessionM unit) : FlowM string :=
  s ← load;
  r ← on s mutate;
  save r.2;;
  mret (agg_id s).

(** [packages/regions/src/index.ts]: the provinces of the countries that have them; the names a plain object
    inherits, which are no country codes, are left out. *)
Definition PROVINCES (countryCode : string) : list string :=
  if bool_decide (countryCode = "EG") then
    ["EG-ALX"; "EG-ASN"; "EG-AST"; "EG-BA"; "EG-BH"; "EG-BNS"; "EG-C"; "EG-DK"; "EG-DT"; "EG-FYM"; "EG-GH"; "EG-GZ";
     "EG-IS"; "EG-JS"; "EG-KB"; "EG-KFS"; "EG-KN"; "EG-LX"; "EG-MN"; "EG-MNF"; "EG-MT"; "EG-PTS"; "EG-SHG"; "EG-SHR";
     "EG-SIN"; "EG-SUZ"; "EG-WAD"]
  else if bool_decide (countryCode = "SA") then
    ["SA-01"; "SA-02"; "SA-03"; "SA-04"; "SA-05"; "SA-06"; "SA-07"; "SA-08"; "SA-09"; "SA-10"; "SA-11"; "SA-12"; "SA-14"]
  else if bool_decide (countryCode = "AE") then ["AE-AZ"; "AE-AJ"; "AE-FU"; "AE-SH"; "AE-DU"; "AE-RK"; "AE-UQ"]
  else [].
Definition hasProvinces (countryCode : string) : bool := bool_decide (0 < length (PROVINCES countryCode))%nat.
Definition isProvinceOf (countryCode provinceCode : string) : bool := bool_decide (provinceCode ∈ PROVINCES countryCode).

(** [provinceProblem] of [address-province.ts] *)
Definition provinceProblem (country : string) (province : option string) : option DomainError :=
  let given := trim (default EmptyString province) in
  let problem m := Some (ValidationError "Invalid address" [mkFieldIssue "province" m]) in
  if hasProvinces country then
    if bool_decide (given = EmptyString) then problem "required for this country"
    else if negb (isProvinceOf country given) then problem (given +:+ " is not a province of " +:+ country)
    else None
  else if bool_decide (given = EmptyString) then None else problem (country +:+ " has no provinces to choose from").

Definition LoadItems (raw : list RawItem) : FlowM string :=
  items ← lift (map_result item_of_raw raw); withSession (loadItems items).

Definition checked_address (x : CheckoutAddress) : result CheckoutAddress :=
  a ← CheckoutAddress_create x;
  match provinceProblem (ad_country x) (ad_province x) with Some e => Err e | None => Ok a end.
Definition SetBillingAddress (x : CheckoutAddress) : FlowM string :=
  a ← lift (checked_address x); withSession (setBillingAddress a).
Definition SetShippingAddress (x : CheckoutAddress) : FlowM string :=
  a ← lift (checked_address x); withSession (setShippingAddress a).
Definition SetContactEmail (email : string) : FlowM string :=
  e ← lift (ContactEmail_create email); withSession (setContactEmail e).

Definition SelectShipping (quote : QuotePort) (method : string) : FlowM string :=
  s ← load;
  let p := agg_props s in
  match se_shippingAddress p with
  | None => throw (BusinessRuleError "Cannot select shipping before a shipping address is set")
  | Some address =>
      match list_find (fun q => qt_method q = method) (quote address (se_items p) (se_currency p)) with
      | None => throw (ValidationError "Unknown or unavailable shipping method"
          [mkFieldIssue "method" "does not match any current shipping quote"])
      | Some (_, q) =>
          selection ← lift (ShippingSelection_create (qt_method q) (qt_rateAmountMinor q) (se_currency p)
            (Some (qt_name q)) (qt_description q));
          r ← on s (selectShipping selection);
          save r.2;;
          mret (agg_id s)
      end
  end.

Definition SelectPayment (offered : list string) (paymentMethodRef provider : string) : FlowM string :=
  selection ← lift (PaymentSelection_create paymentMethodRef provider);
  throw_if (negb (bool_decide (provider ∈ offered)))
    (ValidationError "Payment method is not available" [mkFieldIssue "provider" "is not offered by this merchant"]);;
  withSession (selectPayment selection).

(** ** Discounts and tax ([discount-code.use-cases.ts]) *)

Definition evaluation_input (p : SessionProps) : DiscountEvaluationInput :=
  mkEvaluationInput (se_items p)
    (match se_shippingAddress p, se_shippingSelection p with
     | Some a, Some x => Some (mkShipping (ad_country a) (ss_rateAmountMinor x))
     | _, _ => None
     end) (se_customerRef p) (se_contactEmail p) (se_discountCodes p).

Definition refreshDiscounts (port : PromotionValidationPort) : SessionM unit :=
  p ← gets agg_props;
  snapshot ← lift (evaluate (evaluation_input p));
  if bool_decide (0 < length (dr_applied snapshot))%nat || hasDiscountState p then applyDiscountSnapshot snapshot
  else mret tt.

Definition order_figure (p : SessionProps) : Z := default 0 (se_discountMinor p).
Definition shipping_figure (p : SessionProps) : Z :=
  match se_discountSnapshot p with Some d => dr_shippingDiscountMinor d | None => 0 end.
Definition selected_rate (p : SessionProps) : Z :=
  match se_shippingSelection p with Some x => ss_rateAmountMinor x | None => 0 end.

Definition calculateAndStoreTax (port : TaxCalculationPort) : SessionM TaxResult :=
  p ← gets agg_props;
  match se_shippingAddress p with
  | None => throw (BusinessRuleError "Cannot request tax calculation before a shipping address is set")
  | Some address =>
      result ← lift (calculate (se_items p) address (selected_rate p) (se_currency p)
        (mkTaxDiscounts (Some (order_figure p)) (Some (shipping_figure p))));
      applyTaxSnapshot (tx_taxMinor result) (tx_included result);;
      mret result
  end.

(** Returns whether the discounts moved. *)
Definition refreshDiscountsAndTax (promotions : PromotionValidationPort) (tax : option TaxCalculationPort) : SessionM bool :=
  before ← gets agg_props;
  refreshDiscounts promotions;;
  after ← gets agg_props;
  let changed := negb (bool_decide (order_figure before = order_figure after)) ||
                 negb (bool_decide (shipping_figure before = shipping_figure after)) in
  match tax with
  | Some port =>
      if changed && bool_decide (is_Some (se_shippingAddress after)) && bool_decide (is_Some (se_taxMinor after))
      then calculateAndStoreTax port;; mret changed
      else mret changed
  | None => mret changed
  end.

Definition recalculateIfPossible (eid : string) (now : Z) : SessionM unit :=
  p ← gets agg_props;
  if bool_decide (0 < length (se_items p))%nat then recalculateTotals eid now else mret tt.

(** Whether a code applies, and the reason given when it does not: the words of the use case itself or the
    reason Promotions gave. *)
Inductive CodeReason := too_many_attempts | too_many_codes | promotions_reason (r : DiscountRejection).
Record DiscountCodeOutput := mkCodeOutput { do_code : string; do_applicable : bool; do_reason : option CodeReason }.

Definition status_for (p : SessionProps) (code : string) : option DiscountCodeStatus :=
  se_discountSnapshot p ≫= fun d => snd <$> list_find (fun s => st_code s = code) (dr_codeStatuses d).

(** The inner [try] of [AddDiscountCode]: a sixth code is an answer, anything else thrown goes on. *)
Definition entered_or_full (code : string) : SessionM bool :=
  fun s => match enterDiscountCode code s with
           | (Ok _, s') => (Ok true, s')
           | (Err (BusinessRuleError m), s') =>
               if String.prefix "TOO_MANY_CODES" m then (Ok false, s') else (Err (BusinessRuleError m), s')
           | (Err e, s') => (Err e, s')
           end.

Definition AddDiscountCode (promotions : PromotionValidationPort) (tax : option TaxCalculationPort) (input eid : string)
    (now : Z) : FlowM DiscountCodeOutput :=
  let code := normalizeDiscountCode input in
  throw_if (bool_decide (code = EmptyString)) (ValidationError "Invalid discount code" [mkFieldIssue "code" "required"]);;
  s ← load;
  if isDiscountCodeEntryLocked (agg_props s) now then mret (mkCodeOutput code false (Some too_many_attempts))
  else
    r ← on s (entered_or_full code);
    if negb (r.1 : bool) then mret (mkCodeOutput code false (Some too_many_codes))
    else
      r ← on r.2 (refreshDiscountsAndTax promotions tax);
      let status := status_for (agg_props r.2) code in
      let applicable := match status with Some st => st_applicable st | None => false end in
      r ← on r.2 (if applicable then mret tt
        else removeDiscountCode code;; recordRejectedDiscountCode now;;
             refreshDiscountsAndTax promotions tax;; mret tt);
      r ← on r.2 (recalculateIfPossible eid now);
      save r.2;;
      mret (mkCodeOutput code applicable
        (if applicable then None
         else Some (promotions_reason (default rj_not_found (status ≫= st_reason))))).

Definition RemoveDiscountCode (promotions : PromotionValidationPort) (tax : option TaxCalculationPort) (code eid : string)
    (now : Z) : FlowM string :=
  withSession (removeDiscountCode code;; refreshDiscountsAndTax promotions tax;; recalculateIfPossible eid now).

(** ** Orchestration ([checkout-orchestration.use-cases.ts]) *)

Definition RequestTaxCalculation (tax : TaxCalculationPort) (promotions : option PromotionValidationPort) (eid : string)
    (now : Z) : FlowM Z :=
  s ← load;
  throw_if (bool_decide (se_shippingAddress (agg_props s) = None))
    (BusinessRuleError "Cannot request tax calculation before a shipping address is set");;
  r ← on s (match promotions with Some port => refreshDiscounts port | None => mret tt end);
  r ← on r.2 (result ← calculateAndStoreTax tax; recalculateIfPossible eid now;; mret (tx_taxMinor result));
  save r.2;;
  mret r.1.

Definition ValidatePromotion (port : PromotionValidationPort) (promotionRef : option string) : FlowM (bool * Z) :=
  s ← load;
  let p := agg_props s in
  let result := validate (se_items p) (se_customerRef p) promotionRef (se_currency p) in
  if negb (pv_valid result) then mret (false, 0)
  else
    r ← on s (applyPromotionSnapshot (pv_discountMinor result));
    save r.2;;
    mret (true, pv_discountMinor result).

Definition RecalculateTotals (promotions : option PromotionValidationPort) (tax : option TaxCalculationPort) (eid : string)
    (now : Z) : FlowM string :=
  withSession (match promotions with Some port => refreshDiscountsAndTax port tax;; mret tt | None => mret tt end;;
               recalculateTotals eid now).

Definition Lock (eid : string) (now : Z) : FlowM string := withSession (lock eid now).
Definition ExpireCheckout (eid : string) (now : Z) : FlowM string := withSession (expire eid now).
Definition FailCheckout (reason eid : string) (now : Z) : FlowM string :=
  _ ← lift (Guard.againstEmpty reason "reason"); withSession (fail reason eid now).

(** ** Completing ([complete-checkout.use-case.ts]) *)

Record StockValidation := mkStockValidation { sv_valid : bool; sv_reason : option string }.

(** The ports as this call finds them: what order creation answers, an error when it throws; what stock
    validation and reservation answer, [inr None] when the reservation throws. *)
Record CompleteCheckoutDeps := mkCompleteDeps {
  cd_orderCreation : OrderDraft -> result string;
  cd_inventoryValidation : option (list CheckoutItem -> StockValidation);
  cd_stockReservation : option (string -> list CheckoutItem -> unit + option string);
  cd_orderCancellation : bool;
  cd_promotionValidation : option PromotionValidationPort;
  cd_taxCalculation : option TaxCalculationPort;
  cd_discountUsage : bool }.

(** What becomes of the transaction of a completion: the sessions other transactions save between its load
    and its own save, and the errors its save and its commit fail with, if they do. *)
Record Fate := mkFate {
  ft_others : list CheckoutSession; ft_save : option DomainError; ft_commit : option DomainError }.
Definition alone : Fate := mkFate [] None None.

Definition elsewhere (others : list CheckoutSession) (w : CheckoutWorld) : CheckoutWorld :=
  foldl (fun w s => snd (save s w)) w others.

Definition saving (fate : Fate) (s : CheckoutSession) : FlowM unit :=
  match ft_save fate with Some e => throw e | None => save s end.

(** A transaction that cannot commit leaves the row and the outbox as the others left them; what it asked
    of other contexts stays done. *)
Definition committing {A} (fate : Fate) (m : FlowM A) : FlowM A := fun w =>
  let (r, w') := m w in
  match ft_commit fate with
  | Some e => (Err e, mkWorld (cw_row w) (cw_outbox w) (cw_calls w'))
  | None => (r, w')
  end.

Record CompleteCheckoutOutput := mkCompleted { cc_checkoutSessionId : string; cc_state : CheckoutStateValue; cc_orderRef : string }.

Definition DISCOUNTS_CHANGED : DomainError :=
  BusinessRuleError "DISCOUNTS_CHANGED: the discounts changed; review the new total".

(** The discounts worked out once more; when a figure moved the new total is saved and shown instead. *)
Definition recheckDiscounts (fate : Fate) (deps : CompleteCheckoutDeps) (eid : string) (now : Z) (s : CheckoutSession) :
    FlowM CheckoutSession :=
  match cd_promotionValidation deps with
  | None => mret s
  | Some promotions =>
      r ← on s (refreshDiscountsAndTax promotions (cd_taxCalculation deps));
      if (r.1 : bool) || negb (bool_decide (se_taxMinor (agg_props r.2) = se_taxMinor (agg_props s))) then
        r' ← on r.2 (recalculateTotals eid now);
        saving fate r'.2;;
        throw DISCOUNTS_CHANGED
      else mret r.2
  end.

Definition validateStock (deps : CompleteCheckoutDeps) (items : list CheckoutItem) : result unit :=
  match cd_inventoryValidation deps with
  | None => Ok tt
  | Some validate =>
      let stock := validate items in
      if sv_valid stock then Ok tt
      else Err (BusinessRuleError ("OUT_OF_STOCK: " +:+ default "insufficient stock" (sv_reason stock)))
  end.

(** Releases what was held and cancels the order; what either throws is swallowed. *)
Definition undoOrder (deps : CompleteCheckoutDeps) (orderRef : string) : FlowM unit :=
  call (ReleaseStock orderRef);;
  (if cd_orderCancellation deps then call (CancelOrder orderRef) else mret tt).

Definition reserveStock (deps : CompleteCheckoutDeps) (orderRef : string) (items : list CheckoutItem) : FlowM unit :=
  match cd_stockReservation deps with
  | None => mret tt
  | Some reserve =>
      call (ReserveStock orderRef items);;
      match reserve orderRef items with
      | inl _ => mret tt
      | inr reason =>
          undoOrder deps orderRef;;
          throw (BusinessRuleError ("OUT_OF_STOCK: " +:+ default "insufficient stock" reason))
      end
  end.

Definition recordUsage (deps : CompleteCheckoutDeps) (orderRef : string) (draft : OrderDraft) : FlowM unit :=
  let used := filter (fun d => 0 < ap_amountMinor d) (dt_discounts draft) in
  if cd_discountUsage deps && bool_decide (0 < length used)%nat
  then call (RecordUsage orderRef (dt_customerRef draft) (dt_contactEmail draft) used)
  else mret tt.

(** The transaction from the loaded session on. *)
Definition completeLoaded (fate : Fate) (deps : CompleteCheckoutDeps) (idempotencyKey eid : string) (now : Z)
    (s : CheckoutSession) : FlowM CompleteCheckoutOutput :=
  match se_orderRef (agg_props s) with
  | Some orderRef => mret (mkCompleted (agg_id s) (se_state (agg_props s)) orderRef)
  | None =>
      let st := se_state (agg_props s) in
      throw_if (negb (isOpen st))
        (BusinessRuleError ("Checkout session is " +:+ state_name st +:+ " and can no longer be modified"));;
      s ← recheckDiscounts fate deps eid now s;
      draft ← lift (generateOrderDraft (agg_props s));
      lift (validateStock deps (se_items (agg_props s)));;
      call (CreateOrder (agg_id s) (se_currency (agg_props s)) idempotencyKey draft);;
      orderRef ← lift (cd_orderCreation deps draft);
      reserveStock deps orderRef (se_items (agg_props s));;
      r ← on s (complete orderRef eid now);
      saving fate r.2;;
      recordUsage deps orderRef draft;;
      mret (mkCompleted (agg_id s) (se_state (agg_props r.2)) orderRef)
  end.

Definition CompleteCheckout (fate : Fate) (deps : CompleteCheckoutDeps) (idempotencyKey eid : string) (now : Z) :
    FlowM CompleteCheckoutOutput :=
  _ ← lift (Guard.againstEmpty idempotencyKey "idempotencyKey");
  s ← load;
  modify (elsewhere (ft_others fate));;
  committing fate (completeLoaded fate deps idempotencyKey eid now s).

(** ** Paying ([payment-initiation.use-cases.ts]) *)

Record OpenedPayment := mkOpened { op_paymentIntentId : string; op_status : string; op_provider : string; op_clientHandle : option string }.
Record InitiatePaymentOutput := mkInitiated {
  in_provider : string; in_paymentIntentId : string; in_status : string; in_clientHandle : option string }.

(** [initiate] is what the payment port answers. The session is loaded again to record the intent. *)
Definition InitiatePayment (initiate : string -> string -> Z -> string -> result OpenedPayment) : FlowM InitiatePaymentOutput :=
  s ← load;
  let p := agg_props s in
  match se_orderRef p, se_paymentSelection p, se_totals p with
  | None, _, _ => throw (BusinessRuleError "Payment can only be initiated for a completed checkout")
  | _, None, _ => throw (BusinessRuleError "Payment cannot be initiated before a payment method is selected")
  | _, _, None => throw (BusinessRuleError "Payment cannot be initiated before totals are calculated")
  | Some orderRef, Some selection, Some totals =>
      match se_paymentIntentRef p with
      | Some ref => mret (mkInitiated (ps_provider selection) ref "existing" None)
      | None =>
          call (OpenPayment orderRef (ps_provider selection) (to_totalMinor totals) (to_currency totals));;
          opened ← lift (initiate orderRef (ps_provider selection) (to_totalMinor totals) (to_currency totals));
          current ← load;
          r ← on current (attachPaymentIntent (op_paymentIntentId opened));
          save r.2;;
          mret (mkInitiated (op_provider opened) (op_paymentIntentId opened) (op_status opened) (op_clientHandle opened))
      end
  end.

(** ** Lemmas: what a session method keeps *)

(** A method made of calls on the session: it keeps the session well formed and its references. *)
Definition sound {A} (m : SessionM A) : Prop :=
  forall s r s', session_ok s -> m s = (Ok r, s') ->
    session_ok s' /\ agg_id s' = agg_id s /\ agg_version s' = agg_version s /\
    identity (agg_props s') = identity (agg_props s).

Lemma exec_version op s u s' : session_exec op s = (Ok u, s') -> agg_version s' = agg_version s.
Proof. intros H. destruct op; session_cases H; done. Qed.

Lemma sound_op op : sound (session_exec op).
Proof.
  intros s u s' Hs H. destruct (exec_later _ _ _ _ Hs H) as [[[? ?] _ _ _] _].
  split; [by eapply session_exec_ok|]. split; [done|]. split; [by eapply exec_version|done].
Qed.
Lemma sound_ret {A} (x : A) : sound (mret x).
Proof. by intros s r s' Hs [= <- <-]. Qed.
Lemma sound_gets {A} (f : CheckoutSession -> A) : sound (gets f).
Proof. by intros s r s' Hs [= <- <-]. Qed.
Lemma sound_lift {A} (x : result A) : sound (lift x).
Proof. intros s r s' Hs [= _ <-]. done. Qed.
Lemma sound_throw {A} e : sound (throw e : SessionM A).
Proof. by intros s r s' Hs [=]. Qed.
Lemma sound_bind {A B} (m : SessionM A) (f : A -> SessionM B) : sound m -> (forall x, sound (f x)) -> sound (m ≫= f).
Proof.
  intros Hm Hf s r s' Hs H. apply bind_Ok in H as (x & s1 & H1 & H2).
  destruct (Hm _ _ _ Hs H1) as (Hs1 & ? & ? & ?). destruct (Hf _ _ _ _ Hs1 H2) as (? & ? & ? & ?).
  split; [done|]. split; [congruence|]. split; congruence.
Qed.

Create HintDb sound.
#[export] Hint Resolve sound_ret sound_gets sound_lift sound_throw : sound.
(** The calls of the session, as the operations they are. *)
#[export] Hint Extern 1 (sound (applyTaxSnapshot _ _)) => match goal with |- sound (applyTaxSnapshot ?a ?b) => exact (sound_op (op_applyTaxSnapshot a b)) end : sound.
#[export] Hint Extern 1 (sound (applyDiscountSnapshot _)) => match goal with |- sound (applyDiscountSnapshot ?a) => exact (sound_op (op_applyDiscountSnapshot a)) end : sound.
#[export] Hint Extern 1 (sound (removeDiscountCode _)) => match goal with |- sound (removeDiscountCode ?a) => exact (sound_op (op_removeDiscountCode a)) end : sound.
#[export] Hint Extern 1 (sound (recordRejectedDiscountCode _)) => match goal with |- sound (recordRejectedDiscountCode ?a) => exact (sound_op (op_recordRejectedDiscountCode a)) end : sound.
#[export] Hint Extern 1 (sound (recalculateTotals _ _)) => match goal with |- sound (recalculateTotals ?a ?b) => exact (sound_op (op_recalculateTotals a b)) end : sound.
#[export] Hint Extern 1 (sound (complete _ _ _)) => match goal with |- sound (complete ?a ?b ?c) => exact (sound_op (op_complete a b c)) end : sound.
#[export] Hint Extern 1 (sound (lock _ _)) => match goal with |- sound (lock ?a ?b) => exact (sound_op (op_lock a b)) end : sound.
#[export] Hint Extern 1 (sound (expire _ _)) => match goal with |- sound (expire ?a ?b) => exact (sound_op (op_expire a b)) end : sound.
#[export] Hint Extern 1 (sound (applyPromotionSnapshot _)) => match goal with |- sound (applyPromotionSnapshot ?a) => exact (sound_op (op_applyPromotionSnapshot a)) end : sound.
#[export] Hint Extern 1 (sound (attachPaymentIntent _)) => match goal with |- sound (attachPaymentIntent ?a) => exact (sound_op (op_attachPaymentIntent a)) end : sound.

Ltac solve_sound :=
  repeat (first
    [ solve [auto 2 with sound]
    | apply sound_bind; [|intros ?]
    | match goal with
      | |- sound (match ?x with _ => _ end) => destruct x
      | |- sound (if ?x then _ else _) => destruct x
      | |- sound (let _ := _ in _) => cbv zeta
      end ]).

Lemma sound_refreshDiscounts port : sound (refreshDiscounts port).
Proof. unfold refreshDiscounts. solve_sound. Qed.
Lemma sound_calculateAndStoreTax port : sound (calculateAndStoreTax port).
Proof. unfold calculateAndStoreTax. solve_sound. Qed.
#[export] Hint Resolve sound_refreshDiscounts sound_calculateAndStoreTax : sound.
Lemma sound_refreshDiscountsAndTax port tax : sound (refreshDiscountsAndTax port tax).
Proof. unfold refreshDiscountsAndTax. solve_sound. Qed.
#[export] Hint Resolve sound_refreshDiscountsAndTax : sound.

(** ** Lemmas: the stored session *)

(** The row of the world reads back as the session [s]. *)
Record stored (w : CheckoutWorld) (s : CheckoutSession) : Prop := {
  sd_load : load w = (Ok s, w);
  sd_ok : session_ok s;
  sd_version : 1 <= agg_version s;
  sd_events : agg_events s = [] }.

Definition row_with_version (v : Z) (r : CheckoutSessionRow) : CheckoutSessionRow :=
  mkRow (rw_id r) (rw_cartRef r) (rw_customerRef r) (rw_sessionRef r) (rw_contactEmail r) (rw_currency r) (rw_state r)
    (rw_orderRef r) (rw_items r) (rw_billingAddress r) (rw_shippingAddress r) (rw_shippingSelection r)
    (rw_paymentSelection r) (rw_taxMinor r) (rw_discountMinor r) (rw_totals r) (rw_discounts r) v.

Lemma toDomain_version r v s :
  toDomain r = Ok s -> toDomain (row_with_version v r) = Ok (mkAgg (agg_id s) v (agg_events s) (agg_props s)).
Proof.
  intros H. unfold toDomain in *. cbn [row_with_version rw_id rw_items rw_billingAddress rw_contactEmail rw_shippingAddress
    rw_shippingSelection rw_paymentSelection rw_totals rw_discounts rw_version rw_cartRef rw_customerRef rw_sessionRef
    rw_currency rw_state rw_orderRef rw_taxMinor rw_discountMinor] in *.
  minv. repeat match goal with H : ?r = Ok _ |- context [?r] => rewrite H; cbn end. done.
Qed.

Lemma toDomain_fields r s : toDomain r = Ok s ->
  rw_id r = agg_id s /\ rw_version r = agg_version s /\ agg_events s = [] /\
  rw_cartRef r = se_cartRef (agg_props s) /\ rw_sessionRef r = se_sessionRef (agg_props s) /\
  rw_currency r = se_currency (agg_props s).
Proof.
  intros H. unfold toDomain in H. minv. match goal with H : UniqueEntityId_from _ = Ok _ |- _ =>
    apply UniqueEntityId_from_Ok in H as [_ ->] end. done.
Qed.

Lemma toRow_fields s r : toRow s = Ok r ->
  rw_id r = agg_id s /\ rw_version r = 1 /\ rw_cartRef r = se_cartRef (agg_props s) /\
  rw_sessionRef r = se_sessionRef (agg_props s) /\ rw_currency r = se_currency (agg_props s).
Proof. unfold toRow. intros H. minv. done. Qed.

Lemma load_inv w s w' : load w = (Ok s, w') -> w' = w /\ exists row, cw_row w = Some row /\ toDomain row = Ok s.
Proof.
  unfold load, findById, mbind, M_bind, gets, lift, mret, M_ret, throw. intros H.
  repeat case_match; simplify_eq; eauto.
Qed.

Lemma load_row w row s : cw_row w = Some row -> toDomain row = Ok s -> load w = (Ok s, w).
Proof.
  intros Hr Hd. unfold load, findById, mbind, M_bind, gets, lift, mret, M_ret, throw. by rewrite Hr, Hd.
Qed.

Lemma session_ok_reloaded i v p ev ev' v' :
  session_ok (mkAgg i v ev p) -> session_ok (mkAgg i v' ev' (reloaded p)).
Proof. intros [Hid Hi Hb Hsh He Hsel Hp Ho Hint Hc Ha]. destruct p. split; cbn in *; assumption. Qed.

(** Saving a changed session makes the row read back as that session, reloaded, one version on. *)
Lemma save_stored w s0 s :
  stored w s0 -> session_ok s -> agg_id s = agg_id s0 -> agg_version s = agg_version s0 ->
  identity (agg_props s) = identity (agg_props s0) ->
  exists row, save s w = (Ok tt, mkWorld (Some row) (cw_outbox w ++ agg_events s) (cw_calls w)) /\
    stored (mkWorld (Some row) (cw_outbox w ++ agg_events s) (cw_calls w))
      (reconstitute (agg_id s) (reloaded (agg_props s)) (agg_version s + 1)).
Proof.
  intros [Hl Hok Hv _] Hs Hid Hver Hident. apply load_inv in Hl as (_ & old & Hold & Hdom).
  destruct (toDomain_toRow s Hs) as (row & Hrow & Hback).
  destruct (toDomain_fields _ _ Hdom) as (Fid & Fver & _ & Fc & Fs & Fcur).
  destruct (toRow_fields _ _ Hrow) as (Rid & _ & Rc & Rs & Rcur).
  injection Hident as E1 E2 E3 E4.
  assert (Hu : update_row old row = row_with_version (agg_version s + 1) row).
  { unfold update_row, row_with_version. f_equal; congruence. }
  exists (update_row old row). split.
  - unfold save, mbind, M_bind, lift, gets, modify. rewrite Hrow, Hold, bool_decide_false, bool_decide_true by lia. done.
  - split.
    + eapply load_row; [reflexivity|]. rewrite Hu. by rewrite (toDomain_version _ _ _ Hback).
    + destruct s as [i v ev p]. by eapply session_ok_reloaded.
    + cbn. lia.
    + done.
Qed.

(** Every save that is stored raises the version. *)
Lemma save_cases s w r w' : save s w = (r, w') ->
  w' = w \/ exists row', w' = mkWorld (Some row') (cw_outbox w ++ agg_events s) (cw_calls w) /\
    forall row, cw_row w = Some row -> rw_version row' = rw_version row + 1.
Proof.
  unfold save, mbind, M_bind, lift, gets, modify. intros H.
  destruct (toRow s) as [row|e]; [|injection H as _ <-; by left].
  destruct (cw_row w) as [old|] eqn:Hw; case_bool_decide; cbn in H; [by injection H as _ <-; left| | |].
  all: try (injection H as _ <-; by left).
  - case_bool_decide; injection H as _ <-; [right|by left]. eexists. split; [done|]. by intros ? [= <-].
  - injection H as _ <-. right. by eexists.
Qed.

Lemma elsewhere_cases others w row : cw_row w = Some row ->
  cw_calls (elsewhere others w) = cw_calls w /\
  (elsewhere others w = w \/
   exists row', cw_row (elsewhere others w) = Some row' /\ rw_version row < rw_version row').
Proof.
  revert w row. induction others as [|s others IH]; intros w row Hw; [by split; [|left]|].
  change (elsewhere (s :: others) w) with (elsewhere others (snd (save s w))).
  destruct (save s w) as [r w1] eqn:Hs. cbn [snd].
  apply save_cases in Hs as [-> | (row1 & -> & Hv)]; [by apply IH|].
  specialize (Hv row Hw). set (w1 := mkWorld (Some row1) (cw_outbox w ++ agg_events s) (cw_calls w)).
  destruct (IH w1 row1 eq_refl) as [Hc [He|(row' & Hr & Hlt)]]; split; [done| |done|].
  - right. exists row1. rewrite He. split; [done|lia].
  - right. exists row'. split; [done|lia].
Qed.

(** The save of a completion fails on its own, or loses the race, or stores the session. *)
Definition save_failed (fate : Fate) (w : CheckoutWorld) (s : CheckoutSession) (e : DomainError) : Prop :=
  ft_save fate = Some e \/ (elsewhere (ft_others fate) w <> w /\ e = conflict s).

Lemma saving_outcome fate w w2 s0 s r w' :
  stored w s0 -> session_ok s -> agg_id s = agg_id s0 -> agg_version s = agg_version s0 ->
  identity (agg_props s) = identity (agg_props s0) ->
  cw_row w2 = cw_row (elsewhere (ft_others fate) w) -> saving fate s w2 = (r, w') ->
  (exists e, r = Err e /\ w' = w2 /\ save_failed fate w s0 e) \/
  (r = Ok tt /\ elsewhere (ft_others fate) w = w /\
   exists row, w' = mkWorld (Some row) (cw_outbox w2 ++ agg_events s) (cw_calls w2) /\
     stored w' (reconstitute (agg_id s) (reloaded (agg_props s)) (agg_version s + 1))).
Proof.
  intros Hst Hs Hid Hv Hi Hrow H. unfold saving in H.
  destruct (ft_save fate) as [e|] eqn:Hf; [injection H as <- <-; left; exists e; split_and!; [done..|by left]|].
  destruct (load_inv _ _ _ (sd_load _ _ Hst)) as (_ & old & Hold & Hdom).
  destruct (toDomain_fields _ _ Hdom) as (_ & Fver & _). pose proof (sd_version _ _ Hst) as Hpos.
  destruct (elsewhere_cases (ft_others fate) w old Hold) as [_ [He|(row' & Hr & Hlt)]].
  - right. rewrite He, Hold in Hrow.
    assert (Hst2 : stored w2 s0).
    { destruct Hst as [_ H1 H2 H3]. by split; [eapply load_row|..]. }
    destruct (save_stored w2 s0 s Hst2 Hs Hid Hv Hi) as (row & Hsave & Hst').
    rewrite H in Hsave. injection Hsave as -> ->. split; [done|]. split; [done|]. by exists row.
  - left. exists (conflict s0). rewrite Hr in Hrow. unfold save, mbind, M_bind, lift, gets in H.
    destruct (toDomain_toRow s Hs) as (row & Htr & _). rewrite Htr, Hrow, !bool_decide_false in H by lia.
    injection H as <- <-. unfold conflict. rewrite Hid, Hv. split_and!; [done..|]. right.
    split; [|done]. intros He. rewrite He in Hr. assert (row' = old) as -> by congruence. lia.
Qed.

(** [withSession] on a stored session: a failing change leaves the world as it was, a successful one is saved. *)
Lemma withSession_stored w s0 (m : SessionM unit) :
  stored w s0 -> sound m ->
  (exists e s', m s0 = (Err e, s') /\ withSession m w = (Err e, w)) \/
  (exists s row, m s0 = (Ok tt, s) /\
    let w' := mkWorld (Some row) (cw_outbox w ++ agg_events s) (cw_calls w) in
    withSession m w = (Ok (agg_id s0), w') /\
    stored w' (reconstitute (agg_id s0) (reloaded (agg_props s)) (agg_version s0 + 1))).
Proof.
  intros Hst Hm. unfold withSession, mbind, M_bind. rewrite (sd_load _ _ Hst). unfold on.
  destruct (m s0) as [[[]|e] s] eqn:H; [right|left; by exists e, s].
  destruct (Hm _ _ _ (sd_ok _ _ Hst) H) as (Hok & Hid & Hv & Hi).
  destruct (save_stored w s0 s Hst Hok Hid Hv Hi) as (row & Hsave & Hst').
  exists s, row. split; [done|]. cbn. rewrite Hsave. split; [done|]. by rewrite Hid, Hv in Hst'.
Qed.

(** ** What Checkout relies on in the answers of the ports *)

(** Promotions never discounts the order by more than its lines, nor the shipping by more than its rate. *)
Class DiscountsWithin (port : PromotionValidationPort) : Prop := {
  evaluate_within i snapshot :
    Forall item_ok (ev_items i) -> (forall s, ev_shipping i = Some s -> 0 <= sp_rateMinor s) ->
    evaluate i = Ok snapshot ->
    0 <= dr_orderDiscountMinor snapshot <= sumZ lineTotalMinor (ev_items i) /\
    0 <= dr_shippingDiscountMinor snapshot <= match ev_shipping i with Some s => sp_rateMinor s | None => 0 end }.

(** Finance answers a tax of zero or more on what it is asked about. *)
Class TaxNonNegative (port : TaxCalculationPort) : Prop := {
  calculate_nonneg items address rate currency d r :
    Forall item_ok items -> 0 <= rate -> calculate items address rate currency d = Ok r -> 0 <= tx_taxMinor r }.

(** The discounts and the tax of a session fit its lines and its shipping rate. *)
Record figures_ok (p : SessionProps) : Prop := {
  fg_order : 0 <= order_figure p <= sumZ lineTotalMinor (se_items p);
  fg_shipping : 0 <= shipping_figure p <= selected_rate p;
  fg_tax : 0 <= default 0 (se_taxMinor p) }.

(** No discount was ever stored on the session, or Promotions decides its discounts. *)
Definition not_legacy (p : SessionProps) : Prop := se_discountMinor p = None \/ hasDiscountState p = true.

Lemma refreshDiscounts_inv port s u s' : refreshDiscounts port s = (Ok u, s') ->
  exists snapshot, evaluate (evaluation_input (agg_props s)) = Ok snapshot /\
  ((hasDiscountState (agg_props s) = false /\ dr_applied snapshot = [] /\ s' = s) \/
   s' = mkAgg (agg_id s) (agg_version s) (agg_events s)
     (with_discountMinor (Some (dr_orderDiscountMinor snapshot)) (with_discountSnapshot (Some snapshot) (agg_props s)))).
Proof.
  unfold refreshDiscounts, applyDiscountSnapshot. intros H. minv. eexists. split; [eassumption|].
  destruct (hasDiscountState _) eqn:Hd; [rewrite orb_true_r in H|rewrite orb_false_r in H].
  - apply when_open_Ok in H as [_ ->]. by right.
  - case_bool_decide as Hl.
    + apply when_open_Ok in H as [_ ->]. by right.
    + injection H as _ <-. left. split; [done|]. split; [|done]. destruct (dr_applied v0); [done|]. cbn in Hl. lia.
Qed.

Lemma calculateAndStoreTax_inv port s r s' : calculateAndStoreTax port s = (Ok r, s') ->
  exists address, se_shippingAddress (agg_props s) = Some address /\
    calculate (se_items (agg_props s)) address (selected_rate (agg_props s)) (se_currency (agg_props s))
      (mkTaxDiscounts (Some (order_figure (agg_props s))) (Some (shipping_figure (agg_props s)))) = Ok r /\
    s' = mkAgg (agg_id s) (agg_version s) (agg_events s)
      (with_tax (Some (tx_taxMinor r)) (Some (tx_included r)) (agg_props s)).
Proof.
  unfold calculateAndStoreTax, applyTaxSnapshot. intros H. minv. destruct (se_shippingAddress _) eqn:Ha; minv.
  match goal with H : when_open _ _ = _ |- _ => apply when_open_Ok in H as [_ ->] end. eauto.
Qed.

(** Everything but the discounts, the tax and the totals. *)
Definition same_cart (p p' : SessionProps) : Prop :=
  se_items p' = se_items p /\ se_shippingSelection p' = se_shippingSelection p /\
  se_billingAddress p' = se_billingAddress p /\ se_shippingAddress p' = se_shippingAddress p /\
  se_currency p' = se_currency p /\ se_totals p' = se_totals p /\ se_orderRef p' = se_orderRef p /\
  se_state p' = se_state p.

Lemma selected_rate_nonneg s : session_ok s -> 0 <= selected_rate (agg_props s).
Proof.
  intros Hs. unfold selected_rate. destruct (se_shippingSelection (agg_props s)) eqn:H; [|lia].
  by apply (so_selection s Hs) in H as [_ ?].
Qed.

Lemma refreshDiscounts_figures port `{!DiscountsWithin port} s u s' :
  session_ok s -> not_legacy (agg_props s) -> 0 <= default 0 (se_taxMinor (agg_props s)) ->
  refreshDiscounts port s = (Ok u, s') -> figures_ok (agg_props s') /\ same_cart (agg_props s) (agg_props s').
Proof.
  intros Hs Hn Ht H. pose proof (selected_rate_nonneg s Hs) as Hrate.
  assert (Hsum : 0 <= sumZ lineTotalMinor (se_items (agg_props s))).
  { apply sumZ_nonneg. intros i Hi. pose proof (so_items s Hs) as Hf. rewrite Forall_forall in Hf.
    destruct (Hf i Hi) as (_ & ? & ?). unfold lineTotalMinor. nia. }
  apply refreshDiscounts_inv in H as (snap & He & [(Hd & Happ & ->)| -> ]).
  - split; [|done]. destruct Hn as [Hn|Hn]; [|congruence].
    assert (se_discountSnapshot (agg_props s) = None) as Hs0.
    { unfold hasDiscountState in Hd. apply orb_false_iff in Hd as [_ Hd%bool_decide_eq_false]. by apply eq_None_not_Some. }
    split; [unfold order_figure; rewrite Hn; cbn; lia|unfold shipping_figure; rewrite Hs0; lia|done].
  - apply evaluate_within in He as [Ho Hsh].
    + split; [|by destruct (agg_props s)]. destruct (agg_props s) as [? ? ? ? ? ? ? ? addr ? sel]; cbn in *.
      split; cbn; [done| |done]. unfold shipping_figure, selected_rate in *. cbn in *. destruct addr, sel; cbn in *; lia.
    + apply Hs.
    + cbn. intros x Hx. destruct (se_shippingAddress (agg_props s)), (se_shippingSelection (agg_props s)) eqn:Hsel; try done.
      injection Hx as <-. cbn. by apply (so_selection s Hs) in Hsel as [_ ?].
Qed.

Lemma calculateAndStoreTax_figures port `{!TaxNonNegative port} s r s' :
  session_ok s -> figures_ok (agg_props s) -> calculateAndStoreTax port s = (Ok r, s') ->
  figures_ok (agg_props s') /\ same_cart (agg_props s) (agg_props s').
Proof.
  intros Hs [H1 H2 H3] H. apply calculateAndStoreTax_inv in H as (address & _ & Hc & ->).
  apply calculate_nonneg in Hc; [|apply Hs|by apply selected_rate_nonneg].
  split; [|by destruct (agg_props s)]. destruct (agg_props s). by split.
Qed.

Lemma refreshDiscountsAndTax_figures port tax `{!DiscountsWithin port} (Htax : forall t, tax = Some t -> TaxNonNegative t) s b s' :
  session_ok s -> not_legacy (agg_props s) -> 0 <= default 0 (se_taxMinor (agg_props s)) ->
  refreshDiscountsAndTax port tax s = (Ok b, s') -> figures_ok (agg_props s') /\ same_cart (agg_props s) (agg_props s').
Proof.
  intros Hs Hn Ht H. unfold refreshDiscountsAndTax in H. minv.
  match goal with H : refreshDiscounts _ _ = _ |- _ => rename H into Hr end.
  destruct (sound_refreshDiscounts _ _ _ _ Hs Hr) as (Hs1 & _). apply refreshDiscounts_figures in Hr as [Hf Hc]; [|done..].
  destruct tax as [tp|]; [|minv; done]. destruct (_ && _) in H; [|minv; done]. minv.
  match goal with H : calculateAndStoreTax _ _ = _ |- _ => rename H into Hx end.
  pose proof (Htax tp eq_refl). apply calculateAndStoreTax_figures in Hx as [Hf' Hc']; [|done..].
  split; [done|]. unfold same_cart in *. naive_solver congruence.
Qed.

Lemma recalculateTotals_inv eid now s u s' : recalculateTotals eid now s = (Ok u, s') ->
  exists ev, s' = mkAgg (agg_id s) (agg_version s) (agg_events s ++ [ev])
    (with_totals (Some (totals_of (agg_props s))) (agg_props s)).
Proof. unfold recalculateTotals. intros H. session_inv. by eexists. Qed.

Lemma totals_of_exact p : figures_ok p ->
  let t := totals_of p in
  to_subtotalMinor t = sumZ lineTotalMinor (se_items p) /\ to_shippingMinor t = selected_rate p /\
  0 <= to_discountMinor t <= to_subtotalMinor t /\ 0 <= to_shippingDiscountMinor t <= to_shippingMinor t /\
  0 <= to_taxMinor t /\
  to_totalMinor t = (to_subtotalMinor t - to_discountMinor t) + (to_shippingMinor t - to_shippingDiscountMinor t) +
    (if to_taxIncluded t then 0 else to_taxMinor t).
Proof.
  intros [Ho Hs Ht] t. unfold t, totals_of, assemble, order_figure, shipping_figure, selected_rate in *.
  destruct (se_discountSnapshot p), (se_shippingSelection p), (default false (se_taxIncluded p)); cbn; lia.
Qed.

Lemma reloaded_totals p : se_totals (reloaded (with_totals (Some (totals_of p)) p)) = Some (totals_of p) /\
  same_cart (with_totals (Some (totals_of p)) p) (reloaded (with_totals (Some (totals_of p)) p)).
Proof.
  unfold reloaded. destruct p as [? ? ? ? ? ? items ? ? ? ? ? ? ? ? ? tot]. unfold same_cart. cbn. unfold totals_of. cbn.
  by rewrite assemble_reload.
Qed.

(** Working the discounts and the tax out again touches nothing else of the session, and raises no event. *)
Lemma refreshDiscountsAndTax_same port tax s b s' : refreshDiscountsAndTax port tax s = (Ok b, s') ->
  same_cart (agg_props s) (agg_props s') /\ agg_events s' = agg_events s.
Proof.
  intros H. unfold refreshDiscountsAndTax in H. minv.
  match goal with H : refreshDiscounts _ _ = _ |- _ => rename H into Hr end.
  assert (Hd : same_cart (agg_props s) (agg_props s1) /\ agg_events s1 = agg_events s).
  { apply refreshDiscounts_inv in Hr as (snap & _ & [(_ & _ & ->)| -> ]); [done|]. by destruct s as [? ? ? []]. }
  destruct tax as [tp|]; [|minv; done]. destruct (_ && _) in H; [|minv; done]. minv.
  match goal with H : calculateAndStoreTax _ _ = _ |- _ => apply calculateAndStoreTax_inv in H as (? & _ & _ & ->) end.
  destruct Hd as [Hd <-]. split; [|done]. by destruct s1 as [? ? ? []].
Qed.

Lemma recheckDiscounts_outcome fate deps eid now w s r w' :
  stored w s -> isOpen (se_state (agg_props s)) = true ->
  recheckDiscounts fate deps eid now s (elsewhere (ft_others fate) w) = (r, w') ->
  match r with
  | Ok s1 => w' = elsewhere (ft_others fate) w /\
      session_ok s1 /\ agg_id s1 = agg_id s /\ agg_version s1 = agg_version s /\ agg_events s1 = [] /\
      identity (agg_props s1) = identity (agg_props s) /\ same_cart (agg_props s) (agg_props s1)
  | Err e => w' = elsewhere (ft_others fate) w \/
      (e = DISCOUNTS_CHANGED /\ elsewhere (ft_others fate) w = w /\ cw_calls w' = cw_calls w /\
       exists s', stored w' s' /\ same_cart (with_totals (se_totals (agg_props s')) (agg_props s)) (agg_props s'))
  end.
Proof.
  intros Hst Hopen H. unfold recheckDiscounts in H. destruct (cd_promotionValidation deps) as [port|].
  2:{ injection H as <- <-. destruct Hst. by repeat (split; [done|]). }
  unfold mbind, M_bind, on in H. destruct (refreshDiscountsAndTax _ _ s) as [[b|e] s1] eqn:Hr.
  2:{ injection H as <- <-. by left. }
  destruct (refreshDiscountsAndTax_same _ _ _ _ _ Hr) as [Hc He].
  destruct (sound_refreshDiscountsAndTax _ _ _ _ _ (sd_ok _ _ Hst) Hr) as (Hs1 & Hid & Hv & Hi).
  cbn -[elsewhere saving] in H. destruct (_ || _) in H.
  2:{ injection H as <- <-. rewrite He, (sd_events _ _ Hst). by repeat (split; [done|]). }
  destruct (recalculateTotals eid now s1) as [[[]|e] s2] eqn:Hrec; [|injection H as <- <-; by left].
  assert (Hso : sound (recalculateTotals eid now)) by auto with sound.
  destruct (Hso _ _ _ Hs1 Hrec) as (Hs2 & Hid2 & Hv2 & Hi2).
  cbn -[elsewhere saving] in H. destruct (saving fate s2 _) as [r2 w2] eqn:Hsave.
  apply (saving_outcome fate w _ s) in Hsave as [(e & -> & -> & _)|(-> & Hno & row & -> & Hst')]; try done; try congruence.
  { injection H as <- <-. by left. }
  injection H as <- <-. right. split; [done|]. split; [done|]. split; [by rewrite Hno|].
  eexists. split; [exact Hst'|]. apply recalculateTotals_inv in Hrec as [ev ->].
  destruct (reloaded_totals (agg_props s1)) as [Ht2 Hc2]. unfold same_cart in *. cbn [reconstitute new_agg_at agg_props].
  rewrite Ht2. destruct (agg_props s), (agg_props s1). cbn in *. naive_solver congruence.
Qed.

(** ** Properties *)

(** C32: recalculated totals are exact, end to end. Under four conditions: the promotion port never
    discounts more than the lines and the shipping rate it is asked about ([DiscountsWithin], which
    CheckoutPorts.v proves of the adapter), the tax port answers no negative tax ([TaxNonNegative], proved
    there too), the tax already stored is not negative, and no discount of the old kind is on the session
    ([not_legacy]: nothing [ValidatePromotion] stored, or Promotions decides the discounts). Then
    recalculating the totals of a stored session stores totals that read back as: the subtotal of its
    lines, the selected shipping price, a discount between zero and the subtotal, a shipping discount
    between zero and the shipping price, and a total that is what is left of both plus the tax when prices
    do not include it; no clamp to zero is needed. With an old discount kept while the lines got cheaper
    the discount can exceed them, and the total is clamped. *)
Theorem recalculated_total_is_exact port tax `{!DiscountsWithin port} eid now w s id w' :
  (forall t, tax = Some t -> TaxNonNegative t) ->
  stored w s -> not_legacy (agg_props s) -> 0 <= default 0 (se_taxMinor (agg_props s)) ->
  RecalculateTotals (Some port) tax eid now w = (Ok id, w') ->
  exists s' t, stored w' s' /\ same_cart (with_totals (Some t) (agg_props s)) (agg_props s') /\
    to_subtotalMinor t = sumZ lineTotalMinor (se_items (agg_props s)) /\
    to_shippingMinor t = selected_rate (agg_props s) /\
    0 <= to_discountMinor t <= to_subtotalMinor t /\
    0 <= to_shippingDiscountMinor t <= to_shippingMinor t /\ 0 <= to_taxMinor t /\
    to_totalMinor t = (to_subtotalMinor t - to_discountMinor t) + (to_shippingMinor t - to_shippingDiscountMinor t) +
      (if to_taxIncluded t then 0 else to_taxMinor t).
Proof.
  intros Htax Hst Hn Ht H. unfold RecalculateTotals in H.
  assert (Hm : sound ((refreshDiscountsAndTax port tax;; mret tt);; recalculateTotals eid now)) by solve_sound.
  destruct (withSession_stored w s _ Hst Hm) as [(e & s1 & _ & He)|(s1 & row & Hrun & Hw & Hst')]; [congruence|].
  rewrite H in Hw. injection Hw as _ ->. minv.
  match goal with H : recalculateTotals _ _ _ = _ |- _ => apply recalculateTotals_inv in H as [ev ->] end.
  match goal with H : refreshDiscountsAndTax _ _ _ = _ |- _ =>
    apply (refreshDiscountsAndTax_figures port tax Htax) in H as [Hf Hc]; [|apply Hst|done|done] end.
  cbn [agg_props] in Hst'. destruct (reloaded_totals (agg_props s2)) as [Ht2 Hc2].
  eexists _, (totals_of (agg_props s2)). split; [exact Hst'|].
  destruct (totals_of_exact _ Hf) as (Hsub & Hsh & Hrest). destruct Hc as (E1 & E2 & Hc).
  split; [|split; [congruence|split; [|exact Hrest]]].
  - unfold same_cart in *. cbn [reconstitute new_agg_at agg_props]. destruct (agg_props s), (agg_props s2); cbn in *. naive_solver congruence.
  - rewrite Hsh. unfold selected_rate. by rewrite E2.
Qed.

(** The calls a completion makes after the order was placed. *)
Definition reserve_calls (deps : CompleteCheckoutDeps) (orderRef : string) (items : list CheckoutItem) : list PortCall :=
  match cd_stockReservation deps with Some _ => [ReserveStock orderRef items] | None => [] end.
Definition undo_calls (deps : CompleteCheckoutDeps) (orderRef : string) : list PortCall :=
  ReleaseStock orderRef :: if cd_orderCancellation deps then [CancelOrder orderRef] else [].
Definition usage_calls (deps : CompleteCheckoutDeps) (orderRef : string) (draft : OrderDraft) : list PortCall :=
  let used := filter (fun d => 0 < ap_amountMinor d) (dt_discounts draft) in
  if cd_discountUsage deps && bool_decide (0 < length used)%nat
  then [RecordUsage orderRef (dt_customerRef draft) (dt_contactEmail draft) used] else [].

Lemma call_run c w : call c w = (Ok tt, mkWorld (cw_row w) (cw_outbox w) (cw_calls w ++ [c])).
Proof. done. Qed.

Lemma reserveStock_outcome deps o items w r w' : reserveStock deps o items w = (r, w') ->
  cw_row w' = cw_row w /\ cw_outbox w' = cw_outbox w /\
  match r with
  | Ok _ => cw_calls w' = cw_calls w ++ reserve_calls deps o items
  | Err _ => cw_calls w' = cw_calls w ++ ReserveStock o items :: undo_calls deps o /\
      exists reserve reason, cd_stockReservation deps = Some reserve /\ reserve o items = inr reason
  end.
Proof.
  unfold reserveStock, reserve_calls, undo_calls, undoOrder, mbind, M_bind, mret, M_ret, throw.
  destruct (cd_stockReservation deps) as [f|]; cbn.
  - destruct (f o items) eqn:Hf; cbn; [by intros [= <- <-]|].
    destruct (cd_orderCancellation deps); cbn; intros [= <- <-]; cbn; rewrite <- ?app_assoc; by eauto 10.
  - intros [= <- <-]. by rewrite app_nil_r.
Qed.

Lemma recordUsage_run deps o draft w :
  recordUsage deps o draft w = (Ok tt, mkWorld (cw_row w) (cw_outbox w) (cw_calls w ++ usage_calls deps o draft)).
Proof.
  unfold recordUsage, usage_calls. destruct (_ && _); [apply call_run|]. rewrite app_nil_r. by destruct w.
Qed.

Lemma generateOrderDraft_inv p d : generateOrderDraft p = Ok d ->
  se_items p <> [] /\ dt_items d = se_items p /\ se_totals p = Some (dt_totals d) /\
  se_billingAddress p = Some (dt_billingAddress d) /\ se_shippingAddress p = Some (dt_shippingAddress d) /\
  dt_shippingMethod d = ss_method <$> se_shippingSelection p.
Proof.
  unfold generateOrderDraft. case_bool_decide as Hl; [done|].
  destruct (se_billingAddress p), (se_shippingAddress p), (se_totals p); try done. intros [= <-]. cbn.
  split; [|done]. by intros He; rewrite He in Hl.
Qed.

(** What a completion does once the draft of the order is settled. *)
Definition placeOrder (fate : Fate) (deps : CompleteCheckoutDeps) (idempotencyKey eid : string) (now : Z) 
    (s : CheckoutSession) (draft : OrderDraft) : FlowM CompleteCheckoutOutput :=
  lift (validateStock deps (se_items (agg_props s)));;
  call (CreateOrder (agg_id s) (se_currency (agg_props s)) idempotencyKey draft);;
  orderRef ← lift (cd_orderCreation deps draft);
  reserveStock deps orderRef (se_items (agg_props s));;
  r ← on s (complete orderRef eid now);
  saving fate r.2;;
  recordUsage deps orderRef draft;;
  mret (mkCompleted (agg_id s) (se_state (agg_props r.2)) orderRef).

(** What is left of the world when an order was not kept: nothing stored, and the calls made. *)
Definition untouched (w w' : CheckoutWorld) (calls : list PortCall) : Prop :=
  cw_row w' = cw_row w /\ cw_outbox w' = cw_outbox w /\ cw_calls w' = cw_calls w ++ calls.

Lemma placeOrder_outcome fate deps key eid now w s0 s draft r w' :
  stored w s0 -> session_ok s -> agg_id s = agg_id s0 -> agg_version s = agg_version s0 ->
  identity (agg_props s) = identity (agg_props s0) -> isOpen (se_state (agg_props s)) = true ->
  let w1 := elsewhere (ft_others fate) w in
  placeOrder fate deps key eid now s draft w1 = (r, w') ->
  let created := CreateOrder (agg_id s) (se_currency (agg_props s)) key draft in
  match r with
  | Ok out => cd_orderCreation deps draft = Ok (cc_orderRef out) /\ w1 = w /\
      cw_calls w' = cw_calls w ++ created :: reserve_calls deps (cc_orderRef out) (se_items (agg_props s)) ++
        usage_calls deps (cc_orderRef out) draft /\
      exists s', stored w' s' /\ agg_props s' = reloaded (with_orderRef (Some (cc_orderRef out)) (with_state cs_completed (agg_props s)))
  | Err e => (validateStock deps (se_items (agg_props s)) = Err e /\ untouched w1 w' []) \/
      (cd_orderCreation deps draft = Err e /\ untouched w1 w' [created]) \/
      exists o, cd_orderCreation deps draft = Ok o /\
        (((exists reserve reason, cd_stockReservation deps = Some reserve /\ reserve o (se_items (agg_props s)) = inr reason) /\
          untouched w1 w' (created :: ReserveStock o (se_items (agg_props s)) :: undo_calls deps o)) \/
         (save_failed fate w s0 e /\ untouched w1 w' (created :: reserve_calls deps o (se_items (agg_props s)))))
  end.
Proof.
  intros Hst Hs Hid Hv Hi Hopen w1 H created. unfold placeOrder, mbind, M_bind, lift in H.
  destruct (validateStock _ _); [|injection H as <- <-; left; split; [done|]; split; [done|]; split; [done|by rewrite app_nil_r]].
  rewrite call_run in H. fold created in H. set (w1' := mkWorld _ _ _) in H.
  destruct (cd_orderCreation deps draft) as [o|e] eqn:Ho; [|injection H as <- <-; by right; left].
  destruct (reserveStock deps o _ w1') as [[[]|e] w2] eqn:Hres; apply reserveStock_outcome in Hres as (Hrow & Hout & Hcalls).
  2:{ destruct Hcalls as [Hcalls Hrefused]. injection H as <- <-. right; right. exists o. split; [done|]. left. split; [done|].
      split; [done|]. split; [done|]. rewrite Hcalls. cbn. by rewrite <- app_assoc. }
  assert (Hso : sound (complete o eid now)) by auto with sound.
  unfold on in H. destruct (complete o eid now s) as [[[]|e] s2] eqn:Hcomp.
  2:{ exfalso. unfold complete, mbind, M_bind in Hcomp.
      assert (Hop : ensureOpen s = (Ok tt, s)) by by apply ensureOpen_Ok. by rewrite Hop in Hcomp. }
  destruct (Hso _ _ _ Hs Hcomp) as (Hs2 & Hid2 & Hv2 & Hi2).
  cbn -[saving] in H. destruct (saving fate s2 w2) as [r2 w3] eqn:Hsave.
  apply (saving_outcome fate w w2 s0) in Hsave as [(e & -> & -> & Hfail)|(-> & Hno & row & -> & Hst')]; try done; try congruence.
  { injection H as <- <-. right; right. exists o. split; [done|]. right. split; [done|]. split; [done|]. split; [done|].
    rewrite Hcalls. cbn. by rewrite <- app_assoc. }
  rewrite recordUsage_run in H. injection H as <- <-. cbn [cc_orderRef cw_calls cw_row cw_outbox].
  unfold complete in Hcomp. session_inv. split; [done|]. split; [done|]. split.
  - rewrite Hcalls. subst w1' w1. cbn [cw_calls]. rewrite Hno. by rewrite <- !app_assoc.
  - destruct Hst' as [Hl L1 L2 L3]. apply load_inv in Hl as (_ & row' & Hr & Hd).
    eexists. split; [split; [eapply load_row; [exact Hr|exact Hd]|exact L1|exact L2|exact L3]|reflexivity].
Qed.

(** What the transaction of a completion does with an open session that has no order, before it
    commits. *)
Lemma completeLoaded_outcome fate deps key eid now w s r w' :
  stored w s -> se_orderRef (agg_props s) = None ->
  let p := agg_props s in let w1 := elsewhere (ft_others fate) w in
  completeLoaded fate deps key eid now s w1 = (r, w') ->
  let created draft := CreateOrder (agg_id s) (se_currency p) key draft in
  match r with
  | Ok out => w1 = w /\ isOpen (se_state p) = true /\ exists draft s',
      cd_orderCreation deps draft = Ok (cc_orderRef out) /\
      dt_items draft = se_items p /\ Some (dt_totals draft) = se_totals p /\
      Some (dt_billingAddress draft) = se_billingAddress p /\ Some (dt_shippingAddress draft) = se_shippingAddress p /\
      cw_calls w' = cw_calls w ++ created draft :: reserve_calls deps (cc_orderRef out) (se_items p) ++
        usage_calls deps (cc_orderRef out) draft /\
      stored w' s' /\ se_state (agg_props s') = cs_completed /\ se_orderRef (agg_props s') = Some (cc_orderRef out)
  | Err e => untouched w1 w' [] \/
      (e = DISCOUNTS_CHANGED /\ w1 = w /\ cw_calls w' = cw_calls w /\ exists s', stored w' s' /\
         same_cart (with_totals (se_totals (agg_props s')) p) (agg_props s')) \/
      exists draft, dt_items draft = se_items p /\ Some (dt_totals draft) = se_totals p /\
        ((cd_orderCreation deps draft = Err e /\ untouched w1 w' [created draft]) \/
         exists o, cd_orderCreation deps draft = Ok o /\
           (untouched w1 w' (created draft :: ReserveStock o (se_items p) :: undo_calls deps o) \/
            (save_failed fate w s e /\ untouched w1 w' (created draft :: reserve_calls deps o (se_items p)))))
  end.
Proof.
  intros Hst Ho p w1 H created. unfold completeLoaded in H. rewrite Ho in H.
  assert (Hnone : untouched w1 w1 []) by (split; [done|]; split; [done|by rewrite app_nil_r]).
  cbv zeta in H. unfold mbind at 1, M_bind at 1, throw_if at 1 in H. fold p in H.
  destruct (isOpen (se_state p)) eqn:Hopen; cbn [negb] in H; [|injection H as <- <-; by left].
  unfold mbind at 1, M_bind at 1 in H. destruct (recheckDiscounts fate deps eid now s w1) as [r1 w1'] eqn:Hre.
  apply recheckDiscounts_outcome in Hre; [|done|done]. destruct r1 as [s1|e].
  2:{ injection H as <- <-. destruct Hre as [->|?]; [by left|by right; left]. }
  destruct Hre as (-> & Hs1 & Hid & Hv & _ & Hi & Hc). unfold mbind at 1, M_bind at 1, lift at 1 in H.
  destruct (generateOrderDraft (agg_props s1)) as [draft|e] eqn:Hd; [|injection H as <- <-; by left].
  apply generateOrderDraft_inv in Hd as (_ & Hitems & Htot & Hb & Hsh & _).
  destruct Hc as (E1 & _ & E3 & E4 & E5 & E6 & _ & E8).
  assert (Hopen1 : isOpen (se_state (agg_props s1)) = true) by by rewrite E8.
  pose proof (placeOrder_outcome fate deps key eid now w s s1 draft r w' Hst Hs1 Hid Hv Hi Hopen1 H) as Hout.
  cbn zeta in Hout. rewrite Hid, E1, E5 in Hout. fold p in Hout. fold (created draft) in Hout. fold w1 in Hout.
  fold p in E1, E3, E4, E6. destruct r as [out|e].
  - destruct Hout as (Hcr & Hw & Hcalls & s' & Hst' & Hp'). split; [done|]. split; [done|]. exists draft, s'.
    split_and!; try done; try congruence; rewrite Hp'; by destruct (agg_props s1).
  - destruct Hout as [[_ ?]|Hout]; [by left|]. right; right. exists draft. split; [congruence|]. split; [congruence|].
    destruct Hout as [?|(o & ? & [[_ ?]|?])]; [by left|by eauto 6|by eauto 6].
Qed.


(** The other contexts accept: stock is there, the order is created as [o] and its stock is reserved. *)
Record willing (deps : CompleteCheckoutDeps) (o : string) (items : list CheckoutItem) : Prop := {
  wl_stock : validateStock deps items = Ok tt;
  wl_order : forall draft, cd_orderCreation deps draft = Ok o;
  wl_reserve : forall reserve, cd_stockReservation deps = Some reserve -> reserve o items = inl tt }.

(** No discount applies and none ever did. *)
Definition no_discounts (deps : CompleteCheckoutDeps) (p : SessionProps) : Prop :=
  forall port, cd_promotionValidation deps = Some port ->
    hasDiscountState p = false /\ exists snapshot, evaluate (evaluation_input p) = Ok snapshot /\ dr_applied snapshot = [].

Lemma recheckDiscounts_quiet fate deps eid now s w :
  no_discounts deps (agg_props s) -> recheckDiscounts fate deps eid now s w = (Ok s, w).
Proof.
  intros Hq. unfold recheckDiscounts. destruct (cd_promotionValidation deps) as [port|] eqn:Hp; [|done].
  destruct (Hq port Hp) as (Hd & snap & He & Ha).
  assert (Hr : refreshDiscountsAndTax port (cd_taxCalculation deps) s = (Ok false, s)).
  { assert (Hr : refreshDiscounts port s = (Ok tt, s)).
    { unfold refreshDiscounts, mbind, M_bind, gets, lift. by rewrite He, Hd, Ha. }
    unfold refreshDiscountsAndTax, mbind, M_bind, gets. rewrite Hr. cbn.
    rewrite !bool_decide_true by done. by destruct (cd_taxCalculation deps). }
  unfold mbind, M_bind, on. rewrite Hr. cbn. by rewrite bool_decide_true.
Qed.

(** Then a completion goes on from the draft of the session as it is stored. *)
Lemma CompleteCheckout_quiet fate deps key eid now w s draft :
  stored w s -> isOpen (se_state (agg_props s)) = true -> blank key = false -> no_discounts deps (agg_props s) ->
  generateOrderDraft (agg_props s) = Ok draft ->
  CompleteCheckout fate deps key eid now w =
    committing fate (placeOrder fate deps key eid now s draft) (elsewhere (ft_others fate) w).
Proof.
  intros Hst Hopen Hkey Hq Hdraft. unfold CompleteCheckout.
  assert (Hg : Guard.againstEmpty key "idempotencyKey" = Ok key) by (unfold Guard.againstEmpty; by rewrite Hkey).
  unfold mbind at 1, M_bind at 1. rewrite Hg. unfold lift at 1, mbind at 1, M_bind at 1. rewrite (sd_load _ _ Hst).
  unfold mbind, M_bind, modify, committing. unfold completeLoaded. rewrite (isOpen_order s (sd_ok _ _ Hst) Hopen). cbv zeta.
  unfold mbind at 1, M_bind at 1, throw_if at 1. rewrite Hopen. cbn [negb].
  unfold mbind at 1, M_bind at 1. rewrite (recheckDiscounts_quiet fate deps eid now s _ Hq).
  unfold mbind at 1, M_bind at 1. rewrite Hdraft. done.
Qed.

Lemma placeOrder_willing deps key eid now w s draft o :
  stored w s -> isOpen (se_state (agg_props s)) = true -> willing deps o (se_items (agg_props s)) ->
  exists out w', placeOrder alone deps key eid now s draft w = (Ok out, w') /\ cc_orderRef out = o /\
    cw_calls w' = cw_calls w ++ CreateOrder (agg_id s) (se_currency (agg_props s)) key draft ::
      reserve_calls deps o (se_items (agg_props s)) ++ usage_calls deps o draft.
Proof.
  intros Hst Hopen [Hv Ho Hr]. destruct (placeOrder alone deps key eid now s draft w) as [r w'] eqn:H.
  pose proof (placeOrder_outcome alone deps key eid now w s s draft r w' Hst (sd_ok _ _ Hst) eq_refl eq_refl eq_refl Hopen H) as Hout.
  specialize (Ho draft). destruct r as [out|e]; [|exfalso].
  - destruct Hout as (Hcr & _ & Hcalls & _). exists out, w'. assert (cc_orderRef out = o) as E by congruence.
    rewrite E in Hcalls. done.
  - destruct Hout as [[? _]|[[He _]|(o' & He & [[(f & reason & Hf & Hx) _]|[[Hx|[Hx _]] _]])]].
    + congruence.
    + congruence.
    + assert (o' = o) as -> by congruence. specialize (Hr f Hf). congruence.
    + done.
    + by apply Hx.
Qed.

(** A completion whose save fails leaves its order behind. *)
Lemma placeOrder_unsaved deps e key eid now w s draft o :
  stored w s -> isOpen (se_state (agg_props s)) = true -> willing deps o (se_items (agg_props s)) ->
  exists w', placeOrder (mkFate [] (Some e) None) deps key eid now s draft w = (Err e, w') /\ stored w' s /\
    cw_calls w' = cw_calls w ++ CreateOrder (agg_id s) (se_currency (agg_props s)) key draft ::
      reserve_calls deps o (se_items (agg_props s)).
Proof.
  intros Hst Hopen [Hv Ho Hr]. specialize (Ho draft).
  assert (Hc : exists s', complete o eid now s = (Ok tt, s')).
  { unfold complete, mbind, M_bind. assert (ensureOpen s = (Ok tt, s)) as -> by by apply ensureOpen_Ok. by eexists. }
  destruct Hc as [s' Hc].
  unfold placeOrder, mbind, M_bind, lift, on. rewrite Hv, call_run, Ho. set (w1 := mkWorld _ _ _).
  destruct (reserveStock deps o _ w1) as [[[]|x] w2] eqn:Hres; apply reserveStock_outcome in Hres as (Hrow & Hout & Hcalls).
  2:{ destruct Hcalls as (_ & f & reason & Hf & Hx). specialize (Hr f Hf). congruence. }
  rewrite Hc. cbn. exists w2. split; [done|]. split.
  - destruct Hst as [Hl ? ? ?]. split; try done. apply load_inv in Hl as (_ & row & Hrw & Hd).
    eapply load_row; [|done]. by rewrite Hrow.
  - rewrite Hcalls. cbn. by rewrite <- app_assoc.
Qed.

(** Retrying a completion whose save failed, even with the same idempotency key, places a second order
    for the session: the first one stands with its stock reserved and is recorded nowhere on the session. *)
Theorem retried_completion_places_two_orders deps deps' e key key' eid eid' now now' w s draft o o' :
  stored w s -> isOpen (se_state (agg_props s)) = true -> generateOrderDraft (agg_props s) = Ok draft ->
  blank key = false -> blank key' = false ->
  no_discounts deps (agg_props s) -> no_discounts deps' (agg_props s) ->
  willing deps o (se_items (agg_props s)) -> willing deps' o' (se_items (agg_props s)) ->
  let created key := CreateOrder (agg_id s) (se_currency (agg_props s)) key draft in
  let items := se_items (agg_props s) in
  exists w1 w2 out,
    CompleteCheckout (mkFate [] (Some e) None) deps key eid now w = (Err e, w1) /\
    CompleteCheckout alone deps' key' eid' now' w1 = (Ok out, w2) /\ cc_orderRef out = o' /\
    cw_calls w2 = cw_calls w ++ (created key :: reserve_calls deps o items) ++
      created key' :: reserve_calls deps' o' items ++ usage_calls deps' o' draft.
Proof.
  intros Hst Hopen Hd Hk Hk' Hq Hq' Hw Hw' created items.
  destruct (placeOrder_unsaved deps e key eid now w s draft o Hst Hopen Hw) as (w1 & H1 & Hst1 & Hc1).
  destruct (placeOrder_willing deps' key' eid' now' w1 s draft o' Hst1 Hopen Hw') as (out & w2 & H2 & Ho & Hc2).
  exists w1, w2, out. rewrite (CompleteCheckout_quiet _ deps _ _ _ w s draft Hst Hopen Hk Hq Hd).
  rewrite (CompleteCheckout_quiet _ deps' _ _ _ w1 s draft Hst1 Hopen Hk' Hq' Hd).
  unfold committing. cbn [ft_others ft_commit alone elsewhere foldl]. rewrite H1, H2.
  split; [done|]. split; [done|]. split; [done|]. by rewrite Hc2, Hc1, <- !app_assoc.
Qed.

Lemma stored_totals w s t : stored w s -> se_totals (agg_props s) = Some t ->
  totals_of_json (se_items (agg_props s)) (totals_to_json t) = t.
Proof.
  intros [Hl _ _ _] Ht. apply load_inv in Hl as (_ & row & _ & Hd). unfold toDomain in Hd. minv.
  destruct (rw_totals row); [|done]. cbn in Ht. injection Ht as <-. exact (assemble_reload _ _ _ _ _ _ _ _).
Qed.

Lemma SelectShipping_stored quote method i q price address w s :
  stored w s -> isOpen (se_state (agg_props s)) = true -> se_shippingAddress (agg_props s) = Some address ->
  list_find (fun q => qt_method q = method) (quote address (se_items (agg_props s)) (se_currency (agg_props s))) = Some (i, q) ->
  blank method = false -> qt_rateAmountMinor q = NInt price -> 0 <= price ->
  let x := mkShippingSelection method price (se_currency (agg_props s)) (Some (qt_name q)) (qt_description q) in
  exists w', SelectShipping quote method w = (Ok (agg_id s), w') /\ cw_calls w' = cw_calls w /\
    stored w' (reconstitute (agg_id s) (reloaded (with_shippingSelection (Some x) (agg_props s))) (agg_version s + 1)).
Proof.
  intros Hst Hopen Ha Hf Hm Hq Hp x. assert (Hmethod : qt_method q = method) by (apply list_find_Some in Hf; tauto).
  assert (Hx : ShippingSelection_create method (NInt price) (se_currency (agg_props s)) (Some (qt_name q)) (qt_description q) = Ok x).
  { unfold ShippingSelection_create. rewrite Hm. by rewrite (proj2 (integer_from_Some 0 (NInt price) price)). }
  assert (Hsel : selectShipping x s =
    (Ok tt, mkAgg (agg_id s) (agg_version s) (agg_events s) (with_shippingSelection (Some x) (agg_props s)))).
  { unfold selectShipping. by apply when_open_Ok. }
  assert (Hop : session_exec (op_selectShipping method (NInt price) (Some (qt_name q)) (qt_description q)) s =
    (Ok tt, mkAgg (agg_id s) (agg_version s) (agg_events s) (with_shippingSelection (Some x) (agg_props s)))).
  { cbn. unfold mbind, M_bind, gets, lift. by rewrite Hx. }
  destruct (sound_op _ _ _ _ (sd_ok _ _ Hst) Hop) as (Hs2 & Hid2 & Hv2 & Hi2).
  destruct (save_stored w s _ Hst Hs2 Hid2 Hv2 Hi2) as (row & Hsave & Hst').
  eexists. split; [|split; [|exact Hst']]; [|done].
  unfold SelectShipping, mbind, M_bind, lift. rewrite (sd_load _ _ Hst), Ha, Hf, Hmethod, Hq, Hx.
  unfold on. rewrite Hsel. cbn -[save reloaded]. by rewrite Hsave.
Qed.

(** A shipping method can be changed without its price being charged. Take an open session with its
    addresses and totals, and another method the shop quotes at any price. Selecting it and completing,
    without recalculating in between, succeeds when the other contexts accept and no discount is
    involved, and places an order for the newly selected method at the shipping price, and for the
    total, of the one selected before. *)
Theorem complete_charges_stale_shipping deps key eid now quote method q i price o w s t address billing :
  stored w s -> isOpen (se_state (agg_props s)) = true -> se_items (agg_props s) <> [] ->
  se_billingAddress (agg_props s) = Some billing -> se_shippingAddress (agg_props s) = Some address ->
  se_totals (agg_props s) = Some t ->
  list_find (fun q => qt_method q = method) (quote address (se_items (agg_props s)) (se_currency (agg_props s))) = Some (i, q) ->
  blank method = false -> qt_rateAmountMinor q = NInt price -> 0 <= price -> blank key = false ->
  willing deps o (se_items (agg_props s)) ->
  (forall selection, no_discounts deps (with_shippingSelection (Some selection) (agg_props s))) ->
  exists out w' draft, (SelectShipping quote method;; CompleteCheckout alone deps key eid now) w = (Ok out, w') /\
    cc_orderRef out = o /\ CreateOrder (agg_id s) (se_currency (agg_props s)) key draft ∈ cw_calls w' /\
    dt_shippingMethod draft = Some method /\ dt_totals draft = t.
Proof.
  intros Hst Hopen Hne Hb Ha Ht Hf Hm Hq Hp Hkey Hw Hquiet.
  destruct (SelectShipping_stored quote method i q price address w s Hst Hopen Ha Hf Hm Hq Hp) as (w1 & Hsel & Hc1 & Hst1).
  set (x := mkShippingSelection _ _ _ _ _) in Hst1. set (s1 := reconstitute _ _ _) in Hst1.
  pose proof (stored_totals w s t Hst Ht) as Hfix.
  assert (Hp1 : agg_props s1 = reloaded (with_shippingSelection (Some x) (agg_props s))) by done.
  assert (Ht1 : se_totals (agg_props s1) = Some t).
  { rewrite Hp1. unfold reloaded. destruct (agg_props s). cbn in *. rewrite Ht. cbn. by rewrite Hfix. }
  assert (Hsame : se_items (agg_props s1) = se_items (agg_props s) /\ se_currency (agg_props s1) = se_currency (agg_props s) /\
    se_state (agg_props s1) = se_state (agg_props s) /\ se_billingAddress (agg_props s1) = Some billing /\
    se_shippingAddress (agg_props s1) = Some address /\ se_shippingSelection (agg_props s1) = Some x).
  { rewrite Hp1. destruct (agg_props s). cbn in *. done. }
  destruct Hsame as (Ei & Ec & Es & Eb & Ea & Ex).
  assert (Hq1 : no_discounts deps (agg_props s1)).
  { rewrite Hp1. intros port Hport. destruct (Hquiet x port Hport) as (Hd & Hsnap). by destruct (agg_props s). }
  assert (Hdraft : exists draft, generateOrderDraft (agg_props s1) = Ok draft /\ dt_shippingMethod draft = Some method /\ dt_totals draft = t).
  { unfold generateOrderDraft. rewrite Ei, Eb, Ea, Ht1, Ex. rewrite bool_decide_false; [by eexists|].
    by destruct (se_items (agg_props s)). }
  destruct Hdraft as (draft & Hdraft & Hmeth & Htot).
  assert (Hopen1 : isOpen (se_state (agg_props s1)) = true) by by rewrite Es.
  assert (Hw1 : willing deps o (se_items (agg_props s1))) by by rewrite Ei.
  destruct (placeOrder_willing deps key eid now w1 s1 draft o Hst1 Hopen1 Hw1) as (out & w' & Hplace & Hout & Hin).
  exists out, w', draft. split; [|split; [done|split; [|done]]].
  - unfold mbind, M_bind. rewrite Hsel. rewrite (CompleteCheckout_quiet alone deps key eid now w1 s1 draft Hst1 Hopen1 Hkey Hq1 Hdraft).
    unfold committing. cbn [ft_others ft_commit alone elsewhere foldl]. by rewrite Hplace.
  - rewrite Ec in Hin. rewrite Hin. set_solver.
Qed.
