(* ===== verification/CheckoutPorts.v ===== *)
(** The implementations of Checkout's ports over Promotions and Finance
    ([apps/admin/src/infrastructure/cross-context]): the discount decision and the tax a checkout gets.
    Each discharges the law Checkout relies on, so the totals of [CheckoutFlow.v] are exact end to end.
    What Catalog, Coupons and Promotions hold is a parameter: the answers of their controllers. *)
From S2P Require Import Prelude Kernel Promotions Discounts Tax Checkout CheckoutFlow.

#[global] Open Scope Z_scope.

(** ** Discounts ([promotion-validation.adapter.ts]) *)

Section promotions.
(** Catalog's categories of a product (none when it cannot be resolved), the coupon and the promotion a code
    resolves to, the active automatic promotions, the clock, and the older [validate] over a cart. *)
Context (categoriesOf : string -> list string) (couponFor : string -> option (CouponState * Promotion))
  (automatic : list Promotion) (now : Z)
  (validate_cart : list CheckoutItem -> option string -> option string -> string -> PromotionValidationResult).

Definition discount_lines (items : list CheckoutItem) : list DiscountLine :=
  imap (fun index item => mkLine (show_nat index) (it_productRef item) (categoriesOf (it_productRef item))
    (it_quantity item) (it_unitPriceAmountMinor item)) items.

Definition candidates_for (codes : list string) : list DiscountCandidate :=
  omap (fun code => (fun cp => mkCandidate cp.2 (Some cp.1)) <$> couponFor code)
    (take MAX_DISCOUNT_CODES (unique (normalizeDiscountCode <$> codes))) ++
  ((fun p => mkCandidate p None) <$> automatic).

Definition adapter_input (i : DiscountEvaluationInput) : CalculateDiscountsInput :=
  mkDiscountsInput (discount_lines (ev_items i)) (ev_shipping i) (mkCustomer (ev_customerRef i) (ev_email i))
    (ev_codes i) (candidates_for (ev_codes i)) now.

#[local] Instance PromotionValidationAdapter : PromotionValidationPort := {
  evaluate i := Ok (calculateDiscounts (adapter_input i));
  validate := validate_cart }.

(** Coupons finds the coupon that has the code; Promotions keeps only valid rewards. *)
Hypothesis coupon_has_code : forall code c p, couponFor code = Some (c, p) -> normalizeDiscountCode (cp_code c) = code.
Hypothesis coupon_rewards : forall code c p, couponFor code = Some (c, p) -> rewardIssues (rl_reward (pr_rule (agg_props p))) = [].
Hypothesis automatic_rewards : forall p, p ∈ automatic -> rewardIssues (rl_reward (pr_rule (agg_props p))) = [].

Lemma discount_lines_total items : sumZ lineTotal (discount_lines items) = sumZ lineTotalMinor items.
Proof. unfold discount_lines. by rewrite (sumZ_imap lineTotal _ lineTotalMinor) by done. Qed.

Lemma discount_lines_refs items : ln_lineRef <$> discount_lines items = show_nat <$> seq 0 (length items).
Proof.
  apply list_eq. intros i. unfold discount_lines. rewrite !list_lookup_fmap, list_lookup_imap.
  destruct (items !! i) eqn:Hi; cbn.
  - rewrite lookup_seq_lt; [done|]. by eapply lookup_lt_Some.
  - rewrite lookup_seq_ge; [done|]. by apply lookup_ge_None.
Qed.

Lemma candidate_codes codes :
  omap code_of (candidates_for codes) =
    omap (fun code => if bool_decide (is_Some (couponFor code)) then Some code else None)
      (take MAX_DISCOUNT_CODES (unique (normalizeDiscountCode <$> codes))).
Proof.
  unfold candidates_for. rewrite omap_app. assert (omap code_of ((fun p => mkCandidate p None) <$> automatic) = []) as ->.
  { clear. by induction automatic. }
  rewrite app_nil_r. induction (take _ _) as [|code l IH]; cbn; [done|].
  destruct (couponFor code) as [[c p]|] eqn:Hc; cbn; [|exact IH].
  unfold code_of. cbn. rewrite (coupon_has_code _ _ _ Hc). by f_equal.
Qed.

Lemma sublist_omap_some (b : string -> bool) l : sublist (omap (fun c => if b c then Some c else None) l) l.
Proof. induction l as [|c l IH]; cbn; [constructor|]. destruct (b c); by constructor. Qed.

Lemma adapter_wf i : Forall item_ok (ev_items i) -> (forall s, ev_shipping i = Some s -> 0 <= sp_rateMinor s) ->
  wf_input (adapter_input i).
Proof.
  intros Hitems Hrate. split; cbn.
  - rewrite discount_lines_refs. apply NoDup_fmap_2; [|apply NoDup_seq].
    intros a b Hab. unfold show_nat in Hab. apply (inj pretty) in Hab. lia.
  - intros l Hl. unfold discount_lines in Hl. apply list_elem_of_lookup in Hl as [k Hk]. rewrite list_lookup_imap in Hk.
    apply fmap_Some in Hk as (item & Hi & ->). cbn. rewrite Forall_forall in Hitems.
    destruct (Hitems item) as (_ & ? & ?); [by eapply list_elem_of_lookup_2|done].
  - exact Hrate.
  - intros c Hc. apply elem_of_app in Hc as [Hc|Hc].
    + apply list_elem_of_omap in Hc as (code & _ & Hc). apply fmap_Some in Hc as ([co p] & Hco & ->). cbn. by eapply coupon_rewards.
    + apply list_elem_of_fmap in Hc as (p & -> & Hp). cbn. by apply automatic_rewards.
  - change (NoDup (omap code_of (candidates_for (ev_codes i)))). rewrite candidate_codes. eapply sublist_NoDup; [|apply sublist_omap_some].
    eapply sublist_NoDup; [apply NoDup_unique|apply sublist_take].
Qed.

Lemma adapter_within : DiscountsWithin PromotionValidationAdapter.
Proof.
  split. intros i snapshot Hi Hr [= <-]. pose proof (adapter_wf i Hi Hr) as Hw.
  pose proof (discounts_within _ Hw) as (_ & Ho & Hs). cbn [adapter_input di_lines di_shipping] in Ho, Hs.
  rewrite discount_lines_total in Ho. done.
Qed.
End promotions.

(** ** Tax ([checkout-shipping-tax.adapters.ts], [services/finance/.../calculate-store-tax.use-case.ts]) *)

Definition not_whole (v : option Z) : bool := match v with Some n => bool_decide (n < 0) | None => false end.

(** [CalculateStoreTax.execute]; a shop that stored no settings has the defaults. *)
Definition CalculateStoreTax (settings : option TaxSettings) (lines : list TaxableLine) (destination : TaxDestination)
    (shippingMinor : Z) (orderDiscountMinor shippingDiscountMinor : option Z) : result TaxResult :=
  if blank (td_country destination) then
    Err (ValidationError "Invalid destination" [mkFieldIssue "country" "required"])
  else if bool_decide (shippingMinor < 0) then
    Err (ValidationError "Invalid shipping price" [mkFieldIssue "shippingMinor" "must be a non-negative integer"])
  else if not_whole orderDiscountMinor then
    Err (ValidationError "Invalid discount" [mkFieldIssue "orderDiscountMinor" "must be a non-negative integer"])
  else if not_whole shippingDiscountMinor then
    Err (ValidationError "Invalid discount" [mkFieldIssue "shippingDiscountMinor" "must be a non-negative integer"])
  else Ok (calculateTax (default defaults settings) lines destination shippingMinor
         (mkTaxDiscounts orderDiscountMinor shippingDiscountMinor)).

Section finance.
(** Catalog's [taxable] of a line, unknown when it cannot be resolved; the shop's settings, if any. *)
Context (taxableOf : CheckoutItem -> option bool) (settings : option TaxSettings).

Definition tax_line (item : CheckoutItem) : TaxableLine :=
  mkTaxable (it_unitPriceAmountMinor item) (it_quantity item) (default true (taxableOf item)).
Definition when_given (d : option Z) : option Z := d ≫= fun n => if bool_decide (n = 0) then None else Some n.

#[local] Instance CheckoutTaxCalculationAdapter : TaxCalculationPort := {
  calculate items address shippingMinor currency discounts :=
    match CalculateStoreTax settings (tax_line <$> items) (mkDestination (ad_country address) (ad_province address))
      shippingMinor (when_given (tdi_orderMinor discounts)) (when_given (tdi_shippingMinor discounts)) with
    | Ok r => Ok r
    | Err e => Err (UnexpectedError "CheckoutTaxCalculationAdapter: Finance could not calculate the tax")
    end }.

Hypothesis settings_valid : forall s, settings = Some s -> settings_ok s.

Lemma adapter_tax_nonneg : TaxNonNegative CheckoutTaxCalculationAdapter.
Proof.
  split. intros items address rate currency d r Hitems Hrate. cbn. unfold CalculateStoreTax. repeat case_match; try done.
  simplify_eq. intros [= <-]. apply calculateTax_nonneg.
  - destruct settings as [s|] eqn:Hs; cbn; [by apply settings_valid|apply defaults_ok].
  - intros l (item & -> & Hi)%list_elem_of_fmap. rewrite Forall_forall in Hitems. destruct (Hitems item Hi) as (_ & ? & ?).
    cbn. lia.
Qed.
End finance.

(** ** Witnesses

    A guest buys two shirts and a mug in Cairo: ten percent off everything and a code that takes 300 off each
    shirt, standard shipping at 500 and prices that do not include the tax of 10 percent. *)

Definition shop_promotions : PromotionValidationPort :=
  PromotionValidationAdapter (fun p => if bool_decide (p = "shirt") then ["clothes"] else [])
    (fun code => if bool_decide (code = "SHIRT300") then Some (shirt_coupon, shirts_off) else None) [ten_percent] 50
    (fun _ _ _ _ => mkPromotionResult true 0).
Definition shop_settings : TaxSettings := snd (run_ops settings_exec [egypt; op_setFlags false true] defaults).
Definition shop_tax : TaxCalculationPort := CheckoutTaxCalculationAdapter (fun _ => Some true) (Some shop_settings).

Lemma shop_promotions_within : DiscountsWithin shop_promotions.
Proof.
  apply adapter_within.
  - intros code c p H. case_bool_decide; [|done]. by simplify_eq.
  - intros code c p H. case_bool_decide; [|done]. by simplify_eq.
  - by intros p ->%list_elem_of_singleton.
Qed.

Lemma shop_tax_nonneg : TaxNonNegative shop_tax.
Proof.
  apply adapter_tax_nonneg. intros s [= <-].
  apply (reachable_settings_ok [egypt; op_setFlags false true] (Ok tt)). reflexivity.
Qed.

Definition shop_quotes : QuotePort := fun _ _ _ =>
  [mkQuote "standard" "Standard" (NInt 500) None; mkQuote "express" "Express" (NInt 2500) None].
Definition shop_items : list RawItem :=
  [ mkRawItem "shirt" (NInt 2) (NInt 1999) "EGP" (Some "v1") (Some "SH-1") (Some "Shirt") None;
    mkRawItem "mug" (NInt 1) (NInt 1001) "EGP" None None None None ].
(** The guest's calls, up to the choice of a payment method. *)
Definition guest_flow (code : string) (promotions : PromotionValidationPort) : FlowM string :=
  StartCheckout "s1" "cart-1" None "guest-1" "EGP";;
  LoadItems shop_items;; SetBillingAddress home;; SetShippingAddress home;; SetContactEmail " Guest@Example.COM ";;
  SelectShipping shop_quotes "standard";; AddDiscountCode promotions (Some shop_tax) code "e1" 40;;
  RequestTaxCalculation shop_tax (Some promotions) "e2" 41;; SelectPayment ["stripe"] "pm-1" "stripe".
Definition guest_world : CheckoutWorld := snd (guest_flow " shirt300 " shop_promotions (mkWorld None [] [])).
Definition loaded (w : CheckoutWorld) : CheckoutSession := unwrapOr (fst (load w)) sample_start.

(** Closes [stored] of a world computed by calls. *)
Ltac solve_stored :=
  split; [vm_compute; reflexivity| |vm_compute; discriminate|vm_compute; reflexivity];
  split;
    [ vm_compute; reflexivity
    | vm_compute; repeat (constructor; [split; [reflexivity|split; discriminate]|]); constructor
    | intros ? H; vm_compute in H; injection H as <-; vm_compute; reflexivity
    | intros ? H; vm_compute in H; injection H as <-; vm_compute; reflexivity
    | intros ? H; vm_compute in H; injection H as <-; vm_compute; reflexivity
    | intros ? H; vm_compute in H; injection H as <-; vm_compute; split; [reflexivity|discriminate]
    | intros ? H; vm_compute in H; injection H as <-; vm_compute; split; reflexivity
    | vm_compute; split; [intros [? [=]]|intros [=]]
    | vm_compute; intros [? [=]]
    | vm_compute; split; [repeat (constructor; [by intros ?%elem_of_nil|]); constructor|lia]
    | vm_compute; split; [discriminate|by intros [? [=]]] ].

Lemma guest_world_stored : stored guest_world (loaded guest_world).
Proof. solve_stored. Qed.

Lemma recalculated_total_is_exact_witness :
  exists w', RecalculateTotals (Some shop_promotions) (Some shop_tax) "e3" 50 guest_world = (Ok "s1", w') /\
    exists s' t, stored w' s' /\ se_totals (agg_props s') = Some t /\
      to_totalMinor t = (to_subtotalMinor t - to_discountMinor t) + (to_shippingMinor t - to_shippingDiscountMinor t) +
        (if to_taxIncluded t then 0 else to_taxMinor t) /\ to_subtotalMinor t = 4999.
Proof.
  eexists. split; [vm_compute; reflexivity|].
  pose proof shop_promotions_within.
  destruct (recalculated_total_is_exact shop_promotions (Some shop_tax) "e3" 50 guest_world (loaded guest_world) "s1" _
    ltac:(intros t [= <-]; exact shop_tax_nonneg) guest_world_stored ltac:(right; vm_compute; reflexivity)
    ltac:(vm_compute; discriminate) ltac:(vm_compute; reflexivity)) as (s' & t & H1 & H2 & H3 & _ & _ & _ & _ & H4).
  exists s', t. split; [exact H1|]. destruct H2 as (_ & _ & _ & _ & _ & H2 & _). rewrite H2. split; [vm_compute; reflexivity|].
  split; [exact H4|]. rewrite H3. vm_compute. reflexivity.
Defined.

Definition accepting (promotions : option PromotionValidationPort) : CompleteCheckoutDeps :=
  mkCompleteDeps (fun _ => Ok "order-1") (Some (fun _ => mkStockValidation true None)) (Some (fun _ _ => inl tt)) true promotions
    (Some shop_tax) true.

Lemma complete_run fate deps key eid now w :
  CompleteCheckout fate deps key eid now w = (fst (CompleteCheckout fate deps key eid now w), snd (CompleteCheckout fate deps key eid now w)).
Proof. apply surjective_pairing. Qed.

Lemma guest_facts : se_orderRef (agg_props (loaded guest_world)) = None /\ agg_id (loaded guest_world) = "s1" /\
  se_currency (agg_props (loaded guest_world)) = "EGP" /\
  fst (CompleteCheckout alone (accepting (Some shop_promotions)) "key" "e4" 60 guest_world) = Ok (mkCompleted "s1" cs_completed "order-1").
Proof. split; [|split; [|split]]; vm_compute; reflexivity. Qed.


(** A shop without promotions: standard shipping at 500 is in the totals when the guest moves to express at 2500. *)
Definition no_promotions : PromotionValidationPort :=
  PromotionValidationAdapter (fun _ => []) (fun _ => None) [] 50 (fun _ _ _ _ => mkPromotionResult true 0).
Definition plain_flow : FlowM string :=
  StartCheckout "s1" "cart-1" None "guest-1" "EGP";;
  LoadItems shop_items;; SetBillingAddress home;; SetShippingAddress home;; SetContactEmail "guest@example.com";;
  SelectShipping shop_quotes "standard";; SelectPayment ["stripe"] "pm-1" "stripe";;
  RecalculateTotals (Some no_promotions) None "e1" 40.
Definition plain_world : CheckoutWorld := snd (plain_flow (mkWorld None [] [])).

Lemma plain_world_stored : stored plain_world (loaded plain_world).
Proof. solve_stored. Qed.

Definition plain_totals : CheckoutTotals := default (totals_of (agg_props sample_start)) (se_totals (agg_props (loaded plain_world))).

Lemma complete_charges_stale_shipping_witness :
  exists out w' draft,
    (SelectShipping shop_quotes "express";; CompleteCheckout alone (accepting (Some no_promotions)) "key" "e2" 60) plain_world = (Ok out, w') /\
    cc_orderRef out = "order-1" /\ CreateOrder "s1" "EGP" "key" draft ∈ cw_calls w' /\
    dt_shippingMethod draft = Some "express" /\ dt_totals draft = plain_totals /\ to_shippingMinor plain_totals = 500.
Proof.
  destruct (complete_charges_stale_shipping (accepting (Some no_promotions)) "key" "e2" 60 shop_quotes "express"
    (mkQuote "express" "Express" (NInt 2500) None) 1%nat 2500 "order-1" plain_world (loaded plain_world) plain_totals
    (default home (se_shippingAddress (agg_props (loaded plain_world))))
    (default home (se_billingAddress (agg_props (loaded plain_world))))) as (out & w' & draft & H1 & H2 & H3 & H4 & H5).
  - exact plain_world_stored.
  - vm_compute. reflexivity.
  - vm_compute. discriminate.
  - vm_compute. reflexivity.
  - vm_compute. reflexivity.
  - vm_compute. reflexivity.
  - reflexivity.
  - reflexivity.
  - reflexivity.
  - lia.
  - reflexivity.
  - split; [reflexivity|done|]. intros f [= <-]. reflexivity.
  - intros selection port [= <-]. split; [vm_compute; reflexivity|]. eexists. split; [reflexivity|]. vm_compute. reflexivity.
  - exists out, w', draft. split; [exact H1|]. split; [exact H2|]. split; [exact H3|]. split; [exact H4|]. split; [exact H5|].
    vm_compute. reflexivity.
Defined.

(** The guest's completion of [plain_world] whose save fails, retried with the same idempotency key. *)
Lemma retried_completion_places_two_orders_witness :
  exists w1 w2 out,
    CompleteCheckout (mkFate [] (Some (UnexpectedError "connection lost")) None) (accepting (Some no_promotions))
      "key" "e2" 60 plain_world = (Err (UnexpectedError "connection lost"), w1) /\
    CompleteCheckout alone (accepting (Some no_promotions)) "key" "e3" 61 w1 = (Ok out, w2) /\
    length (filter (fun c => match c with CreateOrder _ _ _ _ => true | _ => false end = true) (cw_calls w2)) = 2%nat.
Proof.
  assert (Hw : willing (accepting (Some no_promotions)) "order-1" (se_items (agg_props (loaded plain_world)))).
  { split; [reflexivity|done|]. intros f [= <-]. reflexivity. }
  assert (Hq : no_discounts (accepting (Some no_promotions)) (agg_props (loaded plain_world))).
  { intros port [= <-]. split; [vm_compute; reflexivity|]. eexists. split; [reflexivity|]. vm_compute. reflexivity. }
  edestruct (retried_completion_places_two_orders (accepting (Some no_promotions)) (accepting (Some no_promotions))
    (UnexpectedError "connection lost") "key" "key" "e2" "e3" 60 61 plain_world (loaded plain_world))
    as (w1 & w2 & out & H1 & H2 & _ & Hc).
  - exact plain_world_stored.
  - vm_compute. reflexivity.
  - vm_compute. reflexivity.
  - reflexivity.
  - reflexivity.
  - exact Hq.
  - exact Hq.
  - exact Hw.
  - exact Hw.
  - exists w1, w2, out. split; [exact H1|]. split; [exact H2|]. rewrite Hc. vm_compute. reflexivity.
Defined.
