(* ===== verification/Access.v ===== *)
(** Role-based access: [services/security/src/domain]. Permissions and the scopes they are granted in,
    roles that inherit from parents, assignments of roles to principals, and the evaluation of what a
    principal may do ([authorization.ts]) over the roles a repository holds ([authz-helpers.ts]). *)
From Stdlib Require Import Ascii.
From S2P Require Import Prelude Kernel.

#[global] Open Scope Z_scope.

(** ** Events of the Security context ([domain/events/security-changed.event.ts]) *)

Record SecurityChanged := mkSecurityChanged {
  sc_aggregateId : string; sc_aggregate : string; sc_key : string; sc_event : string; sc_status : string }.

(** ** Permissions ([value-objects/permission-spec.ts]) *)

Record PermissionSpec := mkPermission { pm_resource : string; pm_action : string }.
#[export] Instance PermissionSpec_eq_dec : EqDecision PermissionSpec.
Proof. solve_decision. Defined.

(** [/^[a-z0-9][a-z0-9_-]*$|^\*$/] *)
Definition TOKEN (s : string) : bool :=
  match s with
  | EmptyString => false
  | String c s' => (is_lower c || is_digit c) && all_chars (fun c => is_lower c || is_digit c || bool_decide (c = "_"%char) || bool_decide (c = "-"%char)) s'
  end || bool_decide (s = "*").

Definition invalid {A} (message field detail : string) : result A := Err (ValidationError message [mkFieldIssue field detail]).

Definition PermissionSpec_parse (permission : string) : result PermissionSpec :=
  match split_on ":"%char permission with
  | [resource; action] =>
      if negb (TOKEN resource) || negb (TOKEN action) then
        invalid "permission has invalid segment" "permission" "segments must be [a-z0-9_-]+ or *"
      else Ok (mkPermission resource action)
  | _ => invalid "permission is malformed" "permission" "expected <resource>:<action>"
  end.
Definition PermissionSpec_toString (p : PermissionSpec) : string := pm_resource p +:+ ":" +:+ pm_action p.

Definition seg (held need : string) : bool := bool_decide (held = "*") || bool_decide (held = need).
Definition implies (held required : PermissionSpec) : bool :=
  seg (pm_resource held) (pm_resource required) && seg (pm_action held) (pm_action required).

(** ** Scopes ([value-objects/security-scope.ts]): an undefined level is a wildcard *)

Record SecurityScope := mkScope {
  ss_organization : option string; ss_tenant : option string; ss_workspace : option string; ss_environment : option string }.
#[export] Instance SecurityScope_eq_dec : EqDecision SecurityScope.
Proof. solve_decision. Defined.

Definition platform : SecurityScope := mkScope None None None None.
Definition SCOPE_LEVELS : list (SecurityScope -> option string) := [ss_organization; ss_tenant; ss_workspace; ss_environment].
Definition scope_contains (mine other : SecurityScope) : bool :=
  forallb (fun level => match level mine with None => true | Some v => bool_decide (level other = Some v) end) SCOPE_LEVELS.
Definition scope_or_platform (scope : option SecurityScope) : SecurityScope := default platform scope.
Definition scope_key (s : SecurityScope) : string :=
  let part name v := name +:+ "=" +:+ default "*" v in
  part "organization" (ss_organization s) +:+ ";" +:+ part "tenant" (ss_tenant s) +:+ ";" +:+
  part "workspace" (ss_workspace s) +:+ ";" +:+ part "environment" (ss_environment s).

(** ** Roles ([role.ts]) *)

Inductive RoleStatus := role_active | role_archived.
#[export] Instance RoleStatus_eq_dec : EqDecision RoleStatus.
Proof. solve_decision. Defined.
Definition role_status_name (s : RoleStatus) : string := match s with role_active => "active" | role_archived => "archived" end.

Record RoleProps := mkRole {
  ro_key : string; ro_name : string; ro_scope : SecurityScope; ro_permissions : list string;
  ro_parentKey : option string; ro_isTemplate : bool; ro_status : RoleStatus }.
Abbreviation Role := (Aggregate RoleProps SecurityChanged).

Definition with_permissions (ps : list string) (r : RoleProps) : RoleProps :=
  mkRole (ro_key r) (ro_name r) (ro_scope r) ps (ro_parentKey r) (ro_isTemplate r) (ro_status r).
Definition with_role_status (s : RoleStatus) (r : RoleProps) : RoleProps :=
  mkRole (ro_key r) (ro_name r) (ro_scope r) (ro_permissions r) (ro_parentKey r) (ro_isTemplate r) s.

Definition role_emit (eid : string) (at_ : Z) : M Role unit :=
  a ← gets (fun a : Role => a);
  addDomainEvent eid at_ (mkSecurityChanged (agg_id a) "role" (ro_key (agg_props a)) "security.role.defined" (role_status_name (ro_status (agg_props a)))).

Definition normalizePermissions (permissions : list string) : result (list string) :=
  out ← foldM (fun out permission =>
    match PermissionSpec_parse permission with
    | Ok spec => Ok (if bool_decide (PermissionSpec_toString spec ∈ out) then out else out ++ [PermissionSpec_toString spec])
    | Err e => Err (BusinessRuleError ("Invalid permission " +:+ quoted permission +:+ ": " +:+ error_message e))
    end) [] permissions;
  Ok (sort_by string_le out).

Definition role_define (id key name : string) (scope : option SecurityScope) (permissions : list string) (parentKey : option string)
    (isTemplate : bool) (eid : string) (at_ : Z) : result Role :=
  if blank key then Err (BusinessRuleError "A role needs a key")
  else if blank name then Err (BusinessRuleError "A role needs a name")
  else
    permissions ← normalizePermissions permissions;
    let role := new_agg (mkRole (trim key) (trim name) (scope_or_platform scope) permissions parentKey isTemplate role_active) id in
    Ok (role_emit eid at_ role).2.

Definition role_ensureActive : M Role unit :=
  s ← gets (fun a : Role => ro_status (agg_props a));
  throw_if (negb (bool_decide (s = role_active))) (BusinessRuleError "An archived role cannot be modified").

Definition grantPermission (permission eid : string) (at_ : Z) : M Role unit :=
  role_ensureActive;;
  match PermissionSpec_parse permission with
  | Err e => throw (BusinessRuleError (error_message e))
  | Ok spec =>
      let value := PermissionSpec_toString spec in
      ps ← gets (fun a : Role => ro_permissions (agg_props a));
      if bool_decide (value ∈ ps) then mret tt
      else set_props (with_permissions (sort_by string_le (ps ++ [value])));; role_emit eid at_
  end.

Definition revokePermission (permission eid : string) (at_ : Z) : M Role unit :=
  role_ensureActive;;
  ps ← gets (fun a : Role => ro_permissions (agg_props a));
  if bool_decide (permission ∈ ps) then set_props (with_permissions (filter (fun p => p <> permission) ps));; role_emit eid at_
  else mret tt.

Definition role_archive (eid : string) (at_ : Z) : M Role unit :=
  s ← gets (fun a : Role => ro_status (agg_props a));
  if bool_decide (s = role_archived) then mret tt
  else set_props (with_role_status role_archived);; role_emit eid at_.

(** ** Role assignments ([role-assignment.ts]) *)

Inductive AssignmentStatus := as_active | as_revoked | as_expired.
#[export] Instance AssignmentStatus_eq_dec : EqDecision AssignmentStatus.
Proof. solve_decision. Defined.
Definition assignment_status_name (s : AssignmentStatus) : string :=
  match s with as_active => "active" | as_revoked => "revoked" | as_expired => "expired" end.

Record RoleAssignmentProps := mkAssignment {
  ra_principalRef : string; ra_roleKey : string; ra_scope : SecurityScope; ra_grantedBy : string; ra_status : AssignmentStatus;
  ra_expiresAt : option Z; ra_reason : option string; ra_grantedAt : Z }.
Abbreviation RoleAssignment := (Aggregate RoleAssignmentProps SecurityChanged).

Definition with_assignment_status (s : AssignmentStatus) (a : RoleAssignmentProps) : RoleAssignmentProps :=
  mkAssignment (ra_principalRef a) (ra_roleKey a) (ra_scope a) (ra_grantedBy a) s (ra_expiresAt a) (ra_reason a) (ra_grantedAt a).

Definition assignment_emit (event eid : string) (at_ : Z) : M RoleAssignment unit :=
  a ← gets (fun a : RoleAssignment => a);
  let p := agg_props a in
  addDomainEvent eid at_ (mkSecurityChanged (agg_id a) "role" (ra_principalRef p +:+ ":" +:+ ra_roleKey p) event (assignment_status_name (ra_status p))).

Definition assignment_grant (id principalRef roleKey grantedBy : string) (scope : option SecurityScope) (expiresAt : option Z)
    (reason : option string) (eid : string) (at_ : Z) : result RoleAssignment :=
  if blank principalRef then Err (BusinessRuleError "An assignment needs a principalRef")
  else if blank roleKey then Err (BusinessRuleError "An assignment needs a roleKey")
  else if blank grantedBy then Err (BusinessRuleError "An assignment needs a granting principal (grantedBy)")
  else if match expiresAt with Some t => t <=? at_ | None => false end then
    Err (BusinessRuleError "A temporary elevation cannot be granted already expired")
  else
    let a := new_agg (mkAssignment (trim principalRef) (trim roleKey) (scope_or_platform scope) (trim grantedBy) as_active expiresAt reason at_) id in
    Ok (assignment_emit "security.role.assigned" eid at_ a).2.

Definition assignment_revoke (eid : string) (at_ : Z) : M RoleAssignment unit :=
  s ← gets (fun a : RoleAssignment => ra_status (agg_props a));
  if negb (bool_decide (s = as_active)) then mret tt
  else set_props (with_assignment_status as_revoked);; assignment_emit "security.role.revoked" eid at_.

Definition assignment_expireIfDue (now : Z) (eid : string) : M RoleAssignment bool :=
  p ← gets (fun a : RoleAssignment => agg_props a);
  match ra_status p, ra_expiresAt p with
  | as_active, Some t =>
      if now <? t then mret false
      else set_props (with_assignment_status as_expired);; assignment_emit "security.role.revoked" eid now;; mret true
  | _, _ => mret false
  end.

Definition isActiveAt (p : RoleAssignmentProps) (now : Z) : bool :=
  bool_decide (ra_status p = as_active) && match ra_expiresAt p with None => true | Some t => now <? t end.

(** ** The evaluation of permissions ([authorization.ts]) *)

(** A set or a map in insertion order. *)
Definition add_key (k : string) (l : list string) : list string := if bool_decide (k ∈ l) then l else l ++ [k].
Fixpoint set_permission (k : string) (spec : PermissionSpec) (m : list (string * PermissionSpec)) : list (string * PermissionSpec) :=
  match m with
  | [] => [(k, spec)]
  | (k', s) :: m' => if bool_decide (k' = k) then (k, spec) :: m' else (k', s) :: set_permission k spec m'
  end.

Record Collected := mkCollected { co_roleKeys : list string; co_permissions : list (string * PermissionSpec) }.
Record EffectiveAuthorization := mkEffective { ea_permissions : list PermissionSpec; ea_roleKeys : list string }.

Definition collect_permission (m : list (string * PermissionSpec)) (permission : string) : list (string * PermissionSpec) :=
  match PermissionSpec_parse permission with Ok spec => set_permission (PermissionSpec_toString spec) spec m | Err _ => m end.
Definition contribute (role : RoleProps) (c : Collected) : Collected :=
  mkCollected (add_key (ro_key role) (co_roleKeys c)) (foldl collect_permission (co_permissions c) (ro_permissions role)).

(** The walk up the parents; [None] when the fuel runs out. *)
Fixpoint collectRole (fuel : nat) (key : string) (roles : gmap string RoleProps) (seen : gset string) (c : Collected) : option Collected :=
  match fuel with
  | O => None
  | S fuel =>
      if bool_decide (key ∈ seen) then Some c
      else
        let seen := {[key]} ∪ seen in
        match roles !! key with
        | None => Some c
        | Some role =>
            if negb (bool_decide (ro_status role = role_active)) then Some c
            else
              let c := contribute role c in
              match ro_parentKey role with
              | None => Some c
              | Some parent => collectRole fuel parent roles seen c
              end
        end
  end.

Definition effective (a : RoleAssignmentProps) (requestScope : SecurityScope) (now : Z) : bool :=
  isActiveAt a now && scope_contains (ra_scope a) requestScope.

Definition walk_assignment (roles : gmap string RoleProps) (requestScope : SecurityScope) (now : Z) (acc : option Collected)
    (a : RoleAssignmentProps) : option Collected :=
  c ← acc;
  if effective a requestScope now then collectRole (S (size roles)) (ra_roleKey a) roles ∅ c else Some c.

Definition resolve (assignments : list RoleAssignmentProps) (roles : gmap string RoleProps) (requestScope : SecurityScope) (now : Z) :
    option EffectiveAuthorization :=
  c ← foldl (walk_assignment roles requestScope now) (Some (mkCollected [] [])) assignments;
  Some (mkEffective (co_permissions c).*2 (co_roleKeys c)).

Definition isAuthorized (e : EffectiveAuthorization) (required : PermissionSpec) : bool :=
  existsb (fun held => implies held required) (ea_permissions e).

(** ** Loading the roles an assignment may reach ([authz-helpers.ts]) *)

Definition findByKeys (rows : list RoleProps) (keys : list string) : list RoleProps := filter (fun r => ro_key r ∈ keys) rows.

Definition load_found (acc : gmap string RoleProps * list string) (role : RoleProps) : gmap string RoleProps * list string :=
  let '(map, next) := acc in
  if bool_decide (is_Some (map !! ro_key role)) then acc
  else
    let map := <[ro_key role := role]> map in
    (map, match ro_parentKey role with
          | Some p => if bool_decide (map !! p = None) then next ++ [p] else next
          | None => next
          end).

Fixpoint load_rounds (fuel : nat) (rows : list RoleProps) (frontier : list string) (map : gmap string RoleProps) : option (gmap string RoleProps) :=
  match frontier, fuel with
  | [], _ => Some map
  | _, O => None
  | _, S fuel =>
      let '(map, next) := foldl load_found (map, []) (findByKeys rows frontier) in
      load_rounds fuel rows (filter (fun k => map !! k = None) (unique next)) map
  end.
(** Every round but the last adds a role. *)
Definition loadRoleClosure (rows : list RoleProps) (assignmentKeys : list string) : option (gmap string RoleProps) :=
  load_rounds (S (length rows)) rows (unique assignmentKeys) ∅.

(** What the use cases do: the closure is loaded, the effective permissions resolved and checked. *)
Definition effective_authorization (rows : list RoleProps) (assignments : list RoleAssignmentProps) (requestScope : SecurityScope) (now : Z) :
    option EffectiveAuthorization :=
  roles ← loadRoleClosure rows (ra_roleKey <$> assignments);
  resolve assignments roles requestScope now.
Definition authorized (rows : list RoleProps) (assignments : list RoleAssignmentProps) (requestScope : SecurityScope) (now : Z)
    (required : PermissionSpec) : option bool :=
  e ← effective_authorization rows assignments requestScope now;
  Some (isAuthorized e required).

(** ** Permissions parse and print *)

Lemma PermissionSpec_parse_Ok s p :
  PermissionSpec_parse s = Ok p <-> s = PermissionSpec_toString p /\ TOKEN (pm_resource p) = true /\ TOKEN (pm_action p) = true.
Proof.
  unfold PermissionSpec_parse. split.
  - destruct (split_on ":"%char s) as [|r [|a [|? ?]]] eqn:E; try done. apply split_on_two in E.
    destruct (TOKEN r) eqn:Hr, (TOKEN a) eqn:Ha; cbn; try done. by intros [= <-].
  - intros (-> & Hr & Ha). assert (Hc : forall t, TOKEN t = true -> all_chars (fun c => negb (bool_decide (c = ":"%char))) t = true).
    { intros t [Ht|Ht%bool_decide_eq_true]%orb_true_iff; [|by subst t]. destruct t as [|c t]; [done|]. apply andb_true_iff in Ht as [H1 H2].
      cbn. rewrite andb_true_iff. split.
      - by case_bool_decide; [subst c|].
      - eapply all_chars_impl; [|exact H2]. intros x Hx. by case_bool_decide; [subst x|]. }
    unfold PermissionSpec_toString. change (":" +:+ pm_action p) with (String ":" (pm_action p)).
    rewrite split_on_app, split_on_single by auto. rewrite Hr, Ha. by destruct p.
Qed.

(** ** What the walk collects *)

(** A role and the roles it inherits from, through active roles among those stored. *)
Inductive inherits (stored : RoleProps -> Prop) : string -> RoleProps -> Prop :=
| inherits_self r : stored r -> ro_status r = role_active -> inherits stored (ro_key r) r
| inherits_parent r p r' : stored r -> ro_status r = role_active -> ro_parentKey r = Some p -> inherits stored p r' -> inherits stored (ro_key r) r'.

Definition permissions_ok (m : list (string * PermissionSpec)) : Prop := forall k s, (k, s) ∈ m -> PermissionSpec_parse k = Ok s.
Definition contributed (r : RoleProps) (c : Collected) : Prop :=
  ro_key r ∈ co_roleKeys c /\ forall p s, p ∈ ro_permissions r -> PermissionSpec_parse p = Ok s -> (p, s) ∈ co_permissions c.

Lemma elem_of_set_permission k spec m k' s :
  (k', s) ∈ set_permission k spec m -> (k' = k /\ s = spec) \/ (k', s) ∈ m.
Proof.
  induction m as [|[k0 s0] m IH]; cbn; [intros H%list_elem_of_singleton; left; by simplify_eq|].
  case_bool_decide; intros [E|E]%elem_of_cons; simplify_eq; [by left|by right; right|by right; left|].
  destruct (IH E); [by left|by right; right].
Qed.

Lemma set_permission_keys k spec m k' : k' ∈ (set_permission k spec m).*1 <-> k' = k \/ k' ∈ m.*1.
Proof.
  induction m as [|[k0 s0] m IH]; cbn; [rewrite list_elem_of_singleton, elem_of_nil; tauto|].
  case_bool_decide; subst; cbn; rewrite !elem_of_cons; [tauto|]. rewrite IH. tauto.
Qed.

Lemma permissions_ok_key m k s : permissions_ok m -> k ∈ m.*1 -> PermissionSpec_parse k = Ok s -> (k, s) ∈ m.
Proof. intros Hm ([k' s'] & -> & Hin)%list_elem_of_fmap Hp. cbn in *. assert (H := Hm _ _ Hin). rewrite Hp in H. by injection H as ->. Qed.

Lemma collect_permission_spec ps m :
  permissions_ok m ->
  permissions_ok (foldl collect_permission m ps) /\
  forall p s, (p, s) ∈ foldl collect_permission m ps <-> (p, s) ∈ m \/ (p ∈ ps /\ PermissionSpec_parse p = Ok s).
Proof.
  revert m. induction ps as [|q ps IH]; intros m Hm; cbn [foldl].
  { split; [done|]. intros p s. rewrite elem_of_nil. naive_solver. }
  unfold collect_permission at 2 4. destruct (PermissionSpec_parse q) as [sq|e] eqn:Hq.
  2: { destruct (IH m Hm) as [H1 H2]. split; [done|]. intros p s. rewrite H2, elem_of_cons. naive_solver congruence. }
  assert (q = PermissionSpec_toString sq) as Eq by (by apply PermissionSpec_parse_Ok in Hq as [? _]). rewrite <- Eq.
  assert (Hm' : permissions_ok (set_permission q sq m)).
  { intros k s [[-> ->]|H]%elem_of_set_permission; [done|by apply Hm]. }
  destruct (IH _ Hm') as [H1 H2]. split; [done|]. intros p s. rewrite H2, elem_of_cons. split.
  - intros [H|[H Hp]]; [|right; tauto]. apply elem_of_set_permission in H as [[-> ->]|H]; [right; tauto|by left].
  - intros [H|[[-> |H] Hp]]; [left|left|right; tauto]; apply permissions_ok_key; try done; try (by apply Hm);
      apply set_permission_keys; [right|by left]. apply list_elem_of_fmap. by exists (p, s).
Qed.

Lemma elem_of_add_key k k' l : k' ∈ add_key k l <-> k' = k \/ k' ∈ l.
Proof. unfold add_key. case_bool_decide; [naive_solver|]. rewrite elem_of_app, list_elem_of_singleton. tauto. Qed.

(** Everything collected comes from a role among [from], or was there. *)
Definition collected_from (from : RoleProps -> Prop) (c c' : Collected) : Prop :=
  (forall k, k ∈ co_roleKeys c' -> k ∈ co_roleKeys c \/ exists r, from r /\ ro_key r = k) /\
  (forall p s, (p, s) ∈ co_permissions c' -> (p, s) ∈ co_permissions c \/ exists r, from r /\ p ∈ ro_permissions r /\ PermissionSpec_parse p = Ok s).
Definition collected_le (c c' : Collected) : Prop :=
  (forall k, k ∈ co_roleKeys c -> k ∈ co_roleKeys c') /\ (forall x, x ∈ co_permissions c -> x ∈ co_permissions c').

#[export] Instance collected_le_preorder : PreOrder collected_le.
Proof. unfold collected_le. split; [by intros c|]. intros c1 c2 c3 [] []. split; eauto. Qed.

Lemma collected_from_mono (P Q : RoleProps -> Prop) c c' : (forall r, P r -> Q r) -> collected_from P c c' -> collected_from Q c c'.
Proof. intros HPQ [H1 H2]. split; [intros k Hk; destruct (H1 k Hk)|intros p s Hp; destruct (H2 p s Hp)]; naive_solver. Qed.

Lemma collected_from_trans P c1 c2 c3 : collected_from P c1 c2 -> collected_from P c2 c3 -> collected_from P c1 c3.
Proof.
  intros [H1 H2] [H3 H4]. split.
  - intros k Hk. destruct (H3 k Hk) as [Hk'|]; [by apply H1|by right].
  - intros p s Hp. destruct (H4 p s Hp) as [Hp'|]; [by apply H2|by right].
Qed.

Lemma contributed_le r c c' : collected_le c c' -> contributed r c -> contributed r c'.
Proof. intros [H1 H2] [H3 H4]. split; eauto. Qed.

Lemma contribute_spec r c : permissions_ok (co_permissions c) ->
  permissions_ok (co_permissions (contribute r c)) /\ collected_le c (contribute r c) /\ contributed r (contribute r c) /\
  collected_from (eq r) c (contribute r c).
Proof.
  intros Hc. destruct (collect_permission_spec (ro_permissions r) _ Hc) as [H1 H2]. split; [done|]. unfold contributed, collected_le, collected_from. cbn.
  setoid_rewrite elem_of_add_key. split_and!; try (by auto).
  - intros [p s]. rewrite H2. auto.
  - intros p s. rewrite H2. auto.
  - intros k [-> |?]; [right; by exists r|by left].
  - intros p s. rewrite H2. intros [?|[? ?]]; [by left|right; by exists r].
Qed.

Section walk.
Context (roles : gmap string RoleProps).
Definition in_map (r : RoleProps) : Prop := roles !! ro_key r = Some r.
Context (Hkeys : forall k r, roles !! k = Some r -> ro_key r = k).

(** Roles seen have contributed, and their parents are seen too, but for the one the walk is at. *)
Definition walked (seen : gset string) (at_ : option string) (c : Collected) : Prop :=
  forall k r, k ∈ seen -> roles !! k = Some r -> ro_status r = role_active ->
    contributed r c /\ forall p, ro_parentKey r = Some p -> p ∈ seen \/ at_ = Some p.

Lemma collectRole_spec fuel key seen c c' :
  collectRole fuel key roles seen c = Some c' -> permissions_ok (co_permissions c) -> walked seen (Some key) c ->
  permissions_ok (co_permissions c') /\ collected_le c c' /\ collected_from (inherits in_map key) c c' /\
  exists seen', {[key]} ∪ seen ⊆ seen' /\ walked seen' None c'.
Proof.
  revert key seen c. induction fuel as [|fuel IH]; intros key seen c H Hc Hw; [done|]. cbn in H.
  assert (Hrefl : collected_from (inherits in_map key) c c) by (split; by left).
  case_bool_decide as Hk.
  { injection H as <-. split_and!; try done. exists seen. split; [set_solver|]. intros k r Hin Hr Ha.
    destruct (Hw k r Hin Hr Ha) as [H1 H2]. split; [done|]. intros p Hp. destruct (H2 p Hp) as [?|[= ->]]; by left. }
  assert (Hseen : forall c, (forall r, roles !! key = Some r -> ro_status r = role_active -> contributed r c /\ ro_parentKey r = None) ->
    walked seen (Some key) c -> walked ({[key]} ∪ seen) None c).
  { intros c0 Hkey Hw0 k r [->%elem_of_singleton|Hin]%elem_of_union Hr Ha; [destruct (Hkey r Hr Ha) as [? ->]; done|].
    destruct (Hw0 k r Hin Hr Ha) as [H1 H2]. split; [done|]. intros p Hp. left. destruct (H2 p Hp) as [?|[= ->]]; set_solver. }
  destruct (roles !! key) as [r|] eqn:Hr.
  2: { injection H as <-. split_and!; try done. exists ({[key]} ∪ seen). split; [set_solver|]. by apply Hseen. }
  assert (Hkey := Hkeys key r Hr). destruct (bool_decide (ro_status r = role_active)) eqn:Ha; cbn [negb] in H.
  2: { injection H as <-. apply bool_decide_eq_false in Ha. split_and!; try done. exists ({[key]} ∪ seen). split; [set_solver|].
    apply Hseen; [|done]. intros r' [= <-]. congruence. }
  apply bool_decide_eq_true in Ha. destruct (contribute_spec r c Hc) as (H1 & H2 & H3 & H4).
  assert (Hmap : in_map r) by (unfold in_map; by rewrite Hkey).
  assert (Hself : collected_from (inherits in_map key) c (contribute r c)).
  { eapply collected_from_mono; [|exact H4]. intros ? <-. rewrite <- Hkey. by constructor. }
  assert (Hw' : walked seen (Some key) (contribute r c)).
  { intros k r' Hin Hr' Ha'. destruct (Hw k r' Hin Hr' Ha') as [? ?]. split; [by eapply contributed_le|done]. }
  destruct (ro_parentKey r) as [p|] eqn:Hp.
  - destruct (IH p ({[key]} ∪ seen) (contribute r c) H H1) as (H5 & H6 & H7 & seen' & H8 & H9).
    { intros k r' [->%elem_of_singleton|Hin]%elem_of_union Hr' Ha'.
      - assert (r' = r) as -> by congruence. split; [done|]. intros p' Hp'. right. congruence.
      - destruct (Hw' k r' Hin Hr' Ha') as [? H5]. split; [done|]. intros p' Hp'. left.
        destruct (H5 p' Hp') as [?|[= ->]]; set_solver. }
    split_and!; [done|by etrans| |].
    + eapply collected_from_trans; [exact Hself|]. eapply collected_from_mono; [|exact H7]. intros r' Hr'. rewrite <- Hkey. by econstructor.
    + exists seen'. split; [set_solver|done].
  - injection H as <-. split_and!; try done. exists ({[key]} ∪ seen). split; [set_solver|]. apply Hseen; [|done]. by intros r' [= <-].
Qed.

Lemma collectRole_total fuel key seen c : (size (dom roles ∖ seen) < fuel)%nat -> is_Some (collectRole fuel key roles seen c).
Proof.
  revert key seen c. induction fuel as [|fuel IH]; intros key seen c Hf; [lia|]. cbn. case_bool_decide as Hk; [done|].
  destruct (roles !! key) as [r|] eqn:Hr; [|done]. destruct (negb _); [done|]. destruct (ro_parentKey r) as [p|]; [|done].
  apply IH. assert (Hd : key ∈ dom roles) by by apply elem_of_dom. clear - Hf Hk Hd.
  assert (dom roles ∖ ({[key]} ∪ seen) ⊂ dom roles ∖ seen) as Hlt%subset_size by set_solver. lia.
Qed.

Lemma walked_contributed seen c key r : walked seen None c -> key ∈ seen -> inherits in_map key r -> contributed r c.
Proof.
  intros Hw Hin Hi. induction Hi as [r Hr Ha|r p r' Hr Ha Hp _ IH]; [by eapply Hw|].
  apply IH. destruct (Hw (ro_key r) r Hin Hr Ha) as [_ H]. by destruct (H p Hp).
Qed.

Context (requestScope : SecurityScope) (now : Z).

(** The roles some assignment in force brings, directly or by inheritance. *)
Definition granting (assignments : list RoleAssignmentProps) (r : RoleProps) : Prop :=
  exists a, a ∈ assignments /\ effective a requestScope now = true /\ inherits in_map (ra_roleKey a) r.

Lemma walk_assignment_spec a c : permissions_ok (co_permissions c) ->
  exists c', walk_assignment roles requestScope now (Some c) a = Some c' /\ permissions_ok (co_permissions c') /\ collected_le c c' /\
    collected_from (granting [a]) c c' /\ forall r, granting [a] r -> contributed r c'.
Proof.
  intros Hc. unfold walk_assignment. cbn [mbind option_bind]. destruct (effective a requestScope now) eqn:He.
  - destruct (collectRole_total (S (size roles)) (ra_roleKey a) ∅ c) as [c' Hc'].
    { rewrite difference_empty_L, size_dom. lia. }
    destruct (collectRole_spec _ _ _ _ _ Hc' Hc) as (H1 & H2 & H3 & seen' & H4 & H5); [by intros k r ?%elem_of_empty|].
    exists c'. split_and!; try done.
    + eapply collected_from_mono; [|exact H3]. intros r Hr. exists a. split; [left|done].
    + intros r (a' & ->%list_elem_of_singleton & _ & Hr). eapply walked_contributed; [done| |done]. set_solver.
  - exists c. split_and!; try done; [split; by left|]. intros r (a' & ->%list_elem_of_singleton & ? & _). congruence.
Qed.

Lemma walk_assignments_spec l c : permissions_ok (co_permissions c) ->
  exists c', foldl (walk_assignment roles requestScope now) (Some c) l = Some c' /\ permissions_ok (co_permissions c') /\ collected_le c c' /\
    collected_from (granting l) c c' /\ forall r, granting l r -> contributed r c'.
Proof.
  revert c. induction l as [|a l IH]; intros c Hc.
  - exists c. split_and!; try done; [split; by left|]. intros r (a & ?%elem_of_nil & _). done.
  - destruct (walk_assignment_spec a c Hc) as (c1 & E1 & H1 & H2 & H3 & H4).
    destruct (IH c1 H1) as (c2 & E2 & H5 & H6 & H7 & H8). exists c2. cbn [foldl]. rewrite E1. split_and!; try done; [by etrans| |].
    + eapply collected_from_trans; (eapply collected_from_mono; [|done]); intros r (a' & Hin & ?); exists a'; split; try done.
      * apply list_elem_of_singleton in Hin as ->. left.
      * by right.
    + intros r (a' & [-> |Hin]%elem_of_cons & ?).
      * eapply contributed_le; [done|]. apply H4. exists a. split; [left|done].
      * apply H8. by exists a'.
Qed.

Lemma resolve_spec assignments :
  exists e, resolve assignments roles requestScope now = Some e /\
    (forall s, s ∈ ea_permissions e <-> exists r p, granting assignments r /\ p ∈ ro_permissions r /\ PermissionSpec_parse p = Ok s) /\
    (forall k, k ∈ ea_roleKeys e <-> exists r, granting assignments r /\ ro_key r = k).
Proof.
  destruct (walk_assignments_spec assignments (mkCollected [] [])) as (c & E & H1 & _ & [H2 H3] & H4).
  { by intros k s ?%elem_of_nil. }
  unfold resolve. rewrite E. eexists. split; [reflexivity|]. cbn. split.
  - intros s. split.
    + intros ([p s'] & -> & Hin)%list_elem_of_fmap. destruct (H3 _ _ Hin) as [[]%elem_of_nil|(r & ? & ? & ?)]. by exists r, p.
    + intros (r & p & Hr & Hp & Hs). apply list_elem_of_fmap. exists (p, s). split; [done|]. by apply (H4 r Hr).
  - intros k. split.
    + intros Hin. destruct (H2 _ Hin) as [[]%elem_of_nil|(r & ? & ?)]. by exists r.
    + intros (r & Hr & <-). apply (H4 r Hr).
Qed.
End walk.

(** ** What the loader reaches *)

Section closure.
Context (rows : list RoleProps) (Huniq : NoDup (ro_key <$> rows)).

Definition loaded (m : gmap string RoleProps) : Prop := forall k r, m !! k = Some r -> r ∈ rows /\ ro_key r = k.
Definition reached (m : gmap string RoleProps) (frontier : list string) (k : string) : Prop :=
  is_Some (m !! k) \/ k ∈ frontier \/ forall r, r ∈ rows -> ro_key r <> k.
(** The parents of what is loaded are loaded, about to be, or not stored. *)
Definition pending (m : gmap string RoleProps) (frontier : list string) : Prop :=
  forall k r p, m !! k = Some r -> ro_parentKey r = Some p -> reached m frontier p.

Lemma loaded_size m : loaded m -> (size m <= length rows)%nat.
Proof.
  intros Hm. rewrite <- size_dom. transitivity (size (list_to_set (ro_key <$> rows) : gset string)).
  - apply subseteq_size. intros k [r Hr]%elem_of_dom. apply elem_of_list_to_set, list_elem_of_fmap. destruct (Hm k r Hr). by exists r.
  - rewrite size_list_to_set by done. by rewrite length_fmap.
Qed.

Lemma load_found_spec found m next : (forall r, r ∈ found -> r ∈ rows) -> loaded m ->
  let '(m', next') := foldl load_found (m, next) found in
  loaded m' /\ m ⊆ m' /\ (forall r, r ∈ found -> is_Some (m' !! ro_key r)) /\ (forall k, k ∈ next -> k ∈ next') /\
  (forall k, is_Some (m' !! k) -> is_Some (m !! k) \/ exists r, r ∈ found /\ ro_key r = k) /\
  (forall k r p, m' !! k = Some r -> m !! k = None -> ro_parentKey r = Some p -> is_Some (m' !! p) \/ p ∈ next').
Proof.
  revert m next. induction found as [|r found IH]; intros m next Hf Hm; cbn [foldl].
  { split_and!; try done; [by intros r ?%elem_of_nil|by left|]. intros k r p H1 H2. congruence. }
  assert (Hr : r ∈ rows) by (apply Hf; left). assert (Hf' : forall r', r' ∈ found -> r' ∈ rows) by (intros r' ?; apply Hf; by right).
  unfold load_found at 2. case_bool_decide as Hk.
  - specialize (IH m next Hf' Hm). destruct (foldl load_found (m, next) found) as [m' next'].
    destruct IH as (H1 & H2 & H3 & H4 & H5 & H6). split_and!; try done.
    + intros r' [-> |?]%elem_of_cons; [|by apply H3]. destruct Hk as [x Hx]. exists x. by eapply lookup_weaken.
    + intros k Hk'. destruct (H5 k Hk') as [?|(r' & ? & ?)]; [by left|right]. exists r'. split; [by right|done].
  - apply eq_None_not_Some in Hk. set (m1 := <[ro_key r := r]> m).
    set (next1 := match ro_parentKey r with Some p => if bool_decide (m1 !! p = None) then next ++ [p] else next | None => next end).
    assert (Hm1 : loaded m1).
    { intros k r' [[<- <-]|[_ ?]]%lookup_insert_Some; [done|by apply Hm]. }
    assert (Hsub : m ⊆ m1) by by apply insert_subseteq.
    specialize (IH m1 next1 Hf' Hm1). change (ro_key r) with (ro_key r) in *. fold m1. fold next1.
    destruct (foldl load_found (m1, next1) found) as [m' next']. destruct IH as (H1 & H2 & H3 & H4 & H5 & H6).
    assert (Hr' : m' !! ro_key r = Some r) by (eapply lookup_weaken; [apply lookup_insert_eq|done]). split_and!; try done.
    + by etrans.
    + intros r' [-> |?]%elem_of_cons; [by eexists|by apply H3].
    + intros k Hin. apply H4. unfold next1. destruct (ro_parentKey r); [|done]. case_bool_decide; [|done]. apply elem_of_app. by left.
    + intros k Hk'. destruct (H5 k Hk') as [[x Hx]|(r' & ? & ?)]; [|right; exists r'; split; [by right|done]].
      apply lookup_insert_Some in Hx as [[<- _]|[_ ?]]; [right; exists r; split; [left|done]|left; by eexists].
    + intros k r0 p Hk0 Hk1 Hp. destruct (decide (k = ro_key r)) as [-> |Hne]; [|apply (H6 k r0 p); try done; unfold m1; by rewrite lookup_insert_ne].
      assert (r0 = r) as -> by congruence. unfold next1 in H4. rewrite Hp in H4. case_bool_decide as Hn.
      * right. apply H4. apply elem_of_app. right. left.
      * left. apply not_eq_None_Some in Hn as [x Hx]. exists x. by eapply lookup_weaken.
Qed.

Lemma elem_of_findByKeys keys r : r ∈ findByKeys rows keys <-> ro_key r ∈ keys /\ r ∈ rows.
Proof. unfold findByKeys. by rewrite list_elem_of_filter. Qed.

Lemma load_rounds_spec fuel frontier m :
  (length rows < fuel + size m)%nat -> loaded m -> pending m frontier -> (forall k, k ∈ frontier -> m !! k = None) ->
  exists m', load_rounds fuel rows frontier m = Some m' /\ loaded m' /\ m ⊆ m' /\ pending m' [] /\ forall k, k ∈ frontier -> reached m' [] k.
Proof.
  revert frontier m. induction fuel as [|fuel IH]; intros frontier m Hfuel Hm Hpend Hfr.
  { assert (H := loaded_size m Hm). lia. }
  destruct frontier as [|k0 fr].
  { exists m. split_and!; try done. by intros k ?%elem_of_nil. }
  set (frontier := k0 :: fr) in *. change (load_rounds (S fuel) rows frontier m) with
    (let '(map, next) := foldl load_found (m, []) (findByKeys rows frontier) in
     load_rounds fuel rows (filter (fun k => map !! k = None) (unique next)) map).
  assert (Hs := load_found_spec (findByKeys rows frontier) m [] (fun r Hr => proj2 (proj1 (elem_of_findByKeys _ r) Hr)) Hm).
  assert (Hempty : findByKeys rows frontier = [] \/ exists r, r ∈ findByKeys rows frontier).
  { destruct (findByKeys rows frontier) as [|r ?]; [by left|right; exists r; left]. }
  destruct (foldl load_found (m, []) (findByKeys rows frontier)) as [m1 next] eqn:Efold.
  destruct Hs as (H1 & H2 & H3 & _ & H5 & H6).
  assert (Hreach : forall k, k ∈ frontier -> reached m1 [] k).
  { intros k Hk. destruct (list_find (fun r => ro_key r = k) rows) as [[i r]|] eqn:Ef.
    - apply list_find_Some in Ef as (Hi & <- & _). left. apply H3, elem_of_findByKeys. split; [done|]. by eapply list_elem_of_lookup_2.
    - right; right. intros r Hr. apply list_find_None in Ef. rewrite Forall_forall in Ef. by apply Ef. }
  assert (Hpend1 : pending m1 (filter (fun k => m1 !! k = None) (unique next))).
  { intros k r p Hk Hp. destruct (m !! k) as [r0|] eqn:Hk0.
    - assert (r0 = r) as -> by (eapply lookup_weaken in Hk0; [|exact H2]; congruence).
      destruct (Hpend k r p Hk0 Hp) as [[x Hx]|[Hin|?]]; [left; exists x; by eapply lookup_weaken| |by right; right].
      destruct (Hreach p Hin) as [?|[?%elem_of_nil|?]]; [by left|done|by right; right].
    - destruct (H6 k r p Hk Hk0 Hp) as [?|Hin]; [by left|]. destruct (m1 !! p) eqn:Hp1; [left; by eexists|right; left].
      apply list_elem_of_filter. split; [done|]. by apply elem_of_unique. }
  assert (Hlift : forall m', m1 ⊆ m' -> forall k, reached m1 [] k -> reached m' [] k).
  { intros m' Hsub k [[x Hx]|[?%elem_of_nil|?]]; [left; exists x; by eapply lookup_weaken|done|by right; right]. }
  destruct Hempty as [Hnil|[r Hr]].
  - rewrite Hnil in Efold. injection Efold as <- <-. destruct fuel; exists m; by split_and!.
  - assert (Hlt : (size m < size m1)%nat).
    { rewrite <- !size_dom. apply subset_size. split; [by apply subseteq_dom|]. intros Hd.
      assert (Hin : ro_key r ∈ dom m1) by by apply elem_of_dom, H3. apply Hd, elem_of_dom in Hin.
      apply elem_of_findByKeys in Hr as [Hr _]. apply Hfr in Hr. rewrite Hr in Hin. by destruct Hin. }
    destruct (IH (filter (fun k => m1 !! k = None) (unique next)) m1) as (m' & E & H7 & H8 & H9 & H10); try done; [lia|by intros k [? _]%list_elem_of_filter|].
    exists m'. split_and!; try done; [by etrans|]. intros k Hk. by apply Hlift, Hreach.
Qed.

Definition stored_role (r : RoleProps) : Prop := r ∈ rows.

(** The roles loaded for some keys inherit what the stored ones do. *)
Lemma loadRoleClosure_spec keys :
  exists m, loadRoleClosure rows keys = Some m /\ (forall k r, m !! k = Some r -> ro_key r = k) /\
    forall k r, k ∈ keys -> inherits (in_map m) k r <-> inherits stored_role k r.
Proof.
  destruct (load_rounds_spec (S (length rows)) (unique keys) ∅) as (m & E & Hm & _ & Hp & Hr); [lia|done|done|done|].
  exists m. split; [exact E|]. split; [intros k r Hk; by apply Hm|]. intros k r Hk. split.
  - intros Hi. clear Hk. induction Hi as [r Hr0 Ha|r p r' Hr0 Ha Hpar _ IH]; econstructor; try done; by eapply Hm.
  - intros Hi. assert (Hk' : reached m [] k) by by apply Hr, elem_of_unique. clear Hk Hr E.
    assert (Hin : forall r, stored_role r -> reached m [] (ro_key r) -> in_map m r).
    { intros r0 Hr0 [[x Hx]|[?%elem_of_nil|Hno]]; [|done|by destruct (Hno r0 Hr0)]. destruct (Hm _ _ Hx) as [Hx1 Hx2].
      unfold in_map. rewrite Hx. f_equal. by apply (NoDup_fmap_elem ro_key rows). }
    induction Hi as [r Hr0 Ha|r p r' Hr0 Ha Hpar _ IH]; [constructor; auto|]. eapply inherits_parent; [by apply Hin|done..|].
    apply IH. by apply (Hp (ro_key r) r); [apply Hin|].
Qed.
End closure.

(** ** Roles and assignments over their calls *)

Inductive RoleOp := rl_grant (permission : string) | rl_revoke (permission : string) | rl_archive.
Definition role_exec (c : RoleOp * string * Z) : M Role unit :=
  let '(op, eid, at_) := c in
  match op with
  | rl_grant p => grantPermission p eid at_
  | rl_revoke p => revokePermission p eid at_
  | rl_archive => role_archive eid at_
  end.

Definition well_formed (p : string) : Prop := exists s, PermissionSpec_parse p = Ok s.
Definition permissions_valid (r : RoleProps) : Prop := NoDup (ro_permissions r) /\ Forall well_formed (ro_permissions r).

Lemma parsed_well_formed p s : PermissionSpec_parse p = Ok s -> PermissionSpec_toString s = p /\ well_formed (PermissionSpec_toString s).
Proof. intros H. assert (p = PermissionSpec_toString s) as <- by (by apply PermissionSpec_parse_Ok in H as [? _]). by split; [|exists s]. Qed.

Lemma valid_permuted ps ps' : ps' ≡ₚ ps -> NoDup ps /\ Forall well_formed ps -> NoDup ps' /\ Forall well_formed ps'.
Proof. intros Hp. by rewrite Hp. Qed.

Lemma normalizePermissions_valid ps out : normalizePermissions ps = Ok out -> NoDup out /\ Forall well_formed out /\ forall p, p ∈ out <-> p ∈ ps.
Proof.
  unfold normalizePermissions. set (f := fun out permission => _).
  assert (H : forall acc out, NoDup acc -> Forall well_formed acc -> foldM f acc ps = Ok out -> NoDup out /\ Forall well_formed out /\ forall p, p ∈ out <-> p ∈ acc \/ p ∈ ps).
  { clear out. induction ps as [|p ps IH]; intros acc out H1 H2 H; cbn in H.
    - injection H as <-. split_and!; try done. intros p. rewrite elem_of_nil. tauto.
    - apply result_bind_Ok in H as (acc' & Hacc & H). unfold f in Hacc. destruct (PermissionSpec_parse p) as [s|e] eqn:Hs; [|done].
      destruct (parsed_well_formed p s Hs) as [E Hw]. rewrite E in *. injection Hacc as <-. apply IH in H as (H3 & H4 & H5).
      + split_and!; try done. intros q. rewrite H5, elem_of_cons. case_bool_decide; [naive_solver|]. rewrite elem_of_app, list_elem_of_singleton. tauto.
      + case_bool_decide; [done|]. apply NoDup_app. split; [done|]. split; [|apply NoDup_singleton]. by intros x Hx ->%list_elem_of_singleton.
      + case_bool_decide; [done|]. apply Forall_app. by split; [|apply Forall_singleton]. }
  intros (l & El & [= <-])%result_bind_Ok.
  destruct (H [] l) as (H1 & H2 & H3); [apply NoDup_nil_2|done|done|].
  rewrite (sort_by_perm string_le l). split_and!; try done. intros p. rewrite (sort_by_perm string_le l), H3, elem_of_nil. tauto.
Qed.

Lemma role_exec_Ok c a u a' : role_exec c a = (Ok u, a') ->
  agg_props a' = agg_props a \/
  (ro_status (agg_props a) = role_active /\
   (agg_props a' = with_role_status role_archived (agg_props a) \/
    exists ps, agg_props a' = with_permissions ps (agg_props a) /\ (permissions_valid (agg_props a) -> NoDup ps /\ Forall well_formed ps))).
Proof.
  destruct c as [[op eid] at_]. destruct op as [p|p|]; cbn; unfold grantPermission, revokePermission, role_archive, role_ensureActive, role_emit; intros H; agg_inv.
  - destruct (PermissionSpec_parse p) as [s|e] eqn:Hs; agg_inv. destruct (parsed_well_formed p s Hs) as [E Hw]. case_bool_decide as Hin; agg_inv; [by left|].
    right. split; [done|]. right. eexists. split; [done|]. intros [H1 H2]. eapply valid_permuted; [apply sort_by_perm|]. split.
    + apply NoDup_app. split; [done|]. split; [|apply NoDup_singleton]. by intros x Hx ->%list_elem_of_singleton.
    + apply Forall_app. by split; [|apply Forall_singleton].
  - case_bool_decide as Hin; agg_inv; [|by left]. right. split; [done|]. right. eexists. split; [done|]. intros [H1 H2].
    split; [by apply NoDup_filter|]. rewrite Forall_forall in *. intros x [_ Hx]%list_elem_of_filter. by apply H2.
  - case_bool_decide as Hs; agg_inv; [by left|]. right. split; [by destruct (ro_status _)|by left].
Qed.

Inductive AssignmentOp := aop_revoke | aop_expire.
Definition assignment_exec (c : AssignmentOp * string * Z) : M RoleAssignment unit :=
  let '(op, eid, at_) := c in
  match op with
  | aop_revoke => assignment_revoke eid at_
  | aop_expire => assignment_expireIfDue at_ eid;; mret tt
  end.

(** ** Properties *)

(** The evaluation always comes to an end. *)
Lemma effective_authorization_total rows assignments requestScope now :
  NoDup (ro_key <$> rows) -> is_Some (effective_authorization rows assignments requestScope now).
Proof.
  intros Hn. destruct (loadRoleClosure_spec rows Hn (ra_roleKey <$> assignments)) as (m & Em & Hk & _).
  destruct (resolve_spec m Hk requestScope now assignments) as (e & Ee & _). unfold effective_authorization. rewrite Em. cbn. by eexists.
Qed.

(** C21: access is exactly what the active roles grant. Loading the roles of a principal's assignments and
    resolving them always comes to an end, cyclic parents included, and the answer is yes exactly when some
    assignment that is active, not expired and whose scope contains the request's leads, through active
    roles and their parents, to a stored role with a well-formed permission that implies the required one. *)
Theorem access_is_what_active_roles_grant rows assignments requestScope now required :
  NoDup (ro_key <$> rows) ->
  exists b, authorized rows assignments requestScope now required = Some b /\
    (b = true <-> exists a r p held, a ∈ assignments /\ ra_status a = as_active /\
      (forall t, ra_expiresAt a = Some t -> now < t) /\ scope_contains (ra_scope a) requestScope = true /\
      inherits (fun r => r ∈ rows) (ra_roleKey a) r /\ p ∈ ro_permissions r /\ PermissionSpec_parse p = Ok held /\ implies held required = true).
Proof.
  intros Hn. destruct (loadRoleClosure_spec rows Hn (ra_roleKey <$> assignments)) as (m & Em & Hk & Hin).
  destruct (resolve_spec m Hk requestScope now assignments) as (e & Ee & Hp & _).
  unfold authorized, effective_authorization. rewrite Em. cbn. rewrite Ee. cbn. eexists. split; [reflexivity|].
  assert (Heff : forall a, effective a requestScope now = true <-> ra_status a = as_active /\ (forall t, ra_expiresAt a = Some t -> now < t) /\
    scope_contains (ra_scope a) requestScope = true).
  { intros a. unfold effective, isActiveAt. rewrite !andb_true_iff, bool_decide_eq_true.
    destruct (ra_expiresAt a) as [t|]; rewrite ?Z.ltb_lt; naive_solver. }
  unfold isAuthorized. rewrite existsb_exists. setoid_rewrite <- list_elem_of_In. split.
  - intros (held & (r & p & (a & Ha & (? & ? & ?)%Heff & Hi) & Hpr & Hs)%Hp & Himp). exists a, r, p, held. split_and!; try done.
    apply Hin; [by apply list_elem_of_fmap_2|done].
  - intros (a & r & p & held & Ha & ? & ? & ? & Hi & Hpr & Hs & Himp). exists held. split; [|done]. apply Hp. exists r, p. split_and!; try done.
    exists a. split_and!; [done|by apply Heff|]. apply Hin; [by apply list_elem_of_fmap_2|done].
Qed.

Lemma assignment_exec_Ok c b v b' : assignment_exec c b = (Ok v, b') ->
  ra_expiresAt (agg_props b') = ra_expiresAt (agg_props b) /\
  (ra_status (agg_props b') = as_active -> ra_status (agg_props b) = as_active) /\
  (c.1.1 = aop_expire -> ra_status (agg_props b) = as_active -> ra_status (agg_props b') = as_active \/
    exists t, ra_expiresAt (agg_props b) = Some t /\ t <= c.2).
Proof.
  destruct c as [[op eid] at_]. destruct op; cbn; unfold assignment_revoke, assignment_expireIfDue, assignment_emit; intros H; agg_inv.
  - case_bool_decide as Hs; cbn in H; agg_inv; split_and!; try done; auto.
  - destruct (ra_status (agg_props b)) eqn:Hs, (ra_expiresAt (agg_props b)) as [t|] eqn:Ht; agg_inv;
      try (destruct (Z.ltb_spec at_ t)); agg_inv; cbn; rewrite ?Hs, ?Ht; split_and!; auto; try done. intros _ _. right. by exists t.
Qed.

(** A role only ever holds well-formed permissions, each once. Defined with any permissions that are
    accepted, and after any successful grants, revocations and archivings, every permission parses and none
    occurs twice; its key, scope and parent are those it was defined with, and once archived it never
    changes again. *)
Theorem role_permissions_stay_well_formed id key name scope permissions parentKey isTemplate eid at_ r0 before after u u' r r' :
  role_define id key name scope permissions parentKey isTemplate eid at_ = Ok r0 ->
  run_ops role_exec before r0 = (Ok u, r) -> run_ops role_exec after r = (Ok u', r') ->
  NoDup (ro_permissions (agg_props r')) /\ Forall well_formed (ro_permissions (agg_props r')) /\
  ro_key (agg_props r') = trim key /\ ro_scope (agg_props r') = scope_or_platform scope /\ ro_parentKey (agg_props r') = parentKey /\
  (ro_status (agg_props r) = role_archived -> agg_props r' = agg_props r).
Proof.
  intros H0 H1 H2. assert (Hrun := run_ops_app _ _ _ _ _ _ _ _ H1 H2).
  set (I := fun a : Role => permissions_valid (agg_props a) /\ ro_key (agg_props a) = trim key /\
    ro_scope (agg_props a) = scope_or_platform scope /\ ro_parentKey (agg_props a) = parentKey).
  assert (Hr0 : I r0).
  { unfold role_define in H0. destruct (blank key), (blank name); try done. destruct (normalizePermissions permissions) as [ps|] eqn:Hps; [|done].
    injection H0 as <-. apply normalizePermissions_valid in Hps as (? & ? & _). done. }
  assert (Hr' : I r').
  { eapply (run_ops_invariant I); [|exact Hr0|exact Hrun]. intros c s v s' _ (Hv & Hk) [E|(_ & [E|(ps & E & Hps)])]%role_exec_Ok;
      unfold I; rewrite E; [done..|]. split; [by apply Hps|done]. }
  destruct Hr' as ([Hd Hf] & Hk & Hs & Hp). split_and!; try done. intros Ha. clear - H2 Ha.
  assert (H : agg_props r' = agg_props r /\ ro_status (agg_props r') = role_archived); [|tauto].
  eapply (run_ops_invariant (fun a => agg_props a = agg_props r /\ ro_status (agg_props a) = role_archived)); [|done|exact H2].
  intros c s v s' _ [E1 E2] [E|(Hs & _)]%role_exec_Ok; [by rewrite E|congruence].
Qed.

(** A grant that has ended stays ended. Once an assignment is not active at some time, because it was
    revoked, was swept or has simply passed its expiry, no later calls make it active at that or any later
    time; a temporary elevation ends at its expiry whether or not the sweep ever ran, and until then only
    a revocation ends it. *)
Theorem ended_grants_stay_ended id principalRef roleKey grantedBy scope expiresAt reason eid at_ a0 before after u u' a a' now now' :
  assignment_grant id principalRef roleKey grantedBy scope expiresAt reason eid at_ = Ok a0 ->
  run_ops assignment_exec before a0 = (Ok u, a) -> run_ops assignment_exec after a = (Ok u', a') -> now <= now' ->
  (isActiveAt (agg_props a) now = false -> isActiveAt (agg_props a') now' = false) /\
  (forall t, expiresAt = Some t -> t <= now' -> isActiveAt (agg_props a') now' = false) /\
  (Forall (fun c => c.1.1 = aop_expire /\ c.2 <= now') after -> (forall t, expiresAt = Some t -> now' < t) ->
   isActiveAt (agg_props a) now' = true -> isActiveAt (agg_props a') now' = true).
Proof.
  intros H0 H1 H2 Hle.
  assert (Hexp : forall l b v b', run_ops assignment_exec l b = (Ok v, b') -> ra_expiresAt (agg_props b') = ra_expiresAt (agg_props b)).
  { intros l b v b' Hl. eapply (run_ops_invariant (fun x => ra_expiresAt (agg_props x) = ra_expiresAt (agg_props b))); [|done|exact Hl].
    intros c s w s' _ E Hc. by destruct (assignment_exec_Ok c s w s' Hc) as [-> _]. }
  assert (E0 : ra_expiresAt (agg_props a0) = expiresAt).
  { unfold assignment_grant in H0. destruct (blank principalRef), (blank roleKey), (blank grantedBy); try done.
    by destruct (match expiresAt with Some t => t <=? at_ | None => false end); [|injection H0 as <-]. }
  assert (E2 := Hexp _ _ _ _ H2). assert (E1 := Hexp _ _ _ _ H1). rewrite E0 in E1. unfold isActiveAt. rewrite E2, E1. split_and!.
  - rewrite !andb_false_iff. intros [Hs|Ht].
    + left. apply bool_decide_eq_false in Hs. apply bool_decide_eq_false_2. revert Hs.
      eapply (run_ops_invariant (fun x => ra_status (agg_props a) <> as_active -> ra_status (agg_props x) <> as_active)); [|done|exact H2].
      intros c s w s' _ Hi Hc Hs Ha. by apply (Hi Hs), (assignment_exec_Ok c s w s' Hc).
    + right. destruct expiresAt; [|done]. lia.
  - intros t -> Ht. apply andb_false_iff. right. lia.
  - intros Hsweeps Hexpiry [Ha _]%andb_true_iff. apply bool_decide_eq_true in Ha. apply andb_true_iff.
    split; [|destruct expiresAt as [t|]; [by apply Z.ltb_lt, Hexpiry|done]]. apply bool_decide_eq_true.
    eapply (run_ops_invariant (fun x => ra_expiresAt (agg_props x) = expiresAt /\ ra_status (agg_props x) = as_active)); [|done|exact H2].
    rewrite Forall_forall in Hsweeps. intros c s w s' Hin [E Hs] Hc. destruct (Hsweeps c Hin) as [Ec Et].
    destruct (assignment_exec_Ok c s w s' Hc) as (-> & _ & Hx). split; [done|]. destruct (Hx Ec Hs) as [?|(t & Ex & Hlt)]; [done|].
    rewrite E in Ex. specialize (Hexpiry t Ex). lia.
Qed.

(** ** Witnesses *)

(** Two roles that are each other's parents, and a third that is archived. *)
Definition sample_roles : list RoleProps :=
  [mkRole "manager" "Manager" platform ["refunds:approve"] (Some "staff") false role_active;
   mkRole "staff" "Staff" platform ["orders:*"; "not a permission"] (Some "manager") false role_active;
   mkRole "intern" "Intern" platform ["*:*"] None false role_archived].
Definition tenant_scope : SecurityScope := mkScope None (Some "t1") None None.
Definition workspace_scope : SecurityScope := mkScope None (Some "t1") (Some "w1") None.
Definition sample_assignments : list RoleAssignmentProps :=
  [mkAssignment "u1" "intern" platform "root" as_active None None 0;
   mkAssignment "u1" "manager" tenant_scope "root" as_active (Some 100) None 0].

(** The manager may read the orders of a workspace of the tenant, until the elevation expires. *)
Lemma access_is_what_active_roles_grant_witness :
  authorized sample_roles sample_assignments workspace_scope 100 (mkPermission "orders" "read") = Some false /\
  authorized sample_roles sample_assignments workspace_scope 99 (mkPermission "orders" "read") = Some true /\
  exists a r p held, a ∈ sample_assignments /\ inherits (fun r => r ∈ sample_roles) (ra_roleKey a) r /\ p ∈ ro_permissions r /\
    PermissionSpec_parse p = Ok held /\ implies held (mkPermission "orders" "read") = true.
Proof.
  destruct (access_is_what_active_roles_grant sample_roles sample_assignments workspace_scope 99 (mkPermission "orders" "read")) as (b & Hb & Hiff).
  { by apply (bool_decide_eq_true_1 _); vm_compute. }
  assert (Hs : authorized sample_roles sample_assignments workspace_scope 99 (mkPermission "orders" "read") = Some true) by by vm_compute.
  split; [by vm_compute|]. split; [exact Hs|]. rewrite Hs in Hb. injection Hb as <-.
  destruct (proj1 Hiff eq_refl) as (a & r & p & held & ? & _ & _ & _ & ? & ? & ? & ?). exists a, r, p, held. auto 10.
Defined.

Definition sample_role : Role := unwrapOr (role_define "r1" " staff " "Staff" None ["b:read"; "a:write"; "b:read"] None false "e0" 0) (new_agg (mkRole "" "" platform [] None false role_active) "").
Definition role_before : list (RoleOp * string * Z) := [(rl_grant "c:*", "e1", 1); (rl_revoke "b:read", "e2", 2); (rl_archive, "e3", 3)].

Lemma role_permissions_stay_well_formed_witness :
  ro_permissions (agg_props (run_ops role_exec role_before sample_role).2) = ["a:write"; "c:*"] /\
  Forall well_formed (ro_permissions (agg_props (run_ops role_exec role_before sample_role).2)).
Proof.
  split; [by vm_compute|].
  apply (role_permissions_stay_well_formed "r1" " staff " "Staff" None ["b:read"; "a:write"; "b:read"] None false "e0" 0 sample_role
    role_before [(rl_archive, "e4", 4)] tt tt (run_ops role_exec role_before sample_role).2); by vm_compute.
Defined.

Definition sample_elevation : RoleAssignment :=
  unwrapOr (assignment_grant "a1" "u1" "staff" "root" None (Some 100) None "e0" 0) (new_agg (mkAssignment "" "" platform "" as_expired None None 0) "").

Lemma ended_grants_stay_ended_witness :
  isActiveAt (agg_props sample_elevation) 99 = true /\ isActiveAt (agg_props sample_elevation) 100 = false /\
  isActiveAt (agg_props (assignment_exec (aop_expire, "e1", 100) sample_elevation).2) 120 = false.
Proof.
  split; [by vm_compute|]. split; [by vm_compute|].
  apply (ended_grants_stay_ended "a1" "u1" "staff" "root" None (Some 100) None "e0" 0 sample_elevation [] [(aop_expire, "e1", 100)]
    tt tt sample_elevation (assignment_exec (aop_expire, "e1", 100) sample_elevation).2 100 120); by vm_compute.
Defined.
