(* ===== verification/Policies.v ===== *)
(** Zero-trust policies: [services/security/src/domain]. Resources and the conditions that match them,
    conditions composed with reusable fragments ([policy-expression.ts]), versioned policies
    ([policy.ts]), the evaluator that decides a request ([zero-trust.ts]), attribute constraints
    ([abac.ts]) and the risk and trust scores ([risk.ts]). *)
From Stdlib Require Import Ascii.
From S2P Require Import Prelude Kernel Access.

#[global] Open Scope Z_scope.

(** ** Resources ([value-objects/resource-urn.ts]) *)

Record ResourceUrn := mkUrn { urn_context : string; urn_type : string; urn_id : string }.
#[export] Instance ResourceUrn_eq_dec : EqDecision ResourceUrn.
Proof. solve_decision. Defined.

Definition is_alnum (c : ascii) : bool := is_lower c || is_upper c || is_digit c.
(** A star, or a letter or digit followed by letters, digits, underscores, dots and hyphens. *)
Definition SEGMENT (s : string) : bool :=
  bool_decide (s = "*") ||
  match s with
  | EmptyString => false
  | String c s' => is_alnum c && all_chars (fun c => is_alnum c || bool_decide (c = "_"%char) || bool_decide (c = "."%char) || bool_decide (c = "-"%char)) s'
  end.

Definition urn_create (context type_ id : string) : result ResourceUrn :=
  let check field value :=
    if SEGMENT value then Ok tt
    else invalid ("resource urn " +:+ field +:+ " is invalid") field "must be '*' or [A-Za-z0-9][A-Za-z0-9_.-]*" in
  _ ← check "context" context;
  _ ← check "type" type_;
  _ ← check "id" id;
  Ok (mkUrn context type_ id).

Definition urn_parse (urn : string) : result ResourceUrn :=
  match split_on ":"%char urn with
  | [lumo; context; type_; id] =>
      if bool_decide (lumo = "lumo") then urn_create context type_ id
      else invalid "resource urn is malformed" "urn" "expected lumo:<context>:<type>:<id>"
  | _ => invalid "resource urn is malformed" "urn" "expected lumo:<context>:<type>:<id>"
  end.

Definition urn_matches (u pattern : ResourceUrn) : bool :=
  seg (urn_context pattern) (urn_context u) && seg (urn_type pattern) (urn_type u) && seg (urn_id pattern) (urn_id u).

(** ** Leaf conditions ([policy-condition.ts]) *)

Record PolicyCondition := mkCondition {
  pc_minRisk : option Z; pc_maxTrust : option Z; pc_requireDeviceTrust : option bool; pc_environments : option (list string); pc_resource : option string }.
Definition always : PolicyCondition := mkCondition None None None None None.

(** The context of a decision; the conditions read its last five fields. *)
Record ZeroTrustContext := mkContext {
  zt_principalActive : bool; zt_sessionValid : bool; zt_permissionGranted : bool;
  zt_deviceTrusted : bool; zt_risk : Z; zt_trust : Z; zt_environment : option string; zt_resource : option ResourceUrn }.

Definition evaluateLeaf (condition : PolicyCondition) (context : ZeroTrustContext) : bool :=
  if match pc_minRisk condition with Some r => zt_risk context <? r | None => false end then false
  else if match pc_maxTrust condition with Some t => t <? zt_trust context | None => false end then false
  else if bool_decide (pc_requireDeviceTrust condition = Some true) && zt_deviceTrusted context then false
  else if match pc_environments condition with
          | Some es => match zt_environment context with Some e => negb (bool_decide (e ∈ es)) | None => true end
          | None => false
          end then false
  else match pc_resource condition with
       | None => true
       | Some pattern =>
           match urn_parse pattern, zt_resource context with
           | Ok p, Some r => urn_matches r p
           | _, _ => false
           end
       end.

(** ** Composed conditions ([policy-expression.ts]) *)

Inductive PolicyExpression :=
| p_leaf (leaf : PolicyCondition)
| p_allOf (allOf : list PolicyExpression)
| p_anyOf (anyOf : list PolicyExpression)
| p_not (e : PolicyExpression)
| p_fragment (fragment : string).

Abbreviation FragmentResolver := (string -> option PolicyExpression).
Definition NO_FRAGMENTS : FragmentResolver := fun _ => None.
Definition MAX_DEPTH : nat := 64.

(** [every] and [some] of a predicate that updates the fragments seen. *)
Definition every_seen (f : PolicyExpression -> gset string -> bool * gset string) : list PolicyExpression -> gset string -> bool * gset string :=
  fix go es seen :=
    match es with
    | [] => (true, seen)
    | e :: es' => let '(b, seen') := f e seen in if b then go es' seen' else (false, seen')
    end.
Definition some_seen (f : PolicyExpression -> gset string -> bool * gset string) : list PolicyExpression -> gset string -> bool * gset string :=
  fix go es seen :=
    match es with
    | [] => (false, seen)
    | e :: es' => let '(b, seen') := f e seen in if b then (true, seen') else go es' seen'
    end.

(** The fuel is [MAX_DEPTH + 1 - depth]: out of fuel is beyond the maximal depth. *)
Fixpoint walk_expression (context : ZeroTrustContext) (resolver : FragmentResolver) (fuel : nat) (expression : PolicyExpression) (seen : gset string) :
    bool * gset string :=
  match fuel with
  | O => (false, seen)
  | S fuel =>
      match expression with
      | p_leaf leaf => (evaluateLeaf leaf context, seen)
      | p_allOf es => every_seen (walk_expression context resolver fuel) es seen
      | p_anyOf es => some_seen (walk_expression context resolver fuel) es seen
      | p_not e => let '(b, seen') := walk_expression context resolver fuel e seen in (negb b, seen')
      | p_fragment f =>
          if bool_decide (f ∈ seen) then (false, seen)
          else
            let seen := {[f]} ∪ seen in
            match resolver f with
            | None => (false, seen)
            | Some e => walk_expression context resolver fuel e seen
            end
      end
  end.
Definition evaluate_expression (expression : PolicyExpression) (context : ZeroTrustContext) (resolver : FragmentResolver) : bool :=
  (walk_expression context resolver (S MAX_DEPTH) expression ∅).1.

(** ** Policies and their versions ([policy.ts]) *)

Inductive PolicyEffect := allow | challenge | block | review.
#[export] Instance PolicyEffect_eq_dec : EqDecision PolicyEffect.
Proof. solve_decision. Defined.
Definition effect_name (e : PolicyEffect) : string :=
  match e with allow => "allow" | challenge => "challenge" | block => "block" | review => "review" end.
Inductive PolicyMode := strict | balanced | relaxed | custom.
#[export] Instance PolicyMode_eq_dec : EqDecision PolicyMode.
Proof. solve_decision. Defined.
Inductive PolicyStatus := policy_draft | policy_active | policy_archived.
#[export] Instance PolicyStatus_eq_dec : EqDecision PolicyStatus.
Proof. solve_decision. Defined.
Definition policy_status_name (s : PolicyStatus) : string :=
  match s with policy_draft => "draft" | policy_active => "active" | policy_archived => "archived" end.

Record PolicyRule := mkRule {
  pr_id : string; pr_description : string; pr_when : PolicyCondition; pr_expr : option PolicyExpression; pr_effect : PolicyEffect }.
Record PolicyVersion := mkVersion { pv_version : Z; pv_rules : list PolicyRule; pv_defaultEffect : PolicyEffect; pv_publishedAt : Z }.

Definition DEFAULT_EFFECT_BY_MODE (m : PolicyMode) : option PolicyEffect :=
  match m with strict => Some block | balanced => Some allow | relaxed => Some allow | custom => None end.

Record PolicyProps := mkPolicy {
  po_key : string; po_name : string; po_mode : PolicyMode; po_status : PolicyStatus; po_versions : list PolicyVersion; po_activeVersion : option Z }.
Abbreviation Policy := (Aggregate PolicyProps SecurityChanged).

Definition policy_emit (event eid : string) (at_ : Z) : M Policy unit :=
  a ← gets (fun a : Policy => a);
  addDomainEvent eid at_ (mkSecurityChanged (agg_id a) "policy" (po_key (agg_props a)) event (policy_status_name (po_status (agg_props a)))).

Definition policy_define (id key name : string) (mode : PolicyMode) (eid : string) (at_ : Z) : result Policy :=
  if blank key then Err (BusinessRuleError "A policy needs a key")
  else if blank name then Err (BusinessRuleError "A policy needs a name")
  else
    let policy := new_agg (mkPolicy (trim key) (trim name) mode policy_draft [] None) id in
    Ok (policy_emit "security.policy.defined" eid at_ policy).2.

Definition published (v : PolicyVersion) (p : PolicyProps) : PolicyProps :=
  mkPolicy (po_key p) (po_name p) (po_mode p) policy_active (po_versions p ++ [v]) (Some (pv_version v)).
Definition with_policy_status (s : PolicyStatus) (p : PolicyProps) : PolicyProps :=
  mkPolicy (po_key p) (po_name p) (po_mode p) s (po_versions p) (po_activeVersion p).

Definition publishVersion (rules : list PolicyRule) (defaultEffect : option PolicyEffect) (eid : string) (at_ : Z) : M Policy PolicyVersion :=
  p ← gets (fun a : Policy => agg_props a);
  throw_if (bool_decide (po_status p = policy_archived)) (BusinessRuleError "An archived policy cannot publish a version");;
  match (match defaultEffect with Some e => Some e | None => DEFAULT_EFFECT_BY_MODE (po_mode p) end) with
  | None => throw (BusinessRuleError "A custom-mode policy requires an explicit defaultEffect")
  | Some defaultEffect =>
      throw_if (existsb (fun r => blank (pr_id r)) rules) (BusinessRuleError "Every policy rule needs an id");;
      let v := mkVersion (Z.of_nat (length (po_versions p)) + 1) rules defaultEffect at_ in
      set_props (published v);;
      policy_emit "security.policy.version_published" eid at_;;
      mret v
  end.

Definition policy_archive (eid : string) (at_ : Z) : M Policy unit :=
  s ← gets (fun a : Policy => po_status (agg_props a));
  if bool_decide (s = policy_archived) then mret tt
  else set_props (with_policy_status policy_archived);; policy_emit "security.policy.archived" eid at_.

Definition activePolicyVersion (p : PolicyProps) : option PolicyVersion :=
  match po_activeVersion p with
  | None => None
  | Some n => head (filter (fun v => pv_version v = n) (po_versions p))
  end.

(** ** The decision ([zero-trust.ts]) *)

Record ZeroTrustDecision := mkDecision {
  zd_effect : PolicyEffect; zd_reasons : list string; zd_matchedRuleIds : list string; zd_policyVersion : option Z }.

Definition EFFECT_RANK (e : PolicyEffect) : Z := match e with block => 3 | challenge => 2 | review => 1 | allow => 0 end.
Definition stronger (strongest e : PolicyEffect) : PolicyEffect := if EFFECT_RANK strongest <? EFFECT_RANK e then e else strongest.

Definition rule_matches (context : ZeroTrustContext) (fragments : FragmentResolver) (rule : PolicyRule) : bool :=
  match pr_expr rule with
  | Some e => evaluate_expression e context fragments
  | None => evaluateLeaf (pr_when rule) context
  end.

Definition zero_trust_evaluate (context : ZeroTrustContext) (policyVersion : option PolicyVersion) (fragments : FragmentResolver) : ZeroTrustDecision :=
  let version := pv_version <$> policyVersion in
  let blocked reason := mkDecision block [reason] [] version in
  if negb (zt_principalActive context) then blocked "principal is not active"
  else if negb (zt_sessionValid context) then blocked "no valid session"
  else if negb (zt_permissionGranted context) then blocked "permission not granted"
  else match policyVersion with
       | None => mkDecision allow ["gates passed; no active policy"] [] None
       | Some v =>
           let fired := filter (fun r => rule_matches context fragments r = true) (pv_rules v) in
           let candidates := match fired with [] => [pv_defaultEffect v] | _ => pr_effect <$> fired end in
           mkDecision (foldl stronger allow candidates)
             (match fired with
              | [] => ["default effect (" +:+ effect_name (pv_defaultEffect v) +:+ ")"]
              | _ => (fun r => pr_id r +:+ ": " +:+ pr_description r) <$> fired
              end)
             (pr_id <$> fired) version
       end.

(** ** Attribute constraints ([abac.ts]) *)

Inductive Dimension := d_principal | d_resource | d_environment.
Record AbacCondition := mkAbac {
  ab_principal : option (list (string * string)); ab_resource : option (list (string * string)); ab_environment : option (list (string * string)) }.
Record AbacContext := mkAbacContext { ac_principal : gmap string string; ac_resource : gmap string string; ac_environment : gmap string string }.
Record AbacMismatch := mkMismatch { mm_dimension : Dimension; mm_attribute : string; mm_expected : string; mm_actual : option string }.
Record AbacResult := mkAbacResult { ar_satisfied : bool; ar_mismatches : list AbacMismatch }.

Definition abac_check (dimension : Dimension) (expected : option (list (string * string))) (actual : gmap string string) : list AbacMismatch :=
  (fun kv => mkMismatch dimension kv.1 kv.2 (actual !! kv.1)) <$> filter (fun kv => actual !! kv.1 <> Some kv.2) (default [] expected).
Definition abac_evaluate (condition : AbacCondition) (context : AbacContext) : AbacResult :=
  let mismatches :=
    abac_check d_principal (ab_principal condition) (ac_principal context) ++
    abac_check d_resource (ab_resource condition) (ac_resource context) ++
    abac_check d_environment (ab_environment condition) (ac_environment context) in
  mkAbacResult (match mismatches with [] => true | _ => false end) mismatches.

(** ** Scores ([risk.ts], [value-objects/scores.ts])

    Counts, reputations and ages are whole numbers; a reputation counts three tenths, so the sum is kept in
    tenths and rounded half up. *)

Definition clamp_tenths (tenths : Z) : Z := Z.min 100 (Z.max 0 ((tenths + 5) / 10)).

Record RiskSignals := mkRiskSignals {
  rs_failedAuthCount : option Z; rs_newDevice : option bool; rs_impossibleTravel : option bool; rs_threatIntelHit : option bool; rs_ipReputation : option Z }.
Record TrustSignals := mkTrustSignals {
  ts_deviceTrusted : option bool; ts_mfaSatisfied : option bool; ts_sessionAgeDays : option Z; ts_knownGoodPrincipal : option bool }.

Definition points_if (b : option bool) (n : Z) : Z := if bool_decide (b = Some true) then n else 0.
Definition risk_score (s : RiskSignals) : Z :=
  clamp_tenths (10 * (Z.min 40 (default 0 (rs_failedAuthCount s) * 10) + points_if (rs_newDevice s) 15 + points_if (rs_impossibleTravel s) 30 +
    points_if (rs_threatIntelHit s) 40) + Z.min 300 (Z.max 0 (3 * default 0 (rs_ipReputation s)))).
Definition trust_score (s : TrustSignals) : Z :=
  clamp_tenths (10 * (20 + points_if (ts_deviceTrusted s) 25 + points_if (ts_mfaSatisfied s) 30 + points_if (ts_knownGoodPrincipal s) 15 +
    Z.min 10 (Z.max 0 (default 0 (ts_sessionAgeDays s))))).

(** ** The meaning of a condition

    With every fragment replaced by what it names, conditions are plain boolean logic. [None] says the
    replacement goes deeper than allowed (a cycle always does); [uses] lists the fragments it replaces. *)

Fixpoint meaning (context : ZeroTrustContext) (resolver : FragmentResolver) (fuel : nat) (e : PolicyExpression) : option bool :=
  match fuel with
  | O => None
  | S fuel =>
      match e with
      | p_leaf leaf => Some (evaluateLeaf leaf context)
      | p_allOf es => forallb id <$> mapM (meaning context resolver fuel) es
      | p_anyOf es => existsb id <$> mapM (meaning context resolver fuel) es
      | p_not e => negb <$> meaning context resolver fuel e
      | p_fragment f => match resolver f with None => Some false | Some e => meaning context resolver fuel e end
      end
  end.
Fixpoint uses (resolver : FragmentResolver) (fuel : nat) (e : PolicyExpression) : list string :=
  match fuel with
  | O => []
  | S fuel =>
      match e with
      | p_leaf _ => []
      | p_allOf es | p_anyOf es => concat (uses resolver fuel <$> es)
      | p_not e => uses resolver fuel e
      | p_fragment f => f :: match resolver f with None => [] | Some e => uses resolver fuel e end
      end
  end.

Section expressions.
Context (context : ZeroTrustContext) (resolver : FragmentResolver).

(** An evaluation that answers [b] and sees at most the fragments [fs] besides. *)
Definition answers (r : bool * gset string) (b : bool) (seen : gset string) (fs : list string) : Prop :=
  r.1 = b /\ forall f, f ∈ r.2 -> f ∈ seen \/ f ∈ fs.
Definition fresh (fs : list string) (seen : gset string) : Prop := NoDup fs /\ forall f, f ∈ fs -> f ∉ seen.

Lemma fresh_app fs1 fs2 seen seen' : fresh (fs1 ++ fs2) seen -> (forall f, f ∈ seen' -> f ∈ seen \/ f ∈ fs1) -> fresh fs1 seen /\ fresh fs2 seen'.
Proof.
  intros [(H1 & H2 & H3)%NoDup_app Hs] Hseen. split; (split; [done|]); intros f Hf.
  - apply Hs, elem_of_app. by left.
  - intros [?|?]%Hseen; [by apply (Hs f); [apply elem_of_app; right|]|by apply (H2 f)].
Qed.

Lemma answers_app r b seen fs1 fs2 : answers r b seen fs1 -> answers r b seen (fs1 ++ fs2).
Proof. intros [H1 H2]. split; [done|]. intros f Hf. rewrite elem_of_app. destruct (H2 f Hf); auto. Qed.

Lemma answers_chain r b seen seen' fs1 fs2 : (forall f, f ∈ seen' -> f ∈ seen \/ f ∈ fs1) -> answers r b seen' fs2 -> answers r b seen (fs1 ++ fs2).
Proof. intros Hs [H1 H2]. split; [done|]. intros f Hf. rewrite elem_of_app. destruct (H2 f Hf) as [?|?]; [destruct (Hs f)|]; auto. Qed.

Section step.
Context (fuel : nat).
Hypothesis IH : forall e b seen, meaning context resolver fuel e = Some b -> fresh (uses resolver fuel e) seen ->
  answers (walk_expression context resolver fuel e seen) b seen (uses resolver fuel e).

Lemma every_meaning es bs seen : mapM (meaning context resolver fuel) es = Some bs -> fresh (concat (uses resolver fuel <$> es)) seen ->
  answers (every_seen (walk_expression context resolver fuel) es seen) (forallb id bs) seen (concat (uses resolver fuel <$> es)).
Proof.
  revert bs seen. induction es as [|e es IHes]; intros bs seen Hm Hf.
  - apply mapM_Some in Hm. apply Forall2_nil_inv_l in Hm as ->. split; [done|]. by left.
  - apply mapM_Some, Forall2_cons_inv_l in Hm as (b & bs' & He & Hes & ->). cbn [fmap list_fmap concat] in *.
    destruct (fresh_app _ _ _ seen Hf) as [Hf1 _]; [by left|]. assert (Ha := IH e b seen He Hf1). cbn [every_seen].
    destruct (walk_expression context resolver fuel e seen) as [b0 seen'] eqn:Ew. destruct Ha as [Hb Hs]. cbn in Hb, Hs. subst b0. destruct b; cbn [forallb id].
    + eapply answers_chain; [exact Hs|]. apply IHes; [by apply mapM_Some|]. by eapply fresh_app.
    + apply answers_app. by split.
Qed.

Lemma some_meaning es bs seen : mapM (meaning context resolver fuel) es = Some bs -> fresh (concat (uses resolver fuel <$> es)) seen ->
  answers (some_seen (walk_expression context resolver fuel) es seen) (existsb id bs) seen (concat (uses resolver fuel <$> es)).
Proof.
  revert bs seen. induction es as [|e es IHes]; intros bs seen Hm Hf.
  - apply mapM_Some in Hm. apply Forall2_nil_inv_l in Hm as ->. split; [done|]. by left.
  - apply mapM_Some, Forall2_cons_inv_l in Hm as (b & bs' & He & Hes & ->). cbn [fmap list_fmap concat] in *.
    destruct (fresh_app _ _ _ seen Hf) as [Hf1 _]; [by left|]. assert (Ha := IH e b seen He Hf1). cbn [some_seen].
    destruct (walk_expression context resolver fuel e seen) as [b0 seen'] eqn:Ew. destruct Ha as [Hb Hs]. cbn in Hb, Hs. subst b0. destruct b; cbn [existsb id].
    + apply answers_app. by split.
    + eapply answers_chain; [exact Hs|]. apply IHes; [by apply mapM_Some|]. by eapply fresh_app.
Qed.
End step.

Lemma walk_meaning fuel e b seen : meaning context resolver fuel e = Some b -> fresh (uses resolver fuel e) seen ->
  answers (walk_expression context resolver fuel e seen) b seen (uses resolver fuel e).
Proof.
  revert e b seen. induction fuel as [|fuel IH]; intros e b seen Hm Hf; [done|]. destruct e as [leaf|es|es|e|f]; cbn in Hm, Hf |- *.
  - injection Hm as <-. split; [done|]. by left.
  - apply fmap_Some in Hm as (bs & Hm & ->). by apply every_meaning.
  - apply fmap_Some in Hm as (bs & Hm & ->). by apply some_meaning.
  - apply fmap_Some in Hm as (b0 & Hm & ->). destruct (IH e b0 seen Hm Hf) as [H1 H2].
    destruct (walk_expression context resolver fuel e seen) as [b1 seen']. cbn in *. by split; cbn; [rewrite H1|].
  - destruct Hf as [[Hn1 Hn2]%NoDup_cons Hs]. rewrite bool_decide_false by (apply Hs; left). destruct (resolver f) as [e|].
    + destruct (IH e b ({[f]} ∪ seen) Hm) as [H1 H2].
      { split; [done|]. intros g Hg [->%elem_of_singleton|?]%elem_of_union; [done|]. by apply (Hs g); [right|]. }
      split; [done|]. intros g Hg. rewrite elem_of_cons. destruct (H2 g Hg) as [[->%elem_of_singleton|?]%elem_of_union|?]; auto.
    + injection Hm as <-. split; [done|]. cbn. intros g [->%elem_of_singleton|?]%elem_of_union; [right; left|by left].
Qed.
End expressions.

(** Composed conditions are boolean logic. A condition that unfolds within the depth limit, with no
    fragment used twice, evaluates to what it means with every fragment replaced by its definition, an
    unknown fragment being false. *)
Theorem policy_expression_is_boolean_logic context resolver e b :
  meaning context resolver (S MAX_DEPTH) e = Some b -> NoDup (uses resolver (S MAX_DEPTH) e) -> evaluate_expression e context resolver = b.
Proof. intros Hm Hn. apply (walk_meaning context resolver (S MAX_DEPTH) e b ∅ Hm). split; [done|]. by intros f _ ?%elem_of_empty. Qed.

(** Fragments seen stay seen. *)
Lemma walk_seen context resolver fuel e seen : seen ⊆ (walk_expression context resolver fuel e seen).2.
Proof.
  revert e seen. induction fuel as [|fuel IH]; intros e seen; [done|].
  assert (Hl : forall es seen, seen ⊆ (every_seen (walk_expression context resolver fuel) es seen).2 /\ seen ⊆ (some_seen (walk_expression context resolver fuel) es seen).2).
  { clear - IH. induction es as [|e es IHes]; intros seen; [done|]. cbn [every_seen some_seen]. specialize (IH e seen).
    destruct (walk_expression context resolver fuel e seen) as [[] seen']; cbn in *; destruct (IHes seen'); split; set_solver. }
  destruct e as [leaf|es|es|e|f]; cbn; [done|apply Hl|apply Hl| |].
  - specialize (IH e seen). by destruct (walk_expression context resolver fuel e seen).
  - case_bool_decide; [done|]. destruct (resolver f) as [e|]; cbn; [|set_solver]. specialize (IH e ({[f]} ∪ seen)). set_solver.
Qed.

Lemma walk_fragment_seen context resolver fuel f seen : f ∈ (walk_expression context resolver (S fuel) (p_fragment f) seen).2.
Proof.
  cbn. case_bool_decide as Hf; [done|]. destruct (resolver f) as [e|]; cbn; [|set_solver].
  assert (Hw := walk_seen context resolver fuel e ({[f]} ∪ seen)). set_solver.
Qed.

Lemma walk_seen_fragment context resolver fuel f seen : f ∈ seen -> walk_expression context resolver fuel (p_fragment f) seen = (false, seen).
Proof. intros Hf. destruct fuel; [done|]. cbn. by rewrite bool_decide_true. Qed.

(** The conditions are evaluated one after the other, from the fragments the earlier ones saw. *)
Lemma evaluate_fragment_first context resolver f es :
  evaluate_expression (p_allOf (p_fragment f :: es)) context resolver =
    let '(b, seen) := walk_expression context resolver MAX_DEPTH (p_fragment f) ∅ in
    b && (every_seen (walk_expression context resolver MAX_DEPTH) es seen).1.
Proof.
  unfold evaluate_expression. generalize MAX_DEPTH as n. intros n. cbn [walk_expression every_seen].
  by destruct (walk_expression context resolver n (p_fragment f) ∅) as [[] seen].
Qed.

Lemma every_fragment_seen context resolver fuel f es seen : f ∈ seen ->
  (every_seen (walk_expression context resolver fuel) (p_fragment f :: es) seen).1 = false.
Proof. intros Hf. cbn [every_seen]. by rewrite walk_seen_fragment. Qed.

Lemma any_fragment_seen context resolver fuel f leaf seen : f ∈ seen ->
  (every_seen (walk_expression context resolver (S (S fuel))) [p_anyOf [p_fragment f; p_leaf leaf]] seen).1 = evaluateLeaf leaf context.
Proof.
  intros Hf. cbn [every_seen walk_expression some_seen]. rewrite bool_decide_true by done. by destruct (evaluateLeaf leaf context).
Qed.

(** A fragment used twice in a condition is taken for a cycle, since the fragments seen are never
    forgotten: the second use counts as false whatever the fragment says. A condition that requires it twice
    never holds, a rule on that condition can be added to any policy without any effect on its decisions,
    and where the fragment is one of two ways to satisfy a later part, only the other way is left. *)
Theorem repeated_fragment_is_taken_for_a_cycle context resolver f rest leaf rule v :
  let once := (walk_expression context resolver MAX_DEPTH (p_fragment f) ∅).1 in
  evaluate_expression (p_allOf (p_fragment f :: p_fragment f :: rest)) context resolver = false /\
  evaluate_expression (p_allOf [p_fragment f; p_anyOf [p_fragment f; p_leaf leaf]]) context resolver = once && evaluateLeaf leaf context /\
  zero_trust_evaluate context (Some (mkVersion (pv_version v)
    (mkRule (pr_id rule) (pr_description rule) (pr_when rule) (Some (p_allOf (p_fragment f :: p_fragment f :: rest))) (pr_effect rule) :: pv_rules v)
    (pv_defaultEffect v) (pv_publishedAt v))) resolver = zero_trust_evaluate context (Some v) resolver.
Proof.
  cbn zeta. assert (Hs := walk_fragment_seen context resolver 63 f ∅). change (S 63) with MAX_DEPTH in Hs.
  assert (Hall : evaluate_expression (p_allOf (p_fragment f :: p_fragment f :: rest)) context resolver = false).
  { rewrite evaluate_fragment_first. destruct (walk_expression context resolver MAX_DEPTH (p_fragment f) ∅) as [b seen].
    rewrite every_fragment_seen by done. apply andb_false_r. }
  split; [done|]. split.
  - rewrite evaluate_fragment_first. destruct (walk_expression context resolver MAX_DEPTH (p_fragment f) ∅) as [b seen].
    exact (f_equal (andb b) (any_fragment_seen context resolver 62 f leaf seen Hs)).
  - unfold zero_trust_evaluate. cbn [fmap option_fmap option_map pv_version pv_rules pv_defaultEffect]. rewrite filter_cons_False; [done|].
    unfold rule_matches. cbn [pr_expr]. by rewrite Hall.
Qed.

(** ** The decision *)

Lemma stronger_spec es e0 :
  let m := foldl stronger e0 es in
  (m = e0 \/ m ∈ es) /\ EFFECT_RANK e0 <= EFFECT_RANK m /\ forall e, e ∈ es -> EFFECT_RANK e <= EFFECT_RANK m.
Proof.
  revert e0. induction es as [|e es IH]; intros e0; cbn [foldl]; cbn zeta; [split_and!; [by left|lia|by intros e ?%elem_of_nil]|].
  destruct (IH (stronger e0 e)) as (H1 & H2 & H3). unfold stronger in *. destruct (Z.ltb_spec (EFFECT_RANK e0) (EFFECT_RANK e)); split_and!.
  - destruct H1 as [H1|H1]; right; [rewrite H1; left|by right].
  - lia.
  - intros e' [-> |?]%elem_of_cons; [done|by apply H3].
  - destruct H1 as [H1|H1]; [by left|right; by right].
  - done.
  - intros e' [-> |?]%elem_of_cons; [lia|by apply H3].
Qed.

Lemma EFFECT_RANK_inj e1 e2 : EFFECT_RANK e1 = EFFECT_RANK e2 -> e1 = e2.
Proof. by destruct e1, e2. Qed.

Lemma foldl_stronger_allow es : foldl stronger allow es = allow <-> Forall (fun e => e = allow) es.
Proof.
  destruct (stronger_spec es allow) as (H1 & _ & H3). rewrite Forall_forall. split.
  - intros E e He. specialize (H3 e He). rewrite E in H3. by destruct e.
  - intros Hall. destruct H1 as [?|Hin]; [done|]. by apply Hall.
Qed.

(** The effects a version weighs: those of the rules that match, or its default. *)
Definition weighed_effects (context : ZeroTrustContext) (fragments : FragmentResolver) (v : PolicyVersion) : list PolicyEffect :=
  match filter (fun r => rule_matches context fragments r = true) (pv_rules v) with [] => [pv_defaultEffect v] | fired => pr_effect <$> fired end.

Lemma zero_trust_allows context policyVersion fragments :
  zd_effect (zero_trust_evaluate context policyVersion fragments) = allow <->
  zt_principalActive context = true /\ zt_sessionValid context = true /\ zt_permissionGranted context = true /\
  match policyVersion with None => True | Some v => Forall (fun e => e = allow) (weighed_effects context fragments v) end.
Proof.
  unfold zero_trust_evaluate. destruct (zt_principalActive context), (zt_sessionValid context), (zt_permissionGranted context); cbn [negb];
    try (split; [done|naive_solver]).
  destruct policyVersion as [v|]; cbn [zd_effect]; [|naive_solver].
  unfold weighed_effects. rewrite <- foldl_stronger_allow. destruct (filter _ (pv_rules v)); naive_solver.
Qed.

(** The strongest rule decides, and the gates come first. A request of an inactive principal, without a
    valid session or without the permission is blocked by every policy. Otherwise the rules that match are
    reported, in their order, and the effect is the strongest of theirs (block over challenge over review
    over allow), or the version's default if none matches; in particular a request is allowed exactly when
    the gates pass and every matching rule allows it, or none matches and the default allows it. *)
Theorem strongest_matching_rule_decides context policyVersion fragments :
  let d := zero_trust_evaluate context policyVersion fragments in
  let gates := zt_principalActive context && zt_sessionValid context && zt_permissionGranted context in
  (gates = false -> zd_effect d = block /\ zd_matchedRuleIds d = []) /\
  forall v, policyVersion = Some v -> gates = true ->
    let fired := filter (fun r => rule_matches context fragments r = true) (pv_rules v) in
    zd_matchedRuleIds d = pr_id <$> fired /\
    (fired = [] -> zd_effect d = pv_defaultEffect v) /\
    (forall r, r ∈ fired -> EFFECT_RANK (pr_effect r) <= EFFECT_RANK (zd_effect d)) /\
    (fired <> [] -> exists r, r ∈ fired /\ pr_effect r = zd_effect d) /\
    (zd_effect d = allow <-> if bool_decide (fired = []) then pv_defaultEffect v = allow else Forall (fun r => pr_effect r = allow) fired).
Proof.
  cbn zeta. unfold zero_trust_evaluate. split.
  { destruct (zt_principalActive context), (zt_sessionValid context), (zt_permissionGranted context); done. }
  intros v -> [[-> ->]%andb_true_iff ->]%andb_true_iff. cbn [negb]. destruct (filter _ (pv_rules v)) as [|r0 fired]; cbn [zd_effect zd_matchedRuleIds].
  - assert (Hd : foldl stronger allow [pv_defaultEffect v] = pv_defaultEffect v) by (cbn; by destruct (pv_defaultEffect v)).
    split_and!; [done|done|by intros r ?%elem_of_nil|done|by rewrite Hd].
  - destruct (stronger_spec (pr_effect <$> r0 :: fired) allow) as (H1 & _ & H3).
    set (m := foldl stronger allow (pr_effect <$> r0 :: fired)) in *.
    assert (Hle : forall r, r ∈ r0 :: fired -> EFFECT_RANK (pr_effect r) <= EFFECT_RANK m).
    { intros r Hr. by apply H3, list_elem_of_fmap_2. }
    assert (Hallow : m = allow -> forall r, r ∈ r0 :: fired -> pr_effect r = allow).
    { intros Em r Hr. specialize (Hle r Hr). rewrite Em in Hle. by destruct (pr_effect r). }
    assert (Hex : exists r, r ∈ r0 :: fired /\ pr_effect r = m).
    { destruct H1 as [H1|(r & ? & ?)%list_elem_of_fmap]; [|by exists r]. exists r0. split; [left|]. rewrite H1. apply (Hallow H1). left. }
    split_and!; try done. cbn [bool_decide]. rewrite bool_decide_false by done. rewrite Forall_forall. split; [by apply Hallow|].
    intros Hall. destruct Hex as (r & Hr & <-). by apply Hall.
Qed.

(** ** Policies over their calls *)

Inductive PolicyOp := po_publish (rules : list PolicyRule) (defaultEffect : option PolicyEffect) | po_archive.
Definition policy_exec (c : PolicyOp * string * Z) : M Policy unit :=
  let '(op, eid, at_) := c in
  match op with
  | po_publish rules defaultEffect => publishVersion rules defaultEffect eid at_;; mret tt
  | po_archive => policy_archive eid at_
  end.

(** Versions are numbered from 1, and the last one is active. *)
Definition versions_ok (p : PolicyProps) : Prop :=
  pv_version <$> po_versions p = (fun i => Z.of_nat i + 1) <$> seq 0 (length (po_versions p)) /\
  po_activeVersion p = pv_version <$> last (po_versions p) /\
  (po_status p = policy_draft -> po_versions p = []).

Lemma policy_exec_Ok c a u a' : policy_exec c a = (Ok u, a') ->
  agg_props a' = agg_props a \/ agg_props a' = with_policy_status policy_archived (agg_props a) \/
  (po_status (agg_props a) <> policy_archived /\ exists v, pv_version v = Z.of_nat (length (po_versions (agg_props a))) + 1 /\
    Forall (fun r => blank (pr_id r) = false) (pv_rules v) /\ agg_props a' = published v (agg_props a)).
Proof.
  destruct c as [[op eid] at_]. destruct op as [rules de|]; cbn; unfold publishVersion, policy_archive, policy_emit; intros H; agg_inv.
  - destruct (match de with Some e => Some e | None => _ end) as [e|]; agg_inv. right; right. split; [done|]. eexists. split_and!; [| |done]; [done|].
    cbn. apply Forall_forall. intros r Hr. match goal with Hb : existsb _ _ = false |- _ => rename Hb into Hbl end.
    destruct (blank (pr_id r)) eqn:Hid; [|done]. exfalso. apply (eq_true_false_abs _ (proj2 (existsb_exists _ _) (ex_intro _ r (conj (proj1 (list_elem_of_In _ _) Hr) Hid))) Hbl).
  - case_bool_decide as Hs; agg_inv; [by left|right; by left].
Qed.

Lemma policy_exec_versions c a u a' : versions_ok (agg_props a) -> policy_exec c a = (Ok u, a') ->
  versions_ok (agg_props a') /\ po_versions (agg_props a) `prefix_of` po_versions (agg_props a') /\
  (po_status (agg_props a) = policy_archived -> agg_props a' = agg_props a) .
Proof.
  intros Hv [E|[E|(Hs & v & Hn & _ & E)]]%policy_exec_Ok; rewrite E; [done| |].
  - destruct Hv as (H1 & H2 & H3). split_and!; try done. intros Ha. destruct (agg_props a). cbn in *. by subst.
  - destruct Hv as (H1 & H2 & H3). unfold versions_ok. cbn. split_and!; try done; [|by rewrite last_snoc|by exists [v]].
    rewrite fmap_app, H1, length_app, seq_app, fmap_app. cbn. by rewrite Hn.
Qed.

Lemma run_policy_versions cs a u a' : versions_ok (agg_props a) -> run_ops policy_exec cs a = (Ok u, a') ->
  versions_ok (agg_props a') /\ po_versions (agg_props a) `prefix_of` po_versions (agg_props a') /\
  (po_status (agg_props a) = policy_archived -> agg_props a' = agg_props a).
Proof.
  revert a. induction cs as [|c cs IH]; intros a Hv H; cbn in H; minv; [done|].
  destruct (policy_exec_versions _ _ _ _ Hv Hcall) as (H1 & H2 & H3). destruct (IH _ H1 H) as (H4 & H5 & H6).
  split_and!; [done|by etrans|]. intros Ha. rewrite <- (H3 Ha). apply H6. by rewrite H3.
Qed.

Lemma activePolicyVersion_last p : versions_ok p -> activePolicyVersion p = last (po_versions p).
Proof.
  intros (H1 & H2 & _). unfold activePolicyVersion. rewrite H2. destruct (last (po_versions p)) as [v|] eqn:Hl; [|done]. cbn.
  assert (Hin : v ∈ po_versions p) by by apply last_Some_elem_of. assert (Hn : NoDup (pv_version <$> po_versions p)).
  { rewrite H1. apply NoDup_fmap_2; [intros i j; lia|apply NoDup_seq]. }
  assert (Hf : v ∈ filter (fun x => pv_version x = pv_version v) (po_versions p)) by by apply list_elem_of_filter.
  destruct (filter _ _) as [|x l] eqn:Ef; [by apply elem_of_nil in Hf|]. cbn. f_equal.
  assert (Hx : x ∈ filter (fun x => pv_version x = pv_version v) (po_versions p)) by (rewrite Ef; left).
  apply list_elem_of_filter in Hx as [Hx Hx']. by apply (NoDup_fmap_elem pv_version (po_versions p)).
Qed.

(** Published versions are immutable. Along any successful publications and archivings the versions are
    numbered from 1 in their order, those published earlier stay as they are, the one in force is always
    the last published, and an archived policy never changes again (its last version stays in force). *)
Theorem policy_versions_are_immutable id key name mode eid at_ p0 before after u u' p p' :
  policy_define id key name mode eid at_ = Ok p0 ->
  run_ops policy_exec before p0 = (Ok u, p) -> run_ops policy_exec after p = (Ok u', p') ->
  pv_version <$> po_versions (agg_props p') = (fun i => Z.of_nat i + 1) <$> seq 0 (length (po_versions (agg_props p'))) /\
  po_versions (agg_props p) `prefix_of` po_versions (agg_props p') /\
  activePolicyVersion (agg_props p') = last (po_versions (agg_props p')) /\
  (po_status (agg_props p) = policy_archived -> agg_props p' = agg_props p).
Proof.
  intros H0 H1 H2. assert (Hp0 : versions_ok (agg_props p0)).
  { unfold policy_define in H0. destruct (blank key), (blank name); try done. by injection H0 as <-. }
  destruct (run_policy_versions _ _ _ _ Hp0 H1) as (Hp & _ & _). destruct (run_policy_versions _ _ _ _ Hp H2) as (Hp' & Hpre & Ha).
  split_and!; [by apply Hp'|done|by apply activePolicyVersion_last|done].
Qed.

(** ** Attributes, resources and scores *)

(** Every expected attribute is there with its value. *)
Lemma abac_evaluate_satisfied condition context :
  ar_satisfied (abac_evaluate condition context) = true <->
  (forall k v, (k, v) ∈ default [] (ab_principal condition) -> ac_principal context !! k = Some v) /\
  (forall k v, (k, v) ∈ default [] (ab_resource condition) -> ac_resource context !! k = Some v) /\
  (forall k v, (k, v) ∈ default [] (ab_environment condition) -> ac_environment context !! k = Some v).
Proof.
  assert (Hc : forall d e a, abac_check d e a = [] <-> forall k v, (k, v) ∈ default [] e -> a !! k = Some v).
  { intros d e a. unfold abac_check. split.
    - intros Hn%fmap_nil_inv k v Hin. destruct (decide (a !! k = Some v)) as [|Hne]; [done|]. exfalso. assert (Hf : (k, v) ∈ filter (fun kv => a !! kv.1 <> Some kv.2) (default [] e)) by by apply list_elem_of_filter. rewrite Hn in Hf. by apply elem_of_nil in Hf.
    - intros Ha. rewrite filter_none; [done|]. intros [k v] Hin Hne. by apply Hne, Ha. }
  unfold abac_evaluate. cbn. rewrite <- (Hc d_principal), <- (Hc d_resource), <- (Hc d_environment).
  destruct (abac_check d_principal _ _), (abac_check d_resource _ _), (abac_check d_environment _ _); naive_solver.
Qed.

Lemma risk_score_range s : 0 <= risk_score s <= 100.
Proof. unfold risk_score, clamp_tenths. lia. Qed.
Lemma trust_score_range s : 0 <= trust_score s <= 100.
Proof. unfold trust_score, clamp_tenths. lia. Qed.

(** ** Witnesses *)

Definition sample_context : ZeroTrustContext := mkContext true true true false 80 20 (Some "production") (Some (mkUrn "orders" "order" "o1")).
Definition sample_fragments : FragmentResolver := fun f =>
  if bool_decide (f = "risky") then Some (p_leaf (mkCondition (Some 50) None None None None))
  else if bool_decide (f = "loop") then Some (p_not (p_fragment "loop")) else None.
Definition sample_expression : PolicyExpression :=
  p_allOf [p_fragment "risky"; p_not (p_anyOf [p_leaf (mkCondition None None (Some true) None (Some "lumo:finance:*:*")); p_fragment "unknown"])].

Lemma policy_expression_is_boolean_logic_witness :
  evaluate_expression sample_expression sample_context sample_fragments = true /\
  meaning sample_context sample_fragments (S MAX_DEPTH) (p_fragment "loop") = None.
Proof.
  split; [|by vm_compute]. apply policy_expression_is_boolean_logic; [by vm_compute|].
  apply (bool_decide_eq_true_1 _). by vm_compute.
Defined.

Definition sample_rule : PolicyRule := mkRule "r1" "risky" (mkCondition (Some 50) None None None None) None challenge.
Definition sample_policy : Policy :=
  unwrapOr (policy_define "p1" "default" "Default" strict "e0" 0) (new_agg (mkPolicy "" "" strict policy_draft [] None) "").
Definition policy_before : list (PolicyOp * string * Z) := [(po_publish [sample_rule] None, "e1", 1); (po_publish [] (Some allow), "e2", 2)].
Definition policy_after : list (PolicyOp * string * Z) := [(po_archive, "e3", 3); (po_archive, "e4", 4)].

Lemma policy_versions_are_immutable_witness :
  let p := (run_ops policy_exec policy_before sample_policy).2 in
  let p' := (run_ops policy_exec policy_after p).2 in
  pv_version <$> po_versions (agg_props p') = [1; 2] /\ activePolicyVersion (agg_props p') = last (po_versions (agg_props p')) /\
  pv_defaultEffect <$> po_versions (agg_props p') = [block; allow].
Proof.
  cbn zeta. split; [by vm_compute|]. split; [|by vm_compute].
  apply (policy_versions_are_immutable "p1" "default" "Default" strict "e0" 0 sample_policy policy_before policy_after tt tt
    (run_ops policy_exec policy_before sample_policy).2); by vm_compute.
Defined.

Lemma strongest_matching_rule_decides_witness :
  let v := mkVersion 1 [sample_rule; mkRule "r2" "known" always None allow] block 1 in
  zd_effect (zero_trust_evaluate sample_context (Some v) sample_fragments) = challenge /\
  zd_matchedRuleIds (zero_trust_evaluate sample_context (Some v) sample_fragments) = ["r1"; "r2"].
Proof.
  cbn zeta. split; [by vm_compute|].
  destruct (strongest_matching_rule_decides sample_context (Some (mkVersion 1 [sample_rule; mkRule "r2" "known" always None allow] block 1)) sample_fragments) as [_ H].
  destruct (H _ eq_refl eq_refl) as [-> _]. by vm_compute.
Defined.
