(* ===== verification/Relations.v ===== *)
(** Relationship-based access: [services/security/src/domain/relationship.ts]. Relation tuples and their
    keys, and the check that follows subject sets through them. *)
From Stdlib Require Import Ascii.
From S2P Require Import Prelude.

(** ** Tuples and their keys *)

Record RelationTuple := mkTuple { rt_namespace : string; rt_object : string; rt_relation : string; rt_subject : string }.
#[export] Instance RelationTuple_eq_dec : EqDecision RelationTuple.
Proof. solve_decision. Defined.

Definition at_sign : ascii := "@"%char.
Definition colon : ascii := ":"%char.
Definition hash : ascii := "#"%char.

Definition tuple_key (t : RelationTuple) : string :=
  rt_namespace t +:+ String colon (rt_object t +:+ String hash (rt_relation t +:+ String at_sign (rt_subject t))).

(** The string before and after the first, and the last, occurrence of a character. *)
Fixpoint split_first (c : ascii) (s : string) : option (string * string) :=
  match s with
  | EmptyString => None
  | String d s' => if bool_decide (d = c) then Some (EmptyString, s') else '(l, r) ← split_first c s'; Some (String d l, r)
  end.
Fixpoint split_last (c : ascii) (s : string) : option (string * string) :=
  match s with
  | EmptyString => None
  | String d s' =>
      match split_last c s' with
      | Some (l, r) => Some (String d l, r)
      | None => if bool_decide (d = c) then Some (EmptyString, s') else None
      end
  end.
Definition nonempty (s : string) : bool := negb (bool_decide (s = EmptyString)).

Definition parseKey (key : string) : option RelationTuple :=
  match split_last at_sign key with
  | None => None
  | Some (left_, subject) =>
      if negb (nonempty left_) then None
      else match split_first colon left_ with
      | None => None
      | Some (namespace, rest) =>
          if negb (nonempty namespace) then None
          else match split_last hash rest with
          | None => None
          | Some (object, relation) =>
              if negb (nonempty object) then None
              else if negb (nonempty relation) || negb (nonempty subject) then None
              else Some (mkTuple namespace object relation subject)
          end
      end
  end.

(** [subject.includes("#")], and the two parts [subject.split("#")] gives first. *)
Definition subject_set (t : RelationTuple) : option (string * string) :=
  match split_on hash (rt_subject t) with
  | object :: relation :: _ => Some (object, relation)
  | _ => None
  end.

(** ** The check *)

Record RelationQuery := mkQuery { rq_namespace : string; rq_object : string; rq_relation : string; rq_subjectId : string }.
Definition MAX_RELATION_DEPTH : nat := 32.

Definition node (namespace object relation : string) : string := namespace +:+ String colon (object +:+ String hash relation).

(** The loop over the tuples, threading the nodes seen. *)
Definition any_tuple (f : RelationTuple -> gset string -> bool * gset string) : list RelationTuple -> gset string -> bool * gset string :=
  fix go ts seen :=
    match ts with
    | [] => (false, seen)
    | t :: ts' => let '(b, seen') := f t seen in if b then (true, seen') else go ts' seen'
    end.

Section graph.
Context (tuples : list RelationTuple) (namespace subjectId : string).

Definition matches_node (object relation : string) (t : RelationTuple) : bool :=
  bool_decide (rt_namespace t = namespace) && bool_decide (rt_object t = object) && bool_decide (rt_relation t = relation).

(** The fuel is [MAX_DEPTH + 1 - depth]. *)
Fixpoint walk_relation (fuel : nat) (object relation : string) (seen : gset string) : bool * gset string :=
  match fuel with
  | O => (false, seen)
  | S fuel =>
      let n := node namespace object relation in
      if bool_decide (n ∈ seen) then (false, seen)
      else
        any_tuple (fun t seen =>
          if negb (matches_node object relation t) then (false, seen)
          else if bool_decide (rt_subject t = subjectId) then (true, seen)
          else match subject_set t with
               | Some (usObject, usRelation) => walk_relation fuel usObject usRelation seen
               | None => (false, seen)
               end) tuples ({[n]} ∪ seen)
  end.
End graph.

Definition check_relation (tuples : list RelationTuple) (query : RelationQuery) : bool :=
  (walk_relation tuples (rq_namespace query) (rq_subjectId query) (S MAX_RELATION_DEPTH) (rq_object query) (rq_relation query) ∅).1.

(** ** Strings and separators *)

Definition free_of (c : ascii) (s : string) : Prop := all_chars (fun d => negb (bool_decide (d = c))) s = true.

Lemma free_of_cons c d s : free_of c (String d s) <-> d <> c /\ free_of c s.
Proof. unfold free_of. cbn. rewrite andb_true_iff. case_bool_decide; naive_solver. Qed.

Lemma free_of_app c s1 s2 : free_of c (s1 +:+ s2) <-> free_of c s1 /\ free_of c s2.
Proof.
  induction s1 as [|d s1 IH]; [by split; [|intros []]|]. change (String d s1 +:+ s2) with (String d (s1 +:+ s2)).
  rewrite !free_of_cons, IH. tauto.
Qed.

Lemma split_first_spec c s l r : split_first c s = Some (l, r) <-> s = l +:+ String c r /\ free_of c l.
Proof.
  revert l r. induction s as [|d s IH]; intros l r; cbn [split_first].
  { split; [done|]. intros [H _]. by destruct l. }
  case_bool_decide as Hd.
  - subst d. split; [by intros [= <- <-]|]. intros [H Hf]. destruct l as [|x l]; [by injection H as ->|].
    injection H as -> _. by apply free_of_cons in Hf as [? _].
  - split.
    + destruct (split_first c s) as [[l' r']|]; [|done]. intros [= <- <-]. destruct (proj1 (IH l' r') eq_refl) as [-> ?]. by rewrite free_of_cons.
    + intros [H Hf]. destruct l as [|x l]; [by injection H as -> _|]. injection H as -> H. apply free_of_cons in Hf as [_ Hf].
      by rewrite (proj2 (IH l r)).
Qed.

Lemma split_last_None c s : split_last c s = None <-> free_of c s.
Proof.
  induction s as [|d s IH]; [done|]. cbn [split_last]. rewrite free_of_cons, <- IH.
  destruct (split_last c s) as [[l r]|]; [by split; [|intros []]|]. case_bool_decide; naive_solver.
Qed.

Lemma split_last_spec c s l r : split_last c s = Some (l, r) <-> s = l +:+ String c r /\ free_of c r.
Proof.
  revert l r. induction s as [|d s IH]; intros l r; cbn [split_last].
  { split; [done|]. intros [H _]. by destruct l. }
  destruct (split_last c s) as [[l' r']|] eqn:E.
  - destruct (proj1 (IH l' r') eq_refl) as [Hs Hf]. split; [intros [= <- <-]; by rewrite Hs|]. intros [H Hr]. destruct l as [|x l].
    + injection H as -> H. subst s. apply split_last_None in Hr. congruence.
    + injection H as -> H. by injection (proj2 (IH l r) (conj H Hr)) as -> ->.
  - assert (Hs := proj1 (split_last_None c s) E). case_bool_decide as Hd; [subst d|].
    + split; [by intros [= <- <-]|]. intros [H Hr]. destruct l as [|x l]; [by injection H as ->|]. injection H as -> H.
      discriminate (proj2 (IH l r) (conj H Hr)).
    + split; [done|]. intros [H Hr]. destruct l as [|x l]; [by injection H as -> _|]. injection H as -> H.
      discriminate (proj2 (IH l r) (conj H Hr)).
Qed.

(** Two parts cut at the last separator are what they were. *)
Lemma split_at_last c a1 b1 a2 b2 : free_of c b1 -> free_of c b2 -> a1 +:+ String c b1 = a2 +:+ String c b2 -> a1 = a2 /\ b1 = b2.
Proof.
  intros H1 H2 E. assert (Hs := proj2 (split_last_spec c (a1 +:+ String c b1) a1 b1) (conj eq_refl H1)).
  rewrite E, (proj2 (split_last_spec c (a2 +:+ String c b2) a2 b2) (conj eq_refl H2)) in Hs. by injection Hs as -> ->.
Qed.

Lemma node_inj ns o1 r1 o2 r2 : free_of hash r1 -> free_of hash r2 -> node ns o1 r1 = node ns o2 r2 -> o1 = o2 /\ r1 = r2.
Proof. unfold node. intros H1 H2 E%append_inj_l. injection E as E. by eapply split_at_last. Qed.

(** ** Keys *)

(** What a key must not contain to be read back. *)
Definition readable (t : RelationTuple) : Prop :=
  rt_namespace t <> EmptyString /\ free_of colon (rt_namespace t) /\ rt_object t <> EmptyString /\
  rt_relation t <> EmptyString /\ free_of hash (rt_relation t) /\ rt_subject t <> EmptyString /\ free_of at_sign (rt_subject t).

Lemma nonempty_true s : nonempty s = true <-> s <> EmptyString.
Proof. unfold nonempty. by rewrite negb_true_iff, bool_decide_eq_false. Qed.

Lemma tuple_key_cut t :
  tuple_key t = (rt_namespace t +:+ String colon (rt_object t +:+ String hash (rt_relation t))) +:+ String at_sign (rt_subject t).
Proof.
  unfold tuple_key. rewrite append_assoc. f_equal. change (String colon ?x +:+ ?y) with (String colon (x +:+ y)). f_equal.
  rewrite append_assoc. done.
Qed.

(** Keys are read back exactly when their parts allow it. Reading a key gives a tuple exactly if it is
    the key of that tuple, no part is empty, the namespace has no colon, the relation no hash and the
    subject no at sign; so a tuple whose subject contains one (an address, say) is never read back from its
    own key. Distinct readable tuples have distinct keys. *)
Theorem relation_keys_roundtrip key t :
  (parseKey key = Some t <-> key = tuple_key t /\ readable t) /\
  (forall t', readable t -> readable t' -> tuple_key t = tuple_key t' -> t = t').
Proof.
  assert (H : forall key t, parseKey key = Some t <-> key = tuple_key t /\ readable t).
  { clear. intros key t. unfold parseKey, readable. split.
    - destruct (split_last at_sign key) as [[l s]|] eqn:E1; [|done]. apply split_last_spec in E1 as [-> H1].
      destruct (nonempty l) eqn:El; [|done]. cbn [negb]. destruct (split_first colon l) as [[ns rest]|] eqn:E2; [|done]. apply split_first_spec in E2 as [-> H2].
      destruct (nonempty ns) eqn:En; [|done]. cbn [negb]. destruct (split_last hash rest) as [[o r]|] eqn:E3; [|done]. apply split_last_spec in E3 as [-> H3].
      destruct (nonempty o) eqn:Eo, (nonempty r) eqn:Er, (nonempty s) eqn:Es; cbn [negb orb]; try done. intros [= <-].
      rewrite nonempty_true in *. rewrite tuple_key_cut. done.
    - intros (-> & H1 & H2 & H3 & H4 & H5 & H6 & H7). rewrite tuple_key_cut.
      rewrite (proj2 (split_last_spec at_sign _ _ _) (conj eq_refl H7)).
      rewrite (proj2 (nonempty_true _)) by (destruct (rt_namespace t); done). cbn [negb].
      rewrite (proj2 (split_first_spec colon _ _ _) (conj eq_refl H2)), (proj2 (nonempty_true (rt_namespace t)) H1). cbn [negb].
      rewrite (proj2 (split_last_spec hash _ _ _) (conj eq_refl H5)).
      rewrite (proj2 (nonempty_true (rt_object t)) H3), (proj2 (nonempty_true (rt_relation t)) H4), (proj2 (nonempty_true (rt_subject t)) H6).
      by destruct t. }
  split; [apply H|]. intros t' H1 H2 E. assert (E1 := proj2 (H (tuple_key t) t) (conj eq_refl H1)).
  rewrite E, (proj2 (H (tuple_key t') t') (conj eq_refl H2)) in E1. by injection E1.
Qed.

(** ** The check against what the tuples say *)

Section related.
Context (tuples : list RelationTuple) (namespace subjectId : string).

(** The subject is named by a tuple of the node, or by one of a node it refers to. *)
Inductive related : string -> string -> Prop :=
| related_direct t : t ∈ tuples -> rt_namespace t = namespace -> rt_subject t = subjectId -> related (rt_object t) (rt_relation t)
| related_set t o r : t ∈ tuples -> rt_namespace t = namespace -> subject_set t = Some (o, r) -> related o r -> related (rt_object t) (rt_relation t).

(** The nodes subject sets refer to. *)
Definition set_nodes : gset string :=
  list_to_set (omap (fun t => '(o, r) ← subject_set t; Some (node namespace o r)) tuples).

Lemma elem_of_set_nodes t o r : t ∈ tuples -> subject_set t = Some (o, r) -> node namespace o r ∈ set_nodes.
Proof.
  intros Ht Hs. apply elem_of_list_to_set, list_elem_of_omap. exists t. split; [done|]. by rewrite Hs.
Qed.

Lemma subject_set_free t o r : subject_set t = Some (o, r) -> free_of hash r.
Proof.
  unfold subject_set. generalize (rt_subject t) as s. intros s.
  assert (H : Forall (free_of hash) (split_on hash s)).
  { induction s as [|c s IH]; cbn [split_on]; [by apply Forall_singleton|]. case_bool_decide as Hc; [by constructor|].
    destruct (split_on hash s) as [|w ws]; [constructor; [by apply free_of_cons|constructor]|].
    apply Forall_cons in IH as [H1 H2]. constructor; [by apply free_of_cons|done]. }
  destruct (split_on hash s) as [|o' [|r' ws]]; try done. intros [= -> ->]. by apply Forall_cons in H as [_ [H _]%Forall_cons].
Qed.

Lemma matches_node_true o r t : matches_node namespace o r t = true <-> rt_namespace t = namespace /\ rt_object t = o /\ rt_relation t = r.
Proof. unfold matches_node. rewrite !andb_true_iff, !bool_decide_eq_true. tauto. Qed.

(** *** A positive answer is right *)

Lemma any_tuple_true f ts seen seen' : any_tuple f ts seen = (true, seen') -> exists t s s', t ∈ ts /\ f t s = (true, s').
Proof.
  revert seen. induction ts as [|t ts IH]; intros seen H; cbn in H; [done|]. destruct (f t seen) as [[] s'] eqn:E.
  - exists t, seen, s'. split; [left|done].
  - destruct (IH _ H) as (t' & s & s2 & ? & ?). exists t', s, s2. split; [by right|done].
Qed.

Lemma walk_relation_sound fuel o r seen seen' : walk_relation tuples namespace subjectId fuel o r seen = (true, seen') -> related o r.
Proof.
  revert o r seen seen'. induction fuel as [|fuel IH]; intros o r seen seen' H; [done|]. cbn in H. case_bool_decide; [done|].
  apply any_tuple_true in H as (t & s & s' & Ht & H). destruct (matches_node namespace o r t) eqn:Hm; [|done]. cbn [negb] in H.
  apply matches_node_true in Hm as (Hn & <- & <-). case_bool_decide; [by apply related_direct|].
  destruct (subject_set t) as [[o r]|] eqn:Hs; [|done]. eapply related_set; eauto.
Qed.

(** *** A negative answer leaves the nodes seen closed *)

(** What a node of [seen] asks of the tuples: none names the subject, and those it refers to are seen. *)
Definition settled_tuple (seen : gset string) (t : RelationTuple) : Prop :=
  rt_subject t <> subjectId /\ forall o r, subject_set t = Some (o, r) -> node namespace o r ∈ seen.
Definition settled_node (seen : gset string) (o r : string) : Prop :=
  forall t, t ∈ tuples -> matches_node namespace o r t = true -> settled_tuple seen t.
(** The nodes in [seen'] and not in [seen] are settled. *)
Definition newly_settled (seen seen' : gset string) : Prop :=
  forall o r, free_of hash r -> node namespace o r ∈ seen' -> (node namespace o r ∉ seen) -> settled_node seen' o r.

Lemma settled_tuple_mono s1 s2 t : s1 ⊆ s2 -> settled_tuple s1 t -> settled_tuple s2 t.
Proof. intros Hs [H1 H2]. split; [done|]. intros o r Hor. by apply Hs, H2. Qed.
Lemma newly_settled_trans s1 s2 s3 : s2 ⊆ s3 -> newly_settled s1 s2 -> newly_settled s2 s3 -> newly_settled s1 s3.
Proof.
  intros Hs H1 H2 o r Hr Hin Hn. destruct (decide (node namespace o r ∈ s2)) as [H|H]; [|by apply H2].
  intros t Ht Hm. eapply settled_tuple_mono; [done|]. by eapply H1.
Qed.

Context (root : string).
Definition universe : gset string := {[root]} ∪ set_nodes.

Definition explored (fuel : nat) (o r : string) (seen : gset string) : Prop :=
  free_of hash r -> node namespace o r ∈ universe -> seen ⊆ universe -> (size universe <= size seen + fuel)%nat ->
  forall seen', walk_relation tuples namespace subjectId fuel o r seen = (false, seen') ->
    seen ⊆ seen' /\ seen' ⊆ universe /\ node namespace o r ∈ seen' /\ newly_settled seen seen'.

(** The loop of one node, its node already among those seen. *)
Lemma explore_tuples fuel o r ts seen seen' :
  (forall o r seen, explored fuel o r seen) -> (forall t, t ∈ ts -> t ∈ tuples) ->
  seen ⊆ universe -> (size universe <= size seen + fuel)%nat ->
  any_tuple (fun t seen =>
    if negb (matches_node namespace o r t) then (false, seen)
    else if bool_decide (rt_subject t = subjectId) then (true, seen)
    else match subject_set t with
         | Some (usObject, usRelation) => walk_relation tuples namespace subjectId fuel usObject usRelation seen
         | None => (false, seen)
         end) ts seen = (false, seen') ->
  seen ⊆ seen' /\ seen' ⊆ universe /\ newly_settled seen seen' /\
  forall t, t ∈ ts -> matches_node namespace o r t = true -> settled_tuple seen' t.
Proof.
  intros IH. revert seen. induction ts as [|t ts IHts]; intros seen Hts Hsub Hsize H; cbn [any_tuple] in H.
  { injection H as <-. split_and!; try done. by intros t ?%elem_of_nil. }
  assert (Hts' : forall t, t ∈ ts -> t ∈ tuples) by (intros t' ?; apply Hts; by right).
  destruct (negb (matches_node namespace o r t)) eqn:Hm.
  { destruct (IHts seen Hts' Hsub Hsize H) as (H1 & H2 & H3 & H4). split_and!; try done.
    intros t' [-> |?]%elem_of_cons Hm'; [by rewrite Hm' in Hm|by apply H4]. }
  case_bool_decide as Hd; [done|]. destruct (subject_set t) as [[o2 r2]|] eqn:Hs.
  - destruct (walk_relation tuples namespace subjectId fuel o2 r2 seen) as [[] s2] eqn:Hw; [done|].
    assert (Ht : t ∈ tuples) by (apply Hts; left).
    assert (Hnode : node namespace o2 r2 ∈ universe) by (apply elem_of_union; right; by eapply elem_of_set_nodes).
    destruct (IH o2 r2 seen (subject_set_free t o2 r2 Hs) Hnode Hsub Hsize s2 Hw) as (A1 & A2 & A3 & A4).
    assert (Hgrow : (size seen <= size s2)%nat) by by apply subseteq_size.
    destruct (IHts s2 Hts' A2) as (H1 & H2 & H3 & H4); [lia|done|].
    split_and!; [set_solver|done|by eapply newly_settled_trans|]. intros t' [-> |?]%elem_of_cons Hm'; [|by apply H4].
    split; [done|]. intros o3 r3 Hs'. rewrite Hs in Hs'. injection Hs' as <- <-. by apply H1.
  - destruct (IHts seen Hts' Hsub Hsize H) as (H1 & H2 & H3 & H4). split_and!; try done.
    intros t' [-> |?]%elem_of_cons Hm'; [|by apply H4]. split; [done|]. intros o3 r3 Hs'. congruence.
Qed.

Lemma walk_explored fuel o r seen : explored fuel o r seen.
Proof.
  revert o r seen. induction fuel as [|fuel IH]; intros o r seen Hr Hn Hsub Hsize seen' H; cbn in H.
  - injection H as <-. split_and!; try done. assert (seen ≡ universe) as ->; [|done].
    apply set_subseteq_size_equiv; [done|]. lia.
  - case_bool_decide as Hseen; [by injection H as <-|].
    destruct (explore_tuples fuel o r tuples ({[node namespace o r]} ∪ seen) seen' IH) as (H1 & H2 & H3 & H4); try done; [set_solver| |].
    { rewrite size_union, size_singleton by set_solver. lia. }
    split_and!; [set_solver|done|set_solver|]. intros o2 r2 Hr2 Hin Hnot.
    destruct (decide (node namespace o2 r2 = node namespace o r)) as [E|E]; [|apply H3; [done..|set_solver]].
    by apply node_inj in E as [-> ->].
Qed.

Lemma related_closed seen o r : (forall o r, free_of hash r -> node namespace o r ∈ seen -> settled_node seen o r) ->
  free_of hash r -> node namespace o r ∈ seen -> ~ related o r.
Proof.
  intros Hc Hr Hin Hrel. induction Hrel as [t Ht Hn Hs|t o r Ht Hn Hs Hrel IH].
  - destruct (Hc _ _ Hr Hin t Ht) as [Hne _]; [by apply matches_node_true|done].
  - destruct (Hc _ _ Hr Hin t Ht) as [_ Hset]; [by apply matches_node_true|]. apply IH; [by eapply subject_set_free|by apply Hset].
Qed.
End related.

(** The check follows the relation. A yes is always backed by a chain of tuples, through subject sets,
    from the object and relation asked for to the subject. A no is right as long as the tuples of the
    namespace refer to at most 32 distinct subject sets, in whatever order the tuples are stored and
    however they refer to each other, cycles included; the depth limit is reached by no such walk. *)
Theorem relation_check_follows_tuples tuples q :
  (check_relation tuples q = true -> related tuples (rq_namespace q) (rq_subjectId q) (rq_object q) (rq_relation q)) /\
  (free_of hash (rq_relation q) -> (size (set_nodes tuples (rq_namespace q)) <= MAX_RELATION_DEPTH)%nat ->
   related tuples (rq_namespace q) (rq_subjectId q) (rq_object q) (rq_relation q) -> check_relation tuples q = true).
Proof.
  unfold check_relation. destruct (walk_relation _ _ _ _ _ _ _) as [b seen'] eqn:Hw. cbn. split.
  - intros ->. by eapply walk_relation_sound.
  - intros Hr Hsize Hrel. destruct b; [done|]. exfalso. set (root := node (rq_namespace q) (rq_object q) (rq_relation q)).
    assert (Hroot : root ∈ universe tuples (rq_namespace q) root) by (apply elem_of_union; left; by apply elem_of_singleton).
    assert (Huni : (size (universe tuples (rq_namespace q) root) <= size (∅ : gset string) + S MAX_RELATION_DEPTH)%nat).
    { unfold universe. rewrite size_empty, size_union_alt, size_singleton. cbn [Nat.add]. apply le_n_S. etrans; [|exact Hsize].
      apply subseteq_size. set_solver. }
    destruct (walk_explored tuples (rq_namespace q) (rq_subjectId q) root (S MAX_RELATION_DEPTH) (rq_object q) (rq_relation q) ∅ Hr Hroot
      (empty_subseteq _) Huni seen' Hw) as (_ & _ & Hin & Hnew).
    eapply related_closed; [|exact Hr|exact Hin|exact Hrel]. intros o r Hr' Hin'. apply Hnew; [done|done|set_solver].
Qed.

(** ** Witnesses *)

(** Editors are the members of a group and the owners, whose owners are the editors again. *)
Definition sample_tuples : list RelationTuple :=
  [mkTuple "docs" "plan" "editor" "plan#owner"; mkTuple "docs" "plan" "owner" "plan#editor";
   mkTuple "docs" "plan" "editor" "staff#member"; mkTuple "docs" "staff" "member" "ann"].

Lemma relation_keys_roundtrip_witness :
  parseKey "docs:plan#editor@staff#member" = Some (mkTuple "docs" "plan" "editor" "staff#member") /\
  parseKey (tuple_key (mkTuple "docs" "plan" "editor" "ann@shop.com")) <> Some (mkTuple "docs" "plan" "editor" "ann@shop.com").
Proof.
  split; [|by vm_compute].
  apply (proj1 (relation_keys_roundtrip "docs:plan#editor@staff#member" (mkTuple "docs" "plan" "editor" "staff#member"))).
  split; [done|]. by unfold readable.
Defined.

Lemma relation_check_follows_tuples_witness :
  check_relation sample_tuples (mkQuery "docs" "plan" "owner" "ann") = true /\
  related sample_tuples "docs" "ann" "plan" "owner" /\ ~ related sample_tuples "docs" "bob" "plan" "owner".
Proof.
  split; [by vm_compute|]. split.
  - by apply (relation_check_follows_tuples sample_tuples (mkQuery "docs" "plan" "owner" "ann")); vm_compute.
  - intros H. assert (E : check_relation sample_tuples (mkQuery "docs" "plan" "owner" "bob") = true).
    { apply (relation_check_follows_tuples sample_tuples (mkQuery "docs" "plan" "owner" "bob")); [done| |exact H].
      assert (Hs : Nat.leb (size (set_nodes sample_tuples "docs")) MAX_RELATION_DEPTH = true) by by vm_compute. by apply Nat.leb_le in Hs. }
    by vm_compute in E.
Defined.
