(* ===== verification/AuditTrail.v ===== *)
(** The audit trail: [services/security/src/domain/audit-record.ts] and [audit-chain.ts], the records'
    canonical form and the hash chain, and the ledger that concurrent transactions append to
    ([application/deps.ts], [PrismaAuditLedgerRepository]). *)
From Stdlib Require Import Ascii.
From S2P Require Import Prelude.

#[global] Open Scope Z_scope.

(** ** Records *)

Record AuditRecordContent := mkContent {
  ac_sequence : Z; ac_principalRef : string; ac_action : string; ac_decision : string; ac_resource_ : option string; ac_tenantRef : option string;
  ac_occurredAt : string; ac_metadata : gmap string string; ac_prevHash : string }.
Record AuditRecord := mkRecord { au_id : string; au_content : AuditRecordContent; au_hash : string; au_signature : option string }.

(** ** [JSON.stringify] of what is recorded *)

Definition hex_digit (n : nat) : ascii := ascii_of_nat (if (n <? 10)%nat then 48 + n else 87 + n).
Definition escape_char (c : ascii) : string :=
  let n := nat_of_ascii c in
  let esc d := String "\" (String d EmptyString) in
  if (n =? 34)%nat then esc (ascii_of_nat 34)
  else if (n =? 92)%nat then esc "\"%char
  else if (n =? 8)%nat then esc "b"%char
  else if (n =? 12)%nat then esc "f"%char
  else if (n =? 10)%nat then esc "n"%char
  else if (n =? 13)%nat then esc "r"%char
  else if (n =? 9)%nat then esc "t"%char
  else if (n <? 32)%nat then "\u00" +:+ String (hex_digit (n / 16)) (String (hex_digit (n mod 16)) EmptyString)
  else String c EmptyString.
Fixpoint escape (s : string) : string :=
  match s with EmptyString => EmptyString | String c s' => escape_char c +:+ escape s' end.
Definition json_string (s : string) : string := dquote +:+ escape s +:+ dquote.
Definition json_option (s : option string) : string := match s with Some s => json_string s | None => "null" end.
Definition json_pair (kv : string * string) : string := "[" +:+ json_string kv.1 +:+ "," +:+ json_string kv.2 +:+ "]".
Definition json_pairs (l : list (string * string)) : string :=
  "[" +:+ match l with
          | [] => EmptyString
          | kv :: l' => json_pair kv +:+ foldr (fun kv acc => "," +:+ json_pair kv +:+ acc) EmptyString l'
          end +:+ "]".
Definition json_field (name value : string) : string := quoted name +:+ ":" +:+ value.

(** [Object.keys(metadata).sort()] with their values. *)
Definition sorted_metadata (m : gmap string string) : list (string * string) :=
  (fun k => (k, default EmptyString (m !! k))) <$> sort_by string_le (map_to_list m).*1.

Definition canonicalizeAuditContent (c : AuditRecordContent) : string :=
  "{" +:+ json_field "sequence" (pretty (ac_sequence c)) +:+ "," +:+ json_field "principalRef" (json_string (ac_principalRef c)) +:+ "," +:+
  json_field "action" (json_string (ac_action c)) +:+ "," +:+ json_field "decision" (json_string (ac_decision c)) +:+ "," +:+
  json_field "resource" (json_option (ac_resource_ c)) +:+ "," +:+ json_field "tenantRef" (json_option (ac_tenantRef c)) +:+ "," +:+
  json_field "occurredAt" (json_string (ac_occurredAt c)) +:+ "," +:+ json_field "metadata" (json_pairs (sorted_metadata (ac_metadata c))) +:+ "," +:+
  json_field "prevHash" (json_string (ac_prevHash c)) +:+ "}".

(** ** The chain ([audit-chain.ts]) *)

Definition GENESIS_HASH : string := "genesis".
Record AppendAuditInput := mkAppend {
  ai_id : string; ai_principalRef : string; ai_action : string; ai_decision : string; ai_resource : option string; ai_tenantRef : option string;
  ai_occurredAt : string; ai_metadata : gmap string string }.

(** The first broken link, if any: its sequence number and the reason. *)
Definition ChainVerification := option (Z * string).

Section chain.
Context (digest : string -> string).

Definition append (tail : option AuditRecord) (input : AppendAuditInput) : AuditRecord :=
  let content := mkContent (match tail with None => 1 | Some t => ac_sequence (au_content t) + 1 end)
    (ai_principalRef input) (ai_action input) (ai_decision input) (ai_resource input) (ai_tenantRef input) (ai_occurredAt input) (ai_metadata input)
    (match tail with None => GENESIS_HASH | Some t => au_hash t end) in
  mkRecord (ai_id input) content (digest (canonicalizeAuditContent content)) None.

Fixpoint verify_from (prevHash : string) (expectedSeq : Z) (records : list AuditRecord) : ChainVerification :=
  match records with
  | [] => None
  | record :: rest =>
      let seq := ac_sequence (au_content record) in
      if negb (bool_decide (seq = expectedSeq)) then
        Some (seq, "expected sequence " +:+ pretty expectedSeq +:+ ", found " +:+ pretty seq)
      else if negb (bool_decide (ac_prevHash (au_content record) = prevHash)) then Some (seq, "prevHash discontinuity")
      else if negb (bool_decide (digest (canonicalizeAuditContent (au_content record)) = au_hash record)) then
        Some (seq, "content hash mismatch (tampered)")
      else verify_from (au_hash record) (expectedSeq + 1) rest
  end.
Definition verify (records : list AuditRecord) : ChainVerification := verify_from GENESIS_HASH 1 records.

(** ** The ledger and its concurrent transactions

    A row's bucket is its tenant and the chain's own scope. The rows of a bucket have distinct sequence
    numbers by the unique index on (tenant_id, tenant_scope, sequence), except where the scope is NULL,
    which the index holds apart. A transaction reads the tail, builds its record and inserts it. *)

Record LedgerRow := mkLedgerRow { lg_tenantId : string; lg_scope : option string; lg_record : AuditRecord }.
Definition seq_le (a b : AuditRecord) : bool := ac_sequence (au_content a) <=? ac_sequence (au_content b).
Definition ledger_list (scope : option string) (tenantId : string) (rows : list LedgerRow) : list AuditRecord :=
  sort_by seq_le (lg_record <$> filter (fun r => lg_tenantId r = tenantId /\ lg_scope r = scope) rows).
Definition ledger_tail (scope : option string) (tenantId : string) (rows : list LedgerRow) : option AuditRecord :=
  last (ledger_list scope tenantId rows).

Definition violates (row other : LedgerRow) : bool :=
  match lg_scope row with
  | None => false
  | Some _ => bool_decide (lg_tenantId other = lg_tenantId row) && bool_decide (lg_scope other = lg_scope row) &&
              bool_decide (ac_sequence (au_content (lg_record other)) = ac_sequence (au_content (lg_record row)))
  end.
Definition ledger_insert (row : LedgerRow) : M (list LedgerRow) unit :=
  rows ← gets id;
  throw_if (existsb (violates row) rows) (UnexpectedError "Unique constraint failed");;
  modify (fun rows => rows ++ [row]).

(** [recordAudit], by one transaction alone. *)
Definition recordAudit (tenantId : string) (input : AppendAuditInput) : M (list LedgerRow) AuditRecord :=
  tail ← gets (ledger_tail (ai_tenantRef input) tenantId);
  let record := append tail input in
  ledger_insert (mkLedgerRow tenantId (ai_tenantRef input) record);;
  mret record.

Record AuditWorld := mkAuditWorld { aw_rows : list LedgerRow; aw_workers : gmap nat LedgerRow }.
Inductive audit_step : AuditWorld -> AuditWorld -> Prop :=
| au_read n tenantId input rows ws :
    ws !! n = None ->
    audit_step (mkAuditWorld rows ws)
      (mkAuditWorld rows (<[n := mkLedgerRow tenantId (ai_tenantRef input) (append (ledger_tail (ai_tenantRef input) tenantId rows) input)]> ws))
| au_insert n row r rows rows' ws :
    ws !! n = Some row -> ledger_insert row rows = (r, rows') -> audit_step (mkAuditWorld rows ws) (mkAuditWorld rows' (delete n ws))
| au_crash n rows ws : audit_step (mkAuditWorld rows ws) (mkAuditWorld rows (delete n ws)).

Definition VerifyAuditChain (scope : option string) (tenantId : string) (rows : list LedgerRow) : ChainVerification * nat :=
  let records := ledger_list scope tenantId rows in (verify records, length records).
End chain.

(** ** The canonical form determines what was recorded *)

Definition hex_value (c : ascii) : nat := let n := nat_of_ascii c in if (n <? 58)%nat then n - 48 else n - 87.
(** Reads one escaped character; [None] at the closing quote. *)
Definition unescape_one (s : string) : option (ascii * string) :=
  match s with
  | EmptyString => None
  | String c s' =>
      if (nat_of_ascii c =? 34)%nat then None
      else if negb (nat_of_ascii c =? 92)%nat then Some (c, s')
      else match s' with
      | EmptyString => None
      | String d s'' =>
          match nat_of_ascii d with
          | 98%nat => Some (ascii_of_nat 8, s'')
          | 102%nat => Some (ascii_of_nat 12, s'')
          | 110%nat => Some (ascii_of_nat 10, s'')
          | 114%nat => Some (ascii_of_nat 13, s'')
          | 116%nat => Some (ascii_of_nat 9, s'')
          | 117%nat => match s'' with
                   | String _ (String _ (String a (String b r))) => Some (ascii_of_nat (16 * hex_value a + hex_value b), r)
                   | _ => None
                   end
          | _ => Some (d, s'')
          end
      end
  end.

Lemma unescape_escape c x : unescape_one (escape_char c +:+ x) = Some (c, x).
Proof. destruct c as [[] [] [] [] [] [] [] []]; vm_compute; reflexivity. Qed.
Lemma unescape_quote x : unescape_one (dquote +:+ x) = None.
Proof. reflexivity. Qed.

Lemma json_string_inj s1 s2 x1 x2 : json_string s1 +:+ x1 = json_string s2 +:+ x2 -> s1 = s2 /\ x1 = x2.
Proof.
  unfold json_string. rewrite !append_assoc. intros H.
  assert (H' : escape s1 +:+ (dquote +:+ x1) = escape s2 +:+ (dquote +:+ x2)) by (by injection H). clear H.
  revert s2 H'. induction s1 as [|c s1 IH]; intros [|c2 s2] H; cbn [escape] in H.
  - by injection H.
  - apply (f_equal unescape_one) in H. rewrite append_assoc, unescape_escape in H. discriminate H.
  - apply (f_equal unescape_one) in H. rewrite append_assoc, unescape_escape in H. discriminate H.
  - apply (f_equal unescape_one) in H. rewrite !append_assoc, !unescape_escape in H. injection H as -> H.
    by destruct (IH s2 H) as [-> ->].
Qed.

Lemma json_option_inj o1 o2 x1 x2 : json_option o1 +:+ x1 = json_option o2 +:+ x2 -> o1 = o2 /\ x1 = x2.
Proof.
  destruct o1 as [s1|], o2 as [s2|]; cbn [json_option]; intros H.
  - by destruct (json_string_inj _ _ _ _ H) as [-> ->].
  - discriminate H.
  - discriminate H.
  - by apply append_inj_l in H.
Qed.

Lemma json_pair_inj kv1 kv2 x1 x2 : json_pair kv1 +:+ x1 = json_pair kv2 +:+ x2 -> kv1 = kv2 /\ x1 = x2.
Proof.
  destruct kv1 as [k1 v1], kv2 as [k2 v2]. unfold json_pair. cbn [fst snd]. rewrite !append_assoc. intros H%append_inj_l.
  apply json_string_inj in H as [-> H%append_inj_l]. apply json_string_inj in H as [-> H%append_inj_l]. done.
Qed.

Lemma json_rest_inj l1 l2 x1 x2 :
  foldr (fun kv acc => "," +:+ json_pair kv +:+ acc) EmptyString l1 +:+ ("]" +:+ x1) =
  foldr (fun kv acc => "," +:+ json_pair kv +:+ acc) EmptyString l2 +:+ ("]" +:+ x2) -> l1 = l2 /\ x1 = x2.
Proof.
  revert l2. induction l1 as [|kv1 l1 IH]; intros [|kv2 l2] H; cbn [foldr] in H; [by injection H|discriminate H|discriminate H|].
  rewrite !append_assoc in H. apply append_inj_l, json_pair_inj in H as [-> H]. by destruct (IH l2 H) as [-> ->].
Qed.

Lemma json_pairs_inj l1 l2 x1 x2 : json_pairs l1 +:+ x1 = json_pairs l2 +:+ x2 -> l1 = l2 /\ x1 = x2.
Proof.
  unfold json_pairs. rewrite !append_assoc. intros H%append_inj_l. destruct l1 as [|kv1 l1], l2 as [|kv2 l2]; [by injection H|discriminate H|discriminate H|].
  rewrite !append_assoc in H. apply json_pair_inj in H as [-> H]. by destruct (json_rest_inj _ _ _ _ H) as [-> ->].
Qed.

Lemma elem_of_sorted_metadata m k v : (k, v) ∈ sorted_metadata m <-> m !! k = Some v.
Proof.
  unfold sorted_metadata. rewrite list_elem_of_fmap. split.
  - intros (k' & [= -> ->] & Hk). rewrite (sort_by_perm string_le _) in Hk. apply list_elem_of_fmap in Hk as ([k2 v2] & -> & Hin).
    apply elem_of_map_to_list in Hin. cbn. by rewrite Hin.
  - intros Hm. exists k. rewrite Hm. split; [done|]. rewrite (sort_by_perm string_le _). apply list_elem_of_fmap. exists (k, v).
    by rewrite elem_of_map_to_list.
Qed.

Lemma sorted_metadata_inj m1 m2 : sorted_metadata m1 = sorted_metadata m2 -> m1 = m2.
Proof.
  intros E. apply map_eq. intros k. apply option_eq. intros v. by rewrite <- !elem_of_sorted_metadata, E.
Qed.

Local Ltac literals H := repeat apply append_inj_l in H.

(** Under the same sequence number, contents with the same canonical form are the same. *)
Lemma canonical_inj c1 c2 : ac_sequence c1 = ac_sequence c2 -> canonicalizeAuditContent c1 = canonicalizeAuditContent c2 -> c1 = c2.
Proof.
  destruct c1 as [q1 p1 a1 d1 r1 t1 o1 m1 h1], c2 as [q2 p2 a2 d2 r2 t2 o2 m2 h2]. cbn [ac_sequence]. intros <-.
  unfold canonicalizeAuditContent, json_field.
  cbn [ac_sequence ac_principalRef ac_action ac_decision ac_resource_ ac_tenantRef ac_occurredAt ac_metadata ac_prevHash].
  rewrite !append_assoc. intros H.
  literals H. apply json_string_inj in H as [-> H]. literals H. apply json_string_inj in H as [-> H].
  literals H. apply json_string_inj in H as [-> H]. literals H. apply json_option_inj in H as [-> H].
  literals H. apply json_option_inj in H as [-> H]. literals H. apply json_string_inj in H as [-> H].
  literals H. apply json_pairs_inj in H as [->%sorted_metadata_inj H]. literals H. by apply json_string_inj in H as [-> _].
Qed.

(** ** Verified chains *)

Section chains.
Context (digest : string -> string).

Definition hash_ok (r : AuditRecord) : Prop := digest (canonicalizeAuditContent (au_content r)) = au_hash r.
(** A record that continues a chain of [n] records ending in the hash [prev]. *)
Definition continues (n : nat) (prev : string) (r : AuditRecord) : Prop :=
  ac_sequence (au_content r) = Z.of_nat n + 1 /\ ac_prevHash (au_content r) = prev /\ hash_ok r.
Definition last_hash (l : list AuditRecord) : string := default GENESIS_HASH (au_hash <$> last l).

Lemma verify_from_cons prev s r l :
  verify_from digest prev s (r :: l) = None <->
  ac_sequence (au_content r) = s /\ ac_prevHash (au_content r) = prev /\ hash_ok r /\ verify_from digest (au_hash r) (s + 1) l = None.
Proof. cbn. unfold hash_ok. repeat case_bool_decide; cbn; naive_solver. Qed.

Lemma verify_from_snoc prev s l r :
  verify_from digest prev s (l ++ [r]) = None <->
  verify_from digest prev s l = None /\ ac_sequence (au_content r) = s + Z.of_nat (length l) /\
  ac_prevHash (au_content r) = default prev (au_hash <$> last l) /\ hash_ok r.
Proof.
  revert prev s. induction l as [|x l IH]; intros prev s.
  - cbn [app]. rewrite verify_from_cons. cbn. rewrite Z.add_0_r. naive_solver.
  - cbn [app]. rewrite !verify_from_cons, IH. cbn [length]. replace (s + 1 + Z.of_nat (length l)) with (s + Z.of_nat (S (length l))) by lia.
    assert (El : default (au_hash x) (au_hash <$> last l) = default prev (au_hash <$> last (x :: l))).
    { destruct l as [|y l]; [done|]. rewrite last_cons_cons. by destruct (last_is_Some (y :: l)) as [_ [z ->]]; [|]. }
    rewrite El. tauto.
Qed.

Lemma verify_snoc l r : verify digest (l ++ [r]) = None <-> verify digest l = None /\ continues (length l) (last_hash l) r.
Proof. unfold verify, continues. rewrite verify_from_snoc. replace (1 + Z.of_nat (length l)) with (Z.of_nat (length l) + 1) by lia. done. Qed.

Lemma verify_sequences l : verify digest l = None -> forall i r, l !! i = Some r -> ac_sequence (au_content r) = Z.of_nat i + 1.
Proof.
  induction l as [|r l IH] using rev_ind; [done|]. intros [Hl (Hs & _)]%verify_snoc i x Hi.
  apply lookup_app_Some in Hi as [Hi|[Hle Hi]]; [by apply IH|]. apply list_lookup_singleton_Some in Hi as [Hz <-]. rewrite Hs. lia.
Qed.

Lemma verify_sequences_NoDup l : verify digest l = None -> NoDup ((fun r => ac_sequence (au_content r)) <$> l).
Proof.
  intros Hl. apply NoDup_alt. intros i j x Hi Hj. apply list_lookup_fmap_Some in Hi as (r1 & -> & Hi).
  apply list_lookup_fmap_Some in Hj as (r2 & E & Hj). rewrite (verify_sequences l Hl _ _ Hi), (verify_sequences l Hl _ _ Hj) in E. lia.
Qed.

Lemma verify_from_sorted prev s l : verify_from digest prev s l = None ->
  (forall r, r ∈ l -> s <= ac_sequence (au_content r)) /\ sort_by seq_le l = l.
Proof.
  revert prev s. induction l as [|r l IH]; intros prev s; [by split; [intros r ?%elem_of_nil|]|].
  intros (Hs & _ & _ & Hl)%verify_from_cons. destruct (IH _ _ Hl) as [H1 H2]. split.
  - intros x [-> |Hx]%elem_of_cons; [lia|]. specialize (H1 x Hx). lia.
  - change (sort_by seq_le (r :: l)) with (sort_insert seq_le r (sort_by seq_le l)). rewrite H2. apply sort_insert_first. intros x Hx. specialize (H1 x Hx). unfold seq_le. lia.
Qed.

Lemma append_continues l input : verify digest l = None -> continues (length l) (last_hash l) (append digest (last l) input).
Proof.
  intros Hl. unfold continues, hash_ok, last_hash. cbn. destruct (last l) as [t|] eqn:E; cbn.
  - rewrite last_lookup in E. rewrite (verify_sequences l Hl _ _ E). split_and!; [|done|done].
    assert (length l <> 0)%nat by by destruct l. lia.
  - apply last_None in E as ->. done.
Qed.

(** The audit chain is tamper-evident. Two chains that verify, have the same length and end in the same
    hash record the same contents, provided the digest does not collide on their records; so whatever is
    changed, moved, dropped or put in, short of cutting the chain's end off, shows in the verification or
    in the last hash. The canonical form that is hashed loses nothing of a record. *)
Theorem audit_chain_is_tamper_evident l1 l2 :
  verify digest l1 = None -> verify digest l2 = None -> length l1 = length l2 -> last_hash l1 = last_hash l2 ->
  (forall r1 r2, r1 ∈ l1 -> r2 ∈ l2 ->
    digest (canonicalizeAuditContent (au_content r1)) = digest (canonicalizeAuditContent (au_content r2)) ->
    canonicalizeAuditContent (au_content r1) = canonicalizeAuditContent (au_content r2)) ->
  au_content <$> l1 = au_content <$> l2 /\ au_hash <$> l1 = au_hash <$> l2.
Proof.
  revert l2. induction l1 as [|r1 l1 IH] using rev_ind; intros l2; [by destruct l2|].
  destruct l2 as [|r2 l2 _] using rev_ind; [by rewrite length_app; cbn; lia|].
  intros [V1 (S1 & P1 & H1)]%verify_snoc [V2 (S2 & P2 & H2)]%verify_snoc Hlen Hlast Hc. rewrite !length_app in Hlen. cbn in Hlen.
  unfold last_hash in Hlast. rewrite !last_snoc in Hlast. cbn in Hlast.
  assert (E : au_content r1 = au_content r2).
  { apply canonical_inj; [rewrite S1, S2; lia|]. apply Hc; [apply elem_of_app; right; left..|]. unfold hash_ok in *. congruence. }
  destruct (IH l2 V1 V2) as [E1 E2]; [lia|congruence| |by rewrite !fmap_app, E1, E2; cbn; rewrite E, Hlast].
  intros x1 x2 Hx1 Hx2. apply Hc; apply elem_of_app; by left.
Qed.
End chains.

(** ** The ledger *)

Section ledger.
Context (digest : string -> string).

(** The records of a bucket in the order they were inserted. *)
Definition bucket (scope : option string) (tenantId : string) (rows : list LedgerRow) : list AuditRecord :=
  lg_record <$> filter (fun r => lg_tenantId r = tenantId /\ lg_scope r = scope) rows.

Lemma bucket_snoc scope tenantId rows row :
  bucket scope tenantId (rows ++ [row]) =
    bucket scope tenantId rows ++ (if bool_decide (lg_tenantId row = tenantId /\ lg_scope row = scope) then [lg_record row] else []).
Proof. unfold bucket. rewrite filter_app, fmap_app. f_equal. rewrite filter_cons, filter_nil. by repeat case_decide; case_bool_decide. Qed.

Lemma elem_of_bucket scope tenantId rows r : r ∈ bucket scope tenantId rows <->
  exists row, row ∈ rows /\ lg_tenantId row = tenantId /\ lg_scope row = scope /\ lg_record row = r.
Proof. unfold bucket. rewrite list_elem_of_fmap. setoid_rewrite list_elem_of_filter. naive_solver. Qed.

Lemma ledger_list_bucket scope tenantId rows : verify digest (bucket scope tenantId rows) = None ->
  ledger_list scope tenantId rows = bucket scope tenantId rows.
Proof. intros H. by destruct (verify_from_sorted digest _ _ _ H). Qed.

(** Read and inserted with nothing in between, a record always joins a verified chain. *)
Lemma recordAudit_alone scope tenantId input rows : ai_tenantRef input = scope -> verify digest (bucket scope tenantId rows) = None ->
  exists r rows', recordAudit digest tenantId input rows = (Ok r, rows') /\ rows' = rows ++ [mkLedgerRow tenantId scope r] /\
    bucket scope tenantId rows' = bucket scope tenantId rows ++ [r] /\ verify digest (bucket scope tenantId rows') = None /\
    r = append digest (last (bucket scope tenantId rows)) input.
Proof.
  intros <- Hv. unfold recordAudit, ledger_insert, ledger_tail, gets, throw_if, modify, mret, M_ret, mbind, M_bind.
  rewrite ledger_list_bucket by done. set (B := bucket (ai_tenantRef input) tenantId rows) in *.
  assert (Hc := append_continues digest B input Hv). remember (append digest (last B) input) as r eqn:Er.
  set (row := mkLedgerRow tenantId (ai_tenantRef input) r). assert (Hno : existsb (violates row) rows = false).
  { apply not_true_is_false. intros (other & Hin & Hviol)%existsb_exists. apply list_elem_of_In in Hin. unfold violates in Hviol. cbn in Hviol.
    destruct (ai_tenantRef input) as [s|] eqn:Es; [|done]. rewrite !andb_true_iff, !bool_decide_eq_true in Hviol. destruct Hviol as [[Ht Hs] Hq].
    assert (Hb : lg_record other ∈ B) by (apply elem_of_bucket; by exists other).
    apply list_elem_of_lookup_1 in Hb as [i Hi]. rewrite (verify_sequences digest B Hv i _ Hi) in Hq.
    apply lookup_lt_Some in Hi. destruct Hc as [Hc _]. lia. }
  unfold id. rewrite Hno. exists r, (rows ++ [row]). split_and!; try done.
  - rewrite bucket_snoc. by rewrite bool_decide_true.
  - rewrite bucket_snoc, bool_decide_true by done. by apply verify_snoc.
Qed.

(** A pending record of a scoped bucket continues some prefix of it. *)
Definition pending_ok (rows : list LedgerRow) (row : LedgerRow) : Prop :=
  exists prefix, prefix `prefix_of` bucket (lg_scope row) (lg_tenantId row) rows /\
    continues digest (length prefix) (last_hash prefix) (lg_record row).
Definition ledger_inv (w : AuditWorld) : Prop :=
  (forall s t, verify digest (bucket (Some s) t (aw_rows w)) = None) /\
  (forall n row, aw_workers w !! n = Some row -> is_Some (lg_scope row) -> pending_ok (aw_rows w) row).

Lemma bucket_grows scope tenantId rows row : bucket scope tenantId rows `prefix_of` bucket scope tenantId (rows ++ [row]).
Proof. rewrite bucket_snoc. by eexists. Qed.

Lemma ledger_insert_inv row rows r rows' : ledger_insert row rows = (r, rows') ->
  rows' = rows \/ (rows' = rows ++ [row] /\ forall other, other ∈ rows -> violates row other = false).
Proof.
  unfold ledger_insert, gets, throw_if, modify, mbind, M_bind, id. destruct (existsb (violates row) rows) eqn:E; intros [= <- <-]; [by left|right].
  split; [done|]. intros other Hin. apply not_true_is_false. intros Hv. apply list_elem_of_In in Hin.
  by rewrite (proj2 (existsb_exists _ _) (ex_intro _ other (conj Hin Hv))) in E.
Qed.

Lemma insert_continues s t rows row : verify digest (bucket (Some s) t rows) = None -> lg_tenantId row = t -> lg_scope row = Some s ->
  pending_ok rows row -> (forall other, other ∈ rows -> violates row other = false) ->
  continues digest (length (bucket (Some s) t rows)) (last_hash (bucket (Some s) t rows)) (lg_record row).
Proof.
  intros Hv <- Hs (prefix & [rest Hrest] & Hc) Hno. rewrite Hs in Hrest. destruct rest as [|x rest]; [by rewrite Hrest, app_nil_r|].
  exfalso. assert (Hi : bucket (Some s) (lg_tenantId row) rows !! length prefix = Some x).
  { rewrite Hrest. by rewrite lookup_app_r, Nat.sub_diag. }
  assert (Hq := verify_sequences digest _ Hv _ _ Hi). apply list_elem_of_lookup_2, elem_of_bucket in Hi as (other & Hin & Ht & Hos & <-).
  specialize (Hno other Hin). unfold violates in Hno. rewrite Hs, !bool_decide_true in Hno; try done. destruct Hc as [-> _]. done.
Qed.

Lemma audit_step_inv w w' : audit_step digest w w' -> ledger_inv w -> ledger_inv w' /\ aw_rows w `prefix_of` aw_rows w'.
Proof.
  intros Hs [Hv Hw]. inversion Hs as [n t input rows ws Hn|n row r rows rows' ws Hn Hins|n rows ws]; subst; cbn in *.
  - split; [|done]. split; [done|]. intros m row Hm Hsome. cbn in Hm. apply lookup_insert_Some in Hm as [[<- <-]|[_ Hm]]; [|by eapply Hw].
    cbn in *. destruct Hsome as [s Es]. exists (bucket (Some s) t rows). cbn. rewrite Es. split; [done|].
    unfold ledger_tail. rewrite ledger_list_bucket by apply Hv. apply append_continues. apply Hv.
  - destruct (ledger_insert_inv _ _ _ _ Hins) as [-> |[-> Hno]].
    { split; [|done]. split; [done|]. intros m row' Hm. cbn in Hm. apply lookup_delete_Some in Hm as [_ Hm]. by eapply Hw. }
    split; [|by eexists]. split.
    + intros s t. cbn [aw_rows]. rewrite bucket_snoc. case_bool_decide as Hb; [|rewrite app_nil_r; apply Hv]. destruct Hb as [Ht Hsc].
      apply verify_snoc. split; [apply Hv|]. apply insert_continues; try done; [apply Hv|]. apply (Hw n); [done|by rewrite Hsc].
    + intros m row' Hm Hsome. cbn in Hm. apply lookup_delete_Some in Hm as [_ Hm]. destruct (Hw m row' Hm Hsome) as (prefix & Hp & Hc). exists prefix. split; [|done].
      etrans; [exact Hp|]. apply bucket_grows.
  - split; [|done]. split; [done|]. intros m row' Hm. cbn in Hm. apply lookup_delete_Some in Hm as [_ Hm]. by eapply Hw.
Qed.

(** The chain of every tenant scope survives concurrency. Over any interleaving of transactions that
    read the tail, build their record and insert it, or crash, the chain of every scope that has a name
    verifies, since of two transactions that read the same tail the unique index lets one commit; records
    are only added, and rows once written stay. *)
Theorem scoped_audit_chains_stay_valid w0 w scope tenantId :
  aw_rows w0 = [] -> aw_workers w0 = ∅ -> rtc (audit_step digest) w0 w ->
  (VerifyAuditChain digest (Some scope) tenantId (aw_rows w)).1 = None /\
  forall w', rtc (audit_step digest) w w' -> ledger_list (Some scope) tenantId (aw_rows w) `prefix_of` ledger_list (Some scope) tenantId (aw_rows w').
Proof.
  intros Hr0 Hw0 Hr. assert (H0 : ledger_inv w0).
  { split; [by intros s t; rewrite Hr0|]. intros n row. by rewrite Hw0, lookup_empty. }
  assert (Hrun : forall a b, rtc (audit_step digest) a b -> ledger_inv a -> ledger_inv b /\ aw_rows a `prefix_of` aw_rows b).
  { intros a b H. induction H as [|a b c Hs _ IH]; [done|]. intros Ha. destruct (audit_step_inv a b Hs Ha) as [Hb ?].
    destruct (IH Hb) as [? ?]. split; [done|by etrans]. }
  destruct (Hrun _ _ Hr H0) as [[Hv Hw] _]. unfold VerifyAuditChain. cbn. rewrite ledger_list_bucket by apply Hv. split; [apply Hv|].
  intros w' Hr'. destruct (Hrun w w' Hr' (conj Hv Hw)) as [[Hv' _] [new Hnew]]. rewrite ledger_list_bucket by apply Hv'.
  rewrite Hnew. unfold bucket. rewrite filter_app, fmap_app. by eexists.
Qed.

(** The chain without a scope does not. NULL scopes are distinct to the unique index, so when two
    transactions that record something without a scope read the same tail, both commit: the chain then
    has two records of the same sequence number, and the verification reports a broken link in a ledger
    nobody tampered with. *)
Theorem unscoped_audit_chain_forks tenantId i1 i2 rows :
  ai_tenantRef i1 = None -> ai_tenantRef i2 = None -> verify digest (bucket None tenantId rows) = None ->
  exists rows', rtc (audit_step digest) (mkAuditWorld rows ∅) (mkAuditWorld rows' ∅) /\ length rows' = (length rows + 2)%nat /\
    (VerifyAuditChain digest None tenantId rows').1 <> None.
Proof.
  intros E1 E2 Hv. set (B := bucket None tenantId rows) in *.
  set (row i := mkLedgerRow tenantId None (append digest (ledger_tail None tenantId rows) i)).
  assert (Hins : forall i rows, ledger_insert (row i) rows = (Ok tt, rows ++ [row i])).
  { intros i rs. unfold ledger_insert, gets, throw_if, modify, mbind, M_bind, id.
    assert (existsb (violates (row i)) rs = false) as ->; [|done]. apply not_true_is_false. by intros (? & _ & ?)%existsb_exists. }
  exists ((rows ++ [row i1]) ++ [row i2]). split_and!.
  - assert (A1 := au_read digest 0 tenantId i1 rows ∅ (lookup_empty _)). rewrite E1 in A1.
    assert (A2 := au_read digest 1 tenantId i2 rows (<[0%nat := row i1]> ∅) (lookup_insert_ne _ _ _ _ ltac:(done))). rewrite E2 in A2.
    eapply rtc_l; [exact A1|]. eapply rtc_l; [exact A2|].
    eapply rtc_l; [eapply (au_insert digest 0 (row i1)); [reflexivity|apply Hins]|].
    eapply rtc_l; [eapply (au_insert digest 1 (row i2)); [reflexivity|apply Hins]|]. apply rtc_refl.
  - rewrite !length_app. cbn. lia.
  - unfold VerifyAuditChain. cbn. intros Hvalid. set (l := ledger_list None tenantId ((rows ++ [row i1]) ++ [row i2])) in *.
    assert (Hp : l ≡ₚ B ++ [lg_record (row i1)] ++ [lg_record (row i2)]).
    { unfold l, ledger_list. rewrite sort_by_perm. fold (bucket None tenantId ((rows ++ [row i1]) ++ [row i2])).
      rewrite !bucket_snoc, !bool_decide_true by done. by rewrite app_assoc. }
    assert (Hn := verify_sequences_NoDup digest l Hvalid). rewrite Hp, !fmap_app in Hn. apply NoDup_app in Hn as (_ & _ & Hn). cbn in Hn. apply NoDup_cons in Hn as [Hn _]. apply Hn. left.
Qed.
End ledger.

(** ** Witnesses *)

Definition sample_input (who : string) (scope : option string) : AppendAuditInput :=
  mkAppend ("id-" +:+ who) who "orders:read" "allow" None scope "2026-01-01T00:00:00.000Z" (<["b" := "2"]> (<["a" := quoted "1"]> ∅)).
Definition sample_chain (ids : string) : list AuditRecord :=
  let r1 := append id None (sample_input "ann" None) in
  let r2 := append id (Some r1) (sample_input "bob" None) in
  [mkRecord (ids +:+ "1") (au_content r1) (au_hash r1) None; mkRecord (ids +:+ "2") (au_content r2) (au_hash r2) None].

Lemma audit_chain_is_tamper_evident_witness :
  canonicalizeAuditContent (au_content (append id None (sample_input "ann" None))) =
    "{" +:+ quoted "sequence" +:+ ":1," +:+ quoted "principalRef" +:+ ":" +:+ quoted "ann" +:+ "," +:+ quoted "action" +:+ ":" +:+ quoted "orders:read" +:+
    "," +:+ quoted "decision" +:+ ":" +:+ quoted "allow" +:+ "," +:+ quoted "resource" +:+ ":null," +:+ quoted "tenantRef" +:+ ":null," +:+
    quoted "occurredAt" +:+ ":" +:+ quoted "2026-01-01T00:00:00.000Z" +:+ "," +:+ quoted "metadata" +:+ ":[[" +:+ quoted "a" +:+ "," +:+
    dquote +:+ "\" +:+ dquote +:+ "1\" +:+ dquote +:+ dquote +:+ "],[" +:+ quoted "b" +:+ "," +:+ quoted "2" +:+ "]]," +:+ quoted "prevHash" +:+ ":" +:+ quoted "genesis" +:+ "}" /\
  au_content <$> sample_chain "x" = au_content <$> sample_chain "y".
Proof.
  split; [by vm_compute|]. by apply (audit_chain_is_tamper_evident id (sample_chain "x") (sample_chain "y")); [vm_compute..|].
Defined.

(** Two transactions read the empty chain of a scope; the second to insert fails. *)
Lemma scoped_audit_chains_stay_valid_witness :
  let row who := mkLedgerRow "t1" (Some "t1") (append id None (sample_input who (Some "t1"))) in
  (VerifyAuditChain id (Some "t1") "t1" [row "ann"]).1 = None /\ (VerifyAuditChain id (Some "t1") "t1" [row "ann"; row "bob"]).1 <> None.
Proof.
  cbn zeta. split; [|by vm_compute].
  apply (scoped_audit_chains_stay_valid id (mkAuditWorld [] ∅) (mkAuditWorld [mkLedgerRow "t1" (Some "t1") (append id None (sample_input "ann" (Some "t1")))] ∅));
    [done|done|].
  eapply rtc_l; [by apply (au_read id 0 "t1" (sample_input "ann" (Some "t1")) [] ∅)|].
  eapply rtc_l; [by apply (au_read id 1 "t1" (sample_input "bob" (Some "t1")) [] _)|].
  eapply rtc_l; [by eapply (au_insert id 0)|].
  eapply rtc_l; [by eapply (au_insert id 1)|]. apply rtc_refl.
Defined.

Lemma unscoped_audit_chain_forks_witness :
  exists rows', length rows' = 2%nat /\ (VerifyAuditChain id None "t1" rows').1 <> None.
Proof.
  destruct (unscoped_audit_chain_forks id "t1" (sample_input "ann" None) (sample_input "bob" None) []) as (rows' & _ & H1 & H2); [done..|].
  by exists rows'.
Defined.
