(* ===== verification/Sessions.v ===== *)
(** Identities of the Security context: [services/security/src/domain]. Principals ([principal.ts]), the
    sessions they hold ([session.ts]) and the delegations under which one acts as another
    ([delegation.ts]). *)
From S2P Require Import Prelude Kernel Access.

#[global] Open Scope Z_scope.

(** ** Principals *)

Inductive PrincipalKind := human | service_account | machine | api_key | robot | partner | marketplace | ai.
#[export] Instance PrincipalKind_eq_dec : EqDecision PrincipalKind.
Proof. solve_decision. Defined.
Definition isHumanKind (k : PrincipalKind) : bool := bool_decide (k = human).

Inductive PrincipalStatus := pr_active | pr_suspended | pr_disabled.
#[export] Instance PrincipalStatus_eq_dec : EqDecision PrincipalStatus.
Proof. solve_decision. Defined.
Definition principal_status_name (s : PrincipalStatus) : string :=
  match s with pr_active => "active" | pr_suspended => "suspended" | pr_disabled => "disabled" end.
Definition PRINCIPAL_TRANSITIONS (s : PrincipalStatus) : list PrincipalStatus :=
  match s with pr_active => [pr_suspended; pr_disabled] | pr_suspended => [pr_active; pr_disabled] | pr_disabled => [] end.

Record PrincipalProps := mkPrincipal {
  pn_externalId : string; pn_kind : PrincipalKind; pn_displayName : string; pn_subjectRef : option string; pn_tenantRef : option string;
  pn_status : PrincipalStatus; pn_attributes : gmap string string }.
Abbreviation Principal := (Aggregate PrincipalProps SecurityChanged).
Definition with_principal_status (s : PrincipalStatus) (p : PrincipalProps) : PrincipalProps :=
  mkPrincipal (pn_externalId p) (pn_kind p) (pn_displayName p) (pn_subjectRef p) (pn_tenantRef p) s (pn_attributes p).

Definition principal_emit (event eid : string) (at_ : Z) : M Principal unit :=
  a ← gets (fun a : Principal => a);
  addDomainEvent eid at_ (mkSecurityChanged (agg_id a) "principal" (pn_externalId (agg_props a)) event (principal_status_name (pn_status (agg_props a)))).

Definition principal_register (id externalId : string) (kind : PrincipalKind) (displayName : string) (subjectRef tenantRef : option string)
    (attributes : gmap string string) (eid : string) (at_ : Z) : result Principal :=
  if blank externalId then Err (BusinessRuleError "A principal needs an externalId")
  else if blank displayName then Err (BusinessRuleError "A principal needs a display name")
  else if isHumanKind kind && bool_decide (subjectRef = None) then
    Err (BusinessRuleError "A human principal must reference an Identity subject (subjectRef)")
  else if negb (isHumanKind kind) && bool_decide (subjectRef <> None) then
    Err (BusinessRuleError "A non-human principal cannot carry a human subjectRef")
  else
    let principal := new_agg (mkPrincipal (trim externalId) kind (trim displayName) subjectRef tenantRef pr_active attributes) id in
    Ok (principal_emit "security.principal.registered" eid at_ principal).2.

Definition principal_transition (to_ : PrincipalStatus) (event eid : string) (at_ : Z) : M Principal unit :=
  s ← gets (fun a : Principal => pn_status (agg_props a));
  throw_if (negb (bool_decide (to_ ∈ PRINCIPAL_TRANSITIONS s)))
    (BusinessRuleError ("Principal cannot transition from " +:+ quoted (principal_status_name s) +:+ " to " +:+ quoted (principal_status_name to_)));;
  set_props (with_principal_status to_);;
  principal_emit event eid at_.
Definition principal_suspend := principal_transition pr_suspended "security.principal.suspended".
Definition principal_activate (eid : string) (at_ : Z) : M Principal unit :=
  s ← gets (fun a : Principal => pn_status (agg_props a));
  throw_if (bool_decide (s = pr_active)) (BusinessRuleError "Principal is already active");;
  principal_transition pr_active "security.principal.activated" eid at_.
Definition principal_disable := principal_transition pr_disabled "security.principal.disabled".
Definition principal_isActive (p : PrincipalProps) : bool := bool_decide (pn_status p = pr_active).

(** ** Sessions *)

Inductive SessionStatus := se_active | se_expired | se_revoked.
#[export] Instance SessionStatus_eq_dec : EqDecision SessionStatus.
Proof. solve_decision. Defined.
Definition session_status_name (s : SessionStatus) : string :=
  match s with se_active => "active" | se_expired => "expired" | se_revoked => "revoked" end.

Record SessionProps := mkSession {
  sn_principalRef : string; sn_status : SessionStatus; sn_externalRef : option string; sn_deviceRef : option string; sn_refreshFingerprint : string;
  sn_refreshCount : Z; sn_riskAtLastEval : Z; sn_impersonatedBy : option string; sn_delegationRef : option string;
  sn_establishedAt : Z; sn_lastSeenAt : Z; sn_expiresAt : Z }.
Abbreviation Session := (Aggregate SessionProps SecurityChanged).

Definition with_session_status (s : SessionStatus) (p : SessionProps) : SessionProps :=
  mkSession (sn_principalRef p) s (sn_externalRef p) (sn_deviceRef p) (sn_refreshFingerprint p) (sn_refreshCount p) (sn_riskAtLastEval p)
    (sn_impersonatedBy p) (sn_delegationRef p) (sn_establishedAt p) (sn_lastSeenAt p) (sn_expiresAt p).
Definition refreshed (fingerprint : string) (expiresAt at_ : Z) (p : SessionProps) : SessionProps :=
  mkSession (sn_principalRef p) (sn_status p) (sn_externalRef p) (sn_deviceRef p) fingerprint (sn_refreshCount p + 1) (sn_riskAtLastEval p)
    (sn_impersonatedBy p) (sn_delegationRef p) (sn_establishedAt p) at_ expiresAt.
Definition with_risk (risk : Z) (p : SessionProps) : SessionProps :=
  mkSession (sn_principalRef p) (sn_status p) (sn_externalRef p) (sn_deviceRef p) (sn_refreshFingerprint p) (sn_refreshCount p) risk
    (sn_impersonatedBy p) (sn_delegationRef p) (sn_establishedAt p) (sn_lastSeenAt p) (sn_expiresAt p).

Definition normalizeExternalRef (value : option string) : result (option string) :=
  match value with
  | None => Ok None
  | Some v => if blank v then Err (BusinessRuleError "An external session ref cannot be blank") else Ok (Some (trim v))
  end.
Definition clampRisk (value : Z) : Z := Z.min 100 (Z.max 0 value).

Definition session_emit (event eid : string) (at_ : Z) : M Session unit :=
  a ← gets (fun a : Session => a);
  addDomainEvent eid at_ (mkSecurityChanged (agg_id a) "session" (sn_principalRef (agg_props a)) event (session_status_name (sn_status (agg_props a)))).

Definition session_establish (id principalRef refreshFingerprint : string) (externalRef deviceRef : option string) (riskAtLastEval : option Z)
    (impersonatedBy delegationRef : option string) (expiresAt : Z) (eid : string) (at_ : Z) : result Session :=
  if blank principalRef then Err (BusinessRuleError "A session needs a principalRef")
  else if blank refreshFingerprint then Err (BusinessRuleError "A session needs a refresh token fingerprint")
  else if expiresAt <=? at_ then Err (BusinessRuleError "A session cannot be established already expired")
  else if negb (bool_decide (bool_decide (impersonatedBy = None) = bool_decide (delegationRef = None))) then
    Err (BusinessRuleError "An impersonation session requires both impersonatedBy and delegationRef")
  else
    externalRef ← normalizeExternalRef externalRef;
    let session := new_agg (mkSession (trim principalRef) se_active externalRef deviceRef (trim refreshFingerprint) 0
      (clampRisk (default 0 riskAtLastEval)) impersonatedBy delegationRef at_ at_ expiresAt) id in
    Ok (session_emit "security.session.established" eid at_ session).2.

Definition session_refresh (newFingerprint : string) (expiresAt : Z) (eid : string) (at_ : Z) : M Session unit :=
  p ← gets (fun a : Session => agg_props a);
  throw_if (negb (bool_decide (sn_status p = se_active)))
    (BusinessRuleError ("Only an active session can be refreshed (is " +:+ quoted (session_status_name (sn_status p)) +:+ ")"));;
  throw_if (blank newFingerprint) (BusinessRuleError "Refresh requires a new token fingerprint");;
  throw_if (bool_decide (trim newFingerprint = sn_refreshFingerprint p)) (BusinessRuleError "Refresh must rotate the token (reuse rejected)");;
  throw_if (expiresAt <=? at_) (BusinessRuleError "Refreshed session expiry must be in the future");;
  set_props (refreshed (trim newFingerprint) expiresAt at_);;
  session_emit "security.session.refreshed" eid at_.

Definition session_recordRisk (risk : Z) : M Session unit := set_props (with_risk (clampRisk risk)).

Definition session_revoke (eid : string) (at_ : Z) : M Session unit :=
  s ← gets (fun a : Session => sn_status (agg_props a));
  if bool_decide (s = se_revoked) then mret tt
  else set_props (with_session_status se_revoked);; session_emit "security.session.revoked" eid at_.

Definition session_expireIfDue (now : Z) (eid : string) : M Session bool :=
  p ← gets (fun a : Session => agg_props a);
  if negb (bool_decide (sn_status p = se_active)) then mret false
  else if now <? sn_expiresAt p then mret false
  else set_props (with_session_status se_expired);; session_emit "security.session.expired" eid now;; mret true.

Definition isValidAt (p : SessionProps) (now : Z) : bool := bool_decide (sn_status p = se_active) && (now <? sn_expiresAt p).

(** ** Delegations *)

Record DelegationProps := mkDelegation {
  dg_delegatorRef : string; dg_delegateRef : string; dg_scope : SecurityScope; dg_permissions : list string; dg_status : AssignmentStatus;
  dg_expiresAt : option Z; dg_reason : option string; dg_grantedAt : Z }.
Abbreviation Delegation := (Aggregate DelegationProps SecurityChanged).

Definition with_delegation_status (s : AssignmentStatus) (p : DelegationProps) : DelegationProps :=
  mkDelegation (dg_delegatorRef p) (dg_delegateRef p) (dg_scope p) (dg_permissions p) s (dg_expiresAt p) (dg_reason p) (dg_grantedAt p).
Definition delegation_emit (event eid : string) (at_ : Z) : M Delegation unit :=
  a ← gets (fun a : Delegation => a);
  let p := agg_props a in
  addDomainEvent eid at_ (mkSecurityChanged (agg_id a) "delegation" (dg_delegateRef p +:+ "->" +:+ dg_delegatorRef p) event (assignment_status_name (dg_status p))).

Definition delegation_grant (id delegatorRef delegateRef : string) (scope : option SecurityScope) (permissions : list string) (expiresAt : option Z)
    (reason : option string) (eid : string) (at_ : Z) : result Delegation :=
  if blank delegatorRef then Err (BusinessRuleError "A delegation needs a delegatorRef")
  else if blank delegateRef then Err (BusinessRuleError "A delegation needs a delegateRef")
  else if bool_decide (trim delegatorRef = trim delegateRef) then Err (BusinessRuleError "A principal cannot delegate to itself")
  else if match expiresAt with Some t => t <=? at_ | None => false end then Err (BusinessRuleError "A delegation cannot be granted already expired")
  else
    let d := new_agg (mkDelegation (trim delegatorRef) (trim delegateRef) (scope_or_platform scope) permissions as_active expiresAt reason at_) id in
    Ok (delegation_emit "security.delegation.granted" eid at_ d).2.

Definition delegation_revoke (eid : string) (at_ : Z) : M Delegation unit :=
  s ← gets (fun a : Delegation => dg_status (agg_props a));
  if negb (bool_decide (s = as_active)) then mret tt
  else set_props (with_delegation_status as_revoked);; delegation_emit "security.delegation.revoked" eid at_.

Definition delegation_expireIfDue (now : Z) (eid : string) : M Delegation bool :=
  p ← gets (fun a : Delegation => agg_props a);
  match dg_status p, dg_expiresAt p with
  | as_active, Some t =>
      if now <? t then mret false
      else set_props (with_delegation_status as_expired);; delegation_emit "security.delegation.revoked" eid now;; mret true
  | _, _ => mret false
  end.
Definition delegation_isActiveAt (p : DelegationProps) (now : Z) : bool :=
  bool_decide (dg_status p = as_active) && match dg_expiresAt p with None => true | Some t => now <? t end.

(** ** Sessions over their calls *)

Inductive SessionOp := so_refresh (fingerprint : string) (expiresAt : Z) | so_risk (risk : Z) | so_revoke | so_expire.
Definition session_exec (c : SessionOp * string * Z) : M Session unit :=
  let '(op, eid, at_) := c in
  match op with
  | so_refresh fp expiresAt => session_refresh fp expiresAt eid at_
  | so_risk risk => session_recordRisk risk
  | so_revoke => session_revoke eid at_
  | so_expire => session_expireIfDue at_ eid;; mret tt
  end.

(** What binds a session to its principal, and to the delegation it acts under. *)
Definition session_binding (p : SessionProps) := (sn_principalRef p, sn_externalRef p, sn_impersonatedBy p, sn_delegationRef p).

Lemma session_exec_Ok c a u a' : session_exec c a = (Ok u, a') ->
  agg_id a' = agg_id a /\ agg_version a' = agg_version a /\
  session_binding (agg_props a') = session_binding (agg_props a) /\ sn_refreshCount (agg_props a) <= sn_refreshCount (agg_props a') /\
  (sn_status (agg_props a') = se_active -> sn_status (agg_props a) = se_active) /\
  (sn_refreshCount (agg_props a') = sn_refreshCount (agg_props a) -> sn_refreshFingerprint (agg_props a') = sn_refreshFingerprint (agg_props a) /\
    sn_expiresAt (agg_props a') = sn_expiresAt (agg_props a)) /\
  (sn_refreshCount (agg_props a') <> sn_refreshCount (agg_props a) -> sn_refreshFingerprint (agg_props a') <> sn_refreshFingerprint (agg_props a)).
Proof.
  destruct c as [[op eid] at_]. destruct op as [fp e|r| |]; cbn; unfold session_refresh, session_recordRisk, session_revoke, session_expireIfDue, session_emit; intros H; agg_inv.
  - split_and!; cbn; try done; [lia|lia].
  - split_and!; cbn; done.
  - case_bool_decide as Hs; agg_inv; split_and!; cbn; done.
  - destruct (bool_decide (sn_status (agg_props a) = se_active)) eqn:Hs; cbn [negb] in Hcall; agg_inv; [|split_and!; done].
    destruct (Z.ltb_spec at_ (sn_expiresAt (agg_props a))); agg_inv; split_and!; cbn; done.
Qed.

Lemma run_sessions_Ok cs a u a' : run_ops session_exec cs a = (Ok u, a') ->
  session_binding (agg_props a') = session_binding (agg_props a) /\ sn_refreshCount (agg_props a) <= sn_refreshCount (agg_props a') /\
  (sn_status (agg_props a') = se_active -> sn_status (agg_props a) = se_active) /\
  (sn_refreshCount (agg_props a') = sn_refreshCount (agg_props a) -> sn_expiresAt (agg_props a') = sn_expiresAt (agg_props a)).
Proof.
  revert a. induction cs as [|c cs IH]; intros a H; cbn in H; minv; [split_and!; try done; lia|].
  destruct (session_exec_Ok _ _ _ _ Hcall) as (_ & _ & H1 & H2 & H3 & H4 & _). destruct (IH _ H) as (H5 & H6 & H7 & H8).
  split_and!; [congruence|lia|auto|]. intros E. rewrite H8 by lia. apply H4. lia.
Qed.

(** Sessions end for good, and only a refresh extends them. Whatever calls succeed after a session was
    revoked or swept, it is valid at no time; while nothing refreshed it, it is valid at no time it was not
    valid at before; and it belongs to the same principal, upstream session and delegation throughout, an
    impersonator and a delegation always coming together. *)
Theorem ended_sessions_stay_ended id principalRef fp externalRef deviceRef risk impersonatedBy delegationRef expiresAt eid at_ s0 before after u u' s s' now :
  session_establish id principalRef fp externalRef deviceRef risk impersonatedBy delegationRef expiresAt eid at_ = Ok s0 ->
  run_ops session_exec before s0 = (Ok u, s) -> run_ops session_exec after s = (Ok u', s') ->
  (sn_status (agg_props s) <> se_active -> isValidAt (agg_props s') now = false) /\
  (sn_refreshCount (agg_props s') = sn_refreshCount (agg_props s) -> isValidAt (agg_props s) now = false -> isValidAt (agg_props s') now = false) /\
  session_binding (agg_props s') = session_binding (agg_props s0) /\
  (sn_impersonatedBy (agg_props s') = None <-> sn_delegationRef (agg_props s') = None).
Proof.
  intros H0 H1 H2. destruct (run_sessions_Ok _ _ _ _ H1) as (B1 & _). destruct (run_sessions_Ok _ _ _ _ H2) as (B2 & _ & A2 & E2).
  assert (Hb : session_binding (agg_props s') = session_binding (agg_props s0)) by congruence.
  assert (Hpair : sn_impersonatedBy (agg_props s0) = None <-> sn_delegationRef (agg_props s0) = None).
  { unfold session_establish in H0. destruct (blank principalRef), (blank fp), (expiresAt <=? at_); try done.
    destruct (decide (bool_decide (impersonatedBy = None) = bool_decide (delegationRef = None))) as [E|E]; [rewrite bool_decide_true in H0 by done|by rewrite bool_decide_false in H0].
    cbn [negb] in H0. apply result_bind_Ok in H0 as (ext & _ & [= <-]). cbn. rewrite <- (bool_decide_eq_true (impersonatedBy = None)), <- (bool_decide_eq_true (delegationRef = None)), E. done. }
  split_and!; [| |done|by injection Hb as _ _ -> ->]; unfold isValidAt; rewrite !andb_false_iff, !bool_decide_eq_false.
  - intros Hs. left. auto.
  - intros Hc [Hs|Hs]; [left; auto|right]. by rewrite E2.
Qed.

Lemma session_refresh_Ok fp expiresAt eid at_ (s : Session) :
  sn_status (agg_props s) = se_active -> blank fp = false -> trim fp <> sn_refreshFingerprint (agg_props s) -> at_ < expiresAt ->
  exists s', session_refresh fp expiresAt eid at_ s = (Ok tt, s') /\ agg_props s' = refreshed (trim fp) expiresAt at_ (agg_props s) /\
    agg_id s' = agg_id s /\ agg_version s' = agg_version s.
Proof.
  intros H1 H2 H3 H4. unfold session_refresh, session_emit, throw_if, gets, set_props, modify, addDomainEvent, mbind, M_bind.
  rewrite (bool_decide_true (sn_status _ = _)), H2, (bool_decide_false (trim fp = _)) by done. destruct (Z.leb_spec expiresAt at_); [lia|].
  cbn. by eexists.
Qed.

(** ** Principals and delegations over their calls *)

Lemma principal_transition_Ok to_ event eid at_ a u a' : principal_transition to_ event eid at_ a = (Ok u, a') ->
  to_ ∈ PRINCIPAL_TRANSITIONS (pn_status (agg_props a)) /\ agg_props a' = with_principal_status to_ (agg_props a).
Proof.
  unfold principal_transition, principal_emit. intros H. agg_inv. by split.
Qed.

(** A disabled principal stays disabled. *)
Lemma principal_disabled_for_good to_ event eid at_ a u a' :
  pn_status (agg_props a) = pr_disabled -> principal_transition to_ event eid at_ a = (Ok u, a') -> False.
Proof. intros Hd [Ht _]%principal_transition_Ok. rewrite Hd in Ht. by apply elem_of_nil in Ht. Qed.

Lemma delegation_grant_distinct id delegatorRef delegateRef scope permissions expiresAt reason eid at_ d :
  delegation_grant id delegatorRef delegateRef scope permissions expiresAt reason eid at_ = Ok d ->
  dg_delegatorRef (agg_props d) <> dg_delegateRef (agg_props d) /\ delegation_isActiveAt (agg_props d) at_ = true.
Proof.
  unfold delegation_grant. destruct (blank delegatorRef), (blank delegateRef); try done. case_bool_decide as He; [done|].
  destruct expiresAt as [t|]; [destruct (Z.leb_spec t at_); [done|]|]; intros [= <-]; split; try done.
  unfold delegation_isActiveAt. cbn. by apply Z.ltb_lt.
Qed.

Definition sample_session : Session :=
  unwrapOr (session_establish "s1" "p1" "fp0" (Some "kratos-1") None None (Some "p2") (Some "d1") 100 "e0" 0)
    (new_agg (mkSession "" se_expired None None "" 0 0 None None 0 0 0) "").
Definition session_before : list (SessionOp * string * Z) := [(so_refresh "fp1" 200, "e1", 50); (so_risk 250, "e2", 60)].
Definition session_after : list (SessionOp * string * Z) := [(so_revoke, "e3", 70); (so_expire, "e4", 300)].

Lemma ended_sessions_stay_ended_witness :
  let s := (run_ops session_exec session_before sample_session).2 in
  let s' := (run_ops session_exec session_after s).2 in
  isValidAt (agg_props s) 150 = true /\ isValidAt (agg_props s') 150 = false /\
  session_binding (agg_props s') = ("p1", Some "kratos-1", Some "p2", Some "d1").
Proof.
  cbn zeta. split; [by vm_compute|]. split; [by vm_compute|].
  destruct (ended_sessions_stay_ended "s1" "p1" "fp0" (Some "kratos-1") None None (Some "p2") (Some "d1") 100 "e0" 0 sample_session session_before session_after tt tt
    (run_ops session_exec session_before sample_session).2
    (run_ops session_exec session_after (run_ops session_exec session_before sample_session).2).2 150) as (_ & _ & H & _); [by vm_compute..|].
  rewrite H. by vm_compute.
Defined.
