(* ===== verification/AccessFlow.v ===== *)
(** The Security context's use cases over its store: [services/security/src/application]. The zero-trust
    decision ([access.use-cases.ts]), the unified check of roles, relations and attributes
    ([authz.use-cases.ts]), sessions ([session.use-cases.ts]) and delegations ([delegation.use-cases.ts]),
    each writing its audit record in the same transaction ([deps.ts]). *)
From S2P Require Import Prelude Kernel Access Policies Relations AuditTrail Sessions.

#[global] Open Scope Z_scope.

(** ** The store: the rows of each table with their tenant, the audit ledger, the outbox, the ids drawn *)

Record SecurityStore := mkSecurityStore {
  sy_principals : list (string * Principal); sy_sessions : list (string * Session); sy_roles : list (string * RoleProps);
  sy_assignments : list (string * RoleAssignmentProps); sy_policies : list (string * PolicyProps); sy_profiles : list (string * (string * option string));
  sy_tuples : list (string * RelationTuple); sy_delegations : list (string * Delegation);
  sy_ledger : list LedgerRow; sy_outbox : list (string * (EventMeta * SecurityChanged)); sy_drawn : nat }.
Abbreviation SecurityM := (M SecurityStore).

Definition with_sessions (f : list (string * Session) -> list (string * Session)) (s : SecurityStore) : SecurityStore :=
  mkSecurityStore (sy_principals s) (f (sy_sessions s)) (sy_roles s) (sy_assignments s) (sy_policies s) (sy_profiles s) (sy_tuples s) (sy_delegations s)
    (sy_ledger s) (sy_outbox s) (sy_drawn s).
Definition with_delegations (f : list (string * Delegation) -> list (string * Delegation)) (s : SecurityStore) : SecurityStore :=
  mkSecurityStore (sy_principals s) (sy_sessions s) (sy_roles s) (sy_assignments s) (sy_policies s) (sy_profiles s) (sy_tuples s) (f (sy_delegations s))
    (sy_ledger s) (sy_outbox s) (sy_drawn s).
Definition with_ledger (l : list LedgerRow) (s : SecurityStore) : SecurityStore :=
  mkSecurityStore (sy_principals s) (sy_sessions s) (sy_roles s) (sy_assignments s) (sy_policies s) (sy_profiles s) (sy_tuples s) (sy_delegations s)
    l (sy_outbox s) (sy_drawn s).
Definition with_outbox (events : list (string * (EventMeta * SecurityChanged))) (s : SecurityStore) : SecurityStore :=
  mkSecurityStore (sy_principals s) (sy_sessions s) (sy_roles s) (sy_assignments s) (sy_policies s) (sy_profiles s) (sy_tuples s) (sy_delegations s)
    (sy_ledger s) (sy_outbox s ++ events) (sy_drawn s).
Definition with_drawn (n : nat) (s : SecurityStore) : SecurityStore :=
  mkSecurityStore (sy_principals s) (sy_sessions s) (sy_roles s) (sy_assignments s) (sy_policies s) (sy_profiles s) (sy_tuples s) (sy_delegations s)
    (sy_ledger s) (sy_outbox s) n.

Definition with_tuples (f : list (string * RelationTuple) -> list (string * RelationTuple)) (s : SecurityStore) : SecurityStore :=
  mkSecurityStore (sy_principals s) (sy_sessions s) (sy_roles s) (sy_assignments s) (sy_policies s) (sy_profiles s) (f (sy_tuples s)) (sy_delegations s)
    (sy_ledger s) (sy_outbox s) (sy_drawn s).

(** A transaction: a failure leaves nothing behind but the ids it drew. *)
Definition in_tx {A} (m : SecurityM A) : SecurityM A := fun s =>
  match m s with (Ok a, s') => (Ok a, s') | (Err e, s') => (Err e, with_drawn (sy_drawn s') s) end.

(** The rows of one tenant. *)
Definition of_tenant {A} (tenantId : string) (rows : list (string * A)) : list A := (filter (fun r => r.1 = tenantId) rows).*2.

Definition findPrincipal (externalId tenantId : string) (s : SecurityStore) : option Principal :=
  head (filter (fun p : Principal => pn_externalId (agg_props p) = externalId) (of_tenant tenantId (sy_principals s))).
Definition findPrincipalById (id tenantId : string) (s : SecurityStore) : option Principal :=
  head (filter (fun p : Principal => agg_id p = id) (of_tenant tenantId (sy_principals s))).
Definition findSession (id tenantId : string) (s : SecurityStore) : option Session :=
  head (filter (fun x : Session => agg_id x = id) (of_tenant tenantId (sy_sessions s))).
Definition established_later (a b : Session) : bool := sn_establishedAt (agg_props b) <=? sn_establishedAt (agg_props a).
Definition findSessionByExternalRef (externalRef tenantId : string) (s : SecurityStore) : option Session :=
  head (sort_by established_later (filter (fun x : Session => sn_externalRef (agg_props x) = Some externalRef) (of_tenant tenantId (sy_sessions s)))).
Definition sessionsOf (principalRef tenantId : string) (s : SecurityStore) : list Session :=
  filter (fun x : Session => sn_principalRef (agg_props x) = principalRef) (of_tenant tenantId (sy_sessions s)).
Definition assignmentsOf (principalRef tenantId : string) (s : SecurityStore) : list RoleAssignmentProps :=
  filter (fun a => ra_principalRef a = principalRef) (of_tenant tenantId (sy_assignments s)).
Definition findPolicy (key tenantId : string) (s : SecurityStore) : option PolicyProps :=
  head (filter (fun p => po_key p = key) (of_tenant tenantId (sy_policies s))).
Definition findProfile (tenantRef tenantId : string) (s : SecurityStore) : option (string * option string) :=
  head (filter (fun p => p.1 = tenantRef) (of_tenant tenantId (sy_profiles s))).
Definition findDelegation (id tenantId : string) (s : SecurityStore) : option Delegation :=
  head (filter (fun d : Delegation => agg_id d = id) (of_tenant tenantId (sy_delegations s))).

(** [persist]: a new aggregate is inserted at version 1, another updated where its version is the one it
    was loaded at. *)
Section persist.
Context {P : Type} (label : string).
Implicit Types (a : Aggregate P SecurityChanged) (r : string * Aggregate P SecurityChanged).

Definition same_row (tenantId : string) a r : bool :=
  bool_decide (agg_id r.2 = agg_id a) && bool_decide (r.1 = tenantId) && bool_decide (agg_version r.2 = agg_version a).
Definition stored_at (version : Z) a : Aggregate P SecurityChanged := mkAgg (agg_id a) version [] (agg_props a).
Definition persist (rows : list (string * Aggregate P SecurityChanged)) (tenantId : string) a : result (list (string * Aggregate P SecurityChanged)) :=
  if bool_decide (agg_version a = 0) then
    if existsb (fun r => bool_decide (agg_id r.2 = agg_id a)) rows then Err (UnexpectedError "Unique constraint failed")
    else Ok (rows ++ [(tenantId, stored_at 1 a)])
  else if existsb (same_row tenantId a) rows then
    Ok ((fun r => if same_row tenantId a r then (r.1, stored_at (agg_version r.2 + 1) a) else r) <$> rows)
  else Err (ConcurrencyError (label +:+ " " +:+ agg_id a +:+ " was modified concurrently (expected version " +:+ pretty (agg_version a) +:+ ")")).
End persist.

Definition publish (tenantId : string) (events : list (EventMeta * SecurityChanged)) : SecurityM unit := modify (with_outbox (pair tenantId <$> events)).
Definition saveSession (x : Session) (tenantId : string) : SecurityM unit :=
  rows ← gets sy_sessions;
  rows ← lift (persist "Session" rows tenantId x);
  modify (with_sessions (fun _ => rows));;
  publish tenantId (agg_events x).
Definition saveDelegation (x : Delegation) (tenantId : string) : SecurityM unit :=
  rows ← gets sy_delegations;
  rows ← lift (persist "Delegation" rows tenantId x);
  modify (with_delegations (fun _ => rows));;
  publish tenantId (agg_events x).

(** ** The use cases

    [digest] is the hash of the audit chain, [toISOString] prints a time, [generate n] is the [n]-th id of
    the generator, [deviceTrusted] the device directory and [fragments] the registry of policy fragments.
    The clock reads [now] throughout a use case. *)

Section usecases.
Context (digest : string -> string) (toISOString : Z -> string) (generate : nat -> string).
Context (deviceTrusted : string -> bool) (fragments : FragmentResolver).

Definition newId : SecurityM string :=
  n ← gets sy_drawn;
  modify (with_drawn (S n));;
  mret (generate n).
Definition newEntityId : SecurityM string :=
  id ← newId;
  lift (UniqueEntityId_from id).

Definition securityEvent (aggregate aggregateId key event status : string) (now : Z) : SecurityM (EventMeta * SecurityChanged) :=
  eid ← newId;
  id ← lift (UniqueEntityId_from aggregateId);
  mret (mkMeta eid id now, mkSecurityChanged aggregateId aggregate key event status).
Definition publish_fact (tenantId aggregate aggregateId key event status : string) (now : Z) : SecurityM unit :=
  e ← securityEvent aggregate aggregateId key event status now;
  publish tenantId [e].

(** A method of the audit ledger, on the store. *)
Definition on_ledger {A} (m : M (list LedgerRow) A) : SecurityM A := fun s =>
  match m (sy_ledger s) with (r, rows) => (r, with_ledger rows s) end.

Record AuditAppendInput := mkAuditAppend {
  aa_tenantId : string; aa_principalRef : string; aa_action : string; aa_decision : string; aa_resource : option string; aa_tenantRef : option string;
  aa_metadata : list (string * string) }.
Definition record_audit (input : AuditAppendInput) (now : Z) : SecurityM AuditRecord :=
  id ← newId;
  record ← on_ledger (recordAudit digest (aa_tenantId input) (mkAppend id (aa_principalRef input) (aa_action input) (aa_decision input)
    (aa_resource input) (aa_tenantRef input) (toISOString now) (list_to_map (aa_metadata input))));
  publish_fact (aa_tenantId input) "audit" (au_id record) (aa_principalRef input) "security.audit.recorded" (aa_decision input) now;;
  mret record.

(** ** Zero-trust decisions ([access.use-cases.ts]) *)

Record EvaluateAccessInput := mkEvaluateAccess {
  ev_tenantId : string; ev_principalExternalId : string; ev_permission : string; ev_sessionId : option string; ev_resource : option string;
  ev_scope : option SecurityScope; ev_environment : option string; ev_deviceRef : option string; ev_policyKey : option string;
  ev_risk : option RiskSignals; ev_trust : option TrustSignals }.
Record AccessDecisionOutput := mkAccessDecision {
  ad_effect : PolicyEffect; ad_allowed : bool; ad_reasons : list string; ad_matchedRuleIds : list string; ad_policyKey : option string;
  ad_policyVersion : option Z; ad_risk : Z; ad_trust : Z; ad_roleKeys : list string; ad_auditId : string }.
Definition no_risk : RiskSignals := mkRiskSignals None None None None None.
Definition no_trust : TrustSignals := mkTrustSignals None None None None.

Definition session_gate (input : EvaluateAccessInput) (principal : option Principal) (now : Z) (s : SecurityStore) : bool :=
  match ev_sessionId input with
  | Some id => match findSession id (ev_tenantId input) s with Some x => isValidAt (agg_props x) now | None => false end
  | None => match principal with Some p => negb (isHumanKind (pn_kind (agg_props p))) | None => false end
  end.

(** The permissions of a principal; [None] when the fuel runs out. *)
Definition principal_authorization (p : Principal) (scope : option SecurityScope) (tenantId : string) (now : Z) (s : SecurityStore) :
    option EffectiveAuthorization :=
  effective_authorization (of_tenant tenantId (sy_roles s)) (assignmentsOf (agg_id p) tenantId s) (scope_or_platform scope) now.

Definition governing_policy_key (input : EvaluateAccessInput) (tenantRef : option string) (s : SecurityStore) : option string :=
  match ev_policyKey input, tenantRef with
  | Some k, _ => Some k
  | None, Some t => profile ← findProfile t (ev_tenantId input) s; profile.2
  | None, None => None
  end.
Definition governing_version (key : option string) (tenantId : string) (s : SecurityStore) : option PolicyVersion :=
  k ← key;
  policy ← findPolicy k tenantId s;
  activePolicyVersion policy.

Definition access_context (input : EvaluateAccessInput) (principal : option Principal) (permissionGranted : bool) (now : Z) (s : SecurityStore) : ZeroTrustContext :=
  mkContext (match principal with Some p => principal_isActive (agg_props p) | None => false end) (session_gate input principal now s) permissionGranted
    (match ev_deviceRef input with Some d => deviceTrusted d | None => false end) (risk_score (default no_risk (ev_risk input)))
    (trust_score (default no_trust (ev_trust input))) (ev_environment input)
    (match ev_resource input with Some r => match urn_parse r with Ok u => Some u | Err _ => None end | None => None end).

Definition EvaluateAccess (input : EvaluateAccessInput) (now : Z) : SecurityM AccessDecisionOutput :=
  required ← lift (PermissionSpec_parse (ev_permission input));
  principal ← gets (findPrincipal (ev_principalExternalId input) (ev_tenantId input));
  let principalRef := match principal with Some p => pn_externalId (agg_props p) | None => ev_principalExternalId input end in
  let tenantRef := p ← principal; pn_tenantRef (agg_props p) in
  effective ← gets (fun s => match principal with Some p => principal_authorization p (ev_scope input) (ev_tenantId input) now s | None => Some (mkEffective [] []) end);
  effective ← lift (match effective with Some e => Ok e | None => Err (UnexpectedError "out of fuel") end);
  policyKey ← gets (governing_policy_key input tenantRef);
  version ← gets (governing_version policyKey (ev_tenantId input));
  context ← gets (access_context input principal (isAuthorized effective required) now);
  let decision := zero_trust_evaluate context version fragments in
  in_tx (
    audit ← record_audit (mkAuditAppend (ev_tenantId input) principalRef (PermissionSpec_toString required) (effect_name (zd_effect decision)) (ev_resource input) tenantRef
      [("risk", pretty (zt_risk context)); ("trust", pretty (zt_trust context)); ("roles", show_nat (length (ea_roleKeys effective)));
       ("policy", default "none" policyKey); ("version", match zd_policyVersion decision with Some v => pretty v | None => "none" end)]) now;
    publish_fact (ev_tenantId input) "access" (au_id audit) principalRef "security.access.evaluated" (effect_name (zd_effect decision)) now;;
    mret (mkAccessDecision (zd_effect decision) (bool_decide (zd_effect decision = allow)) (zd_reasons decision) (zd_matchedRuleIds decision) policyKey
      (zd_policyVersion decision) (zt_risk context) (zt_trust context) (ea_roleKeys effective) (au_id audit))).

(** ** Relations and the unified check ([authz.use-cases.ts]) *)

Definition WriteRelationTuple (tenantId : string) (tuple : RelationTuple) (now : Z) : SecurityM string :=
  id ← newId;
  in_tx (
    modify (with_tuples (fun rows => if existsb (fun r => bool_decide (r.1 = tenantId) && bool_decide (tuple_key r.2 = tuple_key tuple)) rows then rows
      else rows ++ [(tenantId, tuple)]));;
    publish_fact tenantId "relation" id (tuple_key tuple) "security.relation.written" "written" now;;
    _ ← record_audit (mkAuditAppend tenantId "system" "security.relation.written" "allow" None None [("tuple", tuple_key tuple)]) now;
    mret (tuple_key tuple)).

Definition DeleteRelationTuple (tenantId : string) (tuple : RelationTuple) (now : Z) : SecurityM bool :=
  let key := tuple_key tuple in
  let is_it (r : string * RelationTuple) := bool_decide (r.1 = tenantId) && bool_decide (tuple_key r.2 = key) in
  in_tx (
    removed ← gets (fun s : SecurityStore => existsb is_it (sy_tuples s));
    modify (with_tuples (filter (fun r => is_it r = false)));;
    (if (removed : bool) then
      id ← newId;
      publish_fact tenantId "relation" id key "security.relation.deleted" "deleted" now;;
      _ ← record_audit (mkAuditAppend tenantId "system" "security.relation.deleted" "allow" None None [("tuple", key)]) now;
      mret tt
     else mret tt);;
    mret removed).

Record CheckAccessInput := mkCheckAccess {
  ca_tenantId : string; ca_principalExternalId : string; ca_permission : string; ca_scope : option SecurityScope;
  ca_namespace : option string; ca_object : option string; ca_relation : option string;
  ca_abac : option AbacCondition; ca_resourceAttributes : option (gmap string string); ca_environmentAttributes : option (gmap string string) }.
Record AccessModelDecision := mkModelDecision {
  am_allowed : bool; am_grantedBy : list string; am_abacSatisfied : bool; am_abacMismatches : list AbacMismatch; am_reasons : list string }.

Definition dimension_name (d : Dimension) : string :=
  match d with d_principal => "principal" | d_resource => "resource" | d_environment => "environment" end.
Fixpoint join (sep : string) (l : list string) : string :=
  match l with [] => EmptyString | [x] => x | x :: l' => x +:+ sep +:+ join sep l' end.

Definition rebac_granted (input : CheckAccessInput) (p : Principal) (s : SecurityStore) : bool :=
  match ca_namespace input, ca_object input, ca_relation input with
  | Some n, Some o, Some r => check_relation (of_tenant (ca_tenantId input) (sy_tuples s)) (mkQuery n o r (pn_externalId (agg_props p)))
  | _, _, _ => false
  end.
Definition abac_result (input : CheckAccessInput) (p : Principal) : AbacResult :=
  match ca_abac input with
  | None => mkAbacResult true []
  | Some c => abac_evaluate c (mkAbacContext (pn_attributes (agg_props p)) (default ∅ (ca_resourceAttributes input)) (default ∅ (ca_environmentAttributes input)))
  end.

(** One decision from the roles, the relations and the attributes. *)
Definition model_decision (rbac rebac : bool) (abac : AbacResult) : AccessModelDecision :=
  let grantedBy := (if rbac then ["rbac"] else []) ++ (if rebac then ["rebac"] else []) in
  let granted := bool_decide (grantedBy <> []) in
  let allowed := granted && ar_satisfied abac in
  mkModelDecision allowed grantedBy (ar_satisfied abac) (ar_mismatches abac)
    ((if granted then [] else ["permission not granted by RBAC or ReBAC"]) ++
     (if ar_satisfied abac then []
      else ["ABAC constraint failed: " +:+ join ", " ((fun m => dimension_name (mm_dimension m) +:+ "." +:+ mm_attribute m) <$> ar_mismatches abac)]) ++
     (if allowed then ["granted by " +:+ join "+" grantedBy] else [])).

Definition CheckAccess (input : CheckAccessInput) (now : Z) : SecurityM AccessModelDecision :=
  required ← lift (PermissionSpec_parse (ca_permission input));
  principal ← gets (findPrincipal (ca_principalExternalId input) (ca_tenantId input));
  match principal with
  | None => mret (mkModelDecision false [] false [] ["unknown principal"])
  | Some p =>
      effective ← gets (principal_authorization p (ca_scope input) (ca_tenantId input) now);
      effective ← lift (match effective with Some e => Ok e | None => Err (UnexpectedError "out of fuel") end);
      rebac ← gets (rebac_granted input p);
      let d := model_decision (isAuthorized effective required) rebac (abac_result input p) in
      in_tx (
        _ ← record_audit (mkAuditAppend (ca_tenantId input) (pn_externalId (agg_props p)) (PermissionSpec_toString required) (if am_allowed d then "allow" else "deny")
          None (pn_tenantRef (agg_props p))
          [("models", match am_grantedBy d with [] => "none" | l => join "+" l end); ("abac", if am_abacSatisfied d then "true" else "false")]) now;
        mret d)
  end.

(** ** Sessions ([session.use-cases.ts]) *)

Record SessionOutput := mkSessionOutput {
  so_id : string; so_principalRef : string; so_status : SessionStatus; so_externalRef : option string; so_refreshCount : Z;
  so_impersonatedBy : option string; so_expiresAt : Z }.
Definition present_session (x : Session) : SessionOutput :=
  let p := agg_props x in
  mkSessionOutput (agg_id x) (sn_principalRef p) (sn_status p) (sn_externalRef p) (sn_refreshCount p) (sn_impersonatedBy p) (sn_expiresAt p).

Definition load {A} (message : string) (found : SecurityStore -> option A) : SecurityM A :=
  a ← gets found;
  lift (match a with Some a => Ok a | None => Err (NotFoundError message) end).

(** A method of a loaded aggregate: its error is the use case's. *)
Definition call_on {P} (a : Aggregate P SecurityChanged) (m : M (Aggregate P SecurityChanged) unit) : SecurityM (Aggregate P SecurityChanged) :=
  lift (match m a with (Ok _, a') => Ok a' | (Err e, _) => Err e end).

Definition allow_audit (tenantId principalRef action : string) (tenantRef : option string) (metadata : list (string * string)) (now : Z) : SecurityM unit :=
  _ ← record_audit (mkAuditAppend tenantId principalRef action "allow" None tenantRef metadata) now;
  mret tt.

Definition EstablishSession (tenantId principalExternalId refreshFingerprint : string) (externalRef deviceRef : option string) (ttlSeconds now : Z) :
    SecurityM SessionOutput :=
  principal ← load "Principal not found" (findPrincipal principalExternalId tenantId);
  in_tx (
    id ← newEntityId;
    eid ← newId;
    x ← lift (session_establish id (agg_id principal) refreshFingerprint externalRef deviceRef None None None (now + ttlSeconds * 1000) eid now);
    saveSession x tenantId;;
    allow_audit tenantId (pn_externalId (agg_props principal)) "security.session.established" (pn_tenantRef (agg_props principal)) [] now;;
    mret (present_session x)).

Definition FederateExternalSession (tenantId principalExternalId externalRef refreshFingerprint : string) (deviceRef : option string) (ttlSeconds now : Z) :
    SecurityM SessionOutput :=
  throw_if (blank externalRef) (ValidationError "An external session ref is required" []);;
  principal ← load "Principal not found" (findPrincipal principalExternalId tenantId);
  existing ← gets (findSessionByExternalRef (trim externalRef) tenantId);
  match existing with
  | Some x =>
      if negb (bool_decide (sn_principalRef (agg_props x) = agg_id principal)) then throw (AuthenticationError "External session is bound to a different principal")
      else if negb (isValidAt (agg_props x) now) then
        throw (AuthenticationError ("External session is no longer valid (" +:+ session_status_name (sn_status (agg_props x)) +:+ ")"))
      else mret (present_session x)
  | None => EstablishSession tenantId principalExternalId refreshFingerprint (Some (trim externalRef)) deviceRef ttlSeconds now
  end.

Definition RefreshSession (tenantId sessionId newRefreshFingerprint : string) (ttlSeconds now : Z) : SecurityM SessionOutput :=
  in_tx (
    x ← load "Session not found" (findSession sessionId tenantId);
    eid ← newId;
    x ← call_on x (session_refresh newRefreshFingerprint (now + ttlSeconds * 1000) eid now);
    saveSession x tenantId;;
    allow_audit tenantId (sn_principalRef (agg_props x)) "security.session.refreshed" None [] now;;
    mret (present_session x)).

Definition RevokeSession (tenantId sessionId : string) (now : Z) : SecurityM SessionOutput :=
  in_tx (
    x ← load "Session not found" (findSession sessionId tenantId);
    eid ← newId;
    x ← call_on x (session_revoke eid now);
    saveSession x tenantId;;
    allow_audit tenantId (sn_principalRef (agg_props x)) "security.session.revoked" None [] now;;
    mret (present_session x)).

Fixpoint revoke_each (tenantId : string) (now : Z) (sessions : list Session) : SecurityM Z :=
  match sessions with
  | [] => mret 0
  | x :: rest =>
      if negb (bool_decide (sn_status (agg_props x) = se_active)) then revoke_each tenantId now rest
      else
        eid ← newId;
        x ← call_on x (session_revoke eid now);
        saveSession x tenantId;;
        n ← revoke_each tenantId now rest;
        mret (n + 1)
  end.

Definition RevokeAllSessions (tenantId principalExternalId : string) (now : Z) : SecurityM Z :=
  principal ← load "Principal not found" (findPrincipal principalExternalId tenantId);
  in_tx (
    sessions ← gets (sessionsOf (agg_id principal) tenantId);
    revoked ← revoke_each tenantId now sessions;
    allow_audit tenantId (pn_externalId (agg_props principal)) "security.session.revoked_all" (pn_tenantRef (agg_props principal)) [("revoked", pretty revoked)] now;;
    match pn_subjectRef (agg_props principal) with
    | Some subject => publish_fact tenantId "session" (agg_id principal) subject "security.session.revoked_all" "revoked" now
    | None => mret tt
    end;;
    mret revoked).

Definition IntrospectSession (tenantId sessionId : string) (now : Z) : SecurityM (bool * option SessionOutput) :=
  x ← gets (findSession sessionId tenantId);
  mret (match x with Some x => (isValidAt (agg_props x) now, Some (present_session x)) | None => (false, None) end).

Record SessionSubject := mkSubject {
  sj_active : bool; sj_sessionId : option string; sj_principalExternalId : option string; sj_subjectRef : option string; sj_expiresAt : option Z }.
Definition INACTIVE_SUBJECT : SessionSubject := mkSubject false None None None None.

Definition session_subject (tenantId sessionId : string) (now : Z) (s : SecurityStore) : SessionSubject :=
  if blank sessionId then INACTIVE_SUBJECT
  else match findSession sessionId tenantId s with
  | None => INACTIVE_SUBJECT
  | Some x =>
      if negb (isValidAt (agg_props x) now) then INACTIVE_SUBJECT
      else match findPrincipalById (sn_principalRef (agg_props x)) tenantId s with
      | None => INACTIVE_SUBJECT
      | Some p =>
          if negb (principal_isActive (agg_props p)) then INACTIVE_SUBJECT
          else if negb (isHumanKind (pn_kind (agg_props p))) then INACTIVE_SUBJECT
          else match pn_subjectRef (agg_props p) with
          | None => INACTIVE_SUBJECT
          | Some subject => mkSubject true (Some (agg_id x)) (Some (pn_externalId (agg_props p))) (Some subject) (Some (sn_expiresAt (agg_props x)))
          end
      end
  end.
Definition IntrospectSessionSubject (tenantId sessionId : string) (now : Z) : SecurityM SessionSubject := gets (session_subject tenantId sessionId now).

(** ** Delegations ([delegation.use-cases.ts]) *)

Record DelegationOutput := mkDelegationOutput {
  do_id : string; do_delegatorRef : string; do_delegateRef : string; do_status : AssignmentStatus; do_scope : string; do_expiresAt : option Z }.
Definition present_delegation (d : Delegation) : DelegationOutput :=
  let p := agg_props d in
  mkDelegationOutput (agg_id d) (dg_delegatorRef p) (dg_delegateRef p) (dg_status p) (scope_key (dg_scope p)) (dg_expiresAt p).

Definition GrantDelegation (tenantId delegatorExternalId delegateExternalId : string) (scope : option SecurityScope) (permissions : option (list string))
    (ttlSeconds : option Z) (reason : option string) (now : Z) : SecurityM DelegationOutput :=
  delegator ← load "Delegator principal not found" (findPrincipal delegatorExternalId tenantId);
  delegate ← load "Delegate principal not found" (findPrincipal delegateExternalId tenantId);
  in_tx (
    id ← newEntityId;
    eid ← newId;
    d ← lift (delegation_grant id (agg_id delegator) (agg_id delegate) scope (default [] permissions) ((fun ttl => now + ttl * 1000) <$> ttlSeconds) reason eid now);
    saveDelegation d tenantId;;
    allow_audit tenantId (pn_externalId (agg_props delegate)) "security.delegation.granted" None [("delegator", pn_externalId (agg_props delegator))] now;;
    mret (present_delegation d)).

Definition RevokeDelegation (tenantId delegationId : string) (now : Z) : SecurityM DelegationOutput :=
  in_tx (
    d ← load "Delegation not found" (findDelegation delegationId tenantId);
    eid ← newId;
    d ← call_on d (delegation_revoke eid now);
    saveDelegation d tenantId;;
    allow_audit tenantId (dg_delegateRef (agg_props d)) "security.delegation.revoked" None [] now;;
    mret (present_delegation d)).

Record ImpersonationOutput := mkImpersonation { im_sessionId : string; im_actingAs : string; im_impersonatedBy : string; im_expiresAt : Z }.

Definition StartImpersonation (tenantId delegationId refreshFingerprint : string) (ttlSeconds now : Z) : SecurityM ImpersonationOutput :=
  d ← load "Delegation not found" (findDelegation delegationId tenantId);
  throw_if (negb (delegation_isActiveAt (agg_props d) now)) (BusinessRuleError "Delegation is not active");;
  in_tx (
    let p := agg_props d in
    id ← newEntityId;
    eid ← newId;
    x ← lift (session_establish id (dg_delegatorRef p) refreshFingerprint None None None (Some (dg_delegateRef p)) (Some (agg_id d)) (now + ttlSeconds * 1000) eid now);
    saveSession x tenantId;;
    allow_audit tenantId (dg_delegatorRef p) "security.session.established" None [("impersonatedBy", dg_delegateRef p); ("delegation", agg_id d)] now;;
    mret (mkImpersonation (agg_id x) (dg_delegatorRef p) (dg_delegateRef p) (now + ttlSeconds * 1000))).

(** ** What the use cases leave *)

Context (Hids : forall n, blank (generate n) = false).

(** The tables other than the ledger and the outbox. *)
Definition tables (s : SecurityStore) :=
  (sy_principals s, sy_sessions s, sy_roles s, sy_assignments s, sy_policies s, sy_profiles s, sy_tuples s, sy_delegations s).
Definition chain_ok (scope : option string) (tenantId : string) (s : SecurityStore) : Prop := verify digest (bucket scope tenantId (sy_ledger s)) = None.
(** The facts published since. *)
Definition published_since (s s' : SecurityStore) (names : list string) : Prop :=
  exists events, sy_outbox s' = sy_outbox s ++ events /\ (fun e => sc_event e.2.2) <$> events = names.

Lemma published_nil s s' : sy_outbox s' = sy_outbox s -> published_since s s' [].
Proof. intros E. exists []. by rewrite app_nil_r. Qed.
Lemma published_trans s1 s2 s3 l1 l2 : published_since s1 s2 l1 -> published_since s2 s3 l2 -> published_since s1 s3 (l1 ++ l2).
Proof. intros (e1 & H1 & <-) (e2 & H2 & <-). exists (e1 ++ e2). by rewrite H2, H1, app_assoc, fmap_app. Qed.

Lemma bind_run {A B} (m : SecurityM A) (f : A -> SecurityM B) s a s' : m s = (Ok a, s') -> (m ≫= f) s = f a s'.
Proof. unfold mbind, M_bind. by intros ->. Qed.
Lemma bind_fail {A B} (m : SecurityM A) (f : A -> SecurityM B) s e s' : m s = (Err e, s') -> (m ≫= f) s = (Err e, s').
Proof. unfold mbind, M_bind. by intros ->. Qed.
Lemma in_tx_run {A} (m : SecurityM A) s a s' : m s = (Ok a, s') -> in_tx m s = (Ok a, s').
Proof. unfold in_tx. by intros ->. Qed.

Lemma publish_fact_run tenantId aggregate aggregateId key event status now s : blank aggregateId = false ->
  exists s', publish_fact tenantId aggregate aggregateId key event status now s = (Ok tt, s') /\
    tables s' = tables s /\ sy_ledger s' = sy_ledger s /\ published_since s s' [event].
Proof.
  intros Hb. unfold publish_fact, securityEvent, UniqueEntityId_from, Guard.againstEmpty. rewrite Hb. eexists. split; [reflexivity|].
  split_and!; [done..|]. by eexists.
Qed.

(** Where the chain of the scope verifies, an audit record always joins it. *)
Lemma record_audit_run input now s : chain_ok (aa_tenantRef input) (aa_tenantId input) s ->
  exists r s', record_audit input now s = (Ok r, s') /\ tables s' = tables s /\
    sy_ledger s' = sy_ledger s ++ [mkLedgerRow (aa_tenantId input) (aa_tenantRef input) r] /\
    chain_ok (aa_tenantRef input) (aa_tenantId input) s' /\ published_since s s' ["security.audit.recorded"] /\ blank (au_id r) = false /\
    (ac_principalRef (au_content r), ac_action (au_content r), ac_decision (au_content r), ac_resource_ (au_content r)) =
      (aa_principalRef input, aa_action input, aa_decision input, aa_resource input).
Proof.
  intros Hc. set (i := mkAppend (generate (sy_drawn s)) (aa_principalRef input) (aa_action input) (aa_decision input) (aa_resource input) (aa_tenantRef input)
    (toISOString now) (list_to_map (aa_metadata input))).
  destruct (recordAudit_alone digest (aa_tenantRef input) (aa_tenantId input) i (sy_ledger s) eq_refl Hc) as (r & rows & Hr & Hrows & _ & Hv & Er).
  set (s1 := with_ledger rows (with_drawn (S (sy_drawn s)) s)). assert (Hid : blank (au_id r) = false) by (rewrite Er; apply Hids).
  destruct (publish_fact_run (aa_tenantId input) "audit" (au_id r) (aa_principalRef input) "security.audit.recorded" (aa_decision input) now s1 Hid)
    as (s' & Hp & Ht & Hl & Hout).
  exists r, s'. split_and!.
  - unfold record_audit. rewrite (bind_run _ _ s (generate (sy_drawn s)) (with_drawn (S (sy_drawn s)) s)) by done.
    rewrite (bind_run _ _ _ r s1) by (unfold on_ledger; fold i; cbn [sy_ledger with_drawn]; by rewrite Hr). by rewrite (bind_run _ _ _ tt s').
  - by rewrite Ht.
  - by rewrite Hl, <- Hrows.
  - unfold chain_ok. by rewrite Hl.
  - done.
  - done.
  - by rewrite Er.
Qed.

(** What an evaluation does with the permissions [e] of the principal. *)
Lemma EvaluateAccess_run input now s required e :
  let tenantId := ev_tenantId input in
  let principal := findPrincipal (ev_principalExternalId input) tenantId s in
  let tenantRef := p ← principal; pn_tenantRef (agg_props p) in
  let version := governing_version (governing_policy_key input tenantRef s) tenantId s in
  let decision := zero_trust_evaluate (access_context input principal (isAuthorized e required) now s) version fragments in
  PermissionSpec_parse (ev_permission input) = Ok required ->
  match principal with Some p => principal_authorization p (ev_scope input) tenantId now s | None => Some (mkEffective [] []) end = Some e ->
  chain_ok tenantRef tenantId s ->
  exists out s' r, EvaluateAccess input now s = (Ok out, s') /\
    ad_effect out = zd_effect decision /\ ad_allowed out = bool_decide (zd_effect decision = allow) /\ ad_auditId out = au_id r /\
    tables s' = tables s /\ sy_ledger s' = sy_ledger s ++ [mkLedgerRow tenantId tenantRef r] /\ chain_ok tenantRef tenantId s' /\
    published_since s s' ["security.audit.recorded"; "security.access.evaluated"] /\
    ac_action (au_content r) = PermissionSpec_toString required /\ ac_decision (au_content r) = effect_name (zd_effect decision).
Proof.
  intros tenantId principal tenantRef version decision Hparse He Hchain.
  set (context := access_context input principal (isAuthorized e required) now s) in *. set (key := governing_policy_key input tenantRef s) in *.
  set (eff := match principal with Some p => _ | None => _ end) in He.
  set (audit := mkAuditAppend tenantId (match principal with Some p => pn_externalId (agg_props p) | None => ev_principalExternalId input end)
    (PermissionSpec_toString required) (effect_name (zd_effect decision)) (ev_resource input) tenantRef
    [("risk", pretty (zt_risk context)); ("trust", pretty (zt_trust context)); ("roles", show_nat (length (ea_roleKeys e)));
     ("policy", default "none" key); ("version", match zd_policyVersion decision with Some v => pretty v | None => "none" end)]).
  destruct (record_audit_run audit now s Hchain) as (r & s1 & Hr & Ht1 & Hl1 & Hc1 & Hp1 & Hid & Hcontent).
  destruct (publish_fact_run tenantId "access" (au_id r) (aa_principalRef audit) "security.access.evaluated" (aa_decision audit) now s1 Hid)
    as (s' & Hp & Ht & Hl & Hp2).
  eexists _, s', r. split.
  - unfold EvaluateAccess. rewrite (bind_run _ _ s required s) by (by rewrite Hparse). rewrite (bind_run _ _ s principal s) by done. cbn zeta.
    rewrite (bind_run _ _ s eff s) by done. rewrite (bind_run _ _ s e s) by (by rewrite He). rewrite (bind_run _ _ s key s) by done.
    rewrite (bind_run _ _ s version s) by done. rewrite (bind_run _ _ s context s) by done. apply in_tx_run. fold decision audit.
    rewrite (bind_run _ _ s r s1) by done. by rewrite (bind_run _ _ s1 tt s').
  - injection Hcontent as _ Ha Hd _. unfold chain_ok. rewrite Ht, Hl. split_and!; try done. by apply (published_trans _ s1 _ [_] [_]).
Qed.

(** C19: every decision is the one the rules call for, and every decision is recorded. In a tenant whose
    roles have keys of their own and where the audit chain verifies, evaluating a well-formed request always
    answers: it allows exactly when the principal is known and active, the session is valid (a principal
    without a session must not be human), the active roles assigned to the principal grant the permission in
    the requested scope, and every effect the active version of the governing policy weighs is to allow. The
    store is left as it was but for one audit record of the request and its outcome, with which the chain
    still verifies, and two published facts. *)
Theorem every_access_decision_is_audited input now s required :
  let tenantId := ev_tenantId input in
  let principal := findPrincipal (ev_principalExternalId input) tenantId s in
  let tenantRef := p ← principal; pn_tenantRef (agg_props p) in
  let version := governing_version (governing_policy_key input tenantRef s) tenantId s in
  NoDup (ro_key <$> of_tenant tenantId (sy_roles s)) ->
  PermissionSpec_parse (ev_permission input) = Ok required ->
  chain_ok tenantRef tenantId s ->
  exists out s' r, EvaluateAccess input now s = (Ok out, s') /\
    (ad_allowed out = true <-> exists p, principal = Some p /\ pn_status (agg_props p) = pr_active /\ session_gate input principal now s = true /\
      authorized (of_tenant tenantId (sy_roles s)) (assignmentsOf (agg_id p) tenantId s) (scope_or_platform (ev_scope input)) now required = Some true /\
      match version with None => True | Some v => Forall (fun e => e = allow) (weighed_effects (access_context input principal true now s) fragments v) end) /\
    tables s' = tables s /\ sy_ledger s' = sy_ledger s ++ [mkLedgerRow tenantId tenantRef r] /\ chain_ok tenantRef tenantId s' /\
    published_since s s' ["security.audit.recorded"; "security.access.evaluated"] /\ ad_auditId out = au_id r /\
    ac_action (au_content r) = PermissionSpec_toString required /\ ac_decision (au_content r) = effect_name (ad_effect out).
Proof.
  intros tenantId principal tenantRef version Hroles Hparse Hchain.
  assert (exists e, match principal with Some p => principal_authorization p (ev_scope input) tenantId now s | None => Some (mkEffective [] []) end = Some e) as [e He].
  { destruct principal as [p|]; [|by eexists]. by apply effective_authorization_total. }
  destruct (EvaluateAccess_run input now s required e Hparse He Hchain) as (out & s' & r & Hrun & Heff & Hall & Hid & Ht & Hl & Hc & Hp & Ha & Hd).
  exists out, s', r. split_and!; try done; [|by rewrite Heff]. rewrite Hall, bool_decide_eq_true, zero_trust_allows.
  cbn [access_context zt_principalActive zt_sessionValid zt_permissionGranted].
  fold tenantId principal tenantRef version. clear -He. clearbody version tenantRef. unfold authorized. clearbody principal.
  destruct principal as [p|]; [|split; [by intros [? _]|by intros (p & ? & _)]]. split.
  - intros (Ha & Hs & Hg & Hv). exists p. rewrite Hg in Hv. split_and!; [done|by apply (bool_decide_eq_true_1 _)|done| |done].
    unfold principal_authorization in He. rewrite He. change (Some (isAuthorized e required) = Some true). by rewrite Hg.
  - intros (p' & [= <-] & Ha & Hs & Hg & Hv). unfold principal_authorization in He. rewrite He in Hg.
    change (Some (isAuthorized e required) = Some true) in Hg. injection Hg as Hg. rewrite Hg. split_and!; [by apply (bool_decide_eq_true_2 _)|done..].
Qed.

Definition with_session_id (id : string) (i : EvaluateAccessInput) : EvaluateAccessInput :=
  mkEvaluateAccess (ev_tenantId i) (ev_principalExternalId i) (ev_permission i) (Some id) (ev_resource i) (ev_scope i) (ev_environment i) (ev_deviceRef i)
    (ev_policyKey i) (ev_risk i) (ev_trust i).

(** The session gate does not ask whose session it is. Whatever two sessions of the tenant are valid,
    and whoever holds them, an evaluation answers and records the same with the one as with the other: a
    principal whose own sessions are all revoked passes the gate with anybody else's. *)
Theorem session_gate_takes_any_session input id1 id2 x1 x2 now s :
  findSession id1 (ev_tenantId input) s = Some x1 -> findSession id2 (ev_tenantId input) s = Some x2 ->
  isValidAt (agg_props x1) now = true -> isValidAt (agg_props x2) now = true ->
  EvaluateAccess (with_session_id id1 input) now s = EvaluateAccess (with_session_id id2 input) now s.
Proof.
  intros H1 H2 Hv1 Hv2.
  assert (Hc : forall principal granted, access_context (with_session_id id1 input) principal granted now s = access_context (with_session_id id2 input) principal granted now s).
  { intros principal granted. unfold access_context, session_gate. cbn [ev_sessionId ev_tenantId with_session_id]. by rewrite H1, H2, Hv1, Hv2. }
  unfold EvaluateAccess. cbn [with_session_id ev_permission]. destruct (PermissionSpec_parse (ev_permission input)) as [required|e];
    [|by rewrite !(bind_fail (lift (Err e)) _ s e s)].
  rewrite !(bind_run (lift (Ok required)) _ s required s) by done. cbn [with_session_id ev_principalExternalId ev_tenantId ev_scope].
  set (principal := findPrincipal (ev_principalExternalId input) (ev_tenantId input) s). rewrite !(bind_run (gets _) _ s principal s) by done. cbn zeta.
  set (eff := match principal with Some p => principal_authorization p (ev_scope input) (ev_tenantId input) now s | None => Some (mkEffective [] []) end).
  rewrite !(bind_run (gets _) _ s eff s) by done. destruct eff as [e|];
    [|by rewrite !(bind_fail (lift (Err _)) _ s (UnexpectedError "out of fuel") s)]. rewrite !(bind_run (lift (Ok e)) _ s e s) by done.
  set (tenantRef := principal ≫= _). unfold governing_policy_key. cbn [ev_policyKey ev_tenantId with_session_id].
  set (key := governing_policy_key input tenantRef s). rewrite !(bind_run (gets _) _ s key s) by done.
  set (version := governing_version key (ev_tenantId input) s). rewrite !(bind_run (gets _) _ s version s) by done.
  set (context := access_context (with_session_id id2 input) principal (isAuthorized e required) now s).
  rewrite !(bind_run (gets _) _ s context s) by (try done; unfold gets; by rewrite Hc). done.
Qed.

(** ** What saving a row does *)

Section rows.
Context {P : Type}.
Implicit Types (rows : list (string * Aggregate P SecurityChanged)) (a b : Aggregate P SecurityChanged).

Definition ids_of rows : list string := (fun r => agg_id r.2) <$> rows.
Definition rows_ok rows : Prop := NoDup (ids_of rows) /\ Forall (fun r => 0 < agg_version r.2) rows.
Definition find_row (id tenantId : string) rows : option (Aggregate P SecurityChanged) :=
  head (filter (fun a => agg_id a = id) (of_tenant tenantId rows)).
Definition update_row (tenantId : string) a rows : list (string * Aggregate P SecurityChanged) :=
  (fun r => if bool_decide (agg_id r.2 = agg_id a) then (tenantId, stored_at (agg_version a + 1) a) else r) <$> rows.

Lemma elem_of_tenant (tenantId : string) rows a : a ∈ of_tenant tenantId rows <-> (tenantId, a) ∈ rows.
Proof.
  unfold of_tenant. rewrite list_elem_of_fmap. setoid_rewrite list_elem_of_filter. split.
  - by intros ([t b] & -> & <- & ?).
  - intros ?. by exists (tenantId, a).
Qed.

Lemma rows_inj rows r1 r2 : NoDup (ids_of rows) -> r1 ∈ rows -> r2 ∈ rows -> agg_id r1.2 = agg_id r2.2 -> r1 = r2.
Proof. intros Hn H1 H2 E. by eapply (NoDup_fmap_elem (fun r : string * Aggregate P SecurityChanged => agg_id r.2)). Qed.

Lemma find_row_Some rows id tenantId a : NoDup (ids_of rows) -> find_row id tenantId rows = Some a <-> (tenantId, a) ∈ rows /\ agg_id a = id.
Proof.
  intros Hn. unfold find_row. set (l := filter _ _). assert (Hl : forall b, b ∈ l <-> agg_id b = id /\ (tenantId, b) ∈ rows).
  { intros b. unfold l. by rewrite list_elem_of_filter, elem_of_tenant. }
  split.
  - intros H. destruct l as [|b l]; [done|]. injection H as ->. destruct (proj1 (Hl a) ltac:(left)). done.
  - intros [Hin Hid]. destruct l as [|b l].
    + by destruct (proj1 (elem_of_nil a) (proj2 (Hl a) (conj Hid Hin))).
    + destruct (proj1 (Hl b) ltac:(left)) as [Hb Hbin]. cbn. f_equal.
      assert (E : (tenantId, b) = (tenantId, a)) by (apply (rows_inj rows); cbn; congruence || done). by injection E.
Qed.

Lemma persist_update label rows tenantId a0 a : rows_ok rows -> (tenantId, a0) ∈ rows -> agg_id a = agg_id a0 -> agg_version a = agg_version a0 ->
  persist label rows tenantId a = Ok (update_row tenantId a rows).
Proof.
  intros [Hn Hv] Hin Hid Hver. assert (H0 := proj1 (Forall_forall _ _) Hv _ Hin). cbn in H0. unfold persist. rewrite bool_decide_false by lia.
  assert (Hsame : forall r, r ∈ rows -> same_row tenantId a r = bool_decide (agg_id r.2 = agg_id a)).
  { intros r Hr. unfold same_row. case_bool_decide as E; [|done]. assert (r = (tenantId, a0)) as -> by (apply (rows_inj rows); cbn; congruence || done).
    cbn. by rewrite !bool_decide_true. }
  assert (existsb (same_row tenantId a) rows = true) as ->.
  { apply existsb_exists. exists (tenantId, a0). split; [by apply list_elem_of_In|]. rewrite Hsame by done. by apply bool_decide_true. }
  f_equal. apply fmap_ext_elem. intros r Hr. rewrite Hsame by done. case_bool_decide as E; [|done].
  assert (r = (tenantId, a0)) as -> by (apply (rows_inj rows); cbn; congruence || done). cbn. by rewrite Hver.
Qed.

Lemma persist_create label rows tenantId a : agg_version a = 0 -> (agg_id a ∉ ids_of rows) -> persist label rows tenantId a = Ok (rows ++ [(tenantId, stored_at 1 a)]).
Proof.
  intros Hv Hn. unfold persist. rewrite bool_decide_true by done. assert (existsb (fun r => bool_decide (agg_id r.2 = agg_id a)) rows = false) as ->; [|done].
  apply not_true_is_false. intros (r & Hr & E)%existsb_exists. apply bool_decide_eq_true in E. apply Hn. rewrite <- E.
  apply list_elem_of_fmap. exists r. split; [done|by apply list_elem_of_In].
Qed.

Lemma update_row_ids tenantId a rows : ids_of (update_row tenantId a rows) = ids_of rows.
Proof. unfold ids_of, update_row. rewrite <- list_fmap_compose. apply list_fmap_ext. intros i r _. cbn. by case_bool_decide. Qed.

Lemma update_row_ok tenantId a rows : 0 <= agg_version a -> rows_ok rows -> rows_ok (update_row tenantId a rows).
Proof.
  intros Hv [Hn Hf]. split; [by rewrite update_row_ids|]. unfold update_row. apply Forall_fmap. eapply Forall_impl; [exact Hf|].
  intros r Hr. cbn. case_bool_decide; [cbn; lia|done].
Qed.

Lemma update_row_elem tenantId a rows : agg_id a ∈ ids_of rows -> (tenantId, stored_at (agg_version a + 1) a) ∈ update_row tenantId a rows.
Proof.
  intros (r & E & Hr)%list_elem_of_fmap. unfold update_row. apply list_elem_of_fmap. exists r. by rewrite bool_decide_true.
Qed.
Lemma update_row_other tenantId a rows r : agg_id r.2 <> agg_id a -> r ∈ rows -> r ∈ update_row tenantId a rows.
Proof. intros Hne Hr. unfold update_row. apply list_elem_of_fmap. exists r. by rewrite bool_decide_false. Qed.
End rows.

Lemma saveSession_update tenantId x0 x s : rows_ok (sy_sessions s) -> (tenantId, x0) ∈ sy_sessions s -> agg_id x = agg_id x0 -> agg_version x = agg_version x0 ->
  saveSession x tenantId s = (Ok tt, with_outbox (pair tenantId <$> agg_events x) (with_sessions (fun _ => update_row tenantId x (sy_sessions s)) s)).
Proof. intros. unfold saveSession. unfold mbind, M_bind, gets, lift. by rewrite (persist_update "Session" _ tenantId x0 x). Qed.

Lemma allow_audit_run tenantId principalRef action tenantRef metadata now s : chain_ok tenantRef tenantId s ->
  exists s', allow_audit tenantId principalRef action tenantRef metadata now s = (Ok tt, s') /\ tables s' = tables s /\ chain_ok tenantRef tenantId s' /\
    published_since s s' ["security.audit.recorded"].
Proof.
  intros Hc. destruct (record_audit_run (mkAuditAppend tenantId principalRef action "allow" None tenantRef metadata) now s Hc) as (r & s' & Hr & Ht & _ & Hc' & Hp & _).
  exists s'. split_and!; try done. unfold allow_audit. by rewrite (bind_run _ _ s r s').
Qed.

(** A use case that loads a session, calls a method on it and saves it. *)
Definition on_session (tenantId id action : string) (m : string -> M Session unit) (now : Z) : SecurityM SessionOutput :=
  in_tx (
    x ← load "Session not found" (findSession id tenantId);
    eid ← newId;
    x ← call_on x (m eid);
    saveSession x tenantId;;
    allow_audit tenantId (sn_principalRef (agg_props x)) action None [] now;;
    mret (present_session x)).

Lemma on_session_run tenantId id action m now s x u x' : rows_ok (sy_sessions s) -> chain_ok None tenantId s ->
  findSession id tenantId s = Some x -> m (generate (sy_drawn s)) x = (Ok u, x') -> agg_id x' = agg_id x -> agg_version x' = agg_version x ->
  exists s', on_session tenantId id action m now s = (Ok (present_session x'), s') /\ sy_sessions s' = update_row tenantId x' (sy_sessions s) /\
    sy_principals s' = sy_principals s /\ sy_delegations s' = sy_delegations s /\ chain_ok None tenantId s' /\
    findSession id tenantId s' = Some (stored_at (agg_version x + 1) x').
Proof.
  intros Hok Hc Hf Hm Hid Hver. destruct Hok as [Hn Hv]. destruct (proj1 (find_row_Some _ _ _ _ Hn) Hf) as [Hin Hxid].
  set (s1 := with_drawn (S (sy_drawn s)) s).
  set (s2 := with_outbox (pair tenantId <$> agg_events x') (with_sessions (fun _ => update_row tenantId x' (sy_sessions s1)) s1)).
  destruct (allow_audit_run tenantId (sn_principalRef (agg_props x')) action None [] now s2 Hc) as (s' & Ha & Ht & Hc' & _).
  unfold tables in Ht. injection Ht as Hp Hs _ _ _ _ _ Hd. exists s'. split_and!; try done.
  - unfold on_session. apply in_tx_run. rewrite (bind_run _ _ s x s) by (unfold load, mbind, M_bind, gets, lift; by rewrite Hf).
    rewrite (bind_run _ _ s (generate (sy_drawn s)) s1) by done. rewrite (bind_run _ _ s1 x' s1) by (unfold call_on, lift; by rewrite Hm).
    rewrite (bind_run _ _ s1 tt s2) by (by apply (saveSession_update tenantId x)). by rewrite (bind_run _ _ s2 tt s').
  - apply find_row_Some; rewrite Hs; cbn [s2 s1 sy_sessions with_outbox with_sessions with_drawn].
    + by rewrite update_row_ids.
    + split; [|cbn; congruence]. rewrite <- Hver. apply update_row_elem. rewrite Hid. apply list_elem_of_fmap. by exists (tenantId, x).
Qed.

Lemma session_refresh_run fp expiresAt eid at_ (x : Session) : sn_status (agg_props x) = se_active -> blank fp = false ->
  trim fp <> sn_refreshFingerprint (agg_props x) -> at_ < expiresAt ->
  exists x', session_refresh fp expiresAt eid at_ x = (Ok tt, x') /\ agg_id x' = agg_id x /\ agg_version x' = agg_version x /\
    agg_props x' = refreshed (trim fp) expiresAt at_ (agg_props x).
Proof.
  intros Hs Hb Hf Ht. unfold session_refresh. unfold mbind, M_bind, gets, throw_if. rewrite Hs. cbn [negb bool_decide].
  rewrite bool_decide_true by done. cbn [negb]. rewrite Hb, bool_decide_false by done. rewrite (proj2 (Z.leb_gt _ _) Ht). by eexists.
Qed.

(** A session past its end comes back. Nothing sweeps the sessions that have lapsed, and a refresh asks
    only for the stored status: for a session that lapsed long ago, and that the federation refuses as no
    longer valid, a refresh that rotates the token succeeds and the session is valid again, for as long as
    it asks. *)
Theorem lapsed_session_can_be_refreshed tenantId id x fp ttlSeconds now s :
  rows_ok (sy_sessions s) -> chain_ok None tenantId s ->
  findSession id tenantId s = Some x -> sn_status (agg_props x) = se_active -> sn_expiresAt (agg_props x) <= now ->
  blank fp = false -> trim fp <> sn_refreshFingerprint (agg_props x) -> 0 < ttlSeconds ->
  (forall later, now <= later -> isValidAt (agg_props x) later = false) /\
  (forall who principal externalRef deviceRef ttl, findPrincipal who tenantId s = Some principal -> sn_principalRef (agg_props x) = agg_id principal ->
    blank externalRef = false -> findSessionByExternalRef (trim externalRef) tenantId s = Some x ->
    FederateExternalSession tenantId who externalRef fp deviceRef ttl now s = (Err (AuthenticationError "External session is no longer valid (active)"), s)) /\
  exists out s' x', RefreshSession tenantId id fp ttlSeconds now s = (Ok out, s') /\ findSession id tenantId s' = Some x' /\
    session_binding (agg_props x') = session_binding (agg_props x) /\
    forall t, isValidAt (agg_props x') t = (t <? now + ttlSeconds * 1000).
Proof.
  intros Hok Hc Hf Hs Hlapsed Hb Hrot Httl.
  assert (Hinvalid : forall later, now <= later -> isValidAt (agg_props x) later = false).
  { intros later Hl. unfold isValidAt. rewrite (proj2 (Z.ltb_ge _ _)) by lia. apply andb_false_r. }
  split_and!; [done| |].
  - intros who principal externalRef deviceRef ttl Hp Hpid Hbl Hfe. unfold FederateExternalSession, load, mbind, M_bind, throw_if, gets, lift.
    rewrite Hbl, Hp, Hfe, bool_decide_true by done. cbn [negb]. rewrite Hinvalid by lia. cbn [negb]. by rewrite Hs.
  - destruct (session_refresh_run fp (now + ttlSeconds * 1000) (generate (sy_drawn s)) now x Hs Hb Hrot ltac:(lia)) as (x' & Hr & Hid & Hver & Hp).
    destruct (on_session_run tenantId id "security.session.refreshed" (fun eid => session_refresh fp (now + ttlSeconds * 1000) eid now) now s x tt x' Hok Hc Hf Hr Hid Hver)
      as (s' & Hrun & _ & _ & _ & _ & Hfind).
    eexists _, s', _. split; [exact Hrun|]. split; [exact Hfind|]. cbn [stored_at agg_props]. rewrite Hp. split; [done|].
    intros t. unfold isValidAt, refreshed. cbn. by rewrite Hs.
Qed.

(** ** Revoking every session of a principal *)

Definition session_active (x : Session) : Prop := sn_status (agg_props x) = se_active.
#[local] Instance session_active_dec x : Decision (session_active x).
Proof. unfold session_active. apply _. Defined.
Definition revoked (x : Session) : Session := mkAgg (agg_id x) (agg_version x + 1) [] (with_session_status se_revoked (agg_props x)).
Definition revoke_row (ids : list string) (r : string * Session) : string * Session := if bool_decide (agg_id r.2 ∈ ids) then (r.1, revoked r.2) else r.

Lemma session_revoke_run eid at_ (x : Session) : session_active x ->
  exists x', session_revoke eid at_ x = (Ok tt, x') /\ agg_id x' = agg_id x /\ agg_version x' = agg_version x /\ stored_at (agg_version x + 1) x' = revoked x.
Proof. intros Hs. unfold session_revoke, mbind, M_bind, gets. rewrite Hs. cbn. by eexists. Qed.

Lemma revoke_row_update tenantId (x x' : Session) rows ids : rows_ok rows -> (tenantId, x) ∈ rows -> agg_id x ∉ ids ->
  agg_id x' = agg_id x -> agg_version x' = agg_version x -> stored_at (agg_version x + 1) x' = revoked x ->
  revoke_row ids <$> update_row tenantId x' rows = revoke_row (agg_id x :: ids) <$> rows.
Proof.
  intros [Hn _] Hin Hni Hid Hver Hst. unfold update_row. rewrite <- list_fmap_compose. apply fmap_ext_elem. intros r Hr. cbn.
  rewrite Hid, Hver, Hst. case_bool_decide as E.
  - assert (r = (tenantId, x)) as -> by (apply (rows_inj rows); done). unfold revoke_row. cbn [snd fst agg_id revoked].
    rewrite bool_decide_false by done. by rewrite bool_decide_true by left.
  - unfold revoke_row. rewrite (bool_decide_ext (agg_id r.2 ∈ agg_id x :: ids) (agg_id r.2 ∈ ids)); [done|]. rewrite elem_of_cons.
    split; [by intros [?|?]|by right].
Qed.

Lemma revoke_each_run tenantId now l s : rows_ok (sy_sessions s) -> (forall x, x ∈ l -> (tenantId, x) ∈ sy_sessions s) -> NoDup (agg_id <$> l) ->
  exists s', revoke_each tenantId now l s = (Ok (Z.of_nat (length (filter session_active l))), s') /\
    sy_sessions s' = revoke_row (agg_id <$> filter session_active l) <$> sy_sessions s /\ sy_ledger s' = sy_ledger s.
Proof.
  revert s. induction l as [|x l IH]; intros s Hok Hin Hn.
  - exists s. split_and!; [done| |done]. cbn. rewrite <- (list_fmap_id (sy_sessions s)) at 1. done.
  - apply NoDup_cons in Hn as [Hx Hn]. assert (Hxin := Hin x ltac:(left)). cbn [revoke_each]. destruct (decide (session_active x)) as [Hs|Hs].
    + rewrite filter_cons_True by done. rewrite bool_decide_true by done. cbn [negb]. set (s1 := with_drawn (S (sy_drawn s)) s).
      destruct (session_revoke_run (generate (sy_drawn s)) now x Hs) as (x' & Hr & Hid & Hver & Hst).
      set (s2 := with_outbox (pair tenantId <$> agg_events x') (with_sessions (fun _ => update_row tenantId x' (sy_sessions s1)) s1)).
      assert (Hv := proj1 (Forall_forall _ _) (proj2 Hok) _ Hxin). cbn in Hv.
      destruct (IH s2) as (s' & Hrun & Hss & Hl); [apply update_row_ok; [lia|done]| |done|].
      { intros y Hy. apply update_row_other; [|by apply Hin; right]. cbn. rewrite Hid. intros E. apply Hx. rewrite <- E. by apply list_elem_of_fmap_2. }
      exists s'. split_and!; [| |done].
      * rewrite (bind_run _ _ s (generate (sy_drawn s)) s1) by done. rewrite (bind_run _ _ s1 x' s1) by (unfold call_on, lift; by rewrite Hr).
        rewrite (bind_run _ _ s1 tt s2) by (by apply (saveSession_update tenantId x)). rewrite (bind_run _ _ s2 _ s' Hrun). cbn [length].
        unfold mret, M_ret. do 2 f_equal. lia.
      * rewrite Hss. cbn [fmap list_fmap]. apply revoke_row_update; try done. intros Hf. apply Hx.
        apply list_elem_of_fmap in Hf as (y & -> & [_ Hy]%list_elem_of_filter). by apply list_elem_of_fmap_2.
    + rewrite filter_cons_False by done. rewrite bool_decide_false by done. apply IH; [done| |done]. intros y Hy. apply Hin. by right.
Qed.

Lemma revoked_rows_invalid tenantId principalRef s s' x t :
  sy_sessions s' = revoke_row (agg_id <$> filter session_active (sessionsOf principalRef tenantId s)) <$> sy_sessions s ->
  x ∈ sessionsOf principalRef tenantId s' -> isValidAt (agg_props x) t = false.
Proof.
  intros E [Hpr Hx]%list_elem_of_filter. rewrite elem_of_tenant, E in Hx. apply list_elem_of_fmap in Hx as (r & Er & Hr).
  unfold revoke_row in Er. case_bool_decide as Hin; [by injection Er as _ ->|]. subst r. unfold isValidAt. case_bool_decide as Ha; [|done].
  exfalso. apply Hin. apply list_elem_of_fmap_2. apply list_elem_of_filter. split; [done|]. apply list_elem_of_filter. by rewrite elem_of_tenant.
Qed.

Lemma revoked_rows_others tenantId principalRef s s' r : rows_ok (sy_sessions s) ->
  sy_sessions s' = revoke_row (agg_id <$> filter session_active (sessionsOf principalRef tenantId s)) <$> sy_sessions s ->
  sn_principalRef (agg_props r.2) <> principalRef \/ r.1 <> tenantId -> r ∈ sy_sessions s' <-> r ∈ sy_sessions s.
Proof.
  intros [Hn _] E Hne. rewrite E. set (ids := agg_id <$> _). assert (Hown : forall r0, r0 ∈ sy_sessions s -> agg_id r0.2 ∈ ids ->
    r0.1 = tenantId /\ sn_principalRef (agg_props r0.2) = principalRef).
  { intros r0 Hr0 (x & Ex & [_ [Hpr Hx]%list_elem_of_filter]%list_elem_of_filter)%list_elem_of_fmap. rewrite elem_of_tenant in Hx.
    by assert (r0 = (tenantId, x)) as -> by (by eapply rows_inj). }
  rewrite list_elem_of_fmap. unfold revoke_row. split.
  - intros (r0 & -> & Hr0). case_bool_decide as Hin; [|done]. destruct (Hown r0 Hr0 Hin) as [<- <-]. by destruct Hne.
  - intros Hr. exists r. split; [|done]. rewrite bool_decide_false; [done|]. intros Hin. destruct (Hown r Hr Hin). by destruct Hne.
Qed.

(** C30: a logout everywhere is one. Revoking all the sessions of a known principal counts the active ones it
    had in the tenant and revokes exactly those: afterwards no session of the principal is valid at any
    time, the sessions of others and of other tenants are as they were, and the record of it joins the
    principal's audit chain. *)
Theorem revoke_all_ends_every_session tenantId who principal now s :
  rows_ok (sy_sessions s) -> findPrincipal who tenantId s = Some principal -> blank (agg_id principal) = false ->
  chain_ok (pn_tenantRef (agg_props principal)) tenantId s ->
  exists n s', RevokeAllSessions tenantId who now s = (Ok n, s') /\
    n = Z.of_nat (length (filter session_active (sessionsOf (agg_id principal) tenantId s))) /\
    (forall x t, x ∈ sessionsOf (agg_id principal) tenantId s' -> isValidAt (agg_props x) t = false) /\
    (forall r, sn_principalRef (agg_props r.2) <> agg_id principal \/ r.1 <> tenantId -> r ∈ sy_sessions s' <-> r ∈ sy_sessions s) /\
    chain_ok (pn_tenantRef (agg_props principal)) tenantId s'.
Proof.
  clear deviceTrusted fragments.
  intros Hok Hp Hpid Hc. set (l := sessionsOf (agg_id principal) tenantId s).
  assert (Hl : forall x, x ∈ l <-> (tenantId, x) ∈ sy_sessions s /\ sn_principalRef (agg_props x) = agg_id principal).
  { intros x. unfold l, sessionsOf. rewrite list_elem_of_filter, elem_of_tenant. tauto. }
  destruct (revoke_each_run tenantId now l s Hok) as (s1 & Hrun & Hs1 & Hl1); [by intros x [? _]%Hl| |].
  { unfold l, sessionsOf, of_tenant. rewrite filter_of_fmap, <- list_fmap_compose. by apply NoDup_fmap_filter, NoDup_fmap_filter, Hok. }
  destruct (allow_audit_run tenantId (pn_externalId (agg_props principal)) "security.session.revoked_all" (pn_tenantRef (agg_props principal))
    [("revoked", pretty (Z.of_nat (length (filter session_active l))))] now s1) as (s2 & Hau & Ht2 & Hc2 & _); [unfold chain_ok; by rewrite Hl1|].
  set (announce := match pn_subjectRef (agg_props principal) with
    | Some subject => publish_fact tenantId "session" (agg_id principal) subject "security.session.revoked_all" "revoked" now | None => mret tt end).
  assert (exists s', announce s2 = (Ok tt, s') /\ tables s' = tables s2 /\ sy_ledger s' = sy_ledger s2) as (s' & Han & Ht & Hl').
  { unfold announce. destruct (pn_subjectRef (agg_props principal)) as [subject|]; [|by exists s2].
    destruct (publish_fact_run tenantId "session" (agg_id principal) subject "security.session.revoked_all" "revoked" now s2 Hpid) as (s' & ? & ? & ? & _). by exists s'. }
  assert (Hs' : sy_sessions s' = revoke_row (agg_id <$> filter session_active l) <$> sy_sessions s).
  { rewrite <- Hs1. unfold tables in *. congruence. }
  exists (Z.of_nat (length (filter session_active l))), s'. split_and!; [|done|by intros x t; apply (revoked_rows_invalid _ _ s)|by intros r; apply revoked_rows_others|unfold chain_ok; by rewrite Hl'].
  unfold RevokeAllSessions. rewrite (bind_run _ _ s principal s) by (unfold load, mbind, M_bind, gets, lift; by rewrite Hp). apply in_tx_run.
  rewrite (bind_run _ _ s l s) by done. rewrite (bind_run _ _ s _ s1 Hrun). rewrite (bind_run _ _ s1 tt s2) by done. by rewrite (bind_run _ _ s2 tt s').
Qed.

(** ** Acting for another *)

Lemma session_establish_impersonation id principalRef fp delegateRef delegationRef expiresAt eid at_ :
  blank principalRef = false -> blank fp = false -> at_ < expiresAt ->
  exists x, session_establish id principalRef fp None None None (Some delegateRef) (Some delegationRef) expiresAt eid at_ = Ok x /\
    agg_id x = id /\ agg_version x = 0 /\
    agg_props x = mkSession (trim principalRef) se_active None None (trim fp) 0 0 (Some delegateRef) (Some delegationRef) at_ at_ expiresAt.
Proof.
  intros Hp Hf Ht. unfold session_establish. rewrite Hp, Hf, (proj2 (Z.leb_gt _ _) Ht), (bool_decide_false (Some delegateRef = None)), (bool_decide_false (Some delegationRef = None)) by done.
  by eexists.
Qed.

Lemma saveDelegation_update tenantId d0 d s : rows_ok (sy_delegations s) -> (tenantId, d0) ∈ sy_delegations s -> agg_id d = agg_id d0 -> agg_version d = agg_version d0 ->
  saveDelegation d tenantId s = (Ok tt, with_outbox (pair tenantId <$> agg_events d) (with_delegations (fun _ => update_row tenantId d (sy_delegations s)) s)).
Proof. intros. unfold saveDelegation. unfold mbind, M_bind, gets, lift. by rewrite (persist_update "Delegation" _ tenantId d0 d). Qed.

Lemma StartImpersonation_run tenantId delegationId d fp ttlSeconds now s :
  rows_ok (sy_sessions s) -> (generate (sy_drawn s) ∉ ids_of (sy_sessions s)) -> chain_ok None tenantId s ->
  findDelegation delegationId tenantId s = Some d -> delegation_isActiveAt (agg_props d) now = true ->
  blank (dg_delegatorRef (agg_props d)) = false -> blank fp = false -> 0 < ttlSeconds ->
  exists s' x, StartImpersonation tenantId delegationId fp ttlSeconds now s =
      (Ok (mkImpersonation (agg_id x) (dg_delegatorRef (agg_props d)) (dg_delegateRef (agg_props d)) (now + ttlSeconds * 1000)), s') /\
    rows_ok (sy_sessions s') /\ (tenantId, x) ∈ sy_sessions s' /\ sy_delegations s' = sy_delegations s /\ chain_ok None tenantId s' /\
    agg_props x = mkSession (trim (dg_delegatorRef (agg_props d))) se_active None None (trim fp) 0 0 (Some (dg_delegateRef (agg_props d))) (Some (agg_id d))
      now now (now + ttlSeconds * 1000).
Proof.
  intros [Hn Hv] Hfresh Hc Hd Ha Hb Hfp Httl. set (id := generate (sy_drawn s)). set (s0 := with_drawn (S (sy_drawn s)) s).
  set (s1 := with_drawn (S (S (sy_drawn s))) s0).
  destruct (session_establish_impersonation id (dg_delegatorRef (agg_props d)) fp (dg_delegateRef (agg_props d)) (agg_id d) (now + ttlSeconds * 1000) (generate (S (sy_drawn s))) now
    Hb Hfp ltac:(lia)) as (x & Hx & Hid & Hver & Hp).
  assert (Hni : agg_id x ∉ ids_of (sy_sessions s)) by (by rewrite Hid).
  set (rows := sy_sessions s ++ [(tenantId, stored_at 1 x)]). set (s2 := with_outbox (pair tenantId <$> agg_events x) (with_sessions (fun _ => rows) s1)).
  destruct (allow_audit_run tenantId (dg_delegatorRef (agg_props d)) "security.session.established" None
    [("impersonatedBy", dg_delegateRef (agg_props d)); ("delegation", agg_id d)] now s2 Hc) as (s' & Hau & Ht & Hc' & _).
  unfold tables in Ht. injection Ht as _ Hs _ _ _ _ _ Hds. exists s', (stored_at 1 x). split_and!; try done.
  - unfold StartImpersonation. rewrite (bind_run _ _ s d s) by (unfold load, mbind, M_bind, gets, lift; by rewrite Hd).
    rewrite (bind_run _ _ s tt s) by (by rewrite Ha). apply in_tx_run. cbn zeta.
    rewrite (bind_run _ _ s id s0) by (unfold newEntityId, newId, UniqueEntityId_from, Guard.againstEmpty, mbind, M_bind, gets, modify, mret, M_ret, lift; by rewrite Hids).
    rewrite (bind_run _ _ s0 (generate (S (sy_drawn s))) s1) by done. rewrite (bind_run _ _ s1 x s1) by (unfold lift; by rewrite Hx).
    rewrite (bind_run _ _ s1 tt s2) by (unfold saveSession, mbind, M_bind, gets, lift; cbn [sy_sessions s1 s0 with_drawn]; by rewrite (persist_create "Session" _ tenantId x)).
    by rewrite (bind_run _ _ s2 tt s').
  - rewrite Hs. split.
    + unfold ids_of. cbn [s2 sy_sessions with_outbox with_sessions]. unfold rows. rewrite fmap_app. apply NoDup_app. split; [exact Hn|].
      split; [|apply NoDup_singleton]. intros y Hy ->%list_elem_of_singleton. by apply Hni.
    + cbn [s2 sy_sessions with_outbox with_sessions]. apply Forall_app. split; [done|]. by apply Forall_singleton.
  - rewrite Hs. apply elem_of_app. right. by apply list_elem_of_singleton.
Qed.

Lemma RevokeDelegation_run tenantId delegationId d now s :
  rows_ok (sy_delegations s) -> chain_ok None tenantId s -> findDelegation delegationId tenantId s = Some d -> dg_status (agg_props d) = as_active ->
  exists out s', RevokeDelegation tenantId delegationId now s = (Ok out, s') /\ do_status out = as_revoked /\ sy_sessions s' = sy_sessions s.
Proof.
  intros Hok Hc Hd Ha. destruct (proj1 (find_row_Some _ _ _ _ (proj1 Hok)) Hd) as [Hin _]. set (s1 := with_drawn (S (sy_drawn s)) s).
  assert (exists d', delegation_revoke (generate (sy_drawn s)) now d = (Ok tt, d') /\ agg_id d' = agg_id d /\ agg_version d' = agg_version d /\
    agg_props d' = with_delegation_status as_revoked (agg_props d)) as (d' & Hr & Hid & Hver & Hp).
  { unfold delegation_revoke, delegation_emit, set_props, addDomainEvent, modify, mbind, M_bind, gets. rewrite Ha, bool_decide_true by done.
    cbn [negb]. by eexists. }
  set (s2 := with_outbox (pair tenantId <$> agg_events d') (with_delegations (fun _ => update_row tenantId d' (sy_delegations s1)) s1)).
  destruct (allow_audit_run tenantId (dg_delegateRef (agg_props d')) "security.delegation.revoked" None [] now s2 Hc) as (s' & Hau & Ht & _ & _).
  unfold tables in Ht. injection Ht as _ Hs _ _ _ _ _ _. exists (present_delegation d'), s'. split_and!; [|by unfold present_delegation; cbn; rewrite Hp|done].
  unfold RevokeDelegation. apply in_tx_run. rewrite (bind_run _ _ s d s) by (unfold load, mbind, M_bind, gets, lift; by rewrite Hd).
  rewrite (bind_run _ _ s (generate (sy_drawn s)) s1) by done. rewrite (bind_run _ _ s1 d' s1) by (unfold call_on, lift; by rewrite Hr).
  rewrite (bind_run _ _ s1 tt s2) by (by apply (saveDelegation_update tenantId d)). by rewrite (bind_run _ _ s2 tt s').
Qed.

(** An impersonation is not bounded by its delegation. Under an active delegation the delegate gets a
    session of the delegator that lasts as long as the caller asks: it stays valid to its own end when the
    delegation has expired, and also when the delegation is revoked, which leaves the sessions started under
    it as they are. *)
Theorem impersonation_outlives_its_delegation tenantId delegationId d fp ttlSeconds now later s :
  rows_ok (sy_sessions s) -> rows_ok (sy_delegations s) -> (generate (sy_drawn s) ∉ ids_of (sy_sessions s)) -> chain_ok None tenantId s ->
  findDelegation delegationId tenantId s = Some d -> delegation_isActiveAt (agg_props d) now = true ->
  blank (dg_delegatorRef (agg_props d)) = false -> blank fp = false -> 0 < ttlSeconds ->
  exists im s1 out s2 x, StartImpersonation tenantId delegationId fp ttlSeconds now s = (Ok im, s1) /\
    RevokeDelegation tenantId delegationId later s1 = (Ok out, s2) /\ do_status out = as_revoked /\
    findSession (im_sessionId im) tenantId s1 = Some x /\ findSession (im_sessionId im) tenantId s2 = Some x /\
    sn_principalRef (agg_props x) = trim (dg_delegatorRef (agg_props d)) /\ sn_delegationRef (agg_props x) = Some (agg_id d) /\
    forall t, isValidAt (agg_props x) t = (t <? now + ttlSeconds * 1000).
Proof.
  intros Hok Hdok Hfresh Hc Hd Ha Hb Hfp Httl.
  destruct (StartImpersonation_run tenantId delegationId d fp ttlSeconds now s Hok Hfresh Hc Hd Ha Hb Hfp Httl) as (s1 & x & Hrun & Hok1 & Hin & Hds & Hc1 & Hp).
  assert (Hd1 : findDelegation delegationId tenantId s1 = Some d) by (unfold findDelegation in *; by rewrite Hds).
  assert (Hs : dg_status (agg_props d) = as_active) by (apply andb_true_iff in Ha as [Ha _]; by apply bool_decide_eq_true in Ha).
  destruct (RevokeDelegation_run tenantId delegationId d later s1) as (out & s2 & Hrev & Hst & Hss); [by rewrite Hds|done..|].
  assert (Hf : findSession (agg_id x) tenantId s1 = Some x) by (by apply (find_row_Some _ _ _ _ (proj1 Hok1))).
  eexists _, s1, out, s2, x. split; [exact Hrun|]. cbn [im_sessionId]. rewrite Hp. split_and!; try done.
  unfold findSession in *. by rewrite Hss.
Qed.
End usecases.

(** ** Witnesses *)

Definition sample_generate (n : nat) : string := "id-" +:+ show_nat n.
Definition sample_principal (id name : string) : Principal := mkAgg id 1 [] (mkPrincipal name human name (Some ("subject-" +:+ name)) None pr_active ∅).
Definition sample_live (id principalRef : string) : string * Session :=
  ("t1", mkAgg id 1 [] (mkSession principalRef se_active (Some ("kratos-" +:+ id)) None "fp0" 0 0 None None 0 0 100)).
Definition sample_store : SecurityStore :=
  mkSecurityStore [("t1", sample_principal "p1" "ann"); ("t1", sample_principal "p2" "bob")]
    [sample_live "s1" "p1"; sample_live "s2" "p2"; sample_live "s3" "p1"]
    [("t1", mkRole "viewer" "Viewer" platform ["orders:read"] None false role_active)]
    [("t1", mkAssignment "p1" "viewer" platform "root" as_active None None 0)]
    [("t1", mkPolicy "default" "Default" balanced policy_active [mkVersion 1 [mkRule "r1" "risky" (mkCondition (Some 50) None None None None) None challenge] allow 0] (Some 1))]
    [] [] [("t1", mkAgg "d1" 1 [] (mkDelegation "p1" "p2" platform [] as_active (Some 60) None 0))] [] [] 0.
Definition sample_request (sessionId : string) : EvaluateAccessInput :=
  mkEvaluateAccess "t1" "ann" "orders:read" (Some sessionId) None None None None (Some "default") None None.
Definition sample_evaluate := EvaluateAccess id pretty sample_generate (fun _ => false) NO_FRAGMENTS.

Lemma sample_ids n : blank (sample_generate n) = false.
Proof. reflexivity. Qed.
Lemma sample_rows_ok : rows_ok (sy_sessions sample_store) /\ rows_ok (sy_delegations sample_store).
Proof. split; split; [apply (bool_decide_eq_true_1 _); by vm_compute|by repeat constructor|apply (bool_decide_eq_true_1 _); by vm_compute|by repeat constructor]. Qed.

Lemma every_access_decision_is_audited_witness :
  exists out s', sample_evaluate (sample_request "s1") 50 sample_store = (Ok out, s') /\ ad_allowed out = true /\ length (sy_ledger s') = 1%nat.
Proof.
  destruct (every_access_decision_is_audited id pretty sample_generate (fun _ => false) NO_FRAGMENTS sample_ids (sample_request "s1") 50 sample_store
    (mkPermission "orders" "read")) as (out & s' & r & Hrun & Hall & _ & Hl & _); [apply (bool_decide_eq_true_1 _); by vm_compute|by vm_compute|by vm_compute|].
  exists out, s'. split; [exact Hrun|]. split; [|by rewrite Hl].
  apply Hall. exists (sample_principal "p1" "ann"). split; [by vm_compute|]. split; [done|]. split; [by vm_compute|]. split; [by vm_compute|].
  apply (Forall_cons_2 (fun e => e = allow)); [by vm_compute|apply Forall_nil_2].
Defined.

(** The session of another principal serves as well as the principal's own. *)
Lemma session_gate_takes_any_session_witness :
  sample_evaluate (with_session_id "s1" (sample_request "s1")) 50 sample_store = sample_evaluate (with_session_id "s2" (sample_request "s1")) 50 sample_store /\
  sn_principalRef <$> (agg_props <$> findSession "s2" "t1" sample_store) = Some "p2".
Proof.
  split; [|by vm_compute].
  apply (session_gate_takes_any_session id pretty sample_generate (fun _ => false) NO_FRAGMENTS (sample_request "s1") "s1" "s2"
    (sample_live "s1" "p1").2 (sample_live "s2" "p2").2); by vm_compute.
Defined.

Lemma lapsed_session_can_be_refreshed_witness :
  isValidAt (agg_props (sample_live "s1" "p1").2) 500 = false /\
  exists out s' x', RefreshSession id pretty sample_generate "t1" "s1" "fp1" 60 500 sample_store = (Ok out, s') /\
    findSession "s1" "t1" s' = Some x' /\ isValidAt (agg_props x') 600 = true.
Proof.
  destruct (lapsed_session_can_be_refreshed id pretty sample_generate sample_ids "t1" "s1" (sample_live "s1" "p1").2 "fp1" 60 500 sample_store)
    as (Hi & _ & out & s' & x' & Hrun & Hf & _ & Hv); [apply sample_rows_ok|by vm_compute..|].
  split; [by apply Hi|]. exists out, s', x'. split_and!; [exact Hrun|done|]. by rewrite Hv.
Defined.

Lemma revoke_all_ends_every_session_witness :
  exists s', RevokeAllSessions id pretty sample_generate "t1" "ann" 50 sample_store = (Ok 2, s') /\
    (forall x t, x ∈ sessionsOf "p1" "t1" s' -> isValidAt (agg_props x) t = false) /\ sample_live "s2" "p2" ∈ sy_sessions s'.
Proof.
  destruct (revoke_all_ends_every_session id pretty sample_generate sample_ids "t1" "ann" (sample_principal "p1" "ann") 50 sample_store)
    as (n & s' & Hrun & -> & Hend & Hothers & _); [apply sample_rows_ok|by vm_compute..|].
  exists s'. split; [rewrite Hrun; by vm_compute|]. split; [exact Hend|]. apply Hothers; [by left|]. right. left.
Defined.

Lemma impersonation_outlives_its_delegation_witness :
  exists im s1 out s2 x, StartImpersonation id pretty sample_generate "t1" "d1" "fp9" 3600 50 sample_store = (Ok im, s1) /\
    RevokeDelegation id pretty sample_generate "t1" "d1" 55 s1 = (Ok out, s2) /\ findSession (im_sessionId im) "t1" s2 = Some x /\ isValidAt (agg_props x) 3000000 = true.
Proof.
  destruct (impersonation_outlives_its_delegation id pretty sample_generate sample_ids "t1" "d1"
    (mkAgg "d1" 1 [] (mkDelegation "p1" "p2" platform [] as_active (Some 60) None 0)) "fp9" 3600 50 55 sample_store)
    as (im & s1 & out & s2 & x & Hrun & Hrev & _ & _ & Hf & _ & _ & Hv); [apply sample_rows_ok|apply sample_rows_ok| |by vm_compute..|].
  { apply (bool_decide_eq_true_1 _). by vm_compute. }
  exists im, s1, out, s2, x. split_and!; [exact Hrun|exact Hrev|exact Hf|]. by rewrite Hv.
Defined.
