(* ===== verification/Store.v ===== *)
(** Tables of versioned rows and transactions over several of them: what the Prisma repositories of a
    service ([services/licensing/src/infrastructure/prisma-repositories.ts]) promise its use cases. A
    service's store has one table per aggregate; the class [Table] says where a table lives in the store
    and which columns an update writes. Optimistic.v has the case of a single row. *)
From S2P Require Import Prelude Kernel.

(** ** Rows *)

Record Row (P : Type) := mkRow { row_tenant : string; row_id : string; row_version : Z; row_props : P }.
Arguments mkRow {P} _ _ _ _.
Arguments row_tenant {P} _.
Arguments row_id {P} _.
Arguments row_version {P} _.
Arguments row_props {P} _.

Fixpoint find_first {A} (f : A -> bool) (l : list A) : option A :=
  match l with [] => None | x :: l' => if f x then Some x else find_first f l' end.

Definition row_of {P} (id : string) (rows : list (Row P)) : option (Row P) :=
  find_first (fun r => bool_decide (row_id r = id)) rows.

#[global] Arguments row_of {P} id rows : simpl never.

(** [where: { id, tenantId }] *)
Definition is_row {P} (id tenantId : string) (r : Row P) : bool :=
  bool_decide (row_id r = id) && bool_decide (row_tenant r = tenantId).

(** ** Tables

    [tbl_columns] is the row an update leaves, from the stored row and the aggregate; [tbl_clash] the
    unique index an insert may violate beside the primary key. *)

Class Table (S P E : Type) := {
  tbl_rows : S -> list (Row P);
  tbl_set : list (Row P) -> S -> S;
  tbl_publish : list (string * (EventMeta * E)) -> S -> S;
  tbl_name : string;
  tbl_columns : P -> P -> P;
  tbl_clash : string -> P -> Row P -> bool
}.

Class TableLaws (S P E : Type) `{Table S P E} := {
  tbl_rows_set l s : tbl_rows (tbl_set l s) = l;
  tbl_rows_publish e s : tbl_rows (tbl_publish e s) = tbl_rows s
}.

Section table.
Context {S P E : Type} `{Table S P E}.

(** [Mapper.toDomain]: the aggregate of a row. *)
Definition rehydrate (r : Row P) : Aggregate P E := new_agg_at (row_props r) (row_id r) (row_version r).

Definition find_where (f : Row P -> bool) (s : S) : option (Aggregate P E) := rehydrate <$> find_first f (tbl_rows s).
Definition find_by_id (id tenantId : string) (s : S) : option (Aggregate P E) := find_where (is_row id tenantId) s.
Definition find_many (f : Row P -> bool) (s : S) : list (Aggregate P E) := rehydrate <$> filter (fun r => f r = true) (tbl_rows s).

Definition update_row (a : Aggregate P E) (tenantId : string) (rows : list (Row P)) : list (Row P) :=
  (fun r => if is_row (agg_id a) tenantId r && bool_decide (row_version r = agg_version a)
            then mkRow tenantId (agg_id a) (row_version r + 1) (tbl_columns (row_props r) (agg_props a)) else r) <$> rows.

(** [save]: version 0 is inserted at version 1; any other version updates the row that still has it, or
    throws. The events go to the outbox in the same transaction, stamped with the acting tenant. *)
Definition save_row_for (actingTenantId : string) (a : Aggregate P E) (tenantId : string) : M S unit := fun s =>
  let written rows := (Ok tt, tbl_publish (pair actingTenantId <$> agg_events a) (tbl_set rows s)) in
  if bool_decide (agg_version a = 0) then
    if existsb (fun r => bool_decide (row_id r = agg_id a) || tbl_clash tenantId (agg_props a) r) (tbl_rows s)
    then (Err (UnexpectedError "unique constraint violation"), s)
    else written (tbl_rows s ++ [mkRow tenantId (agg_id a) 1 (agg_props a)])
  else if existsb (fun r => is_row (agg_id a) tenantId r && bool_decide (row_version r = agg_version a)) (tbl_rows s)
  then written (update_row a tenantId (tbl_rows s))
  else (Err (ConcurrencyError (tbl_name +:+ " " +:+ agg_id a +:+ " was modified concurrently")), s).

Definition save_row (a : Aggregate P E) (tenantId : string) : M S unit := save_row_for tenantId a tenantId.

(** ** What a table keeps *)

Definition rows_wf (rows : list (Row P)) : Prop :=
  NoDup (row_id <$> rows) /\ forall r, r ∈ rows -> 1 <= row_version r.

(** Rows are never deleted, keep their tenant, and change only with their version. *)
Definition rows_evolve (rows rows' : list (Row P)) : Prop :=
  forall id r, row_of id rows = Some r ->
    exists r', row_of id rows' = Some r' /\ row_tenant r' = row_tenant r /\ row_version r <= row_version r' /\
      (row_version r' = row_version r -> r' = r).

(** The row [save_row] leaves. *)
Definition saved_row (a : Aggregate P E) (tenantId : string) (rows : list (Row P)) : Row P :=
  match row_of (agg_id a) rows with
  | None => mkRow tenantId (agg_id a) 1 (agg_props a)
  | Some r => mkRow tenantId (agg_id a) (row_version r + 1) (tbl_columns (row_props r) (agg_props a))
  end.

End table.

(** ** Transactions *)

(** What throws leaves nothing behind. *)
Definition in_txn {S A} (m : M S A) : M S A := fun s =>
  match m s with (Ok a, s') => (Ok a, s') | (Err e, _) => (Err e, s) end.

(** [try { ... } catch (error) { if (isDomainError(error)) return err(error); throw error; }] around saves: an
    error returned from inside a transaction does not undo what the transaction wrote before it. *)
Definition isDomainError (e : DomainError) : bool := match e with UnexpectedError _ => false | _ => true end.
Definition catching {S A} (m : M S A) : M S (result A) := fun s =>
  match m s with
  | (Ok a, s') => (Ok (Ok a), s')
  | (Err e, s') => if isDomainError e then (Ok (Err e), s') else (Err e, s')
  end.

(** [if (x === null) return err(new NotFoundError(...))] on what was read. *)
Definition require {S A} (message : string) (found : option A) : M S A :=
  lift (match found with Some a => Ok a | None => Err (NotFoundError message) end).

(** A method called on a loaded aggregate: its error is the use case's. *)
Definition run_on {P E A} (a : Aggregate P E) (m : M (Aggregate P E) A) : result (Aggregate P E) :=
  match m a with (Ok _, a') => Ok a' | (Err e, _) => Err e end.
Definition call {S P E A} (a : Aggregate P E) (m : M (Aggregate P E) A) : M S (Aggregate P E) := lift (run_on a m).

(** Running what is bound. *)
Lemma gets_bind {S A B} (f : S -> A) (g : A -> M S B) s : (gets f ≫= g) s = g (f s) s.
Proof. done. Qed.
Lemma run_bind {S A B} (m : M S A) (g : A -> M S B) s x s' : m s = (Ok x, s') -> (m ≫= g) s = g x s'.
Proof. unfold mbind, M_bind. by intros ->. Qed.
Lemma require_found {S A B} message (a : A) (f : A -> M S B) s : (require message (Some a) ≫= f) s = f a s.
Proof. done. Qed.

(** ** Lemmas on tables *)

Lemma delete_elem {A} i (l : list A) x : x ∈ delete i l -> x ∈ l.
Proof. rewrite delete_take_drop, elem_of_app. intros [H|H]; [by eapply take_elem|]. rewrite <- (take_drop (S i) l). by apply elem_of_app; right. Qed.


Lemma find_first_Some {A} (f : A -> bool) l x : find_first f l = Some x -> x ∈ l /\ f x = true.
Proof.
  induction l as [|y l IH]; cbn; [done|]. destruct (f y) eqn:Hf; [intros [= ->]; split; [left|done]|].
  intros [? ?]%IH. split; [by right|done].
Qed.

Lemma find_first_None {A} (f : A -> bool) l x : find_first f l = None -> x ∈ l -> f x = false.
Proof.
  induction l as [|y l IH]; cbn; [by intros _ ?%elem_of_nil|]. destruct (f y) eqn:Hf; [done|].
  intros Hn [-> |?]%elem_of_cons; auto.
Qed.

Lemma find_first_app {A} (f : A -> bool) l1 l2 :
  find_first f (l1 ++ l2) = match find_first f l1 with Some x => Some x | None => find_first f l2 end.
Proof. induction l1 as [|y l1 IH]; cbn; [done|]. by destruct (f y). Qed.

Lemma row_of_Some {P} id (rows : list (Row P)) r : row_of id rows = Some r -> r ∈ rows /\ row_id r = id.
Proof. intros [? ?%bool_decide_eq_true]%find_first_Some. done. Qed.

Lemma row_of_None {P} id (rows : list (Row P)) : row_of id rows = None <-> id ∉ row_id <$> rows.
Proof.
  split.
  - intros Hn (r & -> & Hr)%list_elem_of_fmap. apply (find_first_None _ _ r) in Hn; [|done]. cbn in Hn. by rewrite bool_decide_true in Hn.
  - intros Hn. destruct (row_of id rows) as [r|] eqn:E; [|done]. apply row_of_Some in E as [? <-].
    destruct Hn. by apply list_elem_of_fmap_2.
Qed.

Lemma row_of_elem {P} (rows : list (Row P)) r : NoDup (row_id <$> rows) -> r ∈ rows -> row_of (row_id r) rows = Some r.
Proof.
  intros Hn Hr. destruct (row_of (row_id r) rows) as [r'|] eqn:E.
  - apply row_of_Some in E as [Hr' He]. f_equal. by eapply (NoDup_fmap_elem row_id rows).
  - apply row_of_None in E. destruct E. by apply list_elem_of_fmap_2.
Qed.

Lemma row_of_app {P} id (rows : list (Row P)) r :
  row_of id (rows ++ [r]) = match row_of id rows with Some x => Some x | None => if bool_decide (row_id r = id) then Some r else None end.
Proof. unfold row_of. rewrite find_first_app. cbn. done. Qed.

Lemma row_of_fmap {P} (g : Row P -> Row P) id (rows : list (Row P)) :
  (forall r, row_id (g r) = row_id r) -> row_of id (g <$> rows) = g <$> row_of id rows.
Proof.
  intros Hg. induction rows as [|r rows IH]; [done|]. rewrite fmap_cons. unfold row_of in *. cbn. rewrite Hg.
  case_bool_decide; [done|exact IH].
Qed.

#[export] Instance rows_evolve_preorder {P} : PreOrder (@rows_evolve P).
Proof.
  split.
  - intros l id r Hr. exists r. split_and!; [done|done|lia|done].
  - intros l1 l2 l3 H12 H23 id r Hr. destruct (H12 id r Hr) as (r2 & Hr2 & Et & Hv & He).
    destruct (H23 id r2 Hr2) as (r3 & Hr3 & Et' & Hv' & He'). exists r3. split; [done|]. split; [congruence|]. split; [lia|].
    intros E. rewrite He' by lia. apply He. rewrite <- E. lia.
Qed.

Section table_lemmas.
Context {S P E : Type} `{TableLaws S P E}.

Lemma find_where_Some f (s : S) a :
  find_where f s = Some a -> exists r, r ∈ tbl_rows s /\ f r = true /\ a = rehydrate r.
Proof.
  unfold find_where. destruct (find_first f (tbl_rows s)) as [r|] eqn:Hf; [|done].
  intros [= <-]. apply find_first_Some in Hf as [? ?]. by exists r.
Qed.

Lemma find_by_id_Some id tenantId (s : S) a :
  rows_wf (tbl_rows s) -> find_by_id id tenantId s = Some a <->
  exists r, row_of id (tbl_rows s) = Some r /\ row_tenant r = tenantId /\ a = rehydrate r.
Proof.
  intros [Hn _]. split.
  - intros (r & Hr & Hf & ->)%find_where_Some. unfold is_row in Hf.
    apply andb_true_iff in Hf as [Hi%bool_decide_eq_true Ht%bool_decide_eq_true].
    exists r. split; [|done]. rewrite <- Hi. by apply row_of_elem.
  - intros (r & Hr & Ht & ->). apply row_of_Some in Hr as [Hr Hi]. unfold find_by_id, find_where.
    destruct (find_first (is_row id tenantId) (tbl_rows s)) as [r'|] eqn:Hf.
    + apply find_first_Some in Hf as [Hr' Hf]. apply andb_true_iff in Hf as [Hi'%bool_decide_eq_true _].
      cbn. do 2 f_equal. eapply (NoDup_fmap_elem row_id (tbl_rows s)); [done|done|done|]. by rewrite Hi, Hi'.
    + apply (find_first_None _ _ r) in Hf; [|done]. unfold is_row in Hf. by rewrite !bool_decide_true in Hf.
Qed.

(** A save that returned set the table and published the aggregate's events. *)
Lemma save_row_for_shape acting (a : Aggregate P E) tenantId (s : S) u s' :
  save_row_for acting a tenantId s = (Ok u, s') -> exists rows, s' = tbl_publish (pair acting <$> agg_events a) (tbl_set rows s).
Proof.
  unfold save_row_for. cbv zeta. destruct (bool_decide _); destruct (existsb _ _); intros Hs; try discriminate Hs; injection Hs as _ <-; by eexists.
Qed.

(** A save that threw did nothing; one of a new aggregate throws no domain error. *)
Lemma save_row_for_Err acting (a : Aggregate P E) tenantId (s : S) e s' :
  save_row_for acting a tenantId s = (Err e, s') -> s' = s /\ (agg_version a = 0 -> isDomainError e = false).
Proof.
  unfold save_row_for. cbv zeta. case_bool_decide; destruct (existsb _ _); intros Hs; try discriminate Hs; injection Hs as <- <-; done.
Qed.

(** What a save that returned did. *)
Lemma save_row_for_Ok acting (a : Aggregate P E) tenantId (s : S) u s' :
  rows_wf (tbl_rows s) -> save_row_for acting a tenantId s = (Ok u, s') ->
  rows_wf (tbl_rows s') /\ rows_evolve (tbl_rows s) (tbl_rows s') /\
  (forall id, row_of id (tbl_rows s') = if bool_decide (id = agg_id a) then Some (saved_row a tenantId (tbl_rows s)) else row_of id (tbl_rows s)) /\
  match row_of (agg_id a) (tbl_rows s) with
  | None => agg_version a = 0
  | Some r => agg_version a = row_version r /\ row_tenant r = tenantId
  end.
Proof.
  intros [Hn Hv] Hs. unfold save_row_for in Hs. cbv zeta in Hs. destruct (bool_decide (agg_version a = 0)) eqn:Hz; [apply bool_decide_eq_true in Hz|apply bool_decide_eq_false in Hz].
  - destruct (existsb _ _) eqn:Hex; [done|]. injection Hs as _ <-. rewrite tbl_rows_publish, tbl_rows_set.
    assert (Hnew : row_of (agg_id a) (tbl_rows s) = None).
    { apply row_of_None. intros (r & Hr & Hin)%list_elem_of_fmap. apply not_true_iff_false in Hex. apply Hex.
      apply existsb_exists. exists r. split; [by apply list_elem_of_In|]. by rewrite bool_decide_true. }
    rewrite Hnew. unfold saved_row. rewrite Hnew. split; [split|split; [|split]].
    + rewrite fmap_app. apply NoDup_app. split; [done|]. split; [|apply NoDup_singleton].
      intros x Hx ->%list_elem_of_singleton. by apply row_of_None in Hnew.
    + intros r [Hr| ->%list_elem_of_singleton]%elem_of_app; [by apply Hv|]. cbn. lia.
    + intros id r Hr. exists r. rewrite row_of_app, Hr. split_and!; [done|done|lia|done].
    + intros id. rewrite row_of_app. cbn. repeat case_bool_decide; subst; try done.
      * by rewrite Hnew.
      * by destruct (row_of id (tbl_rows s)).
    + done.
  - destruct (existsb _ _) eqn:Hex; [|done]. injection Hs as _ <-. rewrite tbl_rows_publish, tbl_rows_set.
    apply existsb_exists in Hex as (r & Hr%list_elem_of_In & Hf). apply andb_true_iff in Hf as [Hir Hvr%bool_decide_eq_true].
    apply andb_true_iff in Hir as [Hi%bool_decide_eq_true Ht%bool_decide_eq_true].
    assert (Hold : row_of (agg_id a) (tbl_rows s) = Some r) by (rewrite <- Hi; by apply row_of_elem).
    set (g := fun r0 : Row P => if is_row (agg_id a) tenantId r0 && bool_decide (row_version r0 = agg_version a)
      then mkRow tenantId (agg_id a) (row_version r0 + 1) (tbl_columns (row_props r0) (agg_props a)) else r0).
    assert (Hg : forall r0, row_id (g r0) = row_id r0).
    { intros r0. unfold g, is_row. repeat case_bool_decide; subst; done. }
    assert (Hrow : forall id, row_of id (update_row a tenantId (tbl_rows s)) =
      if bool_decide (id = agg_id a) then Some (saved_row a tenantId (tbl_rows s)) else row_of id (tbl_rows s)).
    { intros id. unfold update_row. change (fun r0 : Row P => _) with g. rewrite row_of_fmap by done. unfold saved_row. rewrite Hold. case_bool_decide as Hid.
      - subst id. rewrite Hold. cbn. unfold g, is_row. by rewrite !bool_decide_true.
      - destruct (row_of id (tbl_rows s)) as [r0|] eqn:Hr0; [|done]. apply row_of_Some in Hr0 as [_ Hr0]. cbn. unfold g, is_row.
        rewrite (bool_decide_false (row_id r0 = agg_id a)) by congruence. done. }
    rewrite Hold. split; [split|split; [|split]].
    + unfold update_row. rewrite <- list_fmap_compose. rewrite (fmap_ext_elem _ row_id); [done|]. intros r0 _. apply Hg.
    + intros r0 (r1 & -> & Hr1)%list_elem_of_fmap. assert (1 <= row_version r1) by auto. repeat case_match; cbn; [lia|done].
    + intros id r0 Hr0. rewrite Hrow. case_bool_decide as Hid; [|exists r0; split_and!; [done|done|lia|done]]. subst id.
      rewrite Hold in Hr0. injection Hr0 as <-. unfold saved_row. rewrite Hold. eexists. split; [done|]. cbn. split; [done|]. split; lia.
    + done.
    + by split.
Qed.

(** A save of what was loaded from an earlier state of the rows: it returns only when the row is still
    that one. *)
Lemma save_row_loaded rows0 (r0 : Row P) acting (a : Aggregate P E) tenantId (s : S) u s' :
  rows_wf rows0 -> r0 ∈ rows0 -> rows_evolve rows0 (tbl_rows s) -> rows_wf (tbl_rows s) ->
  agg_id a = row_id r0 -> agg_version a = row_version r0 -> save_row_for acting a tenantId s = (Ok u, s') ->
  row_of (row_id r0) (tbl_rows s) = Some r0 /\ row_tenant r0 = tenantId /\
  forall id, row_of id (tbl_rows s') =
    if bool_decide (id = row_id r0) then Some (mkRow tenantId (row_id r0) (row_version r0 + 1) (tbl_columns (row_props r0) (agg_props a)))
    else row_of id (tbl_rows s).
Proof.
  intros [Hn0 Hv0] Hr0 Hev Hwf Hid Hver Hs. destruct (save_row_for_Ok _ _ _ _ _ _ Hwf Hs) as (_ & _ & Hl & Hc).
  rewrite Hid in Hl, Hc. destruct (Hev _ _ (row_of_elem _ _ Hn0 Hr0)) as (r & Hr & Ht & Hle & Heq).
  rewrite Hr in Hc. destruct Hc as [Ev Et]. assert (r = r0) as -> by (apply Heq; lia). split; [done|]. split; [done|].
  intros id. rewrite Hl. unfold saved_row. by rewrite Hid, Hr.
Qed.

(** A save of a new aggregate. *)
Lemma save_row_new acting (a : Aggregate P E) tenantId (s : S) u s' :
  rows_wf (tbl_rows s) -> agg_version a = 0 -> save_row_for acting a tenantId s = (Ok u, s') ->
  row_of (agg_id a) (tbl_rows s) = None /\
  forall id, row_of id (tbl_rows s') = if bool_decide (id = agg_id a) then Some (mkRow tenantId (agg_id a) 1 (agg_props a)) else row_of id (tbl_rows s).
Proof.
  intros Hwf Hv Hs. destruct (save_row_for_Ok _ _ _ _ _ _ Hwf Hs) as (_ & _ & Hl & Hc).
  destruct (row_of (agg_id a) (tbl_rows s)) as [r|] eqn:Hr.
  - destruct Hc as [Ev _]. apply row_of_Some in Hr as [Hr _]. apply Hwf in Hr. lia.
  - split; [done|]. intros id. rewrite Hl. unfold saved_row. by rewrite Hr.
Qed.

(** A save of what the table holds returns. *)
Lemma save_current acting (a : Aggregate P E) tenantId (s : S) (r : Row P) :
  rows_wf (tbl_rows s) -> row_of (agg_id a) (tbl_rows s) = Some r -> row_tenant r = tenantId -> agg_version a = row_version r ->
  exists s', save_row_for acting a tenantId s = (Ok tt, s').
Proof.
  intros [_ Hv] [Hr Hi]%row_of_Some Ht Hver. specialize (Hv r Hr). unfold save_row_for. rewrite bool_decide_false by lia.
  assert (existsb (fun r0 : Row P => is_row (agg_id a) tenantId r0 && bool_decide (row_version r0 = agg_version a)) (tbl_rows s) = true) as ->; [|by eexists].
  apply existsb_exists. exists r. split; [by apply list_elem_of_In|]. unfold is_row. by rewrite !bool_decide_true by done.
Qed.

Lemma find_by_id_current id tenantId (s : S) r :
  rows_wf (tbl_rows s) -> row_of id (tbl_rows s) = Some r -> row_tenant r = tenantId -> find_by_id id tenantId s = Some (rehydrate r).
Proof. intros Hw Hr Ht. apply find_by_id_Some; [done|]. by exists r. Qed.

End table_lemmas.

(** ** Interleaved transactions

    A transaction reads the store one or more times, each read seeing the rows committed by then, and
    commits what it computed from them; the transactions of other workers commit in between. [exec t
    snaps s] is the commit on [s] of a transaction [t] that read [snaps]. A lost race starts it again from
    its reads; an abort is a crash or the last attempt. *)

(** A schedule: the actions of a system one after the other, each of which must be possible. *)
Fixpoint run_actions {A S} (step : A -> S -> option S) (l : list A) (s : S) : option S :=
  match l with [] => Some s | a :: l' => s' ← step a s; run_actions step l' s' end.

Lemma run_actions_invariant {A S} (step : A -> S -> option S) (I : S -> Prop) l s s' :
  (forall a s s', I s -> step a s = Some s' -> I s') -> I s -> run_actions step l s = Some s' -> I s'.
Proof.
  intros Hstep. revert s. induction l as [|a l IH]; cbn; intros s Hs H; [by injection H as <-|].
  destruct (step a s) as [s1|] eqn:Ha; [|done]. cbn in H. eapply IH; [|exact H]. by eapply Hstep.
Qed.

Section interleaving.
Context {S Tx : Type} (exec : Tx -> list S -> S -> result S).

Record Interleaved := mkInterleaved { il_store : S; il_pending : list (Tx * list S) }.
Inductive Action := Begin (t : Tx) | Read (i : nat) | Commit (i : nat) | Again (i : nat) | Abort (i : nat).

Definition il_do (a : Action) (x : Interleaved) : option Interleaved :=
  let s := il_store x in let p := il_pending x in
  match a with
  | Begin t => Some (mkInterleaved s (p ++ [(t, [])]))
  | Read i => '(t, snaps) ← p !! i; Some (mkInterleaved s (<[i := (t, snaps ++ [s])]> p))
  | Commit i => '(t, snaps) ← p !! i; match exec t snaps s with Ok s' => Some (mkInterleaved s' (delete i p)) | Err _ => None end
  | Again i => '(t, _) ← p !! i; Some (mkInterleaved s (<[i := (t, [])]> p))
  | Abort i => Some (mkInterleaved s (delete i p))
  end.

(** The pending transactions read earlier states: [I] held of them, and the store has evolved from them. *)
Definition il_seen (I : S -> Prop) (R : S -> S -> Prop) (x : Interleaved) : Prop :=
  Forall (fun p : Tx * list S => Forall (fun s0 => I s0 /\ R s0 (il_store x)) p.2) (il_pending x).

Lemma il_do_seen (I : S -> Prop) (R : S -> S -> Prop) a x x' :
  PreOrder R ->
  (forall t snaps s s', I s -> Forall (fun s0 => I s0 /\ R s0 s) snaps -> exec t snaps s = Ok s' -> I s' /\ R s s') ->
  I (il_store x) -> il_seen I R x -> il_do a x = Some x' -> I (il_store x') /\ il_seen I R x' /\ R (il_store x) (il_store x').
Proof.
  intros HR Hstep HI Hp Ha. destruct x as [s p], a as [t|i|i|i|i]; cbn in *; unfold il_seen in *; cbn in *.
  - injection Ha as <-. cbn. split; [done|]. split; [|reflexivity]. apply Forall_app. split; [done|]. repeat constructor.
  - destruct (p !! i) as [[t snaps]|] eqn:Hi; [|done]. injection Ha as <-. cbn. split; [done|]. split; [|reflexivity]. apply Forall_insert; [done|]. cbn.
    apply Forall_app. split; [exact (Forall_lookup_1 _ _ _ _ Hp Hi)|]. by repeat constructor.
  - destruct (p !! i) as [[t snaps]|] eqn:Hi; [|done]. cbn in Ha. destruct (exec t snaps s) as [s1|] eqn:He; [|done]. injection Ha as <-. cbn.
    destruct (Hstep t snaps s s1 HI (Forall_lookup_1 _ _ _ _ Hp Hi) He) as [HI' HR']. split; [done|]. split; [|done].
    apply Forall_forall. intros q Hq%delete_elem. rewrite Forall_forall in Hp. eapply Forall_impl; [exact (Hp q Hq)|].
    intros s2 [? ?]. split; [done|]. by transitivity s.
  - destruct (p !! i) as [[t snaps]|] eqn:Hi; [|done]. injection Ha as <-. cbn. split; [done|]. split; [|reflexivity]. apply Forall_insert; [done|]. constructor.
  - injection Ha as <-. cbn. split; [done|]. split; [|reflexivity]. apply Forall_forall. intros q Hq%delete_elem. rewrite Forall_forall in Hp. by apply Hp.
Qed.

(** What every transaction preserves, given what it read, holds throughout. *)
Lemma il_invariant (I : S -> Prop) (R : S -> S -> Prop) l s0 x :
  PreOrder R ->
  (forall t snaps s s', I s -> Forall (fun s1 => I s1 /\ R s1 s) snaps -> exec t snaps s = Ok s' -> I s' /\ R s s') ->
  I s0 -> run_actions il_do l (mkInterleaved s0 []) = Some x -> I (il_store x).
Proof.
  intros HR Hstep H0 Hl. assert (H : I (il_store x) /\ il_seen I R x); [|tauto].
  refine (run_actions_invariant il_do (fun y => I (il_store y) /\ il_seen I R y) l (mkInterleaved s0 []) x _ _ Hl); [|split; [exact H0|constructor]].
  intros a y z [HI Hs] Ha. by destruct (il_do_seen I R a y z HR Hstep HI Hs Ha) as (? & ? & _).
Qed.

End interleaving.
Arguments mkInterleaved {S Tx} _ _.
Arguments il_store {S Tx} _.
Arguments il_pending {S Tx} _.
Arguments Action : clear implicits.
Arguments Begin {Tx} _.
Arguments Read {Tx} _.
Arguments Commit {Tx} _.
Arguments Again {Tx} _.
Arguments Abort {Tx} _.

(** A transaction's reads follow one another, so what the earlier saw evolved into what the later saw;
    and only some transactions ever begin. *)
Lemma StronglySorted_snoc {A} (R : A -> A -> Prop) l x : StronglySorted R l -> Forall (fun y => R y x) l -> StronglySorted R (l ++ [x]).
Proof.
  induction 1 as [|y l Hl IH Hy]; cbn; intros Hx; [repeat constructor|]. apply Forall_cons in Hx as [Hyx Hx].
  constructor; [by apply IH|]. apply Forall_app. split; [done|]. by repeat constructor.
Qed.

Section ordered.
Context {S Tx : Type} (exec : Tx -> list S -> S -> result S).

Definition begins (ok : Tx -> Prop) (a : Action Tx) : Prop := match a with Begin t => ok t | _ => True end.
Definition il_ordered (ok : Tx -> Prop) (I : S -> Prop) (R : S -> S -> Prop) (x : Interleaved (S := S) (Tx := Tx)) : Prop :=
  Forall (fun p => ok p.1 /\ Forall (fun s0 => I s0 /\ R s0 (il_store x)) p.2 /\ StronglySorted R p.2) (il_pending x).

Lemma il_do_ordered (ok : Tx -> Prop) (I : S -> Prop) (R : S -> S -> Prop) a x x' :
  PreOrder R ->
  (forall t snaps s s', ok t -> I s -> Forall (fun s0 => I s0 /\ R s0 s) snaps -> StronglySorted R snaps -> exec t snaps s = Ok s' -> I s' /\ R s s') ->
  begins ok a -> I (il_store x) -> il_ordered ok I R x -> il_do exec a x = Some x' -> I (il_store x') /\ il_ordered ok I R x' /\ R (il_store x) (il_store x').
Proof.
  intros HR Hstep Hok HI Hp Ha. destruct x as [s p], a as [t|i|i|i|i]; cbn in *; unfold il_ordered in *; cbn in *.
  - injection Ha as <-. cbn. split; [done|]. split; [|reflexivity]. apply Forall_app. split; [done|]. repeat constructor. done.
  - destruct (p !! i) as [[t snaps]|] eqn:Hi; [|done]. injection Ha as <-. cbn. split; [done|]. split; [|reflexivity].
    destruct (Forall_lookup_1 _ _ _ _ Hp Hi) as (Ht & Hs & Ho). apply Forall_insert; [done|]. cbn. split_and!; [done| |].
    + apply Forall_app. split; [done|]. by repeat constructor.
    + apply StronglySorted_snoc; [done|]. eapply Forall_impl; [exact Hs|]. by intros ? [].
  - destruct (p !! i) as [[t snaps]|] eqn:Hi; [|done]. cbn in Ha. destruct (exec t snaps s) as [s1|] eqn:He; [|done]. injection Ha as <-. cbn.
    destruct (Forall_lookup_1 _ _ _ _ Hp Hi) as (Ht & Hs & Ho). destruct (Hstep t snaps s s1 Ht HI Hs Ho He) as [HI' HR'].
    split; [done|]. split; [|done]. apply Forall_forall. intros q Hq%delete_elem. rewrite Forall_forall in Hp. destruct (Hp q Hq) as (? & Hq' & ?).
    split_and!; [done| |done]. eapply Forall_impl; [exact Hq'|]. intros s2 [? ?]. split; [done|]. by transitivity s.
  - destruct (p !! i) as [[t snaps]|] eqn:Hi; [|done]. injection Ha as <-. cbn. split; [done|]. split; [|reflexivity]. apply Forall_insert; [done|].
    destruct (Forall_lookup_1 _ _ _ _ Hp Hi) as (Ht & _). cbn. split_and!; [done|constructor|constructor].
  - injection Ha as <-. cbn. split; [done|]. split; [|reflexivity]. apply Forall_forall. intros q Hq%delete_elem. rewrite Forall_forall in Hp. by apply Hp.
Qed.

(** What the transactions that begin preserve, given what each read in turn, holds throughout. *)
Lemma il_invariant_ordered (ok : Tx -> Prop) (I : S -> Prop) (R : S -> S -> Prop) l x0 x :
  PreOrder R ->
  (forall t snaps s s', ok t -> I s -> Forall (fun s1 => I s1 /\ R s1 s) snaps -> StronglySorted R snaps -> exec t snaps s = Ok s' -> I s' /\ R s s') ->
  Forall (begins ok) l -> I (il_store x0) -> il_ordered ok I R x0 -> run_actions (il_do exec) l x0 = Some x ->
  I (il_store x) /\ il_ordered ok I R x /\ R (il_store x0) (il_store x).
Proof.
  intros HR Hstep. revert x0. induction l as [|a l IH]; cbn; intros x0 Hok HI Ho H; [injection H as <-; split_and!; [done..|reflexivity]|].
  apply Forall_cons in Hok as [Ha Hok]. destruct (il_do exec a x0) as [x1|] eqn:E; [|done]. cbn in H.
  destruct (il_do_ordered ok I R a x0 x1 HR Hstep Ha HI Ho E) as (HI1 & Ho1 & HR1). destruct (IH x1 Hok HI1 Ho1 H) as (? & ? & ?).
  split_and!; [done..|]. by transitivity (il_store x1).
Qed.

End ordered.
