(* ===== verification/Plans.v ===== *)
(** Licensing's plans and subscriptions: [services/licensing/src/domain], [plan.ts], [plan-version.ts],
    [plan-sections.ts], [value-objects/plan-spec.ts] and [subscription.ts]. A plan is an append-only
    history of versions with a pointer to the published one; a subscription pins one version. *)
From Stdlib Require Import Ascii.
From S2P Require Import Prelude Kernel Store.

#[global] Open Scope Z_scope.

(** ** Events ([events/licensing-changed.event.ts]) *)

Inductive LicensingFamily :=
| f_plan | f_plan_version | f_subscription | f_merchant_feature_override | f_merchant_capabilities | f_usage_counter
| f_credit | f_invoice | f_coupon.
Record LicensingChanged := mkLicensingChanged { lc_ref : string; lc_family : LicensingFamily; lc_action : string }.

(** ** Plan specifications ([value-objects/plan-spec.ts]) *)

Record PlanLimits := mkPlanLimits {
  maxProducts : option Z; maxOrders : option Z; maxStaff : option Z; maxAiCredits : option Z; maxIntegrations : option Z;
  maxWorkflows : option Z; maxExperiments : option Z }.
Inductive BillingCycle := monthly | annual.
Record PlanPricing := mkPlanPricing {
  basePriceMinor : jsnum; pricing_currency : string; billingCycle : BillingCycle; trialDays : option Z; creditAllowances : jsmap }.
Record PlanSpec := mkPlanSpec { spec_limits : PlanLimits; featureEntitlements : list string; spec_pricing : PlanPricing }.

#[export] Instance PlanLimits_eq_dec : EqDecision PlanLimits.
Proof. solve_decision. Defined.
#[export] Instance BillingCycle_eq_dec : EqDecision BillingCycle.
Proof. solve_decision. Defined.
#[export] Instance PlanPricing_eq_dec : EqDecision PlanPricing.
Proof. solve_decision. Defined.
#[export] Instance PlanSpec_eq_dec : EqDecision PlanSpec.
Proof. solve_decision. Defined.

(** ** Sections ([plan-sections.ts])

    [diff] compares the sections' JSON texts, which differ exactly when the values do (keys in one
    order). *)

Inductive PlanSectionName :=
| s_pricing | s_features | s_limits | s_usage | s_storage | s_automation | s_marketplace | s_ai | s_branding | s_support | s_sla.
Definition SECTION_NAMES : list PlanSectionName :=
  [s_pricing; s_features; s_limits; s_usage; s_storage; s_automation; s_marketplace; s_ai; s_branding; s_support; s_sla].
Inductive SectionValue :=
| v_pricing (p : PlanPricing) | v_features (l : list string) | v_limits (l : PlanLimits) | v_allowances (m : jsmap)
| v_field (name : string) (value : option Z) | v_empty.
#[export] Instance SectionValue_eq_dec : EqDecision SectionValue.
Proof. solve_decision. Defined.

Definition allowance (k : string) (spec : PlanSpec) : option Z := map_get k (creditAllowances (spec_pricing spec)).
Definition project (spec : PlanSpec) (name : PlanSectionName) : SectionValue :=
  match name with
  | s_pricing => v_pricing (spec_pricing spec)
  | s_features => v_features (featureEntitlements spec)
  | s_limits => v_limits (spec_limits spec)
  | s_usage => v_allowances (creditAllowances (spec_pricing spec))
  | s_storage => v_field "storageBytes" (Some (default 0 (allowance "storage" spec)))
  | s_automation => v_field "maxWorkflows" (maxWorkflows (spec_limits spec))
  | s_marketplace => v_field "marketplaceCredits" (Some (default 0 (allowance "marketplace_credits" spec)))
  | s_ai => v_field "aiCredits" (Some (match allowance "ai_credits" spec with
                                       | Some n => n | None => default 0 (maxAiCredits (spec_limits spec)) end))
  | s_branding | s_support | s_sla => v_empty
  end.
Definition sections_diff (a b : PlanSpec) : list (PlanSectionName * bool) :=
  (fun n => (n, negb (bool_decide (project a n = project b n)))) <$> SECTION_NAMES.

(** ** Plan versions ([plan-version.ts]) *)

Inductive PlanVersionStatus := vs_draft | vs_scheduled | vs_published | vs_archived.
#[export] Instance PlanVersionStatus_eq_dec : EqDecision PlanVersionStatus.
Proof. solve_decision. Defined.
Definition version_status_name (s : PlanVersionStatus) : string :=
  match s with vs_draft => "draft" | vs_scheduled => "scheduled" | vs_published => "published" | vs_archived => "archived" end.

Definition VERSION_TRANSITIONS (from : PlanVersionStatus) : list PlanVersionStatus :=
  match from with
  | vs_draft => [vs_scheduled; vs_published; vs_archived]
  | vs_scheduled => [vs_published; vs_draft; vs_archived]
  | vs_published => [vs_archived]
  | vs_archived => []
  end.

Record PlanVersion := mkPlanVersion {
  pv_id : string; pv_spec : PlanSpec; pv_status : PlanVersionStatus; pv_scheduledPublishAt : option Z }.

(** The text of a number that is no integer is not modelled. *)
Definition js_text (n : jsnum) : string := match n with NInt z => pretty z | NOther => "a fraction or NaN" end.

Definition assertPricing (spec : PlanSpec) : result unit :=
  let n := basePriceMinor (spec_pricing spec) in
  if negb (isSafeInteger n) || negb (bool_decide (integer_from 0 n <> None)) then
    Err (BusinessRuleError ("Plan pricing basePriceMinor must be a non-negative integer of minor units, got " +:+ js_text n))
  else if negb (Money.isValidCurrencyCode (pricing_currency (spec_pricing spec))) then
    Err (BusinessRuleError ("Plan pricing currency " +:+ quoted (pricing_currency (spec_pricing spec)) +:+ " is not an ISO-4217 code"))
  else Ok tt.

Definition version_createDraft (id : string) (spec : PlanSpec) : result PlanVersion :=
  _ ← assertPricing spec;
  Ok (mkPlanVersion id spec vs_draft None).

Definition version_transition (to : PlanVersionStatus) (v : PlanVersion) : result PlanVersion :=
  if negb (bool_decide (to ∈ VERSION_TRANSITIONS (pv_status v))) then
    Err (BusinessRuleError ("Cannot transition plan version from " +:+ version_status_name (pv_status v) +:+ " to " +:+ version_status_name to))
  else if bool_decide (pv_status v = vs_published) then Err (BusinessRuleError "A published plan version is immutable")
  else Ok (mkPlanVersion (pv_id v) (pv_spec v) to (pv_scheduledPublishAt v)).

Definition version_schedule (publishAt : Z) (v : PlanVersion) : result PlanVersion :=
  v ← version_transition vs_scheduled v;
  Ok (mkPlanVersion (pv_id v) (pv_spec v) (pv_status v) (Some publishAt)).
Definition version_publish : PlanVersion -> result PlanVersion := version_transition vs_published.
Definition version_archive : PlanVersion -> result PlanVersion := version_transition vs_archived.

(** ** Plans ([plan.ts]) *)

Inductive PlanTier := t_free | t_starter | t_growth | t_pro | t_enterprise | t_custom.
Record PlanProps := mkPlanProps {
  pl_key : string; pl_name : string; pl_tier : PlanTier; pl_versions : list PlanVersion; pl_publishedVersionId : option string }.
Abbreviation Plan := (Aggregate PlanProps LicensingChanged).
Abbreviation PlanM := (M Plan).

Definition with_versions (l : list PlanVersion) (p : PlanProps) : PlanProps :=
  mkPlanProps (pl_key p) (pl_name p) (pl_tier p) l (pl_publishedVersionId p).
Definition with_published (id : string) (p : PlanProps) : PlanProps :=
  mkPlanProps (pl_key p) (pl_name p) (pl_tier p) (pl_versions p) (Some id).

Definition plan_raise (action eid : string) (at_ : Z) (ref : option string) : PlanM unit :=
  key ← gets (fun a : Plan => pl_key (agg_props a));
  addDomainEvent eid at_ (mkLicensingChanged (default key ref) f_plan action).

Definition plan_create (id key name : string) (tier : PlanTier) (eid : string) (at_ : Z) : Plan :=
  (plan_raise "created" eid at_ None (new_agg (mkPlanProps key name tier [] None) id)).2.

(** The id [createDraft] gives the version after [n] others. *)
Definition version_ref (planId : string) (n : nat) : string := planId +:+ "-v" +:+ show_nat (S n).

Definition plan_createDraft (spec : PlanSpec) (eid : string) (at_ : Z) : PlanM string :=
  n ← gets (fun a : Plan => length (pl_versions (agg_props a)));
  planId ← gets agg_id;
  id ← lift (UniqueEntityId_from (version_ref planId n));
  draft ← lift (version_createDraft id spec);
  set_props (fun p => with_versions (pl_versions p ++ [draft]) p);;
  plan_raise "draft_created" eid at_ (Some id);;
  mret id.

Definition versionById (versionId : string) (p : PlanProps) : option PlanVersion :=
  find_first (fun v => bool_decide (pv_id v = versionId)) (pl_versions p).
Definition plan_findVersion (versionId : string) : PlanM PlanVersion :=
  found ← gets (fun a : Plan => versionById versionId (agg_props a));
  match found with Some v => mret v | None => throw (NotFoundError ("Plan version " +:+ versionId +:+ " not found")) end.

(** The version object found is changed in place. *)
Fixpoint set_version (versionId : string) (v' : PlanVersion) (l : list PlanVersion) : list PlanVersion :=
  match l with [] => [] | v :: l' => if bool_decide (pv_id v = versionId) then v' :: l' else v :: set_version versionId v' l' end.
Definition on_version (versionId : string) (f : PlanVersion -> result PlanVersion) : PlanM unit :=
  v ← plan_findVersion versionId;
  v' ← lift (f v);
  set_props (fun p => with_versions (set_version versionId v' (pl_versions p)) p).

Definition plan_clone (fromVersionId eid : string) (at_ : Z) : PlanM string :=
  source ← plan_findVersion fromVersionId;
  plan_createDraft (pv_spec source) eid at_.
Definition plan_schedule (versionId : string) (publishAt : Z) (eid : string) (at_ : Z) : PlanM unit :=
  on_version versionId (version_schedule publishAt);;
  plan_raise "version_scheduled" eid at_ (Some versionId).
Definition plan_publish (versionId eid : string) (at_ : Z) : PlanM unit :=
  on_version versionId version_publish;;
  set_props (with_published versionId);;
  plan_raise "version_published" eid at_ (Some versionId).
Definition plan_rollback (toVersionId eid : string) (at_ : Z) : PlanM unit :=
  target ← plan_findVersion toVersionId;
  throw_if (negb (bool_decide (pv_status target = vs_published)) && negb (bool_decide (pv_status target = vs_archived)))
    (BusinessRuleError "Can only roll back to a version that was published");;
  set_props (with_published toVersionId);;
  plan_raise "rolled_back" eid at_ (Some toVersionId).
Definition plan_archive (versionId eid : string) (at_ : Z) : PlanM unit :=
  on_version versionId version_archive;;
  plan_raise "version_archived" eid at_ (Some versionId).
Definition plan_compare (versionAId versionBId : string) : PlanM (list (PlanSectionName * bool)) :=
  a ← plan_findVersion versionAId;
  b ← plan_findVersion versionBId;
  mret (sections_diff (pv_spec a) (pv_spec b)).

Inductive PlanOp :=
| CreateDraftVersion (spec : PlanSpec) | CloneVersion (fromVersionId : string) | ScheduleVersion (versionId : string) (publishAt : Z)
| PublishVersion (versionId : string) | RollbackTo (versionId : string) | ArchiveVersion (versionId : string).
Definition plan_exec (call : PlanOp * string * Z) : PlanM unit :=
  let '(op, eid, at_) := call in
  match op with
  | CreateDraftVersion spec => _ ← plan_createDraft spec eid at_; mret tt
  | CloneVersion v => _ ← plan_clone v eid at_; mret tt
  | ScheduleVersion v publishAt => plan_schedule v publishAt eid at_
  | PublishVersion v => plan_publish v eid at_
  | RollbackTo v => plan_rollback v eid at_
  | ArchiveVersion v => plan_archive v eid at_
  end.

(** [planIdOfVersionRef]: the pattern is anything on one line, then "-v" and digits to the end. What
    follows the last "-v" holds no other, so the greedy match is the only one. *)
Definition line_end (c : ascii) : bool := let n := nat_of_ascii c in (n =? 10)%nat || (n =? 13)%nat.
Definition version_suffix (s : string) : bool :=
  match s with
  | String a (String b (String d rest)) => bool_decide (a = "-"%char) && bool_decide (b = "v"%char) && is_digit d && all_chars is_digit rest
  | _ => false
  end.
Fixpoint planIdOfVersionRef (ref : string) : option string :=
  match ref with
  | EmptyString => None
  | String c s => if line_end c then None
                  else if version_suffix s then Some (String c EmptyString)
                  else String c <$> planIdOfVersionRef s
  end.

(** ** Subscriptions ([subscription.ts]) *)

Inductive SubscriptionStatus := ss_trial | ss_active | ss_grace | ss_expired | ss_suspended | ss_cancelled.
#[export] Instance SubscriptionStatus_eq_dec : EqDecision SubscriptionStatus.
Proof. solve_decision. Defined.
Definition subscription_status_name (s : SubscriptionStatus) : string :=
  match s with
  | ss_trial => "trial" | ss_active => "active" | ss_grace => "grace" | ss_expired => "expired" | ss_suspended => "suspended"
  | ss_cancelled => "cancelled"
  end.
Definition SUBSCRIPTION_TRANSITIONS (from : SubscriptionStatus) : list SubscriptionStatus :=
  match from with
  | ss_trial => [ss_active; ss_cancelled; ss_expired]
  | ss_active => [ss_grace; ss_suspended; ss_cancelled]
  | ss_grace => [ss_active; ss_expired; ss_cancelled]
  | ss_expired => [ss_active; ss_cancelled]
  | ss_suspended => [ss_active; ss_cancelled]
  | ss_cancelled => []
  end.

Record RenewalSchedule := mkRenewalSchedule { cycleDays : Z; nextRenewalAt : Z }.
Record RetryPolicy := mkRetryPolicy { rp_maxAttempts : Z; rp_attempt : Z; rp_nextRetryAt : option Z; rp_invoiceRef : option string }.
Record SubscriptionProps := mkSubscription {
  sb_tenantRef : string; sb_planVersionRef : string; sb_status : SubscriptionStatus; sb_renewalSchedule : option RenewalSchedule;
  sb_gracePeriodDays : option Z; sb_retryPolicy : option RetryPolicy; sb_cancellationReason : option string; sb_pausedUntil : option Z }.
Abbreviation Subscription := (Aggregate SubscriptionProps LicensingChanged).
Abbreviation SubscriptionM := (M Subscription).

Definition sb_with_version (ref : string) (p : SubscriptionProps) : SubscriptionProps :=
  mkSubscription (sb_tenantRef p) ref (sb_status p) (sb_renewalSchedule p) (sb_gracePeriodDays p) (sb_retryPolicy p) (sb_cancellationReason p) (sb_pausedUntil p).
Definition sb_with_status (st : SubscriptionStatus) (p : SubscriptionProps) : SubscriptionProps :=
  mkSubscription (sb_tenantRef p) (sb_planVersionRef p) st (sb_renewalSchedule p) (sb_gracePeriodDays p) (sb_retryPolicy p) (sb_cancellationReason p) (sb_pausedUntil p).
Definition sb_with_schedule (x : RenewalSchedule) (p : SubscriptionProps) : SubscriptionProps :=
  mkSubscription (sb_tenantRef p) (sb_planVersionRef p) (sb_status p) (Some x) (sb_gracePeriodDays p) (sb_retryPolicy p) (sb_cancellationReason p) (sb_pausedUntil p).
Definition sb_with_grace (days : Z) (p : SubscriptionProps) : SubscriptionProps :=
  mkSubscription (sb_tenantRef p) (sb_planVersionRef p) (sb_status p) (sb_renewalSchedule p) (Some days) (sb_retryPolicy p) (sb_cancellationReason p) (sb_pausedUntil p).
Definition sb_with_retry (x : option RetryPolicy) (p : SubscriptionProps) : SubscriptionProps :=
  mkSubscription (sb_tenantRef p) (sb_planVersionRef p) (sb_status p) (sb_renewalSchedule p) (sb_gracePeriodDays p) x (sb_cancellationReason p) (sb_pausedUntil p).
Definition sb_with_reason (reason : string) (p : SubscriptionProps) : SubscriptionProps :=
  mkSubscription (sb_tenantRef p) (sb_planVersionRef p) (sb_status p) (sb_renewalSchedule p) (sb_gracePeriodDays p) (sb_retryPolicy p) (Some reason) (sb_pausedUntil p).
Definition sb_with_pause (until : option Z) (p : SubscriptionProps) : SubscriptionProps :=
  mkSubscription (sb_tenantRef p) (sb_planVersionRef p) (sb_status p) (sb_renewalSchedule p) (sb_gracePeriodDays p) (sb_retryPolicy p) (sb_cancellationReason p) until.

Definition subscription_raise (action eid : string) (at_ : Z) : SubscriptionM unit :=
  ref ← gets (fun a : Subscription => sb_tenantRef (agg_props a));
  addDomainEvent eid at_ (mkLicensingChanged ref f_subscription action).
Definition subscription_transition (to : SubscriptionStatus) (eid : string) (at_ : Z) (action : string) : SubscriptionM unit :=
  st ← gets (fun a : Subscription => sb_status (agg_props a));
  throw_if (negb (bool_decide (to ∈ SUBSCRIPTION_TRANSITIONS st)))
    (BusinessRuleError ("Cannot transition subscription from " +:+ subscription_status_name st +:+ " to " +:+ subscription_status_name to));;
  set_props (sb_with_status to);;
  subscription_raise action eid at_.

Definition startTrial (id tenantRef planVersionRef eid : string) (at_ : Z) : Subscription :=
  (subscription_raise "started" eid at_ (new_agg (mkSubscription tenantRef planVersionRef ss_trial None None None None None) id)).2.
Definition activate (eid : string) (at_ : Z) : SubscriptionM unit := subscription_transition ss_active eid at_ "activated".
Definition repin (newPlanVersionRef eid : string) (at_ : Z) : SubscriptionM unit :=
  set_props (sb_with_version newPlanVersionRef);;
  subscription_raise "repinned" eid at_.
Definition enterGrace (days : Z) (eid : string) (at_ : Z) : SubscriptionM unit :=
  set_props (sb_with_grace days);;
  subscription_transition ss_grace eid at_ "entered_grace".
Definition subscription_expire (eid : string) (at_ : Z) : SubscriptionM unit := subscription_transition ss_expired eid at_ "expired".
Definition recoverFromGrace (eid : string) (at_ : Z) : SubscriptionM unit := subscription_transition ss_active eid at_ "recovered_from_grace".
Definition exhaustDunning (eid : string) (at_ : Z) : SubscriptionM unit := subscription_transition ss_expired eid at_ "dunning_exhausted".
Definition suspend (eid : string) (at_ : Z) : SubscriptionM unit := subscription_transition ss_suspended eid at_ "suspended".
Definition cancel (reason eid : string) (at_ : Z) : SubscriptionM unit :=
  set_props (sb_with_reason reason);;
  subscription_transition ss_cancelled eid at_ "cancelled".
Definition pause (resumeDate : Z) (eid : string) (at_ : Z) : SubscriptionM unit :=
  set_props (sb_with_pause (Some resumeDate));;
  subscription_raise "paused" eid at_.
Definition resume (eid : string) (at_ : Z) : SubscriptionM unit :=
  set_props (sb_with_pause None);;
  subscription_raise "resumed" eid at_.
Definition setRenewalSchedule (x : RenewalSchedule) : SubscriptionM unit := set_props (sb_with_schedule x).
Definition setRetryPolicy (x : option RetryPolicy) : SubscriptionM unit := set_props (sb_with_retry x).
Definition previewRenewal (p : SubscriptionProps) : option Z * string := (nextRenewalAt <$> sb_renewalSchedule p, sb_planVersionRef p).

(** ** Laws of plans *)

Definition plan_versions (a : Plan) : list PlanVersion := pl_versions (agg_props a).

(** What a call may do to a version: nothing to its id and specification, nothing at all once it is
    published. *)
Definition version_kept (v v' : PlanVersion) : Prop :=
  pv_id v' = pv_id v /\ pv_spec v' = pv_spec v /\ (pv_status v = vs_published -> v' = v) /\ (pv_status v = vs_archived -> v' = v).
Definition versions_kept (l l' : list PlanVersion) : Prop :=
  forall i v, l !! i = Some v -> exists v', l' !! i = Some v' /\ version_kept v v'.

#[export] Instance version_kept_preorder : PreOrder version_kept.
Proof.
  split; [done|]. intros v1 v2 v3 (E1 & E2 & Hp & Ha) (F1 & F2 & Hp' & Ha').
  split; [congruence|]. split; [congruence|]. split; intros Hs.
  - rewrite Hp' by (by rewrite Hp). by apply Hp.
  - rewrite Ha' by (by rewrite Ha). by apply Ha.
Qed.
#[export] Instance versions_kept_preorder : PreOrder versions_kept.
Proof.
  split; [intros l i v Hi; by exists v|]. intros l1 l2 l3 H12 H23 i v Hi.
  destruct (H12 i v Hi) as (v2 & H2 & K2). destruct (H23 i v2 H2) as (v3 & H3 & K3). exists v3. split; [done|]. by transitivity v2.
Qed.

Lemma versionById_lookup versionId p v :
  versionById versionId p = Some v -> exists i, pl_versions p !! i = Some v /\ pv_id v = versionId /\
    forall v', set_version versionId v' (pl_versions p) = <[i := v']> (pl_versions p).
Proof.
  unfold versionById. induction (pl_versions p) as [|w l IH]; cbn; [done|]. case_bool_decide as Hw.
  - intros [= ->]. exists 0%nat. split; [done|]. done.
  - intros (i & Hi & Hid & Hset)%IH. exists (S i). split; [done|]. split; [done|]. intros v'. cbn. by rewrite Hset.
Qed.

Lemma plan_findVersion_Ok versionId (a : Plan) v a' :
  plan_findVersion versionId a = (Ok v, a') <-> versionById versionId (agg_props a) = Some v /\ a' = a.
Proof.
  unfold plan_findVersion. rewrite bind_Ok. split.
  - intros (f & s & [-> ->]%gets_Ok & Hf). destruct (versionById versionId (agg_props a)); [|done]. apply ret_Ok in Hf. naive_solver.
  - intros [Hf ->]. exists (Some v), a. split; [by rewrite <- Hf|done].
Qed.

(** A transition leaves from a draft or a scheduled version only. *)
Lemma version_transition_Ok to v v' : version_transition to v = Ok v' ->
  v' = mkPlanVersion (pv_id v) (pv_spec v) to (pv_scheduledPublishAt v) /\ pv_status v <> vs_published /\ pv_status v <> vs_archived.
Proof.
  unfold version_transition. case_bool_decide as Hin; cbn; [|done]. case_bool_decide as Hp; [done|]. intros [= <-].
  split; [done|]. split; [done|]. intros Ha. rewrite Ha in Hin. by apply elem_of_nil in Hin.
Qed.

Lemma version_transition_kept to v v' : version_transition to v = Ok v' -> version_kept v v'.
Proof. by intros (-> & ? & ?)%version_transition_Ok. Qed.

Lemma version_schedule_kept t v v' : version_schedule t v = Ok v' -> version_kept v v'.
Proof. unfold version_schedule. intros H. minv. by apply version_transition_Ok in Hres as (-> & ? & ?). Qed.

Lemma on_version_Ok versionId f (a : Plan) u a' :
  on_version versionId f a = (Ok u, a') -> exists i v v', plan_versions a !! i = Some v /\ pv_id v = versionId /\ f v = Ok v' /\
    a' = mkAgg (agg_id a) (agg_version a) (agg_events a) (with_versions (<[i := v']> (plan_versions a)) (agg_props a)).
Proof.
  unfold on_version. intros H. agg_inv. apply plan_findVersion_Ok in Hcall as [(i & Hi & Hid & Hset)%versionById_lookup ->].
  exists i, v. eexists. split; [done|]. split; [done|]. split; [done|]. cbn. by rewrite Hset.
Qed.

Lemma insert_kept l i v v' : l !! i = Some v -> version_kept v v' -> versions_kept l (<[i := v']> l).
Proof.
  intros Hi Hk j w Hj. destruct (decide (i = j)) as [<-|Hn].
  - exists v'. split; [apply list_lookup_insert_eq; by eapply lookup_lt_Some|]. by simplify_eq.
  - exists w. split; [by rewrite list_lookup_insert_ne|reflexivity].
Qed.

(** What a call that returned did to the versions and to the pointer. *)
Definition plan_stepped (a a' : Plan) : Prop :=
  agg_id a' = agg_id a /\ versions_kept (plan_versions a) (plan_versions a') /\
  (length (plan_versions a') = length (plan_versions a) \/
   exists spec, plan_versions a' = plan_versions a ++ [mkPlanVersion (version_ref (agg_id a) (length (plan_versions a))) spec vs_draft None]) /\
  (pl_publishedVersionId (agg_props a') = pl_publishedVersionId (agg_props a) \/
   exists v, v ∈ plan_versions a' /\ pl_publishedVersionId (agg_props a') = Some (pv_id v) /\ (pv_status v = vs_published \/ pv_status v = vs_archived)).

Lemma plan_raise_Ok action eid t ref (a : Plan) u a' :
  plan_raise action eid t ref a = (Ok u, a') -> agg_id a' = agg_id a /\ agg_props a' = agg_props a.
Proof. unfold plan_raise. intros H. by agg_inv. Qed.

Lemma plan_createDraft_stepped spec eid t (a : Plan) id a' :
  plan_createDraft spec eid t a = (Ok id, a') -> plan_stepped a a' /\ id = version_ref (agg_id a) (length (plan_versions a)) /\
    plan_versions a' = plan_versions a ++ [mkPlanVersion id spec vs_draft None].
Proof.
  unfold plan_createDraft, version_createDraft. intros H. agg_inv. apply UniqueEntityId_from_Ok in Hcall1 as [_ ->].
  apply plan_raise_Ok in Hcall4 as [Eid Ep]. unfold plan_stepped, plan_versions. rewrite Eid, Ep. cbn. split_and!; [done| |right; by exists spec|by left|done|done].
  intros i w Hi. exists w. split; [by apply lookup_app_l_Some|done].
Qed.

Lemma on_version_stepped versionId f (a : Plan) u a' :
  (forall v v', f v = Ok v' -> version_kept v v') -> on_version versionId f a = (Ok u, a') -> plan_stepped a a'.
Proof.
  intros Hf (i & v & v' & Hi & Hid & Hv & ->)%on_version_Ok. unfold plan_stepped, plan_versions. cbn.
  split; [done|]. split; [by eapply insert_kept; eauto|]. split; [left; by rewrite length_insert|by left].
Qed.

Lemma plan_exec_stepped c (a : Plan) u a' : plan_exec c a = (Ok u, a') -> plan_stepped a a'.
Proof.
  destruct c as [[[spec|from|v t|v|v|v] eid] at_]; cbn; intros H; minv.
  - by eapply plan_createDraft_stepped.
  - unfold plan_clone in Hcall. minv. apply plan_findVersion_Ok in Hcall0 as [_ ->]. by eapply plan_createDraft_stepped.
  - unfold plan_schedule in H. minv. apply plan_raise_Ok in H as [Ei Ep]. apply on_version_stepped in Hcall; [|apply version_schedule_kept].
    unfold plan_stepped, plan_versions in *. by rewrite Ei, Ep.
  - unfold plan_publish in H. agg_inv. apply plan_raise_Ok in H as [Ei Ep]. assert (Hc := Hcall).
    apply on_version_Ok in Hc as (i & w & w' & Hi & Hid & Hw & ->). apply on_version_stepped in Hcall; [|apply version_transition_kept].
    apply version_transition_Ok in Hw as (-> & _). unfold plan_stepped, plan_versions in *. rewrite Ei, Ep. cbn in *.
    destruct Hcall as (E1 & K & L & _). split_and!; [done|done|done|]. right. eexists. split.
    { apply list_elem_of_lookup_2 with i, list_lookup_insert_eq. by eapply lookup_lt_Some. } cbn. rewrite Hid. tauto.
  - unfold plan_rollback in H. agg_inv. apply plan_findVersion_Ok in Hcall as [Hf ->]. apply plan_raise_Ok in H as [Ei Ep].
    apply versionById_lookup in Hf as (i & Hi & Hid & _). unfold plan_stepped, plan_versions in *. rewrite Ei, Ep. cbn.
    split_and!; [done|reflexivity|by left|]. right. eexists. split; [by eapply list_elem_of_lookup_2|]. rewrite Hid. split; [done|].
    apply andb_false_iff in Hcall0. rewrite !negb_false_iff, !bool_decide_eq_true in Hcall0. done.
  - unfold plan_archive in H. minv. apply plan_raise_Ok in H as [Ei Ep]. apply on_version_stepped in Hcall; [|apply version_transition_kept].
    unfold plan_stepped, plan_versions in *. by rewrite Ei, Ep.
Qed.

Definition plan_inv (a : Plan) : Prop :=
  (forall i v, plan_versions a !! i = Some v -> pv_id v = version_ref (agg_id a) i) /\
  (forall p, pl_publishedVersionId (agg_props a) = Some p ->
     exists v, v ∈ plan_versions a /\ pv_id v = p /\ (pv_status v = vs_published \/ pv_status v = vs_archived)).

Lemma plan_stepped_inv a a' : plan_inv a -> plan_stepped a a' -> plan_inv a'.
Proof.
  intros [Hid Hp] (Ei & K & L & P). split.
  - intros i v' Hi. rewrite Ei. destruct (plan_versions a !! i) as [v|] eqn:Hv.
    + destruct (K i v Hv) as (v2 & H2 & E & _). simplify_eq. rewrite E. by apply Hid.
    + destruct L as [L|(spec & L)].
      * apply lookup_lt_Some in Hi. apply lookup_ge_None in Hv. lia.
      * rewrite L in Hi. apply lookup_ge_None in Hv. rewrite lookup_app_r in Hi by done.
        apply list_lookup_singleton_Some in Hi as [Hz <-]. cbn. f_equal. lia.
  - intros p Hpub. destruct P as [P|(v & Hv & P & Hs)]; [|exists v; split; [done|]; split; [congruence|done]].
    rewrite P in Hpub. destruct (Hp p Hpub) as (v & Hv & Hvp & Hs). apply list_elem_of_lookup_1 in Hv as (i & Hv).
    destruct (K i v Hv) as (v' & Hv' & E & _ & H1 & H2). exists v'. split; [by eapply list_elem_of_lookup_2|]. split; [congruence|].
    destruct Hs as [Hs|Hs]; [rewrite (H1 Hs)|rewrite (H2 Hs)]; tauto.
Qed.

Lemma plan_run_stepped l (a : Plan) u a' :
  run_ops plan_exec l a = (Ok u, a') -> plan_inv a -> plan_inv a' /\ agg_id a' = agg_id a /\ versions_kept (plan_versions a) (plan_versions a').
Proof.
  intros H Hi. eapply (run_ops_invariant (fun x => plan_inv x /\ agg_id x = agg_id a /\ versions_kept (plan_versions a) (plan_versions x)));
    [|split; [done|]; split; [done|reflexivity]|exact H].
  intros c s v s' _ (I & E & K) Hc%plan_exec_stepped. split; [by eapply plan_stepped_inv|].
  destruct Hc as (E' & K' & _). split; [congruence|]. by transitivity (plan_versions s).
Qed.

Lemma plan_create_inv id key name tier eid t : plan_inv (plan_create id key name tier eid t).
Proof. split; [intros i v H|]; done. Qed.

(** ** Laws of version references *)

Lemma show_nat_digits n : all_chars is_digit (show_nat n) = true /\ show_nat n <> EmptyString.
Proof.
  unfold show_nat. assert (Hd : forall x, is_digit (pretty_N_char (x `mod` 10)) = true).
  { intros x. unfold pretty_N_char. by repeat case_match. }
  assert (Hgo : forall x s, all_chars is_digit s = true -> all_chars is_digit (pretty_N_go x s) = true).
  { intros x. induction (N.lt_wf_0 x) as [x _ IH]. intros s Hs. destruct (decide (0 < x)%N) as [Hx|Hx].
    - rewrite pretty_N_go_step by done. apply IH; [apply N.div_lt; lia|]. cbn. by rewrite Hd.
    - assert (x = 0%N) as -> by lia. by rewrite pretty_N_go_0. }
  unfold pretty, pretty_N. case_decide; [done|]. split; [by apply Hgo|].
  intros E. assert (Hlen : forall x s, s <> EmptyString -> pretty_N_go x s <> EmptyString).
  { intros x. induction (N.lt_wf_0 x) as [x _ IH]. intros s Hs. destruct (decide (0 < x)%N) as [Hx|Hx].
    - rewrite pretty_N_go_step by done. apply IH; [apply N.div_lt; lia|done].
    - assert (x = 0%N) as -> by lia. by rewrite pretty_N_go_0. }
  rewrite pretty_N_go_step in E by lia. by apply Hlen in E.
Qed.

Lemma all_digits_no_dash s t : all_chars is_digit (s +:+ String "-" t) = false.
Proof. induction s as [|c s IH]; [done|]. change (is_digit c && all_chars is_digit (s +:+ String "-" t) = false). by rewrite IH, andb_false_r. Qed.

Lemma version_suffix_inner c s d : version_suffix (String c s +:+ String "-" (String "v" d)) = false.
Proof.
  destruct s as [|y [|z s]].
  - change (bool_decide (c = "-"%char) && bool_decide ("-"%char = "v"%char) && is_digit "v" && all_chars is_digit d = false).
    by destruct (bool_decide (c = _)).
  - change (bool_decide (c = "-"%char) && bool_decide (y = "v"%char) && is_digit "-" && all_chars is_digit (String "v" d) = false).
    by destruct (bool_decide (c = _)), (bool_decide (y = _)).
  - change (bool_decide (c = "-"%char) && bool_decide (y = "v"%char) && is_digit z && all_chars is_digit (s +:+ String "-" (String "v" d)) = false).
  by rewrite all_digits_no_dash, andb_false_r.
Qed.

Lemma planIdOfVersionRef_append planId d :
  planId <> EmptyString -> all_chars (fun c => negb (line_end c)) planId = true -> all_chars is_digit d = true -> d <> EmptyString ->
  planIdOfVersionRef (planId +:+ String "-" (String "v" d)) = Some planId.
Proof.
  intros Hp Hl Hd Hn. assert (Hs : version_suffix (String "-" (String "v" d)) = true).
  { destruct d as [|x d]; [done|]. cbn in *. by destruct (is_digit x), (all_chars is_digit d). }
  induction planId as [|c s IH]; [done|]. cbn in Hl. apply andb_true_iff in Hl as [Hc%negb_true_iff Hl].
  change (String c s +:+ String "-" (String "v" d)) with (String c (s +:+ String "-" (String "v" d))). cbn [planIdOfVersionRef]. rewrite Hc.
  destruct s as [|x s].
  - change (EmptyString +:+ String "-" (String "v" d)) with (String "-" (String "v" d)). by rewrite Hs.
  - rewrite version_suffix_inner. by rewrite IH.
Qed.

Lemma version_ref_inj planId n m : version_ref planId n = version_ref planId m -> n = m.
Proof. unfold version_ref. intros H%append_inj_l%append_inj_l. unfold show_nat in H. apply (inj pretty) in H. lia. Qed.

(** ** Properties *)

(** A version reference leads back to its plan. The id a plan gives its versions is split by
    [planIdOfVersionRef] into exactly that plan's id, whatever dashes, digits or other references the plan
    id itself contains, as long as it is not empty and stays on one line; so the version a subscription
    pins is found in the plan that made it. *)
Theorem version_ref_names_its_plan planId n :
  planId <> EmptyString -> all_chars (fun c => negb (line_end c)) planId = true ->
  planIdOfVersionRef (version_ref planId n) = Some planId.
Proof. intros Hp Hl. destruct (show_nat_digits (S n)) as [Hd Hn]. by apply planIdOfVersionRef_append. Qed.

Lemma version_ref_names_its_plan_witness : planIdOfVersionRef (version_ref "a-v7-v" 11) = Some "a-v7-v".
Proof. apply (version_ref_names_its_plan "a-v7-v" 11); [discriminate|reflexivity]. Defined.

(** A plan's history is append-only and what was published stays as it was. After any calls that
    returned on a new plan, and any more after those, the [i]-th version still has the id [<plan>-v<i+1>]
    and the specification it was drafted with, a published version is untouched, and the published
    pointer names a version of the plan. *)
Theorem published_versions_are_immutable id key name tier eid t l1 l2 u1 u2 a1 a2 :
  run_ops plan_exec l1 (plan_create id key name tier eid t) = (Ok u1, a1) -> run_ops plan_exec l2 a1 = (Ok u2, a2) ->
  (forall i v, plan_versions a1 !! i = Some v -> pv_id v = version_ref id i /\
     exists v', plan_versions a2 !! i = Some v' /\ pv_id v' = pv_id v /\ pv_spec v' = pv_spec v /\ (pv_status v = vs_published -> v' = v)) /\
  (forall p, pl_publishedVersionId (agg_props a2) = Some p -> exists v, v ∈ plan_versions a2 /\ pv_id v = p).
Proof.
  intros H1 H2. destruct (plan_run_stepped _ _ _ _ H1 (plan_create_inv _ _ _ _ _ _)) as (I1 & E1 & _).
  destruct (plan_run_stepped _ _ _ _ H2 I1) as (I2 & E2 & K). change (agg_id a1 = id) in E1. split.
  - intros i v Hi. rewrite <- E1. split; [by apply I1|]. destruct (K i v Hi) as (v' & ? & ? & ? & ? & _). by exists v'.
  - intros p Hp. destruct I2 as [_ I2]. destruct (I2 p Hp) as (v & ? & ? & _). by exists v.
Qed.

Definition sample_spec (price : Z) : PlanSpec :=
  mkPlanSpec (mkPlanLimits None None None None None None None) ["ai"] (mkPlanPricing (NInt price) "USD" monthly (Some 14) []).
Definition sample_plan_calls : list (PlanOp * string * Z) :=
  [(CreateDraftVersion (sample_spec 1000), "e1", 1); (PublishVersion "p-v1", "e2", 2)].
Definition sample_more_calls : list (PlanOp * string * Z) :=
  [(CloneVersion "p-v1", "e3", 3); (ArchiveVersion "p-v2", "e4", 4); (RollbackTo "p-v2", "e5", 5)].
Definition sample_plan : Plan := (run_ops plan_exec sample_plan_calls (plan_create "p" "pro" "Pro" t_pro "e0" 0)).2.
Definition sample_later_plan : Plan := (run_ops plan_exec sample_more_calls sample_plan).2.

Lemma published_versions_are_immutable_witness :
  (forall i v, plan_versions sample_plan !! i = Some v -> pv_id v = version_ref "p" i /\
     exists v', plan_versions sample_later_plan !! i = Some v' /\ pv_id v' = pv_id v /\ pv_spec v' = pv_spec v /\ (pv_status v = vs_published -> v' = v)) /\
  (forall p, pl_publishedVersionId (agg_props sample_later_plan) = Some p -> exists v, v ∈ plan_versions sample_later_plan /\ pv_id v = p).
Proof.
  apply (published_versions_are_immutable "p" "pro" "Pro" t_pro "e0" 0 sample_plan_calls sample_more_calls tt tt);
    vm_compute; reflexivity.
Defined.

(** The archive and the rollback work against each other. A published version cannot be archived,
    although the table allows it: the call fails as "immutable". Hence an archived version was published at
    no earlier point of the plan's history; and it is archived versions, beside published ones, that a
    rollback accepts, although it is to accept versions that were published. *)
Theorem rollback_accepts_what_was_never_published id key name tier eid t l1 l2 u1 u2 a1 a2 i v e t' :
  run_ops plan_exec l1 (plan_create id key name tier eid t) = (Ok u1, a1) -> run_ops plan_exec l2 a1 = (Ok u2, a2) ->
  versionById (version_ref id i) (agg_props a2) = Some v ->
  (pv_status v = vs_published -> plan_archive (pv_id v) e t' a2 = (Err (BusinessRuleError "A published plan version is immutable"), a2)) /\
  (pv_status v = vs_archived ->
     (forall v1, v1 ∈ plan_versions a1 -> pv_id v1 = pv_id v -> pv_status v1 <> vs_published) /\
     exists a3, plan_rollback (pv_id v) e t' a2 = (Ok tt, a3) /\ pl_publishedVersionId (agg_props a3) = Some (pv_id v)).
Proof.
  intros H1 H2 Hf. destruct (plan_run_stepped _ _ _ _ H1 (plan_create_inv _ _ _ _ _ _)) as (I1 & E1 & _).
  destruct (plan_run_stepped _ _ _ _ H2 I1) as (I2 & E2 & K). change (agg_id a1 = id) in E1.
  assert (Hf' := Hf). apply versionById_lookup in Hf' as (j & Hj & Hid & _). rewrite <- Hid in Hf. split.
  - intros Hs. unfold plan_archive, on_version, plan_findVersion. unfold mbind, M_bind, gets, lift. rewrite Hf. cbn.
    unfold version_archive, version_transition. by rewrite Hs.
  - intros Hs. split.
    + intros v1 Hv1 Hv Hp. apply list_elem_of_lookup_1 in Hv1 as (k & Hk). destruct (K k v1 Hk) as (v2 & Hk2 & Ev & _ & Hkeep & _).
      assert (v2 = v).
      { destruct I2 as [I2 _]. assert (Hf2 := I2 k v2 Hk2). assert (Hk3 := I2 j v Hj).
        assert (Hk4 : version_ref (agg_id a2) k = version_ref (agg_id a2) j) by congruence.
        apply version_ref_inj in Hk4 as ->. unfold plan_versions in Hk2. congruence. }
      subst v2. rewrite (Hkeep Hp) in Hs. congruence.
    + unfold plan_rollback, plan_findVersion, mbind, M_bind, gets. rewrite Hf. cbn. rewrite Hs. cbn. by eexists.
Qed.

Lemma rollback_accepts_what_was_never_published_witness :
  (forall v1, v1 ∈ plan_versions sample_plan -> pv_id v1 = "p-v2" -> pv_status v1 <> vs_published) /\
  exists a3, plan_rollback "p-v2" "e" 9 sample_later_plan = (Ok tt, a3) /\ pl_publishedVersionId (agg_props a3) = Some "p-v2".
Proof.
  apply (rollback_accepts_what_was_never_published "p" "pro" "Pro" t_pro "e0" 0 sample_plan_calls sample_more_calls tt tt
    sample_plan sample_later_plan 1 (mkPlanVersion "p-v2" (sample_spec 1000) vs_archived None) "e" 9); vm_compute; reflexivity.
Defined.
