(* ===== verification/Invoices.v ===== *)
(** Licensing's billing aggregates: [services/licensing/src/domain], [invoice.ts], [coupon.ts] and
    [billing-payment-method.ts], with the rows [infrastructure/mappers.ts] keeps of them. Amounts are
    integers of minor units. *)
From Stdlib Require Import Ascii.
From S2P Require Import Prelude Kernel Store Plans.

#[global] Open Scope Z_scope.

(** ** Invoices ([invoice.ts]) *)

Inductive InvoiceStatus := is_draft | is_issued | is_paid | is_failed | is_voided.
#[export] Instance InvoiceStatus_eq_dec : EqDecision InvoiceStatus.
Proof. solve_decision. Defined.
Definition invoice_status_name (s : InvoiceStatus) : string :=
  match s with is_draft => "draft" | is_issued => "issued" | is_paid => "paid" | is_failed => "failed" | is_voided => "voided" end.
Definition INVOICE_TRANSITIONS (from : InvoiceStatus) : list InvoiceStatus :=
  match from with
  | is_draft => [is_issued; is_voided]
  | is_issued => [is_paid; is_failed; is_voided]
  | is_paid => []
  | is_failed => [is_issued; is_voided]
  | is_voided => []
  end.
Definition DISCOUNTABLE : list InvoiceStatus := [is_draft].

Record InvoiceLineItem := mkInvoiceLine { li_description : string; li_amountMinor : jsnum }.
Record InvoiceDiscount := mkInvoiceDiscount { id_couponRef : string; id_amountMinor : Z }.
Record InvoiceProps := mkInvoice {
  iv_tenantRef : string; iv_subscriptionRef : string; iv_currency : string; iv_lineItems : list InvoiceLineItem;
  iv_status : InvoiceStatus; iv_paymentReference : option string; iv_discount : option InvoiceDiscount }.
Abbreviation Invoice := (Aggregate InvoiceProps LicensingChanged).
Abbreviation InvoiceM := (M Invoice).

Definition iv_with_status (st : InvoiceStatus) (p : InvoiceProps) : InvoiceProps :=
  mkInvoice (iv_tenantRef p) (iv_subscriptionRef p) (iv_currency p) (iv_lineItems p) st (iv_paymentReference p) (iv_discount p).
Definition iv_with_reference (ref : string) (p : InvoiceProps) : InvoiceProps :=
  mkInvoice (iv_tenantRef p) (iv_subscriptionRef p) (iv_currency p) (iv_lineItems p) (iv_status p) (Some ref) (iv_discount p).
Definition iv_with_discount (d : InvoiceDiscount) (p : InvoiceProps) : InvoiceProps :=
  mkInvoice (iv_tenantRef p) (iv_subscriptionRef p) (iv_currency p) (iv_lineItems p) (iv_status p) (iv_paymentReference p) (Some d).

Definition out_of_range {A} : result A := Err (BusinessRuleError "Invoice total exceeds the exactly-representable range").
Definition add_line (currency : string) (total : Money.Money) (item : InvoiceLineItem) : result Money.Money :=
  match Money.create (li_amountMinor item) currency with
  | Err _ => Err (BusinessRuleError ("Invoice line " +:+ quoted (li_description item) +:+
               ": amountMinor must be a non-negative integer of minor units"))
  | Ok line =>
      total ← Money.plus total line;
      if isSafeInteger (NInt (Money.amountMinor total)) then Ok total else out_of_range
  end.
(** [Invoice.sum] *)
Definition sum_lines (currency : string) (lineItems : list InvoiceLineItem) : result Money.Money :=
  zero ← Money.zero currency;
  foldM (add_line currency) zero lineItems.

Definition assertExactMoney (currency : string) (lineItems : list InvoiceLineItem) : result unit :=
  if negb (Money.isValidCurrencyCode currency) then
    Err (BusinessRuleError ("Invalid invoice currency " +:+ quoted currency +:+ " (ISO-4217, 3 capitals)"))
  else _ ← sum_lines currency lineItems; Ok tt.

Definition subtotal (p : InvoiceProps) : result Money.Money := sum_lines (iv_currency p) (iv_lineItems p).
Definition total (p : InvoiceProps) : result Money.Money :=
  match iv_discount p with
  | None => subtotal p
  | Some d =>
      match Money.create (NInt (id_amountMinor d)) (iv_currency p) with
      | Err _ => Err (BusinessRuleError "Invoice discount amountMinor must be a non-negative integer")
      | Ok amount => s ← subtotal p; Money.minus s amount
      end
  end.
Definition totalMinor (p : InvoiceProps) : result Z := t ← total p; Ok (Money.amountMinor t).
Definition isFullyDiscounted (p : InvoiceProps) : result bool :=
  match iv_discount p with None => Ok false | Some _ => n ← totalMinor p; Ok (bool_decide (n = 0)) end.

Definition assertDiscountConsistent (p : InvoiceProps) : result unit :=
  match iv_discount p with
  | None => Ok tt
  | Some _ => t ← total p; if isSafeInteger (NInt (Money.amountMinor t)) then Ok tt else out_of_range
  end.

Definition invoice_raise (action eid : string) (at_ : Z) : InvoiceM unit :=
  ref ← gets (fun a : Invoice => iv_tenantRef (agg_props a));
  addDomainEvent eid at_ (mkLicensingChanged ref f_invoice action).
Definition invoice_transition (to : InvoiceStatus) (eid : string) (at_ : Z) (action : string) : InvoiceM unit :=
  st ← gets (fun a : Invoice => iv_status (agg_props a));
  throw_if (negb (bool_decide (to ∈ INVOICE_TRANSITIONS st)))
    (BusinessRuleError ("Cannot transition invoice from " +:+ invoice_status_name st +:+ " to " +:+ invoice_status_name to));;
  set_props (iv_with_status to);;
  invoice_raise action eid at_.

Definition invoice_createDraft (id tenantRef subscriptionRef currency : string) (lineItems : list InvoiceLineItem) (eid : string) (at_ : Z) :
    result Invoice :=
  _ ← assertExactMoney currency lineItems;
  Ok (invoice_raise "created" eid at_ (new_agg (mkInvoice tenantRef subscriptionRef currency lineItems is_draft None None) id)).2.
Definition invoice_reconstitute (id : string) (p : InvoiceProps) (version : Z) : result Invoice :=
  _ ← assertDiscountConsistent p;
  Ok (new_agg_at p id version).

Definition issue (eid : string) (at_ : Z) : InvoiceM unit := invoice_transition is_issued eid at_ "issued".
Definition assertCanDiscount (amount : Money.Money) : InvoiceM unit :=
  p ← gets agg_props;
  throw_if (negb (bool_decide (iv_status p ∈ DISCOUNTABLE)))
    (BusinessRuleError ("A discount can only be applied to a draft invoice, not one that is " +:+ invoice_status_name (iv_status p)));;
  throw_if (bool_decide (iv_discount p ≠ None)) (BusinessRuleError "Invoice already has a discount");;
  s ← lift (subtotal p);
  _ ← lift (Money.minus s amount);
  mret tt.
Definition applyDiscount (couponRef : string) (amount : Money.Money) (eid : string) (at_ : Z) : InvoiceM unit :=
  assertCanDiscount amount;;
  set_props (iv_with_discount (mkInvoiceDiscount couponRef (Money.amountMinor amount)));;
  invoice_raise "discounted" eid at_.
Definition markPaid (paymentReference eid : string) (at_ : Z) : InvoiceM unit :=
  set_props (iv_with_reference paymentReference);;
  invoice_transition is_paid eid at_ "paid".
Definition markFailed (eid : string) (at_ : Z) : InvoiceM unit := invoice_transition is_failed eid at_ "failed".
Definition voidInvoice (eid : string) (at_ : Z) : InvoiceM unit := invoice_transition is_voided eid at_ "voided".

#[export] Instance InvoiceDiscount_eq_dec : EqDecision InvoiceDiscount.
Proof. solve_decision. Defined.

Inductive InvoiceOp := Issue | ApplyDiscount (couponRef : string) (amount : Money.Money) | MarkPaid (ref : string) | MarkFailed | VoidInvoice.
Definition invoice_exec (c : InvoiceOp * string * Z) : InvoiceM unit :=
  let '(op, eid, at_) := c in
  match op with
  | Issue => issue eid at_
  | ApplyDiscount ref amount => applyDiscount ref amount eid at_
  | MarkPaid ref => markPaid ref eid at_
  | MarkFailed => markFailed eid at_
  | VoidInvoice => voidInvoice eid at_
  end.

(** ** Coupons ([coupon.ts])

    A value as given holds numbers; [assertValue] keeps what passes as integers. *)

Inductive CouponStatus := cs_issued | cs_redeemed | cs_expired | cs_revoked.
#[export] Instance CouponStatus_eq_dec : EqDecision CouponStatus.
Proof. solve_decision. Defined.
Definition coupon_status_name (s : CouponStatus) : string :=
  match s with cs_issued => "issued" | cs_redeemed => "redeemed" | cs_expired => "expired" | cs_revoked => "revoked" end.
Definition COUPON_TRANSITIONS (from : CouponStatus) : list CouponStatus :=
  match from with cs_issued => [cs_redeemed; cs_expired; cs_revoked] | _ => [] end.

Inductive CouponValueInput := in_percentage (basisPoints : jsnum) | in_fixed (amountMinor : jsnum) (currency : string).
Inductive CouponValue := percentage (basisPoints : Z) | fixed (amountMinor : Z) (currency : string).
#[export] Instance CouponValue_eq_dec : EqDecision CouponValue.
Proof. solve_decision. Defined.
Record CouponRedemption := mkRedemption { rd_invoiceRef : string; rd_redeemedAt : Z }.
Record CouponProps := mkCoupon {
  cp_code : string; cp_value : CouponValue; cp_expiresAt : Z; cp_merchantRef : option string; cp_status : CouponStatus;
  cp_redemption : option CouponRedemption; cp_revokedReason : option string }.
Abbreviation Coupon := (Aggregate CouponProps LicensingChanged).
Abbreviation CouponM := (M Coupon).

Definition cp_with_status (st : CouponStatus) (p : CouponProps) : CouponProps :=
  mkCoupon (cp_code p) (cp_value p) (cp_expiresAt p) (cp_merchantRef p) st (cp_redemption p) (cp_revokedReason p).
Definition cp_with_redemption (r : CouponRedemption) (p : CouponProps) : CouponProps :=
  mkCoupon (cp_code p) (cp_value p) (cp_expiresAt p) (cp_merchantRef p) (cp_status p) (Some r) (cp_revokedReason p).
Definition cp_with_reason (reason : string) (p : CouponProps) : CouponProps :=
  mkCoupon (cp_code p) (cp_value p) (cp_expiresAt p) (cp_merchantRef p) (cp_status p) (cp_redemption p) (Some reason).

(** [/^[A-Z0-9_-]{4,32}$/] *)
Definition code_char (c : ascii) : bool := is_upper c || is_digit c || bool_decide (c = "_"%char) || bool_decide (c = "-"%char).
Definition CODE_PATTERN (code : string) : bool :=
  all_chars code_char code && (4 <=? String.length code)%nat && (String.length code <=? 32)%nat.
Definition BASIS_POINTS_PER_WHOLE : Z := 10000.

Definition assertValue (v : CouponValueInput) : result CouponValue :=
  match v with
  | in_percentage n =>
      match n with
      | NInt z => if bool_decide (z < 1) || bool_decide (10000 < z)
                  then Err (BusinessRuleError "Coupon basisPoints must be an integer from 1 to 10000") else Ok (percentage z)
      | NOther => Err (BusinessRuleError "Coupon basisPoints must be an integer from 1 to 10000")
      end
  | in_fixed n currency =>
      match n with
      | NInt z =>
          if negb (isSafeInteger n) || bool_decide (z < 1) then Err (BusinessRuleError "Coupon amountMinor must be a positive integer of minor units")
          else if negb (Money.isValidCurrencyCode currency) then
            Err (BusinessRuleError ("Invalid coupon currency " +:+ quoted currency +:+ " (ISO-4217, 3 capitals)"))
          else Ok (fixed z currency)
      | NOther => Err (BusinessRuleError "Coupon amountMinor must be a positive integer of minor units")
      end
  end.

Definition normalise_code (code : string) : string := toUpperCase (trim code).

Definition coupon_raise (action eid : string) (at_ : Z) : CouponM unit :=
  p ← gets agg_props;
  addDomainEvent eid at_ (mkLicensingChanged (default (cp_code p) (cp_merchantRef p)) f_coupon action).
Definition assertCanMoveTo (to : CouponStatus) : CouponM unit :=
  st ← gets (fun a : Coupon => cp_status (agg_props a));
  throw_if (negb (bool_decide (to ∈ COUPON_TRANSITIONS st)))
    (BusinessRuleError ("Cannot transition coupon from " +:+ coupon_status_name st +:+ " to " +:+ coupon_status_name to)).
Definition coupon_transition (to : CouponStatus) (eid : string) (at_ : Z) (action : string) : CouponM unit :=
  assertCanMoveTo to;;
  set_props (cp_with_status to);;
  coupon_raise action eid at_.

Definition coupon_issue (id code : string) (value : CouponValueInput) (expiresAt : Z) (merchantRef : option string) (eid : string) (at_ : Z) :
    result Coupon :=
  let code := normalise_code code in
  if negb (CODE_PATTERN code) then Err (BusinessRuleError "Coupon code must be 4-32 characters of A-Z, 0-9, underscore or hyphen")
  else
    value ← assertValue value;
    if negb (bool_decide (at_ < expiresAt)) then Err (BusinessRuleError "Coupon expiry must be in the future")
    else Ok (coupon_raise "issued" eid at_ (new_agg (mkCoupon code value expiresAt merchantRef cs_issued None None) id)).2.

Definition assertRedeemable (merchantRef : string) (at_ : Z) : CouponM unit :=
  assertCanMoveTo cs_redeemed;;
  p ← gets agg_props;
  throw_if (bool_decide (cp_expiresAt p <= at_)) (BusinessRuleError ("Coupon " +:+ cp_code p +:+ " has expired"));;
  throw_if (match cp_merchantRef p with Some m => negb (bool_decide (m = merchantRef)) | None => false end)
    (BusinessRuleError ("Coupon " +:+ cp_code p +:+ " is not valid for this merchant")).
Definition coupon_redeem (invoiceRef merchantRef eid : string) (at_ : Z) : CouponM unit :=
  assertRedeemable merchantRef at_;;
  set_props (cp_with_redemption (mkRedemption invoiceRef at_));;
  coupon_transition cs_redeemed eid at_ "redeemed".
Definition coupon_expire (eid : string) (at_ : Z) : CouponM unit :=
  assertCanMoveTo cs_expired;;
  p ← gets agg_props;
  throw_if (bool_decide (at_ < cp_expiresAt p))
    (BusinessRuleError ("Coupon " +:+ cp_code p +:+ " has not reached its expiry and cannot be marked expired"));;
  coupon_transition cs_expired eid at_ "expired".
Definition coupon_revoke (reason eid : string) (at_ : Z) : CouponM unit :=
  assertCanMoveTo cs_revoked;;
  set_props (cp_with_reason reason);;
  coupon_transition cs_revoked eid at_ "revoked".

Definition discountFor (p : CouponProps) (subtotal : Money.Money) : result Money.Money :=
  minor ← (match cp_value p with
           | fixed amount currency =>
               if bool_decide (currency <> Money.currency subtotal) then
                 Err (BusinessRuleError ("Coupon " +:+ cp_code p +:+ " is in " +:+ currency +:+ " and cannot apply to a " +:+
                   Money.currency subtotal +:+ " invoice (no currency conversion)"))
               else Ok amount
           | percentage bp => Ok (Z.quot (Money.amountMinor subtotal * bp) BASIS_POINTS_PER_WHOLE)
           end);
  if bool_decide (minor = 0) then Err (BusinessRuleError ("Coupon " +:+ cp_code p +:+ " would discount nothing on this invoice"))
  else if bool_decide (Money.amountMinor subtotal < minor) then
    Err (BusinessRuleError ("Coupon " +:+ cp_code p +:+ " is worth more than the invoice subtotal and is refused, not floored to zero"))
  else match Money.create (NInt minor) (Money.currency subtotal) with
       | Ok m => Ok m
       | Err _ => Err (BusinessRuleError "Coupon discount is not a valid amount")
       end.

(** ** Payment methods ([billing-payment-method.ts]): no events, hence an aggregate that raises none. *)

Inductive PaymentMethodStatus := pm_pending | pm_active | pm_revoked.
#[export] Instance PaymentMethodStatus_eq_dec : EqDecision PaymentMethodStatus.
Proof. solve_decision. Defined.
Definition method_status_name (s : PaymentMethodStatus) : string :=
  match s with pm_pending => "pending" | pm_active => "active" | pm_revoked => "revoked" end.
Record PaymentMethodProps := mkMethod {
  bm_tenantRef : string; bm_provider : string; bm_providerOrderId : string; bm_invoiceRef : option string; bm_status : PaymentMethodStatus;
  bm_tokenId : option string; bm_sealedToken : option string; bm_maskedPan : option string; bm_cardSubtype : option string;
  bm_createdAt : Z; bm_updatedAt : Z }.
Abbreviation BillingPaymentMethod := (Aggregate PaymentMethodProps LicensingChanged).
Definition BILLING_PROVIDER : string := "paymob".

Definition method_begin (id tenantRef provider providerOrderId invoiceRef : string) (now : Z) : BillingPaymentMethod :=
  new_agg (mkMethod tenantRef provider providerOrderId (Some invoiceRef) pm_pending None None None None now now) id.
Definition method_activate (tokenId sealedToken maskedPan cardSubtype : string) (now : Z) : M BillingPaymentMethod unit :=
  p ← gets agg_props;
  throw_if (negb (bool_decide (bm_status p = pm_pending)))
    (BusinessRuleError ("Cannot activate a " +:+ method_status_name (bm_status p) +:+ " payment method"));;
  set_props (fun p => mkMethod (bm_tenantRef p) (bm_provider p) (bm_providerOrderId p) (bm_invoiceRef p) pm_active
    (Some tokenId) (Some sealedToken) (Some maskedPan) (Some cardSubtype) (bm_createdAt p) now).
Definition method_revoke (now : Z) : M BillingPaymentMethod unit :=
  p ← gets agg_props;
  if bool_decide (bm_status p = pm_revoked) then mret tt
  else set_props (fun p => mkMethod (bm_tenantRef p) (bm_provider p) (bm_providerOrderId p) (bm_invoiceRef p) pm_revoked
    (bm_tokenId p) (bm_sealedToken p) (bm_maskedPan p) (bm_cardSubtype p) (bm_createdAt p) now).
Definition sealedTokenForCharge (p : PaymentMethodProps) : result string :=
  match bm_status p, bm_sealedToken p with
  | pm_active, Some t => Ok t
  | _, _ => Err (BusinessRuleError "This payment method holds no usable token")
  end.
Definition method_toString (m : BillingPaymentMethod) : string :=
  "BillingPaymentMethod(" +:+ agg_id m +:+ ", " +:+ method_status_name (bm_status (agg_props m)) +:+ ")".
Record MethodView := mkMethodView {
  mv_id : string; mv_tenantRef : string; mv_provider : string; mv_status : PaymentMethodStatus; mv_maskedPan : option string; mv_cardSubtype : option string }.
Definition method_toJSON (m : BillingPaymentMethod) : MethodView :=
  let p := agg_props m in mkMethodView (agg_id m) (bm_tenantRef p) (bm_provider p) (bm_status p) (bm_maskedPan p) (bm_cardSubtype p).

(** ** Rows ([infrastructure/mappers.ts]) *)

Record InvoiceRow := mkInvoiceRow {
  ir_id : string; ir_tenantId : string; ir_tenantRef : string; ir_subscriptionRef : string; ir_currency : string; ir_lineItems : list InvoiceLineItem;
  ir_status : InvoiceStatus; ir_paymentReference : option string; ir_discountMinor : option Z; ir_discountCouponRef : option string; ir_version : Z }.
Definition invoice_toRow (a : Invoice) (tenantId : string) : InvoiceRow :=
  let p := agg_props a in
  mkInvoiceRow (agg_id a) tenantId (iv_tenantRef p) (iv_subscriptionRef p) (iv_currency p) (iv_lineItems p) (iv_status p) (iv_paymentReference p)
    (id_amountMinor <$> iv_discount p) (id_couponRef <$> iv_discount p) 1.
Definition assertMinorUnitLines (invoiceId : string) (lineItems : list InvoiceLineItem) : result (list InvoiceLineItem) :=
  if forallb (fun l => isSafeInteger (li_amountMinor l)) lineItems then Ok lineItems
  else Err (UnexpectedError ("Invoice " +:+ invoiceId +:+
         " has a line without an integer amountMinor (pre-WP-14 row?); refusing to read it as money")).
Definition discountOf (r : InvoiceRow) : result (option InvoiceDiscount) :=
  match ir_discountMinor r, ir_discountCouponRef r with
  | None, None => Ok None
  | Some n, Some ref =>
      if isSafeInteger (NInt n) then Ok (Some (mkInvoiceDiscount ref n))
      else Err (UnexpectedError ("Invoice " +:+ ir_id r +:+ " has a half-recorded or non-integer discount; refusing to read it as money"))
  | _, _ => Err (UnexpectedError ("Invoice " +:+ ir_id r +:+ " has a half-recorded or non-integer discount; refusing to read it as money"))
  end.
Definition invoice_toDomain (r : InvoiceRow) : result Invoice :=
  id ← UniqueEntityId_from (ir_id r);
  lines ← assertMinorUnitLines (ir_id r) (ir_lineItems r);
  discount ← discountOf r;
  invoice_reconstitute id (mkInvoice (ir_tenantRef r) (ir_subscriptionRef r) (ir_currency r) lines (ir_status r) (ir_paymentReference r) discount)
    (ir_version r).

Record CouponRow := mkCouponRow {
  cr_id : string; cr_tenantId : string; cr_tenantRef : option string; cr_code : string; cr_kind : string; cr_percentBasisPoints : option Z;
  cr_amountMinor : option Z; cr_currency : option string; cr_expiresAt : Z; cr_status : CouponStatus; cr_redeemedInvoiceRef : option string;
  cr_redeemedAt : option Z; cr_revokedReason : option string; cr_version : Z }.
Definition coupon_toRow (a : Coupon) (tenantId : string) : CouponRow :=
  let p := agg_props a in
  mkCouponRow (agg_id a) tenantId (cp_merchantRef p) (cp_code p) (match cp_value p with percentage _ => "percentage" | fixed _ _ => "fixed" end)
    (match cp_value p with percentage b => Some b | fixed _ _ => None end) (match cp_value p with fixed n _ => Some n | percentage _ => None end)
    (match cp_value p with fixed _ c => Some c | percentage _ => None end) (cp_expiresAt p) (cp_status p) (rd_invoiceRef <$> cp_redemption p)
    (rd_redeemedAt <$> cp_redemption p) (cp_revokedReason p) 1.
Definition valueOf (r : CouponRow) : result CouponValue :=
  let inconsistent := Err (UnexpectedError ("Coupon " +:+ cr_id r +:+ " has an inconsistent kind/value shape; refusing to read it")) in
  match (if bool_decide (cr_kind r = "percentage") then cr_percentBasisPoints r else None) with
  | Some b => Ok (percentage b)
  | None => match (if bool_decide (cr_kind r = "fixed") then cr_amountMinor r else None), cr_currency r with
            | Some n, Some c => Ok (fixed n c)
            | _, _ => inconsistent
            end
  end.
Definition coupon_toDomain (r : CouponRow) : result Coupon :=
  id ← UniqueEntityId_from (cr_id r);
  value ← valueOf r;
  Ok (new_agg_at (mkCoupon (cr_code r) value (cr_expiresAt r) (cr_tenantRef r) (cr_status r)
    (match cr_redeemedInvoiceRef r, cr_redeemedAt r with Some i, Some t => Some (mkRedemption i t) | _, _ => None end) (cr_revokedReason r)) id (cr_version r)).

(** The subscription's row keeps its dates as text; a missing value is stored as [null]. *)
Record SubscriptionRow := mkSubscriptionRow {
  sr_id : string; sr_tenantId : string; sr_tenantRef : string; sr_planVersionRef : string; sr_status : SubscriptionStatus;
  sr_renewalSchedule : option (Z * string); sr_gracePeriodDays : option Z; sr_retryPolicy : option (Z * Z * option string * option string);
  sr_cancellationReason : option string; sr_pausedUntil : option string; sr_version : Z }.

Section dates.
(** [Date.toISOString] and [new Date(text)]. *)
Context (toISOString : Z -> string) (parseDate : string -> Z).

Definition subscription_toRow (a : Subscription) (tenantId : string) : SubscriptionRow :=
  let p := agg_props a in
  mkSubscriptionRow (agg_id a) tenantId (sb_tenantRef p) (sb_planVersionRef p) (sb_status p)
    ((fun x => (cycleDays x, toISOString (nextRenewalAt x))) <$> sb_renewalSchedule p) (sb_gracePeriodDays p)
    ((fun x => (rp_maxAttempts x, rp_attempt x, toISOString <$> rp_nextRetryAt x, rp_invoiceRef x)) <$> sb_retryPolicy p)
    (sb_cancellationReason p) (toISOString <$> sb_pausedUntil p) 1.
Definition subscription_toDomain (r : SubscriptionRow) : result Subscription :=
  id ← UniqueEntityId_from (sr_id r);
  Ok (new_agg_at (mkSubscription (sr_tenantRef r) (sr_planVersionRef r) (sr_status r)
    ((fun x => mkRenewalSchedule x.1 (parseDate x.2)) <$> sr_renewalSchedule r) (sr_gracePeriodDays r)
    ((fun '(m, n, t, i) => mkRetryPolicy m n (parseDate <$> t) i) <$> sr_retryPolicy r) (sr_cancellationReason r) (parseDate <$> sr_pausedUntil r))
    id (sr_version r)).
End dates.

(** ** Laws of invoices *)

Definition line_minor (l : InvoiceLineItem) : Z := match li_amountMinor l with NInt z => z | NOther => 0 end.
Definition lines_minor : list InvoiceLineItem -> Z := sumZ line_minor.
Definition discount_minor (p : InvoiceProps) : Z := match iv_discount p with Some d => id_amountMinor d | None => 0 end.

Lemma isSafeInteger_nonneg z : 0 <= z -> isSafeInteger (NInt z) = true <-> z <= MAX_SAFE_INTEGER.
Proof. intros Hz. cbn. rewrite bool_decide_eq_true. unfold MAX_SAFE_INTEGER. lia. Qed.

Lemma add_line_Ok c total l m : Money.currency total = c -> 0 <= Money.amountMinor total ->
  add_line c total l = Ok m ->
  m = Money.mkMoney (Money.amountMinor total + line_minor l) c /\ 0 <= line_minor l /\ Money.amountMinor m <= MAX_SAFE_INTEGER.
Proof.
  intros Hc H0 H. unfold add_line in H. destruct (Money.create (li_amountMinor l) c) as [line|] eqn:Hl; [|done].
  apply MoneyLaws.create_Ok in Hl as (Hn & -> & Hv & _). minv. case_bool_decide as Hs; [|done]. injection H as <-.
  apply MoneyLaws.plus_Ok in Hres as [_ ->]. unfold line_minor. rewrite Hn. rewrite Hc. cbn [Money.amountMinor] in *.
  cbn in Hs. split; [done|]. lia.
Qed.

Lemma foldM_add_line_Ok c l acc m : Money.currency acc = c -> 0 <= Money.amountMinor acc <= MAX_SAFE_INTEGER ->
  foldM (add_line c) acc l = Ok m ->
  m = Money.mkMoney (Money.amountMinor acc + lines_minor l) c /\ 0 <= lines_minor l /\ Money.amountMinor m <= MAX_SAFE_INTEGER.
Proof.
  revert acc. induction l as [|x l IH]; intros acc Hc H0 H; cbn in H.
  - injection H as <-. unfold lines_minor. rewrite sumZ_nil. destruct acc; cbn in *; subst. rewrite Z.add_0_r. split; [done|]. lia.
  - minv. apply add_line_Ok in Hres as (-> & Hx & Hm); [|done|lia]. cbn in Hm.
    apply IH in H as (-> & Hl & Hm'); [|done|cbn; lia]. cbn in *. unfold lines_minor in *. rewrite sumZ_cons.
    split; [f_equal; lia|]. split; lia.
Qed.

Lemma sum_lines_Ok c l m : sum_lines c l = Ok m ->
  m = Money.mkMoney (lines_minor l) c /\ Money.isValidCurrencyCode c = true /\ 0 <= lines_minor l <= MAX_SAFE_INTEGER.
Proof.
  unfold sum_lines. intros H. minv. apply MoneyLaws.zero_Ok in Hres as [Hc ->].
  apply foldM_add_line_Ok in H as (-> & ? & Hm); [done|done|]. cbn. unfold MAX_SAFE_INTEGER. lia.
Qed.

(** What every invoice made by [createDraft] and called since satisfies. *)
Definition invoice_inv (p : InvoiceProps) : Prop :=
  subtotal p = Ok (Money.mkMoney (lines_minor (iv_lineItems p)) (iv_currency p)) /\
  Money.isValidCurrencyCode (iv_currency p) = true /\ lines_minor (iv_lineItems p) <= MAX_SAFE_INTEGER /\
  0 <= discount_minor p <= lines_minor (iv_lineItems p).

Lemma invoice_inv_total p : invoice_inv p ->
  total p = Ok (Money.mkMoney (lines_minor (iv_lineItems p) - discount_minor p) (iv_currency p)).
Proof.
  intros (Hs & Hc & Hm & Hd). unfold total, discount_minor in *. destruct (iv_discount p) as [d|].
  - destruct (Money.create (NInt (id_amountMinor d)) (iv_currency p)) as [m|e] eqn:Hm'.
    + apply MoneyLaws.create_Ok in Hm' as ([= E] & Ec & _). rewrite Hs. cbn. apply MoneyLaws.minus_Ok. cbn. rewrite <- Ec, <- E. split; [done|].
      split; [lia|done].
    + exfalso. assert (Hok := proj2 (MoneyLaws.create_Ok (NInt (id_amountMinor d)) (iv_currency p) (Money.mkMoney (id_amountMinor d) (iv_currency p)))).
      rewrite Hm' in Hok. discriminate Hok. split; [done|]. split; [done|]. split; [cbn; lia|done].
  - rewrite Hs. by rewrite Z.sub_0_r.
Qed.

Lemma invoice_inv_totalMinor p : invoice_inv p -> totalMinor p = Ok (lines_minor (iv_lineItems p) - discount_minor p).
Proof. intros H%invoice_inv_total. unfold totalMinor. by rewrite H. Qed.

Lemma invoice_createDraft_Ok id t s c l eid at_ a : invoice_createDraft id t s c l eid at_ = Ok a ->
  agg_id a = id /\ agg_version a = 0 /\ agg_props a = mkInvoice t s c l is_draft None None /\ invoice_inv (agg_props a).
Proof.
  unfold invoice_createDraft, assertExactMoney. intros H. minv. destruct (Money.isValidCurrencyCode c) eqn:Hc; [|done]. cbn in Hres. minv.
  destruct (sum_lines_Ok _ _ _ Hres0) as (-> & _ & ?). do 2 (split; [done|]). split; [done|]. split; [exact Hres0|]. split; [done|]. cbn. lia.
Qed.

(** The amounts of discounts are money, which is never negative. *)
Definition op_money (c : InvoiceOp * string * Z) : Prop :=
  match c.1.1 with ApplyDiscount _ amount => Money.valid amount | _ => True end.

Definition fixed_fields (p p' : InvoiceProps) : Prop :=
  iv_tenantRef p' = iv_tenantRef p /\ iv_subscriptionRef p' = iv_subscriptionRef p /\ iv_currency p' = iv_currency p /\ iv_lineItems p' = iv_lineItems p.

Lemma invoice_transition_Ok to eid t action (a : Invoice) u a' :
  invoice_transition to eid t action a = (Ok u, a') ->
  to ∈ INVOICE_TRANSITIONS (iv_status (agg_props a)) /\ agg_id a' = agg_id a /\ agg_version a' = agg_version a /\ agg_props a' = iv_with_status to (agg_props a).
Proof. unfold invoice_transition, invoice_raise. intros H. agg_inv. done. Qed.

Lemma assertCanDiscount_Ok amount (a : Invoice) u a' :
  assertCanDiscount amount a = (Ok u, a') ->
  a' = a /\ iv_status (agg_props a) = is_draft /\ iv_discount (agg_props a) = None /\
  exists s, subtotal (agg_props a) = Ok s /\ Money.currency amount = Money.currency s /\ Money.amountMinor amount <= Money.amountMinor s.
Proof.
  unfold assertCanDiscount. intros H. agg_inv.
  repeat match goal with H : Money.minus _ _ = Ok _ |- _ => apply MoneyLaws.minus_Ok in H as (? & ? & ->) end.
  split; [done|]. split; [by apply list_elem_of_singleton|]. split; [by apply dec_stable|]. by eexists.
Qed.

Lemma applyDiscount_Ok ref amount eid t (a : Invoice) u a' :
  applyDiscount ref amount eid t a = (Ok u, a') ->
  agg_id a' = agg_id a /\ agg_version a' = agg_version a /\ agg_props a' = iv_with_discount (mkInvoiceDiscount ref (Money.amountMinor amount)) (agg_props a) /\
  iv_status (agg_props a) = is_draft /\ iv_discount (agg_props a) = None /\
  exists s, subtotal (agg_props a) = Ok s /\ Money.currency amount = Money.currency s /\ Money.amountMinor amount <= Money.amountMinor s.
Proof.
  unfold applyDiscount. intros H. minv. apply assertCanDiscount_Ok in Hcall as (-> & Hd & Hn & Hs). unfold invoice_raise in H. agg_inv. done.
Qed.

(** One call that returned. *)
Lemma invoice_exec_Ok c (a : Invoice) u a' : invoice_exec c a = (Ok u, a') -> op_money c -> invoice_inv (agg_props a) ->
  invoice_inv (agg_props a') /\ fixed_fields (agg_props a) (agg_props a') /\ iv_status (agg_props a) <> is_paid /\ iv_status (agg_props a) <> is_voided /\
  (iv_status (agg_props a) <> is_draft -> iv_status (agg_props a') <> is_draft /\ iv_discount (agg_props a') = iv_discount (agg_props a)).
Proof.
  destruct c as [[op eid] at_]. intros H Hm HI.
  assert (Hlive : forall to, to ∈ INVOICE_TRANSITIONS (iv_status (agg_props a)) -> to <> is_draft /\ iv_status (agg_props a) <> is_paid /\ iv_status (agg_props a) <> is_voided).
  { intros to Hto. split; [intros ->|split; intros E; rewrite E in Hto; by apply elem_of_nil in Hto].
    destruct (iv_status (agg_props a)); cbn in Hto; repeat (apply elem_of_cons in Hto as [?|Hto]; [done|]); by apply elem_of_nil in Hto. }
  destruct op as [|ref amount|ref| |]; cbn in H.
  - apply invoice_transition_Ok in H as ((Hd & ? & ?)%Hlive & _ & _ & ->). done.
  - apply applyDiscount_Ok in H as (_ & _ & -> & Hd & Hn & s & Hs & Hc & Hle). cbn in Hm. destruct Hm as [Hm _]. rewrite Hd.
    destruct HI as (Hsub & Hcur & Hmax & _). rewrite Hsub in Hs. injection Hs as <-. cbn in Hle. done.
  - unfold markPaid in H. agg_inv. apply invoice_transition_Ok in H as ((Hd & ? & ?)%Hlive & _ & _ & ->). done.
  - apply invoice_transition_Ok in H as ((Hd & ? & ?)%Hlive & _ & _ & ->). done.
  - apply invoice_transition_Ok in H as ((Hd & ? & ?)%Hlive & _ & _ & ->). done.
Qed.

Lemma invoice_run_Ok l (a : Invoice) u a' : run_ops invoice_exec l a = (Ok u, a') -> Forall op_money l -> invoice_inv (agg_props a) ->
  invoice_inv (agg_props a') /\ fixed_fields (agg_props a) (agg_props a') /\
  (iv_status (agg_props a) <> is_draft -> iv_status (agg_props a') <> is_draft /\ iv_discount (agg_props a') = iv_discount (agg_props a)) /\
  (iv_status (agg_props a) = is_paid \/ iv_status (agg_props a) = is_voided -> a' = a).
Proof.
  revert a. induction l as [|c l IH]; intros a H Hm HI; cbn in H; minv; [done|].
  apply Forall_cons in Hm as [Hc Hm]. apply invoice_exec_Ok in Hcall as (HI1 & F1 & Np & Nv & D1); [|done|done].
  apply IH in H as (HI2 & F2 & D2 & _); [|done|done]. split; [done|]. split; [|split; [|tauto]].
  - destruct F1 as (? & ? & ? & ?), F2 as (? & ? & ? & ?). split_and!; congruence.
  - intros Hd. destruct (D1 Hd) as [Hd1 E1]. destruct (D2 Hd1) as [Hd2 E2]. split; [done|congruence].
Qed.

Lemma line_safe c acc l m : add_line c acc l = Ok m -> Money.currency acc = c -> 0 <= Money.amountMinor acc -> isSafeInteger (li_amountMinor l) = true.
Proof.
  intros H Hc H0. assert (H' := H). apply add_line_Ok in H as (-> & Hl & Hm); [|done|done]. cbn in Hm. unfold add_line in H'.
  destruct (Money.create (li_amountMinor l) c) as [line|] eqn:Hcr; [|done]. apply MoneyLaws.create_Ok in Hcr as (Hn & _).
  unfold line_minor in *. rewrite Hn in *. apply isSafeInteger_nonneg; lia.
Qed.

Lemma lines_safe c l acc m : foldM (add_line c) acc l = Ok m -> Money.currency acc = c -> 0 <= Money.amountMinor acc ->
  forallb (fun x => isSafeInteger (li_amountMinor x)) l = true.
Proof.
  revert acc. induction l as [|x l IH]; intros acc H Hc H0; cbn in *; [done|]. minv.
  rewrite (line_safe _ _ _ _ Hres) by done. apply add_line_Ok in Hres as (-> & ? & ?); [|done|done]. eapply IH; [exact H|done|cbn; lia].
Qed.

(** ** Laws of coupons *)

Lemma coupon_issue_Ok id code value expiresAt m eid at_ a : coupon_issue id code value expiresAt m eid at_ = Ok a ->
  exists v, assertValue value = Ok v /\ agg_id a = id /\ agg_version a = 0 /\
    agg_props a = mkCoupon (normalise_code code) v expiresAt m cs_issued None None /\ at_ < expiresAt.
Proof.
  unfold coupon_issue. intros H. destruct (CODE_PATTERN _); [|done]. cbn in H. minv. case_bool_decide; [|done]. cbn in H. injection H as <-.
  by exists v.
Qed.

Definition value_ok (v : CouponValue) : Prop :=
  match v with
  | percentage bp => 1 <= bp <= 10000
  | fixed n c => 1 <= n <= MAX_SAFE_INTEGER /\ Money.isValidCurrencyCode c = true
  end.

Lemma assertValue_Ok input v : assertValue input = Ok v -> value_ok v.
Proof.
  destruct input as [[z|]|[z|] c]; [|done| |done]; unfold assertValue; cbn [value_ok].
  - repeat case_bool_decide; try done. intros [= <-]. cbn. lia.
  - destruct (isSafeInteger (NInt z)) eqn:Hs; cbn [negb orb]; [|done]. case_bool_decide; [done|].
    destruct (Money.isValidCurrencyCode c) eqn:Hc; [|done]. intros [= <-]. cbn. split; [|done].
    apply isSafeInteger_nonneg in Hs; lia.
Qed.

Definition percentage_of (bp n : Z) : Z := n * bp / BASIS_POINTS_PER_WHOLE.

Lemma discountFor_Ok p s d : value_ok (cp_value p) -> Money.valid s -> discountFor p s = Ok d ->
  d = Money.mkMoney (match cp_value p with percentage bp => percentage_of bp (Money.amountMinor s) | fixed n _ => n end) (Money.currency s) /\
  0 < Money.amountMinor d <= Money.amountMinor s /\ match cp_value p with fixed _ c => c = Money.currency s | _ => True end.
Proof.
  unfold discountFor, percentage_of. intros Hv [H0 Hc] H. destruct (cp_value p) as [bp|n c]; cbn in Hv.
  - cbn in H. rewrite Z.quot_div_nonneg in H by (unfold BASIS_POINTS_PER_WHOLE; lia).
    assert (0 <= Money.amountMinor s * bp / BASIS_POINTS_PER_WHOLE) by (apply Z.div_pos; unfold BASIS_POINTS_PER_WHOLE; lia).
    case_bool_decide as Hz; [done|]. case_bool_decide as Hb; [done|].
    destruct (Money.create _ _) as [m|] eqn:Hm in H; [|done]. injection H as <-. apply MoneyLaws.create_Ok in Hm as ([= Ea] & Ec & _).
    destruct m; cbn in *; subst. split; [done|]. lia.
  - case_bool_decide as Hcur; cbn in H; [done|]. case_bool_decide as Hz; [done|]. case_bool_decide as Hb; [done|].
    destruct (Money.create _ _) as [m|] eqn:Hm in H; [|done]. injection H as <-. apply MoneyLaws.create_Ok in Hm as ([= Ea] & Ec & _).
    destruct Hv as [Hn _], m; cbn in *; subst. split; [congruence|]. split; [lia|done].
Qed.

Lemma coupon_transition_Ok to eid t action (a : Coupon) u a' :
  coupon_transition to eid t action a = (Ok u, a') ->
  to ∈ COUPON_TRANSITIONS (cp_status (agg_props a)) /\ agg_id a' = agg_id a /\ agg_version a' = agg_version a /\ agg_props a' = cp_with_status to (agg_props a).
Proof. unfold coupon_transition, assertCanMoveTo, coupon_raise. intros H. agg_inv. done. Qed.

Lemma issued_only to st : to ∈ COUPON_TRANSITIONS st -> st = cs_issued.
Proof. destruct st; [done|..]; by intros ?%elem_of_nil. Qed.

Lemma assertRedeemable_Ok m t (a : Coupon) u a' : assertRedeemable m t a = (Ok u, a') ->
  a' = a /\ cp_status (agg_props a) = cs_issued /\ t < cp_expiresAt (agg_props a) /\ (cp_merchantRef (agg_props a) = None \/ cp_merchantRef (agg_props a) = Some m).
Proof.
  unfold assertRedeemable, assertCanMoveTo. intros H. agg_inv. split; [done|]. split; [by eapply issued_only|]. split; [lia|].
  destruct (cp_merchantRef _) as [x|]; [right|by left]. agg_inv. done.
Qed.

Lemma coupon_redeem_Ok i m eid t (a : Coupon) u a' : coupon_redeem i m eid t a = (Ok u, a') ->
  agg_id a' = agg_id a /\ agg_version a' = agg_version a /\ agg_props a' = cp_with_status cs_redeemed (cp_with_redemption (mkRedemption i t) (agg_props a)) /\
  cp_status (agg_props a) = cs_issued.
Proof.
  unfold coupon_redeem. intros H. agg_inv. apply assertRedeemable_Ok in Hcall as (-> & ? & _). apply coupon_transition_Ok in H as (_ & ? & ? & ->). done.
Qed.

Lemma coupon_expire_Ok eid t (a : Coupon) u a' : coupon_expire eid t a = (Ok u, a') ->
  agg_id a' = agg_id a /\ agg_version a' = agg_version a /\ agg_props a' = cp_with_status cs_expired (agg_props a) /\ cp_status (agg_props a) = cs_issued.
Proof.
  unfold coupon_expire, assertCanMoveTo. intros H. agg_inv. apply coupon_transition_Ok in H as (Hi & ? & ? & ->). split_and!; [done..|by eapply issued_only].
Qed.

Lemma coupon_revoke_Ok reason eid t (a : Coupon) u a' : coupon_revoke reason eid t a = (Ok u, a') ->
  agg_id a' = agg_id a /\ agg_version a' = agg_version a /\ agg_props a' = cp_with_status cs_revoked (cp_with_reason reason (agg_props a)) /\
  cp_status (agg_props a) = cs_issued.
Proof.
  unfold coupon_revoke, assertCanMoveTo. intros H. agg_inv. apply coupon_transition_Ok in H as (Hi & ? & ? & ->). split_and!; [done..|by eapply issued_only in Hcall].
Qed.

(** ** Properties *)

(** An invoice's total is exact, and final once issued. After any calls that returned on a new draft,
    the total is the sum of its lines less its one discount, without overflow, and lies between zero and
    the subtotal; the lines, the currency and the payer never change; from the moment the invoice has left
    draft the discount and the total are the same after any further calls; and a paid or voided invoice is
    not changed by any call. *)
Theorem issued_invoice_total_is_final id tenant sub c lines eid t a0 l1 l2 u1 u2 a1 a2 :
  invoice_createDraft id tenant sub c lines eid t = Ok a0 -> Forall op_money (l1 ++ l2) ->
  run_ops invoice_exec l1 a0 = (Ok u1, a1) -> run_ops invoice_exec l2 a1 = (Ok u2, a2) ->
  total (agg_props a1) = Ok (Money.mkMoney (lines_minor lines - discount_minor (agg_props a1)) c) /\
  0 <= discount_minor (agg_props a1) <= lines_minor lines /\ lines_minor lines <= MAX_SAFE_INTEGER /\
  iv_lineItems (agg_props a2) = lines /\ iv_tenantRef (agg_props a2) = tenant /\
  (iv_status (agg_props a1) <> is_draft -> total (agg_props a2) = total (agg_props a1)) /\
  (iv_status (agg_props a1) = is_paid \/ iv_status (agg_props a1) = is_voided -> a2 = a1).
Proof.
  intros (_ & _ & E0 & I0)%invoice_createDraft_Ok [M1 M2]%Forall_app H1 H2.
  destruct (invoice_run_Ok _ _ _ _ H1 M1 I0) as (I1 & F1 & _). destruct (invoice_run_Ok _ _ _ _ H2 M2 I1) as (I2 & F2 & D & Fin).
  rewrite E0 in F1. destruct F1 as (T1 & S1 & C1 & L1), F2 as (T2 & S2 & C2 & L2). cbn in *.
  rewrite (invoice_inv_total _ I1), (invoice_inv_total _ I2), L2, C2, L1, C1, T2, T1. destruct I1 as (_ & _ & Hmax & Hd). rewrite L1 in *.
  split; [done|]. do 2 (split; [lia|]). do 2 (split; [done|]). split; [|done]. intros [_ Ed]%D. unfold discount_minor. by rewrite Ed.
Qed.

Definition sample_lines : list InvoiceLineItem := [mkInvoiceLine "renewal" (NInt 1000); mkInvoiceLine "seats" (NInt 250)].
Definition sample_draft : Invoice :=
  match invoice_createDraft "i1" "m1" "s1" "USD" sample_lines "e0" 0 with Ok a => a | Err _ => new_agg (mkInvoice "" "" "" [] is_draft None None) "" end.
Definition sample_issued_calls : list (InvoiceOp * string * Z) := [(ApplyDiscount "c1" (Money.mkMoney 125 "USD"), "e1", 1); (Issue, "e2", 2)].
Definition sample_paid_calls : list (InvoiceOp * string * Z) := [(MarkFailed, "e3", 3); (Issue, "e4", 4); (MarkPaid "psp", "e5", 5)].
Definition sample_issued : Invoice := (run_ops invoice_exec sample_issued_calls sample_draft).2.
Definition sample_paid : Invoice := (run_ops invoice_exec sample_paid_calls sample_issued).2.

Lemma issued_invoice_total_is_final_witness :
  total (agg_props sample_issued) = Ok (Money.mkMoney (1250 - discount_minor (agg_props sample_issued)) "USD") /\
  0 <= discount_minor (agg_props sample_issued) <= 1250 /\ 1250 <= MAX_SAFE_INTEGER /\
  iv_lineItems (agg_props sample_paid) = sample_lines /\ iv_tenantRef (agg_props sample_paid) = "m1" /\
  (iv_status (agg_props sample_issued) <> is_draft -> total (agg_props sample_paid) = total (agg_props sample_issued)) /\
  (iv_status (agg_props sample_issued) = is_paid \/ iv_status (agg_props sample_issued) = is_voided -> sample_paid = sample_issued).
Proof.
  apply (issued_invoice_total_is_final "i1" "m1" "s1" "USD" sample_lines "e0" 0 sample_draft sample_issued_calls sample_paid_calls tt tt
    sample_issued sample_paid); try (vm_compute; reflexivity).
  repeat constructor; cbn; done.
Defined.

(** A coupon never takes more than the invoice, nor nothing. What an issued coupon says it takes off
    the subtotal of a draft with no discount yet is positive and at most the subtotal, in the invoice's
    currency: its amount when fixed, in that currency only; its fraction rounded down to whole minor units
    when a percentage, and exactly that fraction up to less than one unit. The draft then accepts it, and its
    total is what remains, never negative. *)
Theorem coupon_discount_fits_its_invoice id code value expiresAt m eid t c (a : Invoice) s d ref e t' :
  coupon_issue id code value expiresAt m eid t = Ok c -> invoice_inv (agg_props a) ->
  iv_status (agg_props a) = is_draft -> iv_discount (agg_props a) = None ->
  subtotal (agg_props a) = Ok s -> discountFor (agg_props c) s = Ok d ->
  0 < Money.amountMinor d <= Money.amountMinor s /\ Money.currency d = Money.currency s /\
  match cp_value (agg_props c) with
  | fixed n cur => Money.amountMinor d = n /\ cur = Money.currency s
  | percentage bp => 10000 * Money.amountMinor d <= bp * Money.amountMinor s < 10000 * (Money.amountMinor d + 1)
  end /\
  exists a', applyDiscount ref d e t' a = (Ok tt, a') /\ total (agg_props a') = Money.minus s d.
Proof.
  intros (v & Hv%assertValue_Ok & _ & _ & Ec & _)%coupon_issue_Ok HI Hd Hn Hs Hdisc. rewrite Ec in Hdisc |- *.
  assert (HI' := HI). destruct HI' as (Hsub & Hcur & Hmax & H0). rewrite Hsub in Hs. injection Hs as <-. cbn in H0.
  assert (Hvalid : Money.valid (Money.mkMoney (lines_minor (iv_lineItems (agg_props a))) (iv_currency (agg_props a)))) by (split; [cbn; lia|done]).
  apply discountFor_Ok in Hdisc as (E & Hpos & Hc); [|exact Hv|exact Hvalid]. cbn in *.
  destruct d as [dn dc]. injection E as Edn ->. cbn in Hpos. split; [done|]. split; [done|]. split.
  - destruct v as [bp|n cur]; [|by split]. rewrite Edn. cbn. unfold percentage_of, BASIS_POINTS_PER_WHOLE.
    pose proof (Z.div_mod (lines_minor (iv_lineItems (agg_props a)) * bp) 10000 ltac:(done)).
    pose proof (Z.mod_pos_bound (lines_minor (iv_lineItems (agg_props a)) * bp) 10000 ltac:(done)). lia.
  - clear Edn. set (s := Money.mkMoney (lines_minor (iv_lineItems (agg_props a))) (iv_currency (agg_props a))) in *.
    set (d := Money.mkMoney dn (iv_currency (agg_props a))).
    assert (Hmin : exists r, Money.minus s d = Ok r).
    { eexists. apply MoneyLaws.minus_Ok. split; [done|]. split; [cbn; lia|done]. }
    assert (Hmk : Money.create (NInt dn) (iv_currency (agg_props a)) = Ok d).
    { apply MoneyLaws.create_Ok. split; [done|]. split; [done|]. split; [cbn; lia|done]. }
    destruct Hmin as (r & Hr). unfold applyDiscount, assertCanDiscount, invoice_raise, mbind, M_bind, gets, throw_if, lift. cbn.
    rewrite Hd, Hn. cbn. rewrite Hsub. cbn. rewrite Hr. cbn. eexists. split; [done|]. unfold total. cbn [iv_discount iv_currency iv_with_discount agg_props id_amountMinor].
    change (Money.amountMinor d) with dn. rewrite Hmk. unfold subtotal in *. cbn [iv_currency iv_lineItems iv_with_discount]. by rewrite Hsub.
Qed.

Definition sample_coupon : Coupon :=
  match coupon_issue "c1" " save-10 " (in_percentage (NInt 1050)) 100 None "e" 0 with Ok a => a | Err _ => new_agg (mkCoupon "" (percentage 1) 0 None cs_issued None None) "" end.
Lemma coupon_discount_fits_its_invoice_witness :
  0 < 131 <= 1250 /\ "USD" = "USD" /\ 10000 * 131 <= 1050 * 1250 < 10000 * (131 + 1) /\
  exists a', applyDiscount "c1" (Money.mkMoney 131 "USD") "e" 2 sample_draft = (Ok tt, a') /\
    total (agg_props a') = Money.minus (Money.mkMoney 1250 "USD") (Money.mkMoney 131 "USD").
Proof.
  apply (coupon_discount_fits_its_invoice "c1" " save-10 " (in_percentage (NInt 1050)) 100 None "e" 0 sample_coupon sample_draft
    (Money.mkMoney 1250 "USD") (Money.mkMoney 131 "USD") "c1" "e" 2); try (vm_compute; reflexivity).
  split; [vm_compute; reflexivity|]. split; [reflexivity|]. vm_compute. split_and!; discriminate.
Defined.

(** Nothing of the billing records is lost in their rows. Reading back the row written of an invoice
    (whose lines and discount are money), of a coupon and of a subscription gives the same record, at the
    version rows are created with, when dates survive being written as text. *)
Theorem billing_rows_roundtrip (toISOString : Z -> string) (parseDate : string -> Z) tenantId (i : Invoice) (c : Coupon) (s : Subscription) :
  (forall t, parseDate (toISOString t) = t) ->
  blank (agg_id i) = false -> blank (agg_id c) = false -> blank (agg_id s) = false -> invoice_inv (agg_props i) ->
  invoice_toDomain (invoice_toRow i tenantId) = Ok (new_agg_at (agg_props i) (agg_id i) 1) /\
  coupon_toDomain (coupon_toRow c tenantId) = Ok (new_agg_at (agg_props c) (agg_id c) 1) /\
  subscription_toDomain parseDate (subscription_toRow toISOString s tenantId) = Ok (new_agg_at (agg_props s) (agg_id s) 1).
Proof.
  intros Hdate Hi Hc Hs HI. split; [|split].
  - assert (Ht := invoice_inv_total _ HI). destruct i as [id v ev [t sr cur l st ref disc]]. cbn in *.
    unfold invoice_toDomain, UniqueEntityId_from, Guard.againstEmpty, assertMinorUnitLines. cbn. rewrite Hi. cbn.
    destruct HI as (Hsub & Hcur & Hmax & Hd). cbn in *. unfold subtotal, sum_lines in Hsub. cbn in Hsub. minv.
    apply MoneyLaws.zero_Ok in Hres as [_ ->]. rewrite (lines_safe _ _ _ _ Hsub) by done. cbn.
    unfold discountOf. cbn. destruct disc as [[cr n]|]; cbn in *; [|done]. unfold discount_minor in *. cbn in *.
    rewrite bool_decide_true by (unfold MAX_SAFE_INTEGER in *; lia). cbn. unfold invoice_reconstitute, assertDiscountConsistent. cbn [iv_discount].
    rewrite Ht. cbn. by rewrite bool_decide_true by (unfold MAX_SAFE_INTEGER in *; lia).
  - destruct c as [id v ev [code val ex m st red rr]]. cbn in *. unfold coupon_toDomain, UniqueEntityId_from, Guard.againstEmpty. cbn.
    rewrite Hc. by destruct val, red as [[]|].
  - destruct s as [id v ev [tr pr st sch g rp cr pu]]. cbn in *. unfold subscription_toDomain, UniqueEntityId_from, Guard.againstEmpty. cbn.
    rewrite Hs. destruct sch as [[]|], rp as [[mx at_ [nt|] iv]|], pu; cbn; by rewrite ?Hdate.
Qed.

(** Dates written as tallies. *)
Fixpoint tally (n : nat) : string := match n with O => EmptyString | S n => String "x" (tally n) end.
Definition sample_iso (t : Z) : string := if bool_decide (t < 0) then String "-" (tally (Z.to_nat (- t))) else tally (Z.to_nat t).
Definition sample_parse (s : string) : Z :=
  match s with
  | String c s' => if bool_decide (c = "-"%char) then - Z.of_nat (String.length s') else Z.of_nat (String.length s)
  | EmptyString => 0
  end.

Lemma tally_length n : String.length (tally n) = n.
Proof. induction n as [|n IH]; cbn; [done|]. by rewrite IH. Qed.
Lemma sample_parse_iso t : sample_parse (sample_iso t) = t.
Proof.
  unfold sample_iso. case_bool_decide as Ht.
  - unfold sample_parse. rewrite bool_decide_true, tally_length by done. lia.
  - destruct (Z.to_nat t) as [|n] eqn:E; [cbn; lia|]. cbn [tally]. unfold sample_parse. rewrite bool_decide_false by done.
    cbn [String.length]. rewrite tally_length. lia.
Qed.

Definition sample_subscription : Subscription :=
  new_agg (mkSubscription "m1" "p-v1" ss_grace (Some (mkRenewalSchedule 30 40)) (Some 11) (Some (mkRetryPolicy 3 1 (Some (-5)) (Some "i1"))) None None) "s1".
Lemma billing_rows_roundtrip_witness :
  invoice_toDomain (invoice_toRow sample_paid "t") = Ok (new_agg_at (agg_props sample_paid) "i1" 1) /\
  coupon_toDomain (coupon_toRow sample_coupon "t") = Ok (new_agg_at (agg_props sample_coupon) "c1" 1) /\
  subscription_toDomain sample_parse (subscription_toRow sample_iso sample_subscription "t") = Ok (new_agg_at (agg_props sample_subscription) "s1" 1).
Proof.
  apply (billing_rows_roundtrip sample_iso sample_parse "t" sample_paid sample_coupon sample_subscription sample_parse_iso); try (vm_compute; reflexivity).
  split; [vm_compute; reflexivity|]. split; [reflexivity|]. vm_compute. split_and!; discriminate.
Defined.
