(* ===== verification/BillingFlow.v ===== *)
(** Licensing's use cases over its store: [services/licensing/src/application], [licensing.use-cases.ts]
    (plans and subscriptions), [billing.use-cases.ts], [coupon.use-cases.ts], [renewal.use-cases.ts],
    [dunning.use-cases.ts] and [payment-method.use-cases.ts], with the adapters that charge. A transaction
    is given the stores its reads saw ([s0], [s1], ...) and commits on the current one; the use case runs it
    where all are the same. [gen k] is the [k]-th id a call draws, [now] its reading of the clock. *)
From S2P Require Import Prelude Kernel Optimistic Store Plans Invoices.

#[global] Open Scope Z_scope.

(** ** The store *)

Record BillingStore := mkBilling {
  bs_plans : list (Row PlanProps); bs_subscriptions : list (Row SubscriptionProps); bs_invoices : list (Row InvoiceProps);
  bs_coupons : list (Row CouponProps); bs_methods : list (Row PaymentMethodProps);
  bs_outbox : list (string * (EventMeta * LicensingChanged)) }.
Abbreviation BillingM := (M BillingStore).

Definition bs_publish (events : list (string * (EventMeta * LicensingChanged))) (s : BillingStore) : BillingStore :=
  mkBilling (bs_plans s) (bs_subscriptions s) (bs_invoices s) (bs_coupons s) (bs_methods s) (bs_outbox s ++ events).

#[export] Instance plan_table : Table BillingStore PlanProps LicensingChanged := {
  tbl_rows := bs_plans;
  tbl_set l s := mkBilling l (bs_subscriptions s) (bs_invoices s) (bs_coupons s) (bs_methods s) (bs_outbox s);
  tbl_publish := bs_publish;
  tbl_name := "Plan";
  tbl_columns old new := mkPlanProps (pl_key old) (pl_name new) (pl_tier old) (pl_versions new) (pl_publishedVersionId new);
  tbl_clash _ p r := bool_decide (pl_key (row_props r) = pl_key p) }.
#[export] Instance subscription_table : Table BillingStore SubscriptionProps LicensingChanged := {
  tbl_rows := bs_subscriptions;
  tbl_set l s := mkBilling (bs_plans s) l (bs_invoices s) (bs_coupons s) (bs_methods s) (bs_outbox s);
  tbl_publish := bs_publish;
  tbl_name := "Subscription";
  tbl_columns old new := mkSubscription (sb_tenantRef old) (sb_planVersionRef new) (sb_status new) (sb_renewalSchedule new) (sb_gracePeriodDays new)
    (sb_retryPolicy new) (sb_cancellationReason new) (sb_pausedUntil new);
  tbl_clash t p r := bool_decide (row_tenant r = t) && bool_decide (sb_tenantRef (row_props r) = sb_tenantRef p) }.
#[export] Instance invoice_table : Table BillingStore InvoiceProps LicensingChanged := {
  tbl_rows := bs_invoices;
  tbl_set l s := mkBilling (bs_plans s) (bs_subscriptions s) l (bs_coupons s) (bs_methods s) (bs_outbox s);
  tbl_publish := bs_publish;
  tbl_name := "Invoice";
  tbl_columns old new := mkInvoice (iv_tenantRef old) (iv_subscriptionRef old) (iv_currency old) (iv_lineItems old) (iv_status new)
    (iv_paymentReference new) (iv_discount new);
  tbl_clash _ _ _ := false }.
#[export] Instance coupon_table : Table BillingStore CouponProps LicensingChanged := {
  tbl_rows := bs_coupons;
  tbl_set l s := mkBilling (bs_plans s) (bs_subscriptions s) (bs_invoices s) l (bs_methods s) (bs_outbox s);
  tbl_publish := bs_publish;
  tbl_name := "Coupon";
  tbl_columns old new := mkCoupon (cp_code old) (cp_value old) (cp_expiresAt old) (cp_merchantRef old) (cp_status new) (cp_redemption new) (cp_revokedReason new);
  tbl_clash t p r := bool_decide (row_tenant r = t) && bool_decide (cp_code (row_props r) = cp_code p) }.
#[export] Instance method_table : Table BillingStore PaymentMethodProps LicensingChanged := {
  tbl_rows := bs_methods;
  tbl_set l s := mkBilling (bs_plans s) (bs_subscriptions s) (bs_invoices s) (bs_coupons s) l (bs_outbox s);
  tbl_publish := bs_publish;
  tbl_name := "BillingPaymentMethod";
  tbl_columns old new := mkMethod (bm_tenantRef new) (bm_provider new) (bm_providerOrderId new) (bm_invoiceRef new) (bm_status new) (bm_tokenId new)
    (bm_sealedToken new) (bm_maskedPan new) (bm_cardSubtype new) (bm_createdAt old) (bm_updatedAt new);
  tbl_clash t p r := bool_decide (row_tenant r = t) && bool_decide (bm_provider (row_props r) = bm_provider p) &&
    bool_decide (bm_providerOrderId (row_props r) = bm_providerOrderId p) }.

#[export] Instance plan_laws : TableLaws BillingStore PlanProps LicensingChanged.
Proof. by split. Qed.
#[export] Instance subscription_laws : TableLaws BillingStore SubscriptionProps LicensingChanged.
Proof. by split. Qed.
#[export] Instance invoice_laws : TableLaws BillingStore InvoiceProps LicensingChanged.
Proof. by split. Qed.
#[export] Instance coupon_laws : TableLaws BillingStore CouponProps LicensingChanged.
Proof. by split. Qed.
#[export] Instance method_laws : TableLaws BillingStore PaymentMethodProps LicensingChanged.
Proof. by split. Qed.

Definition findSubscription (id tenantId : string) (s : BillingStore) : option Subscription := find_by_id id tenantId s.
Definition findSubscriptionByTenantRef (tenantRef tenantId : string) (s : BillingStore) : option Subscription :=
  find_where (fun r => bool_decide (sb_tenantRef (row_props r) = tenantRef) && bool_decide (row_tenant r = tenantId)) s.
Definition due_by (before : Z) (at_ : option Z) : bool := match at_ with Some t => bool_decide (t <= before) | None => false end.
Definition findDueForRenewal (before : Z) (tenantId : string) (s : BillingStore) : list Subscription :=
  filter (fun a : Subscription => due_by before (nextRenewalAt <$> sb_renewalSchedule (agg_props a)) = true)
    (find_many (fun r => bool_decide (row_tenant r = tenantId) && bool_decide (sb_status (row_props r) = ss_active)) s).
Definition findDueForDunningRetry (before : Z) (tenantId : string) (s : BillingStore) : list Subscription :=
  filter (fun a : Subscription => due_by before (x ← sb_retryPolicy (agg_props a); rp_nextRetryAt x) = true)
    (find_many (fun r => bool_decide (row_tenant r = tenantId) && bool_decide (sb_status (row_props r) = ss_grace)) s).
Definition findInvoice (id tenantId : string) (s : BillingStore) : option Invoice := find_by_id id tenantId s.
Definition findCoupon (id tenantId : string) (s : BillingStore) : option Coupon := find_by_id id tenantId s.
Definition findCouponByCode (code tenantId : string) (s : BillingStore) : option Coupon :=
  find_where (fun r => bool_decide (cp_code (row_props r) = code) && bool_decide (row_tenant r = tenantId)) s.
(** Oldest first: rows keep the order they were created in. *)
Definition findIssuedForMerchant (merchantRef tenantId : string) (s : BillingStore) : list Coupon :=
  find_many (fun r => bool_decide (row_tenant r = tenantId) && bool_decide (cp_merchantRef (row_props r) = Some merchantRef) &&
    bool_decide (cp_status (row_props r) = cs_issued)) s.
Definition findByProviderOrder (provider providerOrderId tenantId : string) (s : BillingStore) : option BillingPaymentMethod :=
  find_where (fun r => bool_decide (row_tenant r = tenantId) && bool_decide (bm_provider (row_props r) = provider) &&
    bool_decide (bm_providerOrderId (row_props r) = providerOrderId)) s.
Definition findActiveByTenantRef (tenantRef tenantId : string) (s : BillingStore) : option BillingPaymentMethod :=
  find_where (fun r => bool_decide (row_tenant r = tenantId) && bool_decide (bm_tenantRef (row_props r) = tenantRef) &&
    bool_decide (bm_status (row_props r) = pm_active)) s.

(** A plan belongs to no tenant: its rows have none and its reads take none. *)
Definition NO_TENANT : string := EmptyString.
Definition findPlan (id : string) (s : BillingStore) : option Plan := find_by_id id NO_TENANT s.
Definition findPlanByKey (key : string) (s : BillingStore) : option Plan := find_where (fun r => bool_decide (pl_key (row_props r) = key)) s.
Definition savePlan (plan : Plan) (actingTenantId : string) : BillingM unit := save_row_for actingTenantId plan NO_TENANT.
Definition saveSubscription (a : Subscription) (tenantId : string) : BillingM unit := save_row a tenantId.
Definition saveInvoice (a : Invoice) (tenantId : string) : BillingM unit := save_row a tenantId.
Definition saveCoupon (a : Coupon) (tenantId : string) : BillingM unit := save_row a tenantId.
Definition saveMethod (a : BillingPaymentMethod) (tenantId : string) : BillingM unit := save_row a tenantId.

(** ** Plans ([licensing.use-cases.ts]) *)

Definition findPinnedVersion (planVersionRef : string) (s : BillingStore) : option PlanVersion :=
  planId ← planIdOfVersionRef planVersionRef;
  plan ← findPlan planId s;
  versionById planVersionRef (agg_props plan).
Definition resolvePinnableVersion (planVersionRef : string) (s : BillingStore) : result PlanVersion :=
  match findPinnedVersion planVersionRef s with
  | None => Err (NotFoundError ("Plan version " +:+ quoted planVersionRef +:+ " not found"))
  | Some v =>
      if bool_decide (pv_status v = vs_published) then Ok v
      else Err (BusinessRuleError ("Plan version " +:+ quoted planVersionRef +:+ " is " +:+ version_status_name (pv_status v) +:+ ", not published"))
  end.

Section plans.
Context (gen : nat -> string) (now : Z).

Definition CreatePlan (key name : string) (tier : PlanTier) (tenantId : string) (s0 : BillingStore) : BillingM string :=
  match findPlanByKey key s0 with
  | Some _ => throw (ConflictError ("Plan " +:+ quoted key +:+ " already exists"))
  | None =>
      id ← lift (UniqueEntityId_from (gen 0));
      savePlan (plan_create id key name tier (gen 1) now) tenantId;;
      mret id
  end.

(** The use cases that call one method of a plan and save it. *)
Definition on_plan {A} (planId tenantId : string) (method : PlanM A) (s0 : BillingStore) : BillingM A :=
  plan ← require "Plan not found" (findPlan planId s0);
  match method plan with
  | (Err e, _) => throw e
  | (Ok a, plan') => savePlan plan' tenantId;; mret a
  end.
Definition CreatePlanDraft (planId : string) (spec : PlanSpec) (tenantId : string) : BillingStore -> BillingM string :=
  on_plan planId tenantId (plan_createDraft spec (gen 0) now).
Definition SchedulePlanVersion (planId versionId : string) (publishAt : Z) (tenantId : string) : BillingStore -> BillingM unit :=
  on_plan planId tenantId (plan_schedule versionId publishAt (gen 0) now).
Definition PublishPlanVersion (planId versionId tenantId : string) : BillingStore -> BillingM unit :=
  on_plan planId tenantId (plan_publish versionId (gen 0) now).
Definition RollbackPlan (planId versionId tenantId : string) : BillingStore -> BillingM unit :=
  on_plan planId tenantId (plan_rollback versionId (gen 0) now).
Definition ClonePlanVersion (planId versionId tenantId : string) : BillingStore -> BillingM string :=
  on_plan planId tenantId (plan_clone versionId (gen 0) now).
Definition ArchivePlanVersion (planId versionId tenantId : string) : BillingStore -> BillingM unit :=
  on_plan planId tenantId (plan_archive versionId (gen 0) now).
Definition ComparePlanVersions (planId versionAId versionBId : string) (s0 : BillingStore) : result (list (PlanSectionName * bool)) :=
  match findPlan planId s0 with
  | None => Err (NotFoundError "Plan not found")
  | Some plan => (plan_compare versionAId versionBId plan).1
  end.

(** ** Subscriptions *)

Definition DAY_MS : Z := 24 * 60 * 60 * 1000.

Definition CreateSubscription (tenantRef planVersionRef tenantId : string) (s0 : BillingStore) : BillingM string :=
  match findSubscriptionByTenantRef tenantRef tenantId s0 with
  | Some _ => throw (ConflictError ("Tenant " +:+ quoted tenantRef +:+ " already has a subscription"))
  | None =>
      _ ← lift (resolvePinnableVersion planVersionRef s0);
      id ← lift (UniqueEntityId_from (gen 0));
      saveSubscription (startTrial id tenantRef planVersionRef (gen 1) now) tenantId;;
      mret id
  end.

Definition on_subscription (subscriptionId tenantId : string) (method : SubscriptionM unit) (s0 : BillingStore) : BillingM string :=
  a ← require "Subscription not found" (findSubscription subscriptionId tenantId s0);
  a ← call a method;
  saveSubscription a tenantId;;
  mret (agg_id a).
Definition RepinSubscription (subscriptionId newPlanVersionRef tenantId : string) (s0 : BillingStore) : BillingM string :=
  a ← require "Subscription not found" (findSubscription subscriptionId tenantId s0);
  _ ← lift (resolvePinnableVersion newPlanVersionRef s0);
  a ← call a (repin newPlanVersionRef (gen 0) now);
  saveSubscription a tenantId;;
  mret (agg_id a).
(** [later] is the second reading of the clock, for the schedule. *)
Definition ActivateSubscription (subscriptionId tenantId : string) (later : Z) (s0 s1 : BillingStore) : BillingM string :=
  a ← require "Subscription not found" (findSubscription subscriptionId tenantId s0);
  let wasTrial := bool_decide (sb_status (agg_props a) = ss_trial) in
  a ← call a (activate (gen 0) now);
  a ← (match sb_renewalSchedule (agg_props a), findPinnedVersion (sb_planVersionRef (agg_props a)) s1 with
       | None, Some pinned =>
           let pricing := spec_pricing (pv_spec pinned) in
           let firstDueInDays := if (wasTrial : bool) then default 0 (trialDays pricing) else 0 in
           call a (setRenewalSchedule (mkRenewalSchedule (if bool_decide (billingCycle pricing = annual) then 365 else 30) (later + firstDueInDays * DAY_MS)))
       | _, _ => mret a
       end);
  saveSubscription a tenantId;;
  mret (agg_id a).
Definition PauseSubscription (subscriptionId : string) (resumeDate : Z) (tenantId : string) : BillingStore -> BillingM string :=
  on_subscription subscriptionId tenantId (pause resumeDate (gen 0) now).
Definition ResumeSubscription (subscriptionId tenantId : string) : BillingStore -> BillingM string :=
  on_subscription subscriptionId tenantId (resume (gen 0) now).
Definition CancelSubscription (subscriptionId reason tenantId : string) : BillingStore -> BillingM string :=
  on_subscription subscriptionId tenantId (cancel reason (gen 0) now).
Definition PreviewRenewal (subscriptionId tenantId : string) (s0 : BillingStore) : result (option Z * string) :=
  match findSubscription subscriptionId tenantId s0 with
  | None => Err (NotFoundError "Subscription not found")
  | Some a => Ok (previewRenewal (agg_props a))
  end.

(** ** Invoices ([billing.use-cases.ts]) *)

Definition CreateInvoice (tenantRef subscriptionRef currency : string) (lineItems : list InvoiceLineItem) (tenantId : string) : BillingM string :=
  id ← lift (UniqueEntityId_from (gen 0));
  a ← lift (invoice_createDraft id tenantRef subscriptionRef currency lineItems (gen 1) now);
  saveInvoice a tenantId;;
  mret id.
Definition IssueInvoice (invoiceId tenantId : string) (s0 : BillingStore) : BillingM string :=
  a ← require "Invoice not found" (findInvoice invoiceId tenantId s0);
  a ← call a (issue (gen 0) now);
  saveInvoice a tenantId;;
  mret (agg_id a).

Record CollectPrecheck := mkPrecheck {
  pc_alreadyPaid : bool; pc_tenantRef : string; pc_totalMinor : Z; pc_currency : string; pc_version : Z; pc_zeroDueReference : option string }.
Definition precheck (invoiceId tenantId : string) (s0 : BillingStore) : result CollectPrecheck :=
  match findInvoice invoiceId tenantId s0 with
  | None => Err (NotFoundError "Invoice not found")
  | Some a =>
      let p := agg_props a in
      totalMinor ← totalMinor p;
      let context alreadyPaid := mkPrecheck alreadyPaid (iv_tenantRef p) totalMinor (iv_currency p) (agg_version a) in
      if bool_decide (iv_status p = is_paid) then Ok (context true None)
      else if negb (bool_decide (iv_status p = is_issued)) then
        Err (BusinessRuleError ("Cannot transition invoice from " +:+ invoice_status_name (iv_status p) +:+ " to paid"))
      else if bool_decide (totalMinor = 0) then
        free ← isFullyDiscounted p;
        match (if (free : bool) then iv_discount p else None) with
        | Some d => Ok (context false (Some ("coupon:" +:+ id_couponRef d)))
        | None => Err (BusinessRuleError "Cannot collect an invoice with a zero total")
        end
      else Ok (context false None)
  end.

(** Whether the invoice was paid already; only else is it marked and saved. *)
Definition settleSuccess (invoiceId paymentReference tenantId : string) (s0 : BillingStore) : BillingM bool :=
  a ← require "Invoice not found" (findInvoice invoiceId tenantId s0);
  if bool_decide (iv_status (agg_props a) = is_paid) then mret true
  else
    a ← call a (markPaid paymentReference (gen 0) now);
    saveInvoice a tenantId;;
    mret false.
Definition settleFailure (invoiceId tenantId : string) (s0 : BillingStore) : BillingM unit :=
  match findInvoice invoiceId tenantId s0 with
  | Some a =>
      if bool_decide (iv_status (agg_props a) = is_issued) then
        a ← call a (markFailed (gen 0) now);
        saveInvoice a tenantId
      else mret tt
  | None => mret tt
  end.
Definition collect_key (invoiceId : string) (version : Z) : string := invoiceId +:+ ":" +:+ pretty version +:+ ":collect".

(** ** Coupons ([coupon.use-cases.ts]) *)

Definition MAX_ATTEMPTS : nat := 5.

Definition IssueCoupon (code : string) (value : CouponValueInput) (expiresAt : Z) (merchantRef : option string) (tenantId : string) (s0 : BillingStore) :
    BillingM string :=
  id ← lift (UniqueEntityId_from (gen 0));
  a ← lift (coupon_issue id code value expiresAt merchantRef (gen 1) now);
  match findCouponByCode (cp_code (agg_props a)) tenantId s0 with
  | Some _ => throw (ConflictError ("A coupon with code " +:+ cp_code (agg_props a) +:+ " already exists"))
  | None => saveCoupon a tenantId;; mret id
  end.

Record RedeemCouponOutput := mkRedeemOutput { ro_couponId : string; ro_invoiceId : string; ro_discountMinor : Z; ro_totalMinor : Z }.
(** The checks on both, then the changes to both, of the first two [try] blocks that redeem. *)
Definition redeem_onto (coupon : Coupon) (invoice : Invoice) (merchantRef redeemEid discountEid : string) : result (Coupon * Invoice * Money.Money) :=
  s ← subtotal (agg_props invoice);
  discount ← discountFor (agg_props coupon) s;
  _ ← run_on coupon (assertRedeemable merchantRef now);
  _ ← run_on invoice (assertCanDiscount discount);
  coupon' ← run_on coupon (coupon_redeem (agg_id invoice) merchantRef redeemEid now);
  invoice' ← run_on invoice (applyDiscount (agg_id coupon) discount discountEid now);
  Ok (coupon', invoice', discount).
Definition redeem_attempt (code invoiceId tenantId : string) (s0 s1 : BillingStore) : BillingM RedeemCouponOutput :=
  coupon ← require "Coupon not found" (findCouponByCode code tenantId s0);
  invoice ← require "Invoice not found" (findInvoice invoiceId tenantId s1);
  '(coupon', invoice', discount) ← lift (redeem_onto coupon invoice (iv_tenantRef (agg_props invoice)) (gen 0) (gen 1));
  saveCoupon coupon' tenantId;;
  saveInvoice invoice' tenantId;;
  n ← lift (totalMinor (agg_props invoice'));
  mret (mkRedeemOutput (agg_id coupon') (agg_id invoice') (Money.amountMinor discount) n).
Definition RedeemCoupon (code invoiceId tenantId : string) : BillingM RedeemCouponOutput :=
  withConcurrencyRetry MAX_ATTEMPTS (in_txn (fun s => redeem_attempt (normalise_code code) invoiceId tenantId s s s)).

Definition ExpireCoupon (couponId tenantId : string) (s0 : BillingStore) : BillingM string :=
  a ← require "Coupon not found" (findCoupon couponId tenantId s0);
  a ← call a (coupon_expire (gen 0) now);
  saveCoupon a tenantId;;
  mret (agg_id a).
Definition RevokeCoupon (couponId reason tenantId : string) (s0 : BillingStore) : BillingM string :=
  a ← require "Coupon not found" (findCoupon couponId tenantId s0);
  a ← call a (coupon_revoke reason (gen 0) now);
  saveCoupon a tenantId;;
  mret (agg_id a).
Record GetCouponOutput := mkGetCoupon { gc_id : string; gc_props : CouponProps; gc_pastExpiry : bool }.
Definition GetCoupon (couponId tenantId : string) (s0 : BillingStore) : result GetCouponOutput :=
  match findCoupon couponId tenantId s0 with
  | None => Err (NotFoundError "Coupon not found")
  | Some a => Ok (mkGetCoupon (agg_id a) (agg_props a) (bool_decide (cp_expiresAt (agg_props a) <= now)))
  end.

(** ** Renewals ([renewal.use-cases.ts]) *)

(** The first coupon that applies; [None] when none does. *)
Fixpoint applyMerchantCoupon (coupons : list Coupon) (invoice : Invoice) (merchantRef : string) : option (Coupon * Invoice) :=
  match coupons with
  | [] => None
  | c :: rest =>
      match redeem_onto c invoice merchantRef (gen 2) (gen 3) with
      | Ok (c', invoice', _) => Some (c', invoice')
      | Err _ => applyMerchantCoupon rest invoice merchantRef
      end
  end.

Definition cycle_name (c : BillingCycle) : string := match c with monthly => "monthly" | annual => "annual" end.
Definition renewal_line (pricing : PlanPricing) (planVersionRef : string) : InvoiceLineItem :=
  mkInvoiceLine ("Subscription renewal (" +:+ cycle_name (billingCycle pricing) +:+ ") - " +:+ planVersionRef) (basePriceMinor pricing).

(** The reads are the subscription ([s0]), the pinned version ([s1]) and the coupons ([s2]). The saves are
    inside the [try] (see [catching]). *)
Definition prepare (toISOString : Z -> string) (useCoupons : bool) (subscriptionId tenantId : string) (s0 s1 s2 : BillingStore) : BillingM string :=
  a ← require "Subscription not found" (findSubscription subscriptionId tenantId s0);
  let p := agg_props a in
  throw_if (negb (bool_decide (sb_status p = ss_active)))
    (BusinessRuleError ("Cannot bill a " +:+ subscription_status_name (sb_status p) +:+ " subscription"));;
  schedule ← lift (match sb_renewalSchedule p with Some x => Ok x | None => Err (BusinessRuleError "Subscription has no renewal schedule") end);
  throw_if (bool_decide (now < nextRenewalAt schedule))
    (BusinessRuleError ("Subscription is not due until " +:+ toISOString (nextRenewalAt schedule)));;
  version ← lift (match findPinnedVersion (sb_planVersionRef p) s1 with
    | Some v => if bool_decide (pv_status v = vs_draft) || bool_decide (pv_status v = vs_scheduled)
                then Err (BusinessRuleError ("Pinned plan version " +:+ quoted (sb_planVersionRef p) +:+ " is not a billable published version")) else Ok v
    | None => Err (BusinessRuleError ("Pinned plan version " +:+ quoted (sb_planVersionRef p) +:+ " is not a billable published version"))
    end);
  let pricing := spec_pricing (pv_spec version) in
  throw_if (bool_decide (pricing_currency pricing = "XXX"))
    (BusinessRuleError ("Plan version " +:+ quoted (sb_planVersionRef p) +:+
       " has no billing currency (it predates the minor-unit price convention); publish a new version and re-pin the subscription"));;
  throw_if (bool_decide (basePriceMinor pricing = NInt 0)) (BusinessRuleError "Plan version price is zero; there is nothing to bill");;
  id ← lift (UniqueEntityId_from (gen 0));
  invoice ← lift (invoice_createDraft id (sb_tenantRef p) (agg_id a) (pricing_currency pricing) [renewal_line pricing (sb_planVersionRef p)] (gen 1) now);
  let applied := if useCoupons then applyMerchantCoupon (findIssuedForMerchant (sb_tenantRef p) tenantId s2) invoice (sb_tenantRef p) else None in
  invoice ← (match applied with
             | Some (coupon, invoice') => saveCoupon coupon tenantId;; mret invoice'
             | None => mret invoice
             end);
  invoice ← call invoice (issue (gen 4) now);
  a ← call a (setRenewalSchedule (mkRenewalSchedule (cycleDays schedule) (nextRenewalAt schedule + cycleDays schedule * DAY_MS)));
  saveInvoice invoice tenantId;;
  saveSubscription a tenantId;;
  mret id.

(** ** Dunning ([dunning.use-cases.ts]): the transactions *)

Record DunningPolicy := mkDunningPolicy { dp_maxAttempts : Z; dp_retryIntervalsDays : list Z; dp_gracePeriodDays : Z }.
Definition DEFAULT_DUNNING_POLICY : DunningPolicy := mkDunningPolicy 3 [1; 3; 7] 11.
Definition buildPolicy (policy : option DunningPolicy) : result DunningPolicy :=
  let resolved := default DEFAULT_DUNNING_POLICY policy in
  let n := Z.of_nat (length (dp_retryIntervalsDays resolved)) in
  let untilExhaustion := foldl Z.add 0 (dp_retryIntervalsDays resolved) in
  if negb (bool_decide (n = dp_maxAttempts resolved)) then
    Err (UnexpectedError ("DunningPolicy.retryIntervalsDays must have exactly maxAttempts (" +:+ pretty (dp_maxAttempts resolved) +:+ ") entries, got " +:+ pretty n))
  else if bool_decide (dp_gracePeriodDays resolved < untilExhaustion) then
    Err (UnexpectedError ("DunningPolicy.gracePeriodDays (" +:+ pretty (dp_gracePeriodDays resolved) +:+ ") must be at least the day the last retry runs"))
  else Ok resolved.
Definition retryIntervalDays (policy : DunningPolicy) (index : Z) : result Z :=
  match (if bool_decide (0 <= index) then dp_retryIntervalsDays policy !! Z.to_nat index else None) with
  | Some days => Ok days
  | None => Err (UnexpectedError ("DunningPolicy.retryIntervalsDays has no entry at index " +:+ pretty index))
  end.

Definition EnterDunning (policy : DunningPolicy) (subscriptionId invoiceId tenantId : string) (s0 : BillingStore) : BillingM SubscriptionStatus :=
  a ← require "Subscription not found" (findSubscription subscriptionId tenantId s0);
  let p := agg_props a in
  if bool_decide (sb_status p = ss_grace) then
    if bool_decide ((x ← sb_retryPolicy p; rp_invoiceRef x) = Some invoiceId) then mret ss_grace
    else throw (BusinessRuleError ("Subscription " +:+ subscriptionId +:+ " is already in grace for a different invoice"))
  else if negb (bool_decide (sb_status p = ss_active)) then
    throw (BusinessRuleError ("Cannot enter dunning from a " +:+ subscription_status_name (sb_status p) +:+ " subscription"))
  else
    a ← call a (enterGrace (dp_gracePeriodDays policy) (gen 0) now);
    days ← lift (retryIntervalDays policy 0);
    a ← call a (setRetryPolicy (Some (mkRetryPolicy (dp_maxAttempts policy) 0 (Some (now + days * DAY_MS)) (Some invoiceId))));
    saveSubscription a tenantId;;
    mret (sb_status (agg_props a)).

Inductive DunningRetryOutcome := recovered | retry_scheduled | exhausted.
Record RetryOutput := mkRetryOutput { rt_invoiceId : string; rt_outcome : DunningRetryOutcome; rt_status : SubscriptionStatus }.

Definition recover (subscriptionId tenantId invoiceId : string) (s0 : BillingStore) : BillingM RetryOutput :=
  a ← require "Subscription not found" (findSubscription subscriptionId tenantId s0);
  a ← (if bool_decide (sb_status (agg_props a) = ss_grace) then
         a ← call a (recoverFromGrace (gen 0) now);
         a ← call a (setRetryPolicy None);
         saveSubscription a tenantId;;
         mret a
       else mret a);
  mret (mkRetryOutput invoiceId recovered (sb_status (agg_props a))).

Definition rescheduleOrExhaust (policy : DunningPolicy) (subscriptionId tenantId invoiceId : string) (attempt : Z) (s0 : BillingStore) : BillingM RetryOutput :=
  a ← require "Subscription not found" (findSubscription subscriptionId tenantId s0);
  let p := agg_props a in
  if negb (bool_decide (sb_status p = ss_grace)) then
    mret (mkRetryOutput invoiceId (if bool_decide (sb_status p = ss_expired) then exhausted else recovered) (sb_status p))
  else
    let nextAttempt := default attempt (rp_attempt <$> sb_retryPolicy p) + 1 in
    if bool_decide (dp_maxAttempts policy <= nextAttempt) then
      a ← call a (exhaustDunning (gen 0) now);
      a ← call a (setRetryPolicy None);
      saveSubscription a tenantId;;
      mret (mkRetryOutput invoiceId exhausted (sb_status (agg_props a)))
    else
      days ← lift (retryIntervalDays policy nextAttempt);
      a ← call a (setRetryPolicy (Some (mkRetryPolicy (dp_maxAttempts policy) nextAttempt (Some (now + days * DAY_MS)) (Some invoiceId))));
      saveSubscription a tenantId;;
      mret (mkRetryOutput invoiceId retry_scheduled (sb_status (agg_props a))).

Definition ListSubscriptionsDueForRenewal (tenantId : string) (s0 : BillingStore) : list string := agg_id <$> findDueForRenewal now tenantId s0.
Definition ListSubscriptionsDueForDunningRetry (tenantId : string) (s0 : BillingStore) : list string := agg_id <$> findDueForDunningRetry now tenantId s0.

(** ** Payment methods ([payment-method.use-cases.ts]): the transactions *)

Record VerifiedCardToken := mkCardToken {
  ct_tokenId : string; ct_token : string; ct_providerOrderId : string; ct_maskedPan : string; ct_cardSubtype : string }.
Definition storeCardToken (verified : VerifiedCardToken) (sealedToken tenantId : string) (s0 s1 : BillingStore) : BillingM string :=
  method ← require "No card enrolment is waiting on this order" (findByProviderOrder BILLING_PROVIDER (ct_providerOrderId verified) tenantId s0);
  if bool_decide (bm_status (agg_props method) = pm_active) && bool_decide (bm_tokenId (agg_props method) = Some (ct_tokenId verified)) then mret (agg_id method)
  else
    _ ← (match findActiveByTenantRef (bm_tenantRef (agg_props method)) tenantId s1 with
         | Some previous =>
             if bool_decide (agg_id previous = agg_id method) then mret tt
             else previous ← call previous (method_revoke now); saveMethod previous tenantId
         | None => mret tt
         end);
    method ← call method (method_activate (ct_tokenId verified) sealedToken (ct_maskedPan verified) (ct_cardSubtype verified) now);
    saveMethod method tenantId;;
    mret (agg_id method).
Definition RevokeBillingPaymentMethod (tenantRef tenantId : string) (s0 : BillingStore) : BillingM bool :=
  match findActiveByTenantRef tenantRef tenantId s0 with
  | None => mret false
  | Some method =>
      method ← call method (method_revoke now);
      saveMethod method tenantId;;
      mret true
  end.

Record VerifiedInvoiceTransaction := mkVerifiedTransaction {
  vt_transactionId : string; vt_providerOrderId : string; vt_amountMinor : Z; vt_currency : string; vt_success : bool; vt_pending : bool; vt_isAuth : bool;
  vt_isCapture : bool; vt_isVoided : bool; vt_isRefunded : bool; vt_errorOccured : bool }.
Inductive TransactionOutcome := o_paid | o_already_paid | o_ignored | o_no_enrolment | o_amount_mismatch | o_currency_mismatch.
#[export] Instance TransactionOutcome_eq_dec : EqDecision TransactionOutcome.
Proof. solve_decision. Defined.
Definition isSettlement (v : VerifiedInvoiceTransaction) : bool :=
  vt_success v && negb (vt_pending v) && negb (vt_errorOccured v) && negb (vt_isVoided v) && negb (vt_isRefunded v) && negb (vt_isAuth v && negb (vt_isCapture v)).
Definition settleTransaction (verified : VerifiedInvoiceTransaction) (invoiceRef tenantId : string) (s0 : BillingStore) : BillingM TransactionOutcome :=
  match findInvoice invoiceRef tenantId s0 with
  | None => mret o_no_enrolment
  | Some a =>
      let p := agg_props a in
      if bool_decide (iv_status p = is_paid) then mret o_already_paid
      else if negb (bool_decide (iv_status p = is_issued)) then mret o_ignored
      else
        n ← lift (totalMinor p);
        if negb (bool_decide (vt_amountMinor verified = n)) then mret o_amount_mismatch
        else if negb (bool_decide (vt_currency verified = iv_currency p)) then mret o_currency_mismatch
        else
          a ← call a (markPaid (vt_transactionId verified) (gen 0) now);
          saveInvoice a tenantId;;
          mret o_paid
  end.

End plans.

(** ** Collecting: the use cases that leave their transactions

    They call the PSP and the ledger outside any transaction. [Psp] and [Ledger] are the states of the two;
    [gens i] is the supply of ids of the [i]-th transaction of a call. A use case may throw or return an
    error: the outer result is what it throws. *)

Section collecting.
Context {Psp Ledger : Type}.

Record World := mkWorld { wd_billing : BillingStore; wd_psp : Psp; wd_ledger : Ledger }.

Definition on_billing {A} (m : BillingM A) : M World A := fun w =>
  match m (wd_billing w) with (r, s) => (r, mkWorld s (wd_psp w) (wd_ledger w)) end.
Definition on_psp {A} (m : M Psp A) : M World A := fun w =>
  match m (wd_psp w) with (r, x) => (r, mkWorld (wd_billing w) x (wd_ledger w)) end.
Definition txn {A} (m : BillingStore -> BillingM A) : M World A := on_billing (in_txn (fun s => m s s)).

(** Domain errors of a transaction are returned; a lost race or a database error is thrown. *)
Definition returned {A} (m : M World A) : M World (result A) := fun w =>
  match m w with
  | (Ok a, w') => (Ok (Ok a), w')
  | (Err e, w') => if retryable e then (Err e, w') else (Ok (Err e), w')
  end.

(** [PaymentsPort] and [FinanceLedgerPort] ([ports.ts]). *)
Class PaymentsPort := { port_collect : string -> Z -> string -> string -> string -> M World string }.
Class FinanceLedgerPort := { postSettlement : string -> Z -> string -> string -> M Ledger unit }.

(** Best effort: an error is swallowed. *)
Definition post_best_effort `{FinanceLedgerPort} (tenantRef : string) (amountMinor : Z) (currency reference : string) : M World unit := fun w =>
  match postSettlement tenantRef amountMinor currency reference (wd_ledger w) with
  | (Ok _, l) => (Ok tt, mkWorld (wd_billing w) (wd_psp w) l)
  | (Err _, l) => (Ok tt, mkWorld (wd_billing w) (wd_psp w) l)
  end.

(** *** The adapters ([stored-method-billing-payments-adapter.ts], [platform-billing-payments-adapter.ts]) *)

Record ChargeRequest := mkChargeRequest {
  cq_tenantId : string; cq_orderRef : string; cq_amountMinor : Z; cq_currency : string; cq_idempotencyKey : string; cq_storedMethodToken : string }.

Definition StoredMethod_collect (open : string -> string -> result string) (chargeStoredMethod : ChargeRequest -> M Psp string)
    (tenantRef : string) (amountMinor : Z) (currency idempotencyKey scopeTenantId : string) : M World string :=
  throw_if (bool_decide (idempotencyKey = EmptyString))
    (UnexpectedError "StoredMethodBillingPaymentsAdapter.collect requires an idempotency key: a real charge must be dedupable");;
  throw_if (bool_decide (scopeTenantId = EmptyString))
    (UnexpectedError "StoredMethodBillingPaymentsAdapter.collect requires the platform tenant scope to find the stored method");;
  throw_if (negb (isSafeInteger (NInt amountMinor)) || bool_decide (amountMinor <= 0))
    (UnexpectedError ("StoredMethodBillingPaymentsAdapter.collect: amountMinor must be a positive integer of minor units, got " +:+ pretty amountMinor));;
  method ← gets (fun w => findActiveByTenantRef tenantRef scopeTenantId (wd_billing w));
  match method with
  | None => throw (UnexpectedError "No stored payment method on file for this merchant; nothing was charged")
  | Some m =>
      sealed ← lift (sealedTokenForCharge (agg_props m));
      token ← lift (open tenantRef sealed);
      on_psp (chargeStoredMethod (mkChargeRequest tenantRef ("billing:" +:+ idempotencyKey) amountMinor currency idempotencyKey token))
  end.

Record IntentRequest := mkIntentRequest {
  ir_payer : string; ir_orderRef : string; ir_amountMinor : Z; ir_currency_code : string; ir_idempotencyKey : string }.
Definition Platform_collect (createIntent : IntentRequest -> M Psp string) (capture : string -> string -> M Psp unit)
    (tenantRef : string) (amountMinor : Z) (currency idempotencyKey scopeTenantId : string) : M World string :=
  throw_if (bool_decide (idempotencyKey = EmptyString))
    (UnexpectedError "PlatformBillingPaymentsAdapter.collect requires an idempotency key: a real charge must be dedupable");;
  throw_if (negb (isSafeInteger (NInt amountMinor)) || bool_decide (amountMinor <= 0))
    (UnexpectedError ("PlatformBillingPaymentsAdapter.collect: amountMinor must be a positive integer of minor units, got " +:+ pretty amountMinor));;
  intent ← on_psp (createIntent (mkIntentRequest tenantRef ("billing:" +:+ idempotencyKey) amountMinor currency (idempotencyKey +:+ ":intent")));
  on_psp (capture intent (idempotencyKey +:+ ":capture"));;
  mret intent.

Definition stored_method_port open chargeStoredMethod : PaymentsPort := {| port_collect := StoredMethod_collect open chargeStoredMethod |}.
Definition platform_port createIntent capture : PaymentsPort := {| port_collect := Platform_collect createIntent capture |}.

(** *** Collect, renew, retry *)

Section use_cases.
Context `{PaymentsPort} `{FinanceLedgerPort} (gens : nat -> nat -> string) (now : Z).

Definition SETTLE_RETRIES : nat := 5.
Definition settle (i : nat) (invoiceId reference tenantId : string) : M World (result bool) :=
  returned (withConcurrencyRetry SETTLE_RETRIES (txn (settleSuccess (gens i) now invoiceId reference tenantId))).

(** A failed collection is recorded, then thrown again. *)
Definition collect_or_fail (i : nat) (invoiceId tenantId : string) (pc : CollectPrecheck) : M World string := fun w =>
  match port_collect (pc_tenantRef pc) (pc_totalMinor pc) (pc_currency pc) (collect_key invoiceId (pc_version pc)) tenantId w with
  | (Ok reference, w') => (Ok reference, w')
  | (Err e, w') => (txn (settleFailure (gens i) now invoiceId tenantId);; throw e) w'
  end.

Definition CollectInvoice (i : nat) (invoiceId tenantId : string) : M World (result string) :=
  pre ← gets (fun w => precheck invoiceId tenantId (wd_billing w));
  match pre with
  | Err e => mret (Err e)
  | Ok pc =>
      if pc_alreadyPaid pc then mret (Ok invoiceId)
      else match pc_zeroDueReference pc with
           | Some reference =>
               settled ← settle i invoiceId reference tenantId;
               mret (match settled with Ok _ => Ok invoiceId | Err e => Err e end)
           | None =>
               reference ← collect_or_fail i invoiceId tenantId pc;
               settled ← settle i invoiceId reference tenantId;
               match settled with
               | Err e => mret (Err e)
               | Ok alreadyPaid =>
                   (if (alreadyPaid : bool) then mret tt
                    else post_best_effort (pc_tenantRef pc) (pc_totalMinor pc) (pc_currency pc) reference);;
                   mret (Ok invoiceId)
               end
           end
  end.

Inductive RenewalStatus := r_paid | r_failed.
Definition invoice_failed (invoiceId tenantId : string) (w : World) : bool :=
  match findInvoice invoiceId tenantId (wd_billing w) with Some a => bool_decide (iv_status (agg_props a) = is_failed) | None => false end.

Definition BillSubscriptionRenewal (toISOString : Z -> string) (useCoupons : bool) (subscriptionId tenantId : string) : M World (result (string * RenewalStatus)) :=
  prepared ← withConcurrencyRetry 3 (on_billing (in_txn (catching (fun s => prepare (gens 0) now toISOString useCoupons subscriptionId tenantId s s s s))));
  match prepared return M World (result (string * RenewalStatus)) with
  | Err e => mret (Err e)
  | Ok invoiceId => fun w =>
      match CollectInvoice 1 invoiceId tenantId w with
      | (Ok (Ok _), w') => (Ok (Ok (invoiceId, r_paid)), w')
      | (Ok (Err e), w') => (Ok (Err e), w')
      | (Err e, w') => if invoice_failed invoiceId tenantId w' then (Ok (Ok (invoiceId, r_failed)), w') else (Err e, w')
      end
  end.

Definition RetryDunningInvoice (policy : DunningPolicy) (subscriptionId tenantId : string) : M World (result RetryOutput) :=
  found ← gets (fun w => findSubscription subscriptionId tenantId (wd_billing w));
  match found with
  | None => mret (Err (NotFoundError "Subscription not found"))
  | Some a =>
      let p := agg_props a in
      let invoiceRef := x ← sb_retryPolicy p; rp_invoiceRef x in
      if bool_decide (sb_status p = ss_active) then mret (Ok (mkRetryOutput (default EmptyString invoiceRef) recovered ss_active))
      else match (if bool_decide (sb_status p = ss_grace) then invoiceRef else None) with
           | None => mret (Err (BusinessRuleError ("Subscription " +:+ subscriptionId +:+ " has no dunning retry to run (status: " +:+
                       subscription_status_name (sb_status p) +:+ ")")))
           | Some invoiceId =>
               let attempt := default 0 (rp_attempt <$> sb_retryPolicy p) in
               invoice ← gets (fun w => findInvoice invoiceId tenantId (wd_billing w));
               ready ← (match invoice with
                        | None => mret (Err (NotFoundError "Invoice not found"))
                        | Some v =>
                            let st := iv_status (agg_props v) in
                            if bool_decide (st = is_failed) then returned (txn (IssueInvoice (gens 0) now invoiceId tenantId))
                            else if negb (bool_decide (st = is_issued)) && negb (bool_decide (st = is_paid)) then
                              mret (Err (BusinessRuleError ("Cannot retry dunning: invoice " +:+ invoiceId +:+ " is " +:+ invoice_status_name st)))
                            else mret (Ok invoiceId)
                        end);
               match ready return M World (result RetryOutput) with
               | Err e => mret (Err e)
               | Ok _ => fun w =>
                   match CollectInvoice 1 invoiceId tenantId w with
                   | (Ok (Ok _), w') => returned (txn (recover (gens 2) now subscriptionId tenantId invoiceId)) w'
                   | (Ok (Err e), w') => (Ok (Err e), w')
                   | (Err e, w') =>
                       if invoice_failed invoiceId tenantId w'
                       then returned (txn (rescheduleOrExhaust (gens 2) now policy subscriptionId tenantId invoiceId attempt)) w'
                       else (Err e, w')
                   end
               end
           end
  end.

(** *** Card enrolment and callbacks ([payment-method.use-cases.ts]) *)

Record CheckoutRequest := mkCheckoutRequest { co_tenantRef : string; co_amountMinor : Z; co_currency : string; co_idempotencyKey : string }.
Definition enrol_key (invoiceId : string) (version : Z) : string := invoiceId +:+ ":" +:+ pretty version +:+ ":enrol".
Definition BeginCardEnrolment (startCheckout : CheckoutRequest -> M Psp (string * string)) (invoiceId tenantId : string) : M World (string * string * string) :=
  invoice ← gets (fun w => findInvoice invoiceId tenantId (wd_billing w));
  match invoice with
  | None => throw (NotFoundError "Invoice not found")
  | Some a =>
      let p := agg_props a in
      throw_if (negb (bool_decide (iv_status p = is_issued))) (BusinessRuleError ("Cannot start a payment for a " +:+ invoice_status_name (iv_status p) +:+ " invoice"));;
      n ← lift (totalMinor p);
      throw_if (bool_decide (n = 0)) (BusinessRuleError "Cannot start a card payment for an invoice with a zero total");;
      '(orderId, url) ← on_psp (startCheckout (mkCheckoutRequest (iv_tenantRef p) n (iv_currency p) (enrol_key invoiceId (agg_version a))));
      let method := method_begin (gens 0 0) (iv_tenantRef p) BILLING_PROVIDER orderId invoiceId now in
      txn (fun _ => saveMethod method tenantId);;
      mret (agg_id method, orderId, url)
  end.

Definition RecordCardToken (verified : option VerifiedCardToken) (seal : string -> string -> result string) (tenantId : string) : M World string :=
  match verified with
  | None => throw (AuthenticationError "Card-token callback signature verification failed")
  | Some v =>
      pending ← gets (fun w => findByProviderOrder BILLING_PROVIDER (ct_providerOrderId v) tenantId (wd_billing w));
      match pending with
      | None => throw (NotFoundError "No card enrolment is waiting on this order")
      | Some m =>
          sealedToken ← lift (seal (bm_tenantRef (agg_props m)) (ct_token v));
          stored ← on_billing (in_txn (catching (fun s => storeCardToken now v sealedToken tenantId s s s)));
          lift stored
      end
  end.

Definition RecordInvoiceTransaction (verified : option VerifiedInvoiceTransaction) (tenantId : string) : M World TransactionOutcome :=
  match verified with
  | None => throw (AuthenticationError "Billing transaction callback signature verification failed")
  | Some v =>
      method ← gets (fun w => findByProviderOrder BILLING_PROVIDER (vt_providerOrderId v) tenantId (wd_billing w));
      match (m ← method; ref ← bm_invoiceRef (agg_props m); Some (m : BillingPaymentMethod, ref)) with
      | None => mret o_no_enrolment
      | Some (m, invoiceRef) =>
          if negb (isSettlement v) then mret o_ignored
          else
            outcome ← withConcurrencyRetry SETTLE_RETRIES (txn (settleTransaction (gens 0) now v invoiceRef tenantId));
            (if bool_decide (outcome = o_paid)
             then post_best_effort (bm_tenantRef (agg_props m)) (vt_amountMinor v) (vt_currency v) (vt_transactionId v) else mret tt);;
            mret outcome
      end
  end.

End use_cases.

(** *** The jobs ([apps/runtime/src/scheduler.ts]): an error returned is logged and the next subscription
    follows; an error thrown ends the run. [gens_of] gives each subscription's call its ids. *)

Section jobs.
Context `{PaymentsPort} `{FinanceLedgerPort} (gens_of : string -> nat -> nat -> string) (now : Z) (policy : DunningPolicy).

Fixpoint each (f : string -> M World unit) (ids : list string) : M World unit :=
  match ids with [] => mret tt | id :: rest => f id;; each f rest end.

Definition renew_one (toISOString : Z -> string) (tenantId subscriptionId : string) : M World unit :=
  renewal ← BillSubscriptionRenewal (gens_of subscriptionId) now toISOString true subscriptionId tenantId;
  match renewal with
  | Ok (invoiceId, r_failed) =>
      _ ← returned (txn (EnterDunning (gens_of subscriptionId 3) now policy subscriptionId invoiceId tenantId)); mret tt
  | _ => mret tt
  end.
Definition billing_renewals_job (toISOString : Z -> string) (tenantId : string) : M World unit :=
  due ← gets (fun w => ListSubscriptionsDueForRenewal now tenantId (wd_billing w));
  each (renew_one toISOString tenantId) due.
Definition billing_dunning_retries_job (tenantId : string) : M World unit :=
  due ← gets (fun w => ListSubscriptionsDueForDunningRetry now tenantId (wd_billing w));
  each (fun subscriptionId => _ ← RetryDunningInvoice (gens_of subscriptionId) now policy subscriptionId tenantId; mret tt) due.
End jobs.

End collecting.
Arguments World : clear implicits.
Arguments PaymentsPort : clear implicits.
Arguments FinanceLedgerPort : clear implicits.
