(* ===== verification/BillingSafety.v ===== *)
(** What Licensing's transactions guarantee together: the transactions of BillingFlow.v interleaved as
    Store.v describes, each committing on rows other workers may have changed since it read them, and the
    stored-card charges their collections make at a PSP that honours idempotency keys. *)
From S2P Require Import Prelude Kernel Store Plans Invoices BillingFlow.

#[global] Open Scope Z_scope.

(** ** The transactions *)

Inductive BillingTx :=
| TxCreatePlan (key name : string) (tier : PlanTier)
| TxPlan (planId : string) (op : PlanOp)
| TxCreateSubscription (tenantRef planVersionRef : string)
| TxRepin (subscriptionId planVersionRef : string)
| TxActivate (subscriptionId : string) (later : Z)
| TxPause (subscriptionId : string) (resumeDate : Z)
| TxResume (subscriptionId : string)
| TxCancel (subscriptionId reason : string)
| TxEnterDunning (policy : DunningPolicy) (subscriptionId invoiceId : string)
| TxRecover (subscriptionId invoiceId : string)
| TxReschedule (policy : DunningPolicy) (subscriptionId invoiceId : string) (attempt : Z)
| TxPrepare (toISOString : Z -> string) (useCoupons : bool) (subscriptionId : string)
| TxCreateInvoice (tenantRef subscriptionRef currency : string) (lineItems : list InvoiceLineItem)
| TxIssueInvoice (invoiceId : string)
| TxSettleSuccess (invoiceId reference : string)
| TxSettleFailure (invoiceId : string)
| TxSettleTransaction (verified : VerifiedInvoiceTransaction) (invoiceRef : string)
| TxIssueCoupon (code : string) (value : CouponValueInput) (expiresAt : Z) (merchantRef : option string)
| TxRedeemCoupon (code invoiceId : string)
| TxExpireCoupon (couponId : string)
| TxRevokeCoupon (couponId reason : string)
| TxBeginEnrolment (tenantRef providerOrderId invoiceId : string)
| TxStoreCardToken (verified : VerifiedCardToken) (sealedToken : string)
| TxRevokeMethod (tenantRef : string).

(** A call: its transaction, the ids it draws, its clock and its tenant. *)
Record TxCall := mkTxCall { tc_tx : BillingTx; tc_gen : nat -> string; tc_now : Z; tc_tenant : string }.

Definition reads (t : BillingTx) : nat :=
  match t with
  | TxCreateInvoice _ _ _ _ | TxBeginEnrolment _ _ _ => 0
  | TxRedeemCoupon _ _ | TxStoreCardToken _ _ | TxActivate _ _ => 2
  | TxPrepare _ _ _ => 3
  | _ => 1
  end.

Definition unit_of {A} (m : BillingM A) : BillingM unit := m;; mret tt.

(** The transaction, its [k]-th read seeing [snap k]. *)
Definition body (c : TxCall) (snap : nat -> BillingStore) : BillingM unit :=
  let gen := tc_gen c in let now := tc_now c in let t := tc_tenant c in let s0 := snap 0%nat in
  match tc_tx c with
  | TxCreatePlan key name tier => unit_of (CreatePlan gen now key name tier t s0)
  | TxPlan planId op => unit_of (on_plan planId t (plan_exec (op, gen 0%nat, now)) s0)
  | TxCreateSubscription ref v => unit_of (CreateSubscription gen now ref v t s0)
  | TxRepin id v => unit_of (RepinSubscription gen now id v t s0)
  | TxActivate id later => unit_of (ActivateSubscription gen now id t later s0 (snap 1%nat))
  | TxPause id d => unit_of (PauseSubscription gen now id d t s0)
  | TxResume id => unit_of (ResumeSubscription gen now id t s0)
  | TxCancel id reason => unit_of (CancelSubscription gen now id reason t s0)
  | TxEnterDunning policy id inv => unit_of (EnterDunning gen now policy id inv t s0)
  | TxRecover id inv => unit_of (recover gen now id t inv s0)
  | TxReschedule policy id inv attempt => unit_of (rescheduleOrExhaust gen now policy id t inv attempt s0)
  | TxPrepare iso useCoupons id => unit_of (prepare gen now iso useCoupons id t s0 (snap 1%nat) (snap 2%nat))
  | TxCreateInvoice ref sub cur lines => unit_of (CreateInvoice gen now ref sub cur lines t)
  | TxIssueInvoice id => unit_of (IssueInvoice gen now id t s0)
  | TxSettleSuccess id ref => unit_of (settleSuccess gen now id ref t s0)
  | TxSettleFailure id => settleFailure gen now id t s0
  | TxSettleTransaction v ref => unit_of (settleTransaction gen now v ref t s0)
  | TxIssueCoupon code value ex m => unit_of (IssueCoupon gen now code value ex m t s0)
  | TxRedeemCoupon code id => unit_of (redeem_attempt gen now (normalise_code code) id t s0 (snap 1%nat))
  | TxExpireCoupon id => unit_of (ExpireCoupon gen now id t s0)
  | TxRevokeCoupon id reason => unit_of (RevokeCoupon gen now id reason t s0)
  | TxBeginEnrolment ref order inv => saveMethod (method_begin (gen 0%nat) ref BILLING_PROVIDER order inv now) t
  | TxStoreCardToken v sealed => unit_of (storeCardToken now v sealed t s0 (snap 1%nat))
  | TxRevokeMethod ref => unit_of (RevokeBillingPaymentMethod now ref t s0)
  end.

(** The transactions whose saves are inside a [try] that returns domain errors, lost races included. *)
Definition catches (t : BillingTx) : bool := match t with TxPrepare _ _ _ | TxStoreCardToken _ _ => true | _ => false end.
Definition transaction (c : TxCall) (snap : nat -> BillingStore) : BillingM (result unit) :=
  in_txn (if catches (tc_tx c) then catching (body c snap) else (r ← body c snap; mret (Ok r))).

Definition snapshots (snaps : list BillingStore) (s : BillingStore) (k : nat) : BillingStore := default s (snaps !! k).
Definition exec (c : TxCall) (snaps : list BillingStore) (s : BillingStore) : result BillingStore :=
  if bool_decide (length snaps = reads (tc_tx c)) then
    match transaction c (snapshots snaps s) s with (Ok _, s') => Ok s' | (Err e, _) => Err e end
  else Err (UnexpectedError "still reading").

(** ** What every transaction keeps *)

Definition billing_wf (s : BillingStore) : Prop :=
  rows_wf (bs_plans s) /\ rows_wf (bs_subscriptions s) /\ rows_wf (bs_invoices s) /\ rows_wf (bs_coupons s) /\ rows_wf (bs_methods s).
Definition billing_evolve (s s' : BillingStore) : Prop :=
  rows_evolve (bs_plans s) (bs_plans s') /\ rows_evolve (bs_subscriptions s) (bs_subscriptions s') /\
  rows_evolve (bs_invoices s) (bs_invoices s') /\ rows_evolve (bs_coupons s) (bs_coupons s') /\ rows_evolve (bs_methods s) (bs_methods s').

#[export] Instance billing_evolve_preorder : PreOrder billing_evolve.
Proof.
  split; [intros s; split_and!; reflexivity|]. intros s1 s2 s3 (?&?&?&?&?) (?&?&?&?&?). unfold billing_evolve. split_and!; etrans; eassumption.
Qed.

(** A method of the store that keeps the tables well formed and evolves them. *)
Definition good {A} (m : BillingM A) : Prop :=
  forall s r s', billing_wf s -> m s = (r, s') -> billing_wf s' /\ billing_evolve s s'.

Lemma good_pure {A} (m : BillingM A) : (forall s, (m s).2 = s) -> good m.
Proof. intros Hm s r s' Hw H. assert (s' = s) as -> by (rewrite <- (Hm s), H; done). split; [done|reflexivity]. Qed.
Lemma good_ret {A} (x : A) : good (mret x).
Proof. by apply good_pure. Qed.
Lemma good_lift {A} (r : result A) : good (lift r).
Proof. by apply good_pure. Qed.
Lemma good_throw {A} e : good (throw e : BillingM A).
Proof. by apply good_pure. Qed.
Lemma good_throw_if b e : good (throw_if b e).
Proof. apply good_pure. intros s. by destruct b. Qed.
Lemma good_require {A} m (x : option A) : good (require m x).
Proof. by apply good_pure. Qed.
Lemma good_call {P E A} (a : Aggregate P E) (m : M (Aggregate P E) A) : good (call a m).
Proof. by apply good_pure. Qed.
Lemma good_bind {A B} (m : BillingM A) (f : A -> BillingM B) : good m -> (forall x, good (f x)) -> good (m ≫= f).
Proof.
  intros Hm Hf s r s' Hw H. unfold mbind, M_bind in H. destruct (m s) as [[x|e] s1] eqn:Hs.
  - destruct (Hm _ _ _ Hw Hs) as [Hw1 He1]. destruct (Hf x _ _ _ Hw1 H) as [Hw2 He2]. split; [done|]. by transitivity s1.
  - injection H as <- <-. by eapply Hm.
Qed.

Ltac solve_save :=
  let s := fresh "s" in let r := fresh "r" in let s' := fresh "s" in let Hw := fresh "Hw" in let H := fresh "H" in
  intros s [r|r] s' Hw H;
  [ let Hshape := fresh in assert (Hshape := save_row_for_shape _ _ _ _ _ _ H);
    apply save_row_for_Ok in H as (? & ? & _); [|apply Hw]; destruct Hshape as (rows & ->);
    destruct Hw as (? & ? & ? & ? & ?); split; [split_and!; assumption|split_and!; solve [assumption|reflexivity]]
  | assert (s' = s) as -> by (unfold save_row_for in H; cbv zeta in H; destruct (bool_decide _) in H; destruct (existsb _ _) in H; congruence);
    split; [done|reflexivity] ].

Lemma good_savePlan a t : good (savePlan a t).
Proof. unfold savePlan. solve_save. Qed.
Lemma good_saveSubscription a t : good (saveSubscription a t).
Proof. unfold saveSubscription, save_row. solve_save. Qed.
Lemma good_saveInvoice a t : good (saveInvoice a t).
Proof. unfold saveInvoice, save_row. solve_save. Qed.
Lemma good_saveCoupon a t : good (saveCoupon a t).
Proof. unfold saveCoupon, save_row. solve_save. Qed.
Lemma good_saveMethod a t : good (saveMethod a t).
Proof. unfold saveMethod, save_row. solve_save. Qed.

Create HintDb good.
#[export] Hint Resolve good_ret good_lift good_throw good_throw_if good_require good_call good_savePlan good_saveSubscription good_saveInvoice
  good_saveCoupon good_saveMethod : good.

Ltac solve_good :=
  repeat (first
    [ solve [eauto 2 with good]
    | apply good_bind; [|intros ?]
    | match goal with
      | |- good (let _ := _ in _) => cbv zeta
      | |- good (match ?x with _ => _ end) => destruct x
      end ]).

Lemma good_body c snap : good (body c snap).
Proof.
  unfold body, unit_of. cbv zeta. destruct (tc_tx c); unfold CreatePlan, on_plan, CreateSubscription, RepinSubscription, ActivateSubscription, PauseSubscription,
    ResumeSubscription, CancelSubscription, on_subscription, EnterDunning, recover, rescheduleOrExhaust, prepare, CreateInvoice, IssueInvoice, settleSuccess,
    settleFailure, settleTransaction, IssueCoupon, redeem_attempt, ExpireCoupon, RevokeCoupon, storeCardToken, RevokeBillingPaymentMethod; solve_good.
Qed.

Lemma exec_inv c snaps s s' : exec c snaps s = Ok s' ->
  length snaps = reads (tc_tx c) /\ exists r, body c (snapshots snaps s) s = (r, s') /\
    match r with Ok _ => True | Err e => catches (tc_tx c) = true /\ isDomainError e = true end.
Proof.
  unfold exec, transaction, in_txn. case_bool_decide; [|done]. destruct (catches (tc_tx c)).
  - unfold catching. destruct (body _ _ s) as [[r|e] s1] eqn:E; [|destruct (isDomainError e) eqn:He]; intros [= <-]; (split; [done|]); eexists; (split; [reflexivity|]); done.
  - unfold mbind, M_bind. destruct (body _ _ s) as [[r|e] s1] eqn:E; [|done]. intros [= <-]. split; [done|]. by exists (Ok r).
Qed.

Lemma exec_evolves c snaps s s' : billing_wf s -> exec c snaps s = Ok s' -> billing_wf s' /\ billing_evolve s s'.
Proof. intros Hw (_ & r & Hb & _)%exec_inv. by eapply good_body. Qed.

(** ** The log of invoice events, and what is silent in it *)

Definition invoice_event (e : string * (EventMeta * LicensingChanged)) : option (string * string) :=
  match lc_family e.2.2 with f_invoice => Some (aggregateId e.2.1, lc_action e.2.2) | _ => None end.
Definition invoice_log (s : BillingStore) : list (string * string) := omap invoice_event (bs_outbox s).

Definition silent_event (e : EventMeta * LicensingChanged) : Prop := lc_family e.2 <> f_invoice.
Definition silent_agg {P} (a : Aggregate P LicensingChanged) : Prop := Forall silent_event (agg_events a).
Definition silent {P A} (m : M (Aggregate P LicensingChanged) A) : Prop := forall a r a', m a = (r, a') -> silent_agg a -> silent_agg a'.

Section silent.
Context {P : Type}.
Lemma silent_pure {A} (m : M (Aggregate P LicensingChanged) A) : (forall a, (m a).2 = a) -> silent m.
Proof. intros Hm a r a' H. assert (a' = a) as -> by (rewrite <- (Hm a), H; done). done. Qed.
Lemma silent_ret {A} (x : A) : silent (mret x : M (Aggregate P LicensingChanged) A).
Proof. by apply silent_pure. Qed.
Lemma silent_throw {A} e : silent (throw e : M (Aggregate P LicensingChanged) A).
Proof. by apply silent_pure. Qed.
Lemma silent_throw_if b e : silent (throw_if b e : M (Aggregate P LicensingChanged) unit).
Proof. apply silent_pure. intros a. by destruct b. Qed.
Lemma silent_gets {A} (f : Aggregate P LicensingChanged -> A) : silent (gets f).
Proof. by apply silent_pure. Qed.
Lemma silent_lift {A} (r : result A) : silent (lift r : M (Aggregate P LicensingChanged) A).
Proof. by apply silent_pure. Qed.
Lemma silent_set_props f : silent (set_props f : M (Aggregate P LicensingChanged) unit).
Proof. intros a r a' [= <- <-]. done. Qed.
Lemma silent_addDomainEvent eid t ref fam action : fam <> f_invoice ->
  silent (addDomainEvent eid t (mkLicensingChanged ref fam action) : M (Aggregate P LicensingChanged) unit).
Proof. intros Hf a r a' [= <- <-] Ha. apply Forall_app. by repeat constructor. Qed.
Lemma silent_bind {A B} (m : M (Aggregate P LicensingChanged) A) (f : A -> M (Aggregate P LicensingChanged) B) :
  silent m -> (forall x, silent (f x)) -> silent (m ≫= f).
Proof.
  intros Hm Hf a r a' H Ha. unfold mbind, M_bind in H. destruct (m a) as [[x|e] a1] eqn:E; [|injection H as <- <-; by eapply Hm].
  eapply Hf; [exact H|]. by eapply Hm.
Qed.
Lemma silent_run (a : Aggregate P LicensingChanged) {A} (m : M (Aggregate P LicensingChanged) A) a' :
  silent m -> silent_agg a -> run_on a m = Ok a' -> silent_agg a'.
Proof. unfold run_on. intros Hm Ha H. destruct (m a) as [[x|e] a1] eqn:E; [|done]. injection H as <-. by eapply Hm. Qed.
End silent.

Create HintDb silent.
#[export] Hint Resolve silent_ret silent_throw silent_throw_if silent_gets silent_lift silent_set_props : silent.
#[export] Hint Extern 1 (silent (addDomainEvent _ _ (mkLicensingChanged _ _ _))) => (apply silent_addDomainEvent; discriminate) : silent.
Ltac solve_silent :=
  repeat (first
    [ solve [eauto 2 with silent]
    | apply silent_bind; [|intros ?]
    | match goal with
      | |- silent (let _ := _ in _) => cbv zeta
      | |- silent (match ?x with _ => _ end) => destruct x
      end ]).

Lemma silent_subscription_transition to eid t action : silent (subscription_transition to eid t action).
Proof. unfold subscription_transition, subscription_raise. solve_silent. Qed.
Lemma silent_subscription_raise action eid t : silent (subscription_raise action eid t).
Proof. unfold subscription_raise. solve_silent. Qed.
#[export] Hint Resolve silent_subscription_transition silent_subscription_raise : silent.
Lemma silent_plan_exec c : silent (plan_exec c).
Proof.
  destruct c as [[[] eid] t]; cbn; unfold plan_clone, plan_createDraft, plan_schedule, plan_publish, plan_rollback, plan_archive, on_version, plan_findVersion,
    plan_raise; solve_silent.
Qed.
Lemma silent_activate eid t : silent (activate eid t).
Proof. unfold activate. solve_silent. Qed.
Lemma silent_repin v eid t : silent (repin v eid t).
Proof. unfold repin. solve_silent. Qed.
Lemma silent_pause d eid t : silent (pause d eid t).
Proof. unfold pause. solve_silent. Qed.
Lemma silent_resume eid t : silent (resume eid t).
Proof. unfold resume. solve_silent. Qed.
Lemma silent_cancel reason eid t : silent (cancel reason eid t).
Proof. unfold cancel. solve_silent. Qed.
Lemma silent_enterGrace d eid t : silent (enterGrace d eid t).
Proof. unfold enterGrace. solve_silent. Qed.
Lemma silent_recoverFromGrace eid t : silent (recoverFromGrace eid t).
Proof. unfold recoverFromGrace. solve_silent. Qed.
Lemma silent_exhaustDunning eid t : silent (exhaustDunning eid t).
Proof. unfold exhaustDunning. solve_silent. Qed.
Lemma silent_setRenewalSchedule x : silent (setRenewalSchedule x).
Proof. unfold setRenewalSchedule. solve_silent. Qed.
Lemma silent_setRetryPolicy x : silent (setRetryPolicy x).
Proof. unfold setRetryPolicy. solve_silent. Qed.
Lemma silent_method_revoke t : silent (method_revoke t).
Proof. unfold method_revoke. solve_silent. Qed.
Lemma silent_method_activate a b c d t : silent (method_activate a b c d t).
Proof. unfold method_activate. solve_silent. Qed.
#[export] Hint Resolve silent_plan_exec silent_activate silent_repin silent_pause silent_resume silent_cancel silent_enterGrace silent_recoverFromGrace
  silent_exhaustDunning silent_setRenewalSchedule silent_setRetryPolicy silent_method_revoke silent_method_activate : silent.

(** A method of the store that leaves the invoices, the coupons and the log alone. *)
Definition quiet {A} (m : BillingM A) : Prop :=
  forall s r s', m s = (r, s') -> bs_invoices s' = bs_invoices s /\ bs_coupons s' = bs_coupons s /\ invoice_log s' = invoice_log s.

Lemma quiet_pure {A} (m : BillingM A) : (forall s, (m s).2 = s) -> quiet m.
Proof. intros Hm s r s' H. assert (s' = s) as -> by (rewrite <- (Hm s), H; done). done. Qed.
Lemma quiet_ret {A} (x : A) : quiet (mret x).
Proof. by apply quiet_pure. Qed.
Lemma quiet_throw {A} e : quiet (throw e : BillingM A).
Proof. by apply quiet_pure. Qed.
Lemma quiet_throw_if b e : quiet (throw_if b e).
Proof. apply quiet_pure. intros s. by destruct b. Qed.
Lemma quiet_lift {A} (r : result A) : quiet (lift r).
Proof. by apply quiet_pure. Qed.
Lemma quiet_bind {A B} (m : BillingM A) (f : A -> BillingM B) : quiet m -> (forall x, quiet (f x)) -> quiet (m ≫= f).
Proof.
  intros Hm Hf s r s' H. unfold mbind, M_bind in H. destruct (m s) as [[x|e] s1] eqn:Hs; [|injection H as <- <-; by eapply Hm].
  destruct (Hm _ _ _ Hs) as (? & ? & ?), (Hf _ _ _ _ H) as (? & ? & ?). split_and!; congruence.
Qed.
Lemma quiet_lift_bind {A B} (r : result A) (f : A -> BillingM B) : (forall x, r = Ok x -> quiet (f x)) -> quiet (lift r ≫= f).
Proof.
  intros Hf s r' s' H. unfold mbind, M_bind, lift in H. destruct r as [x|e]; [by eapply Hf|]. by injection H as <- <-.
Qed.
Lemma quiet_call {P B A} (a : Aggregate P LicensingChanged) (m : M (Aggregate P LicensingChanged) A) (f : Aggregate P LicensingChanged -> BillingM B) :
  silent m -> silent_agg a -> (forall a', silent_agg a' -> quiet (f a')) -> quiet (call a m ≫= f).
Proof. intros Hm Ha Hf. apply quiet_lift_bind. intros a' H. apply Hf. by eapply silent_run. Qed.
Lemma quiet_require {P B} msg (found : option (Aggregate P LicensingChanged)) (f : Aggregate P LicensingChanged -> BillingM B) :
  (forall a, found = Some a -> silent_agg a) -> (forall a, silent_agg a -> quiet (f a)) -> quiet (require msg found ≫= f).
Proof. intros Hs Hf. apply quiet_lift_bind. intros a H. apply Hf, Hs. destruct found; [by injection H as ->|done]. Qed.

Lemma invoice_log_silent events t l : Forall silent_event events -> omap invoice_event (l ++ (pair t <$> events)) = omap invoice_event l.
Proof.
  intros H. rewrite omap_app. assert (omap invoice_event (pair t <$> events) = []) as ->; [|apply app_nil_r].
  induction H as [|e events He _ IH]; [done|]. rewrite fmap_cons. cbn. unfold invoice_event at 1. unfold silent_event in He. cbn. destruct (lc_family e.2); try done.
Qed.

Ltac solve_quiet_save :=
  let s := fresh "s" in let r := fresh "r" in let s' := fresh "s'" in let H := fresh "H" in
  intros s [r|r] s' H;
  [ apply save_row_for_shape in H as (rows & ->); unfold invoice_log; cbn; split; [done|]; split; [done|]; by apply invoice_log_silent
  | assert (s' = s) as -> by (unfold save_row_for in H; cbv zeta in H; destruct (bool_decide _) in H; destruct (existsb _ _) in H; congruence); done ].
Lemma quiet_savePlan a t : silent_agg a -> quiet (savePlan a t).
Proof. intros Ha. unfold savePlan. solve_quiet_save. Qed.
Lemma quiet_saveSubscription a t : silent_agg a -> quiet (saveSubscription a t).
Proof. intros Ha. unfold saveSubscription, save_row. solve_quiet_save. Qed.
Lemma quiet_saveMethod a t : silent_agg a -> quiet (saveMethod a t).
Proof. intros Ha. unfold saveMethod, save_row. solve_quiet_save. Qed.

Lemma found_silent {P} `{Table BillingStore P LicensingChanged} f (s : BillingStore) (a : Aggregate P LicensingChanged) : find_where f s = Some a -> silent_agg a.
Proof. unfold find_where. destruct (find_first f (tbl_rows s)); [|done]. intros [= <-]. constructor. Qed.

#[export] Hint Resolve quiet_ret quiet_throw quiet_throw_if quiet_lift quiet_savePlan quiet_saveSubscription quiet_saveMethod : good.

Definition touches_billing (t : BillingTx) : bool :=
  match t with
  | TxPrepare _ _ _ | TxCreateInvoice _ _ _ _ | TxIssueInvoice _ | TxSettleSuccess _ _ | TxSettleFailure _ | TxSettleTransaction _ _
  | TxIssueCoupon _ _ _ _ | TxRedeemCoupon _ _ | TxExpireCoupon _ | TxRevokeCoupon _ _ => true
  | _ => false
  end.

Ltac solve_quiet :=
  repeat (first
    [ solve [eauto 2 with good]
    | match goal with
      | |- quiet (require _ _ ≫= _) => apply quiet_require; [intros ?; apply found_silent|intros ? ?]
      | |- quiet (call _ _ ≫= _) => apply quiet_call; [solve [eauto 2 with silent]|assumption|intros ? ?]
      | |- quiet (let _ := _ in _) => cbv zeta
      | |- quiet (match ?x with _ => _ end) => destruct x eqn:?
      | |- quiet (lift _ ≫= _) => apply quiet_lift_bind; intros ? ?
      end
    | apply quiet_bind; [|intros ?] ]).

Lemma quiet_body c snap : touches_billing (tc_tx c) = false -> quiet (body c snap).
Proof.
  intros Ht. unfold body, unit_of. cbv zeta. destruct (tc_tx c); try discriminate Ht.
  - apply quiet_bind; [|eauto with good]. unfold CreatePlan. solve_quiet. apply quiet_savePlan. repeat constructor. discriminate.
  - apply quiet_bind; [|eauto with good]. unfold on_plan. apply quiet_require; [intros ?; apply found_silent|]. intros a Ha.
    destruct (plan_exec _ a) as [[x|e] a'] eqn:E; [|solve_quiet]. assert (Ha2 := silent_plan_exec _ _ _ _ E Ha). solve_quiet.
  - apply quiet_bind; [|eauto with good]. unfold CreateSubscription. solve_quiet. apply quiet_saveSubscription. repeat constructor. discriminate.
  - apply quiet_bind; [|eauto with good]. unfold RepinSubscription. solve_quiet.
  - apply quiet_bind; [|eauto with good]. unfold ActivateSubscription. apply quiet_require; [intros ?; apply found_silent|]. intros a Ha. cbv zeta.
    apply quiet_call; [eauto with silent|done|]. intros a1 Ha1. destruct (sb_renewalSchedule _) as [x|]; [|destruct (findPinnedVersion _ _) as [v|]].
    2:{ apply quiet_call; [eauto with silent|done|]. intros a2 Ha2. solve_quiet. }
    all: apply (quiet_lift_bind (Ok a1)); intros a2 [= <-]; solve_quiet.
  - apply quiet_bind; [|eauto with good]. unfold PauseSubscription, on_subscription. solve_quiet.
  - apply quiet_bind; [|eauto with good]. unfold ResumeSubscription, on_subscription. solve_quiet.
  - apply quiet_bind; [|eauto with good]. unfold CancelSubscription, on_subscription. solve_quiet.
  - apply quiet_bind; [|eauto with good]. unfold EnterDunning. solve_quiet.
  - apply quiet_bind; [|eauto with good]. unfold recover. solve_quiet.
  - apply quiet_bind; [|eauto with good]. unfold rescheduleOrExhaust. solve_quiet.
  - apply quiet_saveMethod. constructor.
  - apply quiet_bind; [|eauto with good]. unfold storeCardToken. apply quiet_require; [intros ?; apply found_silent|]. intros a Ha.
    destruct (_ && _); [solve_quiet|]. apply quiet_bind; [|intros _; solve_quiet].
    destruct (findActiveByTenantRef _ _ _) as [prev|] eqn:E; [|solve_quiet]. apply found_silent in E. solve_quiet.
  - apply quiet_bind; [|eauto with good]. unfold RevokeBillingPaymentMethod. destruct (findActiveByTenantRef _ _ _) as [prev|] eqn:E; [|solve_quiet].
    apply found_silent in E. solve_quiet.
Qed.

(** ** What a transaction does to invoices and coupons *)

Definition row_new {P} (id t : string) (p : P) (rows rows' : list (Row P)) : Prop :=
  row_of id rows = None /\ forall j, row_of j rows' = if bool_decide (j = id) then Some (mkRow t id 1 p) else row_of j rows.
Definition row_changed {P} (r : Row P) (p' : P) (rows rows' : list (Row P)) : Prop :=
  row_of (row_id r) rows = Some r /\
  forall j, row_of j rows' = if bool_decide (j = row_id r) then Some (mkRow (row_tenant r) (row_id r) (row_version r + 1) p') else row_of j rows.

Definition invoice_actions {P} (a : Aggregate P LicensingChanged) : list (string * string) := omap (fun e => invoice_event (EmptyString, e)) (agg_events a).

(** The redemption of a coupon row onto an invoice, and the discount that invoice gets. *)
Definition redeemed_onto (rc : Row CouponProps) (invoiceId : string) (d : InvoiceDiscount) (coupons coupons' : list (Row CouponProps)) : Prop :=
  cp_status (row_props rc) = cs_issued /\ id_couponRef d = row_id rc /\
  exists at_, row_changed rc (cp_with_status cs_redeemed (cp_with_redemption (mkRedemption invoiceId at_) (row_props rc))) coupons coupons'.

(** The calls a transaction makes on a stored invoice: the status it leaves, and the event. *)
Definition invoice_moves : list (InvoiceStatus * string) := [(is_issued, "issued"); (is_paid, "paid"); (is_failed, "failed")].

Inductive effect (s s' : BillingStore) : Prop :=
| eff_none : bs_invoices s' = bs_invoices s -> bs_coupons s' = bs_coupons s -> invoice_log s' = invoice_log s -> effect s s'
| eff_coupon_new id t p :
    bs_invoices s' = bs_invoices s -> invoice_log s' = invoice_log s -> row_new id t p (bs_coupons s) (bs_coupons s') ->
    cp_status p = cs_issued -> cp_redemption p = None -> effect s s'
| eff_coupon_closed r p' :
    bs_invoices s' = bs_invoices s -> invoice_log s' = invoice_log s -> row_changed r p' (bs_coupons s) (bs_coupons s') ->
    cp_status (row_props r) = cs_issued -> cp_status p' <> cs_issued -> cp_status p' <> cs_redeemed -> cp_redemption p' = cp_redemption (row_props r) -> effect s s'
| eff_invoice_new id t p :
    bs_coupons s' = bs_coupons s -> row_new id t p (bs_invoices s) (bs_invoices s') -> invoice_log s' = invoice_log s ++ [(id, "created")] ->
    invoice_inv p -> iv_status p = is_draft -> iv_discount p = None -> effect s s'
| eff_invoice_moved r p' to action :
    bs_coupons s' = bs_coupons s -> row_changed r p' (bs_invoices s) (bs_invoices s') -> invoice_log s' = invoice_log s ++ [(row_id r, action)] ->
    (to, action) ∈ invoice_moves -> to ∈ INVOICE_TRANSITIONS (iv_status (row_props r)) -> iv_status p' = to ->
    fixed_fields (row_props r) p' -> iv_discount p' = iv_discount (row_props r) -> effect s s'
| eff_redeemed rc ri d :
    redeemed_onto rc (row_id ri) d (bs_coupons s) (bs_coupons s') ->
    row_changed ri (iv_with_discount d (row_props ri)) (bs_invoices s) (bs_invoices s') ->
    invoice_log s' = invoice_log s ++ [(row_id ri, "discounted")] ->
    iv_status (row_props ri) = is_draft -> iv_discount (row_props ri) = None -> invoice_inv (iv_with_discount d (row_props ri)) -> effect s s'
| eff_renewed id t p :
    row_new id t p (bs_invoices s) (bs_invoices s') -> iv_status p = is_issued -> invoice_inv p ->
    match iv_discount p with
    | None => bs_coupons s' = bs_coupons s /\ invoice_log s' = invoice_log s ++ [(id, "created"); (id, "issued")]
    | Some d => (exists rc, redeemed_onto rc id d (bs_coupons s) (bs_coupons s')) /\
                invoice_log s' = invoice_log s ++ [(id, "created"); (id, "discounted"); (id, "issued")]
    end -> effect s s'.

Definition store_ok (s : BillingStore) : Prop := billing_wf s /\ forall r, r ∈ bs_invoices s -> invoice_inv (row_props r).

Lemma omap_pair t (l : list (EventMeta * LicensingChanged)) : omap invoice_event (pair t <$> l) = omap (fun e => invoice_event (EmptyString, e)) l.
Proof. induction l as [|e l IH]; [done|]. rewrite fmap_cons. cbn. rewrite IH. done. Qed.

Lemma saveInvoice_loaded s0 (r : Row InvoiceProps) (a : Invoice) t s u s' :
  billing_wf s0 -> billing_evolve s0 s -> billing_wf s -> r ∈ bs_invoices s0 -> agg_id a = row_id r -> agg_version a = row_version r ->
  fixed_fields (row_props r) (agg_props a) -> saveInvoice a t s = (Ok u, s') ->
  row_changed r (agg_props a) (bs_invoices s) (bs_invoices s') /\ bs_coupons s' = bs_coupons s /\ bs_subscriptions s' = bs_subscriptions s /\
  invoice_log s' = invoice_log s ++ invoice_actions a.
Proof.
  intros (_&_&Hw0&_) (_&_&He&_) (_&_&Hw&_) Hr Hid Hv (F1 & F2 & F3 & F4) H. unfold saveInvoice, save_row in H.
  assert (Hx := H). eapply save_row_loaded in Hx as (Hcur & Ht & Hl); [|exact Hw0|exact Hr|exact He|exact Hw|exact Hid|exact Hv].
  apply save_row_for_shape in H as (rows & ->). cbn in *. split; [split; [done|]|].
  - intros j. rewrite Hl, <- Ht. rewrite <- F1, <- F2, <- F3, <- F4. by destruct (agg_props a).
  - split; [done|]. split; [done|]. unfold invoice_log. cbn. by rewrite omap_app, omap_pair.
Qed.

Lemma saveInvoice_fresh (a : Invoice) t s u s' :
  billing_wf s -> agg_version a = 0 -> saveInvoice a t s = (Ok u, s') ->
  row_new (agg_id a) t (agg_props a) (bs_invoices s) (bs_invoices s') /\ bs_coupons s' = bs_coupons s /\ bs_subscriptions s' = bs_subscriptions s /\
  invoice_log s' = invoice_log s ++ invoice_actions a.
Proof.
  intros (_&_&Hw&_) Hv H. unfold saveInvoice, save_row in H. assert (Hx := H). eapply save_row_new in Hx as [Hn Hl]; [|exact Hw|exact Hv].
  apply save_row_for_shape in H as (rows & ->). cbn in *. split; [done|]. split; [done|]. split; [done|]. unfold invoice_log. cbn. by rewrite omap_app, omap_pair.
Qed.

Definition fixed_coupon (p p' : CouponProps) : Prop :=
  cp_code p' = cp_code p /\ cp_value p' = cp_value p /\ cp_expiresAt p' = cp_expiresAt p /\ cp_merchantRef p' = cp_merchantRef p.

Lemma saveCoupon_loaded s0 (r : Row CouponProps) (a : Coupon) t s u s' :
  billing_wf s0 -> billing_evolve s0 s -> billing_wf s -> r ∈ bs_coupons s0 -> agg_id a = row_id r -> agg_version a = row_version r ->
  fixed_coupon (row_props r) (agg_props a) -> silent_agg a -> saveCoupon a t s = (Ok u, s') ->
  row_changed r (agg_props a) (bs_coupons s) (bs_coupons s') /\ bs_invoices s' = bs_invoices s /\ bs_subscriptions s' = bs_subscriptions s /\
  invoice_log s' = invoice_log s.
Proof.
  intros (_&_&_&Hw0&_) (_&_&_&He&_) (_&_&_&Hw&_) Hr Hid Hv (F1 & F2 & F3 & F4) Hs H. unfold saveCoupon, save_row in H.
  assert (Hx := H). eapply save_row_loaded in Hx as (Hcur & Ht & Hl); [|exact Hw0|exact Hr|exact He|exact Hw|exact Hid|exact Hv].
  apply save_row_for_shape in H as (rows & ->). cbn in *. split; [split; [done|]|].
  - intros j. rewrite Hl, <- Ht. rewrite <- F1, <- F2, <- F3, <- F4. by destruct (agg_props a).
  - split; [done|]. split; [done|]. unfold invoice_log. cbn. by apply invoice_log_silent.
Qed.

Lemma saveCoupon_fresh (a : Coupon) t s u s' :
  billing_wf s -> agg_version a = 0 -> silent_agg a -> saveCoupon a t s = (Ok u, s') ->
  row_new (agg_id a) t (agg_props a) (bs_coupons s) (bs_coupons s') /\ bs_invoices s' = bs_invoices s /\ invoice_log s' = invoice_log s.
Proof.
  intros (_&_&_&Hw&_) Hv Hs H. unfold saveCoupon, save_row in H. assert (Hx := H). eapply save_row_new in Hx as [Hn Hl]; [|exact Hw|exact Hv].
  apply save_row_for_shape in H as (rows & ->). cbn in *. split; [done|]. split; [done|]. unfold invoice_log. cbn. by apply invoice_log_silent.
Qed.

(** *** The aggregates' events *)

Lemma invoice_transition_actions to eid t action (a : Invoice) u a' :
  invoice_transition to eid t action a = (Ok u, a') -> invoice_actions a' = invoice_actions a ++ [(agg_id a, action)].
Proof. unfold invoice_transition, invoice_raise. intros H. agg_inv. unfold invoice_actions. cbn. by rewrite omap_app. Qed.

Lemma applyDiscount_actions ref amount eid t (a : Invoice) u a' :
  applyDiscount ref amount eid t a = (Ok u, a') -> invoice_actions a' = invoice_actions a ++ [(agg_id a, "discounted")].
Proof.
  unfold applyDiscount, invoice_raise. intros H. minv. apply assertCanDiscount_Ok in Hcall as [-> _]. agg_inv. unfold invoice_actions. cbn. by rewrite omap_app.
Qed.

Lemma silent_coupon_transition to eid t action : silent (coupon_transition to eid t action).
Proof. unfold coupon_transition, assertCanMoveTo, coupon_raise. solve_silent. Qed.
#[export] Hint Resolve silent_coupon_transition : silent.
Lemma silent_coupon_redeem i m eid t : silent (coupon_redeem i m eid t).
Proof. unfold coupon_redeem, assertRedeemable, assertCanMoveTo. solve_silent. Qed.
Lemma silent_coupon_expire eid t : silent (coupon_expire eid t).
Proof. unfold coupon_expire, assertCanMoveTo. solve_silent. Qed.
Lemma silent_coupon_revoke reason eid t : silent (coupon_revoke reason eid t).
Proof. unfold coupon_revoke, assertCanMoveTo. solve_silent. Qed.

Lemma run_on_Ok {P A} (a : Aggregate P LicensingChanged) (m : M (Aggregate P LicensingChanged) A) a' :
  run_on a m = Ok a' -> exists x, m a = (Ok x, a').
Proof. unfold run_on. destruct (m a) as [[x|e] a1]; [|done]. intros [= <-]. by exists x. Qed.

Lemma redeem_onto_Ok now (c : Coupon) (i : Invoice) m e1 e2 c' i' d :
  redeem_onto now c i m e1 e2 = Ok (c', i', d) -> invoice_inv (agg_props i) ->
  agg_id c' = agg_id c /\ agg_version c' = agg_version c /\ cp_status (agg_props c) = cs_issued /\
  agg_props c' = cp_with_status cs_redeemed (cp_with_redemption (mkRedemption (agg_id i) now) (agg_props c)) /\ (silent_agg c -> silent_agg c') /\
  agg_id i' = agg_id i /\ agg_version i' = agg_version i /\ agg_props i' = iv_with_discount (mkInvoiceDiscount (agg_id c) (Money.amountMinor d)) (agg_props i) /\
  iv_status (agg_props i) = is_draft /\ iv_discount (agg_props i) = None /\ invoice_inv (agg_props i') /\
  invoice_actions i' = invoice_actions i ++ [(agg_id i, "discounted")].
Proof.
  unfold redeem_onto. intros H HI. minv. assert (H0 : 0 <= Money.amountMinor d).
  { unfold discountFor in *. match goal with H : _ = Ok d |- _ => rename H into Hd end. minv. repeat case_bool_decide; try done.
    destruct (Money.create _ _) as [m'|] eqn:Hm in Hd; [|done]. injection Hd as <-. apply MoneyLaws.create_Ok in Hm as (_ & _ & Hv & _). exact Hv. }
  repeat match goal with H : run_on _ _ = Ok _ |- _ => apply run_on_Ok in H as (? & H) end.
  match goal with H : coupon_redeem _ _ _ _ _ = _ |- _ => assert (Hr := H); apply coupon_redeem_Ok in Hr as (? & ? & ? & ?); apply silent_coupon_redeem in H end.
  match goal with H : applyDiscount _ _ _ _ _ = _ |- _ => assert (Ha := H); apply applyDiscount_actions in Ha; apply applyDiscount_Ok in H as (? & ? & Ep & ? & ? & s & Hs & Hc & Hle) end.
  split_and!; try done. rewrite Ep. destruct HI as (Hsub & Hcur & Hmax & _). split; [exact Hsub|]. split; [done|]. split; [done|]. cbn.
  rewrite Hsub in Hs. injection Hs as <-. cbn in Hle. lia.
Qed.

(** *** The transactions' effects *)

Lemma createDraft_actions id t sub c l eid at_ a : invoice_createDraft id t sub c l eid at_ = Ok a -> invoice_actions a = [(id, "created")].
Proof. unfold invoice_createDraft. intros H. minv. done. Qed.

Lemma findInvoice_Some id t s (a : Invoice) : findInvoice id t s = Some a -> exists r, r ∈ bs_invoices s /\ row_id r = id /\ a = rehydrate r.
Proof.
  intros (r & Hr & Hf & ->)%find_where_Some. apply andb_true_iff in Hf as [Hi%bool_decide_eq_true _]. by exists r.
Qed.
Lemma find_coupon_Some f s (a : Coupon) : find_where f s = Some a -> exists r, r ∈ bs_coupons s /\ a = rehydrate r.
Proof. intros (r & Hr & _ & ->)%find_where_Some. by exists r. Qed.

Section effects.
Context (s0 s : BillingStore) (Hok0 : store_ok s0) (Hev : billing_evolve s0 s) (Hok : store_ok s).

Lemma move_effect to eid at_ action r (a' : Invoice) u0 t u s' :
  (to, action) ∈ invoice_moves -> r ∈ bs_invoices s0 ->
  (exists a, invoice_transition to eid at_ action a = (Ok u0, a') /\ agg_id a = row_id r /\ agg_version a = row_version r /\ agg_events a = [] /\
     iv_status (agg_props a) = iv_status (row_props r) /\ fixed_fields (row_props r) (agg_props a) /\ iv_discount (agg_props a) = iv_discount (row_props r)) ->
  saveInvoice a' t s = (Ok u, s') -> effect s s'.
Proof.
  intros Hm Hr (a & Ha & Hid & Hv & He & Hst & (F1 & F2 & F3 & F4) & Hd) Hs. assert (Hact := invoice_transition_actions _ _ _ _ _ _ _ Ha).
  apply invoice_transition_Ok in Ha as (Hto & Hid' & Hv' & Hp).
  assert (Hff : fixed_fields (row_props r) (agg_props a')) by (rewrite Hp; by split_and!).
  destruct (saveInvoice_loaded s0 r a' t s u s' (proj1 Hok0) Hev (proj1 Hok) Hr) as (Hch & Hc & _ & Hlog);
    [congruence|congruence|exact Hff|exact Hs|].
  unfold invoice_actions in Hact at 2. rewrite He in Hact. cbn in Hact. rewrite Hact, Hid in Hlog.
  eapply (eff_invoice_moved s s' r (agg_props a') to action); [done|done|done|done|by rewrite <- Hst|by rewrite Hp|done|by rewrite Hp].
Qed.

Lemma effect_issue gen now id t u s' : IssueInvoice gen now id t s0 s = (Ok u, s') -> effect s s'.
Proof.
  unfold IssueInvoice. intros H. minv. unfold require in *. destruct (findInvoice id t s0) as [a|] eqn:Hf; minv.
  apply findInvoice_Some in Hf as (r & Hr & Hid & ->). unfold call in *. minv.
  match goal with H : run_on _ _ = _ |- _ => apply run_on_Ok in H as (x & H) end.
  eapply (move_effect is_issued); [left|exact Hr| |eassumption]. exists (rehydrate r). split; [eassumption|done].
Qed.

Lemma mark_paid_effect (r : Row InvoiceProps) (a' : Invoice) ref eid now x t u s' :
  r ∈ bs_invoices s0 -> markPaid ref eid now (rehydrate r) = (Ok x, a') -> saveInvoice a' t s = (Ok u, s') -> effect s s'.
Proof.
  intros Hr Hm Hs. unfold markPaid in Hm. agg_inv. eapply (move_effect is_paid); [right; left|exact Hr| |eassumption].
  eexists. split; [eassumption|done].
Qed.

Lemma effect_settleSuccess gen now id ref t u s' : settleSuccess gen now id ref t s0 s = (Ok u, s') -> effect s s'.
Proof.
  unfold settleSuccess. intros H. minv. unfold require in *. destruct (findInvoice id t s0) as [a|] eqn:Hf; minv.
  apply findInvoice_Some in Hf as (r & Hr & Hid & ->). case_bool_decide; [apply ret_Ok in H as [_ ->]; by apply eff_none|]. unfold call in *. minv.
  match goal with H : run_on _ _ = _ |- _ => apply run_on_Ok in H as (x & H) end. by eapply mark_paid_effect.
Qed.

Lemma effect_settleTransaction gen now v id t u s' : settleTransaction gen now v id t s0 s = (Ok u, s') -> effect s s'.
Proof.
  unfold settleTransaction. intros H. destruct (findInvoice id t s0) as [a|] eqn:Hf; [|apply ret_Ok in H as [_ ->]; by apply eff_none].
  apply findInvoice_Some in Hf as (r & Hr & Hid & ->). cbv zeta in H.
  case_bool_decide; [apply ret_Ok in H as [_ ->]; by apply eff_none|].
  match type of H with (if ?b then _ else _) _ = _ => destruct b end; [apply ret_Ok in H as [_ ->]; by apply eff_none|]. minv.
  match type of H with (if ?b then _ else _) _ = _ => destruct b end; [apply ret_Ok in H as [_ ->]; by apply eff_none|].
  match type of H with (if ?b then _ else _) _ = _ => destruct b end; [apply ret_Ok in H as [_ ->]; by apply eff_none|]. unfold call in *. minv.
  match goal with H : run_on _ _ = _ |- _ => apply run_on_Ok in H as (x & H) end. by eapply mark_paid_effect.
Qed.

Lemma effect_settleFailure gen now id t u s' : settleFailure gen now id t s0 s = (Ok u, s') -> effect s s'.
Proof.
  unfold settleFailure. intros H. destruct (findInvoice id t s0) as [a|] eqn:Hf; [|apply ret_Ok in H as [_ ->]; by apply eff_none].
  apply findInvoice_Some in Hf as (r & Hr & Hid & ->). case_bool_decide; [|apply ret_Ok in H as [_ ->]; by apply eff_none]. unfold call in *. minv.
  match goal with H : run_on _ _ = _ |- _ => apply run_on_Ok in H as (x & H) end.
  eapply (move_effect is_failed); [right; right; left|exact Hr| |eassumption]. exists (rehydrate r). split; [eassumption|done].
Qed.

Lemma coupon_closed_effect (r : Row CouponProps) (a' : Coupon) st t u s' :
  r ∈ bs_coupons s0 -> agg_id a' = row_id r -> agg_version a' = row_version r -> silent_agg a' -> fixed_coupon (row_props r) (agg_props a') ->
  cp_status (row_props r) = cs_issued -> cp_status (agg_props a') = st -> st <> cs_issued -> st <> cs_redeemed ->
  cp_redemption (agg_props a') = cp_redemption (row_props r) -> saveCoupon a' t s = (Ok u, s') -> effect s s'.
Proof.
  intros Hr Hid Hv Hsil Hfix Hiss Hst H1 H2 Hred Hs.
  destruct (saveCoupon_loaded s0 r a' t s u s' (proj1 Hok0) Hev (proj1 Hok) Hr Hid Hv Hfix Hsil Hs) as (Hch & Hi & _ & Hlog).
  eapply eff_coupon_closed; [done|done|exact Hch|done|by rewrite Hst|by rewrite Hst|done].
Qed.

Lemma effect_expire gen now id t u s' : ExpireCoupon gen now id t s0 s = (Ok u, s') -> effect s s'.
Proof.
  unfold ExpireCoupon. intros H. minv. unfold require in *. destruct (findCoupon id t s0) as [a|] eqn:Hf; minv.
  apply find_coupon_Some in Hf as (r & Hr & ->). unfold call in *. minv.
  match goal with H : run_on _ _ = _ |- _ => apply run_on_Ok in H as (x & H); assert (Hx := H); apply coupon_expire_Ok in Hx as (E1 & E2 & E3 & E4); apply silent_coupon_expire in H end.
  eapply coupon_closed_effect; [exact Hr|exact E1|exact E2| | |exact E4|by rewrite E3| | | |eassumption]; try done; [|by rewrite E3..].
  match goal with H : silent_agg _ -> _ |- _ => apply H; constructor end.
Qed.

Lemma effect_revoke gen now id reason t u s' : RevokeCoupon gen now id reason t s0 s = (Ok u, s') -> effect s s'.
Proof.
  unfold RevokeCoupon. intros H. minv. unfold require in *. destruct (findCoupon id t s0) as [a|] eqn:Hf; minv.
  apply find_coupon_Some in Hf as (r & Hr & ->). unfold call in *. minv.
  match goal with H : run_on _ _ = _ |- _ => apply run_on_Ok in H as (x & H); assert (Hx := H); apply coupon_revoke_Ok in Hx as (E1 & E2 & E3 & E4); apply silent_coupon_revoke in H end.
  eapply coupon_closed_effect; [exact Hr|exact E1|exact E2| | |exact E4|by rewrite E3| | | |eassumption]; try done; [|by rewrite E3..].
  match goal with H : silent_agg _ -> _ |- _ => apply H; constructor end.
Qed.

Lemma effect_issueCoupon gen now code value ex m t u s' : IssueCoupon gen now code value ex m t s0 s = (Ok u, s') -> effect s s'.
Proof.
  unfold IssueCoupon. intros H. minv. destruct (findCouponByCode _ _ _); [done|]. minv.
  match goal with H : coupon_issue _ _ _ _ _ _ _ = Ok _ |- _ => rename H into Hi end. assert (Hi' := Hi).
  apply coupon_issue_Ok in Hi' as (x & _ & Eid & Ev & Ep & _).
  match goal with H : saveCoupon ?a _ _ = _ |- _ => assert (Hsil : silent_agg a) end.
  { unfold coupon_issue in Hi. destruct (negb _) in Hi; [done|]. minv. case_bool_decide; [|done]. cbn in Hi. injection Hi as <-. repeat constructor. discriminate. }
  match goal with H : saveCoupon _ _ _ = _ |- _ => apply saveCoupon_fresh in H as (Hn & Hinv & Hlog); [|apply Hok|done|done] end.
  eapply eff_coupon_new; [done|done|exact Hn|by rewrite Ep|by rewrite Ep].
Qed.

Lemma effect_createInvoice gen now ref sub cur lines t u s' : CreateInvoice gen now ref sub cur lines t s = (Ok u, s') -> effect s s'.
Proof.
  unfold CreateInvoice. intros H. minv.
  match goal with H : invoice_createDraft _ _ _ _ _ _ _ = Ok _ |- _ => rename H into Hi end. assert (Hi' := Hi).
  apply invoice_createDraft_Ok in Hi' as (Eid & Ev & Ep & HI).
  match goal with H : saveInvoice _ _ _ = _ |- _ => apply saveInvoice_fresh in H as (Hn & Hc & _ & Hlog); [|apply Hok|done] end.
  eapply eff_invoice_new; [done|exact Hn| |exact HI|by rewrite Ep|by rewrite Ep]. rewrite Hlog. f_equal.
  rewrite (createDraft_actions _ _ _ _ _ _ _ _ Hi). by rewrite Eid.
Qed.

End effects.

Lemma redeem_effect now (rc : Row CouponProps) (ri : Row InvoiceProps) m e1 e2 c' i' d sc si s t u1 s1 u2 s2 :
  store_ok sc -> billing_evolve sc s -> store_ok si -> billing_evolve si s -> store_ok s ->
  rc ∈ bs_coupons sc -> ri ∈ bs_invoices si -> redeem_onto now (rehydrate rc) (rehydrate ri) m e1 e2 = Ok (c', i', d) ->
  saveCoupon c' t s = (Ok u1, s1) -> saveInvoice i' t s1 = (Ok u2, s2) -> effect s s2.
Proof.
  intros Hokc Hevc Hoki Hevi Hok Hrc Hri H Hs1 Hs2.
  destruct (redeem_onto_Ok _ _ _ _ _ _ _ _ _ H (proj2 Hoki _ Hri)) as (Ec & Vc & Hiss & Pc & Silc & Ei & Vi & Pi & Hd & Hn & HI & Hact).
  destruct (good_saveCoupon c' t s _ _ (proj1 Hok) Hs1) as [Hwf1 Hev1].
  assert (Hfc : fixed_coupon (row_props rc) (agg_props c')) by (rewrite Pc; by split_and!).
  assert (Hfi : fixed_fields (row_props ri) (agg_props i')) by (rewrite Pi; by split_and!).
  destruct (saveCoupon_loaded sc rc c' t s _ _ (proj1 Hokc) Hevc (proj1 Hok) Hrc Ec Vc Hfc (Silc ltac:(constructor)) Hs1) as (Hch & Hinv & _ & Hlog1).
  destruct (saveInvoice_loaded si ri i' t s1 _ _ (proj1 Hoki) ltac:(by etrans) Hwf1 Hri Ei Vi Hfi Hs2) as (Hch2 & Hc2 & _ & Hlog2).
  rewrite Hinv in Hch2. rewrite Hlog1, Hact in Hlog2. rewrite Pc in Hch. rewrite Pi in Hch2, HI. cbn in *.
  eapply (eff_redeemed s s2 rc ri); [|exact Hch2|exact Hlog2|done|done|exact HI].
  split; [done|]. split; [done|]. rewrite Hc2. by eexists.
Qed.

Lemma effect_redeem gen now code id t s0 s1 s u s' :
  store_ok s0 -> billing_evolve s0 s -> store_ok s1 -> billing_evolve s1 s -> store_ok s ->
  redeem_attempt gen now code id t s0 s1 s = (Ok u, s') -> effect s s'.
Proof.
  intros Hok0 Hev0 Hok1 Hev1 Hok. unfold redeem_attempt. intros H. minv. unfold require in *.
  destruct (findCouponByCode code t s0) as [c|] eqn:Hc; minv. destruct (findInvoice id t s1) as [i|] eqn:Hi; minv.
  apply find_coupon_Some in Hc as (rc & Hrc & ->). apply findInvoice_Some in Hi as (ri & Hri & _ & ->).
  match goal with x : Coupon * Invoice * Money.Money |- _ => destruct x as [[c' i'] d] end. minv.
  eapply redeem_effect; [exact Hok0|exact Hev0|exact Hok1|exact Hev1|exact Hok|exact Hrc|exact Hri|eassumption..].
Qed.

Lemma applyMerchantCoupon_Some gen now l i m c' i' : applyMerchantCoupon gen now l i m = Some (c', i') ->
  exists c d, c ∈ l /\ redeem_onto now c i m (gen 2%nat) (gen 3%nat) = Ok (c', i', d).
Proof.
  induction l as [|c l IH]; cbn; [done|]. destruct (redeem_onto now c i m _ _) as [[[c1 i1] d]|e] eqn:E.
  - intros [= -> ->]. exists c, d. split; [left|done].
  - intros (c0 & d & ? & ?)%IH. exists c0, d. split; [by right|done].
Qed.

(** What a renewal did when it returned: the invoice it made, of the pinned price, and the schedule. *)
Lemma prepare_Ok gen now iso b id t s0 s1 s2 s x s' :
  prepare gen now iso b id t s0 s1 s2 s = (Ok x, s') ->
  exists (a : Subscription) sched v i0 i applied sm sn a',
    findSubscription id t s0 = Some a /\ sb_status (agg_props a) = ss_active /\ sb_renewalSchedule (agg_props a) = Some sched /\
    nextRenewalAt sched <= now /\ findPinnedVersion (sb_planVersionRef (agg_props a)) s1 = Some v /\
    invoice_createDraft x (sb_tenantRef (agg_props a)) (agg_id a) (pricing_currency (spec_pricing (pv_spec v)))
      [renewal_line (spec_pricing (pv_spec v)) (sb_planVersionRef (agg_props a))] (gen 1%nat) now = Ok i0 /\
    (if b then applyMerchantCoupon gen now (findIssuedForMerchant (sb_tenantRef (agg_props a)) t s2) i0 (sb_tenantRef (agg_props a)) else None) = applied /\
    match applied with Some (c, i1) => saveCoupon c t s = (Ok tt, sm) /\ run_on i1 (issue (gen 4%nat) now) = Ok i | None => sm = s /\ run_on i0 (issue (gen 4%nat) now) = Ok i end /\
    run_on a (setRenewalSchedule (mkRenewalSchedule (cycleDays sched) (nextRenewalAt sched + cycleDays sched * DAY_MS))) = Ok a' /\
    saveInvoice i t sm = (Ok tt, sn) /\ saveSubscription a' t sn = (Ok tt, s') /\ UniqueEntityId_from (gen 0%nat) = Ok x.
Proof.
  unfold prepare. intros H. minv. unfold require in *. destruct (findSubscription id t s0) as [a|] eqn:Ha; minv.
  destruct (sb_renewalSchedule _) as [sched|] eqn:Hsched; minv. destruct (findPinnedVersion _ s1) as [pv|] eqn:Hpv; minv.
  destruct (_ || _) eqn:Hst in *; minv. unfold call in *. minv.
  match goal with H : (match ?ap with _ => _ end) s = (Ok _, _) |- _ => rename H into Hap; set (applied := ap) in * end.
  agg_inv. repeat match goal with u : unit |- _ => destruct u end.
  do 9 eexists. split; [reflexivity|]. split; [assumption|]. split; [eassumption|]. split; [lia|]. split; [eassumption|]. split; [eassumption|].
  split; [reflexivity|]. split; [|split; [eassumption|split; [eassumption|split; eassumption]]]. fold applied.
  destruct applied as [[c i1]|]; minv; repeat match goal with u : unit |- _ => destruct u end; done.
Qed.

Lemma issue_run_Ok (i i' : Invoice) eid at_ : run_on i (issue eid at_) = Ok i' ->
  agg_id i' = agg_id i /\ agg_version i' = agg_version i /\ agg_props i' = iv_with_status is_issued (agg_props i) /\
  invoice_actions i' = invoice_actions i ++ [(agg_id i, "issued")].
Proof.
  intros (x & H)%run_on_Ok. assert (Ha := invoice_transition_actions _ _ _ _ _ _ _ H). apply invoice_transition_Ok in H as (_ & ? & ? & ?). done.
Qed.

Lemma setRenewalSchedule_run (a a' : Subscription) x : run_on a (setRenewalSchedule x) = Ok a' ->
  agg_id a' = agg_id a /\ agg_version a' = agg_version a /\ agg_events a' = agg_events a /\ agg_props a' = sb_with_schedule x (agg_props a).
Proof. intros (u & H)%run_on_Ok. unfold setRenewalSchedule in H. by apply set_props_Ok in H as ->. Qed.

(** The coupon and the invoice of a renewal, saved. *)
Lemma effect_renewed gen now t x tref sub cur lines s2 (b : bool) i0 i applied s sm sn :
  store_ok s2 -> billing_evolve s2 s -> store_ok s ->
  invoice_createDraft x tref sub cur lines (gen 1%nat) now = Ok i0 ->
  (if b then applyMerchantCoupon gen now (findIssuedForMerchant tref t s2) i0 tref else None) = applied ->
  match applied with Some (c, i1) => saveCoupon c t s = (Ok tt, sm) /\ run_on i1 (issue (gen 4%nat) now) = Ok i | None => sm = s /\ run_on i0 (issue (gen 4%nat) now) = Ok i end ->
  saveInvoice i t sm = (Ok tt, sn) -> effect s sn.
Proof.
  intros Hok2 Hev2 Hok Hi0 Happ Hsm Hinv.
  assert (Hact0 := createDraft_actions _ _ _ _ _ _ _ _ Hi0). apply invoice_createDraft_Ok in Hi0 as (E0 & V0 & P0 & I0).
  destruct applied as [[c i1]|].
  - destruct Hsm as [Hsc His]. apply issue_run_Ok in His as (Ei & Vi & Pi & Acti).
    assert (exists c0 d, c0 ∈ findIssuedForMerchant tref t s2 /\ redeem_onto now c0 i0 tref (gen 2%nat) (gen 3%nat) = Ok (c, i1, d)) as (c0 & d & Hc0 & Hred)
      by (destruct b; [by apply applyMerchantCoupon_Some|done]).
    apply list_elem_of_fmap in Hc0 as (rc & -> & [_ Hrc]%list_elem_of_filter).
    destruct (redeem_onto_Ok _ _ _ _ _ _ _ _ _ Hred I0) as (Ec & Vc & Hiss & Pc & Silc & E1 & V1 & P1 & Hd & Hn & HI & Hact1).
    destruct (good_saveCoupon c t s _ _ (proj1 Hok) Hsc) as [Hwf1 _].
    assert (Hfc : fixed_coupon (row_props rc) (agg_props c)) by (rewrite Pc; by split_and!).
    destruct (saveCoupon_loaded s2 rc c t s _ _ (proj1 Hok2) Hev2 (proj1 Hok) Hrc Ec Vc Hfc (Silc ltac:(constructor)) Hsc) as (Hch & Hinvs & _ & Hlog1).
    apply saveInvoice_fresh in Hinv as (Hnew & Hcs & _ & Hlog2); [|done|congruence].
    rewrite Hinvs in Hnew. rewrite Hlog1, Acti, Hact1, Hact0 in Hlog2. rewrite Pc in Hch.
    apply (eff_renewed s sn (agg_id i) t (agg_props i)); [done|by rewrite Pi| |].
    + rewrite Pi. exact HI.
    + rewrite Pi, P1. cbn. split.
      * exists rc. split; [done|]. split; [done|]. rewrite Hcs. exists now. rewrite Ei, E1. exact Hch.
      * rewrite Hlog2. cbn. by rewrite Ei, E1, E0.
  - destruct Hsm as [-> His]. apply issue_run_Ok in His as (Ei & Vi & Pi & Acti).
    apply saveInvoice_fresh in Hinv as (Hnew & Hcs & _ & Hlog2); [|apply Hok|congruence]. rewrite Acti, Hact0 in Hlog2.
    apply (eff_renewed s sn (agg_id i) t (agg_props i)); [done|by rewrite Pi|by rewrite Pi|]. rewrite Pi, P0. cbn.
    rewrite Hcs, Hlog2. split; [done|]. cbn. by rewrite Ei, E0.
Qed.

Lemma effect_quiet s sn s' : effect s sn -> bs_invoices s' = bs_invoices sn -> bs_coupons s' = bs_coupons sn -> invoice_log s' = invoice_log sn -> effect s s'.
Proof.
  intros [] Ei Ec El.
  - apply eff_none; congruence.
  - eapply eff_coupon_new; rewrite ?Ei, ?Ec, ?El; eassumption.
  - eapply eff_coupon_closed; rewrite ?Ei, ?Ec, ?El; eassumption.
  - eapply eff_invoice_new; rewrite ?Ei, ?Ec, ?El; eassumption.
  - eapply eff_invoice_moved; rewrite ?Ei, ?Ec, ?El; eassumption.
  - eapply eff_redeemed; rewrite ?Ei, ?Ec, ?El; eassumption.
  - eapply eff_renewed; rewrite ?Ei, ?Ec, ?El; eassumption.
Qed.

Lemma effect_prepare gen now iso b id t s0 s1 s2 s x s' :
  store_ok s2 -> billing_evolve s2 s -> store_ok s ->
  prepare gen now iso b id t s0 s1 s2 s = (Ok x, s') -> effect s s'.
Proof.
  intros Hok2 Hev2 Hok H.
  apply prepare_Ok in H as (a & sched & v & i0 & i & applied & sm & sn & a' & Ha & _ & _ & _ & _ & Hi0 & Happ & Hsm & Hset & Hinv & Hsub & _).
  apply setRenewalSchedule_run in Hset as (_ & _ & Eev & _). apply found_silent in Ha.
  assert (Ha' : silent_agg a') by (unfold silent_agg; by rewrite Eev).
  destruct (quiet_saveSubscription _ _ Ha' _ _ _ Hsub) as (Q1 & Q2 & Q3). eapply effect_quiet; [|done..].
  exact (effect_renewed gen now t x _ _ _ _ s2 b i0 i applied s sm sn Hok2 Hev2 Hok Hi0 Happ Hsm Hinv).
Qed.

(** A step that changes nothing fails in place. *)
Lemma pure_bind_Err {A B} (m : BillingM A) (f : A -> BillingM B) s e s' :
  (forall s, (m s).2 = s) -> (m ≫= f) s = (Err e, s') -> s' = s \/ exists x, m s = (Ok x, s) /\ f x s = (Err e, s').
Proof.
  intros Hm H. specialize (Hm s). unfold mbind, M_bind in H. destruct (m s) as [[x|e'] s1]; cbn in Hm; subst s1; [right; by exists x|left; by injection H as _ <-].
Qed.
Ltac pure_step H x Hx :=
  apply pure_bind_Err in H as [H|(x & Hx & H)]; [by left| |first [done|intros ?; match goal with |- context [throw_if ?c _] => by destruct c end]].

Lemma issue_draft_returns (a : Invoice) eid now : iv_status (agg_props a) = is_draft -> exists a', run_on a (issue eid now) = Ok a'.
Proof.
  intros Hst. unfold run_on, issue, invoice_transition, invoice_raise, set_props, gets, throw_if, mbind, M_bind, mret, M_ret, addDomainEvent.
  rewrite Hst. cbn. by eexists.
Qed.

Lemma then_Err {A B} (m : BillingM A) (f : A -> BillingM B) s e s' :
  (m ≫= f) s = (Err e, s') -> m s = (Err e, s') \/ exists x s1, m s = (Ok x, s1) /\ f x s1 = (Err e, s').
Proof. unfold mbind, M_bind. destruct (m s) as [[x|e'] s1]; [right; by exists x, s1|by intros [= -> ->]; left]. Qed.

(** The end of a renewal: of its saves only the last can lose a race. *)
Lemma renewal_saves_Err (i1 : Invoice) (a : Subscription) sched eid now t (x : string) sm e s' :
  (i ← call i1 (issue eid now); a' ← call a (setRenewalSchedule sched); saveInvoice i t;; saveSubscription a' t;; mret x) sm = (Err e, s') ->
  isDomainError e = true -> iv_status (agg_props i1) = is_draft -> agg_version i1 = 0 ->
  exists i, run_on i1 (issue eid now) = Ok i /\ saveInvoice i t sm = (Ok tt, s').
Proof.
  intros H He Hst Hv. destruct (issue_draft_returns i1 eid now Hst) as (i & Hi). exists i. split; [done|].
  assert (Hvi : agg_version i = 0) by (apply issue_run_Ok in Hi as (_ & -> & _); exact Hv).
  unfold call in H. rewrite Hi in H. apply then_Err in H as [H|(i' & ? & [= <- <-] & H)]; [done|]. apply then_Err in H as [H|(a' & ? & [= <- <-] & H)]; [done|].
  apply then_Err in H as [H|(u & s1 & H1 & H)].
  - unfold saveInvoice, save_row in H. apply save_row_for_Err in H as [_ H]. by rewrite H in He.
  - apply then_Err in H as [H|(? & ? & _ & ?)]; [|done]. unfold saveSubscription, save_row in H. apply save_row_for_Err in H as [-> _]. by destruct u.
Qed.

(** A renewal that returned a domain error and yet changed something lost the race for its subscription,
    after saving its coupon and its invoice. *)
Lemma prepare_Err gen now iso b id t s0 s1 s2 s e s' :
  prepare gen now iso b id t s0 s1 s2 s = (Err e, s') -> isDomainError e = true ->
  s' = s \/ exists (a : Subscription) sch x v i0 i applied sm,
    findSubscription id t s0 = Some a /\ sb_renewalSchedule (agg_props a) = Some sch /\ nextRenewalAt sch <= now /\
    findPinnedVersion (sb_planVersionRef (agg_props a)) s1 = Some v /\ x = gen 0%nat /\
    invoice_createDraft x (sb_tenantRef (agg_props a)) (agg_id a) (pricing_currency (spec_pricing (pv_spec v)))
      [renewal_line (spec_pricing (pv_spec v)) (sb_planVersionRef (agg_props a))] (gen 1%nat) now = Ok i0 /\
    (if b then applyMerchantCoupon gen now (findIssuedForMerchant (sb_tenantRef (agg_props a)) t s2) i0 (sb_tenantRef (agg_props a)) else None) = applied /\
    match applied with Some (c, i1) => saveCoupon c t s = (Ok tt, sm) /\ run_on i1 (issue (gen 4%nat) now) = Ok i | None => sm = s /\ run_on i0 (issue (gen 4%nat) now) = Ok i end /\
    saveInvoice i t sm = (Ok tt, s').
Proof.
  unfold prepare. intros H He. pure_step H a Ha. cbv zeta in H. pure_step H u1 Hu1. pure_step H sched Hsched. pure_step H u2 Hu2. pure_step H v Hv.
  pure_step H u3 Hu3. pure_step H u4 Hu4. pure_step H x Hx. pure_step H i0 Hi0. unfold lift in Hi0. injection Hi0 as Hi0.
  assert (Hfacts : findSubscription id t s0 = Some a /\ sb_renewalSchedule (agg_props a) = Some sched /\ nextRenewalAt sched <= now /\
    findPinnedVersion (sb_planVersionRef (agg_props a)) s1 = Some v /\ x = gen 0%nat).
  { unfold lift in Hsched, Hv, Hx. split; [by destruct (findSubscription id t s0); [injection Ha as ->|]|].
    split; [destruct (sb_renewalSchedule (agg_props a)); [by injection Hsched as ->|done]|].
    split; [destruct (decide (now < nextRenewalAt sched)); [by rewrite bool_decide_true in Hu2|lia]|].
    split; [destruct (findPinnedVersion _ s1); [destruct (_ || _); [done|by injection Hv as ->]|done]|].
    injection Hx as Hx. by apply UniqueEntityId_from_Ok in Hx as [_ ->]. }
  assert (Hd := Hi0). apply invoice_createDraft_Ok in Hd as (_ & V0 & P0 & I0).
  assert (Hst0 : iv_status (agg_props i0) = is_draft) by (by rewrite P0).
  destruct (if b then applyMerchantCoupon gen now _ i0 _ else None) as [[c i1]|] eqn:Happ.
  - apply then_Err in H as [H|(i1' & sm & Hm & H)].
    + apply then_Err in H as [H|(? & ? & _ & ?)]; [|done]. unfold saveCoupon, save_row in H. apply save_row_for_Err in H as [-> _]. by left.
    + apply bind_Ok in Hm as (u & sm' & Hsc & [= <- <-]). destruct u.
      assert (Hi1 : iv_status (agg_props i1) = is_draft /\ agg_version i1 = 0).
      { destruct b; [|done]. apply applyMerchantCoupon_Some in Happ as (c0 & d & _ & Hred). destruct (redeem_onto_Ok _ _ _ _ _ _ _ _ _ Hred I0) as (_ & _ & _ & _ & _ & _ & V1 & P1 & _).
        rewrite V1, P1. cbn. by rewrite P0. }
      destruct (renewal_saves_Err _ _ _ _ _ _ _ _ _ _ H He (proj1 Hi1) (proj2 Hi1)) as (i & Hi & Hs).
      right. exists a, sched, x, v, i0, i, (Some (c, i1)), sm'. destruct Hfacts as (? & ? & ? & ? & ?). by split_and!.
  - apply then_Err in H as [H|(i1' & sm & [= <- <-] & H)]; [done|]. destruct (renewal_saves_Err _ _ _ _ _ _ _ _ _ _ H He Hst0 V0) as (i & Hi & Hs).
    right. exists a, sched, x, v, i0, i, None, s. destruct Hfacts as (? & ? & ? & ? & ?). by split_and!.
Qed.

(** What a transaction's reads saw is an earlier state of the store. *)
Definition seen (s : BillingStore) (s0 : BillingStore) : Prop := store_ok s0 /\ billing_evolve s0 s.

Lemma unit_of_Ok {A} (m : BillingM A) s r s' : unit_of m s = (Ok r, s') -> exists x, m s = (Ok x, s').
Proof. unfold unit_of. intros H. minv. by eexists. Qed.

Lemma unit_of_Err {A} (m : BillingM A) s e s' : unit_of m s = (Err e, s') -> m s = (Err e, s').
Proof. unfold unit_of. intros [H|(? & ? & _ & H)]%then_Err; done. Qed.

Lemma effect_prepare_Err gen now iso b id t s0 s1 s2 s e s' :
  store_ok s2 -> billing_evolve s2 s -> store_ok s ->
  prepare gen now iso b id t s0 s1 s2 s = (Err e, s') -> isDomainError e = true -> effect s s'.
Proof.
  intros Hok2 Hev2 Hok H He. apply prepare_Err in H as [-> |(a & sch & x & v & i0 & i & applied & sm & _ & _ & _ & _ & _ & Hi0 & Happ & Hsm & Hinv)]; [by apply eff_none| |done].
  exact (effect_renewed gen now t x _ _ _ _ s2 b i0 i applied s sm s' Hok2 Hev2 Hok Hi0 Happ Hsm Hinv).
Qed.

(** A read past those taken sees the store as it is. *)
Lemma seen_default s snaps k : store_ok s -> Forall (seen s) snaps -> seen s (snapshots snaps s k).
Proof.
  intros Hok Hsn. unfold snapshots. destruct (snaps !! k) as [s0|] eqn:E; [exact (Forall_lookup_1 _ _ _ _ Hsn E)|]. split; [done|reflexivity].
Qed.

Lemma exec_effect c snaps s s' : store_ok s -> Forall (seen s) snaps -> exec c snaps s = Ok s' -> effect s s'.
Proof.
  intros Hok Hsn (_ & r & Hb & Hr)%exec_inv. set (snap := snapshots snaps s) in Hb. assert (Hs := fun k => seen_default s snaps k Hok Hsn). fold snap in Hs.
  destruct (Hs 0%nat) as [Hok0 Hev0], (Hs 1%nat) as [Hok1 Hev1], (Hs 2%nat) as [Hok2 Hev2].
  destruct (touches_billing (tc_tx c)) eqn:Ht.
  - unfold body in Hb. cbv zeta in Hb. destruct (tc_tx c); try discriminate Ht; (destruct r as [r|e]; [|destruct Hr as [Hr He]; try discriminate Hr]);
      try (apply unit_of_Ok in Hb as (x & Hb)); try apply unit_of_Err in Hb.
    + by eapply effect_prepare.
    + by eapply effect_prepare_Err.
    + by eapply effect_createInvoice.
    + by eapply (effect_issue (snap 0%nat)).
    + by eapply (effect_settleSuccess (snap 0%nat)).
    + by eapply (effect_settleFailure (snap 0%nat)).
    + by eapply (effect_settleTransaction (snap 0%nat)).
    + by eapply effect_issueCoupon.
    + by eapply (effect_redeem _ _ _ _ _ (snap 0%nat) (snap 1%nat)).
    + by eapply (effect_expire (snap 0%nat)).
    + by eapply (effect_revoke (snap 0%nat)).
  - destruct (quiet_body c snap Ht _ _ _ Hb) as (? & ? & ?). by apply eff_none.
Qed.

(** *** Consequences for one row *)

Lemma row_changed_lookup {P} (r : Row P) p' rows rows' j x : row_changed r p' rows rows' -> row_of j rows' = Some x ->
  (j = row_id r /\ x = mkRow (row_tenant r) (row_id r) (row_version r + 1) p') \/ (j <> row_id r /\ row_of j rows = Some x).
Proof. intros [_ Hl] Hx. rewrite Hl in Hx. case_bool_decide; [left|right]; naive_solver. Qed.
Lemma row_new_lookup {P} id t (p : P) rows rows' j x : row_new id t p rows rows' -> row_of j rows' = Some x ->
  (j = id /\ x = mkRow t id 1 p) \/ (j <> id /\ row_of j rows = Some x).
Proof. intros [_ Hl] Hx. rewrite Hl in Hx. case_bool_decide; [left|right]; naive_solver. Qed.

Lemma effect_store_ok s s' : store_ok s -> billing_wf s' -> effect s s' -> store_ok s'.
Proof.
  intros [Hw Hi] Hw' He. split; [done|]. intros x Hx.
  assert (Hold : forall j y, row_of j (bs_invoices s) = Some y -> invoice_inv (row_props y)) by (intros j y [Hy _]%row_of_Some; by apply Hi).
  assert (Hx' := row_of_elem _ _ (proj1 (proj1 (proj2 (proj2 Hw')))) Hx).
  destruct He as [E|id t p E|r p' E|id t p _ Hn _ HI|r p' to action _ Hc _ _ _ Hst (F1 & F2 & F3 & F4) Hd|rc ri d _ Hc _ _ _ HI|id t p Hn _ HI _].
  - rewrite E in Hx'. by eapply Hold.
  - rewrite E in Hx'. by eapply Hold.
  - rewrite E in Hx'. by eapply Hold.
  - destruct (row_new_lookup _ _ _ _ _ _ _ Hn Hx') as [[_ ->]|[_ ?]]; [done|by eapply Hold].
  - destruct (row_changed_lookup _ _ _ _ _ _ Hc Hx') as [[_ ->]|[_ ?]]; [|by eapply Hold]. cbn.
    destruct (Hold _ _ (proj1 Hc)) as (I1 & I2 & I3 & I4). unfold invoice_inv, subtotal, discount_minor in *. rewrite F3, F4, Hd. done.
  - destruct (row_changed_lookup _ _ _ _ _ _ Hc Hx') as [[_ ->]|[_ ?]]; [done|by eapply Hold].
  - destruct (row_new_lookup _ _ _ _ _ _ _ Hn Hx') as [[_ ->]|[_ ?]]; [done|by eapply Hold].
Qed.

Lemma exec_ok c snaps s s' : store_ok s -> Forall (seen s) snaps -> exec c snaps s = Ok s' -> store_ok s' /\ billing_evolve s s' /\ effect s s'.
Proof.
  intros Hok Hsn He. destruct (exec_evolves c snaps s s' (proj1 Hok) He) as [Hw Hev]. assert (Heff := exec_effect _ _ _ _ Hok Hsn He).
  split; [|by split]. by eapply effect_store_ok.
Qed.

(** ** Coupons and the invoices they are on *)

Definition coupon_ok (s : BillingStore) : Prop :=
  (forall i ri d, row_of i (bs_invoices s) = Some ri -> iv_discount (row_props ri) = Some d ->
     exists rc at_, row_of (id_couponRef d) (bs_coupons s) = Some rc /\ cp_status (row_props rc) = cs_redeemed /\
       cp_redemption (row_props rc) = Some (mkRedemption i at_)) /\
  (forall id rc, row_of id (bs_coupons s) = Some rc -> cp_status (row_props rc) = cs_redeemed ->
     exists i at_ ri d, cp_redemption (row_props rc) = Some (mkRedemption i at_) /\ row_of i (bs_invoices s) = Some ri /\
       iv_discount (row_props ri) = Some d /\ id_couponRef d = id).

(** Rows of the invoices that keep the discounts keep the coupons' bond. *)
Lemma coupon_ok_invoices s s' :
  bs_coupons s' = bs_coupons s ->
  (forall i ri, row_of i (bs_invoices s') = Some ri -> iv_discount (row_props ri) = None \/
     exists r0, row_of i (bs_invoices s) = Some r0 /\ iv_discount (row_props ri) = iv_discount (row_props r0)) ->
  (forall i r0, row_of i (bs_invoices s) = Some r0 -> exists ri, row_of i (bs_invoices s') = Some ri /\ iv_discount (row_props ri) = iv_discount (row_props r0)) ->
  coupon_ok s -> coupon_ok s'.
Proof.
  intros Ec Hback Hfwd [H1 H2]. split; rewrite Ec.
  - intros i ri d Hi Hd. destruct (Hback i ri Hi) as [E|(r0 & H0 & E)]; [congruence|]. rewrite E in Hd. by eapply H1.
  - intros id rc Hc Hr. destruct (H2 id rc Hc Hr) as (i & t & r0 & d & ? & H0 & Hd & ?). destruct (Hfwd i r0 H0) as (ri & Hi & E).
    exists i, t, ri, d. split_and!; [done|done|congruence|done].
Qed.

(** A redemption: the coupon was issued, so no invoice had it; its invoice had no discount. *)
Lemma coupon_ok_redeemed s s' i rc d :
  redeemed_onto rc i d (bs_coupons s) (bs_coupons s') ->
  (exists ri', row_of i (bs_invoices s') = Some ri' /\ iv_discount (row_props ri') = Some d) ->
  match row_of i (bs_invoices s) with None => True | Some r => iv_discount (row_props r) = None end ->
  (forall j, j <> i -> row_of j (bs_invoices s') = row_of j (bs_invoices s)) ->
  coupon_ok s -> coupon_ok s'.
Proof.
  intros (Hiss & Hd & t & Hch) (ri' & Hri' & Hdi) Hnone Hother [H1 H2]. split.
  - intros j rj dj Hj Hdj. destruct (decide (j = i)) as [-> |Hn].
    + rewrite Hri' in Hj. injection Hj as <-. rewrite Hdi in Hdj. injection Hdj as <-. rewrite Hd. eexists _, t. split; [destruct Hch as [_ ->]; rewrite bool_decide_true by done; reflexivity|].
      split; reflexivity.
    + rewrite Hother in Hj by done. destruct (H1 j rj dj Hj Hdj) as (rc' & t' & Hc' & Hst & Hred). exists rc', t'. split; [|done].
      destruct Hch as [Hcur ->]. rewrite bool_decide_false; [done|]. intros E. rewrite E, Hcur in Hc'. injection Hc' as <-. congruence.
  - intros id rc' Hc' Hst. destruct (row_changed_lookup _ _ _ _ _ _ Hch Hc') as [[-> ->]|[Hne Hold]].
    + exists i, t, ri', d. cbn. done.
    + destruct (H2 id rc' Hold Hst) as (j & t' & rj & dj & Hred & Hj & Hdj & Hcd). exists j, t', rj, dj. split; [done|]. split; [|done].
      rewrite Hother; [done|]. intros ->. rewrite Hj in Hnone. congruence.
Qed.

Lemma effect_coupon_ok s s' : effect s s' -> coupon_ok s -> coupon_ok s'.
Proof.
  intros He Hok. destruct He as [E1 E2|id t p E1 _ Hn Hst Hred|r p' E1 _ Hc Hiss Hst1 Hst2 Hred|id t p E Hn _ _ _ Hd|r p' to action E Hc _ _ _ _ _ Hd|rc ri d Hr Hc _ _ Hnone _|id t p Hn _ _ Hd].
  - unfold coupon_ok in *. by rewrite E1, E2.
  - destruct Hok as [H1 H2]. split; rewrite E1.
    + intros i ri d Hi Hd. destruct (H1 i ri d Hi Hd) as (rc & t' & Hrc & ? & ?). exists rc, t'. split; [|done]. destruct Hn as [Hnone Hl]. rewrite Hl.
      rewrite bool_decide_false; [done|]. intros Eid. rewrite Eid in Hrc. congruence.
    + intros c rc Hrc Hs. destruct (row_new_lookup _ _ _ _ _ _ _ Hn Hrc) as [[-> ->]|[_ Hold]]; [cbn in Hs; congruence|by apply H2].
  - destruct Hok as [H1 H2]. split; rewrite E1.
    + intros i ri d Hi Hd. destruct (H1 i ri d Hi Hd) as (rc & t' & Hrc & ? & ?). exists rc, t'. split; [|done]. destruct Hc as [Hcur Hl]. rewrite Hl.
      rewrite bool_decide_false; [done|]. intros Eid. rewrite Eid, Hcur in Hrc. injection Hrc as <-. congruence.
    + intros c rc Hrc Hs. destruct (row_changed_lookup _ _ _ _ _ _ Hc Hrc) as [[-> ->]|[_ Hold]]; [cbn in Hs; congruence|by apply H2].
  - eapply coupon_ok_invoices; [exact E| | |exact Hok].
    + intros i ri Hi. destruct (row_new_lookup _ _ _ _ _ _ _ Hn Hi) as [[-> ->]|[_ ?]]; [by left|right; eauto].
    + intros i r0 H0. destruct Hn as [Hnone Hl]. exists r0. split; [|done]. rewrite Hl, bool_decide_false; [done|]. intros ->. congruence.
  - eapply coupon_ok_invoices; [exact E| | |exact Hok].
    + intros i ri Hi. destruct (row_changed_lookup _ _ _ _ _ _ Hc Hi) as [[-> ->]|[_ ?]]; right; [|by eauto]. exists r. split; [apply Hc|done].
    + intros i r0 H0. destruct Hc as [Hcur Hl]. rewrite Hl. case_bool_decide; [|by eauto]. subst. rewrite Hcur in H0. injection H0 as <-. by eexists.
  - eapply (coupon_ok_redeemed s s' (row_id ri)); [exact Hr| | | |exact Hok].
    + destruct Hc as [_ Hl]. rewrite Hl, bool_decide_true by done. by eexists.
    + destruct Hc as [-> _]. done.
    + intros j Hj. destruct Hc as [_ Hl]. by rewrite Hl, bool_decide_false.
  - destruct (iv_discount p) as [d|] eqn:Hdp.
    + destruct Hd as [(rc & Hr) _]. eapply (coupon_ok_redeemed s s' id); [exact Hr| | | |exact Hok].
      * destruct Hn as [_ Hl]. rewrite Hl, bool_decide_true by done. by eexists.
      * destruct Hn as [-> _]. done.
      * intros j Hj. destruct Hn as [_ Hl]. by rewrite Hl, bool_decide_false.
    + destruct Hd as [E _]. eapply coupon_ok_invoices; [exact E| | |exact Hok].
      * intros i ri Hi. destruct (row_new_lookup _ _ _ _ _ _ _ Hn Hi) as [[-> ->]|[_ ?]]; [by left|right; eauto].
      * intros i r0 H0. destruct Hn as [Hnone Hl]. exists r0. split; [|done]. rewrite Hl, bool_decide_false; [done|]. intros ->. congruence.
Qed.

(** ** Properties *)

Definition empty_billing : BillingStore := mkBilling [] [] [] [] [] [].

Lemma empty_billing_ok : store_ok empty_billing.
Proof. split; [|by intros r ?%elem_of_nil]. split_and!; (split; [constructor|by intros r ?%elem_of_nil]). Qed.

Lemma billing_run_ok l x : run_actions (il_do exec) l (mkInterleaved empty_billing []) = Some x -> store_ok (il_store x) /\ coupon_ok (il_store x).
Proof.
  intros Hl. apply (il_invariant exec (fun s => store_ok s /\ coupon_ok s) billing_evolve l empty_billing); [apply _| |split; [exact empty_billing_ok|]|exact Hl].
  - intros t snaps s s' [Hok Hc] Hsn He. destruct (exec_ok t snaps s s' Hok) as (Hok' & Hev & Heff); [|done|].
    { eapply Forall_impl; [exact Hsn|]. intros s1 [[? _] ?]. by split. }
    split; [|done]. split; [done|]. by eapply effect_coupon_ok.
  - split; intros; done.
Qed.

(** C11: a coupon is spent on one invoice. However Licensing's transactions interleave, each committing on
    rows others may have changed since it read them, retried or cut short: an invoice's discount names a
    redeemed coupon whose redemption names that invoice, a redeemed coupon's invoice has its discount, no
    two invoices carry the same coupon, and what a coupon takes off is never more than the lines' sum. *)
Theorem coupon_is_spent_on_one_invoice l x :
  run_actions (il_do exec) l (mkInterleaved empty_billing []) = Some x ->
  let s := il_store x in
  (forall i ri d, row_of i (bs_invoices s) = Some ri -> iv_discount (row_props ri) = Some d ->
     0 <= id_amountMinor d <= lines_minor (iv_lineItems (row_props ri)) /\
     (exists rc at_, row_of (id_couponRef d) (bs_coupons s) = Some rc /\ cp_status (row_props rc) = cs_redeemed /\
        cp_redemption (row_props rc) = Some (mkRedemption i at_)) /\
     forall j rj dj, row_of j (bs_invoices s) = Some rj -> iv_discount (row_props rj) = Some dj -> id_couponRef dj = id_couponRef d -> j = i) /\
  (forall c rc, row_of c (bs_coupons s) = Some rc -> cp_status (row_props rc) = cs_redeemed ->
     exists i at_ ri d, cp_redemption (row_props rc) = Some (mkRedemption i at_) /\ row_of i (bs_invoices s) = Some ri /\
       iv_discount (row_props ri) = Some d /\ id_couponRef d = c).
Proof.
  intros [[_ Hinv] [H1 H2]]%billing_run_ok. cbn. split; [|exact H2]. intros i ri d Hi Hd. split; [|split].
  - apply row_of_Some in Hi as [Hi _]. destruct (Hinv _ Hi) as (_ & _ & _ & Hb). unfold discount_minor in Hb. by rewrite Hd in Hb.
  - by eapply H1.
  - intros j rj dj Hj Hdj E. destruct (H1 i ri d Hi Hd) as (rc & t & Hc & _ & Hr), (H1 j rj dj Hj Hdj) as (rc' & t' & Hc' & _ & Hr').
    rewrite E, Hc in Hc'. injection Hc' as <-. rewrite Hr in Hr'. congruence.
Qed.

(** Two workers redeem one coupon onto two drafts: both have read it when the first commits, so the second
    can only start again. *)
Definition sample_call (tx : BillingTx) (prefix : string) (now : Z) : TxCall := mkTxCall tx (fun n => prefix +:+ show_nat n) now "platform".
Definition sample_redemptions : list (Action TxCall) :=
  [Begin (sample_call (TxIssueCoupon "SAVE" (in_fixed (NInt 300) "USD") 100 None) "c" 1); Read 0; Commit 0;
   Begin (sample_call (TxCreateInvoice "m1" "s1" "USD" [mkInvoiceLine "one" (NInt 1000)]) "i" 2); Commit 0;
   Begin (sample_call (TxCreateInvoice "m2" "s2" "USD" [mkInvoiceLine "two" (NInt 500)]) "j" 3); Commit 0;
   Begin (sample_call (TxRedeemCoupon "save" "i0") "r" 4); Begin (sample_call (TxRedeemCoupon "SAVE" "j0") "q" 4);
   Read 0; Read 1; Read 0; Read 1; Commit 1; Again 0; Read 0; Read 0].
Definition sample_redeemed : Interleaved :=
  default (mkInterleaved empty_billing []) (run_actions (il_do exec) sample_redemptions (mkInterleaved empty_billing [])).

Lemma coupon_is_spent_on_one_invoice_witness :
  il_do exec (Commit 0) sample_redeemed = None /\ (row_version <$> bs_invoices (il_store sample_redeemed)) = [1; 2] /\
  (forall i ri d, row_of i (bs_invoices (il_store sample_redeemed)) = Some ri -> iv_discount (row_props ri) = Some d ->
     0 <= id_amountMinor d <= lines_minor (iv_lineItems (row_props ri)) /\
     (exists rc at_, row_of (id_couponRef d) (bs_coupons (il_store sample_redeemed)) = Some rc /\ cp_status (row_props rc) = cs_redeemed /\
        cp_redemption (row_props rc) = Some (mkRedemption i at_)) /\
     forall j rj dj, row_of j (bs_invoices (il_store sample_redeemed)) = Some rj -> iv_discount (row_props rj) = Some dj -> id_couponRef dj = id_couponRef d -> j = i).
Proof.
  split; [vm_compute; reflexivity|]. split; [vm_compute; reflexivity|].
  apply (coupon_is_spent_on_one_invoice sample_redemptions sample_redeemed). vm_compute. reflexivity.
Defined.

(** ** A callback delivered again *)

Lemma saved_method s (r : Row PaymentMethodProps) (a : BillingPaymentMethod) t :
  billing_wf s -> r ∈ bs_methods s -> row_tenant r = t -> agg_id a = row_id r -> agg_version a = row_version r ->
  exists s' x, saveMethod a t s = (Ok tt, s') /\ row_of (row_id r) (bs_methods s') = Some x /\ bm_status (row_props x) = bm_status (agg_props a).
Proof.
  intros (_&_&_&_&Hw) Hr Ht Hi Hv. assert (Hrow := row_of_elem _ _ (proj1 Hw) Hr).
  assert (Hx : exists s', saveMethod a t s = (Ok tt, s')) by (unfold saveMethod, save_row; apply (save_current _ _ _ _ r); [done|by rewrite Hi|done|done]).
  destruct Hx as (s' & Hs). exists s'. assert (Hs' := Hs). unfold saveMethod, save_row in Hs'. apply save_row_for_Ok in Hs' as (_ & _ & Hl & _); [|done].
  eexists. split; [done|]. cbn in Hl. rewrite Hl, Hi, bool_decide_true by done. split; [reflexivity|]. unfold saved_row. rewrite Hi. by rewrite Hrow.
Qed.

(** A callback delivered again revokes the card. The token callback of an enrolment whose card was
    replaced is refused, but only after the merchant's active card was revoked and saved, and the refusal
    is returned from inside the transaction, which commits it: the merchant is left without a card. *)
Theorem replayed_card_callback_revokes_the_card {Psp Ledger} now v seal t (w : World Psp Ledger) m c sealedToken :
  billing_wf (wd_billing w) -> findByProviderOrder BILLING_PROVIDER (ct_providerOrderId v) t (wd_billing w) = Some m ->
  bm_status (agg_props m) = pm_revoked -> findActiveByTenantRef (bm_tenantRef (agg_props m)) t (wd_billing w) = Some c ->
  seal (bm_tenantRef (agg_props m)) (ct_token v) = Ok sealedToken ->
  exists w' r, RecordCardToken now (Some v) seal t w = (Err (BusinessRuleError "Cannot activate a revoked payment method"), w') /\
    row_of (agg_id c) (bs_methods (wd_billing w')) = Some r /\ bm_status (row_props r) = pm_revoked.
Proof.
  intros Hw Hm Hrev Hc Hseal. assert (Hc' := Hc). apply find_where_Some in Hc' as (rc & Hrc & Hf & ->). apply andb_true_iff in Hf as [Hf Hact%bool_decide_eq_true].
  apply andb_true_iff in Hf as [Ht%bool_decide_eq_true _].
  assert (Hne : agg_id (rehydrate (E := LicensingChanged) rc) <> agg_id m).
  { apply find_where_Some in Hm as (rm & Hrm & _ & ->). cbn in *. intros E. assert (rc = rm) as -> by (eapply (NoDup_fmap_elem row_id (bs_methods (wd_billing w))); [apply Hw|done..]). congruence. }
  set (card := rehydrate (E := LicensingChanged) rc) in *. assert (Hcall : run_on card (method_revoke now) = Ok (mkAgg (agg_id card) (agg_version card) (agg_events card)
    (let p := row_props rc in mkMethod (bm_tenantRef p) (bm_provider p) (bm_providerOrderId p) (bm_invoiceRef p) pm_revoked
       (bm_tokenId p) (bm_sealedToken p) (bm_maskedPan p) (bm_cardSubtype p) (bm_createdAt p) now))).
  { unfold run_on, method_revoke. rewrite gets_bind. change (agg_props card) with (row_props rc). rewrite Hact. done. }
  match type of Hcall with _ = Ok ?a => destruct (saved_method _ rc a t Hw Hrc Ht eq_refl eq_refl) as (s' & x & Hs & Hx & Hst) end.
  assert (Hstore : storeCardToken now v sealedToken t (wd_billing w) (wd_billing w) (wd_billing w) =
    (Err (BusinessRuleError "Cannot activate a revoked payment method"), s')).
  { unfold storeCardToken. rewrite Hm, require_found. rewrite Hrev, Hc, (bool_decide_false (pm_revoked = pm_active)), (bool_decide_false (agg_id card = agg_id m)) by done. cbn [andb].
    cbv beta iota. unfold call. rewrite Hcall. erewrite run_bind; [|erewrite run_bind by reflexivity; exact Hs].
    unfold run_on, method_activate. rewrite gets_bind, Hrev. done. }
  exists (mkWorld s' (wd_psp w) (wd_ledger w)), x. split; [|split; [exact Hx|by rewrite Hst]].
  unfold RecordCardToken. rewrite gets_bind, Hm. erewrite run_bind by (unfold lift; by rewrite Hseal).
  erewrite run_bind; [|unfold on_billing, in_txn, catching; rewrite Hstore; reflexivity]. done.
Qed.

Definition sample_cards : BillingStore := mkBilling [] [] [] []
  [mkRow "platform" "c0" 3 (mkMethod "m1" BILLING_PROVIDER "o1" (Some "i0") pm_revoked (Some "t1") (Some "sealed1") None None 1 2);
   mkRow "platform" "c1" 2 (mkMethod "m1" BILLING_PROVIDER "o2" (Some "i1") pm_active (Some "t2") (Some "sealed2") None None 2 2)] [].

Definition sample_method : PaymentMethodProps := mkMethod "m1" BILLING_PROVIDER "o1" None pm_pending None None None None 1 1.

Lemma replayed_card_callback_revokes_the_card_witness :
  exists w' r, RecordCardToken 9 (Some (mkCardToken "t1" "tok1" "o1" "xxxx" "visa")) (fun _ s => Ok s) "platform" (mkWorld sample_cards tt tt) =
      (Err (BusinessRuleError "Cannot activate a revoked payment method"), w') /\
    row_of "c1" (bs_methods (wd_billing w')) = Some r /\ bm_status (row_props r) = pm_revoked.
Proof.
  eapply (replayed_card_callback_revokes_the_card 9 (mkCardToken "t1" "tok1" "o1" "xxxx" "visa") (fun _ s => Ok s) "platform" (mkWorld sample_cards tt tt)
    (default (mkAgg "" 0 [] sample_method) (findByProviderOrder BILLING_PROVIDER "o1" "platform" sample_cards))
    (default (mkAgg "" 0 [] sample_method) (findActiveByTenantRef "m1" "platform" sample_cards)));
    [|vm_compute; reflexivity|vm_compute; reflexivity|vm_compute; reflexivity|vm_compute; reflexivity].
  split_and!; (split; [|intros r; cbn; rewrite ?elem_of_cons, ?elem_of_nil; intuition (subst; cbn; lia)]); try constructor; try apply NoDup_singleton.
  intros ?%list_elem_of_singleton. done.
Defined.
