(* ===== verification/BillingCharges.v ===== *)
(** The charges that collecting invoices makes: [CollectInvoice] of [billing.use-cases.ts] split at its
    transactions ([precheck], the PSP call, [settleSuccess] or [settleFailure]), run by any number of
    workers among the other transactions of Licensing (BillingSafety.v), with crashes, lost answers and
    retries. Nothing is assumed of the PSP: a call it answers or fails, or that nobody hears of again, may
    have charged the card or not, under a key it was charged under before or not. *)
From S2P Require Import Prelude Kernel Store Plans Invoices BillingFlow BillingSafety.

#[global] Open Scope Z_scope.

(** ** The system *)

(** A collection past its precheck. *)
Record Collector := mkCollector { cl_invoice : string; cl_tenant : string; cl_pc : CollectPrecheck }.
(** A charge the PSP made; [cg_version] is the version its key was derived from. *)
Record Charge := mkCharge {
  cg_key : string; cg_payer : string; cg_amount : Z; cg_currency : string; cg_reference : string; cg_invoice : string; cg_version : Z }.
Record Collecting := mkCollecting {
  co_il : Interleaved (S := BillingStore) (Tx := TxCall); co_collectors : list Collector; co_charges : list Charge }.
Definition co_store (st : Collecting) : BillingStore := il_store (co_il st).

(** How the PSP's call ends: it resolves with a reference, having charged the card now or not (a replay of
    an earlier charge), or it throws, having charged it or not. *)
Inductive Answer := Resolved (reference : string) (charged : bool) | Threw (charged : option string).
Definition charge_for (cl : Collector) (reference : string) : Charge :=
  let pc := cl_pc cl in
  mkCharge (collect_key (cl_invoice cl) (pc_version pc)) (pc_tenantRef pc) (pc_totalMinor pc) (pc_currency pc) reference
    (cl_invoice cl) (pc_version pc).
Definition charged_by (ans : Answer) : option string :=
  match ans with Resolved reference charged => if charged then Some reference else None | Threw charged => charged end.
Definition outcome_of (ans : Answer) : option string :=
  match ans with Resolved reference _ => Some reference | Threw _ => None end.
(** The PSP's record after a call of [cl] that charged under [charged], if it did. *)
Definition charged_to (cl : Collector) (charged : option string) (charges : list Charge) : list Charge :=
  match charged with Some reference => charges ++ [charge_for cl reference] | None => charges end.

Definition settles (t : BillingTx) : bool := match t with TxSettleSuccess _ _ | TxSettleFailure _ => true | _ => false end.

(** Transactions are those of BillingSafety.v, the two that settle beginning only after the PSP answered. *)
Inductive CollectAction :=
| Transaction (a : Action TxCall)
| Precheck (invoiceId tenantId : string)
| SettleFree (invoiceId tenantId : string) (gen : nat -> string) (now : Z)
| Answered (i : nat) (ans : Answer) (gen : nat -> string) (now : Z)
| Crash (i : nat) (charged : option string).

Definition co_do (a : CollectAction) (st : Collecting) : option Collecting :=
  let il := co_il st in
  let begin c := mkInterleaved (il_store il) (il_pending il ++ [(c, [])]) in
  match a with
  | Transaction a =>
      if (match a with Begin c => settles (tc_tx c) | _ => false end) then None
      else il' ← il_do exec a il; Some (mkCollecting il' (co_collectors st) (co_charges st))
  | Precheck id t =>
      match precheck id t (co_store st) with
      | Ok pc => if pc_alreadyPaid pc || bool_decide (pc_zeroDueReference pc <> None) then None
                 else Some (mkCollecting il (co_collectors st ++ [mkCollector id t pc]) (co_charges st))
      | Err _ => None
      end
  | SettleFree id t gen now =>
      match precheck id t (co_store st) with
      | Ok pc => reference ← pc_zeroDueReference pc;
                 Some (mkCollecting (begin (mkTxCall (TxSettleSuccess id reference) gen now t)) (co_collectors st) (co_charges st))
      | Err _ => None
      end
  | Answered i ans gen now =>
      cl ← co_collectors st !! i;
      let tx := match outcome_of ans with Some reference => TxSettleSuccess (cl_invoice cl) reference | None => TxSettleFailure (cl_invoice cl) end in
      Some (mkCollecting (begin (mkTxCall tx gen now (cl_tenant cl))) (delete i (co_collectors st))
        (charged_to cl (charged_by ans) (co_charges st)))
  | Crash i charged =>
      cl ← co_collectors st !! i;
      Some (mkCollecting il (delete i (co_collectors st)) (charged_to cl charged (co_charges st)))
  end.

Definition co_start : Collecting := mkCollecting (mkInterleaved empty_billing []) [] [].

(** ** Accounting for charges by the times an invoice was issued *)

Definition times (id action : string) (s : BillingStore) : nat := length (filter (fun e => e = (id, action)) (invoice_log s)).

(** [vs] are the versions at which the invoice became issued. *)
Definition issued_at (vs : list Z) (id : string) (s : BillingStore) : Prop :=
  length vs = times id "issued" s /\
  match row_of id (bs_invoices s) with
  | None => vs = [] /\ times id "failed" s = 0%nat
  | Some r =>
      (forall v, v ∈ vs -> v <= row_version r) /\ (iv_status (row_props r) = is_issued -> row_version r ∈ vs) /\
      match iv_status (row_props r) with
      | is_draft => vs = [] /\ times id "failed" s = 0%nat
      | is_issued | is_paid => times id "issued" s = S (times id "failed" s)
      | is_failed => times id "issued" s = times id "failed" s
      | is_voided => (times id "issued" s <= S (times id "failed" s))%nat
      end
  end.

(** What a collection asks for is what the invoice says, and its key is of a version it was issued at. *)
Definition billed (vs : list Z) (s : BillingStore) (id : string) (v amount : Z) (payer currency : string) : Prop :=
  v ∈ vs /\ exists r, row_of id (bs_invoices s) = Some r /\ iv_status (row_props r) <> is_draft /\
    totalMinor (row_props r) = Ok amount /\ iv_tenantRef (row_props r) = payer /\ iv_currency (row_props r) = currency.

Definition collecting_inv (st : Collecting) : Prop :=
  let s := co_store st in
  store_ok s /\ il_seen store_ok billing_evolve (co_il st) /\
  (forall c, c ∈ co_charges st -> cg_key c = collect_key (cg_invoice c) (cg_version c)) /\
  exists vs : string -> list Z,
    (forall id, issued_at (vs id) id s) /\
    (forall c, c ∈ co_charges st -> billed (vs (cg_invoice c)) s (cg_invoice c) (cg_version c) (cg_amount c) (cg_payer c) (cg_currency c)) /\
    (forall cl, cl ∈ co_collectors st -> let pc := cl_pc cl in
       billed (vs (cl_invoice cl)) s (cl_invoice cl) (pc_version pc) (pc_totalMinor pc) (pc_tenantRef pc) (pc_currency pc)).

Lemma times_log id action s s' l : invoice_log s' = invoice_log s ++ l ->
  times id action s' = (times id action s + length (filter (fun e => e = (id, action)) l))%nat.
Proof. unfold times. intros ->. by rewrite filter_app, length_app. Qed.

Lemma times_other id action s s' l : invoice_log s' = invoice_log s ++ l -> id ∉ l.*1 -> times id action s' = times id action s.
Proof.
  intros Hl Hn. rewrite (times_log _ _ _ _ _ Hl), filter_none; [cbn; lia|]. intros x Hx ->. apply Hn. by apply (list_elem_of_fmap_2 fst) in Hx.
Qed.

(** An invoice whose row and events a step leaves alone. *)
Lemma issued_at_same vs id s s' : row_of id (bs_invoices s') = row_of id (bs_invoices s) ->
  (forall action, times id action s' = times id action s) -> issued_at vs id s -> issued_at vs id s'.
Proof. intros Er Et. unfold issued_at. by rewrite Er, !Et. Qed.

(** The versions after a step: one more when the step issued the invoice. *)
Definition step_versions (vs : list Z) (id : string) (s s' : BillingStore) : list Z :=
  if bool_decide (times id "issued" s' = times id "issued" s) then vs
  else match row_of id (bs_invoices s') with Some r => vs ++ [row_version r] | None => vs end.

Lemma step_versions_same vs id s s' : times id "issued" s' = times id "issued" s -> step_versions vs id s s' = vs.
Proof. intros H. unfold step_versions. by rewrite bool_decide_true. Qed.
Lemma step_versions_sub vs id s s' v : v ∈ vs -> v ∈ step_versions vs id s s'.
Proof. unfold step_versions. intros H. case_bool_decide; [done|]. destruct (row_of _ _); [|done]. apply elem_of_app. by left. Qed.

Lemma moved_issued_at vs r p' to action s s' :
  row_changed r p' (bs_invoices s) (bs_invoices s') -> invoice_log s' = invoice_log s ++ [(row_id r, action)] ->
  (to, action) ∈ invoice_moves -> to ∈ INVOICE_TRANSITIONS (iv_status (row_props r)) -> iv_status p' = to ->
  issued_at vs (row_id r) s -> issued_at (step_versions vs (row_id r) s s') (row_id r) s'.
Proof.
  intros [Hcur Hl] Hlog Hm Hto Hst [Hlen Hi]. rewrite Hcur in Hi. destruct Hi as (Hle & _ & Hcount).
  assert (Hrow : row_of (row_id r) (bs_invoices s') = Some (mkRow (row_tenant r) (row_id r) (row_version r + 1) p')) by (rewrite Hl; by rewrite bool_decide_true).
  assert (Ti := times_log (row_id r) "issued" _ _ _ Hlog). assert (Tf := times_log (row_id r) "failed" _ _ _ Hlog).
  unfold step_versions, issued_at. rewrite Hrow. cbn [row_props row_version]. rewrite Hst.
  unfold invoice_moves in Hm. rewrite !elem_of_cons, elem_of_nil in Hm.
  destruct Hm as [[= -> ->]|[[= -> ->]|[[= -> ->]|[]]]]; rewrite filter_cons in Ti, Tf; cbn [filter list_filter length] in Ti, Tf.
  - rewrite decide_True in Ti by done. rewrite decide_False in Tf by (intros [=]). cbn in Ti, Tf. rewrite bool_decide_false by lia. rewrite length_app. cbn.
    split; [lia|]. split; [intros v [Hv| ->%list_elem_of_singleton]%elem_of_app; [specialize (Hle v Hv)|]; lia|].
    split; [intros _; apply elem_of_app; right; left|].
    destruct (iv_status (row_props r)); cbn in Hto; rewrite ?elem_of_cons, ?elem_of_nil in Hto; destruct_or?; try done; (first [lia | destruct Hcount as [Hvs Hf0]; subst vs; cbn in Hlen; lia]).
  - rewrite decide_False in Ti by (intros [=]). rewrite decide_False in Tf by (intros [=]). cbn in Ti, Tf. rewrite bool_decide_true by lia.
    split; [lia|]. split; [intros v Hv; specialize (Hle v Hv); lia|]. split; [done|].
    destruct (iv_status (row_props r)); cbn in Hto; rewrite ?elem_of_cons, ?elem_of_nil in Hto; destruct_or?; try done; lia.
  - rewrite decide_False in Ti by (intros [=]). rewrite decide_True in Tf by done. cbn in Ti, Tf. rewrite bool_decide_true by lia.
    split; [lia|]. split; [intros v Hv; specialize (Hle v Hv); lia|]. split; [done|].
    destruct (iv_status (row_props r)); cbn in Hto; rewrite ?elem_of_cons, ?elem_of_nil in Hto; destruct_or?; try done; lia.
Qed.

Lemma effect_issued_at vs id s s' : effect s s' -> issued_at vs id s -> issued_at (step_versions vs id s s') id s'.
Proof.
  intros He Hi. assert (Hsame : row_of id (bs_invoices s') = row_of id (bs_invoices s) -> (forall a, times id a s' = times id a s) ->
    issued_at (step_versions vs id s s') id s') by (intros Er Et; rewrite step_versions_same by apply Et; by apply (issued_at_same _ _ s)).
  assert (Hlogsame : invoice_log s' = invoice_log s -> forall a, times id a s' = times id a s) by (intros E a; unfold times; by rewrite E).
  destruct He as [E1 _ E3|j t p E1 E3 _ _ _|r p' E1 E3 _ _ _ _ _|j t p _ Hn Hlog _ Hst _|r p' to action _ Hc Hlog Hm Hto Hst _ _|rc ri d _ Hc Hlog Hd _ _|j t p Hn Hst _ Hd].
  - apply Hsame; [by rewrite E1|by apply Hlogsame].
  - apply Hsame; [by rewrite E1|by apply Hlogsame].
  - apply Hsame; [by rewrite E1|by apply Hlogsame].
  - destruct (decide (id = j)) as [-> |Hne].
    + destruct Hi as [Hlen Hi]. destruct Hn as [Hnone Hl]. rewrite Hnone in Hi. destruct Hi as [-> Hf].
      assert (Ti := times_log j "issued" _ _ _ Hlog). assert (Tf := times_log j "failed" _ _ _ Hlog).
      rewrite filter_cons, decide_False in Ti by (intros [=]). rewrite filter_cons, decide_False in Tf by (intros [=]). cbn in Ti, Tf, Hlen. rewrite step_versions_same by lia.
      split; [cbn; lia|]. rewrite Hl, bool_decide_true by done. cbn. rewrite Hst. split; [by intros v ?%elem_of_nil|]. split; [done|]. split; [done|lia].
    + apply Hsame; [destruct Hn as [_ ->]; by rewrite bool_decide_false|]. intros a. apply (times_other _ _ _ _ _ Hlog). intros ?%list_elem_of_singleton. done.
  - destruct (decide (id = row_id r)) as [-> |Hne].
    + by eapply moved_issued_at.
    + apply Hsame; [destruct Hc as [_ ->]; by rewrite bool_decide_false|]. intros a. apply (times_other _ _ _ _ _ Hlog). intros ?%list_elem_of_singleton. done.
  - destruct (decide (id = row_id ri)) as [-> |Hne].
    + destruct Hi as [Hlen Hi]. destruct Hc as [Hcur Hl]. rewrite Hcur, Hd in Hi. destruct Hi as (_ & _ & -> & Hf).
      assert (Ti := times_log (row_id ri) "issued" _ _ _ Hlog). assert (Tf := times_log (row_id ri) "failed" _ _ _ Hlog).
      rewrite filter_cons, decide_False in Ti by (intros [=]). rewrite filter_cons, decide_False in Tf by (intros [=]). cbn in Ti, Tf, Hlen. rewrite step_versions_same by lia.
      split; [cbn; lia|]. rewrite Hl, bool_decide_true by done. cbn. rewrite Hd. split; [by intros v ?%elem_of_nil|]. split; [done|]. split; [done|lia].
    + apply Hsame; [destruct Hc as [_ ->]; by rewrite bool_decide_false|]. intros a. apply (times_other _ _ _ _ _ Hlog). intros ?%list_elem_of_singleton. done.
  - assert (exists l, invoice_log s' = invoice_log s ++ l /\ (forall x, x ∈ l.*1 -> x = j) /\ length (filter (fun e => e = (j, "issued")) l) = 1%nat /\
      length (filter (fun e => e = (j, "failed")) l) = 0%nat) as (l & Hlog & Hall & H1 & H0).
    { assert (Hf : forall a, a <> "issued" -> (j, a) <> (j, "issued")) by (intros a Ha [=]; done).
      destruct (iv_discount p); destruct Hd as [_ Hlog]; eexists; (split; [exact Hlog|]); (split;
        [cbn; intros x; rewrite !elem_of_cons, elem_of_nil; tauto|]); rewrite !filter_cons; repeat (first [rewrite decide_False by (intros [=])|rewrite decide_True by done]); done. }
    destruct (decide (id = j)) as [-> |Hne].
    + destruct Hi as [Hlen Hi]. destruct Hn as [Hnone Hl]. rewrite Hnone in Hi. destruct Hi as [-> Hf].
      assert (Ti := times_log j "issued" _ _ _ Hlog). assert (Tf := times_log j "failed" _ _ _ Hlog). cbn in Hlen.
      unfold step_versions. rewrite bool_decide_false by lia. rewrite Hl, bool_decide_true by done. cbn.
      split; [cbn; lia|]. rewrite Hl, bool_decide_true by done. cbn. rewrite Hst. split; [intros v ->%list_elem_of_singleton; lia|]. split; [intros _; left|lia].
    + apply Hsame; [destruct Hn as [_ ->]; by rewrite bool_decide_false|]. intros a. apply (times_other _ _ _ _ _ Hlog). intros Hx%Hall. done.
Qed.

Lemma effect_billed vs s s' id v amount payer currency :
  effect s s' -> billed vs s id v amount payer currency -> billed (step_versions vs id s s') s' id v amount payer currency.
Proof.
  intros He (Hv & r & Hr & Hd & Ht & Hp & Hc). split; [by apply step_versions_sub|].
  assert (Hsame : bs_invoices s' = bs_invoices s -> exists r', row_of id (bs_invoices s') = Some r' /\ iv_status (row_props r') <> is_draft /\
    totalMinor (row_props r') = Ok amount /\ iv_tenantRef (row_props r') = payer /\ iv_currency (row_props r') = currency) by (intros ->; eauto 10).
  destruct He as [E1 _ _|j t p E1 _ _ _ _|r0 p' E1 _ _ _ _ _ _|j t p _ [Hn Hl] _ _ _ _|r0 p' to action _ [Hcur Hl] _ Hm _ Hst (F1 & F2 & F3 & F4) Hdd|rc ri d _ [Hcur Hl] _ Hdr _ _|j t p [Hn Hl] _ _ _];
    [by apply Hsame|by apply Hsame|by apply Hsame|..]; rewrite Hl; case_bool_decide; subst; eauto 10; try congruence.
  rewrite Hcur in Hr. injection Hr as ->. eexists. split; [done|]. cbn. split_and!; [|unfold totalMinor, total, subtotal in *; by rewrite Hdd, F3, F4|done|done].
  intros E. rewrite E in Hm. unfold invoice_moves in Hm. rewrite !elem_of_cons, elem_of_nil in Hm. naive_solver.
Qed.

Lemma precheck_billed vs s id t pc : store_ok s -> issued_at vs id s -> precheck id t s = Ok pc -> pc_alreadyPaid pc = false ->
  pc_zeroDueReference pc = None -> billed vs s id (pc_version pc) (pc_totalMinor pc) (pc_tenantRef pc) (pc_currency pc).
Proof.
  intros [Hw _] Hi H Hap Hz. unfold precheck in H. destruct (findInvoice id t s) as [a|] eqn:Ha; [|done].
  apply findInvoice_Some in Ha as (r & Hr & <- & ->). cbn in H. minv. case_bool_decide; [injection H as <-; done|].
  case_bool_decide as Hst; [|done]. cbn in H. assert (Hrow := row_of_elem _ _ (proj1 (proj1 (proj2 (proj2 Hw)))) Hr).
  destruct Hi as [_ Hi]. rewrite Hrow in Hi. destruct Hi as (_ & Hiss & _). assert (Hv := Hiss Hst).
  case_bool_decide as Hzero.
  - destruct (isFullyDiscounted _) as [fr|]; [|done]. cbn in H. destruct fr; [|done]. destruct (iv_discount _); [|done]. injection H as <-. done.
  - injection H as <-. cbn. split; [done|]. exists r. split_and!; [done|congruence|done|done|done].
Qed.

(** ** The invariant *)

Lemma collecting_inv_store st il : co_il st = il -> collecting_inv st -> collecting_inv (mkCollecting il (co_collectors st) (co_charges st)).
Proof. by intros <-. Qed.

(** A charge is of what its collection asks for. *)
Lemma charged_ok (vs : string -> list Z) s cl charged chs :
  (forall c, c ∈ chs -> cg_key c = collect_key (cg_invoice c) (cg_version c)) ->
  (forall c, c ∈ chs -> billed (vs (cg_invoice c)) s (cg_invoice c) (cg_version c) (cg_amount c) (cg_payer c) (cg_currency c)) ->
  billed (vs (cl_invoice cl)) s (cl_invoice cl) (pc_version (cl_pc cl)) (pc_totalMinor (cl_pc cl)) (pc_tenantRef (cl_pc cl)) (pc_currency (cl_pc cl)) ->
  (forall c, c ∈ charged_to cl charged chs -> cg_key c = collect_key (cg_invoice c) (cg_version c)) /\
  (forall c, c ∈ charged_to cl charged chs -> billed (vs (cg_invoice c)) s (cg_invoice c) (cg_version c) (cg_amount c) (cg_payer c) (cg_currency c)).
Proof.
  intros Hk Hc Hb. destruct charged as [reference|]; [|done]. cbn.
  split; intros c [?| ->%list_elem_of_singleton]%elem_of_app; auto.
Qed.

Lemma collecting_step a st st' : collecting_inv st -> co_do a st = Some st' -> collecting_inv st'.
Proof.
  intros (Hok & Hseen & Hkeys & vs & Hiss & Hch & Hcl) Ha. destruct st as [il cls chs]. unfold co_store in *. cbn in *.
  assert (Hbegin : forall c, il_seen store_ok billing_evolve (mkInterleaved (il_store il) (il_pending il ++ [(c, [])]))).
  { intros c. unfold il_seen in *. cbn. apply Forall_app. split; [done|]. repeat constructor. }
  destruct a as [a|id t|id t gen now|i ans gen now|i charged]; cbn in Ha; unfold co_store in Ha; cbn in Ha.
  - destruct (match a with Begin c => settles (tc_tx c) | _ => false end); [done|].
    destruct (il_do exec a il) as [il'|] eqn:Hil; [|done]. injection Ha as <-.
    destruct (il_do_seen exec store_ok billing_evolve a il il' _) as (Hok' & Hseen' & Hev); [|done|done|done|].
    { intros t snaps s s' H1 H2 H3. destruct (exec_ok t snaps s s' H1) as (? & ? & _); [|done|done]. exact H2. }
    assert (Heff : effect (il_store il) (il_store il')).
    { destruct a as [t|i|i|i|i]; cbn in Hil; try (destruct (il_pending il !! i) as [[t sn]|] eqn:Hp; [|try done]); cbn in Hil; simplify_eq/=; try by apply eff_none.
      destruct (exec t sn (il_store il)) as [s'|] eqn:He; [|done]. simplify_eq/=. eapply exec_effect; [exact Hok| |exact He].
      exact (Forall_lookup_1 _ _ _ _ Hseen Hp). }
    split; [done|]. split; [done|]. split; [done|]. exists (fun id => step_versions (vs id) id (il_store il) (il_store il')).
    unfold co_store. cbn. split; [intros id; by apply effect_issued_at|]. split; [intros c Hc|intros cl Hc]; (apply effect_billed; [done|]); [exact (Hch c Hc)|exact (Hcl cl Hc)].
  - destruct (precheck id t (il_store il)) as [pc|] eqn:Hpc; [|done]. destruct (pc_alreadyPaid pc) eqn:Hap; [done|]. cbn in Ha.
    case_bool_decide as Hz; [done|]. injection Ha as <-. split; [done|]. split; [done|]. split; [done|].
    exists vs. split; [done|]. split; [done|]. cbn. intros cl [Hin| ->%list_elem_of_singleton]%elem_of_app; [by apply Hcl|]. cbn. by eapply precheck_billed.
  - destruct (precheck id t (il_store il)) as [pc|]; [|done]. cbn in Ha. destruct (pc_zeroDueReference pc) as [ref|]; [|done]. injection Ha as <-.
    split; [done|]. split; [by apply Hbegin|]. split; [done|]. by exists vs.
  - destruct (cls !! i) as [cl|] eqn:Hcli; [|done]. cbn in Ha. injection Ha as <-.
    destruct (charged_ok vs (il_store il) cl (charged_by ans) chs Hkeys Hch (Hcl cl (list_elem_of_lookup_2 _ _ _ Hcli))) as [Hkeys' Hch'].
    split; [done|]. split; [by apply Hbegin|]. split; [done|]. exists vs. split; [done|]. split; [done|]. intros cl' Hc'%delete_elem. by apply Hcl.
  - destruct (cls !! i) as [cl|] eqn:Hcli; [|done]. cbn in Ha. injection Ha as <-.
    destruct (charged_ok vs (il_store il) cl charged chs Hkeys Hch (Hcl cl (list_elem_of_lookup_2 _ _ _ Hcli))) as [Hkeys' Hch'].
    split; [done|]. split; [done|]. split; [done|]. exists vs. split; [done|]. split; [done|]. intros cl' Hc'%delete_elem. by apply Hcl.
Qed.

Lemma collecting_start : collecting_inv co_start.
Proof.
  split; [exact empty_billing_ok|]. split; [constructor|]. split; [by intros c ?%elem_of_nil|]. exists (fun _ => []).
  split; [|split; by intros c ?%elem_of_nil]. intros id. split; [reflexivity|]. cbn. done.
Qed.

Definition charges_of (id : string) (st : Collecting) : list Charge := filter (fun c => cg_invoice c = id) (co_charges st).
Definition failures (id : string) (st : Collecting) : nat := times id "failed" (co_store st).

(** ** Properties *)

(** The keys an invoice is charged under are those of the versions it was issued at. *)
Lemma charged_keys (vs : list Z) id st :
  (forall c, c ∈ co_charges st -> cg_key c = collect_key (cg_invoice c) (cg_version c)) ->
  (forall c, c ∈ co_charges st -> cg_invoice c = id -> cg_version c ∈ vs) ->
  forall k, k ∈ (cg_key <$> charges_of id st) -> k ∈ (collect_key id <$> vs).
Proof.
  intros Hk Hv k (c & -> & [<- Hc]%list_elem_of_filter)%list_elem_of_fmap. rewrite (Hk c Hc). apply list_elem_of_fmap_2. by apply Hv.
Qed.
Lemma NoDup_length_le (l l' : list string) : NoDup l -> (forall k, k ∈ l -> k ∈ l') -> (length l <= length l')%nat.
Proof. intros Hn Hs. by apply submseteq_length, NoDup_submseteq. Qed.

(** C9: an invoice is charged under at most one key more than it failed. Whatever the PSP does (nothing is
    assumed of it: it may charge the card on a call that fails or that nobody hears of again, and more than
    once under one key), and however collections, callbacks, coupons, renewals and retries interleave or
    crash: the keys under which the stored card was charged for an invoice are at most one more than the
    times the invoice was recorded as failed; so a PSP that charges a key at most once makes at most one
    charge while no failure was recorded, and one more per failure. Each charge is of exactly the invoice's
    total, in its currency, to its payer. *)
Theorem charges_bounded_by_failures l st id :
  run_actions co_do l co_start = Some st ->
  (length (remove_dups (cg_key <$> charges_of id st)) <= S (failures id st))%nat /\
  (NoDup (cg_key <$> charges_of id st) -> (length (charges_of id st) <= S (failures id st))%nat) /\
  forall c, c ∈ charges_of id st -> exists r, row_of id (bs_invoices (co_store st)) = Some r /\
    totalMinor (row_props r) = Ok (cg_amount c) /\ cg_payer c = iv_tenantRef (row_props r) /\ cg_currency c = iv_currency (row_props r).
Proof.
  intros Hl. assert (H := run_actions_invariant co_do collecting_inv l co_start st collecting_step collecting_start Hl).
  destruct H as (_ & _ & Hkeys & vs & Hiss & Hch & _).
  assert (Hk : forall k, k ∈ (cg_key <$> charges_of id st) -> k ∈ (collect_key id <$> vs id)).
  { apply charged_keys; [done|]. intros c Hc <-. by apply Hch. }
  assert (Hlen : (length (collect_key id <$> vs id) <= S (failures id st))%nat).
  { rewrite length_fmap. destruct (Hiss id) as [Hlen Hi]. rewrite Hlen. unfold failures. destruct (row_of id _) as [r|] eqn:Hr.
    - destruct Hi as (_ & _ & Hi). destruct (iv_status (row_props r)); try lia. destruct Hi as [E _]. rewrite E in Hlen. cbn in Hlen. lia.
    - destruct Hi as [E _]. rewrite E in Hlen. cbn in Hlen. lia. }
  split; [|split].
  - etransitivity; [|exact Hlen]. apply NoDup_length_le; [apply NoDup_remove_dups|]. intros k Hin. apply Hk. by rewrite elem_of_remove_dups in Hin.
  - intros Hn. rewrite <- (length_fmap cg_key). etransitivity; [|exact Hlen]. by apply NoDup_length_le.
  - intros c [<- Hc]%list_elem_of_filter. destruct (Hch c Hc) as (_ & r & ? & _ & ? & ? & ?). by exists r.
Qed.

(** An invoice whose first answer is lost: it is recorded failed, issued again, and collected again under a
    key derived from its new version. *)
Definition issue_run : list CollectAction :=
  [Transaction (Begin (sample_call (TxCreateInvoice "m1" "s1" "USD" [mkInvoiceLine "renewal" (NInt 1000)]) "i" 1)); Transaction (Commit 0);
   Transaction (Begin (sample_call (TxIssueInvoice "i0") "e" 2)); Transaction (Read 0); Transaction (Commit 0)].
Definition settled_run (prefix reference : string) (now : Z) : list CollectAction :=
  [Precheck "i0" "platform"; Answered 0 (Resolved reference true) (fun n => prefix +:+ show_nat n) now; Transaction (Read 0); Transaction (Commit 0)].
Definition lost_answer_run : list CollectAction :=
  issue_run ++
  [Precheck "i0" "platform"; Answered 0 (Threw (Some "psp-1")) (fun n => "f" +:+ show_nat n) 3; Transaction (Read 0); Transaction (Commit 0);
   Transaction (Begin (sample_call (TxIssueInvoice "i0") "g" 4)); Transaction (Read 0); Transaction (Commit 0)] ++
  settled_run "h" "psp-2" 5.
Definition lost_answer_end : Collecting := default co_start (run_actions co_do lost_answer_run co_start).

Lemma charges_bounded_by_failures_witness :
  length (charges_of "i0" lost_answer_end) = 2%nat /\ failures "i0" lost_answer_end = 1%nat /\
  (length (charges_of "i0" lost_answer_end) <= S (failures "i0" lost_answer_end))%nat /\
  forall c, c ∈ charges_of "i0" lost_answer_end -> exists r, row_of "i0" (bs_invoices (co_store lost_answer_end)) = Some r /\
    totalMinor (row_props r) = Ok (cg_amount c) /\ cg_payer c = iv_tenantRef (row_props r) /\ cg_currency c = iv_currency (row_props r).
Proof.
  split; [vm_compute; reflexivity|]. split; [vm_compute; reflexivity|].
  destruct (charges_bounded_by_failures lost_answer_run lost_answer_end "i0" ltac:(vm_compute; reflexivity)) as (_ & Hn & Hc).
  split; [|exact Hc]. apply Hn. apply (bool_decide_eq_true_1 _). vm_compute. reflexivity.
Defined.

(** A lost answer charges twice. An error from the PSP is taken for a declined charge even when the
    charge was made: the invoice is recorded failed, issuing it again changes its version and with it the
    idempotency key, and collecting it again charges its whole total a second time, under another key. The
    invoice ends paid, naming the second charge only. *)
Theorem lost_answer_charges_twice :
  exists l st r, run_actions co_do l co_start = Some st /\ row_of "i0" (bs_invoices (co_store st)) = Some r /\
    totalMinor (row_props r) = Ok 1000 /\ iv_status (row_props r) = is_paid /\ iv_paymentReference (row_props r) = Some "psp-2" /\
    NoDup (cg_key <$> charges_of "i0" st) /\
    map (fun c => (cg_reference c, cg_amount c)) (charges_of "i0" st) = [("psp-1", 1000); ("psp-2", 1000)].
Proof.
  exists lost_answer_run, lost_answer_end. eexists. split; [vm_compute; reflexivity|]. split; [vm_compute; reflexivity|].
  repeat (split; [vm_compute; reflexivity|]). split; [apply (bool_decide_eq_true_1 _)|]; vm_compute; reflexivity.
Qed.

(** A PSP that does not know its keys charges twice under one. A worker crashes after the card was charged;
    the collection is retried, under the same key, and the card is charged again. No failure is recorded. *)
Definition crashed_run : list CollectAction := issue_run ++ [Precheck "i0" "platform"; Crash 0 (Some "psp-1")] ++ settled_run "h" "psp-2" 5.
Theorem keyless_psp_charges_twice :
  exists l st r, run_actions co_do l co_start = Some st /\ row_of "i0" (bs_invoices (co_store st)) = Some r /\
    totalMinor (row_props r) = Ok 1000 /\ iv_status (row_props r) = is_paid /\ failures "i0" st = 0%nat /\
    map (fun c => (cg_key c, cg_reference c, cg_amount c)) (charges_of "i0" st) =
      [(collect_key "i0" 2, "psp-1", 1000); (collect_key "i0" 2, "psp-2", 1000)].
Proof.
  exists crashed_run, (default co_start (run_actions co_do crashed_run co_start)). eexists. split; [vm_compute; reflexivity|].
  split; [vm_compute; reflexivity|]. repeat split; vm_compute; reflexivity.
Qed.
