(* ===== verification/BillingCalendar.v ===== *)
(** The renewals of Licensing over time: which periods the renewals of a subscription bill, on which
    invoices and at which price, however they interleave with the other transactions of BillingSafety.v. *)
From S2P Require Import Prelude Kernel Store Plans Invoices BillingFlow BillingSafety.

#[global] Open Scope Z_scope.

(** ** Tables a transaction leaves alone *)

Definition keeps {T A} (f : BillingStore -> T) (m : BillingM A) : Prop := forall s r s', m s = (r, s') -> f s' = f s.

Section keeps.
Context {T : Type} (f : BillingStore -> T).
Lemma keep_pure {A} (m : BillingM A) : (forall s, (m s).2 = s) -> keeps f m.
Proof. intros Hm s r s' H. assert (s' = s) as -> by (rewrite <- (Hm s), H; done). done. Qed.
Lemma keep_ret {A} (x : A) : keeps f (mret x).
Proof. by apply keep_pure. Qed.
Lemma keep_lift {A} (r : result A) : keeps f (lift r).
Proof. by apply keep_pure. Qed.
Lemma keep_throw {A} e : keeps f (throw e : BillingM A).
Proof. by apply keep_pure. Qed.
Lemma keep_throw_if b e : keeps f (throw_if b e).
Proof. apply keep_pure. intros s. by destruct b. Qed.
Lemma keep_require {A} m (x : option A) : keeps f (require m x).
Proof. by apply keep_pure. Qed.
Lemma keep_call {P E A} (a : Aggregate P E) (m : M (Aggregate P E) A) : keeps f (call a m).
Proof. by apply keep_pure. Qed.
Lemma keep_bind {A B} (m : BillingM A) (g : A -> BillingM B) : keeps f m -> (forall x, keeps f (g x)) -> keeps f (m ≫= g).
Proof.
  intros Hm Hg s r s' H. unfold mbind, M_bind in H. destruct (m s) as [[x|e] s1] eqn:Hs; [|injection H as <- <-; by eapply Hm].
  rewrite <- (Hm _ _ _ Hs). by eapply Hg.
Qed.
Lemma keep_save {P} `{Table BillingStore P LicensingChanged} acting (a : Aggregate P LicensingChanged) t :
  (forall l e s, f (tbl_publish e (tbl_set l s)) = f s) -> keeps f (save_row_for acting a t).
Proof.
  intros Hf s [u|e] s' Hs; [by apply save_row_for_shape in Hs as (rows & ->)|].
  unfold save_row_for in Hs. cbv zeta in Hs. destruct (bool_decide _) in Hs; destruct (existsb _ _) in Hs; congruence.
Qed.
End keeps.

Create HintDb keeps.
#[export] Hint Resolve keep_ret keep_lift keep_throw keep_throw_if keep_require keep_call : keeps.
#[export] Hint Extern 1 (keeps _ (savePlan _ _)) => (apply keep_save; reflexivity) : keeps.
#[export] Hint Extern 1 (keeps _ (saveSubscription _ _)) => (apply keep_save; reflexivity) : keeps.
#[export] Hint Extern 1 (keeps _ (saveInvoice _ _)) => (apply keep_save; reflexivity) : keeps.
#[export] Hint Extern 1 (keeps _ (saveCoupon _ _)) => (apply keep_save; reflexivity) : keeps.
#[export] Hint Extern 1 (keeps _ (saveMethod _ _)) => (apply keep_save; reflexivity) : keeps.
Ltac solve_keeps :=
  repeat (first
    [ solve [eauto 2 with keeps]
    | apply keep_bind; [|intros ?]
    | match goal with
      | |- keeps _ (let _ := _ in _) => cbv zeta
      | |- keeps _ (match ?x with _ => _ end) => destruct x
      end ]).

Definition plan_tx (t : BillingTx) : bool := match t with TxCreatePlan _ _ _ | TxPlan _ _ => true | _ => false end.
Definition subscription_tx (t : BillingTx) : bool :=
  match t with
  | TxCreateSubscription _ _ | TxRepin _ _ | TxActivate _ _ | TxPause _ _ | TxResume _ | TxCancel _ _ | TxEnterDunning _ _ _ | TxRecover _ _
  | TxReschedule _ _ _ _ | TxPrepare _ _ _ => true
  | _ => false
  end.

Ltac unfold_body :=
  unfold body, unit_of; cbv zeta; unfold CreatePlan, on_plan, CreateSubscription, RepinSubscription, ActivateSubscription, PauseSubscription,
    ResumeSubscription, CancelSubscription, on_subscription, EnterDunning, recover, rescheduleOrExhaust, prepare, CreateInvoice, IssueInvoice, settleSuccess,
    settleFailure, settleTransaction, IssueCoupon, redeem_attempt, ExpireCoupon, RevokeCoupon, storeCardToken, RevokeBillingPaymentMethod.

Lemma body_keeps_plans c snap : plan_tx (tc_tx c) = false -> keeps bs_plans (body c snap).
Proof. intros Ht. unfold_body. destruct (tc_tx c); try discriminate Ht; solve_keeps. Qed.
Lemma body_keeps_subscriptions c snap : subscription_tx (tc_tx c) = false -> keeps bs_subscriptions (body c snap).
Proof. intros Ht. unfold_body. destruct (tc_tx c); try discriminate Ht; solve_keeps. Qed.

(** ** Plans keep their versions *)

Definition plans_kept (s s' : BillingStore) : Prop :=
  forall id r, row_of id (bs_plans s) = Some r -> exists r', row_of id (bs_plans s') = Some r' /\ row_tenant r' = row_tenant r /\
    versions_kept (pl_versions (row_props r)) (pl_versions (row_props r')).

#[export] Instance plans_kept_preorder : PreOrder plans_kept.
Proof.
  split; [intros s id r Hr; by exists r|]. intros s1 s2 s3 H12 H23 id r Hr. destruct (H12 id r Hr) as (r2 & H2 & E2 & K2).
  destruct (H23 id r2 H2) as (r3 & H3 & E3 & K3). exists r3. split; [done|]. split; [congruence|]. by etrans.
Qed.

Lemma plans_kept_same s s' : bs_plans s' = bs_plans s -> plans_kept s s'.
Proof. intros E id r Hr. exists r. by rewrite E. Qed.

(** Methods keep the identity and the version of their aggregate. *)
Definition steady {P A} (m : M (Aggregate P LicensingChanged) A) : Prop :=
  forall a r a', m a = (r, a') -> agg_id a' = agg_id a /\ agg_version a' = agg_version a.

Section steady.
Context {P : Type}.
Lemma steady_pure {A} (m : M (Aggregate P LicensingChanged) A) : (forall a, (m a).2 = a) -> steady m.
Proof. intros Hm a r a' H. assert (a' = a) as -> by (rewrite <- (Hm a), H; done). done. Qed.
Lemma steady_ret {A} (x : A) : steady (mret x : M (Aggregate P LicensingChanged) A).
Proof. by apply steady_pure. Qed.
Lemma steady_throw {A} e : steady (throw e : M (Aggregate P LicensingChanged) A).
Proof. by apply steady_pure. Qed.
Lemma steady_throw_if b e : steady (throw_if b e : M (Aggregate P LicensingChanged) unit).
Proof. apply steady_pure. intros s. by destruct b. Qed.
Lemma steady_gets {A} (g : Aggregate P LicensingChanged -> A) : steady (gets g).
Proof. by apply steady_pure. Qed.
Lemma steady_lift {A} (r : result A) : steady (lift r : M (Aggregate P LicensingChanged) A).
Proof. by apply steady_pure. Qed.
Lemma steady_set_props g : steady (set_props g : M (Aggregate P LicensingChanged) unit).
Proof. intros a r a' [= <- <-]. done. Qed.
Lemma steady_addDomainEvent eid t e : steady (addDomainEvent eid t e : M (Aggregate P LicensingChanged) unit).
Proof. intros a r a' [= <- <-]. done. Qed.
Lemma steady_bind {A B} (m : M (Aggregate P LicensingChanged) A) (g : A -> M (Aggregate P LicensingChanged) B) :
  steady m -> (forall x, steady (g x)) -> steady (m ≫= g).
Proof.
  intros Hm Hg a r a' H. unfold mbind, M_bind in H. destruct (m a) as [[x|e] a1] eqn:E; [|injection H as <- <-; by eapply Hm].
  destruct (Hm _ _ _ E) as [<- <-]. by eapply Hg.
Qed.
End steady.
#[export] Hint Resolve steady_ret steady_throw steady_throw_if steady_gets steady_lift steady_set_props steady_addDomainEvent : keeps.
Ltac solve_steady :=
  repeat (first
    [ solve [eauto 2 with keeps]
    | apply steady_bind; [|intros ?]
    | match goal with
      | |- steady (let _ := _ in _) => cbv zeta
      | |- steady (match ?x with _ => _ end) => destruct x
      end ]).

Lemma steady_plan_exec c : steady (plan_exec c).
Proof.
  destruct c as [[[] eid] t]; cbn; unfold plan_clone, plan_createDraft, plan_schedule, plan_publish, plan_rollback, plan_archive, on_version, plan_findVersion,
    plan_raise; solve_steady.
Qed.

(** The save of a plan loaded from an earlier state. *)
Lemma savePlan_kept s0 (r : Row PlanProps) (a : Plan) t s u s' :
  billing_wf s0 -> billing_evolve s0 s -> billing_wf s -> r ∈ bs_plans s0 -> agg_id a = row_id r -> agg_version a = row_version r ->
  versions_kept (pl_versions (row_props r)) (pl_versions (agg_props a)) -> savePlan a t s = (Ok u, s') -> plans_kept s s'.
Proof.
  intros [Hw0 _] [He _] [Hw _] Hr Hid Hv HK Hs. unfold savePlan in Hs.
  eapply save_row_loaded in Hs as (Hcur & Ht & Hl); [|exact Hw0|exact Hr|exact He|exact Hw|exact Hid|exact Hv]. cbn in *.
  intros j rj Hj. rewrite Hl. case_bool_decide as Hjr; [|by exists rj]. subst j. rewrite Hcur in Hj. injection Hj as <-. eexists. split; [done|]. by split.
Qed.

Lemma findPlan_Some id s (a : Plan) : findPlan id s = Some a -> exists r, r ∈ bs_plans s /\ a = rehydrate r.
Proof. intros (r & Hr & _ & ->)%find_where_Some. by exists r. Qed.

Lemma on_plan_kept c planId t s0 s x s' :
  billing_wf s0 -> billing_evolve s0 s -> billing_wf s -> on_plan planId t (plan_exec c) s0 s = (Ok x, s') -> plans_kept s s'.
Proof.
  intros Hw0 Hev Hw. unfold on_plan. intros H. minv. unfold require in *. destruct (findPlan planId s0) as [a|] eqn:Ha; minv.
  apply findPlan_Some in Ha as (r & Hr & ->).
  destruct (plan_exec c (rehydrate r)) as [[y|e] a'] eqn:He; [|done]. minv.
  destruct (steady_plan_exec _ _ _ _ He) as [Ei Ev]. apply plan_exec_stepped in He as (_ & K & _).
  match goal with H : savePlan _ _ _ = _ |- _ => exact (savePlan_kept s0 r _ _ _ _ _ Hw0 Hev Hw Hr Ei Ev K H) end.
Qed.

Lemma CreatePlan_kept gen now key name tier t s0 s x s' :
  billing_wf s -> CreatePlan gen now key name tier t s0 s = (Ok x, s') -> plans_kept s s'.
Proof.
  intros [Hw _] H. unfold CreatePlan in H. destruct (findPlanByKey key s0); [done|]. minv. unfold savePlan in *.
  match goal with H : save_row_for _ _ _ _ = _ |- _ => eapply save_row_new in H as [Hn Hl]; [|exact Hw|done] end. cbn in *.
  intros j rj Hj. rewrite Hl. case_bool_decide; [congruence|]. by exists rj.
Qed.

Lemma exec_plans_kept c snaps s s' : store_ok s -> Forall (seen s) snaps -> exec c snaps s = Ok s' -> plans_kept s s'.
Proof.
  intros Hok Hsn (_ & r & Hb & Hr)%exec_inv. set (snap := snapshots snaps s) in Hb.
  assert (Hs : seen s (snap 0%nat)) by (by apply seen_default). destruct Hs as [[Hw0 _] Hev0], Hok as [Hw _].
  destruct (plan_tx (tc_tx c)) eqn:Ht; [|by apply plans_kept_same, (body_keeps_plans c snap Ht _ _ _ Hb)].
  unfold body in Hb. cbv zeta in Hb. destruct (tc_tx c); try discriminate Ht; (destruct r as [r|e]; [|by destruct Hr as [? _]]); apply unit_of_Ok in Hb as (x & Hb).
  - by eapply CreatePlan_kept.
  - by eapply on_plan_kept.
Qed.

(** ** What a transaction does to subscriptions *)

Definition cycle_ok (x : RenewalSchedule) : Prop := cycleDays x = 30 \/ cycleDays x = 365.

(** A schedule is set once, when there is none. *)
Definition schedule_step (p p' : SubscriptionProps) : Prop :=
  sb_tenantRef p' = sb_tenantRef p /\
  (sb_renewalSchedule p' = sb_renewalSchedule p \/ (sb_renewalSchedule p = None /\ exists x, sb_renewalSchedule p' = Some x /\ cycle_ok x)).

Inductive subs_effect (s s' : BillingStore) : Prop :=
| sub_none : bs_subscriptions s' = bs_subscriptions s -> subs_effect s s'
| sub_new id t p : row_new id t p (bs_subscriptions s) (bs_subscriptions s') -> sb_renewalSchedule p = None -> subs_effect s s'
| sub_moved r p' : row_changed r p' (bs_subscriptions s) (bs_subscriptions s') -> schedule_step (row_props r) p' -> subs_effect s s'.

(** Methods that keep the schedule. *)
Definition on_time {A} (m : SubscriptionM A) : Prop :=
  forall a r a', m a = (r, a') -> agg_id a' = agg_id a /\ agg_version a' = agg_version a /\ sb_tenantRef (agg_props a') = sb_tenantRef (agg_props a) /\
    sb_renewalSchedule (agg_props a') = sb_renewalSchedule (agg_props a).

Lemma on_time_pure {A} (m : SubscriptionM A) : (forall a, (m a).2 = a) -> on_time m.
Proof. intros Hm a r a' H. assert (a' = a) as -> by (rewrite <- (Hm a), H; done). done. Qed.
Lemma on_time_ret {A} (x : A) : on_time (mret x).
Proof. by apply on_time_pure. Qed.
Lemma on_time_throw_if b e : on_time (throw_if b e).
Proof. apply on_time_pure. intros s. by destruct b. Qed.
Lemma on_time_gets {A} (g : Subscription -> A) : on_time (gets g).
Proof. by apply on_time_pure. Qed.
Lemma on_time_set_props g : (forall p, sb_tenantRef (g p) = sb_tenantRef p /\ sb_renewalSchedule (g p) = sb_renewalSchedule p) -> on_time (set_props g).
Proof. intros Hg a r a' [= <- <-]. cbn. destruct (Hg (agg_props a)). done. Qed.
Lemma on_time_addDomainEvent eid t e : on_time (addDomainEvent eid t e).
Proof. intros a r a' [= <- <-]. done. Qed.
Lemma on_time_bind {A B} (m : SubscriptionM A) (g : A -> SubscriptionM B) : on_time m -> (forall x, on_time (g x)) -> on_time (m ≫= g).
Proof.
  intros Hm Hg a r a' H. unfold mbind, M_bind in H. destruct (m a) as [[x|e] a1] eqn:E; [|injection H as <- <-; by eapply Hm].
  destruct (Hm _ _ _ E) as (<- & <- & <- & <-). by eapply Hg.
Qed.
#[export] Hint Resolve on_time_ret on_time_throw_if on_time_gets on_time_addDomainEvent : keeps.
#[export] Hint Extern 1 (on_time (set_props _)) => (apply on_time_set_props; done) : keeps.
Ltac solve_on_time := repeat (first [solve [eauto 2 with keeps]|apply on_time_bind; [|intros ?]]).

Lemma on_time_raise action eid t : on_time (subscription_raise action eid t).
Proof. unfold subscription_raise. solve_on_time. Qed.
Lemma on_time_transition to eid t action : on_time (subscription_transition to eid t action).
Proof. unfold subscription_transition, subscription_raise. solve_on_time. Qed.
#[export] Hint Resolve on_time_raise on_time_transition : keeps.
Lemma on_time_repin v eid t : on_time (repin v eid t).
Proof. unfold repin. solve_on_time. Qed.
Lemma on_time_activate eid t : on_time (activate eid t).
Proof. unfold activate. solve_on_time. Qed.
Lemma on_time_pause d eid t : on_time (pause d eid t).
Proof. unfold pause. solve_on_time. Qed.
Lemma on_time_resume eid t : on_time (resume eid t).
Proof. unfold resume. solve_on_time. Qed.
Lemma on_time_cancel reason eid t : on_time (cancel reason eid t).
Proof. unfold cancel. solve_on_time. Qed.
Lemma on_time_enterGrace d eid t : on_time (enterGrace d eid t).
Proof. unfold enterGrace. solve_on_time. Qed.
Lemma on_time_recoverFromGrace eid t : on_time (recoverFromGrace eid t).
Proof. unfold recoverFromGrace. solve_on_time. Qed.
Lemma on_time_exhaustDunning eid t : on_time (exhaustDunning eid t).
Proof. unfold exhaustDunning. solve_on_time. Qed.
Lemma on_time_setRetryPolicy x : on_time (setRetryPolicy x).
Proof. unfold setRetryPolicy. solve_on_time. Qed.
#[export] Hint Resolve on_time_repin on_time_activate on_time_pause on_time_resume on_time_cancel on_time_enterGrace on_time_recoverFromGrace
  on_time_exhaustDunning on_time_setRetryPolicy : keeps.

Lemma findSubscription_Some id t s (a : Subscription) :
  findSubscription id t s = Some a -> exists r, r ∈ bs_subscriptions s /\ row_id r = id /\ row_tenant r = t /\ a = rehydrate r.
Proof.
  intros (r & Hr & Hf & ->)%find_where_Some. apply andb_true_iff in Hf as [Hi%bool_decide_eq_true Ht%bool_decide_eq_true]. by exists r.
Qed.

Section subscriptions.
Context (s0 s : BillingStore) (Hok0 : store_ok s0) (Hev : billing_evolve s0 s) (Hok : store_ok s).

Lemma saveSubscription_loaded (r : Row SubscriptionProps) (a : Subscription) t u s' :
  r ∈ bs_subscriptions s0 -> agg_id a = row_id r -> agg_version a = row_version r -> sb_tenantRef (agg_props a) = sb_tenantRef (row_props r) ->
  saveSubscription a t s = (Ok u, s') -> row_changed r (agg_props a) (bs_subscriptions s) (bs_subscriptions s').
Proof.
  intros Hr Hid Hv Ht H. destruct Hok0 as [(_&Hw0&_) _], Hev as (_&He&_), Hok as [(_&Hw&_) _]. unfold saveSubscription, save_row in H.
  eapply save_row_loaded in H as (Hcur & Et & Hl); [|exact Hw0|exact Hr|exact He|exact Hw|exact Hid|exact Hv].
  cbn in *. split; [done|]. intros j. rewrite Hl, <- Et. rewrite <- Ht. by destruct (agg_props a).
Qed.

(** What was read and then changed by calls, so far. *)
Definition loaded (a : Subscription) : Prop :=
  exists r, r ∈ bs_subscriptions s0 /\ agg_id a = row_id r /\ agg_version a = row_version r /\ schedule_step (row_props r) (agg_props a).

Lemma saved_loaded a t u s' : loaded a -> saveSubscription a t s = (Ok u, s') -> subs_effect s s'.
Proof.
  intros (r & Hr & Hid & Hv & Hst) Hs. eapply sub_moved; [|exact Hst]. by eapply saveSubscription_loaded; [| | |apply Hst|].
Qed.
Lemma loaded_call {A} (m : SubscriptionM A) a a' : on_time m -> run_on a m = Ok a' -> loaded a -> loaded a'.
Proof.
  intros Hm (x & H)%run_on_Ok (r & Hr & Hid & Hv & Ht & Hst). destruct (Hm _ _ _ H) as (E1 & E2 & E3 & E4).
  exists r. unfold schedule_step. rewrite E1, E2, E3, E4. done.
Qed.
Lemma loaded_found id t a : findSubscription id t s0 = Some a -> loaded a.
Proof. intros (r & Hr & _ & _ & ->)%findSubscription_Some. exists r. split; [done|]. split; [done|]. split; [done|]. split; [done|by left]. Qed.
Lemma loaded_set x a a' : loaded a -> sb_renewalSchedule (agg_props a) = None -> cycle_ok x -> run_on a (setRenewalSchedule x) = Ok a' -> loaded a'.
Proof.
  intros (r & Hr & Hid & Hv & Ht & Hst) Hn Hx (E1 & E2 & _ & E3)%setRenewalSchedule_run. exists r. rewrite E1, E2, E3. unfold schedule_step. cbn.
  split; [done|]. split; [done|]. split; [done|]. split; [done|]. right. split; [|by exists x]. destruct Hst as [Hst|[Hst _]]; congruence.
Qed.

Ltac solve_loaded :=
  match goal with
  | H : findSubscription _ _ s0 = Some ?a |- loaded ?a => by eapply loaded_found
  | H : run_on ?a _ = Ok ?a' |- loaded ?a' => eapply loaded_call; [|exact H|solve_loaded]; solve [eauto 2 with keeps]
  end.
Ltac solve_saved :=
  match goal with
  | H : saveSubscription ?a _ s = (Ok _, ?s') |- subs_effect s ?s' => eapply (saved_loaded a); [solve_loaded|exact H]
  | |- subs_effect s s => by apply sub_none
  end.

Lemma sub_CreateSubscription gen now ref v t x s' : CreateSubscription gen now ref v t s0 s = (Ok x, s') -> subs_effect s s'.
Proof.
  unfold CreateSubscription. intros H. destruct (findSubscriptionByTenantRef _ _ _); [done|]. minv. unfold saveSubscription, save_row in *.
  match goal with H : save_row_for _ _ _ _ = _ |- _ => eapply save_row_new in H as [Hn Hl]; [|exact (proj1 (proj2 (proj1 Hok)))|done] end.
  eapply sub_new; [split; [exact Hn|exact Hl]|done].
Qed.

Lemma sub_Repin gen now id v t x s' : RepinSubscription gen now id v t s0 s = (Ok x, s') -> subs_effect s s'.
Proof. unfold RepinSubscription, require, call. intros H. destruct (findSubscription id t s0) as [a|] eqn:Ha; minv. solve_saved. Qed.
Lemma sub_on_subscription id t m x s' : on_time m -> on_subscription id t m s0 s = (Ok x, s') -> subs_effect s s'.
Proof.
  unfold on_subscription, require, call. intros Hm H. destruct (findSubscription id t s0) as [a|] eqn:Ha; minv.
  match goal with H : run_on _ _ = _, H' : saveSubscription _ _ _ = _ |- _ => eapply saved_loaded; [eapply loaded_call; [exact Hm|exact H|by eapply loaded_found]|exact H'] end.
Qed.
Lemma sub_EnterDunning gen now policy id i t x s' : EnterDunning gen now policy id i t s0 s = (Ok x, s') -> subs_effect s s'.
Proof.
  unfold EnterDunning, require, call. intros H. destruct (findSubscription id t s0) as [a|] eqn:Ha; minv. destruct (bool_decide _).
  - destruct (bool_decide _); [|done]. apply ret_Ok in H as [_ ->]. solve_saved.
  - destruct (negb _); [done|]. minv. solve_saved.
Qed.
Lemma sub_recover gen now id t i x s' : recover gen now id t i s0 s = (Ok x, s') -> subs_effect s s'.
Proof.
  unfold recover, require, call. intros H. destruct (findSubscription id t s0) as [a|] eqn:Ha; minv. destruct (bool_decide _); minv; solve_saved.
Qed.
Lemma sub_reschedule gen now policy id t i n x s' : rescheduleOrExhaust gen now policy id t i n s0 s = (Ok x, s') -> subs_effect s s'.
Proof.
  unfold rescheduleOrExhaust, require, call. intros H. destruct (findSubscription id t s0) as [a|] eqn:Ha; minv. destruct (negb _); [apply ret_Ok in H as [_ ->]; solve_saved|].
  cbv zeta in H. destruct (bool_decide _); minv; solve_saved.
Qed.

Lemma sub_Activate gen now id t later s1 x s' : ActivateSubscription gen now id t later s0 s1 s = (Ok x, s') -> subs_effect s s'.
Proof.
  unfold ActivateSubscription, require, call. intros H. destruct (findSubscription id t s0) as [a|] eqn:Ha; minv.
  assert (Hv : loaded v0) by solve_loaded. destruct (sb_renewalSchedule (agg_props v0)) as [sch|] eqn:Hsch; [|destruct (findPinnedVersion _ s1) as [pv|]].
  - apply ret_Ok in Hcall1 as [-> ->]. by eapply saved_loaded.
  - minv. eapply saved_loaded; [|exact Hcall2]. eapply loaded_set; [exact Hv|exact Hsch| |exact Hcall1]. unfold cycle_ok. cbn. case_bool_decide; [by right|by left].
  - apply ret_Ok in Hcall1 as [-> ->]. by eapply saved_loaded.
Qed.
End subscriptions.

(** The invoice of a renewal, with a coupon or without, and the store its coupon's save leaves. *)
Lemma prepared_invoice gen now t x tref sub cur lines s2 (b : bool) i0 i applied s sm :
  store_ok s -> invoice_createDraft x tref sub cur lines (gen 1%nat) now = Ok i0 ->
  (if b then applyMerchantCoupon gen now (findIssuedForMerchant tref t s2) i0 tref else None) = applied ->
  match applied with Some (c, i1) => saveCoupon c t s = (Ok tt, sm) /\ run_on i1 (issue (gen 4%nat) now) = Ok i | None => sm = s /\ run_on i0 (issue (gen 4%nat) now) = Ok i end ->
  billing_wf sm /\ billing_evolve s sm /\ bs_subscriptions sm = bs_subscriptions s /\ bs_invoices sm = bs_invoices s /\
  agg_id i = x /\ agg_version i = 0 /\ iv_status (agg_props i) = is_issued /\ iv_subscriptionRef (agg_props i) = sub /\ iv_currency (agg_props i) = cur /\
  iv_lineItems (agg_props i) = lines.
Proof.
  intros Hok (E0 & V0 & P0 & I0)%invoice_createDraft_Ok Happ Hsm. destruct applied as [[c i1]|].
  - destruct Hsm as [Hsc His]. apply issue_run_Ok in His as (Ei & Vi & Pi & _).
    assert (exists c0 d, redeem_onto now c0 i0 tref (gen 2%nat) (gen 3%nat) = Ok (c, i1, d)) as (c0 & d & Hred)
      by (destruct b; [apply applyMerchantCoupon_Some in Happ as (? & ? & _ & ?); eauto|done]).
    destruct (redeem_onto_Ok _ _ _ _ _ _ _ _ _ Hred I0) as (_ & _ & _ & _ & _ & E1 & V1 & P1 & _).
    destruct (good_saveCoupon c t s _ _ (proj1 Hok) Hsc) as [Hwf Hev].
    rewrite Ei, E1, Vi, V1, Pi, P1. cbn. rewrite P0. split; [done|]. split; [done|].
    assert (Hk : keeps bs_subscriptions (saveCoupon c t)) by eauto with keeps. assert (Hk2 : keeps bs_invoices (saveCoupon c t)) by eauto with keeps.
    rewrite (Hk _ _ _ Hsc), (Hk2 _ _ _ Hsc). done.
  - destruct Hsm as [-> His]. apply issue_run_Ok in His as (Ei & Vi & Pi & _). rewrite Ei, Vi, Pi. cbn. rewrite P0.
    split; [apply Hok|]. split; [reflexivity|]. done.
Qed.

(** A renewal that returned: the period it billed, on a new invoice, of the price of the pinned version. *)
Lemma prepare_bills gen now iso b id t s0 s1 s2 s x s' :
  store_ok s0 -> billing_evolve s0 s -> store_ok s ->
  prepare gen now iso b id t s0 s1 s2 s = (Ok x, s') ->
  exists r sch v t' p, row_of id (bs_subscriptions s) = Some r /\ sb_status (row_props r) = ss_active /\ sb_renewalSchedule (row_props r) = Some sch /\
    nextRenewalAt sch <= now /\ x = gen 0%nat /\
    row_changed r (sb_with_schedule (mkRenewalSchedule (cycleDays sch) (nextRenewalAt sch + cycleDays sch * DAY_MS)) (row_props r)) (bs_subscriptions s) (bs_subscriptions s') /\
    findPinnedVersion (sb_planVersionRef (row_props r)) s1 = Some v /\ row_new x t' p (bs_invoices s) (bs_invoices s') /\
    iv_status p = is_issued /\ iv_subscriptionRef p = id /\ iv_currency p = pricing_currency (spec_pricing (pv_spec v)) /\
    iv_lineItems p = [renewal_line (spec_pricing (pv_spec v)) (sb_planVersionRef (row_props r))] /\
    findSubscription id t s0 = Some (rehydrate r).
Proof.
  intros Hok0 Hev0 Hok H.
  apply prepare_Ok in H as (a & sch & v & i0 & i & applied & sm & sn & a' & Ha & Hact & Hsch & Hdue & Hv & Hi0 & Happ & Hsm & Hset & Hinv & Hsub & [_ ->]%UniqueEntityId_from_Ok).
  assert (Ha' := Ha). apply findSubscription_Some in Ha as (r & Hr & <- & <- & ->). apply setRenewalSchedule_run in Hset as (E1 & E2 & _ & E3).
  destruct (prepared_invoice _ _ _ _ _ _ _ _ _ _ _ _ _ _ _ Hok Hi0 Happ Hsm) as (Hwm & Hem & Esm & Eim & Ei & Vi & Sti & Subi & Ci & Li).
  destruct (good_saveInvoice i _ _ _ _ Hwm Hinv) as [Hwn Hen].
  assert (Hsn : bs_subscriptions sn = bs_subscriptions s) by (assert (Hk : keeps bs_subscriptions (saveInvoice i (row_tenant r))) by eauto with keeps; by rewrite (Hk _ _ _ Hinv)).
  apply saveInvoice_fresh in Hinv as (Hnew & _); [|done|done]. rewrite Eim, Ei in Hnew.
  assert (Hk : keeps bs_invoices (saveSubscription a' (row_tenant r))) by eauto with keeps. rewrite <- (Hk _ _ _ Hsub) in Hnew.
  assert (Hev : billing_evolve s0 sn) by (etrans; [exact Hev0|by etrans]).
  destruct Hok0 as [(_&Hw0&_) _], Hev as (_&He&_), Hwn as (_&Hw&_). unfold saveSubscription, save_row in Hsub.
  eapply save_row_loaded in Hsub as (Hcur & _ & Hl); [|exact Hw0|exact Hr|exact He|exact Hw|exact E1|exact E2]. cbn in Hcur, Hl. rewrite Hsn in Hcur, Hl. rewrite E3 in Hl.
  exists r, sch, v, (row_tenant r), (agg_props i). split; [exact Hcur|]. split; [exact Hact|]. split; [exact Hsch|]. split; [exact Hdue|]. split; [done|].
  split; [by split|]. split; [exact Hv|]. split; [exact Hnew|]. by split_and!.
Qed.

Lemma exec_subs_effect c snaps s s' : store_ok s -> Forall (seen s) snaps -> exec c snaps s = Ok s' ->
  (match tc_tx c with TxPrepare _ _ _ => False | _ => True end) -> subs_effect s s'.
Proof.
  intros Hok Hsn (_ & r & Hb & Hr)%exec_inv Hp. set (snap := snapshots snaps s) in Hb.
  assert (Hs : seen s (snap 0%nat)) by (by apply seen_default). destruct Hs as [Hok0 Hev0].
  destruct (subscription_tx (tc_tx c)) eqn:Ht; [|by apply sub_none, (body_keeps_subscriptions c snap Ht _ _ _ Hb)].
  unfold body in Hb. cbv zeta in Hb. destruct (tc_tx c); try discriminate Ht; try done;
    (destruct r as [r|e]; [|by destruct Hr as [? _]]); apply unit_of_Ok in Hb as (x & Hb).
  - by eapply (sub_CreateSubscription (snap 0%nat)).
  - by eapply (sub_Repin (snap 0%nat)).
  - by eapply (sub_Activate (snap 0%nat)).
  - eapply (sub_on_subscription (snap 0%nat)); [done..| |exact Hb]. apply on_time_pause.
  - eapply (sub_on_subscription (snap 0%nat)); [done..| |exact Hb]. apply on_time_resume.
  - eapply (sub_on_subscription (snap 0%nat)); [done..| |exact Hb]. apply on_time_cancel.
  - by eapply (sub_EnterDunning (snap 0%nat)).
  - by eapply (sub_recover (snap 0%nat)).
  - by eapply (sub_reschedule (snap 0%nat)).
Qed.

#[local] Arguments findPlan _ _ : simpl never.

(** The pinned version of a reference stays what it is. *)
Lemma versions_kept_find f l l' v : versions_kept l l' -> (forall a b, version_kept a b -> f b = f a) ->
  find_first f l = Some v -> exists v', find_first f l' = Some v' /\ version_kept v v'.
Proof.
  intros HK Hf. revert l' HK. induction l as [|w l IH]; intros l' HK; [done|]. cbn. destruct (HK 0%nat w eq_refl) as (w' & Hw' & Kw).
  destruct l' as [|u l']; [done|]. injection Hw' as ->. cbn. rewrite (Hf w w' Kw). destruct (f w).
  - intros [= <-]. by exists w'.
  - apply IH. intros i x Hi. by apply (HK (S i) x).
Qed.

Lemma plans_kept_pinned s s' ref v : billing_wf s -> billing_wf s' -> plans_kept s s' -> findPinnedVersion ref s = Some v ->
  exists v', findPinnedVersion ref s' = Some v' /\ version_kept v v'.
Proof.
  intros [[Hn _] _] [[Hn' _] _] HK. unfold findPinnedVersion. destruct (planIdOfVersionRef ref) as [id|]; [|done]. cbn.
  destruct (findPlan id s) as [a|] eqn:Ha; [|done]. cbn. apply find_where_Some in Ha as (r & Hr & Hf & ->). cbn in Hr.
  assert (Hf2 := Hf). apply andb_true_iff in Hf2 as [Hi%bool_decide_eq_true Ht%bool_decide_eq_true].
  destruct (HK id r) as (r' & Hr' & Et & HV); [rewrite <- Hi; by apply row_of_elem|]. apply row_of_Some in Hr' as [Hr' Hi'].
  assert (Hf' : findPlan id s' = Some (rehydrate r')).
  { unfold findPlan, find_by_id, find_where. cbn. destruct (find_first (is_row id NO_TENANT) (bs_plans s')) as [r2|] eqn:E.
    - apply find_first_Some in E as [H2 E]. apply andb_true_iff in E as [E%bool_decide_eq_true _]. cbn. do 2 f_equal.
      eapply (NoDup_fmap_elem row_id (bs_plans s')); [done|done|done|congruence].
    - apply (find_first_None _ _ r') in E; [|done]. unfold is_row in E. rewrite !bool_decide_true in E; [done|congruence|congruence]. }
  rewrite Hf'. cbn. unfold versionById. apply versions_kept_find; [exact HV|]. intros x y (-> & _). done.
Qed.

(** Invoices keep what they bill. *)
Lemma effect_fixed s s' i r : effect s s' -> row_of i (bs_invoices s) = Some r ->
  exists r', row_of i (bs_invoices s') = Some r' /\ fixed_fields (row_props r) (row_props r').
Proof.
  assert (Hrefl : forall p : InvoiceProps, fixed_fields p p) by done.
  intros He Hr. destruct He as [E1 _ _|j t p E1 _ _ _ _|r0 p' E1 _ _ _ _ _ _|j t p _ [Hn Hl] _ _ _ _|r0 p' to action _ [Hcur Hl] _ Hm _ Hst HF Hdd|rc ri d _ [Hcur Hl] _ Hdr _ _|j t p [Hn Hl] _ _ _];
    [rewrite E1; by eauto..| | | |]; rewrite Hl; case_bool_decide; subst; try congruence; eauto.
  - rewrite Hcur in Hr. injection Hr as <-. by eexists.
  - rewrite Hcur in Hr. injection Hr as <-. by eexists.
Qed.

(** ** The calendar *)

(** A renewal that committed an invoice: the period it billed, the clock it read, its invoice, the version
    pinned, and whether it returned or failed after the invoice was written. *)
Record Bill := mkBill {
  bl_subscription : string; bl_period : Z; bl_at : Z; bl_invoice : string; bl_versionRef : string; bl_returned : bool }.

(** The store with the log of such renewals. *)
Abbreviation Renewing := (Interleaved (S := BillingStore * list Bill) (Tx := TxCall)).

(** The commit of [c] left the invoice under the first id it generated. *)
Definition left_invoice (c : TxCall) (s s' : BillingStore) : bool :=
  bool_decide (row_of (tc_gen c 0) (bs_invoices s) = None) && bool_decide (is_Some (row_of (tc_gen c 0) (bs_invoices s'))).
(** What a renewal billed: what it read of the subscription. *)
Definition bill_of (c : TxCall) (snaps : list BillingStore) (s s' : BillingStore) : list Bill :=
  match tc_tx c with
  | TxPrepare _ _ id =>
      if left_invoice c s s' then
        match (a ← findSubscription id (tc_tenant c) (snapshots snaps s 0); x ← sb_renewalSchedule (agg_props a); Some (a, x)) with
        | Some (a, x) =>
            [mkBill id (nextRenewalAt x) (tc_now c) (tc_gen c 0) (sb_planVersionRef (agg_props a))
               match transaction c (snapshots snaps s) s with (Ok (Ok _), _) => true | _ => false end]
        | None => []
        end
      else []
  | _ => []
  end.
Definition rn_exec (c : TxCall) (snaps : list (BillingStore * list Bill)) (st : BillingStore * list Bill) : result (BillingStore * list Bill) :=
  s' ← exec c snaps.*1 st.1; Ok (s', st.2 ++ bill_of c snaps.*1 st.1 s').
Definition rn_do := il_do rn_exec.
Definition rn_start : Renewing := mkInterleaved (empty_billing, []) [].
Definition rn_store (st : Renewing) : BillingStore := (il_store st).1.
Definition rn_bills (st : Renewing) : list Bill := (il_store st).2.

Definition bills_of (id : string) (bills : list Bill) : list Bill := filter (fun b => bl_subscription b = id) bills.
Definition returned_of (id : string) (bills : list Bill) : list Bill := filter (fun b => bl_returned b = true) (bills_of id bills).
(** [n] periods of [days] each. *)
Definition periods (first days : Z) (n : nat) : list Z := (fun i => first + Z.of_nat i * (days * DAY_MS)) <$> seq 0 n.
#[local] Arguments periods : simpl never.

Definition schedule_of (id : string) (s : BillingStore) : option RenewalSchedule :=
  r ← row_of id (bs_subscriptions s); sb_renewalSchedule (row_props r).

Definition on_calendar (id : string) (bills : list Bill) (s : BillingStore) : Prop :=
  match schedule_of id s with
  | None => bills_of id bills = []
  | Some x => cycle_ok x /\ exists first, let n := length (returned_of id bills) in
      bl_period <$> returned_of id bills = periods first (cycleDays x) n /\
      (forall b, b ∈ bills_of id bills -> bl_period b ∈ periods first (cycleDays x) (S n)) /\
      nextRenewalAt x = first + Z.of_nat n * (cycleDays x * DAY_MS)
  end.

Definition bill_ok (s : BillingStore) (b : Bill) : Prop :=
  bl_period b <= bl_at b /\ exists r v, row_of (bl_invoice b) (bs_invoices s) = Some r /\ iv_subscriptionRef (row_props r) = bl_subscription b /\
    findPinnedVersion (bl_versionRef b) s = Some v /\ iv_currency (row_props r) = pricing_currency (spec_pricing (pv_spec v)) /\
    iv_lineItems (row_props r) = [renewal_line (spec_pricing (pv_spec v)) (bl_versionRef b)].

(** A schedule that was read is behind the one stored by the renewals that returned since. *)
Definition schedule_moved (id : string) (st0 st : BillingStore * list Bill) : Prop :=
  exists j, length (returned_of id st.2) = (length (returned_of id st0.2) + j)%nat /\
    forall x0, schedule_of id st0.1 = Some x0 -> exists x, schedule_of id st.1 = Some x /\ cycleDays x = cycleDays x0 /\
      nextRenewalAt x = nextRenewalAt x0 + Z.of_nat j * (cycleDays x0 * DAY_MS).
Definition calendar_evolve (st0 st : BillingStore * list Bill) : Prop :=
  billing_evolve st0.1 st.1 /\ plans_kept st0.1 st.1 /\ forall id, schedule_moved id st0 st.
#[export] Instance calendar_evolve_preorder : PreOrder calendar_evolve.
Proof.
  split.
  - intros st. split; [reflexivity|]. split; [reflexivity|]. intros id. exists 0%nat. split; [lia|]. intros x0 Hx. exists x0. split; [done|]. split; [done|lia].
  - intros s1 s2 s3 (E1 & P1 & M1) (E2 & P2 & M2). split; [by etrans|]. split; [by etrans|]. intros id.
    destruct (M1 id) as (j1 & L1 & X1), (M2 id) as (j2 & L2 & X2). exists (j1 + j2)%nat. split; [lia|].
    intros x0 (x & Hx & C & N)%X1. destruct (X2 x Hx) as (y & Hy & C' & N'). exists y. split; [done|]. split; [congruence|]. rewrite N', N, C. lia.
Qed.

Definition renewing_ok (st : BillingStore * list Bill) : Prop :=
  store_ok st.1 /\ (forall id, on_calendar id st.2 st.1) /\ (forall b, b ∈ st.2 -> bill_ok st.1 b) /\ NoDup (bl_invoice <$> st.2).

Lemma periods_snoc first days n : periods first days (S n) = periods first days n ++ [first + Z.of_nat n * (days * DAY_MS)].
Proof. unfold periods. rewrite seq_S, fmap_app. done. Qed.
Lemma elem_periods first days n k : (k < n)%nat -> first + Z.of_nat k * (days * DAY_MS) ∈ periods first days n.
Proof. intros Hk. unfold periods. apply list_elem_of_fmap. exists k. split; [done|]. apply elem_of_seq. lia. Qed.
Lemma periods_grow first days n x : x ∈ periods first days n -> x ∈ periods first days (S n).
Proof. rewrite periods_snoc. intros ?. apply elem_of_app. by left. Qed.

Lemma bill_ok_kept s s' b : billing_wf s -> billing_wf s' -> plans_kept s s' -> effect s s' -> bill_ok s b -> bill_ok s' b.
Proof.
  intros Hw Hw' HK He (Hp & r & v & Hr & Hs & Hv & Hc & Hl). split; [done|]. destruct (effect_fixed s s' _ r He Hr) as (r' & Hr' & _ & F2 & F3 & F4).
  destruct (plans_kept_pinned s s' _ v Hw Hw' HK Hv) as (v' & Hv' & _ & Esp & _). exists r', v'. rewrite F2, F3, F4, Esp. done.
Qed.

Lemma subs_effect_schedule id s s' : subs_effect s s' ->
  schedule_of id s' = schedule_of id s \/ (schedule_of id s = None /\ exists x, schedule_of id s' = Some x /\ cycle_ok x).
Proof.
  intros He. unfold schedule_of. destruct He as [E|j t p [Hn Hl] Hp|r p' [Hcur Hl] [_ Hst]]; [left; by rewrite E|rewrite Hl..]; case_bool_decide; subst; cbn; try by left.
  - left. by rewrite Hn, Hp.
  - rewrite Hcur. cbn. destruct Hst as [-> |(-> & x & -> & Hx)]; [by left|]. right. split; [done|]. by exists x.
Qed.
Lemma subs_effect_calendar id bills s s' : subs_effect s s' -> on_calendar id bills s -> on_calendar id bills s'.
Proof.
  intros He. unfold on_calendar. destruct (subs_effect_schedule id s s' He) as [-> |(-> & x & -> & Hx)]; [done|].
  intros E. split; [done|]. exists (nextRenewalAt x). unfold returned_of. rewrite E. cbn. split; [done|]. split; [by intros b ?%elem_of_nil|lia].
Qed.
Lemma subs_effect_moved bills s s' : subs_effect s s' -> forall id, schedule_moved id (s, bills) (s', bills).
Proof.
  intros He id. exists 0%nat. split; [cbn; lia|]. cbn. intros x0 Hx. exists x0. destruct (subs_effect_schedule id s s' He) as [-> |[Hn _]]; [|congruence].
  split; [done|]. split; [done|lia].
Qed.

Lemma bills_of_snoc id bills b : bills_of id (bills ++ [b]) = bills_of id bills ++ if decide (bl_subscription b = id) then [b] else [].
Proof. unfold bills_of. by rewrite filter_app. Qed.
Lemma returned_of_snoc id bills b : returned_of id (bills ++ [b]) = returned_of id bills ++ if decide (bl_subscription b = id /\ bl_returned b = true) then [b] else [].
Proof.
  unfold returned_of. rewrite bills_of_snoc, filter_app. f_equal. destruct (decide (bl_subscription b = id)) as [Hi|Hi]; [|rewrite decide_False by tauto; done].
  cbn. repeat case_decide; tauto.
Qed.

(** A renewal that returned adds its bill to the calendar and moves the schedule on. *)
Lemma renewal_on_calendar id bills b s s' r sch :
  row_of id (bs_subscriptions s) = Some r -> sb_renewalSchedule (row_props r) = Some sch -> bl_subscription b = id -> bl_returned b = true -> bl_period b = nextRenewalAt sch ->
  row_changed r (sb_with_schedule (mkRenewalSchedule (cycleDays sch) (nextRenewalAt sch + cycleDays sch * DAY_MS)) (row_props r)) (bs_subscriptions s) (bs_subscriptions s') ->
  (forall j, on_calendar j bills s) -> (forall j, on_calendar j (bills ++ [b]) s') /\ forall j, schedule_moved j (s, bills) (s', bills ++ [b]).
Proof.
  intros Hr Hsch Hb Hret Hper [_ Hl] Hcal. assert (Hi := proj2 (row_of_Some _ _ _ Hr)).
  assert (Hsched : forall j, schedule_of j s' = if bool_decide (j = id) then Some (mkRenewalSchedule (cycleDays sch) (nextRenewalAt sch + cycleDays sch * DAY_MS)) else schedule_of j s).
  { intros j. unfold schedule_of. rewrite Hl, Hi. by case_bool_decide. }
  assert (Hid : schedule_of id s = Some sch) by (unfold schedule_of; by rewrite Hr). split; intros j.
  - assert (Hj := Hcal j). unfold on_calendar in *. rewrite Hsched, bills_of_snoc, returned_of_snoc, Hb, Hret. case_bool_decide as Hij.
    + subst j. rewrite Hid in Hj. destruct Hj as (Hc & first & Hps & Hall & Hn). rewrite !decide_True by done. cbn [cycleDays nextRenewalAt].
      split; [exact Hc|]. exists first. rewrite length_app, Nat.add_1_r, (periods_snoc _ _ (length _)), fmap_app, Hps. cbn. rewrite Hper, Hn. split; [done|]. split; [|lia].
      intros b' [Hb'| ->%list_elem_of_singleton]%elem_of_app; apply periods_grow; [by apply Hall|]. rewrite Hper, Hn. apply elem_periods. lia.
    + rewrite !decide_False by (intros ?; naive_solver). by rewrite !app_nil_r.
  - unfold schedule_moved. cbn [fst snd]. rewrite returned_of_snoc, Hb, Hret, Hsched. case_bool_decide as Hij.
    + subst j. exists 1%nat. rewrite decide_True, length_app by done. split; [done|]. rewrite Hid. intros x0 [= <-]. eexists. split; [done|]. cbn. split; [done|lia].
    + exists 0%nat. rewrite decide_False, app_nil_r by (intros ?; naive_solver). split; [lia|]. intros x0 Hx. exists x0. split; [done|]. split; [done|lia].
Qed.

(** One that lost its race bills a period of the calendar that was not later than the next one due. *)
Lemma stray_on_calendar id bills b s0 s s' x0 bills0 :
  bs_subscriptions s' = bs_subscriptions s -> schedule_moved id (s0, bills0) (s, bills) -> schedule_of id s0 = Some x0 ->
  bl_subscription b = id -> bl_returned b = false -> bl_period b = nextRenewalAt x0 ->
  (forall j, on_calendar j bills s) -> (forall j, on_calendar j (bills ++ [b]) s') /\ forall j, schedule_moved j (s, bills) (s', bills ++ [b]).
Proof.
  intros Hs (k & Hlen & Hmoved) Hx0 Hb Hret Hper Hcal. cbn [fst snd] in Hlen, Hmoved. assert (Hsched : forall j, schedule_of j s' = schedule_of j s) by (intros j; unfold schedule_of; by rewrite Hs).
  assert (Hr : forall j, returned_of j (bills ++ [b]) = returned_of j bills) by (intros j; rewrite returned_of_snoc, Hret, decide_False, app_nil_r by naive_solver; done).
  destruct (Hmoved x0 Hx0) as (x & Hx & Hc & Hn). split; intros j.
  - assert (Hj := Hcal j). unfold on_calendar in *. rewrite Hsched, Hr, bills_of_snoc, Hb. destruct (decide (id = j)) as [<-|Hij]; [|by rewrite app_nil_r].
    rewrite Hx in *. destruct Hj as (Hok & first & Hps & Hall & Hnext). split; [done|]. exists first. split; [done|]. split; [|done].
    intros b' [Hb'| ->%list_elem_of_singleton]%elem_of_app; [by apply Hall|]. rewrite Hper.
    replace (nextRenewalAt x0) with (first + Z.of_nat (length (returned_of id bills0)) * (cycleDays x * DAY_MS)) by (rewrite Hlen, Nat2Z.inj_add in Hnext; rewrite Hc in *; nia).
    apply elem_periods. lia.
  - exists 0%nat. cbn [fst snd]. rewrite Hr, Hsched. split; [lia|]. intros y Hy. exists y. split; [done|]. split; [done|lia].
Qed.

(** A failed renewal that wrote its invoice, and one that wrote nothing. *)
Lemma prepare_strays gen now iso b id t s0 s1 s2 s e s' :
  store_ok s -> prepare gen now iso b id t s0 s1 s2 s = (Err e, s') -> isDomainError e = true ->
  s' = s \/ exists r sch v p, r ∈ bs_subscriptions s0 /\ row_id r = id /\ findSubscription id t s0 = Some (rehydrate r) /\
    sb_renewalSchedule (row_props r) = Some sch /\ nextRenewalAt sch <= now /\ findPinnedVersion (sb_planVersionRef (row_props r)) s1 = Some v /\
    bs_subscriptions s' = bs_subscriptions s /\ row_new (gen 0%nat) t p (bs_invoices s) (bs_invoices s') /\
    iv_subscriptionRef p = id /\ iv_currency p = pricing_currency (spec_pricing (pv_spec v)) /\
    iv_lineItems p = [renewal_line (spec_pricing (pv_spec v)) (sb_planVersionRef (row_props r))].
Proof.
  intros Hok H He. apply prepare_Err in H as [-> |(a & sch & x & v & i0 & i & applied & sm & Ha & Hsch & Hdue & Hv & -> & Hi0 & Happ & Hsm & Hinv)]; [by left| |done].
  right. assert (Ha' := Ha). apply findSubscription_Some in Ha as (r & Hr & <- & <- & ->).
  destruct (prepared_invoice _ _ _ _ _ _ _ _ _ _ _ _ _ _ _ Hok Hi0 Happ Hsm) as (Hwm & _ & Esm & Eim & Ei & Vi & _ & Subi & Ci & Li).
  apply saveInvoice_fresh in Hinv as (Hnew & _ & Es & _); [|done|done]. rewrite Eim, Ei in Hnew.
  exists r, sch, v, (agg_props i). do 6 (split; [done|]). split; [congruence|]. by split.
Qed.

Lemma prepare_Ok_transaction c snap s u s' : body c snap s = (Ok u, s') -> transaction c snap s = (Ok (Ok u), s').
Proof. intros Hb. unfold transaction, in_txn. destruct (catches _); [unfold catching|unfold mbind, M_bind]; by rewrite Hb. Qed.
Lemma prepare_Err_transaction c snap s e s' :
  catches (tc_tx c) = true -> isDomainError e = true -> body c snap s = (Err e, s') -> transaction c snap s = (Ok (Err e), s').
Proof. intros Hc Hd Hb. unfold transaction, in_txn. rewrite Hc. unfold catching. by rewrite Hb, Hd. Qed.

Lemma left_invoice_new c s s' t p : row_new (tc_gen c 0) t p (bs_invoices s) (bs_invoices s') -> left_invoice c s s' = true.
Proof. intros [Hn Hl]. unfold left_invoice. rewrite Hl, (bool_decide_true (tc_gen c 0 = _)), !bool_decide_true by done. done. Qed.
Lemma left_invoice_same c s : left_invoice c s s = false.
Proof. unfold left_invoice. destruct (row_of _ _); [by rewrite bool_decide_false|]. rewrite (bool_decide_false (is_Some None)) by (by intros [? ?]). by rewrite andb_false_r. Qed.

(** What a commit of a renewal billed. *)
Variant billed (c : TxCall) (snaps : list BillingStore) (s s' : BillingStore) : list Bill -> Prop :=
| billed_nothing : subs_effect s s' -> billed c snaps s s' []
| billed_one r r0 sch v t p b :
    findSubscription (bl_subscription b) (tc_tenant c) (snapshots snaps s 0) = Some (rehydrate r0) ->
    bl_period b = nextRenewalAt sch -> nextRenewalAt sch <= bl_at b -> sb_renewalSchedule (row_props r0) = Some sch ->
    bl_versionRef b = sb_planVersionRef (row_props r0) -> findPinnedVersion (sb_planVersionRef (row_props r0)) (snapshots snaps s 1) = Some v ->
    row_new (bl_invoice b) t p (bs_invoices s) (bs_invoices s') -> iv_subscriptionRef p = bl_subscription b ->
    iv_currency p = pricing_currency (spec_pricing (pv_spec v)) ->
    iv_lineItems p = [renewal_line (spec_pricing (pv_spec v)) (sb_planVersionRef (row_props r0))] ->
    (if bl_returned b then
       r0 = r /\ row_of (bl_subscription b) (bs_subscriptions s) = Some r /\
       row_changed r (sb_with_schedule (mkRenewalSchedule (cycleDays sch) (nextRenewalAt sch + cycleDays sch * DAY_MS)) (row_props r)) (bs_subscriptions s) (bs_subscriptions s')
     else bs_subscriptions s' = bs_subscriptions s) ->
    billed c snaps s s' [b].

Lemma commit_billed c snaps s s' : store_ok s -> Forall (seen s) snaps -> exec c snaps s = Ok s' -> billed c snaps s s' (bill_of c snaps s s').
Proof.
  intros Hok Hsn He. destruct (match tc_tx c with TxPrepare _ _ _ => true | _ => false end) eqn:Hp.
  2: { assert (bill_of c snaps s s' = []) as -> by (unfold bill_of; by destruct (tc_tx c)). apply billed_nothing. eapply exec_subs_effect; [done..|by destruct (tc_tx c)]. }
  destruct (exec_inv _ _ _ _ He) as (_ & u & Hb & Hu). destruct (seen_default s snaps 0 Hok Hsn) as [Hok0 Hev0].
  unfold bill_of. destruct (tc_tx c) as [| | | | | | | | | | |iso b id| | | | | | | | | | | |] eqn:Htx; try discriminate Hp. destruct u as [v0|e].
  - rewrite (prepare_Ok_transaction _ _ _ _ _ Hb). unfold body in Hb. cbv zeta in Hb. rewrite Htx in Hb. apply unit_of_Ok in Hb as (x & Hb).
    apply prepare_bills in Hb as (r & sch & v & t & p & Hr & _ & Hsch & Hdue & -> & Hch & Hv & Hnew & _ & Hsub & Hcur & Hli & Hf); [|done..].
    rewrite (left_invoice_new _ _ _ _ _ Hnew), Hf. cbn. rewrite Hsch. by eapply (billed_one c snaps s s' r r sch v t p).
  - destruct Hu as [Hc Hd]. rewrite (prepare_Err_transaction _ _ _ _ _ ltac:(by rewrite Htx) Hd Hb). unfold body in Hb. cbv zeta in Hb. rewrite Htx in Hb.
    apply unit_of_Err, prepare_strays in Hb as [-> |(r & sch & v & p & _ & _ & Hf & Hsch & Hdue & Hv & Es & Hnew & Hsub & Hcur & Hli)]; [| |done|done].
    + rewrite left_invoice_same. by apply billed_nothing, sub_none.
    + rewrite (left_invoice_new _ _ _ _ _ Hnew), Hf. cbn. rewrite Hsch. by eapply (billed_one c snaps s s' r r sch v _ p).
Qed.

(** The logs that go with what a transaction read. *)
Lemma read_pair (I : BillingStore * list Bill -> Prop) (R : BillingStore * list Bill -> BillingStore * list Bill -> Prop) snaps st k :
  PreOrder R -> I st -> Forall (fun p => I p /\ R p st) snaps -> exists bills, I (snapshots snaps.*1 st.1 k, bills) /\ R (snapshots snaps.*1 st.1 k, bills) st.
Proof.
  intros HR HI Hsn. unfold snapshots. rewrite list_lookup_fmap. destruct (snaps !! k) as [[s0 b0]|] eqn:E; cbn.
  - exists b0. exact (Forall_lookup_1 _ _ _ _ Hsn E).
  - exists st.2. destruct st. split; [done|reflexivity].
Qed.

Lemma schedule_of_found id t s r x : store_ok s -> findSubscription id t s = Some (rehydrate r) -> sb_renewalSchedule (row_props r) = Some x ->
  schedule_of id s = Some x.
Proof.
  intros [(_ & [Hnd _] & _) _] (r' & Hr & <- & _ & E)%findSubscription_Some Hx. unfold schedule_of. rewrite (row_of_elem _ _ Hnd Hr). cbn.
  rewrite <- Hx. unfold rehydrate in E. injection E as _ _ E. by rewrite E.
Qed.

Lemma bill_on_invoice s s1 s' b r0 t p v :
  store_ok s1 -> billing_wf s' -> plans_kept s1 s' -> bl_period b <= bl_at b -> bl_versionRef b = sb_planVersionRef r0 ->
  findPinnedVersion (sb_planVersionRef r0) s1 = Some v -> row_new (bl_invoice b) t p (bs_invoices s) (bs_invoices s') ->
  iv_subscriptionRef p = bl_subscription b -> iv_currency p = pricing_currency (spec_pricing (pv_spec v)) ->
  iv_lineItems p = [renewal_line (spec_pricing (pv_spec v)) (sb_planVersionRef r0)] -> bill_ok s' b.
Proof.
  intros Hok1 Hw' HK Hdue Hver Hv [_ Hnew] Hsub Hcur Hli. split; [done|].
  destruct (plans_kept_pinned s1 s' _ v (proj1 Hok1) Hw' HK Hv) as (v' & Hv' & _ & Esp & _).
  eexists _, v'. rewrite Hnew, bool_decide_true, Hver by done. split; [reflexivity|]. cbn. by rewrite Esp.
Qed.

Lemma renewing_step c snaps st st' : renewing_ok st -> Forall (fun p => renewing_ok p /\ calendar_evolve p st) snaps -> rn_exec c snaps st = Ok st' ->
  renewing_ok st' /\ calendar_evolve st st'.
Proof.
  destruct st as [s bills]. intros HI Hsn. unfold rn_exec. cbn [fst snd]. destruct (exec c snaps.*1 s) as [s'|] eqn:He; [|done]. intros [= <-].
  assert (Hsn' : Forall (seen s) snaps.*1) by (apply Forall_fmap; eapply Forall_impl; [exact Hsn|]; by intros ? [[? _] [? _]]).
  destruct HI as (Hok & Hcal & Hbills & Hnd) eqn:EI. clear EI. cbn in Hok, Hcal, Hbills, Hnd. assert (Hb := commit_billed c snaps.*1 s s' Hok Hsn' He).
  destruct (exec_ok c snaps.*1 s s' Hok Hsn' He) as (Hok' & Hev & Heff). assert (HK := exec_plans_kept c snaps.*1 s s' Hok Hsn' He).
  assert (Hold : forall b, b ∈ bills -> bill_ok s' b) by (intros b Hx; eapply (bill_ok_kept s); [apply Hok|apply Hok'|done..|by apply Hbills]).
  unfold renewing_ok, calendar_evolve. cbn [fst snd]. destruct Hb as [Hse|r r0 sch v t p b Hf Hper Hdue Hsch Hver Hv Hnew Hsub Hcur Hli Hret].
  { rewrite app_nil_r. split_and!; [done| |done|done|done|done|by apply subs_effect_moved]. intros id. by eapply subs_effect_calendar. }
  destruct (read_pair renewing_ok calendar_evolve snaps (s, bills) 0 _ HI Hsn) as (bills0 & (Hok0 & _) & _ & _ & Hm0).
  destruct (read_pair renewing_ok calendar_evolve snaps (s, bills) 1 _ HI Hsn) as (bills1 & (Hok1 & _) & _ & HK1 & _). cbn [fst snd] in *.
  assert (Hx0 := schedule_of_found _ _ _ _ _ Hok0 Hf Hsch).
  assert (Hnext : (forall j, on_calendar j (bills ++ [b]) s') /\ forall j, schedule_moved j (s, bills) (s', bills ++ [b])).
  { destruct (bl_returned b) eqn:Hr; [destruct Hret as (-> & Hrow & Hch); by eapply renewal_on_calendar|by eapply stray_on_calendar]. }
  destruct Hnext as [Hcal' Hmoved]. split_and!; [done|done| | |done|done|done].
  - intros b' [?| ->%list_elem_of_singleton]%elem_of_app; [by apply Hold|].
    eapply (bill_on_invoice s); [exact Hok1|apply Hok'|by etrans|lia|exact Hver|exact Hv|exact Hnew|done..].
  - rewrite fmap_app. apply NoDup_app. split; [done|]. split; [|apply NoDup_singleton]. intros i Hi ->%list_elem_of_singleton.
    apply list_elem_of_fmap in Hi as (b' & Ei & Hb'). destruct (Hbills b' Hb') as (_ & ri & _ & Hri & _). destruct Hnew as [Hno _]. cbn in Ei. congruence.
Qed.

Lemma renewing_start : renewing_ok (empty_billing, []).
Proof. split; [exact empty_billing_ok|]. split; [by intros id|]. split; [by intros b ?%elem_of_nil|constructor]. Qed.

(** ** Properties *)

(** C10: renewals follow the calendar. However the renewals of any number of workers interleave with plan
    changes, repins, cancellations, dunning and each other: the renewals of a subscription that returned
    billed consecutive periods of its first schedule, each once and none skipped; a renewal that failed
    after it had written its invoice billed one of these periods or the next one; none billed before it was
    due, each is on an invoice of its own, of exactly the price and currency of the plan version it read as
    the subscription's. *)
Theorem renewals_follow_the_calendar l st :
  run_actions rn_do l rn_start = Some st ->
  (forall id, exists first days, (days = 30 \/ days = 365) /\ let n := length (returned_of id (rn_bills st)) in
     bl_period <$> returned_of id (rn_bills st) = periods first days n /\
     forall b, b ∈ bills_of id (rn_bills st) -> bl_period b ∈ periods first days (S n)) /\
  NoDup (bl_invoice <$> rn_bills st) /\
  forall b, b ∈ rn_bills st -> bl_period b <= bl_at b /\
    exists r v, row_of (bl_invoice b) (bs_invoices (rn_store st)) = Some r /\ iv_subscriptionRef (row_props r) = bl_subscription b /\
      findPinnedVersion (bl_versionRef b) (rn_store st) = Some v /\ iv_currency (row_props r) = pricing_currency (spec_pricing (pv_spec v)) /\
      iv_lineItems (row_props r) = [renewal_line (spec_pricing (pv_spec v)) (bl_versionRef b)].
Proof.
  intros Hl. destruct (il_invariant rn_exec renewing_ok calendar_evolve l _ st _ renewing_step renewing_start Hl) as (_ & Hcal & Hbills & Hnd).
  split; [|by split]. intros id. assert (Hc := Hcal id). unfold on_calendar in Hc. fold (rn_bills st) (rn_store st) in Hc. destruct (schedule_of _ _) as [x|].
  - destruct Hc as (Hx & first & Hps & Hall & _). by exists first, (cycleDays x).
  - exists 0, 30. unfold returned_of. rewrite Hc. cbn. split; [by left|]. split; [done|]. by intros b ?%elem_of_nil.
Qed.

(** A monthly plan, a subscription to it, and renewals raced by two workers. *)
Definition one (tx : BillingTx) (prefix : string) (now : Z) (reads : nat) : list (Action TxCall) :=
  Begin (sample_call tx prefix now) :: replicate reads (Read 0) ++ [Commit 0].
Definition sample_subscribe (spec : PlanSpec) : list (Action TxCall) :=
  one (TxCreatePlan "pro" "Pro" t_pro) "p" 1 1 ++ one (TxPlan "p0" (CreateDraftVersion spec)) "a" 2 1 ++
  one (TxPlan "p0" (PublishVersion "p0-v1")) "b" 3 1 ++ one (TxCreateSubscription "m1" "p0-v1") "s" 4 1 ++ one (TxActivate "s0" 5) "c" 5 2.
Definition first_due : Z := 5 + 14 * DAY_MS.
Definition renew (prefix : string) (now : Z) : list (Action TxCall) := one (TxPrepare (fun _ => "later") true "s0") prefix now 3.
(** Two workers renew one subscription; the second has read the subscription before the first commits, and
    the coupons after. *)
Definition lost_race : list (Action TxCall) :=
  let call prefix := Begin (sample_call (TxPrepare (fun _ => "later") true "s0") prefix first_due) in
  sample_subscribe (sample_spec 1000) ++ [call "x"; call "y"; Read 0; Read 0; Read 0; Read 1; Read 1; Commit 0] ++
  [Begin (sample_call (TxIssueCoupon "SAVE" (in_fixed (NInt 300) "USD") (first_due + 1) (Some "m1")) "c" first_due); Read 1; Commit 1] ++ [Read 0; Commit 0].

Definition sample_renewing : Renewing := default rn_start (run_actions rn_do (lost_race ++ renew "z" (first_due + 40 * DAY_MS)) rn_start).

Lemma renewals_follow_the_calendar_witness :
  (fun b => (bl_invoice b, bl_period b, bl_returned b)) <$> rn_bills sample_renewing =
    [("x0", first_due, true); ("y0", first_due, false); ("z0", first_due + 30 * DAY_MS, true)] /\
  (forall id, exists first days, (days = 30 \/ days = 365) /\ let n := length (returned_of id (rn_bills sample_renewing)) in
     bl_period <$> returned_of id (rn_bills sample_renewing) = periods first days n /\
     forall b, b ∈ bills_of id (rn_bills sample_renewing) -> bl_period b ∈ periods first days (S n)) /\
  NoDup (bl_invoice <$> rn_bills sample_renewing).
Proof.
  split; [vm_compute; reflexivity|].
  assert (H : run_actions rn_do (lost_race ++ renew "z" (first_due + 40 * DAY_MS)) rn_start = Some sample_renewing) by (vm_compute; reflexivity).
  destruct (renewals_follow_the_calendar _ sample_renewing H) as (H1 & H2 & _). exact (conj H1 H2).
Defined.

(** A repin keeps the old cycle. A subscription of a monthly plan that is pinned to a yearly one keeps
    renewing every thirty days, each time at the price of the year. *)
Theorem repinned_annual_plan_bills_monthly :
  exists l st v, run_actions rn_do l rn_start = Some st /\ findPinnedVersion "p0-v2" (rn_store st) = Some v /\ billingCycle (spec_pricing (pv_spec v)) = annual /\
    (fun b => (bl_versionRef b, bl_period b)) <$> rn_bills st = [("p0-v2", first_due); ("p0-v2", first_due + 30 * DAY_MS)] /\
    (fun r => totalMinor (row_props r)) <$> bs_invoices (rn_store st) = [Ok 12000; Ok 12000].
Proof.
  set (yearly := mkPlanSpec (spec_limits (sample_spec 1000)) [] (mkPlanPricing (NInt 12000) "USD" annual None [])).
  set (l := sample_subscribe (sample_spec 1000) ++ one (TxPlan "p0" (CreateDraftVersion yearly)) "d" 6 1 ++ one (TxPlan "p0" (PublishVersion "p0-v2")) "e" 7 1 ++
    one (TxRepin "s0" "p0-v2") "f" 8 1 ++ renew "g" first_due ++ renew "h" (first_due + 30 * DAY_MS)).
  exists l, (default rn_start (run_actions rn_do l rn_start)). eexists. split; [vm_compute; reflexivity|]. split; [vm_compute; reflexivity|].
  split; [vm_compute; reflexivity|]. split; vm_compute; reflexivity.
Qed.

(** The subscriptions the jobs find are those of the rows. *)
Lemma due_for_renewal at_ t s id : id ∈ ListSubscriptionsDueForRenewal at_ t s ->
  exists r x, r ∈ bs_subscriptions s /\ row_id r = id /\ sb_renewalSchedule (row_props r) = Some x /\ nextRenewalAt x <= at_.
Proof.
  unfold ListSubscriptionsDueForRenewal, findDueForRenewal. intros (a & -> & Ha)%list_elem_of_fmap. apply list_elem_of_filter in Ha as [Hdue Ha].
  apply list_elem_of_fmap in Ha as (r & -> & [_ Hr]%list_elem_of_filter). exists r. cbn in *. destruct (sb_renewalSchedule (row_props r)) as [x|]; [|done].
  cbn in Hdue. apply bool_decide_eq_true in Hdue. by exists x.
Qed.
Lemma due_for_retry at_ t s id : id ∈ ListSubscriptionsDueForDunningRetry at_ t s ->
  exists r, r ∈ bs_subscriptions s /\ row_id r = id /\ sb_status (row_props r) = ss_grace.
Proof.
  unfold ListSubscriptionsDueForDunningRetry, findDueForDunningRetry. intros (a & -> & Ha)%list_elem_of_fmap. apply list_elem_of_filter in Ha as [_ Ha].
  apply list_elem_of_fmap in Ha as (r & -> & [Hf Hr]%list_elem_of_filter). exists r. apply andb_true_iff in Hf as [_ Hf%bool_decide_eq_true]. done.
Qed.

(** A crash strands the renewal's invoice. Between a renewal's preparation and its collection the
    invoice is issued and the schedule already advanced: a process that stops there leaves an invoice that
    neither job ever takes up, for the subscription is not due before its next period, which is billed on
    another invoice, and it is not in grace. *)
Theorem crash_strands_renewal_invoice gen now iso b id t s0 s1 s2 s x s' :
  store_ok s0 -> billing_evolve s0 s -> store_ok s2 -> billing_evolve s2 s -> store_ok s ->
  prepare gen now iso b id t s0 s1 s2 s = (Ok x, s') ->
  exists r sch, row_of x (bs_invoices s') = Some r /\ iv_status (row_props r) = is_issued /\ iv_subscriptionRef (row_props r) = id /\
    (row_of id (bs_subscriptions s) ≫= (fun sub => sb_renewalSchedule (row_props sub))) = Some sch /\
    forall at_ tenant, (id ∉ ListSubscriptionsDueForDunningRetry at_ tenant s') /\
      (at_ < nextRenewalAt sch + cycleDays sch * DAY_MS -> id ∉ ListSubscriptionsDueForRenewal at_ tenant s').
Proof.
  intros Hok0 Hev0 Hok2 Hev2 Hok H. assert (Hw' : billing_wf s').
  { assert (Hg : good (prepare gen now iso b id t s0 s1 s2)) by (unfold prepare; solve_good). by destruct (Hg _ _ _ (proj1 Hok) H). }
  apply prepare_bills in H as (r & sch & v & t' & p & Hr & Hact & Hsch & _ & -> & [Hcur Hl] & _ & [_ Hinv] & Hst & Hsub & _); [|done..].
  eexists _, sch. rewrite Hinv, bool_decide_true by done. split; [reflexivity|]. split; [done|]. split; [done|]. rewrite Hr. split; [exact Hsch|].
  assert (Hi := proj2 (row_of_Some _ _ _ Hr)). destruct Hw' as (_ & [Hnd _] & _).
  assert (Hrow : forall r', r' ∈ bs_subscriptions s' -> row_id r' = id ->
    row_props r' = sb_with_schedule (mkRenewalSchedule (cycleDays sch) (nextRenewalAt sch + cycleDays sch * DAY_MS)) (row_props r)).
  { intros r' Hr' E. assert (Hx := row_of_elem _ _ Hnd Hr'). rewrite Hl, E, Hi, bool_decide_true in Hx by done. by injection Hx as <-. }
  intros at_ tenant. split.
  - intros (r' & Hr' & E & Hg)%due_for_retry. rewrite (Hrow r' Hr' E) in Hg. cbn in Hg. congruence.
  - intros Hlt (r' & x & Hr' & E & Hx & Hle)%due_for_renewal. rewrite (Hrow r' Hr' E) in Hx. cbn in Hx. injection Hx as <-. cbn in Hle. lia.
Qed.

Definition sample_subscribed_run : Interleaved :=
  default (mkInterleaved empty_billing []) (run_actions (il_do exec) (sample_subscribe (sample_spec 1000)) (mkInterleaved empty_billing [])).
Abbreviation sample_subscribed := (il_store sample_subscribed_run).
Definition sample_prepared : result string * BillingStore :=
  prepare (fun n => "z" +:+ show_nat n) first_due (fun _ => "later") true "s0" "platform" sample_subscribed sample_subscribed sample_subscribed sample_subscribed.

Lemma crash_strands_renewal_invoice_witness :
  exists r sch, row_of "z0" (bs_invoices sample_prepared.2) = Some r /\ iv_status (row_props r) = is_issued /\ iv_subscriptionRef (row_props r) = "s0" /\
    (row_of "s0" (bs_subscriptions sample_subscribed) ≫= (fun sub => sb_renewalSchedule (row_props sub))) = Some sch /\
    forall at_ tenant, ("s0" ∉ ListSubscriptionsDueForDunningRetry at_ tenant sample_prepared.2) /\
      (at_ < nextRenewalAt sch + cycleDays sch * DAY_MS -> "s0" ∉ ListSubscriptionsDueForRenewal at_ tenant sample_prepared.2).
Proof.
  assert (Hok : store_ok sample_subscribed).
  { refine (proj1 (billing_run_ok (sample_subscribe (sample_spec 1000)) sample_subscribed_run _)). vm_compute. reflexivity. }
  assert (Hp : prepare (fun n => "z" +:+ show_nat n) first_due (fun _ => "later") true "s0" "platform" sample_subscribed sample_subscribed sample_subscribed
    sample_subscribed = (Ok "z0", sample_prepared.2)) by (vm_compute; reflexivity).
  exact (crash_strands_renewal_invoice (fun n => "z" +:+ show_nat n) first_due (fun _ => "later") true "s0" "platform" sample_subscribed sample_subscribed
    sample_subscribed sample_subscribed "z0" sample_prepared.2 Hok (reflexivity _) Hok (reflexivity _) Hok Hp).
Defined.

(** A lost renewal race is committed. The conflict on the subscription is caught inside the transaction
    and returned, which commits what the transaction wrote before it: the renewal fails, but its invoice
    stays behind, issued for the period the other worker bills, and a coupon is spent on it. *)
Theorem lost_renewal_race_is_committed :
  exists st, run_actions rn_do lost_race rn_start = Some st /\ (fun b => (bl_invoice b, bl_period b, bl_returned b)) <$> rn_bills st = [("x0", first_due, true); ("y0", first_due, false)] /\
    (fun r => (row_id r, iv_subscriptionRef (row_props r), iv_status (row_props r), totalMinor (row_props r))) <$> bs_invoices (rn_store st) =
      [("x0", "s0", is_issued, Ok 1000); ("y0", "s0", is_issued, Ok 700)] /\
    (fun r => (cp_status (row_props r), cp_redemption (row_props r))) <$> bs_coupons (rn_store st) = [(cs_redeemed, Some (mkRedemption "y0" first_due))].
Proof.
  exists (default rn_start (run_actions rn_do lost_race rn_start)). split; [vm_compute; reflexivity|]. split; [vm_compute; reflexivity|].
  split; vm_compute; reflexivity.
Qed.
