(* ===== verification/BillingDunning.v ===== *)
(** Dunning ends: the retries of [RetryDunningInvoice] on a subscription in grace, whatever the PSP answers.
    Each retry re-issues the failed invoice, collects it and either recovers the subscription or counts an
    attempt, and the attempts are as many as the policy says. *)
From S2P Require Import Prelude Kernel Optimistic Store Plans Invoices BillingFlow BillingSafety BillingCalendar.

#[global] Open Scope Z_scope.

(** ** Transactions on what the store holds *)

Definition invoice_at (s : BillingStore) (i t : string) (st : InvoiceStatus) (n : Z) : Prop :=
  exists r, row_of i (bs_invoices s) = Some r /\ row_tenant r = t /\ iv_status (row_props r) = st /\ totalMinor (row_props r) = Ok n.
Definition subscription_at (s : BillingStore) (id t : string) (p : SubscriptionProps) : Prop :=
  exists r, row_of id (bs_subscriptions s) = Some r /\ row_tenant r = t /\ row_props r = p.

Lemma findInvoice_current s i t r : billing_wf s -> row_of i (bs_invoices s) = Some r -> row_tenant r = t -> findInvoice i t s = Some (rehydrate r).
Proof. intros (_&_&Hw&_) Hr Ht. unfold findInvoice. by apply find_by_id_current. Qed.
Lemma findSubscription_current s id t r : billing_wf s -> row_of id (bs_subscriptions s) = Some r -> row_tenant r = t -> findSubscription id t s = Some (rehydrate r).
Proof. intros (_&Hw&_) Hr Ht. unfold findSubscription. by apply find_by_id_current. Qed.

Lemma saveInvoice_current s (r : Row InvoiceProps) (a : Invoice) :
  billing_wf s -> row_of (row_id r) (bs_invoices s) = Some r -> agg_id a = row_id r -> agg_version a = row_version r -> fixed_fields (row_props r) (agg_props a) ->
  exists s', saveInvoice a (row_tenant r) s = (Ok tt, s') /\ billing_wf s' /\ bs_subscriptions s' = bs_subscriptions s /\
    row_of (row_id r) (bs_invoices s') = Some (mkRow (row_tenant r) (row_id r) (row_version r + 1) (agg_props a)).
Proof.
  intros Hw Hr Hi Hv HF. assert (Hx : exists s', saveInvoice a (row_tenant r) s = (Ok tt, s')).
  { unfold saveInvoice, save_row. apply (save_current _ _ _ _ r); [apply Hw|by rewrite Hi|done|done]. }
  destruct Hx as (s' & Hs). exists s'. split; [done|]. destruct (good_saveInvoice _ _ _ _ _ Hw Hs) as [Hw' _]. split; [done|].
  assert (Hin : r ∈ bs_invoices s) by (by apply row_of_Some in Hr as [? _]).
  destruct (saveInvoice_loaded s r a _ s tt s' Hw ltac:(reflexivity) Hw Hin Hi Hv HF Hs) as ([_ Hl] & _ & Hsub & _).
  split; [done|]. by rewrite Hl, bool_decide_true.
Qed.

Lemma transition_returns to eid now action (a : Invoice) : to ∈ INVOICE_TRANSITIONS (iv_status (agg_props a)) ->
  exists a', run_on a (invoice_transition to eid now action) = Ok a' /\ agg_id a' = agg_id a /\ agg_version a' = agg_version a /\
    agg_props a' = iv_with_status to (agg_props a).
Proof.
  intros Hto. unfold run_on, invoice_transition, invoice_raise, set_props, gets, throw_if, mbind, M_bind, mret, M_ret, addDomainEvent. cbn.
  rewrite bool_decide_true by done. cbn. by eexists.
Qed.
Lemma paid_returns ref eid now (a : Invoice) : is_paid ∈ INVOICE_TRANSITIONS (iv_status (agg_props a)) ->
  exists a', run_on a (markPaid ref eid now) = Ok a' /\ agg_id a' = agg_id a /\ agg_version a' = agg_version a /\
    agg_props a' = iv_with_status is_paid (iv_with_reference ref (agg_props a)).
Proof.
  intros Hto. unfold run_on, markPaid, invoice_transition, invoice_raise, set_props, gets, throw_if, mbind, M_bind, mret, M_ret, addDomainEvent. cbn.
  rewrite bool_decide_true by done. cbn. by eexists.
Qed.

(** Calling and saving an invoice in one transaction. *)
Lemma call_and_save (m : InvoiceM unit) (f : InvoiceProps -> InvoiceProps) s (r : Row InvoiceProps) :
  billing_wf s -> row_of (row_id r) (bs_invoices s) = Some r ->
  (exists a', run_on (rehydrate r) m = Ok a' /\ agg_id a' = row_id r /\ agg_version a' = row_version r /\ agg_props a' = f (row_props r)) ->
  fixed_fields (row_props r) (f (row_props r)) -> totalMinor (f (row_props r)) = totalMinor (row_props r) ->
  exists a' s', run_on (rehydrate r) m = Ok a' /\ saveInvoice a' (row_tenant r) s = (Ok tt, s') /\
    billing_wf s' /\ bs_subscriptions s' = bs_subscriptions s /\
    forall n, totalMinor (row_props r) = Ok n -> invoice_at s' (row_id r) (row_tenant r) (iv_status (f (row_props r))) n.
Proof.
  intros Hw Hr (a' & Hm & Hi & Hv & Hp) HF Ht. destruct (saveInvoice_current s r a' Hw Hr Hi Hv) as (s' & Hs & Hw' & Hsub & Hr'); [by rewrite Hp|].
  exists a', s'. split_and!; [done..|]. intros n Hn. eexists. split; [exact Hr'|]. cbn. rewrite Hp, Ht. done.
Qed.

Lemma IssueInvoice_returns gen now s i t n : billing_wf s -> invoice_at s i t is_failed n ->
  exists x s', IssueInvoice gen now i t s s = (Ok x, s') /\ billing_wf s' /\ bs_subscriptions s' = bs_subscriptions s /\ invoice_at s' i t is_issued n.
Proof.
  intros Hw (r & Hr & <- & Hst & Hn). assert (Hi := proj2 (row_of_Some _ _ _ Hr)). subst i. unfold IssueInvoice. rewrite (findInvoice_current s _ _ r Hw Hr eq_refl).
  destruct (call_and_save (issue (gen 0%nat) now) (iv_with_status is_issued) s r Hw Hr) as (a' & s' & Hm & Hs & Hw' & Hsub & Hx); [|done|done|].
  { apply transition_returns. cbn. rewrite Hst. left. }
  exists (agg_id a'), s'. split; [|split; [done|split; [done|by apply Hx]]]. unfold require, call, lift, mbind, M_bind. rewrite Hm. by rewrite Hs.
Qed.
Lemma settleFailure_returns gen now s i t n : billing_wf s -> invoice_at s i t is_issued n ->
  exists s', settleFailure gen now i t s s = (Ok tt, s') /\ billing_wf s' /\ bs_subscriptions s' = bs_subscriptions s /\ invoice_at s' i t is_failed n.
Proof.
  intros Hw (r & Hr & <- & Hst & Hn). assert (Hi := proj2 (row_of_Some _ _ _ Hr)). subst i. unfold settleFailure. rewrite (findInvoice_current s _ _ r Hw Hr eq_refl).
  change (agg_props (rehydrate r)) with (row_props r). rewrite (bool_decide_true (iv_status (row_props r) = is_issued)) by done.
  destruct (call_and_save (markFailed (gen 0%nat) now) (iv_with_status is_failed) s r Hw Hr) as (a' & s' & Hm & Hs & Hw' & Hsub & Hx); [|done|done|].
  { apply transition_returns. cbn. rewrite Hst. right. left. }
  exists s'. split; [|split; [done|split; [done|by apply Hx]]]. unfold call. rewrite Hm. unfold lift, mbind, M_bind. done.
Qed.
Lemma settleSuccess_returns gen now s i t n ref : billing_wf s -> invoice_at s i t is_issued n ->
  exists s', settleSuccess gen now i ref t s s = (Ok false, s') /\ billing_wf s' /\ bs_subscriptions s' = bs_subscriptions s /\ invoice_at s' i t is_paid n.
Proof.
  intros Hw (r & Hr & <- & Hst & Hn). assert (Hi := proj2 (row_of_Some _ _ _ Hr)). subst i. unfold settleSuccess. rewrite (findInvoice_current s _ _ r Hw Hr eq_refl).
  unfold require, lift. unfold mbind at 1, M_bind at 1. change (agg_props (rehydrate r)) with (row_props r).
  rewrite (bool_decide_false (iv_status (row_props r) = is_paid)) by congruence.
  destruct (call_and_save (markPaid ref (gen 0%nat) now) (fun p => iv_with_status is_paid (iv_with_reference ref p)) s r Hw Hr) as (a' & s' & Hm & Hs & Hw' & Hsub & Hx); [|done|done|].
  { apply paid_returns. cbn. rewrite Hst. left. }
  exists s'. split; [|split; [done|split; [done|by apply Hx]]]. unfold call. rewrite Hm. unfold lift, mbind, M_bind. by rewrite Hs.
Qed.

(** *** Subscriptions *)

Lemma saveSubscription_current s (r : Row SubscriptionProps) (a : Subscription) :
  billing_wf s -> row_of (row_id r) (bs_subscriptions s) = Some r -> agg_id a = row_id r -> agg_version a = row_version r ->
  sb_tenantRef (agg_props a) = sb_tenantRef (row_props r) ->
  exists s', saveSubscription a (row_tenant r) s = (Ok tt, s') /\ billing_wf s' /\ bs_invoices s' = bs_invoices s /\
    row_of (row_id r) (bs_subscriptions s') = Some (mkRow (row_tenant r) (row_id r) (row_version r + 1) (agg_props a)).
Proof.
  intros Hw Hr Hi Hv HF. assert (Hx : exists s', saveSubscription a (row_tenant r) s = (Ok tt, s')).
  { unfold saveSubscription, save_row. apply (save_current _ _ _ _ r); [apply Hw|by rewrite Hi|done|done]. }
  destruct Hx as (s' & Hs). exists s'. split; [done|]. destruct (good_saveSubscription _ _ _ _ _ Hw Hs) as [Hw' _]. split; [done|].
  assert (Hk : keeps bs_invoices (saveSubscription a (row_tenant r))) by eauto with keeps. split; [by apply (Hk _ _ _ Hs)|].
  unfold saveSubscription, save_row in Hs. destruct Hw as (_&Hw&_). assert (Hin : r ∈ bs_subscriptions s) by (by apply row_of_Some in Hr as [? _]).
  eapply save_row_loaded in Hs as (_ & _ & Hl); [|exact Hw|exact Hin|reflexivity|exact Hw|exact Hi|exact Hv]. cbn in Hl. rewrite Hl, bool_decide_true by done.
  rewrite <- HF. by destruct (agg_props a).
Qed.

(** What [grace -> to] and then [setRetryPolicy x] leave. *)
Lemma leave_grace to eid now action (r : Row SubscriptionProps) : sb_status (row_props r) = ss_grace -> to ∈ SUBSCRIPTION_TRANSITIONS ss_grace ->
  exists a a', run_on (rehydrate r) (subscription_transition to eid now action) = Ok a /\ run_on a (setRetryPolicy None) = Ok a' /\
    agg_id a' = row_id r /\ agg_version a' = row_version r /\ agg_props a' = sb_with_retry None (sb_with_status to (row_props r)).
Proof.
  intros Hst Hto. unfold run_on at 1, subscription_transition, subscription_raise, set_props, gets, throw_if, mbind, M_bind, mret, M_ret, addDomainEvent. cbn.
  rewrite Hst, bool_decide_true by done. cbn. do 2 eexists. split; [done|]. split; [done|]. done.
Qed.

Definition out_of_grace (s : BillingStore) (id t : string) (st : SubscriptionStatus) : Prop :=
  exists r, row_of id (bs_subscriptions s) = Some r /\ row_tenant r = t /\ sb_status (row_props r) = st.
Definition in_dunning (s : BillingStore) (id t i : string) (k : Z) : Prop :=
  exists r rp, row_of id (bs_subscriptions s) = Some r /\ row_tenant r = t /\ sb_status (row_props r) = ss_grace /\
    sb_retryPolicy (row_props r) = Some rp /\ rp_attempt rp = k /\ rp_invoiceRef rp = Some i.

Lemma recover_returns gen now s id t i k : billing_wf s -> in_dunning s id t i k ->
  exists s', recover gen now id t i s s = (Ok (mkRetryOutput i recovered ss_active), s') /\ billing_wf s' /\ bs_invoices s' = bs_invoices s /\
    out_of_grace s' id t ss_active.
Proof.
  intros Hw (r & rp & Hr & <- & Hst & _). assert (Hi := proj2 (row_of_Some _ _ _ Hr)). subst id.
  destruct (leave_grace ss_active (gen 0%nat) now "recovered_from_grace" r Hst) as (a & a' & H1 & H2 & Hid & Hv & Hp); [left|].
  destruct (saveSubscription_current s r a' Hw Hr Hid Hv) as (s' & Hs & Hw' & Hinv & Hr'); [by rewrite Hp|].
  exists s'. split; [|split; [done|split; [done|]]].
  - unfold recover. rewrite (findSubscription_current s _ _ r Hw Hr eq_refl). unfold require, lift. unfold mbind at 1, M_bind at 1.
    change (agg_props (rehydrate r)) with (row_props r). rewrite (bool_decide_true _ Hst). unfold call, recoverFromGrace, lift, mbind, M_bind.
    rewrite H1, H2, Hs. cbn. by rewrite Hp.
  - eexists. split; [exact Hr'|]. cbn. by rewrite Hp.
Qed.

Lemma reschedule_returns gen now policy s id t i k n : buildPolicy (Some policy) = Ok policy -> billing_wf s -> in_dunning s id t i k -> 0 <= k ->
  exists out s', rescheduleOrExhaust gen now policy id t i n s s = (Ok out, s') /\ billing_wf s' /\ bs_invoices s' = bs_invoices s /\
    if bool_decide (dp_maxAttempts policy <= k + 1) then out_of_grace s' id t ss_expired /\ rt_outcome out = exhausted
    else in_dunning s' id t i (k + 1) /\ rt_outcome out = retry_scheduled.
Proof.
  intros Hpol Hw (r & rp & Hr & <- & Hst & Hrp & Hk & Hinv) H0. assert (Hi := proj2 (row_of_Some _ _ _ Hr)). subst id.
  unfold rescheduleOrExhaust. rewrite (findSubscription_current s _ _ r Hw Hr eq_refl). rewrite require_found.
  change (agg_props (rehydrate r)) with (row_props r). cbv zeta. rewrite (bool_decide_true _ Hst), Hrp. cbn [fmap option_fmap option_map default negb]. rewrite Hk. change (id k) with k.
  case_bool_decide as Hmax.
  - destruct (leave_grace ss_expired (gen 0%nat) now "dunning_exhausted" r Hst) as (a & a' & H1 & H2 & Hid & Hv & Hp); [right; left|].
    destruct (saveSubscription_current s r a' Hw Hr Hid Hv) as (s' & Hs & Hw' & Hsame & Hr'); [by rewrite Hp|].
    eexists _, s'. split; [unfold call, exhaustDunning, lift, mbind, M_bind; rewrite H1, H2, Hs; reflexivity|]. split; [done|]. split; [done|]. split; [|done].
    eexists. split; [exact Hr'|]. cbn. by rewrite Hp.
  - assert (Hdays : exists days, retryIntervalDays policy (k + 1) = Ok days).
    { unfold buildPolicy in Hpol. cbn [default] in Hpol. cbv zeta in Hpol. cbn in Hpol. destruct (bool_decide (Z.of_nat _ = _)) eqn:Hlen; [|done]. apply bool_decide_eq_true in Hlen.
      unfold retryIntervalDays. rewrite bool_decide_true by lia. destruct (lookup_lt_is_Some_2 (dp_retryIntervalsDays policy) (Z.to_nat (k + 1))) as [d ->]; [lia|by eexists]. }
    destruct Hdays as (days & Hdays). set (rp' := mkRetryPolicy (dp_maxAttempts policy) (k + 1) (Some (now + days * DAY_MS)) (Some i)).
    assert (Hset : exists a', run_on (rehydrate r) (setRetryPolicy (Some rp')) = Ok a' /\ agg_id a' = row_id r /\ agg_version a' = row_version r /\
      agg_props a' = sb_with_retry (Some rp') (row_props r)) by (eexists; done).
    destruct Hset as (a' & H1 & Hid & Hv & Hp). destruct (saveSubscription_current s r a' Hw Hr Hid Hv) as (s' & Hs & Hw' & Hsame & Hr'); [by rewrite Hp|].
    eexists _, s'. split; [unfold call, lift, mbind, M_bind; rewrite Hdays; fold rp'; rewrite H1, Hs; reflexivity|]. split; [done|]. split; [done|]. split; [|done].
    eexists _, rp'. split; [exact Hr'|]. cbn. rewrite Hp. done.
Qed.

(** ** Collecting and retrying *)

Section retries.
Context {Psp Ledger : Type} `{PaymentsPort Psp Ledger} `{FinanceLedgerPort Ledger}.
Abbreviation World := (World Psp Ledger).

(** The PSP keeps to itself: collecting leaves Licensing's tables alone. *)
Definition port_apart : Prop := forall payer n cur key t (w : World), wd_billing (port_collect payer n cur key t w).2 = wd_billing w.
Context (Hport : port_apart).

Definition settled (w : World) (w' : World) (i t : string) (st : InvoiceStatus) (n : Z) : Prop :=
  billing_wf (wd_billing w') /\ bs_subscriptions (wd_billing w') = bs_subscriptions (wd_billing w) /\ invoice_at (wd_billing w') i t st n.

Lemma txn_Ok {A} (m : BillingStore -> BillingM A) (w : World) x s' : m (wd_billing w) (wd_billing w) = (Ok x, s') ->
  txn m w = (Ok x, mkWorld s' (wd_psp w) (wd_ledger w)).
Proof. intros H1. unfold txn, on_billing, in_txn. by rewrite H1. Qed.

Lemma returned_Ok {A} (m : M World A) w x w' : m w = (Ok x, w') -> returned m w = (Ok (Ok x), w').
Proof. unfold returned. by intros ->. Qed.

Lemma retry_Ok {A} n (m : M World A) w x w' : m w = (Ok x, w') -> (0 < n)%nat -> withConcurrencyRetry n m w = (Ok x, w').
Proof. intros Hm Hn. destruct n as [|n]; [lia|]. unfold withConcurrencyRetry. cbn. by rewrite Hm. Qed.

Lemma CollectInvoice_returns gens now i t n (w : World) : billing_wf (wd_billing w) -> invoice_at (wd_billing w) i t is_issued n -> n <> 0 ->
  exists r w', CollectInvoice gens now 1 i t w = (r, w') /\
    ((r = Ok (Ok i) /\ settled w w' i t is_paid n) \/ ((exists e, r = Err e) /\ settled w w' i t is_failed n)).
Proof.
  intros Hw Hi Hn. assert (Hpre : exists pc, precheck i t (wd_billing w) = Ok pc /\ pc_alreadyPaid pc = false /\ pc_zeroDueReference pc = None).
  { destruct Hi as (r & Hr & Ht & Hst & Htot). unfold precheck. rewrite (findInvoice_current _ _ _ r Hw Hr Ht). change (agg_props (rehydrate r)) with (row_props r).
    rewrite Htot. unfold mbind. cbn -[bool_decide]. rewrite Hst, (bool_decide_false (is_issued = is_paid)), (bool_decide_true (is_issued = is_issued)), (bool_decide_false (n = 0)) by done.
    cbn. eexists. done. }
  destruct Hpre as (pc & Hpre & Hap & Hz). unfold CollectInvoice. unfold gets at 1. unfold mbind at 1, M_bind at 1. rewrite Hpre, Hap, Hz. unfold mbind at 1, M_bind at 1.
  unfold collect_or_fail. assert (Hb := Hport (pc_tenantRef pc) (pc_totalMinor pc) (pc_currency pc) (collect_key i (pc_version pc)) t w).
  destruct (port_collect _ _ _ _ _ w) as [[ref|e] w1]; cbn in Hb; rewrite <- Hb in Hw, Hi.
  - destruct (settleSuccess_returns (gens 1%nat) now _ i t n ref Hw Hi) as (s' & Hs & Hw' & Hsub & Hi').
    assert (Hset : settle gens now 1 i ref t w1 = (Ok (Ok false), mkWorld s' (wd_psp w1) (wd_ledger w1))).
    { unfold settle, returned. erewrite retry_Ok; [reflexivity|apply (txn_Ok (settleSuccess (gens 1%nat) now i ref t)); exact Hs|unfold SETTLE_RETRIES; lia]. }
    unfold mbind at 1, M_bind at 1. rewrite Hset. unfold mbind at 1, M_bind at 1. unfold post_best_effort.
    destruct (postSettlement _ _ _ _ _) as [[u|e] l]; (eexists _, _; split; [reflexivity|]; left; split; [done|]; unfold settled; cbn; rewrite <- Hb; done).
  - destruct (settleFailure_returns (gens 1%nat) now _ i t n Hw Hi) as (s' & Hs & Hw' & Hsub & Hi').
    unfold mbind at 1, M_bind at 1. rewrite (txn_Ok (settleFailure (gens 1%nat) now i t) w1 tt s' Hs).
    eexists _, _. split; [reflexivity|]. right. split; [by eexists|]. unfold settled. cbn. rewrite <- Hb. done.
Qed.

Lemma CollectInvoice_paid gens now i t n (w : World) : billing_wf (wd_billing w) -> invoice_at (wd_billing w) i t is_paid n ->
  CollectInvoice gens now 1 i t w = (Ok (Ok i), w).
Proof.
  intros Hw (r & Hr & Ht & Hst & Htot). unfold CollectInvoice. unfold gets at 1. unfold mbind at 1, M_bind at 1. unfold precheck.
  rewrite (findInvoice_current _ _ _ r Hw Hr Ht). change (agg_props (rehydrate r)) with (row_props r). rewrite Htot. cbn. by rewrite Hst.
Qed.

Section policy.
Context (policy : DunningPolicy) (Hpol : buildPolicy (Some policy) = Ok policy).

(** A subscription in grace for an invoice that can still be collected, after [k] retries. *)
Definition dunning_state (w : World) (id t i : string) (n k : Z) : Prop :=
  billing_wf (wd_billing w) /\ in_dunning (wd_billing w) id t i k /\
  exists st, invoice_at (wd_billing w) i t st n /\ st ∈ [is_failed; is_issued; is_paid].

Definition recovered_state (w : World) (id t i : string) (n : Z) : Prop :=
  billing_wf (wd_billing w) /\ out_of_grace (wd_billing w) id t ss_active /\ invoice_at (wd_billing w) i t is_paid n.
Definition exhausted_state (w : World) (id t i : string) (n : Z) : Prop :=
  billing_wf (wd_billing w) /\ out_of_grace (wd_billing w) id t ss_expired /\ invoice_at (wd_billing w) i t is_failed n.

(** From its subscription and an invoice ready to collect. *)
Definition collect_and_settle (gens : nat -> nat -> string) (now : Z) (id t i : string) (attempt : Z) : M World (result RetryOutput) := fun w =>
  match CollectInvoice gens now 1 i t w with
  | (Ok (Ok _), w') => returned (txn (recover (gens 2%nat) now id t i)) w'
  | (Ok (Err e), w') => (Ok (Err e), w')
  | (Err e, w') =>
      if invoice_failed i t w' then returned (txn (rescheduleOrExhaust (gens 2%nat) now policy id t i attempt)) w' else (Err e, w')
  end.

Lemma invoices_same s s' i t st n : bs_invoices s' = bs_invoices s -> invoice_at s i t st n -> invoice_at s' i t st n.
Proof. unfold invoice_at. by intros ->. Qed.
Lemma in_dunning_same s s' id t i k : bs_subscriptions s' = bs_subscriptions s -> in_dunning s id t i k -> in_dunning s' id t i k.
Proof. unfold in_dunning. by intros ->. Qed.

Definition retried (out : RetryOutput) (w' : World) (id t i : string) (n k : Z) : Prop :=
  (rt_outcome out = recovered /\ recovered_state w' id t i n) \/
  (rt_outcome out = exhausted /\ exhausted_state w' id t i n) \/
  (rt_outcome out = retry_scheduled /\ dunning_state w' id t i n (k + 1) /\ k + 1 < dp_maxAttempts policy).

Lemma recover_step gens now id t i n k (w : World) : billing_wf (wd_billing w) -> in_dunning (wd_billing w) id t i k -> invoice_at (wd_billing w) i t is_paid n ->
  exists out w', returned (txn (recover (gens 2%nat) now id t i)) w = (Ok (Ok out), w') /\ retried out w' id t i n k.
Proof.
  intros Hw Hd Hi. destruct (recover_returns (gens 2%nat) now _ id t i k Hw Hd) as (s' & Hs & Hw' & Hinv & Hout). unfold returned.
  rewrite (txn_Ok (recover (gens 2%nat) now id t i) w _ s' Hs). eexists _, _. split; [reflexivity|]. left. split; [done|]. split; [done|]. split; [done|]. by eapply invoices_same.
Qed.

Lemma collect_and_settle_returns gens now id t i n k attempt st (w : World) :
  billing_wf (wd_billing w) -> in_dunning (wd_billing w) id t i k -> invoice_at (wd_billing w) i t st n -> st = is_issued \/ st = is_paid -> 0 <= k -> n <> 0 ->
  exists out w', collect_and_settle gens now id t i attempt w = (Ok (Ok out), w') /\ retried out w' id t i n k.
Proof.
  intros Hw Hd Hi Hst Hk Hn. unfold collect_and_settle. destruct Hst as [-> | ->].
  - destruct (CollectInvoice_returns gens now i t n w Hw Hi Hn) as (r & w1 & -> & [[-> (Hw1 & Hs1 & Hi1)]|[[e ->] (Hw1 & Hs1 & Hi1)]]); apply (in_dunning_same _ _ _ _ _ _ Hs1) in Hd.
    + by apply recover_step.
    + assert (invoice_failed i t w1 = true) as ->.
      { unfold invoice_failed. destruct Hi1 as (r & Hr & Ht & Hst & _). rewrite (findInvoice_current _ _ _ r Hw1 Hr Ht). by apply bool_decide_eq_true. }
      destruct (reschedule_returns (gens 2%nat) now policy _ id t i k attempt Hpol Hw1 Hd Hk) as (out & s' & Hs & Hw' & Hinv & Hout). unfold returned.
      rewrite (txn_Ok (rescheduleOrExhaust (gens 2%nat) now policy id t i attempt) w1 _ s' Hs). eexists out, _. split; [reflexivity|].
      apply (invoices_same _ _ _ _ _ _ Hinv) in Hi1. case_bool_decide; destruct Hout as [Hout Ho].
      * right. left. by split_and!.
      * right. right. split; [done|]. split; [|lia]. split; [done|]. split; [done|]. exists is_failed. split; [done|left].
  - rewrite (CollectInvoice_paid gens now i t n w Hw Hi). by apply recover_step.
Qed.

Lemma retry_step gens now id t i n k (w : World) : dunning_state w id t i n k -> 0 <= k -> n <> 0 ->
  exists out w', RetryDunningInvoice gens now policy id t w = (Ok (Ok out), w') /\ retried out w' id t i n k.
Proof.
  intros (Hw & Hd & st & Hi & Hst) Hk Hn. destruct Hd as (r & rp & Hr & Ht & Hgr & Hrp & Hat & Href).
  assert (Hd : in_dunning (wd_billing w) id t i k) by (exists r, rp; done).
  unfold RetryDunningInvoice. rewrite gets_bind. rewrite (findSubscription_current _ _ _ r Hw Hr Ht). change (agg_props (rehydrate r)) with (row_props r).
  cbv zeta. rewrite (bool_decide_false (sb_status (row_props r) = ss_active)), (bool_decide_true (sb_status (row_props r) = ss_grace)) by congruence. rewrite Hrp.
  assert ((x ← Some rp; rp_invoiceRef x) = Some i) as -> by exact Href. rewrite gets_bind.
  destruct Hi as (ri & Hri & Hti & Hsti & Htot). rewrite (findInvoice_current _ _ _ ri Hw Hri Hti). change (agg_props (rehydrate ri)) with (row_props ri).
  assert (Hi : invoice_at (wd_billing w) i t st n) by (by exists ri).
  rewrite !elem_of_cons, elem_of_nil in Hst. destruct Hst as [-> |[-> |[-> |[]]]]; rewrite Hsti.
  - destruct (IssueInvoice_returns (gens 0%nat) now _ i t n Hw Hi) as (x & s' & Hs & Hw' & Hsub & Hi'). 
    rewrite (run_bind _ _ w (Ok x) (mkWorld s' (wd_psp w) (wd_ledger w))) by exact (returned_Ok _ _ _ _ (txn_Ok (IssueInvoice (gens 0%nat) now i t) w x s' Hs)).
    apply (collect_and_settle_returns gens now id t i n k _ is_issued (mkWorld s' (wd_psp w) (wd_ledger w))); [done|by eapply in_dunning_same|done|by left|done|done].
  - rewrite (run_bind _ _ w (Ok i) w) by reflexivity. apply (collect_and_settle_returns gens now id t i n k _ is_issued w); [done|done|done|by left|done|done].
  - rewrite (run_bind _ _ w (Ok i) w) by reflexivity. apply (collect_and_settle_returns gens now id t i n k _ is_paid w); [done|done|done|by right|done|done].
Qed.

(** The runs of the job for one subscription: each call has its own ids and clock. *)
Fixpoint retry_all (calls : list ((nat -> nat -> string) * Z)) (id t : string) : M World (list (result RetryOutput)) :=
  match calls with
  | [] => mret []
  | (gens, now) :: rest => r ← RetryDunningInvoice gens now policy id t; rs ← retry_all rest id t; mret (r :: rs)
  end.

Lemma retry_all_cons gens now rest id t w r w1 rs w2 : RetryDunningInvoice gens now policy id t w = (Ok r, w1) -> retry_all rest id t w1 = (Ok rs, w2) ->
  retry_all ((gens, now) :: rest) id t w = (Ok (r :: rs), w2).
Proof. intros H1 H2. cbn. unfold mbind, M_bind. by rewrite H1, H2. Qed.

(** Once out of grace, a retry changes nothing. *)
Lemma retry_done gens now id t st (w : World) : billing_wf (wd_billing w) -> out_of_grace (wd_billing w) id t st -> st <> ss_grace ->
  exists r, RetryDunningInvoice gens now policy id t w = (Ok r, w).
Proof.
  intros Hw (r & Hr & Ht & Hst) Hn. unfold RetryDunningInvoice. rewrite gets_bind. rewrite (findSubscription_current _ _ _ r Hw Hr Ht).
  change (agg_props (rehydrate r)) with (row_props r). cbv zeta. case_bool_decide; [by eexists|]. rewrite bool_decide_false by congruence. by eexists.
Qed.
Lemma retry_all_done calls id t st (w : World) : billing_wf (wd_billing w) -> out_of_grace (wd_billing w) id t st -> st <> ss_grace ->
  exists rs, retry_all calls id t w = (Ok rs, w).
Proof.
  intros Hw Ho Hn. induction calls as [|[gens now] rest [rs IH]]; [by exists []|]. destruct (retry_done gens now id t st w Hw Ho Hn) as [r Hr].
  eexists. by eapply retry_all_cons.
Qed.

Lemma retries_end calls id t i n k (w : World) : dunning_state w id t i n k -> 0 <= k < dp_maxAttempts policy -> n <> 0 ->
  dp_maxAttempts policy - k <= Z.of_nat (length calls) ->
  exists rs w', retry_all calls id t w = (Ok rs, w') /\ (recovered_state w' id t i n \/ exhausted_state w' id t i n).
Proof.
  revert k w. induction calls as [|[gens now] rest IH]; intros k w Hd Hk Hn Hlen; cbn in Hlen; [lia|].
  destruct (retry_step gens now id t i n k w Hd ltac:(lia) Hn) as (out & w1 & H1 & [[_ (Hw1 & Ho & Hi)]|[[_ (Hw1 & Ho & Hi)]|[_ [Hd' Hlt]]]]).
  - destruct (retry_all_done rest id t _ w1 Hw1 Ho) as [rs Hrs]; [done|]. eexists _, w1. split; [by eapply retry_all_cons|]. left. by split_and!.
  - destruct (retry_all_done rest id t _ w1 Hw1 Ho) as [rs Hrs]; [done|]. eexists _, w1. split; [by eapply retry_all_cons|]. right. by split_and!.
  - destruct (IH (k + 1) w1 Hd' ltac:(lia) Hn ltac:(lia)) as (rs & w2 & H2 & Hend). eexists _, w2. split; [by eapply retry_all_cons|done].
Qed.

End policy.
End retries.

(** The adapters of the repository keep to themselves. *)
Lemma on_psp_apart {Psp Ledger A} (m : M Psp A) (w : World Psp Ledger) : wd_billing (on_psp m w).2 = wd_billing w.
Proof. unfold on_psp. by destruct (m (wd_psp w)). Qed.
Lemma bind_apart {Psp Ledger A B} (m : M (World Psp Ledger) A) (g : A -> M (World Psp Ledger) B) w :
  (forall v, wd_billing (m v).2 = wd_billing v) -> (forall x v, wd_billing (g x v).2 = wd_billing v) -> wd_billing ((m ≫= g) w).2 = wd_billing w.
Proof. intros Hm Hg. unfold mbind, M_bind. specialize (Hm w). destruct (m w) as [[x|e] w1]; [|done]. by rewrite Hg. Qed.

Lemma stored_method_apart {Psp Ledger} open charge : @port_apart Psp Ledger (stored_method_port open charge).
Proof.
  intros payer n cur key t w. cbn. unfold StoredMethod_collect. do 3 (apply bind_apart; [intros u; by destruct (_ : bool)|intros _ ?]).
  apply bind_apart; [done|]. intros [m|] ?; [|done]. repeat (apply bind_apart; [done|intros ? ?]). apply on_psp_apart.
Qed.
Lemma platform_apart {Psp Ledger} create capture : @port_apart Psp Ledger (platform_port create capture).
Proof.
  intros payer n cur key t w. cbn. unfold Platform_collect. do 2 (apply bind_apart; [intros u; by destruct (_ : bool)|intros _ ?]).
  apply bind_apart; [intros ?; apply on_psp_apart|]. intros ? ?. apply bind_apart; [intros ?; apply on_psp_apart|done].
Qed.

(** ** Properties *)

(** C12: dunning ends. Whatever the PSP and the ledger answer and however many attempts a valid policy
    allows, as many runs of the retry job as attempts are left take a subscription in grace out of it: no
    run throws or waits for an operator, and it ends either active with its invoice paid or expired with
    its invoice failed. *)
Theorem dunning_ends {Psp Ledger} `{PaymentsPort Psp Ledger} `{FinanceLedgerPort Ledger} policy calls id t i n k (w : World Psp Ledger) :
  port_apart (Psp := Psp) (Ledger := Ledger) -> buildPolicy (Some policy) = Ok policy ->
  dunning_state w id t i n k -> 0 <= k < dp_maxAttempts policy -> n <> 0 -> dp_maxAttempts policy - k <= Z.of_nat (length calls) ->
  exists rs w', retry_all policy calls id t w = (Ok rs, w') /\
    ((out_of_grace (wd_billing w') id t ss_active /\ invoice_at (wd_billing w') i t is_paid n) \/
     (out_of_grace (wd_billing w') id t ss_expired /\ invoice_at (wd_billing w') i t is_failed n)).
Proof.
  intros Hport Hpol Hd Hk Hn Hlen. destruct (retries_end Hport policy Hpol calls id t i n k w Hd Hk Hn Hlen) as (rs & w' & Hr & [(_ & ? & ?)|(_ & ? & ?)]);
    exists rs, w'; tauto.
Qed.

(** A card that is declined twice and then accepted, under the default policy. *)
Definition sample_charge (req : ChargeRequest) : M nat string := fun calls =>
  (if (calls <? 2)%nat then Err (UnexpectedError "declined") else Ok "psp-1", S calls).
Definition sample_dunning : BillingStore := mkBilling []
  [mkRow "platform" "s0" 2 (mkSubscription "m1" "p0-v1" ss_grace (Some (mkRenewalSchedule 30 100)) (Some 11) (Some (mkRetryPolicy 3 0 (Some 5) (Some "i0"))) None None)]
  [mkRow "platform" "i0" 3 (mkInvoice "m1" "s0" "USD" [mkInvoiceLine "renewal" (NInt 1000)] is_failed None None)] []
  [mkRow "platform" "c0" 2 (mkMethod "m1" BILLING_PROVIDER "o1" (Some "i0") pm_active (Some "t") (Some "sealed") None None 1 1)] [].
Definition sample_retries : list ((nat -> nat -> string) * Z) := (fun now => (fun i j => show_nat i +:+ "-" +:+ show_nat j, now)) <$> [10; 20; 30].
#[local] Instance sample_port : PaymentsPort nat unit := stored_method_port (fun _ s => Ok s) sample_charge.
#[local] Instance sample_ledger : FinanceLedgerPort unit := {| postSettlement := fun _ _ _ _ => mret tt |}.

Lemma dunning_ends_witness :
  exists rs w', retry_all DEFAULT_DUNNING_POLICY sample_retries "s0" "platform" (mkWorld sample_dunning 0%nat tt) = (Ok rs, w') /\
    ((out_of_grace (wd_billing w') "s0" "platform" ss_active /\ invoice_at (wd_billing w') "i0" "platform" is_paid 1000) \/
     (out_of_grace (wd_billing w') "s0" "platform" ss_expired /\ invoice_at (wd_billing w') "i0" "platform" is_failed 1000)).
Proof.
  apply (dunning_ends DEFAULT_DUNNING_POLICY sample_retries "s0" "platform" "i0" 1000 0 (mkWorld sample_dunning 0%nat tt)).
  - apply stored_method_apart.
  - vm_compute. reflexivity.
  - split; [|split].
    + assert (Hone : forall P (r : Row P), (row_version r =? 0) = false -> 0 <= row_version r -> rows_wf [r]).
      { intros P r Hv H0. split; [apply NoDup_singleton|]. intros x ->%list_elem_of_singleton. lia. }
      assert (Hnil : forall P, @rows_wf P []) by (intros P; split; [constructor|intros r Hr; inversion Hr]).
      split_and!; first [apply Hnil|apply Hone; vm_compute; done].
    + eexists _, _. split; [vm_compute; reflexivity|]. vm_compute. done.
    + exists is_failed. split; [|left]. eexists. split; [vm_compute; reflexivity|]. vm_compute. done.
  - vm_compute. done.
  - done.
  - vm_compute. done.
Defined.
