(* ===== verification/Paging.v ===== *)
(** Cursor pages: [packages/repository/src/index.ts] and the queries every [list] of a Prisma repository
    makes with it: the rows after the cursor, ordered by id upwards or downwards, one more than the page
    holds. *)
From Stdlib Require Import Ascii.
From S2P Require Import Prelude Kernel Store.

#[global] Open Scope Z_scope.

(** ** The order of ids *)

(** [where: { id: { gt: after } }]; ids are compared by code units. *)
Definition string_gt (a b : string) : bool := negb (string_le a b).
Definition string_before (a b : string) : Prop := string_gt b a = true.

Lemma ascii_compare_trans c a b : Ascii.compare a b = Lt -> Ascii.compare b c = Lt -> Ascii.compare a c = Lt.
Proof. unfold Ascii.compare. rewrite !N.compare_lt_iff. lia. Qed.
Lemma string_compare_lt_trans b a c : String.compare a b = Lt -> String.compare b c = Lt -> String.compare a c = Lt.
Proof.
  revert a c. induction b as [|y b IH]; intros [|x a] [|z c]; cbn; try done.
  destruct (Ascii.compare x y) eqn:Exy; try done.
  - apply Ascii.compare_eq_iff in Exy as ->. destruct (Ascii.compare y z); try done. apply IH.
  - intros _. destruct (Ascii.compare y z) eqn:Eyz; try done.
    + apply Ascii.compare_eq_iff in Eyz as ->. by rewrite Exy.
    + by rewrite (ascii_compare_trans z x y).
Qed.
Lemma string_before_compare a b : string_before a b <-> String.compare a b = Lt.
Proof.
  unfold string_before, string_gt, string_le, String.leb. rewrite (String.compare_antisym a b). by destruct (String.compare b a).
Qed.
#[export] Instance string_before_strict : StrictOrder string_before.
Proof.
  split.
  - intros a. unfold complement. rewrite string_before_compare. pose proof (String.compare_antisym a a) as E. by destruct (String.compare a a).
  - intros a b c. rewrite !string_before_compare. apply string_compare_lt_trans.
Qed.
Lemma string_before_total a b : string_before a b \/ a = b \/ string_before b a.
Proof.
  rewrite !string_before_compare. destruct (String.compare a b) eqn:E; [right; left; by apply String.compare_eq_iff|by left|].
  right; right. rewrite String.compare_antisym, E. done.
Qed.

(** Most lists go up the ids, those of orders, customers, coupons, content, automation and the admin's
    promotions go down: [{ id: { gt: after } }] with [asc], [{ id: { lt: after } }] with [desc]. *)
Variant Direction := asc | desc.
Definition key_before (d : Direction) (a b : string) : bool := match d with asc => string_gt b a | desc => string_gt a b end.
Definition key_le (d : Direction) (a b : string) : bool := match d with asc => string_le a b | desc => string_le b a end.
Definition ahead (d : Direction) (a b : string) : Prop := key_before d a b = true.

#[local] Instance ahead_strict d : StrictOrder (ahead d).
Proof.
  destruct d; [exact string_before_strict|]. split; [exact (@StrictOrder_Irreflexive _ _ string_before_strict)|].
  intros a b c Hab Hbc. exact (@StrictOrder_Transitive _ _ string_before_strict c b a Hbc Hab).
Qed.
Lemma ahead_total d a b : ahead d a b \/ a = b \/ ahead d b a.
Proof. destruct d; destruct (string_before_total a b) as [?|[?|?]]; auto. Qed.
Lemma key_le_ahead d a b : key_le d a b = negb (key_before d b a).
Proof. destruct d; unfold key_le, key_before, string_gt; by rewrite negb_involutive. Qed.

(** ** Pages *)

Definition DEFAULT_PAGE_SIZE : Z := 50.
Definition MAX_PAGE_SIZE : Z := 100.
Definition normalizePageSize (first : option Z) : Z :=
  match first with None => DEFAULT_PAGE_SIZE | Some n => Z.max 1 (Z.min n MAX_PAGE_SIZE) end.

(** The encoding of a cursor is the identity. *)
Definition encodeCursor (sortKey : string) : string := sortKey.
Definition decodeCursor (cursor : string) : string := cursor.

Record CursorPage := mkCursorPage { cp_first : option Z; cp_after : option string }.
Record Paginated (T : Type) := mkPage { pg_items : list T; pg_hasNextPage : bool; pg_endCursor : option string }.
Arguments mkPage {T} _ _ _.
Arguments pg_items {T} _.
Arguments pg_hasNextPage {T} _.
Arguments pg_endCursor {T} _.

Section paging.
Context {T : Type} (sortKeyOf : T -> string) (d : Direction).

Definition buildPaginatedPage (overFetchedRows : list T) (first : Z) : Paginated T :=
  let hasNextPage := bool_decide (first < Z.of_nat (length overFetchedRows)) in
  let items := if hasNextPage then take (Z.to_nat first) overFetchedRows else overFetchedRows in
  mkPage items hasNextPage ((fun x => encodeCursor (sortKeyOf x)) <$> last items).

(** [where: { ...(after ? { id: { gt: after } } : {}) }, orderBy: { id: "asc" }, take: limit + 1], or [lt] and
    ["desc"]. *)
Definition by_key (rows : list T) : list T := sort_by (fun a b => key_le d (sortKeyOf a) (sortKeyOf b)) rows.
Definition after_cursor (after : option string) (rows : list T) : list T :=
  match after with None => rows | Some c => filter (fun x => key_before d c (sortKeyOf x) = true) rows end.
Definition page_of (page : CursorPage) (rows : list T) : Paginated T :=
  let limit := normalizePageSize (cp_first page) in
  buildPaginatedPage (take (Z.to_nat (limit + 1)) (by_key (after_cursor (decodeCursor <$> cp_after page) rows))) limit.

(** A client that asks for one page after the other, each answered from the rows there are by then, until
    there is no next one or it gives up; the flag says it got to the end. *)
Fixpoint follow (first : option Z) (after : option string) (tables : list (list T)) : list T * bool :=
  match tables with
  | [] => ([], false)
  | rows :: tables' =>
      let page := page_of (mkCursorPage first after) rows in
      if pg_hasNextPage page
      then let '(items, done_) := follow first (pg_endCursor page) tables' in (pg_items page ++ items, done_)
      else (pg_items page, true)
  end.

Definition beyond (after : option string) (k : string) : Prop := match after with None => True | Some c => ahead d c k end.
Definition sorted_keys (l : list T) : Prop := StronglySorted (fun a b => ahead d (sortKeyOf a) (sortKeyOf b)) l.

Lemma by_key_sorted rows : NoDup (sortKeyOf <$> rows) -> sorted_keys (by_key rows).
Proof.
  intros Hn. assert (Hs : StronglySorted (fun a b => ~ ahead d (sortKeyOf b) (sortKeyOf a)) (by_key rows)).
  { apply sort_by_sorted.
    - intros x y Hle Hb. unfold ahead in Hb. by rewrite key_le_ahead, Hb in Hle.
    - intros x y Hle Hb. rewrite key_le_ahead in Hle. apply negb_false_iff in Hle. by apply (StrictOrder_Asymmetric (ahead_strict d)) in Hb.
    - intros x y z Hxy Hyz Hzx. destruct (ahead_total d (sortKeyOf y) (sortKeyOf z)) as [H|[H|H]]; [|congruence|done]. apply Hxy. by etransitivity. }
  assert (Hk : NoDup (sortKeyOf <$> by_key rows)) by (unfold by_key; by rewrite sort_by_perm).
  induction Hs as [|x l Hs IH Hx]; [constructor|]. rewrite fmap_cons in Hk. apply NoDup_cons in Hk as [Hni Hk]. constructor; [by apply IH|].
  apply Forall_forall. intros y Hy. rewrite Forall_forall in Hx. specialize (Hx y Hy). destruct (ahead_total d (sortKeyOf x) (sortKeyOf y)) as [H|[H|H]]; [done| |done].
  destruct Hni. rewrite H. by apply list_elem_of_fmap_2.
Qed.

Lemma after_cursor_keys after rows : NoDup (sortKeyOf <$> rows) -> NoDup (sortKeyOf <$> after_cursor after rows).
Proof. intros Hn. destruct after; [|done]. eapply sublist_NoDup; [exact Hn|]. apply fmap_sublist, sublist_filter. Qed.
Lemma elem_of_after_cursor after rows x : x ∈ after_cursor after rows <-> x ∈ rows /\ beyond after (sortKeyOf x).
Proof. destruct after; cbn; [rewrite list_elem_of_filter; unfold ahead; tauto|tauto]. Qed.

Lemma sorted_app l1 l2 : sorted_keys (l1 ++ l2) <-> sorted_keys l1 /\ sorted_keys l2 /\ forall x y, x ∈ l1 -> y ∈ l2 -> ahead d (sortKeyOf x) (sortKeyOf y).
Proof.
  unfold sorted_keys. induction l1 as [|x l1 IH]; cbn.
  - split; [intros H; split; [constructor|]; split; [done|]; by intros x y ?%elem_of_nil|tauto].
  - split.
    + intros H. apply StronglySorted_inv in H as [Hs Hx]. apply IH in Hs as (H1 & H2 & H3). apply Forall_app in Hx as [Hx1 Hx2].
      split; [by constructor|]. split; [done|]. intros a b [->|Ha]%elem_of_cons Hb; [rewrite Forall_forall in Hx2; by apply Hx2|by apply H3].
    + intros (H1 & H2 & H3). apply StronglySorted_inv in H1 as [H1 Hx]. constructor.
      * apply IH. split; [done|]. split; [done|]. intros a b Ha Hb. apply H3; [by right|done].
      * apply Forall_app. split; [done|]. apply Forall_forall. intros b Hb. apply H3; [left|done].
Qed.

Lemma normalizePageSize_bounds first : 1 <= normalizePageSize first <= MAX_PAGE_SIZE.
Proof. unfold normalizePageSize, DEFAULT_PAGE_SIZE, MAX_PAGE_SIZE. destruct first; lia. Qed.

(** A page is the first of the rows beyond its cursor, in order; where there is a next one, its cursor is
    the key of its last row, and it is full. *)
Lemma page_of_spec page rows : NoDup (sortKeyOf <$> rows) ->
  exists rest, by_key (after_cursor (cp_after page) rows) = pg_items (page_of page rows) ++ rest /\
    (if pg_hasNextPage (page_of page rows)
     then Z.of_nat (length (pg_items (page_of page rows))) = normalizePageSize (cp_first page) /\ rest <> [] /\
          exists x, last (pg_items (page_of page rows)) = Some x /\ pg_endCursor (page_of page rows) = Some (sortKeyOf x)
     else rest = []).
Proof.
  intros Hn. destruct page as [first after]. cbn [cp_after cp_first]. unfold page_of. cbn [cp_after cp_first].
  replace (decodeCursor <$> after) with after by (by destruct after). set (l := by_key (after_cursor after rows)).
  pose proof (normalizePageSize_bounds first) as Hb. set (n := normalizePageSize first) in *. clearbody n. unfold buildPaginatedPage. rewrite length_take.
  case_bool_decide as Hlt; cbn [pg_items pg_hasNextPage pg_endCursor].
  - rewrite take_take. replace (Z.to_nat n `min` Z.to_nat (n + 1))%nat with (Z.to_nat n) by lia. exists (drop (Z.to_nat n) l). rewrite take_drop. split; [done|].
    assert (Hlen : length (take (Z.to_nat n) l) = Z.to_nat n) by (rewrite length_take; lia). split; [lia|]. split.
    + intros E. apply (f_equal length) in E. rewrite length_drop in E. cbn in E. lia.
    + destruct (last (take (Z.to_nat n) l)) as [x|] eqn:Hx; [by exists x|]. apply last_None in Hx. rewrite Hx in Hlen. cbn in Hlen. lia.
  - exists []. rewrite app_nil_r. split; [|done]. rewrite firstn_all2; [done|]. lia.
Qed.

(** Every row that is there for all of the pages is listed, in order, and none is listed twice. *)
Lemma follow_spec first after tables l done_ :
  Forall (fun rows => NoDup (sortKeyOf <$> rows)) tables -> follow first after tables = (l, done_) ->
  sorted_keys l /\ Forall (fun x => beyond after (sortKeyOf x) /\ exists rows, rows ∈ tables /\ x ∈ rows) l /\
  (done_ = true -> forall k, beyond after k -> (forall rows, rows ∈ tables -> k ∈ sortKeyOf <$> rows) -> k ∈ sortKeyOf <$> l).
Proof.
  intros Hn. revert after l done_. induction Hn as [|rows tables Hr _ IH]; intros after l done_ Hf; cbn [follow] in Hf.
  { injection Hf as <- <-. split; [constructor|]. split; [constructor|]. done. }
  destruct (page_of_spec (mkCursorPage first after) rows Hr) as (rest & Hrest & Hnext). cbn [cp_after cp_first] in Hrest, Hnext.
  set (page := page_of (mkCursorPage first after) rows) in *. clearbody page.
  assert (Hin : forall x, x ∈ pg_items page ++ rest <-> x ∈ rows /\ beyond after (sortKeyOf x)).
  { intros x. rewrite <- Hrest, <- elem_of_after_cursor. unfold by_key. by rewrite sort_by_perm. }
  pose proof (by_key_sorted _ (after_cursor_keys after rows Hr)) as Hs. rewrite Hrest in Hs. apply sorted_app in Hs as (Hs & _ & Hsr).
  assert (Hitems : Forall (fun x => beyond after (sortKeyOf x) /\ exists rows', rows' ∈ rows :: tables /\ x ∈ rows') (pg_items page)).
  { apply Forall_forall. intros x Hx. destruct (proj1 (Hin x)) as [Hxr Hxb]; [by apply elem_of_app; left|]. split; [done|]. exists rows. split; [left|done]. }
  destruct (pg_hasNextPage page) eqn:Hh.
  - destruct Hnext as (_ & _ & z & Hz & Hc). destruct (follow first (pg_endCursor page) tables) as [l2 d2] eqn:Hf2. injection Hf as <- <-.
    apply IH in Hf2 as (Hs2 & Hb2 & Hd2). rewrite Hc in Hb2, Hd2. cbn [beyond] in Hb2, Hd2.
    assert (Hlast : forall x, x ∈ pg_items page -> sortKeyOf x = sortKeyOf z \/ ahead d (sortKeyOf x) (sortKeyOf z)).
    { intros x Hx. apply last_Some in Hz as (init & Hz). rewrite Hz in Hs, Hx. apply sorted_app in Hs as (_ & _ & Hi). apply elem_of_app in Hx as [Hx| ->%list_elem_of_singleton]; [|by left].
      right. apply Hi; [done|left]. }
    rewrite Forall_forall in Hb2. split; [|split].
    + apply sorted_app. split; [done|]. split; [done|]. intros x y Hx Hy. destruct (Hb2 y Hy) as [Hzy _]. destruct (Hlast x Hx) as [->|?]; [done|]. by transitivity (sortKeyOf z).
    + apply Forall_app. split; [done|]. apply Forall_forall. intros y Hy. destruct (Hb2 y Hy) as [Hzy (rows' & Hr' & Hy')]. split; [|exists rows'; split; [by right|done]].
      destruct after as [c|]; [|done]. cbn. transitivity (sortKeyOf z); [|done]. destruct (proj1 (Hin z)) as [_ Hzb]; [|done].
      apply elem_of_app. left. apply last_Some in Hz as (init & ->). apply elem_of_app. right. by left.
    + intros -> k Hk Hall. rewrite fmap_app. apply elem_of_app. destruct (ahead_total d (sortKeyOf z) k) as [Hzk|Hzk]; [right; apply Hd2; [done|done|intros; apply Hall; by right]|]. left.
      destruct (proj1 (list_elem_of_fmap _ _ _) (Hall rows ltac:(left))) as (x & -> & Hx). apply list_elem_of_fmap_2.
      assert (Hxi : x ∈ pg_items page ++ rest) by (by apply Hin). apply elem_of_app in Hxi as [?|Hxr]; [done|]. exfalso.
      assert (Hzi : z ∈ pg_items page) by (apply last_Some in Hz as (init & ->); apply elem_of_app; right; by left).
      specialize (Hsr z x Hzi Hxr). destruct Hzk as [E|Hb]; [rewrite E in Hsr; by apply (StrictOrder_Irreflexive (R := ahead d)) in Hsr|by apply (StrictOrder_Asymmetric (ahead_strict d)) in Hb].
  - subst rest. injection Hf as <- <-. rewrite app_nil_r in Hin. split; [done|]. split; [done|]. intros _ k Hk Hall.
    destruct (proj1 (list_elem_of_fmap _ _ _) (Hall rows ltac:(left))) as (x & -> & Hx). apply list_elem_of_fmap_2. by apply Hin.
Qed.

(** The client gets to the end within as many requests as there are pages of keys: every page that has a
    next one uses up as many of the keys beyond its cursor as a page holds. *)
#[export] Instance beyond_dec after k : Decision (beyond after k).
Proof. unfold beyond, ahead. destruct after; apply _. Defined.

Lemma page_uses_keys first after rows keys :
  NoDup keys -> NoDup (sortKeyOf <$> rows) -> (forall x, x ∈ rows -> sortKeyOf x ∈ keys) ->
  let page := page_of (mkCursorPage first after) rows in
  let left after := length (filter (fun k => beyond after k) keys) in
  pg_hasNextPage page = true ->
  Z.of_nat (left (pg_endCursor page)) + normalizePageSize first <= Z.of_nat (left after) /\ normalizePageSize first < Z.of_nat (left after).
Proof.
  intros Hk Hr Hin page left Hh. destruct (page_of_spec (mkCursorPage first after) rows Hr) as (rest & Hrest & Hnext). fold page in Hrest, Hnext.
  cbn [cp_after cp_first] in Hrest, Hnext. clearbody page. rewrite Hh in Hnext. destruct Hnext as (Hfull & Hne & z & Hz & ->).
  pose proof (by_key_sorted _ (after_cursor_keys after rows Hr)) as Hs. rewrite Hrest in Hs.
  assert (Hb : forall x, x ∈ pg_items page ++ rest -> x ∈ rows /\ beyond after (sortKeyOf x)).
  { intros x Hx. rewrite <- Hrest in Hx. unfold by_key in Hx. rewrite sort_by_perm in Hx. by apply elem_of_after_cursor. }
  assert (Hn : NoDup (sortKeyOf <$> pg_items page ++ rest)).
  { rewrite <- Hrest. unfold by_key. rewrite sort_by_perm. by apply after_cursor_keys. }
  assert (Hall : submseteq (sortKeyOf <$> pg_items page ++ rest) (filter (fun k => beyond after k) keys)).
  { apply NoDup_submseteq; [done|]. intros k (x & -> & [Hx Hbx]%Hb)%list_elem_of_fmap. apply list_elem_of_filter. split; [done|by apply Hin]. }
  rewrite <- Hfull. split.
  - assert (Hz' : z ∈ pg_items page) by (apply last_Some in Hz as (init & ->); apply elem_of_app; right; by left).
    assert (Hlast : forall x, x ∈ pg_items page -> ~ ahead d (sortKeyOf z) (sortKeyOf x)).
    { intros x Hx Hzx. apply sorted_app in Hs as (Hs & _ & _). apply last_Some in Hz as (init & Hz). rewrite Hz in Hs, Hx. apply sorted_app in Hs as (_ & _ & Hi).
      apply elem_of_app in Hx as [Hx| ->%list_elem_of_singleton]; [|by apply (StrictOrder_Irreflexive (R := ahead d)) in Hzx].
      assert (Hxz : ahead d (sortKeyOf x) (sortKeyOf z)) by (apply Hi; [done|left]). by apply (StrictOrder_Asymmetric (ahead_strict d)) in Hxz. }
    assert (Hsub : submseteq ((sortKeyOf <$> pg_items page) ++ filter (fun k => beyond (Some (sortKeyOf z)) k) keys) (filter (fun k => beyond after k) keys)).
    { apply NoDup_submseteq.
      - rewrite fmap_app in Hn. apply NoDup_app in Hn as (Hn & _ & _). apply NoDup_app. split; [done|]. split; [|by apply NoDup_filter].
        intros k (x & -> & Hx)%list_elem_of_fmap [Hzx _]%list_elem_of_filter. by eapply Hlast.
      - intros k [Hx|[Hzk Hkk]%list_elem_of_filter]%elem_of_app; [eapply elem_of_submseteq; [|exact Hall]; rewrite fmap_app; apply elem_of_app; by left|].
        apply list_elem_of_filter. split; [|done]. destruct (Hb z) as [_ Hzb]; [apply elem_of_app; by left|]. destruct after as [c|]; [|done].
        cbn in *. by transitivity (sortKeyOf z). }
    apply submseteq_length in Hsub. rewrite length_app, length_fmap in Hsub. unfold left. lia.
  - apply submseteq_length in Hall. rewrite length_fmap, length_app in Hall. destruct rest; [done|]. cbn in Hall. unfold left. lia.
Qed.

Lemma follow_ends first keys tables after :
  NoDup keys -> Forall (fun rows => NoDup (sortKeyOf <$> rows) /\ forall x, x ∈ rows -> sortKeyOf x ∈ keys) tables -> tables <> [] ->
  Z.of_nat (length (filter (fun k => beyond after k) keys)) <= Z.of_nat (length tables) * normalizePageSize first ->
  snd (follow first after tables) = true.
Proof.
  intros Hk Ht. revert after. induction Ht as [|rows tables [Hr Hin] _ IH]; intros after Hne Hlen; [done|]. cbn [follow].
  assert (Hu := page_uses_keys first after rows keys Hk Hr Hin). cbv zeta in Hu. set (page := page_of (mkCursorPage first after) rows) in *. clearbody page.
  destruct (pg_hasNextPage page); [|done]. destruct (Hu eq_refl) as [Hu1 Hu2]. cbn [length] in Hlen. destruct tables as [|rows2 tables]; [cbn in Hlen; lia|].
  specialize (IH (pg_endCursor page)). destruct (follow first (pg_endCursor page) (rows2 :: tables)) as [l e]. cbn in IH |- *. apply IH; [done|]. cbn [length] in *. lia.
Qed.

End paging.

(** C34: cursors list every row once, upwards or downwards. A client that follows the cursors, over rows that
    other workers add and remove between its requests, gets rows in the order of their keys and none twice;
    when it comes to the end it has had every row that was there all along. It comes to the end as soon as its
    requests would fill with every key that ever occurs, a page each: over rows that stay the same within as
    many requests as they fill pages; only rows that keep being added keep it going. *)
Theorem cursors_list_every_row_once {T} (key : T -> string) d first tables :
  Forall (fun rows => NoDup (key <$> rows)) tables ->
  let '(l, ended) := follow key d first None tables in
  StronglySorted (ahead d) (key <$> l) /\ NoDup (key <$> l) /\
  (forall x, x ∈ l -> exists rows, rows ∈ tables /\ x ∈ rows) /\
  (ended = true -> forall k, (forall rows, rows ∈ tables -> k ∈ key <$> rows) -> k ∈ key <$> l) /\
  (forall keys, NoDup keys -> (forall rows x, rows ∈ tables -> x ∈ rows -> key x ∈ keys) -> tables <> [] ->
     Z.of_nat (length keys) <= Z.of_nat (length tables) * normalizePageSize first -> ended = true).
Proof.
  intros Ht. destruct (follow key d first None tables) as [l ended] eqn:Hf. destruct (follow_spec key d first None tables l ended Ht Hf) as (Hs & Hin & Hd).
  assert (Hsk : StronglySorted (ahead d) (key <$> l)).
  { clear -Hs. induction Hs as [|x l0 Hs IH Hx]; [constructor|]. rewrite fmap_cons. constructor; [done|]. by apply Forall_fmap. }
  split; [done|]. split; [|split; [|split]].
  - clear -Hsk. induction Hsk as [|x l0 Hs IH Hx]; constructor; [|done]. intros Hin. rewrite Forall_forall in Hx. specialize (Hx x Hin). by apply (StrictOrder_Irreflexive (R := ahead d)) in Hx.
  - intros x Hx. rewrite Forall_forall in Hin. by apply Hin.
  - intros E k Hk. by apply Hd.
  - intros keys Hk Hall Hne Hlen. change ended with (snd (l, ended)). rewrite <- Hf. apply (follow_ends key d first keys); [done| |done|].
    + apply Forall_forall. intros rows Hr. rewrite Forall_forall in Ht. split; [by apply Ht|]. intros x. by apply Hall.
    + assert (Hfl := length_filter (fun k => beyond d None k) keys). lia.
Qed.

Lemma cursors_list_every_row_once_witness :
  let rows := ["d"; "a"; "c"; "b"; "e"] in
  follow id asc (Some 2) None [rows; "bb" :: rows; delete 0%nat rows; rows] = (["a"; "b"; "bb"; "c"; "e"], true) /\
  follow id desc (Some 2) None [rows; rows; rows] = (["e"; "d"; "c"; "b"; "a"], true) /\
  snd (follow id desc (Some 2) None [rows; delete 0%nat rows; rows]) = true.
Proof.
  split; [by vm_compute|]. split; [by vm_compute|]. set (rows := ["d"; "a"; "c"; "b"; "e"]).
  assert (Hn : NoDup rows) by (by apply (bool_decide_unpack _); vm_compute).
  assert (Ht : Forall (fun rows => NoDup (id <$> rows)) [rows; delete 0%nat rows; rows]) by (repeat constructor; by apply (bool_decide_unpack _); vm_compute).
  assert (H := cursors_list_every_row_once id desc (Some 2) [rows; delete 0%nat rows; rows] Ht).
  destruct (follow id desc (Some 2) None [rows; delete 0%nat rows; rows]) as [l ended]. destruct H as (_ & _ & _ & _ & H). apply (H rows Hn).
  - intros r x Hr. apply elem_of_cons in Hr as [-> |[-> |[-> |[]%elem_of_nil]%elem_of_cons]%elem_of_cons]; cbn; intros Hx; [done| |done]. by right.
  - done.
  - vm_compute. discriminate.
Defined.
