(* ===== verification/Cart.v ===== *)
(** The Cart context: [services/cart/src]. The cart with its lines, the rows it is written to, and every
    use case as a transaction on the store. A load includes the lines without an order, so the order the
    database returns them in is a class, [LineOrder], of which only that it loses nothing is known. *)
From S2P Require Import Prelude Kernel Store Paging.

#[global] Open Scope Z_scope.

(** ** Values ([domain/value-objects/quantity.ts], [domain/cart-item.ts]) *)

(** What a value of type [unknown] holds once it is JSON; a number there is finite. *)
Inductive Json :=
| JNull | JBool (b : bool) | JNumber (n : jsnum) | JString (s : string) | JArray (l : list Json) | JObject (l : list (string * Json)).
Abbreviation JsonRecord := (list (string * Json)).

Definition invalid_quantity : DomainError := ValidationError "Invalid quantity" [mkFieldIssue "quantity" "must be a positive integer"].
Definition Quantity_create (value : jsnum) : result Z :=
  match integer_from 1 value with Some q => Ok q | None => Err invalid_quantity end.

Record CartLineMerchandise := mkMerchandise { me_variantRef : string; me_sku : string; me_title : string; me_variantTitle : option string }.
Record CartItemSnapshots := mkSnapshots {
  sn_inventoryAvailable : option jsnum; sn_metadata : option JsonRecord; sn_merchandise : option CartLineMerchandise }.

Record CartItem := mkCartItem {
  ci_id : string; ci_productRef : string; ci_quantity : Z; ci_unitPrice : Money.Money;
  ci_inventoryAvailable : option jsnum; ci_metadata : option JsonRecord; ci_merchandise : option CartLineMerchandise }.

Definition CartItem_create (id productRef : string) (quantity : Z) (unitPrice : Money.Money) (snapshots : CartItemSnapshots) : CartItem :=
  mkCartItem id productRef quantity unitPrice (sn_inventoryAvailable snapshots) (sn_metadata snapshots) (sn_merchandise snapshots).

(** [merchandise?.variantRef ?? productRef.value] *)
Definition line_key (merchandise : option CartLineMerchandise) (productRef : string) : string :=
  match merchandise with Some m => me_variantRef m | None => productRef end.
Definition lineKey (i : CartItem) : string := line_key (ci_merchandise i) (ci_productRef i).
Definition lineTotal (i : CartItem) : result Money.Money := Money.times (ci_unitPrice i) (NInt (ci_quantity i)).

Definition changeQuantityTo (quantity : Z) (i : CartItem) : CartItem :=
  mkCartItem (ci_id i) (ci_productRef i) quantity (ci_unitPrice i) (ci_inventoryAvailable i) (ci_metadata i) (ci_merchandise i).
Definition increaseBy (quantity : Z) (i : CartItem) : CartItem := changeQuantityTo (ci_quantity i + quantity) i.

(** ** The cart ([domain/cart.ts]) *)

Inductive CartStatus := active | checked_out | abandoned | locked | saved | expired.
#[export] Instance CartStatus_eq_dec : EqDecision CartStatus.
Proof. solve_decision. Defined.
Definition status_name (s : CartStatus) : string :=
  match s with active => "active" | checked_out => "checked_out" | abandoned => "abandoned" | locked => "locked" | saved => "saved" | expired => "expired" end.

Record CartProps := mkCart {
  ct_customerRef : option string; ct_sessionRef : string; ct_currency : string; ct_status : CartStatus; ct_items : list CartItem }.

Inductive CartEvent :=
| CartMerged (sourceCartId customerRef : string) (lineCount : nat)
| CartLocked (customerRef : option string)
| CartSaved (customerRef : option string) (lineCount : nat)
| CartExpired (customerRef : option string) (previousStatus : string)
| CartCheckedOut (customerRef currency : string) (totalAmountMinor : Z) (lineCount : nat)
| CartAbandoned (customerRef : string) (lineCount : nat).

Abbreviation Cart := (Aggregate CartProps CartEvent).
Abbreviation CartM := (M Cart).

Definition with_customerRef (c : string) (p : CartProps) : CartProps := mkCart (Some c) (ct_sessionRef p) (ct_currency p) (ct_status p) (ct_items p).
Definition with_status (s : CartStatus) (p : CartProps) : CartProps := mkCart (ct_customerRef p) (ct_sessionRef p) (ct_currency p) s (ct_items p).
Definition with_items (l : list CartItem) (p : CartProps) : CartProps := mkCart (ct_customerRef p) (ct_sessionRef p) (ct_currency p) (ct_status p) l.

Definition cart_create (id : string) (customerRef : option string) (sessionRef currency : string) : result Cart :=
  if Money.isValidCurrencyCode currency then Ok (new_agg (mkCart customerRef sessionRef currency active []) id)
  else Err (BusinessRuleError ("Invalid cart currency " +:+ quoted currency)).

Definition ensureActive : CartM unit :=
  p ← gets agg_props;
  throw_if (negb (bool_decide (ct_status p = active))) (BusinessRuleError ("Cart is " +:+ status_name (ct_status p) +:+ " and can no longer be modified")).

(** Where a line is: exactly under its key, else the one line of that product. *)
Definition at_key (key : string) (items : list CartItem) : option nat := fst <$> list_find (fun i => lineKey i = key) items.
Definition findLine (key : string) (items : list CartItem) : option nat :=
  match at_key key items with
  | Some n => Some n
  | None => if bool_decide (length (filter (fun i => ci_productRef i = key) items) = 1%nat)
            then fst <$> list_find (fun i => ci_productRef i = key) items else None
  end.
Definition found_line (key : string) (items : list CartItem) : result nat :=
  match findLine key items with Some n => Ok n | None => Err (BusinessRuleError "Item not found in cart") end.

Definition same_currency (unitPrice : Money.Money) : CartM unit :=
  p ← gets agg_props;
  throw_if (negb (bool_decide (Money.currency unitPrice = ct_currency p))) (BusinessRuleError "Item currency does not match the cart currency").

(** A line joins the line that has its key, or the end of the list. *)
Definition put_line (key : string) (quantity : Z) (item : CartItem) (items : list CartItem) : list CartItem :=
  match at_key key items with
  | Some n => alter (increaseBy quantity) n items
  | None => items ++ [item]
  end.

Definition addItem (itemId productRef : string) (quantity : Z) (unitPrice : Money.Money) (snapshots : CartItemSnapshots) : CartM unit :=
  ensureActive;;
  same_currency unitPrice;;
  set_props (fun p => with_items (put_line (line_key (sn_merchandise snapshots) productRef) quantity
    (CartItem_create itemId productRef quantity unitPrice snapshots) (ct_items p)) p).

Definition removeItem (key : string) : CartM unit :=
  ensureActive;;
  p ← gets agg_props;
  n ← lift (found_line key (ct_items p));
  set_props (with_items (delete n (ct_items p))).

Definition changeItemQuantity (key : string) (quantity : Z) : CartM unit :=
  ensureActive;;
  p ← gets agg_props;
  n ← lift (found_line key (ct_items p));
  set_props (with_items (alter (changeQuantityTo quantity) n (ct_items p))).

Definition replaceItemVariant (itemId oldLineKey newProductRef : string) (quantity : Z) (unitPrice : Money.Money) (snapshots : CartItemSnapshots) : CartM unit :=
  ensureActive;;
  same_currency unitPrice;;
  p ← gets agg_props;
  n ← lift (found_line oldLineKey (ct_items p));
  set_props (with_items (<[n := CartItem_create itemId newProductRef quantity unitPrice snapshots]> (ct_items p))).

Definition clear : CartM unit := ensureActive;; set_props (with_items []).

Definition assignCustomer (customerRef : string) : CartM unit :=
  p ← gets agg_props;
  throw_if (negb (bool_decide (ct_customerRef p = None))) (BusinessRuleError "Cart already has a customer");;
  set_props (with_customerRef customerRef).

Definition merge_line (items : list CartItem) (item : CartItem) : list CartItem := put_line (lineKey item) (ci_quantity item) item items.
Definition merge (source : Cart) (eid : string) (at_ : Z) : CartM unit :=
  ensureActive;;
  p ← gets agg_props;
  throw_if (negb (bool_decide (ct_currency (agg_props source) = ct_currency p))) (BusinessRuleError "Cannot merge carts with different currencies");;
  set_props (with_items (foldl merge_line (ct_items p) (ct_items (agg_props source))));;
  p' ← gets agg_props;
  addDomainEvent eid at_ (CartMerged (agg_id source) (default "" (ct_customerRef p')) (length (ct_items p'))).

Definition lock (eid : string) (at_ : Z) : CartM unit :=
  ensureActive;;
  set_props (with_status locked);;
  p ← gets agg_props;
  addDomainEvent eid at_ (CartLocked (ct_customerRef p)).

Definition unlock : CartM unit :=
  p ← gets agg_props;
  throw_if (negb (bool_decide (ct_status p = locked))) (BusinessRuleError "Cart is not locked");;
  set_props (with_status active).

Definition saveForLater (eid : string) (at_ : Z) : CartM unit :=
  ensureActive;;
  set_props (with_status saved);;
  p ← gets agg_props;
  addDomainEvent eid at_ (CartSaved (ct_customerRef p) (length (ct_items p))).

Definition restore : CartM unit :=
  p ← gets agg_props;
  throw_if (negb (bool_decide (ct_status p = saved))) (BusinessRuleError "Cart is not saved");;
  set_props (with_status active).

Definition expire (eid : string) (at_ : Z) : CartM unit :=
  p ← gets agg_props;
  throw_if (bool_decide (ct_status p ∈ [checked_out; abandoned; expired])) (BusinessRuleError ("Cart is " +:+ status_name (ct_status p) +:+ " and cannot expire"));;
  set_props (with_status expired);;
  addDomainEvent eid at_ (CartExpired (ct_customerRef p) (status_name (ct_status p))).

Definition totalAmount (p : CartProps) : result Money.Money :=
  z ← Money.zero (ct_currency p);
  foldM (fun acc item => t ← lineTotal item; Money.plus acc t) z (ct_items p).

Definition checkOut (eid : string) (at_ : Z) : CartM unit :=
  ensureActive;;
  p ← gets agg_props;
  throw_if (bool_decide (length (ct_items p) = 0%nat)) (BusinessRuleError "Cannot check out an empty cart");;
  set_props (with_status checked_out);;
  total ← lift (totalAmount p);
  addDomainEvent eid at_ (CartCheckedOut (default "" (ct_customerRef p)) (ct_currency p) (Money.amountMinor total) (length (ct_items p))).

Definition abandon (eid : string) (at_ : Z) : CartM unit :=
  ensureActive;;
  set_props (with_status abandoned);;
  p ← gets agg_props;
  addDomainEvent eid at_ (CartAbandoned (default "" (ct_customerRef p)) (length (ct_items p))).

(** ** Rows ([infrastructure/cart.mapper.ts]) *)

Record CartColumns := mkColumns {
  cc_customerRef : option string; cc_sessionRef : string; cc_currency : string; cc_status : CartStatus; cc_updatedAt : Z }.
Record CartItemRow := mkItemRow {
  ir_id : string; ir_tenantId : string; ir_cartId : string; ir_productRef : string; ir_quantity : Z; ir_unitPriceAmountMinor : Z;
  ir_inventorySnapshot : option JsonRecord; ir_metadata : option JsonRecord;
  ir_variantRef : option string; ir_sku : option string; ir_title : option string; ir_variantTitle : option string }.

Definition must {A} (r : result A) (what : string) : result A :=
  match r with
  | Ok a => Ok a
  | Err e => Err (UnexpectedError ("Corrupt cart row: invalid " +:+ what +:+ " (" +:+ error_message e +:+ ")"))
  end.

(** [typeof item.inventorySnapshot?.available === "number" ? ... : undefined] *)
Definition available_of (snapshot : option JsonRecord) : option jsnum :=
  match snapshot ≫= list_find (fun kv => kv.1 = "available") with
  | Some (_, (_, JNumber n)) => Some n
  | _ => None
  end.
Definition merchandise_of (r : CartItemRow) : option CartLineMerchandise :=
  v ← ir_variantRef r; Some (mkMerchandise v (default "" (ir_sku r)) (default "" (ir_title r)) (ir_variantTitle r)).

Definition item_toDomain (currency : string) (r : CartItemRow) : result CartItem :=
  id ← UniqueEntityId_from (ir_id r);
  productRef ← must (ProductRef_create (ir_productRef r)) "product ref";
  quantity ← must (Quantity_create (NInt (ir_quantity r))) "quantity";
  unitPrice ← must (Money.create (NInt (ir_unitPriceAmountMinor r)) currency) "unit price";
  Ok (CartItem_create id productRef quantity unitPrice (mkSnapshots (available_of (ir_inventorySnapshot r)) (ir_metadata r) (merchandise_of r))).

Fixpoint items_toDomain (currency : string) (rows : list CartItemRow) : result (list CartItem) :=
  match rows with
  | [] => Ok []
  | r :: l => x ← item_toDomain currency r; xs ← items_toDomain currency l; Ok (x :: xs)
  end.

Definition toDomain (c : CartColumns) (rows : list CartItemRow) : result CartProps :=
  items ← items_toDomain (cc_currency c) rows;
  Ok (mkCart (cc_customerRef c) (cc_sessionRef c) (cc_currency c) (cc_status c) items).

(** [now] is what the database client stamps [updatedAt] with. *)
Definition toCartRow (now : Z) (p : CartProps) : CartColumns := mkColumns (ct_customerRef p) (ct_sessionRef p) (ct_currency p) (ct_status p) now.

Definition item_row (cartId tenantId : string) (i : CartItem) : CartItemRow :=
  mkItemRow (ci_id i) tenantId cartId (ci_productRef i) (ci_quantity i) (Money.amountMinor (ci_unitPrice i))
    ((fun n => [("available", JNumber n)]) <$> ci_inventoryAvailable i) (ci_metadata i)
    (me_variantRef <$> ci_merchandise i) (me_sku <$> ci_merchandise i) (me_title <$> ci_merchandise i) (ci_merchandise i ≫= me_variantTitle).
Definition toItemRows (a : Cart) (tenantId : string) : list CartItemRow := item_row (agg_id a) tenantId <$> ct_items (agg_props a).

(** ** The store ([infrastructure/prisma-cart-repository.ts]) *)

Record CartStore := mkStore {
  cs_carts : list (Row CartColumns); cs_items : list CartItemRow; cs_outbox : list (string * (EventMeta * CartEvent)) }.
Definition empty_store : CartStore := mkStore [] [] [].

(** An update leaves the session and the currency as they were inserted. *)
#[export] Instance cart_table : Table CartStore CartColumns CartEvent := {
  tbl_rows := cs_carts;
  tbl_set l s := mkStore l (cs_items s) (cs_outbox s);
  tbl_publish e s := mkStore (cs_carts s) (cs_items s) (cs_outbox s ++ e);
  tbl_name := "Cart";
  tbl_columns old new := mkColumns (cc_customerRef new) (cc_sessionRef old) (cc_currency old) (cc_status new) (cc_updatedAt new);
  tbl_clash _ _ _ := false
}.
#[export] Instance cart_table_laws : TableLaws CartStore CartColumns CartEvent.
Proof. by split. Qed.

(** The order an unordered [include] returns the lines of a cart in. *)
Class LineOrder := {
  line_order : list CartItemRow -> list CartItemRow;
  line_order_perm l : line_order l ≡ₚ l
}.

(** [@id] and [@@unique([cartId, productRef, variantRef])], which holds for absent variants too. *)
Definition item_clash (r r' : CartItemRow) : bool :=
  bool_decide (ir_id r = ir_id r') ||
  bool_decide (ir_cartId r = ir_cartId r') && bool_decide (ir_productRef r = ir_productRef r') && bool_decide (ir_variantRef r = ir_variantRef r').
Definition insert_item (l : list CartItemRow) (r : CartItemRow) : result (list CartItemRow) :=
  if existsb (item_clash r) l then Err (UnexpectedError "unique constraint violation") else Ok (l ++ [r]).
Definition createMany_items (rows : list CartItemRow) : M CartStore unit := fun s =>
  match foldM insert_item (cs_items s) rows with
  | Ok l => (Ok tt, mkStore (cs_carts s) l (cs_outbox s))
  | Err e => (Err e, s)
  end.
Definition deleteMany_items (cartId tenantId : string) : M CartStore unit :=
  modify (fun s => mkStore (cs_carts s) (filter (fun r => ~ (ir_cartId r = cartId /\ ir_tenantId r = tenantId)) (cs_items s)) (cs_outbox s)).

Definition as_row (now : Z) (a : Cart) : Aggregate CartColumns CartEvent := mkAgg (agg_id a) (agg_version a) (agg_events a) (toCartRow now (agg_props a)).

(** [save]: the cart under its version, then its lines in place of those it had. *)
Definition save (now : Z) (a : Cart) (tenantId : string) : M CartStore unit :=
  save_row (as_row now a) tenantId;;
  (if bool_decide (agg_version a = 0) then mret tt else deleteMany_items (agg_id a) tenantId);;
  createMany_items (toItemRows a tenantId).

Section repository.
Context `{HO : !LineOrder}.

(** [include: { items: true }] *)
Definition items_of (id : string) (s : CartStore) : list CartItemRow := line_order (filter (fun r => ir_cartId r = id) (cs_items s)).
Definition hydrate (s : CartStore) (a : Aggregate CartColumns CartEvent) : result Cart :=
  p ← toDomain (agg_props a) (items_of (agg_id a) s);
  Ok (mkAgg (agg_id a) (agg_version a) [] p).
Definition hydrate_found (s : CartStore) (found : option (Aggregate CartColumns CartEvent)) : result (option Cart) :=
  match found with Some a => c ← hydrate s a; Ok (Some c) | None => Ok None end.

Definition findById (id tenantId : string) (s : CartStore) : result (option Cart) := hydrate_found s (find_by_id id tenantId s).

(** [where: { sessionRef, tenantId, status: "active" }, orderBy: { updatedAt: "desc" }] *)
Definition of_session (sessionRef tenantId : string) (r : Row CartColumns) : bool :=
  bool_decide (cc_sessionRef (row_props r) = sessionRef) && bool_decide (row_tenant r = tenantId) && bool_decide (cc_status (row_props r) = active).
Definition latest_first (a b : Row CartColumns) : bool := bool_decide (cc_updatedAt (row_props b) <= cc_updatedAt (row_props a)).
Definition findBySessionRef (sessionRef tenantId : string) (s : CartStore) : result (option Cart) :=
  hydrate_found s (rehydrate <$> head (sort_by latest_first (filter (fun r => of_session sessionRef tenantId r = true) (cs_carts s)))).

(** ** Use cases ([application]), as transactions: [s0] is what the load of the cart sees *)

Definition load (message id tenantId : string) (s0 : CartStore) : M CartStore Cart :=
  found ← lift (findById id tenantId s0); require message found.
Definition cart_call (now : Z) (id tenantId : string) (m : CartM unit) (s0 : CartStore) : M CartStore Cart :=
  a ← load "Cart not found" id tenantId s0;
  a ← call a m;
  save now a tenantId;;
  mret a.

Record CartTotal := mkTotal { tt_cartId : string; tt_totalAmountMinor : Z }.
Definition total_output (a : Cart) : M CartStore CartTotal :=
  total ← lift (totalAmount (agg_props a)); mret (mkTotal (agg_id a) (Money.amountMinor total)).

Definition CreateCart (gen : string) (now : Z) (tenantId : string) (customerRef : option string) (sessionRef currency : string) : M CartStore string :=
  _ ← lift (Guard.againstEmpty sessionRef "sessionRef");
  lift (match customerRef with Some c => Guard.againstEmpty c "customerRef" | None => Ok EmptyString end);;
  _ ← lift (Money.create (NInt 0) currency);
  id ← lift (UniqueEntityId_from gen);
  a ← lift (cart_create id customerRef sessionRef currency);
  save now a tenantId;;
  mret (agg_id a).

Record LineInput := mkLineInput {
  in_productId : string; in_quantity : jsnum; in_unitPriceAmountMinor : jsnum; in_currency : string; in_snapshots : CartItemSnapshots }.

(** The values of a line, or the first that is refused. *)
Definition line_values (input : LineInput) : result (string * Z * Money.Money) :=
  productRef ← ProductRef_create (in_productId input);
  quantity ← Quantity_create (in_quantity input);
  unitPrice ← Money.create (in_unitPriceAmountMinor input) (in_currency input);
  Ok (productRef, quantity, unitPrice).

Definition AddItem (gen : string) (now : Z) (tenantId cartId : string) (input : LineInput) (s0 : CartStore) : M CartStore CartTotal :=
  '(productRef, quantity, unitPrice) ← lift (line_values input);
  a ← cart_call now cartId tenantId (itemId ← lift (UniqueEntityId_from gen); addItem itemId productRef quantity unitPrice (in_snapshots input)) s0;
  total_output a.

Definition RemoveItem (now : Z) (tenantId cartId productId : string) (variantId : option string) (s0 : CartStore) : M CartStore CartTotal :=
  productRef ← lift (ProductRef_create productId);
  a ← cart_call now cartId tenantId (removeItem (default productRef variantId)) s0;
  total_output a.

Definition ChangeItemQuantity (now : Z) (tenantId cartId productId : string) (variantId : option string) (quantity : jsnum) (s0 : CartStore) : M CartStore CartTotal :=
  productRef ← lift (ProductRef_create productId);
  quantity ← lift (Quantity_create quantity);
  a ← cart_call now cartId tenantId (changeItemQuantity (default productRef variantId) quantity) s0;
  total_output a.

Definition ReplaceVariant (gen : string) (now : Z) (tenantId cartId oldProductId : string) (oldVariantId : option string) (input : LineInput) (s0 : CartStore) : M CartStore CartTotal :=
  '(newProductRef, quantity, unitPrice) ← lift (line_values input);
  a ← cart_call now cartId tenantId (itemId ← lift (UniqueEntityId_from gen);
    replaceItemVariant itemId (default oldProductId oldVariantId) newProductRef quantity unitPrice (in_snapshots input)) s0;
  total_output a.

Definition CheckOutCart (eid : string) (now : Z) (tenantId cartId : string) (s0 : CartStore) : M CartStore CartTotal :=
  a ← cart_call now cartId tenantId (checkOut eid now) s0; total_output a.
Definition AbandonCart (eid : string) (now : Z) (tenantId cartId : string) (s0 : CartStore) : M CartStore string :=
  a ← cart_call now cartId tenantId (abandon eid now) s0; mret (agg_id a).

(** The commands that share a base class ([cart-lifecycle.use-cases.ts]). *)
Inductive LifecycleCommand := LockCart | UnlockCart | SaveCartForLater | RestoreCart | ExpireCart | ClearCart.
Definition mutate (c : LifecycleCommand) (eid : string) (now : Z) : CartM unit :=
  match c with
  | LockCart => lock eid now
  | UnlockCart => unlock
  | SaveCartForLater => saveForLater eid now
  | RestoreCart => restore
  | ExpireCart => expire eid now
  | ClearCart => clear
  end.
Definition CartLifecycleCommand (c : LifecycleCommand) (eid : string) (now : Z) (tenantId cartId : string) (s0 : CartStore) : M CartStore (string * CartStatus) :=
  a ← cart_call now cartId tenantId (mutate c eid now) s0; mret (agg_id a, ct_status (agg_props a)).

(** Whether this call assigned the customer, or found it assigned. *)
Definition AssignCartCustomer (now : Z) (tenantId cartId customerRef : string) (s0 : CartStore) : M CartStore bool :=
  _ ← lift (Guard.againstEmpty customerRef "customerRef");
  a ← load "Cart not found" cartId tenantId s0;
  if bool_decide (ct_customerRef (agg_props a) = Some customerRef) then mret false
  else a ← call a (assignCustomer customerRef); save now a tenantId;; mret true.

(** The source is loaded after the target: [s1] is what that load sees. *)
Definition MergeGuestCart (eid : string) (now : Z) (tenantId targetCartId sourceCartId : string) (s0 s1 : CartStore) : M CartStore CartTotal :=
  target ← load "Target cart not found" targetCartId tenantId s0;
  source ← load "Source cart not found" sourceCartId tenantId s1;
  target ← call target (merge source eid now);
  save now target tenantId;;
  total_output target.

Definition GetCart (tenantId cartId : string) (s : CartStore) : result Cart :=
  found ← findById cartId tenantId s;
  match found with Some a => Ok a | None => Err (NotFoundError "Cart not found") end.
Definition GetCurrentCart (tenantId sessionRef : string) (s : CartStore) : result (option Cart) :=
  _ ← Guard.againstEmpty sessionRef "sessionRef";
  findBySessionRef sessionRef tenantId s.

(** [where: { tenantId, status?, id: { gt: after }? }, orderBy: { id: "asc" }, take: limit + 1] *)
Definition listed (tenantId : string) (status : option CartStatus) (r : Row CartColumns) : bool :=
  bool_decide (row_tenant r = tenantId) && match status with Some st => bool_decide (cc_status (row_props r) = st) | None => true end.
Fixpoint hydrate_all (s : CartStore) (rows : list (Row CartColumns)) : result (list Cart) :=
  match rows with
  | [] => Ok []
  | r :: l => x ← hydrate s (rehydrate r); xs ← hydrate_all s l; Ok (x :: xs)
  end.
Definition ListCarts (page : CursorPage) (tenantId : string) (status : option CartStatus) (s : CartStore) : result (Paginated Cart) :=
  let limit := normalizePageSize (cp_first page) in
  let rows := filter (fun r => listed tenantId status r = true) (cs_carts s) in
  carts ← hydrate_all s (take (Z.to_nat (limit + 1)) (by_key row_id asc (after_cursor row_id asc (decodeCursor <$> cp_after page) rows)));
  Ok (buildPaginatedPage agg_id carts limit).

(** ** Calls as transactions *)

Inductive CartTx :=
| TxCreate (gen : string) (now : Z) (tenantId : string) (customerRef : option string) (sessionRef currency : string)
| TxAdd (gen : string) (now : Z) (tenantId cartId : string) (input : LineInput)
| TxRemove (now : Z) (tenantId cartId productId : string) (variantId : option string)
| TxChange (now : Z) (tenantId cartId productId : string) (variantId : option string) (quantity : jsnum)
| TxReplace (gen : string) (now : Z) (tenantId cartId oldProductId : string) (oldVariantId : option string) (input : LineInput)
| TxCheckOut (eid : string) (now : Z) (tenantId cartId : string)
| TxAbandon (eid : string) (now : Z) (tenantId cartId : string)
| TxCommand (c : LifecycleCommand) (eid : string) (now : Z) (tenantId cartId : string)
| TxAssign (now : Z) (tenantId cartId customerRef : string)
| TxMerge (eid : string) (now : Z) (tenantId targetCartId sourceCartId : string).

Definition committed {A} (m : M CartStore A) (s : CartStore) : result CartStore :=
  match m s with (Ok _, s') => Ok s' | (Err e, _) => Err e end.

Definition cart_exec (t : CartTx) (snaps : list CartStore) (s : CartStore) : result CartStore :=
  match t, snaps with
  | TxCreate gen now tenantId customerRef sessionRef currency, _ => committed (CreateCart gen now tenantId customerRef sessionRef currency) s
  | TxAdd gen now tenantId cartId input, [s0] => committed (AddItem gen now tenantId cartId input s0) s
  | TxRemove now tenantId cartId productId variantId, [s0] => committed (RemoveItem now tenantId cartId productId variantId s0) s
  | TxChange now tenantId cartId productId variantId quantity, [s0] => committed (ChangeItemQuantity now tenantId cartId productId variantId quantity s0) s
  | TxReplace gen now tenantId cartId oldProductId oldVariantId input, [s0] => committed (ReplaceVariant gen now tenantId cartId oldProductId oldVariantId input s0) s
  | TxCheckOut eid now tenantId cartId, [s0] => committed (CheckOutCart eid now tenantId cartId s0) s
  | TxAbandon eid now tenantId cartId, [s0] => committed (AbandonCart eid now tenantId cartId s0) s
  | TxCommand c eid now tenantId cartId, [s0] => committed (CartLifecycleCommand c eid now tenantId cartId s0) s
  | TxAssign now tenantId cartId customerRef, [s0] => committed (AssignCartCustomer now tenantId cartId customerRef s0) s
  | TxMerge eid now tenantId targetCartId sourceCartId, [s0; s1] => committed (MergeGuestCart eid now tenantId targetCartId sourceCartId s0 s1) s
  | _, _ => Err (UnexpectedError "unreachable")
  end.
Definition cart_do := il_do cart_exec.

End repository.

(** ** What the methods keep *)

Definition line_ok (currency : string) (i : CartItem) : Prop :=
  blank (ci_id i) = false /\ blank (ci_productRef i) = false /\ 1 <= ci_quantity i /\
  0 <= Money.amountMinor (ci_unitPrice i) /\ Money.currency (ci_unitPrice i) = currency.
Definition props_ok (p : CartProps) : Prop :=
  Money.isValidCurrencyCode (ct_currency p) = true /\ Forall (line_ok (ct_currency p)) (ct_items p).

(** A cart nothing more is sold from. *)
Definition closed (s : CartStatus) : bool := bool_decide (s ∈ [checked_out; abandoned; expired]).

(** What stays of a cart, whatever is called: its session and currency, the customer it has, and, once it is
    closed, its status and lines. *)
Record carried (p p' : CartProps) : Prop := {
  carried_session : ct_sessionRef p' = ct_sessionRef p;
  carried_currency : ct_currency p' = ct_currency p;
  carried_customer c : ct_customerRef p = Some c -> ct_customerRef p' = Some c;
  carried_closed : closed (ct_status p) = true -> ct_status p' = ct_status p /\ ct_items p' = ct_items p
}.
Definition kept (m : CartM unit) : Prop :=
  forall a u a', props_ok (agg_props a) -> m a = (Ok u, a') ->
    agg_id a' = agg_id a /\ agg_version a' = agg_version a /\ props_ok (agg_props a') /\ carried (agg_props a) (agg_props a').

Lemma cart_Quantity_create_Ok n q : Quantity_create n = Ok q <-> n = NInt q /\ 1 <= q.
Proof.
  unfold Quantity_create. destruct (integer_from 1 n) as [z|] eqn:Hi.
  - apply integer_from_Some in Hi as [-> ?]. naive_solver.
  - split; [done|]. intros [-> Hq]. assert (integer_from 1 (NInt q) = Some q); [|congruence]. by apply integer_from_Some.
Qed.
Lemma ProductRef_create_Ok v w : ProductRef_create v = Ok w <-> blank v = false /\ w = v.
Proof. unfold ProductRef_create, Guard.againstEmpty. destruct (blank v); naive_solver. Qed.

Lemma line_ok_quantity c q i : 1 <= q -> line_ok c i -> line_ok c (changeQuantityTo q i).
Proof. intros Hq (? & ? & ? & ? & ?). by split_and!. Qed.
Lemma line_ok_increase c q i : 1 <= q -> line_ok c i -> line_ok c (increaseBy q i).
Proof. intros Hq Hi. apply line_ok_quantity; [|done]. destruct Hi as (_ & _ & ? & _). lia. Qed.

Lemma put_line_ok c key q i l : line_ok c i -> 1 <= q -> Forall (line_ok c) l -> Forall (line_ok c) (put_line key q i l).
Proof.
  intros Hi Hq Hl. unfold put_line. destruct (at_key key l).
  - apply Forall_alter; [done|]. intros x _. by apply line_ok_increase.
  - apply Forall_app. by split; [|constructor].
Qed.
Lemma merge_lines_ok c l1 l2 : Forall (line_ok c) l1 -> Forall (line_ok c) l2 -> Forall (line_ok c) (foldl merge_line l1 l2).
Proof.
  intros H1 H2. revert l1 H1. induction H2 as [|i l2 Hi _ IH]; intros l1 H1; cbn; [done|]. apply IH. apply put_line_ok; [done| |done]. by destruct Hi as (_ & _ & ? & _).
Qed.

Lemma carried_with_items l p : closed (ct_status p) = false -> carried p (with_items l p).
Proof. intros Hc. split; [done..|]. by rewrite Hc. Qed.
Lemma carried_with_status s p : closed (ct_status p) = false -> carried p (with_status s p).
Proof. intros Hc. split; [done..|]. by rewrite Hc. Qed.

Lemma ensureActive_Ok (a a' : Cart) u : ensureActive a = (Ok u, a') <-> a' = a /\ ct_status (agg_props a) = active.
Proof.
  unfold ensureActive. rewrite bind_Ok. setoid_rewrite gets_Ok. setoid_rewrite throw_if_Ok. split.
  - intros (p & s & [-> ->] & [Hb ->]). split; [done|]. apply negb_false_iff in Hb. by apply bool_decide_eq_true in Hb.
  - intros [-> Hs]. exists (agg_props a), a. split; [done|]. by rewrite Hs, bool_decide_true.
Qed.
Lemma same_currency_Ok m (a a' : Cart) u : same_currency m a = (Ok u, a') <-> a' = a /\ Money.currency m = ct_currency (agg_props a).
Proof.
  unfold same_currency. rewrite bind_Ok. setoid_rewrite gets_Ok. setoid_rewrite throw_if_Ok. split.
  - intros (p & s & [-> ->] & [Hb ->]). split; [done|]. apply negb_false_iff in Hb. by apply bool_decide_eq_true in Hb.
  - intros [-> Hs]. exists (agg_props a), a. split; [done|]. by rewrite Hs, bool_decide_true.
Qed.

(** Inverts a method of the cart that did not throw. *)
Ltac cart_inv :=
  repeat (agg_inv; match goal with
  | H : ensureActive _ = (Ok _, _) |- _ => apply ensureActive_Ok in H as [-> ?]
  | H : same_currency _ _ = (Ok _, _) |- _ => apply same_currency_Ok in H as [-> ?]
  | H : negb _ = false |- _ => apply negb_false_iff, bool_decide_eq_true in H
  end); agg_inv.

Section kept.
Implicit Types a : Cart.

Lemma kept_lift_value {A} (r : result A) (m : A -> CartM unit) : (forall x, r = Ok x -> kept (m x)) -> kept (x ← lift r; m x).
Proof. intros Hm a u a' Hok (x & s & [Hr ->]%lift_Ok & H)%bind_Ok. by eapply Hm. Qed.

(** A method that writes lines to an active cart. *)
Lemma active_lines a l : ct_status (agg_props a) = active -> props_ok (agg_props a) -> Forall (line_ok (ct_currency (agg_props a))) l ->
  props_ok (with_items l (agg_props a)) /\ carried (agg_props a) (with_items l (agg_props a)).
Proof. intros Hs [Hc _] Hl. split; [by split|]. apply carried_with_items. unfold closed. by rewrite Hs. Qed.
(** One that sets the status of a cart that is not closed. *)
Lemma open_status a s : closed (ct_status (agg_props a)) = false -> props_ok (agg_props a) ->
  props_ok (with_status s (agg_props a)) /\ carried (agg_props a) (with_status s (agg_props a)).
Proof. intros Hs Hok. split; [exact Hok|]. by apply carried_with_status. Qed.

Ltac by_open_status :=
  apply open_status; [|done]; unfold closed; by match goal with He : ct_status _ = _ |- _ => rewrite He end.

Lemma addItem_kept itemId productRef q price sn :
  blank itemId = false -> blank productRef = false -> 1 <= q -> 0 <= Money.amountMinor price -> kept (addItem itemId productRef q price sn).
Proof.
  intros Hi Hp Hq Hm a u a' Hok Ha. unfold addItem in Ha. cart_inv. cbn. split; [done|]. split; [done|]. apply active_lines; [done..|].
  apply put_line_ok; [by split_and!|done|apply Hok].
Qed.
Lemma removeItem_kept key : kept (removeItem key).
Proof.
  intros a u a' Hok Ha. unfold removeItem in Ha. cart_inv. cbn. split; [done|]. split; [done|]. apply active_lines; [done..|].
  apply Forall_delete. apply Hok.
Qed.
Lemma changeItemQuantity_kept key q : 1 <= q -> kept (changeItemQuantity key q).
Proof.
  intros Hq a u a' Hok Ha. unfold changeItemQuantity in Ha. cart_inv. cbn. split; [done|]. split; [done|]. apply active_lines; [done..|].
  apply Forall_alter; [apply Hok|]. intros x _. by apply line_ok_quantity.
Qed.
Lemma replaceItemVariant_kept itemId key productRef q price sn :
  blank itemId = false -> blank productRef = false -> 1 <= q -> 0 <= Money.amountMinor price -> kept (replaceItemVariant itemId key productRef q price sn).
Proof.
  intros Hi Hp Hq Hm a u a' Hok Ha. unfold replaceItemVariant in Ha. cart_inv. cbn. split; [done|]. split; [done|]. apply active_lines; [done..|].
  apply Forall_insert; [apply Hok|by split_and!].
Qed.
Lemma clear_kept : kept clear.
Proof. intros a u a' Hok Ha. unfold clear in Ha. cart_inv. cbn. split; [done|]. split; [done|]. by apply active_lines. Qed.
Lemma assignCustomer_kept c : kept (assignCustomer c).
Proof.
  intros a u a' Hok Ha. unfold assignCustomer in Ha. cart_inv. cbn. split; [done|]. split; [done|]. split; [exact Hok|].
  split; [done|done| |done]. intros c'. congruence.
Qed.
Lemma merge_kept source eid t : props_ok (agg_props source) -> kept (merge source eid t).
Proof.
  intros [_ Hs] a u a' Hok Ha. unfold merge in Ha. cart_inv. cbn. split; [done|]. split; [done|]. apply active_lines; [done..|].
  apply merge_lines_ok; [apply Hok|]. by match goal with He : ct_currency (agg_props source) = _ |- _ => rewrite <- He end.
Qed.
Lemma lock_kept eid t : kept (lock eid t).
Proof. intros a u a' Hok Ha. unfold lock in Ha. cart_inv. cbn. split; [done|]. split; [done|]. by_open_status. Qed.
Lemma unlock_kept : kept unlock.
Proof. intros a u a' Hok Ha. unfold unlock in Ha. cart_inv. cbn. split; [done|]. split; [done|]. by_open_status. Qed.
Lemma saveForLater_kept eid t : kept (saveForLater eid t).
Proof. intros a u a' Hok Ha. unfold saveForLater in Ha. cart_inv. cbn. split; [done|]. split; [done|]. by_open_status. Qed.
Lemma restore_kept : kept restore.
Proof. intros a u a' Hok Ha. unfold restore in Ha. cart_inv. cbn. split; [done|]. split; [done|]. by_open_status. Qed.
Lemma expire_kept eid t : kept (expire eid t).
Proof.
  intros a u a' Hok Ha. unfold expire in Ha. cart_inv. cbn. split; [done|]. split; [done|]. apply open_status; [|done].
  unfold closed. by apply bool_decide_eq_false.
Qed.
Lemma checkOut_kept eid t : kept (checkOut eid t).
Proof. intros a u a' Hok Ha. unfold checkOut in Ha. cart_inv. cbn. split; [done|]. split; [done|]. by_open_status. Qed.
Lemma abandon_kept eid t : kept (abandon eid t).
Proof. intros a u a' Hok Ha. unfold abandon in Ha. cart_inv. cbn. split; [done|]. split; [done|]. by_open_status. Qed.
Lemma mutate_kept c eid t : kept (mutate c eid t).
Proof. destruct c; cbn [mutate]; auto using lock_kept, unlock_kept, saveForLater_kept, restore_kept, expire_kept, clear_kept. Qed.

End kept.
Create HintDb cart.
#[export] Hint Resolve addItem_kept removeItem_kept changeItemQuantity_kept replaceItemVariant_kept assignCustomer_kept merge_kept
  checkOut_kept abandon_kept mutate_kept : cart.

(** ** What the store keeps *)

Definition item_index (r : CartItemRow) : string * string * option string := (ir_cartId r, ir_productRef r, ir_variantRef r).
Definition lines_of (id : string) (s : CartStore) : list CartItemRow := filter (fun r => ir_cartId r = id) (cs_items s).

(** The rows are under their keys, every cart has a currency, and every line is one of a cart's. *)
Record cart_ok (s : CartStore) : Prop := {
  ok_rows : rows_wf (cs_carts s);
  ok_ids : NoDup (ir_id <$> cs_items s);
  ok_index : NoDup (item_index <$> cs_items s);
  ok_currency id r : row_of id (cs_carts s) = Some r -> Money.isValidCurrencyCode (cc_currency (row_props r)) = true;
  ok_lines ir : ir ∈ cs_items s -> exists r i, row_of (ir_cartId ir) (cs_carts s) = Some r /\
    ir = item_row (row_id r) (row_tenant r) i /\ line_ok (cc_currency (row_props r)) i
}.

Lemma cart_empty_store_ok : cart_ok empty_store.
Proof. split; [split; [constructor|by intros r ?%elem_of_nil]|constructor|constructor|done|by intros ir ?%elem_of_nil]. Qed.

(** A line comes back from its row as it was. *)
Lemma item_roundtrip c cartId tenantId i : Money.isValidCurrencyCode c = true -> line_ok c i -> item_toDomain c (item_row cartId tenantId i) = Ok i.
Proof.
  intros Hc (Hi & Hp & Hq & Ha & Hcur). unfold item_toDomain, item_row. cbn [ir_id ir_productRef ir_quantity ir_unitPriceAmountMinor].
  rewrite (proj2 (UniqueEntityId_from_Ok _ (ci_id i)) (conj Hi eq_refl)). cbn.
  rewrite (proj2 (ProductRef_create_Ok _ (ci_productRef i)) (conj Hp eq_refl)). cbn.
  rewrite (proj2 (cart_Quantity_create_Ok _ (ci_quantity i)) (conj eq_refl Hq)). cbn.
  rewrite (proj2 (MoneyLaws.create_Ok _ c (ci_unitPrice i))) by (split_and!; [done|done|split; [done|by rewrite Hcur]]). cbn.
  destruct i as [id p q m av me mer]. unfold CartItem_create, available_of, merchandise_of. cbn.
  destruct av as [n|], mer as [[v k t vt]|]; cbn; done.
Qed.
Lemma items_roundtrip c cartId tenantId l : Money.isValidCurrencyCode c = true -> Forall (line_ok c) l -> items_toDomain c (item_row cartId tenantId <$> l) = Ok l.
Proof. intros Hc Hl. induction Hl as [|i l Hi _ IH]; [done|]. rewrite fmap_cons. cbn [items_toDomain]. rewrite item_roundtrip by done. cbn. by rewrite IH. Qed.

Lemma rows_of_lines c cartId tenantId rows :
  Forall (fun ir => exists i, ir = item_row cartId tenantId i /\ line_ok c i) rows -> exists l, rows = item_row cartId tenantId <$> l /\ Forall (line_ok c) l.
Proof.
  induction 1 as [|ir rows (i & -> & Hi) _ (l & -> & Hl)]; [by exists []|]. exists (i :: l). split; [done|]. by constructor.
Qed.

Lemma ok_lines_of s id r : cart_ok s -> row_of id (cs_carts s) = Some r ->
  Forall (fun ir => exists i, ir = item_row id (row_tenant r) i /\ line_ok (cc_currency (row_props r)) i) (lines_of id s).
Proof.
  intros Hok Hr. apply Forall_forall. intros ir [Hc Hin]%list_elem_of_filter. destruct (ok_lines s Hok ir Hin) as (r' & i & Hr' & -> & Hi).
  cbn in Hc. exists i. apply row_of_Some in Hr' as Hr2. destruct Hr2 as [_ Hid]. cbn in Hr', Hid. rewrite Hc in Hr'. assert (r = r') as -> by congruence. split; [|done]. congruence.
Qed.
Lemma no_lines_of s id : cart_ok s -> row_of id (cs_carts s) = None -> lines_of id s = [].
Proof.
  intros Hok Hr. apply filter_none. intros ir Hin Hc. destruct (ok_lines s Hok ir Hin) as (r' & i & Hr' & _). congruence.
Qed.

(** Inserting lines keeps the indexes unique, or throws. *)
Lemma insert_items_Ok l rows l' :
  foldM insert_item l rows = Ok l' -> NoDup (ir_id <$> l) -> NoDup (item_index <$> l) ->
  l' = l ++ rows /\ NoDup (ir_id <$> l') /\ NoDup (item_index <$> l').
Proof.
  revert l. induction rows as [|r rows IH]; intros l Hf Hi Hx; cbn in Hf; [injection Hf as <-; by rewrite app_nil_r|].
  unfold insert_item in Hf. destruct (existsb (item_clash r) l) eqn:He; [done|]. cbn in Hf.
  assert (Hno : forall y, y ∈ l -> item_clash r y = false).
  { intros y Hy. apply not_true_iff_false. intros Hc. apply not_true_iff_false in He. apply He. apply existsb_exists. exists y. split; [by apply list_elem_of_In|done]. }
  apply IH in Hf as (-> & Hi' & Hx').
  - rewrite <- app_assoc in *. by split_and!.
  - rewrite fmap_app. apply NoDup_app. split; [done|]. split; [|apply NoDup_singleton]. intros x (y & -> & Hy)%list_elem_of_fmap Hr%list_elem_of_singleton.
    specialize (Hno y Hy). unfold item_clash in Hno. rewrite Hr, bool_decide_true in Hno by done. done.
  - rewrite fmap_app. apply NoDup_app. split; [done|]. split; [|apply NoDup_singleton]. intros x (y & -> & Hy)%list_elem_of_fmap Hr%list_elem_of_singleton.
    specialize (Hno y Hy). unfold item_clash in Hno. injection Hr as E1 E2 E3. rewrite E1, E2, E3 in Hno. apply orb_false_iff in Hno as [_ Hno]. by rewrite !bool_decide_true in Hno.
Qed.
(** What the store has no line like, it takes no line like twice. *)
Lemma insert_items_clash l rows r r' : r ∈ rows -> r' ∈ l -> item_clash r r' = true -> foldM insert_item l rows = Err (UnexpectedError "unique constraint violation").
Proof.
  revert l. induction rows as [|x rows IH]; intros l Hr Hl Hc; [by apply elem_of_nil in Hr|]. cbn [foldM].
  assert (Hx : insert_item l x = if existsb (item_clash x) l then Err (UnexpectedError "unique constraint violation") else Ok (l ++ [x])) by done.
  rewrite Hx. destruct (existsb (item_clash x) l) eqn:He; [reflexivity|]. cbn. apply elem_of_cons in Hr as [->|Hr].
  - apply not_true_iff_false in He. destruct He. apply existsb_exists. exists r'. split; [by apply list_elem_of_In|done].
  - apply IH; [done| |done]. apply elem_of_app. by left.
Qed.

(** The lines of one cart replaced. *)
Lemma replaced_lines s id t its l :
  cart_ok s -> foldM insert_item (filter (fun r => ir_cartId r <> id) (cs_items s)) (item_row id t <$> its) = Ok l ->
  NoDup (ir_id <$> l) /\ NoDup (item_index <$> l) /\
  filter (fun r => ir_cartId r = id) l = item_row id t <$> its /\
  (forall id', id' <> id -> filter (fun r => ir_cartId r = id') l = lines_of id' s) /\
  forall ir, ir ∈ l -> (exists i, i ∈ its /\ ir = item_row id t i) \/ (ir ∈ cs_items s /\ ir_cartId ir <> id).
Proof.
  intros Hok Hf. apply insert_items_Ok in Hf as (-> & Hi & Hx).
  2:{ eapply sublist_NoDup; [apply (ok_ids s Hok)|]. apply fmap_sublist, sublist_filter. }
  2:{ eapply sublist_NoDup; [apply (ok_index s Hok)|]. apply fmap_sublist, sublist_filter. }
  split; [done|]. split; [done|]. split; [|split].
  - rewrite filter_app, (filter_none _ (filter _ _)) by (intros x [Hne _]%list_elem_of_filter; done). cbn.
    apply filter_all. by intros x (i & -> & _)%list_elem_of_fmap.
  - intros id' Hne. rewrite filter_app, (filter_none _ (item_row id t <$> its)) by (intros x (i & -> & _)%list_elem_of_fmap; cbn; congruence).
    rewrite app_nil_r, list_filter_filter. unfold lines_of. apply list_filter_iff. intros x. split; [tauto|]. intros <-. by split.
  - intros ir [[Hne Hin]%list_elem_of_filter|(i & -> & Hin)%list_elem_of_fmap]%elem_of_app; [by right|left; by exists i].
Qed.

(** What a save leaves: the row [r'] and the lines of the cart, nothing else. *)
Record saved_as (r' : Row CartColumns) (a : Cart) (s s' : CartStore) : Prop := {
  sa_ok : cart_ok s';
  sa_row id : row_of id (cs_carts s') = if bool_decide (id = agg_id a) then Some r' else row_of id (cs_carts s);
  sa_lines : lines_of (agg_id a) s' = item_row (agg_id a) (row_tenant r') <$> ct_items (agg_props a);
  sa_others id : id <> agg_id a -> lines_of id s' = lines_of id s
}.

Lemma saved_intro (r' : Row CartColumns) a s s' l :
  cart_ok s -> props_ok (agg_props a) -> row_id r' = agg_id a -> cc_currency (row_props r') = ct_currency (agg_props a) ->
  rows_wf (cs_carts s') -> cs_items s' = l ->
  (forall id, row_of id (cs_carts s') = if bool_decide (id = agg_id a) then Some r' else row_of id (cs_carts s)) ->
  foldM insert_item (filter (fun r => ir_cartId r <> agg_id a) (cs_items s)) (item_row (agg_id a) (row_tenant r') <$> ct_items (agg_props a)) = Ok l ->
  saved_as r' a s s'.
Proof.
  intros Hok [Hc Hl] Hid Hcur Hwf Hits Hrow Hf. apply replaced_lines in Hf as (Hi & Hx & Hmine & Hothers & Hin); [|done]. split.
  - split; [done|by rewrite Hits|by rewrite Hits| |].
    + intros id r Hr. rewrite Hrow in Hr. case_bool_decide; [injection Hr as <-; by rewrite Hcur|]. by eapply ok_currency.
    + rewrite Hits. intros ir [(i & Hi' & ->)|[Ho Hne]]%Hin.
      * exists r', i. cbn. rewrite Hrow, bool_decide_true by done. split; [done|]. rewrite Hid, Hcur. split; [done|]. rewrite Forall_forall in Hl. by apply Hl.
      * destruct (ok_lines s Hok ir Ho) as (r & i & Hr & E & Hli). exists r, i. rewrite Hrow, bool_decide_false by done. done.
  - done.
  - unfold lines_of. by rewrite Hits.
  - intros id Hne. unfold lines_of at 1. rewrite Hits. by apply Hothers.
Qed.

Lemma createMany_items_Ok rows s u s' :
  createMany_items rows s = (Ok u, s') <-> exists l, foldM insert_item (cs_items s) rows = Ok l /\ s' = mkStore (cs_carts s) l (cs_outbox s).
Proof. unfold createMany_items. destruct u, (foldM _ _ _); naive_solver. Qed.

Lemma save_row_items acting (a : Aggregate CartColumns CartEvent) t (s : CartStore) u s' : save_row_for acting a t s = (Ok u, s') -> cs_items s' = cs_items s.
Proof. by intros (rows & ->)%save_row_for_shape. Qed.

(** The lines a save of the cart of the row [r] writes over. *)
Lemma lines_deleted s id r : cart_ok s -> row_of id (cs_carts s) = Some r ->
  filter (fun ir => ~ (ir_cartId ir = id /\ ir_tenantId ir = row_tenant r)) (cs_items s) = filter (fun ir => ir_cartId ir <> id) (cs_items s).
Proof.
  intros Hok Hr. apply filter_iff_elem. intros ir Hin. destruct (ok_lines s Hok ir Hin) as (r' & i & Hr' & E & _). split; [|tauto].
  intros Hn He. apply Hn. split; [done|]. rewrite He, Hr in Hr'. injection Hr' as <-. by rewrite E.
Qed.

Lemma ok_table s : cart_ok s -> rows_wf (tbl_rows (Table := cart_table) s).
Proof. apply ok_rows. Qed.

Lemma save_created now a t s u s' :
  cart_ok s -> agg_version a = 0 -> props_ok (agg_props a) -> save now a t s = (Ok u, s') ->
  row_of (agg_id a) (cs_carts s) = None /\ saved_as (mkRow t (agg_id a) 1 (toCartRow now (agg_props a))) a s s'.
Proof.
  intros Hok Hv Hp (u1 & s1 & Hs & (u2 & s2 & Hd & Hm)%bind_Ok)%bind_Ok. rewrite bool_decide_true in Hd by done. apply ret_Ok in Hd as [_ ->].
  apply createMany_items_Ok in Hm as (l & Hl & ->). unfold save_row in Hs. pose proof (save_row_items _ _ _ _ _ _ Hs) as Hits.
  destruct (save_row_new (S := CartStore) (P := CartColumns) (E := CartEvent) t (as_row now a) t s u1 s1 (ok_table s Hok) Hv Hs) as [Hn Hrow].
  destruct (save_row_for_Ok (S := CartStore) (P := CartColumns) (E := CartEvent) t (as_row now a) t s u1 s1 (ok_table s Hok) Hs) as (Hwf & _). cbn in Hn, Hrow, Hwf. split; [exact Hn|].
  apply (saved_intro _ a s _ l); try done. unfold toItemRows in Hl. rewrite Hits in Hl. cbn [row_tenant]. rewrite <- Hl. f_equal.
  apply filter_all. intros ir Hin He. assert (Hno : ir ∈ lines_of (agg_id a) s) by (by apply list_elem_of_filter). rewrite no_lines_of in Hno by done. by apply elem_of_nil in Hno.
Qed.

Lemma cart_save_loaded now s0 (r : Row CartColumns) a t s u s' :
  cart_ok s0 -> cart_ok s -> rows_evolve (cs_carts s0) (cs_carts s) -> row_of (agg_id a) (cs_carts s0) = Some r ->
  agg_version a = row_version r -> props_ok (agg_props a) -> ct_currency (agg_props a) = cc_currency (row_props r) -> save now a t s = (Ok u, s') ->
  row_of (agg_id a) (cs_carts s) = Some r /\ row_tenant r = t /\
  saved_as (mkRow t (agg_id a) (row_version r + 1) (tbl_columns (row_props r) (toCartRow now (agg_props a)))) a s s'.
Proof.
  intros Hok0 Hok Hev Hr Hv Hp Hcur (u1 & s1 & Hs & (u2 & s2 & Hd & Hm)%bind_Ok)%bind_Ok. pose proof (row_of_Some _ _ _ Hr) as [Hin Hid].
  assert (1 <= row_version r) by (by apply (ok_rows s0 Hok0)). rewrite bool_decide_false in Hd by lia. apply modify_Ok in Hd as ->.
  apply createMany_items_Ok in Hm as (l & Hl & ->). unfold save_row in Hs. pose proof (save_row_items _ _ _ _ _ _ Hs) as Hits.
  change (rows_evolve (cs_carts s0) (tbl_rows (Table := cart_table) s)) in Hev.
  destruct (save_row_loaded (S := CartStore) (P := CartColumns) (E := CartEvent) (cs_carts s0) r t (as_row now a) t s u1 s1 (ok_rows s0 Hok0) Hin Hev (ok_table s Hok)) as (Hc & Ht & Hrow); [done|done|exact Hs|].
  destruct (save_row_for_Ok (S := CartStore) (P := CartColumns) (E := CartEvent) t (as_row now a) t s u1 s1 (ok_table s Hok) Hs) as (Hwf & _). rewrite Hid in Hc. cbn in Hc, Hrow, Hwf. split; [exact Hc|]. split; [done|].
  apply (saved_intro _ a s _ l); try done.
  - intros id. rewrite Hrow, Hid. done.
  - unfold toItemRows in Hl. cbn [cs_items] in Hl. rewrite Hits in Hl. cbn [row_tenant]. rewrite <- Hl. f_equal. rewrite <- Ht. symmetry. by apply lines_deleted.
Qed.

(** A cart as it was loaded from its row and lines. *)
Record loaded (s : CartStore) (r : Row CartColumns) (a : Cart) : Prop := {
  ld_id : agg_id a = row_id r;
  ld_version : agg_version a = row_version r;
  ld_events : agg_events a = [];
  ld_customer : ct_customerRef (agg_props a) = cc_customerRef (row_props r);
  ld_session : ct_sessionRef (agg_props a) = cc_sessionRef (row_props r);
  ld_currency : ct_currency (agg_props a) = cc_currency (row_props r);
  ld_status : ct_status (agg_props a) = cc_status (row_props r);
  ld_lines : item_row (row_id r) (row_tenant r) <$> ct_items (agg_props a) ≡ₚ lines_of (row_id r) s;
  ld_ok : props_ok (agg_props a)
}.

Section loading.
Context `{HO : !LineOrder}.

(** Every stored cart loads. *)
Lemma hydrate_ok s r : cart_ok s -> row_of (row_id r) (cs_carts s) = Some r -> exists a, hydrate s (rehydrate r) = Ok a /\ loaded s r a.
Proof.
  intros Hok Hr. assert (Hcur := ok_currency s Hok _ _ Hr).
  destruct (rows_of_lines (cc_currency (row_props r)) (row_id r) (row_tenant r) (items_of (row_id r) s)) as (l & El & Hl).
  { unfold items_of. rewrite line_order_perm. by apply ok_lines_of. }
  unfold hydrate, toDomain. cbn [rehydrate new_agg_at agg_props agg_id]. unfold rehydrate, new_agg_at. cbn [agg_props agg_id agg_version].
  rewrite El, items_roundtrip by done. cbn. eexists. split; [reflexivity|]. split; cbn; try done. rewrite <- El. unfold items_of. by rewrite line_order_perm.
Qed.

Lemma findById_total s id r : cart_ok s -> row_of id (cs_carts s) = Some r -> exists a, findById id (row_tenant r) s = Ok (Some a) /\ loaded s r a.
Proof.
  intros Hok Hr. pose proof (row_of_Some _ _ _ Hr) as [_ Hid]. destruct (hydrate_ok s r) as (a & Ha & Hl); [done|by rewrite Hid|].
  exists a. split; [|done]. unfold findById. rewrite (find_by_id_current id (row_tenant r) s r (ok_table s Hok) Hr eq_refl). cbn. by rewrite Ha.
Qed.
Lemma findById_Some s id t a : cart_ok s -> findById id t s = Ok (Some a) -> exists r, row_of id (cs_carts s) = Some r /\ row_tenant r = t /\ loaded s r a.
Proof.
  intros Hok Hf. unfold findById, hydrate_found in Hf. destruct (find_by_id id t s) as [c|] eqn:Hc; [|done].
  apply find_by_id_Some in Hc as (r & Hr & Ht & ->); [|by apply ok_table]. destruct (findById_total s id r Hok Hr) as (a' & Ha' & Hl).
  exists r. split; [done|]. split; [done|]. unfold findById in Ha'. rewrite (find_by_id_current id (row_tenant r) s r (ok_table s Hok) Hr eq_refl) in Ha'. cbn in Ha'.
  rewrite Hf in Ha'. by injection Ha' as ->.
Qed.

Lemma load_Ok message id t s0 (s s' : CartStore) a : load message id t s0 s = (Ok a, s') -> findById id t s0 = Ok (Some a) /\ s' = s.
Proof. intros Hl. unfold load, require in Hl. minv. destruct v; [|done]. cbn in *. by minv. Qed.

End loading.

(** How the store evolves: a cart keeps its tenant, its session, its currency and the customer it has, its
    lines are another's only under another version, and once closed it stays as it is. *)
Record evolved (s s' : CartStore) (id : string) (r r' : Row CartColumns) : Prop := {
  ev_tenant : row_tenant r' = row_tenant r;
  ev_version : row_version r <= row_version r';
  ev_same : row_version r' = row_version r -> r' = r /\ lines_of id s' ≡ₚ lines_of id s;
  ev_session : cc_sessionRef (row_props r') = cc_sessionRef (row_props r);
  ev_currency : cc_currency (row_props r') = cc_currency (row_props r);
  ev_customer c : cc_customerRef (row_props r) = Some c -> cc_customerRef (row_props r') = Some c;
  ev_closed : closed (cc_status (row_props r)) = true -> cc_status (row_props r') = cc_status (row_props r) /\ lines_of id s' ≡ₚ lines_of id s
}.
Definition evolves (s s' : CartStore) : Prop :=
  forall id r, row_of id (cs_carts s) = Some r -> exists r', row_of id (cs_carts s') = Some r' /\ evolved s s' id r r'.

#[export] Instance evolves_preorder : PreOrder evolves.
Proof.
  split.
  - intros s id r Hr. exists r. split; [done|]. by split.
  - intros s1 s2 s3 H12 H23 id r Hr. destruct (H12 id r Hr) as (r2 & Hr2 & [T2 V2 S2 E2 C2 U2 L2]). destruct (H23 id r2 Hr2) as (r3 & Hr3 & [T3 V3 S3 E3 C3 U3 L3]).
    exists r3. split; [done|]. split; [congruence|lia| |congruence|congruence|auto|].
    + intros Ev. destruct S3 as [-> P3]; [lia|]. destruct S2 as [-> P2]; [lia|]. split; [done|]. by etransitivity.
    + intros Hc. destruct (L2 Hc) as [Es P2]. destruct L3 as [Es' P3]; [by rewrite Es|]. split; [congruence|]. by etransitivity.
Qed.
Lemma evolves_rows s s' : evolves s s' -> rows_evolve (cs_carts s) (cs_carts s').
Proof. intros He id r Hr. destruct (He id r Hr) as (r' & Hr' & [T V S _ _ _ _]). exists r'. split_and!; [done|done|done|]. intros Ev. by apply S. Qed.

Lemma created_evolves r' a s s' : row_of (agg_id a) (cs_carts s) = None -> saved_as r' a s s' -> evolves s s'.
Proof.
  intros Hn [_ Hrow _ Hl] id r Hr. assert (id <> agg_id a) by congruence. exists r. rewrite Hrow, bool_decide_false by done.
  split; [done|]. split; try done; intros _; (split; [done|]); by rewrite Hl.
Qed.

(** A save of what a kept method made of a loaded cart. *)
Lemma called_evolves now s0 r a0 a s s' :
  loaded s0 r a0 -> evolves s0 s -> row_of (row_id r) (cs_carts s0) = Some r -> row_of (row_id r) (cs_carts s) = Some r ->
  agg_id a = row_id r -> carried (agg_props a0) (agg_props a) ->
  saved_as (mkRow (row_tenant r) (agg_id a) (row_version r + 1) (tbl_columns (row_props r) (toCartRow now (agg_props a)))) a s s' -> evolves s s'.
Proof.
  intros Hld Hev Hr0 Hr Hid [Cs Cc Cu Cl] [_ Hrow Hmine Hl] id r1 Hr1. destruct (decide (id = agg_id a)) as [->|Hne].
  2:{ exists r1. rewrite Hrow, bool_decide_false by done. split; [done|]. split; try done; intros _; (split; [done|]); by rewrite Hl. }
  assert (r1 = r) as -> by congruence. eexists. rewrite Hrow, bool_decide_true by done. split; [reflexivity|]. destruct Hld as [_ _ _ Lu Ls Lc Lst Ll _].
  split; cbn; [done|lia|lia|done|done| |].
  - intros c Hc. apply Cu. congruence.
  - intros Hc. destruct Cl as [-> Ei]; [by rewrite Lst|]. split; [done|]. rewrite Hmine, Ei, Hid. cbn. rewrite Ll.
    destruct (Hev _ _ Hr0) as (r2 & Hr2 & [_ _ S _ _ _ _]). rewrite Hr in Hr2. injection Hr2 as <-. symmetry. by apply S.
Qed.

Section steps.
Context `{HO : !LineOrder}.

Definition seen (s : CartStore) (snaps : list CartStore) : Prop := Forall (fun s0 => cart_ok s0 /\ evolves s0 s) snaps.

(** A kept method called on what was loaded, and saved. *)
Definition stored_call (now : Z) (id t : string) (a : Cart) (s s' : CartStore) : Prop :=
  exists r, row_of id (cs_carts s) = Some r /\ row_tenant r = t /\ agg_id a = id /\ props_ok (agg_props a) /\ ct_currency (agg_props a) = cc_currency (row_props r) /\
    ct_sessionRef (agg_props a) = cc_sessionRef (row_props r) /\
    saved_as (mkRow t id (row_version r + 1) (tbl_columns (row_props r) (toCartRow now (agg_props a)))) a s s' /\ evolves s s'.

Lemma save_kept now id t s0 s s' a0 a m u u' :
  cart_ok s -> cart_ok s0 -> evolves s0 s -> findById id t s0 = Ok (Some a0) -> kept m -> m a0 = (Ok u', a) -> save now a t s = (Ok u, s') ->
  stored_call now id t a s s'.
Proof.
  intros Hok Hok0 Hev Hf Hm Ha Hs. destruct (findById_Some s0 id t a0 Hok0 Hf) as (r & Hr & Ht & Hld).
  destruct (Hm _ _ _ (ld_ok _ _ _ Hld) Ha) as (Hi & Hv & Hp & Hc). pose proof (row_of_Some _ _ _ Hr) as [_ Hid].
  assert (Hi' : agg_id a = id) by (rewrite Hi, (ld_id _ _ _ Hld); done). assert (Hcur : ct_currency (agg_props a) = cc_currency (row_props r)) by (rewrite (carried_currency _ _ Hc); apply (ld_currency _ _ _ Hld)).
  destruct (cart_save_loaded now s0 r a t s u s' Hok0 Hok (evolves_rows _ _ Hev)) as (Hcr & _ & Hsv); [by rewrite Hi'|by rewrite Hv, (ld_version _ _ _ Hld)|done|done|done|].
  rewrite Hi' in Hcr, Hsv. exists r. split; [done|]. split; [done|]. split; [done|]. split; [done|]. split; [done|].
  split; [rewrite (carried_session _ _ Hc); apply (ld_session _ _ _ Hld)|]. split; [done|].
  apply (called_evolves now s0 r a0 a); rewrite ?Hid, ?Ht, ?Hi'; done.
Qed.

Lemma run_on_Ok' {A} (a a' : Cart) (m : M Cart A) : run_on a m = Ok a' -> exists u, m a = (Ok u, a').
Proof. unfold run_on. destruct (m a) as [[u|e] a1]; [|done]. intros [= <-]. by exists u. Qed.

Lemma cart_call_stored now id t m s0 s s' a :
  cart_ok s -> cart_ok s0 -> evolves s0 s -> kept m -> cart_call now id t m s0 s = (Ok a, s') -> stored_call now id t a s s'.
Proof.
  intros Hok Hok0 Hev Hm (a0 & s1 & [Hf ->]%load_Ok & (a1 & s2 & Hc & (u & s3 & Hs & [-> ->]%ret_Ok)%bind_Ok)%bind_Ok)%bind_Ok.
  apply lift_Ok in Hc as [(u' & Hc)%run_on_Ok' ->]. by eapply save_kept.
Qed.

(** Calls that write nothing, a new cart, or a stored call. *)
Definition cart_step (s s' : CartStore) : Prop :=
  s' = s \/ (exists a r', row_of (agg_id a) (cs_carts s) = None /\ saved_as r' a s s') \/ exists now id t a, stored_call now id t a s s'.

Lemma line_values_Ok input p q m : line_values input = Ok (p, q, m) -> blank p = false /\ 1 <= q /\ 0 <= Money.amountMinor m.
Proof.
  intros Hl. unfold line_values in Hl. minv. repeat match goal with
  | X : ProductRef_create _ = Ok _ |- _ => apply ProductRef_create_Ok in X as [? ->]
  | X : Quantity_create _ = Ok _ |- _ => apply cart_Quantity_create_Ok in X as [? ?]
  | X : Money.create _ _ = Ok _ |- _ => apply MoneyLaws.create_Ok in X as (_ & _ & ? & _)
  end. done.
Qed.

Lemma with_id_kept gen (m : string -> CartM unit) : (forall itemId, blank itemId = false -> kept (m itemId)) -> kept (itemId ← lift (UniqueEntityId_from gen); m itemId).
Proof. intros Hm. apply kept_lift_value. intros x [Hb ->]%UniqueEntityId_from_Ok. by apply Hm. Qed.

Lemma total_output_Ok (a : Cart) (s s' : CartStore) out : total_output a s = (Ok out, s') ->
  s' = s /\ exists m, totalAmount (agg_props a) = Ok m /\ out = mkTotal (agg_id a) (Money.amountMinor m).
Proof. intros Ht. unfold total_output in Ht. minv. split; [done|]. by exists v. Qed.

(** The calls that answer with the cart's total. *)
Definition total_tx (t : CartTx) (snaps : list CartStore) : option (M CartStore CartTotal) :=
  match t, snaps with
  | TxAdd gen now tenantId cartId input, [s0] => Some (AddItem gen now tenantId cartId input s0)
  | TxRemove now tenantId cartId productId variantId, [s0] => Some (RemoveItem now tenantId cartId productId variantId s0)
  | TxChange now tenantId cartId productId variantId quantity, [s0] => Some (ChangeItemQuantity now tenantId cartId productId variantId quantity s0)
  | TxReplace gen now tenantId cartId oldProductId oldVariantId input, [s0] => Some (ReplaceVariant gen now tenantId cartId oldProductId oldVariantId input s0)
  | TxCheckOut eid now tenantId cartId, [s0] => Some (CheckOutCart eid now tenantId cartId s0)
  | TxMerge eid now tenantId targetCartId sourceCartId, [s0; s1] => Some (MergeGuestCart eid now tenantId targetCartId sourceCartId s0 s1)
  | _, _ => None
  end.

Lemma total_tx_stored t snaps m s s' out :
  cart_ok s -> seen s snaps -> total_tx t snaps = Some m -> m s = (Ok out, s') ->
  exists now id tenantId a total, stored_call now id tenantId a s s' /\ totalAmount (agg_props a) = Ok total /\ out = mkTotal id (Money.amountMinor total).
Proof.
  intros Hok Hs Ht Hm. assert (Hone : forall now id tenantId f s0 a s2, snaps = [s0] -> kept f -> cart_call now id tenantId f s0 s = (Ok a, s2) -> total_output a s2 = (Ok out, s') ->
    exists now id tenantId a total, stored_call now id tenantId a s s' /\ totalAmount (agg_props a) = Ok total /\ out = mkTotal id (Money.amountMinor total)).
  { intros now id tenantId f s0 a s2 -> Hf Hc (-> & total & Hto & ->)%total_output_Ok. apply list.Forall_singleton in Hs as [Hok0 Hev].
    pose proof (cart_call_stored _ _ _ _ _ _ _ _ Hok Hok0 Hev Hf Hc) as Hst. exists now, id, tenantId, a, total. split; [done|]. split; [done|]. destruct Hst as (r & _ & _ & -> & _). done. }
  destruct t; cbn in Ht; try done; destruct snaps as [|s0 [|s1 [|]]]; try done; injection Ht as <-.
  - unfold AddItem in Hm. apply bind_Ok in Hm as ([[p q] mo] & s1 & [Hl ->]%lift_Ok & (a & s2 & Hc & Hto)%bind_Ok). apply line_values_Ok in Hl as (? & ? & ?).
    eapply Hone; [done| |exact Hc|exact Hto]. apply with_id_kept. auto with cart.
  - unfold RemoveItem in Hm. apply bind_Ok in Hm as (p & s1 & [Hl ->]%lift_Ok & (a & s2 & Hc & Hto)%bind_Ok). eapply Hone; [done| |exact Hc|exact Hto]. auto with cart.
  - unfold ChangeItemQuantity in Hm. apply bind_Ok in Hm as (p & s1 & [Hl ->]%lift_Ok & (q & s2 & [Hq ->]%lift_Ok & (a & s3 & Hc & Hto)%bind_Ok)%bind_Ok).
    apply cart_Quantity_create_Ok in Hq as [_ Hq]. eapply Hone; [done| |exact Hc|exact Hto]. auto with cart.
  - unfold ReplaceVariant in Hm. apply bind_Ok in Hm as ([[p q] mo] & s1 & [Hl ->]%lift_Ok & (a & s2 & Hc & Hto)%bind_Ok). apply line_values_Ok in Hl as (? & ? & ?).
    eapply Hone; [done| |exact Hc|exact Hto]. apply with_id_kept. auto with cart.
  - unfold CheckOutCart in Hm. apply bind_Ok in Hm as (a & s2 & Hc & Hto). eapply Hone; [done| |exact Hc|exact Hto]. auto with cart.
  - apply Forall_cons in Hs as [[Hok0 Hev0] [Hok1 Hev1]%list.Forall_singleton]. unfold MergeGuestCart in Hm.
    apply bind_Ok in Hm as (a0 & s2 & [Hf0 ->]%load_Ok & (b & s3 & [Hf1 ->]%load_Ok & (a & s4 & [Hc ->]%lift_Ok & (u & s5 & Hsv & (-> & total & Hto & ->)%total_output_Ok)%bind_Ok)%bind_Ok)%bind_Ok).
    apply run_on_Ok' in Hc as (u' & Hc). destruct (findById_Some _ _ _ _ Hok1 Hf1) as (r1 & _ & _ & Hld1).
    pose proof (save_kept now targetCartId tenantId s0 s _ a0 a _ _ _ Hok Hok0 Hev0 Hf0 (merge_kept b eid now (ld_ok _ _ _ Hld1)) Hc Hsv) as Hst.
    exists now, targetCartId, tenantId, a, total. split; [done|]. split; [done|]. destruct Hst as (r & _ & _ & -> & _). done.
Qed.

Lemma cart_committed_Ok {A} (m : M CartStore A) s s' : committed m s = Ok s' -> exists x, m s = (Ok x, s').
Proof. unfold committed. destruct (m s) as [[x|e] s1]; [|done]. intros [= ->]. by exists x. Qed.

Lemma stored_call_step now id t a s s' : stored_call now id t a s s' -> cart_ok s' /\ evolves s s'.
Proof. intros (r & _ & _ & _ & _ & _ & _ & Hs & He). split; [exact (sa_ok _ _ _ _ Hs)|done]. Qed.

Lemma total_tx_exec t snaps m s : total_tx t snaps = Some m -> cart_exec t snaps s = committed m s.
Proof. destruct t; cbn; try done; destruct snaps as [|s0 [|s1 [|]]]; try done; by intros [= <-]. Qed.

Lemma create_step gen now t c session currency s s' x :
  cart_ok s -> CreateCart gen now t c session currency s = (Ok x, s') -> cart_ok s' /\ evolves s s'.
Proof.
  intros Hok Hc. unfold CreateCart in Hc. minv. unfold cart_create in *. case_match; [|done].
  repeat match goal with X : Ok _ = Ok _ |- _ => injection X as <- end.
  match goal with X : save _ ?a _ _ = _, Hv : Money.isValidCurrencyCode _ = true |- _ => destruct (save_created _ a _ _ _ _ Hok eq_refl (conj Hv (Forall_nil_2 _)) X) as [Hn Hs] end.
  split; [exact (sa_ok _ _ _ _ Hs)|]. by eapply created_evolves.
Qed.

Lemma cart_exec_step t snaps s s' : cart_ok s -> seen s snaps -> cart_exec t snaps s = Ok s' -> cart_ok s' /\ evolves s s'.
Proof.
  intros Hok Hs He. destruct (total_tx t snaps) as [m|] eqn:Ht.
  { rewrite (total_tx_exec _ _ _ _ Ht) in He. apply cart_committed_Ok in He as [x Hx]. destruct (total_tx_stored _ _ _ _ _ _ Hok Hs Ht Hx) as (now & id & tn & a & total & Hst & _). by eapply stored_call_step. }
  destruct t; cbn in Ht, He; [|destruct snaps as [|s0 [|s1 [|]]]; try done..]; apply cart_committed_Ok in He as [x Hx].
  - by eapply create_step.
  - apply list.Forall_singleton in Hs as [Hok0 Hev]. apply bind_Ok in Hx as (a & s2 & Hc & [_ ->]%ret_Ok). eapply stored_call_step, cart_call_stored; [done|exact Hok0|done| |exact Hc]. auto with cart.
  - apply list.Forall_singleton in Hs as [Hok0 Hev]. apply bind_Ok in Hx as (a & s2 & Hc & [_ ->]%ret_Ok). eapply stored_call_step, cart_call_stored; [done|exact Hok0|done| |exact Hc]. auto with cart.
  - apply list.Forall_singleton in Hs as [Hok0 Hev]. apply bind_Ok in Hx as (u & s1 & [_ ->]%lift_Ok & (a & s2 & [Hf ->]%load_Ok & Hx)%bind_Ok).
    case_bool_decide; [by apply ret_Ok in Hx as [_ ->]|]. apply bind_Ok in Hx as (a1 & s3 & [(u' & Hc)%run_on_Ok' ->]%lift_Ok & (u2 & s4 & Hsv & [_ ->]%ret_Ok)%bind_Ok).
    eapply stored_call_step, save_kept; [done|exact Hok0|done|exact Hf| |exact Hc|exact Hsv]. auto with cart.
Qed.

(** What every schedule of the calls keeps, and what of it a later state still has. *)
Lemma cart_reached l (x : Interleaved (S := CartStore) (Tx := CartTx)) : run_actions cart_do l (mkInterleaved empty_store []) = Some x -> cart_ok (il_store x) /\ il_seen cart_ok evolves x.
Proof.
  intros Hl. refine (run_actions_invariant cart_do (fun y => cart_ok (il_store y) /\ il_seen cart_ok evolves y) l _ x _ _ Hl); [|split; [apply cart_empty_store_ok|constructor]].
  intros a y z [Ho Hs] Ha. destruct (il_do_seen cart_exec cart_ok evolves a y z _ (fun t snaps s s' => cart_exec_step t snaps s s') Ho Hs Ha) as (? & ? & _). done.
Qed.
Lemma cart_goes_on l (x y : Interleaved (S := CartStore) (Tx := CartTx)) : cart_ok (il_store x) -> il_seen cart_ok evolves x -> run_actions cart_do l x = Some y -> evolves (il_store x) (il_store y).
Proof.
  intros Ho Hs Hl. refine (proj2 (proj2 (run_actions_invariant cart_do (fun y => cart_ok (il_store y) /\ il_seen cart_ok evolves y /\ evolves (il_store x) (il_store y)) l x y _ _ Hl))).
  - intros a z z' (Hoz & Hsz & Hez) Ha. destruct (il_do_seen cart_exec cart_ok evolves a z z' _ (fun t snaps s s' => cart_exec_step t snaps s s') Hoz Hsz Ha) as (? & ? & ?).
    split; [done|]. split; [done|]. by transitivity (il_store z).
  - split; [done|]. split; [done|]. reflexivity.
Qed.
Lemma cart_pending (x : Interleaved (S := CartStore) (Tx := CartTx)) i t snaps : il_seen cart_ok evolves x -> il_pending x !! i = Some (t, snaps) -> seen (il_store x) snaps.
Proof. intros Hs Hi. exact (Forall_lookup_1 _ _ _ _ Hs Hi). Qed.

(** The total of a cart is the sum over its lines. *)
Definition line_amount (i : CartItem) : Z := Money.amountMinor (ci_unitPrice i) * ci_quantity i.
Lemma totalAmount_exact p : props_ok p -> totalAmount p = Ok (Money.mkMoney (sumZ line_amount (ct_items p)) (ct_currency p)).
Proof.
  intros [Hc Hl]. unfold totalAmount. rewrite (proj2 (MoneyLaws.zero_Ok (ct_currency p) _) (conj Hc eq_refl)). cbn.
  rewrite (MoneyLaws.foldM_plus_Ok lineTotal line_amount (ct_currency p)); [done| |done]. intros i Hi. rewrite Forall_forall in Hl.
  destruct (Hl i Hi) as (_ & _ & Hq & _ & Hcur). apply MoneyLaws.times_Ok. exists (ci_quantity i). split; [done|]. split; [lia|]. by rewrite Hcur.
Qed.

Lemma item_rows_perm c t l l' : item_row c t <$> l ≡ₚ item_row c t <$> l' -> sumZ line_amount l = sumZ line_amount l'.
Proof.
  intros HP. assert (Hsum : forall k, sumZ line_amount k = sumZ (fun r => ir_unitPriceAmountMinor r * ir_quantity r) (item_row c t <$> k)) by (intros k; by rewrite sumZ_map).
  rewrite !Hsum. by apply sumZ_perm.
Qed.

Lemma run_actions_app {A S} (step : A -> S -> option S) l1 l2 s : run_actions step (l1 ++ l2) s = run_actions step l1 s ≫= run_actions step l2.
Proof. revert s. induction l1 as [|a l1 IH]; intros s; cbn; [done|]. destruct (step a s); cbn; [apply IH|done]. Qed.

End steps.

(** ** Properties *)

(** C14: a total answered is a total stored. However the calls of all workers interleave: a call that answers
    with a cart's total leaves a cart that loads, whatever order its lines come in, with the amount
    answered as its total, which is the sum of quantity times price over its lines, each a positive
    quantity at a price in the cart's currency. *)
Theorem answered_total_is_stored `{LineOrder} l x i t snaps m out s' :
  run_actions cart_do l (mkInterleaved empty_store []) = Some x -> il_pending x !! i = Some (t, snaps) ->
  total_tx t snaps = Some m -> m (il_store x) = (Ok out, s') ->
  exists tenantId c, GetCart tenantId (tt_cartId out) s' = Ok c /\ agg_id c = tt_cartId out /\
    totalAmount (agg_props c) = Ok (Money.mkMoney (tt_totalAmountMinor out) (ct_currency (agg_props c))) /\
    tt_totalAmountMinor out = sumZ (fun i => Money.amountMinor (ci_unitPrice i) * ci_quantity i) (ct_items (agg_props c)) /\
    Forall (fun i => 1 <= ci_quantity i /\ 0 <= Money.amountMinor (ci_unitPrice i) /\ Money.currency (ci_unitPrice i) = ct_currency (agg_props c)) (ct_items (agg_props c)).
Proof.
  intros [Hok Hse]%cart_reached Hi Ht Hm. apply (cart_pending _ _ _ _ Hse) in Hi.
  destruct (total_tx_stored _ _ _ _ _ _ Hok Hi Ht Hm) as (now & id & tn & a & total & (r & Hr & Htn & Hid & Hpa & Hcur & _ & Hsv & _) & Hto & ->).
  pose proof (sa_row _ _ _ _ Hsv id) as Hr'. rewrite bool_decide_true in Hr' by done. destruct (findById_total s' id _ (sa_ok _ _ _ _ Hsv) Hr') as (c & Hc & [Lid _ _ _ _ Lc _ Ll Lok]).
  exists tn, c. unfold GetCart. cbn [row_tenant] in Hc. cbn [tt_cartId]. rewrite Hc. split; [done|]. split; [done|].
  rewrite totalAmount_exact in Hto by done. injection Hto as <-. cbn [tt_totalAmountMinor Money.amountMinor].
  assert (Es : sumZ line_amount (ct_items (agg_props a)) = sumZ line_amount (ct_items (agg_props c))).
  { symmetry. apply (item_rows_perm id tn). cbn in Ll. rewrite Ll. pose proof (sa_lines _ _ _ _ Hsv) as Hln. cbn in Hln. rewrite Hid in Hln. by rewrite Hln. }
  rewrite Es, totalAmount_exact by done. split; [done|]. split; [done|]. eapply Forall_impl; [apply Lok|]. intros k (_ & _ & ? & ? & ?). done.
Qed.

(** C15: carts are never handed over, and closed ones are final. However the calls interleave, from any point
    on: a cart keeps its tenant, session and currency; one with a customer keeps that customer; one that
    is checked out, abandoned or expired keeps its status and its lines. *)
Theorem closed_carts_are_final `{LineOrder} l1 l2 x y id r :
  run_actions cart_do l1 (mkInterleaved empty_store []) = Some x -> run_actions cart_do l2 x = Some y ->
  row_of id (cs_carts (il_store x)) = Some r ->
  exists r', row_of id (cs_carts (il_store y)) = Some r' /\ row_tenant r' = row_tenant r /\
    cc_sessionRef (row_props r') = cc_sessionRef (row_props r) /\ cc_currency (row_props r') = cc_currency (row_props r) /\
    (forall c, cc_customerRef (row_props r) = Some c -> cc_customerRef (row_props r') = Some c) /\
    (cc_status (row_props r) ∈ [checked_out; abandoned; expired] ->
     cc_status (row_props r') = cc_status (row_props r) /\ lines_of id (il_store y) ≡ₚ lines_of id (il_store x)).
Proof.
  intros [Hok Hse]%cart_reached H2 Hr. destruct (cart_goes_on _ _ _ Hok Hse H2 _ _ Hr) as (r' & Hr' & [T _ _ S C U L]).
  exists r'. split_and!; try done. intros Hc. apply L. unfold closed. by apply bool_decide_eq_true.
Qed.

(** *** Lines the store refuses *)

Lemma insert_items_Err l rows e : foldM insert_item l rows = Err e -> e = UnexpectedError "unique constraint violation".
Proof.
  revert l. induction rows as [|r rows IH]; intros l; [done|]. cbn [foldM].
  assert (Hx : insert_item l r = if existsb (item_clash r) l then Err (UnexpectedError "unique constraint violation") else Ok (l ++ [r])) by done.
  rewrite Hx. destruct (existsb (item_clash r) l); [by intros [= <-]|]. apply IH.
Qed.

(** A save of what is stored, with lines that do not fit in the indexes beside those of the other carts. *)
Lemma save_refused now s (r : Row CartColumns) a :
  cart_ok s -> row_of (agg_id a) (cs_carts s) = Some r -> agg_version a = row_version r ->
  (forall l, foldM insert_item (filter (fun ir => ir_cartId ir <> agg_id a) (cs_items s)) (toItemRows a (row_tenant r)) = Ok l -> False) ->
  exists s', save now a (row_tenant r) s = (Err (UnexpectedError "unique constraint violation"), s').
Proof.
  intros Hok Hr Hv Hno. destruct (save_current (S := CartStore) (P := CartColumns) (E := CartEvent) (row_tenant r) (as_row now a) (row_tenant r) s r (ok_table s Hok) Hr eq_refl Hv) as (s1 & Hs).
  pose proof (save_row_items _ _ _ _ _ _ Hs) as Hits. unfold save, save_row. rewrite (run_bind _ _ _ _ _ Hs). pose proof (row_of_Some _ _ _ Hr) as [Hin _].
  assert (1 <= row_version r) by (by apply (ok_rows s Hok)). rewrite bool_decide_false by lia. erewrite run_bind by reflexivity. unfold createMany_items. cbn [cs_items].
  rewrite Hits, (lines_deleted s (agg_id a) r Hok Hr). destruct (foldM _ _ _) as [l|e] eqn:Hf; [by destruct (Hno l)|]. apply insert_items_Err in Hf as ->. by eexists.
Qed.

(** Merging keeps the ids of the lines there are, and takes that of a line with a new key. *)
Lemma put_line_ids key q item l x : x ∈ l -> exists j, j ∈ put_line key q item l /\ ci_id j = ci_id x /\ lineKey j = lineKey x.
Proof.
  intros (n & Hn)%list_elem_of_lookup. unfold put_line. destruct (at_key key l) as [k|].
  - destruct (decide (n = k)) as [->|Hne].
    + exists (increaseBy q x). split; [|done]. apply list_elem_of_lookup. exists k. by rewrite list_lookup_alter_eq, Hn.
    + exists x. split; [|done]. apply list_elem_of_lookup. exists n. by rewrite list_lookup_alter_ne.
  - exists x. split; [|done]. apply elem_of_app. left. by eapply list_elem_of_lookup_2.
Qed.
Lemma put_line_keys key q item l j : j ∈ put_line key q item l -> j = item \/ exists x, x ∈ l /\ lineKey j = lineKey x.
Proof.
  intros Hj. unfold put_line in Hj. destruct (at_key key l) as [k|].
  - apply list_elem_of_lookup in Hj as (n & Hn). destruct (decide (n = k)) as [->|Hne].
    + rewrite list_lookup_alter_eq in Hn. destruct (l !! k) as [x|] eqn:Hx; [|done]. injection Hn as <-. right. exists x. split; [by eapply list_elem_of_lookup_2|done].
    + rewrite list_lookup_alter_ne in Hn by done. right. exists j. split; [by eapply list_elem_of_lookup_2|done].
  - apply elem_of_app in Hj as [Hj| ->%list_elem_of_singleton]; [|by left]. right. by exists j.
Qed.
Lemma merge_lines_ids l items x : x ∈ items -> exists j, j ∈ foldl merge_line items l /\ ci_id j = ci_id x.
Proof.
  revert items x. induction l as [|h l IH]; intros items x Hx; [by exists x|]. cbn. destruct (put_line_ids (lineKey h) (ci_quantity h) h items x Hx) as (j & Hj & E & _).
  destruct (IH _ _ Hj) as (k & Hk & E'). exists k. split; [done|]. congruence.
Qed.
Lemma merge_takes_new_lines l items i :
  i ∈ l -> (forall j, j ∈ items -> lineKey j <> lineKey i) -> exists k j, k ∈ l /\ j ∈ foldl merge_line items l /\ ci_id j = ci_id k.
Proof.
  revert items. induction l as [|h l IH]; intros items Hi Hno; [by apply elem_of_nil in Hi|]. cbn. destruct (decide (lineKey h = lineKey i)) as [He|He].
  - destruct (merge_lines_ids l (merge_line items h) h) as (j & Hj & E).
    { unfold merge_line, put_line, at_key. destruct (list_find _ items) as [[n x]|] eqn:Hf; [|apply elem_of_app; right; by apply list_elem_of_singleton].
      apply list_find_Some in Hf as (Hx & Hk & _). destruct (Hno x); [by eapply list_elem_of_lookup_2|congruence]. }
    exists h, j. split; [left|]. done.
  - apply elem_of_cons in Hi as [->|Hi]; [done|]. destruct (IH (merge_line items h) Hi) as (k & j & Hk & Hj & E).
    { intros j [->|(x & Hx & Ek)]%put_line_keys; [done|]. rewrite Ek. by apply Hno. }
    exists k, j. split; [by right|]. done.
Qed.

Lemma merge_active (source : Cart) eid t (a : Cart) :
  ct_status (agg_props a) = active -> ct_currency (agg_props source) = ct_currency (agg_props a) ->
  exists a', merge source eid t a = (Ok tt, a') /\ agg_id a' = agg_id a /\ agg_version a' = agg_version a /\
    ct_items (agg_props a') = foldl merge_line (ct_items (agg_props a)) (ct_items (agg_props source)).
Proof.
  intros Hs Hc. unfold merge. rewrite (run_bind ensureActive _ a tt a) by (by apply ensureActive_Ok). rewrite gets_bind, Hc, bool_decide_true by done.
  eexists. split; [reflexivity|]. done.
Qed.

Section refused.
Context `{HO : !LineOrder}.

Lemma GetCart_Ok id t s a : GetCart t id s = Ok a -> findById id t s = Ok (Some a).
Proof. unfold GetCart. destruct (findById id t s) as [[c|]|]; cbn; [by intros [= ->]|done|done]. Qed.
Lemma load_found message id t s a : findById id t s = Ok (Some a) -> load message id t s s = (Ok a, s).
Proof. intros Hf. unfold load. by rewrite Hf. Qed.

End refused.

(** A guest's lines cannot be merged into a customer's cart. A line is stored under the id it has, and the
    guest's cart keeps its own: where a line of the guest's has no counterpart in the customer's active cart
    of the same currency, the merge is refused by the index on ids. Into an empty cart nothing merges. *)
Theorem new_guest_lines_are_refused `{LineOrder} l x eid now tenantId target source a b i :
  run_actions cart_do l (mkInterleaved empty_store []) = Some x -> target <> source ->
  GetCart tenantId target (il_store x) = Ok a -> GetCart tenantId source (il_store x) = Ok b ->
  ct_status (agg_props a) = active -> ct_currency (agg_props b) = ct_currency (agg_props a) ->
  i ∈ ct_items (agg_props b) -> (forall j, j ∈ ct_items (agg_props a) -> lineKey j <> lineKey i) ->
  cart_exec (TxMerge eid now tenantId target source) [il_store x; il_store x] (il_store x) = Err (UnexpectedError "unique constraint violation").
Proof.
  intros [Hok _]%cart_reached Hne Ha%GetCart_Ok Hb%GetCart_Ok Hst Hcur Hi Hno. set (s := il_store x) in *.
  destruct (findById_Some _ _ _ _ Hok Ha) as (r & Hr & Ht & Hla), (findById_Some _ _ _ _ Hok Hb) as (rb & Hrb & Htb & Hlb).
  pose proof (row_of_Some _ _ _ Hr) as [_ Hid]. pose proof (row_of_Some _ _ _ Hrb) as [_ Hidb].
  destruct (merge_takes_new_lines _ _ _ Hi Hno) as (k & j & Hk & Hj & Ekj).
  unfold cart_exec, committed, MergeGuestCart. rewrite (run_bind _ _ _ _ _ (load_found _ _ _ _ _ Ha)), (run_bind _ _ _ _ _ (load_found _ _ _ _ _ Hb)).
  destruct (merge_active b eid now a Hst Hcur) as (a' & Hm & Hia & Hva & Hits). unfold call, run_on. rewrite Hm. erewrite run_bind by reflexivity.
  assert (Ea : agg_id a' = target) by (by rewrite Hia, (ld_id _ _ _ Hla)).
  destruct (save_refused now s r a' Hok) as (s' & Hs); [by rewrite Ea|by rewrite Hva, (ld_version _ _ _ Hla)| |].
  2:{ rewrite <- Ht. unfold mbind, M_bind. by rewrite Hs. }
  intros l' Hl'. rewrite Ea in Hl'. apply insert_items_Ok in Hl' as (-> & Hids & _).
  2:{ eapply sublist_NoDup; [apply (ok_ids s Hok)|]. apply fmap_sublist, sublist_filter. }
  2:{ eapply sublist_NoDup; [apply (ok_index s Hok)|]. apply fmap_sublist, sublist_filter. }
  rewrite fmap_app in Hids. apply NoDup_app in Hids as (_ & Hd & _). apply (Hd (ci_id k)).
  - assert (Hrow : item_row source tenantId k ∈ lines_of source s).
    { rewrite <- Hidb, <- Htb, <- (ld_lines _ _ _ Hlb). by apply list_elem_of_fmap_2. }
    apply list_elem_of_filter in Hrow as [_ Hrow]. apply list_elem_of_fmap. exists (item_row source tenantId k). split; [done|]. apply list_elem_of_filter. by split.
  - unfold toItemRows. rewrite <- list_fmap_compose. apply list_elem_of_fmap. exists j. split; [by rewrite <- Ekj|by rewrite Hits].
Qed.

(** Replacing a line by a variant the cart has another line of is refused as well. *)
Theorem present_variant_is_refused `{LineOrder} l x gen now tenantId cartId oldProductId oldVariantId input a p q price n m j :
  run_actions cart_do l (mkInterleaved empty_store []) = Some x -> GetCart tenantId cartId (il_store x) = Ok a ->
  ct_status (agg_props a) = active -> line_values input = Ok (p, q, price) -> Money.currency price = ct_currency (agg_props a) -> blank gen = false ->
  found_line (default oldProductId oldVariantId) (ct_items (agg_props a)) = Ok n ->
  ct_items (agg_props a) !! m = Some j -> m <> n -> ci_productRef j = p -> me_variantRef <$> ci_merchandise j = me_variantRef <$> sn_merchandise (in_snapshots input) ->
  cart_exec (TxReplace gen now tenantId cartId oldProductId oldVariantId input) [il_store x] (il_store x) = Err (UnexpectedError "unique constraint violation").
Proof.
  intros [Hok _]%cart_reached Ha%GetCart_Ok Hst Hl Hcur Hg Hf Hm Hne Hp Hv. set (s := il_store x) in *.
  destruct (findById_Some _ _ _ _ Hok Ha) as (r & Hr & Ht & Hla). pose proof (row_of_Some _ _ _ Hr) as [_ Hid].
  unfold cart_exec, committed, ReplaceVariant. rewrite Hl. erewrite run_bind by reflexivity. cbv beta iota.
  set (items' := <[n := CartItem_create gen p q price (in_snapshots input)]> (ct_items (agg_props a))).
  set (a' := mkAgg (agg_id a) (agg_version a) (agg_events a) (with_items items' (agg_props a)) : Cart).
  assert (Hrun : run_on a (itemId ← lift (UniqueEntityId_from gen); replaceItemVariant itemId (default oldProductId oldVariantId) p q price (in_snapshots input)) = Ok a').
  { unfold run_on. rewrite (proj2 (UniqueEntityId_from_Ok gen gen) (conj Hg eq_refl)). erewrite run_bind by reflexivity. unfold replaceItemVariant.
    rewrite (run_bind ensureActive _ a tt a) by (by apply ensureActive_Ok). rewrite (run_bind (same_currency price) _ a tt a) by (by apply same_currency_Ok).
    rewrite gets_bind, Hf. reflexivity. }
  destruct (save_refused now s r a' Hok) as (s' & Hs); [cbn; by rewrite (ld_id _ _ _ Hla), Hid|apply (ld_version _ _ _ Hla)| |].
  2:{ match goal with |- context [cart_call now cartId tenantId ?f s] => assert (Hcc : cart_call now cartId tenantId f s s = (Err (UnexpectedError "unique constraint violation"), s')) end.
      - unfold cart_call. rewrite (run_bind _ _ _ _ _ (load_found _ _ _ _ _ Ha)). unfold call. rewrite Hrun. erewrite run_bind by reflexivity.
        rewrite <- Ht. unfold mbind, M_bind. by rewrite Hs.
      - unfold mbind at 1, M_bind at 1. by rewrite Hcc. }
  intros l' Hl'. apply insert_items_Ok in Hl' as (-> & _ & Hx).
  2:{ eapply sublist_NoDup; [apply (ok_ids s Hok)|]. apply fmap_sublist, sublist_filter. }
  2:{ eapply sublist_NoDup; [apply (ok_index s Hok)|]. apply fmap_sublist, sublist_filter. }
  rewrite fmap_app in Hx. apply NoDup_app in Hx as (_ & _ & Hx). unfold toItemRows in Hx. rewrite <- list_fmap_compose in Hx.
  assert (Hn : exists i, ct_items (agg_props a) !! n = Some i).
  { apply lookup_lt_is_Some. unfold found_line, findLine, at_key in Hf.
    destruct (list_find _ _) as [[k y]|] eqn:E1; [|case_bool_decide; [|done]; destruct (list_find (fun i => ci_productRef i = _) _) as [[k y]|] eqn:E2; [|done]];
      cbn in Hf; injection Hf as <-; [apply list_find_Some in E1 as (E & _)|apply list_find_Some in E2 as (E & _)]; by eapply lookup_lt_Some. }
  destruct Hn as [i Hn]. apply Hne. eapply (NoDup_lookup _ m n); [exact Hx| |].
  - rewrite list_lookup_fmap. cbn [a' agg_props with_items ct_items]. unfold items'. rewrite list_lookup_insert_ne by done. by rewrite Hm.
  - rewrite list_lookup_fmap. cbn [a' agg_props with_items ct_items]. unfold items'. rewrite list_lookup_insert_eq by (by eapply lookup_lt_Some).
    cbn. unfold item_index. cbn. by rewrite Hp, Hv.
Qed.

(** A page of carts is the page of their rows. *)
Lemma hydrate_all_ok `{HO : !LineOrder} s rows : cart_ok s -> Forall (fun r => row_of (row_id r) (cs_carts s) = Some r) rows ->
  exists carts, hydrate_all s rows = Ok carts /\ agg_id <$> carts = row_id <$> rows.
Proof.
  intros Hok. induction 1 as [|r rows Hr _ (cs & Hc & Hi)]; [by exists []|]. destruct (hydrate_ok s r Hok Hr) as (a & Ha & Hl).
  exists (a :: cs). cbn. rewrite Ha. cbn. rewrite Hc. split; [done|]. by rewrite Hi, (ld_id _ _ _ Hl).
Qed.
Theorem listed_carts_are_a_page `{HO : !LineOrder} l x page tenantId status :
  run_actions cart_do l (mkInterleaved empty_store []) = Some x ->
  let q := page_of row_id asc page (filter (fun r => listed tenantId status r = true) (cs_carts (il_store x))) in
  exists p, ListCarts page tenantId status (il_store x) = Ok p /\ agg_id <$> pg_items p = row_id <$> pg_items q /\
    pg_hasNextPage p = pg_hasNextPage q /\ pg_endCursor p = pg_endCursor q.
Proof.
  intros [Hok _]%cart_reached. cbv zeta. unfold ListCarts, page_of. set (rows := take _ _).
  destruct (hydrate_all_ok (il_store x) rows Hok) as (carts & Hc & Hi).
  { apply Forall_forall. intros r Hr%take_elem. unfold by_key in Hr. rewrite sort_by_perm in Hr. apply elem_of_after_cursor in Hr as [[_ Hr]%list_elem_of_filter _].
    apply row_of_elem; [apply (ok_rows _ Hok)|done]. }
  rewrite Hc. eexists. split; [reflexivity|]. assert (Hlen : length carts = length rows) by (apply (f_equal length) in Hi; by rewrite !length_fmap in Hi).
  unfold buildPaginatedPage. rewrite Hlen. cbn [pg_items pg_hasNextPage pg_endCursor].
  assert (Hit : agg_id <$> (if bool_decide (normalizePageSize (cp_first page) < Z.of_nat (length rows)) then take (Z.to_nat (normalizePageSize (cp_first page))) carts else carts) =
    row_id <$> (if bool_decide (normalizePageSize (cp_first page) < Z.of_nat (length rows)) then take (Z.to_nat (normalizePageSize (cp_first page))) rows else rows)).
  { case_bool_decide; [|done]. by rewrite !fmap_take, Hi. }
  split; [exact Hit|]. split; [done|]. unfold encodeCursor. rewrite <- !fmap_last. f_equal. exact Hit.
Qed.

(** *** Witnesses *)

#[local] Instance sample_order : LineOrder := {| line_order := @reverse CartItemRow; line_order_perm := @reverse_Permutation CartItemRow |}.
Definition sample_line (productId : string) : LineInput := mkLineInput productId (NInt 2) (NInt 450) "EGP" (mkSnapshots None None None).
Definition sample_alone (t : CartTx) : list (Action CartTx) := [Begin t; Read 0; Commit 0].
(** A customer's empty cart and a guest's with two lines. *)
Definition sample_carts : list (Action CartTx) :=
  [Begin (TxCreate "mine" 1 "t" (Some "ann") "s1" "EGP"); Commit 0; Begin (TxCreate "guest" 1 "t" None "s2" "EGP"); Commit 0] ++
  sample_alone (TxAdd "l1" 2 "t" "guest" (sample_line "p1")) ++ sample_alone (TxAdd "l2" 3 "t" "guest" (sample_line "p2")).
Definition sample_run (l : list (Action CartTx)) : Interleaved :=
  default (mkInterleaved empty_store []) (run_actions cart_do l (mkInterleaved empty_store [])).

Lemma answered_total_is_stored_witness :
  let x := sample_run (sample_carts ++ [Begin (TxAdd "l3" 4 "t" "guest" (sample_line "p1")); Read 0]) in
  exists m out s', total_tx (TxAdd "l3" 4 "t" "guest" (sample_line "p1")) [il_store (sample_run sample_carts)] = Some m /\
    m (il_store x) = (Ok out, s') /\ tt_totalAmountMinor out = 2700 /\
    exists tenantId c, GetCart tenantId (tt_cartId out) s' = Ok c /\ agg_id c = tt_cartId out.
Proof.
  cbv zeta. eexists _, _, _. split; [reflexivity|]. split; [vm_compute; reflexivity|]. split; [reflexivity|].
  destruct (answered_total_is_stored (sample_carts ++ [Begin (TxAdd "l3" 4 "t" "guest" (sample_line "p1")); Read 0])
    (sample_run (sample_carts ++ [Begin (TxAdd "l3" 4 "t" "guest" (sample_line "p1")); Read 0])) 0
    (TxAdd "l3" 4 "t" "guest" (sample_line "p1")) [il_store (sample_run sample_carts)] (AddItem "l3" 4 "t" "guest" (sample_line "p1") (il_store (sample_run sample_carts)))
    (mkTotal "guest" 2700) (snd (AddItem "l3" 4 "t" "guest" (sample_line "p1") (il_store (sample_run sample_carts)) (il_store (sample_run sample_carts))))) as (tn & c & Hc & Hi & _); [by vm_compute..|].
  exists tn, c. split; [exact Hc|exact Hi].
Defined.

Lemma closed_carts_are_final_witness :
  let x := sample_run (sample_carts ++ sample_alone (TxCheckOut "e1" 5 "t" "guest")) in
  let y := sample_run ((sample_carts ++ sample_alone (TxCheckOut "e1" 5 "t" "guest")) ++ sample_alone (TxAssign 6 "t" "guest" "bob")) in
  exists r r', row_of "guest" (cs_carts (il_store x)) = Some r /\ row_of "guest" (cs_carts (il_store y)) = Some r' /\
    cc_customerRef (row_props r') = Some "bob" /\ cc_status (row_props r') = checked_out /\ lines_of "guest" (il_store y) ≡ₚ lines_of "guest" (il_store x).
Proof.
  intros x y. assert (Hx : run_actions cart_do (sample_carts ++ sample_alone (TxCheckOut "e1" 5 "t" "guest")) (mkInterleaved empty_store []) = Some x) by by vm_compute.
  assert (Hy : run_actions cart_do (sample_alone (TxAssign 6 "t" "guest" "bob")) x = Some y) by by vm_compute.
  assert (Hr : row_of "guest" (cs_carts (il_store x)) = Some (mkRow "t" "guest" 4 (mkColumns None "s2" "EGP" checked_out 5))) by by vm_compute.
  assert (Hr' : row_of "guest" (cs_carts (il_store y)) = Some (mkRow "t" "guest" 5 (mkColumns (Some "bob") "s2" "EGP" checked_out 6))) by by vm_compute.
  destruct (closed_carts_are_final _ _ _ _ _ _ Hx Hy Hr) as (r' & Hr2 & _ & _ & _ & _ & Hc). eexists _, _. split; [exact Hr|]. split; [exact Hr'|].
  split; [reflexivity|]. split; [reflexivity|]. apply Hc. cbn. by left.
Defined.

Lemma new_guest_lines_are_refused_witness :
  let x := sample_run sample_carts in
  length (lines_of "guest" (il_store x)) = 2%nat /\
  cart_exec (TxMerge "e1" 5 "t" "mine" "guest") [il_store x; il_store x] (il_store x) = Err (UnexpectedError "unique constraint violation").
Proof.
  intros x. split; [by vm_compute|]. assert (Hx : run_actions cart_do sample_carts (mkInterleaved empty_store []) = Some x) by by vm_compute.
  set (i := CartItem_create "l1" "p1" 2 (Money.mkMoney 450 "EGP") (mkSnapshots None None None)).
  set (mine := mkAgg "mine" 1 [] (mkCart (Some "ann") "s1" "EGP" active []) : Cart).
  set (guest := mkAgg "guest" 3 [] (mkCart None "s2" "EGP" active [CartItem_create "l2" "p2" 2 (Money.mkMoney 450 "EGP") (mkSnapshots None None None); i]) : Cart).
  assert (Ha : GetCart "t" "mine" (il_store x) = Ok mine) by by vm_compute. assert (Hb : GetCart "t" "guest" (il_store x) = Ok guest) by by vm_compute.
  assert (Hi : i ∈ ct_items (agg_props guest)) by (right; left). assert (Hno : forall j, j ∈ @nil CartItem -> lineKey j <> lineKey i).
  { clear. intros j Hj. by apply elem_of_nil in Hj. }
  assert (Hne : "mine" <> "guest") by done.
  exact (new_guest_lines_are_refused sample_carts x "e1" 5 "t" "mine" "guest" mine guest i Hx Hne Ha Hb eq_refl eq_refl Hi Hno).
Defined.
