(* ===== verification/CartCache.v ===== *)
(** The cache in front of the carts: [services/cart/src/infrastructure/cached-cart-repository.ts]. Reads
    outside transactions go through it, saves delete from it inside their transaction. The cache may lose
    an entry at any time, which its failures and its time to live come to. *)
From Stdlib Require Import Ascii.
From S2P Require Import Prelude Kernel Store Cart.

#[global] Open Scope Z_scope.

(** ** The cache *)

(** [`tenant:${tenantId}:cart:${cartId}`] *)
Definition key (tenantId cartId : string) : string := "tenant:" +:+ tenantId +:+ ":cart:" +:+ cartId.

(** What is cached of a cart: the rows the mapper makes of it, under the version it has. *)
Record CachedCart := mkCached { ch_cart : Row CartColumns; ch_items : list CartItemRow }.
Definition snapshot (now : Z) (a : Cart) (tenantId : string) : CachedCart :=
  mkCached (mkRow tenantId (agg_id a) (agg_version a) (toCartRow now (agg_props a))) (toItemRows a tenantId).
Definition cached_toDomain (c : CachedCart) : result Cart :=
  p ← toDomain (row_props (ch_cart c)) (ch_items c);
  Ok (mkAgg (row_id (ch_cart c)) (row_version (ch_cart c)) [] p).

Definition Cache := gmap string CachedCart.

(** ** Reads and saves *)

Section cache.
Context `{HO : !LineOrder}.

(** [findById]: inside a transaction the source of truth, else what is cached, else the source of truth,
    of which the cache is then set to a snapshot. *)
Definition cached_findById (inTransaction : bool) (id tenantId : string) (cache : Cache) (s : CartStore) : result (option Cart) :=
  if inTransaction then findById id tenantId s
  else match cache !! key tenantId id with
       | Some c => a ← cached_toDomain c; Ok (Some a)
       | None => findById id tenantId s
       end.

(** The workers beside the store: the transactions, and the reads that have missed and not yet set. *)
Record CacheWorld := mkWorld {
  cw_db : Interleaved (S := CartStore) (Tx := CartTx); cw_cache : Cache; cw_readers : list (string * string * CachedCart) }.
Definition empty_world : CacheWorld := mkWorld (mkInterleaved empty_store []) ∅ [].

(** The steps: of a transaction; the delete of a save, which the transaction that saves makes before it
    commits; a read that misses; its set; an entry lost. *)
Inductive CacheAction :=
| Transact (a : Action CartTx)
| Invalidate (tenantId id : string)
| Miss (now : Z) (tenantId id : string)
| SetCache (i : nat)
| Lose (tenantId id : string).

Definition cache_do (a : CacheAction) (w : CacheWorld) : option CacheWorld :=
  match a with
  | Transact a => db ← cart_do a (cw_db w); Some (mkWorld db (cw_cache w) (cw_readers w))
  | Invalidate t id | Lose t id => Some (mkWorld (cw_db w) (delete (key t id) (cw_cache w)) (cw_readers w))
  | Miss now t id =>
      match findById id t (il_store (cw_db w)) with
      | Ok (Some a) => Some (mkWorld (cw_db w) (cw_cache w) (cw_readers w ++ [(t, id, snapshot now a t)]))
      | _ => None
      end
  | SetCache i => '(t, id, c) ← cw_readers w !! i; Some (mkWorld (cw_db w) (<[key t id := c]> (cw_cache w)) (delete i (cw_readers w)))
  end.

(** ** Keys name carts *)

Definition plain (tenantId : string) : bool := all_chars (fun c => negb (bool_decide (c = ":"%char))) tenantId.

Lemma key_inj t t' id id' : plain t = true -> plain t' = true -> key t id = key t' id' -> t = t' /\ id = id'.
Proof.
  unfold key. intros Ht Ht' E. apply append_inj_l in E. assert (Es : split_on ":" (t +:+ ":cart:" +:+ id) = split_on ":" (t' +:+ ":cart:" +:+ id')) by by rewrite E.
  change (":cart:" +:+ id) with (String ":" ("cart:" +:+ id)) in Es. change (":cart:" +:+ id') with (String ":" ("cart:" +:+ id')) in Es.
  rewrite !split_on_app in Es by done. injection Es as -> _. split; [done|]. by do 2 apply append_inj_l in E.
Qed.

(** A cart comes back from the cache as it was loaded. *)
Lemma snapshot_roundtrip now a t : props_ok (agg_props a) -> agg_events a = [] -> cached_toDomain (snapshot now a t) = Ok a.
Proof.
  intros [Hc Hl] He. unfold cached_toDomain, snapshot, toDomain. cbn. unfold toItemRows. rewrite items_roundtrip by done. cbn.
  destruct a as [i v e p]. cbn in *. subst e. by destruct p.
Qed.

(** ** What is cached was committed *)

Definition tenants_plain (l : list CacheAction) : Prop := forall now t id, Miss now t id ∈ l -> plain t = true.

Lemma tenants_plain_check l : forallb (fun x => match x with Miss _ t _ => plain t | _ => true end) l = true -> tenants_plain l.
Proof. intros Hl now t id Hin%list_elem_of_In. rewrite forallb_forall in Hl. exact (Hl _ Hin). Qed.

(** The cart [t], [id] loaded as [a] after some prefix of the schedule. *)
Definition committed_once (l : list CacheAction) (t id : string) (a : Cart) (w : CacheWorld) : Prop :=
  exists l1 l2 w1, l = l1 ++ l2 /\ run_actions cache_do l1 empty_world = Some w1 /\ run_actions cache_do l2 w1 = Some w /\
    findById id t (il_store (cw_db w1)) = Ok (Some a).

Record cache_ok (l : list CacheAction) (w : CacheWorld) : Prop := {
  co_store : cart_ok (il_store (cw_db w));
  co_seen : il_seen cart_ok evolves (cw_db w);
  co_cached k c : cw_cache w !! k = Some c -> exists t id a, plain t = true /\ k = key t id /\ cached_toDomain c = Ok a /\ committed_once l t id a w;
  co_reading t id c : (t, id, c) ∈ cw_readers w -> exists a, plain t = true /\ cached_toDomain c = Ok a /\ committed_once l t id a w
}.

Lemma committed_once_snoc l t id a w x w' : committed_once l t id a w -> cache_do x w = Some w' -> committed_once (l ++ [x]) t id a w'.
Proof.
  intros (l1 & l2 & w1 & -> & H1 & H2 & Hf) Hx. exists l1, (l2 ++ [x]), w1. rewrite app_assoc. split; [done|]. split; [done|]. split; [|done].
  rewrite run_actions_app, H2. cbn. by rewrite Hx.
Qed.

Lemma cache_ok_snoc l w x w' : run_actions cache_do l empty_world = Some w -> (forall now t id, x = Miss now t id -> plain t = true) -> cache_ok l w -> cache_do x w = Some w' -> cache_ok (l ++ [x]) w'.
Proof.
  intros Hl Hp [Hs Hse Hc Hr] Hx.
  assert (Hlater : forall t id a, committed_once l t id a w -> committed_once (l ++ [x]) t id a w') by (intros; by eapply committed_once_snoc).
  destruct x as [a|t id|now t id|i|t id]; cbn in Hx.
  - destruct (cart_do a (cw_db w)) as [db|] eqn:Ha; [|done]. injection Hx as <-.
    destruct (il_do_seen cart_exec cart_ok evolves a _ _ _ (fun t snaps s s' => cart_exec_step t snaps s s') Hs Hse Ha) as (? & ? & _). split; cbn; [done|done| |].
    + intros k c Hk. destruct (Hc k c Hk) as (t & id & b & ? & ? & ? & ?). exists t, id, b. auto.
    + intros t id c Hin. destruct (Hr t id c Hin) as (b & ? & ? & ?). exists b. auto.
  - injection Hx as <-. split; cbn; [done|done| |].
    + intros k c [_ Hk]%lookup_delete_Some. destruct (Hc k c Hk) as (t' & id' & b & ? & ? & ? & ?). exists t', id', b. auto.
    + intros t' id' c Hin. destruct (Hr t' id' c Hin) as (b & ? & ? & ?). exists b. auto.
  - destruct (findById id t _) as [[a|]|] eqn:Hf; [|done|done]. injection Hx as <-. split; cbn; [done|done| |].
    + intros k c Hk. destruct (Hc k c Hk) as (t' & id' & b & ? & ? & ? & ?). exists t', id', b. auto.
    + intros t' id' c [Hin|Hin]%elem_of_app; [destruct (Hr t' id' c Hin) as (b & ? & ? & ?); exists b; auto|]. apply list_elem_of_singleton in Hin as [= -> -> ->].
      destruct (findById_Some _ _ _ _ Hs Hf) as (r & _ & _ & Hld). exists a. split; [by eapply Hp|]. split; [apply snapshot_roundtrip; [exact (ld_ok _ _ _ Hld)|exact (ld_events _ _ _ Hld)]|].
      apply Hlater. exists l, [], w. rewrite app_nil_r. done.
  - destruct (cw_readers w !! i) as [[[t id] c]|] eqn:Hi; [|done]. injection Hx as <-. split; cbn; [done|done| |].
    + intros k c' [[<- <-]|[_ Hk]]%lookup_insert_Some.
      * apply list_elem_of_lookup_2 in Hi. destruct (Hr t id c Hi) as (b & ? & ? & ?). exists t, id, b. auto.
      * destruct (Hc k c' Hk) as (t' & id' & b & ? & ? & ? & ?). exists t', id', b. auto.
    + intros t' id' c' Hin%delete_elem. destruct (Hr t' id' c' Hin) as (b & ? & ? & ?). exists b. auto.
  - injection Hx as <-. split; cbn; [done|done| |].
    + intros k c [_ Hk]%lookup_delete_Some. destruct (Hc k c Hk) as (t' & id' & b & ? & ? & ? & ?). exists t', id', b. auto.
    + intros t' id' c Hin. destruct (Hr t' id' c Hin) as (b & ? & ? & ?). exists b. auto.
Qed.

Lemma cache_reached l w : tenants_plain l -> run_actions cache_do l empty_world = Some w -> cache_ok l w.
Proof.
  revert w. induction l as [|x l IH] using rev_ind; intros w Hp Hl.
  - injection Hl as <-. split; cbn; [apply cart_empty_store_ok|constructor|done|]. by intros t id c ?%elem_of_nil.
  - rewrite run_actions_app in Hl. destruct (run_actions cache_do l empty_world) as [w1|] eqn:H1; [|done]. cbn in Hl. destruct (cache_do x w1) as [w2|] eqn:Hx; [|done]. injection Hl as <-.
    eapply cache_ok_snoc; [exact H1| | |exact Hx].
    + intros now t id ->. eapply Hp. apply elem_of_app. right. by left.
    + apply IH; [|done]. intros now t id Hin. eapply Hp. apply elem_of_app. by left.
Qed.

(** What happened to the store between two moments. *)
Lemma cache_goes_on l l2 w w2 : cache_ok l w -> run_actions cache_do l2 w = Some w2 -> evolves (il_store (cw_db w)) (il_store (cw_db w2)).
Proof.
  intros [Hs Hse _ _] H2. refine (proj2 (proj2 (run_actions_invariant cache_do (fun v => cart_ok (il_store (cw_db v)) /\ il_seen cart_ok evolves (cw_db v) /\ evolves (il_store (cw_db w)) (il_store (cw_db v))) l2 w w2 _ _ H2))).
  - intros a v v' (Hv & Hvs & He) Ha. destruct a as [a|t id|now t id|i|t id]; cbn in Ha.
    + destruct (cart_do a (cw_db v)) as [db|] eqn:Hd; [|done]. injection Ha as <-.
      destruct (il_do_seen cart_exec cart_ok evolves a _ _ _ (fun t snaps s s' => cart_exec_step t snaps s s') Hv Hvs Hd) as (? & ? & ?). cbn. split; [done|]. split; [done|]. by etransitivity.
    + by injection Ha as <-.
    + destruct (findById id t _) as [[a|]|]; [|done|done]. by injection Ha as <-.
    + destruct (cw_readers v !! i) as [[[? ?] ?]|]; [|done]. by injection Ha as <-.
    + by injection Ha as <-.
  - split; [done|]. split; [done|]. reflexivity.
Qed.

End cache.

(** ** Properties *)

(** C18: a cached read returns what was committed. However reads, saves, deletes, rollbacks and losses of
    entries interleave: a read that goes through the cache returns the cart as it was committed at some
    moment before, never what a transaction wrote and did not commit, and never another tenant's cart;
    where it finds the cart closed, the cart is closed with those lines, and a customer it finds is the
    cart's. A read inside a transaction returns what is committed now. *)
Theorem cached_reads_were_committed `{HO : !LineOrder} l w t id a :
  tenants_plain l -> plain t = true -> run_actions cache_do l empty_world = Some w ->
  cached_findById false id t (cw_cache w) (il_store (cw_db w)) = Ok (Some a) ->
  (exists l1 l2 w1, l = l1 ++ l2 /\ run_actions cache_do l1 empty_world = Some w1 /\ findById id t (il_store (cw_db w1)) = Ok (Some a)) /\
  (exists r, row_of id (cs_carts (il_store (cw_db w))) = Some r /\ row_tenant r = t /\
    (forall c, ct_customerRef (agg_props a) = Some c -> cc_customerRef (row_props r) = Some c) /\
    (closed (ct_status (agg_props a)) = true ->
     cc_status (row_props r) = ct_status (agg_props a) /\ lines_of id (il_store (cw_db w)) ≡ₚ item_row id t <$> ct_items (agg_props a))) /\
  cached_findById true id t (cw_cache w) (il_store (cw_db w)) = findById id t (il_store (cw_db w)).
Proof.
  intros Hp Ht Hl Hf. pose proof (cache_reached l w Hp Hl) as Hok.
  assert (Honce : committed_once l t id a w).
  { unfold cached_findById in Hf. destruct (cw_cache w !! key t id) as [c|] eqn:Hk.
    - destruct (co_cached _ _ Hok _ _ Hk) as (t' & id' & b & Ht' & Ek & Hb & Ho). apply key_inj in Ek as [<- <-]; [|done|done]. rewrite Hb in Hf. by injection Hf as <-.
    - exists l, [], w. by rewrite app_nil_r. }
  destruct Honce as (l1 & l2 & w1 & -> & H1 & H2 & Hf1). split; [by exists l1, l2, w1|]. split; [|done].
  assert (Hok1 : cache_ok l1 w1). { apply cache_reached; [|done]. intros now t' id' Hin. eapply Hp. apply elem_of_app. by left. }
  destruct (findById_Some _ _ _ _ (co_store _ _ Hok1) Hf1) as (r1 & Hr1 & Ht1 & Hld). pose proof (row_of_Some _ _ _ Hr1) as [_ Hid].
  destruct (cache_goes_on _ _ _ _ Hok1 H2 _ _ Hr1) as (r & Hr & [T _ _ _ _ U L]). exists r. split; [done|]. split; [congruence|]. split.
  - intros c Hc. apply U. by rewrite <- (ld_customer _ _ _ Hld).
  - intros Hc. rewrite (ld_status _ _ _ Hld) in Hc |- *. destruct (L Hc) as [E P]. split; [done|]. rewrite P. pose proof (ld_lines _ _ _ Hld) as Hll. rewrite Hid, Ht1 in Hll. by rewrite Hll.
Qed.

(** *** A stale entry *)

#[local] Instance sample_line_order : LineOrder := {| line_order := @reverse CartItemRow; line_order_perm := @reverse_Permutation CartItemRow |}.
Definition sample_cart : list CacheAction := Transact <$> sample_carts.
Definition sample_checkout : list CacheAction :=
  sample_cart ++ (Transact <$> [Begin (TxCheckOut "e1" 5 "t" "guest"); Read 0]).
(** The delete comes before the commit, and a read between the two sets the entry again. *)
Definition sample_race : list CacheAction :=
  sample_checkout ++ [Invalidate "t" "guest"; Miss 6 "t" "guest"; Transact (Commit 0); SetCache 0].
Definition sample_cached (l : list CacheAction) : CacheWorld := default empty_world (run_actions cache_do l empty_world).

(** The delete of a save does not keep the cache from lying. It is made before the transaction
    commits, so a read in between sets the entry to the cart as it was, and nothing deletes it after: with
    every call and read at its end, the cart is checked out and reads through the cache find it active. *)
Theorem save_leaves_a_stale_entry :
  exists w a, run_actions cache_do sample_race empty_world = Some w /\ il_pending (cw_db w) = [] /\ cw_readers w = [] /\
    cached_findById false "guest" "t" (cw_cache w) (il_store (cw_db w)) = Ok (Some a) /\ ct_status (agg_props a) = active /\
    (cc_status ∘ row_props <$> row_of "guest" (cs_carts (il_store (cw_db w)))) = Some checked_out.
Proof. exists (sample_cached sample_race). eexists. split; [by vm_compute|]. split; [by vm_compute|]. split; [by vm_compute|]. split; [vm_compute; reflexivity|]. split; by vm_compute. Qed.

Lemma cached_reads_were_committed_witness :
  let w := sample_cached sample_race in
  tenants_plain sample_race /\
  exists a, cached_findById false "guest" "t" (cw_cache w) (il_store (cw_db w)) = Ok (Some a) /\
    exists r, row_of "guest" (cs_carts (il_store (cw_db w))) = Some r /\ row_tenant r = "t".
Proof.
  intros w. assert (Hp : tenants_plain sample_race) by (apply tenants_plain_check; by vm_compute).
  assert (Hl : run_actions cache_do sample_race empty_world = Some w) by by vm_compute. split; [exact Hp|].
  assert (Hf : exists a, cached_findById false "guest" "t" (cw_cache w) (il_store (cw_db w)) = Ok (Some a)) by (eexists; vm_compute; reflexivity).
  destruct Hf as [a Hf]. exists a. split; [exact Hf|].
  destruct (proj1 (proj2 (cached_reads_were_committed sample_race w "t" "guest" a Hp eq_refl Hl Hf))) as (r & Hr & Ht & _). exists r. split; [exact Hr|exact Ht].
Defined.
