(* ===== verification/ShippingZones.v ===== *)
(** Shipping zones, their rates and the quotes a checkout is offered ([services/shipping/src]): the zone
    aggregate, the stored zones and rates, the use cases that edit them and the quoting rules. The country
    and province tables ([packages/regions]) are parameters. *)
From S2P Require Import Prelude Kernel Store.

#[global] Open Scope Z_scope.

(** ** The zone ([domain/shipping-zone.ts]) *)

Definition MAX_NAME_LENGTH : nat := 80.
Definition MAX_DESCRIPTION_LENGTH : nat := 200.
Definition MAX_PRICE_MINOR : Z := 2147483647.
Definition GENERAL_PROFILE : string := "general".
Definition REST_OF_WORLD : string := "*".

(** A condition as it arrives, and as a rate keeps it. *)
Inductive ConditionInput :=
| in_none
| in_orderPrice (minMinor maxMinor : option jsnum)
| in_weight (minGrams maxGrams : option jsnum).
Inductive RateCondition :=
| rc_none
| rc_orderPrice (minMinor maxMinor : option Z)
| rc_weight (minGrams maxGrams : option Z).

Record ZoneCountry := mkCountry { zc_code : string; zc_provinces : option (list string) }.
Record RateInput := mkRateInput {
  ri_name : string; ri_priceMinor : jsnum; ri_condition : option ConditionInput; ri_description : option string }.
Record ZoneInput := mkZoneInput { zi_name : string; zi_countries : list ZoneCountry; zi_profile : option string }.

Definition fail_zone {A} (issues : list FieldIssue) : result A := Err (ValidationError "Invalid shipping zone" issues).

(** A cleaned value, with the issues found. *)
Definition cleanName (value : string) : string * list FieldIssue :=
  let name := trim value in
  (name, if bool_decide (String.length name = 0%nat) || bool_decide (MAX_NAME_LENGTH < String.length name)%nat
         then [mkFieldIssue "name" "must be 1-80 characters"] else []).

Definition boundIsValid (value : option jsnum) : bool :=
  match value with None => true | Some n => isSafeInteger n && match n with NInt z => bool_decide (0 <= z) | NOther => false end end.
Definition bound_value (value : option jsnum) : option Z :=
  match value with Some (NInt z) => Some z | _ => None end.

Definition cleanBounds (min max : option jsnum) (build : option Z -> option Z -> RateCondition) : RateCondition * list FieldIssue :=
  if negb (boundIsValid min) || negb (boundIsValid max) then
    (rc_none, [mkFieldIssue "condition" "bounds must be whole numbers from 0"])
  else match bound_value min, bound_value max with
       | Some lo, Some hi =>
           if bool_decide (hi <= lo) then (rc_none, [mkFieldIssue "condition" "the minimum must be below the maximum"])
           else (build (Some lo) (Some hi), [])
       | None, None => (rc_none, [])
       | lo, hi => (build lo hi, [])
       end.
Definition cleanCondition (condition : option ConditionInput) : RateCondition * list FieldIssue :=
  match condition with
  | None | Some in_none => (rc_none, [])
  | Some (in_orderPrice min max) => cleanBounds min max rc_orderPrice
  | Some (in_weight min max) => cleanBounds min max rc_weight
  end.

Definition problem (message : string) : FieldIssue := mkFieldIssue "countries" message.

(** The issues of one country, after the codes seen before it. *)
Definition country_issues (seen : list string) (c : ZoneCountry) : list FieldIssue :=
  (if bool_decide (zc_code c ∈ seen) then [problem (zc_code c +:+ " is listed twice")] else []) ++
  match zc_provinces c with
  | None => []
  | Some ps =>
      (if bool_decide (ps = []) then [problem (zc_code c +:+ ": list at least one province, or the whole country")] else []) ++
      (if bool_decide (length (unique ps) <> length ps) then [problem (zc_code c +:+ ": a province is listed twice")] else [])
  end.
Fixpoint countries_issues (seen : list string) (countries : list ZoneCountry) : list FieldIssue :=
  match countries with
  | [] => []
  | c :: l => country_issues seen c ++ countries_issues (zc_code c :: seen) l
  end.

Definition cleanCountries (countries : list ZoneCountry) : list FieldIssue :=
  (if bool_decide (countries = []) then [problem "a zone needs at least one country"] else []) ++
  countries_issues [] countries ++
  match find_first (fun c => bool_decide (zc_code c = REST_OF_WORLD)) countries with
  | Some whole =>
      if bool_decide (1 < length countries)%nat || negb (bool_decide (zc_provinces whole = None))
      then [problem "rest of world stands alone and covers everything"] else []
  | None => []
  end.

(** *** Rates *)

Record ShippingRate := mkRate {
  sr_id : string; sr_name : string; sr_priceMinor : Z; sr_condition : RateCondition; sr_description : option string; sr_position : Z }.

Definition rate_validate (id : string) (input : RateInput) (position : Z) : result ShippingRate :=
  let '(name, i1) := cleanName (ri_name input) in
  let i2 := if negb (isSafeInteger (ri_priceMinor input)) ||
               match ri_priceMinor input with NInt z => bool_decide (z < 0) || bool_decide (MAX_PRICE_MINOR < z) | NOther => true end
            then [mkFieldIssue "priceMinor" "must be a whole number of minor units from 0"] else [] in
  let description := trim (default "" (ri_description input)) in
  let i3 := if bool_decide (MAX_DESCRIPTION_LENGTH < String.length description)%nat
            then [mkFieldIssue "description" "must be at most 200 characters"] else [] in
  let '(condition, i4) := cleanCondition (ri_condition input) in
  match i1 ++ i2 ++ i3 ++ i4, ri_priceMinor input with
  | [], NInt price => Ok (mkRate id name price condition (if bool_decide (description = "") then None else Some description) position)
  | issues, _ => fail_zone issues
  end.

(** *** Zones *)

Record ZoneProps := mkZone {
  zn_name : string; zn_profile : string; zn_countries : list ZoneCountry; zn_rates : list ShippingRate; zn_position : Z }.
Abbreviation ShippingZone := (Aggregate ZoneProps Empty_set).
Abbreviation ZoneMethod := (M ShippingZone).

Definition zone_create (id : string) (input : ZoneInput) (position : Z) : result ShippingZone :=
  let '(name, i1) := cleanName (zi_name input) in
  match i1 ++ cleanCountries (zi_countries input) with
  | [] => Ok (new_agg (mkZone name (default GENERAL_PROFILE (zi_profile input)) (zi_countries input) [] position) id)
  | issues => fail_zone issues
  end.

Definition rename (name : string) : ZoneMethod unit :=
  let '(cleaned, issues) := cleanName name in
  lift (match issues with [] => Ok tt | _ => fail_zone issues end);;
  set_props (fun p => mkZone cleaned (zn_profile p) (zn_countries p) (zn_rates p) (zn_position p)).
Definition setCountries (countries : list ZoneCountry) : ZoneMethod unit :=
  lift (match cleanCountries countries with [] => Ok tt | issues => fail_zone issues end);;
  set_props (fun p => mkZone (zn_name p) (zn_profile p) countries (zn_rates p) (zn_position p)).

Definition with_rates (rates : list ShippingRate) (p : ZoneProps) : ZoneProps :=
  mkZone (zn_name p) (zn_profile p) (zn_countries p) rates (zn_position p).
Definition next_position (rates : list ShippingRate) : Z := foldl (fun max r => Z.max max (sr_position r + 1)) 0 rates.

Definition addRate (id : string) (input : RateInput) : ZoneMethod unit :=
  p ← gets agg_props;
  rate ← lift (rate_validate id input (next_position (zn_rates p)));
  set_props (with_rates (zn_rates p ++ [rate])).

Definition rateOrThrow (rateId : string) : ZoneMethod (nat * ShippingRate) :=
  p ← gets agg_props;
  lift (match list_find (fun r => sr_id r = rateId) (zn_rates p) with
        | Some found => Ok found
        | None => Err (NotFoundError "Shipping rate not found")
        end).
Definition updateRate (rateId : string) (input : RateInput) : ZoneMethod unit :=
  '(i, rate) ← rateOrThrow rateId;
  next ← lift (rate_validate (sr_id rate) input (sr_position rate));
  set_props (fun p => with_rates (<[i := next]> (zn_rates p)) p).
Definition removeRate (rateId : string) : ZoneMethod unit :=
  '(i, _) ← rateOrThrow rateId;
  set_props (fun p => with_rates (delete i (zn_rates p)) p).

(** The rates in display order. *)
Definition rates_in_order (p : ZoneProps) : list ShippingRate :=
  sort_by (fun a b => bool_decide (sr_position a <= sr_position b)) (zn_rates p).

(** ** Quotes ([domain/quote-rates.ts]) *)

Record QuoteLine := mkQuoteLine {
  ql_unitPriceMinor : Z; ql_quantity : Z; ql_requiresShipping : bool; ql_weightGrams : option Z }.
Record QuoteAddress := mkQuoteAddress { qa_country : string; qa_province : option string }.
Record QuotedRate := mkQuoted { qr_id : string; qr_name : string; qr_priceMinor : Z; qr_description : option string }.

Definition NO_SHIPPING_RATE_ID : string := "none".
Definition NO_SHIPPING_REQUIRED : QuotedRate := mkQuoted NO_SHIPPING_RATE_ID "No shipping required" 0 None.

Definition matchLevel (countries : list ZoneCountry) (address : QuoteAddress) : Z :=
  foldl (fun level country =>
    if bool_decide (zc_code country = REST_OF_WORLD) then Z.max level 1
    else if bool_decide (zc_code country = qa_country address) then
      match zc_provinces country, qa_province address with
      | None, _ => Z.max level 2
      | Some ps, Some province => if bool_decide (province ∈ ps) then 3 else level
      | Some _, None => level
      end
    else level) 0 countries.

Definition within (value : Z) (min max : option Z) : bool :=
  match min with None => true | Some lo => bool_decide (lo <= value) end &&
  match max with None => true | Some hi => bool_decide (value < hi) end.
Definition applies (condition : RateCondition) (subtotalMinor weightGrams : Z) : bool :=
  match condition with
  | rc_none => true
  | rc_orderPrice min max => within subtotalMinor min max
  | rc_weight min max => within weightGrams min max
  end.

(** The best zone so far, with its level. *)
Definition better_zone (address : QuoteAddress) (best : option ZoneProps * Z) (zone : ZoneProps) : option ZoneProps * Z :=
  let level := matchLevel (zn_countries zone) address in
  if bool_decide (best.2 < level) then (Some zone, level) else best.

Definition subtotal_minor (lines : list QuoteLine) : Z := sumZ (fun l => ql_unitPriceMinor l * ql_quantity l) lines.
Definition weight_grams (lines : list QuoteLine) : Z :=
  sumZ (fun l => default 0 (ql_weightGrams l) * ql_quantity l) (filter (fun l => ql_requiresShipping l = true) lines).

Definition cheaper (a b : ShippingRate) : bool :=
  bool_decide (sr_priceMinor a < sr_priceMinor b) ||
  (bool_decide (sr_priceMinor a = sr_priceMinor b) && bool_decide (sr_position a <= sr_position b)).
Definition quoted_rate (r : ShippingRate) : QuotedRate := mkQuoted (sr_id r) (sr_name r) (sr_priceMinor r) (sr_description r).

Definition quoteRates (zones : list ZoneProps) (address : QuoteAddress) (lines : list QuoteLine) : list QuotedRate :=
  if negb (existsb ql_requiresShipping lines) then [NO_SHIPPING_REQUIRED]
  else match foldl (better_zone address) (None, 0) zones with
       | (None, _) => []
       | (Some best, _) =>
           quoted_rate <$> sort_by cheaper
             (filter (fun r => applies (sr_condition r) (subtotal_minor lines) (weight_grams lines) = true) (rates_in_order best))
       end.

(** ** Rows ([infrastructure/shipping-zone.mapper.ts]) *)

Record ShippingRateRow := mkRateRow {
  rr_id : string; rr_tenantId : string; rr_zoneId : string; rr_name : string; rr_priceMinor : Z; rr_conditionType : string;
  rr_conditionMin : option Z; rr_conditionMax : option Z; rr_description : option string; rr_position : Z }.
Record ShippingZoneRow := mkZoneRow {
  zr_id : string; zr_tenantId : string; zr_name : string; zr_profile : string; zr_countries : list ZoneCountry; zr_position : Z }.
Record ZoneStore := mkZoneStore { zs_zones : list ShippingZoneRow; zs_rates : list ShippingRateRow }.

Definition conditionOf (row : ShippingRateRow) : RateCondition :=
  if bool_decide (rr_conditionType row = "order_price") then rc_orderPrice (rr_conditionMin row) (rr_conditionMax row)
  else if bool_decide (rr_conditionType row = "weight") then rc_weight (rr_conditionMin row) (rr_conditionMax row)
  else rc_none.
Definition rate_of_row (row : ShippingRateRow) : ShippingRate :=
  mkRate (rr_id row) (rr_name row) (rr_priceMinor row) (conditionOf row) (rr_description row) (rr_position row).
Definition zone_toDomain (row : ShippingZoneRow) (rates : list ShippingRateRow) : ShippingZone :=
  new_agg (mkZone (zr_name row) (zr_profile row) (zr_countries row) (rate_of_row <$> rates) (zr_position row)) (zr_id row).

Definition toZoneData (a : ShippingZone) (tenantId : string) : ShippingZoneRow :=
  let p := agg_props a in mkZoneRow (agg_id a) tenantId (zn_name p) (zn_profile p) (zn_countries p) (zn_position p).
Definition rate_row (tenantId zoneId : string) (r : ShippingRate) : ShippingRateRow :=
  let row := mkRateRow (sr_id r) tenantId zoneId (sr_name r) (sr_priceMinor r) in
  match sr_condition r with
  | rc_orderPrice min max => row "order_price" min max (sr_description r) (sr_position r)
  | rc_weight min max => row "weight" min max (sr_description r) (sr_position r)
  | rc_none => row "none" None None (sr_description r) (sr_position r)
  end.
Definition toRateRows (a : ShippingZone) (tenantId : string) : list ShippingRateRow :=
  rate_row tenantId (agg_id a) <$> rates_in_order (agg_props a).

(** ** The stored zones ([infrastructure/prisma-shipping-zone-repository.ts])

    Rows stand in the order they were created. There is no version: a save writes whatever it holds. *)

Abbreviation ZoneM := (M ZoneStore).

Definition is_zone (id tenantId : string) (r : ShippingZoneRow) : bool :=
  bool_decide (zr_id r = id) && bool_decide (zr_tenantId r = tenantId).
Definition is_rate (id tenantId zoneId : string) (r : ShippingRateRow) : bool :=
  bool_decide (rr_id r = id) && bool_decide (rr_tenantId r = tenantId) && bool_decide (rr_zoneId r = zoneId).

(** Update the row the key names, else insert it; the primary key refuses a second one. *)
Definition upsert {R} (mine same_key : R -> bool) (row : R) (rows : list R) : result (list R) :=
  if existsb mine rows then Ok ((fun r => if mine r then row else r) <$> rows)
  else if existsb same_key rows then Err (UnexpectedError "unique constraint violation")
  else Ok (rows ++ [row]).
Definition save_rate (rows : list ShippingRateRow) (row : ShippingRateRow) : result (list ShippingRateRow) :=
  upsert (is_rate (rr_id row) (rr_tenantId row) (rr_zoneId row)) (fun r => bool_decide (rr_id r = rr_id row)) row rows.

Definition save_zone (a : ShippingZone) (tenantId : string) : ZoneM unit := fun s =>
  let row := toZoneData a tenantId in
  let rates := toRateRows a tenantId in
  match (zones ← upsert (is_zone (agg_id a) tenantId) (fun r => bool_decide (zr_id r = agg_id a)) row (zs_zones s);
         let kept := filter (fun r => ~ (rr_zoneId r = agg_id a /\ rr_tenantId r = tenantId /\ rr_id r ∉ (rr_id <$> rates))) (zs_rates s) in
         rows ← foldM save_rate kept rates;
         Ok (mkZoneStore zones rows)) with
  | Ok s' => (Ok tt, s')
  | Err e => (Err e, s)
  end.

Definition with_rates_of (s : ZoneStore) (row : ShippingZoneRow) : ShippingZone :=
  zone_toDomain row (sort_by (fun a b => bool_decide (rr_position a <= rr_position b))
    (filter (fun r => rr_zoneId r = zr_id row) (zs_rates s))).
Definition find_zone (id tenantId : string) (s : ZoneStore) : option ShippingZone :=
  with_rates_of s <$> find_first (is_zone id tenantId) (zs_zones s).
Definition list_zones (tenantId : string) (s : ZoneStore) : list ShippingZone :=
  with_rates_of s <$> sort_by (fun a b => bool_decide (zr_position a <= zr_position b))
    (filter (fun r => zr_tenantId r = tenantId) (zs_zones s)).
Definition delete_zone (id tenantId : string) : ZoneM unit :=
  modify (fun s => mkZoneStore (filter (fun r => is_zone id tenantId r = false) (zs_zones s))
    (filter (fun r => ~ (rr_zoneId r = id /\ rr_tenantId r = tenantId)) (zs_rates s))).

(** ** Use cases ([application/shipping-zones.use-cases.ts], [quote-shipping.use-cases.ts])

    [s0] and [s1] are what the transaction's reads saw. *)

Section use_cases.
Context (COUNTRY_CODES : list string) (PROVINCES : string -> list string) (gen : nat -> string).

Definition regionIssues (countries : list ZoneCountry) : list FieldIssue :=
  countries ≫= fun country =>
    if bool_decide (zc_code country = REST_OF_WORLD) then []
    else if negb (bool_decide (zc_code country ∈ COUNTRY_CODES)) then [problem (zc_code country +:+ " is not a country code")]
    else match zc_provinces country with
         | None => []
         | Some ps => ps ≫= fun province =>
             if bool_decide (province ∈ PROVINCES (zc_code country)) then []
             else [problem (province +:+ " is not a province of " +:+ zc_code country)]
         end.

(** What a country of a zone shares with another zone. *)
Definition clash (theirs : list ZoneCountry) (mine : ZoneCountry) : option string :=
  country ← find_first (fun c => bool_decide (zc_code c = zc_code mine)) theirs;
  match zc_provinces mine, zc_provinces country with
  | Some ps, Some qs => find_first (fun p => bool_decide (p ∈ qs)) ps
  | _, _ => Some (zc_code mine)
  end.
Definition overlapIssues (countries : list ZoneCountry) (others : list ShippingZone) : list FieldIssue :=
  others ≫= fun other =>
    match head (omap (clash (zn_countries (agg_props other))) countries) with
    | Some c => [problem (c +:+ " is already in zone " +:+ quoted (zn_name (agg_props other)) +:+ "; a country can only be in one zone")]
    | None => []
    end.

Definition checkCountries (tenantId : string) (countries : list ZoneCountry) (ownId : option string) (s : ZoneStore) : result unit :=
  let others := filter (fun z => Some (agg_id z) <> ownId) (list_zones tenantId s) in
  match regionIssues countries with
  | [] => match overlapIssues countries others with [] => Ok tt | issues => fail_zone issues end
  | issues => fail_zone issues
  end.

Fixpoint add_rates (n : nat) (inputs : list RateInput) : ZoneMethod unit :=
  match inputs with
  | [] => mret tt
  | input :: l => id ← lift (UniqueEntityId_from (gen n)); addRate id input;; add_rates (S n) l
  end.

Definition CreateZone (tenantId name : string) (countries : list ZoneCountry) (rates : list RateInput) (s0 s1 : ZoneStore) : ZoneM string :=
  id ← lift (UniqueEntityId_from (gen 0));
  zone ← lift (zone_create id (mkZoneInput name countries None) (Z.of_nat (length (list_zones tenantId s0))));
  zone ← call zone (add_rates 1 rates);
  lift (checkCountries tenantId countries None s1);;
  save_zone zone tenantId;;
  mret id.

Definition UpdateZone (tenantId zoneId name : string) (countries : list ZoneCountry) (s0 s1 : ZoneStore) : ZoneM ShippingZone :=
  zone ← require "Shipping zone not found" (find_zone zoneId tenantId s0);
  zone ← call zone (rename name;; setCountries countries);
  lift (checkCountries tenantId countries (Some zoneId) s1);;
  save_zone zone tenantId;;
  mret zone.

Definition DeleteZone (tenantId zoneId : string) (s0 : ZoneStore) : ZoneM string :=
  _ ← require "Shipping zone not found" (find_zone zoneId tenantId s0);
  delete_zone zoneId tenantId;;
  mret zoneId.

Definition AddRate (tenantId zoneId : string) (input : RateInput) (s0 : ZoneStore) : ZoneM string :=
  zone ← require "Shipping zone not found" (find_zone zoneId tenantId s0);
  id ← lift (UniqueEntityId_from (gen 0));
  zone ← call zone (addRate id input);
  save_zone zone tenantId;;
  mret id.

Definition UpdateRate (tenantId zoneId rateId : string) (input : RateInput) (s0 : ZoneStore) : ZoneM ShippingRate :=
  zone ← require "Shipping zone not found" (find_zone zoneId tenantId s0);
  zone ← call zone (updateRate rateId input);
  save_zone zone tenantId;;
  require "Shipping rate not found" (find_first (fun r => bool_decide (sr_id r = rateId)) (rates_in_order (agg_props zone))).

Definition DeleteRate (tenantId zoneId rateId : string) (s0 : ZoneStore) : ZoneM string :=
  zone ← require "Shipping zone not found" (find_zone zoneId tenantId s0);
  zone ← call zone (removeRate rateId);
  save_zone zone tenantId;;
  mret rateId.

(** One call of a use case, and its transaction. *)
Inductive ZoneCall :=
| ZCreate (name : string) (countries : list ZoneCountry) (rates : list RateInput)
| ZUpdate (zoneId name : string) (countries : list ZoneCountry)
| ZDelete (zoneId : string)
| ZAddRate (zoneId : string) (input : RateInput)
| ZUpdateRate (zoneId rateId : string) (input : RateInput)
| ZDeleteRate (zoneId rateId : string).
Definition zone_call (tenantId : string) (c : ZoneCall) (s0 s1 : ZoneStore) : ZoneM unit :=
  match c with
  | ZCreate name countries rates => CreateZone tenantId name countries rates s0 s1;; mret tt
  | ZUpdate zoneId name countries => UpdateZone tenantId zoneId name countries s0 s1;; mret tt
  | ZDelete zoneId => DeleteZone tenantId zoneId s0;; mret tt
  | ZAddRate zoneId input => AddRate tenantId zoneId input s0;; mret tt
  | ZUpdateRate zoneId rateId input => UpdateRate tenantId zoneId rateId input s0;; mret tt
  | ZDeleteRate zoneId rateId => DeleteRate tenantId zoneId rateId s0;; mret tt
  end.

End use_cases.

(** The fields of [ListZones] are those of the zones; a quote and the countries a checkout may offer. *)
Definition ListZones (tenantId : string) (s : ZoneStore) : list ShippingZone := list_zones tenantId s.

Definition QuoteShippingRates (tenantId : string) (address : QuoteAddress) (lines : list QuoteLine) (s : ZoneStore) : result (list QuotedRate) :=
  if blank (qa_country address) then Err (ValidationError "Invalid address" [mkFieldIssue "country" "required"])
  else Ok (quoteRates (agg_props <$> list_zones tenantId s) address lines).

(** [ListShippableCountries] *)
Definition shippable_codes (zones : list ZoneProps) : list string :=
  unique (filter (fun c => c <> REST_OF_WORLD) (zones ≫= fun z => zc_code <$> zn_countries z)).
Definition ListShippableCountries (tenantId : string) (s : ZoneStore) : list string * bool :=
  let zones := agg_props <$> list_zones tenantId s in
  (sort_by string_le (shippable_codes zones),
   existsb (fun z => existsb (fun c => bool_decide (zc_code c = REST_OF_WORLD)) (zn_countries z)) zones).

(** ** What a zone serves *)

(** How well one country of a zone matches an address. *)
Definition country_level (address : QuoteAddress) (c : ZoneCountry) : Z :=
  if bool_decide (zc_code c = REST_OF_WORLD) then 1
  else if bool_decide (zc_code c = qa_country address) then
    match zc_provinces c, qa_province address with
    | None, _ => 2
    | Some ps, Some p => if bool_decide (p ∈ ps) then 3 else 0
    | Some _, None => 0
    end
  else 0.

(** Three: it lists the address's province; two: it holds the whole country; one: the rest of the world. *)
Definition serves (countries : list ZoneCountry) (address : QuoteAddress) (level : Z) : Prop :=
  exists c, c ∈ countries /\
    ((level = 1 /\ zc_code c = REST_OF_WORLD) \/
     (zc_code c = qa_country address /\ qa_country address <> REST_OF_WORLD /\
      ((level = 2 /\ zc_provinces c = None) \/
       (level = 3 /\ exists p ps, zc_provinces c = Some ps /\ qa_province address = Some p /\ p ∈ ps)))).

Lemma country_level_bounds address c : 0 <= country_level address c <= 3.
Proof. unfold country_level. repeat case_match; lia. Qed.

Lemma country_level_serves address c l countries :
  c ∈ countries -> country_level address c = l -> 0 < l -> serves countries address l.
Proof.
  intros Hc Hl Hp. exists c. split; [done|]. unfold country_level in Hl. case_bool_decide as H1; [left; split; [lia|done]|]. right.
  case_bool_decide as H2; [|lia]. split; [done|]. split; [by rewrite <- H2|]. destruct (zc_provinces c) as [ps|], (qa_province address) as [p|]; [|lia|by left|by left].
  case_bool_decide; [|lia]. right. split; [lia|]. by exists p, ps.
Qed.

Lemma serves_country_level address countries l :
  serves countries address l -> exists c, c ∈ countries /\ country_level address c = l.
Proof.
  intros (c & Hc & H). exists c. split; [done|]. unfold country_level. destruct H as [[-> H]|(H1 & H2 & H)]; [by rewrite bool_decide_true|].
  rewrite bool_decide_false by congruence. rewrite bool_decide_true by done. destruct H as [[-> H]|(-> & p & ps & H & Hp & Hin)]; rewrite H; [by destruct (qa_province address)|].
  rewrite Hp. by rewrite bool_decide_true.
Qed.

Lemma matchLevel_max address countries : matchLevel countries address = foldl (fun l c => Z.max l (country_level address c)) 0 countries.
Proof.
  unfold matchLevel. assert (H : 0 <= 0 <= 3) by lia. revert H. generalize 0 at 2 3 4 5. induction countries as [|c l IH]; intros z Hz; [done|]. cbn [foldl].
  assert (E : forall (x y : Z), x = y -> 0 <= y <= 3 -> foldl (fun level country =>
    if bool_decide (zc_code country = REST_OF_WORLD) then Z.max level 1
    else if bool_decide (zc_code country = qa_country address) then
      match zc_provinces country, qa_province address with
      | None, _ => Z.max level 2
      | Some ps, Some province => if bool_decide (province ∈ ps) then 3 else level
      | Some _, None => level
      end
    else level) x l = foldl (fun l c => Z.max l (country_level address c)) y l) by (intros ? ? -> ?; by apply IH).
  pose proof (country_level_bounds address c). apply E; [|lia]. unfold country_level in *. repeat case_match; lia.
Qed.

Lemma foldl_max {A} (f : A -> Z) l z : foldl (fun m x => Z.max m (f x)) z l = Z.max z (foldl (fun m x => Z.max m (f x)) z l) /\
  (forall x, x ∈ l -> f x <= foldl (fun m x => Z.max m (f x)) z l) /\
  (foldl (fun m x => Z.max m (f x)) z l = z \/ exists x, x ∈ l /\ foldl (fun m x => Z.max m (f x)) z l = f x).
Proof.
  revert z. induction l as [|y l IH]; intros z; cbn; [split; [lia|]; split; [by intros ? ?%elem_of_nil|by left]|].
  destruct (IH (Z.max z (f y))) as (H1 & H2 & H3). split; [lia|]. split.
  - intros x [-> |Hx]%elem_of_cons; [lia|by apply H2].
  - destruct H3 as [H3|(x & Hx & H3)]; [|right; exists x; split; [by right|done]]. destruct (Z.max_spec z (f y)) as [[_ E]|[_ E]]; [right; exists y; split; [left|lia]|left; lia].
Qed.

(** The level computed is the best at which the zone serves the address. *)
Lemma matchLevel_serves address countries :
  0 <= matchLevel countries address /\ (0 < matchLevel countries address -> serves countries address (matchLevel countries address)) /\
  forall l, serves countries address l -> l <= matchLevel countries address.
Proof.
  rewrite matchLevel_max. destruct (foldl_max (country_level address) countries 0) as (H1 & H2 & H3). split; [lia|]. split.
  - intros Hp. destruct H3 as [H3|(c & Hc & H3)]; [lia|]. by apply (country_level_serves _ c).
  - intros l (c & Hc & <-)%serves_country_level. by apply H2.
Qed.

(** ** Zones that do not overlap *)

Definition overlap (cs ds : list ZoneCountry) : Prop :=
  exists c d, c ∈ cs /\ d ∈ ds /\ zc_code c = zc_code d /\
    match zc_provinces c, zc_provinces d with Some ps, Some qs => exists p, p ∈ ps /\ p ∈ qs | _, _ => True end.

Lemma overlap_sym cs ds : overlap cs ds -> overlap ds cs.
Proof.
  intros (c & d & Hc & Hd & E & H). exists d, c. split; [done|]. split; [done|]. split; [done|].
  destruct (zc_provinces c), (zc_provinces d); try done. naive_solver.
Qed.

Lemma unique_length {A} `{EqDecision A} (l : list A) : (length (unique l) <= length l)%nat.
Proof.
  induction l as [|x l IH]; cbn; [lia|]. pose proof (length_filter (fun y => y <> x) (unique l)). lia.
Qed.
Lemma unique_length_NoDup {A} `{EqDecision A} (l : list A) : length (unique l) = length l -> NoDup l.
Proof.
  induction l as [|x l IH]; cbn; [constructor|]. intros E. pose proof (length_filter (fun y => y <> x) (unique l)). pose proof (unique_length l).
  constructor; [|apply IH; lia]. intros Hx%elem_of_unique. assert (length (filter (fun y => y <> x) (unique l)) < length (unique l))%nat; [|lia].
  apply (length_filter_lt (fun y => y <> x) (unique l) x); [done|]. by intros Hne.
Qed.

(** What the checks of a zone's countries establish. *)
Lemma countries_issues_nil seen cs :
  countries_issues seen cs = [] -> NoDup (zc_code <$> cs) /\ (forall c, c ∈ cs -> (zc_code c ∉ seen)) /\
  forall c ps, c ∈ cs -> zc_provinces c = Some ps -> ps <> [] /\ NoDup ps.
Proof.
  revert seen. induction cs as [|c l IH]; intros seen; [intros _; split; [apply NoDup_nil_2|]; split; [by intros ? ?%elem_of_nil|by intros ? ? ?%elem_of_nil]|].
  cbn [countries_issues]. intros [Hc Hl]%app_nil. destruct (IH _ Hl) as (H1 & H2 & H3). unfold country_issues in Hc. apply app_nil in Hc as [Hs Hp].
  case_bool_decide as Hseen; [done|]. split; [|split].
  - rewrite fmap_cons. constructor; [|done]. intros (d & E & Hd)%list_elem_of_fmap. apply (H2 d Hd). rewrite <- E. left.
  - intros d [-> |Hd]%elem_of_cons; [done|]. intros Hin. apply (H2 d Hd). by right.
  - intros d ps [-> |Hd]%elem_of_cons Hps; [|by eapply H3]. rewrite Hps in Hp. apply app_nil in Hp as [Hne Hdup].
    destruct (decide (ps = [])) as [E|E]; [by rewrite bool_decide_true in Hne|]. split; [done|]. apply unique_length_NoDup.
    destruct (decide (length (unique ps) = length ps)) as [|Hlen]; [done|]. by rewrite bool_decide_true in Hdup.
Qed.

Lemma cleanCountries_nil cs :
  cleanCountries cs = [] -> cs <> [] /\ NoDup (zc_code <$> cs) /\ (forall c, c ∈ cs -> zc_code c = REST_OF_WORLD -> zc_provinces c = None) /\
  forall c ps, c ∈ cs -> zc_provinces c = Some ps -> ps <> [] /\ NoDup ps.
Proof.
  unfold cleanCountries. intros [Hne [Hi Hrest]%app_nil]%app_nil. destruct (countries_issues_nil _ _ Hi) as (Hn & _ & Hp). split; [intros ->; by rewrite bool_decide_true in Hne|].
  split; [done|]. split; [|done]. intros c Hc Hcode. destruct (find_first _ cs) as [w|] eqn:Hw.
  - apply find_first_Some in Hw as [Hw Hwc%bool_decide_eq_true]. assert (c = w) as -> by (apply (NoDup_fmap_elem zc_code cs); [done..|congruence]).
    destruct (decide (zc_provinces w = None)) as [|Hp']; [done|]. rewrite (bool_decide_false (zc_provinces w = None)), orb_true_r in Hrest by done. done.
  - apply (find_first_None _ _ c) in Hw; [|done]. by apply bool_decide_eq_false in Hw.
Qed.

(** Two zones that serve an address equally well overlap. *)
Lemma serves_overlap cs ds address l :
  cleanCountries cs = [] -> cleanCountries ds = [] -> serves cs address l -> serves ds address l -> overlap cs ds.
Proof.
  intros (_ & _ & Hw & _)%cleanCountries_nil (_ & _ & Hw' & _)%cleanCountries_nil (c & Hc & H) (d & Hd & H'). exists c, d. split; [done|]. split; [done|].
  destruct H as [[-> H]|(H1 & H2 & H)], H' as [[E' H']|(H1' & H2' & H')].
  - split; [congruence|]. by rewrite (Hw c Hc H).
  - destruct H' as [[? _]|[? _]]; lia.
  - destruct H as [[? _]|[? _]]; lia.
  - split; [congruence|]. destruct H as [[-> H]|(-> & p & ps & H & Hp & Hin)]; rewrite H; [done|].
    destruct H' as [[? _]|(_ & p' & qs & H' & Hp' & Hin')]; [lia|]. rewrite H'. exists p. split; [done|]. congruence.
Qed.

(** The check against the other zones refuses exactly what overlaps. *)
Lemma clash_None theirs mine : NoDup (zc_code <$> theirs) -> clash theirs mine = None -> ~ overlap [mine] theirs.
Proof.
  intros Hn Hc (c & d & ->%list_elem_of_singleton & Hd & E & H). unfold clash in Hc.
  destruct (find_first _ theirs) as [e|] eqn:He; cbn in Hc; [|apply (find_first_None _ _ d) in He; [|done]; by apply bool_decide_eq_false in He].
  apply find_first_Some in He as [He Hcode%bool_decide_eq_true]. assert (e = d) as -> by (apply (NoDup_fmap_elem zc_code theirs); [done..|congruence]).
  destruct (zc_provinces mine) as [ps|], (zc_provinces d) as [qs|]; try done. destruct H as (p & Hp & Hq).
  apply (find_first_None _ _ p) in Hc; [|done]. by apply bool_decide_eq_false in Hc.
Qed.

Lemma overlapIssues_nil cs others :
  (forall z, z ∈ others -> NoDup (zc_code <$> zn_countries (agg_props z))) -> overlapIssues cs others = [] ->
  forall z, z ∈ others -> ~ overlap cs (zn_countries (agg_props z)).
Proof.
  intros Hn Hi z Hz (c & d & Hc & Hd & E & H). assert (Hz' : head (omap (clash (zn_countries (agg_props z))) cs) = None).
  { destruct (head _) as [m|] eqn:Hm; [|done]. assert (Hin : problem (m +:+ " is already in zone " +:+ quoted (zn_name (agg_props z)) +:+ "; a country can only be in one zone") ∈ overlapIssues cs others).
    { apply list_elem_of_bind. exists z. split; [|done]. rewrite Hm. left. }
    rewrite Hi in Hin. by apply elem_of_nil in Hin. }
  apply head_None in Hz'. assert (Hcl : clash (zn_countries (agg_props z)) c = None).
  { destruct (clash _ c) as [m|] eqn:Hm; [|done]. assert (Hin : m ∈ omap (clash (zn_countries (agg_props z))) cs) by (apply list_elem_of_omap; eauto).
    rewrite Hz' in Hin. by apply elem_of_nil in Hin. }
  apply (clash_None _ _ (Hn z Hz) Hcl). exists c, d. split; [left|]. by split.
Qed.

(** ** The zone a quote comes from *)

Definition level_of (address : QuoteAddress) (z : ZoneProps) : Z := matchLevel (zn_countries z) address.

Lemma best_zone_fold address zs acc :
  0 <= acc.2 ->
  let r := foldl (better_zone address) acc zs in
  acc.2 <= r.2 /\ (forall z, z ∈ zs -> level_of address z <= r.2) /\
  (r = acc \/ exists z, z ∈ zs /\ r = (Some z, level_of address z) /\ acc.2 < level_of address z).
Proof.
  revert acc. induction zs as [|z zs IH]; intros acc Ha; cbn; [split; [lia|]; split; [by intros ? ?%elem_of_nil|by left]|].
  assert (E : better_zone address acc z = if bool_decide (acc.2 < level_of address z) then (Some z, level_of address z) else acc) by done.
  destruct (IH (better_zone address acc z)) as (H1 & H2 & H3); [rewrite E; case_bool_decide; cbn; lia|]. rewrite E in *. case_bool_decide as Hb; cbn in *.
  - split; [lia|]. split; [intros x [-> |Hx]%elem_of_cons; [lia|by apply H2]|]. right. destruct H3 as [Ex|(x & Hx & Ex & Hlt)].
    + exists z. split; [left|]. by split.
    + exists x. split; [by right|]. split; [exact Ex|lia].
  - split; [lia|]. split; [intros x [-> |Hx]%elem_of_cons; [lia|by apply H2]|]. destruct H3 as [Ex|(x & Hx & Ex & Hlt)]; [by left|].
    right. exists x. split; [by right|]. by split.
Qed.

Definition offers (lines : list QuoteLine) (z : ZoneProps) : list QuotedRate :=
  quoted_rate <$> sort_by cheaper
    (filter (fun r => applies (sr_condition r) (subtotal_minor lines) (weight_grams lines) = true) (rates_in_order z)).

(** Zones that are clean and share no country. *)
Definition apart (zs : list ZoneProps) : Prop :=
  (forall z, z ∈ zs -> cleanCountries (zn_countries z) = []) /\
  forall i j z z', zs !! i = Some z -> zs !! j = Some z' -> i <> j -> ~ overlap (zn_countries z) (zn_countries z').

Lemma apart_one (zs : list ZoneProps) address z z' :
  apart zs -> z ∈ zs -> z' ∈ zs -> level_of address z = level_of address z' -> 0 < level_of address z -> z = z'.
Proof.
  intros [Hc Ha] Hz Hz' E Hp. pose proof (Hc z Hz). pose proof (Hc z' Hz'). apply list_elem_of_lookup in Hz as [i Hi], Hz' as [j Hj].
  destruct (decide (i = j)) as [-> |Hne]; [congruence|]. destruct (Ha i j z z' Hi Hj Hne).
  apply (serves_overlap _ _ address (level_of address z)); [done..| |rewrite E]; apply matchLevel_serves; unfold level_of in *; lia.
Qed.

(** What is quoted for something to ship: the offers of the zone that serves the address best. *)
Lemma quoteRates_best zs address lines z :
  apart zs -> existsb ql_requiresShipping lines = true -> z ∈ zs -> 0 < level_of address z ->
  (forall z', z' ∈ zs -> level_of address z' <= level_of address z) -> quoteRates zs address lines = offers lines z.
Proof.
  intros Ha Hl Hz Hp Hmax. unfold quoteRates. rewrite Hl. cbn [negb]. destruct (best_zone_fold address zs (None, 0)) as (_ & H2 & H3); [done|]. cbv zeta in *.
  destruct H3 as [E|(x & Hx & E & Hlt)].
  - specialize (H2 z Hz). rewrite E in H2. cbn in H2. lia.
  - rewrite E. assert (x = z) as -> by (specialize (H2 z Hz); rewrite E in H2; cbn in *; specialize (Hmax x Hx); apply (apart_one zs address); [done..|lia|lia]). done.
Qed.

Lemma quoteRates_none (zs : list ZoneProps) address lines :
  existsb ql_requiresShipping lines = true -> (forall z, z ∈ zs -> level_of address z <= 0) -> quoteRates zs address lines = [].
Proof.
  intros Hl Hz. unfold quoteRates. rewrite Hl. cbn [negb]. destruct (best_zone_fold address zs (None, 0)) as (_ & H2 & H3); [done|]. cbv zeta in *.
  destruct H3 as [E|(x & Hx & E & Hlt)]; [by rewrite E|]. specialize (Hz x Hx). cbn in Hlt. lia.
Qed.

Lemma best_zone_exists (zs : list ZoneProps) address :
  (forall z, z ∈ zs -> level_of address z <= 0) \/
  exists z, z ∈ zs /\ 0 < level_of address z /\ forall z', z' ∈ zs -> level_of address z' <= level_of address z.
Proof.
  destruct (best_zone_fold address zs (None, 0)) as (_ & H2 & H3); [done|]. cbv zeta in *. destruct H3 as [E|(x & Hx & E & Hlt)]; rewrite E in H2; cbn in *; [by left|].
  right. exists x. done.
Qed.

Lemma quoteRates_perm zs zs' address lines : apart zs -> zs' ≡ₚ zs -> quoteRates zs' address lines = quoteRates zs address lines.
Proof.
  intros Ha HP. destruct (existsb ql_requiresShipping lines) eqn:Hl; [|unfold quoteRates; by rewrite Hl].
  destruct (best_zone_exists zs address) as [Hn|(z & Hz & Hp & Hmax)].
  - rewrite !quoteRates_none; [done|done|done|done|]. intros z. rewrite HP. apply Hn.
  - rewrite (quoteRates_best zs _ _ z) by done. unfold quoteRates. rewrite Hl. cbn [negb].
    destruct (best_zone_fold address zs' (None, 0)) as (_ & H2 & H3); [done|]. cbv zeta in *. assert (Hz' : z ∈ zs') by (by rewrite HP).
    destruct H3 as [E|(x & Hx & E & Hlt)].
    + specialize (H2 z Hz'). rewrite E in H2. cbn in H2. lia.
    + rewrite E. rewrite HP in Hx. specialize (H2 z Hz'). specialize (Hmax x Hx). rewrite E in H2. cbn in *.
      assert (x = z) as -> by (apply (apart_one zs address); [done..|lia|lia]). done.
Qed.

(** Offers are the rates that apply, cheapest first. *)
Lemma offers_spec lines z :
  offers lines z ≡ₚ quoted_rate <$> filter (fun r => applies (sr_condition r) (subtotal_minor lines) (weight_grams lines) = true) (zn_rates z) /\
  StronglySorted (fun a b => qr_priceMinor a <= qr_priceMinor b) (offers lines z).
Proof.
  unfold offers. split.
  - rewrite sort_by_perm. unfold rates_in_order. by rewrite sort_by_perm.
  - assert (Hs : forall l, StronglySorted (fun a b : ShippingRate => sr_priceMinor a <= sr_priceMinor b) l -> StronglySorted (fun a b => qr_priceMinor a <= qr_priceMinor b) (quoted_rate <$> l)).
    { induction 1 as [|x l Hl IH Hx]; cbn; constructor; [done|]. by apply Forall_fmap. }
    apply Hs. apply (sort_by_sorted cheaper); [| |intros x y w; cbn; lia]; unfold cheaper; intros x y.
    + intros [H%bool_decide_eq_true|[H%bool_decide_eq_true _]%andb_true_iff]%orb_true_iff; lia.
    + intros [H1%bool_decide_eq_false H2]%orb_false_iff. lia.
Qed.

(** ** What the stored zones keep *)

Definition bound_ok (b : option Z) : Prop := match b with Some z => 0 <= z <= MAX_SAFE_INTEGER | None => True end.
Definition window_ok (min max : option Z) : Prop :=
  bound_ok min /\ bound_ok max /\ match min, max with Some lo, Some hi => lo < hi | None, None => False | _, _ => True end.
Definition condition_ok (c : RateCondition) : Prop :=
  match c with rc_none => True | rc_orderPrice min max | rc_weight min max => window_ok min max end.
(** A price fits its column, and a condition's window is not empty. *)
Definition rate_ok (r : ShippingRate) : Prop := 0 <= sr_priceMinor r <= MAX_PRICE_MINOR /\ condition_ok (sr_condition r).
Definition zone_ok (p : ZoneProps) : Prop := cleanCountries (zn_countries p) = [] /\ Forall rate_ok (zn_rates p).

Lemma boundIsValid_ok b : boundIsValid b = true -> bound_ok (bound_value b).
Proof.
  destruct b as [[z|]|]; cbn; [|done|done]. intros [H1%bool_decide_eq_true H2%bool_decide_eq_true]%andb_true_iff. lia.
Qed.

Lemma cleanBounds_ok min max build c :
  (forall lo hi, window_ok lo hi -> condition_ok (build lo hi)) -> cleanBounds min max build = (c, []) -> condition_ok c.
Proof.
  intros Hb. unfold cleanBounds. destruct (negb (boundIsValid min) || negb (boundIsValid max)) eqn:Hv; [done|].
  apply orb_false_iff in Hv as [H1%negb_false_iff H2%negb_false_iff]. apply boundIsValid_ok in H1, H2.
  destruct (bound_value min) as [lo|], (bound_value max) as [hi|]; [case_bool_decide; [done|]| | |]; intros [= <-]; try done; apply Hb; unfold window_ok; split_and!; done || lia.
Qed.

Lemma rate_validate_Ok id input position r :
  rate_validate id input position = Ok r -> rate_ok r /\ sr_id r = id /\ sr_position r = position.
Proof.
  unfold rate_validate. destruct (cleanName _) as [name i1], (cleanCondition (ri_condition input)) as [condition i4] eqn:Hc. cbv zeta.
  set (i2 := if negb (isSafeInteger (ri_priceMinor input)) || _ then _ else _). set (i3 := if bool_decide _ then _ else _).
  destruct (i1 ++ i2 ++ i3 ++ i4) as [|x l] eqn:Hi; [|done]. apply app_nil in Hi as [-> [H2 [_ H4]%app_nil]%app_nil]. subst i4.
  destruct (ri_priceMinor input) as [price|] eqn:Hpr; [|done]. intros [= <-]. cbn. split; [|done]. subst i2.
  destruct (negb _ || _) eqn:Hv in H2; [done|]. apply orb_false_iff in Hv as [_ [H5%bool_decide_eq_false H6%bool_decide_eq_false]%orb_false_iff].
  split; [cbn; lia|]. cbn. unfold cleanCondition in Hc. destruct (ri_condition input) as [[|min max|min max]|]; [by injection Hc as <-|..|by injection Hc as <-];
    (eapply (cleanBounds_ok min max); [|exact Hc]; intros ? ? Hw; exact Hw).
Qed.

Lemma rate_row_roundtrip tenantId zoneId r : rate_of_row (rate_row tenantId zoneId r) = r.
Proof. destruct r as [id name price [|lo hi|lo hi] description position]; done. Qed.

(** *** Methods *)

Definition keeps_zone_ok {A} (m : ZoneMethod A) : Prop :=
  forall a r a', m a = (Ok r, a') -> zone_ok (agg_props a) -> zone_ok (agg_props a') /\ agg_id a' = agg_id a.

Lemma zone_ok_bind {A B} (m : ZoneMethod A) (g : A -> ZoneMethod B) :
  keeps_zone_ok m -> (forall x, keeps_zone_ok (g x)) -> keeps_zone_ok (m ≫= g).
Proof.
  intros Hm Hg a r a' H Ha. unfold mbind, M_bind in H. destruct (m a) as [[x|e] a1] eqn:E; [|done].
  destruct (Hm _ _ _ E Ha) as [H1 E1], (Hg x _ _ _ H H1) as [H2 E2]. split; [done|congruence].
Qed.
Lemma zone_ok_pure {A} (f : ShippingZone -> result A) : keeps_zone_ok (fun a => (f a, a)).
Proof. intros a r a' [= _ <-] Ha. done. Qed.
Lemma zone_ok_lift {A} (x : result A) : keeps_zone_ok (lift x).
Proof. exact (zone_ok_pure (fun _ => x)). Qed.
Lemma zone_ok_gets {A} (f : ShippingZone -> A) : keeps_zone_ok (gets f).
Proof. exact (zone_ok_pure (fun a => Ok (f a))). Qed.
Lemma zone_ok_ret {A} (x : A) : keeps_zone_ok (mret x).
Proof. exact (zone_ok_pure (fun _ => Ok x)). Qed.
Create HintDb zones.
#[export] Hint Resolve zone_ok_lift zone_ok_gets zone_ok_ret : zones.

Lemma addRate_ok id input : keeps_zone_ok (addRate id input).
Proof.
  intros a r a' H Ha. unfold addRate in H. agg_inv. split; [|done]. destruct Ha as [Hc Hr]. split; [done|]. cbn.
  apply Forall_app. split; [done|]. repeat constructor; by eapply rate_validate_Ok.
Qed.

Lemma updateRate_ok rateId input : keeps_zone_ok (updateRate rateId input).
Proof.
  intros a r a' H Ha. unfold updateRate, rateOrThrow in H. agg_inv. destruct v as [i rate]. agg_inv. split; [|done]. destruct Ha as [Hc Hr]. split; [done|]. cbn.
  apply Forall_insert; [done|]. by eapply rate_validate_Ok.
Qed.

Lemma removeRate_ok rateId : keeps_zone_ok (removeRate rateId).
Proof.
  intros a r a' H Ha. unfold removeRate, rateOrThrow in H. agg_inv. destruct v as [i rate]. agg_inv. split; [|done]. destruct Ha as [Hc Hr]. split; [done|]. cbn.
  by apply Forall_delete.
Qed.

Lemma rename_ok name : keeps_zone_ok (rename name).
Proof. intros a r a' H Ha. unfold rename in H. destruct (cleanName name) as [cleaned issues]. agg_inv. by destruct Ha. Qed.

Lemma setCountries_ok countries a r a' :
  setCountries countries a = (Ok r, a') -> zone_ok (agg_props a) -> zone_ok (agg_props a') /\ agg_id a' = agg_id a /\ zn_countries (agg_props a') = countries.
Proof.
  intros H [Hc Hr]. unfold setCountries in H. agg_inv. destruct (cleanCountries countries) eqn:E; [|done]. done.
Qed.

Lemma add_rates_ok gen inputs n : keeps_zone_ok (add_rates gen n inputs).
Proof.
  revert n. induction inputs as [|input l IH]; intros n; cbn; [auto with zones|].
  apply zone_ok_bind; [auto with zones|]. intros id. apply zone_ok_bind; [apply addRate_ok|]. intros _. apply IH.
Qed.

Lemma addRate_countries id input a r a' : addRate id input a = (Ok r, a') -> zn_countries (agg_props a') = zn_countries (agg_props a).
Proof. intros H. unfold addRate in H. by agg_inv. Qed.

Definition same_countries {A} (m : ZoneMethod A) : Prop :=
  forall a r a', m a = (Ok r, a') -> zn_countries (agg_props a') = zn_countries (agg_props a).
Lemma addRate_same id input : same_countries (addRate id input).
Proof. intros a r a' H. unfold addRate in H. by agg_inv. Qed.
Lemma updateRate_same rateId input : same_countries (updateRate rateId input).
Proof. intros a r a' H. unfold updateRate, rateOrThrow in H. agg_inv. destruct v as [i rate]. by agg_inv. Qed.
Lemma removeRate_same rateId : same_countries (removeRate rateId).
Proof. intros a r a' H. unfold removeRate, rateOrThrow in H. agg_inv. destruct v as [i rate]. by agg_inv. Qed.
Lemma add_rates_same gen inputs n : same_countries (add_rates gen n inputs).
Proof.
  revert n. induction inputs as [|input l IH]; intros n a r a' H; cbn in H; agg_inv; [done|].
  etransitivity; [by eapply IH|]. by eapply addRate_same.
Qed.

(** *** Rows *)

Lemma upsert_Ok {R} (k : R -> string) (mine : R -> bool) row rows rows' :
  NoDup (k <$> rows) -> (forall r, mine r = true -> k r = k row) ->
  upsert mine (fun r => bool_decide (k r = k row)) row rows = Ok rows' ->
  NoDup (k <$> rows') /\ forall r, r ∈ rows' -> r = row \/ (r ∈ rows /\ k r <> k row).
Proof.
  intros Hn Hk. unfold upsert. destruct (existsb mine rows) eqn:Hm; [|destruct (existsb (fun r => bool_decide (k r = k row)) rows) eqn:Hs; [done|]]; intros [= <-].
  - apply existsb_exists in Hm as (r0 & Hr0%list_elem_of_In & Hm0). split.
    + rewrite <- list_fmap_compose. rewrite (fmap_ext_elem _ k); [done|]. intros r _. cbn. destruct (mine r) eqn:E; [by rewrite (Hk r E)|done].
    + intros r (r1 & -> & Hr1)%list_elem_of_fmap. destruct (mine r1) eqn:E; [by left|]. right. split; [done|]. intros Ek.
      assert (r1 = r0) as -> by (apply (NoDup_fmap_elem k rows); [done..|]; rewrite (Hk r0 Hm0); done). congruence.
  - assert (Hfresh : forall r, r ∈ rows -> k r <> k row).
    { intros r Hr E. apply not_true_iff_false in Hs. apply Hs. apply existsb_exists. exists r. split; [by apply list_elem_of_In|]. by apply bool_decide_eq_true. }
    split.
    + rewrite fmap_app. apply NoDup_app. split; [done|]. split; [|apply NoDup_singleton]. intros x (r & -> & Hr)%list_elem_of_fmap Hx%list_elem_of_singleton. by destruct (Hfresh r Hr).
    + intros r [Hr| ->%list_elem_of_singleton]%elem_of_app; [right; split; [done|by apply Hfresh]|by left].
Qed.

Lemma save_rates_Ok rates rows rows' :
  NoDup (rr_id <$> rows) -> foldM save_rate rows rates = Ok rows' ->
  NoDup (rr_id <$> rows') /\ forall q, q ∈ rows' -> q ∈ rates \/ q ∈ rows.
Proof.
  revert rows. induction rates as [|x l IH]; intros rows Hn H; cbn in H; [injection H as <-; split; [done|by right]|].
  apply result_bind_Ok in H as (rows1 & Hx & H). unfold save_rate in Hx. apply (upsert_Ok rr_id) in Hx as [Hn1 Hx]; [|done|].
  - destruct (IH _ Hn1 H) as [Hn2 Hq]. split; [done|]. intros q [Hin|Hin]%Hq; [left; by right|]. destruct (Hx q Hin) as [-> |[? _]]; [left; left|by right].
  - unfold is_rate. intros r H1. rewrite !andb_true_iff in H1. by destruct H1 as [[H1%bool_decide_eq_true _] _].
Qed.

Definition keys_ok (s : ZoneStore) : Prop := NoDup (zr_id <$> zs_zones s) /\ NoDup (rr_id <$> zs_rates s).

Lemma save_zone_Ok a tenantId s u s' :
  keys_ok s -> save_zone a tenantId s = (Ok u, s') ->
  keys_ok s' /\ (forall r, r ∈ zs_zones s' -> r = toZoneData a tenantId \/ (r ∈ zs_zones s /\ zr_id r <> agg_id a)) /\
  forall q, q ∈ zs_rates s' -> q ∈ toRateRows a tenantId \/ q ∈ zs_rates s.
Proof.
  intros [Hz Hr] H. unfold save_zone in H. cbv zeta in H. destruct (_ ≫= _) as [s1|] eqn:E in H; [|done]. injection H as _ <-.
  apply result_bind_Ok in E as (zones & Hzones & E). apply result_bind_Ok in E as (rows & Hrows & E). injection E as <-. cbn.
  apply (upsert_Ok zr_id _ (toZoneData a tenantId)) in Hzones as [Hz1 Hz2]; [|done|].
  - apply save_rates_Ok in Hrows as [Hr1 Hr2].
    + split; [by split|]. split; [exact Hz2|]. intros q Hq. destruct (Hr2 q Hq) as [?|Hq']; [by left|right]. by apply list_elem_of_filter in Hq' as [_ ?].
    + eapply sublist_NoDup; [exact Hr|]. apply fmap_sublist, sublist_filter.
  - unfold is_zone. intros r H1. by apply andb_true_iff in H1 as [H1%bool_decide_eq_true _].
Qed.

(** *** The store *)

Definition zones_inv (s : ZoneStore) : Prop :=
  keys_ok s /\ (forall r, r ∈ zs_zones s -> cleanCountries (zr_countries r) = []) /\
  (forall q, q ∈ zs_rates s -> rate_ok (rate_of_row q)) /\
  forall r r', r ∈ zs_zones s -> r' ∈ zs_zones s -> zr_tenantId r = zr_tenantId r' -> zr_id r <> zr_id r' -> ~ overlap (zr_countries r) (zr_countries r').

Lemma with_rates_ok s row : zones_inv s -> row ∈ zs_zones s -> zone_ok (agg_props (with_rates_of s row)).
Proof.
  intros (_ & Hc & Hr & _) Hrow. split; [by apply Hc|]. cbn. apply Forall_fmap, Forall_forall. intros q Hq.
  rewrite sort_by_perm in Hq. apply list_elem_of_filter in Hq as [_ Hq]. by apply Hr.
Qed.

Lemma list_zones_elem t s z :
  z ∈ list_zones t s <-> exists row, row ∈ zs_zones s /\ zr_tenantId row = t /\ z = with_rates_of s row.
Proof.
  unfold list_zones. rewrite list_elem_of_fmap. setoid_rewrite sort_by_perm. setoid_rewrite list_elem_of_filter. naive_solver.
Qed.

Lemma find_zone_Some id t s z :
  find_zone id t s = Some z -> exists row, row ∈ zs_zones s /\ zr_tenantId row = t /\ zr_id row = id /\ z = with_rates_of s row.
Proof.
  unfold find_zone. destruct (find_first _ _) as [row|] eqn:E; [|done]. intros [= <-]. apply find_first_Some in E as [Hr E].
  apply andb_true_iff in E as [Hi%bool_decide_eq_true Ht%bool_decide_eq_true]. by exists row.
Qed.

(** Saving a zone that is clean, and whose countries no other zone of the tenant has. *)
Lemma save_zone_inv a tenantId s u s' :
  zones_inv s -> zone_ok (agg_props a) ->
  (forall r, r ∈ zs_zones s -> zr_tenantId r = tenantId -> zr_id r <> agg_id a -> ~ overlap (zn_countries (agg_props a)) (zr_countries r)) ->
  save_zone a tenantId s = (Ok u, s') -> zones_inv s'.
Proof.
  intros (Hk & Hc & Hr & Ho) [Ha Hra] Hov Hs. apply save_zone_Ok in Hs as (Hk' & Hz & Hq); [|done]. split; [done|]. split; [|split].
  - intros r [-> |[Hin _]]%Hz; [exact Ha|by apply Hc].
  - intros q [(x & -> & Hx)%list_elem_of_fmap|Hin]%Hq; [|by apply Hr]. rewrite rate_row_roundtrip. unfold rates_in_order in Hx.
    rewrite sort_by_perm in Hx. by eapply Forall_forall in Hra.
  - intros r r' [-> |[Hin Hne]]%Hz [-> |[Hin' Hne']]%Hz Ht Hid; [done| | |by apply Ho].
    + apply Hov; [done|by rewrite <- Ht|done].
    + intros H%overlap_sym. by eapply Hov.
Qed.

Lemma in_txn_inv {S A} (I : S -> Prop) (m : S -> M S A) s r s' :
  (forall x s1, m s s = (Ok x, s1) -> I s1) -> I s -> in_txn (fun s => m s s) s = (r, s') -> I s'.
Proof.
  intros Hm Hs H. unfold in_txn in H. destruct (m s s) as [[x|e] s1] eqn:E; injection H as _ <-; [by eapply Hm|done].
Qed.

Section sequential.
Context (COUNTRY_CODES : list string) (PROVINCES : string -> list string).

Lemma checkCountries_Ok tenantId cs ownId s u :
  zones_inv s -> checkCountries COUNTRY_CODES PROVINCES tenantId cs ownId s = Ok u ->
  forall r, r ∈ zs_zones s -> zr_tenantId r = tenantId -> Some (zr_id r) <> ownId -> ~ overlap cs (zr_countries r).
Proof.
  intros (_ & Hc & _) H r Hr Ht Ho. unfold checkCountries in H. cbv zeta in H. destruct (regionIssues _ _ cs); [|done].
  set (others := filter _ _) in H. destruct (overlapIssues cs others) eqn:E; [|done].
  change (zr_countries r) with (zn_countries (agg_props (with_rates_of s r))). apply (overlapIssues_nil cs others); [|done|].
  - intros z [_ (row & Hrow & _ & ->)%list_zones_elem]%list_elem_of_filter. cbn. by apply cleanCountries_nil, Hc.
  - apply list_elem_of_filter. split; [done|]. apply list_zones_elem. by exists r.
Qed.

(** A zone that was found and kept its countries can be saved. *)
Lemma save_found_inv zoneId t s z (m : ZoneMethod unit) z' u s' :
  zones_inv s -> find_zone zoneId t s = Some z -> keeps_zone_ok m -> same_countries m -> run_on z m = Ok z' ->
  save_zone z' t s = (Ok u, s') -> zones_inv s'.
Proof.
  intros Hs (row & Hrow & Ht & Hid & ->)%find_zone_Some Hm Hsame Hrun Hsave. unfold run_on in Hrun. destruct (m _) as [[x|e] a'] eqn:Em; [|done].
  injection Hrun as ->. destruct (Hm _ _ _ Em (with_rates_ok s row Hs Hrow)) as [Hok Hi]. apply Hsame in Em. cbn in Em, Hi.
  eapply save_zone_inv; [done|exact Hok| |exact Hsave]. rewrite Em, Hi. intros r Hr Htr Hne. apply Hs; [done|done|congruence|congruence].
Qed.

Lemma zone_create_Ok id input position a :
  zone_create id input position = Ok a -> zone_ok (agg_props a) /\ agg_id a = id /\ zn_countries (agg_props a) = zi_countries input.
Proof.
  unfold zone_create. destruct (cleanName _) as [name i1]. destruct (i1 ++ _) eqn:E; [|done]. apply app_nil in E as [_ E]. intros [= <-]. cbn. split; [|done]. by split.
Qed.

Ltac zone_inv :=
  repeat (minv; match goal with
  | H : require _ ?f _ = (Ok _, _) |- _ => unfold require in H; destruct f eqn:?; [|discriminate H]
  | H : call _ _ _ = (Ok _, _) |- _ => unfold call in H
  end); minv.

Lemma zone_call_inv gen t c s x s' : zones_inv s -> zone_call COUNTRY_CODES PROVINCES gen t c s s s = (Ok x, s') -> zones_inv s'.
Proof.
  intros Hs H. destruct c as [name cs rates|zoneId name cs|zoneId|zoneId input|zoneId rateId input|zoneId rateId]; cbn [zone_call] in H.
  - unfold CreateZone in H. zone_inv. match goal with H : zone_create _ _ _ = Ok _ |- _ => apply zone_create_Ok in H as (Hok & Hi & Hcs) end.
    unfold run_on in *. destruct (add_rates _ _ _ _) as [[?|?] a'] eqn:Em; [|done]. simplify_eq. assert (Hc' := add_rates_same _ _ _ _ _ _ Em).
    destruct (add_rates_ok _ _ _ _ _ _ Em Hok) as [Hok' Hi']. eapply save_zone_inv; [done|exact Hok'| |eassumption]. rewrite Hc', Hcs. cbn.
    intros r Hr Ht _. eapply checkCountries_Ok; [done|eassumption|done|done|done].
  - unfold UpdateZone in H. zone_inv. match goal with H : find_zone _ _ _ = Some _ |- _ => apply find_zone_Some in H as (row & Hrow & Ht & Hid & ->) end.
    unfold run_on in *. destruct ((rename name;; setCountries cs) _) as [[?|?] a'] eqn:Em; [|done]. simplify_eq. apply bind_Ok in Em as (? & a1 & E1 & E2).
    destruct (rename_ok _ _ _ _ E1 (with_rates_ok s row Hs Hrow)) as [Hok1 Hi1]. destruct (setCountries_ok _ _ _ _ E2 Hok1) as (Hok2 & Hi2 & Hc2).
    eapply save_zone_inv; [done|exact Hok2| |eassumption]. rewrite Hc2, Hi2, Hi1. cbn. intros r Hr Htr Hne. eapply checkCountries_Ok; [done|eassumption|done|done|congruence].
  - unfold DeleteZone in H. zone_inv. unfold delete_zone in *. minv. destruct Hs as ([Hz Hr] & H1 & H2 & H3). split; [|split; [|split]]; cbn.
    + split; [eapply sublist_NoDup; [exact Hz|]|eapply sublist_NoDup; [exact Hr|]]; apply fmap_sublist, sublist_filter.
    + intros r [_ ?]%list_elem_of_filter. by apply H1.
    + intros q [_ ?]%list_elem_of_filter. by apply H2.
    + intros r r' [_ ?]%list_elem_of_filter [_ ?]%list_elem_of_filter. by apply H3.
  - unfold AddRate in H. zone_inv. eapply save_found_inv; [done|eassumption|apply addRate_ok|apply addRate_same|eassumption|eassumption].
  - unfold UpdateRate in H. zone_inv. eapply save_found_inv; [done|eassumption|apply updateRate_ok|apply updateRate_same|eassumption|eassumption].
  - unfold DeleteRate in H. zone_inv. eapply save_found_inv; [done|eassumption|apply removeRate_ok|apply removeRate_same|eassumption|eassumption].
Qed.

(** Calls of the use cases one after the other; one that fails changes nothing. *)
Definition zones_after (calls : list ((nat -> string) * string * ZoneCall)) : ZoneStore :=
  foldl (fun s c => (in_txn (fun s => zone_call COUNTRY_CODES PROVINCES c.1.1 c.1.2 c.2 s s s) s).2) (mkZoneStore [] []) calls.

Lemma zones_after_inv calls : zones_inv (zones_after calls).
Proof.
  unfold zones_after. assert (H0 : zones_inv (mkZoneStore [] [])).
  { split; [split; constructor|]. split_and!; [by intros ? ?%elem_of_nil..|by intros ? ? ?%elem_of_nil]. }
  revert H0. generalize (mkZoneStore [] []). induction calls as [|[[gen t] c] l IH]; intros s Hs; [done|]. cbn [foldl]. apply IH.
  destruct (in_txn _ s) as [r s'] eqn:E. revert E. apply in_txn_inv; [|done]. intros x s1. by apply zone_call_inv.
Qed.

Lemma list_zones_apart t s : zones_inv s -> apart (agg_props <$> list_zones t s).
Proof.
  intros Hs. split.
  - intros p (z & -> & (row & Hrow & _ & ->)%list_zones_elem)%list_elem_of_fmap. by apply (with_rates_ok s row).
  - intros i j p q Hi Hj Hij. unfold list_zones in *. rewrite <- list_fmap_compose, list_lookup_fmap in Hi, Hj. set (rows := sort_by _ _) in *.
    assert (Hnd : NoDup (zr_id <$> rows)).
    { unfold rows. rewrite sort_by_perm. eapply sublist_NoDup; [exact (proj1 (proj1 Hs))|]. apply fmap_sublist, sublist_filter. }
    assert (Hin : forall r, r ∈ rows -> r ∈ zs_zones s /\ zr_tenantId r = t) by (intros r Hr; unfold rows in Hr; rewrite sort_by_perm in Hr; by apply list_elem_of_filter in Hr as [? ?]).
    destruct (rows !! i) as [r|] eqn:Er; [|done]. destruct (rows !! j) as [r'|] eqn:Er'; [|done]. injection Hi as <-. injection Hj as <-. cbn.
    destruct (Hin r) as [Hr Ht]; [by eapply list_elem_of_lookup_2|]. destruct (Hin r') as [Hr' Ht']; [by eapply list_elem_of_lookup_2|].
    apply Hs; [done|done|congruence|]. intros E. apply Hij. eapply NoDup_lookup; [exact Hnd| |]; rewrite list_lookup_fmap; [by rewrite Er|by rewrite Er', E].
Qed.

End sequential.

(** ** Properties *)

(** C29: a quote is the one zone's. After any calls of the zone use cases, one after the other: what an
    address is quoted for something to ship comes from the zone that serves it best (by its province, else
    its whole country, else the rest of the world), no other zone serves it as well, the order of the zones
    does not matter, and the rates are exactly those of the zone whose condition the subtotal or weight
    meets, cheapest first, at prices that fit their column; where no zone serves it, nothing is quoted. *)
Theorem quotes_come_from_one_zone COUNTRY_CODES PROVINCES calls t address lines :
  let s := zones_after COUNTRY_CODES PROVINCES calls in
  let zs := agg_props <$> list_zones t s in
  blank (qa_country address) = false -> existsb ql_requiresShipping lines = true ->
  exists offered, QuoteShippingRates t address lines s = Ok offered /\
    (forall zs', zs' ≡ₚ zs -> quoteRates zs' address lines = offered) /\
    ((offered = [] /\ forall z l, z ∈ zs -> ~ serves (zn_countries z) address l) \/
     exists z l, z ∈ zs /\ serves (zn_countries z) address l /\
       (forall z' l', z' ∈ zs -> serves (zn_countries z') address l' -> l' <= l /\ (l' = l -> z' = z)) /\
       offered ≡ₚ quoted_rate <$> filter (fun r => applies (sr_condition r) (subtotal_minor lines) (weight_grams lines) = true) (zn_rates z) /\
       StronglySorted (fun a b => qr_priceMinor a <= qr_priceMinor b) offered /\ Forall (fun q => 0 <= qr_priceMinor q <= MAX_PRICE_MINOR) offered).
Proof.
  cbv zeta. intros Hb Hl. set (s := zones_after _ _ calls). set (zs := agg_props <$> list_zones t s).
  assert (Hs : zones_inv s) by apply zones_after_inv. assert (Ha : apart zs) by (by apply list_zones_apart).
  exists (quoteRates zs address lines). split; [unfold QuoteShippingRates; by rewrite Hb|]. split; [intros zs' HP; by apply quoteRates_perm|].
  assert (Hpos : forall z l, serves (zn_countries z) address l -> 0 < l <= level_of address z).
  { intros z l H. split; [|by apply matchLevel_serves]. destruct H as (c & _ & [[-> _]|(_ & _ & [[-> _]|[-> _]])]); lia. }
  destruct (best_zone_exists zs address) as [Hn|(z & Hz & Hp & Hmax)].
  - left. split; [by apply quoteRates_none|]. intros z l Hz H%Hpos. specialize (Hn z Hz). lia.
  - right. rewrite (quoteRates_best zs _ _ z) by done. destruct (offers_spec lines z) as [HP Hsort]. exists z, (level_of address z). split; [done|].
    split; [by apply matchLevel_serves|]. split; [|split; [done|split; [done|]]].
    + intros z' l' Hz' H%Hpos. specialize (Hmax z' Hz'). split; [lia|]. intros ->. apply (apart_one zs address); [done..|lia|lia].
    + apply Forall_forall. intros q Hq. rewrite HP in Hq. apply list_elem_of_fmap in Hq as (r & -> & [_ Hr]%list_elem_of_filter).
      apply list_elem_of_fmap in Hz as (a & -> & (row & Hrow & _ & ->)%list_zones_elem). destruct (with_rates_ok s row Hs Hrow) as [_ Hok].
      rewrite Forall_forall in Hok. apply (Hok r Hr).
Qed.

Definition sample_codes : list string := ["EG"; "SA"; "US"].
Definition sample_provinces (country : string) : list string := if bool_decide (country = "EG") then ["EG-C"; "EG-ALX"] else [].
Definition zone_gen (prefix : string) (n : nat) : string := prefix +:+ show_nat n.
Definition sample_rate (name : string) (price : Z) (c : option ConditionInput) : RateInput := mkRateInput name (NInt price) c None.
Definition sample_zone_calls : list ((nat -> string) * string * ZoneCall) :=
  [(zone_gen "a", "t", ZCreate "Cairo" [mkCountry "EG" (Some ["EG-C"])]
     [sample_rate "Courier" 500 None; sample_rate "Free" 0 (Some (in_orderPrice (Some (NInt 10000)) None))]);
   (zone_gen "b", "t", ZCreate "Egypt" [mkCountry "EG" None] []);
   (zone_gen "c", "t", ZCreate "World" [mkCountry "*" None] [sample_rate "Post" 2500 None]);
   (zone_gen "d", "t", ZAddRate "a0" (sample_rate "Heavy" 300 (Some (in_weight (Some (NInt 1)) (Some (NInt 5000))))))].
Definition sample_address : QuoteAddress := mkQuoteAddress "EG" (Some "EG-C").
Definition sample_cart : list QuoteLine := [mkQuoteLine 4000 2 true (Some 700); mkQuoteLine 100 1 false None].

Lemma quotes_come_from_one_zone_witness :
  let s := zones_after sample_codes sample_provinces sample_zone_calls in
  let zs := agg_props <$> list_zones "t" s in
  (zn_name <$> zs) = ["Cairo"; "World"] /\
  (qr_name <$> quoteRates zs sample_address sample_cart) = ["Heavy"; "Courier"] /\
  exists offered, QuoteShippingRates "t" sample_address sample_cart s = Ok offered /\
    (forall zs', zs' ≡ₚ zs -> quoteRates zs' sample_address sample_cart = offered) /\
    ((offered = [] /\ forall z l, z ∈ zs -> ~ serves (zn_countries z) sample_address l) \/
     exists z l, z ∈ zs /\ serves (zn_countries z) sample_address l /\
       (forall z' l', z' ∈ zs -> serves (zn_countries z') sample_address l' -> l' <= l /\ (l' = l -> z' = z)) /\
       offered ≡ₚ quoted_rate <$> filter (fun r => applies (sr_condition r) (subtotal_minor sample_cart) (weight_grams sample_cart) = true) (zn_rates z) /\
       StronglySorted (fun a b => qr_priceMinor a <= qr_priceMinor b) offered /\ Forall (fun q => 0 <= qr_priceMinor q <= MAX_PRICE_MINOR) offered).
Proof.
  split; [vm_compute; reflexivity|]. split; [vm_compute; reflexivity|].
  apply (quotes_come_from_one_zone sample_codes sample_provinces sample_zone_calls "t" sample_address sample_cart); vm_compute; reflexivity.
Defined.

(** *** Calls at the same time *)

(** A call as a transaction: its reads, then its save on what was committed by then. *)
Definition zone_exec (c : (nat -> string) * string * ZoneCall) (snaps : list ZoneStore) (s : ZoneStore) : result ZoneStore :=
  match zone_call sample_codes sample_provinces c.1.1 c.1.2 c.2 (default s (snaps !! 0%nat)) (default s (snaps !! 1%nat)) s with
  | (Ok _, s') => Ok s'
  | (Err e, _) => Err e
  end.
Definition zone_race (calls : list ((nat -> string) * string * ZoneCall)) (c d : (nat -> string) * string * ZoneCall) : option ZoneStore :=
  il_store <$> run_actions (il_do zone_exec) [Begin c; Begin d; Read 0; Read 0; Read 1; Read 1; Commit 0; Commit 0]
    (mkInterleaved (zones_after sample_codes sample_provinces calls) []).

(** Zone edits made at the same time undo each other. A save has no version to check: of two rates
    added at once to a zone the second save deletes the first, and two zones created at once may hold the
    same country, after which the rate quoted depends on the order the zones are listed in. *)
Theorem concurrent_zone_edits_are_lost :
  (exists s, zone_race (take 1 sample_zone_calls)
       (zone_gen "x", "t", ZAddRate "a0" (sample_rate "Slow" 200 None)) (zone_gen "y", "t", ZAddRate "a0" (sample_rate "Fast" 900 None)) = Some s /\
     (rr_name <$> zs_rates s) = ["Courier"; "Free"; "Fast"]) /\
  exists s, zone_race [] (zone_gen "x", "t", ZCreate "Egypt" [mkCountry "EG" None] [sample_rate "Slow" 200 None])
       (zone_gen "y", "t", ZCreate "Cairo" [mkCountry "EG" None] [sample_rate "Fast" 900 None]) = Some s /\
     exists z1 z2, agg_props <$> list_zones "t" s = [z1; z2] /\ overlap (zn_countries z1) (zn_countries z2) /\
       (qr_name <$> quoteRates [z1; z2] sample_address sample_cart) = ["Slow"] /\ (qr_name <$> quoteRates [z2; z1] sample_address sample_cart) = ["Fast"].
Proof.
  split.
  - eexists. split; [vm_compute; reflexivity|]. vm_compute. reflexivity.
  - eexists. split; [vm_compute; reflexivity|]. eexists _, _. split; [vm_compute; reflexivity|]. split; [|split; vm_compute; reflexivity].
    exists (mkCountry "EG" None), (mkCountry "EG" None). split; [left|]. split; [left|]. done.
Qed.
