(* ===== verification/Uuids.v ===== *)
(** Identifiers as columns of type [uuid] take them. The database accepts only strings with thirty-two
    hexadecimal digits; what the services write there is either generated, derived by hashing
    ([deterministicUuid] of [services/returns/src/domain/return-request.ts] and of
    [services/finance/src/infrastructure/finance.mappers.ts]), or another id with a number appended. *)
From Stdlib Require Import Ascii.
From S2P Require Import Prelude Kernel.

#[local] Open Scope string_scope.

Definition isHex (c : ascii) : bool :=
  let n := nat_of_ascii c in
  ((48 <=? n) && (n <=? 57) || (65 <=? n) && (n <=? 70) || (97 <=? n) && (n <=? 102))%nat.
Fixpoint hex_digits (s : string) : nat :=
  match s with "" => 0 | String c s' => (if isHex c then 1 else 0) + hex_digits s' end%nat.

(** What a column of type [uuid] accepts. *)
Class UuidColumn (uuid : string -> bool) := uuid_digits : forall s, uuid s = true -> hex_digits s = 32%nat.

Lemma hex_digits_app a b : hex_digits (a +:+ b) = (hex_digits a + hex_digits b)%nat.
Proof.
  induction a as [|c a IH]; [done|]. change (String c a +:+ b) with (String c (a +:+ b)). cbn [hex_digits]. rewrite IH. lia.
Qed.

(** ** Numbers have digits *)

Lemma pretty_char_hex (n : N) : (n < 10)%N -> isHex (pretty_N_char n) = true.
Proof.
  intros Hn. assert (H : forallb (fun k => isHex (pretty_N_char (N.of_nat k))) (seq 0 10) = true) by done.
  rewrite forallb_forall in H. rewrite <- (N2Nat.id n). apply H. apply in_seq. lia.
Qed.

Lemma hex_digits_go x s : (hex_digits s <= hex_digits (pretty_N_go x s))%nat.
Proof.
  revert s. induction x as [x IH] using (well_founded_induction N.lt_wf_0). intros s.
  destruct (decide (0 < x)%N) as [Hx|Hx]; [|replace x with 0%N by lia; by rewrite pretty_N_go_0].
  rewrite pretty_N_go_step by done. etransitivity; [|apply IH; by apply N.div_lt]. cbn [hex_digits]. lia.
Qed.

Lemma show_nat_hex_digits n : (1 <= hex_digits (show_nat n))%nat.
Proof.
  unfold show_nat, pretty, pretty_N. destruct (decide (N.of_nat n = 0)%N) as [|Hn]; [by apply Nat.leb_le|].
  rewrite pretty_N_go_step by lia. etransitivity; [|apply hex_digits_go]. cbn [hex_digits].
  rewrite pretty_char_hex by (apply N.mod_lt; lia). lia.
Qed.

(** An id with a number appended is no id. *)
Lemma numbered_id_is_no_uuid uuid `{!UuidColumn uuid} id n : uuid id = true -> uuid (id +:+ show_nat n) = false.
Proof.
  intros Hid. apply not_true_iff_false. intros Hn. apply uuid_digits in Hid, Hn. rewrite hex_digits_app in Hn.
  pose proof (show_nat_hex_digits n). lia.
Qed.

(** A column that takes just that. *)
Definition sample_uuid (s : string) : bool := (hex_digits s =? 32)%nat.
#[export] Instance sample_uuid_column : UuidColumn sample_uuid.
Proof. intros s. apply Nat.eqb_eq. Qed.

(** ** Ids derived by hashing

    [sha1] is Node's [createHash("sha1").update(input).digest("hex")]: forty hexadecimal digits. *)

Definition slice (first last : nat) (s : string) : string := String.substring first (last - first) s.
(** [parseInt(c, 16)], what is no digit counting as 0 in the mask that follows. *)
Definition nibble (c : ascii) : Z :=
  let n := Z.of_nat (nat_of_ascii c) in
  (if (48 <=? n) && (n <=? 57) then n - 48 else if (65 <=? n) && (n <=? 70) then n - 55 else if (97 <=? n) && (n <=? 102) then n - 87 else 0)%Z.
(** [((n & 0x3) | 0x8).toString(16)] *)
Definition variant_digit (n : Z) : string :=
  match Z.lor (Z.land n 3) 8 with 8%Z => "8" | 9%Z => "9" | 10%Z => "a" | _ => "b" end.
Definition deterministicUuid (sha1 : string -> string) (input : string) : string :=
  let hex := slice 0 32 (sha1 input) in
  let timeHiAndVersion := "5" +:+ slice 13 16 hex in
  let variantNibble := variant_digit (nibble (default "0"%char (String.get 16 hex))) in
  slice 0 8 hex +:+ "-" +:+ slice 8 12 hex +:+ "-" +:+ timeHiAndVersion +:+ "-" +:+ (variantNibble +:+ slice 17 20 hex) +:+ "-" +:+ slice 20 32 hex.

(** The shape of RFC 4122, version 5: groups of 8, 4, 4, 4 and 12 digits, the version and the variant in
    their places. *)
Definition positions (s : string) : list (nat * ascii) := zip (seq 0 (String.length s)) (String.list_ascii_of_string s).
Definition isUuidV5 (s : string) : bool :=
  (String.length s =? 36)%nat &&
  forallb (fun '(i, c) =>
    if existsb (Nat.eqb i) [8; 13; 18; 23]%nat then Ascii.eqb c "-"
    else if (i =? 14)%nat then Ascii.eqb c "5"
    else if (i =? 19)%nat then existsb (Ascii.eqb c) ["8"; "9"; "a"; "b"]%char
    else isHex c) (positions s).

Definition Sha1Digest (sha1 : string -> string) : Prop :=
  forall x, String.length (sha1 x) = 40%nat /\ forallb isHex (String.list_ascii_of_string (sha1 x)) = true.

Lemma variant_digit_cases n : exists c, variant_digit n = String c "" /\ c ∈ ["8"; "9"; "a"; "b"]%char.
Proof.
  unfold variant_digit. destruct (Z.lor _ _) as [|p|p]; [by eexists; split; [done|]; repeat (left || right)| |by eexists; split; [done|]; repeat (left || right)].
  do 4 (destruct p as [p|p|]; try (by eexists; split; [done|]; repeat (left || right))).
Qed.

Lemma hex_cons n s : String.length s = S n -> forallb isHex (String.list_ascii_of_string s) = true ->
  exists c s', s = String c s' /\ isHex c = true /\ String.length s' = n /\ forallb isHex (String.list_ascii_of_string s') = true.
Proof. destruct s as [|c s']; [done|]. intros [= Hl] [Hc Hh]%andb_true_iff. by exists c, s'. Qed.

Lemma deterministicUuid_shape sha1 x : Sha1Digest sha1 -> isUuidV5 (deterministicUuid sha1 x) = true.
Proof.
  intros Hd. destruct (Hd x) as [Hl Hh]. unfold deterministicUuid. revert Hl Hh. generalize (sha1 x). intros s Hl Hh.
  do 40 (let c := fresh "c" in let s' := fresh "s" in let Hl' := fresh "Hl" in let Hh' := fresh "Hh" in let Hc := fresh "Hc" in
    destruct (hex_cons _ _ Hl Hh) as (c & s' & -> & Hc & Hl' & Hh'); clear Hl Hh; rename Hl' into Hl, Hh' into Hh).
  match goal with |- context [variant_digit ?n] => destruct (variant_digit_cases n) as (v & -> & Hv) end.
  destruct s as [|? ?]; [|done].
  repeat (apply elem_of_cons in Hv as [-> |Hv]; [|]); [..|by apply elem_of_nil in Hv].
  all: lazy -[isHex]; repeat match goal with Hx : isHex _ = true |- _ => rewrite Hx; clear Hx end; try done.
Qed.
