(* ===== verification/Lifecycle.v ===== *)
(** Aggregates with a lifecycle and an attempt log, as Fulfillment, Shipping and Returns store them
    ([prisma-*-repository.ts], [*.mapper.ts] of those services): a row of columns under its version, the
    log in a table of its own, the events in the outbox. The class [Lifecycle] is what a context supplies;
    the events published for a row, replayed through its transition table, give the row's status, however
    the transactions interleave. *)
From S2P Require Import Prelude Kernel Store Uuids.

#[global] Open Scope Z_scope.

(** ** Attempts ([domain/*-attempt.ts]) *)

Inductive AttemptOutcome := succeeded | failed_attempt.

Record Attempt (K : Type) := mkAttempt {
  at_id : string; at_kind : K; at_outcome : AttemptOutcome; at_reference : option string; at_occurredAt : Z }.
Arguments mkAttempt {K} _ _ _ _ _.
Arguments at_id {K} _.
Arguments at_kind {K} _.
Arguments at_outcome {K} _.
Arguments at_reference {K} _.
Arguments at_occurredAt {K} _.

Record AttemptRow (K : Type) := mkAttemptRow { ar_tenantId : string; ar_parentId : string; ar_attempt : Attempt K }.
Arguments mkAttemptRow {K} _ _ _.
Arguments ar_tenantId {K} _.
Arguments ar_parentId {K} _.
Arguments ar_attempt {K} _.

#[export] Instance AttemptOutcome_eq_dec : EqDecision AttemptOutcome.
Proof. solve_decision. Defined.

(** ** What a context supplies

    [P] are the aggregate's fields, [C] the columns of its row, [K] the kinds of its attempts, [St] its
    statuses and [E] its events. [lc_columns] is the row an update leaves, [lc_moved] the statuses a
    transition event names. *)

Class Lifecycle (P C K St E : Type) := {
  lc_name : string;
  lc_toRow : P -> C;
  lc_toDomain : C -> list (Attempt K) -> result P;
  lc_columns : C -> C -> C;
  lc_attempts : P -> list (Attempt K);
  lc_status : P -> St;
  lc_row_status : C -> St;
  lc_initial : St;
  lc_can : St -> St -> bool;
  lc_moved : E -> option (St * St)
}.

(** The columns carry the status, an update writes it, and no status leads to itself. *)
Class LifecycleLaws (P C K St E : Type) `{Lifecycle P C K St E} := {
  lc_toRow_status p : lc_row_status (lc_toRow p) = lc_status p;
  lc_columns_status old new : lc_row_status (lc_columns old new) = lc_row_status new;
  lc_toDomain_status c log p : lc_toDomain c log = Ok p -> lc_status p = lc_row_status c
}.

Record LifecycleStore (C K E : Type) := mkStore {
  ls_rows : list (Row C); ls_attempts : list (AttemptRow K); ls_outbox : list (string * (EventMeta * E)) }.
Arguments mkStore {C K E} _ _ _.
Arguments ls_rows {C K E} _.
Arguments ls_attempts {C K E} _.
Arguments ls_outbox {C K E} _.

(** What a transaction committed, or why it did not. *)
Definition committed {S A} (m : M S A) (s : S) : result S := match m s with (Ok _, s') => Ok s' | (Err e, _) => Err e end.
Lemma committed_Ok {S A} (m : M S A) s s' : committed m s = Ok s' -> exists a, m s = (Ok a, s').
Proof. unfold committed. destruct (m s) as [[a|e] s1]; [|done]. intros [= <-]. by exists a. Qed.

Lemma bind_fails {S A B} (m : M S A) (g : A -> M S B) s e s' : m s = (Err e, s') -> (m ≫= g) s = (Err e, s').
Proof. unfold mbind, M_bind. by intros ->. Qed.

(** [must] of the mappers. *)
Definition must {A} (label : string) (r : result A) (what : string) : result A :=
  match r with
  | Ok a => Ok a
  | Err e => Err (UnexpectedError ("Corrupt " +:+ label +:+ " row: invalid " +:+ what +:+ " (" +:+ error_message e +:+ ")"))
  end.
(** [map] with what throws. *)
Fixpoint map_must {A B} (f : A -> result B) (l : list A) : result (list B) :=
  match l with [] => Ok [] | x :: l' => y ← f x; ys ← map_must f l'; Ok (y :: ys) end.

Section lifecycle.
Context {P C K St E : Type} `{EqDecision St} `{Lifecycle P C K St E}.
(** What a column of type [uuid] accepts. *)
Context (uuid : string -> bool).
Abbreviation LStore := (LifecycleStore C K E).

#[export] Instance lifecycle_table : Table LStore C E := {
  tbl_rows := ls_rows;
  tbl_set l s := mkStore l (ls_attempts s) (ls_outbox s);
  tbl_publish l s := mkStore (ls_rows s) (ls_attempts s) (ls_outbox s ++ l);
  tbl_name := lc_name;
  tbl_columns := lc_columns;
  tbl_clash _ _ _ := false }.
#[export] Instance lifecycle_laws : TableLaws LStore C E.
Proof. split; done. Qed.

(** [createMany({ skipDuplicates: true })] *)
Definition add_attempt (tenantId parentId : string) (rows : list (AttemptRow K)) (a : Attempt K) : list (AttemptRow K) :=
  if existsb (fun r => bool_decide (at_id (ar_attempt r) = at_id a)) rows then rows else rows ++ [mkAttemptRow tenantId parentId a].
Definition createMany_attempts (tenantId parentId : string) (log : list (Attempt K)) : M LStore unit := fun s =>
  if existsb (fun a => negb (uuid (at_id a))) log then (Err (UnexpectedError "invalid input syntax for type uuid"), s)
  else (Ok tt, mkStore (ls_rows s) (foldl (add_attempt tenantId parentId) (ls_attempts s) log) (ls_outbox s)).

(** The aggregate as its columns. *)
Definition as_row (a : Aggregate P E) : Aggregate C E := mkAgg (agg_id a) (agg_version a) (agg_events a) (lc_toRow (agg_props a)).

(** [save]: the row under its version, the whole log, the events, whose ids are those of the outbox rows. *)
Definition unstorable_events (events : list (EventMeta * E)) : bool := existsb (fun e => negb (uuid (eventId e.1))) events.
Definition lc_save (a : Aggregate P E) (tenantId : string) : M LStore unit :=
  save_row (as_row a) tenantId;;
  createMany_attempts tenantId (agg_id a) (lc_attempts (agg_props a));;
  throw_if (unstorable_events (agg_events a)) (UnexpectedError "invalid input syntax for type uuid").

(** [include: { attempts: { orderBy: { occurredAt: "asc" } } }] *)
Definition log_of (id : string) (s : LStore) : list (Attempt K) :=
  sort_by (fun a b => bool_decide (at_occurredAt a <= at_occurredAt b)) (ar_attempt <$> filter (fun r => ar_parentId r = id) (ls_attempts s)).
Definition hydrate (s : LStore) (a : Aggregate C E) : result (Aggregate P E) :=
  p ← lc_toDomain (agg_props a) (log_of (agg_id a) s);
  Ok (mkAgg (agg_id a) (agg_version a) [] p).
Definition lc_find (id tenantId : string) (s : LStore) : result (option (Aggregate P E)) :=
  match find_by_id id tenantId s with
  | Some a => a ← hydrate s a; Ok (Some a)
  | None => Ok None
  end.

(** A use case's transaction: load, call, save. *)
Definition lc_load (message id tenantId : string) (s0 : LStore) : M LStore (Aggregate P E) :=
  found ← lift (lc_find id tenantId s0); require message found.
Definition lc_call (message id tenantId : string) (m : M (Aggregate P E) unit) (s0 : LStore) : M LStore (Aggregate P E) :=
  a ← lc_load message id tenantId s0;
  a ← call a m;
  lc_save a tenantId;;
  mret a.

(** ** Events and statuses *)

(** The status the moves lead to from [from], each along the table. *)
Fixpoint replay (from : St) (moves : list (St * St)) : option St :=
  match moves with
  | [] => Some from
  | (a, b) :: l => if bool_decide (a = from) && lc_can a b then replay b l else None
  end.

Lemma replay_app from l1 l2 : replay from (l1 ++ l2) = replay from l1 ≫= fun st => replay st l2.
Proof. revert from. induction l1 as [|[a b] l1 IH]; intros from; cbn; [done|]. by destruct (_ && _). Qed.

Definition moves_of (events : list (EventMeta * E)) : list (St * St) := omap (fun e => lc_moved e.2) events.

(** A method whose events, from the status it finds, lead to the status it leaves. *)
Definition traced {A} (m : M (Aggregate P E) A) : Prop :=
  forall a r a', m a = (Ok r, a') ->
    agg_id a' = agg_id a /\ agg_version a' = agg_version a /\
    exists events, agg_events a' = agg_events a ++ events /\ Forall (fun e => aggregateId e.1 = agg_id a) events /\
      replay (lc_status (agg_props a)) (moves_of events) = Some (lc_status (agg_props a')).

Lemma traced_pure {A} (f : Aggregate P E -> result A) : traced (fun a => (f a, a)).
Proof. intros a r a' [= _ <-]. split; [done|]. split; [done|]. exists []. rewrite app_nil_r. split; [done|]. by split. Qed.
Lemma traced_ret {A} (x : A) : traced (mret x).
Proof. exact (traced_pure (fun _ => Ok x)). Qed.
Lemma traced_lift {A} (x : result A) : traced (lift x).
Proof. exact (traced_pure (fun _ => x)). Qed.
Lemma traced_gets {A} (f : Aggregate P E -> A) : traced (gets f).
Proof. exact (traced_pure (fun a => Ok (f a))). Qed.
Lemma traced_throw_if b e : traced (throw_if b e).
Proof. intros a r a'. unfold throw_if. destruct b; [done|]. exact (traced_pure (fun _ => Ok tt) a r a'). Qed.
Lemma traced_throw {A} e : traced (throw (A := A) e).
Proof. exact (traced_pure (fun _ => Err e)). Qed.
Lemma traced_bind {A B} (m : M (Aggregate P E) A) (g : A -> M (Aggregate P E) B) :
  traced m -> (forall x, traced (g x)) -> traced (m ≫= g).
Proof.
  intros Hm Hg a r a' (x & a1 & H1 & H2)%bind_Ok. destruct (Hm _ _ _ H1) as (I1 & V1 & ev1 & E1 & F1 & R1), (Hg _ _ _ _ H2) as (I2 & V2 & ev2 & E2 & F2 & R2).
  split; [congruence|]. split; [congruence|]. exists (ev1 ++ ev2). rewrite E2, E1, app_assoc. split; [done|]. split.
  - apply Forall_app. split; [done|]. by rewrite <- I1.
  - unfold moves_of. rewrite omap_app, replay_app. unfold moves_of in R1. rewrite R1. exact R2.
Qed.
(** A field that is not the status. *)
Lemma traced_set f : (forall p, lc_status (f p) = lc_status p) -> traced (set_props f).
Proof.
  intros Hf a r a' ->%set_props_Ok. split; [done|]. split; [done|]. exists []. rewrite app_nil_r. split; [done|]. split; [done|]. cbn. by rewrite Hf.
Qed.
(** A transition: checked against the table, written to the status, published. *)
Lemma traced_transition to err set ev eid at_ :
  (forall p, lc_status (set p) = to) -> (forall p, lc_moved (ev p) = Some (lc_status p, to)) ->
  traced (p ← gets agg_props; throw_if (negb (lc_can (lc_status p) to)) (err p);; set_props set;; addDomainEvent eid at_ (ev p)).
Proof.
  intros Hset Hev a r a' Hm. agg_inv. split; [done|]. split; [done|]. eexists. split; [reflexivity|]. split; [by repeat constructor|].
  unfold moves_of. cbn. rewrite Hev, Hset. cbn. rewrite bool_decide_true by done. cbn. by match goal with Hc : lc_can _ _ = true |- _ => rewrite Hc end.
Qed.
(** An event that names no transition. *)
Lemma traced_note eid at_ ev : lc_moved ev = None -> traced (addDomainEvent eid at_ ev).
Proof.
  intros Hev a r a' Hm. agg_inv. split; [done|]. split; [done|]. eexists. split; [reflexivity|]. split; [by repeat constructor|]. unfold moves_of. cbn. by rewrite Hev.
Qed.

(** ** What a transaction commits *)

(** The moves published for one aggregate. *)
Definition published_moves (id : string) (s : LStore) : list (St * St) :=
  moves_of (filter (fun e => aggregateId e.1 = id) (snd <$> ls_outbox s)).

Definition lc_ok (s : LStore) : Prop :=
  rows_wf (ls_rows s) /\
  forall id, match row_of id (ls_rows s) with
             | Some r => replay lc_initial (published_moves id s) = Some (lc_row_status (row_props r))
             | None => published_moves id s = []
             end.

(** What [lc_save] leaves of a new aggregate, and of one loaded from the row [r]. *)
Definition lc_created (a : Aggregate P E) (tenantId : string) (s s' : LStore) : Prop :=
  row_of (agg_id a) (ls_rows s) = None /\ rows_wf (ls_rows s') /\
  (forall id, row_of id (ls_rows s') = if bool_decide (id = agg_id a) then Some (mkRow tenantId (agg_id a) 1 (lc_toRow (agg_props a))) else row_of id (ls_rows s)) /\
  ls_outbox s' = ls_outbox s ++ (pair tenantId <$> agg_events a) /\
  ls_attempts s' = foldl (add_attempt tenantId (agg_id a)) (ls_attempts s) (lc_attempts (agg_props a)).
Definition lc_updated (r : Row C) (a : Aggregate P E) (s s' : LStore) : Prop :=
  row_of (row_id r) (ls_rows s) = Some r /\ rows_wf (ls_rows s') /\
  (forall id, row_of id (ls_rows s') =
     if bool_decide (id = row_id r) then Some (mkRow (row_tenant r) (row_id r) (row_version r + 1) (lc_columns (row_props r) (lc_toRow (agg_props a))))
     else row_of id (ls_rows s)) /\
  ls_outbox s' = ls_outbox s ++ (pair (row_tenant r) <$> agg_events a) /\
  ls_attempts s' = foldl (add_attempt (row_tenant r) (row_id r)) (ls_attempts s) (lc_attempts (agg_props a)).

Lemma createMany_Ok t id log s u s' :
  createMany_attempts t id log s = (Ok u, s') ->
  ls_rows s' = ls_rows s /\ ls_outbox s' = ls_outbox s /\ ls_attempts s' = foldl (add_attempt t id) (ls_attempts s) log /\ Forall (fun a => uuid (at_id a) = true) log.
Proof.
  unfold createMany_attempts. destruct (existsb _ log) eqn:Ee; [done|]. intros [= _ <-]. split; [done|]. split; [done|]. split; [done|].
  apply Forall_forall. intros a Ha. destruct (uuid (at_id a)) eqn:Hu; [done|]. apply not_true_iff_false in Ee. destruct Ee.
  apply existsb_exists. exists a. split; [by apply list_elem_of_In|]. by rewrite Hu.
Qed.

Lemma lc_find_Some id t s a :
  rows_wf (ls_rows s) -> lc_find id t s = Ok (Some a) ->
  exists r, r ∈ ls_rows s /\ row_id r = id /\ row_tenant r = t /\ agg_id a = id /\ agg_version a = row_version r /\ agg_events a = [] /\
    lc_toDomain (row_props r) (log_of id s) = Ok (agg_props a).
Proof.
  intros Hw Hf. unfold lc_find in Hf. destruct (find_by_id id t s) as [c|] eqn:Ee; [|done]. apply find_by_id_Some in Ee as (r & Hr & Ht & ->); [|done].
  apply row_of_Some in Hr as [Hr Hi]. exists r. minv. unfold hydrate in Hres. minv. done.
Qed.

Lemma save_published acting (a : Aggregate C E) tenantId (s : LStore) u s' :
  save_row_for acting a tenantId s = (Ok u, s') -> ls_outbox s' = ls_outbox s ++ (pair acting <$> agg_events a) /\ ls_attempts s' = ls_attempts s.
Proof. intros (rows & ->)%save_row_for_shape. done. Qed.

Lemma lc_save_new (a : Aggregate P E) t s u s' :
  rows_wf (ls_rows s) -> agg_version a = 0 -> lc_save a t s = (Ok u, s') -> lc_created a t s s'.
Proof.
  intros Hw Hv (u1 & s1 & Hs & (u2 & s2 & Ha & [_ ->]%throw_if_Ok)%bind_Ok)%bind_Ok. unfold save_row in Hs. change (rows_wf (tbl_rows s)) in Hw. destruct (save_published _ _ _ _ _ _ Hs) as [Ho Hat].
  destruct (save_row_for_Ok (S := LStore) (P := C) (E := E) t (as_row a) t s u1 s1 Hw Hs) as (Hw1 & _). destruct (save_row_new (S := LStore) (P := C) (E := E) t (as_row a) t s u1 s1 Hw Hv Hs) as [Hn Hl].
  apply createMany_Ok in Ha as (Er & Eo & Ea & _). split; [exact Hn|]. rewrite Er, Eo, Ea, Ho, Hat. split; [exact Hw1|]. split; [exact Hl|]. done.
Qed.

Lemma lc_save_found id t s0 (a0 a : Aggregate P E) s u s' :
  rows_wf (ls_rows s0) -> rows_wf (ls_rows s) -> rows_evolve (ls_rows s0) (ls_rows s) -> lc_find id t s0 = Ok (Some a0) ->
  agg_id a = agg_id a0 -> agg_version a = agg_version a0 -> lc_save a t s = (Ok u, s') ->
  exists r, row_id r = id /\ row_tenant r = t /\ lc_toDomain (row_props r) (log_of id s0) = Ok (agg_props a0) /\ lc_updated r a s s'.
Proof.
  intros Hw0 Hw Hev Hf Hi Hv Hs. apply lc_find_Some in Hf as (r & Hr & Hid & Ht & Hia & Hva & _ & Hd); [|done]. exists r. split; [done|]. split; [done|]. split; [done|].
  unfold lc_save in Hs. apply bind_Ok in Hs as (u1 & s1 & Hs & (u2 & s2 & Ha & [_ ->]%throw_if_Ok)%bind_Ok). unfold save_row in Hs. change (rows_wf (tbl_rows s)) in Hw. change (rows_evolve (ls_rows s0) (tbl_rows s)) in Hev. destruct (save_published _ _ _ _ _ _ Hs) as [Ho Hat].
  destruct (save_row_for_Ok (S := LStore) (P := C) (E := E) t (as_row a) t s u1 s1 Hw Hs) as (Hw1 & _).
  destruct (save_row_loaded (S := LStore) (P := C) (E := E) (ls_rows s0) r t (as_row a) t s u1 s1 Hw0 Hr Hev Hw) as (Hc & _ & Hl); [cbn; congruence|cbn; congruence|exact Hs|].
  apply createMany_Ok in Ha as (Er & Eo & Ea & _). unfold lc_updated. rewrite Er, Eo, Ea, Ho, Hat, Ht. replace (agg_id a) with (row_id r) by congruence.
  split; [exact Hc|]. split; [exact Hw1|]. split; [exact Hl|]. done.
Qed.

(** A log with an id the column refuses is not saved. *)
Lemma lc_save_unstorable t s (a : Aggregate P E) at_ :
  at_ ∈ lc_attempts (agg_props a) -> uuid (at_id at_) = false -> exists e s', lc_save a t s = (Err e, s').
Proof.
  intros Hat Hu. destruct (lc_save a t s) as [[u|e] s'] eqn:Hs; [|by eauto]. exfalso. apply bind_Ok in Hs as (u1 & s1 & _ & (u2 & s2 & Hc & _)%bind_Ok).
  apply createMany_Ok in Hc as (_ & _ & _ & Hall). rewrite Forall_forall in Hall. specialize (Hall _ Hat). congruence.
Qed.
Lemma lc_save_unpublishable t s (a : Aggregate P E) : unstorable_events (agg_events a) = true -> exists e s', lc_save a t s = (Err e, s').
Proof.
  intros He. destruct (lc_save a t s) as [[u|e] s'] eqn:Hs; [|by eauto]. exfalso. apply bind_Ok in Hs as (u1 & s1 & _ & (u2 & s2 & _ & Ht)%bind_Ok).
  apply throw_if_Ok in Ht as [Ht _]. congruence.
Qed.
Lemma lc_find_id id t s a : lc_find id t s = Ok (Some a) -> agg_id a = id.
Proof.
  unfold lc_find. destruct (find_by_id id t s) as [c|] eqn:Ef; [|done]. intros Hf. minv. unfold hydrate in Hres. minv.
  apply find_where_Some in Ef as (r & _ & [Hi%bool_decide_eq_true _]%andb_true_iff & ->). done.
Qed.
Lemma lc_load_found message id t s (a : Aggregate P E) s' : lc_find id t s = Ok (Some a) -> lc_load message id t s s' = (Ok a, s').
Proof. unfold lc_load. intros Hf. unfold mbind, M_bind, lift. rewrite Hf. done. Qed.

Lemma lc_load_Ok message id t s0 (s s' : LStore) (a : Aggregate P E) : lc_load message id t s0 s = (Ok a, s') -> lc_find id t s0 = Ok (Some a) /\ s' = s.
Proof. intros Hl. unfold lc_load, require in Hl. minv. destruct v; [|done]. cbn in *. by minv. Qed.

(** A transaction of a lifecycle store, from what it read to what it committed: nothing, a new aggregate
    ([N] holds of its fields), or the call of a method ([G] holds of it) on what was loaded. *)
Inductive lc_commit (N : P -> Prop) (G : M (Aggregate P E) unit -> Prop) (snaps : list LStore) (s s' : LStore) : Prop :=
| commit_nothing : s' = s -> lc_commit N G snaps s s'
| commit_new a t : agg_version a = 0 -> agg_events a = [] -> lc_status (agg_props a) = lc_initial -> N (agg_props a) ->
    lc_save a t s = (Ok tt, s') -> lc_commit N G snaps s s'
| commit_call id t s0 a a' m : (s0 ∈ snaps \/ s0 = s) -> lc_find id t s0 = Ok (Some a) -> traced m -> G m -> run_on a m = Ok a' ->
    lc_save a' t s = (Ok tt, s') -> lc_commit N G snaps s s'.

(** The shapes every use case's transaction has. *)
Lemma commit_idle N G snaps message id t s0 (s s' : LStore) (a : Aggregate P E) :
  lc_load message id t s0 s = (Ok a, s') -> lc_commit N G snaps s s'.
Proof. intros Hl. apply commit_nothing. unfold lc_load, require in Hl. minv. done. Qed.
Lemma commit_loaded N G snaps message id t s0 (s s1 s2 s' : LStore) (a a' : Aggregate P E) m u :
  lc_load message id t s0 s = (Ok a, s1) -> call a m s1 = (Ok a', s2) -> lc_save a' t s2 = (Ok u, s') -> s0 ∈ snaps -> traced m -> G m ->
  lc_commit N G snaps s s'.
Proof.
  intros Hl Hc Hs Hin Hm HG. unfold lc_load, require, call in *. minv. destruct v as [b|]; [|done]. cbn in *. minv. destruct u.
  by eapply commit_call; [left|..].
Qed.

Definition lc_evolve (s s' : LStore) : Prop := rows_evolve (ls_rows s) (ls_rows s').
#[export] Instance lc_evolve_preorder : PreOrder lc_evolve.
Proof. split; [intros s|intros a b c Hab Hbc]; unfold lc_evolve in *; [reflexivity|by transitivity (ls_rows b)]. Qed.

Lemma updated_evolve r a s s' : lc_updated r a s s' -> lc_evolve s s'.
Proof.
  intros (Hr & _ & Hl & _) id x Hx. rewrite Hl. case_bool_decide as Hid; [|exists x; split_and!; [done|done|lia|done]].
  subst. rewrite Hr in Hx. injection Hx as <-. eexists. split; [done|]. cbn. split; [done|]. split; lia.
Qed.
Lemma created_evolve a t s s' : lc_created a t s s' -> lc_evolve s s'.
Proof.
  intros (Hn & _ & Hl & _) id x Hx. rewrite Hl. case_bool_decide as Hid; [congruence|]. exists x. split_and!; [done|done|lia|done].
Qed.

Lemma published_app id s s' t (events : list (EventMeta * E)) :
  ls_outbox s' = ls_outbox s ++ (pair t <$> events) ->
  published_moves id s' = published_moves id s ++ moves_of (filter (fun e => aggregateId e.1 = id) events).
Proof.
  intros Ho. unfold published_moves, moves_of. rewrite Ho, fmap_app, filter_app, omap_app. do 3 f_equal.
  clear Ho. induction events as [|e l IH]; [done|]. rewrite !fmap_cons. by rewrite IH.
Qed.
Lemma moves_filter id (events : list (EventMeta * E)) (j : string) :
  Forall (fun e => aggregateId e.1 = j) events ->
  moves_of (filter (fun e => aggregateId e.1 = id) events) = if bool_decide (id = j) then moves_of events else [].
Proof.
  intros Hf. case_bool_decide as Hid.
  - rewrite filter_all; [done|]. subst. rewrite Forall_forall in Hf. exact Hf.
  - rewrite filter_none; [done|]. rewrite Forall_forall in Hf. intros e He Hi. apply Hid. by rewrite <- Hi, (Hf e He).
Qed.

Context `{!LifecycleLaws P C K St E}.

(** The aggregate a call left, against the row it was loaded from. *)
Lemma traced_loaded id t s0 a a' (m : M (Aggregate P E) unit) :
  rows_wf (ls_rows s0) -> lc_find id t s0 = Ok (Some a) -> traced m -> run_on a m = Ok a' ->
  agg_id a = id /\ agg_id a' = agg_id a /\ agg_version a' = agg_version a /\ Forall (fun e => aggregateId e.1 = id) (agg_events a') /\
  replay (lc_status (agg_props a)) (moves_of (agg_events a')) = Some (lc_status (agg_props a')).
Proof.
  intros Hw Hf Hm Hrun. apply lc_find_Some in Hf as (r & _ & _ & _ & Hi & _ & Hev & _); [|done]. unfold run_on in Hrun.
  destruct (m a) as [[u|e] a1] eqn:Em; [|done]. injection Hrun as <-. destruct (Hm _ _ _ Em) as (I1 & V1 & events & E1 & F1 & R1).
  rewrite Hev in E1. cbn in E1. rewrite E1. rewrite Hi in F1. done.
Qed.

Lemma lc_ok_commit N G snaps s s' :
  lc_ok s -> Forall (fun s0 => lc_ok s0 /\ lc_evolve s0 s) snaps -> lc_commit N G snaps s s' -> lc_ok s' /\ lc_evolve s s'.
Proof.
  intros [Hw Hr] Hsn Hc. destruct Hc as [-> |a t Hv Hev Hst _ Hs|id t s0 a a' m Hs0 Hf Hm _ Hrun Hs].
  - split; [by split|reflexivity].
  - apply lc_save_new in Hs; [|done..]. split; [|by eapply created_evolve]. destruct Hs as (Hn & Hw' & Hl & Ho & _). split; [done|]. intros id. rewrite Hl.
    rewrite Hev, app_nil_r in Ho. assert (Hp : published_moves id s' = published_moves id s) by (unfold published_moves; by rewrite Ho). rewrite Hp.
    case_bool_decide as Hid; [|apply Hr]. specialize (Hr id). rewrite Hid, Hn in Hr. rewrite Hid, Hr. cbn. by rewrite lc_toRow_status, Hst.
  - assert (H0 : lc_ok s0 /\ lc_evolve s0 s). { destruct Hs0 as [Hs0| ->]; [rewrite Forall_forall in Hsn; by apply Hsn|]. split; [by split|reflexivity]. }
    destruct H0 as [[Hw0 _] Hev0]. destruct (traced_loaded _ _ _ _ _ _ Hw0 Hf Hm Hrun) as (Hi & Hi' & Hv' & Hall & Hrep).
    destruct (lc_save_found _ _ _ _ _ _ _ _ Hw0 Hw Hev0 Hf Hi' Hv' Hs) as (r & Hid & Ht & Hd & Hu). split; [|by eapply updated_evolve].
    destruct Hu as (Hc & Hw' & Hl & Ho & _). split; [done|]. intros j. rewrite Hl, (published_app j _ _ _ _ Ho), (moves_filter _ _ id Hall).
    specialize (Hr j). rewrite Hid. case_bool_decide as Hj; [|by rewrite app_nil_r]. subst j. rewrite <- Hid, Hc in Hr. cbn.
    rewrite lc_columns_status, lc_toRow_status, <- Hid, replay_app, Hr. cbn. apply lc_toDomain_status in Hd. by rewrite <- Hd.
Qed.

Definition empty_store : LStore := mkStore [] [] [].
Lemma empty_store_ok : lc_ok empty_store.
Proof. split; [split; [constructor|by intros r ?%elem_of_nil]|]. done. Qed.

(** What new aggregates have and every call keeps, every row keeps: [Q] of a row, [Qp] of its aggregate. *)
Definition keeps_fields {A} (Qp : P -> Prop) (m : M (Aggregate P E) A) : Prop :=
  forall a r a', m a = (Ok r, a') -> Qp (agg_props a) -> Qp (agg_props a').

Lemma fields_pure {A} Qp (f : Aggregate P E -> result A) : keeps_fields Qp (fun a => (f a, a)).
Proof. by intros a r a' [= _ <-]. Qed.
Lemma fields_ret {A} Qp (x : A) : keeps_fields Qp (mret x).
Proof. exact (fields_pure Qp (fun _ => Ok x)). Qed.
Lemma fields_lift {A} Qp (x : result A) : keeps_fields Qp (lift x).
Proof. exact (fields_pure Qp (fun _ => x)). Qed.
Lemma fields_gets {A} Qp (f : Aggregate P E -> A) : keeps_fields Qp (gets f).
Proof. exact (fields_pure Qp (fun a => Ok (f a))). Qed.
Lemma fields_throw {A} Qp e : keeps_fields Qp (throw (A := A) e).
Proof. exact (fields_pure Qp (fun _ => Err e)). Qed.
Lemma fields_throw_if Qp b e : keeps_fields Qp (throw_if b e).
Proof. intros a r a'. unfold throw_if. by destruct b; intros [= <- <-]. Qed.
Lemma fields_publish Qp eid at_ e : keeps_fields Qp (addDomainEvent eid at_ e).
Proof. by intros a r a' ->%addDomainEvent_Ok. Qed.
Lemma fields_set Qp f : (forall p, Qp p -> Qp (f p)) -> keeps_fields Qp (set_props f).
Proof. intros Hf a r a' ->%set_props_Ok. apply Hf. Qed.
Lemma fields_bind {A B} Qp (m : M (Aggregate P E) A) (g : A -> M (Aggregate P E) B) :
  keeps_fields Qp m -> (forall x, keeps_fields Qp (g x)) -> keeps_fields Qp (m ≫= g).
Proof. intros Hm Hg a r a' (x & a1 & H1 & H2)%bind_Ok Ha. exact (Hg _ _ _ _ H2 (Hm _ _ _ H1 Ha)). Qed.
Definition rows_all (Q : C -> Prop) (s : LStore) : Prop := forall r, r ∈ ls_rows s -> Q (row_props r).

Lemma rows_all_commit N G (Q : C -> Prop) (Qp : P -> Prop) snaps s s' :
  (forall p, N p -> Q (lc_toRow p)) -> (forall m, G m -> keeps_fields Qp m) ->
  (forall c log p, lc_toDomain c log = Ok p -> Q c -> Qp p) -> (forall c p, Q c -> Qp p -> Q (lc_columns c (lc_toRow p))) ->
  lc_ok s -> rows_all Q s -> Forall (fun s0 => lc_ok s0 /\ lc_evolve s0 s) snaps -> lc_commit N G snaps s s' -> rows_all Q s'.
Proof.
  intros HN HG Hd Hc [Hw Hr] HQ Hsn Hcm. destruct Hcm as [-> |a t Hv Hev Hst Hn Hs|id t s0 a a' m Hs0 Hf Hm Hg Hrun Hs]; [done| |].
  - apply lc_save_new in Hs as (_ & Hw' & Hl & _); [|done..]. intros r Hin%(row_of_elem _ _ (proj1 Hw')). rewrite Hl in Hin.
    case_bool_decide; [injection Hin as <-; by apply HN|]. apply row_of_Some in Hin as [Hin _]. by apply HQ.
  - assert (H0 : lc_ok s0 /\ lc_evolve s0 s). { destruct Hs0 as [Hs0| ->]; [rewrite Forall_forall in Hsn; by apply Hsn|]. split; [by split|reflexivity]. }
    destruct H0 as [[Hw0 _] Hev0]. destruct (traced_loaded _ _ _ _ _ _ Hw0 Hf Hm Hrun) as (_ & Hi' & Hv' & _ & _).
    destruct (lc_save_found _ _ _ _ _ _ _ _ Hw0 Hw Hev0 Hf Hi' Hv' Hs) as (r & _ & _ & Hdom & Hcur & Hw' & Hl & _).
    apply row_of_Some in Hcur as [Hcur _]. intros r' Hin%(row_of_elem _ _ (proj1 Hw')). rewrite Hl in Hin. case_bool_decide.
    + injection Hin as <-. cbn. apply Hc; [by apply HQ|]. unfold run_on in Hrun. destruct (m a) as [[u|e] a1] eqn:Em; [|done]. injection Hrun as <-.
      eapply HG; [done|exact Em|]. eapply Hd; [exact Hdom|by apply HQ].
    + apply row_of_Some in Hin as [Hin _]. by apply HQ.
Qed.

(** Events and statuses agree however transactions interleave, and so does what every row keeps: [view] is
    the lifecycle store in the state the transactions work on. *)
Lemma lc_interleaved {S Tx} (view : S -> LStore) (exec : Tx -> list S -> S -> result S) N G Q Qp l s0 x :
  (forall t snaps s s', exec t snaps s = Ok s' -> lc_commit N G (view <$> snaps) (view s) (view s')) ->
  (forall p, N p -> Q (lc_toRow p)) -> (forall m, G m -> keeps_fields Qp m) ->
  (forall c log p, lc_toDomain c log = Ok p -> Q c -> Qp p) -> (forall c p, Q c -> Qp p -> Q (lc_columns c (lc_toRow p))) ->
  lc_ok (view s0) -> rows_all Q (view s0) -> run_actions (il_do exec) l (mkInterleaved s0 []) = Some x ->
  lc_ok (view (il_store x)) /\ rows_all Q (view (il_store x)).
Proof.
  intros Hexec HN HG Hd Hc H0 HQ0 Hl.
  apply (il_invariant exec (fun s => lc_ok (view s) /\ rows_all Q (view s)) (fun s s' => lc_evolve (view s) (view s')) l s0 x); [| |done|done].
  - split; [intros s; reflexivity|intros a b c Hab Hbc; by transitivity (view b)].
  - intros t snaps s s' [Hs HQ] Hsn He%Hexec.
    assert (Hsn' : Forall (fun s0 => lc_ok s0 /\ lc_evolve s0 (view s)) (view <$> snaps)) by (rewrite Forall_fmap; eapply Forall_impl; [exact Hsn|]; cbn; tauto).
    destruct (lc_ok_commit _ _ _ _ _ Hs Hsn' He) as [Hs' Hev]. split; [|done]. split; [done|]. exact (rows_all_commit N G Q Qp _ _ _ HN HG Hd Hc Hs HQ Hsn' He).
Qed.

(** A status the table leads to once only: [rank] grows along the table. *)
Lemma replay_once (rank : St -> nat) to from l st :
  (forall a b, lc_can a b = true -> (rank a < rank b)%nat) -> replay from l = Some st ->
  (length (filter (fun m => m.2 = to) l) <= if (rank from <? rank to)%nat then 1 else 0)%nat.
Proof.
  intros Hrank. revert from. induction l as [|[a b] l IH]; intros from Hr; [cbn; lia|]. cbn in Hr.
  destruct (bool_decide (a = from)) eqn:Ha; [|done]. apply bool_decide_eq_true in Ha as ->. destruct (lc_can from b) eqn:Hc; [|done].
  specialize (IH b Hr). specialize (Hrank _ _ Hc). rewrite filter_cons. cbn [snd].
  destruct (Nat.ltb_spec (rank from) (rank to)), (Nat.ltb_spec (rank b) (rank to)); destruct (decide (b = to)) as [->|]; cbn [length]; lia.
Qed.

(** A commit appends to what is published; a call on what was loaded, its events. *)
Lemma commit_published N G snaps s s' id :
  lc_ok s -> Forall (fun s0 => lc_ok s0 /\ lc_evolve s0 s) snaps -> lc_commit N G snaps s s' -> exists l, published_moves id s' = published_moves id s ++ l.
Proof.
  intros [Hw Hr] Hsn Hc. destruct Hc as [-> |a t Hv Hev Hst _ Hs|j t s0 a a' m Hs0 Hf Hm _ Hrun Hs].
  - exists []. by rewrite app_nil_r.
  - apply lc_save_new in Hs as (_ & _ & _ & Ho & _); [|done..]. eexists. by apply (published_app id _ _ t).
  - assert (H0 : lc_ok s0 /\ lc_evolve s0 s). { destruct Hs0 as [Hs0| ->]; [rewrite Forall_forall in Hsn; by apply Hsn|]. split; [by split|reflexivity]. }
    destruct H0 as [[Hw0 _] Hev0]. destruct (traced_loaded _ _ _ _ _ _ Hw0 Hf Hm Hrun) as (_ & Hi' & Hv' & _ & _).
    destruct (lc_save_found _ _ _ _ _ _ _ _ Hw0 Hw Hev0 Hf Hi' Hv' Hs) as (r & _ & _ & _ & _ & _ & _ & Ho & _). eexists. by eapply published_app.
Qed.
Lemma call_published message id t s0 (s s1 s2 s' : LStore) (a a' : Aggregate P E) (m : M (Aggregate P E) unit) u :
  rows_wf (ls_rows s) -> rows_wf (ls_rows s0) -> lc_evolve s0 s -> traced m ->
  lc_load message id t s0 s = (Ok a, s1) -> call a m s1 = (Ok a', s2) -> lc_save a' t s2 = (Ok u, s') ->
  agg_events a = [] /\ published_moves id s' = published_moves id s ++ moves_of (agg_events a').
Proof.
  intros Hw Hw0 Hev Hm Hl Hc Hs. unfold lc_load, require, call in *. minv. destruct v as [b|]; [|done]. cbn in *. minv. rename Hcall into Hf. destruct u.
  destruct (traced_loaded _ _ _ _ _ _ Hw0 Hf Hm Hc) as (_ & Hi' & Hv' & Hall & _).
  destruct (lc_save_found _ _ _ _ _ _ _ _ Hw0 Hw Hev Hf Hi' Hv' Hs) as (r & _ & _ & _ & _ & _ & _ & Ho & _).
  apply lc_find_Some in Hf as (r0 & _ & _ & _ & _ & _ & He & _); [|done]. split; [done|].
  rewrite (published_app id _ _ _ _ Ho), (moves_filter _ _ _ Hall). by rewrite bool_decide_true.
Qed.

(** What the row says follows: a replay of moves along the table. *)
Lemma lc_ok_row id s r : lc_ok s -> row_of id (ls_rows s) = Some r -> replay lc_initial (published_moves id s) = Some (lc_row_status (row_props r)).
Proof. intros [_ Hok] Hr. specialize (Hok id). by rewrite Hr in Hok. Qed.

(** *** Attempts that cannot be stored

    A method that records an attempt under its aggregate's id with a number, when the id is a UUID. *)

Context `{!UuidColumn uuid}.
Definition numbered (a : Aggregate P E) : Prop := exists t n, t ∈ lc_attempts (agg_props a) /\ at_id t = agg_id a +:+ show_nat n.
Lemma numbered_unstorable t s a : uuid (agg_id a) = true -> numbered a -> exists e s', lc_save a t s = (Err e, s').
Proof.
  intros Hid (x & n & Hx & Hn). eapply lc_save_unstorable; [exact Hx|]. rewrite Hn. by apply numbered_id_is_no_uuid.
Qed.
Lemma recorded_unstorable {A B} t s a (m : M (Aggregate P E) A) (g : Aggregate P E -> M LStore B) :
  uuid (agg_id a) = true -> (forall u a', m a = (Ok u, a') -> agg_id a' = agg_id a /\ numbered a') ->
  exists e s', (a ← call a m; lc_save a t;; g a) s = (Err e, s').
Proof.
  intros Hid Hm. unfold call, run_on. destruct (m a) as [[u|e] a'] eqn:Hc; [|by exists e, s]. destruct (Hm _ _ eq_refl) as [Hi Hn].
  destruct (numbered_unstorable t s a') as (e & s' & Hs); [by rewrite Hi|done|]. exists e, s'. unfold mbind, M_bind. cbn. by rewrite Hs.
Qed.
(** The same for an event. *)
Lemma published_unstorable {A B} t s a (m : M (Aggregate P E) A) (g : Aggregate P E -> M LStore B) :
  (forall u a', m a = (Ok u, a') -> unstorable_events (agg_events a') = true) ->
  exists e s', (a ← call a m; lc_save a t;; g a) s = (Err e, s').
Proof.
  intros Hm. unfold call, run_on. destruct (m a) as [[u|e] a'] eqn:Hc; [|by exists e, s].
  destruct (lc_save_unpublishable t s a' (Hm _ _ eq_refl)) as (e & s' & Hs). exists e, s'. unfold mbind, M_bind. cbn. by rewrite Hs.
Qed.

End lifecycle.
Create HintDb lifecycle.
#[export] Hint Resolve traced_ret traced_lift traced_gets traced_throw_if traced_throw : lifecycle.

#[export] Hint Resolve fields_ret fields_lift fields_gets fields_throw fields_throw_if fields_publish : lifecycle.

(** Proves [traced], or [keeps_fields], of a method made of binds and known calls. *)
Ltac solve_fields := repeat (first [solve [eauto 2 with lifecycle]|apply fields_bind; [|intros ?]]).
Ltac solve_traced := repeat (first [solve [eauto 2 with lifecycle]|apply traced_bind; [|intros ?]]).

(** ** A store and the world outside it

    Other contexts and providers are reached through ports, whose effects stay when a transaction is rolled
    back. *)

Section world.
Context {D X : Type}.

Record World := mkWorld { w_db : D; w_out : X }.

Definition on_db {A} (m : M D A) : M World A := fun w =>
  match m (w_db w) with (r, d) => (r, mkWorld d (w_out w)) end.
Definition outside {A} (m : M X A) : M World A := fun w =>
  match m (w_out w) with (r, x) => (r, mkWorld (w_db w) x) end.

(** [unitOfWork.run]: what throws leaves the store as it was. *)
Definition transactional {A} (m : M World A) : M World A := fun w =>
  match m w with (Ok a, w') => (Ok a, w') | (Err e, w') => (Err e, mkWorld (w_db w) (w_out w')) end.

(** [try { ... } catch {}] *)
Definition best_effort (m : M World unit) : M World unit := fun w =>
  match m w with (_, w') => (Ok tt, w') end.

(** [withConcurrencyRetry], the attempt being told its number. *)
Fixpoint retry_from {A} (n : nat) (attempt : nat -> M World A) (i : nat) : M World A := fun w =>
  match attempt i w with
  | (Err (ConcurrencyError m), w') => match n with O => (Err (ConcurrencyError m), w') | S n' => retry_from n' attempt (S i) w' end
  | rw => rw
  end.
Definition retry_conflicts {A} (maxAttempts : nat) (attempt : nat -> M World A) : M World A := retry_from (maxAttempts - 1) attempt 1.

(** What leaves the database alone, and what moreover never throws: notifications. *)
Definition off_db {A} (m : M World A) : Prop := forall w r w', m w = (r, w') -> w_db w' = w_db w.
Definition quiet {A} (m : M World A) : Prop := forall w, exists r w', m w = (Ok r, w') /\ w_db w' = w_db w.
Lemma off_db_outside {A} (m : M X A) : off_db (outside m).
Proof. intros w r w'. unfold outside. destruct (m (w_out w)). by intros [= _ <-]. Qed.
Lemma off_db_bind {A B} (m : M World A) (g : A -> M World B) : off_db m -> (forall x, off_db (g x)) -> off_db (m ≫= g).
Proof.
  intros Hm Hg w r w'. unfold mbind, M_bind. destruct (m w) as [[x|e] w1] eqn:Ee.
  - intros He. by rewrite (Hg _ _ _ _ He), (Hm _ _ _ Ee).
  - intros [= _ <-]. by rewrite (Hm _ _ _ Ee).
Qed.
Lemma quiet_best_effort (m : M World unit) : off_db m -> quiet (best_effort m).
Proof. intros Hm w. unfold best_effort. destruct (m w) as [r w'] eqn:Ee. exists tt, w'. split; [done|]. by rewrite (Hm _ _ _ Ee). Qed.
Lemma quiet_off_db {A} (m : M World A) w r w' : quiet m -> m w = (r, w') -> w_db w' = w_db w.
Proof. intros Hm Hw. destruct (Hm w) as (x & w1 & H1 & D1). rewrite H1 in Hw. by injection Hw as _ <-. Qed.
Lemma off_db_ret {A} (x : A) : off_db (mret x).
Proof. by intros w r w' [= _ <-]. Qed.
Lemma off_db_throw_if b e : off_db (throw_if b e).
Proof. intros w r w'. unfold throw_if. by destruct b; intros [= _ <-]. Qed.
Lemma transactional_Err {A} (m : M World A) w e w' : m w = (Err e, w') -> transactional m w = (Err e, mkWorld (w_db w) (w_out w')).
Proof. unfold transactional. by intros ->. Qed.
Lemma transactional_Ok {A} (m : M World A) w x w' : transactional m w = (Ok x, w') -> m w = (Ok x, w').
Proof. unfold transactional. destruct (m w) as [[y|e] w1]; [done|]. by intros [=]. Qed.
Lemma off_db_quiet_ret {A} (x : A) : quiet (mret x).
Proof. intros w. by exists x, w. Qed.
Lemma off_db_quiet_bind {A B} (m : M World A) (g : A -> M World B) : quiet m -> (forall x, quiet (g x)) -> quiet (m ≫= g).
Proof.
  intros Hm Hg w. destruct (Hm w) as (x & w1 & H1 & D1), (Hg x w1) as (r & w2 & H2 & D2). exists r, w2. unfold mbind, M_bind. rewrite H1. split; [done|]. by rewrite D2.
Qed.

(** An attempt that always leaves the world as it is, and throws, is no better repeated. *)
Lemma retry_fails {A} n (attempt : nat -> M World A) i w :
  (forall j, exists e, attempt j w = (Err e, w)) -> exists e, retry_from n attempt i w = (Err e, w).
Proof.
  intros Hf. revert i. induction n as [|n IH]; intros i; cbn; destruct (Hf i) as [e ->]; destruct e; eauto.
Qed.
(** What a retried attempt returned, one attempt returned, when those that throw leave the world alone. *)
Lemma retry_returns {A} n (attempt : nat -> M World A) i w r w' :
  (forall j e w1, attempt j w = (Err e, w1) -> w1 = w) -> retry_from n attempt i w = (Ok r, w') -> exists j, attempt j w = (Ok r, w').
Proof.
  intros Hf. revert i. induction n as [|n IH]; intros i; cbn; destruct (attempt i w) as [[x|e] w1] eqn:Ha; try (intros [= -> ->]; by exists i);
    rewrite <- (Hf i e w1 Ha) in *; destruct e; try done. apply IH.
Qed.
Lemma transactional_fails {A} (m : M World A) w e w' : m w = (Err e, w') -> w_out w' = w_out w -> transactional m w = (Err e, w).
Proof. unfold transactional. intros -> Ho. rewrite Ho. by destruct w. Qed.

End world.
Arguments World : clear implicits.
Arguments mkWorld {D X} _ _.

(** ** A service's database with its webhook log

    [sd_processed] is what [ProcessedCarrierWebhookStore] keeps: tenant, carrier and event of each webhook
    recorded. *)

Record ServiceDb (S : Type) := mkServiceDb { sd_store : S; sd_processed : list (string * string * string) }.
Arguments mkServiceDb {S} _ _.
Arguments sd_store {S} _.
Arguments sd_processed {S} _.

Section service.
Context {S X : Type}.
Abbreviation ServiceWorld := (World (ServiceDb S) X).

Definition stored {A} (m : M S A) : M ServiceWorld A := on_db (fun d =>
  match m (sd_store d) with (r, s) => (r, mkServiceDb s (sd_processed d)) end).
Definition read {A} (f : S -> A) : M ServiceWorld A := gets (fun w => f (sd_store (w_db w))).
Definition hasProcessed (carrier eventId tenantId : string) : M ServiceWorld bool :=
  gets (fun w => bool_decide ((tenantId, carrier, eventId) ∈ sd_processed (w_db w))).
Definition markProcessed (carrier eventId tenantId : string) : M ServiceWorld unit :=
  modify (fun w : ServiceWorld => mkWorld (mkServiceDb (sd_store (w_db w)) ((tenantId, carrier, eventId) :: sd_processed (w_db w))) (w_out w)).

Lemma read_bind {A B} (f : S -> A) (g : A -> M ServiceWorld B) w : (read f ≫= g) w = g (f (sd_store (w_db w))) w.
Proof. done. Qed.
Lemma stored_err {A} (m : M S A) (w : ServiceWorld) e s' :
  m (sd_store (w_db w)) = (Err e, s') -> stored m w = (Err e, mkWorld (mkServiceDb s' (sd_processed (w_db w))) (w_out w)).
Proof. unfold stored, on_db. by intros ->. Qed.
Lemma stored_Ok {A} (m : M S A) (w : ServiceWorld) x w' :
  stored m w = (Ok x, w') -> exists s', m (sd_store (w_db w)) = (Ok x, s') /\ w' = mkWorld (mkServiceDb s' (sd_processed (w_db w))) (w_out w).
Proof. unfold stored, on_db. destruct (m (sd_store (w_db w))) as [r s1] eqn:Hm. intros [= -> <-]. by exists s1. Qed.
Lemma stored_reads {A} (m : M S A) (w : ServiceWorld) x : m (sd_store (w_db w)) = (Ok x, sd_store (w_db w)) -> stored m w = (Ok x, w).
Proof. unfold stored, on_db. intros ->. by destruct w as [[? ?] ?]. Qed.
(** A transaction that throws leaves the world alone. *)
Lemma reading_fails {A B} (m : S -> M S A) (g : A -> M ServiceWorld B) w e s' :
  m (sd_store (w_db w)) (sd_store (w_db w)) = (Err e, s') -> transactional (s0 ← read (fun s => s); a ← stored (m s0); g a) w = (Err e, w).
Proof.
  intros Hm. eapply transactional_fails; [|shelve]. rewrite read_bind. by apply bind_fails, stored_err.
  Unshelve. done.
Qed.
Lemma reading_fails_tail {A} (m : S -> M S A) (w : ServiceWorld) e s' :
  m (sd_store (w_db w)) (sd_store (w_db w)) = (Err e, s') -> transactional (s0 ← read (fun s => s); stored (m s0)) w = (Err e, w).
Proof.
  intros Hm. eapply transactional_fails; [|shelve]. rewrite read_bind. by rewrite (stored_err _ _ _ _ Hm).
  Unshelve. done.
Qed.

(** What is notified after the commit changes neither the outcome nor the database. *)
Lemma reading_settles {A B} (m : S -> M S A) (g : A -> M ServiceWorld B) w r w' :
  (forall x, quiet (g x)) -> transactional (s0 ← read (fun s => s); a ← stored (m s0); g a) w = (r, w') ->
  match r with
  | Err e => w' = w
  | Ok _ => exists x s1, m (sd_store (w_db w)) (sd_store (w_db w)) = (Ok x, s1) /\ sd_store (w_db w') = s1
  end.
Proof.
  intros Hg Ht. destruct (m (sd_store (w_db w)) (sd_store (w_db w))) as [[x|e] s1] eqn:Hm.
  - unfold transactional in Ht. rewrite read_bind in Ht. unfold mbind, M_bind, stored, on_db in Ht. rewrite Hm in Ht.
    destruct (Hg x (mkWorld (mkServiceDb s1 (sd_processed (w_db w))) (w_out w))) as (y & w2 & H2 & D2). rewrite H2 in Ht.
    injection Ht as <- <-. exists x, s1. split; [done|]. by rewrite D2.
  - rewrite (reading_fails m g w e s1 Hm) in Ht. by injection Ht as <- <-.
Qed.

End service.
