(* ===== verification/Fulfillment.v ===== *)
(** Fulfillment ([services/fulfillment/src]): the fulfillment order with its lifecycle and attempt log, its
    rows, the use cases that reserve stock, ship and follow the carrier, and the adapter through which Orders
    cancels a fulfillment ([apps/admin/src/infrastructure/cross-context/orders-fulfillment-cancel.adapter.ts]).
    The other contexts and the carrier are parameters. *)
From S2P Require Import Prelude Kernel Store Uuids Lifecycle.

#[global] Open Scope Z_scope.

(** ** Statuses ([value-objects/fulfillment-status.ts]) *)

Inductive FulfillmentStatus :=
| created | reservation_requested | confirmed | failed | picking_started | picking_completed | packing_started
| packing_completed | shipment_created | tracking_assigned | shipment_dispatched | in_transit | out_for_delivery
| delivered | delivery_failed | returned | cancelled | closed.
#[export] Instance FulfillmentStatus_eq_dec : EqDecision FulfillmentStatus.
Proof. solve_decision. Defined.

Definition status_name (s : FulfillmentStatus) : string :=
  match s with
  | created => "created" | reservation_requested => "reservation_requested" | confirmed => "confirmed" | failed => "failed"
  | picking_started => "picking_started" | picking_completed => "picking_completed" | packing_started => "packing_started"
  | packing_completed => "packing_completed" | shipment_created => "shipment_created" | tracking_assigned => "tracking_assigned"
  | shipment_dispatched => "shipment_dispatched" | in_transit => "in_transit" | out_for_delivery => "out_for_delivery"
  | delivered => "delivered" | delivery_failed => "delivery_failed" | returned => "returned" | cancelled => "cancelled" | closed => "closed"
  end.

Definition TRANSITIONS (from : FulfillmentStatus) : list FulfillmentStatus :=
  match from with
  | created => [reservation_requested; cancelled]
  | reservation_requested => [confirmed; failed]
  | confirmed => [picking_started; cancelled]
  | failed => [reservation_requested; cancelled]
  | picking_started => [picking_completed]
  | picking_completed => [packing_started]
  | packing_started => [packing_completed]
  | packing_completed => [shipment_created]
  | shipment_created => [tracking_assigned]
  | tracking_assigned => [shipment_dispatched]
  | shipment_dispatched => [in_transit]
  | in_transit => [out_for_delivery; delivery_failed]
  | out_for_delivery => [delivered; delivery_failed]
  | delivered => [returned; closed]
  | delivery_failed => [in_transit; returned; closed]
  | returned => [closed]
  | cancelled => [closed]
  | closed => []
  end.
Definition canTransitionFulfillment (from to : FulfillmentStatus) : bool := bool_decide (to ∈ TRANSITIONS from).

(** ** Values *)

(** [fulfillment-item.ts], [fulfillment-refs.ts], [shipment-package.ts] *)
Record FulfillmentItem := mkItem { fi_productRef : string; fi_quantity : Z }.
Definition FulfillmentItem_create (productRef : string) (quantity : jsnum) : result FulfillmentItem :=
  match integer_from 1 quantity with
  | Some n => Ok (mkItem productRef n)
  | None => Err (ValidationError "Invalid fulfillment item" [mkFieldIssue "quantity" "must be a positive integer"])
  end.

Record CarrierReference := mkCarrierReference { cr_carrier : string; cr_carrierShipmentId : string }.
Definition CarrierReference_create (carrier carrierShipmentId : string) : result CarrierReference :=
  _ ← Guard.againstEmpty carrier "carrier";
  _ ← Guard.againstEmpty carrierShipmentId "carrierShipmentId";
  Ok (mkCarrierReference carrier carrierShipmentId).
Definition TrackingNumber_create (value : string) : result string := Guard.againstEmpty value "trackingNumber".

Record ShipmentPackage := mkPackage { pk_reference : string; pk_itemRefs : list string; pk_weightGrams : Z }.
Definition ShipmentPackage_create (reference : string) (itemRefs : list string) (weightGrams : jsnum) : result ShipmentPackage :=
  _ ← Guard.againstEmpty reference "reference";
  if bool_decide (itemRefs = []) then Err (ValidationError "Invalid shipment package" [mkFieldIssue "itemRefs" "must not be empty"])
  else match integer_from 1 weightGrams with
       | Some n => Ok (mkPackage reference itemRefs n)
       | None => Err (ValidationError "Invalid shipment package" [mkFieldIssue "weightGrams" "must be a positive integer"])
       end.

(** ** The fulfillment order ([domain/fulfillment-order.ts], [fulfillment-attempt.ts]) *)

Inductive FulfillmentAttemptKind := k_transition | k_reservation | k_shipment | k_carrier_webhook.
Abbreviation FulfillmentAttempt := (Attempt FulfillmentAttemptKind).

Record FulfillmentOrderProps := mkFulfillment {
  fo_orderRef : string; fo_items : list FulfillmentItem; fo_status : FulfillmentStatus; fo_attempts : list FulfillmentAttempt;
  fo_packages : list ShipmentPackage; fo_carrierReference : option CarrierReference; fo_trackingNumber : option string;
  fo_deliveredAt : option Z }.
Record FulfillmentTransitioned := mkFulfillmentTransitioned {
  ft_orderRef : string; ft_fromStatus : FulfillmentStatus; ft_toStatus : FulfillmentStatus }.
Abbreviation FulfillmentOrder := (Aggregate FulfillmentOrderProps FulfillmentTransitioned).
Abbreviation FulfillmentM := (M FulfillmentOrder).

Definition with_status (st : FulfillmentStatus) (p : FulfillmentOrderProps) : FulfillmentOrderProps :=
  mkFulfillment (fo_orderRef p) (fo_items p) st (fo_attempts p) (fo_packages p) (fo_carrierReference p) (fo_trackingNumber p) (fo_deliveredAt p).
Definition with_attempts (l : list FulfillmentAttempt) (p : FulfillmentOrderProps) : FulfillmentOrderProps :=
  mkFulfillment (fo_orderRef p) (fo_items p) (fo_status p) l (fo_packages p) (fo_carrierReference p) (fo_trackingNumber p) (fo_deliveredAt p).
Definition with_packages (l : list ShipmentPackage) (p : FulfillmentOrderProps) : FulfillmentOrderProps :=
  mkFulfillment (fo_orderRef p) (fo_items p) (fo_status p) (fo_attempts p) l (fo_carrierReference p) (fo_trackingNumber p) (fo_deliveredAt p).
Definition with_carrierReference (c : CarrierReference) (p : FulfillmentOrderProps) : FulfillmentOrderProps :=
  mkFulfillment (fo_orderRef p) (fo_items p) (fo_status p) (fo_attempts p) (fo_packages p) (Some c) (fo_trackingNumber p) (fo_deliveredAt p).
Definition with_trackingNumber (n : string) (p : FulfillmentOrderProps) : FulfillmentOrderProps :=
  mkFulfillment (fo_orderRef p) (fo_items p) (fo_status p) (fo_attempts p) (fo_packages p) (fo_carrierReference p) (Some n) (fo_deliveredAt p).
Definition with_deliveredAt (t : Z) (p : FulfillmentOrderProps) : FulfillmentOrderProps :=
  mkFulfillment (fo_orderRef p) (fo_items p) (fo_status p) (fo_attempts p) (fo_packages p) (fo_carrierReference p) (fo_trackingNumber p) (Some t).

Definition fulfillment_create (id orderRef : string) (items : list FulfillmentItem) : FulfillmentOrder :=
  new_agg (mkFulfillment orderRef items created [] [] None None None) id.

(** An attempt's id is the order's with the attempt's number. *)
Definition recordAttempt (kind : FulfillmentAttemptKind) (outcome : AttemptOutcome) (at_ : Z) (reference : option string) : FulfillmentM unit :=
  id ← gets agg_id;
  p ← gets agg_props;
  aid ← lift (UniqueEntityId_from (id +:+ show_nat (length (fo_attempts p))));
  set_props (with_attempts (fo_attempts p ++ [mkAttempt aid kind outcome reference at_])).

Definition transition (toStatus : FulfillmentStatus) (eid : string) (at_ : Z) : FulfillmentM unit :=
  p ← gets agg_props;
  throw_if (negb (canTransitionFulfillment (fo_status p) toStatus))
    (BusinessRuleError ("Cannot transition fulfillment from " +:+ quoted (status_name (fo_status p)) +:+ " to " +:+ quoted (status_name toStatus)));;
  set_props (with_status toStatus);;
  addDomainEvent eid at_ (mkFulfillmentTransitioned (fo_orderRef p) (fo_status p) toStatus).

Definition requestReservation (eid : string) (at_ : Z) : FulfillmentM unit :=
  transition reservation_requested eid at_;; recordAttempt k_reservation succeeded at_ None.
Definition confirmReservation (eid : string) (at_ : Z) : FulfillmentM unit := transition confirmed eid at_.
Definition failReservation (reason eid : string) (at_ : Z) : FulfillmentM unit :=
  transition failed eid at_;; recordAttempt k_reservation failed_attempt at_ (Some reason).
Definition startPicking := transition picking_started.
Definition completePicking := transition picking_completed.
Definition startPacking := transition packing_started.
Definition addPackage (p : ShipmentPackage) : FulfillmentM unit := set_props (fun o => with_packages (fo_packages o ++ [p]) o).
Definition completePacking := transition packing_completed.
Definition createShipment (carrierReference : CarrierReference) (eid : string) (at_ : Z) : FulfillmentM unit :=
  set_props (with_carrierReference carrierReference);;
  transition shipment_created eid at_;;
  recordAttempt k_shipment succeeded at_ None.
Definition assignTracking (trackingNumber eid : string) (at_ : Z) : FulfillmentM unit :=
  set_props (with_trackingNumber trackingNumber);;
  transition tracking_assigned eid at_.
Definition dispatch := transition shipment_dispatched.
Definition markInTransit := transition in_transit.
Definition markOutForDelivery := transition out_for_delivery.
Definition markDelivered (eid : string) (at_ : Z) : FulfillmentM unit :=
  transition delivered eid at_;; set_props (with_deliveredAt at_).
Definition markDeliveryFailed (reason eid : string) (at_ : Z) : FulfillmentM unit :=
  transition delivery_failed eid at_;; recordAttempt k_shipment failed_attempt at_ (Some reason).
Definition markReturned := transition returned.
Definition cancel := transition cancelled.
Definition close := transition closed.
Definition recordCarrierWebhook (kind : string) (at_ : Z) : FulfillmentM unit := recordAttempt k_carrier_webhook succeeded at_ (Some kind).

(** ** Rows ([infrastructure/fulfillment-order.mapper.ts]) *)

Record FulfillmentOrderRow := mkFulfillmentRow {
  fr_orderRef : string; fr_items : list (string * jsnum); fr_status : FulfillmentStatus; fr_carrierReference : option (string * string);
  fr_trackingNumber : option string; fr_packages : list (string * list string * jsnum); fr_deliveredAt : option Z }.

Abbreviation must := (Lifecycle.must "fulfillment").
Definition toDomain (row : FulfillmentOrderRow) (attempts : list FulfillmentAttempt) : result FulfillmentOrderProps :=
  items ← map_must (fun i => ref ← must (ProductRef_create i.1) "item productRef"; must (FulfillmentItem_create ref i.2) "fulfillment item") (fr_items row);
  packages ← map_must (fun p => must (ShipmentPackage_create p.1.1 p.1.2 p.2) "shipment package") (fr_packages row);
  carrier ← (match fr_carrierReference row with
             | Some c => r ← must (CarrierReference_create c.1 c.2) "carrier reference"; Ok (Some r)
             | None => Ok None
             end);
  tracking ← (match fr_trackingNumber row with Some n => r ← must (TrackingNumber_create n) "tracking number"; Ok (Some r) | None => Ok None end);
  Ok (mkFulfillment (fr_orderRef row) items (fr_status row) attempts packages carrier tracking (fr_deliveredAt row)).

Definition toRow (p : FulfillmentOrderProps) : FulfillmentOrderRow :=
  mkFulfillmentRow (fo_orderRef p) ((fun i => (fi_productRef i, NInt (fi_quantity i))) <$> fo_items p) (fo_status p)
    ((fun c => (cr_carrier c, cr_carrierShipmentId c)) <$> fo_carrierReference p) (fo_trackingNumber p)
    ((fun k => (pk_reference k, pk_itemRefs k, NInt (pk_weightGrams k))) <$> fo_packages p) (fo_deliveredAt p).

(** The columns an update writes. *)
#[export] Instance fulfillment_lifecycle :
  Lifecycle FulfillmentOrderProps FulfillmentOrderRow FulfillmentAttemptKind FulfillmentStatus FulfillmentTransitioned := {
  lc_name := "FulfillmentOrder";
  lc_toRow := toRow;
  lc_toDomain := toDomain;
  lc_columns old new := mkFulfillmentRow (fr_orderRef old) (fr_items old) (fr_status new) (fr_carrierReference new) (fr_trackingNumber new) (fr_packages new) (fr_deliveredAt new);
  lc_attempts := fo_attempts;
  lc_status := fo_status;
  lc_row_status := fr_status;
  lc_initial := created;
  lc_can := canTransitionFulfillment;
  lc_moved e := Some (ft_fromStatus e, ft_toStatus e) }.
#[export] Instance fulfillment_lifecycle_laws :
  LifecycleLaws FulfillmentOrderProps FulfillmentOrderRow FulfillmentAttemptKind FulfillmentStatus FulfillmentTransitioned.
Proof. split; [done|done|]. intros c log p Hd. cbn in *. unfold toDomain in Hd. by minv. Qed.

Abbreviation FulfillmentStore := (LifecycleStore FulfillmentOrderRow FulfillmentAttemptKind FulfillmentTransitioned).
Abbreviation StoreM := (M FulfillmentStore).

(** ** Use cases ([application])

    [uuid] is what a column of that type accepts. The transactions take the store their read saw. *)

Section use_cases.
Context (uuid : string -> bool).

Definition findById (id tenantId : string) (s : FulfillmentStore) : result (option FulfillmentOrder) := lc_find id tenantId s.
Definition save (a : FulfillmentOrder) (tenantId : string) : StoreM unit := lc_save uuid a tenantId.
Definition load (id tenantId : string) (s0 : FulfillmentStore) : StoreM FulfillmentOrder := lc_load "Fulfillment order not found" id tenantId s0.

(** [findByOrderRef]: the one opened last. *)
Definition findByOrderRef (orderRef tenantId : string) (s : FulfillmentStore) : result (option FulfillmentOrder) :=
  match last (filter (fun r => row_tenant r = tenantId /\ fr_orderRef (row_props r) = orderRef) (ls_rows s)) with
  | Some r => a ← hydrate s (rehydrate r); Ok (Some a)
  | None => Ok None
  end.
(** [findByOrderRefs]: the newest row of each order, newest first. *)
Fixpoint newest (seen : list string) (rows : list (Row FulfillmentOrderRow)) : list (Row FulfillmentOrderRow) :=
  match rows with
  | [] => []
  | r :: l => if bool_decide (fr_orderRef (row_props r) ∈ seen) then newest seen l else r :: newest (fr_orderRef (row_props r) :: seen) l
  end.
Definition findByOrderRefs (orderRefs : list string) (tenantId : string) (s : FulfillmentStore) : result (list FulfillmentOrder) :=
  map_must (fun r => hydrate s (rehydrate r))
    (newest [] (rev (filter (fun r => row_tenant r = tenantId /\ fr_orderRef (row_props r) ∈ orderRefs) (ls_rows s)))).

(** *** Opening ([create-fulfillment.use-case.ts]) *)

Definition build_items (items : list (string * jsnum)) : result (list FulfillmentItem) :=
  map_must (fun i => ref ← ProductRef_create i.1; FulfillmentItem_create ref i.2) items.
Definition create_tx (gen : nat -> string) (tenantId orderRef : string) (items : list FulfillmentItem) : StoreM FulfillmentOrder :=
  id ← lift (UniqueEntityId_from (gen 0%nat));
  let a := fulfillment_create id orderRef items in
  save a tenantId;;
  mret a.
Definition CreateFulfillment (gen : nat -> string) (tenantId orderRef : string) (items : list (string * jsnum)) : StoreM FulfillmentOrder :=
  lift (_ ← Guard.againstEmpty orderRef "orderRef"; Ok tt);;
  throw_if (bool_decide (items = [])) (ValidationError "Invalid fulfillment order" [mkFieldIssue "items" "must not be empty"]);;
  items ← lift (build_items items);
  in_txn (create_tx gen tenantId orderRef items).

(** *** Transactions *)

Definition advance_tx (eid : string) (now : Z) (tenantId id : string) (toStatus : FulfillmentStatus) (s0 : FulfillmentStore) : StoreM FulfillmentOrder :=
  a ← load id tenantId s0;
  a ← call a (transition toStatus eid now);
  save a tenantId;;
  mret a.

(** [RequestReservation.reserve]: whether this attempt should go on to Inventory. *)
Record ReservationOutcome := mkReservationOutcome {
  ro_status : FulfillmentStatus; ro_orderRef : string; ro_items : list (string * Z); ro_proceedToPort : bool }.
Definition reserve_tx (eid : string) (now : Z) (tenantId id : string) (isFirstAttempt : bool) (s0 : FulfillmentStore) : StoreM ReservationOutcome :=
  a ← load id tenantId s0;
  let p := agg_props a in
  let items := (fun i => (fi_productRef i, fi_quantity i)) <$> fo_items p in
  if bool_decide (fo_status p = reservation_requested) then mret (mkReservationOutcome (fo_status p) (fo_orderRef p) items isFirstAttempt)
  else if bool_decide (fo_status p = confirmed) then mret (mkReservationOutcome (fo_status p) (fo_orderRef p) items false)
  else
    a ← call a (requestReservation eid now);
    save a tenantId;;
    mret (mkReservationOutcome (fo_status (agg_props a)) (fo_orderRef p) items true).

Record ReservationResult := mkReservationResult { rr_confirmed : bool; rr_reason : option string }.
(** The aggregate's call when a reservation is settled. *)
Definition settle_call (result : ReservationResult) (eid : string) (now : Z) : FulfillmentM unit :=
  if rr_confirmed result then confirmReservation eid now
  else failReservation (default "reservation_failed" (rr_reason result)) eid now.
(** With whether it settled anything. *)
Definition settle_reservation_tx (eid : string) (now : Z) (tenantId id : string) (result : ReservationResult) (s0 : FulfillmentStore) :
  StoreM (FulfillmentOrder * bool) :=
  a ← load id tenantId s0;
  if negb (bool_decide (fo_status (agg_props a) = reservation_requested)) then mret (a, false)
  else
    a ← call a (settle_call result eid now);
    save a tenantId;;
    mret (a, true).

Record ProviderShipment := mkProviderShipment { ps_carrier : string; ps_carrierShipmentId : string; ps_trackingNumber : option string }.
Definition shipment_call (eids : string * string) (now : Z) (shipment : ProviderShipment) : FulfillmentM unit :=
  carrierReference ← lift (CarrierReference_create (ps_carrier shipment) (ps_carrierShipmentId shipment));
  createShipment carrierReference eids.1 now;;
  match ps_trackingNumber shipment with
  | Some n => trackingNumber ← lift (TrackingNumber_create n); assignTracking trackingNumber eids.2 now
  | None => mret tt
  end.
Definition settle_shipment_tx (eids : string * string) (now : Z) (tenantId id : string) (shipment : ProviderShipment) (s0 : FulfillmentStore) :
  StoreM FulfillmentOrder :=
  a ← load id tenantId s0;
  a ← call a (shipment_call eids now shipment);
  save a tenantId;;
  mret a.

(** Kinds without a status are recorded only. (A name every JavaScript object inherits is not a kind.) *)
Definition KIND_TO_STATUS : list (string * FulfillmentStatus) :=
  [("dispatched", shipment_dispatched); ("in_transit", in_transit); ("out_for_delivery", out_for_delivery); ("delivered", delivered);
   ("delivery_failed", delivery_failed); ("returned", returned)].
Definition status_of_kind (kind : string) : option FulfillmentStatus :=
  snd <$> find_first (fun e => bool_decide (e.1 = kind)) KIND_TO_STATUS.
Definition webhook_call (kind eid : string) (now : Z) : FulfillmentM unit :=
  recordCarrierWebhook kind now;;
  match status_of_kind kind with Some toStatus => transition toStatus eid now | None => mret tt end.
Definition webhook_tx (eid : string) (now : Z) (tenantId id kind : string) (s0 : FulfillmentStore) : StoreM FulfillmentOrder :=
  a ← load id tenantId s0;
  a ← call a (webhook_call kind eid now);
  save a tenantId;;
  mret a.

(** *** The use cases over the world

    The ports report to Orders, notify, reserve at Inventory and ship at the carrier; the log of
    webhooks recorded is kept by the process, in memory. *)

Context {X : Type}.
Record Ports := mkPorts {
  reportFulfillmentOutcome : string -> string -> string -> M X unit;
  notify : string -> string -> string -> M X unit;
  inventory_reserve : string -> list (string * Z) -> string -> M X ReservationResult;
  provider_createShipment : string -> string -> string -> string -> M X ProviderShipment }.
Context (ports : Ports).

Abbreviation FulfillmentWorld := (World (ServiceDb FulfillmentStore) X).

Definition notifyBestEffort (a : FulfillmentOrder) (tenantId : string) : M FulfillmentWorld unit :=
  let orderRef := fo_orderRef (agg_props a) in let status := status_name (fo_status (agg_props a)) in
  best_effort (outside (reportFulfillmentOutcome ports orderRef status tenantId);; outside (notify ports orderRef status tenantId)).

Record StatusOutput := mkStatusOutput { so_id : string; so_status : FulfillmentStatus }.
Definition output (a : FulfillmentOrder) : StatusOutput := mkStatusOutput (agg_id a) (fo_status (agg_props a)).

Definition AdvanceFulfillment (eid : string) (now : Z) (tenantId id : string) (toStatus : FulfillmentStatus) : M FulfillmentWorld StatusOutput :=
  transactional (
    s0 ← read (fun s => s);
    a ← stored (advance_tx eid now tenantId id toStatus s0);
    notifyBestEffort a tenantId;;
    mret (output a)).

(** [RequestReservation]: reserve in a transaction, ask Inventory, settle in another. *)
Definition MAX_CONCURRENCY_RETRIES : nat := 5.
Definition RequestReservation (eids : nat -> string) (now : Z) (tenantId id : string) : M FulfillmentWorld StatusOutput :=
  reservation ← retry_conflicts MAX_CONCURRENCY_RETRIES (fun attempt =>
    transactional (s0 ← read (fun s => s); stored (reserve_tx (eids attempt) now tenantId id (bool_decide (attempt = 1%nat)) s0)));
  if negb (ro_proceedToPort reservation) then mret (mkStatusOutput id (ro_status reservation))
  else
    result ← outside (inventory_reserve ports (ro_orderRef reservation) (ro_items reservation) tenantId);
    retry_conflicts MAX_CONCURRENCY_RETRIES (fun attempt =>
      transactional (
        s0 ← read (fun s => s);
        '(a, settled) ← stored (settle_reservation_tx (eids (5 + attempt)%nat) now tenantId id result s0);
        (if (settled : bool) then notifyBestEffort a tenantId else mret tt);;
        mret (output a))).

(** [CreateShipment] *)
Definition shipment_precheck (tenantId id : string) (s0 : FulfillmentStore) : result (bool * string * FulfillmentStatus) :=
  found ← findById id tenantId s0;
  match found with
  | None => Err (NotFoundError "Fulfillment order not found")
  | Some a =>
      let st := fo_status (agg_props a) in
      if bool_decide (st = shipment_created) then Ok (true, fo_orderRef (agg_props a), st)
      else if negb (bool_decide (st = packing_completed)) then
        Err (BusinessRuleError ("Cannot transition fulfillment from " +:+ quoted (status_name st) +:+ " to " +:+ quoted "shipment_created"))
      else Ok (false, fo_orderRef (agg_props a), st)
  end.
Definition shipment_key (id : string) : string := id +:+ ":shipment".
Definition CreateShipment (eids : nat -> string * string) (now : Z) (tenantId id : string) : M FulfillmentWorld StatusOutput :=
  s0 ← read (fun s => s);
  '(alreadyShipped, orderRef, status) ← lift (shipment_precheck tenantId id s0);
  if (alreadyShipped : bool) then mret (mkStatusOutput id status)
  else
    shipment ← outside (provider_createShipment ports tenantId id orderRef (shipment_key id));
    retry_conflicts MAX_CONCURRENCY_RETRIES (fun attempt =>
      transactional (
        s0 ← read (fun s => s);
        a ← stored (settle_shipment_tx (eids attempt) now tenantId id shipment s0);
        notifyBestEffort a tenantId;;
        mret (output a))).

(** [RecordCarrierWebhook] ([record-carrier-webhook.use-case.ts]): the set is marked after the save. *)
Definition RecordCarrierWebhook (eid : string) (now : Z) (tenantId id carrier eventId kind : string) : M FulfillmentWorld (StatusOutput * bool) :=
  lift (_ ← Guard.againstEmpty carrier "carrier"; _ ← Guard.againstEmpty eventId "eventId"; Ok tt);;
  transactional (
    s0 ← read (fun s => s);
    a ← stored (load id tenantId s0);
    processed ← hasProcessed carrier eventId tenantId;
    if (processed : bool) then mret (output a, true)
    else
      a ← stored (webhook_tx eid now tenantId id kind s0);
      markProcessed carrier eventId tenantId;;
      mret (output a, false)).

Definition GetFulfillmentByOrder (tenantId orderRef : string) : M FulfillmentWorld FulfillmentOrder :=
  found ← read (findByOrderRef orderRef tenantId);
  found ← lift found;
  match found with Some a => mret a | None => throw (NotFoundError "No fulfillment order found for this order") end.

(** ** Orders cancels ([orders-fulfillment-cancel.adapter.ts]) *)

Definition CANCELLABLE : list FulfillmentStatus := [created; confirmed; failed].
Definition cancelOpenFulfillment (eid : string) (now : Z) (orderId tenantId : string) : M FulfillmentWorld unit := best_effort (
  a ← GetFulfillmentByOrder tenantId orderId;
  if bool_decide (fo_status (agg_props a) ∈ CANCELLABLE) then
    _ ← AdvanceFulfillment eid now tenantId (agg_id a) cancelled; mret tt
  else mret tt).

End use_cases.

(** ** The transactions of all workers *)

Inductive FulfillmentTx :=
| TxCreate (gen : nat -> string) (tenantId orderRef : string) (items : list FulfillmentItem)
| TxAdvance (eid : string) (now : Z) (tenantId id : string) (toStatus : FulfillmentStatus)
| TxReserve (eid : string) (now : Z) (tenantId id : string) (isFirstAttempt : bool)
| TxSettleReservation (eid : string) (now : Z) (tenantId id : string) (result : ReservationResult)
| TxSettleShipment (eids : string * string) (now : Z) (tenantId id : string) (shipment : ProviderShipment)
| TxWebhook (eid : string) (now : Z) (tenantId id kind : string).

Section transactions.
Context (uuid : string -> bool).

Definition fulfillment_exec (t : FulfillmentTx) (snaps : list FulfillmentStore) (s : FulfillmentStore) : result FulfillmentStore :=
  match t, snaps with
  | TxCreate gen tenantId orderRef items, _ => committed (create_tx uuid gen tenantId orderRef items) s
  | TxAdvance eid now tenantId id toStatus, [s0] => committed (advance_tx uuid eid now tenantId id toStatus s0) s
  | TxReserve eid now tenantId id isFirstAttempt, [s0] => committed (reserve_tx uuid eid now tenantId id isFirstAttempt s0) s
  | TxSettleReservation eid now tenantId id result, [s0] => committed (settle_reservation_tx uuid eid now tenantId id result s0) s
  | TxSettleShipment eids now tenantId id shipment, [s0] => committed (settle_shipment_tx uuid eids now tenantId id shipment s0) s
  | TxWebhook eid now tenantId id kind, [s0] => committed (webhook_tx uuid eid now tenantId id kind s0) s
  | _, _ => Err (UnexpectedError "unreachable")
  end.
Definition fulfillment_do := il_do fulfillment_exec.

End transactions.

(** What the methods publish leads where they go. *)
Abbreviation ftraced := (traced (P := FulfillmentOrderProps) (C := FulfillmentOrderRow) (K := FulfillmentAttemptKind) (E := FulfillmentTransitioned)).
Lemma recordAttempt_traced kind outcome t ref : ftraced (recordAttempt kind outcome t ref).
Proof. unfold recordAttempt. solve_traced. by apply traced_set. Qed.
Lemma transition_traced to eid t : ftraced (transition to eid t).
Proof. by refine (traced_transition to _ (with_status to) (fun p => mkFulfillmentTransitioned (fo_orderRef p) (fo_status p) to) eid t _ _). Qed.
Lemma with_carrier_traced c : ftraced (set_props (with_carrierReference c)).
Proof. by apply traced_set. Qed.
Lemma with_tracking_traced n : ftraced (set_props (with_trackingNumber n)).
Proof. by apply traced_set. Qed.
#[export] Hint Resolve recordAttempt_traced transition_traced with_carrier_traced with_tracking_traced : lifecycle.

Lemma settle_call_traced r eid now : ftraced (settle_call r eid now).
Proof. unfold settle_call, confirmReservation, failReservation. destruct (rr_confirmed r); solve_traced. Qed.
Lemma shipment_call_traced eids now s : ftraced (shipment_call eids now s).
Proof. unfold shipment_call, createShipment, assignTracking. solve_traced. destruct (ps_trackingNumber s); solve_traced. Qed.
Lemma webhook_call_traced kind eid now : ftraced (webhook_call kind eid now).
Proof. unfold webhook_call, recordCarrierWebhook. solve_traced. destruct (status_of_kind kind); solve_traced. Qed.
Lemma requestReservation_traced eid now : ftraced (requestReservation eid now).
Proof. unfold requestReservation. solve_traced. Qed.
#[export] Hint Resolve settle_call_traced shipment_call_traced webhook_call_traced requestReservation_traced : lifecycle.

(** No call of a use case sets the delivery time. *)
Definition undelivered (p : FulfillmentOrderProps) : Prop := fo_deliveredAt p = None.
Abbreviation leaves_undelivered := (keeps_fields (P := FulfillmentOrderProps) (E := FulfillmentTransitioned) undelivered).
Lemma recordAttempt_undelivered kind outcome t ref : leaves_undelivered (recordAttempt kind outcome t ref).
Proof. unfold recordAttempt. solve_fields. by apply fields_set. Qed.
Lemma transition_undelivered to eid t : leaves_undelivered (transition to eid t).
Proof. unfold transition. solve_fields. by apply fields_set. Qed.
Lemma with_carrier_undelivered c : leaves_undelivered (set_props (with_carrierReference c)).
Proof. by apply fields_set. Qed.
Lemma with_tracking_undelivered n : leaves_undelivered (set_props (with_trackingNumber n)).
Proof. by apply fields_set. Qed.
#[export] Hint Resolve recordAttempt_undelivered transition_undelivered with_carrier_undelivered with_tracking_undelivered : lifecycle.
Lemma settle_call_undelivered r eid now : leaves_undelivered (settle_call r eid now).
Proof. unfold settle_call, confirmReservation, failReservation. destruct (rr_confirmed r); solve_fields. Qed.
Lemma shipment_call_undelivered eids now s : leaves_undelivered (shipment_call eids now s).
Proof. unfold shipment_call, createShipment, assignTracking. solve_fields. destruct (ps_trackingNumber s); solve_fields. Qed.
Lemma webhook_call_undelivered kind eid now : leaves_undelivered (webhook_call kind eid now).
Proof. unfold webhook_call, recordCarrierWebhook. solve_fields. destruct (status_of_kind kind); solve_fields. Qed.
Lemma requestReservation_undelivered eid now : leaves_undelivered (requestReservation eid now).
Proof. unfold requestReservation. solve_fields. Qed.
#[export] Hint Resolve settle_call_undelivered shipment_call_undelivered webhook_call_undelivered requestReservation_undelivered : lifecycle.

Lemma fulfillment_exec_commit uuid t snaps s s' :
  fulfillment_exec uuid t snaps s = Ok s' -> lc_commit uuid undelivered leaves_undelivered snaps s s'.
Proof.
  destruct t; cbn; [|destruct snaps as [|s0 [|]]; try done..]; intros [r Hr]%committed_Ok.
  - unfold create_tx, save in Hr. minv. destruct v0. by eapply (commit_new _ _ _ _ _ _ (fulfillment_create _ _ _)).
  - unfold advance_tx, load, save in Hr. minv. eapply commit_loaded; eauto with lifecycle. by left.
  - unfold reserve_tx, load, save in Hr. minv.
    destruct (bool_decide _); [|destruct (bool_decide _)]; minv; [by eapply commit_idle..|]. eapply commit_loaded; eauto with lifecycle. by left.
  - unfold settle_reservation_tx, load, save in Hr. minv. destruct (negb _); minv; [by eapply commit_idle|]. eapply commit_loaded; eauto with lifecycle. by left.
  - unfold settle_shipment_tx, load, save in Hr. minv. eapply commit_loaded; eauto with lifecycle. by left.
  - unfold webhook_tx, load, save in Hr. minv. eapply commit_loaded; eauto with lifecycle. by left.
Qed.

(** What every schedule of the transactions leaves, from an empty store. *)
Definition unrecorded (c : FulfillmentOrderRow) : Prop := fr_deliveredAt c = None.
Lemma fulfillment_interleaved uuid l x :
  run_actions (fulfillment_do uuid) l (mkInterleaved empty_store []) = Some x ->
  lc_ok (il_store x) /\ rows_all unrecorded (il_store x).
Proof.
  apply (lc_interleaved uuid (fun s : FulfillmentStore => s) (fulfillment_exec uuid) undelivered leaves_undelivered unrecorded undelivered).
  - intros t snaps s s' Hs. rewrite list_fmap_id. by eapply fulfillment_exec_commit.
  - done.
  - done.
  - intros c log p Hd Hc. unfold undelivered. cbn in Hd. unfold toDomain in Hd. by minv.
  - done.
  - apply empty_store_ok.
  - by intros r ?%elem_of_nil.
Qed.

(** *** Attempts that cannot be stored *)

Section unstorable.
Context (uuid : string -> bool) `{!UuidColumn uuid}.

Abbreviation numbered := (Lifecycle.numbered (P := FulfillmentOrderProps) (C := FulfillmentOrderRow) (K := FulfillmentAttemptKind) (E := FulfillmentTransitioned)).
Lemma recordAttempt_numbered kind outcome t ref a u a' :
  recordAttempt kind outcome t ref a = (Ok u, a') -> agg_id a' = agg_id a /\ numbered a'.
Proof.
  intros Hm. unfold recordAttempt in Hm. agg_inv. split; [done|].
  match goal with Hi : UniqueEntityId_from _ = Ok _ |- _ => apply UniqueEntityId_from_Ok in Hi as [_ ->] end.
  eexists _, _. split; [apply elem_of_app; right; by apply list_elem_of_singleton|done].
Qed.
Lemma transition_numbered to eid t a u a' : transition to eid t a = (Ok u, a') -> agg_id a' = agg_id a /\ (numbered a -> numbered a').
Proof. intros Hm. unfold transition in Hm. agg_inv. done. Qed.
Lemma requestReservation_numbered eid t a u a' : requestReservation eid t a = (Ok u, a') -> agg_id a' = agg_id a /\ numbered a'.
Proof. intros (x & a1 & [Ht _]%transition_numbered & Hr)%bind_Ok. rewrite <- Ht. by apply recordAttempt_numbered in Hr. Qed.
Lemma shipment_call_numbered eids t s a u a' : shipment_call eids t s a = (Ok u, a') -> agg_id a' = agg_id a /\ numbered a'.
Proof.
  unfold shipment_call, createShipment, assignTracking. intros Hm. destruct (ps_trackingNumber s); agg_inv.
  all: repeat match goal with
  | Hr : recordAttempt _ _ _ _ _ = _ |- _ => apply recordAttempt_numbered in Hr as [? ?]
  | Hr : transition _ _ _ _ = _ |- _ => apply transition_numbered in Hr as [? ?]
  end; cbn in *; split; [congruence|tauto].
Qed.

(** Such a transaction fails, whatever the store holds. *)
Lemma reserve_tx_fails eid now t id first s a :
  uuid id = true -> findById id t s = Ok (Some a) -> fo_status (agg_props a) ∈ [created; failed] ->
  exists e s', reserve_tx uuid eid now t id first s s = (Err e, s').
Proof.
  intros Hid Hf Hst. unfold reserve_tx, load, save. rewrite (run_bind _ _ _ _ _ (lc_load_found _ _ _ _ _ _ Hf)). cbv zeta.
  apply elem_of_cons in Hst as [Hst|[Hst|[]%elem_of_nil]%elem_of_cons]; rewrite !bool_decide_false by (by rewrite Hst).
  all: apply (recorded_unstorable uuid); [by rewrite (lc_find_id _ _ _ _ Hf)|apply requestReservation_numbered].
Qed.
Lemma settle_shipment_tx_fails eids now t id shipment s a :
  uuid id = true -> findById id t s = Ok (Some a) -> exists e s', settle_shipment_tx uuid eids now t id shipment s s = (Err e, s').
Proof.
  intros Hid Hf. unfold settle_shipment_tx, load, save. rewrite (run_bind _ _ _ _ _ (lc_load_found _ _ _ _ _ _ Hf)).
  apply (recorded_unstorable uuid); [by rewrite (lc_find_id _ _ _ _ Hf)|]. apply shipment_call_numbered.
Qed.
End unstorable.

(** ** Properties *)

(** The column, and a run: an order opened, moved up to its packing, then delivered on the carrier's word. *)
Definition sample_id : string := "3f0c1b52-8a4e-4f27-9d36-5b7c1e2a9f04".
Definition sample_event : string := "0d5e7a14-6c2f-4b8e-a1d9-93f4c07b25e6".
Definition sample_items : list FulfillmentItem := [mkItem "sku-1" 2].
Definition sample_advances : list FulfillmentStatus :=
  [reservation_requested; confirmed; picking_started; picking_completed; packing_started; packing_completed].
Definition sample_opening : list (Action FulfillmentTx) := [Begin (TxCreate (fun _ => sample_id) "t1" "order-1" sample_items); Commit 0].
Definition sample_advance (to : FulfillmentStatus) : list (Action FulfillmentTx) :=
  [Begin (TxAdvance sample_event 1 "t1" sample_id to); Read 0; Commit 0].
Definition sample_packing : list (Action FulfillmentTx) := sample_opening ++ concat (sample_advance <$> sample_advances).
Definition sample_delivery : list (Action FulfillmentTx) :=
  sample_packing ++ concat (sample_advance <$> [shipment_created; tracking_assigned; shipment_dispatched; in_transit; out_for_delivery; delivered]).
Definition sample_after (l : list (Action FulfillmentTx)) : FulfillmentStore :=
  default empty_store (il_store <$> run_actions (fulfillment_do sample_uuid) l (mkInterleaved empty_store [])).
Definition sample_ports : Ports (X := list string) := mkPorts
  (fun _ _ _ => mret tt) (fun _ _ _ => mret tt) (fun _ _ _ => mret (mkReservationResult true None))
  (fun _ _ _ key => modify (cons key);; mret (mkProviderShipment "carrier" "c-1" None)).
Definition sample_world (l : list (Action FulfillmentTx)) : World (ServiceDb FulfillmentStore) (list string) := mkWorld (mkServiceDb (sample_after l) []) [].
Definition sample_order (l : list (Action FulfillmentTx)) : FulfillmentOrder :=
  match findById sample_id "t1" (sample_after l) with Ok (Some a) => a | _ => fulfillment_create "" "" [] end.

(** C17: however the transactions of all workers interleave, retries and crashes included, the transitions
    published for a fulfillment order, followed from [created] along the transition table, lead to the
    status its row has: no event is missing, doubled or out of order, and no status was reached that the
    table does not allow. *)
Theorem fulfillment_events_tell_the_status uuid l x id r :
  run_actions (fulfillment_do uuid) l (mkInterleaved empty_store []) = Some x -> row_of id (ls_rows (il_store x)) = Some r ->
  replay created (published_moves id (il_store x)) = Some (fr_status (row_props r)).
Proof. intros [Hok _]%fulfillment_interleaved Hr. exact (lc_ok_row id _ _ Hok Hr). Qed.

Lemma fulfillment_events_tell_the_status_witness :
  let x := mkInterleaved (sample_after sample_delivery) [] in
  let r := default (mkRow "" "" 0 (toRow (agg_props (sample_order [])))) (row_of sample_id (ls_rows (il_store x))) in
  run_actions (fulfillment_do sample_uuid) sample_delivery (mkInterleaved empty_store []) = Some x /\
  fr_status (row_props r) = delivered /\
  replay created (published_moves sample_id (il_store x)) = Some (fr_status (row_props r)).
Proof. cbv zeta. split; [by vm_compute|]. split; [by vm_compute|]. apply (fulfillment_events_tell_the_status sample_uuid sample_delivery); by vm_compute. Defined.

(** No schedule of the transactions ever records when a fulfillment order was delivered: the use cases
    reach [delivered] through the generic transition, and the method that sets the time is never called. *)
Theorem delivery_time_is_never_recorded uuid l x r :
  run_actions (fulfillment_do uuid) l (mkInterleaved empty_store []) = Some x -> r ∈ ls_rows (il_store x) ->
  fr_deliveredAt (row_props r) = None.
Proof. intros [_ Hall]%fulfillment_interleaved. apply Hall. Qed.

Lemma delivery_time_is_never_recorded_witness :
  let r := mkRow "t1" sample_id 13 (toRow (mkFulfillment "order-1" sample_items delivered [] [] None None None)) in
  run_actions (fulfillment_do sample_uuid) sample_delivery (mkInterleaved empty_store []) = Some (mkInterleaved (sample_after sample_delivery) []) /\
  r ∈ ls_rows (sample_after sample_delivery) /\ fr_deliveredAt (row_props r) = None.
Proof.
  cbv zeta. split; [by vm_compute|]. split; [by vm_compute; left|].
  apply (delivery_time_is_never_recorded sample_uuid sample_delivery (mkInterleaved (sample_after sample_delivery) [])); [by vm_compute|by vm_compute; left].
Defined.

(** Where the database takes only UUIDs for the ids of attempts, a fulfillment order that is waiting
    for its reservation is never reserved: the attempt's id, the order's with a number appended, is
    refused, the transaction is rolled back and Inventory is not called. A shipment is booked at the
    carrier first, and then is not stored. *)
Theorem unstorable_attempts_block_fulfillment uuid {X} (ports : Ports (X := X)) (w : World (ServiceDb FulfillmentStore) X) now tenantId id a :
  UuidColumn uuid -> uuid id = true -> findById id tenantId (sd_store (w_db w)) = Ok (Some a) ->
  (fo_status (agg_props a) ∈ [created; failed] ->
   forall eids, exists e, RequestReservation uuid ports eids now tenantId id w = (Err e, w)) /\
  (fo_status (agg_props a) = packing_completed ->
   forall eids shipment x', provider_createShipment ports tenantId id (fo_orderRef (agg_props a)) (shipment_key id) (w_out w) = (Ok shipment, x') ->
   exists e, CreateShipment uuid ports eids now tenantId id w = (Err e, mkWorld (w_db w) x')).
Proof.
  intros HU Hid Hf. split.
  - intros Hst eids. unfold RequestReservation.
    edestruct (retry_fails (MAX_CONCURRENCY_RETRIES - 1) (fun attempt => transactional
      (s0 ← read (fun s => s); stored (reserve_tx uuid (eids attempt) now tenantId id (bool_decide (attempt = 1%nat)) s0))) 1 w) as [e He].
    { intros j. destruct (reserve_tx_fails uuid (eids j) now tenantId id (bool_decide (j = 1%nat)) _ a Hid Hf Hst) as (e & s' & He).
      exists e. by eapply reading_fails_tail. }
    exists e. by apply bind_fails.
  - intros Hst eids shipment x' Hp. unfold CreateShipment. rewrite read_bind.
    assert (Hpre : shipment_precheck tenantId id (sd_store (w_db w)) = Ok (false, fo_orderRef (agg_props a), packing_completed)) by (unfold shipment_precheck; rewrite Hf; cbn; by rewrite Hst).
    rewrite Hpre. erewrite run_bind by reflexivity. cbv beta iota. erewrite run_bind by (unfold outside; by rewrite Hp).
    apply retry_fails. intros j. destruct (settle_shipment_tx_fails uuid (eids j) now tenantId id shipment _ a Hid Hf) as (e & s' & He).
    exists e. by eapply reading_fails.
Qed.

Lemma unstorable_attempts_block_fulfillment_witness :
  findById sample_id "t1" (sample_after sample_opening) = Ok (Some (sample_order sample_opening)) /\
  fo_status (agg_props (sample_order sample_opening)) = created /\
  (exists e, RequestReservation sample_uuid sample_ports (fun _ => sample_event) 1 "t1" sample_id (sample_world sample_opening) = (Err e, sample_world sample_opening)) /\
  fo_status (agg_props (sample_order sample_packing)) = packing_completed /\
  exists e, CreateShipment sample_uuid sample_ports (fun _ => (sample_event, sample_event)) 1 "t1" sample_id (sample_world sample_packing) =
    (Err e, mkWorld (w_db (sample_world sample_packing)) [shipment_key sample_id]).
Proof.
  split; [by vm_compute|]. split; [by vm_compute|]. split; [|split; [by vm_compute|]].
  - apply (unstorable_attempts_block_fulfillment sample_uuid sample_ports (sample_world sample_opening) 1 "t1" sample_id (sample_order sample_opening));
      [exact sample_uuid_column|by vm_compute|by vm_compute|left].
  - apply (unstorable_attempts_block_fulfillment sample_uuid sample_ports (sample_world sample_packing) 1 "t1" sample_id (sample_order sample_packing))
      with (shipment := mkProviderShipment "carrier" "c-1" None); [exact sample_uuid_column|by vm_compute..].
Defined.
