(* ===== verification/Shipments.v ===== *)
(** Shipping's shipments ([services/shipping/src]): the carrier's side of a delivery, with its label,
    tracking history and attempt log, its rows, and the use cases that buy and void labels, follow the
    carrier and retry. ShippingZones.v has the zones of the same service. The carrier, Fulfillment and
    Notifications are parameters. *)
From S2P Require Import Prelude Kernel Store Uuids Lifecycle.

#[global] Open Scope Z_scope.

(** ** Statuses ([value-objects/shipment-status.ts]) *)

Inductive ShipmentStatus :=
| created | label_created | voided | carrier_accepted | rejected | in_transit | out_for_delivery | delivered
| delivery_failed | returned | exception | cancelled | closed.
#[export] Instance ShipmentStatus_eq_dec : EqDecision ShipmentStatus.
Proof. solve_decision. Defined.

Definition status_name (s : ShipmentStatus) : string :=
  match s with
  | created => "created" | label_created => "label_created" | voided => "voided" | carrier_accepted => "carrier_accepted"
  | rejected => "rejected" | in_transit => "in_transit" | out_for_delivery => "out_for_delivery" | delivered => "delivered"
  | delivery_failed => "delivery_failed" | returned => "returned" | exception => "exception" | cancelled => "cancelled" | closed => "closed"
  end.

Definition TRANSITIONS (from : ShipmentStatus) : list ShipmentStatus :=
  match from with
  | created => [label_created; voided; cancelled]
  | label_created => [carrier_accepted; rejected; voided; cancelled]
  | voided => [created; closed]
  | carrier_accepted => [in_transit; cancelled]
  | rejected => [created; cancelled]
  | in_transit => [out_for_delivery; exception]
  | out_for_delivery => [delivered; delivery_failed]
  | delivered => [returned; closed]
  | delivery_failed => [in_transit; exception; closed]
  | returned => [closed]
  | exception => [created; closed]
  | cancelled => [closed]
  | closed => []
  end.
Definition canTransitionShipment (from to : ShipmentStatus) : bool := bool_decide (to ∈ TRANSITIONS from).
Definition RETRY_TARGET_BY_STATUS (s : ShipmentStatus) : option ShipmentStatus :=
  match s with rejected => Some created | delivery_failed => Some in_transit | exception => Some created | _ => None end.

Definition EVENT_TYPE_BY_STATUS (s : ShipmentStatus) : string :=
  match s with
  | created => "shipping.shipment.created"
  | label_created => "shipping.label.created"
  | voided => "shipping.label.voided"
  | carrier_accepted => "shipping.carrier.accepted"
  | rejected => "shipping.carrier.rejected"
  | in_transit => "shipping.shipment.in_transit"
  | out_for_delivery => "shipping.shipment.out_for_delivery"
  | delivered => "shipping.shipment.delivered"
  | delivery_failed => "shipping.shipment.delivery_failed"
  | returned => "shipping.shipment.returned"
  | exception => "shipping.shipment.exception"
  | cancelled => "shipping.shipment.cancelled"
  | closed => "shipping.shipment.closed"
  end.

(** ** Values ([value-objects]) *)

Definition Carrier_create (value : string) : result string := Guard.againstEmpty value "carrier".
Definition CarrierService_create (value : string) : result string := Guard.againstEmpty value "carrierService".
Definition TrackingNumber_create (value : string) : result string := Guard.againstEmpty value "trackingNumber".

Record ShippingLabel := mkLabel { lb_labelId : string; lb_trackingNumber : string }.
Definition ShippingLabel_create (labelId trackingNumber : string) : result ShippingLabel :=
  _ ← Guard.againstEmpty labelId "labelId";
  _ ← Guard.againstEmpty trackingNumber "trackingNumber";
  Ok (mkLabel labelId trackingNumber).

Record DeliveryEstimate := mkEstimate { es_windowStart : Z; es_windowEnd : Z }.
Definition DeliveryEstimate_create (windowStart windowEnd : Z) : result DeliveryEstimate :=
  if bool_decide (windowEnd < windowStart) then
    Err (ValidationError "Invalid delivery estimate" [mkFieldIssue "windowEnd" "must not be before windowStart"])
  else Ok (mkEstimate windowStart windowEnd).

Record ShipmentPackage := mkPackage { pk_reference : string; pk_itemRefs : list string; pk_weightGrams : Z }.
Definition ShipmentPackage_create (reference : string) (itemRefs : list string) (weightGrams : jsnum) : result ShipmentPackage :=
  _ ← Guard.againstEmpty reference "reference";
  if bool_decide (itemRefs = []) then Err (ValidationError "Invalid shipment package" [mkFieldIssue "itemRefs" "must not be empty"])
  else match integer_from 1 weightGrams with
       | Some n => Ok (mkPackage reference itemRefs n)
       | None => Err (ValidationError "Invalid shipment package" [mkFieldIssue "weightGrams" "must be a positive integer"])
       end.

Record TrackingEvent := mkTrackingEvent { te_id : string; te_description : string; te_occurredAt : Z; te_location : option string }.

(** ** The shipment ([domain/shipment.ts], [shipping-attempt.ts], [tracking-event.ts]) *)

Inductive ShippingAttemptKind := k_label | k_carrier | k_retry | k_carrier_webhook.
Abbreviation ShippingAttempt := (Attempt ShippingAttemptKind).

Record ShipmentProps := mkShipment {
  sh_fulfillmentRef : string; sh_packages : list ShipmentPackage; sh_status : ShipmentStatus; sh_attempts : list ShippingAttempt;
  sh_trackingEvents : list TrackingEvent; sh_carrier : option string; sh_carrierService : option string; sh_label : option ShippingLabel;
  sh_trackingNumber : option string; sh_deliveryEstimate : option DeliveryEstimate; sh_deliveredAt : option Z }.
Record ShipmentTransitioned := mkShipmentTransitioned {
  st_shipmentRef : string; st_type : string; st_fromStatus : ShipmentStatus; st_toStatus : ShipmentStatus }.
Abbreviation Shipment := (Aggregate ShipmentProps ShipmentTransitioned).
Abbreviation ShipmentM := (M Shipment).

Definition with_status (st : ShipmentStatus) (p : ShipmentProps) : ShipmentProps :=
  mkShipment (sh_fulfillmentRef p) (sh_packages p) st (sh_attempts p) (sh_trackingEvents p) (sh_carrier p) (sh_carrierService p) (sh_label p)
    (sh_trackingNumber p) (sh_deliveryEstimate p) (sh_deliveredAt p).
Definition with_attempts (l : list ShippingAttempt) (p : ShipmentProps) : ShipmentProps :=
  mkShipment (sh_fulfillmentRef p) (sh_packages p) (sh_status p) l (sh_trackingEvents p) (sh_carrier p) (sh_carrierService p) (sh_label p)
    (sh_trackingNumber p) (sh_deliveryEstimate p) (sh_deliveredAt p).
Definition with_trackingEvents (l : list TrackingEvent) (p : ShipmentProps) : ShipmentProps :=
  mkShipment (sh_fulfillmentRef p) (sh_packages p) (sh_status p) (sh_attempts p) l (sh_carrier p) (sh_carrierService p) (sh_label p)
    (sh_trackingNumber p) (sh_deliveryEstimate p) (sh_deliveredAt p).
Definition with_label (label : ShippingLabel) (carrier carrierService trackingNumber : string) (p : ShipmentProps) : ShipmentProps :=
  mkShipment (sh_fulfillmentRef p) (sh_packages p) (sh_status p) (sh_attempts p) (sh_trackingEvents p) (Some carrier) (Some carrierService)
    (Some label) (Some trackingNumber) (sh_deliveryEstimate p) (sh_deliveredAt p).
Definition with_deliveryEstimate (e : DeliveryEstimate) (p : ShipmentProps) : ShipmentProps :=
  mkShipment (sh_fulfillmentRef p) (sh_packages p) (sh_status p) (sh_attempts p) (sh_trackingEvents p) (sh_carrier p) (sh_carrierService p)
    (sh_label p) (sh_trackingNumber p) (Some e) (sh_deliveredAt p).
Definition with_deliveredAt (t : Z) (p : ShipmentProps) : ShipmentProps :=
  mkShipment (sh_fulfillmentRef p) (sh_packages p) (sh_status p) (sh_attempts p) (sh_trackingEvents p) (sh_carrier p) (sh_carrierService p)
    (sh_label p) (sh_trackingNumber p) (sh_deliveryEstimate p) (Some t).

Definition shipment_create (id fulfillmentRef : string) (packages : list ShipmentPackage) : Shipment :=
  new_agg (mkShipment fulfillmentRef packages created [] [] None None None None None None) id.

Definition recordAttempt (kind : ShippingAttemptKind) (outcome : AttemptOutcome) (at_ : Z) (reference : option string) : ShipmentM unit :=
  id ← gets agg_id;
  p ← gets agg_props;
  aid ← lift (UniqueEntityId_from (id +:+ show_nat (length (sh_attempts p))));
  set_props (with_attempts (sh_attempts p ++ [mkAttempt aid kind outcome reference at_])).

Definition transition (toStatus : ShipmentStatus) (eid : string) (at_ : Z) : ShipmentM unit :=
  id ← gets agg_id;
  p ← gets agg_props;
  throw_if (negb (canTransitionShipment (sh_status p) toStatus))
    (BusinessRuleError ("Cannot transition shipment from " +:+ quoted (status_name (sh_status p)) +:+ " to " +:+ quoted (status_name toStatus)));;
  set_props (with_status toStatus);;
  addDomainEvent eid at_ (mkShipmentTransitioned id (EVENT_TYPE_BY_STATUS toStatus) (sh_status p) toStatus).

Definition createLabel (label : ShippingLabel) (carrier carrierService trackingNumber eid : string) (at_ : Z) : ShipmentM unit :=
  set_props (with_label label carrier carrierService trackingNumber);;
  transition label_created eid at_;;
  recordAttempt k_label succeeded at_ None.
Definition voidLabel (eid : string) (at_ : Z) : ShipmentM unit :=
  transition voided eid at_;; recordAttempt k_label succeeded at_ (Some "voided").
Definition acceptByCarrier (eid : string) (at_ : Z) : ShipmentM unit :=
  transition carrier_accepted eid at_;; recordAttempt k_carrier succeeded at_ None.
Definition rejectByCarrier (reason eid : string) (at_ : Z) : ShipmentM unit :=
  transition rejected eid at_;; recordAttempt k_carrier failed_attempt at_ (Some reason).
Definition markInTransit := transition in_transit.
Definition markOutForDelivery := transition out_for_delivery.
Definition markDelivered (eid : string) (at_ : Z) : ShipmentM unit :=
  transition delivered eid at_;; set_props (with_deliveredAt at_).
Definition markDeliveryFailed (reason eid : string) (at_ : Z) : ShipmentM unit :=
  transition delivery_failed eid at_;; recordAttempt k_carrier failed_attempt at_ (Some reason).
Definition markReturned := transition returned.
Definition raiseException (reason eid : string) (at_ : Z) : ShipmentM unit :=
  transition exception eid at_;; recordAttempt k_carrier failed_attempt at_ (Some reason).
Definition cancel := transition cancelled.
Definition close := transition closed.

Definition retry (eid : string) (at_ : Z) : ShipmentM unit :=
  p ← gets agg_props;
  match RETRY_TARGET_BY_STATUS (sh_status p) with
  | None => throw (BusinessRuleError ("Cannot retry a shipment that is " +:+ status_name (sh_status p)))
  | Some target => transition target eid at_;; recordAttempt k_retry succeeded at_ None
  end.

(** The event's id is made of the shipment's, the type, a count and the time. *)
Definition raiseNonTransitionEvent (type : string) (at_ : Z) : ShipmentM unit :=
  id ← gets agg_id;
  p ← gets agg_props;
  n ← gets (fun a => length (agg_events a));
  addDomainEvent (id +:+ ":" +:+ type +:+ ":" +:+ show_nat n +:+ ":" +:+ pretty at_) at_
    (mkShipmentTransitioned id type (sh_status p) (sh_status p)).
Definition addTrackingEvent (description : string) (at_ : Z) (location : option string) : ShipmentM unit :=
  id ← gets agg_id;
  p ← gets agg_props;
  tid ← lift (UniqueEntityId_from (id +:+ show_nat (length (sh_trackingEvents p))));
  set_props (with_trackingEvents (sh_trackingEvents p ++ [mkTrackingEvent tid description at_ location]));;
  raiseNonTransitionEvent "shipping.tracking.updated" at_.
Definition setDeliveryEstimate (estimate : DeliveryEstimate) (at_ : Z) : ShipmentM unit :=
  set_props (with_deliveryEstimate estimate);;
  raiseNonTransitionEvent "shipping.tracking.estimate_set" at_.
Definition recordCarrierWebhook (kind : string) (at_ : Z) : ShipmentM unit := recordAttempt k_carrier_webhook succeeded at_ (Some kind).

(** ** Rows ([infrastructure/shipment.mapper.ts]) *)

Record ShipmentRow := mkShipmentRow {
  sr_fulfillmentRef : string; sr_packages : list (string * list string * jsnum); sr_status : ShipmentStatus; sr_carrier : option string;
  sr_carrierService : option string; sr_label : option (string * string); sr_trackingNumber : option string;
  sr_trackingEvents : list TrackingEvent; sr_deliveryEstimate : option (Z * Z); sr_deliveredAt : option Z }.

Abbreviation must := (Lifecycle.must "shipment").
Definition optional {A B} (f : A -> result B) (x : option A) : result (option B) :=
  match x with None => Ok None | Some a => b ← f a; Ok (Some b) end.

Definition toDomain (row : ShipmentRow) (attempts : list ShippingAttempt) : result ShipmentProps :=
  packages ← map_must (fun p => must (ShipmentPackage_create p.1.1 p.1.2 p.2) "shipment package") (sr_packages row);
  trackingEvents ← map_must (fun t => _ ← UniqueEntityId_from (te_id t); Ok t) (sr_trackingEvents row);
  carrier ← optional (fun c => must (Carrier_create c) "carrier") (sr_carrier row);
  carrierService ← optional (fun c => must (CarrierService_create c) "carrier service") (sr_carrierService row);
  label ← optional (fun l => must (ShippingLabel_create l.1 l.2) "shipping label") (sr_label row);
  trackingNumber ← optional (fun n => must (TrackingNumber_create n) "tracking number") (sr_trackingNumber row);
  deliveryEstimate ← optional (fun e => must (DeliveryEstimate_create e.1 e.2) "delivery estimate") (sr_deliveryEstimate row);
  Ok (mkShipment (sr_fulfillmentRef row) packages (sr_status row) attempts trackingEvents carrier carrierService label trackingNumber
        deliveryEstimate (sr_deliveredAt row)).

Definition toRow (p : ShipmentProps) : ShipmentRow :=
  mkShipmentRow (sh_fulfillmentRef p) ((fun k => (pk_reference k, pk_itemRefs k, NInt (pk_weightGrams k))) <$> sh_packages p) (sh_status p)
    (sh_carrier p) (sh_carrierService p) ((fun l => (lb_labelId l, lb_trackingNumber l)) <$> sh_label p) (sh_trackingNumber p)
    (sh_trackingEvents p) ((fun e => (es_windowStart e, es_windowEnd e)) <$> sh_deliveryEstimate p) (sh_deliveredAt p).

(** The columns an update writes. *)
Definition updated_columns (old new : ShipmentRow) : ShipmentRow :=
  mkShipmentRow (sr_fulfillmentRef old) (sr_packages old) (sr_status new) (sr_carrier new) (sr_carrierService new) (sr_label new)
    (sr_trackingNumber new) (sr_trackingEvents new) (sr_deliveryEstimate new) (sr_deliveredAt new).

(** An event whose type is that of the status it names is a transition. *)
Definition moved (e : ShipmentTransitioned) : option (ShipmentStatus * ShipmentStatus) :=
  if bool_decide (st_type e = EVENT_TYPE_BY_STATUS (st_toStatus e)) then Some (st_fromStatus e, st_toStatus e) else None.

#[export] Instance shipment_lifecycle : Lifecycle ShipmentProps ShipmentRow ShippingAttemptKind ShipmentStatus ShipmentTransitioned := {
  lc_name := "Shipment";
  lc_toRow := toRow;
  lc_toDomain := toDomain;
  lc_columns := updated_columns;
  lc_attempts := sh_attempts;
  lc_status := sh_status;
  lc_row_status := sr_status;
  lc_initial := created;
  lc_can := canTransitionShipment;
  lc_moved := moved }.
#[export] Instance shipment_lifecycle_laws : LifecycleLaws ShipmentProps ShipmentRow ShippingAttemptKind ShipmentStatus ShipmentTransitioned.
Proof. split; [done|done|]. intros c log p Hd. cbn in *. unfold toDomain in Hd. by minv. Qed.

Abbreviation ShipmentStore := (LifecycleStore ShipmentRow ShippingAttemptKind ShipmentTransitioned).
Abbreviation StoreM := (M ShipmentStore).

(** ** Use cases ([application])

    [uuid] is what a column of that type accepts. The transactions take the store their read saw. *)

Section use_cases.
Context (uuid : string -> bool).

Definition findById (id tenantId : string) (s : ShipmentStore) : result (option Shipment) := lc_find id tenantId s.
Definition save (a : Shipment) (tenantId : string) : StoreM unit := lc_save uuid a tenantId.
Definition load (id tenantId : string) (s0 : ShipmentStore) : StoreM Shipment := lc_load "Shipment not found" id tenantId s0.
Definition findByFulfillmentRef (fulfillmentRef tenantId : string) (s : ShipmentStore) : result (option Shipment) :=
  match find_first (fun r => bool_decide (sr_fulfillmentRef (row_props r) = fulfillmentRef) && bool_decide (row_tenant r = tenantId)) (ls_rows s) with
  | Some r => a ← hydrate s (rehydrate r); Ok (Some a)
  | None => Ok None
  end.

(** *** Opening ([create-shipment.use-case.ts]) *)

Definition build_packages (packages : list (string * list string * jsnum)) : result (list ShipmentPackage) :=
  map_must (fun p => ShipmentPackage_create p.1.1 p.1.2 p.2) packages.
Definition create_tx (gen : nat -> string) (tenantId fulfillmentRef : string) (packages : list ShipmentPackage) : StoreM Shipment :=
  id ← lift (UniqueEntityId_from (gen 0%nat));
  let a := shipment_create id fulfillmentRef packages in
  save a tenantId;;
  mret a.
Definition CreateShipment (gen : nat -> string) (tenantId fulfillmentRef : string) (packages : list (string * list string * jsnum)) : StoreM Shipment :=
  lift (_ ← Guard.againstEmpty fulfillmentRef "fulfillmentRef"; Ok tt);;
  throw_if (bool_decide (packages = [])) (ValidationError "Invalid shipment" [mkFieldIssue "packages" "must not be empty"]);;
  packages ← lift (build_packages packages);
  in_txn (create_tx gen tenantId fulfillmentRef packages).

(** *** Transactions *)

Definition advance_tx (eid : string) (now : Z) (tenantId id : string) (toStatus : ShipmentStatus) (s0 : ShipmentStore) : StoreM Shipment :=
  a ← load id tenantId s0;
  a ← call a (transition toStatus eid now);
  save a tenantId;;
  mret a.

Record LabelValues := mkLabelValues { lv_label : ShippingLabel; lv_carrier : string; lv_carrierService : string; lv_trackingNumber : string }.
(** The settlements: with whether they changed anything. *)
Definition settle_label_tx (eid : string) (now : Z) (tenantId id : string) (v : LabelValues) (s0 : ShipmentStore) : StoreM (Shipment * bool) :=
  a ← load id tenantId s0;
  if bool_decide (sh_status (agg_props a) = label_created) then mret (a, false)
  else
    a ← call a (createLabel (lv_label v) (lv_carrier v) (lv_carrierService v) (lv_trackingNumber v) eid now);
    save a tenantId;;
    mret (a, true).
Definition settle_void_tx (eid : string) (now : Z) (tenantId id : string) (s0 : ShipmentStore) : StoreM (Shipment * bool) :=
  a ← load id tenantId s0;
  if bool_decide (sh_status (agg_props a) = voided) then mret (a, false)
  else
    a ← call a (voidLabel eid now);
    save a tenantId;;
    mret (a, true).
Definition tracking_tx (now : Z) (tenantId id description : string) (location : option string) (s0 : ShipmentStore) : StoreM Shipment :=
  a ← load id tenantId s0;
  a ← call a (addTrackingEvent description now location);
  save a tenantId;;
  mret a.
Definition retry_tx (eid : string) (now : Z) (tenantId id : string) (s0 : ShipmentStore) : StoreM Shipment :=
  a ← load id tenantId s0;
  a ← call a (retry eid now);
  save a tenantId;;
  mret a.

(** Kinds without a status are recorded only. (A name every JavaScript object inherits is not a kind.) *)
Definition KIND_TO_STATUS : list (string * ShipmentStatus) :=
  [("accepted", carrier_accepted); ("rejected", rejected); ("in_transit", in_transit); ("out_for_delivery", out_for_delivery);
   ("delivered", delivered); ("delivery_failed", delivery_failed); ("returned", returned); ("exception", exception)].
Definition status_of_kind (kind : string) : option ShipmentStatus := snd <$> find_first (fun e => bool_decide (e.1 = kind)) KIND_TO_STATUS.
Definition webhook_call (kind eid : string) (now : Z) : ShipmentM unit :=
  recordCarrierWebhook kind now;;
  match status_of_kind kind with Some toStatus => transition toStatus eid now | None => mret tt end.
Definition webhook_tx (eid : string) (now : Z) (tenantId id kind : string) (s0 : ShipmentStore) : StoreM Shipment :=
  a ← load id tenantId s0;
  a ← call a (webhook_call kind eid now);
  save a tenantId;;
  mret a.

(** *** The use cases over the world *)

Context {X : Type}.
Record ProviderLabel := mkProviderLabel { pl_carrier : string; pl_carrierService : string; pl_labelId : string; pl_trackingNumber : string }.
Record Ports := mkPorts {
  reportShipmentOutcome : string -> string -> M X unit;
  notify : string -> string -> M X unit;
  provider_createLabel : string -> string -> string -> M X ProviderLabel;
  provider_voidLabel : string -> string -> M X unit }.
Context (ports : Ports).
Abbreviation ShipmentWorld := (World (ServiceDb ShipmentStore) X).

Definition notifyBestEffort (a : Shipment) : M ShipmentWorld unit :=
  let ref := sh_fulfillmentRef (agg_props a) in let status := status_name (sh_status (agg_props a)) in
  best_effort (outside (reportShipmentOutcome ports ref status);; outside (notify ports ref status)).

Record StatusOutput := mkStatusOutput { so_id : string; so_status : ShipmentStatus }.
Definition output (a : Shipment) : StatusOutput := mkStatusOutput (agg_id a) (sh_status (agg_props a)).

Definition AdvanceShipment (eid : string) (now : Z) (tenantId id : string) (toStatus : ShipmentStatus) : M ShipmentWorld StatusOutput :=
  transactional (
    s0 ← read (fun s => s);
    a ← stored (advance_tx eid now tenantId id toStatus s0);
    notifyBestEffort a;;
    mret (output a)).

Definition MAX_CONCURRENCY_RETRIES : nat := 5.
Definition refused (from to : ShipmentStatus) : DomainError :=
  BusinessRuleError ("Cannot transition shipment from " +:+ quoted (status_name from) +:+ " to " +:+ quoted (status_name to)).

(** [CreateLabel]: a precheck, the carrier, then the settlement; the key names the shipment only. *)
Definition label_key (id : string) : string := id +:+ ":label".
Definition label_precheck (tenantId id : string) (s0 : ShipmentStore) : result (bool * string * ShipmentStatus) :=
  found ← findById id tenantId s0;
  match found with
  | None => Err (NotFoundError "Shipment not found")
  | Some a =>
      let st := sh_status (agg_props a) in
      if bool_decide (st = label_created) then Ok (true, sh_fulfillmentRef (agg_props a), st)
      else if negb (canTransitionShipment st label_created) then Err (refused st label_created)
      else Ok (false, sh_fulfillmentRef (agg_props a), st)
  end.
Definition label_values (l : ProviderLabel) : result LabelValues :=
  carrier ← Carrier_create (pl_carrier l);
  carrierService ← CarrierService_create (pl_carrierService l);
  label ← ShippingLabel_create (pl_labelId l) (pl_trackingNumber l);
  trackingNumber ← TrackingNumber_create (pl_trackingNumber l);
  Ok (mkLabelValues label carrier carrierService trackingNumber).
Definition CreateLabel (eids : nat -> string) (now : Z) (tenantId id : string) : M ShipmentWorld StatusOutput :=
  s0 ← read (fun s => s);
  '(alreadyLabeled, fulfillmentRef, status) ← lift (label_precheck tenantId id s0);
  if (alreadyLabeled : bool) then mret (mkStatusOutput id status)
  else
    providerLabel ← outside (provider_createLabel ports id fulfillmentRef (label_key id));
    v ← lift (label_values providerLabel);
    retry_conflicts MAX_CONCURRENCY_RETRIES (fun attempt =>
      transactional (
        s0 ← read (fun s => s);
        '(a, settled) ← stored (settle_label_tx (eids attempt) now tenantId id v s0);
        (if (settled : bool) then notifyBestEffort a else mret tt);;
        mret (output a))).

(** [VoidLabel] *)
Definition void_key (id : string) : string := id +:+ ":void".
Definition void_precheck (tenantId id : string) (s0 : ShipmentStore) : result (bool * string * ShipmentStatus) :=
  found ← findById id tenantId s0;
  match found with
  | None => Err (NotFoundError "Shipment not found")
  | Some a =>
      let st := sh_status (agg_props a) in
      match sh_label (agg_props a) with
      | None => Err (ValidationError "Cannot void a label before one is created" [])
      | Some label =>
          if bool_decide (st = voided) then Ok (true, lb_labelId label, st)
          else if negb (canTransitionShipment st voided) then Err (refused st voided)
          else Ok (false, lb_labelId label, st)
      end
  end.
Definition VoidLabel (eids : nat -> string) (now : Z) (tenantId id : string) : M ShipmentWorld StatusOutput :=
  s0 ← read (fun s => s);
  '(alreadyVoided, labelId, status) ← lift (void_precheck tenantId id s0);
  if (alreadyVoided : bool) then mret (mkStatusOutput id status)
  else
    outside (provider_voidLabel ports labelId (void_key id));;
    retry_conflicts MAX_CONCURRENCY_RETRIES (fun attempt =>
      transactional (
        s0 ← read (fun s => s);
        '(a, settled) ← stored (settle_void_tx (eids attempt) now tenantId id s0);
        (if (settled : bool) then notifyBestEffort a else mret tt);;
        mret (output a))).

Definition UpdateTracking (now : Z) (tenantId id description : string) (location : option string) : M ShipmentWorld StatusOutput :=
  lift (_ ← Guard.againstEmpty description "description"; Ok tt);;
  transactional (
    s0 ← read (fun s => s);
    a ← stored (tracking_tx now tenantId id description location s0);
    mret (output a)).
Definition RetryShipment (eid : string) (now : Z) (tenantId id : string) : M ShipmentWorld StatusOutput :=
  transactional (
    s0 ← read (fun s => s);
    a ← stored (retry_tx eid now tenantId id s0);
    notifyBestEffort a;;
    mret (output a)).

(** [RecordCarrierWebhook]: the set is marked after the save. *)
Definition RecordCarrierWebhook (eid : string) (now : Z) (tenantId id carrier eventId kind : string) : M ShipmentWorld (StatusOutput * bool) :=
  lift (_ ← Guard.againstEmpty carrier "carrier"; _ ← Guard.againstEmpty eventId "eventId"; Ok tt);;
  transactional (
    s0 ← read (fun s => s);
    a ← stored (load id tenantId s0);
    processed ← hasProcessed carrier eventId tenantId;
    if (processed : bool) then mret (output a, true)
    else
      a ← stored (webhook_tx eid now tenantId id kind s0);
      markProcessed carrier eventId tenantId;;
      mret (output a, false)).

Definition GetShipmentByFulfillment (tenantId fulfillmentRef : string) : M ShipmentWorld Shipment :=
  found ← read (findByFulfillmentRef fulfillmentRef tenantId);
  found ← lift found;
  match found with Some a => mret a | None => throw (NotFoundError "No shipment found for this fulfillment order") end.

End use_cases.

(** ** The transactions of all workers *)

Inductive ShipmentTx :=
| TxCreate (gen : nat -> string) (tenantId fulfillmentRef : string) (packages : list ShipmentPackage)
| TxAdvance (eid : string) (now : Z) (tenantId id : string) (toStatus : ShipmentStatus)
| TxSettleLabel (eid : string) (now : Z) (tenantId id : string) (v : LabelValues)
| TxSettleVoid (eid : string) (now : Z) (tenantId id : string)
| TxTracking (now : Z) (tenantId id description : string) (location : option string)
| TxRetry (eid : string) (now : Z) (tenantId id : string)
| TxWebhook (eid : string) (now : Z) (tenantId id kind : string).

Section transactions.
Context (uuid : string -> bool).

Definition shipment_exec (t : ShipmentTx) (snaps : list ShipmentStore) (s : ShipmentStore) : result ShipmentStore :=
  match t, snaps with
  | TxCreate gen tenantId fulfillmentRef packages, _ => committed (create_tx uuid gen tenantId fulfillmentRef packages) s
  | TxAdvance eid now tenantId id toStatus, [s0] => committed (advance_tx uuid eid now tenantId id toStatus s0) s
  | TxSettleLabel eid now tenantId id v, [s0] => committed (settle_label_tx uuid eid now tenantId id v s0) s
  | TxSettleVoid eid now tenantId id, [s0] => committed (settle_void_tx uuid eid now tenantId id s0) s
  | TxTracking now tenantId id description location, [s0] => committed (tracking_tx uuid now tenantId id description location s0) s
  | TxRetry eid now tenantId id, [s0] => committed (retry_tx uuid eid now tenantId id s0) s
  | TxWebhook eid now tenantId id kind, [s0] => committed (webhook_tx uuid eid now tenantId id kind s0) s
  | _, _ => Err (UnexpectedError "unreachable")
  end.
Definition shipment_do := il_do shipment_exec.

End transactions.

(** What the methods publish leads where they go; the two that publish something else stay. *)
Abbreviation straced := (traced (P := ShipmentProps) (C := ShipmentRow) (K := ShippingAttemptKind) (E := ShipmentTransitioned)).
Lemma shipment_recordAttempt_traced kind outcome t ref : straced (recordAttempt kind outcome t ref).
Proof. unfold recordAttempt. solve_traced. by apply traced_set. Qed.
Lemma shipment_transition_traced to eid t : straced (transition to eid t).
Proof.
  intros a u a' Hm. refine (traced_transition to (fun p => refused (sh_status p) to) (with_status to)
    (fun p => mkShipmentTransitioned (agg_id a) (EVENT_TYPE_BY_STATUS to) (sh_status p) to) eid t _ _ a u a' Hm).
  all: intros p; cbn; unfold moved; by rewrite ?bool_decide_true.
Qed.
Lemma with_label_traced l c cs n : straced (set_props (with_label l c cs n)).
Proof. by apply traced_set. Qed.
Lemma shipment_with_tracking_traced l : straced (set_props (with_trackingEvents l)).
Proof. by apply traced_set. Qed.
Lemma addTrackingEvent_traced d t loc : straced (addTrackingEvent d t loc).
Proof.
  unfold addTrackingEvent, raiseNonTransitionEvent. solve_traced; [apply shipment_with_tracking_traced|]. apply traced_note. cbn. unfold moved. cbn.
  rewrite bool_decide_false; [done|]. by match goal with |- context [EVENT_TYPE_BY_STATUS ?s] => destruct s end.
Qed.
#[export] Hint Resolve shipment_recordAttempt_traced shipment_transition_traced with_label_traced addTrackingEvent_traced : lifecycle.
Lemma createLabel_traced l c cs n eid t : straced (createLabel l c cs n eid t).
Proof. unfold createLabel. solve_traced. Qed.
Lemma voidLabel_traced eid t : straced (voidLabel eid t).
Proof. unfold voidLabel. solve_traced. Qed.
Lemma retry_traced eid t : straced (retry eid t).
Proof. unfold retry. solve_traced. destruct (RETRY_TARGET_BY_STATUS _); [solve_traced|apply traced_throw]. Qed.
Lemma shipment_webhook_call_traced kind eid now : straced (webhook_call kind eid now).
Proof. unfold webhook_call, recordCarrierWebhook. solve_traced. destruct (status_of_kind kind); solve_traced. Qed.
#[export] Hint Resolve createLabel_traced voidLabel_traced retry_traced shipment_webhook_call_traced : lifecycle.

Lemma shipment_exec_commit uuid t snaps s s' :
  shipment_exec uuid t snaps s = Ok s' -> lc_commit uuid (fun _ => True) (fun _ => True) snaps s s'.
Proof.
  destruct t; cbn; [|destruct snaps as [|s0 [|]]; try done..]; intros [r Hr]%committed_Ok.
  - unfold create_tx, save in Hr. minv. destruct v0. by eapply (commit_new _ _ _ _ _ _ (shipment_create _ _ _)).
  - unfold advance_tx, load, save in Hr. minv. eapply commit_loaded; eauto with lifecycle. by left.
  - unfold settle_label_tx, load, save in Hr. minv. destruct (bool_decide _); minv; [by eapply commit_idle|]. eapply commit_loaded; eauto with lifecycle. by left.
  - unfold settle_void_tx, load, save in Hr. minv. destruct (bool_decide _); minv; [by eapply commit_idle|]. eapply commit_loaded; eauto with lifecycle. by left.
  - unfold tracking_tx, load, save in Hr. minv. eapply commit_loaded; eauto with lifecycle. by left.
  - unfold retry_tx, load, save in Hr. minv. eapply commit_loaded; eauto with lifecycle. by left.
  - unfold webhook_tx, load, save in Hr. minv. eapply commit_loaded; eauto with lifecycle. by left.
Qed.

(** What every schedule of the transactions leaves, from an empty store. *)
Lemma shipment_interleaved uuid l x :
  run_actions (shipment_do uuid) l (mkInterleaved empty_store []) = Some x -> lc_ok (il_store x).
Proof.
  intros Hl. apply (lc_interleaved uuid (fun s : ShipmentStore => s) (shipment_exec uuid) (fun _ => True) (fun _ => True) (fun _ => True) (fun _ => True) l empty_store x); try done.
  - intros t snaps s s' Hs. rewrite list_fmap_id. by eapply shipment_exec_commit.
  - apply empty_store_ok.
Qed.

(** *** What cannot be stored *)

Section unstorable.
Context (uuid : string -> bool) `{!UuidColumn uuid}.
Abbreviation numbered := (Lifecycle.numbered (P := ShipmentProps) (C := ShipmentRow) (K := ShippingAttemptKind) (E := ShipmentTransitioned)).

Lemma shipment_recordAttempt_numbered kind outcome t ref a u a' :
  recordAttempt kind outcome t ref a = (Ok u, a') -> agg_id a' = agg_id a /\ numbered a'.
Proof.
  intros Hm. unfold recordAttempt in Hm. agg_inv. split; [done|].
  match goal with Hi : UniqueEntityId_from _ = Ok _ |- _ => apply UniqueEntityId_from_Ok in Hi as [_ ->] end.
  eexists _, _. split; [apply elem_of_app; right; by apply list_elem_of_singleton|done].
Qed.
Lemma transition_id to eid t a u a' : transition to eid t a = (Ok u, a') -> agg_id a' = agg_id a.
Proof. intros Hm. unfold transition in Hm. by agg_inv. Qed.
Lemma createLabel_numbered l c cs n eid t a u a' : createLabel l c cs n eid t a = (Ok u, a') -> agg_id a' = agg_id a /\ numbered a'.
Proof.
  intros (x & a1 & ->%set_props_Ok & (y & a2 & Ht%transition_id & Hr)%bind_Ok)%bind_Ok. apply shipment_recordAttempt_numbered in Hr as [Hi Hn]. split; [|done]. by rewrite Hi, Ht.
Qed.
Lemma retry_numbered eid t a u a' : retry eid t a = (Ok u, a') -> agg_id a' = agg_id a /\ numbered a'.
Proof.
  intros (p & a1 & [_ ->]%gets_Ok & Hr)%bind_Ok. destruct (RETRY_TARGET_BY_STATUS _); [|done]. apply bind_Ok in Hr as (y & a2 & Ht%transition_id & Hr).
  apply shipment_recordAttempt_numbered in Hr as [Hi Hn]. split; [|done]. by rewrite Hi.
Qed.
(** The event of a scan is named after the shipment. *)
Lemma addTrackingEvent_unstorable d t loc a u a' :
  uuid (agg_id a) = true -> addTrackingEvent d t loc a = (Ok u, a') -> unstorable_events uuid (agg_events a') = true.
Proof.
  intros Hid Hm. unfold addTrackingEvent, raiseNonTransitionEvent in Hm. agg_inv. cbn. unfold unstorable_events. rewrite existsb_app. apply orb_true_iff. right.
  cbn. rewrite orb_false_r. apply negb_true_iff, not_true_iff_false. intros Hu. apply uuid_digits in Hid, Hu. rewrite !hex_digits_app in Hu.
  change (hex_digits "shipping.tracking.updated") with 6%nat in Hu. lia.
Qed.

Lemma settle_label_tx_fails eid now t id v s a :
  uuid id = true -> findById id t s = Ok (Some a) -> sh_status (agg_props a) = created -> exists e s', settle_label_tx uuid eid now t id v s s = (Err e, s').
Proof.
  intros Hid Hf Hst. unfold settle_label_tx, load, save. rewrite (run_bind _ _ _ _ _ (lc_load_found _ _ _ _ _ _ Hf)).
  rewrite bool_decide_false by (by rewrite Hst). apply (recorded_unstorable uuid); [by rewrite (lc_find_id _ _ _ _ Hf)|]. apply createLabel_numbered.
Qed.
Lemma retry_tx_fails eid now t id s a : uuid id = true -> findById id t s = Ok (Some a) -> exists e s', retry_tx uuid eid now t id s s = (Err e, s').
Proof.
  intros Hid Hf. unfold retry_tx, load, save. rewrite (run_bind _ _ _ _ _ (lc_load_found _ _ _ _ _ _ Hf)).
  apply (recorded_unstorable uuid); [by rewrite (lc_find_id _ _ _ _ Hf)|]. apply retry_numbered.
Qed.
Lemma tracking_tx_fails now t id d loc s a : uuid id = true -> findById id t s = Ok (Some a) -> exists e s', tracking_tx uuid now t id d loc s s = (Err e, s').
Proof.
  intros Hid Hf. unfold tracking_tx, load, save. rewrite (run_bind _ _ _ _ _ (lc_load_found _ _ _ _ _ _ Hf)).
  apply (published_unstorable uuid). intros u a'. apply addTrackingEvent_unstorable. by rewrite (lc_find_id _ _ _ _ Hf).
Qed.
End unstorable.

(** *** Labels *)

Lemma shipment_notify_quiet {X} (ports : Ports (X := X)) (a : Shipment) (b : bool) :
  quiet ((if b then notifyBestEffort ports a else mret tt);; mret (output a)).
Proof.
  apply off_db_quiet_bind; [|intros ?; apply off_db_quiet_ret]. destruct b; [|apply off_db_quiet_ret].
  apply quiet_best_effort, off_db_bind; [|intros ?]; apply off_db_outside.
Qed.

(** The row a settlement leaves has the label it was given. *)
Lemma settle_label_row uuid eid now t id v s a b s' :
  rows_wf (ls_rows s) -> settle_label_tx uuid eid now t id v s s = (Ok (a, b), s') -> (exists a0, findById id t s = Ok (Some a0) /\ sh_status (agg_props a0) = created) ->
  exists r, row_of id (ls_rows s') = Some r /\ sr_status (row_props r) = label_created /\
    sr_label (row_props r) = Some (lb_labelId (lv_label v), lb_trackingNumber (lv_label v)).
Proof.
  intros Hw Hm (a0 & Hf & Hst). unfold settle_label_tx, load, save in Hm. rewrite (run_bind _ _ _ _ _ (lc_load_found _ _ _ _ _ _ Hf)) in Hm.
  rewrite bool_decide_false in Hm by (by rewrite Hst). unfold call, run_on in Hm. minv.
  destruct (createLabel _ _ _ _ _ _ a0) as [[u|e] a1] eqn:Hc; [|done]. injection Hcall as <-.
  unfold createLabel, transition, recordAttempt in Hc. agg_inv. destruct v1.
  apply (lc_save_found uuid id t s a0) in Hcall0 as (r & Hid & _ & _ & _ & _ & Hl & _); [|done|done|reflexivity|done|done|done].
  eexists. split; [rewrite Hl, bool_decide_true by done; reflexivity|]. done.
Qed.

(** ** Properties *)

(** A run: a shipment opened, labelled, voided and reset; the ids of [sample_all] are stored whatever they
    are. The carrier numbers its labels and answers a key it knows with the label it issued. *)
Definition sample_all (_ : string) : bool := true.
Definition sample_id : string := "7c9e6679-7425-40de-944b-e07fc1f90ae7".
Definition sample_event : string := "0d5e7a14-6c2f-4b8e-a1d9-93f4c07b25e6".
Definition sample_packages : list ShipmentPackage := [mkPackage "p-1" ["sku-1"] 500].
Definition sample_opening : ShipmentStore := snd (create_tx sample_all (fun _ => sample_id) "t1" "f-1" sample_packages empty_store).
Definition sample_issued (x : list (string * ProviderLabel)) (k : string) : option ProviderLabel := snd <$> find_first (fun e => bool_decide (e.1 = k)) x.
Definition sample_ports : Ports (X := list (string * ProviderLabel)) := mkPorts (fun _ _ => mret tt) (fun _ _ => mret tt)
  (fun _ _ k x => match sample_issued x k with
                  | Some l => (Ok l, x)
                  | None => let l := mkProviderLabel "carrier" "ground" ("L" +:+ show_nat (length x)) ("T" +:+ show_nat (length x)) in (Ok l, (k, l) :: x)
                  end)
  (fun _ _ => mret tt).
Definition sample_world : World (ServiceDb ShipmentStore) (list (string * ProviderLabel)) := mkWorld (mkServiceDb sample_opening []) [].
Definition sample_labelled := snd (CreateLabel sample_all sample_ports (fun _ => sample_event) 1 "t1" sample_id sample_world).
Definition sample_voided := snd (VoidLabel sample_all sample_ports (fun _ => sample_event) 2 "t1" sample_id sample_labelled).
Definition sample_reset := snd (AdvanceShipment sample_all sample_ports sample_event 3 "t1" sample_id created sample_voided).
Definition sample_relabelled := snd (CreateLabel sample_all sample_ports (fun _ => sample_event) 4 "t1" sample_id sample_reset).
Definition sample_shipment (w : World (ServiceDb ShipmentStore) (list (string * ProviderLabel))) : Shipment :=
  match findById sample_id "t1" (sd_store (w_db w)) with Ok (Some a) => a | _ => shipment_create "" "" [] end.
Definition sample_schedule : list (Action ShipmentTx) :=
  [Begin (TxCreate (fun _ => sample_id) "t1" "f-1" sample_packages); Commit 0;
   Begin (TxTracking 5 "t1" sample_id "picked up" None); Begin (TxAdvance sample_event 6 "t1" sample_id cancelled);
   Read 0; Read 1; Commit 1; Again 0; Read 0; Commit 0].
Definition sample_scheduled : ShipmentStore :=
  default empty_store (il_store <$> run_actions (shipment_do sample_all) sample_schedule (mkInterleaved empty_store [])).

(** However the transactions of all workers interleave, retries and crashes included, the transitions
    published for a shipment, followed from [created] along the transition table, lead to the status its row
    has; what is published about scans in between names no transition. *)
Theorem shipment_events_tell_the_status uuid l x id r :
  run_actions (shipment_do uuid) l (mkInterleaved empty_store []) = Some x -> row_of id (ls_rows (il_store x)) = Some r ->
  replay created (published_moves id (il_store x)) = Some (sr_status (row_props r)).
Proof. intros Hok%shipment_interleaved Hr. exact (lc_ok_row id _ _ Hok Hr). Qed.

Lemma shipment_events_tell_the_status_witness :
  let x := mkInterleaved sample_scheduled [] in
  let r := default (mkRow "" "" 0 (toRow (agg_props (shipment_create "" "" [])))) (row_of sample_id (ls_rows (il_store x))) in
  run_actions (shipment_do sample_all) sample_schedule (mkInterleaved empty_store []) = Some x /\
  length (ls_outbox (il_store x)) = 2%nat /\ sr_status (row_props r) = cancelled /\
  replay created (published_moves sample_id (il_store x)) = Some (sr_status (row_props r)).
Proof.
  cbv zeta. split; [by vm_compute|]. split; [by vm_compute|]. split; [by vm_compute|].
  apply (shipment_events_tell_the_status sample_all sample_schedule); by vm_compute.
Defined.

(** Where the database takes only UUIDs for the ids of attempts and of published events, no label is
    ever stored, though the carrier issues one each time it is asked, no scan is ever stored, and no retry
    succeeds: the ids are the shipment's with something appended. *)
Theorem labels_and_scans_cannot_be_stored uuid {X} (ports : Ports (X := X)) (w : World (ServiceDb ShipmentStore) X) now tenantId id a :
  UuidColumn uuid -> uuid id = true -> findById id tenantId (sd_store (w_db w)) = Ok (Some a) ->
  (sh_status (agg_props a) = created ->
   forall eids l x', provider_createLabel ports id (sh_fulfillmentRef (agg_props a)) (label_key id) (w_out w) = (Ok l, x') ->
   exists e, CreateLabel uuid ports eids now tenantId id w = (Err e, mkWorld (w_db w) x')) /\
  (forall description location, exists e, UpdateTracking uuid now tenantId id description location w = (Err e, w)) /\
  (forall eid, exists e, RetryShipment uuid ports eid now tenantId id w = (Err e, w)).
Proof.
  intros HU Hid Hf. split; [|split].
  - intros Hst eids l x' Hp. unfold CreateLabel. rewrite read_bind.
    assert (Hpre : label_precheck tenantId id (sd_store (w_db w)) = Ok (false, sh_fulfillmentRef (agg_props a), created)) by (unfold label_precheck; rewrite Hf; cbn; by rewrite Hst).
    rewrite Hpre. erewrite run_bind by reflexivity. cbv beta iota. erewrite run_bind by (unfold outside; by rewrite Hp).
    destruct (label_values l) as [v|e]; [|by exists e]. erewrite run_bind by reflexivity.
    apply retry_fails. intros j. destruct (settle_label_tx_fails uuid (eids j) now tenantId id v _ a Hid Hf Hst) as (e & s' & He).
    exists e. by eapply (reading_fails (fun s0 => settle_label_tx uuid (eids j) now tenantId id v s0)).
  - intros d loc. unfold UpdateTracking. destruct (Guard.againstEmpty d "description") as [d'|e]; [|by exists e].
    erewrite run_bind by reflexivity. destruct (tracking_tx_fails uuid now tenantId id d loc _ a Hid Hf) as (e & s' & He).
    exists e. by eapply reading_fails.
  - intros eid. unfold RetryShipment. destruct (retry_tx_fails uuid eid now tenantId id _ a Hid Hf) as (e & s' & He).
    exists e. by eapply reading_fails.
Qed.

Lemma labels_and_scans_cannot_be_stored_witness :
  sh_status (agg_props (sample_shipment sample_world)) = created /\
  (exists e, CreateLabel sample_uuid sample_ports (fun _ => sample_event) 1 "t1" sample_id sample_world =
    (Err e, mkWorld (w_db sample_world) [(label_key sample_id, mkProviderLabel "carrier" "ground" "L0" "T0")])) /\
  exists e, UpdateTracking sample_uuid 1 "t1" sample_id "picked up" None sample_world = (Err e, sample_world).
Proof.
  assert (Hf : findById sample_id "t1" (sd_store (w_db sample_world)) = Ok (Some (sample_shipment sample_world))) by by vm_compute.
  assert (Hst : sh_status (agg_props (sample_shipment sample_world)) = created) by by vm_compute.
  assert (Hid : sample_uuid sample_id = true) by by vm_compute.
  destruct (labels_and_scans_cannot_be_stored sample_uuid sample_ports sample_world 1 "t1" sample_id _ sample_uuid_column Hid Hf) as (Hl & Ht & _).
  split; [exact Hst|]. split; [|exact (Ht "picked up" None)].
  exact (Hl Hst (fun _ => sample_event) (mkProviderLabel "carrier" "ground" "L0" "T0") _ ltac:(vm_compute; reflexivity)).
Defined.

(** The key a label is bought under names the shipment only. A carrier that answers a key it has seen
    with the label it issued then, as the port demands, answers the purchase after a void with the voided
    label, and the shipment is labelled with it. *)
Theorem voided_label_is_bought_again uuid {X} (ports : Ports (X := X)) (issued : X -> string -> option ProviderLabel)
    (w w' : World (ServiceDb ShipmentStore) X) eids now tenantId id a l out :
  (forall x i ref k l, issued x k = Some l -> provider_createLabel ports i ref k x = (Ok l, x)) ->
  rows_wf (ls_rows (sd_store (w_db w))) -> findById id tenantId (sd_store (w_db w)) = Ok (Some a) -> sh_status (agg_props a) = created ->
  issued (w_out w) (label_key id) = Some l -> CreateLabel uuid ports eids now tenantId id w = (Ok out, w') ->
  exists r, row_of id (ls_rows (sd_store (w_db w'))) = Some r /\ sr_status (row_props r) = label_created /\
    sr_label (row_props r) = Some (pl_labelId l, pl_trackingNumber l).
Proof.
  intros Hlaw Hw Hf Hst Hi. unfold CreateLabel. rewrite read_bind.
  assert (Hpre : label_precheck tenantId id (sd_store (w_db w)) = Ok (false, sh_fulfillmentRef (agg_props a), created)) by (unfold label_precheck; rewrite Hf; cbn; by rewrite Hst).
  rewrite Hpre. erewrite run_bind by reflexivity. cbv beta iota. erewrite run_bind by (unfold outside; by rewrite (Hlaw _ _ _ _ _ Hi)).
  destruct w as [d o]. cbn [w_db w_out] in *. destruct (label_values l) as [v|e] eqn:Hv; [|done]. erewrite run_bind by reflexivity. intros Hr.
  apply retry_returns in Hr as (j & Hj).
  - apply (reading_settles (fun s0 => settle_label_tx uuid (eids j) now tenantId id v s0)
      (fun '(a, settled) => (if (settled : bool) then notifyBestEffort ports a else mret tt);; mret (output a))) in Hj as ([a1 b] & s1 & Hm & ->);
      [|intros [? ?]; apply shipment_notify_quiet].
    destruct (settle_label_row uuid (eids j) now tenantId id v _ a1 b s1 Hw Hm) as (r & Hr & Hs & Hl); [by exists a|].
    exists r. split; [done|]. split; [done|]. rewrite Hl. unfold label_values, ShippingLabel_create in Hv. minv. done.
  - intros k e w1 Hk. apply (reading_settles (fun s0 => settle_label_tx uuid (eids k) now tenantId id v s0)
      (fun '(a, settled) => (if (settled : bool) then notifyBestEffort ports a else mret tt);; mret (output a))) in Hk; [done|].
    intros [? ?]. apply shipment_notify_quiet.
Qed.

Lemma voided_label_is_bought_again_witness :
  sh_status (agg_props (sample_shipment sample_voided)) = voided /\
  sh_label (agg_props (sample_shipment sample_voided)) = Some (mkLabel "L0" "T0") /\
  exists r, row_of sample_id (ls_rows (sd_store (w_db sample_relabelled))) = Some r /\ sr_status (row_props r) = label_created /\
    sr_label (row_props r) = Some ("L0", "T0").
Proof.
  split; [by vm_compute|]. split; [by vm_compute|].
  apply (voided_label_is_bought_again sample_all sample_ports sample_issued sample_reset sample_relabelled (fun _ => sample_event) 4 "t1" sample_id
    (sample_shipment sample_reset) (mkProviderLabel "carrier" "ground" "L0" "T0") (mkStatusOutput sample_id label_created)).
  - intros x i ref k l Hl. cbn. by rewrite Hl.
  - vm_compute. split; [by apply NoDup_singleton|]. by intros r ->%list_elem_of_singleton.
  - by vm_compute.
  - by vm_compute.
  - by vm_compute.
  - by vm_compute.
Defined.
