(* ===== verification/Returns.v ===== *)
(** Returns ([services/returns/src]): the return request with its inspections, dispositions and attempt
    log, its rows, the use cases from opening a return to deciding its resolution, and the adapters through
    which a refund reaches Payments ([apps/runtime/src/composition.ts]). Payments, Inventory, Shipping, Orders
    and Notifications are parameters, and so is the hash the ids are derived with. *)
From S2P Require Import Prelude Kernel Store Uuids Lifecycle.

#[global] Open Scope Z_scope.

(** ** Statuses ([value-objects/return-status.ts]) *)

Inductive ReturnStatus :=
| requested | approved | rejected | rma_generated | package_received | inspection_completed | items_accepted | items_rejected
| refund_requested | replacement_requested | repair_requested | closed.
#[export] Instance ReturnStatus_eq_dec : EqDecision ReturnStatus.
Proof. solve_decision. Defined.

Definition status_name (s : ReturnStatus) : string :=
  match s with
  | requested => "requested" | approved => "approved" | rejected => "rejected" | rma_generated => "rma_generated"
  | package_received => "package_received" | inspection_completed => "inspection_completed" | items_accepted => "items_accepted"
  | items_rejected => "items_rejected" | refund_requested => "refund_requested" | replacement_requested => "replacement_requested"
  | repair_requested => "repair_requested" | closed => "closed"
  end.

Definition TRANSITIONS (from : ReturnStatus) : list ReturnStatus :=
  match from with
  | requested => [approved; rejected]
  | approved => [rma_generated]
  | rejected => [closed]
  | rma_generated => [package_received]
  | package_received => [inspection_completed]
  | inspection_completed => [items_accepted; items_rejected]
  | items_accepted => [refund_requested; replacement_requested; repair_requested]
  | items_rejected => [closed]
  | refund_requested => [closed]
  | replacement_requested => [closed]
  | repair_requested => [closed]
  | closed => []
  end.
Definition canTransitionReturn (from to : ReturnStatus) : bool := bool_decide (to ∈ TRANSITIONS from).

Definition EVENT_TYPE_BY_STATUS (s : ReturnStatus) : string :=
  match s with
  | requested => "returns.request.requested"
  | approved => "returns.request.approved"
  | rejected => "returns.request.rejected"
  | rma_generated => "returns.package.rma_generated"
  | package_received => "returns.package.received"
  | inspection_completed => "returns.inspection.completed"
  | items_accepted => "returns.items.accepted"
  | items_rejected => "returns.items.rejected"
  | refund_requested => "returns.refund.requested"
  | replacement_requested => "returns.replacement.requested"
  | repair_requested => "returns.repair.requested"
  | closed => "returns.request.closed"
  end.

(** ** Values ([value-objects]) *)

Inductive ResolutionOutcome := refund | replacement | repair.
Definition outcome_name (o : ResolutionOutcome) : string :=
  match o with refund => "refund" | replacement => "replacement" | repair => "repair" end.
Definition RESOLUTION_STATUS_BY_OUTCOME (o : ResolutionOutcome) : ReturnStatus :=
  match o with refund => refund_requested | replacement => replacement_requested | repair => repair_requested end.

Record RefundDecision := mkDecision { rd_outcome : ResolutionOutcome; rd_amountMinor : option jsnum; rd_currency : option string }.
Definition RefundDecision_create (outcome : ResolutionOutcome) (amountMinor : option jsnum) (currency : option string) : result RefundDecision :=
  match outcome, amountMinor, currency with
  | refund, None, _ | refund, _, None =>
      Err (ValidationError "Invalid refund decision" [mkFieldIssue "amountMinor" "amountMinor and currency are required for a refund"])
  | _, _, _ => Ok (mkDecision outcome amountMinor currency)
  end.

Record ReturnApproval := mkApproval { ra_approved : bool; ra_note : option string; ra_decidedAt : Z }.

Inductive ReturnDisposition := restock | discard | refurbish | return_to_vendor.
#[export] Instance ReturnDisposition_eq_dec : EqDecision ReturnDisposition.
Proof. solve_decision. Defined.
Definition ReturnDisposition_create (value : string) : result ReturnDisposition :=
  if bool_decide (value = "restock") then Ok restock
  else if bool_decide (value = "discard") then Ok discard
  else if bool_decide (value = "refurbish") then Ok refurbish
  else if bool_decide (value = "return_to_vendor") then Ok return_to_vendor
  else Err (ValidationError "Invalid return disposition"
         [mkFieldIssue "disposition" "must be one of restock, discard, refurbish, return_to_vendor"]).
Definition disposition_name (d : ReturnDisposition) : string :=
  match d with restock => "restock" | discard => "discard" | refurbish => "refurbish" | return_to_vendor => "return_to_vendor" end.

Record ReturnReason := mkReason { rs_code : string; rs_note : option string }.
Definition ReturnReason_create (code : string) (note : option string) : result ReturnReason :=
  _ ← Guard.againstEmpty code "reasonCode"; Ok (mkReason code note).

(** [return-item.ts]: the quantity is whatever the request said. *)
Record ReturnItem := mkReturnItem {
  ri_orderItemRef : string; ri_productRef : string; ri_quantity : jsnum; ri_reason : ReturnReason; ri_disposition : option ReturnDisposition }.
Definition setDisposition (d : ReturnDisposition) (i : ReturnItem) : ReturnItem :=
  mkReturnItem (ri_orderItemRef i) (ri_productRef i) (ri_quantity i) (ri_reason i) (Some d).

Record ReturnInspection := mkInspection { in_id : string; in_itemRef : string; in_passed : bool; in_occurredAt : Z; in_note : option string }.

(** ** The return request ([domain/return-request.ts], [return-attempt.ts]) *)

Inductive ReturnAttemptKind := k_approval | k_rma | k_receive | k_inspection | k_accept | k_resolution | k_warehouse_callback.
#[export] Instance ReturnAttemptKind_eq_dec : EqDecision ReturnAttemptKind.
Proof. solve_decision. Defined.
Abbreviation ReturnAttempt := (Attempt ReturnAttemptKind).

Record ReturnRequestProps := mkReturn {
  rq_orderRef : string; rq_items : list ReturnItem; rq_status : ReturnStatus; rq_attempts : list ReturnAttempt;
  rq_inspections : list ReturnInspection; rq_approval : option ReturnApproval; rq_rmaNumber : option string;
  rq_refundDecision : option RefundDecision }.
Record ReturnTransitioned := mkReturnTransitioned {
  rt_orderRef : string; rt_type : string; rt_fromStatus : ReturnStatus; rt_toStatus : ReturnStatus }.
Abbreviation ReturnRequest := (Aggregate ReturnRequestProps ReturnTransitioned).
Abbreviation ReturnM := (M ReturnRequest).

Definition with_status (st : ReturnStatus) (p : ReturnRequestProps) : ReturnRequestProps :=
  mkReturn (rq_orderRef p) (rq_items p) st (rq_attempts p) (rq_inspections p) (rq_approval p) (rq_rmaNumber p) (rq_refundDecision p).
Definition with_items (l : list ReturnItem) (p : ReturnRequestProps) : ReturnRequestProps :=
  mkReturn (rq_orderRef p) l (rq_status p) (rq_attempts p) (rq_inspections p) (rq_approval p) (rq_rmaNumber p) (rq_refundDecision p).
Definition with_attempts (l : list ReturnAttempt) (p : ReturnRequestProps) : ReturnRequestProps :=
  mkReturn (rq_orderRef p) (rq_items p) (rq_status p) l (rq_inspections p) (rq_approval p) (rq_rmaNumber p) (rq_refundDecision p).
Definition with_inspections (l : list ReturnInspection) (p : ReturnRequestProps) : ReturnRequestProps :=
  mkReturn (rq_orderRef p) (rq_items p) (rq_status p) (rq_attempts p) l (rq_approval p) (rq_rmaNumber p) (rq_refundDecision p).
Definition with_approval (a : ReturnApproval) (p : ReturnRequestProps) : ReturnRequestProps :=
  mkReturn (rq_orderRef p) (rq_items p) (rq_status p) (rq_attempts p) (rq_inspections p) (Some a) (rq_rmaNumber p) (rq_refundDecision p).
Definition with_rmaNumber (n : string) (p : ReturnRequestProps) : ReturnRequestProps :=
  mkReturn (rq_orderRef p) (rq_items p) (rq_status p) (rq_attempts p) (rq_inspections p) (rq_approval p) (Some n) (rq_refundDecision p).
Definition with_refundDecision (d : RefundDecision) (p : ReturnRequestProps) : ReturnRequestProps :=
  mkReturn (rq_orderRef p) (rq_items p) (rq_status p) (rq_attempts p) (rq_inspections p) (rq_approval p) (rq_rmaNumber p) (Some d).

Definition return_create (id orderRef : string) (items : list ReturnItem) : ReturnRequest :=
  new_agg (mkReturn orderRef items requested [] [] None None None) id.

Section aggregate.
Context (sha1 : string -> string).

Definition attempt_id (id : string) (n : nat) : string := deterministicUuid sha1 (id +:+ ":attempt:" +:+ show_nat n).
Definition inspection_id (id itemRef : string) : string := deterministicUuid sha1 (id +:+ ":inspection:" +:+ itemRef).

Definition recordAttempt (kind : ReturnAttemptKind) (outcome : AttemptOutcome) (at_ : Z) (reference : option string) : ReturnM unit :=
  id ← gets agg_id;
  p ← gets agg_props;
  aid ← lift (UniqueEntityId_from (attempt_id id (length (rq_attempts p))));
  set_props (with_attempts (rq_attempts p ++ [mkAttempt aid kind outcome reference at_])).

Definition transition (toStatus : ReturnStatus) (eid : string) (at_ : Z) : ReturnM unit :=
  p ← gets agg_props;
  throw_if (negb (canTransitionReturn (rq_status p) toStatus))
    (BusinessRuleError ("Cannot transition return from " +:+ quoted (status_name (rq_status p)) +:+ " to " +:+ quoted (status_name toStatus)));;
  set_props (with_status toStatus);;
  addDomainEvent eid at_ (mkReturnTransitioned (rq_orderRef p) (EVENT_TYPE_BY_STATUS toStatus) (rq_status p) toStatus).

Definition approve (eid : string) (at_ : Z) (note : option string) : ReturnM unit :=
  transition approved eid at_;;
  set_props (with_approval (mkApproval true note at_));;
  recordAttempt k_approval succeeded at_ None.
Definition reject (eid : string) (at_ : Z) (note : option string) : ReturnM unit :=
  transition rejected eid at_;;
  set_props (with_approval (mkApproval false note at_));;
  recordAttempt k_approval failed_attempt at_ note.
Definition generateRma (rmaNumber eid : string) (at_ : Z) : ReturnM unit :=
  set_props (with_rmaNumber rmaNumber);;
  transition rma_generated eid at_;;
  recordAttempt k_rma succeeded at_ (Some rmaNumber).
Definition receivePackage (eid : string) (at_ : Z) : ReturnM unit :=
  transition package_received eid at_;;
  recordAttempt k_receive succeeded at_ None.

(** A second inspection of an item does nothing. *)
Definition inspectItem (itemRef : string) (passed : bool) (at_ : Z) (note : option string) : ReturnM unit :=
  id ← gets agg_id;
  p ← gets agg_props;
  if existsb (fun i => bool_decide (in_itemRef i = itemRef)) (rq_inspections p) then mret tt
  else
    iid ← lift (UniqueEntityId_from (inspection_id id itemRef));
    set_props (with_inspections (rq_inspections p ++ [mkInspection iid itemRef passed at_ note]));;
    recordAttempt k_inspection succeeded at_ (Some itemRef).
Definition completeInspection := transition inspection_completed.

(** [items.find(...)?.setDisposition(...)] *)
Fixpoint dispose (orderItemRef : string) (d : ReturnDisposition) (items : list ReturnItem) : list ReturnItem :=
  match items with
  | [] => []
  | i :: l => if bool_decide (ri_orderItemRef i = orderItemRef) then setDisposition d i :: l else i :: dispose orderItemRef d l
  end.
Definition dispose_all (dispositions : list (string * ReturnDisposition)) (items : list ReturnItem) : list ReturnItem :=
  foldl (fun l x => dispose x.1 x.2 l) items dispositions.
Definition acceptItems (dispositions : list (string * ReturnDisposition)) (eid : string) (at_ : Z) : ReturnM unit :=
  set_props (fun p => with_items (dispose_all dispositions (rq_items p)) p);;
  transition items_accepted eid at_;;
  recordAttempt k_accept succeeded at_ None.
Definition rejectItems (reason eid : string) (at_ : Z) : ReturnM unit :=
  transition items_rejected eid at_;;
  recordAttempt k_accept failed_attempt at_ (Some reason).

Definition decideResolution (decision : RefundDecision) (eid : string) (at_ : Z) : ReturnM unit :=
  set_props (with_refundDecision decision);;
  transition (RESOLUTION_STATUS_BY_OUTCOME (rd_outcome decision)) eid at_;;
  recordAttempt k_resolution succeeded at_ (Some (outcome_name (rd_outcome decision))).
Definition close := transition closed.
Definition recordWarehouseCallback (at_ : Z) (reference : option string) : ReturnM unit :=
  recordAttempt k_warehouse_callback succeeded at_ reference.

End aggregate.

(** ** Rows ([infrastructure/return-request.mapper.ts]) *)

Record ReturnItemJson := mkItemJson {
  ij_orderItemRef : string; ij_productRef : string; ij_quantity : jsnum; ij_reason : string * option string; ij_disposition : option string }.
Record ReturnRequestRow := mkReturnRow {
  rr_orderRef : string; rr_items : list ReturnItemJson; rr_status : ReturnStatus; rr_approval : option ReturnApproval;
  rr_rmaNumber : option string; rr_inspections : list ReturnInspection;
  rr_refundDecision : option (ResolutionOutcome * option jsnum * option string) }.

Abbreviation must := (Lifecycle.must "return").
Definition item_toDomain (i : ReturnItemJson) : result ReturnItem :=
  _ ← UniqueEntityId_from (ij_orderItemRef i);
  productRef ← must (ProductRef_create (ij_productRef i)) "item productRef";
  reason ← must (ReturnReason_create (ij_reason i).1 (ij_reason i).2) "return reason";
  disposition ← (match ij_disposition i with
                 | None => Ok None
                 | Some d => d ← must (ReturnDisposition_create d) "return disposition"; Ok (Some d)
                 end);
  Ok (mkReturnItem (ij_orderItemRef i) productRef (ij_quantity i) reason disposition).
Definition toDomain (row : ReturnRequestRow) (attempts : list ReturnAttempt) : result ReturnRequestProps :=
  items ← map_must item_toDomain (rr_items row);
  inspections ← map_must (fun i => _ ← UniqueEntityId_from (in_id i); Ok i) (rr_inspections row);
  decision ← (match rr_refundDecision row with
              | None => Ok None
              | Some d => d ← must (RefundDecision_create d.1.1 d.1.2 d.2) "refund decision"; Ok (Some d)
              end);
  Ok (mkReturn (rr_orderRef row) items (rr_status row) attempts inspections (rr_approval row) (rr_rmaNumber row) decision).

Definition item_toJson (i : ReturnItem) : ReturnItemJson :=
  mkItemJson (ri_orderItemRef i) (ri_productRef i) (ri_quantity i) (rs_code (ri_reason i), rs_note (ri_reason i)) (disposition_name <$> ri_disposition i).
Definition toRow (p : ReturnRequestProps) : ReturnRequestRow :=
  mkReturnRow (rq_orderRef p) (item_toJson <$> rq_items p) (rq_status p) (rq_approval p) (rq_rmaNumber p) (rq_inspections p)
    ((fun d => (rd_outcome d, rd_amountMinor d, rd_currency d)) <$> rq_refundDecision p).

(** The columns an update writes: not the items. *)
Definition updated_columns (old new : ReturnRequestRow) : ReturnRequestRow :=
  mkReturnRow (rr_orderRef old) (rr_items old) (rr_status new) (rr_approval new) (rr_rmaNumber new) (rr_inspections new) (rr_refundDecision new).

#[export] Instance return_lifecycle : Lifecycle ReturnRequestProps ReturnRequestRow ReturnAttemptKind ReturnStatus ReturnTransitioned := {
  lc_name := "ReturnRequest";
  lc_toRow := toRow;
  lc_toDomain := toDomain;
  lc_columns := updated_columns;
  lc_attempts := rq_attempts;
  lc_status := rq_status;
  lc_row_status := rr_status;
  lc_initial := requested;
  lc_can := canTransitionReturn;
  lc_moved e := Some (rt_fromStatus e, rt_toStatus e) }.
#[export] Instance return_lifecycle_laws : LifecycleLaws ReturnRequestProps ReturnRequestRow ReturnAttemptKind ReturnStatus ReturnTransitioned.
Proof. split; [done|done|]. intros c log p Hd. cbn in *. unfold toDomain in Hd. by minv. Qed.

Abbreviation ReturnStore := (LifecycleStore ReturnRequestRow ReturnAttemptKind ReturnTransitioned).
Abbreviation StoreM := (M ReturnStore).

(** ** Use cases ([application])

    [uuid] is what a column of that type accepts, [sha1] the hash the derived ids are made with. The
    transactions take the store their read saw. *)

Section use_cases.
Context (uuid : string -> bool) (sha1 : string -> string).

Definition findById (id tenantId : string) (s : ReturnStore) : result (option ReturnRequest) := lc_find id tenantId s.
Definition save (a : ReturnRequest) (tenantId : string) : StoreM unit := lc_save uuid a tenantId.
Definition load (id tenantId : string) (s0 : ReturnStore) : StoreM ReturnRequest := lc_load "Return request not found" id tenantId s0.
Definition findByOrderRef (orderRef tenantId : string) (s : ReturnStore) : result (option ReturnRequest) :=
  match find_first (fun r => bool_decide (rr_orderRef (row_props r) = orderRef) && bool_decide (row_tenant r = tenantId)) (ls_rows s) with
  | Some r => a ← hydrate s (rehydrate r); Ok (Some a)
  | None => Ok None
  end.

(** *** Opening ([create-return-request.use-case.ts]) *)

Record CreateReturnRequestItemInput := mkItemInput {
  ci_orderItemRef : string; ci_productRef : string; ci_quantity : jsnum; ci_reasonCode : string; ci_reasonNote : option string }.
Definition build_items (items : list CreateReturnRequestItemInput) : result (list ReturnItem) :=
  map_must (fun i =>
    productRef ← ProductRef_create (ci_productRef i);
    reason ← ReturnReason_create (ci_reasonCode i) (ci_reasonNote i);
    _ ← UniqueEntityId_from (ci_orderItemRef i);
    Ok (mkReturnItem (ci_orderItemRef i) productRef (ci_quantity i) reason None)) items.
Definition create_tx (gen : nat -> string) (tenantId orderRef : string) (items : list ReturnItem) : StoreM ReturnRequest :=
  id ← lift (UniqueEntityId_from (gen 0%nat));
  let a := return_create id orderRef items in
  save a tenantId;;
  mret a.
Definition CreateReturnRequest (gen : nat -> string) (tenantId orderRef : string) (items : list CreateReturnRequestItemInput) : StoreM ReturnRequest :=
  lift (_ ← Guard.againstEmpty orderRef "orderRef"; Ok tt);;
  throw_if (bool_decide (items = [])) (ValidationError "Invalid return request" [mkFieldIssue "items" "must not be empty"]);;
  items ← lift (build_items items);
  in_txn (create_tx gen tenantId orderRef items).

(** *** Transactions *)

Definition advance_tx (eid : string) (now : Z) (tenantId id : string) (toStatus : ReturnStatus) (s0 : ReturnStore) : StoreM ReturnRequest :=
  a ← load id tenantId s0;
  a ← call a (transition toStatus eid now);
  save a tenantId;;
  mret a.
Definition approval_call (approved : bool) (note : option string) (eid : string) (now : Z) : ReturnM unit :=
  if approved then approve sha1 eid now note else reject sha1 eid now note.
Definition approval_tx (eid : string) (now : Z) (tenantId id : string) (approved : bool) (note : option string) (s0 : ReturnStore) : StoreM ReturnRequest :=
  a ← load id tenantId s0;
  a ← call a (approval_call approved note eid now);
  save a tenantId;;
  mret a.
Definition rma_tx (eid : string) (now : Z) (tenantId id rmaNumber : string) (s0 : ReturnStore) : StoreM ReturnRequest :=
  a ← load id tenantId s0;
  a ← call a (generateRma sha1 rmaNumber eid now);
  save a tenantId;;
  mret a.
(** A callback is known by its attempt. *)
Definition callback_processed (reference : string) (a : ReturnRequest) : bool :=
  existsb (fun t => bool_decide (at_kind t = k_warehouse_callback) && bool_decide (at_outcome t = succeeded) && bool_decide (at_reference t = Some reference))
    (rq_attempts (agg_props a)).
Definition receive_call (reference eid : string) (now : Z) : ReturnM unit :=
  recordWarehouseCallback sha1 now (Some reference);; receivePackage sha1 eid now.
Definition receive_tx (eid : string) (now : Z) (tenantId id reference : string) (s0 : ReturnStore) : StoreM ReturnRequest :=
  a ← load id tenantId s0;
  a ← call a (receive_call reference eid now);
  save a tenantId;;
  mret a.
Definition inspect_tx (now : Z) (tenantId id itemRef : string) (passed : bool) (note : option string) (s0 : ReturnStore) : StoreM ReturnRequest :=
  a ← load id tenantId s0;
  if bool_decide (rq_status (agg_props a) = inspection_completed) then mret a
  else
    a ← call a (inspectItem sha1 itemRef passed now note);
    save a tenantId;;
    mret a.
Definition accept_tx (eid : string) (now : Z) (tenantId id : string) (dispositions : list (string * ReturnDisposition)) (s0 : ReturnStore) : StoreM ReturnRequest :=
  a ← load id tenantId s0;
  a ← call a (acceptItems sha1 dispositions eid now);
  save a tenantId;;
  mret a.
Definition decide_tx (eid : string) (now : Z) (tenantId id : string) (decision : RefundDecision) (s0 : ReturnStore) : StoreM ReturnRequest :=
  a ← load id tenantId s0;
  a ← call a (decideResolution sha1 decision eid now);
  save a tenantId;;
  mret a.

(** *** The use cases over the world *)

Context {X : Type}.
Record Ports := mkPorts {
  reportReturnOutcome : string -> string -> string -> M X unit;
  notify : string -> string -> string -> M X unit;
  requestRefund : string -> jsnum -> string -> string -> string -> M X unit;
  isRefundable : option (string -> jsnum -> string -> string -> M X bool);
  inventory_restock : string -> list (string * jsnum) -> string -> M X unit;
  verifyReturnShipment : string -> string -> M X bool }.
Context (ports : Ports).
Abbreviation ReturnWorld := (World (ServiceDb ReturnStore) X).

Definition notifyBestEffort (a : ReturnRequest) (tenantId : string) : M ReturnWorld unit :=
  let orderRef := rq_orderRef (agg_props a) in let status := status_name (rq_status (agg_props a)) in
  best_effort (outside (reportReturnOutcome ports orderRef status tenantId);; outside (notify ports orderRef status tenantId)).

Record StatusOutput := mkStatusOutput { so_id : string; so_status : ReturnStatus }.
Definition output (a : ReturnRequest) : StatusOutput := mkStatusOutput (agg_id a) (rq_status (agg_props a)).

(** [AdvanceReturn], [DecideApproval] and [GenerateRma]: a transaction and its notification. *)
Definition notified (tx : ReturnStore -> StoreM ReturnRequest) (tenantId : string) : M ReturnWorld StatusOutput :=
  transactional (
    s0 ← read (fun s => s);
    a ← stored (tx s0);
    notifyBestEffort a tenantId;;
    mret (output a)).
Definition AdvanceReturn (eid : string) (now : Z) (tenantId id : string) (toStatus : ReturnStatus) : M ReturnWorld StatusOutput :=
  notified (advance_tx eid now tenantId id toStatus) tenantId.
Definition DecideApproval (eid : string) (now : Z) (tenantId id : string) (approved : bool) (note : option string) : M ReturnWorld StatusOutput :=
  notified (approval_tx eid now tenantId id approved note) tenantId.
Definition GenerateRma (eid : string) (now : Z) (tenantId id rmaNumber : string) : M ReturnWorld StatusOutput :=
  lift (_ ← Guard.againstEmpty rmaNumber "rmaNumber"; Ok tt);;
  notified (rma_tx eid now tenantId id rmaNumber) tenantId.

(** [ReceivePackage]: Shipping is asked inside the transaction. *)
Definition MAX_CONCURRENCY_RETRIES : nat := 5.
Definition ReceivePackage (eids : nat -> string) (now : Z) (tenantId id source callbackId : string) : M ReturnWorld (StatusOutput * bool) :=
  lift (_ ← Guard.againstEmpty source "source"; _ ← Guard.againstEmpty callbackId "callbackId"; Ok tt);;
  let reference := source +:+ ":" +:+ callbackId in
  retry_conflicts MAX_CONCURRENCY_RETRIES (fun attempt =>
    transactional (
      s0 ← read (fun s => s);
      a ← stored (load id tenantId s0);
      if callback_processed reference a then mret (output a, true)
      else
        verified ← outside (verifyReturnShipment ports (rq_orderRef (agg_props a)) tenantId);
        throw_if (negb verified) (ValidationError "Return shipment could not be verified" []);;
        a ← stored (receive_tx (eids attempt) now tenantId id reference s0);
        notifyBestEffort a tenantId;;
        mret (output a, false))).

Definition InspectItems (now : Z) (tenantId id itemRef : string) (passed : bool) (note : option string) : M ReturnWorld StatusOutput :=
  lift (_ ← Guard.againstEmpty itemRef "itemRef"; Ok tt);;
  transactional (
    s0 ← read (fun s => s);
    a ← stored (inspect_tx now tenantId id itemRef passed note s0);
    mret (output a)).

(** [AcceptItems]: what is to be restocked is asked of Inventory, best-effort. *)
Definition parse_dispositions (items : list (string * string)) : result (list (string * ReturnDisposition)) :=
  map_must (fun i => d ← ReturnDisposition_create i.2; Ok (i.1, d)) items.
Definition restock_items (a : ReturnRequest) : list (string * jsnum) :=
  (fun i => (ri_productRef i, ri_quantity i)) <$> filter (fun i => ri_disposition i = Some restock) (rq_items (agg_props a)).
Definition AcceptItems (eid : string) (now : Z) (tenantId id : string) (items : list (string * string)) : M ReturnWorld StatusOutput :=
  dispositions ← lift (parse_dispositions items);
  transactional (
    s0 ← read (fun s => s);
    a ← stored (accept_tx eid now tenantId id dispositions s0);
    (match restock_items a with
     | [] => mret tt
     | l => best_effort (outside (inventory_restock ports (rq_orderRef (agg_props a)) l tenantId))
     end);;
    notifyBestEffort a tenantId;;
    mret (output a)).

(** [DecideResolution]: the refund is requested after the decision is committed. *)
Definition refund_request (outcome : ResolutionOutcome) (amountMinor : option jsnum) (currency : option string) : option (jsnum * string) :=
  match outcome, amountMinor, currency with refund, Some n, Some c => Some (n, c) | _, _, _ => None end.
Definition refund_key (id : string) : string := id +:+ ":refund".
Definition check_refundable (request : option (jsnum * string)) (a : ReturnRequest) (tenantId : string) : M ReturnWorld unit :=
  match request, isRefundable ports with
  | Some (n, c), Some verify =>
      refundable ← outside (verify (rq_orderRef (agg_props a)) n c tenantId);
      throw_if (negb refundable) (ValidationError "Refund amount exceeds the refundable amount for this order"
        [mkFieldIssue "amountMinor" "could not be verified against Payments/Orders"])
  | _, _ => mret tt
  end.
Definition commit_decision (eid : string) (now : Z) (tenantId id : string) (decision : RefundDecision) (request : option (jsnum * string)) :
  M ReturnWorld ReturnRequest :=
  transactional (
    s0 ← read (fun s => s);
    a ← stored (load id tenantId s0);
    check_refundable request a tenantId;;
    a ← stored (decide_tx eid now tenantId id decision s0);
    (match request with None => notifyBestEffort a tenantId | Some _ => mret tt end);;
    mret a).
Definition DecideResolution (eid : string) (now : Z) (tenantId id : string) (outcome : ResolutionOutcome) (amountMinor : option jsnum)
    (currency : option string) : M ReturnWorld StatusOutput :=
  decision ← lift (RefundDecision_create outcome amountMinor currency);
  let request := refund_request outcome amountMinor currency in
  a ← commit_decision eid now tenantId id decision request;
  (match request with
   | Some (n, c) =>
       outside (requestRefund ports (rq_orderRef (agg_props a)) n c (refund_key (agg_id a)) tenantId);;
       notifyBestEffort a tenantId
   | None => mret tt
   end);;
  mret (output a).

Definition GetReturnByOrder (tenantId orderRef : string) : M ReturnWorld ReturnRequest :=
  found ← read (findByOrderRef orderRef tenantId);
  found ← lift found;
  match found with Some a => mret a | None => throw (NotFoundError "No return request found for this order") end.

End use_cases.

(** ** Payments, as the runtime wires it ([PrismaRefundVerificationAdapter], [PrismaPaymentsPortAdapter])

    Both read the order's intents in the refund's currency, with their charges and refunds; the refund
    itself is Payments' use case. *)

Record IntentRow := mkIntentRow { it_id : string; it_charges : list Z; it_refunds : list (Z * bool) }.
Definition captured_of (i : IntentRow) : Z := foldr Z.add 0 (it_charges i).
(** The refunds that did not fail. *)
Definition refunded_of (i : IntentRow) : Z := foldr Z.add 0 (fst <$> filter (fun r => r.2 = false) (it_refunds i)).
Definition adapter_isRefundable (intents : list IntentRow) (amountMinor : Z) : bool :=
  bool_decide (amountMinor <= foldr Z.add 0 (captured_of <$> intents) - foldr Z.add 0 (refunded_of <$> intents)).
Definition refund_target (intents : list IntentRow) (amountMinor : Z) : option IntentRow :=
  find_first (fun i => bool_decide (amountMinor <= captured_of i - refunded_of i)) intents.
Section payments.
Context {X : Type} (refundLifecycle : string -> Z -> string -> M X Z).
Definition adapter_requestRefund (intents : list IntentRow) (amountMinor : Z) (idempotencyKey : string) : M X unit :=
  match refund_target intents amountMinor with
  | None => throw (UnexpectedError "no payment intent has sufficient remaining amount")
  | Some i =>
      status ← refundLifecycle (it_id i) amountMinor idempotencyKey;
      throw_if (bool_decide (400 <= status)) (UnexpectedError "refund execution failed")
  end.
End payments.

(** ** The transactions of all workers

    The state has beside the store the returns whose refund a worker went on to request. *)

Inductive ReturnTx :=
| TxCreate (gen : nat -> string) (tenantId orderRef : string) (items : list CreateReturnRequestItemInput)
| TxAdvance (eid : string) (now : Z) (tenantId id : string) (toStatus : ReturnStatus)
| TxApproval (eid : string) (now : Z) (tenantId id : string) (approved : bool) (note : option string)
| TxRma (eid : string) (now : Z) (tenantId id rmaNumber : string)
| TxReceive (eid : string) (now : Z) (tenantId id reference : string)
| TxInspect (now : Z) (tenantId id itemRef : string) (passed : bool) (note : option string)
| TxAccept (eid : string) (now : Z) (tenantId id : string) (dispositions : list (string * ReturnDisposition))
| TxDecide (eid : string) (now : Z) (tenantId id : string) (decision : RefundDecision).

Abbreviation ReturnState := (ReturnStore * list string)%type.

Section transactions.
Context (uuid : string -> bool) (sha1 : string -> string).

Definition return_commit (t : ReturnTx) (snaps : list ReturnStore) (s : ReturnStore) : result ReturnStore :=
  match t, snaps with
  | TxCreate gen tenantId orderRef items, _ => committed (items ← lift (build_items items); create_tx uuid gen tenantId orderRef items) s
  | TxAdvance eid now tenantId id toStatus, [s0] => committed (advance_tx uuid eid now tenantId id toStatus s0) s
  | TxApproval eid now tenantId id yes note, [s0] => committed (approval_tx uuid sha1 eid now tenantId id yes note s0) s
  | TxRma eid now tenantId id rmaNumber, [s0] => committed (rma_tx uuid sha1 eid now tenantId id rmaNumber s0) s
  | TxReceive eid now tenantId id reference, [s0] => committed (receive_tx uuid sha1 eid now tenantId id reference s0) s
  | TxInspect now tenantId id itemRef passed note, [s0] => committed (inspect_tx uuid sha1 now tenantId id itemRef passed note s0) s
  | TxAccept eid now tenantId id dispositions, [s0] => committed (accept_tx uuid sha1 eid now tenantId id dispositions s0) s
  | TxDecide eid now tenantId id decision, [s0] => committed (decide_tx uuid sha1 eid now tenantId id decision s0) s
  | _, _ => Err (UnexpectedError "unreachable")
  end.
Definition refund_asked (t : ReturnTx) : list string :=
  match t with
  | TxDecide _ _ _ id decision => match rd_outcome decision with refund => [id] | _ => [] end
  | _ => []
  end.
Definition return_exec (t : ReturnTx) (snaps : list ReturnState) (x : ReturnState) : result ReturnState :=
  s ← return_commit t (fst <$> snaps) (fst x);
  Ok (s, snd x ++ refund_asked t).
Definition return_do := il_do return_exec.

End transactions.

(** What the methods publish leads where they go. *)
Abbreviation rtraced := (traced (P := ReturnRequestProps) (C := ReturnRequestRow) (K := ReturnAttemptKind) (E := ReturnTransitioned)).
Lemma return_recordAttempt_traced sha1 kind outcome t ref : rtraced (recordAttempt sha1 kind outcome t ref).
Proof. unfold recordAttempt. solve_traced. by apply traced_set. Qed.
Lemma return_transition_traced to eid t : rtraced (transition to eid t).
Proof. by refine (traced_transition to _ (with_status to) (fun p => mkReturnTransitioned (rq_orderRef p) (EVENT_TYPE_BY_STATUS to) (rq_status p) to) eid t _ _). Qed.
Lemma set_traced f : (forall p, rq_status (f p) = rq_status p) -> rtraced (set_props f).
Proof. intros Hf. by apply traced_set. Qed.
#[export] Hint Resolve return_recordAttempt_traced return_transition_traced : lifecycle.
#[export] Hint Extern 2 (traced (set_props _)) => (apply set_traced; done) : lifecycle.

Lemma approval_call_traced sha1 b note eid now : rtraced (approval_call sha1 b note eid now).
Proof. unfold approval_call, approve, reject. destruct b; solve_traced. Qed.
Lemma generateRma_traced sha1 n eid now : rtraced (generateRma sha1 n eid now).
Proof. unfold generateRma. solve_traced. Qed.
Lemma receive_call_traced sha1 ref eid now : rtraced (receive_call sha1 ref eid now).
Proof. unfold receive_call, recordWarehouseCallback, receivePackage. solve_traced. Qed.
Lemma inspectItem_traced sha1 i b now note : rtraced (inspectItem sha1 i b now note).
Proof. unfold inspectItem. solve_traced. destruct (existsb _ _); solve_traced. Qed.
Lemma acceptItems_traced sha1 d eid now : rtraced (acceptItems sha1 d eid now).
Proof. unfold acceptItems. solve_traced. Qed.
Lemma decideResolution_traced sha1 d eid now : rtraced (decideResolution sha1 d eid now).
Proof. unfold decideResolution. solve_traced. Qed.
#[export] Hint Resolve approval_call_traced generateRma_traced receive_call_traced inspectItem_traced acceptItems_traced decideResolution_traced : lifecycle.

(** New items have no disposition, and an update writes no items. *)
Definition undisposed (p : ReturnRequestProps) : Prop := Forall (fun i => ri_disposition i = None) (rq_items p).
Definition row_undisposed (c : ReturnRequestRow) : Prop := Forall (fun i => ij_disposition i = None) (rr_items c).

Lemma build_items_undisposed l items : build_items l = Ok items -> Forall (fun i => ri_disposition i = None) items.
Proof.
  unfold build_items. revert items. induction l as [|i l IH]; intros items Hb; cbn in Hb; [by injection Hb as <-|]. minv. constructor; [done|]. by apply IH.
Qed.

Lemma return_commit_commits uuid sha1 t snaps s s' :
  return_commit uuid sha1 t snaps s = Ok s' -> lc_commit uuid undisposed (fun _ => True) snaps s s'.
Proof.
  destruct t; cbn; [|destruct snaps as [|s0 [|]]; try done..]; intros [r Hr]%committed_Ok.
  - unfold create_tx, save in Hr. minv. destruct v1. eapply (commit_new _ _ _ _ _ _ (return_create _ _ _)); try done. by eapply build_items_undisposed.
  - unfold advance_tx, load, save in Hr. minv. eapply commit_loaded; eauto with lifecycle. by left.
  - unfold approval_tx, load, save in Hr. minv. eapply commit_loaded; eauto with lifecycle. by left.
  - unfold rma_tx, load, save in Hr. minv. eapply commit_loaded; eauto with lifecycle. by left.
  - unfold receive_tx, load, save in Hr. minv. eapply commit_loaded; eauto with lifecycle. by left.
  - unfold inspect_tx, load, save in Hr. minv. destruct (bool_decide _); minv; [by eapply commit_idle|]. eapply commit_loaded; eauto with lifecycle. by left.
  - unfold accept_tx, load, save in Hr. minv. eapply commit_loaded; eauto with lifecycle. by left.
  - unfold decide_tx, load, save in Hr. minv. eapply commit_loaded; eauto with lifecycle. by left.
Qed.

(** The refunds asked for a return are counted by the moves published for it, of which the table allows one. *)
Definition asked (id : string) (x : ReturnState) : nat := length (filter (fun i => i = id) (snd x)).
Definition refund_moves (id : string) (s : ReturnStore) : nat := length (filter (fun m => m.2 = refund_requested) (published_moves id s)).
Definition return_ok (x : ReturnState) : Prop :=
  lc_ok (fst x) /\ rows_all row_undisposed (fst x) /\ forall id, (asked id x <= refund_moves id (fst x))%nat.

Lemma decide_published uuid sha1 eid now t id decision s0 s r s' :
  rows_wf (ls_rows s) -> rows_wf (ls_rows s0) -> lc_evolve s0 s -> rd_outcome decision = refund ->
  decide_tx uuid sha1 eid now t id decision s0 s = (Ok r, s') -> refund_moves id s' = S (refund_moves id s).
Proof.
  intros Hw Hw0 Hev Ho Hm. unfold decide_tx, load, save in Hm. minv.
  destruct (call_published uuid _ id t s0 s _ _ _ _ _ _ _ Hw Hw0 Hev (decideResolution_traced sha1 decision eid now) Hcall Hcall0 Hcall1) as [He Hp].
  unfold refund_moves. rewrite Hp, filter_app, length_app. unfold call, run_on in Hcall0. minv.
  destruct (decideResolution sha1 decision eid now v) as [[u|e] a] eqn:Hd; [|done]. injection Hcall0 as <-.
  unfold decideResolution, transition, recordAttempt in Hd. agg_inv. cbn. rewrite He, Ho. cbn. rewrite decide_True by done. cbn. lia.
Qed.

Lemma return_ok_step uuid sha1 t snaps x x' :
  return_ok x -> Forall (fun y => return_ok y /\ lc_evolve (fst y) (fst x)) snaps -> return_exec uuid sha1 t snaps x = Ok x' ->
  return_ok x' /\ lc_evolve (fst x) (fst x').
Proof.
  intros (Hok & Hd & Hn) Hsn Hx. unfold return_exec in Hx. minv. rename v into s'. rename Hres into Hc.
  assert (Hsn' : Forall (fun s0 => lc_ok s0 /\ lc_evolve s0 (fst x)) (fst <$> snaps)) by (rewrite Forall_fmap; eapply Forall_impl; [exact Hsn|]; intros ? [[? _] ?]; done).
  pose proof (return_commit_commits uuid sha1 _ _ _ _ Hc) as Hcm. destruct (lc_ok_commit _ _ _ _ _ _ Hok Hsn' Hcm) as [Hok' Hev].
  split; [|exact Hev]. split; [exact Hok'|]. split.
  { refine (rows_all_commit uuid undisposed (fun _ => True) row_undisposed (fun _ => True) _ _ _ _ _ _ _ Hok Hd Hsn' Hcm).
    - intros p Hp. unfold row_undisposed. cbn. rewrite Forall_fmap. eapply Forall_impl; [exact Hp|]. intros i Hi. cbn. by rewrite Hi.
    - done.
    - done.
    - intros c p Hc' _. exact Hc'. }
  intros id. unfold asked. cbn. rewrite filter_app, length_app. specialize (Hn id). unfold asked in Hn.
  destruct (commit_published uuid _ _ _ _ _ id Hok Hsn' Hcm) as [l Hl].
  assert (Hmono : (refund_moves id (fst x) <= refund_moves id s')%nat) by (unfold refund_moves; rewrite Hl, filter_app, length_app; lia).
  destruct t; cbn; try lia. destruct (rd_outcome decision) eqn:Ho; cbn; try lia.
  destruct (decide (id0 = id)) as [->|]; cbn; [|lia].
  destruct snaps as [|s0 [|? ?]]; try done. cbn in Hc. apply committed_Ok in Hc as [r Hr].
  inversion Hsn' as [|? ? [[Hw0 _] Hev0] _]; subst.
  rewrite (decide_published uuid sha1 eid now tenantId id decision (fst s0) (fst x) r s' (proj1 Hok) Hw0 Hev0 Ho Hr). lia.
Qed.

Lemma return_interleaved uuid sha1 l x :
  run_actions (return_do uuid sha1) l (mkInterleaved (empty_store, []) []) = Some x -> return_ok (il_store x).
Proof.
  apply (il_invariant (return_exec uuid sha1) return_ok (fun x y => lc_evolve (fst x) (fst y))).
  - split; [intros y; reflexivity|intros a b c Hab Hbc; by transitivity (fst b)].
  - apply return_ok_step.
  - split; [apply empty_store_ok|]. split; [by intros r ?%elem_of_nil|]. intros id. cbn. lia.
Qed.

(** How far a status is along the table. *)
Definition rank (s : ReturnStatus) : nat :=
  match s with
  | requested => 0 | approved | rejected => 1 | rma_generated => 2 | package_received => 3 | inspection_completed => 4
  | items_accepted | items_rejected => 5 | refund_requested | replacement_requested | repair_requested => 6 | closed => 7
  end.
Lemma rank_grows a b : canTransitionReturn a b = true -> (rank a < rank b)%nat.
Proof. destruct a, b; vm_compute; intros Hc; try discriminate Hc; lia. Qed.

Lemma refund_moves_once id s : lc_ok s -> (refund_moves id s <= 1)%nat.
Proof.
  intros [_ Hr]. specialize (Hr id). unfold refund_moves. destruct (row_of id (ls_rows s)) as [r|].
  - exact (replay_once rank refund_requested requested _ _ rank_grows Hr).
  - rewrite Hr. cbn. lia.
Qed.

(** *** A decision and its refund *)

Section resolution.
Context {X : Type} (uuid : string -> bool) (sha1 : string -> string).
Abbreviation RWorld := (World (ServiceDb ReturnStore) X).

(** The ports with another Payments. *)
Definition with_payments (rf : string -> jsnum -> string -> string -> string -> M X unit) (ports : Ports (X := X)) : Ports (X := X) :=
  mkPorts (reportReturnOutcome ports) (notify ports) rf (isRefundable ports) (inventory_restock ports) (verifyReturnShipment ports).

Lemma check_off_db (ports : Ports (X := X)) request a t : off_db (check_refundable ports request a t).
Proof.
  unfold check_refundable. destruct request as [[n c]|]; [|apply off_db_ret]. destruct (isRefundable ports); [|apply off_db_ret].
  apply off_db_bind; [apply off_db_outside|]. intros ?. apply off_db_throw_if.
Qed.
Lemma return_notify_quiet (ports : Ports (X := X)) a t : quiet (notifyBestEffort ports a t).
Proof. apply quiet_best_effort, off_db_bind; [|intros ?]; apply off_db_outside. Qed.

(** What a committed decision did to the store. *)
Lemma commit_decision_Ok (ports : Ports (X := X)) eid now t id decision request (w : RWorld) a w' :
  commit_decision uuid sha1 ports eid now t id decision request w = (Ok a, w') ->
  decide_tx uuid sha1 eid now t id decision (sd_store (w_db w)) (sd_store (w_db w)) = (Ok a, sd_store (w_db w')).
Proof.
  intros Hc%transactional_Ok. rewrite read_bind in Hc.
  apply bind_Ok in Hc as (a0 & w1 & (s1 & Hl & ->)%stored_Ok & Hc). apply bind_Ok in Hc as (u & w2 & Hk & Hc).
  apply check_off_db in Hk. apply bind_Ok in Hc as (a1 & w3 & (s3 & Hd & ->)%stored_Ok & Hc). rewrite Hk in Hd. cbn in Hd.
  apply bind_Ok in Hc as (v & w4 & Hn & [-> ->]%ret_Ok).
  assert (Hw4 : sd_store (w_db w4) = s3).
  { destruct request; [by apply ret_Ok in Hn as [_ ->]|]. by rewrite (quiet_off_db _ _ _ _ (return_notify_quiet ports a1 t) Hn). }
  rewrite Hw4. apply lc_load_Ok in Hl as [_ ->]. exact Hd.
Qed.

Lemma decided_row eid now t id decision s a s' :
  rows_wf (ls_rows s) -> decide_tx uuid sha1 eid now t id decision s s = (Ok a, s') ->
  agg_id a = id /\ rows_wf (ls_rows s') /\
  exists r, row_of id (ls_rows s') = Some r /\ rr_status (row_props r) = RESOLUTION_STATUS_BY_OUTCOME (rd_outcome decision).
Proof.
  intros Hw Hm. unfold decide_tx, load, save, call, run_on in Hm. minv. rename v into a0. apply lc_load_Ok in Hcall as [Hf ->].
  destruct (decideResolution sha1 decision eid now a0) as [[u|e] a1] eqn:Hd; [|done]. injection Hcall0 as <-.
  unfold decideResolution, transition, recordAttempt in Hd. agg_inv.
  apply (lc_save_found uuid id t s a0) in Hcall1 as (r & Hid & _ & _ & _ & Hw' & Hl & _); [|done|done|reflexivity|exact Hf|done|done].
  split; [exact (lc_find_id _ _ _ _ Hf)|]. split; [exact Hw'|].
  eexists. split; [rewrite Hl, bool_decide_true by done; reflexivity|]. done.
Qed.

(** A return whose refund was requested takes no further decision, whatever Payments is. *)
Lemma refused_decision (ports : Ports (X := X)) eid now t id decision request (w : RWorld) :
  (forall a, findById id t (sd_store (w_db w)) = Ok (Some a) -> rq_status (agg_props a) = refund_requested) ->
  exists e o, forall rf, commit_decision uuid sha1 (with_payments rf ports) eid now t id decision request w = (Err e, mkWorld (w_db w) o).
Proof.
  intros Hst. unfold commit_decision.
  destruct (load id t (sd_store (w_db w)) (sd_store (w_db w))) as [[a|e] s1] eqn:Hl.
  - assert (Hf : findById id t (sd_store (w_db w)) = Ok (Some a) /\ s1 = sd_store (w_db w)).
    { by apply lc_load_Ok in Hl. }
    destruct Hf as [Hf ->]. specialize (Hst a Hf).
    destruct (check_refundable ports request a t w) as [[u|e] w2] eqn:Hk; pose proof (check_off_db _ _ _ _ _ _ _ Hk) as Hdb.
    + assert (Hd : exists e s', decide_tx uuid sha1 eid now t id decision (sd_store (w_db w)) (sd_store (w_db w)) = (Err e, s')).
      { unfold decide_tx. unfold load in Hl |- *. rewrite (run_bind _ _ _ _ _ Hl). unfold call, run_on.
        destruct (decideResolution sha1 decision eid now a) as [[v|e] a1] eqn:Hd; [|by exists e, (sd_store (w_db w))]. exfalso.
        unfold decideResolution, transition in Hd. agg_inv. cbn in *. rewrite Hst in *.
        match goal with Hx : canTransitionReturn _ _ = true |- _ => destruct (rd_outcome decision); vm_compute in Hx; discriminate Hx end. }
      destruct Hd as (e & s' & Hd). exists e, (w_out w2). intros rf.
      rewrite (transactional_Err _ w e (mkWorld (mkServiceDb s' (sd_processed (w_db w2))) (w_out w2))); [done|].
      rewrite read_bind, (run_bind _ _ _ _ _ (stored_reads _ _ _ Hl)), (run_bind _ _ _ _ _ Hk). apply bind_fails, stored_err. rewrite Hdb. exact Hd.
    + exists e, (w_out w2). intros rf. erewrite transactional_Err; [reflexivity|].
      rewrite read_bind, (run_bind _ _ _ _ _ (stored_reads _ _ _ Hl)). by apply bind_fails.
  - exists e, (w_out w). intros rf. erewrite transactional_Err; [|rewrite read_bind; by apply bind_fails, stored_err]. done.
Qed.
End resolution.

(** ** Properties *)

(** A return taken up to its resolution. *)
Definition sample_id : string := "9f1b7d46-30c8-4c5d-8e21-6a0d4f3b7c15".
Definition sample_event : string := "0d5e7a14-6c2f-4b8e-a1d9-93f4c07b25e6".
Definition sample_sha1 (_ : string) : string := "da39a3ee5e6b4b0d3255bfef95601890afd80709".
Definition sample_inputs : list CreateReturnRequestItemInput := [mkItemInput "line-1" "sku-1" (NInt 2) "damaged" None].
Definition sample_refund : RefundDecision := mkDecision refund (Some (NInt 500)) (Some "EUR").
Definition sample_tx (t : ReturnTx) : list (Action ReturnTx) := [Begin t; Read 0; Commit 0].
Definition sample_accepted : list (Action ReturnTx) :=
  sample_tx (TxCreate (fun _ => sample_id) "t1" "order-1" sample_inputs) ++
  concat ((fun st => sample_tx (TxAdvance sample_event 1 "t1" sample_id st)) <$> [approved; rma_generated; package_received; inspection_completed]) ++
  sample_tx (TxAccept sample_event 2 "t1" sample_id [("line-1", restock)]).
(** Two workers decide a refund; the second lost the race, reads again and is refused. *)
Definition sample_decided : list (Action ReturnTx) :=
  sample_accepted ++ [Begin (TxDecide sample_event 3 "t1" sample_id sample_refund); Begin (TxDecide sample_event 3 "t1" sample_id sample_refund);
    Read 0; Read 1; Commit 1; Again 0; Read 0; Abort 0].
Definition sample_after (l : list (Action ReturnTx)) : ReturnState :=
  default (empty_store, []) (il_store <$> run_actions (return_do sample_uuid sample_sha1) l (mkInterleaved (empty_store, []) [])).
(** Payments is down; the world counts the calls. *)
Definition sample_ports : Ports (X := nat) := mkPorts (fun _ _ _ => mret tt) (fun _ _ _ => mret tt)
  (fun _ _ _ _ _ => modify S;; throw (UnexpectedError "payment provider unavailable")) None (fun _ _ _ => mret tt) (fun _ _ => mret true).
Definition sample_world : World (ServiceDb ReturnStore) nat := mkWorld (mkServiceDb (fst (sample_after sample_accepted)) []) 0%nat.

(** C8: however the transactions of all workers interleave, retries and crashes included, the moves published
    for a return lead along the transition table to the status its row has, and at most one worker ever goes
    on to request a given return's refund from Payments. *)
Theorem refund_is_requested_at_most_once uuid sha1 l x :
  run_actions (return_do uuid sha1) l (mkInterleaved (empty_store, []) []) = Some x ->
  (forall id r, row_of id (ls_rows (fst (il_store x))) = Some r ->
     replay requested (published_moves id (fst (il_store x))) = Some (rr_status (row_props r))) /\
  forall id, (asked id (il_store x) <= 1)%nat.
Proof.
  intros (Hok & _ & Hn)%return_interleaved. split; [intros id r Hr; exact (lc_ok_row id _ _ Hok Hr)|].
  intros id. etransitivity; [apply Hn|]. by apply refund_moves_once.
Qed.

Lemma refund_is_requested_at_most_once_witness :
  let x := mkInterleaved (sample_after sample_decided) [] in
  run_actions (return_do sample_uuid sample_sha1) sample_decided (mkInterleaved (empty_store, []) []) = Some x /\
  snd (sample_after sample_decided) = [sample_id] /\ (asked sample_id (il_store x) <= 1)%nat.
Proof.
  intros x. assert (Hl : run_actions (return_do sample_uuid sample_sha1) sample_decided (mkInterleaved (empty_store, []) []) = Some x) by by vm_compute.
  split; [exact Hl|]. split; [by vm_compute|]. exact (proj2 (refund_is_requested_at_most_once sample_uuid sample_sha1 _ _ Hl) sample_id).
Defined.

(** A refund that Payments did not take is lost. The decision is committed before Payments is asked, so
    when the request throws, the use case fails and leaves the return in [refund_requested]; from there
    every later decision, whoever makes it, fails without calling Payments. *)
Theorem failed_refund_is_never_requested_again {X} uuid sha1 (ports : Ports (X := X)) (w w1 : World (ServiceDb ReturnStore) X) eid now tenantId id n c a e o :
  rows_wf (ls_rows (sd_store (w_db w))) ->
  commit_decision uuid sha1 ports eid now tenantId id (mkDecision refund (Some n) (Some c)) (Some (n, c)) w = (Ok a, w1) ->
  requestRefund ports (rq_orderRef (agg_props a)) n c (refund_key id) tenantId (w_out w1) = (Err e, o) ->
  DecideResolution uuid sha1 ports eid now tenantId id refund (Some n) (Some c) w = (Err e, mkWorld (w_db w1) o) /\
  (exists r, row_of id (ls_rows (sd_store (w_db w1))) = Some r /\ rr_status (row_props r) = refund_requested) /\
  forall (ports' : Ports (X := X)) eid' now' outcome n' c' o', exists e' o2, forall rf,
    DecideResolution uuid sha1 (with_payments rf ports') eid' now' tenantId id outcome n' c' (mkWorld (w_db w1) o') = (Err e', mkWorld (w_db w1) o2).
Proof.
  intros Hw Hc Hp. pose proof (commit_decision_Ok _ _ _ _ _ _ _ _ _ _ _ _ Hc) as Hd.
  destruct (decided_row uuid sha1 _ _ _ _ _ _ _ _ Hw Hd) as (Hid & Hw1 & r & Hr & Hs). split; [|split].
  - unfold DecideResolution. erewrite run_bind by reflexivity. cbv zeta. cbn [refund_request]. rewrite (run_bind _ _ _ _ _ Hc).
    apply bind_fails, bind_fails. unfold outside. rewrite Hid, Hp. done.
  - by exists r.
  - intros ports' eid' now' outcome n' c' o'. unfold DecideResolution.
    destruct (RefundDecision_create outcome n' c') as [d|e']; [|by exists e', o'].
    destruct (refused_decision uuid sha1 ports' eid' now' tenantId id d (refund_request outcome n' c') (mkWorld (w_db w1) o')) as (e' & o2 & Hf).
    { intros b Hb. cbn in Hb. apply lc_find_Some in Hb as (r' & Hin & Hi & _ & _ & _ & _ & Hdom); [|done].
      apply (row_of_elem _ _ (proj1 Hw1)) in Hin. rewrite Hi, Hr in Hin. injection Hin as <-. apply lc_toDomain_status in Hdom. cbn in Hdom. by rewrite Hdom. }
    exists e', o2. intros rf. erewrite run_bind by reflexivity. cbv zeta. apply bind_fails, Hf.
Qed.

Lemma failed_refund_is_never_requested_again_witness :
  exists w1 : World (ServiceDb ReturnStore) nat, DecideResolution sample_uuid sample_sha1 sample_ports sample_event 3 "t1" sample_id refund (Some (NInt 500)) (Some "EUR") sample_world =
    (Err (UnexpectedError "payment provider unavailable"), mkWorld (w_db w1) 1%nat) /\
  exists e' o2, forall rf : string -> jsnum -> string -> string -> string -> M nat unit, DecideResolution sample_uuid sample_sha1 (with_payments (X := nat) rf sample_ports) sample_event 4 "t1" sample_id refund (Some (NInt 500)) (Some "EUR")
    (mkWorld (w_db w1) 1%nat) = (Err e', mkWorld (w_db w1) o2).
Proof.
  destruct (failed_refund_is_never_requested_again sample_uuid sample_sha1 sample_ports sample_world
    (snd (commit_decision sample_uuid sample_sha1 sample_ports sample_event 3 "t1" sample_id sample_refund (Some (NInt 500, "EUR")) sample_world))
    sample_event 3 "t1" sample_id (NInt 500) "EUR"
    (default (return_create "" "" []) (match fst (commit_decision sample_uuid sample_sha1 sample_ports sample_event 3 "t1" sample_id sample_refund (Some (NInt 500, "EUR")) sample_world) with Ok a => Some a | Err _ => None end))
    (UnexpectedError "payment provider unavailable") 1%nat) as (H1 & _ & H2).
  - vm_compute. split; [by apply NoDup_singleton|]. by intros r ->%list_elem_of_singleton.
  - by vm_compute.
  - by vm_compute.
  - eexists. split; [exact H1|]. exact (H2 sample_ports sample_event 4 refund (Some (NInt 500)) (Some "EUR") 1%nat).
Defined.

(** The dispositions the inspector decides on are never stored. [AcceptItems] sets them on the return it
    saves, but an update does not write the items: no schedule of the transactions ever leaves a row with a
    disposition. *)
Theorem dispositions_are_never_stored uuid sha1 l x r :
  run_actions (return_do uuid sha1) l (mkInterleaved (empty_store, []) []) = Some x -> r ∈ ls_rows (fst (il_store x)) ->
  Forall (fun i => ij_disposition i = None) (rr_items (row_props r)).
Proof. intros (_ & Hd & _)%return_interleaved. apply Hd. Qed.

Lemma dispositions_are_never_stored_witness :
  let r := default (mkRow "" "" 0 (toRow (agg_props (return_create "" "" [])))) (row_of sample_id (ls_rows (fst (sample_after sample_accepted)))) in
  rr_status (row_props r) = items_accepted /\ length (rr_items (row_props r)) = 1%nat /\
  Forall (fun i => ij_disposition i = None) (rr_items (row_props r)).
Proof.
  cbv zeta. split; [by vm_compute|]. split; [by vm_compute|].
  apply (dispositions_are_never_stored sample_uuid sample_sha1 sample_accepted (mkInterleaved (sample_after sample_accepted) [])); [by vm_compute|by vm_compute; left].
Defined.

(** The ids Returns derives for attempts and inspections are UUIDs (version 5), whatever they are derived
    from, given that the hash is forty hexadecimal digits. *)
Theorem derived_ids_are_uuids sha1 id n itemRef :
  Sha1Digest sha1 -> isUuidV5 (attempt_id sha1 id n) = true /\ isUuidV5 (inspection_id sha1 id itemRef) = true.
Proof. intros Hd. split; by apply deterministicUuid_shape. Qed.

Lemma derived_ids_are_uuids_witness :
  Sha1Digest sample_sha1 /\ isUuidV5 (attempt_id sample_sha1 sample_id 0) = true /\
  attempt_id sample_sha1 sample_id 0 = "da39a3ee-5e6b-5b0d-b255-bfef95601890".
Proof.
  assert (Hd : Sha1Digest sample_sha1) by (intros x; by vm_compute).
  split; [exact Hd|]. split; [exact (proj1 (derived_ids_are_uuids sample_sha1 sample_id 0 "line-1" Hd))|]. by vm_compute.
Defined.

(** The check Returns makes and the refund Payments makes agree for an order with one intent in the
    currency, as every order of the checkout has: the check says yes exactly when the refund finds its
    intent. *)
Theorem single_intent_refund_is_found i n :
  adapter_isRefundable [i] n = true <-> refund_target [i] n = Some i.
Proof.
  unfold adapter_isRefundable, refund_target. cbn. replace (captured_of i + 0 - (refunded_of i + 0)) with (captured_of i - refunded_of i) by lia.
  case_bool_decide; naive_solver.
Qed.
