(* ===== verification/OrderFlow.v ===== *)
(** Orders on a store: [services/orders/src/infrastructure], [application] and [interfaces]. The rows of an
    order, the counter its number comes from, every use case as a transaction, the calls they make to the
    other contexts, and the consumer of captured payments. An order's status is that of the last entry of
    its history, which is loaded by time; what order rows of one time come in the database does not say,
    so it is a class, [RowOrder]. *)
From S2P Require Import Prelude Kernel Consumer Store Uuids Lifecycle Paging Orders.

#[global] Open Scope Z_scope.
Import Money.

(** ** Rows ([infrastructure/order.mapper.ts]) *)

Record OrderColumns := mkOrderColumns {
  oc_orderNumber : string; oc_customerRef : string; oc_currency : string; oc_checkoutRef : option string; oc_paymentRef : option string;
  oc_fulfillmentRef : option string; oc_billingAddress : option AddressSnapshot; oc_totals : option OrderTotalsSnapshot }.
Record OrderItemRow := mkItemRow {
  ir_id : string; ir_tenantId : string; ir_orderId : string; ir_productRef : string; ir_name : string; ir_unitPriceAmountMinor : Z;
  ir_quantity : jsnum; ir_variantRef : option string; ir_sku : option string; ir_variantTitle : option string }.
Record OrderAddressRow := mkAddressRow { dr_orderId : string; dr_tenantId : string; dr_address : AddressSnapshot }.
Record OrderEventRow := mkEventRow { er_id : string; er_tenantId : string; er_orderId : string; er_type : OrderEventType; er_occurredAt : Z }.
#[export] Instance OrderEventRow_eq_dec : EqDecision OrderEventRow.
Proof. solve_decision. Defined.

Definition must {A} (r : result A) (what : string) : result A :=
  match r with
  | Ok a => Ok a
  | Err e => Err (UnexpectedError ("Corrupt orders row: invalid " +:+ what +:+ " (" +:+ error_message e +:+ ")"))
  end.

(** The totals as the JSON column has them: what is zero or empty is left out, and whether tax is included
    is always there. *)
Definition totals_json (t : OrderTotalsSnapshot) : OrderTotalsSnapshot :=
  mkOrderTotals (ots_subtotalMinor t) (ots_taxMinor t) (ots_shippingMinor t) (ots_discountMinor t) (ots_totalMinor t) (ots_currency t)
    (ots_shippingMethod t) (ots_shippingName t) (Some (default false (ots_taxIncluded t)))
    (if bool_decide (default 0 (ots_shippingDiscountMinor t) = 0) then None else ots_shippingDiscountMinor t)
    (match ots_discounts t with Some [] | None => None | Some l => Some l end).
Definition totals_toDomain (t : OrderTotalsSnapshot) : OrderTotalsSnapshot :=
  mkOrderTotals (ots_subtotalMinor t) (ots_taxMinor t) (ots_shippingMinor t) (ots_discountMinor t) (ots_totalMinor t) (ots_currency t)
    (ots_shippingMethod t) (ots_shippingName t) (Some (default false (ots_taxIncluded t))) (ots_shippingDiscountMinor t) (ots_discounts t).

Definition address_toDomain (a : AddressSnapshot) : result AddressSnapshot :=
  AddressSnapshot_create (ad_line1 a) (ad_city a) (ad_postalCode a) (ad_country a) (ad_line2 a) (ad_recipientName a) (ad_phone a) (ad_province a).

Definition item_toDomain (currency : string) (r : OrderItemRow) : result OrderItem :=
  unitPrice ← must (create (NInt (ir_unitPriceAmountMinor r)) currency) "item unit price";
  snapshot ← must (ProductSnapshot_create (ir_productRef r) (ir_name r) unitPrice
    (v ← ir_variantRef r; Some (mkVariantSnapshot v (default "" (ir_sku r)) (ir_variantTitle r)))) "product snapshot";
  id ← UniqueEntityId_from (ir_id r);
  Ok (mkOrderItem id snapshot (ir_quantity r)).
Definition event_toDomain (r : OrderEventRow) : result OrderEvent := id ← UniqueEntityId_from (er_id r); Ok (OrderEvent_create id (er_type r) (er_occurredAt r)).

Definition OrderNumber_create (value : string) : result string := Guard.againstEmpty value "orderNumber".

Definition toDomain (id : string) (version : Z) (c : OrderColumns) (items : list OrderItemRow) (events : list OrderEventRow) (address : AddressSnapshot) : result Order :=
  orderItems ← map_must (item_toDomain (oc_currency c)) items;
  history ← map_must event_toDomain events;
  orderNumber ← must (OrderNumber_create (oc_orderNumber c)) "order number";
  shippingAddress ← must (address_toDomain address) "shipping address";
  billingAddress ← match oc_billingAddress c with None => Ok None | Some b => a ← must (address_toDomain b) "billing address"; Ok (Some a) end;
  reconstitute id (mkOrderProps orderNumber (oc_customerRef c) (oc_currency c) orderItems shippingAddress history billingAddress
    (totals_toDomain <$> oc_totals c) (oc_checkoutRef c) (oc_paymentRef c) (oc_fulfillmentRef c)) version.

Definition toOrderRow (p : OrderProps) : OrderColumns :=
  mkOrderColumns (op_orderNumber p) (op_customerRef p) (op_currency p) (op_checkoutRef p) (op_paymentRef p) (op_fulfillmentRef p)
    (op_billingAddress p) (totals_json <$> op_totals p).
Definition toItemRow (orderId tenantId : string) (i : OrderItem) : OrderItemRow :=
  let s := oi_snapshot i in
  mkItemRow (oi_id i) tenantId orderId (ps_productId s) (ps_name s) (amountMinor (ps_unitPrice s)) (oi_quantity i)
    (psv_variantRef <$> ps_variant s) (psv_sku <$> ps_variant s) (ps_variant s ≫= psv_variantTitle).
Definition toItemRows (o : Order) (tenantId : string) : list OrderItemRow := toItemRow (agg_id o) tenantId <$> op_items (agg_props o).
Definition toEventRow (orderId tenantId : string) (e : OrderEvent) : OrderEventRow := mkEventRow (oe_id e) tenantId orderId (oe_type e) (oe_at e).
Definition toEventRows (o : Order) (tenantId : string) : list OrderEventRow := toEventRow (agg_id o) tenantId <$> history o.
Definition toAddressRow (o : Order) (tenantId : string) : OrderAddressRow := mkAddressRow (agg_id o) tenantId (op_shippingAddress (agg_props o)).

(** ** The store ([infrastructure/prisma-order-repository.ts]) *)

Record OrderStore := mkOrderStore {
  os_orders : list (Row OrderColumns); os_items : list OrderItemRow; os_addresses : list OrderAddressRow; os_events : list OrderEventRow;
  os_counters : gmap string Z; os_outbox : list (string * (EventMeta * OrderDomainEvent)) }.
Definition empty_orders : OrderStore := mkOrderStore [] [] [] [] ∅ [].

Definition with_orders (l : list (Row OrderColumns)) (s : OrderStore) : OrderStore := mkOrderStore l (os_items s) (os_addresses s) (os_events s) (os_counters s) (os_outbox s).
Definition with_items (l : list OrderItemRow) (s : OrderStore) : OrderStore := mkOrderStore (os_orders s) l (os_addresses s) (os_events s) (os_counters s) (os_outbox s).
Definition with_addresses (l : list OrderAddressRow) (s : OrderStore) : OrderStore := mkOrderStore (os_orders s) (os_items s) l (os_events s) (os_counters s) (os_outbox s).
Definition with_events (l : list OrderEventRow) (s : OrderStore) : OrderStore := mkOrderStore (os_orders s) (os_items s) (os_addresses s) l (os_counters s) (os_outbox s).
Definition with_counters (m : gmap string Z) (s : OrderStore) : OrderStore := mkOrderStore (os_orders s) (os_items s) (os_addresses s) (os_events s) m (os_outbox s).
Definition with_outbox (l : list (string * (EventMeta * OrderDomainEvent))) (s : OrderStore) : OrderStore := mkOrderStore (os_orders s) (os_items s) (os_addresses s) (os_events s) (os_counters s) l.

(** [@@unique([tenantId, orderNumber])]; an update leaves what the order was placed with. *)
#[export] Instance order_table : Table OrderStore OrderColumns OrderDomainEvent := {
  tbl_rows := os_orders;
  tbl_set := with_orders;
  tbl_publish e s := with_outbox (os_outbox s ++ e) s;
  tbl_name := "Order";
  tbl_columns old new := mkOrderColumns (oc_orderNumber old) (oc_customerRef old) (oc_currency old) (oc_checkoutRef new) (oc_paymentRef new)
    (oc_fulfillmentRef new) (oc_billingAddress new) (oc_totals new);
  tbl_clash tenantId new r := bool_decide (row_tenant r = tenantId) && bool_decide (oc_orderNumber (row_props r) = oc_orderNumber new)
}.
#[export] Instance order_table_laws : TableLaws OrderStore OrderColumns OrderDomainEvent.
Proof. by split. Qed.

(** The orders rows come in: without [orderBy] any, with [orderBy: { occurredAt: "asc" }] any along the times. *)
Class RowOrder := {
  any_order : list OrderItemRow -> list OrderItemRow;
  any_order_perm l : any_order l ≡ₚ l;
  by_time : list OrderEventRow -> list OrderEventRow;
  by_time_perm l : by_time l ≡ₚ l;
  by_time_sorted l : StronglySorted (fun a b => er_occurredAt a <= er_occurredAt b) (by_time l)
}.

Definition unique_violation : DomainError := UnexpectedError "unique constraint violation".

(** A row under an id that is taken is refused, or with [skipDuplicates] left out. *)
Definition insert_item (l : list OrderItemRow) (r : OrderItemRow) : result (list OrderItemRow) :=
  if existsb (fun x => bool_decide (ir_id x = ir_id r)) l then Err unique_violation else Ok (l ++ [r]).
Definition insert_event (l : list OrderEventRow) (r : OrderEventRow) : result (list OrderEventRow) :=
  if existsb (fun x => bool_decide (er_id x = er_id r)) l then Err unique_violation else Ok (l ++ [r]).
Definition add_event (l : list OrderEventRow) (r : OrderEventRow) : list OrderEventRow :=
  if existsb (fun x => bool_decide (er_id x = er_id r)) l then l else l ++ [r].
Definition createMany_items (rows : list OrderItemRow) : M OrderStore unit := fun s =>
  match foldM insert_item (os_items s) rows with Ok l => (Ok tt, with_items l s) | Err e => (Err e, s) end.
Definition create_address (r : OrderAddressRow) : M OrderStore unit := fun s =>
  if existsb (fun x => bool_decide (dr_orderId x = dr_orderId r)) (os_addresses s) then (Err unique_violation, s) else (Ok tt, with_addresses (os_addresses s ++ [r]) s).
Definition createMany_events (rows : list OrderEventRow) : M OrderStore unit := fun s =>
  match foldM insert_event (os_events s) rows with Ok l => (Ok tt, with_events l s) | Err e => (Err e, s) end.
Definition createMany_new_events (rows : list OrderEventRow) : M OrderStore unit := modify (fun s => with_events (foldl add_event (os_events s) rows) s).

Definition as_row (o : Order) : Aggregate OrderColumns OrderDomainEvent := mkAgg (agg_id o) (agg_version o) (agg_events o) (toOrderRow (agg_props o)).

Definition save (o : Order) (tenantId : string) : M OrderStore unit :=
  save_row (as_row o) tenantId;;
  if bool_decide (agg_version o = 0) then
    createMany_items (toItemRows o tenantId);;
    create_address (toAddressRow o tenantId);;
    createMany_events (toEventRows o tenantId)
  else createMany_new_events (toEventRows o tenantId).

(** [INSERT ... ON CONFLICT DO UPDATE ... RETURNING]: the row is locked until the transaction ends. *)
Definition FIRST_ORDER_NUMBER : Z := 1001.
Definition next (tenantId : string) : M OrderStore string := fun s =>
  let n := match os_counters s !! tenantId with None => FIRST_ORDER_NUMBER | Some last => last + 1 end in
  (Ok (pretty n), with_counters (<[tenantId := n]> (os_counters s)) s).

Section repository.
Context `{RO : !RowOrder}.

Definition items_of (id : string) (s : OrderStore) : list OrderItemRow := any_order (filter (fun r => ir_orderId r = id) (os_items s)).
Definition events_of (id : string) (s : OrderStore) : list OrderEventRow := by_time (filter (fun r => er_orderId r = id) (os_events s)).
Definition address_of (id tenantId : string) (s : OrderStore) : option AddressSnapshot :=
  dr_address <$> find_first (fun r => bool_decide (dr_orderId r = id) && bool_decide (dr_tenantId r = tenantId)) (os_addresses s).

Definition findById (id tenantId : string) (s : OrderStore) : result (option Order) :=
  match find_by_id id tenantId s with
  | None => Ok None
  | Some a =>
      match address_of id tenantId s with
      | None => Err (UnexpectedError ("Corrupt orders data: order " +:+ id +:+ " is missing its shipping-address row"))
      | Some address => o ← toDomain (agg_id a) (agg_version a) (agg_props a) (items_of (agg_id a) s) (events_of (agg_id a) s) address; Ok (Some o)
      end
  end.

(** ** Use cases, as transactions ([application]): [s0] is what the load sees *)

Definition load (id tenantId : string) (s0 : OrderStore) : M OrderStore Order :=
  found ← lift (findById id tenantId s0); require "Order not found" found.
Definition order_call (id tenantId : string) (m : OrderM unit) (s0 : OrderStore) : M OrderStore Order :=
  o ← load id tenantId s0;
  o ← call o m;
  save o tenantId;;
  mret o.

Record OrderStatusOutput := mkStatusOutput { so_orderId : string; so_status : OrderEventType }.
Definition output (o : Order) : result OrderStatusOutput := st ← status_of (history o); Ok (mkStatusOutput (agg_id o) st).

(** *** Placing an order ([place-order.use-case.ts], [create-order-from-checkout.use-case.ts]) *)

Record ItemInput := mkItemInput {
  ii_productId : string; ii_name : string; ii_unitPriceAmountMinor : jsnum; ii_quantity : jsnum;
  ii_variantRef : option string; ii_sku : option string; ii_variantTitle : option string }.
Record AddressInput := mkAddressInput {
  ai_line1 : string; ai_city : string; ai_postalCode : string; ai_country : string; ai_name : option string; ai_phone : option string;
  ai_line2 : option string; ai_province : option string }.

Definition build_item (currency : string) (gen : string) (i : ItemInput) : result OrderItem :=
  match integer_from 1 (ii_quantity i) with
  | None => Err (ValidationError "Invalid quantity" [mkFieldIssue "quantity" "must be a positive integer"])
  | Some _ =>
      unitPrice ← create (ii_unitPriceAmountMinor i) currency;
      snapshot ← ProductSnapshot_create (ii_productId i) (ii_name i) unitPrice
        (v ← ii_variantRef i; Some (mkVariantSnapshot v (default "" (ii_sku i)) (ii_variantTitle i)));
      id ← UniqueEntityId_from gen;
      Ok (mkOrderItem id snapshot (ii_quantity i))
  end.
(** Each line takes the next id. *)
Fixpoint build_items (currency : string) (gen : nat -> string) (n : nat) (l : list ItemInput) : result (list OrderItem) :=
  match l with [] => Ok [] | i :: l' => x ← build_item currency (gen n) i; xs ← build_items currency gen (S n) l'; Ok (x :: xs) end.
Definition needs_items {A} (l : list A) : result unit :=
  if bool_decide (length l = 0%nat) then Err (ValidationError "An order needs at least one item" [mkFieldIssue "items" "at least one is required"]) else Ok tt.
Definition build_address (province : option string) (a : AddressInput) : result AddressSnapshot :=
  AddressSnapshot_create (ai_line1 a) (ai_city a) (ai_postalCode a) (ai_country a) (ai_line2 a) (ai_name a) (ai_phone a) province.

(** The transaction both share: a number, an order made with it, saved. *)
Definition place_tx (tenantId : string) (make : string -> result Order) : M OrderStore Order :=
  number ← next tenantId;
  orderNumber ← lift (OrderNumber_create number);
  o ← lift (make orderNumber);
  save o tenantId;;
  mret o.

Definition PlaceOrder (gen : nat -> string) (now : Z) (tenantId customerRef currency : string) (items : list ItemInput) (shippingAddress : AddressInput) : M OrderStore Order :=
  _ ← lift (Guard.againstEmpty customerRef "customerRef");
  _ ← lift (needs_items items);
  orderItems ← lift (build_items currency gen 0 items);
  address ← lift (build_address None shippingAddress);
  place_tx tenantId (fun number =>
    id ← UniqueEntityId_from (gen (length items));
    place id number customerRef currency orderItems address (gen (S (length items))) now).

(** [{ ...input.totals, currency: input.currency }] *)
Definition totals_in (currency : string) (t : OrderTotalsSnapshot) : OrderTotalsSnapshot :=
  mkOrderTotals (ots_subtotalMinor t) (ots_taxMinor t) (ots_shippingMinor t) (ots_discountMinor t) (ots_totalMinor t) currency
    (ots_shippingMethod t) (ots_shippingName t) (ots_taxIncluded t) (ots_shippingDiscountMinor t) (ots_discounts t).
Definition CreateOrderFromCheckout (gen : nat -> string) (now : Z) (tenantId checkoutRef customerRef currency : string) (items : list ItemInput)
    (billingAddress shippingAddress : AddressInput) (totals : OrderTotalsSnapshot) : M OrderStore Order :=
  _ ← lift (Guard.againstEmpty checkoutRef "checkoutRef");
  _ ← lift (Guard.againstEmpty customerRef "customerRef");
  _ ← lift (needs_items items);
  orderItems ← lift (build_items currency gen 0 items);
  billing ← lift (build_address (ai_province billingAddress) billingAddress);
  shipping ← lift (build_address (ai_province shippingAddress) shippingAddress);
  place_tx tenantId (fun number =>
    id ← UniqueEntityId_from (gen (length items));
    createFromCheckout id number customerRef currency orderItems shipping billing (totals_in currency totals) checkoutRef (gen (S (length items))) now).

(** *** Transitions *)

Definition advance_tx (eid : string) (now : Z) (tenantId orderId : string) (toStatus : OrderEventType) (s0 : OrderStore) : M OrderStore Order :=
  order_call orderId tenantId (transition toStatus eid now) s0.
Definition RefundOrder (eid : string) (now : Z) (tenantId orderId : string) (s0 : OrderStore) : M OrderStore Order :=
  order_call orderId tenantId (refund eid now) s0.
Definition mark_paid_tx (eid : string) (now : Z) (tenantId orderId paymentRef : string) (s0 : OrderStore) : M OrderStore Order :=
  order_call orderId tenantId (completePayment paymentRef eid now) s0.

(** [record-checkout-payment.use-case.ts]: three transitions at one time. *)
Definition checkout_payment_call (paymentRef : string) (eids : nat -> string) (now : Z) : OrderM unit :=
  transition confirmed (eids 0%nat) now;;
  transition awaiting_payment (eids 1%nat) now;;
  requestPayment paymentRef (eids 2%nat) now.
Definition record_payment_tx (eids : nat -> string) (now : Z) (tenantId orderId paymentRef : string) (s0 : OrderStore) : M OrderStore Order :=
  o ← load orderId tenantId s0;
  match op_paymentRef (agg_props o) with
  | Some ref => if bool_decide (ref = paymentRef) then mret o else throw (BusinessRuleError "Order is already linked to a different payment")
  | None =>
      st ← lift (status_of (history o));
      throw_if (negb (bool_decide (st = created))) (BusinessRuleError ("Cannot record a payment for an order in status " +:+ quoted (event_type_name st)));;
      o ← call o (checkout_payment_call paymentRef eids now);
      save o tenantId;;
      mret o
  end.

(** [precheck] and [settle] of [RequestPaymentCapture] and [RequestFulfillment]. *)
Definition no_transition (st toStatus : OrderEventType) : DomainError :=
  BusinessRuleError ("Cannot transition order from " +:+ quoted (event_type_name st) +:+ " to " +:+ quoted (event_type_name toStatus)).
Definition capture_precheck (tenantId orderId : string) (s0 : OrderStore) : M OrderStore (bool * OrderEventType * Money) :=
  o ← load orderId tenantId s0;
  st ← lift (status_of (history o));
  total ← lift (totalAmount_of (agg_props o));
  match op_paymentRef (agg_props o) with
  | Some _ => mret (true, st, total)
  | None => throw_if (negb (canTransition st payment_requested)) (no_transition st payment_requested);; mret (false, st, total)
  end.
(** The order, and whether this call settled it. *)
Definition settle_capture_tx (eid : string) (now : Z) (tenantId orderId paymentRef : string) (s0 : OrderStore) : M OrderStore (Order * bool) :=
  o ← load orderId tenantId s0;
  match op_paymentRef (agg_props o) with
  | Some _ => mret (o, false)
  | None => o ← call o (requestPayment paymentRef eid now); save o tenantId;; mret (o, true)
  end.
Definition fulfillment_precheck (tenantId orderId : string) (s0 : OrderStore) : M OrderStore (bool * OrderEventType) :=
  o ← load orderId tenantId s0;
  st ← lift (status_of (history o));
  match op_fulfillmentRef (agg_props o) with
  | Some _ => mret (true, st)
  | None => throw_if (negb (canTransition st fulfillment_requested)) (no_transition st fulfillment_requested);; mret (false, st)
  end.
Definition settle_fulfillment_tx (eid : string) (now : Z) (tenantId orderId fulfillmentRef : string) (s0 : OrderStore) : M OrderStore (Order * bool) :=
  o ← load orderId tenantId s0;
  match op_fulfillmentRef (agg_props o) with
  | Some _ => mret (o, false)
  | None => o ← call o (requestFulfillment fulfillmentRef eid now); save o tenantId;; mret (o, true)
  end.

Definition GetOrder (tenantId orderId : string) (s : OrderStore) : result Order :=
  found ← findById orderId tenantId s;
  match found with Some o => Ok o | None => Err (NotFoundError "Order not found") end.

(** ** Calls as transactions *)

Inductive OrderTx :=
| TxPlace (gen : nat -> string) (now : Z) (tenantId customerRef currency : string) (items : list ItemInput) (shippingAddress : AddressInput)
| TxCheckout (gen : nat -> string) (now : Z) (tenantId checkoutRef customerRef currency : string) (items : list ItemInput)
    (billingAddress shippingAddress : AddressInput) (totals : OrderTotalsSnapshot)
| TxAdvance (eid : string) (now : Z) (tenantId orderId : string) (toStatus : OrderEventType)
| TxRefund (eid : string) (now : Z) (tenantId orderId : string)
| TxMarkPaid (eid : string) (now : Z) (tenantId orderId paymentRef : string)
| TxRecordPayment (eids : nat -> string) (now : Z) (tenantId orderId paymentRef : string)
| TxSettleCapture (eid : string) (now : Z) (tenantId orderId paymentRef : string)
| TxSettleFulfillment (eid : string) (now : Z) (tenantId orderId fulfillmentRef : string).

Definition order_exec_tx (t : OrderTx) (snaps : list OrderStore) (s : OrderStore) : result OrderStore :=
  match t, snaps with
  | TxPlace gen now tenantId customerRef currency items address, _ => committed (PlaceOrder gen now tenantId customerRef currency items address) s
  | TxCheckout gen now tenantId checkoutRef customerRef currency items billing shipping totals, _ =>
      committed (CreateOrderFromCheckout gen now tenantId checkoutRef customerRef currency items billing shipping totals) s
  | TxAdvance eid now tenantId orderId toStatus, [s0] => committed (advance_tx eid now tenantId orderId toStatus s0) s
  | TxRefund eid now tenantId orderId, [s0] => committed (RefundOrder eid now tenantId orderId s0) s
  | TxMarkPaid eid now tenantId orderId paymentRef, [s0] => committed (mark_paid_tx eid now tenantId orderId paymentRef s0) s
  | TxRecordPayment eids now tenantId orderId paymentRef, [s0] => committed (record_payment_tx eids now tenantId orderId paymentRef s0) s
  | TxSettleCapture eid now tenantId orderId paymentRef, [s0] => committed (settle_capture_tx eid now tenantId orderId paymentRef s0) s
  | TxSettleFulfillment eid now tenantId orderId fulfillmentRef, [s0] => committed (settle_fulfillment_tx eid now tenantId orderId fulfillmentRef s0) s
  | _, _ => Err (UnexpectedError "unreachable")
  end.

(** What a call on an order stamps its history with: the ids, the time and the order. *)
Definition tx_stamps (t : OrderTx) : option (list string * Z * string) :=
  match t with
  | TxPlace _ _ _ _ _ _ _ | TxCheckout _ _ _ _ _ _ _ _ _ _ => None
  | TxAdvance eid now _ id _ | TxRefund eid now _ id | TxMarkPaid eid now _ id _ | TxSettleCapture eid now _ id _ | TxSettleFulfillment eid now _ id _ => Some ([eid], now, id)
  | TxRecordPayment eids now _ id _ => Some ([eids 0%nat; eids 1%nat; eids 2%nat], now, id)
  end.
(** The rows of an order's history come in the order they were written. Rows of one time need not. *)
Definition entries_in (id : string) (s : OrderStore) : list OrderEventRow := filter (fun r => er_orderId r = id) (os_events s).
Definition in_order (id : string) (s : OrderStore) : Prop := by_time (entries_in id s) = entries_in id s.
#[export] Instance in_order_dec id s : Decision (in_order id s).
Proof. unfold in_order. apply _. Defined.
(** The generator gives ids no history has, the history that was loaded came in the order it was written,
    and the clock is not behind it. *)
Definition stamped (t : OrderTx) (snaps : list OrderStore) (s : OrderStore) : bool :=
  match tx_stamps t with
  | None => true
  | Some (eids, now, id) =>
      bool_decide (NoDup eids) && forallb (fun e => negb (existsb (fun r => bool_decide (er_id r = e)) (os_events s))) eids &&
      forallb (fun s0 => bool_decide (in_order id s0) && forallb (fun r => bool_decide (er_orderId r = id -> er_occurredAt r <= now)) (os_events s0)) snaps
  end.
Definition stamped_exec (t : OrderTx) (snaps : list OrderStore) (s : OrderStore) : result OrderStore :=
  if stamped t snaps s then order_exec_tx t snaps s else Err (UnexpectedError "a clock behind the history, a history out of order, or an id generated twice").
Definition orders_do := il_do order_exec_tx.
Definition stamped_do := il_do stamped_exec.

(** ** Use cases beside the other contexts ([application/ports.ts]) *)

Section world.
Context {X : Type}.

(** The ports a deployment may leave out are options. *)
Record OrderPorts := mkPorts {
  notify : option (string -> string -> OrderEventType -> string -> M X unit);
  voidPayment : option (string -> string -> M X unit);
  cancelOpenFulfillment : option (string -> string -> M X unit);
  releaseOrderStock : option (string -> string -> M X unit);
  requestCapture : string -> Z -> string -> string -> M X string;
  requestReservation : string -> string -> M X string;
  requestShipment : string -> string -> M X string;
  hasCapturedPayment : option (string -> string -> string -> M X bool) }.
Context (ports : OrderPorts).
Abbreviation OrderWorld := (World OrderStore X).

Definition read_db {A} (m : OrderStore -> M OrderStore A) : M OrderWorld A := s0 ← gets w_db; on_db (m s0).
(** [port?.method(...)] *)
Definition when_wired {F} (port : option F) (use : F -> M X unit) : M OrderWorld unit :=
  best_effort (match port with Some f => outside (use f) | None => mret tt end).
Definition notifyBestEffort (o : Order) (tenantId : string) : M OrderWorld unit :=
  st ← lift (status_of (history o));
  when_wired (notify ports) (fun f => f (op_customerRef (agg_props o)) (op_orderNumber (agg_props o)) st tenantId).

Definition AdvanceOrder (eid : string) (now : Z) (tenantId orderId : string) (toStatus : OrderEventType) : M OrderWorld OrderStatusOutput :=
  o ← transactional (
    o ← read_db (advance_tx eid now tenantId orderId toStatus);
    notifyBestEffort o tenantId;;
    mret o);
  st ← lift (status_of (history o));
  (if bool_decide (st = cancelled) then
    when_wired (cancelOpenFulfillment ports) (fun f => f orderId tenantId);;
    when_wired (releaseOrderStock ports) (fun f => f orderId tenantId);;
    match op_paymentRef (agg_props o) with
    | Some ref => when_wired (voidPayment ports) (fun f => f ref tenantId)
    | None => mret tt
    end
  else mret tt);;
  lift (output o).

Definition verified_payment (tenantId orderId paymentRef : string) : M OrderWorld bool :=
  match hasCapturedPayment ports with Some f => outside (f orderId paymentRef tenantId) | None => mret true end.
(** What follows the answer of Payments. *)
Definition mark_paid_verified (eid : string) (now : Z) (tenantId orderId paymentRef : string) (verified : bool) : M OrderWorld OrderStatusOutput :=
  throw_if (negb verified) (ValidationError "No captured payment found for this reference on this order"
    [mkFieldIssue "paymentRef" "could not be verified against Payments"]);;
  o ← transactional (read_db (mark_paid_tx eid now tenantId orderId paymentRef));
  lift (output o).
Definition MarkOrderPaid (eid : string) (now : Z) (tenantId orderId paymentRef : string) : M OrderWorld OrderStatusOutput :=
  _ ← lift (Guard.againstEmpty paymentRef "paymentRef");
  verified ← verified_payment tenantId orderId paymentRef;
  mark_paid_verified eid now tenantId orderId paymentRef verified.

Definition MAX_CONCURRENCY_RETRIES : nat := 5.
Definition RecordCheckoutPayment (eids : nat -> nat -> string) (now : Z) (tenantId orderId paymentRef : string) : M OrderWorld OrderStatusOutput :=
  retry_conflicts MAX_CONCURRENCY_RETRIES (fun i =>
    o ← transactional (read_db (record_payment_tx (eids i) now tenantId orderId paymentRef));
    lift (output o)).

Definition RequestPaymentCapture (eids : nat -> string) (now : Z) (tenantId orderId : string) : M OrderWorld OrderStatusOutput :=
  '(alreadyRequested, st, total) ← transactional (read_db (capture_precheck tenantId orderId));
  if (alreadyRequested : bool) then mret (mkStatusOutput orderId st)
  else
    paymentRef ← outside (requestCapture ports orderId (amountMinor total) (currency total) tenantId);
    retry_conflicts MAX_CONCURRENCY_RETRIES (fun i => transactional (
      '(o, settled) ← read_db (settle_capture_tx (eids i) now tenantId orderId paymentRef);
      (if (settled : bool) then notifyBestEffort o tenantId else mret tt);;
      lift (output o))).

Definition RequestFulfillment (eids : nat -> string) (now : Z) (tenantId orderId : string) : M OrderWorld OrderStatusOutput :=
  '(alreadyRequested, st) ← transactional (read_db (fulfillment_precheck tenantId orderId));
  if (alreadyRequested : bool) then mret (mkStatusOutput orderId st)
  else
    reservationRef ← outside (requestReservation ports orderId tenantId);
    shipmentRef ← outside (requestShipment ports orderId tenantId);
    retry_conflicts MAX_CONCURRENCY_RETRIES (fun i => transactional (
      '(o, settled) ← read_db (settle_fulfillment_tx (eids i) now tenantId orderId (reservationRef +:+ "|" +:+ shipmentRef));
      (if (settled : bool) then notifyBestEffort o tenantId else mret tt);;
      lift (output o))).

(** *** The consumer of captured payments ([interfaces/payment-captured.consumer.ts]) *)

(** The payload, with the id of the payment intent that raised the event. *)
Record PaymentCapturedPayload := mkCaptured { pc_intent : string; pc_orderRef : string; pc_amountMinor : Z; pc_currency : string }.

Definition already_paid (e : DomainError) : bool :=
  match e with
  | BusinessRuleError message => contains message ("from status " +:+ quoted "paid") || contains message ("from status " +:+ quoted "payment_received")
  | _ => false
  end.
Definition tolerant {A} (m : M OrderWorld A) : M OrderWorld unit := fun w =>
  match m w with
  | (Ok _, w') => (Ok tt, w')
  | (Err e, w') => ((if already_paid e then Ok tt else Err e), w')
  end.
(** What a port throws is thrown; what [MarkOrderPaid] returns as an error is looked at. *)
Definition PaymentCapturedConsumer (eid : string) (now : Z) (event : IntegrationEvent PaymentCapturedPayload) : M OrderWorld unit :=
  let tenantId := ev_tenantId _ event in
  let orderId := pc_orderRef (ev_payload event) in
  let paymentRef := pc_intent (ev_payload event) in
  throw_if (blank tenantId) (UnexpectedError ("PaymentCapturedConsumer: message " +:+ ev_messageId event +:+ " carries no tenantId on its envelope"));;
  _ ← lift (Guard.againstEmpty paymentRef "paymentRef");
  verified ← verified_payment tenantId orderId paymentRef;
  tolerant (mark_paid_verified eid now tenantId orderId paymentRef verified).

End world.

End repository.
