(* ===== verification/OrderHistory.v ===== *)
(** What the stores of OrderFlow.v keep: every stored order is one the aggregate of Orders.v reaches, under
    any schedule of the calls, and the rows, loaded, are that order. *)
From stdpp Require sorting.
From S2P Require Import Prelude Kernel Consumer Store Uuids Lifecycle Paging Orders OrderFlow.

#[global] Open Scope Z_scope.
Import Money.

(** ** Orders that differ in what their rows do not keep

    The order of the lines, and what the JSON of the totals leaves out. *)

Record alike (p q : OrderProps) : Prop := {
  al_items : op_items q ≡ₚ op_items p;
  al_totals : totals_json <$> op_totals q = totals_json <$> op_totals p;
  al_number : op_orderNumber q = op_orderNumber p;
  al_customer : op_customerRef q = op_customerRef p;
  al_currency : op_currency q = op_currency p;
  al_address : op_shippingAddress q = op_shippingAddress p;
  al_history : op_history q = op_history p;
  al_billing : op_billingAddress q = op_billingAddress p;
  al_checkout : op_checkoutRef q = op_checkoutRef p;
  al_payment : op_paymentRef q = op_paymentRef p;
  al_fulfillment : op_fulfillmentRef q = op_fulfillmentRef p
}.
#[export] Instance alike_equivalence : Equivalence alike.
Proof.
  split.
  - intros p. by split.
  - intros p q []. by split.
  - intros p q r [] []. split; [by etransitivity|congruence..].
Qed.

Lemma alike_row p q : alike p q -> toOrderRow q = toOrderRow p.
Proof. intros []. unfold toOrderRow. congruence. Qed.

(** The total does not depend on the order of the lines. *)
Lemma foldM_plus_perm {A} (f : A -> result Money) l l' acc m :
  l ≡ₚ l' -> foldM (fun a x => y ← f x; plus a y) acc l = Ok m -> foldM (fun a x => y ← f x; plus a y) acc l' = Ok m.
Proof.
  intros HP. revert acc. induction HP as [|x l l' _ IH|x y l|l1 l2 l3 _ IH1 _ IH2]; intros acc Hm; [done| | |by apply IH2, IH1].
  - cbn in *. destruct (f x ≫= plus acc) as [a|] eqn:Ha; [|done]. exact (IH a Hm).
  - cbn in *. destruct (f x) as [mx|], (f y) as [my|]; cbn in *; try done; try (destruct (plus acc my); done).
    destruct (plus acc my) as [a1|] eqn:H1; [|done]. cbn in Hm. destruct (plus a1 mx) as [a2|] eqn:H2; [|done]. cbn in Hm.
    apply MoneyLaws.plus_Ok in H1 as [C1 ->], H2 as [C2 ->]. cbn in *.
    replace (plus acc mx) with (Ok (mkMoney (amountMinor acc + amountMinor mx) (currency acc))) by (symmetry; by apply MoneyLaws.plus_Ok). cbn.
    replace (plus _ my) with (Ok (mkMoney (amountMinor acc + amountMinor my + amountMinor mx) (currency acc))).
    2:{ symmetry. apply MoneyLaws.plus_Ok. split; [done|]. cbn. f_equal. lia. }
    exact Hm.
Qed.
Lemma totalAmount_alike p q m : alike p q -> totalAmount_of q = Ok m -> totalAmount_of p = Ok m.
Proof.
  intros [Hi Ht _ _ Hc _ _ _ _ _ _]. unfold totalAmount_of. destruct (op_totals q) as [t|], (op_totals p) as [t'|]; try done.
  - assert (E : ots_totalMinor t = ots_totalMinor t' /\ ots_currency t = ots_currency t') by (by inversion Ht). by destruct E as [-> ->].
  - rewrite Hc. intros Hm. destruct (zero (op_currency p)); [|done]. cbn in *. by eapply foldM_plus_perm.
Qed.

(** A method of an order does on one what it does on another that is alike, with the same events. *)
Definition matching (b o : Order) : Prop := agg_id b = agg_id o /\ alike (agg_props o) (agg_props b).
Definition sim {A} (m m' : OrderM A) : Prop := forall b o x b', matching b o -> m b = (Ok x, b') ->
  exists o' events, m' o = (Ok x, o') /\ matching b' o' /\ agg_version b' = agg_version b /\ agg_version o' = agg_version o /\
    agg_events b' = agg_events b ++ events /\ agg_events o' = agg_events o ++ events.

Lemma sim_pure {A} (f f' : Order -> result A) : (forall b o x, matching b o -> f b = Ok x -> f' o = Ok x) -> sim (fun a => (f a, a)) (fun a => (f' a, a)).
Proof. intros Hf b o x b' Hm [= Hx <-]. exists o, []. rewrite !app_nil_r. by rewrite (Hf _ _ _ Hm Hx). Qed.
Lemma sim_bind {A B} (m m' : OrderM A) (g g' : A -> OrderM B) : sim m m' -> (forall x, sim (g x) (g' x)) -> sim (m ≫= g) (m' ≫= g').
Proof.
  intros Hm Hg b o y b' Hbo (x & b1 & H1 & H2)%bind_Ok. destruct (Hm _ _ _ _ Hbo H1) as (o1 & e1 & R1 & M1 & Vb1 & Vo1 & E1 & F1), (Hg x _ o1 _ _ M1 H2) as (o2 & e2 & R2 & M2 & Vb2 & Vo2 & E2 & F2).
  exists o2, (e1 ++ e2). split; [by rewrite (run_bind _ _ _ _ _ R1)|]. rewrite E2, E1, F2, F1, !app_assoc. split; [done|]. split; [congruence|]. by split; [congruence|].
Qed.
Lemma sim_props {A} (g g' : OrderProps -> OrderM A) : (forall p q, alike p q -> sim (g q) (g' p)) -> sim (p ← gets agg_props; g p) (p ← gets agg_props; g' p).
Proof. intros Hg b o x b' [Hi Ha] Hx. rewrite gets_bind in Hx |- *. destruct (Hg _ _ Ha b o x b' (conj Hi Ha) Hx) as (o' & e & Hr). exists o', e. exact Hr. Qed.
Lemma sim_status : sim status status.
Proof. apply sim_pure. intros b o x [_ Ha]. unfold history. by rewrite (al_history _ _ Ha). Qed.
Lemma sim_total : sim totalAmount totalAmount.
Proof. apply sim_pure. intros b o x [_ Ha]. by apply totalAmount_alike. Qed.
Lemma sim_lift {A} (r : result A) : sim (lift r) (lift r).
Proof. by apply sim_pure. Qed.
Lemma sim_throw_if b e : sim (throw_if b e) (throw_if b e).
Proof. destruct b; [by apply (sim_pure (fun _ => Err e) (fun _ => Err e))|by apply (sim_pure (fun _ => Ok tt) (fun _ => Ok tt))]. Qed.
Lemma sim_throw {A} e : sim (A := A) (throw e) (throw e).
Proof. by apply (sim_pure (fun _ => Err e) (fun _ => Err e)). Qed.
Lemma sim_set f : (forall p q, alike p q -> alike (f p) (f q)) -> sim (set_props f) (set_props f).
Proof.
  intros Hf b o x b' [Hi Ha] ->%set_props_Ok. destruct x. eexists _, []. split; [by apply set_props_Ok|]. rewrite !app_nil_r. split; [|done]. split; [done|]. by apply Hf.
Qed.
Lemma sim_publish eid at_ e : sim (addDomainEvent eid at_ e) (addDomainEvent eid at_ e).
Proof.
  intros b o x b' [Hi Ha] ->%addDomainEvent_Ok. destruct x. eexists _, _. split; [by apply addDomainEvent_Ok|]. cbn. rewrite Hi. done.
Qed.
Lemma sim_record t eid at_ : sim (record t eid at_) (record t eid at_).
Proof. apply sim_bind; [apply sim_lift|]. intros id. apply sim_set. intros p q []. split; cbn; congruence || done. Qed.
#[local] Hint Resolve sim_status sim_total sim_lift sim_throw_if sim_throw sim_publish sim_record : core.
Ltac sim := repeat first [solve [eauto 2]|apply sim_bind; [|intros ?]|apply sim_set; intros ? ? []; by split].

Lemma sim_transition t eid at_ : sim (transition t eid at_) (transition t eid at_).
Proof.
  unfold transition. do 3 (apply sim_bind; [sim|intros ?]). apply sim_props. intros p q Ha. rewrite (al_number _ _ Ha), (al_customer _ _ Ha). sim.
Qed.
#[local] Hint Resolve sim_transition : core.
Lemma sim_markPaid r eid at_ : sim (markPaid r eid at_) (markPaid r eid at_).
Proof.
  unfold markPaid. do 3 (apply sim_bind; [sim|intros ?]). apply sim_props. intros p q Ha. rewrite (al_number _ _ Ha), (al_customer _ _ Ha), (al_currency _ _ Ha). sim.
Qed.
Lemma sim_exec op : sim (order_exec op) (order_exec op).
Proof.
  destruct op as [op [eid at_]]. destruct op; cbn; try solve [sim].
  - apply sim_markPaid.
  - unfold completePayment. apply sim_bind; [sim|]. intros st. case_bool_decide; [apply sim_markPaid|]. destruct (canTransition st payment_received); sim.
  - unfold refund. do 3 (apply sim_bind; [sim|intros ?]). apply sim_props. intros p q Ha. rewrite (al_number _ _ Ha), (al_customer _ _ Ha), (al_currency _ _ Ha). sim.
Qed.
Lemma sim_ops ops : sim (run_ops order_exec ops) (run_ops order_exec ops).
Proof.
  induction ops as [|op ops IH]; cbn [run_ops]; [by apply (sim_pure (fun _ => Ok tt) (fun _ => Ok tt))|]. apply sim_bind; [apply sim_exec|]. by intros _.
Qed.

(** ** What a call on an order leaves *)

(** An entry more, and perhaps the references. *)
Definition recorded (eids : list string) (now : Z) (p p' : OrderProps) : Prop :=
  exists es pr fr, p' = with_fulfillmentRef fr (with_paymentRef pr (with_history (op_history p ++ es) p)) /\
    oe_id <$> es = eids /\ Forall (fun e => oe_at e = now /\ blank (oe_id e) = false) es.

Lemma recorded_one p eid t at_ pr fr :
  blank eid = false -> recorded [eid] at_ p (with_fulfillmentRef fr (with_paymentRef pr (with_history (op_history p ++ [mkOrderEvent eid t at_]) p))).
Proof. intros Hb. exists [mkOrderEvent eid t at_], pr, fr. split; [done|]. split; [done|]. by repeat constructor. Qed.
Lemma recorded_history p eid t at_ : blank eid = false -> recorded [eid] at_ p (with_history (op_history p ++ [mkOrderEvent eid t at_]) p).
Proof. intros Hb. exact (recorded_one p eid t at_ (op_paymentRef p) (op_fulfillmentRef p) Hb). Qed.
Lemma recorded_paymentRef eids now p p' r : recorded eids now p p' -> recorded eids now p (with_paymentRef r p').
Proof. intros (es & pr & fr & -> & H1 & H2). by exists es, r, fr. Qed.
Lemma recorded_fulfillmentRef eids now p p' r : recorded eids now p p' -> recorded eids now p (with_fulfillmentRef r p').
Proof. intros (es & pr & fr & -> & H1 & H2). by exists es, pr, r. Qed.
Lemma recorded_nil now p : recorded [] now p p.
Proof. exists [], (op_paymentRef p), (op_fulfillmentRef p). split; [|done]. rewrite app_nil_r. by destruct p. Qed.
Lemma recorded_app e1 e2 now p p1 p2 : recorded e1 now p p1 -> recorded e2 now p1 p2 -> recorded (e1 ++ e2) now p p2.
Proof.
  intros (es1 & pr1 & fr1 & -> & I1 & F1) (es2 & pr2 & fr2 & -> & I2 & F2). exists (es1 ++ es2), pr2, fr2. cbn. rewrite app_assoc. split; [done|].
  split; [by rewrite fmap_app, I1, I2|]. by apply Forall_app.
Qed.

Lemma transition_recorded t eid at_ (o o' : Order) u : transition t eid at_ o = (Ok u, o') -> recorded [eid] at_ (agg_props o) (agg_props o').
Proof. intros H. unfold transition in H. order_inv. by apply recorded_history. Qed.
Lemma exec_recorded op eid at_ (o o' : Order) u : order_exec (op, (eid, at_)) o = (Ok u, o') -> recorded [eid] at_ (agg_props o) (agg_props o').
Proof.
  assert (Hpay : forall r, markPaid r eid at_ o = (Ok u, o') -> recorded [eid] at_ (agg_props o) (agg_props o')).
  { intros r H. unfold markPaid, totalAmount in H. order_inv. by apply recorded_history. }
  destruct op; cbn; try apply transition_recorded; try apply Hpay.
  - intros H. unfold completePayment in H. order_inv. case_bool_decide; [by eapply Hpay|]. destruct (canTransition _ _); [|minv]. minv.
    apply set_props_Ok in H as ->. cbn. apply recorded_paymentRef. by eapply transition_recorded.
  - intros H. unfold refund, totalAmount in H. order_inv. by apply recorded_history.
  - intros H. unfold requestPayment in H. minv. apply set_props_Ok in H as ->. apply recorded_paymentRef. by eapply transition_recorded.
  - intros H. unfold requestFulfillment in H. minv. apply set_props_Ok in H as ->. apply recorded_fulfillmentRef. by eapply transition_recorded.
Qed.
Lemma ops_recorded ops now (o o' : Order) u :
  Forall (fun op => op.2.2 = now) ops -> run_ops order_exec ops o = (Ok u, o') -> recorded ((fun op => op.2.1) <$> ops) now (agg_props o) (agg_props o').
Proof.
  intros Hf. revert o. induction Hf as [|[op [eid at_]] ops Hat _ IH]; intros o H; cbn in *.
  - apply ret_Ok in H as [_ ->]. apply recorded_nil.
  - subst at_. apply bind_Ok in H as (u1 & o1 & H1 & H2). apply (recorded_app [eid] _ _ _ (agg_props o1)); [by eapply exec_recorded|by apply IH].
Qed.

(** ** Orders whose rows load *)

Definition line_ok (c : string) (i : OrderItem) : Prop :=
  blank (oi_id i) = false /\ blank (ps_productId (oi_snapshot i)) = false /\ blank (ps_name (oi_snapshot i)) = false /\
  0 <= amountMinor (ps_unitPrice (oi_snapshot i)) /\ currency (ps_unitPrice (oi_snapshot i)) = c.
Definition address_ok (a : AddressSnapshot) : Prop := address_toDomain a = Ok a.
Record order_wf (p : OrderProps) : Prop := {
  wf_number : blank (op_orderNumber p) = false;
  wf_currency : isValidCurrencyCode (op_currency p) = true;
  wf_lines : Forall (line_ok (op_currency p)) (op_items p);
  wf_shipping : address_ok (op_shippingAddress p);
  wf_billing : forall b, op_billingAddress p = Some b -> address_ok b;
  wf_events : Forall (fun e => blank (oe_id e) = false) (op_history p);
  wf_history : op_history p <> [];
  wf_times : StronglySorted (fun a b => oe_at a <= oe_at b) (op_history p)
}.

Lemma AddressSnapshot_create_ok l c pc co l2 rn ph pr a : AddressSnapshot_create l c pc co l2 rn ph pr = Ok a -> address_ok a.
Proof. intros H. pose proof H as H'. unfold AddressSnapshot_create in H'. case_match; [|done]. injection H' as <-. exact H. Qed.

Lemma sorted_app_all {A} (R : A -> A -> Prop) l1 l2 : StronglySorted R l1 -> StronglySorted R l2 -> (forall a b, a ∈ l1 -> b ∈ l2 -> R a b) -> StronglySorted R (l1 ++ l2).
Proof.
  intros H1 H2 Hall. induction H1 as [|x l1 _ IH Hx]; [done|]. cbn. constructor.
  - apply IH. intros a b Ha. apply Hall. by right.
  - apply Forall_app. split; [done|]. apply Forall_forall. intros b Hb. apply Hall; [left|done].
Qed.

Lemma recorded_wf eids now p p' : order_wf p -> recorded eids now p p' -> Forall (fun e => oe_at e <= now) (op_history p) -> order_wf p'.
Proof.
  intros [] (es & pr & fr & -> & _ & Hes) Hnow. rewrite Forall_forall in Hes. split; cbn; try done.
  - apply Forall_app. split; [done|]. apply Forall_forall. intros e He. by apply Hes.
  - by destruct (op_history p).
  - apply sorted_app_all; [done| |].
    + clear -Hes. induction es as [|e es IH]; [constructor|]. constructor; [apply IH; intros e' He'; apply Hes; by right|].
      apply Forall_forall. intros e' He'. rewrite (proj1 (Hes e ltac:(left))), (proj1 (Hes e' ltac:(by right))). lia.
    + intros e e' He He'. rewrite Forall_forall in Hnow. rewrite (proj1 (Hes _ He')). by apply Hnow.
Qed.

(** The rows load as the order they are written from. *)
Lemma must_ok {A} (r : result A) what a : r = Ok a -> must r what = Ok a.
Proof. by intros ->. Qed.
Lemma map_must_ok {A B} (f : A -> result B) (g : B -> A) l : Forall (fun x => f (g x) = Ok x) l -> map_must f (g <$> l) = Ok l.
Proof. induction 1 as [|x l Hx _ IH]; [done|]. cbn. rewrite Hx. cbn. fold (fmap (M := list) g l). by rewrite IH. Qed.
Lemma order_line_roundtrip c orderId tenantId i : isValidCurrencyCode c = true -> line_ok c i -> item_toDomain c (toItemRow orderId tenantId i) = Ok i.
Proof.
  intros Hc (Hi & Hp & Hn & Ha & Hcur). unfold item_toDomain, toItemRow. cbn.
  rewrite (proj2 (MoneyLaws.create_Ok _ c (ps_unitPrice (oi_snapshot i)))) by (split_and!; [done|done|split; [done|by rewrite Hcur]]). cbn.
  unfold ProductSnapshot_create. rewrite Hp, Hn. cbn. rewrite (proj2 (UniqueEntityId_from_Ok _ (oi_id i)) (conj Hi eq_refl)). cbn.
  destruct i as [id [pid name price [[v sku title]|]] q]; done.
Qed.
Lemma totals_json_loaded t : totals_json (totals_toDomain (totals_json t)) = totals_json t.
Proof.
  destruct t as [s ta sh d to c sm sn ti sd di]. unfold totals_json, totals_toDomain. cbn. destruct sd as [z|], di as [[|x l]|]; cbn; try done.
  all: destruct (bool_decide (z = 0)) eqn:Hz; cbn; try rewrite Hz; done.
Qed.

(** ** What the store keeps *)

Definition lines_in (id : string) (s : OrderStore) : list OrderItemRow := filter (fun r => ir_orderId r = id) (os_items s).
Definition published_of (id : string) (s : OrderStore) : list (EventMeta * OrderDomainEvent) := filter (fun e => aggregateId e.1 = id) (snd <$> os_outbox s).

(** A row and what belongs to it, as an order the aggregate reaches. *)
Record holds (s : OrderStore) (r : Row OrderColumns) (o : Order) : Prop := {
  ho_reach : order_reachable o;
  ho_id : agg_id o = row_id r;
  ho_row : row_props r = toOrderRow (agg_props o);
  ho_lines : lines_in (row_id r) s = toItemRow (row_id r) (row_tenant r) <$> op_items (agg_props o);
  ho_entries : entries_in (row_id r) s = toEventRow (row_id r) (row_tenant r) <$> history o;
  ho_address : address_of (row_id r) (row_tenant r) s = Some (op_shippingAddress (agg_props o));
  ho_wf : order_wf (agg_props o);
  ho_published : published_of (row_id r) s = agg_events o
}.

(** The numbers a shop's orders have, in the order they were placed. *)
Definition numbers_of (tenantId : string) (s : OrderStore) : list string := oc_orderNumber ∘ row_props <$> filter (fun r => row_tenant r = tenantId) (os_orders s).
Definition numbers_from (n : nat) : list string := (fun k => pretty (FIRST_ORDER_NUMBER + Z.of_nat k)) <$> seq 0 n.
Definition counted (tenantId : string) (s : OrderStore) : Prop :=
  exists n, numbers_of tenantId s = numbers_from n /\
    os_counters s !! tenantId = match n with O => None | S k => Some (FIRST_ORDER_NUMBER + Z.of_nat k) end.

Record orders_ok (s : OrderStore) : Prop := {
  ok_rows : rows_wf (os_orders s);
  ok_orders id r : row_of id (os_orders s) = Some r -> exists o, holds s r o;
  ok_lines ir : ir ∈ os_items s -> row_of (ir_orderId ir) (os_orders s) <> None;
  ok_entries er : er ∈ os_events s -> row_of (er_orderId er) (os_orders s) <> None;
  ok_addresses dr : dr ∈ os_addresses s -> row_of (dr_orderId dr) (os_orders s) <> None;
  ok_published e : e ∈ os_outbox s -> row_of (aggregateId e.2.1) (os_orders s) <> None;
  ok_numbers tenantId : counted tenantId s
}.

Lemma empty_orders_ok : orders_ok empty_orders.
Proof.
  split; [split; [constructor|by intros r ?%elem_of_nil]|done|by intros ? ?%elem_of_nil|by intros ? ?%elem_of_nil|by intros ? ?%elem_of_nil|by intros ? ?%elem_of_nil|].
  intros t. by exists 0%nat.
Qed.

(** An order's rows are its own until its version changes. *)
Definition same_rows (id : string) (s s' : OrderStore) : Prop :=
  lines_in id s' = lines_in id s /\ entries_in id s' = entries_in id s /\ forall t, address_of id t s' = address_of id t s.
Definition orders_evolve (s s' : OrderStore) : Prop :=
  forall id r, row_of id (os_orders s) = Some r ->
    exists r', row_of id (os_orders s') = Some r' /\ row_tenant r' = row_tenant r /\ row_version r <= row_version r' /\
      (row_version r' = row_version r -> r' = r /\ same_rows id s s').
#[export] Instance orders_evolve_preorder : PreOrder orders_evolve.
Proof.
  split.
  - intros s id r Hr. exists r. split_and!; [done|done|lia|]. intros _. split; [done|]. by split_and!.
  - intros s1 s2 s3 H12 H23 id r Hr. destruct (H12 id r Hr) as (r2 & Hr2 & T2 & V2 & S2), (H23 id r2 Hr2) as (r3 & Hr3 & T3 & V3 & S3).
    exists r3. split; [done|]. split; [congruence|]. split; [lia|]. intros Ev. destruct S3 as [-> (L3 & E3 & A3)]; [lia|]. destruct S2 as [-> (L2 & E2 & A2)]; [lia|].
    split; [done|]. split; [congruence|]. split; [congruence|]. intros t. by rewrite A3, A2.
Qed.
Lemma orders_evolve_rows s s' : orders_evolve s s' -> rows_evolve (os_orders s) (os_orders s').
Proof. intros He id r Hr. destruct (He id r Hr) as (r' & Hr' & T & V & S). exists r'. split_and!; [done|done|done|]. intros Ev. by apply S. Qed.

Lemma order_by_id id s r : rows_wf (os_orders s) -> row_of id (os_orders s) = Some r -> find_by_id id (row_tenant r) s = Some (rehydrate r).
Proof. intros Hw Hr. by apply (find_by_id_current (S := OrderStore) (P := OrderColumns) (E := OrderDomainEvent) (H := order_table)). Qed.

Section loading.
Context `{RO : !RowOrder}.

Lemma lines_reload c id t l : isValidCurrencyCode c = true -> Forall (line_ok c) l -> exists l', l' ≡ₚ l /\ map_must (item_toDomain c) (any_order (toItemRow id t <$> l)) = Ok l'.
Proof.
  intros Hc Hl. destruct (Permutation_map_inv (toItemRow id t) l (any_order_perm (toItemRow id t <$> l))) as (l' & He & HP).
  exists l'. split; [done|]. replace (any_order (toItemRow id t <$> l)) with (toItemRow id t <$> l') by (symmetry; exact He). apply (map_must_ok _ (toItemRow id t)). rewrite HP in Hl. eapply Forall_impl; [exact Hl|]. intros i. by apply order_line_roundtrip.
Qed.
Lemma sorted_entries id t h : StronglySorted (fun a b => oe_at a <= oe_at b) h -> StronglySorted (fun a b => er_occurredAt a <= er_occurredAt b) (toEventRow id t <$> h).
Proof. induction 1 as [|e h _ IH Hf]; [constructor|]. rewrite fmap_cons. constructor; [done|]. by apply Forall_fmap. Qed.
Lemma entries_reload id t h : Forall (fun e => blank (oe_id e) = false) h ->
  exists h', h' ≡ₚ h /\ by_time (toEventRow id t <$> h) = toEventRow id t <$> h' /\ map_must event_toDomain (by_time (toEventRow id t <$> h)) = Ok h'.
Proof.
  intros Hb. destruct (Permutation_map_inv (toEventRow id t) h (by_time_perm (toEventRow id t <$> h))) as (h' & He & HP).
  change (by_time (toEventRow id t <$> h) = toEventRow id t <$> h') in He.
  exists h'. split; [done|]. split; [done|]. rewrite He. apply map_must_ok. rewrite HP in Hb. eapply Forall_impl; [exact Hb|].
  intros [eid ty at_] Hx. cbn in Hx. unfold event_toDomain, toEventRow. cbn. by rewrite (proj2 (UniqueEntityId_from_Ok _ eid) (conj Hx eq_refl)).
Qed.
#[local] Instance toEventRow_inj id t : Inj (=) (=) (toEventRow id t).
Proof. by intros [] [] [= -> -> ->]. Qed.
Lemma sorted_times id t (h : list OrderEvent) : StronglySorted (fun a b => er_occurredAt a <= er_occurredAt b) (toEventRow id t <$> h) -> StronglySorted (fun a b => oe_at a <= oe_at b) h.
Proof.
  induction h as [|e h IH]; intros Hs; [constructor|]. rewrite fmap_cons in Hs. apply StronglySorted_inv in Hs as [Hs Hf]. constructor; [by apply IH|]. by rewrite Forall_fmap in Hf.
Qed.

(** Every stored order loads, as the order it is but for the order of the entries of one time. *)
Lemma holds_load_any s r o :
  rows_wf (os_orders s) -> row_of (row_id r) (os_orders s) = Some r -> holds s r o ->
  exists b, findById (row_id r) (row_tenant r) s = Ok (Some b) /\ agg_id b = agg_id o /\ alike (with_history (history b) (agg_props o)) (agg_props b) /\
    (history b ≡ₚ history o) /\ by_time (entries_in (row_id r) s) = (toEventRow (row_id r) (row_tenant r) <$> history b) /\ agg_version b = row_version r /\ agg_events b = [].
Proof.
  intros Hw Hr [Hre Hid Hrow Hl He Ha [] _]. unfold findById.
  rewrite (order_by_id _ s r Hw Hr), Ha. cbn.
  unfold toDomain, items_of, events_of. fold (lines_in (row_id r) s) (entries_in (row_id r) s). rewrite Hl, He, Hrow. cbn.
  destruct (lines_reload _ (row_id r) (row_tenant r) _ wf_currency0 wf_lines0) as (l' & HP & Hl'). rewrite Hl'. cbn.
  destruct (entries_reload (row_id r) (row_tenant r) _ wf_events0) as (h' & HP' & Ht & Hh'). unfold history at 1. rewrite Hh'. cbn.
  rewrite (must_ok _ _ (op_orderNumber (agg_props o))) by (unfold OrderNumber_create, Guard.againstEmpty; by rewrite wf_number0). cbn.
  assert (Hne : h' <> []) by (intros ->; apply Permutation_nil_l in HP'; by apply wf_history0).
  rewrite (must_ok _ _ _ wf_shipping0). cbn. unfold reconstitute.
  destruct (op_billingAddress (agg_props o)) as [b|] eqn:Hb; [rewrite (must_ok _ _ _ (wf_billing0 b eq_refl))|]; cbn;
    (rewrite bool_decide_false by (intros Hz; by apply Hne, nil_length_inv)); eexists; (split; [reflexivity|]); (split; [done|]);
    (split; [|done]); (split; cbn; [done| |done..]); destruct (op_totals (agg_props o)); cbn; rewrite ?totals_json_loaded; done.
Qed.
Lemma holds_load s r o :
  rows_wf (os_orders s) -> row_of (row_id r) (os_orders s) = Some r -> holds s r o -> in_order (row_id r) s ->
  exists b, findById (row_id r) (row_tenant r) s = Ok (Some b) /\ matching b o /\ agg_version b = row_version r /\ agg_events b = [].
Proof.
  intros Hw Hr Ho Hin. destruct (holds_load_any s r o Hw Hr Ho) as (b & Hb & Hi & Hal & _ & Ht & Hv & He).
  exists b. split; [done|]. split; [|done]. split; [done|]. unfold in_order in Hin. rewrite Hin, (ho_entries _ _ _ Ho) in Ht.
  apply (inj (fmap (toEventRow (row_id r) (row_tenant r)))) in Ht. rewrite <- Ht in Hal. unfold history in Hal. by destruct (agg_props o).
Qed.

(** Entries whose times differ come in the order they were written. *)
Lemma distinct_times_in_order s r o : holds s r o -> NoDup (oe_at <$> history o) -> in_order (row_id r) s.
Proof.
  intros Ho Hn. unfold in_order. apply (sorting.StronglySorted_unique_strong (fun a b => er_occurredAt a <= er_occurredAt b)); [|apply by_time_sorted| |apply by_time_perm].
  - intros x y Hx Hy H1 H2. rewrite by_time_perm in Hx. rewrite (ho_entries _ _ _ Ho) in Hx, Hy.
    apply list_elem_of_fmap in Hx as (a & -> & [i Ha]%list_elem_of_lookup), Hy as (b & -> & [j Hb]%list_elem_of_lookup). cbn in H1, H2.
    assert (i = j); [|congruence]. apply (NoDup_lookup _ i j (oe_at a) Hn); rewrite list_lookup_fmap, ?Ha, ?Hb; cbn; f_equal; lia.
  - rewrite (ho_entries _ _ _ Ho). apply sorted_entries, (wf_times _ (ho_wf _ _ _ Ho)).
Qed.
Lemma findById_row id t s b : rows_wf (os_orders s) -> findById id t s = Ok (Some b) -> exists r, row_of id (os_orders s) = Some r /\ row_tenant r = t.
Proof.
  intros Hw Hf. unfold findById in Hf. destruct (find_by_id id t s) as [c|] eqn:Hc; [|done].
  apply (find_by_id_Some (S := OrderStore) (P := OrderColumns) (E := OrderDomainEvent) (H := order_table)) in Hc as (r & Hr & Ht & _); [|done]. by exists r.
Qed.

(** What an earlier load found, a later one finds, while the version is the same. *)
Lemma findById_same id s0 s r : rows_wf (os_orders s0) -> rows_wf (os_orders s) -> row_of id (os_orders s0) = Some r -> row_of id (os_orders s) = Some r -> same_rows id s0 s ->
  findById id (row_tenant r) s0 = findById id (row_tenant r) s.
Proof.
  intros Hw0 Hw Hr0 Hr (Hl & He & Ha). unfold findById.
  rewrite (order_by_id id s0 r Hw0 Hr0), (order_by_id id s r Hw Hr), <- Ha.
  unfold items_of, events_of. cbn. apply row_of_Some in Hr as [_ ->]. fold (lines_in id s0) (lines_in id s) (entries_in id s0) (entries_in id s). by rewrite Hl, He.
Qed.

End loading.

(** ** What a save leaves *)

Definition numbered (rows : list (Row OrderColumns)) : list (string * string) := (fun r => (row_tenant r, oc_orderNumber (row_props r))) <$> rows.
Lemma numbers_of_numbered t s : numbers_of t s = snd <$> filter (fun p => p.1 = t) (numbered (os_orders s)).
Proof.
  unfold numbers_of, numbered. induction (os_orders s) as [|r l IH]; [done|]. rewrite fmap_cons, !filter_cons. cbn [fst].
  case_decide; rewrite ?fmap_cons; by rewrite <- IH.
Qed.

Lemma save_row_numbered (a : Aggregate OrderColumns OrderDomainEvent) t s u s' :
  save_row a t s = (Ok u, s') ->
  numbered (os_orders s') = numbered (os_orders s) ++ (if bool_decide (agg_version a = 0) then [(t, oc_orderNumber (agg_props a))] else []).
Proof.
  intros Hs. unfold save_row, save_row_for in Hs. cbv zeta in Hs. case_bool_decide; destruct (existsb _ _); try done; injection Hs as _ <-; cbn.
  - unfold numbered. by rewrite fmap_app.
  - rewrite app_nil_r. unfold numbered, update_row. rewrite <- list_fmap_compose. apply list_fmap_ext. intros i r _. cbn. unfold is_row.
    repeat case_bool_decide; cbn; try done. congruence.
Qed.

Lemma save_row_stored (a : Aggregate OrderColumns OrderDomainEvent) t s u s' :
  save_row a t s = (Ok u, s') -> s' = with_outbox (os_outbox s ++ (pair t <$> agg_events a)) (with_orders (os_orders s') s).
Proof. intros (rows & ->)%save_row_for_shape. done. Qed.

Lemma save_row_at (a : Aggregate OrderColumns OrderDomainEvent) r s s1 :
  rows_wf (os_orders s) -> row_of (row_id r) (os_orders s) = Some r -> agg_id a = row_id r -> agg_version a = row_version r -> save_row a (row_tenant r) s = (Ok tt, s1) ->
  rows_wf (os_orders s1) /\ forall id, row_of id (os_orders s1) =
    if bool_decide (id = row_id r) then Some (mkRow (row_tenant r) (row_id r) (row_version r + 1) (tbl_columns (row_props r) (agg_props a))) else row_of id (os_orders s).
Proof.
  intros Hw Hr Hi Hv Hs. pose proof (row_of_Some _ _ _ Hr) as [Hin _]. assert (Hev : rows_evolve (os_orders s) (os_orders s)) by reflexivity.
  destruct (save_row_loaded (S := OrderStore) (P := OrderColumns) (E := OrderDomainEvent) (H := order_table) (os_orders s) r _ a _ s tt s1 Hw Hin Hev Hw Hi Hv Hs) as (_ & _ & Hrow).
  by destruct (save_row_for_Ok (S := OrderStore) (P := OrderColumns) (E := OrderDomainEvent) (H := order_table) _ a _ s tt s1 Hw Hs) as (Hw1 & _).
Qed.
Lemma save_row_first (a : Aggregate OrderColumns OrderDomainEvent) t s s1 :
  rows_wf (os_orders s) -> agg_version a = 0 -> save_row a t s = (Ok tt, s1) ->
  row_of (agg_id a) (os_orders s) = None /\ rows_wf (os_orders s1) /\
  forall id, row_of id (os_orders s1) = if bool_decide (id = agg_id a) then Some (mkRow t (agg_id a) 1 (agg_props a)) else row_of id (os_orders s).
Proof.
  intros Hw Hv Hs. destruct (save_row_new (S := OrderStore) (P := OrderColumns) (E := OrderDomainEvent) (H := order_table) _ a _ s tt s1 Hw Hv Hs) as [Hn Hrow].
  by destruct (save_row_for_Ok (S := OrderStore) (P := OrderColumns) (E := OrderDomainEvent) (H := order_table) _ a _ s tt s1 Hw Hs) as (Hw1 & _).
Qed.

Lemma save_update (b : Order) t s u s' :
  agg_version b <> 0 -> save b t s = (Ok u, s') ->
  exists s1, save_row (OrderFlow.as_row b) t s = (Ok tt, s1) /\
    s' = mkOrderStore (os_orders s1) (os_items s) (os_addresses s) (foldl add_event (os_events s) (toEventRows b t)) (os_counters s) (os_outbox s ++ (pair t <$> agg_events b)).
Proof.
  intros Hv (u1 & s1 & Hs & Hd)%bind_Ok. rewrite bool_decide_false in Hd by done. apply modify_Ok in Hd as ->. destruct u1. exists s1. split; [done|].
  apply save_row_stored in Hs as ->. done.
Qed.

(** The rows a history already has are left out, the rest are added. *)
Lemma add_known l rows : Forall (fun r => er_id r ∈ er_id <$> l) rows -> foldl add_event l rows = l.
Proof.
  induction 1 as [|r rows Hr _ IH]; [done|]. cbn. unfold add_event at 2. apply list_elem_of_fmap in Hr as (x & Hx & Hin).
  rewrite (proj2 (existsb_exists _ _)); [exact IH|]. exists x. split; [by apply list_elem_of_In|]. by apply bool_decide_eq_true.
Qed.
Lemma add_new l rows : NoDup (er_id <$> rows) -> Forall (fun r => er_id r ∉ er_id <$> l) rows -> foldl add_event l rows = l ++ rows.
Proof.
  revert l. induction rows as [|r rows IH]; intros l Hn Hf; [by rewrite app_nil_r|]. apply Forall_cons in Hf as [Hr Hf]. rewrite fmap_cons in Hn. apply NoDup_cons in Hn as [Hnr Hn].
  cbn. unfold add_event at 2. destruct (existsb _ l) eqn:He.
  - apply existsb_exists in He as (x & Hx%list_elem_of_In & Hi%bool_decide_eq_true). destruct Hr. rewrite <- Hi. by apply list_elem_of_fmap_2.
  - rewrite IH; [by rewrite <- app_assoc|done|]. rewrite Forall_forall in Hf |- *. intros y Hy. rewrite fmap_app. intros [Hin|Hin%list_elem_of_singleton]%elem_of_app; [by apply (Hf y)|].
    apply Hnr. rewrite <- Hin. by apply list_elem_of_fmap_2.
Qed.

(** An order's events are its own. *)
Definition own (o : Order) : Prop := Forall (fun e => aggregateId e.1 = agg_id o) (agg_events o).
Lemma own_add (o : Order) p eid at_ ev : own o -> own (mkAgg (agg_id o) (agg_version o) (agg_events o ++ [(mkMeta eid (agg_id o) at_, ev)]) p).
Proof. intros Ho. apply Forall_app. split; [done|]. by repeat constructor. Qed.
Lemma exec_own op (o o' : Order) u : own o -> order_exec op o = (Ok u, o') -> own o' /\ agg_id o' = agg_id o.
Proof.
  destruct op as [op [eid at_]]. intros Ho.
  assert (Htr : forall t o1 u1, transition t eid at_ o = (Ok u1, o1) -> own o1 /\ agg_id o1 = agg_id o).
  { intros t o1 u1 H. unfold transition in H. order_inv. split; [by apply own_add|done]. }
  assert (Hpay : forall r, markPaid r eid at_ o = (Ok u, o') -> own o' /\ agg_id o' = agg_id o).
  { intros r H. unfold markPaid, totalAmount in H. order_inv. split; [by apply own_add|done]. }
  assert (Hset : forall t f, (transition t eid at_;; set_props f) o = (Ok u, o') -> own o' /\ agg_id o' = agg_id o).
  { intros t f (u1 & o1 & H1%Htr & ->%set_props_Ok)%bind_Ok. exact H1. }
  destruct op; cbn; try apply Htr; try apply Hpay; try apply Hset.
  - intros H. unfold completePayment in H. order_inv. case_bool_decide; [by eapply Hpay|]. destruct (canTransition _ _); [by eapply Hset|minv].
  - intros H. unfold refund, totalAmount in H. order_inv. split; [by apply own_add|done].
Qed.
Lemma ops_own ops (o o' : Order) u : own o -> run_ops order_exec ops o = (Ok u, o') -> own o' /\ agg_id o' = agg_id o.
Proof.
  revert o. induction ops as [|op ops IH]; intros o Ho H; cbn in H; [by apply ret_Ok in H as [_ ->]|]. apply bind_Ok in H as (u1 & o1 & H1 & H2).
  destruct (exec_own _ _ _ _ Ho H1) as [Ho1 <-]. by apply IH.
Qed.

(** The entries of one order among those added for another, or for it. *)
Lemma entries_added id s rows events : Forall (fun r => er_orderId r = rows) events -> filter (fun r => er_orderId r = id) (os_events s ++ events) = entries_in id s ++ if bool_decide (id = rows) then events else [].
Proof.
  intros Hf. rewrite filter_app. f_equal. rewrite Forall_forall in Hf. case_bool_decide as Hi.
  - apply filter_all. intros r Hr. by rewrite Hi, (Hf r).
  - apply filter_none. intros r Hr He. apply Hi. by rewrite <- He, (Hf r).
Qed.
Lemma published_added id t (l : list (string * (EventMeta * OrderDomainEvent))) (events : list (EventMeta * OrderDomainEvent)) j : Forall (fun e => aggregateId e.1 = j) events ->
  filter (fun e : EventMeta * OrderDomainEvent => aggregateId e.1 = id) (snd <$> (l ++ (pair t <$> events))) = filter (fun e => aggregateId e.1 = id) (snd <$> l) ++ if bool_decide (id = j) then events else [].
Proof.
  intros Hf. rewrite fmap_app, filter_app. f_equal. rewrite <- list_fmap_compose. replace (snd ∘ pair t <$> events) with events by (symmetry; apply list_fmap_id).
  rewrite Forall_forall in Hf. case_bool_decide as Hi; [apply filter_all|apply filter_none]; intros r Hr; [by rewrite Hi, (Hf r)|]. intros He. apply Hi. by rewrite <- He, (Hf r).
Qed.
Lemma recorded_entries id t eids now p p' : recorded eids now p p' ->
  exists es, oe_id <$> es = eids /\ op_history p' = op_history p ++ es /\ op_items p' = op_items p /\ op_shippingAddress p' = op_shippingAddress p /\
    toEventRow id t <$> op_history p' = (toEventRow id t <$> op_history p) ++ (toEventRow id t <$> es).
Proof. intros (es & pr & fr & -> & Hi & _). exists es. cbn. by rewrite fmap_app. Qed.
Lemma recorded_columns eids now p p' : recorded eids now p p' -> tbl_columns (toOrderRow p) (toOrderRow p') = toOrderRow p'.
Proof. intros (es & pr & fr & -> & _). done. Qed.
Lemma row_ids id t (h : list OrderEvent) : er_id <$> (toEventRow id t <$> h) = oe_id <$> h.
Proof. rewrite <- list_fmap_compose. by apply list_fmap_ext. Qed.

Lemma holds_same s s' r o : same_rows (row_id r) s s' -> published_of (row_id r) s' = published_of (row_id r) s -> holds s r o -> holds s' r o.
Proof. intros (Hl & He & Ha) Hp []. split; congruence. Qed.

(** A call's save, the order [o] of the row having become [o']. *)
Definition fresh (eids : list string) (s : OrderStore) : Prop := NoDup eids /\ Forall (fun e => e ∉ er_id <$> os_events s) eids.

Lemma update_events s r (o o' : Order) eids now :
  holds s r o -> recorded eids now (agg_props o) (agg_props o') -> fresh eids s ->
  exists es, oe_id <$> es = eids /\ history o' = history o ++ es /\
    foldl add_event (os_events s) (toEventRow (row_id r) (row_tenant r) <$> history o') = os_events s ++ (toEventRow (row_id r) (row_tenant r) <$> es).
Proof.
  intros Ho Hr [Hn Hf]. destruct (recorded_entries (row_id r) (row_tenant r) _ _ _ _ Hr) as (es & Hi & Hh & _ & _ & Hrows). exists es. split; [done|]. split; [done|].
  unfold history at 1. rewrite Hrows, foldl_app, (add_known _ (toEventRow (row_id r) (row_tenant r) <$> op_history (agg_props o))).
  - apply add_new; [by rewrite row_ids, Hi|]. rewrite <- Hi in Hf. apply Forall_fmap. rewrite Forall_fmap in Hf. exact Hf.
  - fold (history o). rewrite <- (ho_entries _ _ _ Ho). apply Forall_forall. intros x [_ Hx]%list_elem_of_filter. by apply list_elem_of_fmap_2.
Qed.

Lemma stored_update s r (o o' b : Order) eids now u s' :
  orders_ok s -> row_of (row_id r) (os_orders s) = Some r -> holds s r o -> matching b o' -> agg_version b = row_version r -> agg_id o' = agg_id o ->
  recorded eids now (agg_props o) (agg_props o') -> fresh eids s -> order_reachable o' -> order_wf (agg_props o') ->
  agg_events o' = agg_events o ++ agg_events b -> own o' -> save b (row_tenant r) s = (Ok u, s') ->
  orders_ok s' /\ orders_evolve s s' /\ exists r', row_of (row_id r) (os_orders s') = Some r' /\ row_tenant r' = row_tenant r /\ holds s' r' o'.
Proof.
  intros Hok Hr Ho [Hbi Hal] Hv Hio Hrec Hfr Hre Hwf Hev Hown Hs. assert (Hid : agg_id b = row_id r) by (by rewrite Hbi, Hio, (ho_id _ _ _ Ho)).
  pose proof (row_of_Some _ _ _ Hr) as [Hin _]. assert (Hv1 : 1 <= row_version r) by (by apply (ok_rows s Hok)).
  destruct (save_update b _ _ _ _ ltac:(rewrite Hv; lia) Hs) as (s1 & H1 & ->). clear Hs.
  destruct (save_row_at (OrderFlow.as_row b) r s s1 (ok_rows s Hok) Hr Hid Hv H1) as [Hw1 Hrow].
  pose proof (save_row_numbered _ _ _ _ _ H1) as Hnum. cbn [OrderFlow.as_row agg_version agg_props] in Hnum. rewrite bool_decide_false, app_nil_r in Hnum by lia.
  cbn [OrderFlow.as_row agg_props] in Hrow. rewrite (alike_row _ _ Hal), (ho_row _ _ _ Ho), (recorded_columns _ _ _ _ Hrec) in Hrow.
  destruct (update_events s r o o' eids now Ho Hrec Hfr) as (es & Hie & Hhe & Hadd).
  assert (Hevs : foldl add_event (os_events s) (toEventRows b (row_tenant r)) = os_events s ++ (toEventRow (row_id r) (row_tenant r) <$> es)).
  { unfold toEventRows, history. rewrite Hid, (al_history _ _ Hal). exact Hadd. }
  rewrite Hevs. assert (Hes : Forall (fun er => er_orderId er = row_id r) (toEventRow (row_id r) (row_tenant r) <$> es)) by (apply Forall_fmap; by apply Forall_forall).
  assert (Hpub : Forall (fun e => aggregateId e.1 = row_id r) (agg_events b)).
  { unfold own in Hown. rewrite Hev, Hio, (ho_id _ _ _ Ho) in Hown. by apply Forall_app in Hown as [_ ?]. }
  assert (Hkept : forall id, row_of id (os_orders s) <> None -> row_of id (os_orders s1) <> None) by (intros id Hn; rewrite Hrow; by case_bool_decide).
  set (s' := mkOrderStore _ _ _ _ _ _). assert (Hho : holds s' (mkRow (row_tenant r) (row_id r) (row_version r + 1) (toOrderRow (agg_props o'))) o').
  { destruct (recorded_entries (row_id r) (row_tenant r) _ _ _ _ Hrec) as (es' & _ & _ & Hit & Had & _). destruct Ho. split; cbn; try done.
    - congruence.
    - by rewrite Hit.
    - unfold entries_in. cbn. rewrite (entries_added _ s (row_id r)), bool_decide_true, Hhe, fmap_app by done. by f_equal.
    - by rewrite Had.
    - unfold published_of. cbn. rewrite (published_added _ _ _ _ (row_id r)), bool_decide_true, Hev by done. by f_equal. }
  assert (Hoth : forall id, id <> row_id r -> same_rows id s s' /\ published_of id s' = published_of id s).
  { intros id Hne. unfold same_rows, entries_in, published_of. cbn. rewrite (entries_added _ s (row_id r)), (published_added _ _ _ _ (row_id r)), bool_decide_false, !app_nil_r by done. done. }
  split; [split; cbn|split].
  - done.
  - intros id r1. rewrite Hrow. case_bool_decide as Hne; [intros [= <-]; by exists o'|]. intros Hr1. destruct (ok_orders s Hok _ _ Hr1) as [o1 Ho1]. exists o1. apply row_of_Some in Hr1 as [_ <-]. destruct (Hoth _ Hne). by apply (holds_same s).
  - intros ir Hir. apply Hkept. by apply (ok_lines s Hok).
  - intros er [Her|Her]%elem_of_app; apply Hkept; [by apply (ok_entries s Hok)|]. rewrite Forall_forall in Hes. rewrite (Hes _ Her). congruence.
  - intros dr Hdr. apply Hkept. by apply (ok_addresses s Hok).
  - intros e [He|(ev & -> & He)%list_elem_of_fmap]%elem_of_app; apply Hkept; [by apply (ok_published s Hok)|]. rewrite Forall_forall in Hpub. cbn. rewrite (Hpub _ He). congruence.
  - intros t. destruct (ok_numbers s Hok t) as (n & Hn & Hc). exists n. split; [|exact Hc]. rewrite <- Hn, !numbers_of_numbered. change (os_orders s') with (os_orders s1). by rewrite Hnum.
  - intros id r1 Hr1. cbn. rewrite Hrow. case_bool_decide as Hne.
    + subst id. assert (r1 = r) as -> by congruence. eexists. split; [done|]. cbn. split; [done|]. split; [lia|]. lia.
    + exists r1. split; [done|]. split; [done|]. split; [lia|]. intros _. split; [done|]. by apply Hoth.
  - cbn. rewrite Hrow, bool_decide_true by done. eexists. split; [reflexivity|]. split; done.
Qed.

(** *** A new order *)

Lemma foldM_inserted {A} (key : A -> string) (ins : list A -> A -> result (list A)) l rows l' :
  (forall l r, ins l r = if existsb (fun x => bool_decide (key x = key r)) l then Err unique_violation else Ok (l ++ [r])) ->
  foldM ins l rows = Ok l' -> l' = l ++ rows.
Proof.
  intros Hins. revert l. induction rows as [|r rows IH]; intros l H; cbn in H; [injection H as <-; by rewrite app_nil_r|].
  rewrite Hins in H. destruct (existsb _ l); [done|]. cbn in H. apply IH in H as ->. by rewrite <- app_assoc.
Qed.
Lemma inserted_err {A} (key : A -> string) (ins : list A -> A -> result (list A)) l rows e :
  (forall l r, ins l r = if existsb (fun x => bool_decide (key x = key r)) l then Err unique_violation else Ok (l ++ [r])) ->
  foldM ins l rows = Err e -> e = unique_violation.
Proof.
  intros Hins. revert l. induction rows as [|r rows IH]; intros l H; cbn in H; [done|]. rewrite Hins in H. destruct (existsb _ l); [by injection H as <-|]. by eapply IH.
Qed.
Lemma insert_item_eq l r : insert_item l r = if existsb (fun x => bool_decide (ir_id x = ir_id r)) l then Err unique_violation else Ok (l ++ [r]).
Proof. done. Qed.
Lemma insert_event_eq l r : insert_event l r = if existsb (fun x => bool_decide (er_id x = er_id r)) l then Err unique_violation else Ok (l ++ [r]).
Proof. done. Qed.
Lemma save_create (o : Order) t s u s' :
  agg_version o = 0 -> save o t s = (Ok u, s') ->
  exists s1, save_row (OrderFlow.as_row o) t s = (Ok tt, s1) /\
    s' = mkOrderStore (os_orders s1) (os_items s ++ toItemRows o t) (os_addresses s ++ [toAddressRow o t]) (os_events s ++ toEventRows o t) (os_counters s)
      (os_outbox s ++ (pair t <$> agg_events o)).
Proof.
  intros Hv (u1 & s1 & Hs & Hd)%bind_Ok. rewrite bool_decide_true in Hd by done. destruct u1. exists s1. split; [done|]. apply save_row_stored in Hs as E1.
  apply bind_Ok in Hd as (u2 & s2 & Hi & (u3 & s3 & Ha & He)%bind_Ok). unfold createMany_items in Hi. destruct (foldM insert_item _ _) as [l|] eqn:Hl; [|done]. injection Hi as _ <-.
  apply (foldM_inserted ir_id) in Hl as ->; [|done]. unfold create_address in Ha. destruct (existsb _ _); [done|]. injection Ha as _ <-.
  unfold createMany_events in He. destruct (foldM insert_event _ _) as [l|] eqn:Hl; [|done]. injection He as _ <-. apply (foldM_inserted er_id) in Hl as ->; [|done].
  by rewrite E1.
Qed.

Lemma address_added id t s r : address_of id t (with_addresses (os_addresses s ++ [r]) s) =
  match address_of id t s with Some a => Some a | None => if bool_decide (dr_orderId r = id) && bool_decide (dr_tenantId r = t) then Some (dr_address r) else None end.
Proof. unfold address_of. cbn. rewrite find_first_app. cbn. destruct (find_first _ _); [done|]. by destruct (_ && _). Qed.

(** Nothing belongs to an order that is not there. *)
Lemma absent_rows s id : orders_ok s -> row_of id (os_orders s) = None -> lines_in id s = [] /\ entries_in id s = [] /\ (forall t, address_of id t s = None) /\ published_of id s = [].
Proof.
  intros Hok Hn. split; [|split; [|split]].
  - apply filter_none. intros x Hx <-. by apply (ok_lines s Hok) in Hx.
  - apply filter_none. intros x Hx <-. by apply (ok_entries s Hok) in Hx.
  - intros t. unfold address_of. destruct (find_first _ _) as [x|] eqn:Hf; [|done]. apply find_first_Some in Hf as [Hx [Hi%bool_decide_eq_true _]%andb_true_iff].
    apply (ok_addresses s Hok) in Hx. by rewrite Hi in Hx.
  - apply filter_none. intros e (x & -> & Hx)%list_elem_of_fmap Hi. apply (ok_published s Hok) in Hx. by rewrite Hi in Hx.
Qed.

(** The number an order is placed under is the next of its shop. *)
Lemma numbers_S n : numbers_from (S n) = numbers_from n ++ [pretty (FIRST_ORDER_NUMBER + Z.of_nat n)].
Proof. unfold numbers_from. rewrite seq_S, fmap_app. done. Qed.
Lemma next_counted t s number s1 : (forall t, counted t s) -> next t s = (Ok number, s1) ->
  exists c, s1 = with_counters c s /\ forall t', exists n, numbers_of t' s ++ (if bool_decide (t' = t) then [number] else []) = numbers_from n /\
    c !! t' = match n with O => None | S k => Some (FIRST_ORDER_NUMBER + Z.of_nat k) end.
Proof.
  intros Hok [= <- <-]. eexists. split; [reflexivity|]. intros t'. destruct (Hok t') as (n & Hn & Hc). case_bool_decide as Ht; [subst t'; exists (S n)|exists n].
  - assert (Hv : match os_counters s !! t with None => FIRST_ORDER_NUMBER | Some last => last + 1 end = FIRST_ORDER_NUMBER + Z.of_nat n) by (rewrite Hc; destruct n; lia).
    rewrite Hn, numbers_S, lookup_insert_eq, Hv. done.
  - by rewrite lookup_insert_ne, app_nil_r by done.
Qed.

Lemma stored_new t s number s1 (o : Order) u s' :
  orders_ok s -> next t s = (Ok number, s1) -> order_reachable o -> op_orderNumber (agg_props o) = number -> agg_version o = 0 -> own o -> order_wf (agg_props o) ->
  save o t s1 = (Ok u, s') ->
  orders_ok s' /\ orders_evolve s s' /\ exists r', row_of (agg_id o) (os_orders s') = Some r' /\ row_tenant r' = t /\ holds s' r' o.
Proof.
  intros Hok (c & -> & Hcount)%next_counted Hre Hnum Hv Hown Hwf Hs; [|apply (ok_numbers s Hok)].
  destruct (save_create o _ _ _ _ Hv Hs) as (s2 & H2 & ->). clear Hs. destruct (save_row_first (OrderFlow.as_row o) t (with_counters c s) s2 (ok_rows s Hok) Hv H2) as (Hnew & Hw2 & Hrow).
  pose proof (save_row_numbered _ _ _ _ _ H2) as Hnums. cbn [OrderFlow.as_row agg_version agg_props agg_id with_counters os_orders] in Hnums, Hnew, Hrow. rewrite bool_decide_true in Hnums by done.
  destruct (absent_rows s (agg_id o) Hok Hnew) as (Hl0 & He0 & Ha0 & Hp0). cbn [with_counters os_items os_addresses os_events os_counters os_outbox].
  set (s' := mkOrderStore _ _ _ _ _ _).
  assert (Hli : forall id, lines_in id s' = lines_in id s ++ if bool_decide (id = agg_id o) then toItemRows o t else []).
  { intros id. unfold lines_in. cbn. rewrite filter_app. f_equal. case_bool_decide; [apply filter_all|apply filter_none]; by intros r (i & -> & _)%list_elem_of_fmap. }
  assert (Hen : forall id, entries_in id s' = entries_in id s ++ if bool_decide (id = agg_id o) then toEventRows o t else []).
  { intros id. apply (entries_added _ s (agg_id o)). apply Forall_fmap. by apply Forall_forall. }
  assert (Had : forall id t', address_of id t' s' = match address_of id t' s with Some a => Some a | None => if bool_decide (agg_id o = id) && bool_decide (t = t') then Some (op_shippingAddress (agg_props o)) else None end)
    by (intros id t'; exact (address_added id t' s (toAddressRow o t))).
  assert (Hpu : forall id, published_of id s' = published_of id s ++ if bool_decide (id = agg_id o) then agg_events o else []) by (intros id; by apply published_added).
  assert (Hkept : forall id, row_of id (os_orders s) <> None -> row_of id (os_orders s2) <> None) by (intros id Hn; rewrite Hrow; by case_bool_decide).
  assert (Hmine : row_of (agg_id o) (os_orders s2) <> None) by by rewrite Hrow, bool_decide_true.
  assert (Hoth : forall id, id <> agg_id o -> same_rows id s s' /\ published_of id s' = published_of id s).
  { intros id Hne. unfold same_rows. rewrite Hli, Hen, Hpu, bool_decide_false, !app_nil_r by done. split; [|done]. split; [done|]. split; [done|]. intros t'.
    rewrite Had, bool_decide_false by congruence. cbn. by destruct (address_of id t' s). }
  split; [split; cbn|split].
  - done.
  - intros id r1. rewrite Hrow. case_bool_decide as Hne.
    + intros [= <-]. exists o. split; cbn [row_id row_tenant row_props]; rewrite ?Hli, ?Hen, ?Had, ?Hpu, ?Hl0, ?He0, ?Ha0, ?Hp0; repeat rewrite bool_decide_true by done; done.
    + intros Hr1. destruct (ok_orders s Hok _ _ Hr1) as [o1 Ho1]. exists o1. apply row_of_Some in Hr1 as [_ <-]. destruct (Hoth _ Hne). by apply (holds_same s).
  - intros ir [Hir|(i & -> & _)%list_elem_of_fmap]%elem_of_app; [apply Hkept; by apply (ok_lines s Hok)|done].
  - intros er [Her|(i & -> & _)%list_elem_of_fmap]%elem_of_app; [apply Hkept; by apply (ok_entries s Hok)|done].
  - intros dr [Hdr| ->%list_elem_of_singleton]%elem_of_app; [apply Hkept; by apply (ok_addresses s Hok)|done].
  - intros e [He|(ev & -> & He)%list_elem_of_fmap]%elem_of_app; [apply Hkept; by apply (ok_published s Hok)|]. unfold own in Hown. rewrite Forall_forall in Hown. cbn. by rewrite (Hown _ He).
  - intros t'. destruct (Hcount t') as (n & Hn & Hc). exists n. split; [|exact Hc]. rewrite <- Hn, !numbers_of_numbered. change (os_orders s') with (os_orders s2). rewrite Hnums, filter_app, fmap_app, filter_cons. cbn.
    rewrite Hnum. f_equal. case_bool_decide as Ht; case_decide; by subst.
  - intros id r1 Hr1. cbn. rewrite Hrow. rewrite bool_decide_false by congruence. exists r1. split; [done|]. split; [done|]. split; [lia|]. intros _. split; [done|]. apply Hoth. congruence.
  - cbn. rewrite Hrow, bool_decide_true by done. eexists. split; [reflexivity|]. split; [done|].
    split; cbn [row_id row_tenant row_props]; rewrite ?Hli, ?Hen, ?Had, ?Hpu, ?Hl0, ?He0, ?Ha0, ?Hp0; repeat rewrite bool_decide_true by done; done.
Qed.

(** ** What a call commits *)

Lemma ProductSnapshot_create_Ok p n m v s : ProductSnapshot_create p n m v = Ok s -> blank p = false /\ blank n = false /\ s = mkProductSnapshot p n m v.
Proof. unfold ProductSnapshot_create. destruct (blank p), (blank n); cbn; try done. by intros [= <-]. Qed.
Lemma build_item_ok c gen i x : build_item c gen i = Ok x -> line_ok c x.
Proof.
  unfold build_item. intros H. destruct (integer_from 1 _); [|done]. minv. repeat match goal with
  | X : create _ _ = Ok _ |- _ => apply MoneyLaws.create_Ok in X as (_ & -> & ? & _)
  | X : ProductSnapshot_create _ _ _ _ = Ok _ |- _ => apply ProductSnapshot_create_Ok in X as (? & ? & ->)
  | X : UniqueEntityId_from _ = Ok _ |- _ => apply UniqueEntityId_from_Ok in X as [? ->]
  end. by split_and!.
Qed.
Lemma build_items_ok c gen n l its : build_items c gen n l = Ok its -> Forall (line_ok c) its.
Proof.
  revert n its. induction l as [|i l IH]; intros n its H; cbn in H; [by injection H as <-|]. minv. constructor; [by eapply build_item_ok|by eapply IH].
Qed.

Lemma one_entry_wf (o : Order) e : history o = [e] -> blank (oe_id e) = false ->
  Forall (fun e => blank (oe_id e) = false) (op_history (agg_props o)) /\ op_history (agg_props o) <> [] /\ StronglySorted (fun a b => oe_at a <= oe_at b) (op_history (agg_props o)).
Proof. unfold history. intros -> Hb. by repeat constructor. Qed.

Definition made (number : string) (o : Order) : Prop :=
  order_reachable o /\ op_orderNumber (agg_props o) = number /\ agg_version o = 0 /\ own o /\ order_wf (agg_props o).
Lemma place_made id n c cur its a eid now o :
  place id n c cur its a eid now = Ok o -> blank n = false -> Forall (line_ok cur) its -> address_ok a -> made n o.
Proof.
  intros H Hn Hits Ha. assert (Hre : order_reachable o) by (apply reach_init; left; by exists id, n, c, cur, its, a, eid, now).
  unfold place in H. minv. match goal with Hf : fst ?x = _ |- _ => destruct x as [r s] eqn:Em end. cbn in H; subst. unfold totalAmount, check_new_order in *. order_inv.
  do 2 (case_match; [done|]). match goal with Hc : negb _ = false |- _ => apply negb_false_iff in Hc end.
  split; [done|]. split; [done|]. split; [done|]. split; [by repeat constructor|]. split; cbn; try done. all: by repeat constructor.
Qed.
Lemma createFromCheckout_made id n c cur its a b tot ck eid now o :
  createFromCheckout id n c cur its a b tot ck eid now = Ok o -> blank n = false -> Forall (line_ok cur) its -> address_ok a -> address_ok b -> made n o.
Proof.
  intros H Hn Hits Ha Hb. assert (Hre : order_reachable o) by (apply reach_init; right; by exists id, n, c, cur, its, a, b, tot, ck, eid, now).
  unfold createFromCheckout in H. minv. match goal with Hf : fst ?x = _ |- _ => destruct x as [r s] eqn:Em end. cbn in H; subst. unfold check_new_order in *. order_inv.
  do 2 (case_match; [done|]). match goal with Hc : negb _ = false |- _ => apply negb_false_iff in Hc end.
  split; [done|]. split; [done|]. split; [done|]. split; [by repeat constructor|]. split; cbn; try done; [by intros ? [= <-]|by repeat constructor..].
Qed.

Lemma new_own o : new_order o -> own o.
Proof.
  intros [(id & n & c & cur & its & a & eid & t & H)|(id & n & c & cur & its & a & b & tot & ck & eid & t & H)].
  - unfold place in H. minv. match goal with Hf : fst ?x = _ |- _ => destruct x as [r s] eqn:E end. cbn in H; subst. unfold totalAmount in *. order_inv. by repeat constructor.
  - unfold createFromCheckout in H. minv. match goal with Hf : fst ?x = _ |- _ => destruct x as [r s] eqn:E end. cbn in H; subst. order_inv. by repeat constructor.
Qed.
Lemma reachable_own o : order_reachable o -> own o.
Proof. apply (reachable_invariant _ _ own); [apply new_own|]. intros op o1 r o2 Ho H. by apply (exec_own op o1 o2 r). Qed.

(** A call on an order, and the same call on one it matches. *)
Lemma ops_matching ops (b b' o : Order) : order_reachable o -> matching b o -> run_ops order_exec ops b = (Ok tt, b') ->
  exists o', run_ops order_exec ops o = (Ok tt, o') /\ agg_id b' = agg_id o /\ agg_version b' = agg_version b /\ matching b' o' /\ order_reachable o' /\ agg_id o' = agg_id o /\ own o' /\
    exists events, agg_events b' = agg_events b ++ events /\ agg_events o' = agg_events o ++ events.
Proof.
  intros Ho Hm Hrun. destruct (sim_ops ops b o tt b' Hm Hrun) as (o' & events & Hrun' & Hm' & Hv & _ & Hb & Ho'). exists o'.
  destruct (ops_own ops o o' tt (reachable_own o Ho) Hrun') as [Hown Hi]. destruct Hm' as [Hi' Ha'].
  split; [done|]. split; [congruence|]. split; [done|]. split; [done|]. split; [by eapply run_ops_reachable|]. split; [done|]. split; [done|]. by exists events.
Qed.

(** A save of what was loaded finds the row as it was. *)
Lemma row_unchanged s0 s r (b : Order) u s' :
  orders_ok s -> orders_evolve s0 s -> row_of (row_id r) (os_orders s0) = Some r -> agg_id b = row_id r -> agg_version b = row_version r -> save b (row_tenant r) s = (Ok u, s') ->
  row_of (row_id r) (os_orders s) = Some r /\ same_rows (row_id r) s0 s.
Proof.
  intros Hok Hev Hr0 Hi Hv (u1 & s1 & Hs & _)%bind_Ok. destruct (Hev _ _ Hr0) as (r1 & Hr1 & _ & _ & Hsame).
  destruct (save_row_for_Ok (S := OrderStore) (P := OrderColumns) (E := OrderDomainEvent) (H := order_table) _ (OrderFlow.as_row b) _ s u1 s1 (ok_rows s Hok) Hs) as (_ & _ & _ & Hc).
  cbn [OrderFlow.as_row agg_id agg_version] in Hc. rewrite Hi in Hc. change (tbl_rows (Table := order_table) s) with (os_orders s) in Hc. rewrite Hr1 in Hc. destruct Hsame as [-> ?]; [|done]. destruct Hc. congruence.
Qed.

Section commits.
Context `{RO : !RowOrder}.

Lemma order_load_Ok id t s0 s (b : Order) s' : load id t s0 s = (Ok b, s') -> findById id t s0 = Ok (Some b) /\ s' = s.
Proof. intros H. unfold load, require in H. minv. destruct v; [|done]. cbn in *. by minv. Qed.
Lemma order_call_on_Ok (b b' : Order) (m : OrderM unit) (s s' : OrderStore) : call b m s = (Ok b', s') -> m b = (Ok tt, b') /\ s' = s.
Proof. unfold call, lift, run_on. destruct (m b) as [[[]|e] b1]; [|done]. by intros [= <- <-]. Qed.

(** A call that wrote: a new order under the next number, or an order loaded, called and saved. *)
Definition wrote_new (s s' : OrderStore) : Prop :=
  exists t number s1 o, next t s = (Ok number, s1) /\ made number o /\ save o t s1 = (Ok tt, s').
Definition wrote_call (id t : string) (ops : list (OrderOp * (string * Z))) (s0 s s' : OrderStore) (b b' : Order) : Prop :=
  findById id t s0 = Ok (Some b) /\ run_ops order_exec ops b = (Ok tt, b') /\ save b' t s = (Ok tt, s').

Lemma place_tx_Ok t make s o s' : (forall n o, blank n = false -> make n = Ok o -> made n o) -> place_tx t make s = (Ok o, s') -> wrote_new s s'.
Proof.
  intros Hm (n & s1 & Hn & (n' & s2 & [Ho ->]%lift_Ok & (o1 & s3 & [Hmk ->]%lift_Ok & (u & s4 & Hs & [-> ->]%ret_Ok)%bind_Ok)%bind_Ok)%bind_Ok)%bind_Ok.
  unfold OrderNumber_create, Guard.againstEmpty in Ho. destruct (blank n) eqn:Hb; [done|]. injection Ho as <-. destruct u. exists t, n, s1, o1. split; [done|]. split; [by apply Hm|done].
Qed.
Lemma PlaceOrder_Ok gen now t c cur its a s o s' : PlaceOrder gen now t c cur its a s = (Ok o, s') -> wrote_new s s'.
Proof.
  intros H. unfold PlaceOrder in H. minv. eapply place_tx_Ok; [|exact H]. intros n o1 Hb H1. minv.
  eapply place_made; [exact H1|done|by eapply build_items_ok|by eapply AddressSnapshot_create_ok].
Qed.
Lemma CreateOrderFromCheckout_Ok gen now t ck c cur its a b tot s o s' : CreateOrderFromCheckout gen now t ck c cur its a b tot s = (Ok o, s') -> wrote_new s s'.
Proof.
  intros H. unfold CreateOrderFromCheckout in H. minv. eapply place_tx_Ok; [|exact H]. intros n o1 Hb H1. minv.
  eapply createFromCheckout_made; [exact H1|done|by eapply build_items_ok|by eapply AddressSnapshot_create_ok..].
Qed.
Lemma one_op op (b b' : Order) : order_exec op b = (Ok tt, b') -> run_ops order_exec [op] b = (Ok tt, b').
Proof. intros H. cbn. by rewrite (run_bind _ _ _ _ _ H). Qed.
Lemma order_call_Ok id t op s0 s b' s' : order_call id t (order_exec op) s0 s = (Ok b', s') -> exists b, wrote_call id t [op] s0 s s' b b'.
Proof.
  intros H. unfold order_call in H. apply bind_Ok in H as (b & s1 & [Hf ->]%order_load_Ok & (b1 & s2 & [Hc ->]%order_call_on_Ok & H)%bind_Ok). minv.
  exists b. split; [done|]. split; [by apply one_op|]. by destruct v.
Qed.
Definition payment_ops (paymentRef : string) (eids : nat -> string) (now : Z) : list (OrderOp * (string * Z)) :=
  [(Confirm, (eids 0%nat, now)); (MarkAwaitingPayment, (eids 1%nat, now)); (RequestPayment paymentRef, (eids 2%nat, now))].
Lemma checkout_payment_ops paymentRef eids now (b b' : Order) : checkout_payment_call paymentRef eids now b = (Ok tt, b') -> run_ops order_exec (payment_ops paymentRef eids now) b = (Ok tt, b').
Proof.
  intros (u1 & b1 & H1 & (u2 & b2 & H2 & H3)%bind_Ok)%bind_Ok. destruct u1, u2. cbn.
  rewrite (run_bind _ _ _ _ _ H1), (run_bind _ _ _ _ _ H2), (run_bind _ _ _ _ _ H3). done.
Qed.
Lemma record_payment_Ok eids now t id ref s0 s b' s' : record_payment_tx eids now t id ref s0 s = (Ok b', s') ->
  (findById id t s0 = Ok (Some b') /\ op_paymentRef (agg_props b') = Some ref /\ s' = s) \/ exists b, wrote_call id t (payment_ops ref eids now) s0 s s' b b'.
Proof.
  intros H. unfold record_payment_tx in H. apply bind_Ok in H as (b & s1 & [Hf ->]%order_load_Ok & H). destruct (op_paymentRef (agg_props b)) as [r|] eqn:Hr.
  - case_bool_decide; [|by apply throw_Ok in H]. subst. apply ret_Ok in H as [-> ->]. by left.
  - right. exists b. apply bind_Ok in H as (st & s2 & [_ ->]%lift_Ok & (u1 & s3 & [_ ->]%throw_if_Ok & (b1 & s4 & [Hc ->]%order_call_on_Ok & (u2 & s5 & Hs & [-> ->]%ret_Ok)%bind_Ok)%bind_Ok)%bind_Ok).
    destruct u2. split; [done|]. split; [by apply checkout_payment_ops|done].
Qed.
Lemma settle_Ok (f : OrderProps -> option string) op id t s0 s r s' :
  (o ← load id t s0; match f (agg_props o) with Some _ => mret (o, false) | None => o ← call o (order_exec op); save o t;; mret (o, true) end) s = (Ok r, s') ->
  s' = s \/ exists b, wrote_call id t [op] s0 s s' b r.1.
Proof.
  intros (b & s1 & [Hf ->]%order_load_Ok & H)%bind_Ok. destruct (f (agg_props b)); [left; by apply ret_Ok in H as [_ ->]|right]. exists b.
  apply bind_Ok in H as (b1 & s2 & [Hc ->]%order_call_on_Ok & (u & s3 & Hs & [-> ->]%ret_Ok)%bind_Ok). destruct u. split; [done|]. split; [by apply one_op|done].
Qed.

Definition stamps_of (ops : list (OrderOp * (string * Z))) : list string := (fun op => op.2.1) <$> ops.
Definition order_step (t : OrderTx) (snaps : list OrderStore) (s s' : OrderStore) : Prop :=
  s' = s \/ wrote_new s s' \/
  exists id tn ops now s0 b b', snaps = [s0] /\ tx_stamps t = Some (stamps_of ops, now, id) /\ Forall (fun op => op.2.2 = now) ops /\ wrote_call id tn ops s0 s s' b b'.
Lemma step_one t id tn op eid now s0 s s' b' :
  tx_stamps t = Some ([eid], now, id) -> order_call id tn (order_exec (op, (eid, now))) s0 s = (Ok b', s') -> order_step t [s0] s s'.
Proof.
  intros Ht (b & Hw)%order_call_Ok. right; right. exists id, tn, [(op, (eid, now))], now, s0, b, b'. split; [done|]. split; [done|]. split; [by repeat constructor|done].
Qed.
Lemma step_settle t (f : OrderProps -> option string) op eid now id tn s0 r s s' :
  tx_stamps t = Some ([eid], now, id) ->
  (o ← load id tn s0; match f (agg_props o) with Some _ => mret (o, false) | None => o ← call o (order_exec (op, (eid, now))); save o tn;; mret (o, true) end) s = (Ok r, s') ->
  order_step t [s0] s s'.
Proof.
  intros Ht [->|(b & Hw)]%settle_Ok; [by left|]. right; right. exists id, tn, [(op, (eid, now))], now, s0, b, r.1. split; [done|]. split; [done|]. split; [by repeat constructor|done].
Qed.
Lemma exec_shape t snaps s s' : order_exec_tx t snaps s = Ok s' -> order_step t snaps s s'.
Proof.
  destruct t; cbn [order_exec_tx]; [intros (o & H)%committed_Ok|intros (o & H)%committed_Ok|destruct snaps as [|s0 [|]]; try done; intros (o & H)%committed_Ok..].
  - right; left. by eapply PlaceOrder_Ok.
  - right; left. by eapply CreateOrderFromCheckout_Ok.
  - by eapply (step_one _ _ _ (Transition toStatus)).
  - by eapply (step_one _ _ _ Refund).
  - by eapply (step_one _ _ _ (CompletePayment paymentRef)).
  - apply record_payment_Ok in H as [(_ & _ & ->)|(b & Hw)]; [by left|]. right; right. exists orderId, tenantId, (payment_ops paymentRef eids now), now, s0, b, o.
    split; [done|]. split; [done|]. split; [by repeat constructor|done].
  - by eapply (step_settle _ op_paymentRef (RequestPayment paymentRef)).
  - by eapply (step_settle _ op_fulfillmentRef (Orders.RequestFulfillment fulfillmentRef)).
Qed.

(** The history that was loaded is not ahead of the clock. *)
Definition on_time (id : string) (now : Z) (s0 : OrderStore) : Prop := forall r, r ∈ os_events s0 -> er_orderId r = id -> er_occurredAt r <= now.

Lemma call_stored id t ops now s0 s s' b b' :
  orders_ok s0 -> orders_ok s -> orders_evolve s0 s -> wrote_call id t ops s0 s s' b b' -> Forall (fun op => op.2.2 = now) ops ->
  fresh (stamps_of ops) s -> on_time id now s0 -> in_order id s0 ->
  orders_ok s' /\ orders_evolve s s' /\ exists r o, row_of id (os_orders s') = Some r /\ row_tenant r = t /\ holds s' r o /\ matching b' o.
Proof.
  intros Hok0 Hok Hev (Hf & Hrun & Hs) Hat Hfr Hnow Hord. destruct (findById_row _ _ _ _ (ok_rows s0 Hok0) Hf) as (r & Hr0 & <-). destruct (ok_orders s0 Hok0 _ _ Hr0) as [o0 Ho0].
  pose proof (row_of_Some _ _ _ Hr0) as [_ Hid]. rewrite <- Hid in *. destruct (holds_load s0 r o0 (ok_rows s0 Hok0) Hr0 Ho0 Hord) as (b0 & Hb0 & Hm0 & Hv & Hbe).
  assert (b0 = b) as -> by congruence. destruct (ops_matching ops b b' o0 (ho_reach _ _ _ Ho0) Hm0 Hrun) as (_ & _ & Hi' & Hv' & _). pose proof (ho_id _ _ _ Ho0) as Hi0.
  destruct (row_unchanged s0 s r b' tt s') as [Hr Hsame]; [done|done|done|congruence|congruence|done|].
  assert (Hord' : in_order (row_id r) s) by (unfold in_order in *; destruct Hsame as (_ & -> & _); exact Hord).
  destruct (ok_orders s Hok _ _ Hr) as [o Ho]. destruct (holds_load s r o (ok_rows s Hok) Hr Ho Hord') as (b1 & Hb1 & Hm & _ & _).
  rewrite (findById_same _ s0 s r (ok_rows s0 Hok0) (ok_rows s Hok) Hr0 Hr Hsame) in Hf. assert (b1 = b) as -> by congruence.
  destruct (ops_matching ops b b' o (ho_reach _ _ _ Ho) Hm Hrun) as (o' & Hrun' & _ & _ & Hm' & Hre & Hio & Hown & events & Hbev & Hoev).
  pose proof (ops_recorded ops now o o' tt Hat Hrun') as Hrec.
  assert (Htimes : Forall (fun e => oe_at e <= now) (op_history (agg_props o))).
  { apply Forall_forall. intros e He. destruct Hsame as (_ & He0 & _). apply (Hnow (toEventRow (row_id r) (row_tenant r) e)); [|done].
    assert (Hin : toEventRow (row_id r) (row_tenant r) e ∈ entries_in (row_id r) s0) by (rewrite <- He0, (ho_entries _ _ _ Ho); by apply list_elem_of_fmap_2).
    by apply list_elem_of_filter in Hin as [_ Hin]. }
  assert (Hve : agg_version b' = row_version r) by congruence.
  assert (Hev' : agg_events o' = agg_events o ++ agg_events b') by (rewrite Hoev, Hbev, Hbe; done).
  destruct (stored_update s r o o' b' (stamps_of ops) now tt s' Hok Hr Ho Hm' Hve Hio Hrec Hfr Hre (recorded_wf _ _ _ _ (ho_wf _ _ _ Ho) Hrec Htimes) Hev' Hown Hs) as (Hok' & Hevo & r' & Hr' & Ht' & Ho').
  split; [done|]. split; [done|]. by exists r', o'.
Qed.

(** Every committed call keeps the store as it is described. *)
Lemma stamped_fresh t snaps s eids now id : stamped t snaps s = true -> tx_stamps t = Some (eids, now, id) -> fresh eids s /\ Forall (fun s0 => on_time id now s0 /\ in_order id s0) snaps.
Proof.
  unfold stamped. intros H Ht. rewrite Ht in H. apply andb_true_iff in H as [[Hn%bool_decide_eq_true Hf]%andb_true_iff Hs]. split; [split; [done|]|].
  - rewrite forallb_forall in Hf. apply Forall_forall. intros e He Hin. apply list_elem_of_In, Hf, negb_true_iff, not_true_iff_false in He. destruct He.
    apply list_elem_of_fmap in Hin as (r & -> & Hr). apply existsb_exists. exists r. split; [by apply list_elem_of_In|]. by apply bool_decide_eq_true.
  - rewrite forallb_forall in Hs. apply Forall_forall. intros s0 Hin. apply list_elem_of_In, Hs, andb_true_iff in Hin as [Hord%bool_decide_eq_true Hin]. split; [|done].
    intros r Hr Hi. rewrite forallb_forall in Hin. apply list_elem_of_In, Hin, bool_decide_eq_true in Hr. by apply Hr.
Qed.
Definition order_seen (s : OrderStore) (snaps : list OrderStore) : Prop := Forall (fun s0 => orders_ok s0 /\ orders_evolve s0 s) snaps.
Lemma stamped_step t snaps s s' : orders_ok s -> order_seen s snaps -> stamped_exec t snaps s = Ok s' -> orders_ok s' /\ orders_evolve s s'.
Proof.
  intros Hok Hseen He. unfold stamped_exec in He. destruct (stamped t snaps s) eqn:Hst; [|done].
  destruct (exec_shape _ _ _ _ He) as [->|[(tn & number & s1 & o & Hn & (Hre & Hnum & Hv & Hown & Hwf) & Hs)|(id & tn & ops & now & s0 & b & b' & -> & Ht & Hat & Hw)]].
  - split; [done|reflexivity].
  - destruct (stored_new tn s number s1 o tt s') as (? & ? & _); done.
  - apply list.Forall_singleton in Hseen as [Hok0 Hev]. destruct (stamped_fresh _ _ _ _ _ _ Hst Ht) as [Hfr Hnow]. apply list.Forall_singleton in Hnow as [Hnow Hord].
    destruct (call_stored id tn ops now s0 s s' b b') as (Ha1 & Ha2 & _); [done..|]. by split.
Qed.

Lemma orders_reached l x : run_actions stamped_do l (mkInterleaved empty_orders []) = Some x -> orders_ok (il_store x) /\ il_seen orders_ok orders_evolve x.
Proof.
  intros Hl. refine (run_actions_invariant stamped_do (fun y => orders_ok (il_store y) /\ il_seen orders_ok orders_evolve y) l _ x _ _ Hl); [|split; [apply empty_orders_ok|constructor]].
  intros a y z [Ho Hs] Ha. destruct (il_do_seen stamped_exec orders_ok orders_evolve a y z _ (fun t snaps s s' => stamped_step t snaps s s') Ho Hs Ha) as (? & ? & _). done.
Qed.

End commits.

(** ** Order numbers *)

Section numbering.
Context `{RO : !RowOrder}.

(** The numbers alone, whatever order rows come in and whatever ids and times the calls are given. *)
Record numbers_ok (s : OrderStore) : Prop := { no_rows : rows_wf (os_orders s); no_numbers t : counted t s }.
Definition rows_grow (s s' : OrderStore) : Prop := rows_evolve (os_orders s) (os_orders s').
#[export] Instance rows_grow_preorder : PreOrder rows_grow.
Proof. split; [intros s; unfold rows_grow; reflexivity|intros a b c; unfold rows_grow; apply transitivity]. Qed.

Lemma loaded_version id t s b : rows_wf (os_orders s) -> findById id t s = Ok (Some b) -> agg_version b <> 0.
Proof.
  intros Hw Hf. pose proof Hf as Hf'. unfold findById in Hf'. destruct (findById_row id t s b Hw Hf) as (r & Hr & <-). rewrite (order_by_id id s r Hw Hr) in Hf'.
  destruct (address_of _ _ _); [|done]. minv. unfold toDomain, reconstitute in *. minv. case_bool_decide; [done|]. minv. cbn.
  apply row_of_Some in Hr as [Hr _]. assert (1 <= row_version r) by by apply Hw. lia.
Qed.
Lemma save_rows (o : Order) t s u s' : rows_wf (os_orders s) -> save o t s = (Ok u, s') ->
  rows_wf (os_orders s') /\ rows_grow s s' /\ os_counters s' = os_counters s /\
  numbered (os_orders s') = numbered (os_orders s) ++ if bool_decide (agg_version o = 0) then [(t, op_orderNumber (agg_props o))] else [].
Proof.
  intros Hw Hs. assert (H : exists s1, save_row (OrderFlow.as_row o) t s = (Ok tt, s1) /\ os_orders s' = os_orders s1 /\ os_counters s' = os_counters s).
  { destruct (decide (agg_version o = 0)) as [Hv|Hv].
    - destruct (save_create _ _ _ _ _ Hv Hs) as (s1 & H1 & ->). by exists s1.
    - destruct (save_update _ _ _ _ _ Hv Hs) as (s1 & H1 & ->). by exists s1. }
  destruct H as (s1 & H1 & Ho & Hc). rewrite Ho. pose proof (save_row_numbered _ _ _ _ _ H1) as Hn. unfold rows_grow. rewrite Ho.
  destruct (save_row_for_Ok (S := OrderStore) (P := OrderColumns) (E := OrderDomainEvent) (H := order_table) _ (OrderFlow.as_row o) _ s tt s1 Hw H1) as (Hw1 & Hg & _). done.
Qed.
Lemma version_kept ops (b b' : Order) : run_ops order_exec ops b = (Ok tt, b') -> agg_version b' = agg_version b.
Proof. intros H. destruct (sim_ops ops b b tt b' (conj eq_refl (reflexivity _)) H) as (_ & _ & _ & _ & Hv & _). done. Qed.

Lemma numbers_step t snaps s s' : numbers_ok s -> Forall (fun s0 => numbers_ok s0 /\ rows_grow s0 s) snaps -> order_exec_tx t snaps s = Ok s' -> numbers_ok s' /\ rows_grow s s'.
Proof.
  intros [Hw Hn] Hsn [->|[(tn & number & s1 & o & Hnext & (_ & Hnum & Hv & _) & Hs)|(id & tn & ops & now & s0 & b & b' & -> & _ & _ & Hf & Hrun & Hs)]]%exec_shape.
  - by split; [|reflexivity].
  - destruct (next_counted tn s number s1 Hn Hnext) as (c & -> & Hcount). apply save_rows in Hs as (Hw' & Hg & Hc & Hnb); [|done]. rewrite bool_decide_true, Hnum in Hnb by done.
    split; [split; [done|]|done]. intros t'. destruct (Hcount t') as (n & H1 & H2). exists n. rewrite Hc. split; [|exact H2].
    rewrite <- H1, !numbers_of_numbered, Hnb, filter_app, fmap_app, filter_cons. cbn. f_equal. case_bool_decide; case_decide; by subst.
  - apply list.Forall_singleton in Hsn as [[Hw0 _] _]. apply save_rows in Hs as (Hw' & Hg & Hc & Hnb); [|done].
    rewrite bool_decide_false, app_nil_r in Hnb by (rewrite (version_kept _ _ _ Hrun); exact (loaded_version id tn s0 b Hw0 Hf)).
    split; [split; [done|]|done]. intros t'. destruct (Hn t') as (n & H1 & H2). exists n. by rewrite Hc, <- H1, !numbers_of_numbered, Hnb.
Qed.
Lemma numbers_distinct n : NoDup (numbers_from n).
Proof.
  unfold numbers_from. apply NoDup_fmap_2_strong; [|apply NoDup_seq]. intros a b _ _ He. apply (inj pretty) in He. lia.
Qed.

End numbering.

(** ** Paying an order *)

(** The errors of a stored order's payment that say it is already paid. *)
Lemma cannot_be_paid_already st : already_paid (cannot_be_paid st) = bool_decide (st ∈ PAID).
Proof. by destruct st; vm_compute. Qed.

Lemma total_fails_otherwise p e : isValidCurrencyCode (op_currency p) = true -> totalAmount_of p = Err e -> already_paid e = false.
Proof.
  intros Hc. unfold totalAmount_of. destruct (op_totals p) as [t|]; [unfold Orders.must; destruct (create _ _); [done|by intros [= <-]]|].
  rewrite (proj2 (MoneyLaws.zero_Ok (op_currency p) _) (conj Hc eq_refl)). cbn. generalize (mkMoney 0 (op_currency p)). induction (op_items p) as [|i l IH]; intros acc; cbn; [done|].
  destruct (lineTotal i) as [m|e1] eqn:Hl; cbn.
  - destruct (plus acc m) as [a|e2] eqn:Hp; cbn; [apply IH|]. intros [= <-]. unfold plus, assertSameCurrency in Hp. case_bool_decide; [done|]. by injection Hp as <-.
  - intros [= <-]. unfold lineTotal, times in Hl. destruct (integer_from 0 _); [done|]. by injection Hl as <-.
Qed.
Lemma record_fails_otherwise t eid at_ (o : Order) e o' : record t eid at_ o = (Err e, o') -> already_paid e = false.
Proof.
  unfold record, mbind, M_bind, lift, UniqueEntityId_from, Guard.againstEmpty, Guard.fail. destruct (blank eid); cbn; [by intros [= <- _]|done].
Qed.
Lemma status_known (b : Order) h e : history b = h ++ [e] -> status b = (Ok (oe_type e), b).
Proof. intros Hh. apply status_Ok. split; [done|]. by exists h, e. Qed.

(** A capture that is refused as already paid, was; one that is taken, makes it paid. *)
Lemma completePayment_ends ref eid now (b b' : Order) :
  completePayment ref eid now b = (Ok tt, b') -> exists h e, history b' = h ++ [e] /\ oe_type e ∈ PAID.
Proof.
  assert (Hpay : markPaid ref eid now b = (Ok tt, b') -> exists h e, history b' = h ++ [e] /\ oe_type e ∈ PAID).
  { intros H. unfold markPaid, totalAmount in H. order_inv. eexists _, _. split; [reflexivity|left]. }
  intros H. unfold completePayment in H. order_inv. case_bool_decide; [by apply Hpay|]. destruct (canTransition _ _); [|minv]. minv. apply set_props_Ok in H as ->.
  unfold transition in *. order_inv. eexists _, _. split; [reflexivity|right; left].
Qed.
Lemma completePayment_refused ref eid now (b b' : Order) e h x :
  isValidCurrencyCode (op_currency (agg_props b)) = true -> history b = h ++ [x] -> completePayment ref eid now b = (Err e, b') -> already_paid e = true -> oe_type x ∈ PAID.
Proof.
  intros Hc Hh H He. unfold completePayment in H. rewrite (run_bind _ _ _ _ _ (status_known b h x Hh)) in H. case_bool_decide as Hp.
  - unfold markPaid in H. rewrite (run_bind _ _ _ _ _ (status_known b h x Hh)), Hp in H. cbn [throw_if negb bool_decide] in H.
    apply bind_Err in H as [H|(u & b1 & Hb & H)]; [discriminate H|]. injection Hb as _ <-.
    apply bind_Err in H as [H|(u2 & b2 & Hr & H)]; [apply record_fails_otherwise in H; congruence|].
    rewrite gets_bind in H. apply bind_Err in H as [H|(m & b3 & _ & H)]; [|discriminate H]. apply record_Ok in Hr as [_ ->].
    unfold totalAmount in H. rewrite gets_bind in H. injection H as H _. apply total_fails_otherwise in H; [congruence|exact Hc].
  - destruct (canTransition (oe_type x) payment_received) eqn:Hcan.
    + apply bind_Err in H as [H|(u & b1 & _ & H)]; [|discriminate H]. unfold transition in H. rewrite (run_bind _ _ _ _ _ (status_known b h x Hh)), Hcan in H. cbn [throw_if negb] in H.
      apply bind_Err in H as [H|(u & b1 & _ & H)]; [discriminate H|]. apply bind_Err in H as [H|(u2 & b2 & _ & H)]; [apply record_fails_otherwise in H; congruence|].
      rewrite gets_bind in H. discriminate H.
    + injection H as <- _. rewrite cannot_be_paid_already in He. by apply bool_decide_eq_true in He.
Qed.

(** An order whose last entry is a payment is paid. *)
Lemma last_paid (o : Order) h e : order_reachable o -> history o = h ++ [e] -> oe_type e ∈ PAID -> derivePaymentStatus (history o) = ps_paid.
Proof.
  intros Hr Hh He. pose proof (reachable_path o Hr) as Hp. unfold derivePaymentStatus. fold (types (history o)). unfold types in Hp |- *. rewrite Hh, fmap_app in Hp |- *. apply path_counts in Hp.
  rewrite (proj2 (existsb_elem PAID _)).
  - destruct (existsb _ _) eqn:Hx; [|done]. apply existsb_elem, count_pos in Hx. cbn [fmap list_fmap] in Hx. apply elem_of_cons in He as [He|He%list_elem_of_singleton]; rewrite He in Hp, Hx; cbn in Hp; apply bool_decide_eq_true in Hp; lia.
  - exists (oe_type e). split; [done|]. apply elem_of_app. right. left.
Qed.

Lemma save_fails_otherwise (o : Order) t s e s' : save o t s = (Err e, s') -> already_paid e = false.
Proof.
  intros [H|(u & s1 & _ & H)]%bind_Err.
  - unfold save_row, save_row_for in H. cbv zeta in H. case_bool_decide; destruct (existsb _ _); try discriminate H; by injection H as <- _.
  - case_bool_decide; [|discriminate H]. apply bind_Err in H as [H|(u1 & s2 & _ & [H|(u2 & s3 & _ & H)]%bind_Err)].
    + unfold createMany_items in H. destruct (foldM insert_item _ _) as [|e1] eqn:He; [discriminate H|]. injection H as <- _. by rewrite (inserted_err ir_id _ _ _ _ insert_item_eq He).
    + unfold create_address in H. destruct (existsb _ _); [|discriminate H]. by injection H as <- _.
    + unfold createMany_events in H. destruct (foldM insert_event _ _) as [|e1] eqn:He; [discriminate H|]. injection H as <- _. by rewrite (inserted_err er_id _ _ _ _ insert_event_eq He).
Qed.

Section payments.
Context `{RO : !RowOrder}.

Lemma findById_stored id t s : orders_ok s -> in_order id s ->
  findById id t s = Ok None \/ exists r o b, row_of id (os_orders s) = Some r /\ holds s r o /\ row_tenant r = t /\ findById id t s = Ok (Some b) /\ matching b o.
Proof.
  intros Hok Hord. destruct (find_by_id id t s) as [c|] eqn:Hc; [right|left; unfold findById; by rewrite Hc].
  apply (find_by_id_Some (S := OrderStore) (P := OrderColumns) (E := OrderDomainEvent) (H := order_table)) in Hc as (r & Hr & <- & _); [|apply (ok_rows s Hok)].
  change (row_of id (os_orders s) = Some r) in Hr. destruct (ok_orders s Hok _ _ Hr) as [o Ho]. pose proof (row_of_Some _ _ _ Hr) as [_ <-].
  destruct (holds_load s r o (ok_rows s Hok) Hr Ho Hord) as (b & Hb & Hm & _). by exists r, o, b.
Qed.

Lemma derivePaymentStatus_perm h h' : h' ≡ₚ h -> derivePaymentStatus h' = derivePaymentStatus h.
Proof.
  intros HP. apply (Permutation_map oe_type) in HP. fold (fmap (M := list) oe_type h') (fmap (M := list) oe_type h) in HP.
  assert (He : forall f, existsb f (oe_type <$> h') = existsb f (oe_type <$> h)).
  { intros f. apply eq_true_iff_eq. rewrite !existsb_exists. setoid_rewrite <- list_elem_of_In. by setoid_rewrite HP. }
  unfold derivePaymentStatus. rewrite !He. do 2 (case_match; [done|]). by rewrite (bool_decide_ext _ (cancelled ∈ (oe_type <$> h))) by by rewrite HP.
Qed.

Lemma mark_paid_outcome eid now t id ref s : orders_ok s -> fresh [eid] s -> on_time id now s -> in_order id s ->
  match mark_paid_tx eid now t id ref s s with
  | (Ok _, s') => orders_ok s' /\ exists b, findById id t s' = Ok (Some b) /\ derivePaymentStatus (history b) = ps_paid
  | (Err e, _) => already_paid e = true -> exists b, findById id t s = Ok (Some b) /\ derivePaymentStatus (history b) = ps_paid
  end.
Proof.
  intros Hok Hfr Hnow Hord. destruct (mark_paid_tx eid now t id ref s s) as [[b'|e] s'] eqn:Hm.
  - destruct (order_call_Ok id t (CompletePayment ref, (eid, now)) s s b' s' Hm) as (b & Hw). pose proof Hw as (_ & Hrun & _).
    apply bind_Ok in Hrun as (u & b1 & Hrun & [_ ->]%ret_Ok). destruct u. apply completePayment_ends in Hrun as (h & e & Hh & He).
    destruct (call_stored id t _ now s s s' b b1 Hok Hok ltac:(reflexivity) Hw ltac:(by repeat constructor) Hfr Hnow Hord) as (Hok' & _ & r & o & Hr & Ht & Ho & Hmo).
    split; [done|]. pose proof (row_of_Some _ _ _ Hr) as [_ Hid]. subst id t. destruct (holds_load_any s' r o (ok_rows s' Hok') Hr Ho) as (b2 & Hb2 & _ & _ & HP & _). exists b2. split; [done|].
    destruct Hmo as [_ Hal]. assert (Hho : history o = h ++ [e]) by (unfold history in *; by rewrite <- Hh, (al_history _ _ Hal)).
    rewrite (derivePaymentStatus_perm _ _ HP). by eapply (last_paid o); [apply (ho_reach _ _ _ Ho)|..].
  - intros He. destruct (findById_stored id t s Hok Hord) as [Hn|(r & o & b & Hr & Ho & Ht & Hb & [Hi Hal])].
    + exfalso. unfold mark_paid_tx, order_call, load in Hm. rewrite Hn in Hm. injection Hm as <- _. discriminate He.
    + exists b. split; [done|]. destruct (reachable_history o (ho_reach _ _ _ Ho)) as (h & x & Hh).
      assert (Hhb : history b = h ++ [x]) by (unfold history; by rewrite (al_history _ _ Hal)). unfold history at 1. rewrite (al_history _ _ Hal). fold (history o).
      eapply (last_paid o); [apply (ho_reach _ _ _ Ho)|exact Hh|]. unfold mark_paid_tx, order_call, load in Hm. rewrite Hb in Hm.
      apply bind_Err in Hm as [Hm|(b1 & s1 & Hm1 & Hm)]; [discriminate Hm|]. injection Hm1 as <- <-.
      apply bind_Err in Hm as [Hm|(b1 & s1 & _ & [Hm|(u & s2 & _ & Hm)]%bind_Err)]; [|apply save_fails_otherwise in Hm; congruence|discriminate Hm].
      unfold call, lift, run_on in Hm. destruct (completePayment ref eid now b) as [[u|e1] b1] eqn:Hc; [discriminate Hm|]. injection Hm as <- _.
      eapply completePayment_refused; [|exact Hhb|exact Hc|exact He]. rewrite (al_currency _ _ Hal). apply (wf_currency _ (ho_wf _ _ _ Ho)).
Qed.

Context {X : Type} (ports : OrderPorts (X := X)).

Lemma transaction_run {A} (m : OrderStore -> M OrderStore A) (w : World OrderStore X) :
  transactional (read_db m) w = match m (w_db w) (w_db w) with (Ok x, s') => (Ok x, mkWorld s' (w_out w)) | (Err e, _) => (Err e, w) end.
Proof. unfold transactional, read_db, gets, on_db, mbind, M_bind. destruct w as [s out]. cbn. by destruct (m s s) as [[x|e] s']. Qed.

Lemma tolerated eid now t id ref verified (w : World OrderStore X) w' : orders_ok (w_db w) -> fresh [eid] (w_db w) -> on_time id now (w_db w) -> in_order id (w_db w) ->
  tolerant (mark_paid_verified eid now t id ref verified) w = (Ok tt, w') ->
  orders_ok (w_db w') /\ exists b, findById id t (w_db w') = Ok (Some b) /\ derivePaymentStatus (history b) = ps_paid.
Proof.
  intros Hok Hfr Hnow Hord Hc. pose proof (mark_paid_outcome eid now t id ref (w_db w) Hok Hfr Hnow Hord) as Hout. unfold tolerant, mark_paid_verified in Hc. destruct verified; [|discriminate Hc]. cbn [negb throw_if] in Hc.
  rewrite (run_bind _ _ w tt w eq_refl) in Hc. unfold mbind at 1, M_bind at 1 in Hc. rewrite transaction_run in Hc.
  destruct (mark_paid_tx eid now t id ref (w_db w) (w_db w)) as [[b|e] s'].
  - unfold lift in Hc. destruct (output b) as [out|e]; [by injection Hc as <-|]. destruct (already_paid e); [by injection Hc as <-|discriminate Hc].
  - destruct (already_paid e); [|discriminate Hc]. injection Hc as <-. split; [done|]. by apply Hout.
Qed.

Lemma tolerant_paid eid now t id ref (w w' : World OrderStore X) :
  (v ← verified_payment ports t id ref; tolerant (mark_paid_verified eid now t id ref v)) w = (Ok tt, w') ->
  exists v w1, w_db w1 = w_db w /\ tolerant (mark_paid_verified eid now t id ref v) w1 = (Ok tt, w').
Proof.
  intros (v & w1 & Hv & H)%bind_Ok. exists v, w1. split; [|done]. unfold verified_payment in Hv. destruct (hasCapturedPayment ports); [|by apply ret_Ok in Hv as [_ ->]].
  by apply (off_db_outside _ w (Ok v)) in Hv.
Qed.

(** An order that loads as [confirmed] takes no capture. *)
Lemma confirmed_takes_no_capture eid now (event : IntegrationEvent PaymentCapturedPayload) (w : World OrderStore X) b :
  findById (pc_orderRef (ev_payload event)) (ev_tenantId _ event) (w_db w) = Ok (Some b) -> status_of (history b) = Ok confirmed ->
  exists e w', PaymentCapturedConsumer ports eid now event w = (Err e, w') /\ w_db w' = w_db w.
Proof.
  intros Hb Hst. unfold PaymentCapturedConsumer. cbv zeta. unfold mbind at 1, M_bind at 1, throw_if at 1. destruct (blank _); [by eexists _, w|].
  unfold mbind at 1, M_bind at 1, lift at 1. destruct (Guard.againstEmpty _ _); [|by eexists _, w].
  unfold mbind at 1, M_bind at 1. destruct (verified_payment _ _ _ _ w) as [[v|e] w1] eqn:Hv.
  all: assert (Hw : w_db w1 = w_db w) by
    (unfold verified_payment in Hv; destruct (hasCapturedPayment ports); [by eapply off_db_outside|by injection Hv as _ <-]).
  2:{ by exists e, w1. }
  unfold tolerant, mark_paid_verified. destruct v; [|by eexists _, w1]. cbn [negb throw_if].
  rewrite (run_bind _ _ w1 tt w1 eq_refl). unfold mbind at 1, M_bind at 1. rewrite transaction_run, Hw.
  set (id := pc_orderRef (ev_payload event)) in *. set (t := ev_tenantId _ event) in *. set (ref := pc_intent (ev_payload event)) in *.
  assert (Hm : mark_paid_tx eid now t id ref (w_db w) (w_db w) = (Err (cannot_be_paid confirmed), w_db w)).
  { assert (Hs : status b = (Ok confirmed, b)) by (unfold status, mbind, M_bind, gets, lift; by rewrite Hst).
    assert (Hc : completePayment ref eid now b = (Err (cannot_be_paid confirmed), b)) by (unfold completePayment; by rewrite (run_bind _ _ _ _ _ Hs)).
    unfold mark_paid_tx, order_call, load, mbind, M_bind, lift. rewrite Hb. unfold require, mret, M_ret, call, lift, run_on. cbv iota. by rewrite Hc. }
  rewrite Hm. by exists (cannot_be_paid confirmed), w1.
Qed.

End payments.

(** ** The cleanups of a cancellation *)

Section cleanups.
Context `{RO : !RowOrder} {X : Type} (ports : OrderPorts (X := X)).

(** What a best-effort call leaves outside, whether it returns or throws. *)
Definition effect {F} (port : option F) (use : F -> M X unit) (out : X) : X := match port with Some f => snd (use f out) | None => out end.
Lemma when_wired_run {F} (port : option F) use (w : World OrderStore X) : when_wired port use w = (Ok tt, mkWorld (w_db w) (effect port use (w_out w))).
Proof. unfold when_wired, best_effort, effect, outside. destruct port as [f|]; [by destruct (use f (w_out w))|]. by destruct w. Qed.

Lemma advance_status eid now t id to s0 s o s' : advance_tx eid now t id to s0 s = (Ok o, s') -> status_of (history o) = Ok to.
Proof.
  intros H. unfold advance_tx, order_call in H. apply bind_Ok in H as (b & s1 & _ & (b1 & s2 & [Hc ->]%order_call_on_Ok & (u & s3 & _ & [-> ->]%ret_Ok)%bind_Ok)%bind_Ok).
  unfold transition in Hc. order_inv. unfold history, status_of. cbn. by rewrite last_snoc.
Qed.

Definition cleaned_up (o : Order) (t id : string) (out : X) : X :=
  let out := effect (cancelOpenFulfillment ports) (fun f => f id t) out in
  let out := effect (releaseOrderStock ports) (fun f => f id t) out in
  match op_paymentRef (agg_props o) with Some ref => effect (voidPayment ports) (fun f => f ref t) out | None => out end.

Lemma advance_transaction eid now t id to (w : World OrderStore X) :
  transactional (o ← read_db (advance_tx eid now t id to); notifyBestEffort ports o t;; mret o) w =
  match advance_tx eid now t id to (w_db w) (w_db w) with
  | (Ok o, s') => (Ok o, mkWorld s' (effect (notify ports) (fun f => f (op_customerRef (agg_props o)) (op_orderNumber (agg_props o)) to t) (w_out w)))
  | (Err e, _) => (Err e, w)
  end.
Proof.
  destruct w as [s out]. unfold transactional, read_db, gets, on_db, mbind, M_bind. cbn [w_db w_out]. destruct (advance_tx eid now t id to s s) as [[o|e] s'] eqn:Ha; [|done].
  unfold notifyBestEffort, mbind, M_bind, lift. by rewrite (advance_status _ _ _ _ _ _ _ _ _ Ha), when_wired_run.
Qed.

End cleanups.

(** ** Properties *)

(** C20: order numbers are consecutive. However the calls interleave, whatever ids and times they are given:
    the orders of a shop have, in the order they were placed, the numbers 1001, 1002, 1003, ..., no two
    orders the same, and none is skipped by a call that fails. *)
Theorem order_numbers_are_consecutive `{RO : !RowOrder} l x tenantId :
  run_actions orders_do l (mkInterleaved empty_orders []) = Some x ->
  exists n, numbers_of tenantId (il_store x) = numbers_from n /\ NoDup (numbers_of tenantId (il_store x)) /\
    fst (next tenantId (il_store x)) = Ok (pretty (FIRST_ORDER_NUMBER + Z.of_nat n)).
Proof.
  intros Hl. assert (Hx : numbers_ok (il_store x)).
  { refine (il_invariant order_exec_tx numbers_ok rows_grow l empty_orders x _ _ _ Hl); [intros t snaps s s'; apply numbers_step|].
    split; [split; [constructor|by intros r ?%elem_of_nil]|]. intros t. by exists 0%nat. }
  destruct (no_numbers _ Hx tenantId) as (n & Hn & Hc). exists n. split; [done|]. rewrite Hn. split; [apply numbers_distinct|].
  unfold next. cbn [fst]. rewrite Hc. destruct n; do 2 f_equal; lia.
Qed.

(** C6: stored orders are reached by their aggregate. However the calls interleave, provided that the ids
    generated do not repeat, no clock is behind the history it adds to, and each call loads its order's
    entries in the order they were written (rows of one time have no order in the database; a call that
    loads them otherwise is left out): the rows of every stored order are those of an order that [place]
    or [createFromCheckout] and methods of the aggregate make, its history follows the lifecycle, and the
    events published for it are the events that order raised. In whatever order its rows come, it loads as
    that order but for the order of its lines and of the entries of one time; as that order with its very
    history when the entries come as written, and they do when no two have one time. *)
Theorem stored_orders_are_reachable `{RO : !RowOrder} l x id r :
  run_actions stamped_do l (mkInterleaved empty_orders []) = Some x -> row_of id (os_orders (il_store x)) = Some r ->
  exists o b, order_reachable o /\ lifecycle_path (types (history o)) /\ published_of id (il_store x) = agg_events o /\
    entries_in id (il_store x) = (toEventRow id (row_tenant r) <$> history o) /\
    findById id (row_tenant r) (il_store x) = Ok (Some b) /\ agg_id b = agg_id o /\
    alike (with_history (history b) (agg_props o)) (agg_props b) /\ (history b ≡ₚ history o) /\
    StronglySorted (fun a b => oe_at a <= oe_at b) (history b) /\
    (in_order id (il_store x) -> matching b o) /\ (NoDup (oe_at <$> history o) -> in_order id (il_store x)).
Proof.
  intros [Hok _]%orders_reached Hr. destruct (ok_orders _ Hok _ _ Hr) as [o Ho]. pose proof (row_of_Some _ _ _ Hr) as [_ <-].
  destruct (holds_load_any _ r o (ok_rows _ Hok) Hr Ho) as (b & Hb & Hi & Hal & HP & Ht & _). exists o, b.
  split; [apply (ho_reach _ _ _ Ho)|]. split; [apply reachable_path, (ho_reach _ _ _ Ho)|]. split; [apply (ho_published _ _ _ Ho)|].
  split; [apply (ho_entries _ _ _ Ho)|]. do 4 (split; [done|]). split.
  { eapply sorted_times. rewrite <- Ht. apply by_time_sorted. }
  split; [|by apply distinct_times_in_order]. intros Hord. destruct (holds_load _ r o (ok_rows _ Hok) Hr Ho Hord) as (b1 & Hb1 & Hm & _). congruence.
Qed.

(** C7: a capture that is handled is an order that is paid. After any interleaving of calls whose ids do not
    repeat, whose clocks are not behind and whose loads come in the order written, and when the same holds
    of the consumer's own id, clock and load: when the consumer of captured payments returns, the order of
    the capture loads, in whatever order its rows come, and its payment status is paid: the consumer drops
    no capture but one of an order that is paid already. *)
Theorem handled_capture_is_paid `{RO : !RowOrder} {X} (ports : OrderPorts (X := X)) l x out eid now event w' :
  run_actions stamped_do l (mkInterleaved empty_orders []) = Some x ->
  fresh [eid] (il_store x) -> on_time (pc_orderRef (ev_payload event)) now (il_store x) -> in_order (pc_orderRef (ev_payload event)) (il_store x) ->
  PaymentCapturedConsumer ports eid now event (mkWorld (il_store x) out) = (Ok tt, w') ->
  exists b, findById (pc_orderRef (ev_payload event)) (ev_tenantId _ event) (w_db w') = Ok (Some b) /\ derivePaymentStatus (history b) = ps_paid.
Proof.
  intros [Hok _]%orders_reached Hfr Hnow Hord Hc. unfold PaymentCapturedConsumer in Hc. apply bind_Ok in Hc as (u & w1 & [_ ->]%throw_if_Ok & (u1 & w2 & [_ ->]%lift_Ok & Hc)%bind_Ok).
  apply tolerant_paid in Hc as (v & w1 & Hw & Hc). apply tolerated in Hc as [_ Hp]; rewrite ?Hw; done.
Qed.

(** A cancellation is cleaned up after it is committed. A call that fails changes nothing, in the store
    or outside. One that moves an order commits first; then, when it was cancelled and only then, its
    fulfillment, its stock and its payment are each released, whatever became of the others. *)
Theorem cancellation_is_cleaned_up `{RO : !RowOrder} {X} (ports : OrderPorts (X := X)) eid now tenantId orderId toStatus (w : World OrderStore X) r w' :
  AdvanceOrder ports eid now tenantId orderId toStatus w = (r, w') ->
  match r with
  | Err _ => w' = w
  | Ok answer => exists o, advance_tx eid now tenantId orderId toStatus (w_db w) (w_db w) = (Ok o, w_db w') /\
      answer = mkStatusOutput (agg_id o) toStatus /\
      let told := effect (notify ports) (fun f => f (op_customerRef (agg_props o)) (op_orderNumber (agg_props o)) toStatus tenantId) (w_out w) in
      w_out w' = if bool_decide (toStatus = cancelled) then cleaned_up ports o tenantId orderId told else told
  end.
Proof.
  intros H. unfold AdvanceOrder in H. unfold mbind at 1, M_bind at 1 in H. rewrite advance_transaction in H.
  destruct (advance_tx eid now tenantId orderId toStatus (w_db w) (w_db w)) as [[o|e] s'] eqn:Ha; [|by injection H as <- <-].
  pose proof (advance_status _ _ _ _ _ _ _ _ _ Ha) as Hst. unfold mbind, M_bind, lift, output in H. rewrite Hst in H. cbn in H.
  case_bool_decide as Hc; unfold cleaned_up.
  - rewrite !when_wired_run in H. destruct (op_paymentRef (agg_props o)) as [ref|] eqn:Hp; [rewrite when_wired_run in H|]; cbn in H; injection H as <- <-; exists o; by rewrite Hp.
  - injection H as <- <-. by exists o.
Qed.

(** A payment that failed is never requested again. The table lets an order go from [payment_failed] to
    [payment_requested], but the call that requests a payment takes any payment the order has for one that
    was requested: it answers with the status and asks Payments for nothing. *)
Theorem failed_payment_is_never_requested `{RO : !RowOrder} {X} (ports : OrderPorts (X := X)) eids now tenantId orderId (w : World OrderStore X) o ref total :
  findById orderId tenantId (w_db w) = Ok (Some o) -> status_of (history o) = Ok payment_failed -> op_paymentRef (agg_props o) = Some ref ->
  totalAmount_of (agg_props o) = Ok total ->
  canTransition payment_failed payment_requested = true /\
  RequestPaymentCapture ports eids now tenantId orderId w = (Ok (mkStatusOutput orderId payment_failed), w).
Proof.
  intros Hf Hst Hp Ht. split; [done|]. unfold RequestPaymentCapture. unfold mbind at 1, M_bind at 1. rewrite transaction_run.
  unfold capture_precheck, load. unfold mbind, M_bind, lift. rewrite Hf. cbn. rewrite Hst, Ht, Hp. cbn. by destruct w.
Qed.

(** The entries the recording of a checkout payment writes: three, of one time. *)
Lemma checkout_payment_entries ref eids now (b b' : Order) : checkout_payment_call ref eids now b = (Ok tt, b') ->
  history b' = history b ++ [mkOrderEvent (eids 0%nat) confirmed now; mkOrderEvent (eids 1%nat) awaiting_payment now; mkOrderEvent (eids 2%nat) payment_requested now].
Proof.
  unfold checkout_payment_call, requestPayment. intros (u1 & b1 & H1 & (u2 & b2 & H2 & (u3 & b3 & H3 & H4)%bind_Ok)%bind_Ok)%bind_Ok.
  apply set_props_Ok in H4 as ->. unfold transition in *. order_inv. unfold history. cbn. by rewrite <- !app_assoc.
Qed.
Lemma ops_checkout_payment ref eids now (b b' : Order) : run_ops order_exec (payment_ops ref eids now) b = (Ok tt, b') -> checkout_payment_call ref eids now b = (Ok tt, b').
Proof.
  cbn. intros (u1 & b1 & H1 & (u2 & b2 & H2 & (u3 & b3 & H3 & [_ ->]%ret_Ok)%bind_Ok)%bind_Ok)%bind_Ok. destruct u3.
  unfold checkout_payment_call. by rewrite (run_bind _ _ _ _ _ H1), (run_bind _ _ _ _ _ H2).
Qed.

(** C40: a payment recorded at checkout can lose its capture. Take any payment that [RecordCheckoutPayment]
    records, after any run of calls as they should be (ids that do not repeat, clocks not behind, loads in
    the order written, its own included). It ends the order's history in [payment_requested]. But the three
    entries it writes have one time: an order of the rows along their times exists in which [confirmed]
    comes last, and whenever the database answers so, every delivery of the capture of that order fails,
    whatever Payments answers, and leaves the store as it is. *)
Theorem recorded_payment_loses_its_capture `{RO : !RowOrder} {X} (ports : OrderPorts (X := X)) l x eids now t id ref b s' :
  run_actions stamped_do l (mkInterleaved empty_orders []) = Some x ->
  stamped (TxRecordPayment eids now t id ref) [il_store x] (il_store x) = true ->
  record_payment_tx eids now t id ref (il_store x) (il_store x) = (Ok b, s') -> s' <> il_store x ->
  status_of (history b) = Ok payment_requested /\
  (exists rows, rows ≡ₚ entries_in id s' /\ StronglySorted (fun a b => er_occurredAt a <= er_occurredAt b) rows /\
     er_type <$> last rows = Some confirmed) /\
  (er_type <$> last (by_time (entries_in id s')) = Some confirmed ->
   forall eid now' event out, pc_orderRef (ev_payload event) = id -> ev_tenantId _ event = t ->
     exists e w', PaymentCapturedConsumer ports eid now' event (mkWorld s' out) = (Err e, w') /\ w_db w' = s').
Proof.
  intros [Hok _]%orders_reached Hst Hrec Hne. destruct (stamped_fresh _ _ _ _ _ _ Hst eq_refl) as [Hfr [Hnow Hord]%list.Forall_singleton].
  apply record_payment_Ok in Hrec as [(_ & _ & ->)|(b0 & Hw)]; [done|]. pose proof Hw as (_ & Hops & _).
  apply ops_checkout_payment, checkout_payment_entries in Hops as Hb.
  destruct (call_stored id t (payment_ops ref eids now) now _ _ s' b0 b Hok Hok ltac:(reflexivity) Hw ltac:(by repeat constructor) Hfr Hnow Hord)
    as (Hok' & _ & r & o & Hr & Ht & Ho & [_ Hal]).
  pose proof (row_of_Some _ _ _ Hr) as [_ <-]. subst t. split; [unfold status_of; by rewrite Hb, last_app|]. split.
  - set (h := history b0) in *. set (c := mkOrderEvent _ confirmed now) in *. set (a := mkOrderEvent _ awaiting_payment now) in *. set (p := mkOrderEvent _ payment_requested now) in *.
    assert (Hho : history o = h ++ [c; a; p]) by (rewrite <- Hb; unfold history; by rewrite (al_history _ _ Hal)).
    exists (toEventRow (row_id r) (row_tenant r) <$> (h ++ [a; p; c])). split; [|split].
    + rewrite (ho_entries _ _ _ Ho), Hho. apply Permutation_map, Permutation_app_head. symmetry. apply (Permutation_cons_append [a; p] c).
    + apply sorted_entries. pose proof (wf_times _ (ho_wf _ _ _ Ho)) as Hs. fold (history o) in Hs. rewrite Hho in Hs.
      apply sorting.StronglySorted_app in Hs as (Hall & Hh & _). apply sorting.StronglySorted_app. split; [|split; [done|]].
      * intros e1 e2 H1 H2. apply (Hall e1 e2 H1). set_solver.
      * repeat constructor; cbn; lia.
    + by rewrite fmap_app, last_app.
  - intros Hlast eid now' event out Hi Ht. destruct (holds_load_any s' r o (ok_rows _ Hok') Hr Ho) as (b2 & Hb2 & _ & _ & _ & Hrows & _).
    apply (confirmed_takes_no_capture ports eid now' event (mkWorld s' out) b2); [by rewrite Hi, Ht|].
    rewrite Hrows, fmap_last in Hlast. unfold status_of. destruct (last (history b2)); [by injection Hlast as ->|done].
Qed.

(** ** Samples

    Rows in the order of their times, those of one time as they were inserted, or the other way round. *)

Definition by_at : OrderEventRow -> OrderEventRow -> bool := fun a b => bool_decide (er_occurredAt a <= er_occurredAt b).
Lemma by_at_sorted l : StronglySorted (fun a b => er_occurredAt a <= er_occurredAt b) (sort_by by_at l).
Proof.
  apply sort_by_sorted; unfold by_at; intros x y; [apply bool_decide_eq_true|intros H%bool_decide_eq_false; lia|]. intros z. lia.
Qed.
Lemma by_at_stable l : StronglySorted (fun a b => er_occurredAt a <= er_occurredAt b) l -> sort_by by_at l = l.
Proof.
  induction 1 as [|x l _ IH Hx]; [done|]. cbn. fold (sort_by by_at l). rewrite IH. destruct l as [|y l]; [done|]. apply Forall_cons in Hx as [Hx _].
  cbn. unfold by_at. by rewrite bool_decide_true.
Qed.
Definition insertion_order : RowOrder := {|
  any_order l := l; any_order_perm l := Permutation_refl l; by_time := sort_by by_at; by_time_perm := sort_by_perm by_at; by_time_sorted := by_at_sorted |}.
Lemma latest_first_perm l : sort_by by_at (rev l) ≡ₚ l.
Proof. rewrite sort_by_perm. symmetry. apply Permutation_rev. Qed.
Definition latest_first : RowOrder := {|
  any_order l := l; any_order_perm l := Permutation_refl l; by_time l := sort_by by_at (rev l); by_time_perm := latest_first_perm; by_time_sorted l := by_at_sorted (rev l) |}.

Definition sample_line : ItemInput := mkItemInput "puzzle" "Puzzle" (NInt 500) (NInt 2) None None None.
Definition sample_to : AddressInput := mkAddressInput "1 Main St" "Cairo" "11511" "EG" None None None None.
Definition sample_totals : OrderTotalsSnapshot := mkOrderTotals 1000 0 0 0 (NInt 1000) "EUR" None None None None None.
Definition sample_ids (prefix : string) (n : nat) : string := prefix +:+ show_nat n.
(** Two orders of a shop, the first from a checkout, whose payment is recorded; a third that fails. *)
Definition sample_calls : list (Action OrderTx) :=
  [Begin (TxCheckout (sample_ids "a") 1 "t" "checkout" "customer" "EUR" [sample_line] sample_to sample_to sample_totals); Commit 0;
   Begin (TxPlace (sample_ids "f") 2 "t" "customer" "EUR" [] sample_to); Begin (TxPlace (sample_ids "b") 3 "t" "customer" "EUR" [sample_line] sample_to); Abort 0; Commit 0;
   Begin (TxRecordPayment (sample_ids "p") 4 "t" "a1" "pay"); Read 0; Commit 0].
Definition sample_run {RO : RowOrder} (l : list (Action OrderTx)) : OrderStore :=
  match run_actions (stamped_do (RO := RO)) l (mkInterleaved empty_orders []) with Some x => il_store x | None => empty_orders end.
Definition sample_capture : IntegrationEvent PaymentCapturedPayload := mkEvent "m" "t" (mkCaptured "pay" "a1" 1000 "EUR").
Definition no_ports : OrderPorts (X := unit) :=
  mkPorts None None None None (fun _ _ _ _ => mret "pay") (fun _ _ => mret "reservation") (fun _ _ => mret "shipment") None.

(** ** Witnesses *)

Lemma order_numbers_are_consecutive_witness :
  exists n, numbers_of "t" (sample_run (RO := latest_first) sample_calls) = numbers_from n /\ n = 2%nat.
Proof.
  assert (H : run_actions (orders_do (RO := latest_first)) sample_calls (mkInterleaved empty_orders []) = Some (mkInterleaved (sample_run (RO := latest_first) sample_calls) [])) by by vm_compute.
  destruct (order_numbers_are_consecutive (RO := latest_first) _ _ "t" H) as (n & Hn & _). exists n. split; [exact Hn|].
  apply (f_equal length) in Hn. unfold numbers_from in Hn. rewrite length_fmap, length_seq in Hn. rewrite <- Hn. by vm_compute.
Defined.

Lemma sample_run_stamped : run_actions (stamped_do (RO := insertion_order)) sample_calls (mkInterleaved empty_orders []) = Some (mkInterleaved (sample_run (RO := insertion_order) sample_calls) []).
Proof. by vm_compute. Qed.

Lemma stored_orders_are_reachable_witness :
  exists o b, order_reachable o /\ findById (RO := insertion_order) "a1" "t" (sample_run (RO := insertion_order) sample_calls) = Ok (Some b) /\ matching b o.
Proof.
  destruct (row_of "a1" (os_orders (sample_run (RO := insertion_order) sample_calls))) as [r|] eqn:Hr; [|vm_compute in Hr; discriminate Hr].
  destruct (stored_orders_are_reachable (RO := insertion_order) _ _ "a1" r sample_run_stamped Hr) as (o & b & Ho & _ & _ & _ & Hb & _ & _ & _ & _ & Hm & _).
  exists o, b. split; [exact Ho|]. assert (Ht : row_tenant r = "t") by (vm_compute in Hr; injection Hr as <-; reflexivity). rewrite Ht in Hb. split; [exact Hb|].
  apply Hm. apply (bool_decide_eq_true_1 _). vm_compute. reflexivity.
Defined.

Lemma handled_capture_is_paid_witness :
  exists w b, PaymentCapturedConsumer (RO := insertion_order) no_ports "c" 9 sample_capture (mkWorld (sample_run (RO := insertion_order) sample_calls) tt) = (Ok tt, w) /\
    findById (RO := insertion_order) "a1" "t" (w_db w) = Ok (Some b) /\ derivePaymentStatus (history b) = ps_paid.
Proof.
  destruct (PaymentCapturedConsumer (RO := insertion_order) no_ports "c" 9 sample_capture (mkWorld (sample_run (RO := insertion_order) sample_calls) tt)) as [r w] eqn:Hc.
  assert (Hr : r = Ok tt) by (apply (f_equal fst) in Hc; cbn [fst] in Hc; rewrite <- Hc; vm_compute; reflexivity). subst r.
  destruct (handled_capture_is_paid (RO := insertion_order) no_ports _ _ tt "c" 9 sample_capture w sample_run_stamped) as (b & Hb & Hp).
  - clear. split; [apply NoDup_singleton|]. constructor; [|constructor]. apply (bool_decide_eq_true_1 (~ _)). vm_compute. reflexivity.
  - clear. intros r Hr _. assert (H : Forall (fun r => er_occurredAt r <= 9) (os_events (sample_run (RO := insertion_order) sample_calls))) by (apply (bool_decide_eq_true_1 _); vm_compute; reflexivity).
    rewrite Forall_forall in H. exact (H r Hr).
  - clear. apply (bool_decide_eq_true_1 _). vm_compute. reflexivity.
  - exact Hc.
  - exists w, b. split; [reflexivity|]. split; [exact Hb|exact Hp].
Defined.

(** Where rows of one time come the last first, the payment of the first order loses its capture. *)
Definition sample_placed : list (Action OrderTx) := take 6 sample_calls.
Definition sample_recorded : result Order * OrderStore :=
  record_payment_tx (RO := latest_first) (sample_ids "p") 4 "t" "a1" "pay" (sample_run (RO := latest_first) sample_placed) (sample_run (RO := latest_first) sample_placed).
Lemma recorded_payment_loses_its_capture_witness : exists e w',
  PaymentCapturedConsumer (RO := latest_first) no_ports "z" 9 sample_capture (mkWorld (snd sample_recorded) tt) = (Err e, w') /\ w_db w' = snd sample_recorded.
Proof.
  destruct sample_recorded as [r s'] eqn:Hs. assert (Hr : isOk r = true) by (apply (f_equal fst) in Hs; cbn [fst] in Hs; rewrite <- Hs; vm_compute; reflexivity).
  destruct r as [b|e]; [|discriminate Hr].
  assert (Hl : run_actions (stamped_do (RO := latest_first)) sample_placed (mkInterleaved empty_orders []) = Some (mkInterleaved (sample_run (RO := latest_first) sample_placed) [])) by by vm_compute.
  destruct (recorded_payment_loses_its_capture (RO := latest_first) no_ports _ _ (sample_ids "p") 4 "t" "a1" "pay" b s' Hl) as (_ & _ & Hlost).
  - vm_compute. reflexivity.
  - exact Hs.
  - intros He. apply (f_equal (fun x => length (os_events x.2))) in Hs. cbn [snd] in Hs. rewrite He in Hs. vm_compute in Hs. discriminate Hs.
  - apply Hlost; [|reflexivity|reflexivity]. apply (f_equal (fun x => er_type <$> last (by_time (RowOrder := latest_first) (entries_in "a1" x.2)))) in Hs.
    cbn [snd] in Hs. rewrite <- Hs. vm_compute. reflexivity.
Defined.

Lemma cancellation_is_cleaned_up_witness :
  exists w answer, AdvanceOrder (RO := insertion_order) no_ports "c" 9 "t" "b1" cancelled (mkWorld (sample_run (RO := insertion_order) sample_calls) tt) = (Ok answer, w) /\ so_status answer = cancelled.
Proof.
  destruct (AdvanceOrder (RO := insertion_order) no_ports "c" 9 "t" "b1" cancelled (mkWorld (sample_run (RO := insertion_order) sample_calls) tt)) as [r w] eqn:Hc.
  assert (Hr : isOk r = true) by (apply (f_equal fst) in Hc; cbn [fst] in Hc; rewrite <- Hc; vm_compute; reflexivity). destruct r as [answer|e]; [|discriminate Hr].
  destruct (cancellation_is_cleaned_up (RO := insertion_order) no_ports _ _ _ _ _ _ _ _ Hc) as (o & _ & Ha & _). exists w, answer. split; [reflexivity|]. rewrite Ha. reflexivity.
Defined.

Definition sample_failed : list (Action OrderTx) := sample_calls ++ [Begin (TxAdvance "q" 5 "t" "a1" payment_failed); Read 0; Commit 0].
Lemma failed_payment_is_never_requested_witness :
  RequestPaymentCapture (RO := insertion_order) no_ports (fun _ => "c") 9 "t" "a1" (mkWorld (sample_run (RO := insertion_order) sample_failed) tt) =
    (Ok (mkStatusOutput "a1" payment_failed), mkWorld (sample_run (RO := insertion_order) sample_failed) tt).
Proof.
  destruct (findById (RO := insertion_order) "a1" "t" (sample_run (RO := insertion_order) sample_failed)) as [[o|]|e] eqn:Hf; [|vm_compute in Hf; discriminate Hf..].
  apply (failed_payment_is_never_requested (RO := insertion_order) no_ports (fun _ => "c") 9 "t" "a1" (mkWorld (sample_run (RO := insertion_order) sample_failed) tt) o "pay" (mkMoney 1000 "EUR") Hf);
    vm_compute in Hf; injection Hf as <-; reflexivity.
Defined.
