(* ===== verification/CapabilityGraph.v ===== *)
(** The feature registry's dependency graph:
    [services/feature-registry/src/domain/capability-graph.ts]. A graph is built from the features' lists of
    dependencies and answers traversals, reverse look-ups, cycle detection and paths. The recursions carry
    fuel; on a graph the constructor built the fuel given is enough ([None] never comes out). *)
From stdpp Require Import relations sorting.
From S2P Require Import Prelude Paging.

Record CapabilityGraphNode := mkNode { node_key : string; dependsOn : list string }.
Record CompatibilityGap := mkGap { gap_key : string; gap_missing : list string }.

Definition sortUnique (values : list string) : list string := sort_by string_le (unique values).

(** ** The edges: a [Map] from a key to its sorted dependencies *)

Abbreviation Edges := (list (string * list string)).

Fixpoint edges_get (k : string) (m : Edges) : option (list string) :=
  match m with [] => None | (k', v) :: m' => if bool_decide (k' = k) then Some v else edges_get k m' end.
Fixpoint edges_set (k : string) (v : list string) (m : Edges) : Edges :=
  match m with
  | [] => [(k, v)]
  | (k', v') :: m' => if bool_decide (k' = k) then (k, v) :: m' else (k', v') :: edges_set k v m'
  end.
Definition edges_has (k : string) (m : Edges) : bool := bool_decide (k ∈ m.*1).

(** The constructor: the nodes' edges, a later node of the same key in place of the earlier one; then a
    vertex without edges for what is referenced and not defined. *)
Definition set_node (m : Edges) (node : CapabilityGraphNode) : Edges := edges_set (node_key node) (sortUnique (dependsOn node)) m.
Definition add_vertex (m : Edges) (d : string) : Edges := if edges_has d m then m else edges_set d [] m.
Definition CapabilityGraph (nodes : list CapabilityGraphNode) : Edges :=
  let m := foldl set_node [] nodes in
  foldl (fun m deps => foldl add_vertex m deps) m m.*2.

(** A feature as [fromFeatures] sees it. *)
Record GraphFeature := mkGraphFeature { gf_key : string; gf_dependencies : list (string * Z); gf_requires : list string }.
Definition fromFeatures (features : list GraphFeature) : Edges :=
  CapabilityGraph ((fun f => mkNode (gf_key f) ((gf_dependencies f).*1 ++ gf_requires f)) <$> features).

Definition graph_keys (g : Edges) : list string := sortUnique g.*1.
Definition dependenciesOf (g : Edges) (key : string) : list string := default [] (edges_get key g).
Definition dependents (g : Edges) (key : string) : list string :=
  sortUnique (filter (fun e => key ∈ e.2) g).*1.

(** ** Traversals *)

(** A loop whose body may run out of fuel. *)
Fixpoint fold_fuel {A B} (f : B -> A -> option A) (acc : A) (l : list B) : option A :=
  match l with [] => Some acc | x :: l' => acc' ← f x acc; fold_fuel f acc' l' end.

(** [visit] of [transitiveDependencies] and [impactOf]: the set collected so far, and what leads on from a
    key. *)
Fixpoint collect (next : string -> list string) (fuel : nat) (k : string) (out : list string) : option (list string) :=
  match fuel with
  | O => None
  | S fuel' => fold_fuel (fun d out => if bool_decide (d ∈ out) then Some out else collect next fuel' d (out ++ [d])) out (next k)
  end.
Definition graph_fuel (g : Edges) : nat := S (length g).
Definition traverse (g : Edges) (next : string -> list string) (key : string) : option (list string) :=
  out ← collect next (graph_fuel g) key [];
  Some (sortUnique (filter (fun x => x <> key) out)).
Definition transitiveDependencies (g : Edges) (key : string) : option (list string) := traverse g (dependenciesOf g) key.
Definition impactOf (g : Edges) (key : string) : option (list string) := traverse g (dependents g) key.

(** ** Cycle detection *)

Record Dfs := mkDfs { dfs_cycles : list (list string); dfs_seen : list string; dfs_stack : list string; dfs_inStack : list string }.

Fixpoint indexOf (k : string) (l : list string) : option nat :=
  match l with [] => None | x :: l' => if bool_decide (x = k) then Some O else S <$> indexOf k l' end.

Definition push_vertex (k : string) (s : Dfs) : Dfs :=
  mkDfs (dfs_cycles s) (dfs_seen s ++ [k]) (dfs_stack s ++ [k]) (dfs_inStack s ++ [k]).
Definition pop_vertex (k : string) (s : Dfs) : Dfs :=
  mkDfs (dfs_cycles s) (dfs_seen s) (removelast (dfs_stack s)) (filter (fun x => x <> k) (dfs_inStack s)).
Definition report_cycle (k : string) (s : Dfs) : Dfs :=
  match indexOf k (dfs_stack s) with
  | Some start => mkDfs (dfs_cycles s ++ [drop start (dfs_stack s) ++ [k]]) (dfs_seen s) (dfs_stack s) (dfs_inStack s)
  | None => s
  end.

Fixpoint visit (g : Edges) (fuel : nat) (k : string) (s : Dfs) : option Dfs :=
  match fuel with
  | O => None
  | S fuel' =>
      if bool_decide (k ∈ dfs_inStack s) then Some (report_cycle k s)
      else if bool_decide (k ∈ dfs_seen s) then Some s
      else s' ← fold_fuel (visit g fuel') (push_vertex k s) (dependenciesOf g k); Some (pop_vertex k s')
  end.
Definition detectCycles (g : Edges) : option (list (list string)) :=
  dfs_cycles <$> fold_fuel (visit g (graph_fuel g)) (mkDfs [] [] [] []) (graph_keys g).
Definition hasCycle (g : Edges) : option bool := (fun l => negb (bool_decide (length l = 0%nat))) <$> detectCycles g.

(** ** Validation and paths *)

Definition validateAgainst (g : Edges) (available : list string) : list CompatibilityGap :=
  omap (fun k =>
    let missing := filter (fun d => d ∉ available) (dependenciesOf g k) in
    if bool_decide (length missing = 0%nat) then None else Some (mkGap k (sortUnique missing))) (graph_keys g).

Definition enqueue (path : list string) (acc : list (list string) * list string) (d : string) : list (list string) * list string :=
  if bool_decide (d ∈ acc.2) then acc else (acc.1 ++ [path ++ [d]], acc.2 ++ [d]).
Fixpoint search (g : Edges) (to : string) (fuel : nat) (queue : list (list string)) (seen : list string) : option (option (list string)) :=
  match fuel with
  | O => None
  | S fuel' =>
      match queue with
      | [] => Some None
      | path :: queue' =>
          match last path with
          | None => search g to fuel' queue' seen
          | Some tail =>
              if bool_decide (tail = to) then Some (Some path)
              else let acc := foldl (enqueue path) (queue', seen) (dependenciesOf g tail) in search g to fuel' acc.1 acc.2
          end
      end
  end.
Definition upgradePath (g : Edges) (from to : string) : option (option (list string)) :=
  search g to (S (graph_fuel g)) [[from]] [from].

(** ** The relation a graph stands for *)

Definition edge (g : Edges) (a b : string) : Prop := b ∈ dependenciesOf g a.
#[export] Instance edge_dec g : RelDecision (edge g).
Proof. intros a b. unfold edge. apply _. Defined.
(** A walk along the edges. *)
Definition walk (g : Edges) : list string -> Prop := Sorted (edge g).

Lemma elem_of_sortUnique x l : x ∈ sortUnique l <-> x ∈ l.
Proof. unfold sortUnique. by rewrite sort_by_perm, elem_of_unique. Qed.
Lemma NoDup_sortUnique l : NoDup (sortUnique l).
Proof. unfold sortUnique. rewrite sort_by_perm. apply NoDup_unique. Qed.

Lemma edges_get_set k v m k' : edges_get k' (edges_set k v m) = if bool_decide (k = k') then Some v else edges_get k' m.
Proof.
  induction m as [|[a w] m IH]; cbn; [done|]. destruct (decide (a = k)) as [-> |Hn].
  - rewrite (bool_decide_true (k = k)) by done. cbn. by case_bool_decide.
  - rewrite (bool_decide_false (a = k)) by done. cbn. rewrite IH. repeat case_bool_decide; congruence.
Qed.
Lemma edges_set_keys k v m x : x ∈ (edges_set k v m).*1 <-> x = k \/ x ∈ m.*1.
Proof.
  induction m as [|[a w] m IH]; cbn; [by rewrite elem_of_cons|]. case_bool_decide as Ha; cbn; rewrite !elem_of_cons; [naive_solver|].
  rewrite IH. naive_solver.
Qed.
Lemma edges_set_NoDup k v m : NoDup m.*1 -> NoDup (edges_set k v m).*1.
Proof.
  induction m as [|[a w] m IH]; cbn; [intros _; apply NoDup_singleton|]. intros [Ha Hm]%NoDup_cons. case_bool_decide as He; cbn; apply NoDup_cons; [by subst|].
  split; [|by apply IH]. rewrite edges_set_keys. intros [-> |?]; done.
Qed.
Lemma edges_get_elem k m : edges_get k m <> None <-> k ∈ m.*1.
Proof.
  induction m as [|[a w] m IH]; cbn; [by rewrite elem_of_nil|]. rewrite elem_of_cons. case_bool_decide as Ha; [subst; naive_solver|].
  rewrite IH. naive_solver.
Qed.
Lemma edges_get_In k v m : NoDup m.*1 -> edges_get k m = Some v <-> (k, v) ∈ m.
Proof.
  induction m as [|[a w] m IH]; cbn; [by rewrite elem_of_nil|]. intros [Ha Hm]%NoDup_cons. rewrite elem_of_cons. case_bool_decide as He.
  - subst. split; [naive_solver|]. intros [[= ->]|Hin]; [done|]. destruct Ha. by apply (list_elem_of_fmap_2 fst) in Hin.
  - rewrite IH by done. naive_solver.
Qed.

(** What the constructor builds: keys once, and every dependency a key. *)
Definition graph_wf (g : Edges) : Prop := NoDup g.*1 /\ forall a b, edge g a b -> b ∈ g.*1.

Lemma edge_source g a b : edge g a b -> a ∈ g.*1.
Proof. unfold edge, dependenciesOf. intros H. apply edges_get_elem. intros E. rewrite E in H. by apply elem_of_nil in H. Qed.
Lemma dependents_edge g a b : NoDup g.*1 -> a ∈ dependents g b <-> edge g a b.
Proof.
  intros Hn. unfold dependents. rewrite elem_of_sortUnique, list_elem_of_fmap. unfold edge, dependenciesOf. split.
  - intros ([k v] & -> & [Hin Hkv]%list_elem_of_filter). cbn in *. by apply (edges_get_In k v g Hn) in Hkv as ->.
  - destruct (edges_get a g) as [v|] eqn:E; cbn; [|by intros ?%elem_of_nil]. intros Hv. exists (a, v). split; [done|]. apply list_elem_of_filter. split; [done|]. by apply edges_get_In.
Qed.
Lemma elem_of_graph_keys g k : k ∈ graph_keys g <-> k ∈ g.*1.
Proof. apply elem_of_sortUnique. Qed.

Lemma add_vertex_spec m d : NoDup m.*1 ->
  NoDup (add_vertex m d).*1 /\ (forall x, x ∈ (add_vertex m d).*1 <-> x = d \/ x ∈ m.*1) /\ forall k, dependenciesOf (add_vertex m d) k = dependenciesOf m k.
Proof.
  intros Hm. unfold add_vertex, edges_has. case_bool_decide as Hd; [by split_and!; [|naive_solver|]|].
  split_and!; [by apply edges_set_NoDup|intros x; apply edges_set_keys|]. intros k. unfold dependenciesOf. rewrite edges_get_set. case_bool_decide as Hk; [|done].
  subst. destruct (edges_get k m) eqn:E; [|done]. destruct Hd. apply edges_get_elem. by rewrite E.
Qed.
Lemma add_vertices_spec l m : NoDup m.*1 -> let m' := foldl add_vertex m l in
  NoDup m'.*1 /\ (forall x, x ∈ m'.*1 <-> x ∈ l \/ x ∈ m.*1) /\ forall k, dependenciesOf m' k = dependenciesOf m k.
Proof.
  cbv zeta. revert m. induction l as [|d l IH]; cbn; intros m Hm; [split_and!; [done| |done]; intros x; rewrite elem_of_nil; tauto|].
  destruct (add_vertex_spec m d Hm) as (H1 & H2 & H3). destruct (IH _ H1) as (H4 & H5 & H6). split_and!; [done| |].
  - intros x. rewrite (H5 x), H2, elem_of_cons. tauto.
  - intros k. etransitivity; [apply H6|apply H3].
Qed.
Lemma all_vertices_spec ll m : NoDup m.*1 -> let m' := foldl (fun m deps => foldl add_vertex m deps) m ll in
  NoDup m'.*1 /\ (forall x, x ∈ m'.*1 <-> (exists l, l ∈ ll /\ x ∈ l) \/ x ∈ m.*1) /\ forall k, dependenciesOf m' k = dependenciesOf m k.
Proof.
  cbv zeta. revert m. induction ll as [|l ll IH]; cbn; intros m Hm; [split_and!; [done| |done]; intros x; split; [by right|intros [(l & ?%elem_of_nil & _)|?]; done]|].
  destruct (add_vertices_spec l m Hm) as (H1 & H2 & H3). destruct (IH _ H1) as (H4 & H5 & H6). split_and!; [done| |].
  - intros x. rewrite (H5 x), H2. setoid_rewrite elem_of_cons. naive_solver.
  - intros k. etransitivity; [apply H6|apply H3].
Qed.
Lemma set_nodes_NoDup nodes m : NoDup m.*1 -> NoDup (foldl set_node m nodes).*1.
Proof. revert m. induction nodes as [|n nodes IH]; cbn; intros m Hm; [done|]. by apply IH, edges_set_NoDup. Qed.
Lemma set_nodes_get nodes m k : edges_get k (foldl set_node m nodes) =
  match last (filter (fun n => node_key n = k) nodes) with Some n => Some (sortUnique (dependsOn n)) | None => edges_get k m end.
Proof.
  revert m. induction nodes as [|n nodes IH] using rev_ind; intros m; [done|]. rewrite foldl_app, filter_app. cbn. unfold set_node at 1. rewrite edges_get_set.
  case_bool_decide as Hk; [rewrite decide_True by done|rewrite decide_False by done].
  - by rewrite last_snoc.
  - by rewrite app_nil_r, IH.
Qed.

(** The edges of a graph are the dependencies of the last node of each key. *)
Lemma graph_dependencies nodes k :
  dependenciesOf (CapabilityGraph nodes) k =
  match last (filter (fun n => node_key n = k) nodes) with Some n => sortUnique (dependsOn n) | None => [] end.
Proof.
  unfold CapabilityGraph. cbv zeta. assert (Hn : NoDup (foldl set_node [] nodes).*1) by (apply set_nodes_NoDup; constructor).
  destruct (all_vertices_spec (foldl set_node [] nodes).*2 _ Hn) as (_ & _ & ->). unfold dependenciesOf. rewrite set_nodes_get. by destruct (last _).
Qed.
Lemma graph_built nodes : graph_wf (CapabilityGraph nodes).
Proof.
  assert (Hn : NoDup (foldl set_node [] nodes).*1) by (apply set_nodes_NoDup; constructor).
  destruct (all_vertices_spec (foldl set_node [] nodes).*2 _ Hn) as (H1 & H2 & H3). split; [exact H1|]. intros a b He. unfold CapabilityGraph in *. cbv zeta in *.
  apply H2. left. unfold edge in He. rewrite H3 in He. unfold dependenciesOf in He. destruct (edges_get a _) as [v|] eqn:E; [|by apply elem_of_nil in He].
  exists v. split; [|done]. apply (edges_get_In a v _ Hn) in E. by apply (list_elem_of_fmap_2 snd) in E.
Qed.

(** ** Traversals reach what the relation reaches *)

(** What is left of the vertices [U] once [out] was reached. *)
Definition unseen (U out : list string) : nat := length (filter (fun x => x ∉ out) U).
Lemma unseen_shrinks U out d : d ∈ U -> d ∉ out -> (unseen U (out ++ [d]) < unseen U out)%nat.
Proof. intros Hd Hn. apply (filter_strict _ _ _ d); [set_solver|done|done|set_solver]. Qed.
Lemma unseen_mono U out out' : (forall x, x ∈ out -> x ∈ out') -> (unseen U out' <= unseen U out)%nat.
Proof.
  intros Hs. unfold unseen. induction U as [|a U IH]; [done|]. rewrite !filter_cons. repeat case_decide; cbn; try lia. naive_solver.
Qed.
Lemma unseen_all U : (unseen U [] <= length U)%nat.
Proof. apply length_filter. Qed.

Section collect.
Context (next : string -> list string) (U : list string).
Context (Hnext : forall k d, d ∈ next k -> d ∈ U).
Let R (a b : string) : Prop := b ∈ next a.

(** What [collect] adds for [k]: what is reachable from it, closed under [next]. *)
Definition collected (k : string) (out out' : list string) : Prop :=
  (forall x, x ∈ out -> x ∈ out') /\ (forall x, x ∈ out' -> x ∈ out \/ (tc R k x /\ forall y, y ∈ next x -> y ∈ out')).

Lemma collect_spec fuel k out :
  (unseen U out < fuel)%nat -> exists out', collect next fuel k out = Some out' /\ collected k out out' /\ forall x, x ∈ next k -> x ∈ out'.
Proof using Hnext.
  revert k out. induction fuel as [|fuel IH]; intros k out Hf; [lia|]. cbn [collect].
  assert (Hl : forall d, d ∈ next k -> R k d) by done. revert out Hf Hl. generalize (next k) as l. intros l.
  induction l as [|d l IHl]; intros out Hf Hl; cbn [fold_fuel].
  { exists out. split; [done|]. split; [split; [done|by left]|]. by intros x ?%elem_of_nil. }
  assert (Hkd : R k d) by (apply Hl; left). case_bool_decide as Hd.
  - cbn. destruct (IHl out Hf) as (out' & -> & [H1 H2] & H3); [intros ??; apply Hl; by right|]. exists out'. split; [done|]. split; [by split|].
    intros x [-> |Hx]%elem_of_cons; [by apply H1|by apply H3].
  - assert (Hlt : (unseen U (out ++ [d]) < unseen U out)%nat) by (apply unseen_shrinks; [by eapply Hnext|done]).
    destruct (IH d (out ++ [d])) as (out1 & -> & [H1 H2] & H3); [lia|]. cbn. assert (Hm := unseen_mono U _ _ H1).
    destruct (IHl out1) as (out' & -> & [H4 H5] & H6); [lia|intros ??; apply Hl; by right|]. exists out'. split; [done|].
    assert (Hd1 : d ∈ out1) by (apply H1; set_solver). split; [split|].
    + intros x Hx. apply H4, H1. set_solver.
    + intros x [Hx|?]%H5; [|by right]. destruct (H2 x Hx) as [[Hx'| ->%list_elem_of_singleton]%elem_of_app|[Ht Hc]]; [by left| |].
      * right. split; [by apply tc_once|]. intros y Hy. by apply H4, H3.
      * right. split; [by eapply tc_l|]. intros y Hy. by apply H4, Hc.
    + intros x [-> |Hx]%elem_of_cons; [by apply H4|by apply H6].
Qed.

Lemma closed_reach (C : list string) a x : (forall z y, z ∈ C -> y ∈ next z -> y ∈ C) -> (forall y, y ∈ next a -> y ∈ C) -> tc R a x -> x ∈ C.
Proof using. intros Hc Ha H. induction H as [a x Hx|a b x Hb _ IH]; [by apply Ha|]. apply IH. intros y Hy. by apply (Hc b y), Hy; apply Ha. Qed.

Lemma traverse_spec g key : (unseen U [] < graph_fuel g)%nat ->
  exists l, traverse g next key = Some l /\ NoDup l /\ forall x, x ∈ l <-> x <> key /\ tc R key x.
Proof using Hnext.
  intros Hf. unfold traverse. destruct (collect_spec _ key [] Hf) as (out & -> & [_ H2] & H3). eexists. split; [done|]. split; [apply NoDup_sortUnique|].
  intros x. rewrite elem_of_sortUnique, list_elem_of_filter. split; intros [Hx Ht]; (split; [done|]).
  - by destruct (H2 x Ht) as [?%elem_of_nil|[? _]].
  - eapply closed_reach; [|exact H3|exact Ht]. intros z y Hz Hy. destruct (H2 z Hz) as [?%elem_of_nil|[_ ?]]; [done|auto].
Qed.

End collect.

Lemma graph_unseen g : (unseen g.*1 [] < graph_fuel g)%nat.
Proof. unfold graph_fuel. assert (H := unseen_all g.*1). rewrite length_fmap in H. lia. Qed.

Lemma tc_inverse {A} (R : relation A) x y : tc (fun a b => R b a) x y -> tc R y x.
Proof. induction 1; [by apply tc_once|by eapply tc_r]. Qed.

(** ** Cycles *)

Lemma walk_suffix {A} (R : relation A) l1 l2 : Sorted R (l1 ++ l2) -> Sorted R l2.
Proof. induction l1 as [|x l1 IH]; cbn; [done|]. intros H. apply IH. by inversion H. Qed.
Lemma walk_snoc {A} (R : relation A) l x y : Sorted R (l ++ [x]) -> R x y -> Sorted R ((l ++ [x]) ++ [y]).
Proof.
  intros H Hxy. induction l as [|z l IH]; cbn in *; [by repeat constructor|]. inversion H as [|? ? Hs Hd]; subst. constructor; [by apply IH|].
  destruct l; cbn in *; inversion Hd; by constructor.
Qed.
Lemma walk_tc {A} (R : relation A) x l y : Sorted R (x :: l ++ [y]) -> tc R x y.
Proof.
  revert x. induction l as [|z l IH]; cbn; intros x H; inversion H as [|? ? Hs Hd]; subst; inversion Hd; subst; [by apply tc_once|].
  eapply tc_l; [done|]. by apply IH.
Qed.
Lemma Acc_no_cycle {A} (R : relation A) x : Acc (flip R) x -> ~ tc R x x.
Proof.
  induction 1 as [x _ IH]. intros Ht. inversion Ht as [? ? Hr|? y ? Hr Hy]; subst.
  - by apply (IH x).
  - apply (IH y Hr). by eapply tc_r.
Qed.
Lemma indexOf_elem k l : k ∈ l -> exists i l2, indexOf k l = Some i /\ drop i l = k :: l2 /\ exists l1, l = l1 ++ k :: l2.
Proof.
  induction l as [|x l IH]; [by intros ?%elem_of_nil|]. intros Hk. cbn. case_bool_decide as Hx.
  - subst. exists 0%nat, l. split; [done|]. split; [done|]. by exists [].
  - apply elem_of_cons in Hk as [-> |Hk]; [done|]. destruct (IH Hk) as (i & l2 & -> & Hd & l1 & ->). exists (S i), l2. split; [done|]. split; [done|]. by exists (x :: l1).
Qed.

(** A cycle through distinct vertices, its first vertex repeated at the end. *)
Definition simple_cycle (g : Edges) (c : list string) : Prop := exists k l, c = k :: l ++ [k] /\ NoDup (k :: l) /\ walk g c.

Section cycles.
Context (g : Edges) (Hwf : graph_wf g).

(** No walk from [x] goes on for ever. *)
Abbreviation ends := (Acc (flip (edge g))).
Definition finished (s : Dfs) : Prop := forall x, x ∈ dfs_seen s -> x ∉ dfs_stack s -> ends x.
Definition dfs_ok (s : Dfs) : Prop :=
  dfs_inStack s = dfs_stack s /\ NoDup (dfs_stack s) /\ forall x, x ∈ dfs_stack s -> x ∈ dfs_seen s.

(** What visiting the vertices [ks] did: the stack is as before, every cycle reported is one, and when none
    was, the vertices visited lead to no cycle. *)
Definition visited (ks : list string) (s s' : Dfs) : Prop :=
  dfs_stack s' = dfs_stack s /\ dfs_inStack s' = dfs_inStack s /\ (forall x, x ∈ dfs_seen s \/ x ∈ ks -> x ∈ dfs_seen s') /\
  exists new, dfs_cycles s' = dfs_cycles s ++ new /\ Forall (simple_cycle g) new /\
    (new = [] -> (forall k, k ∈ ks -> k ∉ dfs_stack s) /\ (finished s -> finished s')).

Definition visits (fuel : nat) : Prop := forall k s,
  k ∈ g.*1 -> (unseen g.*1 (dfs_seen s) < fuel)%nat -> dfs_ok s -> walk g (dfs_stack s ++ [k]) ->
  exists s', visit g fuel k s = Some s' /\ visited [k] s s'.

Lemma fold_visits fuel : visits fuel -> forall ks s,
  (forall k, k ∈ ks -> k ∈ g.*1 /\ walk g (dfs_stack s ++ [k])) -> (unseen g.*1 (dfs_seen s) < fuel)%nat -> dfs_ok s ->
  exists s', fold_fuel (visit g fuel) s ks = Some s' /\ visited ks s s'.
Proof using.
  intros Hv ks. induction ks as [|k ks IH]; intros s Hks Hf Hs; cbn [fold_fuel].
  { exists s. split; [done|]. split; [done|]. split; [done|]. split; [by intros x [?|?%elem_of_nil]|]. exists []. rewrite app_nil_r. split; [done|]. split; [done|].
    intros _. split; [by intros k ?%elem_of_nil|done]. }
  destruct (Hks k) as [Hk Hw]; [left|]. destruct (Hv k s Hk Hf Hs Hw) as (s1 & -> & E1 & E2 & H1 & new1 & C1 & F1 & N1). cbn.
  destruct Hs as (Hs1 & Hs2 & Hs3). destruct (IH s1) as (s' & -> & E3 & E4 & H2 & new2 & C2 & F2 & N2).
  - intros k' Hk'. rewrite E1. apply Hks. by right.
  - assert (Hm : (unseen g.*1 (dfs_seen s1) <= unseen g.*1 (dfs_seen s))%nat) by (apply unseen_mono; intros x Hx; apply H1; by left). lia.
  - unfold dfs_ok. rewrite E1, E2. split; [done|]. split; [done|]. intros x Hx. apply H1. left. by apply Hs3.
  - exists s'. split; [done|]. split; [congruence|]. split; [congruence|]. split.
    + intros x [Hx|[-> |Hx]%elem_of_cons]; apply H2; [left; apply H1; by left|left; apply H1; right; by left|by right].
    + exists (new1 ++ new2). rewrite C2, C1, app_assoc. split; [done|]. split; [by apply Forall_app|]. intros [-> ->]%app_nil.
      destruct (N1 eq_refl) as [K1 B1], (N2 eq_refl) as [K2 B2]. split; [|auto]. intros k' [-> |Hk']%elem_of_cons; [apply K1; by left|]. rewrite <- E1. by apply K2.
Qed.

Lemma visit_spec fuel : visits fuel.
Proof using Hwf.
  induction fuel as [|fuel IH]; intros k s Hk Hf (Hs1 & Hs2 & Hs3) Hw; [lia|]. cbn [visit]. rewrite Hs1. case_bool_decide as Hin.
  { exists (report_cycle k s). split; [done|]. unfold report_cycle. destruct (indexOf_elem k _ Hin) as (i & l2 & -> & -> & l1 & El). cbn.
    split; [done|]. split; [done|]. split; [intros x [?| ->%list_elem_of_singleton]; [done|by apply Hs3]|]. eexists. split; [reflexivity|]. split; [|done].
    constructor; [|done]. exists k, l2. split; [done|]. rewrite El in Hw, Hs2. apply NoDup_app in Hs2 as (_ & _ & ?). split; [done|].
    rewrite <- app_assoc in Hw. by eapply walk_suffix. }
  case_bool_decide as Hseen.
  { exists s. split; [done|]. split; [done|]. split; [done|]. split; [intros x [?| ->%list_elem_of_singleton]; done|]. exists []. rewrite app_nil_r. split; [done|].
    split; [done|]. intros _. split; [|done]. by intros k' ->%list_elem_of_singleton. }
  destruct (fold_visits fuel IH (dependenciesOf g k) (push_vertex k s)) as (s' & -> & E1 & E2 & H1 & new & C & F & N).
  - intros d Hd. split; [by eapply Hwf|]. cbn. by apply walk_snoc.
  - cbn. assert (Hlt := unseen_shrinks g.*1 (dfs_seen s) k Hk Hseen). lia.
  - unfold dfs_ok. cbn. split; [by rewrite Hs1|]. split.
    + apply NoDup_app. split; [done|]. split; [|apply NoDup_singleton]. intros x Hx ->%list_elem_of_singleton. done.
    + intros x [Hx| ->%list_elem_of_singleton]%elem_of_app; apply elem_of_app; [left; by apply Hs3|right; by left].
  - cbn in *. eexists. split; [done|]. unfold pop_vertex, visited. cbn. rewrite E1, E2, Hs1, removelast_last.
    assert (Hst : filter (fun x => x <> k) (dfs_stack s ++ [k]) = dfs_stack s).
    { rewrite filter_app. cbn. rewrite decide_False by tauto. rewrite app_nil_r. apply filter_all. intros x Hx ->. done. }
    rewrite Hst. split; [done|]. split; [done|]. split.
    { intros x [Hx| ->%list_elem_of_singleton]; apply H1; left; apply elem_of_app; [by left|right; by left]. }
    exists new. split; [done|]. split; [done|]. intros Hnew. destruct (N Hnew) as [K B]. split; [by intros k' ->%list_elem_of_singleton|].
    intros Hfin x Hx Hxs. cbn in *. assert (Hfin' : finished s').
    { apply B. intros y [Hy| ->%list_elem_of_singleton]%elem_of_app Hyn; cbn in Hyn; [apply Hfin; [done|set_solver]|set_solver]. }
    destruct (decide (x = k)) as [-> |Hxk]; [|apply Hfin'; [done|rewrite E1; set_solver]].
    constructor. intros d Hd. apply Hfin'; [apply H1; by right|]. rewrite E1. by apply K.
Qed.

(** Every list reported is a cycle, and none is reported exactly when there is none. *)
Lemma detectCycles_spec : exists cycles, detectCycles g = Some cycles /\ Forall (simple_cycle g) cycles /\
  (cycles = [] <-> forall k, ~ tc (edge g) k k).
Proof using Hwf.
  unfold detectCycles. destruct (fold_visits _ (visit_spec (graph_fuel g)) (graph_keys g) (mkDfs [] [] [] [])) as (s' & -> & E1 & _ & H1 & new & C & F & N).
  - intros k Hk%elem_of_graph_keys. split; [done|]. cbn. by repeat constructor.
  - apply graph_unseen.
  - split; [done|]. split; [constructor|]. by intros x ?%elem_of_nil.
  - cbn in *. exists new. rewrite C. split; [done|]. split; [done|]. split.
    + intros Hnew k Hk. destruct (N Hnew) as [_ B].
      assert (Hkey : k ∈ g.*1) by (inversion Hk; subst; by eapply edge_source).
      apply (Acc_no_cycle (edge g) k); [|done]. apply B; [by intros x ?%elem_of_nil|apply H1; right; by apply elem_of_graph_keys|]. rewrite E1. apply not_elem_of_nil.
    + intros Hac. destruct new as [|c new]; [done|]. exfalso. apply Forall_cons in F as [(k & l & -> & _ & Hw) _]. by apply (Hac k), (walk_tc _ _ l).
Qed.

End cycles.

(** ** Paths *)

Section paths.
Context (g : Edges) (Hwf : graph_wf g) (from to : string).

(** A path of [n] edges from [from] to the vertex [x]. *)
Definition path_to (n : nat) (x : string) (p : list string) : Prop :=
  length p = S n /\ head p = Some from /\ last p = Some x /\ walk g p.

Lemma path_to_snoc n x p d : path_to n x p -> edge g x d -> path_to (S n) d (p ++ [d]).
Proof using.
  intros (Hn & Hh & Hl & Hw) He. destruct p as [|a p _] using rev_ind; [done|]. rewrite last_snoc in Hl. injection Hl as ->.
  split; [rewrite length_app; cbn in *; lia|]. split; [by destruct p|]. split; [apply last_snoc|by apply walk_snoc].
Qed.

(** Where the search is: it has [done_] with, and it has queued the paths [q1] of [n] edges and then the
    paths [q2] of [n + 1]; [e1] and [e2] are their last vertices. *)
Definition layer (n : nat) (vertices : list string) (paths : list (list string)) : Prop := Forall2 (path_to n) vertices paths.
Record searching (n : nat) (done_ e1 e2 seen : list string) (q1 q2 : list (list string)) : Prop := {
  se_q1 : layer n e1 q1;
  se_q2 : layer (S n) e2 q2;
  se_seen x : x ∈ seen <-> x ∈ done_ \/ x ∈ e1 \/ x ∈ e2;
  se_short x m : (m < n)%nat -> nsteps (edge g) m from x -> x ∈ done_;
  se_at x : nsteps (edge g) n from x -> x ∈ done_ \/ x ∈ e1;
  se_to : to ∉ done_;
  se_next x y : x ∈ done_ -> edge g x y -> y ∈ seen }.

Lemma nsteps_S_r {A} (R : relation A) n x z : nsteps R (S n) x z -> exists y, nsteps R n x y /\ R y z.
Proof using.
  revert x. induction n as [|n IH]; intros x H; inversion H as [|? ? y ? Hxy Hyz]; subst.
  - inversion Hyz; subst. exists x. split; [constructor|done].
  - destruct (IH y Hyz) as (w & Hw & Hwz). exists w. split; [by econstructor|done].
Qed.

(** When no path of [n] edges is left, the search is at those of [n + 1]. *)
Lemma searching_next n done_ e2 seen q2 : searching n done_ [] e2 seen [] q2 -> searching (S n) done_ e2 [] seen q2 [].
Proof using.
  intros [_ H2 Hs Hsh Hat Hto Hn]. assert (Hat' : forall x, nsteps (edge g) n from x -> x ∈ done_) by (intros x [?|?%elem_of_nil]%Hat; done).
  split; [done|constructor| | | |done|done].
  - intros x. rewrite Hs, elem_of_nil. tauto.
  - intros x m Hm Hx. destruct (decide (m = n)) as [->|]; [by apply Hat'|]. apply (Hsh x m); [lia|done].
  - intros x (y & Hy & He)%nsteps_S_r. specialize (Hn y x (Hat' y Hy) He). apply Hs in Hn as [?|[?%elem_of_nil|?]]; [by left|done|by right].
Qed.

Lemma enqueue_spec n x p (l : list string) q1 q2 (e1 e2 seen done_ : list string) : path_to n x p -> (forall d, d ∈ l -> edge g x d) ->
  layer (S n) e2 q2 -> (forall y, y ∈ seen <-> y ∈ done_ \/ y ∈ e1 \/ y ∈ e2) ->
  exists e2' q2' seen', foldl (enqueue p) (q1 ++ q2, seen) l = (q1 ++ q2', seen') /\ layer (S n) e2' q2' /\
    (forall y, y ∈ seen' <-> y ∈ done_ \/ y ∈ e1 \/ y ∈ e2') /\ (forall y, y ∈ seen -> y ∈ seen') /\ (forall d, d ∈ l -> d ∈ seen') /\
    (length q2' + unseen g.*1 seen' <= length q2 + unseen g.*1 seen)%nat.
Proof using Hwf.
  intros Hp. revert q2 e2 seen. induction l as [|d l IH]; cbn [foldl]; intros q2 e2 seen Hl H2 Hs.
  { exists e2, q2, seen. split_and!; [done|done|done|done| |done]. by intros d ?%elem_of_nil. }
  assert (Hxd : edge g x d) by (apply Hl; left). assert (Hl' : forall y, y ∈ l -> edge g x y) by (intros ??; apply Hl; by right).
  unfold enqueue at 2. cbn [fst snd]. case_bool_decide as Hd.
  - destruct (IH q2 e2 seen Hl' H2 Hs) as (e2' & q2' & seen' & -> & H & H' & H3 & H4 & H5). exists e2', q2', seen'. split_and!; [done|done|done|done| |done].
    intros y [-> |?]%elem_of_cons; [by apply H3|by apply H4].
  - rewrite <- (assoc_L (++)). destruct (IH (q2 ++ [p ++ [d]]) (e2 ++ [d]) (seen ++ [d]) Hl') as (e2' & q2' & seen' & -> & H & H' & H3 & H4 & H5).
    + apply Forall2_app; [done|]. constructor; [by eapply path_to_snoc|constructor].
    + intros y. rewrite !elem_of_app, Hs. tauto.
    + exists e2', q2', seen'. split_and!; [done|done|done| | |].
      * intros y Hy. apply H3, elem_of_app. by left.
      * intros y [-> |?]%elem_of_cons; [apply H3, elem_of_app; right; by left|by apply H4].
      * assert (Hlt : (unseen g.*1 (seen ++ [d]) < unseen g.*1 seen)%nat) by (apply unseen_shrinks; [by eapply Hwf|done]).
        rewrite length_app in H5. cbn in H5. lia.
Qed.

(** What the search returns: a path to [to] no longer than any other, or nothing when there is none. *)
Definition found (r : option (list string)) : Prop :=
  match r with
  | Some p => exists n, path_to n to p /\ forall m, nsteps (edge g) m from to -> (n <= m)%nat
  | None => ~ rtc (edge g) from to
  end.

Lemma search_spec fuel n done_ e1 e2 seen q1 q2 :
  searching n done_ e1 e2 seen q1 q2 -> (length (q1 ++ q2) + unseen g.*1 seen < fuel)%nat ->
  exists r, search g to fuel (q1 ++ q2) seen = Some r /\ found r.
Proof using Hwf.
  revert n done_ e1 e2 seen q1 q2. induction fuel as [|fuel IH]; intros n done_ e1 e2 seen q1 q2 Hq Hf; [lia|].
  (* at a path of [n] edges *)
  assert (Hstep : forall n done_ e1 e2 seen p q1 q2, searching n done_ e1 e2 seen (p :: q1) q2 -> (length ((p :: q1) ++ q2) + unseen g.*1 seen < S fuel)%nat ->
    exists r, search g to (S fuel) ((p :: q1) ++ q2) seen = Some r /\ found r).
  { clear n done_ e1 e2 seen q1 q2 Hq Hf. intros n done_ e1 e2 seen p q1 q2 [H1 H2 Hs Hsh Hat Hto Hn] Hf. cbn [app search].
    apply Forall2_cons_inv_r in H1 as (x & e1' & Hp & H1 & ->). destruct Hp as (Hlen & Hh & Hlast & Hw). rewrite Hlast. case_bool_decide as Hx.
    - subst x. eexists. split; [done|]. exists n. split; [done|]. intros m Hm. destruct (decide (n <= m)%nat); [done|]. destruct Hto. apply (Hsh to m); [lia|done].
    - destruct (enqueue_spec n x p (dependenciesOf g x) q1 q2 (x :: e1') e2 seen done_) as (e2' & q2' & seen' & -> & H2' & Hs' & Hin & Hd & Hm); [done|done|done|done|].
      cbn [fst snd]. apply (IH n (x :: done_) e1' e2').
      + split; [done|done| | | | |].
        * intros y. rewrite Hs', !elem_of_cons. tauto.
        * intros y m Hlt Hy. right. by apply (Hsh y m).
        * intros y [?|[-> |?]%elem_of_cons]%Hat; rewrite elem_of_cons; tauto.
        * rewrite elem_of_cons. intros [?|?]; [by subst|done].
        * intros y z [-> |Hy]%elem_of_cons Hyz; [by apply Hd|]. apply Hin. by apply (Hn y).
      + cbn in Hf. rewrite !length_app in *. lia. }
  destruct q1 as [|p q1]; [|by eapply Hstep]. assert (e1 = []) as -> by (destruct Hq as [Hq _ _ _ _ _ _]; by apply Forall2_nil_inv_r in Hq).
  destruct q2 as [|p q2].
  - exists None. split; [done|]. intros Hr. apply (se_to _ _ _ _ _ _ _ Hq). destruct Hq as [_ H2 Hs Hsh Hat _ Hn]. apply Forall2_nil_inv_r in H2 as ->.
    assert (Hd : forall x, x ∈ seen -> x ∈ done_) by (intros x [?|[?%elem_of_nil|?%elem_of_nil]]%Hs; done).
    assert (Hfrom : from ∈ done_).
    { destruct n as [|n]; [|by apply (Hsh from 0%nat); [lia|constructor]]. destruct (Hat from) as [?|?%elem_of_nil]; [constructor|done|done]. }
    clear -Hr Hfrom Hd Hn. revert Hfrom. induction Hr as [x|x y z Hxy _ IH]; intros Hx; [done|]. by eapply IH, Hd, Hn.
  - cbn [app]. rewrite <- (app_nil_r (p :: q2)). eapply Hstep; [by apply searching_next|]. rewrite app_nil_r. exact Hf.
Qed.

End paths.

(** ** The order in which nodes are listed *)

Lemma string_le_before a b : string_le a b = true <-> ~ string_before b a.
Proof. unfold string_before, string_gt. destruct (string_le a b); cbn; split; congruence. Qed.
#[export] Instance string_le_transitive : Transitive (fun a b => string_le a b = true).
Proof.
  intros a b c. rewrite !string_le_before. intros Hab Hbc Hca. destruct (string_before_total a b) as [H|[->|H]]; [|done|done].
  apply Hbc. by transitivity a.
Qed.
#[export] Instance string_le_antisymm : AntiSymm (=) (fun a b => string_le a b = true).
Proof.
  intros a b. rewrite !string_le_before. intros Hab Hba. by destruct (string_before_total a b) as [H|[->|H]].
Qed.
Lemma string_le_total a b : string_le a b = false -> string_le b a = true.
Proof.
  intros H. apply string_le_before. intros Hab. assert (Hn : ~ ~ string_before b a).
  { rewrite <- string_le_before. by rewrite H. }
  apply Hn. intros Hba. destruct (StrictOrder_Irreflexive a). by transitivity b.
Qed.

(** [sortUnique] sees the values only. *)
Lemma sortUnique_ext l l' : (forall x, x ∈ l <-> x ∈ l') -> sortUnique l = sortUnique l'.
Proof.
  intros H. apply (StronglySorted_unique (fun a b => string_le a b = true)).
  - apply sort_by_sorted; [done|apply string_le_total|apply _].
  - apply sort_by_sorted; [done|apply string_le_total|apply _].
  - apply NoDup_Permutation; [apply NoDup_sortUnique..|]. intros x. by rewrite !elem_of_sortUnique.
Qed.

(** Graphs with the same keys and the same edges answer every query alike. *)
Definition same_graph (g g' : Edges) : Prop :=
  NoDup g.*1 /\ NoDup g'.*1 /\ (forall k, k ∈ g.*1 <-> k ∈ g'.*1) /\ forall k, dependenciesOf g k = dependenciesOf g' k.

Section same.
Context (g g' : Edges) (Hsame : same_graph g g').

Lemma same_keys : graph_keys g = graph_keys g'.
Proof using Hsame. apply sortUnique_ext, Hsame. Qed.
Lemma same_fuel : graph_fuel g = graph_fuel g'.
Proof using Hsame.
  destruct Hsame as (H1 & H2 & H3 & _). unfold graph_fuel. f_equal. rewrite <- (length_fmap fst g), <- (length_fmap fst g').
  apply Permutation_length. by apply NoDup_Permutation.
Qed.
Lemma same_dependents k : dependents g k = dependents g' k.
Proof using Hsame.
  destruct Hsame as (H1 & H2 & _ & H4). apply sortUnique_ext. intros x. assert (H := dependents_edge g x k H1). assert (H' := dependents_edge g' x k H2).
  unfold dependents in H, H'. rewrite elem_of_sortUnique in H, H'. rewrite H, H'. unfold edge. by rewrite H4.
Qed.

Lemma fold_fuel_ext {A B} (f f' : B -> A -> option A) acc l : (forall x a, f x a = f' x a) -> fold_fuel f acc l = fold_fuel f' acc l.
Proof using. intros H. revert acc. induction l as [|x l IH]; intros acc; cbn; [done|]. rewrite H. destruct (f' x acc); cbn; [apply IH|done]. Qed.
Lemma collect_ext next next' fuel k out : (forall k, next k = next' k) -> collect next fuel k out = collect next' fuel k out.
Proof using.
  intros H. revert k out. induction fuel as [|fuel IH]; intros k out; cbn; [done|]. rewrite H. apply fold_fuel_ext. intros x a. by case_bool_decide.
Qed.
Lemma visit_ext fuel k s : visit g fuel k s = visit g' fuel k s.
Proof using Hsame.
  revert k s. induction fuel as [|fuel IH]; intros k s; cbn; [done|]. repeat case_bool_decide; [done..|].
  destruct Hsame as (_ & _ & _ & ->). by rewrite (fold_fuel_ext _ (visit g' fuel)).
Qed.
Lemma search_ext to fuel queue seen : search g to fuel queue seen = search g' to fuel queue seen.
Proof using Hsame.
  revert queue seen. induction fuel as [|fuel IH]; intros queue seen; cbn; [done|]. destruct queue as [|p queue]; [done|]. destruct (last p) as [x|]; [|done].
  case_bool_decide; [done|]. destruct Hsame as (_ & _ & _ & ->). apply IH.
Qed.
Lemma traverse_ext next next' key : (forall k, next k = next' k) -> traverse g next key = traverse g' next' key.
Proof using Hsame. intros H. unfold traverse. by rewrite same_fuel, (collect_ext next next'). Qed.
Lemma validate_ext available : validateAgainst g available = validateAgainst g' available.
Proof using Hsame.
  unfold validateAgainst. rewrite same_keys. induction (graph_keys g') as [|k l IH]; [done|]. cbn. destruct Hsame as (_ & _ & _ & ->). by rewrite IH.
Qed.

End same.

Lemma set_nodes_keys nodes m x : x ∈ (foldl set_node m nodes).*1 <-> x ∈ node_key <$> nodes \/ x ∈ m.*1.
Proof.
  revert m. induction nodes as [|n nodes IH]; cbn [foldl fmap list_fmap]; intros m; [rewrite elem_of_nil; tauto|]. rewrite IH. unfold set_node.
  rewrite edges_set_keys, elem_of_cons. tauto.
Qed.
Lemma elem_of_graph nodes x : x ∈ (CapabilityGraph nodes).*1 <-> x ∈ node_key <$> nodes \/ exists a, edge (CapabilityGraph nodes) a x.
Proof.
  assert (Hn : NoDup (foldl set_node [] nodes).*1) by (apply set_nodes_NoDup; constructor).
  destruct (all_vertices_spec (foldl set_node [] nodes).*2 _ Hn) as (_ & H2 & H3). unfold edge, CapabilityGraph. cbv zeta. rewrite H2, set_nodes_keys, elem_of_nil.
  split.
  - intros [(l & Hl & Hx)|[?|?]]; [right|by left|done]. apply list_elem_of_fmap in Hl as ([k v] & -> & Hin). exists k. rewrite H3. unfold dependenciesOf.
    apply (edges_get_In k v _ Hn) in Hin. by rewrite Hin.
  - intros [?|(a & Ha)]; [by right; left|left]. rewrite H3 in Ha. unfold dependenciesOf in Ha. destruct (edges_get a _) as [v|] eqn:E; [|by apply elem_of_nil in Ha].
    exists v. split; [|done]. apply (edges_get_In a v _ Hn) in E. by apply (list_elem_of_fmap_2 snd) in E.
Qed.

Lemma filter_key_perm {A} (f : A -> string) k l l' : NoDup (f <$> l) -> l ≡ₚ l' -> filter (fun x => f x = k) l = filter (fun x => f x = k) l'.
Proof.
  intros Hn Hp. assert (Hf : filter (fun x => f x = k) l ≡ₚ filter (fun x => f x = k) l') by (by rewrite Hp).
  destruct (filter (fun x => f x = k) l) as [|a [|b m]] eqn:E.
  - by apply Permutation_nil_l in Hf as ->.
  - by apply Permutation_singleton_l in Hf as ->.
  - exfalso. apply (NoDup_fmap_filter f (fun x => f x = k)) in Hn.
    rewrite E in Hn. cbn in Hn. apply NoDup_cons in Hn as [Hn _]. apply Hn. rewrite elem_of_cons. left.
    assert (Ha : a ∈ filter (fun x => f x = k) l) by (rewrite E; left). assert (Hb : b ∈ filter (fun x => f x = k) l) by (rewrite E; right; left).
    apply list_elem_of_filter in Ha as [-> _]. apply list_elem_of_filter in Hb as [-> _]. done.
Qed.

Lemma permuted_graph nodes nodes' : nodes ≡ₚ nodes' -> NoDup (node_key <$> nodes) -> same_graph (CapabilityGraph nodes) (CapabilityGraph nodes').
Proof.
  intros Hp Hn. assert (Hd : forall k, dependenciesOf (CapabilityGraph nodes) k = dependenciesOf (CapabilityGraph nodes') k).
  { intros k. by rewrite !graph_dependencies, (filter_key_perm node_key k nodes nodes'). }
  split; [apply graph_built|]. split; [apply graph_built|]. split; [|done]. intros k. rewrite !elem_of_graph, Hp. unfold edge. by setoid_rewrite Hd.
Qed.

(** ** What the graph answers *)

(** Cycle detection terminates; what it reports are cycles through distinct features, and it reports
    nothing exactly when no feature depends on itself, directly or not. *)
Theorem cycles_are_detected (nodes : list CapabilityGraphNode) :
  let g := CapabilityGraph nodes in
  exists cycles, detectCycles g = Some cycles /\ Forall (simple_cycle g) cycles /\ (cycles = [] <-> forall k, ~ tc (edge g) k k).
Proof. apply detectCycles_spec, graph_built. Qed.

(** It does not report each cycle, as its comment says: a cycle that closes through a vertex already left is
    not seen. *)
Theorem a_cycle_goes_unreported :
  let g := CapabilityGraph [mkNode "a" ["b"; "c"]; mkNode "b" ["d"]; mkNode "c" ["d"]; mkNode "d" ["a"]] in
  detectCycles g = Some [["a"; "b"; "d"; "a"]] /\ simple_cycle g ["a"; "c"; "d"; "a"].
Proof.
  cbv zeta. split; [vm_compute; reflexivity|]. exists "a", ["c"; "d"]. split; [done|]. split.
  - apply (bool_decide_unpack _). vm_compute. exact I.
  - unfold walk. apply (bool_decide_unpack _). vm_compute. exact I.
Qed.

(** The transitive dependencies of a feature are the other features reachable from it, and the impact of a
    change to a feature is on those whose dependencies it is: both traversals end on cyclic graphs too. *)
Theorem impact_inverts_dependencies (nodes : list CapabilityGraphNode) :
  let g := CapabilityGraph nodes in forall key,
  exists deps impact, transitiveDependencies g key = Some deps /\ impactOf g key = Some impact /\ NoDup deps /\ NoDup impact /\
    (forall x, x ∈ deps <-> x <> key /\ tc (edge g) key x) /\ (forall x, x ∈ impact <-> x <> key /\ tc (edge g) x key).
Proof.
  intros g key. destruct (graph_built nodes) as [Hn Hc]. fold g in Hn, Hc.
  destruct (traverse_spec (dependenciesOf g) g.*1) with (g := g) (key := key) as (deps & H1 & H2 & H3); [intros a b Hb; by apply (Hc a)|apply graph_unseen|].
  destruct (traverse_spec (dependents g) g.*1) with (g := g) (key := key) as (impact & H4 & H5 & H6).
  { intros a b Hb. apply (dependents_edge g b a Hn) in Hb. by eapply edge_source. }
  { apply graph_unseen. }
  exists deps, impact. split_and!; [exact H1|exact H4|done|done|exact H3|]. intros x. rewrite H6. split; intros [Hx Ht]; (split; [done|]).
  - apply tc_inverse. eapply (tc_congruence id); [|exact Ht]. intros a b Hb. by apply dependents_edge.
  - apply (tc_inverse (fun a b => b ∈ dependents g a)). eapply (tc_congruence id); [|exact Ht]. intros a b Hb. by apply dependents_edge.
Qed.

(** C28: the upgrade path found leads along dependencies from one feature to the other, and none is shorter; when
    none is found, there is none. *)
Theorem upgrade_paths_are_shortest (nodes : list CapabilityGraphNode) (from to : string) :
  let g := CapabilityGraph nodes in
  exists r, upgradePath g from to = Some r /\
    match r with
    | Some p => head p = Some from /\ last p = Some to /\ walk g p /\ forall n, nsteps (edge g) n from to -> (length p <= S n)%nat
    | None => ~ rtc (edge g) from to
    end.
Proof.
  intros g. assert (Hu := unseen_mono g.*1 [] [from]). assert (Hf := graph_unseen g).
  destruct (search_spec g (graph_built nodes) from to (S (graph_fuel g)) 0 [] [from] [] [from] [[from]] []) as (r & H1 & H2).
  - split; [|constructor| | | |apply not_elem_of_nil|by intros x y ?%elem_of_nil].
    + constructor; [|constructor]. split; [done|]. split; [done|]. split; [done|]. by repeat constructor.
    + intros x. rewrite list_elem_of_singleton, elem_of_nil. tauto.
    + intros x m Hm. lia.
    + intros x Hx. inversion Hx; subst. right. by left.
  - cbn. assert (unseen g.*1 [from] <= unseen g.*1 [])%nat by (apply Hu; by intros x ?%elem_of_nil). lia.
  - exists r. split; [exact H1|]. destruct r as [p|]; [|exact H2]. destruct H2 as (n & (Hlen & Hh & Hl & Hw) & Hmin).
    split; [done|]. split; [done|]. split; [done|]. intros m Hm. specialize (Hmin m Hm). lia.
Qed.

(** The graph of features listed once each answers every query alike in whatever order they are listed. *)
Theorem listing_order_is_irrelevant (nodes nodes' : list CapabilityGraphNode) :
  nodes ≡ₚ nodes' -> NoDup (node_key <$> nodes) ->
  let g := CapabilityGraph nodes in let g' := CapabilityGraph nodes' in
  graph_keys g = graph_keys g' /\ detectCycles g = detectCycles g' /\ (forall available, validateAgainst g available = validateAgainst g' available) /\
  (forall key, dependenciesOf g key = dependenciesOf g' key /\ transitiveDependencies g key = transitiveDependencies g' key /\
     dependents g key = dependents g' key /\ impactOf g key = impactOf g' key) /\
  forall from to, upgradePath g from to = upgradePath g' from to.
Proof.
  intros Hp Hn g g'. assert (Hs : same_graph g g') by (by apply permuted_graph). split; [by apply same_keys|]. split; [|split; [|split]].
  - unfold detectCycles. rewrite (same_fuel g g' Hs), (same_keys g g' Hs). by rewrite (fold_fuel_ext _ _ _ _ (visit_ext g g' Hs (graph_fuel g'))).
  - intros available. by apply validate_ext.
  - intros key. split_and!; [apply Hs| |by apply same_dependents|].
    + apply traverse_ext; [done|]. apply Hs.
    + apply traverse_ext; [done|]. by apply same_dependents.
  - intros from to. unfold upgradePath. by rewrite (same_fuel g g' Hs), (search_ext g g' Hs).
Qed.

Lemma listing_order_is_irrelevant_witness :
  let nodes := [mkNode "crm" ["email"; "ai"]; mkNode "ai" ["credits"]] in let nodes' := [mkNode "ai" ["credits"]; mkNode "crm" ["email"; "ai"]] in
  transitiveDependencies (CapabilityGraph nodes) "crm" = Some ["ai"; "credits"; "email"] /\
  transitiveDependencies (CapabilityGraph nodes') "crm" = Some ["ai"; "credits"; "email"].
Proof.
  cbv zeta. pose proof (listing_order_is_irrelevant [mkNode "crm" ["email"; "ai"]; mkNode "ai" ["credits"]] [mkNode "ai" ["credits"]; mkNode "crm" ["email"; "ai"]]) as H.
  destruct H as (_ & _ & _ & H & _); [apply Permutation_swap|apply (bool_decide_unpack _); vm_compute; exact I|].
  destruct (H "crm") as (_ & <- & _). split; vm_compute; reflexivity.
Defined.
