(* ===== verification/FeatureSpec.v ===== *)
(** The feature registry's value objects:
    [services/feature-registry/src/domain/value-objects/feature-spec.ts] and the JSON in which the versions of a
    feature are stored ([infrastructure/mappers.ts]). A specification is normalised when it is set and again
    when it is read back; reading back what was stored changes nothing. *)
From Stdlib Require Import QArith Qround.
From S2P Require Import Prelude Kernel.

#[global] Open Scope Z_scope.

(** ** Numbers: a finite number is the rational it stands for. *)

Inductive number := Finite (q : Q) | NotFinite.


(** ** Enumerations *)

Inductive FeatureVisibility := fv_public | fv_internal | fv_beta | fv_hidden.
Inductive FeatureLifecycle := fl_draft | fl_active | fl_deprecated | fl_removed.
Inductive FeatureLifecyclePolicy :=
| experimental | lp_beta | early_access | general_availability | legacy | lp_deprecated | sunset | internal_only | lp_hidden.
Inductive FeatureVersionStatus := fs_draft | fs_published | fs_archived.
#[export] Instance FeatureVisibility_eq_dec : EqDecision FeatureVisibility.
Proof. solve_decision. Defined.
#[export] Instance FeatureLifecycle_eq_dec : EqDecision FeatureLifecycle.
Proof. solve_decision. Defined.
#[export] Instance FeatureLifecyclePolicy_eq_dec : EqDecision FeatureLifecyclePolicy.
Proof. solve_decision. Defined.
#[export] Instance FeatureVersionStatus_eq_dec : EqDecision FeatureVersionStatus.
Proof. solve_decision. Defined.

Definition visibility_name (v : FeatureVisibility) : string :=
  match v with fv_public => "public" | fv_internal => "internal" | fv_beta => "beta" | fv_hidden => "hidden" end.
Definition FEATURE_VISIBILITIES : list string := ["public"; "internal"; "beta"; "hidden"].
Definition isFeatureVisibility (value : string) : bool := bool_decide (value ∈ FEATURE_VISIBILITIES).
Definition lifecycle_name (l : FeatureLifecycle) : string :=
  match l with fl_draft => "draft" | fl_active => "active" | fl_deprecated => "deprecated" | fl_removed => "removed" end.
Definition policy_name (p : FeatureLifecyclePolicy) : string :=
  match p with
  | experimental => "experimental" | lp_beta => "beta" | early_access => "early_access" | general_availability => "general_availability"
  | legacy => "legacy" | lp_deprecated => "deprecated" | sunset => "sunset" | internal_only => "internal_only" | lp_hidden => "hidden"
  end.
Definition FEATURE_LIFECYCLE_POLICIES : list FeatureLifecyclePolicy :=
  [experimental; lp_beta; early_access; general_availability; legacy; lp_deprecated; sunset; internal_only; lp_hidden].
Definition isFeatureLifecyclePolicy (value : string) : bool := bool_decide (value ∈ policy_name <$> FEATURE_LIFECYCLE_POLICIES).
(** The policy a string names, when it is one. *)
Definition policy_of (value : string) : option FeatureLifecyclePolicy := head (filter (fun p => policy_name p = value) FEATURE_LIFECYCLE_POLICIES).

Definition FEATURE_GROUPS : list string :=
  ["commerce"; "ai"; "marketing"; "automation"; "analytics"; "operations"; "developer"; "infrastructure"].
Definition FEATURE_CONSTRAINT_KEYS : list string :=
  ["maxInstances"; "maxProjects"; "maxUsers"; "maxSeats"; "maxApiKeys"; "maxWorkflows"; "maxStorage"; "maxAiCredits"; "maxTokens";
   "maxConnections"; "maxIntegrations"; "maxRequests"].

(** ** The parts of a specification, and the partial forms in which they are given *)

Record FeatureDependency := mkDependency { fd_featureKey : string; fd_minVersion : Z }.
Record DependencyInput := mkDependencyInput { di_featureKey : string; di_minVersion : number }.

Record FeatureRequirements := mkRequirements { requiredPlans : list string; requiredPermissions : list string; requiredCapabilities : list string }.
Record PartialRequirements := mkPartialRequirements {
  p_requiredPlans : option (list string); p_requiredPermissions : option (list string); p_requiredCapabilities : option (list string) }.
Definition emptyRequirements : FeatureRequirements := mkRequirements [] [] [].

Record FeatureCompatibility := mkCompatibility {
  compatibleWith : list string; fc_requires : list string; conflictsWith : list string; replaces : list string; deprecatedBy : string;
  migrationTarget : string }.
Record PartialCompatibility := mkPartialCompatibility {
  p_compatibleWith : option (list string); p_requires : option (list string); p_conflictsWith : option (list string); p_replaces : option (list string);
  p_deprecatedBy : option string; p_migrationTarget : option string }.
Definition emptyCompatibility : FeatureCompatibility := mkCompatibility [] [] [] [] "" "".

Record FeatureAiMetadata := mkAi {
  aiDescription : string; businessDescription : string; technicalDescription : string; ai_tags : list string; useCases : list string;
  relatedFeatures : list string; ai_examples : list string }.
Record PartialAi := mkPartialAi {
  p_aiDescription : option string; p_businessDescription : option string; p_technicalDescription : option string; p_tags : option (list string);
  p_useCases : option (list string); p_relatedFeatures : option (list string); p_ai_examples : option (list string) }.
Definition emptyAiMetadata : FeatureAiMetadata := mkAi "" "" "" [] [] [] [].

(** A constraint map. The order of its keys is not kept. *)
Abbreviation FeatureConstraints := (gmap string Q).

Record FeatureCostProfile := mkCost {
  estimatedCost : Q; billingStrategy : string; resourceCategory : string; cpuWeight : Q; memoryWeight : Q; storageWeight : Q; gpuWeight : Q;
  networkWeight : Q; aiWeight : Q; executionWeight : Q }.
Record PartialCost := mkPartialCost {
  p_estimatedCost : option number; p_billingStrategy : option string; p_resourceCategory : option string; p_cpuWeight : option number;
  p_memoryWeight : option number; p_storageWeight : option number; p_gpuWeight : option number; p_networkWeight : option number;
  p_aiWeight : option number; p_executionWeight : option number }.
Definition emptyCostProfile : FeatureCostProfile := mkCost 0 "" "" 0 0 0 0 0 0 0.

Record FeatureDocumentation := mkDocumentation {
  documentationUrl : string; developerGuide : string; sdkReference : string; apiReference : string; doc_examples : list string; tutorials : list string;
  changelog : string; migrationGuide : string; releaseNotes : string; faq : string }.
Record PartialDocumentation := mkPartialDocumentation {
  p_documentationUrl : option string; p_developerGuide : option string; p_sdkReference : option string; p_apiReference : option string;
  p_doc_examples : option (list string); p_tutorials : option (list string); p_changelog : option string; p_migrationGuide : option string;
  p_releaseNotes : option string; p_faq : option string }.
Definition emptyDocumentation : FeatureDocumentation := mkDocumentation "" "" "" "" [] [] "" "" "" "".

Record FeatureAnalyticsMetadata := mkAnalytics {
  adoptionScore : Q; usageScore : Q; popularity : Q; stability : Q; maturity : Q; businessValue : Q; technicalComplexity : Q }.
Record PartialAnalytics := mkPartialAnalytics {
  p_adoptionScore : option number; p_usageScore : option number; p_popularity : option number; p_stability : option number; p_maturity : option number;
  p_businessValue : option number; p_technicalComplexity : option number }.
Definition emptyAnalyticsMetadata : FeatureAnalyticsMetadata := mkAnalytics 0 0 0 0 0 0 0.

Record FeatureSpec := mkFeatureSpec {
  fe_category : string; fe_visibility : FeatureVisibility; fe_description : string; fe_dependencies : list FeatureDependency;
  fe_requirements : FeatureRequirements; fe_groups : list string; fe_compatibility : FeatureCompatibility; fe_ai : FeatureAiMetadata;
  fe_lifecyclePolicy : FeatureLifecyclePolicy; fe_constraints : FeatureConstraints; fe_cost : FeatureCostProfile;
  fe_documentation : FeatureDocumentation; fe_analytics : FeatureAnalyticsMetadata }.

Record FeatureVersion := mkFeatureVersion {
  versionNumber : Z; fver_status : FeatureVersionStatus; fver_spec : FeatureSpec; createdAt : string; publishedAt : string }.

(** ** Normalisation *)

Definition nonempty (s : string) : bool := negb (bool_decide (s = EmptyString)).
Definition dedupe (values : list string) : list string := unique (filter (fun v => nonempty v = true) (trim <$> values)).
(** [examples], [tutorials]: trimmed, the blank ones dropped, repetitions kept. *)
Definition trimmed_list (values : list string) : list string := filter (fun v => nonempty v = true) (trim <$> values).
Definition trimmed (value : option string) : string := trim (default EmptyString value).
Definition num (value : option number) : Q := match value with Some (Finite q) => q | _ => 0%Q end.

Definition normalizeRequirements (input : option PartialRequirements) : FeatureRequirements :=
  let f g := dedupe (default [] (input ≫= g)) in mkRequirements (f p_requiredPlans) (f p_requiredPermissions) (f p_requiredCapabilities).

Definition floor_version (n : number) : Z :=
  match n with Finite q => if bool_decide (0 < Qnum q) then Qfloor q else 0 | NotFinite => 0 end.
Fixpoint normalize_dependencies (seen : list string) (input : list DependencyInput) : list FeatureDependency :=
  match input with
  | [] => []
  | dep :: input' =>
      let key := trim (di_featureKey dep) in
      if negb (nonempty key) || bool_decide (key ∈ seen) then normalize_dependencies seen input'
      else mkDependency key (floor_version (di_minVersion dep)) :: normalize_dependencies (seen ++ [key]) input'
  end.
Definition normalizeDependencies (input : option (list DependencyInput)) : list FeatureDependency := normalize_dependencies [] (default [] input).

Definition normalizeGroups (input : option (list string)) : list string := dedupe (default [] input).

Definition normalizeCompatibility (input : option PartialCompatibility) : FeatureCompatibility :=
  let f g := dedupe (default [] (input ≫= g)) in let t g := trimmed (input ≫= g) in
  mkCompatibility (f p_compatibleWith) (f p_requires) (f p_conflictsWith) (f p_replaces) (t p_deprecatedBy) (t p_migrationTarget).

Definition normalizeAiMetadata (input : option PartialAi) : FeatureAiMetadata :=
  let f g := dedupe (default [] (input ≫= g)) in let t g := trimmed (input ≫= g) in
  mkAi (t p_aiDescription) (t p_businessDescription) (t p_technicalDescription) (f p_tags) (f p_useCases) (f p_relatedFeatures)
    (trimmed_list (default [] (input ≫= p_ai_examples))).

(** [out[key] = v] on an object: a number assigned to "__proto__" is lost. *)
Definition set_constraint (out : FeatureConstraints) (entry : string * number) : FeatureConstraints :=
  let key := trim entry.1 in
  match entry.2 with
  | Finite v => if nonempty key && negb (bool_decide (key = "__proto__")) then <[key := v]> out else out
  | NotFinite => out
  end.
Definition normalizeConstraints (input : option (list (string * number))) : FeatureConstraints := foldl set_constraint ∅ (default [] input).

Definition normalizeCostProfile (input : option PartialCost) : FeatureCostProfile :=
  let n g := num (input ≫= g) in
  mkCost (n p_estimatedCost) (trimmed (input ≫= p_billingStrategy)) (trimmed (input ≫= p_resourceCategory)) (n p_cpuWeight) (n p_memoryWeight)
    (n p_storageWeight) (n p_gpuWeight) (n p_networkWeight) (n p_aiWeight) (n p_executionWeight).

Definition normalizeDocumentation (input : option PartialDocumentation) : FeatureDocumentation :=
  let s g := trimmed (input ≫= g) in let l g := trimmed_list (default [] (input ≫= g)) in
  mkDocumentation (s p_documentationUrl) (s p_developerGuide) (s p_sdkReference) (s p_apiReference) (l p_doc_examples) (l p_tutorials) (s p_changelog)
    (s p_migrationGuide) (s p_releaseNotes) (s p_faq).

Definition normalizeAnalyticsMetadata (input : option PartialAnalytics) : FeatureAnalyticsMetadata :=
  let n g := num (input ≫= g) in
  mkAnalytics (n p_adoptionScore) (n p_usageScore) (n p_popularity) (n p_stability) (n p_maturity) (n p_businessValue) (n p_technicalComplexity).

(** What [normalizeSpec] and [hydrateSpec] take: everything but the category and the visibility may be
    missing. A stored policy is any string. *)
Record SpecInput (Policy : Type) := mkSpecInput {
  si_category : string; si_visibility : FeatureVisibility; si_description : option string; si_dependencies : option (list DependencyInput);
  si_requirements : option PartialRequirements; si_groups : option (list string); si_compatibility : option PartialCompatibility;
  si_ai : option PartialAi; si_lifecyclePolicy : option Policy; si_constraints : option (list (string * number)); si_cost : option PartialCost;
  si_documentation : option PartialDocumentation; si_analytics : option PartialAnalytics }.
Arguments mkSpecInput {Policy} _ _ _ _ _ _ _ _ _ _ _ _ _.
Arguments si_category {Policy} _.
Arguments si_visibility {Policy} _.
Arguments si_description {Policy} _.
Arguments si_dependencies {Policy} _.
Arguments si_requirements {Policy} _.
Arguments si_groups {Policy} _.
Arguments si_compatibility {Policy} _.
Arguments si_ai {Policy} _.
Arguments si_lifecyclePolicy {Policy} _.
Arguments si_constraints {Policy} _.
Arguments si_cost {Policy} _.
Arguments si_documentation {Policy} _.
Arguments si_analytics {Policy} _.

Definition normalizeSpec (input : SpecInput FeatureLifecyclePolicy) : FeatureSpec :=
  mkFeatureSpec (trim (si_category input)) (si_visibility input) (trimmed (si_description input)) (normalizeDependencies (si_dependencies input))
    (normalizeRequirements (si_requirements input)) (normalizeGroups (si_groups input)) (normalizeCompatibility (si_compatibility input))
    (normalizeAiMetadata (si_ai input)) (default experimental (si_lifecyclePolicy input)) (normalizeConstraints (si_constraints input))
    (normalizeCostProfile (si_cost input)) (normalizeDocumentation (si_documentation input)) (normalizeAnalyticsMetadata (si_analytics input)).

Definition hydrateSpec (spec : SpecInput string) : FeatureSpec :=
  mkFeatureSpec (si_category spec) (si_visibility spec) (default EmptyString (si_description spec)) (normalizeDependencies (si_dependencies spec))
    (normalizeRequirements (si_requirements spec)) (normalizeGroups (si_groups spec)) (normalizeCompatibility (si_compatibility spec))
    (normalizeAiMetadata (si_ai spec)) (default experimental (si_lifecyclePolicy spec ≫= policy_of)) (normalizeConstraints (si_constraints spec))
    (normalizeCostProfile (si_cost spec)) (normalizeDocumentation (si_documentation spec)) (normalizeAnalyticsMetadata (si_analytics spec)).

(** ** The stored form ([versionsToJson], [versionFromRaw]) *)

Definition dependency_json (d : FeatureDependency) : DependencyInput := mkDependencyInput (fd_featureKey d) (Finite (inject_Z (fd_minVersion d))).
Definition requirements_json (r : FeatureRequirements) : PartialRequirements :=
  mkPartialRequirements (Some (requiredPlans r)) (Some (requiredPermissions r)) (Some (requiredCapabilities r)).
Definition compatibility_json (c : FeatureCompatibility) : PartialCompatibility :=
  mkPartialCompatibility (Some (compatibleWith c)) (Some (fc_requires c)) (Some (conflictsWith c)) (Some (replaces c)) (Some (deprecatedBy c))
    (Some (migrationTarget c)).
Definition ai_json (a : FeatureAiMetadata) : PartialAi :=
  mkPartialAi (Some (aiDescription a)) (Some (businessDescription a)) (Some (technicalDescription a)) (Some (ai_tags a)) (Some (useCases a))
    (Some (relatedFeatures a)) (Some (ai_examples a)).
Definition constraints_json (m : FeatureConstraints) : list (string * number) := (fun kv => (kv.1, Finite kv.2)) <$> map_to_list m.
Definition cost_json (c : FeatureCostProfile) : PartialCost :=
  let n g := Some (Finite (g c)) in
  mkPartialCost (n estimatedCost) (Some (billingStrategy c)) (Some (resourceCategory c)) (n cpuWeight) (n memoryWeight) (n storageWeight) (n gpuWeight)
    (n networkWeight) (n aiWeight) (n executionWeight).
Definition documentation_json (d : FeatureDocumentation) : PartialDocumentation :=
  mkPartialDocumentation (Some (documentationUrl d)) (Some (developerGuide d)) (Some (sdkReference d)) (Some (apiReference d)) (Some (doc_examples d))
    (Some (tutorials d)) (Some (changelog d)) (Some (migrationGuide d)) (Some (releaseNotes d)) (Some (faq d)).
Definition analytics_json (a : FeatureAnalyticsMetadata) : PartialAnalytics :=
  let n g := Some (Finite (g a)) in
  mkPartialAnalytics (n adoptionScore) (n usageScore) (n popularity) (n stability) (n maturity) (n businessValue) (n technicalComplexity).
Definition spec_json (s : FeatureSpec) : SpecInput string :=
  mkSpecInput (fe_category s) (fe_visibility s) (Some (fe_description s)) (Some (dependency_json <$> fe_dependencies s))
    (Some (requirements_json (fe_requirements s))) (Some (fe_groups s)) (Some (compatibility_json (fe_compatibility s))) (Some (ai_json (fe_ai s)))
    (Some (policy_name (fe_lifecyclePolicy s))) (Some (constraints_json (fe_constraints s))) (Some (cost_json (fe_cost s)))
    (Some (documentation_json (fe_documentation s))) (Some (analytics_json (fe_analytics s))).

Record RawVersion := mkRawVersion {
  raw_versionNumber : Z; raw_status : FeatureVersionStatus; raw_createdAt : string; raw_publishedAt : string; raw_spec : SpecInput string }.
Definition version_json (v : FeatureVersion) : RawVersion :=
  mkRawVersion (versionNumber v) (fver_status v) (createdAt v) (publishedAt v) (spec_json (fver_spec v)).
Definition versionFromRaw (raw : RawVersion) : FeatureVersion :=
  mkFeatureVersion (raw_versionNumber raw) (raw_status raw) (hydrateSpec (raw_spec raw)) (raw_createdAt raw) (raw_publishedAt raw).

(** ** Normalising twice is normalising once *)

Lemma nonempty_iff s : nonempty s = true <-> s <> EmptyString.
Proof. unfold nonempty. rewrite negb_true_iff, bool_decide_eq_false. done. Qed.

(** Trimmed, not blank. *)
Definition clean (v : string) : Prop := trim v = v /\ v <> EmptyString.
Lemma trimmed_list_clean l : Forall clean (trimmed_list l).
Proof.
  apply Forall_forall. intros v [Hv%nonempty_iff (w & -> & _)%list_elem_of_fmap]%list_elem_of_filter. split; [apply trim_idemp|done].
Qed.
Lemma trimmed_list_id l : Forall clean l -> trimmed_list l = l.
Proof.
  intros H. unfold trimmed_list. rewrite (fmap_ext_elem trim id), list_fmap_id by (intros v Hv; rewrite Forall_forall in H; by apply H).
  apply filter_all. intros v Hv. rewrite Forall_forall in H. apply nonempty_iff. by apply H.
Qed.
Lemma trimmed_list_idemp l : trimmed_list (trimmed_list l) = trimmed_list l.
Proof. apply trimmed_list_id, trimmed_list_clean. Qed.

Lemma unique_id {A} `{EqDecision A} (l : list A) : NoDup l -> unique l = l.
Proof.
  induction 1 as [|x l Hx _ IH]; [done|]. cbn. rewrite IH. f_equal. apply filter_all. intros y Hy ->. done.
Qed.
Lemma dedupe_clean l : Forall clean (dedupe l).
Proof.
  apply Forall_forall. intros v Hv. unfold dedupe in Hv. rewrite elem_of_unique in Hv. assert (H := trimmed_list_clean l). rewrite Forall_forall in H. exact (H v Hv).
Qed.
Lemma dedupe_idemp l : dedupe (dedupe l) = dedupe l.
Proof.
  assert (H := trimmed_list_id _ (dedupe_clean l)). unfold trimmed_list in H. unfold dedupe at 1. rewrite H. apply unique_id, NoDup_unique.
Qed.
Lemma trimmed_idemp v : trimmed (Some (trimmed v)) = trimmed v.
Proof. apply trim_idemp. Qed.

#[local] Arguments trim : simpl never.
#[local] Arguments dedupe : simpl never.
#[local] Arguments trimmed_list : simpl never.
#[local] Arguments trimmed : simpl never.
Lemma requirements_idemp r : normalizeRequirements (Some (requirements_json (normalizeRequirements r))) = normalizeRequirements r.
Proof. unfold normalizeRequirements at 1. cbn. by rewrite !dedupe_idemp. Qed.
Lemma compatibility_idemp c : normalizeCompatibility (Some (compatibility_json (normalizeCompatibility c))) = normalizeCompatibility c.
Proof. unfold normalizeCompatibility at 1. cbn. by rewrite !dedupe_idemp, !trimmed_idemp. Qed.
Lemma ai_idemp a : normalizeAiMetadata (Some (ai_json (normalizeAiMetadata a))) = normalizeAiMetadata a.
Proof. unfold normalizeAiMetadata at 1. cbn. by rewrite !dedupe_idemp, !trimmed_idemp, trimmed_list_idemp. Qed.
Lemma cost_idemp c : normalizeCostProfile (Some (cost_json (normalizeCostProfile c))) = normalizeCostProfile c.
Proof. unfold normalizeCostProfile at 1. cbn. by rewrite !trimmed_idemp. Qed.
Lemma documentation_idemp d : normalizeDocumentation (Some (documentation_json (normalizeDocumentation d))) = normalizeDocumentation d.
Proof. unfold normalizeDocumentation at 1. cbn. by rewrite !trimmed_idemp, !trimmed_list_idemp. Qed.
Lemma analytics_idemp a : normalizeAnalyticsMetadata (Some (analytics_json (normalizeAnalyticsMetadata a))) = normalizeAnalyticsMetadata a.
Proof. done. Qed.

Lemma floor_version_nonneg n : 0 <= floor_version n.
Proof.
  destruct n as [q|]; cbn; [|lia]. case_bool_decide as Hq; [|lia]. change 0 with (Qfloor 0). apply Qfloor_resp_le. unfold Qle. cbn. lia.
Qed.
Lemma floor_version_integer z : 0 <= z -> floor_version (Finite (inject_Z z)) = z.
Proof. intros Hz. cbn. case_bool_decide; [apply Qfloor_Z|lia]. Qed.

Lemma normalize_dependencies_spec seen l :
  Forall (fun d => clean (fd_featureKey d) /\ 0 <= fd_minVersion d /\ fd_featureKey d ∉ seen) (normalize_dependencies seen l) /\
  NoDup (fd_featureKey <$> normalize_dependencies seen l).
Proof.
  revert seen. induction l as [|dep l IH]; intros seen; cbn; [split; constructor|]. destruct (nonempty (trim (di_featureKey dep))) eqn:Hn; cbn; [|apply IH].
  case_bool_decide as Hs; [apply IH|]. destruct (IH (seen ++ [trim (di_featureKey dep)])) as [H1 H2]. split.
  - constructor; cbn.
    + split; [split; [apply trim_idemp|by apply nonempty_iff]|]. split; [apply floor_version_nonneg|done].
    + eapply Forall_impl; [exact H1|]. intros d (? & ? & Hd). rewrite elem_of_app in Hd. tauto.
  - cbn. apply NoDup_cons. split; [|done]. intros (d & E & Hd)%list_elem_of_fmap. rewrite Forall_forall in H1. destruct (H1 d Hd) as (_ & _ & Hk).
    apply Hk. rewrite <- E. apply elem_of_app. right. by left.
Qed.
Lemma normalize_dependencies_id seen l :
  Forall (fun d => clean (fd_featureKey d) /\ 0 <= fd_minVersion d /\ fd_featureKey d ∉ seen) l -> NoDup (fd_featureKey <$> l) ->
  normalize_dependencies seen (dependency_json <$> l) = l.
Proof.
  revert seen. induction l as [|[k n] l IH]; intros seen H Hn; [done|]. apply Forall_cons in H as [([Ht Hk] & Hz & Hs) Hl]. cbn in *. apply NoDup_cons in Hn as [Hkl Hn].
  rewrite Ht. apply nonempty_iff in Hk as ->. cbn. rewrite bool_decide_false by done. change (if bool_decide (0 < n) then _ else _) with (floor_version (Finite (inject_Z n))).
  rewrite floor_version_integer by done. f_equal. apply IH; [|done]. apply Forall_forall. intros d Hd. rewrite Forall_forall in Hl. destruct (Hl d Hd) as (? & ? & Hds).
  split_and!; [done..|]. rewrite elem_of_app, list_elem_of_singleton. intros [?|E]; [done|]. apply Hkl. rewrite <- E. by apply list_elem_of_fmap_2.
Qed.
Lemma dependencies_idemp d : normalizeDependencies (Some (dependency_json <$> normalizeDependencies d)) = normalizeDependencies d.
Proof. unfold normalizeDependencies. cbn. destruct (normalize_dependencies_spec [] (default [] d)). by apply normalize_dependencies_id. Qed.

(** The keys a constraint map may have. *)
Definition constraint_key (k : string) : Prop := clean k /\ k <> "__proto__".
Definition constraints_clean (m : FeatureConstraints) : Prop := forall k, is_Some (m !! k) -> constraint_key k.
Lemma set_constraint_clean m e : constraints_clean m -> constraints_clean (set_constraint m e).
Proof.
  intros H k Hk. unfold set_constraint in Hk. destruct (e.2) as [v|]; [|by apply H]. destruct (nonempty (trim e.1)) eqn:Hn; cbn in Hk; [|by apply H].
  case_bool_decide as Hp; cbn in Hk; [by apply H|]. destruct (decide (k = trim e.1)) as [->|Hne]; [|rewrite lookup_insert_ne in Hk by done; by apply H].
  split; [|done]. split; [apply trim_idemp|by apply nonempty_iff].
Qed.
Lemma normalizeConstraints_clean input : constraints_clean (normalizeConstraints input).
Proof.
  unfold normalizeConstraints. assert (H : constraints_clean ∅) by (intros k [v Hk]; by rewrite lookup_empty in Hk). revert H. generalize (∅ : FeatureConstraints).
  induction (default [] input) as [|e l IH]; intros m H; [done|]. cbn. by apply IH, set_constraint_clean.
Qed.
Lemma set_constraints_lookup l (m : FeatureConstraints) k : NoDup l.*1 -> Forall constraint_key l.*1 ->
  foldl set_constraint m ((fun kv => (kv.1, Finite kv.2)) <$> l) !! k = match list_to_map (M := gmap string Q) l !! k with Some v => Some v | None => m !! k end.
Proof.
  revert m. induction l as [|[a v] l IH]; intros m Hn Hc; cbn; [by rewrite lookup_empty|]. cbn in *. apply NoDup_cons in Hn as [Ha Hn]. apply Forall_cons in Hc as [[[Ht Hne] Hp] Hc].
  rewrite IH by done. unfold set_constraint. cbv zeta. cbn [fst snd]. rewrite Ht. apply nonempty_iff in Hne as ->. rewrite bool_decide_false by done. cbn.
  destruct (decide (a = k)) as [->|Hk].
  - rewrite lookup_insert_eq, (not_elem_of_list_to_map_1 l k Ha). by rewrite lookup_insert_eq.
  - by rewrite !lookup_insert_ne by done.
Qed.
Lemma constraints_id m : constraints_clean m -> normalizeConstraints (Some (constraints_json m)) = m.
Proof.
  intros H. apply map_eq. intros k. unfold normalizeConstraints, constraints_json. cbn. rewrite set_constraints_lookup.
  - rewrite list_to_map_to_list, lookup_empty. by destruct (m !! k).
  - apply NoDup_fst_map_to_list.
  - apply Forall_forall. intros a ([b v] & -> & Hin%elem_of_map_to_list)%list_elem_of_fmap. apply H. by exists v.
Qed.

Lemma policy_of_name p : policy_of (policy_name p) = Some p.
Proof. by destruct p. Qed.
Lemma policy_name_recognised p : isFeatureLifecyclePolicy (policy_name p) = true.
Proof. by destruct p. Qed.

(** A specification that is read back from its stored form as it is. *)
Definition storable (s : FeatureSpec) : Prop := hydrateSpec (spec_json s) = s.

Lemma storable_parts s :
  normalizeDependencies (Some (dependency_json <$> fe_dependencies s)) = fe_dependencies s ->
  normalizeRequirements (Some (requirements_json (fe_requirements s))) = fe_requirements s -> normalizeGroups (Some (fe_groups s)) = fe_groups s ->
  normalizeCompatibility (Some (compatibility_json (fe_compatibility s))) = fe_compatibility s ->
  normalizeAiMetadata (Some (ai_json (fe_ai s))) = fe_ai s -> normalizeConstraints (Some (constraints_json (fe_constraints s))) = fe_constraints s ->
  normalizeCostProfile (Some (cost_json (fe_cost s))) = fe_cost s -> normalizeDocumentation (Some (documentation_json (fe_documentation s))) = fe_documentation s ->
  normalizeAnalyticsMetadata (Some (analytics_json (fe_analytics s))) = fe_analytics s -> storable s.
Proof.
  intros H1 H2 H3 H4 H5 H6 H7 H8 H9. unfold storable, hydrateSpec, spec_json.
  cbn [si_category si_visibility si_description si_dependencies si_requirements si_groups si_compatibility si_ai si_lifecyclePolicy si_constraints si_cost si_documentation si_analytics].
  rewrite H1, H2, H3, H4, H5, H6, H7, H8, H9. cbn [default mbind option_bind from_option id]. rewrite policy_of_name. by destruct s.
Qed.
Lemma storable_inv s : storable s ->
  normalizeDependencies (Some (dependency_json <$> fe_dependencies s)) = fe_dependencies s /\
  normalizeRequirements (Some (requirements_json (fe_requirements s))) = fe_requirements s /\ normalizeGroups (Some (fe_groups s)) = fe_groups s /\
  normalizeCompatibility (Some (compatibility_json (fe_compatibility s))) = fe_compatibility s /\
  normalizeAiMetadata (Some (ai_json (fe_ai s))) = fe_ai s /\ normalizeConstraints (Some (constraints_json (fe_constraints s))) = fe_constraints s /\
  normalizeCostProfile (Some (cost_json (fe_cost s))) = fe_cost s /\ normalizeDocumentation (Some (documentation_json (fe_documentation s))) = fe_documentation s /\
  normalizeAnalyticsMetadata (Some (analytics_json (fe_analytics s))) = fe_analytics s.
Proof.
  intros H. unfold storable in H. split_and!;
    [exact (f_equal fe_dependencies H)|exact (f_equal fe_requirements H)|exact (f_equal fe_groups H)|exact (f_equal fe_compatibility H)|exact (f_equal fe_ai H)
    |exact (f_equal fe_constraints H)|exact (f_equal fe_cost H)|exact (f_equal fe_documentation H)|exact (f_equal fe_analytics H)].
Qed.

Lemma groups_idemp g : normalizeGroups (Some (normalizeGroups g)) = normalizeGroups g.
Proof. apply dedupe_idemp. Qed.
Lemma constraints_idemp c : normalizeConstraints (Some (constraints_json (normalizeConstraints c))) = normalizeConstraints c.
Proof. apply constraints_id, normalizeConstraints_clean. Qed.

Create HintDb feature_spec.
#[export] Hint Resolve requirements_idemp compatibility_idemp ai_idemp cost_idemp documentation_idemp analytics_idemp dependencies_idemp
  groups_idemp constraints_idemp : feature_spec.

Lemma normalizeSpec_storable input : storable (normalizeSpec input).
Proof. apply storable_parts; unfold normalizeSpec; cbn [fe_dependencies fe_requirements fe_groups fe_compatibility fe_ai fe_constraints fe_cost fe_documentation fe_analytics]; auto with feature_spec. Qed.

(** Older rows, whatever they lack, are read as specifications that are stored back as they were read. *)
Lemma hydrateSpec_storable raw : storable (hydrateSpec raw).
Proof. apply storable_parts; unfold hydrateSpec; cbn [fe_dependencies fe_requirements fe_groups fe_compatibility fe_ai fe_constraints fe_cost fe_documentation fe_analytics]; auto with feature_spec. Qed.
