(* ===== verification/Features.v ===== *)
(** The feature registry: [services/feature-registry/src]. The versioned feature definition and the bundle
    ([domain/feature-definition.ts], [domain/feature-bundle.ts]), their rows ([infrastructure/mappers.ts],
    [prisma-repositories.ts]), every use case of [application/feature-registry.use-cases.ts] and the validator
    of the whole registry ([domain/feature-registry-validator.ts]). *)
From Stdlib Require Import Ascii QArith Qround.
From stdpp Require Import relations sorting.
From S2P Require Import Prelude Kernel Store Lifecycle CapabilityGraph FeatureSpec.

#[global] Open Scope Z_scope.

(** ** Events ([events/feature-registry-changed.event.ts]) *)

Inductive RegistryAggregate := ra_feature | ra_bundle.
Record FeatureRegistryChanged := mkRegistryChanged {
  rc_aggregateId : string; rc_aggregate : RegistryAggregate; rc_key : string; rc_event : string; rc_lifecycle : string; rc_publishedVersion : option Z }.

(** The translator: type, aggregate type and payload. *)
Definition aggregate_name (a : RegistryAggregate) : string := match a with ra_feature => "feature" | ra_bundle => "bundle" end.
Definition translate (ev : FeatureRegistryChanged) : string * Z * string * FeatureRegistryChanged :=
  (rc_event ev, 1, aggregate_name (rc_aggregate ev), ev).

(** [/^[a-z][a-z0-9_]*(\.[a-z0-9_]+)*$/] *)
Definition key_char (c : ascii) : bool := is_lower c || is_digit c || bool_decide (c = "_"%char).
Definition key_word (w : string) : bool := nonempty w && all_chars key_char w.
Definition FEATURE_KEY (s : string) : bool :=
  match split_on "."%char s with
  | String c w :: ws => is_lower c && all_chars key_char w && forallb key_word ws
  | _ => false
  end.

(** ** Bundles *)

Inductive FeatureBundleStatus := b_active | b_archived.
#[export] Instance FeatureBundleStatus_eq_dec : EqDecision FeatureBundleStatus.
Proof. solve_decision. Defined.
Definition bundle_status_name (s : FeatureBundleStatus) : string := match s with b_active => "active" | b_archived => "archived" end.
Record FeatureBundleProps := mkBundle {
  fb_key : string; fb_name : string; fb_description : string; fb_status : FeatureBundleStatus; fb_featureKeys : list string; fb_groups : list string }.
Abbreviation FeatureBundle := (Aggregate FeatureBundleProps FeatureRegistryChanged).
Abbreviation BundleM := (M FeatureBundle).

Definition bundle_emit (event eid : string) (at_ : Z) : BundleM unit :=
  a ← gets id;
  let p := agg_props a in
  addDomainEvent eid at_ (mkRegistryChanged (agg_id a) ra_bundle (fb_key p) event (bundle_status_name (fb_status p)) None).

Record CreateBundleProps := mkCreateBundle {
  cb_key : string; cb_name : string; cb_description : option string; cb_featureKeys : option (list string); cb_groups : option (list string);
  cb_tenantId : string }.
Definition bundle_create (id : string) (input : CreateBundleProps) (eid : string) (at_ : Z) : result FeatureBundle :=
  let key := trim (cb_key input) in
  if negb (FEATURE_KEY key) then
    Err (BusinessRuleError (quoted (cb_key input) +:+ " is not a valid bundle key (use dotted lowercase, e.g. ai.pack)"))
  else if blank (cb_name input) then Err (BusinessRuleError "A bundle needs a name")
  else Ok (bundle_emit "feature_registry.bundle.created" eid at_ (new_agg (mkBundle key (trim (cb_name input)) (trimmed (cb_description input)) b_active
    (dedupe (default [] (cb_featureKeys input))) (dedupe (default [] (cb_groups input)))) id)).2.

Definition requireActive : BundleM unit :=
  p ← gets agg_props;
  throw_if (negb (bool_decide (fb_status p = b_active))) (BusinessRuleError "An archived bundle cannot be modified").
Definition setFeatures (featureKeys : list string) (eid : string) (at_ : Z) : BundleM unit :=
  requireActive;;
  set_props (fun p => mkBundle (fb_key p) (fb_name p) (fb_description p) (fb_status p) (dedupe featureKeys) (fb_groups p));;
  bundle_emit "feature_registry.bundle.updated" eid at_.
Definition bundle_update (name description : option string) (groups : option (list string)) (eid : string) (at_ : Z) : BundleM unit :=
  requireActive;;
  (match name with
   | Some n => throw_if (blank n) (BusinessRuleError "A bundle needs a name");;
               set_props (fun p => mkBundle (fb_key p) (trim n) (fb_description p) (fb_status p) (fb_featureKeys p) (fb_groups p))
   | None => mret tt
   end);;
  (match description with
   | Some d => set_props (fun p => mkBundle (fb_key p) (fb_name p) (trim d) (fb_status p) (fb_featureKeys p) (fb_groups p))
   | None => mret tt
   end);;
  (match groups with
   | Some g => set_props (fun p => mkBundle (fb_key p) (fb_name p) (fb_description p) (fb_status p) (fb_featureKeys p) (dedupe g))
   | None => mret tt
   end);;
  bundle_emit "feature_registry.bundle.updated" eid at_.
Definition bundle_archive (eid : string) (at_ : Z) : BundleM unit :=
  p ← gets agg_props;
  throw_if (bool_decide (fb_status p = b_archived)) (BusinessRuleError "Bundle is already archived");;
  set_props (fun p => mkBundle (fb_key p) (fb_name p) (fb_description p) b_archived (fb_featureKeys p) (fb_groups p));;
  bundle_emit "feature_registry.bundle.archived" eid at_.

(** [UpdateBundle]: archives, or sets the features and then the rest. *)
Record UpdateBundleInput := mkUpdateBundle {
  ub_name : option string; ub_description : option string; ub_featureKeys : option (list string); ub_groups : option (list string); ub_archive : option bool }.
Definition bundle_exec (input : UpdateBundleInput) (eid eid' eid'' : string) (now : Z) : BundleM unit :=
  if bool_decide (ub_archive input = Some true) then bundle_archive eid now
  else
    (match ub_featureKeys input with Some ks => setFeatures ks eid' now | None => mret tt end);;
    if bool_decide (is_Some (ub_name input)) || bool_decide (is_Some (ub_description input)) || bool_decide (is_Some (ub_groups input))
    then bundle_update (ub_name input) (ub_description input) (ub_groups input) eid'' now else mret tt.

(** ** Features *)

Record FeatureDefinitionProps := mkFeature {
  ft_key : string; ft_name : string; ft_lifecycle : FeatureLifecycle; ft_publishedVersionNumber : option Z; ft_replacementKey : option string;
  ft_versions : list FeatureVersion }.
Abbreviation FeatureDefinition := (Aggregate FeatureDefinitionProps FeatureRegistryChanged).
Abbreviation FeatureM := (M FeatureDefinition).

Definition with_name (name : string) (p : FeatureDefinitionProps) : FeatureDefinitionProps :=
  mkFeature (ft_key p) name (ft_lifecycle p) (ft_publishedVersionNumber p) (ft_replacementKey p) (ft_versions p).
Definition with_lifecycle (l : FeatureLifecycle) (p : FeatureDefinitionProps) : FeatureDefinitionProps :=
  mkFeature (ft_key p) (ft_name p) l (ft_publishedVersionNumber p) (ft_replacementKey p) (ft_versions p).
Definition with_publishedNumber (n : Z) (p : FeatureDefinitionProps) : FeatureDefinitionProps :=
  mkFeature (ft_key p) (ft_name p) (ft_lifecycle p) (Some n) (ft_replacementKey p) (ft_versions p).
Definition with_replacement (key : string) (p : FeatureDefinitionProps) : FeatureDefinitionProps :=
  mkFeature (ft_key p) (ft_name p) (ft_lifecycle p) (ft_publishedVersionNumber p) (Some key) (ft_versions p).
Definition with_history (l : list FeatureVersion) (p : FeatureDefinitionProps) : FeatureDefinitionProps :=
  mkFeature (ft_key p) (ft_name p) (ft_lifecycle p) (ft_publishedVersionNumber p) (ft_replacementKey p) l.

Definition feature_emit (event eid : string) (at_ : Z) : FeatureM unit :=
  a ← gets id;
  let p := agg_props a in
  addDomainEvent eid at_ (mkRegistryChanged (agg_id a) ra_feature (ft_key p) event (lifecycle_name (ft_lifecycle p)) (ft_publishedVersionNumber p)).

Definition draft_of (p : FeatureDefinitionProps) : option FeatureVersion :=
  find_first (fun v => bool_decide (fver_status v = fs_draft)) (ft_versions p).
Definition versionAt (n : Z) (p : FeatureDefinitionProps) : option FeatureVersion :=
  find_first (fun v => bool_decide (versionNumber v = n)) (ft_versions p).
Definition publishedVersion (p : FeatureDefinitionProps) : option FeatureVersion := ft_publishedVersionNumber p ≫= fun n => versionAt n p.
Definition effectiveSpec (p : FeatureDefinitionProps) : result FeatureSpec :=
  match publishedVersion p with
  | Some v => Ok (fver_spec v)
  | None => match draft_of p with Some v => Ok (fver_spec v) | None => Err (BusinessRuleError "Feature has no version") end
  end.

Definition requireDraft : FeatureM FeatureVersion :=
  p ← gets agg_props;
  match draft_of p with
  | None => throw (BusinessRuleError ("No open draft " +:+ "- call revise() to start a new version"))
  | Some draft => throw_if (bool_decide (ft_lifecycle p = fl_removed)) (BusinessRuleError "A removed feature cannot be edited");; mret draft
  end.

(** [findIndex] by number, and assignment. *)
Fixpoint replace_version (next : FeatureVersion) (l : list FeatureVersion) : list FeatureVersion :=
  match l with [] => [] | v :: l' => if bool_decide (versionNumber v = versionNumber next) then next :: l' else v :: replace_version next l' end.
Definition replaceDraft (next : FeatureVersion) : FeatureM unit := set_props (fun p => with_history (replace_version next (ft_versions p)) p).
Definition with_spec (s : FeatureSpec) (v : FeatureVersion) : FeatureVersion :=
  mkFeatureVersion (versionNumber v) (fver_status v) s (createdAt v) (publishedAt v).

Record RegisterFeatureProps := mkRegister {
  rf_key : string; rf_name : string; rf_category : string; rf_visibility : option FeatureVisibility; rf_description : option string;
  rf_dependencies : option (list DependencyInput); rf_requirements : option PartialRequirements; rf_tenantId : string }.

(** [toISOString] prints a time. *)
Section features.
Context (toISOString : Z -> string).

Definition register (id : string) (input : RegisterFeatureProps) (eid : string) (at_ : Z) : result FeatureDefinition :=
  let key := trim (rf_key input) in
  if negb (FEATURE_KEY key) then
    Err (BusinessRuleError (quoted (rf_key input) +:+ " is not a valid feature key (use dotted lowercase, e.g. ai.copywriter)"))
  else if blank (rf_name input) then Err (BusinessRuleError "A feature needs a name")
  else if blank (rf_category input) then Err (BusinessRuleError "A feature needs a category")
  else
    let spec := normalizeSpec (mkSpecInput (rf_category input) (default fv_internal (rf_visibility input)) (rf_description input) (rf_dependencies input)
      (rf_requirements input) None None None None None None None None) in
    let version := mkFeatureVersion 1 fs_draft spec (toISOString at_) "" in
    Ok (feature_emit "feature_registry.feature.registered" eid at_ (new_agg (mkFeature key (trim (rf_name input)) fl_draft None None [version]) id)).2.

Definition rename (name eid : string) (at_ : Z) : FeatureM unit :=
  throw_if (blank name) (BusinessRuleError "A feature needs a name");;
  set_props (with_name (trim name));;
  feature_emit "feature_registry.feature.draft_updated" eid at_.

(** A change of the open draft's specification. *)
Definition edit_spec (f : FeatureDefinitionProps -> FeatureSpec -> result FeatureSpec) (event eid : string) (at_ : Z) : FeatureM unit :=
  draft ← requireDraft;
  p ← gets agg_props;
  spec ← lift (f p (fver_spec draft));
  replaceDraft (with_spec spec draft);;
  feature_emit event eid at_.

Definition editDraft (category : option string) (visibility : option FeatureVisibility) (description : option string) : string -> Z -> FeatureM unit :=
  edit_spec (fun _ s =>
    let category := match category with Some c => trim c | None => fe_category s end in
    if bool_decide (category = EmptyString) then Err (BusinessRuleError "A feature needs a category")
    else Ok (mkFeatureSpec category (default (fe_visibility s) visibility) (match description with Some d => trim d | None => fe_description s end)
      (fe_dependencies s) (fe_requirements s) (fe_groups s) (fe_compatibility s) (fe_ai s) (fe_lifecyclePolicy s) (fe_constraints s) (fe_cost s)
      (fe_documentation s) (fe_analytics s))) "feature_registry.feature.draft_updated".
Definition setGroups (groups : list string) : string -> Z -> FeatureM unit :=
  edit_spec (fun _ s => Ok (mkFeatureSpec (fe_category s) (fe_visibility s) (fe_description s) (fe_dependencies s) (fe_requirements s)
    (normalizeGroups (Some groups)) (fe_compatibility s) (fe_ai s) (fe_lifecyclePolicy s) (fe_constraints s) (fe_cost s) (fe_documentation s)
    (fe_analytics s))) "feature_registry.feature.group_changed".
Definition setCompatibility (compatibility : PartialCompatibility) : string -> Z -> FeatureM unit :=
  edit_spec (fun p s =>
    let next := normalizeCompatibility (Some compatibility) in
    if bool_decide (ft_key p ∈ fc_requires next ++ conflictsWith next) then Err (BusinessRuleError "A feature cannot require or conflict with itself")
    else Ok (mkFeatureSpec (fe_category s) (fe_visibility s) (fe_description s) (fe_dependencies s) (fe_requirements s) (fe_groups s) next (fe_ai s)
      (fe_lifecyclePolicy s) (fe_constraints s) (fe_cost s) (fe_documentation s) (fe_analytics s))) "feature_registry.feature.dependency_changed".
Definition setAiMetadata (ai : PartialAi) : string -> Z -> FeatureM unit :=
  edit_spec (fun _ s => Ok (mkFeatureSpec (fe_category s) (fe_visibility s) (fe_description s) (fe_dependencies s) (fe_requirements s) (fe_groups s)
    (fe_compatibility s) (normalizeAiMetadata (Some ai)) (fe_lifecyclePolicy s) (fe_constraints s) (fe_cost s) (fe_documentation s) (fe_analytics s)))
    "feature_registry.feature.draft_updated".

Record MetadataPatch := mkMetadataPatch {
  mp_lifecyclePolicy : option FeatureLifecyclePolicy; mp_constraints : option (list (string * number)); mp_cost : option PartialCost;
  mp_documentation : option PartialDocumentation; mp_analytics : option PartialAnalytics }.
Definition setMetadata (patch : MetadataPatch) : string -> Z -> FeatureM unit :=
  edit_spec (fun _ s => Ok (mkFeatureSpec (fe_category s) (fe_visibility s) (fe_description s) (fe_dependencies s) (fe_requirements s) (fe_groups s)
    (fe_compatibility s) (fe_ai s) (default (fe_lifecyclePolicy s) (mp_lifecyclePolicy patch))
    (match mp_constraints patch with Some c => normalizeConstraints (Some c) | None => fe_constraints s end)
    (match mp_cost patch with Some c => normalizeCostProfile (Some c) | None => fe_cost s end)
    (match mp_documentation patch with Some d => normalizeDocumentation (Some d) | None => fe_documentation s end)
    (match mp_analytics patch with Some a => normalizeAnalyticsMetadata (Some a) | None => fe_analytics s end)))
    "feature_registry.feature.draft_updated".
Definition setDependencies (dependencies : list DependencyInput) : string -> Z -> FeatureM unit :=
  edit_spec (fun p s =>
    let normalized := normalizeDependencies (Some dependencies) in
    if existsb (fun d => bool_decide (fd_featureKey d = ft_key p)) normalized then Err (BusinessRuleError "A feature cannot depend on itself")
    else Ok (mkFeatureSpec (fe_category s) (fe_visibility s) (fe_description s) normalized (fe_requirements s) (fe_groups s) (fe_compatibility s) (fe_ai s)
      (fe_lifecyclePolicy s) (fe_constraints s) (fe_cost s) (fe_documentation s) (fe_analytics s))) "feature_registry.feature.dependency_changed".
Definition setRequirements (requirements : PartialRequirements) : string -> Z -> FeatureM unit :=
  edit_spec (fun _ s => Ok (mkFeatureSpec (fe_category s) (fe_visibility s) (fe_description s) (fe_dependencies s)
    (normalizeRequirements (Some requirements)) (fe_groups s) (fe_compatibility s) (fe_ai s) (fe_lifecyclePolicy s) (fe_constraints s) (fe_cost s)
    (fe_documentation s) (fe_analytics s))) "feature_registry.feature.draft_updated".

Definition feature_publish (eid : string) (at_ : Z) : FeatureM unit :=
  draft ← requireDraft;
  replaceDraft (mkFeatureVersion (versionNumber draft) fs_published (fver_spec draft) (createdAt draft) (toISOString at_));;
  set_props (with_publishedNumber (versionNumber draft));;
  p ← gets agg_props;
  (if bool_decide (ft_lifecycle p = fl_draft) || bool_decide (ft_lifecycle p = fl_deprecated) then set_props (with_lifecycle fl_active) else mret tt);;
  feature_emit "feature_registry.feature.version_published" eid at_.

(** [Math.max] of the version numbers. *)
Definition max_version (l : list FeatureVersion) : Z := foldr (fun v m => Z.max (versionNumber v) m) 0 l.
Definition revise (eid : string) (at_ : Z) : FeatureM unit :=
  p ← gets agg_props;
  throw_if (bool_decide (ft_lifecycle p = fl_removed)) (BusinessRuleError "A removed feature cannot be revised");;
  throw_if (bool_decide (is_Some (draft_of p))) (BusinessRuleError "A draft is already open");;
  match publishedVersion p with
  | None => throw (BusinessRuleError "Nothing published to revise")
  | Some base =>
      set_props (with_history (ft_versions p ++ [mkFeatureVersion (max_version (ft_versions p) + 1) fs_draft (fver_spec base) (toISOString at_) ""]));;
      feature_emit "feature_registry.feature.revised" eid at_
  end.

Definition deprecate (eid : string) (at_ : Z) : FeatureM unit :=
  p ← gets agg_props;
  throw_if (negb (bool_decide (ft_lifecycle p = fl_active)))
    (BusinessRuleError ("Only an active feature can be deprecated (is " +:+ lifecycle_name (ft_lifecycle p) +:+ ")"));;
  set_props (with_lifecycle fl_deprecated);;
  feature_emit "feature_registry.feature.deprecated" eid at_.

Definition replaceWith (replacementKey eid : string) (at_ : Z) : FeatureM unit :=
  let key := trim replacementKey in
  p ← gets agg_props;
  throw_if (negb (nonempty key)) (BusinessRuleError "A replacement key is required");;
  throw_if (bool_decide (key = ft_key p)) (BusinessRuleError "A feature cannot replace itself");;
  throw_if (bool_decide (ft_lifecycle p = fl_removed)) (BusinessRuleError "A removed feature cannot be replaced");;
  set_props (with_replacement key);;
  (if bool_decide (ft_lifecycle p = fl_active) then set_props (with_lifecycle fl_deprecated) else mret tt);;
  feature_emit "feature_registry.feature.replaced" eid at_.

Definition softRemove (eid : string) (at_ : Z) : FeatureM unit :=
  p ← gets agg_props;
  throw_if (bool_decide (ft_lifecycle p = fl_removed)) (BusinessRuleError "Feature is already removed");;
  set_props (with_lifecycle fl_removed);;
  feature_emit "feature_registry.feature.removed" eid at_.

(** ** The calls the use cases make of a loaded feature

    [eid] and [eid'] are the ids drawn from the generator, in order. *)

Inductive FeatureAction := to_publish | to_revise | to_deprecate | to_remove.
Inductive FeatureOp :=
| EditFeatureDraft (name category : option string) (visibility : option FeatureVisibility) (description : option string) (eid' : string)
| DeclareDependencies (dependencies : list DependencyInput)
| SetRequirements (requirements : PartialRequirements)
| AdvanceFeature (to : FeatureAction)
| ReplaceFeature (replacementKey : string)
| SetFeatureGroups (groups : list string)
| SetFeatureCompatibility (compatibility : PartialCompatibility)
| SetFeatureAiMetadata (ai : PartialAi)
| SetFeatureMetadata (patch : MetadataPatch).

Definition feature_exec (op : FeatureOp) (eid : string) (now : Z) : FeatureM unit :=
  match op with
  | EditFeatureDraft name category visibility description eid' =>
      (match name with Some n => rename n eid now | None => mret tt end);;
      if bool_decide (is_Some category) || bool_decide (is_Some visibility) || bool_decide (is_Some description)
      then editDraft category visibility description eid' now else mret tt
  | DeclareDependencies dependencies => setDependencies dependencies eid now
  | SetRequirements requirements => setRequirements requirements eid now
  | AdvanceFeature to_publish => feature_publish eid now
  | AdvanceFeature to_revise => revise eid now
  | AdvanceFeature to_deprecate => deprecate eid now
  | AdvanceFeature to_remove => softRemove eid now
  | ReplaceFeature replacementKey => replaceWith replacementKey eid now
  | SetFeatureGroups groups => setGroups groups eid now
  | SetFeatureCompatibility compatibility => setCompatibility compatibility eid now
  | SetFeatureAiMetadata ai => setAiMetadata ai eid now
  | SetFeatureMetadata patch => setMetadata patch eid now
  end.

(** ** Rows ([mappers.ts]) *)

Record FeatureColumns := mkFeatureColumns {
  fcol_key : string; fcol_name : string; fcol_lifecycle : FeatureLifecycle; fcol_category : string; fcol_visibility : FeatureVisibility;
  fcol_publishedVersionNumber : option Z; fcol_replacementKey : option string; fcol_versions : list RawVersion }.
Definition feature_columns (p : FeatureDefinitionProps) : result FeatureColumns :=
  spec ← effectiveSpec p;
  Ok (mkFeatureColumns (ft_key p) (ft_name p) (ft_lifecycle p) (fe_category spec) (fe_visibility spec) (ft_publishedVersionNumber p) (ft_replacementKey p)
    (version_json <$> ft_versions p)).
Definition feature_of_columns (c : FeatureColumns) : FeatureDefinitionProps :=
  mkFeature (fcol_key c) (fcol_name c) (fcol_lifecycle c) (fcol_publishedVersionNumber c) (fcol_replacementKey c) (versionFromRaw <$> fcol_versions c).

Record RegistryStore := mkRegistryStore {
  rg_features : list (Row FeatureColumns); rg_bundles : list (Row FeatureBundleProps); rg_outbox : list (string * (EventMeta * FeatureRegistryChanged)) }.

(** An update writes every column but the key; [@@unique([tenantId, key])]. *)
#[export] Instance feature_table : Table RegistryStore FeatureColumns FeatureRegistryChanged := {
  tbl_rows := rg_features;
  tbl_set l s := mkRegistryStore l (rg_bundles s) (rg_outbox s);
  tbl_publish l s := mkRegistryStore (rg_features s) (rg_bundles s) (rg_outbox s ++ l);
  tbl_name := "FeatureDefinition";
  tbl_columns old new := mkFeatureColumns (fcol_key old) (fcol_name new) (fcol_lifecycle new) (fcol_category new) (fcol_visibility new)
    (fcol_publishedVersionNumber new) (fcol_replacementKey new) (fcol_versions new);
  tbl_clash tenantId c r := bool_decide (row_tenant r = tenantId) && bool_decide (fcol_key (row_props r) = fcol_key c) }.
#[export] Instance feature_table_laws : TableLaws RegistryStore FeatureColumns FeatureRegistryChanged.
Proof using. split; done. Qed.
#[export] Instance bundle_table : Table RegistryStore FeatureBundleProps FeatureRegistryChanged := {
  tbl_rows := rg_bundles;
  tbl_set l s := mkRegistryStore (rg_features s) l (rg_outbox s);
  tbl_publish l s := mkRegistryStore (rg_features s) (rg_bundles s) (rg_outbox s ++ l);
  tbl_name := "FeatureBundle";
  tbl_columns old new := mkBundle (fb_key old) (fb_name new) (fb_description new) (fb_status new) (fb_featureKeys new) (fb_groups new);
  tbl_clash tenantId p r := bool_decide (row_tenant r = tenantId) && bool_decide (fb_key (row_props r) = fb_key p) }.
#[export] Instance bundle_table_laws : TableLaws RegistryStore FeatureBundleProps FeatureRegistryChanged.
Proof using. split; done. Qed.

Abbreviation RegistryM := (M RegistryStore).

Definition feature_at (key tenantId : string) (r : Row FeatureColumns) : bool :=
  bool_decide (row_tenant r = tenantId) && bool_decide (fcol_key (row_props r) = key).
Definition bundle_at (key tenantId : string) (r : Row FeatureBundleProps) : bool :=
  bool_decide (row_tenant r = tenantId) && bool_decide (fb_key (row_props r) = key).
Definition feature_toDomain (a : Aggregate FeatureColumns FeatureRegistryChanged) : FeatureDefinition :=
  new_agg_at (feature_of_columns (agg_props a)) (agg_id a) (agg_version a).
Definition findFeature (key tenantId : string) (s : RegistryStore) : option FeatureDefinition := feature_toDomain <$> find_where (feature_at key tenantId) s.
Definition findBundle (key tenantId : string) (s : RegistryStore) : option FeatureBundle := find_where (bundle_at key tenantId) s.
Definition saveFeature (f : FeatureDefinition) (tenantId : string) : RegistryM unit :=
  c ← lift (feature_columns (agg_props f));
  save_row (mkAgg (agg_id f) (agg_version f) (agg_events f) c) tenantId.
Definition saveBundle (b : FeatureBundle) (tenantId : string) : RegistryM unit := save_row b tenantId.

(** [orderBy: { key: "asc" }] *)
Definition listFeatures (tenantId : string) (lifecycle category : option string) (s : RegistryStore) : list FeatureDefinition :=
  sort_by (fun a b => string_le (ft_key (agg_props a)) (ft_key (agg_props b)))
    (feature_toDomain <$> find_many (fun r => bool_decide (row_tenant r = tenantId) &&
       match lifecycle with Some l => bool_decide (lifecycle_name (fcol_lifecycle (row_props r)) = l) | None => true end &&
       match category with Some c => bool_decide (fcol_category (row_props r) = c) | None => true end) s).
Definition listBundles (tenantId : string) (s : RegistryStore) : list FeatureBundle :=
  sort_by (fun a b => string_le (fb_key (agg_props a)) (fb_key (agg_props b))) (find_many (fun r => bool_decide (row_tenant r = tenantId)) s).

(** ** Use cases *)

Record FeatureOutput := mkFeatureOutput {
  fo_key : string; fo_name : string; fo_lifecycle : FeatureLifecycle; fo_publishedVersion : option Z; fo_versionCount : nat; fo_hasDraft : bool;
  fo_replacementKey : option string; fo_spec : FeatureSpec }.
Definition presentFeature (f : FeatureDefinition) : result FeatureOutput :=
  let p := agg_props f in
  spec ← effectiveSpec p;
  Ok (mkFeatureOutput (ft_key p) (ft_name p) (ft_lifecycle p) (ft_publishedVersionNumber p) (length (ft_versions p)) (bool_decide (is_Some (draft_of p)))
    (ft_replacementKey p) spec).

Definition RegisterFeature (id eid : string) (now : Z) (input : RegisterFeatureProps) (s0 : RegistryStore) : RegistryM FeatureOutput :=
  match findFeature (trim (rf_key input)) (rf_tenantId input) s0 with
  | Some existing => lift (presentFeature existing)
  | None =>
      id ← lift (UniqueEntityId_from id);
      f ← lift (register id input eid now);
      saveFeature f (rf_tenantId input);;
      lift (presentFeature f)
  end.
Definition withFeature (key tenantId : string) (apply : FeatureM unit) (s0 : RegistryStore) : RegistryM FeatureOutput :=
  f ← require "Feature not found" (findFeature (trim key) tenantId s0);
  f ← call f apply;
  saveFeature f tenantId;;
  lift (presentFeature f).
Definition CreateBundle (id eid : string) (now : Z) (input : CreateBundleProps) (s0 : RegistryStore) : RegistryM FeatureBundleProps :=
  match findBundle (trim (cb_key input)) (cb_tenantId input) s0 with
  | Some existing => mret (agg_props existing)
  | None =>
      id ← lift (UniqueEntityId_from id);
      b ← lift (bundle_create id input eid now);
      saveBundle b (cb_tenantId input);;
      mret (agg_props b)
  end.
Definition withBundle (key tenantId : string) (apply : BundleM unit) (s0 : RegistryStore) : RegistryM FeatureBundleProps :=
  b ← require "Bundle not found" (findBundle (trim key) tenantId s0);
  b ← call b apply;
  saveBundle b tenantId;;
  mret (agg_props b).

Definition ResolveFeature (key tenantId : string) (s : RegistryStore) : result (FeatureOutput * bool) :=
  match findFeature (trim key) tenantId s with
  | None => Err (NotFoundError "Feature not found")
  | Some f =>
      let p := agg_props f in
      base ← presentFeature f;
      Ok (base, (bool_decide (ft_lifecycle p = fl_active) || bool_decide (ft_lifecycle p = fl_deprecated)) && bool_decide (is_Some (ft_publishedVersionNumber p)))
  end.
Definition ListFeatures (lifecycle category : option string) (tenantId : string) (s : RegistryStore) : result (list FeatureOutput) :=
  map_must presentFeature (listFeatures tenantId lifecycle category s).
Definition ListBundles (tenantId : string) (s : RegistryStore) : list FeatureBundleProps := agg_props <$> listBundles tenantId s.

(** The entitlement port: an unknown feature is denied; otherwise Licensing decides, told whether the
    feature is available. *)
Definition CompositeEntitlementPort (resolveFeatureAvailability : string -> option bool) (checkLicensing : string -> string -> bool -> bool * string)
  (tenant featureKey : string) : string * bool * string :=
  match resolveFeatureAvailability featureKey with
  | None => (featureKey, false, "feature_unknown")
  | Some available => let d := checkLicensing tenant featureKey available in (featureKey, d.1, d.2)
  end.

(** The transactions of the registry, one per use case that writes. *)
Inductive RegistryTx :=
| TxRegister (id eid : string) (now : Z) (input : RegisterFeatureProps)
| TxFeature (key tenantId : string) (op : FeatureOp) (eid : string) (now : Z)
| TxCreateBundle (id eid : string) (now : Z) (input : CreateBundleProps)
| TxUpdateBundle (key tenantId : string) (input : UpdateBundleInput) (eid eid' eid'' : string) (now : Z).
Definition registry_tx (t : RegistryTx) (s0 : RegistryStore) : RegistryM unit :=
  match t with
  | TxRegister id eid now input => _ ← RegisterFeature id eid now input s0; mret tt
  | TxFeature key tenantId op eid now => _ ← withFeature key tenantId (feature_exec op eid now) s0; mret tt
  | TxCreateBundle id eid now input => _ ← CreateBundle id eid now input s0; mret tt
  | TxUpdateBundle key tenantId input eid eid' eid'' now => _ ← withBundle key tenantId (bundle_exec input eid eid' eid'' now) s0; mret tt
  end.
(** What a transaction that read the store once commits. *)
Definition registry_commit (t : RegistryTx) (snaps : list RegistryStore) (s : RegistryStore) : result RegistryStore :=
  match snaps with [s0] => committed (registry_tx t s0) s | _ => Err (UnexpectedError "a transaction reads once") end.

End features.

(** ** The graph of a registry *)

Record NamedSpec := mkNamed { ns_key : string; ns_spec : FeatureSpec }.
Definition named (f : FeatureDefinition) : result NamedSpec := s ← effectiveSpec (agg_props f); Ok (mkNamed (ft_key (agg_props f)) s).
Definition graph_feature (x : NamedSpec) : GraphFeature :=
  mkGraphFeature (ns_key x) ((fun d => (fd_featureKey d, fd_minVersion d)) <$> fe_dependencies (ns_spec x)) (fc_requires (fe_compatibility (ns_spec x))).
Definition registry_graph (l : list NamedSpec) : Edges := fromFeatures (graph_feature <$> l).

Record GraphFocus := mkFocus {
  gfo_key : string; gfo_dependencies : list string; gfo_transitiveDependencies : option (list string); gfo_dependents : list string;
  gfo_impact : option (list string) }.
Record CapabilityGraphOutput := mkGraphOutput {
  go_nodes : list string; go_cycles : option (list (list string)); go_acyclic : option bool; go_focus : option GraphFocus }.
Definition AnalyzeCapabilityGraph (key : option string) (tenantId : string) (s : RegistryStore) : result CapabilityGraphOutput :=
  specs ← map_must named (listFeatures tenantId None None s);
  let g := registry_graph specs in
  let cycles := detectCycles g in
  Ok (mkGraphOutput (graph_keys g) cycles ((fun l => bool_decide (length l = 0%nat)) <$> cycles)
    ((fun k => mkFocus k (dependenciesOf g k) (transitiveDependencies g k) (dependents g k) (impactOf g k)) <$> key)).

(** ** The validator ([feature-registry-validator.ts]) *)

Inductive ValidationSeverity := sev_error | sev_warning.
#[export] Instance ValidationSeverity_eq_dec : EqDecision ValidationSeverity.
Proof. solve_decision. Defined.
Record ValidationIssue := mkIssue { vi_code : string; vi_severity : ValidationSeverity; vi_key : string; vi_message : string }.
Record RegistryValidationReport := mkReport { rp_valid : bool; rp_issues : list ValidationIssue }.

Definition err (code key message : string) : ValidationIssue := mkIssue code sev_error key message.
Definition warn (code key message : string) : ValidationIssue := mkIssue code sev_warning key message.

Fixpoint duplicates (seen : list string) (keys : list string) : list ValidationIssue :=
  match keys with
  | [] => []
  | k :: keys' =>
      (if bool_decide (k ∈ seen) then [err "duplicate_feature_id" k ("feature " +:+ quoted k +:+ " is declared more than once")] else []) ++
      duplicates (seen ++ [k]) keys'
  end.

(** The text of a number that is no integer is not modelled. *)
Definition number_text (q : Q) : string := let r := Qred q in if bool_decide (Qden r = 1%positive) then pretty (Qnum r) else "a fraction".
Definition below_unlimited (q : Q) : bool := negb (Qle_bool (-1) q).
Definition negative (q : Q) : bool := bool_decide (Qnum q < 0).
Definition weights (c : FeatureCostProfile) : list Q :=
  [cpuWeight c; memoryWeight c; storageWeight c; gpuWeight c; networkWeight c; aiWeight c; executionWeight c; estimatedCost c].

Definition constraint_issues (key : string) (entry : string * Q) : list ValidationIssue :=
  (if below_unlimited entry.2 then [err "invalid_constraint" key ("constraint " +:+ quoted entry.1 +:+ " has invalid value " +:+ number_text entry.2)] else []) ++
  (if bool_decide (entry.1 ∈ FEATURE_CONSTRAINT_KEYS) then [] else [warn "invalid_constraint" key ("constraint " +:+ quoted entry.1 +:+ " is not a canonical key")]).

Definition feature_issues (keys : list string) (x : NamedSpec) : list ValidationIssue :=
  let key := ns_key x in let spec := ns_spec x in
  let compatibility := fe_compatibility spec in
  (flat_map (fun d => if bool_decide (fd_featureKey d ∈ keys) then []
                      else [err "missing_dependency" key ("depends on unknown feature " +:+ quoted (fd_featureKey d))]) (fe_dependencies spec)) ++
  (flat_map (fun r => if bool_decide (r ∈ keys) then [] else [err "missing_dependency" key ("requires unknown feature " +:+ quoted r)]) (fc_requires compatibility)) ++
  (flat_map (fun r => if bool_decide (r ∈ conflictsWith compatibility) then [err "invalid_compatibility" key ("both requires and conflicts with " +:+ quoted r)] else [])
     (fc_requires compatibility)) ++
  (flat_map (constraint_issues key) (map_to_list (fe_constraints spec))) ++
  (if isFeatureLifecyclePolicy (policy_name (fe_lifecyclePolicy spec)) then []
   else [err "invalid_lifecycle" key ("lifecycle policy " +:+ quoted (policy_name (fe_lifecyclePolicy spec)) +:+ " is not recognised")]) ++
  (if existsb negative (weights (fe_cost spec)) then [err "invalid_cost_profile" key "cost profile has a negative weight"] else []) ++
  (if bool_decide (fe_lifecyclePolicy spec = general_availability) && bool_decide (documentationUrl (fe_documentation spec) = EmptyString)
   then [warn "missing_documentation" key "GA feature has no documentation URL"] else []).

Definition cycle_issue (cycle : list string) : ValidationIssue :=
  err "circular_dependency" (default EmptyString (head cycle)) ("circular dependency: " +:+ join " -> " cycle).
Definition bundle_issues (keys : list string) (cycles : list (list string)) (b : FeatureBundleProps) : list ValidationIssue :=
  (flat_map (fun fk => if bool_decide (fk ∈ keys) then [] else [err "missing_dependency" (fb_key b) ("bundle references unknown feature " +:+ quoted fk)])
     (fb_featureKeys b)) ++
  (if existsb (existsb (fun k => bool_decide (k ∈ fb_featureKeys b))) cycles
   then [err "circular_bundle" (fb_key b) ("bundle " +:+ quoted (fb_key b) +:+ " includes features with a circular dependency")] else []).

(** [localeCompare] is the order of the host's locale. *)
Section validator.
Context (localeCompare : string -> string -> Z).

Definition validate_specs (specs : list NamedSpec) (cycles : list (list string)) (bundles : list FeatureBundleProps) : RegistryValidationReport :=
  let keys := ns_key <$> specs in
  let issues := duplicates [] keys ++ flat_map (feature_issues keys) specs ++ (cycle_issue <$> cycles) ++ flat_map (bundle_issues keys cycles) bundles in
  mkReport (forallb (fun i => negb (bool_decide (vi_severity i = sev_error))) issues)
    (sort_by (fun a b => bool_decide (localeCompare (vi_code a +:+ vi_key a) (vi_code b +:+ vi_key b) <= 0)) issues).
Definition validate (features : list FeatureDefinition) (bundles : list FeatureBundle) : result (option RegistryValidationReport) :=
  specs ← map_must named features;
  Ok (cycles ← detectCycles (registry_graph specs); Some (validate_specs specs cycles (agg_props <$> bundles))).
Definition ValidateRegistry (tenantId : string) (s : RegistryStore) : result (option RegistryValidationReport) :=
  validate (listFeatures tenantId None None s) (listBundles tenantId s).

End validator.

(** ** Version histories *)

(** Published versions, then at most one draft; numbered from 1; the pointer at the last published one. *)
Definition numbered (l : list FeatureVersion) : Prop := forall i v, l !! i = Some v -> versionNumber v = Z.of_nat i + 1.
Definition all_published (l : list FeatureVersion) : Prop := Forall (fun v => fver_status v = fs_published) l.
Definition last_number (pubs : list FeatureVersion) : option Z := match pubs with [] => None | _ => Some (Z.of_nat (length pubs)) end.
Definition history_ok (l : list FeatureVersion) (published : option Z) : Prop :=
  l <> [] /\ numbered l /\ exists pubs drafts, l = pubs ++ drafts /\ all_published pubs /\ published = last_number pubs /\
    (drafts = [] \/ exists d, drafts = [d] /\ fver_status d = fs_draft).
(** Published versions stay where and what they are. *)
Definition history_kept (l l' : list FeatureVersion) : Prop := forall i v, l !! i = Some v -> fver_status v = fs_published -> l' !! i = Some v.

Lemma find_first_skip {A} (f : A -> bool) l1 l2 : Forall (fun x => f x = false) l1 -> find_first f (l1 ++ l2) = find_first f l2.
Proof. induction 1 as [|x l1 Hx _ IH]; [done|]. cbn. by rewrite Hx. Qed.

Lemma no_draft pubs : all_published pubs -> Forall (fun v => bool_decide (fver_status v = fs_draft) = false) pubs.
Proof. intros H. eapply Forall_impl; [exact H|]. cbn. intros v ->. done. Qed.

Lemma draft_last p d : history_ok (ft_versions p) (ft_publishedVersionNumber p) -> draft_of p = Some d ->
  exists pubs, ft_versions p = pubs ++ [d] /\ all_published pubs /\ fver_status d = fs_draft /\ ft_publishedVersionNumber p = last_number pubs /\
    numbered (pubs ++ [d]).
Proof.
  intros (_ & Hn & pubs & drafts & E & Hp & Hl & Hd). unfold draft_of. rewrite E, (find_first_skip _ _ _ (no_draft _ Hp)).
  destruct Hd as [->|(d' & -> & Hs)]; [done|]. cbn. rewrite bool_decide_true by done. intros [= ->]. exists pubs. rewrite <- E. done.
Qed.
Lemma no_draft_published p : history_ok (ft_versions p) (ft_publishedVersionNumber p) -> draft_of p = None ->
  all_published (ft_versions p) /\ ft_publishedVersionNumber p = last_number (ft_versions p).
Proof.
  intros (_ & _ & pubs & drafts & E & Hp & Hl & Hd). unfold draft_of. rewrite E, (find_first_skip _ _ _ (no_draft _ Hp)).
  destruct Hd as [->|(d' & -> & Hs)]; [by rewrite app_nil_r|]. cbn. by rewrite bool_decide_true.
Qed.

Lemma numbered_snoc l v : numbered (l ++ [v]) <-> numbered l /\ versionNumber v = Z.of_nat (length l) + 1.
Proof.
  split.
  - intros H. split; [intros i w Hi; apply H; by apply lookup_app_l_Some|]. apply H. by apply list_lookup_middle.
  - intros [H Hv] i w Hi. apply lookup_app_Some in Hi as [Hi|[Hl Hi]]; [by apply H|]. apply list_lookup_singleton_Some in Hi as [Hi <-]. rewrite Hv. lia.
Qed.
Lemma replace_last l d v : numbered (l ++ [d]) -> versionNumber v = versionNumber d -> replace_version v (l ++ [d]) = l ++ [v].
Proof.
  intros [Hn Hd]%numbered_snoc Hv. assert (Hl : Forall (fun w => versionNumber w <> versionNumber v) l).
  { apply Forall_forall. intros w [i Hi]%list_elem_of_lookup. rewrite (Hn i w Hi), Hv, Hd. apply lookup_lt_Some in Hi. lia. }
  clear Hn Hd. induction Hl as [|w l Hw _ IH]; cbn; [by rewrite bool_decide_true|]. rewrite bool_decide_false by done. by rewrite IH.
Qed.
Lemma max_version_app l v : max_version (l ++ [v]) = Z.max (max_version l) (Z.max (versionNumber v) 0).
Proof. unfold max_version. induction l as [|w l IH]; cbn; [lia|]. rewrite IH. lia. Qed.
Lemma max_version_numbered l : numbered l -> max_version l = Z.of_nat (length l).
Proof.
  induction l as [|v l IH] using rev_ind; intros Hn; [done|]. apply numbered_snoc in Hn as [Hn Hv]. rewrite max_version_app, IH, Hv, length_app by done. cbn. lia.
Qed.
Lemma versionAt_numbered n p v : numbered (ft_versions p) -> versionAt n p = Some v <-> exists i, ft_versions p !! i = Some v /\ n = Z.of_nat i + 1.
Proof.
  intros Hn. unfold versionAt. split.
  - intros [[i Hi]%list_elem_of_lookup Hv%bool_decide_eq_true]%find_first_Some. exists i. split; [done|]. rewrite <- Hv. by apply Hn.
  - intros (i & Hi & ->). destruct (find_first _ _) as [w|] eqn:E.
    + apply find_first_Some in E as [[j Hj]%list_elem_of_lookup Hw%bool_decide_eq_true]. rewrite (Hn j w Hj) in Hw. assert (j = i) as -> by lia. congruence.
    + apply (find_first_None _ _ v) in E; [|by eapply list_elem_of_lookup_2]. cbn beta in E. rewrite (Hn i v Hi) in E. by rewrite bool_decide_true in E.
Qed.

Lemma last_number_Some pubs : pubs <> [] -> last_number pubs = Some (Z.of_nat (length pubs)).
Proof. by destruct pubs. Qed.

(** The specification that governs a feature is that of one of its versions. *)
Lemma effectiveSpec_Ok p : history_ok (ft_versions p) (ft_publishedVersionNumber p) ->
  exists v, v ∈ ft_versions p /\ effectiveSpec p = Ok (fver_spec v) /\
    (ft_publishedVersionNumber p <> None -> fver_status v = fs_published /\ ft_publishedVersionNumber p = Some (versionNumber v)).
Proof.
  intros H. assert (Hok := H). destruct H as (Hne & Hn & pubs & drafts & E & Hp & Hl & Hd). unfold effectiveSpec, publishedVersion. rewrite Hl.
  destruct pubs as [|v pubs _] using rev_ind.
  - destruct Hd as [->|(d & -> & Hs)]; [by rewrite app_nil_r in E|]. cbn in E. exists d. rewrite E. split; [by left|]. split; [|done]. cbn. unfold draft_of. rewrite E. cbn.
    by rewrite bool_decide_true.
  - assert (Hv : ft_versions p !! length pubs = Some v) by (rewrite E, <- app_assoc; by apply list_lookup_middle).
    assert (Hlen : last_number (pubs ++ [v]) = Some (Z.of_nat (length pubs) + 1)).
    { rewrite last_number_Some by (by destruct pubs). rewrite length_app. cbn. f_equal. lia. }
    rewrite Hlen. cbn [mbind option_bind]. assert (Hat : versionAt (Z.of_nat (length pubs) + 1) p = Some v) by (apply versionAt_numbered; [done|]; by exists (length pubs)).
    rewrite Hat. exists v. split; [by eapply list_elem_of_lookup_2|]. split; [done|]. intros _. split; [|by rewrite (Hn _ _ Hv)].
    apply Forall_app in Hp as [_ Hp]. by apply Forall_cons in Hp as [? _].
Qed.

(** ** What a call keeps *)

Definition feature_ok (p : FeatureDefinitionProps) : Prop :=
  history_ok (ft_versions p) (ft_publishedVersionNumber p) /\ Forall (fun v => storable (fver_spec v)) (ft_versions p).
Definition feature_kept (p p' : FeatureDefinitionProps) : Prop :=
  ft_key p' = ft_key p /\ history_kept (ft_versions p) (ft_versions p') /\ (ft_lifecycle p = fl_removed -> ft_lifecycle p' = fl_removed).
#[export] Instance feature_kept_preorder : PreOrder feature_kept.
Proof.
  split; [intros p; split; [done|]; split; [by intros i v|done]|]. intros p q r (K1 & H1 & L1) (K2 & H2 & L2).
  split; [congruence|]. split; [|auto]. intros i v Hi Hs. apply H2; [by apply H1|done].
Qed.

(** A method after which a well-formed feature is well formed, with what was published in place. *)
Definition keeps {A} (m : FeatureM A) : Prop := forall a r a', feature_ok (agg_props a) -> m a = (Ok r, a') ->
  agg_id a' = agg_id a /\ agg_version a' = agg_version a /\ feature_ok (agg_props a') /\ feature_kept (agg_props a) (agg_props a').

Lemma feature_keeps_bind {A B} (m : FeatureM A) (g : A -> FeatureM B) : keeps m -> (forall x, keeps (g x)) -> keeps (m ≫= g).
Proof.
  intros Hm Hg a r a' Hok (x & a1 & H1 & H2)%bind_Ok. destruct (Hm _ _ _ Hok H1) as (I1 & V1 & O1 & K1), (Hg _ _ _ _ O1 H2) as (I2 & V2 & O2 & K2).
  split; [congruence|]. split; [congruence|]. split; [done|]. by transitivity (agg_props a1).
Qed.
Lemma feature_keeps_read {A} (f : FeatureDefinition -> result A) : keeps (fun a => (f a, a)).
Proof. intros a r a' Hok [= _ <-]. split; [done|]. split; [done|]. split; [done|reflexivity]. Qed.
Lemma feature_keeps_ret {A} (x : A) : keeps (mret x).
Proof. exact (feature_keeps_read (fun _ => Ok x)). Qed.
Lemma feature_keeps_gets {A} (f : FeatureDefinition -> A) : keeps (gets f).
Proof. exact (feature_keeps_read (fun a => Ok (f a))). Qed.
Lemma feature_keeps_throw {A} e : keeps (throw (A := A) e).
Proof. exact (feature_keeps_read (fun _ => Err e)). Qed.
Lemma feature_keeps_throw_if b e : keeps (throw_if b e).
Proof. intros a r a'. unfold throw_if. destruct b; [done|]. exact (feature_keeps_read (fun _ => Ok tt) a r a'). Qed.
Lemma feature_keeps_emit event eid at_ : keeps (feature_emit event eid at_).
Proof. intros a r a' Hok H. unfold feature_emit in H. agg_inv. split; [done|]. split; [done|]. split; [done|reflexivity]. Qed.
(** A field that is neither the history, the key nor the lifecycle. *)
Lemma feature_keeps_set f : (forall p, ft_key (f p) = ft_key p /\ ft_versions (f p) = ft_versions p /\ ft_publishedVersionNumber (f p) = ft_publishedVersionNumber p /\
  (ft_lifecycle p = fl_removed -> ft_lifecycle (f p) = fl_removed)) -> keeps (set_props f).
Proof.
  intros Hf a r a' Hok ->%set_props_Ok. destruct (Hf (agg_props a)) as (E1 & E2 & E3 & E4). cbn. unfold feature_ok, feature_kept. rewrite E1, E2, E3. split; [done|]. split; [done|]. split; [exact Hok|]. split; [done|]. by split; [intros i v|].
Qed.
Create HintDb keeps.
#[export] Hint Resolve feature_keeps_bind feature_keeps_ret feature_keeps_gets feature_keeps_throw feature_keeps_throw_if feature_keeps_emit : keeps.

Lemma requireDraft_Ok (a : FeatureDefinition) d a' :
  requireDraft a = (Ok d, a') -> a' = a /\ draft_of (agg_props a) = Some d /\ ft_lifecycle (agg_props a) <> fl_removed.
Proof.
  intros H. unfold requireDraft in H. agg_inv. destruct (draft_of (agg_props a)) as [v|] eqn:E; by agg_inv.
Qed.

(** The draft's place in the history taken by another version of its number. *)
Lemma replaced_ok p d v : feature_ok p -> draft_of p = Some d -> versionNumber v = versionNumber d -> storable (fver_spec v) ->
  exists pubs, ft_versions p = pubs ++ [d] /\ replace_version v (ft_versions p) = pubs ++ [v] /\ all_published pubs /\ numbered (pubs ++ [v]) /\
    ft_publishedVersionNumber p = last_number pubs /\ versionNumber d = Z.of_nat (length pubs) + 1 /\ history_kept (ft_versions p) (pubs ++ [v]) /\
    Forall (fun v => storable (fver_spec v)) (pubs ++ [v]).
Proof.
  intros [Hh Hs] Hd Hv Hsv. destruct (draft_last p d Hh Hd) as (pubs & E & Hp & Hst & Hl & Hn). exists pubs. rewrite E in *. split; [done|].
  split; [by apply replace_last|]. split; [done|]. apply numbered_snoc in Hn as Hn'. destruct Hn' as [Hn1 Hn2]. split; [apply numbered_snoc; by rewrite Hv|].
  split; [done|]. split; [done|]. split.
  - intros i w Hi Hw. apply lookup_app_Some in Hi as [Hi|[Hle Hi]]; [by apply lookup_app_l_Some|]. apply list_lookup_singleton_Some in Hi as [_ <-]. congruence.
  - apply Forall_app in Hs as [Hs _]. apply Forall_app. split; [done|]. by constructor.
Qed.

Lemma draft_storable p d : feature_ok p -> draft_of p = Some d -> storable (fver_spec d).
Proof. intros [_ Hs] Hd. rewrite Forall_forall in Hs. apply Hs. unfold draft_of in Hd. by apply find_first_Some in Hd as [? _]. Qed.

Lemma feature_keeps_edit f event eid at_ : (forall p s s', storable s -> f p s = Ok s' -> storable s') -> keeps (edit_spec f event eid at_).
Proof.
  intros Hf a r a' Hok H. unfold edit_spec in H. apply bind_Ok in H as (d & a1 & Hd & H). apply requireDraft_Ok in Hd as (-> & Hd & _). agg_inv.
  unfold feature_emit, replaceDraft in *. agg_inv. destruct (draft_last _ _ (proj1 Hok) Hd) as (_ & _ & _ & Hst & _).
  assert (Hds : storable (fver_spec d)).
  { exact (draft_storable _ _ Hok Hd). }
  destruct (replaced_ok (agg_props a) d (with_spec v0 d)) as (pubs & E & -> & Hp & Hn & Hl & _ & Hk & Hss); [done|done|done|by eapply Hf|].
  cbn. split; [done|]. split; [done|]. split; [|by split_and!]. split; [|done]. split; [by destruct pubs|]. split; [done|]. exists pubs, [with_spec v0 d].
  split_and!; [done|done|done|]. right. by eexists.
Qed.

(** What every edit of a specification does to its parts: it normalises the part it sets. *)
Ltac edited := intros p s s' Hs He; apply storable_inv in Hs as (? & ? & ? & ? & ? & ? & ? & ? & ?); cbv beta zeta in He; repeat case_bool_decide; try discriminate He;
  first [injection He as <- | destruct (existsb _ _); [discriminate He|injection He as <-]];
  apply storable_parts; cbn [fe_dependencies fe_requirements fe_groups fe_compatibility fe_ai fe_constraints fe_cost fe_documentation fe_analytics];
  repeat case_match; auto with feature_spec.

Lemma feature_keeps_editDraft category visibility description eid at_ : keeps (editDraft category visibility description eid at_).
Proof. apply feature_keeps_edit. edited. Qed.
Lemma feature_keeps_setGroups groups eid at_ : keeps (setGroups groups eid at_).
Proof. apply feature_keeps_edit. edited. Qed.
Lemma feature_keeps_setCompatibility c eid at_ : keeps (setCompatibility c eid at_).
Proof. apply feature_keeps_edit. edited. Qed.
Lemma feature_keeps_setAiMetadata ai eid at_ : keeps (setAiMetadata ai eid at_).
Proof. apply feature_keeps_edit. edited. Qed.
Lemma feature_keeps_setMetadata patch eid at_ : keeps (setMetadata patch eid at_).
Proof. apply feature_keeps_edit. edited. Qed.
Lemma feature_keeps_setDependencies dependencies eid at_ : keeps (setDependencies dependencies eid at_).
Proof. apply feature_keeps_edit. edited. Qed.
Lemma feature_keeps_setRequirements requirements eid at_ : keeps (setRequirements requirements eid at_).
Proof. apply feature_keeps_edit. edited. Qed.

Lemma feature_keeps_rename name eid at_ : keeps (rename name eid at_).
Proof. unfold rename. apply feature_keeps_bind; [auto with keeps|]. intros _. apply feature_keeps_bind; [by apply feature_keeps_set|auto with keeps]. Qed.

Lemma feature_keeps_publish toISOString eid at_ : keeps (feature_publish toISOString eid at_).
Proof.
  intros a r a' Hok H. unfold feature_publish in H. apply bind_Ok in H as (d & a1 & Hd & H). apply requireDraft_Ok in Hd as (-> & Hd & Hrm).
  destruct (replaced_ok (agg_props a) d (mkFeatureVersion (versionNumber d) fs_published (fver_spec d) (createdAt d) (toISOString at_)))
    as (pubs & E & Er & Hp & Hn & Hl & Hnum & Hk & Hss); [done|done|done| |].
  { exact (draft_storable _ _ Hok Hd). }
  unfold replaceDraft in H. agg_inv. unfold feature_emit in H. agg_inv.
  assert (Ha : agg_id s2 = agg_id a /\ agg_version s2 = agg_version a /\ ft_key (agg_props s2) = ft_key (agg_props a) /\
    ft_versions (agg_props s2) = replace_version (mkFeatureVersion (versionNumber d) fs_published (fver_spec d) (createdAt d) (toISOString at_)) (ft_versions (agg_props a)) /\
    ft_publishedVersionNumber (agg_props s2) = Some (versionNumber d)).
  { match goal with Hc : (if ?b then _ else _) _ = _ |- _ => destruct b; agg_inv end; done. }
  destruct Ha as (E1 & E2 & E3 & E4 & E5). cbn. split; [done|]. split; [done|]. unfold feature_ok, feature_kept. rewrite E3, E4, E5, Er.
  split; [|split; [done|by split]]. split; [|done]. split; [by destruct pubs|]. split; [done|]. eexists (pubs ++ [_]), []. rewrite app_nil_r. split; [done|].
  split; [apply Forall_app; by split; [|constructor]|]. split; [|by left]. rewrite last_number_Some by (by destruct pubs). rewrite length_app, Hnum. cbn. f_equal. lia.
Qed.

Lemma feature_keeps_revise toISOString eid at_ : keeps (revise toISOString eid at_).
Proof.
  intros a r a' Hok H. unfold revise in H. agg_inv. destruct (publishedVersion (agg_props a)) as [base|] eqn:Eb; agg_inv. unfold feature_emit in H. agg_inv.
  destruct (draft_of (agg_props a)) as [d|] eqn:Ed; [by match goal with Hc : ~ is_Some _ |- _ => destruct Hc; eexists end|]. destruct Hok as [Hh Hs].
  destruct (no_draft_published _ Hh Ed) as [Hp Hl]. assert (Hn := proj1 (proj2 Hh)). cbn. split; [done|]. split; [done|]. split.
  - split; cbn; [|apply Forall_app; split; [done|]; constructor; [|constructor]; cbn].
    + split; [by destruct (ft_versions (agg_props a))|]. split; [apply numbered_snoc; split; [done|]; cbn; by rewrite max_version_numbered|].
      eexists (ft_versions (agg_props a)), [_]. split_and!; [done|done|done|]. right. by eexists.
    + unfold publishedVersion in Eb. destruct (ft_publishedVersionNumber (agg_props a)) as [n|]; [|done]. cbn in Eb. apply find_first_Some in Eb as [Hb _].
      rewrite Forall_forall in Hs. by apply Hs.
  - split; [done|]. split; [|done]. intros i w Hi _. cbn. by apply lookup_app_l_Some.
Qed.

Lemma feature_keeps_deprecate eid at_ : keeps (deprecate eid at_).
Proof.
  intros a r a' Hok H. unfold deprecate, feature_emit in H. agg_inv. split; [done|]. split; [done|]. split; [exact Hok|]. split; [done|]. split; [by intros ??|]. cbn. congruence.
Qed.
Lemma feature_keeps_softRemove eid at_ : keeps (softRemove eid at_).
Proof.
  intros a r a' Hok H. unfold softRemove, feature_emit in H. agg_inv. split; [done|]. split; [done|]. split; [exact Hok|]. split; [done|]. split; [by intros ??|done].
Qed.
Lemma feature_keeps_replaceWith key eid at_ : keeps (replaceWith key eid at_).
Proof.
  intros a r a' Hok H. unfold replaceWith, feature_emit in H. agg_inv. case_bool_decide; agg_inv; split; try done; split; try done; split; try exact Hok; (split; [done|]);
    (split; [by intros ??|]); cbn; congruence.
Qed.

Lemma feature_exec_keeps toISOString op eid now : keeps (feature_exec toISOString op eid now).
Proof.
  destruct op as [name category visibility description eid'|deps|reqs|[| | |]|key|groups|c|ai|patch]; cbn [feature_exec].
  - apply feature_keeps_bind; [destruct name; [apply feature_keeps_rename|apply feature_keeps_ret]|]. intros _. destruct (_ || _); [apply feature_keeps_editDraft|apply feature_keeps_ret].
  - apply feature_keeps_setDependencies.
  - apply feature_keeps_setRequirements.
  - apply feature_keeps_publish.
  - apply feature_keeps_revise.
  - apply feature_keeps_deprecate.
  - apply feature_keeps_softRemove.
  - apply feature_keeps_replaceWith.
  - apply feature_keeps_setGroups.
  - apply feature_keeps_setCompatibility.
  - apply feature_keeps_setAiMetadata.
  - apply feature_keeps_setMetadata.
Qed.

Lemma register_ok toISOString id input eid at_ f : register toISOString id input eid at_ = Ok f ->
  agg_id f = id /\ agg_version f = 0 /\ feature_ok (agg_props f) /\ ft_key (agg_props f) = trim (rf_key input).
Proof.
  unfold register. repeat (destruct (negb _) || destruct (blank _)); [done..|]. intros [= <-]. cbn. split; [done|]. split; [done|]. split; [|done].
  split; [|constructor; [apply normalizeSpec_storable|constructor]]. split; [done|]. split; [by intros [|i] v; [intros [= <-]|]|]. eexists [], [_].
  split_and!; [done|constructor|done|]. right. by eexists.
Qed.

(** ** Rows and what is read back from them *)

Lemma version_read_back v : storable (fver_spec v) -> versionFromRaw (version_json v) = v.
Proof. unfold versionFromRaw, version_json. cbn. intros ->. by destruct v. Qed.
Lemma versions_read_back l : Forall (fun v => storable (fver_spec v)) l -> versionFromRaw <$> (version_json <$> l) = l.
Proof.
  intros H. rewrite <- list_fmap_compose. rewrite (fmap_ext_elem _ id), list_fmap_id; [done|]. intros v Hv. apply version_read_back. rewrite Forall_forall in H. by apply H.
Qed.

(** A well-formed feature is saved as columns it is read back from. *)
Lemma columns_Ok p : feature_ok p -> exists c, feature_columns p = Ok c /\ feature_of_columns c = p.
Proof.
  intros [Hh Hs]. unfold feature_columns. destruct (effectiveSpec_Ok p Hh) as (v & _ & -> & _). eexists. split; [done|]. unfold feature_of_columns. cbn.
  rewrite versions_read_back by done. by destruct p.
Qed.

Definition columns_ok (c : FeatureColumns) : Prop := exists p, feature_ok p /\ feature_columns p = Ok c.
Lemma columns_ok_read c : columns_ok c -> feature_ok (feature_of_columns c) /\ fcol_versions c = version_json <$> ft_versions (feature_of_columns c).
Proof.
  intros (p & Hp & Hc). destruct (columns_Ok p Hp) as (c' & Hc' & E). assert (c' = c) as -> by congruence. rewrite E. split; [done|].
  clear Hc' E. unfold feature_columns in Hc. destruct (effectiveSpec p); [|done]. by injection Hc as <-.
Qed.

Definition columns_kept (c c' : FeatureColumns) : Prop := feature_kept (feature_of_columns c) (feature_of_columns c').
#[export] Instance columns_kept_preorder : PreOrder columns_kept.
Proof. split; [intros c|intros c d e]; unfold columns_kept; [reflexivity|apply transitivity]. Qed.

(** ** The store *)

Definition rows_ok (s : RegistryStore) : Prop := rows_wf (rg_features s) /\ rows_wf (rg_bundles s) /\ forall id r, row_of id (rg_features s) = Some r -> columns_ok (row_props r).
Definition registry_evolves (s s' : RegistryStore) : Prop :=
  rows_evolve (rg_features s) (rg_features s') /\ rows_evolve (rg_bundles s) (rg_bundles s') /\
  forall id r r', row_of id (rg_features s) = Some r -> row_of id (rg_features s') = Some r' -> columns_kept (row_props r) (row_props r').
#[export] Instance registry_evolves_preorder : PreOrder registry_evolves.
Proof.
  split.
  - intros s. split; [reflexivity|]. split; [reflexivity|]. intros id r r' Hr Hr'. rewrite Hr in Hr'. injection Hr' as <-. reflexivity.
  - intros s1 s2 s3 (A1 & B1 & C1) (A2 & B2 & C2). split; [by transitivity (rg_features s2)|]. split; [by transitivity (rg_bundles s2)|]. intros id r r' Hr Hr'.
    destruct (A1 id r Hr) as (r2 & Hr2 & _). transitivity (row_props r2); [by apply (C1 id)|by apply (C2 id)].
Qed.

Lemma findFeature_Some key tenantId s f : rows_wf (rg_features s) -> findFeature key tenantId s = Some f ->
  exists r, r ∈ rg_features s /\ row_of (row_id r) (rg_features s) = Some r /\ row_tenant r = tenantId /\ fcol_key (row_props r) = key /\
    agg_id f = row_id r /\ agg_version f = row_version r /\ agg_props f = feature_of_columns (row_props r).
Proof.
  intros [Hn _] H. unfold findFeature in H. destruct (find_where _ _) as [a|] eqn:Ea; [|done]. injection H as <-.
  apply find_where_Some in Ea as (r & Hr & [Ht%bool_decide_eq_true Hk%bool_decide_eq_true]%andb_true_iff & ->). exists r. split; [done|]. split; [by apply row_of_elem|]. done.
Qed.

Section commits.
Context (toISOString : Z -> string).

(** A bundle's save leaves the features alone. *)
Lemma saveBundle_step b tenantId s u s' : rows_ok s -> saveBundle b tenantId s = (Ok u, s') -> rows_ok s' /\ registry_evolves s s'.
Proof using.
  intros (Hf & Hb & Hc) Hs. unfold saveBundle, save_row in Hs.
  destruct (save_row_for_Ok (S := RegistryStore) (P := FeatureBundleProps) (E := FeatureRegistryChanged) (H := bundle_table) tenantId b tenantId s u s' Hb Hs) as (Hb' & Hev & _).
  destruct (save_row_for_shape (S := RegistryStore) (P := FeatureBundleProps) (E := FeatureRegistryChanged) (H := bundle_table) tenantId b tenantId s u s' Hs) as (rows & ->).
  split; [by split_and!|]. split; [reflexivity|]. split; [done|]. intros id r r' Hr Hr'. change (row_of id (rg_features s) = Some r') in Hr'. rewrite Hr in Hr'. injection Hr' as <-. reflexivity.
Qed.

(** A new feature's save, and that of a feature loaded from an earlier state. *)
Lemma saveFeature_shape f tenantId s u s' : saveFeature f tenantId s = (Ok u, s') ->
  exists c, feature_columns (agg_props f) = Ok c /\ save_row_for tenantId (mkAgg (agg_id f) (agg_version f) (agg_events f) c) tenantId s = (Ok u, s') /\
    rg_bundles s' = rg_bundles s.
Proof using.
  intros Hs. unfold saveFeature, save_row in Hs. minv. exists v. split; [done|]. split; [done|].
  destruct (save_row_for_shape (S := RegistryStore) (P := FeatureColumns) (E := FeatureRegistryChanged) (H := feature_table) _ _ _ _ _ _ Hs) as (rows & ->). done.
Qed.
Lemma saveFeature_new f tenantId s u s' : rows_ok s -> agg_version f = 0 -> feature_ok (agg_props f) -> saveFeature f tenantId s = (Ok u, s') ->
  rows_ok s' /\ registry_evolves s s'.
Proof using.
  intros (Hf & Hb & Hc) Hv Hok (c & Ec & Hs & Eb)%saveFeature_shape.
  destruct (save_row_for_Ok (S := RegistryStore) (P := FeatureColumns) (E := FeatureRegistryChanged) (H := feature_table) _ _ _ _ _ _ Hf Hs) as (Hf' & Hev & _).
  destruct (save_row_new (S := RegistryStore) (P := FeatureColumns) (E := FeatureRegistryChanged) (H := feature_table) tenantId (mkAgg (agg_id f) (agg_version f) (agg_events f) c) tenantId s u s' Hf Hv Hs) as [Hn Hl]. cbn in Hf', Hev, Hn, Hl.
  split.
  - split; [done|]. split; [by rewrite Eb|]. intros id r. rewrite Hl. case_bool_decide; [intros [= <-]; cbn; by exists (agg_props f)|apply Hc].
  - split; [done|]. split; [by rewrite Eb|]. intros id r r' Hr. rewrite Hl. case_bool_decide as Hid; [by subst; rewrite Hr in Hn|]. rewrite Hr. intros [= <-]. reflexivity.
Qed.
Lemma saveFeature_loaded key tenantId s0 f f' s u s' : rows_ok s0 -> rows_ok s -> registry_evolves s0 s -> findFeature key tenantId s0 = Some f ->
  agg_id f' = agg_id f -> agg_version f' = agg_version f -> feature_ok (agg_props f') -> feature_kept (agg_props f) (agg_props f') ->
  saveFeature f' tenantId s = (Ok u, s') -> rows_ok s' /\ registry_evolves s s'.
Proof using.
  intros (Hf0 & _) (Hf & Hb & Hc) (Hev0 & _) Hfind Hid Hver Hok Hkept (c & Ec & Hs & Eb)%saveFeature_shape.
  destruct (findFeature_Some _ _ _ _ Hf0 Hfind) as (r & Hr & Hro & Ht & Hk & Ei & Ev & Ep).
  destruct (save_row_for_Ok (S := RegistryStore) (P := FeatureColumns) (E := FeatureRegistryChanged) (H := feature_table) _ _ _ _ _ _ Hf Hs) as (Hf' & Hev & _).
  destruct (save_row_loaded (S := RegistryStore) (P := FeatureColumns) (E := FeatureRegistryChanged) (H := feature_table) (rg_features s0) r tenantId
    (mkAgg (agg_id f') (agg_version f') (agg_events f') c) tenantId s u s' Hf0 Hr Hev0 Hf) as (Hcur & _ & Hl); [cbn; congruence|cbn; congruence|exact Hs|]. cbn in Hf', Hev, Hcur, Hl.
  destruct (columns_Ok _ Hok) as (c' & Ec' & Erd). assert (c' = c) as -> by congruence.
  assert (Hkey : fcol_key c = fcol_key (row_props r)).
  { destruct Hkept as (Hkey & _). rewrite Ep in Hkey. cbn in Hkey. rewrite <- Hkey, <- Erd. done. }
  assert (Hcols : mkFeatureColumns (fcol_key (row_props r)) (fcol_name c) (fcol_lifecycle c) (fcol_category c) (fcol_visibility c) (fcol_publishedVersionNumber c)
    (fcol_replacementKey c) (fcol_versions c) = c) by (rewrite <- Hkey; by destruct c).
  rewrite Hcols in Hl. split.
  - split; [done|]. split; [by rewrite Eb|]. intros id x. rewrite Hl. case_bool_decide; [intros [= <-]; cbn; by exists (agg_props f')|apply Hc].
  - split; [done|]. split; [by rewrite Eb|]. intros id x x' Hx. rewrite Hl. case_bool_decide as E; [|rewrite Hx; intros [= <-]; reflexivity].
    subst. rewrite Hcur in Hx. injection Hx as <-. intros [= <-]. cbn. unfold columns_kept. rewrite Erd, <- Ep. done.
Qed.

Lemma call_Ok {P E A} (a : Aggregate P E) (m : M (Aggregate P E) A) (s : RegistryStore) a' s' :
  call a m s = (Ok a', s') -> s' = s /\ exists x, m a = (Ok x, a').
Proof using. unfold call, run_on, lift. destruct (m a) as [[x|e] a1]; intros [= <- <-]. split; [done|]. by exists x. Qed.

Lemma registry_commit_step t snaps s s' : rows_ok s -> Forall (fun s0 => rows_ok s0 /\ registry_evolves s0 s) snaps ->
  registry_commit toISOString t snaps s = Ok s' -> rows_ok s' /\ registry_evolves s s'.
Proof using.
  intros Hs Hsn H. unfold registry_commit in H. destruct snaps as [|s0 [|]]; try done. apply Forall_cons in Hsn as [[H0 Hev] _].
  apply committed_Ok in H as [u H]. assert (Hid : rows_ok s /\ registry_evolves s s) by (split; [done|reflexivity]).
  destruct t as [id eid now input|key tenantId op eid now|id eid now input|key tenantId input eid eid' eid'' now]; cbn [registry_tx] in H.
  - unfold RegisterFeature in H. apply bind_Ok in H as (o & s1 & H & [_ ->]%ret_Ok). destruct (findFeature _ _ s0) as [f|]; [by minv|]. minv.
    destruct (register_ok _ _ _ _ _ _ Hcall0) as (_ & Hv & Hok & _). by eapply saveFeature_new.
  - unfold withFeature in H. apply bind_Ok in H as (o & s1 & H & [_ ->]%ret_Ok). destruct (findFeature (trim key) tenantId s0) as [f|] eqn:Ef; [|done]. rewrite require_found in H.
    apply bind_Ok in H as (f' & s2 & [-> (x & Hx)]%call_Ok & H). apply bind_Ok in H as (u1 & s3 & Hsave & [_ ->]%lift_Ok).
    destruct (findFeature_Some _ _ _ _ (proj1 H0) Ef) as (r & _ & Hro & _ & _ & _ & _ & Ep).
    destruct (feature_exec_keeps toISOString op eid now f x f') as (E1 & E2 & Hok & Hk); [|done|].
    { rewrite Ep. apply columns_ok_read. destruct H0 as (_ & _ & Hc). by eapply Hc. }
    by eapply saveFeature_loaded.
  - unfold CreateBundle in H. apply bind_Ok in H as (o & s1 & H & [_ ->]%ret_Ok). destruct (findBundle _ _ s0) as [b|]; [by minv|]. minv. by eapply saveBundle_step.
  - unfold withBundle in H. apply bind_Ok in H as (o & s1 & H & [_ ->]%ret_Ok). destruct (findBundle (trim key) tenantId s0) as [b|] eqn:Ef; [|done]. rewrite require_found in H.
    apply bind_Ok in H as (b' & s2 & [-> _]%call_Ok & H). apply bind_Ok in H as (u1 & s3 & Hsave & [_ ->]%ret_Ok). by eapply saveBundle_step.
Qed.

Abbreviation registry_run := (run_actions (il_do (registry_commit toISOString))).
Definition empty_registry : Interleaved (S := RegistryStore) (Tx := RegistryTx) := mkInterleaved (mkRegistryStore [] [] []) [].

Lemma registry_reached l1 l2 x y : registry_run l1 empty_registry = Some x -> registry_run l2 x = Some y ->
  rows_ok (il_store x) /\ rows_ok (il_store y) /\ registry_evolves (il_store x) (il_store y).
Proof using.
  intros H1 H2.
  assert (Hx : rows_ok (il_store x) /\ il_seen rows_ok registry_evolves x).
  { refine (run_actions_invariant _ (fun z => rows_ok (il_store z) /\ il_seen rows_ok registry_evolves z) l1 empty_registry x _ _ H1).
    - intros a z z' [Hz Hs] Ha. destruct (il_do_seen _ rows_ok registry_evolves a z z' _ registry_commit_step Hz Hs Ha) as (? & ? & _). done.
    - split; [|constructor]. split; [split; [constructor|by intros r ?%elem_of_nil]|]. split; [split; [constructor|by intros r ?%elem_of_nil]|]. done. }
  assert (Hy : rows_ok (il_store y) /\ il_seen rows_ok registry_evolves y /\ registry_evolves (il_store x) (il_store y)).
  { refine (run_actions_invariant _ (fun z => rows_ok (il_store z) /\ il_seen rows_ok registry_evolves z /\ registry_evolves (il_store x) (il_store z)) l2 x y _ _ H2).
    - intros a z z' (Hz & Hs & Hr) Ha. destruct (il_do_seen _ rows_ok registry_evolves a z z' _ registry_commit_step Hz Hs Ha) as (? & ? & ?).
      split; [done|]. split; [done|]. by transitivity (il_store z).
    - destruct Hx. split; [done|]. split; [done|]. reflexivity. }
  destruct Hx, Hy as (? & _ & ?). done.
Qed.

End commits.

(** ** What the registry guarantees *)

(** C22: a consumer that pins a version of a feature is unaffected by what happens later: however the
    transactions interleave, the feature stays, under its key, and a published version of it stays as it is;
    a removed feature stays removed. Reading a feature never fails: one of its versions governs it. *)
Theorem published_versions_never_change (toISOString : Z -> string) l1 l2 x y :
  run_actions (il_do (registry_commit toISOString)) l1 empty_registry = Some x -> run_actions (il_do (registry_commit toISOString)) l2 x = Some y ->
  forall r, r ∈ rg_features (il_store x) -> let p := feature_of_columns (row_props r) in
  (exists v, v ∈ ft_versions p /\ effectiveSpec p = Ok (fver_spec v)) /\
  exists r', r' ∈ rg_features (il_store y) /\ row_id r' = row_id r /\ row_tenant r' = row_tenant r /\ let p' := feature_of_columns (row_props r') in
    ft_key p' = ft_key p /\ (ft_lifecycle p = fl_removed -> ft_lifecycle p' = fl_removed) /\
    forall n v, versionAt n p = Some v -> fver_status v = fs_published -> versionAt n p' = Some v.
Proof.
  intros H1 H2 r Hr p. destruct (registry_reached toISOString l1 l2 x y H1 H2) as ((Hfx & _ & Hcx) & (Hfy & _ & Hcy) & Hev & _ & Hk).
  assert (Hrow := row_of_elem _ _ (proj1 Hfx) Hr). destruct (columns_ok_read _ (Hcx _ _ Hrow)) as [Hok _]. split.
  { destruct (effectiveSpec_Ok p (proj1 Hok)) as (v & Hv & He & _). by exists v. }
  destruct (Hev _ _ Hrow) as (r' & Hr' & Ht & _). exists r'. destruct (row_of_Some _ _ _ Hr') as [Hin Hid]. split; [done|]. split; [done|]. split; [done|].
  destruct (Hk _ _ _ Hrow Hr') as (Ek & Hh & Hl). cbv zeta. split; [done|]. split; [done|]. intros n v Hv Hst.
  destruct (columns_ok_read _ (Hcy _ _ Hr')) as [Hok' _]. destruct Hok as [(_ & Hn & _) _], Hok' as [(_ & Hn' & _) _].
  apply (versionAt_numbered n _ v Hn) in Hv as (i & Hi & ->). apply versionAt_numbered; [done|]. exists i. split; [by apply Hh|done].
Qed.

Definition sample_feature : RegisterFeatureProps := mkRegister "ai.copy" "Copywriter" "ai" None None (Some [mkDependencyInput "ai.tokens" (Finite 1)]) None "t1".
Definition transaction (t : RegistryTx) : list (Action RegistryTx) := [Begin t; Read 0; Commit 0].
Definition sample_published : list (Action RegistryTx) :=
  transaction (TxRegister "f1" "e1" 10 sample_feature) ++ transaction (TxFeature "ai.copy" "t1" (AdvanceFeature to_publish) "e2" 20).
(** A revision edits the draft and publishes it, while another transaction deprecates the feature and must start again. *)
Definition sample_revised : list (Action RegistryTx) :=
  transaction (TxFeature "ai.copy" "t1" (AdvanceFeature to_revise) "e3" 30) ++
  [Begin (TxFeature "ai.copy" "t1" (AdvanceFeature to_deprecate) "e4" 40); Read 0;
   Begin (TxFeature "ai.copy" "t1" (EditFeatureDraft None (Some "marketing") None None "e6") "e5" 41); Read 1; Commit 1; Again 0; Read 0; Commit 0] ++
  transaction (TxFeature "ai.copy" "t1" (AdvanceFeature to_publish) "e7" 50).

Lemma published_versions_never_change_witness :
  exists x y r r', run_actions (il_do (registry_commit (fun t => pretty t))) sample_published empty_registry = Some x /\
    run_actions (il_do (registry_commit (fun t => pretty t))) sample_revised x = Some y /\ rg_features (il_store x) = [r] /\ rg_features (il_store y) = [r'] /\
    ft_publishedVersionNumber (feature_of_columns (row_props r')) = Some 2 /\
    (fver_status <$> versionAt 1 (feature_of_columns (row_props r))) = Some fs_published /\
    versionAt 1 (feature_of_columns (row_props r')) = versionAt 1 (feature_of_columns (row_props r)).
Proof.
  destruct (run_actions (il_do (registry_commit (fun t => pretty t))) sample_published empty_registry) as [x|] eqn:H1; [|exfalso; vm_compute in H1; discriminate H1].
  destruct (run_actions (il_do (registry_commit (fun t => pretty t))) sample_revised x) as [y|] eqn:H2.
  2:{ exfalso. vm_compute in H1. injection H1 as <-. vm_compute in H2. discriminate H2. }
  pose proof (published_versions_never_change (fun t => pretty t) sample_published sample_revised x y H1 H2) as H.
  vm_compute in H1. injection H1 as <-. vm_compute in H2. injection H2 as <-. do 4 eexists. split; [vm_compute; reflexivity|]. split; [vm_compute; reflexivity|]. split; [reflexivity|]. split; [reflexivity|].
  split; [vm_compute; reflexivity|]. split; [vm_compute; reflexivity|]. cbn [il_store rg_features] in H.
  destruct (H _ ltac:(left)) as (_ & r' & Hr' & _ & _ & Hv). apply list_elem_of_singleton in Hr' as ->. destruct Hv as (_ & _ & Hv).
  exact (Hv 1 _ eq_refl eq_refl).
Defined.

(** A feature that calls of its methods made from its registration is saved, and read back from its row as it
    is: normalising again what is stored changes nothing. *)
Theorem features_read_back_as_saved (toISOString : Z -> string) (f : FeatureDefinition) :
  reachable (fun f => exists id input eid at_, register toISOString id input eid at_ = Ok f)
    (fun c : FeatureOp * string * Z => let '(op, eid, now) := c in feature_exec toISOString op eid now) f ->
  exists c, feature_columns (agg_props f) = Ok c /\ feature_of_columns c = agg_props f.
Proof.
  intros H. apply columns_Ok. induction H as [f (id & input & eid & at_ & Hf)|f [[op eid] now] r f' _ IH Hx].
  - by apply register_ok in Hf as (_ & _ & ? & _).
  - by apply (feature_exec_keeps toISOString op eid now f r f' IH) in Hx as (_ & _ & ? & _).
Qed.

Lemma features_read_back_as_saved_witness :
  exists f c, register (fun t => pretty t) "f1" sample_feature "e1" 10 = Ok f /\ feature_columns (agg_props f) = Ok c /\ feature_of_columns c = agg_props f /\
    fcol_category c = "ai".
Proof.
  destruct (register (fun t => pretty t) "f1" sample_feature "e1" 10) as [f|] eqn:Hf; [|exfalso; vm_compute in Hf; discriminate Hf].
  destruct (features_read_back_as_saved (fun t => pretty t) f) as (c & Hc & Hr).
  { apply reach_init. exists "f1", sample_feature, "e1", 10. exact Hf. }
  exists f, c. split; [reflexivity|]. split; [exact Hc|]. split; [exact Hr|]. vm_compute in Hf. injection Hf as <-. vm_compute in Hc. injection Hc as <-. reflexivity.
Defined.

(** ** What the validator accepts *)

(** [a] depends on [b], by a dependency or a requirement. *)
Definition depends_on (specs : list NamedSpec) (a b : string) : Prop :=
  exists x, x ∈ specs /\ ns_key x = a /\ (b ∈ fd_featureKey <$> fe_dependencies (ns_spec x) \/ b ∈ fc_requires (fe_compatibility (ns_spec x))).

(** A sound registry: keys once, references to known features, no feature that requires what it conflicts
    with, constraints from -1 and weights from 0 up, no feature that depends on itself, directly or not. *)
Record registry_sound (specs : list NamedSpec) (bundles : list FeatureBundleProps) : Prop := {
  rs_once : NoDup (ns_key <$> specs);
  rs_known a b : depends_on specs a b -> b ∈ ns_key <$> specs;
  rs_compatible x r : x ∈ specs -> r ∈ fc_requires (fe_compatibility (ns_spec x)) -> r ∉ conflictsWith (fe_compatibility (ns_spec x));
  rs_constraints x k q : x ∈ specs -> fe_constraints (ns_spec x) !! k = Some q -> (-1 <= q)%Q;
  rs_weights x q : x ∈ specs -> q ∈ weights (fe_cost (ns_spec x)) -> (0 <= q)%Q;
  rs_acyclic k : ~ tc (depends_on specs) k k;
  rs_bundles b k : b ∈ bundles -> k ∈ fb_featureKeys b -> k ∈ ns_key <$> specs }.

Definition no_error (l : list ValidationIssue) : Prop := Forall (fun i => vi_severity i <> sev_error) l.
Lemma valid_no_error l : forallb (fun i => negb (bool_decide (vi_severity i = sev_error))) l = true <-> no_error l.
Proof.
  unfold no_error. rewrite forallb_forall, Forall_forall. split; intros H i Hi; [apply list_elem_of_In in Hi|apply list_elem_of_In in Hi]; specialize (H i Hi).
  - by apply negb_true_iff, bool_decide_eq_false in H.
  - apply negb_true_iff. by apply bool_decide_eq_false.
Qed.
Lemma no_error_app l1 l2 : no_error (l1 ++ l2) <-> no_error l1 /\ no_error l2.
Proof. apply Forall_app. Qed.
Lemma no_error_flat_map {A} (f : A -> list ValidationIssue) l : no_error (flat_map f l) <-> forall x, x ∈ l -> no_error (f x).
Proof.
  induction l as [|x l IH]; cbn; [split; [by intros _ x ?%elem_of_nil|constructor]|]. rewrite no_error_app, IH. setoid_rewrite elem_of_cons. naive_solver.
Qed.
(** A check that reports an error or nothing. *)
Lemma no_error_when (b : bool) code key message : no_error (if b then [err code key message] else []) <-> b = false.
Proof. destruct b; split; try done; [|constructor]. intros H. by apply Forall_cons in H as [? _]. Qed.
Lemma no_error_unless (b : bool) code key message : no_error (if b then [] else [err code key message]) <-> b = true.
Proof. destruct b; split; try done; [constructor|]. intros H. by apply Forall_cons in H as [? _]. Qed.
Lemma warnings (b : bool) code key message : no_error (if b then [warn code key message] else []) /\ no_error (if b then [] else [warn code key message]).
Proof. destruct b; split; repeat constructor; done. Qed.

Lemma duplicates_spec seen keys : no_error (duplicates seen keys) <-> NoDup keys /\ forall k, k ∈ keys -> k ∉ seen.
Proof.
  revert seen. induction keys as [|k keys IH]; intros seen; cbn; [split; [intros _; split; [constructor|by intros k ?%elem_of_nil]|constructor]|].
  rewrite no_error_app, no_error_when, bool_decide_eq_false, IH, NoDup_cons. setoid_rewrite elem_of_cons. setoid_rewrite elem_of_app. setoid_rewrite list_elem_of_singleton.
  split.
  - intros (Hk & Hn & H). split; [split; [intros Hin; apply (H k Hin); by right|done]|]. intros x [-> |Hx]; [done|]. intros Hs. apply (H x Hx). by left.
  - intros ((Hk & Hn) & H). split; [apply H; by left|]. split; [done|]. intros x Hx [Hs| ->]; [|done]. apply (H x); [by right|done].
Qed.

Lemma constraint_spec key e : no_error (constraint_issues key e) <-> (-1 <= e.2)%Q.
Proof.
  unfold constraint_issues. rewrite no_error_app, no_error_when. unfold below_unlimited. rewrite negb_false_iff, Qle_bool_iff. split; [tauto|].
  intros H. split; [done|]. apply (warnings (bool_decide _)).
Qed.
Lemma weights_spec l : existsb negative l = false <-> forall q, q ∈ l -> (0 <= q)%Q.
Proof.
  rewrite <- not_true_iff_false, existsb_exists. split.
  - intros H q Hq. destruct (decide (0 <= Qnum q)) as [Hp|Hp]; [unfold Qle; cbn; lia|]. destruct H. exists q. split; [by apply list_elem_of_In|]. unfold negative. apply bool_decide_eq_true. lia.
  - intros H (q & Hq%list_elem_of_In & Hn). unfold negative in Hn. apply bool_decide_eq_true in Hn. specialize (H q Hq). unfold Qle in H. cbn in H. lia.
Qed.

Lemma feature_issues_spec keys x : no_error (feature_issues keys x) <->
  (forall b, b ∈ fd_featureKey <$> fe_dependencies (ns_spec x) \/ b ∈ fc_requires (fe_compatibility (ns_spec x)) -> b ∈ keys) /\
  (forall r, r ∈ fc_requires (fe_compatibility (ns_spec x)) -> r ∉ conflictsWith (fe_compatibility (ns_spec x))) /\
  (forall k q, fe_constraints (ns_spec x) !! k = Some q -> (-1 <= q)%Q) /\ (forall q, q ∈ weights (fe_cost (ns_spec x)) -> (0 <= q)%Q).
Proof.
  unfold feature_issues. cbv zeta. rewrite !no_error_app, !no_error_flat_map, no_error_unless, no_error_when, weights_spec, policy_name_recognised.
  setoid_rewrite no_error_unless. setoid_rewrite no_error_when. setoid_rewrite constraint_spec. setoid_rewrite bool_decide_eq_true. setoid_rewrite bool_decide_eq_false.
  split.
  - intros (H1 & H2 & H3 & H4 & _ & H6 & _). split_and!; [|done| |done].
    + intros b [(d & -> & Hd)%list_elem_of_fmap|Hb]; [by apply H1|by apply H2].
    + intros k q Hk. apply (H4 (k, q)). by apply elem_of_map_to_list.
  - intros (H1 & H3 & H4 & H6). split_and!; try done.
    + intros d Hd. apply H1. left. by apply list_elem_of_fmap_2.
    + intros r Hr. apply H1. by right.
    + intros [k q] Hk%elem_of_map_to_list. by apply (H4 k).
    + apply (warnings (bool_decide _ && bool_decide _)).
Qed.

Lemma bundle_issues_spec keys b : no_error (bundle_issues keys [] b) <-> forall k, k ∈ fb_featureKeys b -> k ∈ keys.
Proof.
  unfold bundle_issues. rewrite no_error_app, no_error_flat_map, no_error_when. setoid_rewrite no_error_unless. setoid_rewrite bool_decide_eq_true. cbn. tauto.
Qed.

Lemma last_of_key specs a x : NoDup (ns_key <$> specs) -> x ∈ specs -> ns_key x = a -> filter (fun y => ns_key y = a) specs = [x].
Proof.
  induction specs as [|y specs IH]; [by intros _ ?%elem_of_nil|]. rewrite fmap_cons, filter_cons. intros [Hy Hn]%NoDup_cons [-> |Hx]%elem_of_cons Ha.
  - rewrite decide_True by done. f_equal. apply filter_none. intros z Hz E. apply Hy. rewrite Ha, <- E. by apply list_elem_of_fmap_2.
  - rewrite decide_False; [by apply IH|]. intros E. apply Hy. rewrite E, <- Ha. by apply list_elem_of_fmap_2.
Qed.

(** The graph's edges are the features' dependencies and requirements. *)
Lemma graph_edge specs a b : NoDup (ns_key <$> specs) -> edge (registry_graph specs) a b <-> depends_on specs a b.
Proof.
  intros Hn. unfold edge, registry_graph, fromFeatures. rewrite graph_dependencies.
  set (node := fun x => mkNode (ns_key x) ((fd_featureKey <$> fe_dependencies (ns_spec x)) ++ fc_requires (fe_compatibility (ns_spec x)))).
  assert (Hnodes : (fun f => mkNode (gf_key f) ((gf_dependencies f).*1 ++ gf_requires f)) <$> (graph_feature <$> specs) = node <$> specs).
  { rewrite <- list_fmap_compose. apply fmap_ext_elem. intros x _. unfold node, compose, graph_feature. cbn. by rewrite <- list_fmap_compose. }
  rewrite Hnodes, filter_of_fmap. rewrite (filter_iff_elem (fun x => node_key (node x) = a) (fun x => ns_key x = a)) by done. split.
  - destruct (last _) as [n|] eqn:El; [|by intros ?%elem_of_nil]. apply last_Some_elem_of, list_elem_of_fmap in El as (x & -> & [Hk Hx]%list_elem_of_filter).
    rewrite elem_of_sortUnique. cbn. rewrite elem_of_app. intros H. by exists x.
  - intros (x & Hx & Hk & H). rewrite (last_of_key specs a x Hn Hx Hk). cbn [fmap list_fmap last]. rewrite elem_of_sortUnique. unfold node. cbn [dependsOn]. by rewrite elem_of_app.
Qed.

(** A report is valid exactly when the registry is sound. *)
Lemma validate_specs_sound localeCompare specs bundles cycles : detectCycles (registry_graph specs) = Some cycles ->
  rp_valid (validate_specs localeCompare specs cycles bundles) = true <-> registry_sound specs bundles.
Proof.
  intros Hc. unfold validate_specs. cbn [rp_valid]. rewrite valid_no_error, !no_error_app, duplicates_spec, !no_error_flat_map. setoid_rewrite feature_issues_spec.
  assert (Hcyc : no_error (cycle_issue <$> cycles) <-> cycles = []).
  { destruct cycles as [|c l]; [split; [done|constructor]|]. split; [|done]. intros H. by apply Forall_cons in H as [? _]. }
  rewrite Hcyc. destruct (detectCycles_spec (registry_graph specs) (graph_built _)) as (cycles' & Hc' & _ & Hnone). assert (cycles' = cycles) as -> by congruence.
  split.
  - intros ([Hn _] & Hf & Hcy & Hb). assert (Htc := proj1 Hnone Hcy). subst cycles. setoid_rewrite bundle_issues_spec in Hb. split; [done| | | | | |intros b k Hb0; by apply Hb].
    + intros a b (x & Hx & _ & H). by apply (proj1 (Hf x Hx)).
    + intros x r Hx. by apply Hf.
    + intros x k q Hx. by apply Hf.
    + intros x q Hx. by apply Hf.
    + intros k Hk. apply (Htc k). eapply (tc_congruence id); [|exact Hk]. intros a b. by apply graph_edge.
  - intros [Hn Hk Hcomp Hcons Hw Hac Hb]. assert (Hcy : cycles = []).
    { apply Hnone. intros k Hk'. apply (Hac k). eapply (tc_congruence id); [|exact Hk']. intros a b. by apply graph_edge. }
    split; [split; [done|intros k _; apply not_elem_of_nil]|]. split; [|split; [done|]].
    + intros x Hx. split_and!; [|intros r; by apply Hcomp|intros k q; by apply (Hcons x)|intros q; by apply (Hw x)]. intros b H. apply (Hk (ns_key x)). by exists x.
    + rewrite Hcy. intros b Hb'. apply bundle_issues_spec. intros k. by apply Hb.
Qed.

Lemma named_all fs : Forall (fun f : FeatureDefinition => feature_ok (agg_props f)) fs -> exists specs, map_must named fs = Ok specs.
Proof.
  induction 1 as [|f fs Hf _ [specs IH]]; [by exists []|]. destruct (effectiveSpec_Ok _ (proj1 Hf)) as (v & _ & He & _).
  assert (Hn : named f = Ok (mkNamed (ft_key (agg_props f)) (fver_spec v))) by (unfold named; by rewrite He). cbn [map_must]. rewrite Hn. cbn [mbind result_bind]. rewrite IH. by eexists.
Qed.
Lemma listed_ok tenantId lifecycle category s : rows_ok s -> Forall (fun f : FeatureDefinition => feature_ok (agg_props f)) (listFeatures tenantId lifecycle category s).
Proof.
  intros ((Hn & _) & _ & Hc). unfold listFeatures. rewrite sort_by_perm. apply Forall_forall. intros f (a & -> & (r & -> & [_ Hr]%list_elem_of_filter)%list_elem_of_fmap)%list_elem_of_fmap.
  cbn. apply columns_ok_read. eapply Hc. by apply row_of_elem.
Qed.

(** C23: validating what a tenant's registry holds, whenever it is done, gives a report; it is valid exactly when the
    registry is sound. *)
Theorem valid_registries_are_sound (toISOString : Z -> string) (localeCompare : string -> string -> Z) l x tenantId :
  run_actions (il_do (registry_commit toISOString)) l empty_registry = Some x ->
  exists specs report, map_must named (listFeatures tenantId None None (il_store x)) = Ok specs /\
    ValidateRegistry localeCompare tenantId (il_store x) = Ok (Some report) /\
    (rp_valid report = true <-> registry_sound specs (ListBundles tenantId (il_store x))).
Proof.
  intros Hx. destruct (registry_reached toISOString l [] x x Hx eq_refl) as (Hok & _). destruct (named_all _ (listed_ok tenantId None None _ Hok)) as [specs Hs].
  destruct (detectCycles_spec (registry_graph specs) (graph_built _)) as (cycles & Hc & _). exists specs, (validate_specs localeCompare specs cycles (ListBundles tenantId (il_store x))).
  split; [exact Hs|]. split; [|by apply validate_specs_sound]. unfold ValidateRegistry, validate. rewrite Hs. cbn [mbind result_bind]. by rewrite Hc.
Qed.

Lemma valid_registries_are_sound_witness :
  exists x specs, run_actions (il_do (registry_commit (fun t => pretty t)))
      (transaction (TxRegister "f1" "e1" 10 (mkRegister "ai.copy" "Copywriter" "ai" None None None None "t1")) ++
       transaction (TxRegister "f2" "e2" 20 (mkRegister "crm" "CRM" "sales" None None (Some [mkDependencyInput "ai.copy" (Finite 1)]) None "t1"))) empty_registry = Some x /\
    map_must named (listFeatures "t1" None None (il_store x)) = Ok specs /\ registry_sound specs (ListBundles "t1" (il_store x)).
Proof.
  match goal with |- exists x specs, ?r = Some x /\ _ => destruct r as [x|] eqn:H1; [|exfalso; vm_compute in H1; discriminate H1] end.
  destruct (valid_registries_are_sound (fun t => pretty t) (fun _ _ => 0) _ x "t1" H1) as (specs & report & Hs & Hr & [Hv _]).
  exists x, specs. split; [reflexivity|]. split; [exact Hs|]. apply Hv. vm_compute in H1. injection H1 as <-. vm_compute in Hr. injection Hr as <-. reflexivity.
Defined.

(** Registration takes a feature that depends on itself, which [setDependencies] refuses; the registry is then
    invalid until the draft is edited. *)
Theorem registration_takes_a_self_dependency (toISOString : Z -> string) :
  let own := [mkDependencyInput "ai.copy" (Finite 1)] in
  exists f spec, register toISOString "f1" (mkRegister "ai.copy" "Copywriter" "ai" None None (Some own) None "t1") "e1" 10 = Ok f /\
    (fd_featureKey <$> fe_dependencies spec) = ["ai.copy"] /\ effectiveSpec (agg_props f) = Ok spec /\
    (setDependencies own "e2" 20 f).1 = Err (BusinessRuleError "A feature cannot depend on itself").
Proof. cbv zeta. do 2 eexists. split; [vm_compute; reflexivity|]. split; [|split; [reflexivity|vm_compute; reflexivity]]. vm_compute. reflexivity. Qed.

(** A bundle of a feature that lies on a cycle is not flagged when the cycle is one that cycle detection does
    not report. *)
Theorem a_circular_bundle_is_not_flagged (localeCompare : string -> string -> Z) :
  let f key deps := mkNamed key (normalizeSpec (mkSpecInput "ai" fv_internal None (Some ((fun d => mkDependencyInput d (Finite 0)) <$> deps))
    None None None None None None None None None)) in
  let specs := [f "a" ["b"; "c"]; f "b" ["d"]; f "c" ["d"]; f "d" ["a"]] in
  let bundle := mkBundle "pack" "Pack" "" b_active ["c"] [] in
  exists cycles, detectCycles (registry_graph specs) = Some cycles /\ tc (edge (registry_graph specs)) "c" "c" /\
    Forall (fun i => vi_code i <> "circular_bundle") (rp_issues (validate_specs localeCompare specs cycles [bundle])).
Proof.
  cbv zeta. eexists. split; [vm_compute; reflexivity|]. split.
  - apply (walk_tc _ _ ["d"; "a"]). apply (bool_decide_unpack _). vm_compute. exact I.
  - cbn [validate_specs rp_issues]. rewrite sort_by_perm. vm_compute. repeat constructor; discriminate.
Qed.

(** No stored feature has a policy that is not recognised: reading it replaces the policy, so the check for
    one never fires. *)
Theorem an_unknown_policy_is_never_reported (localeCompare : string -> string -> Z) features bundles report :
  validate localeCompare features bundles = Ok (Some report) -> Forall (fun i => vi_code i <> "invalid_lifecycle") (rp_issues report).
Proof.
  unfold validate. intros H. minv. destruct (detectCycles _) as [cycles|]; [|done]. cbn in H. injection H as <-. cbn [validate_specs rp_issues]. rewrite sort_by_perm.
  rewrite !Forall_app. split_and!.
  - generalize (@nil string). induction (ns_key <$> v) as [|k l IH]; intros seen; cbn; [constructor|]. apply Forall_app. split; [|apply IH]. by case_bool_decide; repeat constructor.
  - apply Forall_flat_map. apply Forall_forall. intros x _. unfold feature_issues. cbv zeta. rewrite policy_name_recognised, !Forall_app. split_and!;
      try (apply Forall_flat_map, Forall_forall; intros ? _); unfold constraint_issues; try apply Forall_app; repeat case_match; repeat constructor; done.
  - apply Forall_fmap, Forall_forall. intros c _. done.
  - apply Forall_flat_map, Forall_forall. intros b _. unfold bundle_issues. apply Forall_app. split; [apply Forall_flat_map, Forall_forall; intros k _|]; case_match; by repeat constructor.
Qed.
