(* ===== verification/Coupons.v ===== *)
(** Coupons: [services/coupons/src]. The coupon with its redemption ledger, its row, every use case as a
    transaction and what holds of the stored coupons however the transactions interleave. *)
From Stdlib Require Import Ascii.
From S2P Require Import Prelude Kernel Store Paging Lifecycle.

#[global] Open Scope Z_scope.

(** ** Values ([domain/value-objects], [domain/coupon-redemption.ts], [domain/events]) *)

(** [/^[A-Z0-9_-]{3,32}$/] *)
Definition code_char (c : ascii) : bool := is_upper c || is_digit c || bool_decide (c = "_"%char) || bool_decide (c = "-"%char).
Definition CODE_PATTERN (s : string) : bool := all_chars code_char s && bool_decide (3 <= String.length s <= 32)%nat.
Definition normalize_code (value : string) : string := toUpperCase (trim value).
Definition CouponCode_create (value : string) : result string :=
  _ ← Guard.againstEmpty value "code";
  let normalized := normalize_code value in
  if negb (CODE_PATTERN normalized) then
    Err (ValidationError "Invalid coupon code" [mkFieldIssue "code" "must be 3-32 characters of A-Z, 0-9, _ or -"])
  else Ok normalized.

Inductive CouponStatusValue := cs_active | cs_disabled | cs_expired | cs_depleted.
#[export] Instance CouponStatusValue_eq_dec : EqDecision CouponStatusValue.
Proof. solve_decision. Defined.
Definition status_name (s : CouponStatusValue) : string :=
  match s with cs_active => "active" | cs_disabled => "disabled" | cs_expired => "expired" | cs_depleted => "depleted" end.
Definition TRANSITIONS (from : CouponStatusValue) : list CouponStatusValue :=
  match from with
  | cs_active => [cs_disabled; cs_expired; cs_depleted]
  | cs_disabled => [cs_active; cs_expired]
  | cs_expired => []
  | cs_depleted => []
  end.
Definition canTransitionCoupon (from to : CouponStatusValue) : bool := bool_decide (to ∈ TRANSITIONS from).

Record CouponRedemption := mkRedemption {
  red_id : string; red_idempotencyKey : string; red_customerRef : string; red_orderRef : option string; red_email : option string; red_occurredAt : Z }.
Record CouponTransitioned := mkTransitioned { tr_code : string; tr_promotionRef : string; tr_fromStatus : CouponStatusValue; tr_toStatus : CouponStatusValue }.

(** ** The coupon ([domain/coupon.ts]) *)

Record CouponProps := mkCoupon {
  co_code : string; co_promotionRef : string; co_multiUse : bool; co_customerRef : option string; co_campaignRef : option string; co_usageLimit : option Z;
  co_usageCount : Z; co_expiresAt : option Z; co_status : CouponStatusValue; co_redemptions : list CouponRedemption }.
Abbreviation Coupon := (Aggregate CouponProps CouponTransitioned).
Abbreviation CouponM := (M Coupon).

Definition with_status (st : CouponStatusValue) (p : CouponProps) : CouponProps :=
  mkCoupon (co_code p) (co_promotionRef p) (co_multiUse p) (co_customerRef p) (co_campaignRef p) (co_usageLimit p) (co_usageCount p) (co_expiresAt p) st
    (co_redemptions p).
Definition with_redemption (r : CouponRedemption) (p : CouponProps) : CouponProps :=
  mkCoupon (co_code p) (co_promotionRef p) (co_multiUse p) (co_customerRef p) (co_campaignRef p) (co_usageLimit p) (co_usageCount p + 1) (co_expiresAt p)
    (co_status p) (co_redemptions p ++ [r]).
Definition with_changes (code : string) (multiUse : bool) (usageLimit : option Z) (p : CouponProps) : CouponProps :=
  mkCoupon code (co_promotionRef p) multiUse (co_customerRef p) (co_campaignRef p) usageLimit (co_usageCount p) (co_expiresAt p) (co_status p)
    (co_redemptions p).

Definition coupon_create (id code promotionRef : string) (multiUse : bool) (usageLimit : option Z) (customerRef : option string) (expiresAt : option Z)
  (campaignRef : option string) : Coupon :=
  new_agg (mkCoupon code promotionRef multiUse customerRef campaignRef usageLimit 0 expiresAt cs_active []) id.

Definition transition (toStatus : CouponStatusValue) (eid : string) (at_ : Z) : CouponM unit :=
  p ← gets agg_props;
  throw_if (negb (canTransitionCoupon (co_status p) toStatus))
    (BusinessRuleError ("Cannot transition coupon from " +:+ quoted (status_name (co_status p)) +:+ " to " +:+ quoted (status_name toStatus)));;
  set_props (with_status toStatus);;
  addDomainEvent eid at_ (mkTransitioned (co_code p) (co_promotionRef p) (co_status p) toStatus).
Definition disable : string -> Z -> CouponM unit := transition cs_disabled.
Definition reactivate : string -> Z -> CouponM unit := transition cs_active.
Definition expire : string -> Z -> CouponM unit := transition cs_expired.

(** A redemption by the same customer, or by the same email in any case. *)
Definition same_redeemer (customerRef : string) (email : option string) (r : CouponRedemption) : bool :=
  bool_decide (red_customerRef r = customerRef) ||
  match email with Some e => bool_decide (toLowerCase <$> red_email r = Some (toLowerCase e)) | None => false end.

Definition redeem (idempotencyKey customerRef : string) (at_ : Z) (eid : string) (orderRef email : option string) : CouponM unit :=
  a ← gets id;
  let p := agg_props a in
  throw_if (negb (bool_decide (co_status p = cs_active))) (BusinessRuleError ("Coupon is not active (status: " +:+ status_name (co_status p) +:+ ")"));;
  throw_if (match co_expiresAt p with Some t => bool_decide (t <= at_) | None => false end) (BusinessRuleError "Coupon has expired");;
  throw_if (match co_customerRef p with Some c => negb (bool_decide (c = customerRef)) | None => false end)
    (BusinessRuleError "Coupon is not assigned to this customer");;
  throw_if (negb (co_multiUse p) && existsb (same_redeemer customerRef email) (co_redemptions p))
    (BusinessRuleError "Coupon has already been redeemed by this customer");;
  rid ← lift (UniqueEntityId_from (agg_id a +:+ show_nat (length (co_redemptions p))));
  set_props (with_redemption (mkRedemption rid idempotencyKey customerRef orderRef email at_));;
  p ← gets agg_props;
  if match co_usageLimit p with Some n => bool_decide (n <= co_usageCount p) | None => false end then transition cs_depleted eid at_ else mret tt.

Definition reconfigure (code : string) (multiUse : bool) (usageLimit : option Z) : CouponM unit := set_props (with_changes code multiUse usageLimit).

(** ** Rows ([infrastructure/coupon.mapper.ts], [prisma-coupon-repository.ts])

    The ledger is a JSON column of the coupon's row. A date in it is the time it prints. *)

Definition toDomain (c : CouponProps) : result CouponProps :=
  match CouponCode_create (co_code c) with
  | Err e => Err (UnexpectedError ("Corrupt coupon row: invalid code (" +:+ error_message e +:+ ")"))
  | Ok code => Ok (mkCoupon code (co_promotionRef c) (co_multiUse c) (co_customerRef c) (co_campaignRef c) (co_usageLimit c) (co_usageCount c)
      (co_expiresAt c) (co_status c) (co_redemptions c))
  end.

Record CouponStore := mkCouponStore { cst_rows : list (Row CouponProps); cst_outbox : list (string * (EventMeta * CouponTransitioned)) }.
#[export] Instance coupon_table : Table CouponStore CouponProps CouponTransitioned := {
  tbl_rows := cst_rows;
  tbl_set l s := mkCouponStore l (cst_outbox s);
  tbl_publish l s := mkCouponStore (cst_rows s) (cst_outbox s ++ l);
  tbl_name := "Coupon";
  tbl_columns old new := mkCoupon (co_code new) (co_promotionRef old) (co_multiUse new) (co_customerRef old) (co_campaignRef old) (co_usageLimit new)
    (co_usageCount new) (co_expiresAt old) (co_status new) (co_redemptions new);
  tbl_clash tenantId c r := bool_decide (row_tenant r = tenantId) && bool_decide (co_code (row_props r) = co_code c) }.
#[export] Instance coupon_table_laws : TableLaws CouponStore CouponProps CouponTransitioned.
Proof. split; done. Qed.

Abbreviation CouponTxM := (M CouponStore).

(** [@@unique([tenantId, code])], which an update may violate too. *)
Definition code_taken (id tenantId code : string) (r : Row CouponProps) : bool :=
  negb (bool_decide (row_id r = id)) && bool_decide (row_tenant r = tenantId) && bool_decide (co_code (row_props r) = code).
Definition saveCoupon (c : Coupon) (tenantId : string) : CouponTxM unit :=
  save_row c tenantId;;
  rows ← gets cst_rows;
  throw_if (existsb (code_taken (agg_id c) tenantId (co_code (agg_props c))) rows) (UnexpectedError "unique constraint violation").

Definition hydrate_coupon (found : option Coupon) : result (option Coupon) :=
  match found with
  | None => Ok None
  | Some a => p ← toDomain (agg_props a); Ok (Some (mkAgg (agg_id a) (agg_version a) [] p))
  end.
Definition findById (id tenantId : string) (s : CouponStore) : result (option Coupon) := hydrate_coupon (find_by_id id tenantId s).
Definition with_code (code tenantId : string) (r : Row CouponProps) : bool :=
  bool_decide (co_code (row_props r) = code) && bool_decide (row_tenant r = tenantId).
Definition findByCode (code tenantId : string) (s : CouponStore) : result (option Coupon) := hydrate_coupon (find_where (with_code code tenantId) s).
Definition hasRedemption (couponId idempotencyKey tenantId : string) (s : CouponStore) : bool :=
  match find_first (is_row couponId tenantId) (cst_rows s) with
  | None => false
  | Some r => existsb (fun x => bool_decide (red_idempotencyKey x = idempotencyKey)) (co_redemptions (row_props r))
  end.
Fixpoint map_rows (l : list (Row CouponProps)) : result (list Coupon) :=
  match l with
  | [] => Ok []
  | r :: l' => p ← toDomain (row_props r); ps ← map_rows l'; Ok (mkAgg (row_id r) (row_version r) [] p :: ps)
  end.
Definition findByPromotionRefs (promotionRefs : list string) (tenantId : string) (s : CouponStore) : result (list Coupon) :=
  if bool_decide (length promotionRefs = 0%nat) then Ok []
  else map_rows (filter (fun r => row_tenant r = tenantId /\ co_promotionRef (row_props r) ∈ promotionRefs) (cst_rows s)).
Definition findPromotionRefsByCode (fragment tenantId : string) (s : CouponStore) : list string :=
  unique ((fun r => co_promotionRef (row_props r)) <$>
    take 50 (filter (fun r => row_tenant r = tenantId /\ contains (co_code (row_props r)) (normalize_code fragment) = true) (cst_rows s))).
(** [orderBy: { id: "desc" }], after the cursor those with a smaller id. *)
Definition list_coupons (page : CursorPage) (tenantId : string) (s : CouponStore) : result (Paginated Coupon) :=
  let limit := normalizePageSize (cp_first page) in
  let rows := filter (fun r => row_tenant r = tenantId /\ match cp_after page with Some c => string_gt (decodeCursor c) (row_id r) | None => true end = true) (cst_rows s) in
  coupons ← map_rows (take (Z.to_nat (limit + 1)) (sort_by (fun a b => string_le (row_id b) (row_id a)) rows));
  Ok (buildPaginatedPage agg_id coupons limit).

(** ** Use cases ([application/coupon.use-cases.ts]) *)

Record CreateCouponInput := mkCreateCoupon {
  cc_code : string; cc_promotionRef : string; cc_multiUse : bool; cc_usageLimit : option Z; cc_customerRef : option string; cc_expiresAt : option Z;
  cc_campaignRef : option string; cc_tenantId : string }.
Record CouponStatusOutput := mkCouponStatus { so_couponId : string; so_status : CouponStatusValue }.
Definition status_of (c : Coupon) : CouponStatusOutput := mkCouponStatus (agg_id c) (co_status (agg_props c)).

Definition CreateCoupon (gen : string) (input : CreateCouponInput) (s0 : CouponStore) : CouponTxM CouponStatusOutput :=
  code ← lift (CouponCode_create (cc_code input));
  _ ← lift (Guard.againstEmpty (cc_promotionRef input) "promotionRef");
  existing ← lift (findByCode code (cc_tenantId input) s0);
  throw_if (bool_decide (is_Some (existing : option Coupon))) (ConflictError ("Coupon code " +:+ quoted code +:+ " already exists"));;
  id ← lift (UniqueEntityId_from gen);
  let coupon := coupon_create id code (cc_promotionRef input) (cc_multiUse input) (cc_usageLimit input) (cc_customerRef input) (cc_expiresAt input)
    (cc_campaignRef input) in
  saveCoupon coupon (cc_tenantId input);;
  mret (status_of coupon).

Definition AdvanceCoupon (couponId tenantId : string) (toStatus : CouponStatusValue) (eid : string) (now : Z) (s0 : CouponStore) : CouponTxM CouponStatusOutput :=
  found ← lift (findById couponId tenantId s0);
  coupon ← require "Coupon not found" found;
  coupon ← call coupon (transition toStatus eid now);
  saveCoupon coupon tenantId;;
  mret (status_of coupon).

Record RedeemCouponInput := mkRedeem {
  ri_code : string; ri_customerRef : string; ri_idempotencyKey : string; ri_orderRef : option string; ri_email : option string; ri_tenantId : string }.
Record RedeemCouponOutput := mkRedeemOutput { ro_couponId : string; ro_status : CouponStatusValue; ro_promotionRef : string; ro_duplicate : bool }.
(** [isActive] is the answer of Promotions; the ledger is read after the coupon, from [s1]. *)
Definition RedeemCoupon (isActive : string -> bool) (input : RedeemCouponInput) (eid : string) (now : Z) (s0 s1 : CouponStore) : CouponTxM RedeemCouponOutput :=
  _ ← lift (Guard.againstEmpty (ri_idempotencyKey input) "idempotencyKey");
  found ← lift (findByCode (normalize_code (ri_code input)) (ri_tenantId input) s0);
  coupon ← require "Coupon not found" found;
  if hasRedemption (agg_id coupon) (ri_idempotencyKey input) (ri_tenantId input) s1 then
    mret (mkRedeemOutput (agg_id coupon) (co_status (agg_props coupon)) (co_promotionRef (agg_props coupon)) true)
  else
    throw_if (negb (isActive (co_promotionRef (agg_props coupon)))) (ConflictError "The promotion this coupon authorizes is not active");;
    coupon ← call coupon (redeem (ri_idempotencyKey input) (ri_customerRef input) now eid (ri_orderRef input) (ri_email input));
    saveCoupon coupon (ri_tenantId input);;
    mret (mkRedeemOutput (agg_id coupon) (co_status (agg_props coupon)) (co_promotionRef (agg_props coupon)) false).

Record ReconfigureCouponInput := mkReconfigure { rci_couponId : string; rci_tenantId : string; rci_code : string; rci_multiUse : bool; rci_usageLimit : option Z }.
Definition ReconfigureCoupon (input : ReconfigureCouponInput) (s0 s1 : CouponStore) : CouponTxM CouponStatusOutput :=
  code ← lift (CouponCode_create (rci_code input));
  found ← lift (findById (rci_couponId input) (rci_tenantId input) s0);
  coupon ← require "Coupon not found" found;
  holder ← lift (findByCode code (rci_tenantId input) s1);
  throw_if (match holder : option Coupon with Some h => negb (bool_decide (agg_id h = agg_id coupon)) | None => false end)
    (ConflictError ("Coupon code " +:+ quoted code +:+ " already exists"));;
  coupon ← call coupon (reconfigure code (rci_multiUse input) (rci_usageLimit input));
  saveCoupon coupon (rci_tenantId input);;
  mret (status_of coupon).

Definition GetCouponByCode (code tenantId : string) (s : CouponStore) : result Coupon :=
  found ← findByCode (normalize_code code) tenantId s;
  match found with Some c => Ok c | None => Err (NotFoundError "Coupon not found") end.
Definition ListCouponsByPromotionRefs (tenantId : string) (promotionRefs : list string) (s : CouponStore) : result (list Coupon) :=
  findByPromotionRefs promotionRefs tenantId s.
Definition FindPromotionRefsByCode (tenantId fragment : string) (s : CouponStore) : list string :=
  if bool_decide (trim fragment = EmptyString) then [] else findPromotionRefsByCode fragment tenantId s.
Definition ListCoupons (page : CursorPage) (tenantId : string) (s : CouponStore) : result (Paginated Coupon) := list_coupons page tenantId s.

Inductive CouponTx :=
| TxCreate (gen : string) (input : CreateCouponInput)
| TxAdvance (couponId tenantId : string) (toStatus : CouponStatusValue) (eid : string) (now : Z)
| TxRedeem (isActive : string -> bool) (input : RedeemCouponInput) (eid : string) (now : Z)
| TxReconfigure (input : ReconfigureCouponInput).
(** What a transaction commits, from the states its reads saw. *)
Definition coupon_exec (t : CouponTx) (snaps : list CouponStore) (s : CouponStore) : result CouponStore :=
  match t, snaps with
  | TxCreate gen input, [s0] => committed (CreateCoupon gen input s0) s
  | TxAdvance couponId tenantId toStatus eid now, [s0] => committed (AdvanceCoupon couponId tenantId toStatus eid now s0) s
  | TxRedeem isActive input eid now, [s0; s1] => committed (RedeemCoupon isActive input eid now s0 s1) s
  | TxReconfigure input, [s0; s1] => committed (ReconfigureCoupon input s0 s1) s
  | _, _ => Err (UnexpectedError "a read is missing")
  end.

(** ** What a call does to a coupon *)

(** The changes a transaction can make: a step of the lifecycle; a redemption under a new key, which
    depletes a coupon at its limit; and, where [re] allows it, a reconfiguration. *)
Inductive change (re : bool) (p : CouponProps) : CouponProps -> Prop :=
| change_status st : canTransitionCoupon (co_status p) st = true -> change re p (with_status st p)
| change_redeem r : co_status p = cs_active -> red_idempotencyKey r ∉ red_idempotencyKey <$> co_redemptions p ->
    (co_multiUse p = false -> Forall (fun x => same_redeemer (red_customerRef r) (red_email r) x = false) (co_redemptions p)) ->
    change re p (let q := with_redemption r p in
                 if match co_usageLimit p with Some n => bool_decide (n <= co_usageCount p + 1) | None => false end then with_status cs_depleted q else q)
| change_reconfigure code multiUse usageLimit value : re = true -> CouponCode_create value = Ok code ->
    change re p (with_changes code multiUse usageLimit p).

Lemma couponStatus_Ok st eid t (a : Coupon) u a' : transition st eid t a = (Ok u, a') ->
  agg_id a' = agg_id a /\ agg_version a' = agg_version a /\ agg_props a' = with_status st (agg_props a) /\ canTransitionCoupon (co_status (agg_props a)) st = true.
Proof. unfold transition. intros H. agg_inv. by destruct (canTransitionCoupon (co_status (agg_props a)) st). Qed.

Lemma redeem_Ok key customer t eid order email (a : Coupon) u a' : key ∉ red_idempotencyKey <$> co_redemptions (agg_props a) ->
  redeem key customer t eid order email a = (Ok u, a') ->
  agg_id a' = agg_id a /\ agg_version a' = agg_version a /\ change false (agg_props a) (agg_props a') /\
  exists x, red_idempotencyKey x = key /\ co_redemptions (agg_props a') = co_redemptions (agg_props a) ++ [x].
Proof.
  intros Hk H. unfold redeem in H. agg_inv.
  match goal with Hr : UniqueEntityId_from _ = Ok ?v |- _ => rename v into rid end.
  assert (Hch := change_redeem false (agg_props a) (mkRedemption rid key customer order email t)). cbv zeta in Hch. cbn [red_idempotencyKey red_customerRef red_email] in Hch.
  assert (Hsingle : co_multiUse (agg_props a) = false -> Forall (fun x => same_redeemer customer email x = false) (co_redemptions (agg_props a))).
  { intros Hm. match goal with Hx : negb (co_multiUse _) && _ = false |- _ => rewrite Hm in Hx; cbn in Hx; rename Hx into Hex end.
    apply Forall_forall. intros x Hx. destruct (same_redeemer customer email x) eqn:Es; [|done]. apply not_true_iff_false in Hex. destruct Hex. apply existsb_exists.
    exists x. split; [by apply list_elem_of_In|done]. }
  assert (Hact : co_status (agg_props a) = cs_active) by done. specialize (Hch Hact Hk Hsingle).
  destruct (co_usageLimit (agg_props a)) as [n|] eqn:Hn; [|agg_inv; split_and!; [done..|by exists (mkRedemption rid key customer order email t)]]. cbn [with_redemption co_usageLimit co_usageCount] in H. rewrite ?Hn in H. case_bool_decide as Hle.
  - apply couponStatus_Ok in H as (E1 & E2 & E3 & _). cbn in E1, E2, E3. rewrite E3. split_and!; [done..|by exists (mkRedemption rid key customer order email t)].
  - agg_inv. split_and!; [done..|by exists (mkRedemption rid key customer order email t)].
Qed.

(** ** What every stored coupon satisfies *)

Definition keys_of (p : CouponProps) : list string := red_idempotencyKey <$> co_redemptions p.
Definition customers_of (p : CouponProps) : list string := red_customerRef <$> co_redemptions p.
Definition emails_of (p : CouponProps) : list string := omap (fun r => toLowerCase <$> red_email r) (co_redemptions p).

Definition coupon_ok (p : CouponProps) : Prop :=
  CouponCode_create (co_code p) = Ok (co_code p) /\ co_usageCount p = Z.of_nat (length (co_redemptions p)) /\ NoDup (keys_of p).
(** The limit, which one redemption is always let through, and one redemption per customer. *)
Definition coupon_bounded (p : CouponProps) : Prop :=
  (forall n, co_usageLimit p = Some n -> co_usageCount p <= Z.max n 1 /\
     (co_status p = cs_active \/ co_status p = cs_disabled -> co_usageCount p < Z.max n 1)) /\
  (co_multiUse p = false -> NoDup (customers_of p) /\ NoDup (emails_of p)).
Definition final (st : CouponStatusValue) : Prop := TRANSITIONS st = [].
(** How a coupon grows: its ledger is appended to, and is closed with the coupon. *)
Definition grown (p p' : CouponProps) : Prop :=
  co_promotionRef p' = co_promotionRef p /\ co_customerRef p' = co_customerRef p /\ co_campaignRef p' = co_campaignRef p /\ co_expiresAt p' = co_expiresAt p /\
  co_redemptions p `prefix_of` co_redemptions p' /\ (final (co_status p) -> co_status p' = co_status p /\ co_redemptions p' = co_redemptions p).
#[export] Instance grown_preorder : PreOrder grown.
Proof.
  split; [intros p; by split_and!|]. intros p q r (A1 & B1 & C1 & D1 & E1 & F1) (A2 & B2 & C2 & D2 & E2 & F2). split_and!; try congruence.
  - by transitivity (co_redemptions q).
  - intros Hf. destruct (F1 Hf) as [S1 R1]. rewrite <- S1 in Hf. destruct (F2 Hf) as [S2 R2]. split; congruence.
Qed.

Lemma toUpperCase_idemp s : toUpperCase (toUpperCase s) = toUpperCase s.
Proof. induction s as [|c s IH]; cbn; [done|]. f_equal; [|exact IH]. by destruct c as [[] [] [] [] [] [] [] []]. Qed.
Lemma toUpperCase_trim s : trim (toUpperCase s) = toUpperCase (trim s).
Proof. apply string_map_trim. intros c. by destruct c as [[] [] [] [] [] [] [] []]. Qed.
Lemma code_char_solid c : code_char c = true -> is_space c = false.
Proof. by destruct c as [[] [] [] [] [] [] [] []]; vm_compute. Qed.

Lemma code_normal value code : CouponCode_create value = Ok code -> CouponCode_create code = Ok code.
Proof.
  unfold CouponCode_create. intros H. minv. destruct (CODE_PATTERN (normalize_code value)) eqn:E; [|done]. cbn in H. injection H as <-.
  assert (Hn : normalize_code (normalize_code value) = normalize_code value).
  { unfold normalize_code. rewrite toUpperCase_trim, trim_idemp. apply toUpperCase_idemp. }
  assert (Hg : Guard.againstEmpty (normalize_code value) "code" = Ok (normalize_code value)).
  { unfold Guard.againstEmpty. destruct (blank (normalize_code value)) eqn:Hb; [|done]. exfalso. unfold CODE_PATTERN in E. apply andb_true_iff in E as [Ha Hl%bool_decide_eq_true].
    destruct (normalize_code value) as [|c w]; [cbn in Hl; lia|]. cbn in Ha, Hb. apply andb_true_iff in Ha as [Hc _]. apply andb_true_iff in Hb as [Hb _].
    apply (code_char_solid c) in Hc. congruence. }
  rewrite Hg. cbn [mbind result_bind]. by rewrite Hn, E.
Qed.

Lemma change_ok re p q : change re p q -> coupon_ok p -> coupon_ok q.
Proof.
  intros [st _|r Hact Hk _|code multiUse usageLimit value _ Hc] (A & B & C); [done| |].
  - assert (H : coupon_ok (with_redemption r p)).
    { split; [done|]. unfold keys_of. cbn. rewrite length_app, fmap_app. cbn. split; [rewrite B; lia|]. apply NoDup_app. split; [done|].
      split; [|apply NoDup_singleton]. by intros x Hx ->%list_elem_of_singleton. }
    cbv zeta. by destruct (match co_usageLimit p with Some n => _ | None => _ end).
  - split; [by apply (code_normal value)|done].
Qed.

Lemma change_columns re p q : change re p q -> tbl_columns (Table := coupon_table) p q = q.
Proof. intros [st _|r _ _ _|code multiUse usageLimit value _ _]; cbv zeta; [done| |done]. by destruct (match co_usageLimit p with Some n => _ | None => _ end). Qed.

Lemma change_grown re p q : change re p q -> grown p q.
Proof.
  intros [st Hc|r Hact _ _|code multiUse usageLimit value _ _]; [| |by split_and!].
  - split_and!; try done. cbn. intros Hf. unfold canTransitionCoupon in Hc. apply bool_decide_eq_true in Hc. unfold final in Hf. rewrite Hf in Hc. by apply elem_of_nil in Hc.
  - assert (Hf : final (co_status p) -> False) by by rewrite Hact.
    cbv zeta. destruct (match co_usageLimit p with Some n => _ | None => _ end); (split_and!; [done..|by eexists|by intros ?%Hf]).
Qed.

Lemma fresh_redeemer r l : Forall (fun x => same_redeemer (red_customerRef r) (red_email r) x = false) l ->
  (red_customerRef r ∉ red_customerRef <$> l) /\
  (forall e, red_email r = Some e -> toLowerCase e ∉ omap (fun x => toLowerCase <$> red_email x) l).
Proof.
  rewrite Forall_forall. intros Hl. split.
  - intros (x & Ex & Hx)%list_elem_of_fmap. apply Hl in Hx. unfold same_redeemer in Hx. by rewrite bool_decide_true in Hx.
  - intros e He (x & Hx & Ex)%list_elem_of_omap. apply Hl in Hx. unfold same_redeemer in Hx. rewrite He, Ex, (bool_decide_true (Some (toLowerCase e) = _)) in Hx by done.
    by rewrite orb_true_r in Hx.
Qed.

(** Without reconfigurations the bounds are kept. *)
Lemma change_bounded p q : change false p q -> coupon_bounded p -> coupon_bounded q.
Proof.
  intros [st Hc|r Hact _ Hs|code multiUse usageLimit value Hre _] [Hl Hm]; [| |done].
  - split; [|done]. cbn. intros n Hn. destruct (Hl n Hn) as [A B]. split; [done|]. intros Hst. apply B. apply bool_decide_eq_true in Hc.
    destruct (co_status p); cbn in Hc; [by left|by right|by apply elem_of_nil in Hc..].
  - assert (Hm' : co_multiUse p = false -> NoDup (customers_of (with_redemption r p)) /\ NoDup (emails_of (with_redemption r p))).
    { intros Hf. destruct (Hm Hf) as [A B], (fresh_redeemer r _ (Hs Hf)) as [C D]. unfold customers_of, emails_of. cbn. rewrite fmap_app, omap_app. split.
      - apply NoDup_app. split; [done|]. split; [|apply NoDup_singleton]. by intros x Hx ->%list_elem_of_singleton.
      - apply NoDup_app. split; [done|]. cbn. destruct (red_email r) as [e|]; cbn; [|split; [by intros ? _ ?%elem_of_nil|constructor]].
        split; [|apply NoDup_singleton]. intros x Hx ->%list_elem_of_singleton. by apply (D e). }
    cbv zeta. destruct (co_usageLimit p) as [n|] eqn:Hn.
    + destruct (Hl n eq_refl) as [A B]. specialize (B (or_introl Hact)). case_bool_decide as Hle; (split; [|exact Hm']); cbn; rewrite Hn; intros m [= <-].
      * split; [lia|]. by intros [?|?].
      * lia.
    + split; [|exact Hm']. cbn. rewrite Hn. done.
Qed.

(** ** What every transaction preserves *)

Definition coupons_ok (re : bool) (s : CouponStore) : Prop :=
  rows_wf (cst_rows s) /\ forall r, r ∈ cst_rows s -> coupon_ok (row_props r) /\ (re = false -> coupon_bounded (row_props r)).
Definition coupons_evolve (s s' : CouponStore) : Prop :=
  rows_evolve (cst_rows s) (cst_rows s') /\
  forall id r r', row_of id (cst_rows s) = Some r -> row_of id (cst_rows s') = Some r' -> grown (row_props r) (row_props r').
#[export] Instance coupons_evolve_preorder : PreOrder coupons_evolve.
Proof.
  split; [intros s; split; [reflexivity|intros id r r' -> [= ->]; reflexivity]|].
  intros s1 s2 s3 [E1 G1] [E2 G2]. split; [by transitivity (cst_rows s2)|]. intros id r r' Hr Hr'.
  destruct (E1 id r Hr) as (r2 & Hr2 & _). transitivity (row_props r2); eauto.
Qed.

Lemma toDomain_ok p : coupon_ok p -> toDomain p = Ok p.
Proof. intros [Hc _]. unfold toDomain. rewrite Hc. by destruct p. Qed.

Lemma hydrate_coupon_ok re f s a : coupons_ok re s -> hydrate_coupon (find_where f s) = Ok (Some a) -> exists r, r ∈ cst_rows s /\ f r = true /\ a = rehydrate r.
Proof.
  intros [_ Hr] H. destruct (find_where f s) as [b|] eqn:E; [|done]. apply find_where_Some in E as (r & Hin & Hf & ->). exists r. split; [done|]. split; [done|].
  cbn in H. rewrite toDomain_ok in H by apply Hr, Hin. by injection H as <-.
Qed.

Lemma saveCoupon_inv c t s u s' : saveCoupon c t s = (Ok u, s') -> save_row_for t c t s = (Ok tt, s').
Proof. unfold saveCoupon, save_row. intros H. minv. by destruct v. Qed.

Lemma rows_ok_saved re s s' i q v t : coupons_ok re s -> rows_wf (cst_rows s') ->
  (forall id, row_of id (cst_rows s') = if bool_decide (id = i) then Some (mkRow t i v q) else row_of id (cst_rows s)) ->
  coupon_ok q -> (re = false -> coupon_bounded q) -> coupons_ok re s'.
Proof.
  intros [_ Hs] Hw Hl Hq Hb. split; [done|]. intros r Hr. assert (Hid := row_of_elem _ _ (proj1 Hw) Hr). rewrite Hl in Hid. case_bool_decide.
  - by injection Hid as <-.
  - apply row_of_Some in Hid as [? _]. by apply Hs.
Qed.

Lemma save_new_coupon re c t s u s' : coupons_ok re s -> agg_version c = 0 -> coupon_ok (agg_props c) -> coupon_bounded (agg_props c) ->
  saveCoupon c t s = (Ok u, s') -> coupons_ok re s' /\ coupons_evolve s s'.
Proof.
  intros Hs Hv Hc Hb H%saveCoupon_inv. destruct (save_row_for_Ok (H := coupon_table) _ _ _ _ _ _ (proj1 Hs) H) as (Hw & He & _).
  destruct (save_row_new (H := coupon_table) _ _ _ _ _ _ (proj1 Hs) Hv H) as [Hn Hl]. cbn in Hw, He, Hn, Hl. split.
  - by apply (rows_ok_saved re s s' (agg_id c) (agg_props c) 1 t).
  - split; [done|]. intros id r r' Hr Hr'. rewrite Hl in Hr'. case_bool_decide; [subst; by rewrite Hn in Hr|]. rewrite Hr in Hr'. injection Hr' as <-. reflexivity.
Qed.

(** A save of a loaded coupon returns only when the row is still the one that was read. *)
Lemma save_loaded_coupon re s0 r0 c t s u s' : coupons_ok re s0 -> r0 ∈ cst_rows s0 -> coupons_evolve s0 s -> coupons_ok re s ->
  agg_id c = row_id r0 -> agg_version c = row_version r0 ->
  (row_of (row_id r0) (cst_rows s) = Some r0 -> change re (row_props r0) (agg_props c)) ->
  saveCoupon c t s = (Ok u, s') ->
  coupons_ok re s' /\ coupons_evolve s s' /\ row_of (row_id r0) (cst_rows s) = Some r0 /\
  row_of (row_id r0) (cst_rows s') = Some (mkRow t (row_id r0) (row_version r0 + 1) (agg_props c)).
Proof.
  intros Hs0 Hr0 [He0 _] Hs Hid Hver Hch H%saveCoupon_inv. destruct (save_row_for_Ok (H := coupon_table) _ _ _ _ _ _ (proj1 Hs) H) as (Hw & He & _).
  destruct (save_row_loaded (H := coupon_table) _ _ _ _ _ _ _ _ (proj1 Hs0) Hr0 He0 (proj1 Hs) Hid Hver H) as (Hcur & _ & Hl).
  specialize (Hch Hcur). rewrite (change_columns re _ _ Hch) in Hl. cbn in Hw, He, Hl, Hcur.
  destruct (proj2 Hs r0) as [Hok Hb]; [by apply row_of_Some in Hcur as [? _]|]. split_and!.
  - apply (rows_ok_saved re s s' (row_id r0) (agg_props c) (row_version r0 + 1) t Hs Hw Hl); [by apply (change_ok re (row_props r0))|].
    intros ->. by apply (change_bounded (row_props r0)); [|apply Hb].
  - split; [done|]. intros id r r' Hr Hr'. rewrite Hl in Hr'. case_bool_decide.
    + subst id. rewrite Hcur in Hr. injection Hr as <-. injection Hr' as <-. by apply (change_grown re).
    + rewrite Hr in Hr'. injection Hr' as <-. reflexivity.
  - done.
  - by rewrite Hl, bool_decide_true.
Qed.

Lemma change_false re p q : change false p q -> change re p q.
Proof. intros [st Hc|r Ha Hk Hs|code multiUse usageLimit value Hre _]; [by apply change_status|by apply change_redeem|done]. Qed.

(** Without [re], no reconfiguration. *)
Definition allowed (re : bool) (t : CouponTx) : Prop := match t with TxReconfigure _ => re = true | _ => True end.

Lemma transition_change re st eid t (r : Row CouponProps) a : run_on (rehydrate r) (transition st eid t) = Ok a ->
  agg_id a = row_id r /\ agg_version a = row_version r /\ change re (row_props r) (agg_props a).
Proof.
  unfold run_on. intros H. destruct (transition st eid t (rehydrate r)) as [[u|e] a'] eqn:E; [|done]. injection H as <-.
  apply couponStatus_Ok in E as (E1 & E2 & E3 & Hc). rewrite E3. split_and!; [done..|]. by apply change_status.
Qed.

Definition ledger_of (id : string) (s : CouponStore) : list CouponRedemption :=
  match row_of id (cst_rows s) with Some r => co_redemptions (row_props r) | None => [] end.

Lemma hasRedemption_keys re id key tenantId s r : coupons_ok re s -> row_of id (cst_rows s) = Some r -> row_tenant r = tenantId ->
  hasRedemption id key tenantId s = bool_decide (key ∈ keys_of (row_props r)).
Proof.
  intros [[Hn _] _] Hr Ht. assert (Hf : find_first (is_row id tenantId) (cst_rows s) = Some r).
  { destruct (find_first (is_row id tenantId) (cst_rows s)) as [r'|] eqn:E.
    - apply find_first_Some in E as [Hin Hi]. apply andb_true_iff in Hi as [Hi%bool_decide_eq_true _]. rewrite <- Hr, <- Hi. symmetry. by apply row_of_elem.
    - apply row_of_Some in Hr as [Hr Hi]. apply (find_first_None _ _ r) in E; [|done]. unfold is_row in E. by rewrite !bool_decide_true in E by done. }
  unfold hasRedemption. rewrite Hf. apply eq_true_iff_eq. rewrite existsb_exists, bool_decide_eq_true. unfold keys_of. rewrite list_elem_of_fmap. split.
  - intros (x & Hx%list_elem_of_In & Hk%bool_decide_eq_true). by exists x.
  - intros (x & -> & Hx). exists x. split; [by apply list_elem_of_In|]. by apply bool_decide_eq_true.
Qed.

(** A redemption that returned: the key is in the coupon's ledger, where a second attempt with it adds nothing. *)
Lemma redeem_step re isActive input eid now s0 s1 s o s' :
  coupons_ok re s0 -> coupons_ok re s1 -> coupons_ok re s -> coupons_evolve s0 s1 -> coupons_evolve s1 s ->
  RedeemCoupon isActive input eid now s0 s1 s = (Ok o, s') ->
  coupons_ok re s' /\ coupons_evolve s s' /\ ri_idempotencyKey input ∈ red_idempotencyKey <$> ledger_of (ro_couponId o) s' /\
  if ro_duplicate o then s' = s
  else (ri_idempotencyKey input ∉ red_idempotencyKey <$> ledger_of (ro_couponId o) s) /\ exists x, ledger_of (ro_couponId o) s' = ledger_of (ro_couponId o) s ++ [x].
Proof.
  intros H0 H1 Hs E01 E1s H. assert (E0s : coupons_evolve s0 s) by by transitivity s1. unfold RedeemCoupon, require, call in H. minv.
  destruct v0 as [c|]; [|done]. injection Hcall1 as <-. apply (hydrate_coupon_ok re) in Hcall0 as (r0 & Hr0 & Hf & ->); [|done].
  apply andb_true_iff in Hf as [_ Ht%bool_decide_eq_true]. assert (Hrow0 := row_of_elem _ _ (proj1 (proj1 H0)) Hr0).
  destruct (proj1 E01 _ _ Hrow0) as (r1 & Hr1 & Ht1 & Hv1 & Heq1). cbn [agg_id rehydrate new_agg_at] in H.
  rewrite (hasRedemption_keys re _ _ _ s1 r1 H1 Hr1) in H by congruence. case_bool_decide as Hk.
  - minv. split; [done|]. split; [reflexivity|]. split; [|done].
    destruct (proj1 E1s _ _ Hr1) as (r & Hr & _). destruct (proj2 E1s _ _ _ Hr1 Hr) as (_ & _ & _ & _ & [l Hl] & _).
    unfold ledger_of. cbn [ro_couponId]. rewrite Hr, Hl, fmap_app. apply elem_of_app. by left.
  - minv. unfold run_on in *. destruct (redeem _ _ _ _ _ _ (rehydrate r0)) as [[u|e] c'] eqn:Hre; [|done]. simplify_eq/=.
    assert (Hk0 : ri_idempotencyKey input ∉ red_idempotencyKey <$> co_redemptions (row_props r0)).
    { destruct (proj2 E01 _ _ _ Hrow0 Hr1) as (_ & _ & _ & _ & [l Hl] & _). intros Hin. apply Hk. unfold keys_of. rewrite Hl, fmap_app. apply elem_of_app. by left. }
    apply redeem_Ok in Hre as (Ei & Ev & Hch & x & Hx & Hl); [|exact Hk0]. cbn in Ei, Ev, Hch, Hl.
    apply (save_loaded_coupon re s0 r0) in Hcall2 as (Hs' & He & Hcur & Hnew); [|done..|].
    + split; [done|]. split; [done|]. rewrite Ei. unfold ledger_of. rewrite Hcur, Hnew. cbn [row_props]. rewrite Hl, fmap_app. split.
      * apply elem_of_app. right. cbn. rewrite Hx. by left.
      * split; [done|]. by exists x.
    + intros _. by apply change_false.
Qed.

Lemma coupon_step re t snaps s s' : allowed re t -> coupons_ok re s -> Forall (fun s0 => coupons_ok re s0 /\ coupons_evolve s0 s) snaps ->
  StronglySorted coupons_evolve snaps -> coupon_exec t snaps s = Ok s' -> coupons_ok re s' /\ coupons_evolve s s'.
Proof.
  intros Ha Hs Hsn Ho H. destruct t as [gen input|couponId tenantId toStatus eid now|isActive input eid now|input];
    destruct snaps as [|s0 [|s1 [|? ?]]]; try discriminate H; apply committed_Ok in H as [o H]; apply Forall_cons in Hsn as [[H0 E0] Hsn].
  - unfold CreateCoupon in H. minv.
    match goal with Hc : CouponCode_create _ = Ok _, Hsv : saveCoupon _ _ _ = _ |- _ => apply code_normal in Hc; revert Hsv; apply save_new_coupon; [done|done| |] end.
    + split; [done|]. split; [done|constructor].
    + split; [|by repeat constructor]. cbn. intros n Hn. lia.
  - unfold AdvanceCoupon, require, call in H. minv. match goal with Hx : match ?v with Some _ => _ | None => _ end = Ok _ |- _ => destruct v as [c|]; [|done]; injection Hx as <- end.
    match goal with Hf : findById _ _ _ = _ |- _ => apply (hydrate_coupon_ok re) in Hf as (r0 & Hr0 & _ & ->); [|done] end.
    match goal with Hc : run_on _ _ = _ |- _ => apply (transition_change re) in Hc as (Ei & Ev & Hch) end.
    match goal with Hsv : saveCoupon _ _ _ = _ |- _ => apply (save_loaded_coupon re s0 r0) in Hsv as (? & ? & _); done end.
  - apply Forall_cons in Hsn as [[H1 E1] _]. inversion Ho as [|? ? _ Hall]; subst. apply Forall_cons in Hall as [E01 _].
    destruct (redeem_step re isActive input eid now s0 s1 s o s' H0 H1 Hs E01 E1 H) as (? & ? & _). done.
  - apply Forall_cons in Hsn as [[H1 E1] _]. cbn in Ha. unfold ReconfigureCoupon, require, call in H. minv.
    match goal with Hx : match ?v with Some _ => _ | None => _ end = Ok _ |- _ => destruct v as [c|]; [|done]; injection Hx as <- end.
    match goal with Hf : findById _ _ _ = _ |- _ => apply (hydrate_coupon_ok true) in Hf as (r0 & Hr0 & _ & ->); [|done] end.
    match goal with Hx : run_on _ _ = Ok ?a |- _ => injection Hx as Hx; subst a end.
    match goal with Hsv : saveCoupon _ _ _ = _ |- _ => apply (save_loaded_coupon true s0 r0) in Hsv as (? & ? & _); [done..|] end.
    intros _. by eapply change_reconfigure.
Qed.

Lemma allowed_all l : Forall (begins (allowed true)) l.
Proof. apply Forall_forall. by intros [[]| | | |] _. Qed.

(** However the transactions of all workers interleave. *)
Lemma coupon_schedule re l x0 x : Forall (begins (allowed re)) l -> coupons_ok re (il_store x0) -> il_ordered (allowed re) (coupons_ok re) coupons_evolve x0 ->
  run_actions (il_do coupon_exec) l x0 = Some x ->
  coupons_ok re (il_store x) /\ il_ordered (allowed re) (coupons_ok re) coupons_evolve x /\ coupons_evolve (il_store x0) (il_store x).
Proof. apply il_invariant_ordered; [apply _|]. intros t snaps s s'. apply coupon_step. Qed.

Definition no_coupons : Interleaved (S := CouponStore) (Tx := CouponTx) := mkInterleaved (mkCouponStore [] []) [].
Lemma no_coupons_ok re : coupons_ok re (il_store no_coupons) /\ il_ordered (allowed re) (coupons_ok re) coupons_evolve no_coupons.
Proof. split; [|constructor]. split; [split; [constructor|]|]; by intros r ?%elem_of_nil. Qed.

Lemma key_once key (l : list CouponRedemption) : NoDup (red_idempotencyKey <$> l) -> key ∈ red_idempotencyKey <$> l ->
  length (filter (fun r => red_idempotencyKey r = key) l) = 1%nat.
Proof.
  induction l as [|r l IH]; [by intros _ ?%elem_of_nil|]. rewrite fmap_cons, filter_cons. intros [Hr Hn]%NoDup_cons [->|Hin]%elem_of_cons.
  - rewrite decide_True by done. cbn. f_equal. apply length_zero_iff_nil. destruct (filter _ l) as [|x m] eqn:E; [done|]. exfalso. apply Hr.
    assert (Hx : x ∈ filter (fun r0 => red_idempotencyKey r0 = red_idempotencyKey r) l) by (rewrite E; by left).
    apply list_elem_of_filter in Hx as [<- Hx]. by apply list_elem_of_fmap_2.
  - rewrite decide_False; [by apply IH|]. by intros <-.
Qed.

(** ** Properties *)

Definition sample_input (code : string) (multiUse : bool) (limit : option Z) : CreateCouponInput := mkCreateCoupon code "promo-1" multiUse limit None None None "t1".
Definition sample_redeem (key customer email : string) : CouponTx := TxRedeem (fun _ => true) (mkRedeem " save10 " customer key None (Some email) "t1") "e" 5.
(** A coupon that two customers may use once each. Three try at the same time, one of them twice; who lost a race starts again. *)
Definition sample_race : list (Action CouponTx) :=
  [Begin (TxCreate "c1" (sample_input "save10" false (Some 2))); Read 0; Commit 0;
   Begin (sample_redeem "k1" "ann" "ann@x"); Begin (sample_redeem "k2" "bob" "bob@x"); Begin (sample_redeem "k3" "eve" "ANN@x");
   Read 0; Read 1; Read 2; Read 0; Read 1; Read 2; Commit 0; Again 0; Read 0; Read 0; Commit 0; Again 0; Read 0; Read 0; Abort 0;
   Begin (sample_redeem "k1" "ann" "ann@x"); Read 0; Read 0; Commit 0].
Definition sample_after (l : list (Action CouponTx)) : CouponStore := default (mkCouponStore [] []) (il_store <$> run_actions (il_do coupon_exec) l no_coupons).

(** C13: as long as no coupon is reconfigured, however the redemptions of all workers interleave, a coupon's
    usage count is the length of its ledger and never exceeds its limit (where a limit below one lets one
    redemption through), a coupon that can still be redeemed or reactivated is below its limit, no
    idempotency key is spent twice, and a coupon for a single use per customer was redeemed at most once
    by each customer reference and by each email, whatever the email's case. *)
Theorem redemptions_stay_within_the_limit l x r :
  Forall (begins (allowed false)) l -> run_actions (il_do coupon_exec) l no_coupons = Some x -> r ∈ cst_rows (il_store x) ->
  let p := row_props r in
  co_usageCount p = Z.of_nat (length (co_redemptions p)) /\ NoDup (keys_of p) /\
  (forall n, co_usageLimit p = Some n -> co_usageCount p <= Z.max n 1 /\
     (co_status p = cs_active \/ co_status p = cs_disabled -> co_usageCount p < Z.max n 1)) /\
  (co_multiUse p = false -> NoDup (customers_of p) /\ NoDup (emails_of p)).
Proof.
  intros Ha Hl Hr. destruct (no_coupons_ok false) as [H0 Ho]. destruct (coupon_schedule false l no_coupons x Ha H0 Ho Hl) as ([_ Hok] & _).
  destruct (Hok r Hr) as [(_ & Hc & Hk) Hb]. destruct (Hb eq_refl). done.
Qed.

(** However the transactions of all workers interleave, reconfigurations included, a redemption that
    returned has its idempotency key in the coupon's ledger exactly once, and so it stays after any further
    schedule, the ledger growing only at its end: the call either found the key there and wrote nothing, or
    appended it to a ledger that did not have it. *)
Theorem a_redemption_counts_once l x i isActive input eid now s0 s1 o s' l' x' :
  run_actions (il_do coupon_exec) l no_coupons = Some x -> il_pending x !! i = Some (TxRedeem isActive input eid now, [s0; s1]) ->
  RedeemCoupon isActive input eid now s0 s1 (il_store x) = (Ok o, s') ->
  run_actions (il_do coupon_exec) l' (mkInterleaved s' (delete i (il_pending x))) = Some x' ->
  length (filter (fun r => red_idempotencyKey r = ri_idempotencyKey input) (ledger_of (ro_couponId o) (il_store x'))) = 1%nat /\
  ledger_of (ro_couponId o) s' `prefix_of` ledger_of (ro_couponId o) (il_store x') /\
  if ro_duplicate o then s' = il_store x
  else (ri_idempotencyKey input ∉ red_idempotencyKey <$> ledger_of (ro_couponId o) (il_store x)) /\
       exists y, ledger_of (ro_couponId o) s' = ledger_of (ro_couponId o) (il_store x) ++ [y].
Proof.
  intros Hl Hi Hm Hl'. destruct (no_coupons_ok true) as [H0 Ho]. destruct (coupon_schedule true l no_coupons x (allowed_all l) H0 Ho Hl) as (Hx & Hox & _).
  assert (Hc : il_do coupon_exec (Commit i) x = Some (mkInterleaved s' (delete i (il_pending x)))) by (cbn; rewrite Hi; cbn; unfold committed; by rewrite Hm).
  assert (Hc' : run_actions (il_do coupon_exec) [Commit i] x = Some (mkInterleaved s' (delete i (il_pending x)))) by (cbn [run_actions]; by rewrite Hc).
  destruct (coupon_schedule true _ x _ (allowed_all _) Hx Hox Hc') as (Hs' & Hos' & _). cbn in Hs'.
  destruct (coupon_schedule true l' (mkInterleaved s' (delete i (il_pending x))) x' (allowed_all l') Hs' Hos' Hl') as (Hx' & _ & [Hev Hgr]). cbn in Hev, Hgr.
  destruct (Forall_lookup_1 _ _ _ _ Hox Hi) as (_ & Hsn & Hso). cbn in Hsn, Hso.
  apply Forall_cons in Hsn as [[Ha0 _] Hsn]. apply Forall_cons in Hsn as [[Ha1 Ea1] _]. inversion Hso as [|? ? _ Hall]; subst. apply Forall_cons in Hall as [E01 _].
  destruct (redeem_step true isActive input eid now s0 s1 (il_store x) o s' Ha0 Ha1 Hx E01 Ea1 Hm) as (_ & _ & Hin & Hd).
  assert (Hpre : ledger_of (ro_couponId o) s' `prefix_of` ledger_of (ro_couponId o) (il_store x') /\ NoDup (red_idempotencyKey <$> ledger_of (ro_couponId o) (il_store x'))).
  { unfold ledger_of in *. destruct (row_of (ro_couponId o) (cst_rows s')) as [r|] eqn:Hr; [|by apply elem_of_nil in Hin].
    destruct (Hev _ _ Hr) as (r' & Hr' & _). rewrite Hr'. split; [apply (Hgr _ _ _ Hr Hr')|]. apply row_of_Some in Hr' as [Hr' _]. apply Hx', Hr'. }
  destruct Hpre as [Hpre Hn]. split; [|done]. apply key_once; [done|]. destruct Hpre as [k ->]. rewrite fmap_app. apply elem_of_app. by left.
Qed.

Lemma redemptions_stay_within_the_limit_witness :
  let s := sample_after sample_race in
  Forall (begins (allowed false)) sample_race /\ run_actions (il_do coupon_exec) sample_race no_coupons = Some (mkInterleaved s []) /\
  (exists r, cst_rows s = [r] /\ co_usageCount (row_props r) = 2 /\ co_usageCount (row_props r) <= Z.max 2 1).
Proof.
  intros s. assert (Ha : Forall (begins (allowed false)) sample_race) by (repeat (constructor; [exact I|]); constructor).
  assert (Hl : run_actions (il_do coupon_exec) sample_race no_coupons = Some (mkInterleaved s [])) by (vm_compute; reflexivity).
  split; [exact Ha|]. split; [exact Hl|]. destruct (cst_rows s) as [|r [|? ?]] eqn:Hr; [vm_compute in Hr; discriminate Hr| |vm_compute in Hr; discriminate Hr].
  assert (Hin : r ∈ cst_rows (il_store (mkInterleaved (Tx := CouponTx) s []))) by (cbn [il_store]; rewrite Hr; left).
  destruct (redemptions_stay_within_the_limit _ _ r Ha Hl Hin) as (_ & _ & Hn & _).
  exists r. split; [reflexivity|]. vm_compute in Hr. injection Hr as <-. split; [reflexivity|]. exact (proj1 (Hn 2 eq_refl)).
Defined.

Definition sample_before : Interleaved (S := CouponStore) (Tx := CouponTx) := default no_coupons (run_actions (il_do coupon_exec) (take 12 sample_race) no_coupons).
Definition sample_k1 : RedeemCouponInput := mkRedeem " save10 " "ann" "k1" None (Some "ann@x") "t1".
Lemma a_redemption_counts_once_witness :
  exists s0 s' x', il_pending sample_before !! 0%nat = Some (TxRedeem (fun _ => true) sample_k1 "e" 5, [s0; s0]) /\
    RedeemCoupon (fun _ => true) sample_k1 "e" 5 s0 s0 (il_store sample_before) = (Ok (mkRedeemOutput "c1" cs_active "promo-1" false), s') /\
    run_actions (il_do coupon_exec) (drop 13 sample_race) (mkInterleaved s' (delete 0%nat (il_pending sample_before))) = Some x' /\
    length (filter (fun r => red_idempotencyKey r = "k1") (ledger_of "c1" (il_store x'))) = 1%nat.
Proof.
  assert (Hl : run_actions (il_do coupon_exec) (take 12 sample_race) no_coupons = Some sample_before) by (vm_compute; reflexivity).
  set (s0 := sample_after (take 3 sample_race)). set (s' := sample_after (take 13 sample_race)).
  assert (Hi : il_pending sample_before !! 0%nat = Some (TxRedeem (fun _ => true) sample_k1 "e" 5, [s0; s0])) by (vm_compute; reflexivity).
  assert (Hm : RedeemCoupon (fun _ => true) sample_k1 "e" 5 s0 s0 (il_store sample_before) = (Ok (mkRedeemOutput "c1" cs_active "promo-1" false), s')) by (vm_compute; reflexivity).
  assert (Hl' : run_actions (il_do coupon_exec) (drop 13 sample_race) (mkInterleaved s' (delete 0%nat (il_pending sample_before))) =
    Some (mkInterleaved (sample_after sample_race) [])) by (vm_compute; reflexivity).
  exists s0, s', (mkInterleaved (sample_after sample_race) []). split; [exact Hi|]. split; [exact Hm|]. split; [exact Hl'|].
  exact (proj1 (a_redemption_counts_once _ _ _ _ _ _ _ _ _ _ _ _ _ Hl Hi Hm Hl')).
Defined.

(** A coupon with a limit of 5 is redeemed twice, its limit is lowered to 2, and a third customer redeems it;
    then the limit is raised to 100. *)
Definition sample_lowered : list (Action CouponTx) :=
  [Begin (TxCreate "c1" (sample_input "save10" true (Some 5))); Read 0; Commit 0;
   Begin (sample_redeem "k1" "ann" "ann@x"); Read 0; Read 0; Commit 0; Begin (sample_redeem "k2" "bob" "bob@x"); Read 0; Read 0; Commit 0;
   Begin (TxReconfigure (mkReconfigure "c1" "t1" "SAVE10" true (Some 2))); Read 0; Read 0; Commit 0;
   Begin (sample_redeem "k3" "eve" "eve@x"); Read 0; Read 0; Commit 0;
   Begin (TxReconfigure (mkReconfigure "c1" "t1" "SAVE10" true (Some 100))); Read 0; Read 0; Commit 0].
Definition usage_of (id : string) (s : CouponStore) : option (CouponStatusValue * option Z * Z) :=
  (fun r => (co_status (row_props r), co_usageLimit (row_props r), co_usageCount (row_props r))) <$> row_of id (cst_rows s).

(** A reconfiguration compares the new limit with nothing. A coupon whose limit is lowered to what was
    already used stays active and takes one redemption more, past the limit; and one that was depleted
    stays depleted when its limit is raised, since no transition leaves that status. *)
Theorem a_lowered_limit_is_exceeded :
  usage_of "c1" (sample_after (take 15 sample_lowered)) = Some (cs_active, Some 2, 2) /\
  usage_of "c1" (sample_after (take 19 sample_lowered)) = Some (cs_depleted, Some 2, 3) /\
  usage_of "c1" (sample_after sample_lowered) = Some (cs_depleted, Some 100, 3) /\
  forall st, canTransitionCoupon cs_depleted st = false.
Proof. split; [by vm_compute|]. split; [by vm_compute|]. split; [by vm_compute|]. by intros []. Qed.
